(* ===== verification/_CoqProject ===== *)
-Q . S2P
Prelude.v
Mem.v
Str.v
Riscv.v
Spinlock.v
Kalloc.v
Vm.v
VmPt.v
VmWalk.v
VmMap.v
VmUser.v
VmFree.v
VmCopy.v
VmThms.v
VmKernel.v
Block.v
Sleeplock.v
Bio.v
BioLru.v
BioFacts.v
BioOps.v
BioThms.v
Log.v
LogFacts.v
LogRun.v
LogCrash.v
LogBoot.v
LogSys.v
LogThms.v
VmUserMem.v
Fs.v
FsBlocks.v
FsAlloc.v
FsBmap.v
FsFile.v
FsWrite.v
FsInode.v
BlockLog.v
FsThms.v
FsPath.v
FsItab.v
FsDir.v
FsDirThms.v
Ring.v
Pipe.v
PipeThms.v
Proc.v
ProcSleep.v
ProcThms.v
ProcInv.v
ProcInit.v
File.v
Sysfile.v
SysfileThms.v
Grep.v
Printf.v
Uart.v
Console.v
ConsoleThms.v
Virtio.v
VirtioInv.v
VirtioThms.v
Sh.v
ShThms.v
ShPrint.v
ShRun.v
Umalloc.v
UmallocThms.v
Syscall.v
Trap.v
TrapThms.v
Exec.v
ExecThms.v
Mkfs.v
MkfsFile.v
MkfsRun.v
MkfsThms.v
Progs.v
ProgsThms.v
Boot.v
