(* ===== verification/Prelude.v ===== *)
(** * xv6 for RISC-V: a verification development

    The program is the xv6 teaching kernel with its user programs (Xv6/kernel,
    Xv6/user, Xv6/mkfs).  This development translates its C code into
    executable definitions and proves what makes each part correct.  This
    file is the shared prelude: outcomes and the state monad, integers of C,
    lists, and the tactics and hint databases.

    ** Parts of the program and how they interact

    - Spin locks (kernel/spinlock.c) protect every other part.
    - kalloc.c hands out physical pages; vm.c builds page tables from them and
      copies between the kernel and user memory; proc.c owns one page table
      per process.
    - Disk blocks: virtio_disk.c, under the buffer cache (bio.c, with the
      sleeping locks of sleeplock.c), under the write-ahead log (log.c), under
      the file system (fs.c: blocks, inodes, directories, paths).
    - Open files (file.c) join inodes, pipes (pipe.c) and devices; sysfile.c
      has the system calls on descriptors and paths; proc.c duplicates and
      closes descriptors in fork() and exit().
    - proc.c schedules: sleep() and wakeup() are how all other parts wait.
    - trap.c takes a trap from user space to a system call (syscall.c, with
      sysproc.c and sysfile.c) or a device interrupt (plic.c, uart.c with
      console.c, virtio_disk.c); exec.c replaces the memory of a process.
    - mkfs makes the disk image on the host.
    - User programs run on the system calls; user/ulib.c, user/printf.c and
      user/umalloc.c are their library; user/sh.c is the shell.

    ** Files

    Shared: [Prelude], [Mem] (byte-addressed memory), [Riscv] (riscv.h,
    memlayout.h, param.h), [Block] (the bytes of a disk block, and the interface
    [UserMem] to the memory of the calling process).

    - string.c: [Str].
    - spinlock.c: [Spinlock].
    - kalloc.c: [Kalloc], with the interface [PageAllocator].
    - vm.c: [Vm] (the code); [VmPt], [VmWalk], [VmMap], [VmUser], [VmFree],
      [VmCopy] (page tables in memory, walk and mapping, allocation, freeing,
      user memory); [VmThms] (properties); [VmKernel] (the kernel's own table).
    - sleeplock.c: [Sleeplock].
    - bio.c: [Bio] (the code, with the interface [DiskDriver]); [BioLru] (the
      linked list), [BioFacts], [BioOps], [BioThms].
    - log.c: [Log] (the code); [LogFacts], [LogRun] (the disk writes of
      commit() and recovery), [LogCrash] (crashes), [LogBoot] (recovery and
      the calls of a transaction), [LogSys] (interleaved system calls), [LogThms].
    - fs.c: [Fs] (the code, over the interface [BlockLayer] to the log, which
      is in [Block]), [FsBlocks], [FsAlloc], [FsBmap], [FsFile], [FsWrite], [FsInode], [FsPath] (the code and
      properties of paths), [FsItab], [FsDir], [FsDirThms], [FsThms];
      [BlockLog] shows that log.c and bio.c implement [BlockLayer].
    - pipe.c: [Pipe] (the code), [PipeThms]; [Ring] has the facts about
      circular buffers that pipes, the console and the UART share.
    - proc.c: [Proc] (the code, with the interface [FileLayer]), [ProcSleep]
      (sleep and wakeup interleaved), [ProcThms] (fork(), exit(), wait(),
      sleep(), wakeup()), [ProcInv] (the process table in every history of calls),
      [ProcInit] (the first process).
    - file.c: [File]; sysfile.c: [Sysfile], [SysfileThms].
    - [VmUserMem] shows that vm.c's copyin() and copyout() implement
      [UserMem].
    - uart.c: [Uart]; console.c: [Console] (the code), [ConsoleThms].
    - virtio_disk.c: [Virtio] (the code and the device's side of the queue),
      [VirtioInv] (the invariant of the descriptor rings), [VirtioThms]
      (with the handshake of virtio_disk_init()).
    - syscall.c and sysproc.c: [Syscall], with the interfaces [DeviceLayer]
      (what interrupts do to the devices) and [FileCalls] (the system calls of
      sysfile.c); trap.c and plic.c: [Trap]; [TrapThms].
    - exec.c, elf.h and sys_exec(): [Exec], with the interface [ExecFiles]
      (the inode operations exec() calls); [ExecThms], with [ReadFile], what
      exec() relies on of them.
    - user/sh.c: [Sh] (the parser), [ShThms] (termination, spans of tokens),
      [ShPrint] (printing of commands and the round trip), [ShRun] (runcmd()
      and main()).
    - user/umalloc.c: [Umalloc] (the code), [UmallocThms].
    - mkfs/mkfs.c: [Mkfs] (the code), [MkfsFile] (a file in the image),
      [MkfsRun] (iappend() and its loop, inodes), [MkfsThms].
    - user/cat.c, wc.c, ls.c, echo.c, ln.c, rm.c, mkdir.c, kill.c, init.c,
      zombie.c, cow.c, forktest.c, stressfs.c: [Progs] (the code, as the system calls made), [ProgsThms], with the
      random numbers of user/grind.c.
    - user/grep.c: [Grep]; kernel/printf.c, user/printf.c, user/ulib.c:
      [Printf].
    - start.c and main.c: [Boot], which also puts the kernel together: fs.c,
      log.c and bio.c implement [FileLayer], [ExecFiles] and [ReadFile], the
      drivers [DeviceLayer].
      printf() and panic() of the kernel are here too, on its state.

    A function of the source is the definition of the same name, its loops
    are the definitions [<function>_loop]; a C struct is a record with the
    source's fields.  Pointers into the fixed tables of the kernel (buffers,
    inodes, files, processes) are indices; pointers to memory are addresses.
    Integers are [Z], reduced to their width where the source's arithmetic
    can leave it.

    ** Outcomes and fuel

    Code is in the state monad [M S A].  A run returns ([Ret]), calls panic()
    ([Panic], with the source's message), gives up the CPU on a wait channel
    ([Sleep]) or exhausts its fuel ([NoFuel]).  [Sleep] carries the state at
    that moment; when the process runs again it repeats the loop test of the
    caller, which each file says how it models.  Fuel is never a parameter
    chosen by a theorem except where the C loop has no bound (the spinning of
    acquire(), strlen()): a loop's fuel is computed from its bounds (the pages
    of a range, the entries of a table, the bytes still to copy), and the
    theorems that a function returns [Ret] show that it suffices.

    ** What the theorems show

    - Locks: mutual exclusion for any number of harts interleaved at their
      atomic accesses; interrupt nesting counts the locks held; holding() is
      exact.
    - Physical memory: kalloc() never hands a page out twice; kalloc.c
      implements [PageAllocator].
    - Virtual memory, for any [PageAllocator]: mappages(), uvmunmap(),
      uvmalloc(), uvmcopy(), uvmfree() by their effect on the translation,
      with the all-or-nothing behaviour when memory runs out, how much memory
      is enough, and no user page lost: after a failure the page-table pages
      that were added stay in the table, where uvmfree() finds them;
      copyout(), copyin() and copyinstr() through the user's view of memory;
      the kernel's own table maps what it should and nothing else.
    - Buffer cache: it refines the array of blocks, keeps one copy of a block,
      and recycles the least recently used buffer.
    - Log: a crash at any disk write of commit() leaves, after recovery, all
      or nothing of the transaction; recovery itself can crash at any write;
      commit() excludes system calls; log_write() succeeds within the
      reservation, and the reservation is one block short for the log mkfs
      makes (a finding).
    - File system: balloc() and bfree(), bmap(), readi() of what writei()
      wrote, from and to kernel memory or readable and writable user memory;
      directories as finite maps of names, paths, one table entry per
      inode.  They hold over any [BlockLayer].
    - Pipes: for any interleaving the bytes read are the bytes written, in
      order.
    - Processes: no wakeup is lost between the test of a condition and
      sleep(); fork() makes a copy, exit() hands the children to init, wait()
      reaps; the process table stays well formed in every history of calls
      in which the pids fit an int (unique pids, pid 0 and no parent in
      unused entries, no dangling parent); kill(0) marks an unused entry as
      killed (a finding).
    - Open files: every system call of sysfile.c but exec() changes a file's
      reference count by the change in the descriptors that name it; exec()
      leaves the open files and the descriptors alone.
    - Devices: the UART sends the bytes it was given in order; the console's
      line discipline delivers finished lines and nothing else; a request of
      virtio_disk_rw() transfers its own block, whatever requests are in
      flight, and leaves the descriptors as it found them; once initialised,
      the disk driver panics only when the device reports a failed request.
    - Traps: a system call runs the function of its number, with the program
      counter advanced once, its result in a0; sys_sleep() waits for its
      ticks.
    - exec(): the segments of the program are in its memory, over zeros; its
      stack holds the arguments, as argc and argv read them; the old image
      survives every failure.
    - The shell: the parser terminates on every line and reads back every
      printed command; running a command does what its tree says.
    - malloc() and free(): blocks handed out are disjoint from each other and
      from the free list, which keeps its order; in any heap a request
      for one of the 15 largest sizes, whose size in units overflows, gets a
      pointer to the end of the process (a finding).
    - mkfs: of any files that fit it makes an image that satisfies the
      invariants of fs.c and that the kernel reads as those files; its limits
      (a root directory that fills its blocks, too many inodes, a big-endian
      host) are findings.
    - User code: grep's matcher decides its patterns, grep() prints the
      matching lines that come before the first NUL; cat -n numbers lines read by read; wc counts lines,
      words and bytes; printf's numbers read back.
    - Boot: start() enters main() in supervisor mode with the timer set; main()
      on hart 0 ends with every table of the kernel set up and the first
      process runnable on initcode; no other hart runs before that, and all
      of them then do; panic() prints its message and nothing follows it.

    Theorems about interfaces are stated for any implementation in a section;
    the witnesses instantiate them with the code's own implementation and
    concrete data.

    ** Not modelled

    - The assembly (swtch.S, trampoline.S, kernelvec.S, entry.S), but for the
      mret that ends start(); memory-ordering fences: harts interleave at
      their accesses.
    - ramdisk.c is not part of the build.
    - Messages of printf() inside kernel functions other than main() and
      panic(), which change no state.
    - The test programs usertests.c and grind.c (but for its random numbers),
      which make system calls and compare results; xargs.c, which is not built.
    - Left open: an instance of [FileCalls] from [Sysfile], and the image of
      mkfs as the disk of the booted kernel. *)

From stdpp Require Import base gmap strings numbers list.
From coqutil Require Import Byte Word.LittleEndianList.

#[global] Open Scope Z_scope.

(** ** Outcomes of kernel code

    A kernel function is a state transformer.  Besides returning it can call
    [panic] (which never returns), or give up the CPU in [sleep] on a wait
    channel; [NoFuel] marks the exhaustion of the fuel of a loop that is not
    structurally recursive, and the theorems show it does not occur. *)

(** Wait channels.  The source uses addresses of kernel objects as channels;
    each constructor names the object whose address is used. *)
Inductive chan :=
| ChanProc (i : nat)         (* a struct proc, in wait() and exit() *)
| ChanBufLock (i : nat)      (* &bcache.buf[i].lock *)
| ChanInodeLock (i : nat)    (* &itable.inode[i].lock *)
| ChanBuf (i : nat)          (* struct buf, virtio_disk_rw() *)
| ChanDiskFree               (* &disk.free[0] *)
| ChanLog                    (* &log *)
| ChanPipeRead (pi : Z)      (* &pi->nread *)
| ChanPipeWrite (pi : Z)     (* &pi->nwrite *)
| ChanTicks                  (* &ticks *)
| ChanCons                   (* &cons.r *)
| ChanUart.                  (* &uart_tx_r *)

#[global] Instance chan_eq_dec : EqDecision chan.
Proof. solve_decision. Defined.

Inductive res (S A : Type) : Type :=
| Ret (a : A) (s : S)
| Panic (msg : string)
| Sleep (c : chan) (s : S)
| NoFuel.
Arguments Ret {S A} a s.
Arguments Panic {S A} msg.
Arguments Sleep {S A} c s.
Arguments NoFuel {S A}.

Definition M (S A : Type) : Type := S → res S A.

#[global] Instance M_ret {S} : MRet (M S) := λ A a s, Ret a s.
#[global] Instance M_bind {S} : MBind (M S) := λ A B f m s,
  match m s with
  | Ret a s' => f a s'
  | Panic msg => Panic msg
  | Sleep c s' => Sleep c s'
  | NoFuel => NoFuel
  end.

Definition panic {S A} (msg : string) : M S A := λ _, Panic msg.
Definition no_fuel {S A} : M S A := λ _, NoFuel.
Definition sleep_on {S A} (c : chan) : M S A := λ s, Sleep c s.
Definition gets {S A} (f : S → A) : M S A := λ s, Ret (f s) s.
Definition modify {S} (f : S → S) : M S unit := λ s, Ret tt (f s).

(** [zoom get put m] runs [m], a computation on a component's state, inside
    a larger state that contains it. *)
Definition zoom {S T A} (get : S → T) (put : T → S → S) (m : M T A) : M S A := λ s,
  match m (get s) with
  | Ret a t => Ret a (put t s)
  | Panic msg => Panic msg
  | Sleep c t => Sleep c (put t s)
  | NoFuel => NoFuel
  end.

(** ** Machine integers: Z with the wrap-around written out *)

Definition u8 (x : Z) : Z := x mod 2 ^ 8.
Definition u16 (x : Z) : Z := x mod 2 ^ 16.
Definition u32 (x : Z) : Z := x mod 2 ^ 32.
Definition u64 (x : Z) : Z := x mod 2 ^ 64.
(** Conversion to a 32-bit (16-bit) signed integer. *)
Definition i32 (x : Z) : Z := (x + 2 ^ 31) mod 2 ^ 32 - 2 ^ 31.
Definition i16 (x : Z) : Z := (x + 2 ^ 15) mod 2 ^ 16 - 2 ^ 15.

(** ** Hints and tactics of the development *)

Create HintDb xv6.

(** Case analysis on the scrutinee of a match in a hypothesis or the goal. *)
Ltac case_match_in H :=
  match type of H with
  | context [match ?x with _ => _ end] => destruct x eqn:?; try discriminate H
  end.

(** Turn boolean comparisons on Z in the context into propositions. *)
Ltac zbool :=
  repeat match goal with
  | H : (_ && _)%bool = true |- _ => apply andb_true_iff in H as [? ?]
  | H : (_ || _)%bool = false |- _ => apply orb_false_iff in H as [? ?]
  | H : negb _ = true |- _ => apply negb_true_iff in H
  | H : negb _ = false |- _ => apply negb_false_iff in H
  | H : (_ =? _) = true |- _ => apply Z.eqb_eq in H
  | H : (_ =? _) = false |- _ => apply Z.eqb_neq in H
  | H : (_ <? _) = true |- _ => apply Z.ltb_lt in H
  | H : (_ <? _) = false |- _ => apply Z.ltb_ge in H
  | H : (_ <=? _) = true |- _ => apply Z.leb_le in H
  | H : (_ <=? _) = false |- _ => apply Z.leb_gt in H
  end.

(** ** Laws of the monad *)

Section monad_laws.
Context {S : Type}.

Lemma bind_ret_l {A B} (a : A) (f : A → M S B) s : (mret a ≫= f) s = f a s.
Proof. reflexivity. Qed.

Lemma bind_Ret {A B} (m : M S A) (f : A → M S B) s a s' :
  m s = Ret a s' → (m ≫= f) s = f a s'.
Proof. unfold mbind, M_bind. by intros ->. Qed.

Lemma bind_gets {A B} (f : S → A) (k : A → M S B) s : (gets f ≫= k) s = k (f s) s.
Proof. reflexivity. Qed.

Lemma bind_modify {B} (f : S → S) (k : unit → M S B) s : (modify f ≫= k) s = k tt (f s).
Proof. reflexivity. Qed.

Lemma bind_Panic {A B} (m : M S A) (f : A → M S B) s msg :
  m s = Panic msg → (m ≫= f) s = Panic msg.
Proof. unfold mbind, M_bind. by intros ->. Qed.

Lemma bind_Ret_inv {A B} (m : M S A) (f : A → M S B) s b s'' :
  (m ≫= f) s = Ret b s'' → ∃ a s', m s = Ret a s' ∧ f a s' = Ret b s''.
Proof. unfold mbind, M_bind. destruct (m s) eqn:?; try discriminate. eauto. Qed.

Lemma bind_assoc {A B C} (m : M S A) (f : A → M S B) (g : B → M S C) s :
  ((m ≫= f) ≫= g) s = (m ≫= λ a, f a ≫= g) s.
Proof. unfold mbind, M_bind. by destruct (m s). Qed.

Lemma zoom_Ret {T A} (get : S → T) put (m : M T A) s a t :
  m (get s) = Ret a t → zoom get put m s = Ret a (put t s).
Proof. unfold zoom. by intros ->. Qed.

Lemma zoom_Ret_inv {T A} (get : S → T) put (m : M T A) s a s' :
  zoom get put m s = Ret a s' → ∃ t, m (get s) = Ret a t ∧ s' = put t s.
Proof. unfold zoom. destruct (m (get s)); intros H; simplify_eq; eauto. Qed.

End monad_laws.

(** [minv H] opens a hypothesis [H : (m ≫= f) s = Ret b s'] into the steps. *)
Ltac minv1 H :=
  let a := fresh "r" in let s := fresh "st" in
  let H1 := fresh "Hm" in
  apply bind_Ret_inv in H as (a & s & H1 & H).

(** ** Machine integers: facts *)

Lemma u64_id x : 0 ≤ x < 2 ^ 64 → u64 x = x.
Proof. apply Z.mod_small. Qed.
Lemma u32_id x : 0 ≤ x < 2 ^ 32 → u32 x = x.
Proof. apply Z.mod_small. Qed.
Lemma u64_range x : 0 ≤ u64 x < 2 ^ 64.
Proof. apply Z.mod_pos_bound. lia. Qed.
Lemma u32_range x : 0 ≤ u32 x < 2 ^ 32.
Proof. apply Z.mod_pos_bound. lia. Qed.
Lemma i32_id x : - 2 ^ 31 ≤ x < 2 ^ 31 → i32 x = x.
Proof. intros. unfold i32. rewrite Z.mod_small; lia. Qed.
Lemma i32_range x : - 2 ^ 31 ≤ i32 x < 2 ^ 31.
Proof. unfold i32. pose proof (Z.mod_pos_bound (x + 2 ^ 31) (2 ^ 32)). lia. Qed.

#[export] Hint Resolve u64_range u32_range i32_range : xv6.

(** ** Lists *)

Lemma list_find_Some_first {A} (P : A → Prop) `{∀ x, Decision (P x)} l i x :
  list_find P l = Some (i, x) →
  l !! i = Some x ∧ P x ∧ ∀ j y, l !! j = Some y → (j < i)%nat → ¬ P y.
Proof. rewrite list_find_Some. naive_solver. Qed.

Lemma filter_all {A} (P : A → Prop) `{∀ x, Decision (P x)} (l : list A) :
  (∀ x, x ∈ l → P x) → filter P l = l.
Proof.
  induction l as [|a l IH]; intros Hall; [done|].
  rewrite filter_cons_True by (apply Hall; left). f_equal. apply IH.
  intros x Hx. apply Hall. by right.
Qed.

(** ** Triples: if [m] returns from a state in [P], it does so in [Q] *)

Section tri.
Context {S : Type}.

Definition tri {A} (P : S → Prop) (m : M S A) (Q : A → S → Prop) : Prop := ∀ s a s', P s → m s = Ret a s' → Q a s'.

Lemma tri_bind {A C} (P : S → Prop) (R : A → S → Prop) (Q : C → S → Prop) m k :
  tri P m R → (∀ a, tri (R a) (k a) Q) → tri P (m ≫= k) Q.
Proof. intros Hm Hk s c s'' HP (a & s' & E1 & E2)%bind_Ret_inv. exact (Hk a s' c s'' (Hm s a s' HP E1) E2). Qed.

Lemma tri_ret {A} (P : S → Prop) (a : A) (Q : A → S → Prop) : (∀ s, P s → Q a s) → tri P (mret a) Q.
Proof. intros H s x s' HP [= <- <-]. by apply H. Qed.

Lemma tri_panic {A} (P : S → Prop) msg (Q : A → S → Prop) : tri P (panic msg) Q.
Proof. intros s x s' _ [=]. Qed.

Lemma tri_pre {A} (P P' : S → Prop) (m : M S A) Q : (∀ s, P s → P' s) → tri P' m Q → tri P m Q.
Proof. intros HP Hm s a s' H E. exact (Hm s a s' (HP s H) E). Qed.

Lemma tri_post {A} (P : S → Prop) (m : M S A) (Q Q' : A → S → Prop) : tri P m Q → (∀ a s, Q a s → Q' a s) → tri P m Q'.
Proof. intros Hm HQ s a s' H E. exact (HQ a s' (Hm s a s' H E)). Qed.

Lemma tri_gets {A} (P : S → Prop) (f : S → A) : tri P (gets f) (λ a s, P s ∧ a = f s).
Proof. intros s a s' HP [= <- <-]. done. Qed.

Lemma tri_modify (P : S → Prop) (f : S → S) (Q : unit → S → Prop) : (∀ s, P s → Q tt (f s)) → tri P (modify f) Q.
Proof. intros H s a s' HP E. injection E as <- <-. by apply H. Qed.

Lemma tri_ex {A B} (P : B → S → Prop) (m : M S A) Q : (∀ b, tri (P b) m Q) → tri (λ s, ∃ b, P b s) m Q.
Proof. intros H s a s' [b Hb] E. by eapply H. Qed.

Lemma tri_and {A} (X : Prop) (P : S → Prop) (m : M S A) Q : (X → tri P m Q) → tri (λ s, P s ∧ X) m Q.
Proof. intros H s a s' [HP HX] E. by eapply H. Qed.
End tri.

(** A component of a state that a property does not look at. *)
Lemma tri_zoom {S T A} (get : S → T) put (P : S → Prop) (m : M T A) : (∀ t s, P s → P (put t s)) → tri P (zoom get put m) (λ _, P).
Proof. intros H s a s' HP (t & _ & ->)%zoom_Ret_inv. by apply H. Qed.
