(* ===== verification/Mem.v ===== *)
(** * Byte-addressed memory

    The physical memory the kernel works on: a total map from addresses to
    bytes, with the 8-, 32- and 64-bit little-endian accesses the C code
    performs through [char *], [uint *] and [uint64 *] pointers. *)

From stdpp Require Import base strings numbers list.
From coqutil Require Import Byte Word.LittleEndianList.
From S2P Require Import Prelude.

Definition mem : Type := Z → byte.

Definition load_bytes (m : mem) (a : Z) (n : nat) : list byte :=
  (λ i, m (a + Z.of_nat i)) <$> seq 0 n.

Definition store_bytes (m : mem) (a : Z) (l : list byte) : mem := λ x,
  if (a <=? x) && (x <? a + Z.of_nat (length l))
  then nth (Z.to_nat (x - a)) l Byte.x00 else m x.

Definition load8 (m : mem) (a : Z) : Z := byte.unsigned (m a).
Definition store8 (m : mem) (a v : Z) : mem := λ x, if x =? a then byte.of_Z v else m x.
Definition load32 (m : mem) (a : Z) : Z := le_combine (load_bytes m a 4).
Definition store32 (m : mem) (a v : Z) : mem := store_bytes m a (le_split 4 v).
Definition load64 (m : mem) (a : Z) : Z := le_combine (load_bytes m a 8).
Definition store64 (m : mem) (a v : Z) : mem := store_bytes m a (le_split 8 v).

(** Two memories agree on the [n] bytes from [a]. *)
Definition agree (m m' : mem) (a n : Z) : Prop := ∀ x, a ≤ x < a + n → m x = m' x.

(** ** Facts *)

Lemma load_bytes_length m a n : length (load_bytes m a n) = n.
Proof. unfold load_bytes. by rewrite length_fmap, length_seq. Qed.

Lemma load_bytes_lookup m a n i :
  (i < n)%nat → load_bytes m a n !! i = Some (m (a + Z.of_nat i)).
Proof.
  intros Hi. unfold load_bytes. rewrite list_lookup_fmap, lookup_seq_lt by done. done.
Qed.

Lemma load_bytes_ext m m' a n :
  agree m m' a (Z.of_nat n) → load_bytes m a n = load_bytes m' a n.
Proof.
  intros Hag. unfold load_bytes. apply list_fmap_ext. intros i x Hx.
  apply lookup_seq in Hx as [-> Hi]. apply Hag. lia.
Qed.

Lemma store_bytes_in m a l i b :
  l !! i = Some b → store_bytes m a l (a + Z.of_nat i) = b.
Proof.
  intros Hl. pose proof (lookup_lt_Some _ _ _ Hl) as Hlt. unfold store_bytes.
  destruct (Z.leb_spec a (a + Z.of_nat i)); [|lia].
  destruct (Z.ltb_spec (a + Z.of_nat i) (a + Z.of_nat (length l))); [|lia]. simpl.
  replace (Z.to_nat (a + Z.of_nat i - a)) with i by lia.
  by apply nth_lookup_Some.
Qed.

Lemma store_bytes_out m a l x :
  x < a ∨ a + Z.of_nat (length l) ≤ x → store_bytes m a l x = m x.
Proof.
  intros Hx. unfold store_bytes.
  destruct (Z.leb_spec a x), (Z.ltb_spec x (a + Z.of_nat (length l))); simpl; lia || done.
Qed.

Lemma load_store_bytes m a l : load_bytes (store_bytes m a l) a (length l) = l.
Proof.
  apply list_eq_same_length with (length l); [|by rewrite load_bytes_length|].
  { done. }
  intros i x y Hi Hx Hy. rewrite load_bytes_lookup in Hx by done.
  rewrite (store_bytes_in _ _ _ _ _ Hy) in Hx. by simplify_eq.
Qed.

Lemma agree_sym m m' a n : agree m m' a n → agree m' m a n.
Proof. intros H x Hx. symmetry. auto. Qed.

Lemma agree_trans m1 m2 m3 a n : agree m1 m2 a n → agree m2 m3 a n → agree m1 m3 a n.
Proof. intros H1 H2 x Hx. rewrite H1, H2; auto. Qed.

Lemma agree_sub m m' a n b k :
  agree m m' a n → a ≤ b → b + k ≤ a + n → agree m m' b k.
Proof. intros H ?? x Hx. apply H. lia. Qed.

Lemma load64_ext m m' a : agree m m' a 8 → load64 m a = load64 m' a.
Proof. intros. unfold load64. f_equal. by apply load_bytes_ext. Qed.

Lemma load32_ext m m' a : agree m m' a 4 → load32 m a = load32 m' a.
Proof. intros. unfold load32. f_equal. by apply load_bytes_ext. Qed.

Lemma load64_range m a : 0 ≤ load64 m a < 2 ^ 64.
Proof.
  unfold load64. pose proof (le_combine_bound (load_bytes m a 8)) as H.
  rewrite load_bytes_length in H. exact H.
Qed.

Lemma load64_store64_eq m a v : load64 (store64 m a v) a = u64 v.
Proof.
  unfold load64, store64, u64.
  replace (load_bytes _ a 8) with (le_split 8 v);
    [by rewrite le_combine_split|].
  symmetry. rewrite <- (load_store_bytes m a (le_split 8 v)) at 2.
  by rewrite length_le_split.
Qed.

Lemma store64_out m a v x : x < a ∨ a + 8 ≤ x → store64 m a v x = m x.
Proof. intros. unfold store64. apply store_bytes_out. rewrite length_le_split. lia. Qed.

Lemma load64_store64_ne m a b v :
  b + 8 ≤ a ∨ a + 8 ≤ b → load64 (store64 m a v) b = load64 m b.
Proof. intros. apply load64_ext. intros x Hx. apply store64_out. lia. Qed.

Lemma load32_store32_eq m a v : load32 (store32 m a v) a = u32 v.
Proof.
  unfold load32, store32, u32.
  replace (load_bytes _ a 4) with (le_split 4 v);
    [by rewrite le_combine_split|].
  symmetry. rewrite <- (load_store_bytes m a (le_split 4 v)) at 2.
  by rewrite length_le_split.
Qed.

(** A 64-bit word all of whose bytes are zero is zero. *)
Lemma load64_zero m a : (∀ x, a ≤ x < a + 8 → m x = Byte.x00) → load64 m a = 0.
Proof.
  intros Hz. rewrite (load64_ext m (λ _, Byte.x00)); [done|]. intros x Hx. auto.
Qed.
