(* ===== verification/Str.v ===== *)
(** * kernel/string.c

    The memory and string routines of the kernel as loops over memory, each
    with the closed form it computes.  Pointers are addresses; objects do not
    wrap around the end of the address space. *)

From stdpp Require Import base strings numbers list.
From coqutil Require Import Byte Word.LittleEndianList.
From S2P Require Import Prelude Mem.

(** ** The routines *)

(** [for(i = 0; i < n; i++) cdst[i] = c], from index [i] with [k] to go. *)
Fixpoint memset_loop (k : nat) (m : mem) (dst c i : Z) : mem :=
  match k with
  | O => m
  | S k => memset_loop k (store8 m (dst + i) c) dst c (i + 1)
  end.

Definition memset (m : mem) (dst c n : Z) : mem := memset_loop (Z.to_nat n) m dst c 0.

Fixpoint memcmp (m : mem) (s1 s2 : Z) (n : nat) : Z :=
  match n with
  | O => 0
  | S n =>
    if negb (load8 m s1 =? load8 m s2) then load8 m s1 - load8 m s2
    else memcmp m (s1 + 1) (s2 + 1) n
  end.

(** [while(n-- > 0) *--d = *--s] *)
Fixpoint memmove_down (m : mem) (d s : Z) (n : nat) : mem :=
  match n with
  | O => m
  | S n => memmove_down (store8 m (d - 1) (load8 m (s - 1))) (d - 1) (s - 1) n
  end.

(** [while(n-- > 0) *d++ = *s++] *)
Fixpoint memmove_up (m : mem) (d s : Z) (n : nat) : mem :=
  match n with
  | O => m
  | S n => memmove_up (store8 m d (load8 m s)) (d + 1) (s + 1) n
  end.

Definition memmove (m : mem) (dst src n : Z) : mem :=
  if n =? 0 then m
  else if (src <? dst) && (dst <? src + n)
  then memmove_down m (dst + n) (src + n) (Z.to_nat n)
  else memmove_up m dst src (Z.to_nat n).

Definition memcpy (m : mem) (dst src n : Z) : mem := memmove m dst src n.

Fixpoint strncmp (m : mem) (p q : Z) (n : nat) : Z :=
  match n with
  | O => 0
  | S n' =>
    if negb (load8 m p =? 0) && (load8 m p =? load8 m q)
    then strncmp m (p + 1) (q + 1) n'
    else load8 m p - load8 m q
  end.

(** First loop of strncpy: [while(n-- > 0 && ( *s++ = *t++ ) != 0)];
    returns the memory, [s] and the number of bytes still to pad. *)
Fixpoint strncpy_copy (m : mem) (s t : Z) (n : nat) : mem * Z * nat :=
  match n with
  | O => (m, s, O)
  | S n =>
    let c := load8 m t in
    let m := store8 m s c in
    if negb (c =? 0) then strncpy_copy m (s + 1) (t + 1) n else (m, s + 1, n)
  end.

(** Second loop: [while(n-- > 0) *s++ = 0]. *)
Fixpoint strncpy_pad (m : mem) (s : Z) (n : nat) : mem :=
  match n with
  | O => m
  | S n => strncpy_pad (store8 m s 0) (s + 1) n
  end.

Definition strncpy (m : mem) (s t n : Z) : mem :=
  let '(m, s, k) := strncpy_copy m s t (Z.to_nat n) in strncpy_pad m s k.

(** [while(--n > 0 && ( *s++ = *t++ ) != 0)]; returns the memory and [s]. *)
Fixpoint safestrcpy_copy (m : mem) (s t : Z) (n : nat) : mem * Z :=
  match n with
  | O => (m, s)
  | S n =>
    let c := load8 m t in
    let m := store8 m s c in
    if negb (c =? 0) then safestrcpy_copy m (s + 1) (t + 1) n else (m, s + 1)
  end.

Definition safestrcpy (m : mem) (s t n : Z) : mem :=
  if n <=? 0 then m
  else let '(m, s) := safestrcpy_copy m s t (Z.to_nat (n - 1)) in store8 m s 0.

(** [for(n = 0; s[n]; n++)]: [None] when no NUL is met within the fuel. *)
Fixpoint strlen_from (fuel : nat) (m : mem) (s n : Z) : option Z :=
  match fuel with
  | O => None
  | S fuel => if load8 m (s + n) =? 0 then Some n else strlen_from fuel m s (n + 1)
  end.

Definition strlen (fuel : nat) (m : mem) (s : Z) : option Z := strlen_from fuel m s 0.

(** ** Specifications *)

(** The C string at [s]: [l] holds its bytes, none of them NUL, and a NUL follows. *)
Definition cstring (m : mem) (s : Z) (l : list byte) : Prop :=
  (∀ i b, l !! i = Some b → m (s + Z.of_nat i) = b ∧ b ≠ Byte.x00) ∧
  m (s + Z.of_nat (length l)) = Byte.x00.

(** Lexicographic comparison of C strings truncated at [n] bytes: the value
    strncmp is documented to compute, on lists. *)
Fixpoint strncmp_list (p q : list byte) (n : nat) {struct n} : Z :=
  match n, p, q with
  | O, _, _ => 0
  | S _, [], [] => 0
  | S _, [], b :: _ => - byte.unsigned b
  | S _, a :: _, [] => byte.unsigned a
  | S n, a :: p, b :: q =>
    if byte.unsigned a =? byte.unsigned b then strncmp_list p q n
    else byte.unsigned a - byte.unsigned b
  end.

(** ** Facts on single-byte accesses *)

Lemma store8_eq m a v : store8 m a v a = byte.of_Z v.
Proof. unfold store8. by rewrite Z.eqb_refl. Qed.

Lemma store8_ne m a v x : x ≠ a → store8 m a v x = m x.
Proof. intros. unfold store8. by destruct (Z.eqb_spec x a). Qed.

Lemma store8_load8 m a b : store8 m a (load8 m b) a = m b.
Proof. rewrite store8_eq. apply byte.of_Z_unsigned. Qed.

Lemma load8_range m a : 0 ≤ load8 m a < 256.
Proof. apply byte.unsigned_range. Qed.

Lemma byte_unsigned_0 b : byte.unsigned b = 0 ↔ b = Byte.x00.
Proof.
  split; [|by intros ->]. intros Hb.
  rewrite <- (byte.of_Z_unsigned b), Hb. done.
Qed.

#[export] Hint Resolve load8_range : xv6.

(** ** memset *)

Lemma memset_loop_spec k m dst c i x :
  memset_loop k m dst c i x =
  if (dst + i <=? x) && (x <? dst + i + Z.of_nat k) then byte.of_Z c else m x.
Proof.
  revert m i. induction k as [|k IH]; intros m i; cbn [memset_loop].
  - destruct (Z.leb_spec (dst + i) x), (Z.ltb_spec x (dst + i + Z.of_nat 0)); simpl; lia || done.
  - rewrite IH. unfold store8.
    destruct (Z.leb_spec (dst + (i + 1)) x), (Z.ltb_spec x (dst + (i + 1) + Z.of_nat k)),
      (Z.leb_spec (dst + i) x), (Z.ltb_spec x (dst + i + Z.of_nat (S k))),
      (Z.eqb_spec x (dst + i)); simpl; lia || done.
Qed.

Lemma memset_in m dst c n x : dst ≤ x < dst + n → memset m dst c n x = byte.of_Z c.
Proof.
  intros Hx. unfold memset. rewrite memset_loop_spec.
  destruct (Z.leb_spec (dst + 0) x), (Z.ltb_spec x (dst + 0 + Z.of_nat (Z.to_nat n)));
    simpl; lia || done.
Qed.

Lemma memset_out m dst c n x : x < dst ∨ dst + n ≤ x → memset m dst c n x = m x.
Proof.
  intros Hx. unfold memset. rewrite memset_loop_spec.
  destruct (Z.leb_spec (dst + 0) x), (Z.ltb_spec x (dst + 0 + Z.of_nat (Z.to_nat n)));
    simpl; lia || done.
Qed.

(** ** memmove *)

Lemma memmove_up_spec n m d s x :
  d ≤ s ∨ s + Z.of_nat n ≤ d →
  memmove_up m d s n x =
  if (d <=? x) && (x <? d + Z.of_nat n) then m (s + (x - d)) else m x.
Proof.
  revert m d s. induction n as [|n IH]; intros m d s Hov; cbn [memmove_up].
  - destruct (Z.leb_spec d x), (Z.ltb_spec x (d + Z.of_nat 0)); simpl; lia || done.
  - rewrite IH by lia.
    destruct (Z.leb_spec (d + 1) x), (Z.ltb_spec x (d + 1 + Z.of_nat n)),
      (Z.leb_spec d x), (Z.ltb_spec x (d + Z.of_nat (S n))); simpl; try lia.
    all: try (rewrite store8_ne by lia; (done || (f_equal; lia))).
    replace x with d by lia. rewrite store8_load8. f_equal. lia.
Qed.

Lemma memmove_down_spec n m d s x :
  s ≤ d →
  memmove_down m d s n x =
  if (d - Z.of_nat n <=? x) && (x <? d) then m (s + (x - d)) else m x.
Proof.
  revert m d s. induction n as [|n IH]; intros m d s Hov; cbn [memmove_down].
  - destruct (Z.leb_spec (d - Z.of_nat 0) x), (Z.ltb_spec x d); simpl; lia || done.
  - rewrite IH by lia.
    destruct (Z.leb_spec (d - 1 - Z.of_nat n) x), (Z.ltb_spec x (d - 1)),
      (Z.leb_spec (d - Z.of_nat (S n)) x), (Z.ltb_spec x d); simpl; try lia.
    all: try (rewrite store8_ne by lia; (done || (f_equal; lia))).
    replace x with (d - 1) by lia. rewrite store8_load8. f_equal. lia.
Qed.

Lemma memmove_spec m d s n x :
  0 ≤ n →
  memmove m d s n x =
  if (d <=? x) && (x <? d + n) then m (s + (x - d)) else m x.
Proof.
  intros Hn. unfold memmove. destruct (Z.eqb_spec n 0) as [->|Hn0].
  { destruct (Z.leb_spec d x), (Z.ltb_spec x (d + 0)); simpl; lia || done. }
  destruct (Z.ltb_spec s d), (Z.ltb_spec d (s + n)); simpl;
    rewrite ?memmove_up_spec, ?memmove_down_spec by lia; rewrite ?Z2Nat.id by lia;
    try done.
  destruct (Z.leb_spec (d + n - n) x), (Z.leb_spec d x), (Z.ltb_spec x (d + n));
    simpl; try lia; try done. f_equal. lia.
Qed.

Lemma memmove_in m d s n x : 0 ≤ n → d ≤ x < d + n → memmove m d s n x = m (s + (x - d)).
Proof.
  intros ??. rewrite memmove_spec by done.
  destruct (Z.leb_spec d x), (Z.ltb_spec x (d + n)); simpl; lia || done.
Qed.

Lemma memmove_out m d s n x : 0 ≤ n → x < d ∨ d + n ≤ x → memmove m d s n x = m x.
Proof.
  intros ??. rewrite memmove_spec by done.
  destruct (Z.leb_spec d x), (Z.ltb_spec x (d + n)); simpl; lia || done.
Qed.

Lemma load_bytes_memmove m d s n :
  load_bytes (memmove m d s (Z.of_nat n)) d n = load_bytes m s n.
Proof.
  unfold load_bytes. apply list_fmap_ext. intros i x Hx.
  apply lookup_seq in Hx as [-> Hi]. rewrite memmove_in by lia. f_equal. lia.
Qed.

(** ** Comparison and length *)

Lemma memcmp_zero m s1 s2 n :
  memcmp m s1 s2 n = 0 ↔ load_bytes m s1 n = load_bytes m s2 n.
Proof.
  revert s1 s2. induction n as [|n IH]; intros s1 s2; [done|].
  assert (Hs : ∀ s, load_bytes m s (S n) = m s :: load_bytes m (s + 1) n).
  { intros s. unfold load_bytes. cbn [seq]. rewrite fmap_cons, <- fmap_S_seq, <- list_fmap_compose.
    f_equal; [f_equal; lia|]. apply list_fmap_ext. intros. simpl. f_equal. lia. }
  rewrite !Hs. cbn [memcmp]. unfold load8.
  destruct (Z.eqb_spec (byte.unsigned (m s1)) (byte.unsigned (m s2))) as [He|He]; simpl.
  - rewrite IH. apply byte.unsigned_inj in He. rewrite He. split; [by intros ->|by intros [=]].
  - split; [lia|]. intros [= Heq _]. rewrite Heq in He. done.
Qed.

Lemma cstring_cons m s a l :
  cstring m s (a :: l) ↔ m s = a ∧ a ≠ Byte.x00 ∧ cstring m (s + 1) l.
Proof.
  unfold cstring. split.
  - intros [Hl Hz]. destruct (Hl 0%nat a) as [Ha Hn]; [done|].
    rewrite Z.add_0_r in Ha. split_and!; try done.
    + intros i b Hb. destruct (Hl (S i) b) as [<- ?]; [done|]. split; [f_equal; lia|].
      intros He. done.
    + rewrite <- Hz. f_equal. simpl. lia.
  - intros (Ha & Hn & Hl & Hz). split.
    + intros [|i] b Hb; simpl in Hb; simplify_eq.
      * rewrite Z.add_0_r. done.
      * destruct (Hl i b Hb) as [<- ?]. split; [f_equal; lia|done].
    + rewrite <- Hz. f_equal. simpl. lia.
Qed.

Lemma cstring_nil m s : cstring m s [] ↔ m s = Byte.x00.
Proof.
  unfold cstring. simpl. rewrite Z.add_0_r. split; [by intros [_ ?]|].
  intros ?. split; [intros i b Hb; by rewrite lookup_nil in Hb|done].
Qed.

Lemma strlen_from_spec m l s n fuel :
  cstring m (s + n) l → (length l < fuel)%nat →
  strlen_from fuel m s n = Some (n + Z.of_nat (length l)).
Proof.
  revert n fuel. induction l as [|a l IH]; intros n fuel Hc Hf;
    (destruct fuel as [|fuel]; [simpl in Hf; lia|]); cbn [strlen_from]; unfold load8.
  - apply cstring_nil in Hc. rewrite Hc. simpl. f_equal. lia.
  - apply cstring_cons in Hc as (Ha & Hn & Hc). rewrite Ha.
    destruct (Z.eqb_spec (byte.unsigned a) 0) as [He|He].
    { by apply byte_unsigned_0 in He. }
    simpl in Hf. rewrite IH; [f_equal; simpl; lia| |lia].
    by replace (s + (n + 1)) with (s + n + 1) by lia.
Qed.

Lemma strncmp_spec m p q lp lq n :
  cstring m p lp → cstring m q lq → strncmp m p q n = strncmp_list lp lq n.
Proof.
  revert p q lp lq. induction n as [|n IH]; intros p q lp lq Hp Hq; [done|].
  cbn [strncmp strncmp_list]. unfold load8.
  assert (Hnz : ∀ b, b ≠ Byte.x00 → byte.unsigned b ≠ 0) by (intros b ? He; by apply byte_unsigned_0 in He).
  destruct lp as [|a lp], lq as [|b lq];
    rewrite ?cstring_nil, ?cstring_cons in *; destruct_and?; simplify_eq.
  - rewrite Hp, Hq. done.
  - rewrite Hp. change (byte.unsigned Byte.x00) with 0. simpl. lia.
  - rewrite Hq. change (byte.unsigned Byte.x00) with 0.
    destruct (Z.eqb_spec (byte.unsigned (m p)) 0); simpl; [naive_solver|lia].
  - destruct (Z.eqb_spec (byte.unsigned (m p)) 0); [naive_solver|]. simpl.
    destruct (Z.eqb_spec (byte.unsigned (m p)) (byte.unsigned (m q))); [by apply IH|done].
Qed.
