(* ===== verification/Riscv.v ===== *)
(** * kernel/riscv.h, memlayout.h, param.h: constants and address arithmetic

    Page rounding, Sv39 page-table entries and indices, with the arithmetic
    meaning of the bit operations. *)

From stdpp Require Import base strings numbers list.
From S2P Require Import Prelude.

(** ** param.h *)
Definition NPROC : nat := 64.
Definition NOFILE : nat := 16.
Definition NFILE : nat := 100.
Definition NINODE : nat := 50.
Definition NDEV : Z := 10.
Definition ROOTDEV : Z := 1.
Definition MAXARG : nat := 32.
Definition MAXOPBLOCKS : Z := 10.
Definition LOGSIZE : Z := MAXOPBLOCKS * 3.
Definition NBUF : nat := 30.
Definition FSSIZE : Z := 2000.
Definition MAXPATH : Z := 128.

(** ** riscv.h *)
Definition PGSIZE : Z := 4096.
Definition PGSHIFT : Z := 12.
Definition PGROUNDUP (sz : Z) : Z := Z.land (u64 (sz + PGSIZE - 1)) (Z.lnot (PGSIZE - 1)).
Definition PGROUNDDOWN (a : Z) : Z := Z.land a (Z.lnot (PGSIZE - 1)).
Definition PTE_V : Z := Z.shiftl 1 0.
Definition PTE_R : Z := Z.shiftl 1 1.
Definition PTE_W : Z := Z.shiftl 1 2.
Definition PTE_X : Z := Z.shiftl 1 3.
Definition PTE_U : Z := Z.shiftl 1 4.
Definition PA2PTE (pa : Z) : Z := u64 (Z.shiftl (Z.shiftr pa 12) 10).
Definition PTE2PA (pte : Z) : Z := u64 (Z.shiftl (Z.shiftr pte 10) 12).
Definition PTE_FLAGS (pte : Z) : Z := Z.land pte 0x3FF.
Definition PXMASK : Z := 0x1FF.
Definition PXSHIFT (level : Z) : Z := PGSHIFT + 9 * level.
Definition PX (level va : Z) : Z := Z.land (Z.shiftr va (PXSHIFT level)) PXMASK.
Definition MAXVA : Z := Z.shiftl 1 (9 + 9 + 9 + 12 - 1).

(** ** memlayout.h *)
Definition UART0 : Z := 0x10000000.
Definition VIRTIO0 : Z := 0x10001000.
Definition PLIC : Z := 0x0c000000.
Definition KERNBASE : Z := 0x80000000.
Definition PHYSTOP : Z := KERNBASE + 128 * 1024 * 1024.
Definition TRAMPOLINE : Z := MAXVA - PGSIZE.
Definition KSTACK (p : Z) : Z := TRAMPOLINE - (p + 1) * 2 * PGSIZE.
Definition TRAPFRAME : Z := TRAMPOLINE - PGSIZE.

(** ** Addresses fixed by the linker script kernel.ld *)
Class image := Image {
  kend : Z;         (* end: first address after the kernel *)
  etext : Z;        (* end of kernel code *)
  trampoline : Z    (* the trampoline page *)
}.

(** What kernel.ld lays out: the kernel starts at KERNBASE, the trampoline and
    etext are page-aligned, in this order, and the image fits below PHYSTOP. *)
Class image_ok (I : image) := ImageOk {
  tramp_ge : KERNBASE ≤ trampoline;
  tramp_aligned : trampoline mod PGSIZE = 0;
  etext_eq : etext = trampoline + PGSIZE;
  kend_ge : etext ≤ kend;
  kend_lt : kend < PHYSTOP
}.

(** The values of the kernel.sym in the repository. *)
Definition image_sym : image := Image 0x80021d80 0x80008000 0x80007000.
#[export] Instance image_sym_ok : image_ok image_sym.
Proof. split; done. Qed.

(** [pgunfold; lia] for goals about page constants. *)
Ltac pgunfold := unfold PHYSTOP, TRAPFRAME, TRAMPOLINE, KERNBASE, PGSIZE, PGSHIFT in *;
  change MAXVA with 274877906944 in *.

(** ** Bit operations as arithmetic *)

Lemma land_lnot_ones x n : 0 ≤ n → Z.land x (Z.lnot (Z.ones n)) = x / 2 ^ n * 2 ^ n.
Proof.
  intros. rewrite <- Z.ldiff_land, Z.ldiff_ones_r by done.
  by rewrite Z.shiftl_mul_pow2, Z.shiftr_div_pow2 by done.
Qed.

Lemma PGROUNDDOWN_div a : PGROUNDDOWN a = a / 4096 * 4096.
Proof. unfold PGROUNDDOWN. change (PGSIZE - 1) with (Z.ones 12). by rewrite land_lnot_ones. Qed.

Lemma PGROUNDDOWN_sub a : PGROUNDDOWN a = a - a mod PGSIZE.
Proof. rewrite PGROUNDDOWN_div. unfold PGSIZE. pose proof (Z.div_mod a 4096). lia. Qed.

Lemma PGROUNDDOWN_aligned a : PGROUNDDOWN a mod PGSIZE = 0.
Proof. rewrite PGROUNDDOWN_div. unfold PGSIZE. apply Z.mod_mul. lia. Qed.

Lemma PGROUNDDOWN_bounds a : PGROUNDDOWN a ≤ a < PGROUNDDOWN a + PGSIZE.
Proof. rewrite PGROUNDDOWN_sub. pose proof (Z.mod_pos_bound a PGSIZE). unfold PGSIZE in *. lia. Qed.

Lemma PGROUNDDOWN_id a : a mod PGSIZE = 0 → PGROUNDDOWN a = a.
Proof. rewrite PGROUNDDOWN_sub. lia. Qed.

Lemma PGROUNDUP_div sz : 0 ≤ sz → sz + 4095 < 2 ^ 64 → PGROUNDUP sz = (sz + 4095) / 4096 * 4096.
Proof.
  intros. unfold PGROUNDUP. change (PGSIZE - 1) with (Z.ones 12).
  rewrite u64_id by (unfold PGSIZE; lia). rewrite land_lnot_ones by lia.
  unfold PGSIZE. do 2 f_equal. lia.
Qed.

Lemma PGROUNDUP_bounds sz : 0 ≤ sz → sz + 4095 < 2 ^ 64 →
  sz ≤ PGROUNDUP sz < sz + PGSIZE ∧ PGROUNDUP sz mod PGSIZE = 0.
Proof.
  intros. rewrite PGROUNDUP_div by done. unfold PGSIZE.
  pose proof (Z.div_mod (sz + 4095) 4096). pose proof (Z.mod_pos_bound (sz + 4095) 4096).
  split; [lia|]. apply Z.mod_mul. lia.
Qed.

Lemma PGROUNDUP_id sz : 0 ≤ sz → sz + 4095 < 2 ^ 64 → sz mod PGSIZE = 0 → PGROUNDUP sz = sz.
Proof.
  intros. destruct (PGROUNDUP_bounds sz) as [Hb Ha]; try done.
  unfold PGSIZE in *. pose proof (Z.div_mod sz 4096). pose proof (Z.div_mod (PGROUNDUP sz) 4096). lia.
Qed.

(** Indices and entries. *)
Lemma PX_div level va : 0 ≤ level → PX level va = va / 2 ^ (12 + 9 * level) mod 512.
Proof.
  intros. unfold PX, PXSHIFT, PGSHIFT. change PXMASK with (Z.ones 9).
  rewrite Z.land_ones, Z.shiftr_div_pow2 by lia. done.
Qed.

Lemma PX_range level va : 0 ≤ level → 0 ≤ PX level va < 512.
Proof. intros. rewrite PX_div by done. apply Z.mod_pos_bound. lia. Qed.

Lemma land_bit_testbit x n : 0 ≤ n → (Z.land x (Z.shiftl 1 n) =? 0) = negb (Z.testbit x n).
Proof.
  intros Hn. rewrite Z.shiftl_1_l. destruct (Z.eqb_spec (Z.land x (2 ^ n)) 0) as [E|E].
  - apply (f_equal (λ y, Z.testbit y n)) in E.
    rewrite Z.land_spec, Z.pow2_bits_true, andb_true_r, Z.bits_0 in E by done. by rewrite E.
  - destruct (Z.testbit x n) eqn:Ex; [done|]. destruct E. apply Z.bits_inj'. intros k Hk.
    rewrite Z.land_spec, Z.bits_0, Z.pow2_bits_eqb by done.
    destruct (Z.eqb_spec n k) as [<-|]; [by rewrite Ex|by rewrite andb_false_r].
Qed.

Lemma PA2PTE_div pa : 0 ≤ pa < 2 ^ 56 → PA2PTE pa = pa / 4096 * 1024.
Proof.
  intros. unfold PA2PTE. rewrite Z.shiftl_mul_pow2, Z.shiftr_div_pow2 by lia.
  apply u64_id. change (2 ^ 10) with 1024. change (2 ^ 12) with 4096.
  pose proof (Z.div_mod pa 4096). pose proof (Z.mod_pos_bound pa 4096). lia.
Qed.

Lemma lor_mul_small x f n : 0 ≤ n → 0 ≤ f < 2 ^ n → Z.lor (x * 2 ^ n) f = x * 2 ^ n + f.
Proof.
  intros Hn Hf. rewrite <- Z.shiftl_mul_pow2 by done.
  rewrite <- (Z.add_lor_land (Z.shiftl x n) f).
  replace (Z.land (Z.shiftl x n) f) with 0; [lia|]. symmetry.
  apply Z.bits_inj'. intros k Hk. rewrite Z.land_spec, Z.bits_0, Z.shiftl_spec by done.
  destruct (Z.ltb_spec k n).
  - rewrite Z.testbit_neg_r by lia. done.
  - rewrite <- (Z.mod_small f (2 ^ n)) by done. rewrite Z.mod_pow2_bits_high by lia. apply andb_false_r.
Qed.

(** The entry mappages() builds: address and flags can be read back. *)
Lemma PTE2PA_entry pa f : 0 ≤ pa < 2 ^ 54 → pa mod PGSIZE = 0 → 0 ≤ f < 1024 →
  PTE2PA (Z.lor (PA2PTE pa) f) = pa.
Proof.
  intros Hpa Hal Hf. rewrite PA2PTE_div by lia. change 1024 with (2 ^ 10) at 1.
  rewrite lor_mul_small by lia. unfold PTE2PA.
  rewrite Z.shiftl_mul_pow2, Z.shiftr_div_pow2 by lia.
  rewrite Z.div_add_l, (Z.div_small f) by lia. rewrite Z.add_0_r.
  pose proof (Z.div_mod pa 4096). unfold PGSIZE in Hal.
  replace (pa / 4096 * 2 ^ 12) with pa by lia. apply u64_id. lia.
Qed.

Lemma PTE_FLAGS_entry pa f : 0 ≤ pa < 2 ^ 54 → 0 ≤ f < 1024 →
  PTE_FLAGS (Z.lor (PA2PTE pa) f) = f.
Proof.
  intros Hpa Hf. rewrite PA2PTE_div by lia. change 1024 with (2 ^ 10) at 1.
  rewrite lor_mul_small by lia. unfold PTE_FLAGS. change 0x3FF with (Z.ones 10).
  rewrite Z.land_ones by lia. rewrite Z.add_comm, Z.mod_add by lia. apply Z.mod_small. lia.
Qed.

(** The address part of any entry is a multiple of the page size. *)
Lemma PTE2PA_aligned pte : PTE2PA pte mod PGSIZE = 0.
Proof.
  unfold PTE2PA, u64, PGSIZE. rewrite Z.shiftl_mul_pow2 by lia.
  change (2 ^ 64) with (2 ^ 12 * 2 ^ 52). change 4096 with (2 ^ 12).
  rewrite Z.mul_comm, Z.mul_mod_distr_l by lia. rewrite Z.mul_comm. apply Z.mod_mul. lia.
Qed.
