(* ===== verification/Spinlock.v ===== *)
(** * kernel/spinlock.c: spin locks and interrupt nesting

    [cpu] holds the fields of [struct cpu] the locks use together with the
    hart's SIE bit; [spinlock] is [struct spinlock].  The functions of the
    file are state transformers executed by hart [h] ([r_tp()]).

    The second part splits acquire() and release() into their atomic
    accesses and interleaves any number of harts ([sstep]); the invariant
    [lock_inv] is proved by rule induction and gives mutual exclusion.

    The last part is the view the other components have of a lock they
    alone use: a flag, with [acquire_flag]/[release_flag]. *)

From stdpp Require Import base sets functions strings numbers list.
From S2P Require Import Prelude.

Record cpu := Cpu {
  noff : Z;         (* Depth of push_off() nesting. *)
  intena : bool;    (* Were interrupts enabled before push_off()? *)
  sie : bool        (* sstatus.SIE of this hart *)
}.

Record spinlock := Spinlock {
  locked : Z;               (* Is the lock held? *)
  lkname : string;          (* Name of lock. *)
  lkcpu : option nat        (* The cpu holding the lock. *)
}.

Record sstate := SState { cpus : nat → cpu; locks : nat → spinlock }.

Definition upd_cpu (h : nat) (f : cpu → cpu) : M sstate unit :=
  modify (λ s, SState (<[h := f (cpus s h)]> (cpus s)) (locks s)).
Definition upd_lock (l : nat) (f : spinlock → spinlock) : M sstate unit :=
  modify (λ s, SState (cpus s) (<[l := f (locks s l)]> (locks s))).

(** ** riscv.h: interrupt enable *)

Definition intr_on (h : nat) : M sstate unit := upd_cpu h (λ c, Cpu (noff c) (intena c) true).
Definition intr_off (h : nat) : M sstate unit := upd_cpu h (λ c, Cpu (noff c) (intena c) false).
Definition intr_get (h : nat) : M sstate bool := gets (λ s, sie (cpus s h)).

(** ** spinlock.c *)

Definition initlock (l : nat) (name : string) : M sstate unit :=
  upd_lock l (λ _, Spinlock 0 name None).

Definition push_off (h : nat) : M sstate unit :=
  old ← intr_get h;
  intr_off h;;
  n ← gets (λ s, noff (cpus s h));
  (if n =? 0 then upd_cpu h (λ c, Cpu (noff c) old (sie c)) else mret tt);;
  upd_cpu h (λ c, Cpu (noff c + 1) (intena c) (sie c)).

Definition pop_off (h : nat) : M sstate unit :=
  on ← intr_get h;
  if on : bool then panic "pop_off - interruptible" else
  n ← gets (λ s, noff (cpus s h));
  if n <? 1 then panic "pop_off" else
  upd_cpu h (λ c, Cpu (noff c - 1) (intena c) (sie c));;
  c ← gets (λ s, cpus s h);
  if (noff c =? 0) && intena c then intr_on h else mret tt.

Definition holding (h l : nat) : M sstate bool :=
  gets (λ s, negb (locked (locks s l) =? 0) && bool_decide (lkcpu (locks s l) = Some h)).

(** [__sync_lock_test_and_set(&lk->locked, 1)] *)
Definition test_and_set (l : nat) : M sstate Z :=
  old ← gets (λ s, locked (locks s l));
  upd_lock l (λ k, Spinlock 1 (lkname k) (lkcpu k));;
  mret old.

(** [while(__sync_lock_test_and_set(&lk->locked, 1) != 0);] *)
Fixpoint spin (fuel : nat) (l : nat) : M sstate unit :=
  match fuel with
  | O => no_fuel
  | S fuel => old ← test_and_set l; if old =? 0 then mret tt else spin fuel l
  end.

Definition set_owner (l : nat) (o : option nat) : M sstate unit :=
  upd_lock l (λ k, Spinlock (locked k) (lkname k) o).

(** [__sync_lock_release(&lk->locked)] *)
Definition sync_lock_release (l : nat) : M sstate unit :=
  upd_lock l (λ k, Spinlock 0 (lkname k) (lkcpu k)).

Definition acquire (fuel h l : nat) : M sstate unit :=
  push_off h;;
  b ← holding h l;
  if b : bool then panic "acquire" else
  spin fuel l;;
  set_owner l (Some h).

Definition release (h l : nat) : M sstate unit :=
  b ← holding h l;
  if negb b then panic "release" else
  set_owner l None;;
  sync_lock_release l;;
  pop_off h.

(** ** Interleaving of harts

    Program counters inside acquire() and release(); [PAcqLocked]/[PAcqCpu]
    and [PRelLocked]/[PRelCpu] are the two reads of holding(). *)
Inductive pc :=
| PRun
| PAcqLocked (l : nat) | PAcqCpu (l : nat) | PAcqTas (l : nat) | PAcqOwn (l : nat)
| PRelLocked (l : nat) | PRelCpu (l : nat) | PRelClear (l : nat) | PRelUnlock (l : nat)
| PRelPop
| PPanic (msg : string).

(** [held]: the locks whose acquire() has returned and whose release() has
    not cleared the owner yet. *)
Record hart := Hart { hpc : pc; held : list nat }.

Record conf := Conf { sh : sstate; harts : nat → hart }.

Definition set_hart (h : nat) (p : pc) (hs : list nat) (s : sstate) (c : conf) : conf :=
  Conf s (<[h := Hart p hs]> (harts c)).

Inductive sstep : conf → conf → Prop :=
(* outside of any critical section a hart may turn its interrupts on or off *)
| step_intr h c s' b :
    hpc (harts c h) = PRun → noff (cpus (sh c) h) = 0 →
    (if b : bool then intr_on h else intr_off h) (sh c) = Ret tt s' →
    sstep c (set_hart h PRun (held (harts c h)) s' c)
| step_call_acquire h l c s' :
    hpc (harts c h) = PRun → push_off h (sh c) = Ret tt s' →
    sstep c (set_hart h (PAcqLocked l) (held (harts c h)) s' c)
| step_acq_locked h l c :
    hpc (harts c h) = PAcqLocked l →
    sstep c (set_hart h (if locked (locks (sh c) l) =? 0 then PAcqTas l else PAcqCpu l)
               (held (harts c h)) (sh c) c)
| step_acq_cpu h l c :
    hpc (harts c h) = PAcqCpu l →
    sstep c (set_hart h (if bool_decide (lkcpu (locks (sh c) l) = Some h)
                         then PPanic "acquire" else PAcqTas l)
               (held (harts c h)) (sh c) c)
| step_acq_tas h l c old s' :
    hpc (harts c h) = PAcqTas l → test_and_set l (sh c) = Ret old s' →
    sstep c (set_hart h (if old =? 0 then PAcqOwn l else PAcqTas l)
               (held (harts c h)) s' c)
| step_acq_own h l c s' :
    hpc (harts c h) = PAcqOwn l → set_owner l (Some h) (sh c) = Ret tt s' →
    sstep c (set_hart h PRun (l :: held (harts c h)) s' c)
| step_call_release h l c :
    hpc (harts c h) = PRun →
    sstep c (set_hart h (PRelLocked l) (held (harts c h)) (sh c) c)
| step_rel_locked h l c :
    hpc (harts c h) = PRelLocked l →
    sstep c (set_hart h (if locked (locks (sh c) l) =? 0 then PPanic "release" else PRelCpu l)
               (held (harts c h)) (sh c) c)
| step_rel_cpu h l c :
    hpc (harts c h) = PRelCpu l →
    sstep c (set_hart h (if bool_decide (lkcpu (locks (sh c) l) = Some h)
                         then PRelClear l else PPanic "release")
               (held (harts c h)) (sh c) c)
| step_rel_clear h l c s' :
    hpc (harts c h) = PRelClear l → set_owner l None (sh c) = Ret tt s' →
    sstep c (set_hart h (PRelUnlock l) (filter (λ k, k ≠ l) (held (harts c h))) s' c)
| step_rel_unlock h l c s' :
    hpc (harts c h) = PRelUnlock l → sync_lock_release l (sh c) = Ret tt s' →
    sstep c (set_hart h PRelPop (held (harts c h)) s' c)
| step_rel_pop h c s' :
    hpc (harts c h) = PRelPop → pop_off h (sh c) = Ret tt s' →
    sstep c (set_hart h PRun (held (harts c h)) s' c)
| step_rel_pop_panic h c msg :
    hpc (harts c h) = PRelPop → pop_off h (sh c) = Panic msg →
    sstep c (set_hart h (PPanic msg) (held (harts c h)) (sh c) c).

(** Boot: every lock initialised, every hart running with nothing held. *)
Definition boot (c : conf) : Prop :=
  (∀ l, locked (locks (sh c) l) = 0 ∧ lkcpu (locks (sh c) l) = None) ∧
  (∀ h, harts c h = Hart PRun [] ∧ noff (cpus (sh c) h) = 0).

Inductive reachable : conf → Prop :=
| reach_boot c : boot c → reachable c
| reach_step c c' : reachable c → sstep c c' → reachable c'.

(** Hart [h] has taken the lock word of [l]. *)
Definition possesses (x : hart) (l : nat) : Prop :=
  l ∈ held x ∨ hpc x = PAcqOwn l ∨ hpc x = PRelUnlock l.

(** push_off() calls not yet matched, beyond one per lock held. *)
Definition pending (p : pc) : Z :=
  match p with
  | PAcqLocked _ | PAcqCpu _ | PAcqTas _ | PAcqOwn _ | PRelUnlock _ | PRelPop => 1
  | _ => 0
  end.

(** The state of [h] alone: nesting depth, interrupts off while nested. *)
Definition hart_inv (c : conf) (h : nat) : Prop :=
  NoDup (held (harts c h)) ∧
  (∀ l, hpc (harts c h) = PAcqOwn l ∨ hpc (harts c h) = PRelUnlock l → l ∉ held (harts c h)) ∧
  (∀ l, hpc (harts c h) = PRelClear l → l ∈ held (harts c h)) ∧
  match hpc (harts c h) with
  | PPanic msg => msg = "acquire" ∨ msg = "release"
  | p => noff (cpus (sh c) h) = Z.of_nat (length (held (harts c h))) + pending p ∧
         (0 < noff (cpus (sh c) h) → sie (cpus (sh c) h) = false)
  end.

(** The state of lock [l] across harts. *)
Definition word_inv (c : conf) (l : nat) : Prop :=
  (locked (locks (sh c) l) = 0 ∨ locked (locks (sh c) l) = 1) ∧
  (locked (locks (sh c) l) = 0 → ∀ h, ¬ possesses (harts c h) l) ∧
  (∀ h h', possesses (harts c h) l → possesses (harts c h') l → h = h') ∧
  (∀ h, lkcpu (locks (sh c) l) = Some h ↔ l ∈ held (harts c h)).

Definition lock_inv (c : conf) : Prop := (∀ h, hart_inv c h) ∧ (∀ l, word_inv c l).

(** ** Locks as flags

    A lock protecting one component, seen by the code that runs with it:
    [acquire_flag] panics when this CPU already holds it, [release_flag]
    when it does not. *)
Definition acquire_flag {S} (get : S → bool) (set : bool → S → S) : M S unit :=
  b ← gets get; if b : bool then panic "acquire" else modify (set true).
Definition release_flag {S} (get : S → bool) (set : bool → S → S) : M S unit :=
  b ← gets get; if b : bool then modify (set false) else panic "release".

(** ** Behaviour of the functions *)

Ltac munfold := unfold upd_cpu, upd_lock, modify, gets, mret, M_ret, mbind, M_bind, panic; simpl.

(** Only hart [h]'s cpu changes, to [c]. *)
Definition cpu_set (s s' : sstate) (h : nat) (c : cpu) : Prop :=
  locks s' = locks s ∧ cpus s' h = c ∧ ∀ h', h' ≠ h → cpus s' h' = cpus s h'.

(** Only lock [l] changes, to [k]. *)
Definition lock_set (s s' : sstate) (l : nat) (k : spinlock) : Prop :=
  cpus s' = cpus s ∧ locks s' l = k ∧ ∀ l', l' ≠ l → locks s' l' = locks s l'.

Ltac fn_simpl :=
  repeat (simpl; (rewrite fn_lookup_insert || (rewrite fn_lookup_insert_ne by congruence)));
  simpl.

Lemma push_off_spec h s : ∃ s',
  push_off h s = Ret tt s' ∧
  cpu_set s s' h (Cpu (noff (cpus s h) + 1)
    (if noff (cpus s h) =? 0 then sie (cpus s h) else intena (cpus s h)) false).
Proof.
  unfold push_off, intr_get, intr_off. munfold. fn_simpl.
  destruct (noff (cpus s h) =? 0) eqn:E; simpl; eexists; split; try done.
  all: (split_and!; [done|by fn_simpl|intros h' Hh; by fn_simpl]).
Qed.

Lemma pop_off_spec h s :
  sie (cpus s h) = false → 1 ≤ noff (cpus s h) → ∃ s',
  pop_off h s = Ret tt s' ∧
  cpu_set s s' h (Cpu (noff (cpus s h) - 1) (intena (cpus s h))
    ((noff (cpus s h) =? 1) && intena (cpus s h))).
Proof.
  intros Hsie Hn. unfold pop_off, intr_get, intr_on. munfold. rewrite Hsie.
  destruct (Z.ltb_spec (noff (cpus s h)) 1); [lia|]. munfold. fn_simpl.
  replace (noff (cpus s h) - 1 =? 0) with (noff (cpus s h) =? 1)
    by (destruct (Z.eqb_spec (noff (cpus s h)) 1), (Z.eqb_spec (noff (cpus s h) - 1) 0); lia || done).
  destruct ((noff (cpus s h) =? 1) && intena (cpus s h)) eqn:E; munfold;
    eexists; split; try done;
    (split_and!; [done|fn_simpl; by rewrite ?Hsie|intros h' Hh; by fn_simpl]).
Qed.

Lemma test_and_set_spec l s : ∃ s',
  test_and_set l s = Ret (locked (locks s l)) s' ∧
  lock_set s s' l (Spinlock 1 (lkname (locks s l)) (lkcpu (locks s l))).
Proof.
  unfold test_and_set. munfold. eexists. split; [done|].
  split_and!; [done|by fn_simpl|intros l' Hl; by fn_simpl].
Qed.

Lemma set_owner_spec l o s : ∃ s',
  set_owner l o s = Ret tt s' ∧
  lock_set s s' l (Spinlock (locked (locks s l)) (lkname (locks s l)) o).
Proof.
  unfold set_owner. munfold. eexists. split; [done|].
  split_and!; [done|by fn_simpl|intros l' Hl; by fn_simpl].
Qed.

Lemma sync_lock_release_spec l s : ∃ s',
  sync_lock_release l s = Ret tt s' ∧
  lock_set s s' l (Spinlock 0 (lkname (locks s l)) (lkcpu (locks s l))).
Proof.
  unfold sync_lock_release. munfold. eexists. split; [done|].
  split_and!; [done|by fn_simpl|intros l' Hl; by fn_simpl].
Qed.

(** ** Mutual exclusion *)

(** Only hart [h] changes. *)
Lemma harts_set h p hs s c h' :
  harts (set_hart h p hs s c) h' = if decide (h = h') then Hart p hs else harts c h'.
Proof. unfold set_hart. simpl. done. Qed.

Lemma possesses_idle l : ¬ possesses (Hart PRun []) l.
Proof. intros [Hin|[?|?]]; [by apply not_elem_of_nil in Hin|done|done]. Qed.

Lemma boot_inv c : boot c → lock_inv c.
Proof.
  intros [Hl Hh]. assert (Hp : ∀ h, harts c h = Hart PRun []) by (intros; by destruct (Hh h)).
  split.
  - intros h. destruct (Hh h) as [E Hn]. unfold hart_inv. rewrite E. simpl.
    split_and!; [constructor|naive_solver|naive_solver|lia|lia].
  - intros l. destruct (Hl l) as [El Ec]. unfold word_inv. rewrite El, Ec.
    split_and!; [by left|..].
    + intros _ h. rewrite Hp. apply possesses_idle.
    + intros h h'. rewrite Hp. intros Hq. by apply possesses_idle in Hq.
    + intros h. rewrite Hp. simpl. split; [done|]. by intros Hq%not_elem_of_nil.
Qed.

(** A step of [h] that leaves the locks alone and keeps what [h] possesses
    preserves the state of every lock. *)
Lemma word_inv_frame c c' h :
  (∀ l, word_inv c l) → locks (sh c') = locks (sh c) →
  (∀ h', h' ≠ h → harts c' h' = harts c h') →
  held (harts c' h) = held (harts c h) →
  (∀ l, possesses (harts c' h) l → possesses (harts c h) l) →
  ∀ l, word_inv c' l.
Proof.
  intros Hw Hs Hh Hhe Hp l. destruct (Hw l) as (H0 & H1 & H2 & H3).
  assert (Hp' : ∀ h', possesses (harts c' h') l → possesses (harts c h') l).
  { intros h'. destruct (decide (h' = h)) as [->|]; [auto|by rewrite Hh]. }
  unfold word_inv. rewrite Hs. split_and!; [done| | |].
  - intros Hz h' Hq. by apply (H1 Hz h'), Hp'.
  - intros h1 h2 Hq1 Hq2. apply H2; auto.
  - intros h'. rewrite H3. destruct (decide (h' = h)) as [->|]; [by rewrite Hhe|by rewrite Hh].
Qed.

(** The other harts' own state is not affected by a step of [h]. *)
Lemma hart_inv_frame c c' h :
  (∀ h', hart_inv c h') →
  (∀ h', h' ≠ h → harts c' h' = harts c h' ∧ cpus (sh c') h' = cpus (sh c) h') →
  hart_inv c' h → ∀ h', hart_inv c' h'.
Proof.
  intros Hi Hf Hh h'. destruct (decide (h' = h)) as [->|Hne]; [done|].
  destruct (Hf h' Hne) as [E1 E2]. unfold hart_inv. rewrite E1, E2. apply Hi.
Qed.

Lemma set_hart_same h p hs s c : harts (set_hart h p hs s c) h = Hart p hs.
Proof. rewrite harts_set. by rewrite decide_True. Qed.
Lemma set_hart_other h p hs s c h' : h' ≠ h → harts (set_hart h p hs s c) h' = harts c h'.
Proof. intros. rewrite harts_set. by rewrite decide_False by congruence. Qed.

(** Steps of [h] that change no lock: it is enough to look at [h]. *)
Lemma inv_local c h p hs s' :
  lock_inv c → locks s' = locks (sh c) →
  (∀ h', h' ≠ h → cpus s' h' = cpus (sh c) h') →
  hs = held (harts c h) →
  (∀ l, p = PAcqOwn l ∨ p = PRelUnlock l → possesses (harts c h) l) →
  hart_inv (set_hart h p hs s' c) h →
  lock_inv (set_hart h p hs s' c).
Proof.
  intros [Hi Hw] Hl Hc -> Hp Hh. split.
  - apply (hart_inv_frame c _ h); [done| |done].
    intros h' Hne. rewrite set_hart_other by done. split; [done|by apply Hc].
  - apply (word_inv_frame c _ h); [done|done| | |].
    + intros h' Hne. by apply set_hart_other.
    + by rewrite set_hart_same.
    + rewrite set_hart_same. intros l [?|?]; [by left|by apply Hp].
Qed.

(** Steps of [h] that change lock [l] only. *)
Lemma inv_lock c h l p hs s' k :
  lock_inv c → lock_set (sh c) s' l k →
  (∀ l', l' ≠ l → (l' ∈ hs ↔ l' ∈ held (harts c h)) ∧
     (possesses (Hart p hs) l' → possesses (harts c h) l')) →
  hart_inv (set_hart h p hs s' c) h →
  word_inv (set_hart h p hs s' c) l →
  lock_inv (set_hart h p hs s' c).
Proof.
  intros [Hi Hw] (Hc & Hl & Hlo) Hp Hh Hwl. split.
  - apply (hart_inv_frame c _ h); [done| |done].
    intros h' Hne. rewrite set_hart_other by done. simpl. by rewrite Hc.
  - intros l'. destruct (decide (l' = l)) as [->|Hne]; [done|].
    destruct (Hw l') as (H0 & H1 & H2 & H3). destruct (Hp l' Hne) as [Hp1 Hp2].
    assert (Hq : ∀ h', possesses (harts (set_hart h p hs s' c) h') l' → possesses (harts c h') l').
    { intros h'. rewrite harts_set. destruct (decide (h = h')) as [->|]; auto. }
    unfold word_inv. simpl (sh _). rewrite (Hlo l' Hne). split_and!; [done|..].
    + intros Hz h' Hq'. by apply (H1 Hz h'), Hq.
    + intros h1 h2 Hq1 Hq2. apply H2; auto.
    + intros h'. rewrite H3, harts_set. destruct (decide (h = h')) as [->|]; [|done].
      simpl. by rewrite Hp1.
Qed.

Lemma hart_inv_at c h p : hpc (harts c h) = p → hart_inv c h →
  match p with PPanic _ => True | _ =>
  noff (cpus (sh c) h) = Z.of_nat (length (held (harts c h))) + pending p ∧
  (0 < noff (cpus (sh c) h) → sie (cpus (sh c) h) = false) end.
Proof. intros <- (_ & _ & _ & H). by destruct (hpc (harts c h)). Qed.

(** Rewriting a hart_inv goal of the stepping hart. *)
Ltac hart_goal := unfold hart_inv; rewrite set_hart_same; simpl.

(** The cases of a step that write a lock. *)

Lemma inv_tas c h l old s' :
  lock_inv c → hpc (harts c h) = PAcqTas l → test_and_set l (sh c) = Ret old s' →
  lock_inv (set_hart h (if old =? 0 then PAcqOwn l else PAcqTas l) (held (harts c h)) s' c).
Proof.
  intros Hinv Hpc Hs. pose proof Hinv as [Hi Hw].
  pose proof (Hi h) as (Hnd & Hno & Hcl & Hrest). rewrite Hpc in Hrest; simpl in Hrest.
  destruct (test_and_set_spec l (sh c)) as (s2 & E & Hset).
  rewrite E in Hs. simplify_eq. pose proof Hset as (Hc & Hl & Ho).
  destruct (Hw l) as (H0 & H1 & H2 & H3).
  eapply inv_lock; [done|done| | |].
  - intros l' Hne. split; [done|]. unfold possesses. rewrite Hpc.
    destruct (_ =? _); simpl; naive_solver.
  - hart_goal. rewrite Hc. destruct (_ =? _) eqn:Ez; simpl;
      (split_and!; [done| |naive_solver|naive_solver|naive_solver]); [|naive_solver].
    zbool. intros l' [[= <-]|?] Hin; [|done]. apply (H1 Ez h). by left.
  - unfold word_inv. simpl (sh _). rewrite Hl. cbn [locked lkcpu]. split_and!; [by right|lia| |].
    + intros h1 h2. rewrite !harts_set. destruct (_ =? _) eqn:Ez; zbool.
      * destruct (decide (h = h1)), (decide (h = h2)); subst; try done;
          intros Hq1 Hq2; exfalso; solve [by apply (H1 Ez _ Hq1)|by apply (H1 Ez _ Hq2)].
      * assert (Hk : possesses (Hart (PAcqTas l) (held (harts c h))) l → possesses (harts c h) l).
        { intros [?|[?|?]]; [by left|done|done]. }
        destruct (decide (h = h1)), (decide (h = h2)); subst; intros; eauto.
    + intros h'. rewrite H3, harts_set. destruct (decide (h = h')) as [->|]; done.
Qed.

Lemma inv_own c h l s' :
  lock_inv c → hpc (harts c h) = PAcqOwn l → set_owner l (Some h) (sh c) = Ret tt s' →
  lock_inv (set_hart h PRun (l :: held (harts c h)) s' c).
Proof.
  intros Hinv Hpc Hs. pose proof Hinv as [Hi Hw].
  pose proof (Hi h) as (Hnd & Hno & Hcl & Hrest). rewrite Hpc in Hrest, Hno; simpl in Hrest.
  destruct (set_owner_spec l (Some h) (sh c)) as (s2 & E & Hset).
  rewrite E in Hs. simplify_eq. pose proof Hset as (Hc & Hl & Ho).
  destruct (Hw l) as (H0 & H1 & H2 & H3).
  assert (Hposs : possesses (harts c h) l) by (right; by left).
  eapply inv_lock; [done|done| | |].
  - intros l' Hne. unfold possesses. rewrite Hpc. simpl. rewrite elem_of_cons. naive_solver.
  - hart_goal. rewrite Hc.
    split_and!; [constructor; [apply Hno; by left|done]|naive_solver|naive_solver|lia|naive_solver].
  - assert (Hq : ∀ h', possesses (harts (set_hart h PRun (l :: held (harts c h)) s' c) h') l → h' = h).
    { intros h'. rewrite harts_set. destruct (decide (h = h')) as [->|]; [done|].
      intros ?. by apply H2. }
    unfold word_inv. simpl (sh _). rewrite Hl. cbn [locked lkcpu]. split_and!; [done| | |].
    + intros Hz. by destruct (H1 Hz h).
    + intros h1 h2 ? ?. by rewrite (Hq h1), (Hq h2).
    + intros h'. rewrite harts_set. destruct (decide (h = h')) as [->|Hne]; simpl.
      { rewrite elem_of_cons. naive_solver. }
      split; [congruence|]. intros Hin. destruct Hne. apply H2; [done|by left].
Qed.

Lemma length_filter_ne (l : nat) hs :
  NoDup hs → l ∈ hs → length hs = S (length (filter (λ k, k ≠ l) hs)).
Proof.
  intros Hnd Hin. induction hs as [|x xs IH]; [by apply not_elem_of_nil in Hin|].
  inversion_clear Hnd as [|? ? Hx Hnd']. rewrite filter_cons.
  destruct (decide (x = l)) as [->|Hne].
  - rewrite decide_False by naive_solver. simpl. f_equal.
    rewrite filter_all; [done|]. intros y Hy ->. done.
  - rewrite decide_True by done. simpl. f_equal. apply IH; [done|].
    apply elem_of_cons in Hin. naive_solver.
Qed.

Lemma inv_clear c h l s' :
  lock_inv c → hpc (harts c h) = PRelClear l → set_owner l None (sh c) = Ret tt s' →
  lock_inv (set_hart h (PRelUnlock l) (filter (λ k, k ≠ l) (held (harts c h))) s' c).
Proof.
  intros Hinv Hpc Hs. pose proof Hinv as [Hi Hw].
  pose proof (Hi h) as (Hnd & Hno & Hcl & Hrest). rewrite Hpc in Hrest, Hcl; simpl in Hrest.
  destruct (set_owner_spec l None (sh c)) as (s2 & E & Hset).
  rewrite E in Hs. simplify_eq. pose proof Hset as (Hc & Hl & Ho).
  destruct (Hw l) as (H0 & H1 & H2 & H3).
  assert (Hin : l ∈ held (harts c h)) by (by apply Hcl).
  pose proof (length_filter_ne l _ Hnd Hin) as Hlen.
  eapply inv_lock; [done|done| | |].
  - intros l' Hne. unfold possesses. simpl. rewrite list_elem_of_filter, Hpc. naive_solver.
  - hart_goal. rewrite Hc. split_and!; [by apply NoDup_filter| |naive_solver|lia|naive_solver].
    intros l' [?|[= <-]]; [done|]. rewrite list_elem_of_filter. naive_solver.
  - assert (Hq : ∀ h', possesses (harts (set_hart h (PRelUnlock l)
        (filter (λ k, k ≠ l) (held (harts c h))) s' c) h') l → h' = h).
    { intros h'. rewrite harts_set. destruct (decide (h = h')) as [->|]; [done|].
      intros ?. apply H2; [done|by left]. }
    unfold word_inv. simpl (sh _). rewrite Hl. cbn [locked lkcpu]. split_and!; [done| | |].
    + intros Hz. destruct (H1 Hz h). by left.
    + intros h1 h2 ? ?. by rewrite (Hq h1), (Hq h2).
    + intros h'. split; [done|]. rewrite harts_set.
      destruct (decide (h = h')) as [->|Hne]; simpl; [rewrite list_elem_of_filter; naive_solver|].
      intros Hin'. destruct Hne. apply H2; by left.
Qed.

Lemma inv_unlock c h l s' :
  lock_inv c → hpc (harts c h) = PRelUnlock l → sync_lock_release l (sh c) = Ret tt s' →
  lock_inv (set_hart h PRelPop (held (harts c h)) s' c).
Proof.
  intros Hinv Hpc Hs. pose proof Hinv as [Hi Hw].
  pose proof (Hi h) as (Hnd & Hno & Hcl & Hrest). rewrite Hpc in Hrest, Hno; simpl in Hrest.
  destruct (sync_lock_release_spec l (sh c)) as (s2 & E & Hset).
  rewrite E in Hs. simplify_eq. pose proof Hset as (Hc & Hl & Ho).
  destruct (Hw l) as (H0 & H1 & H2 & H3).
  assert (Hposs : possesses (harts c h) l) by (right; by right).
  assert (Hq : ∀ h', ¬ possesses (harts (set_hart h PRelPop (held (harts c h)) s' c) h') l).
  { intros h'. rewrite harts_set. destruct (decide (h = h')) as [->|Hne].
    - intros [Hin|[?|?]]; try done. simpl in Hin. apply (Hno l); [by right|done].
    - intros Hq. destruct Hne. by apply H2. }
  eapply inv_lock; [done|done| | |].
  - intros l' Hne. unfold possesses. simpl. naive_solver.
  - hart_goal. rewrite Hc. split_and!; [done|naive_solver|naive_solver|lia|naive_solver].
  - unfold word_inv. simpl (sh _). rewrite Hl. cbn [locked lkcpu]. split_and!; [by left|done| |].
    + intros h1 h2 Hq1. by destruct (Hq h1).
    + intros h'. rewrite H3, harts_set. destruct (decide (h = h')) as [->|]; done.
Qed.

Lemma inv_intr c h s' b :
  lock_inv c → hpc (harts c h) = PRun → noff (cpus (sh c) h) = 0 →
  (if b : bool then intr_on h else intr_off h) (sh c) = Ret tt s' →
  lock_inv (set_hart h PRun (held (harts c h)) s' c).
Proof.
  intros Hinv Hpc Hn Hs. pose proof Hinv as [Hi Hw].
  pose proof (Hi h) as (Hnd & Hno & Hcl & Hrest). rewrite Hpc in Hrest; simpl in Hrest.
  assert (cpu_set (sh c) s' h (Cpu 0 (intena (cpus (sh c) h)) b)) as (? & Hc & ?).
  { destruct b; unfold intr_on, intr_off, upd_cpu, modify in Hs; simplify_eq;
      (split_and!; [done|fn_simpl; by rewrite Hn|intros; by fn_simpl]). }
  apply inv_local; try done; [naive_solver|]. hart_goal. rewrite Hc. simpl.
  split_and!; [done|naive_solver|naive_solver|lia|lia].
Qed.

Lemma inv_pop c h s' :
  lock_inv c → hpc (harts c h) = PRelPop → pop_off h (sh c) = Ret tt s' →
  lock_inv (set_hart h PRun (held (harts c h)) s' c).
Proof.
  intros Hinv Hpc Hs. pose proof Hinv as [Hi Hw].
  pose proof (Hi h) as (Hnd & Hno & Hcl & Hrest). rewrite Hpc in Hrest; simpl in Hrest.
  destruct Hrest as [Hn Hsie].
  destruct (pop_off_spec h (sh c)) as (s2 & E & (? & Hc & ?)); [apply Hsie; lia|lia|].
  rewrite E in Hs. simplify_eq. apply inv_local; try done; [naive_solver|].
  hart_goal. rewrite Hc. simpl. split_and!; [done|naive_solver|naive_solver|lia|].
  intros Hpos. destruct (Z.eqb_spec (noff (cpus (sh c) h)) 1); [lia|done].
Qed.

Lemma sstep_inv c c' : lock_inv c → sstep c c' → lock_inv c'.
Proof.
  intros Hinv Hstep. pose proof Hinv as [Hi Hw].
  destruct Hstep as [h c s' b Hpc Hn Hs|h l c s' Hpc Hs|h l c Hpc|h l c Hpc|h l c old s' Hpc Hs
    |h l c s' Hpc Hs|h l c Hpc|h l c Hpc|h l c Hpc|h l c s' Hpc Hs|h l c s' Hpc Hs
    |h c s' Hpc Hs|h c msg Hpc Hs];
    eauto using inv_intr, inv_tas, inv_own, inv_clear, inv_unlock, inv_pop;
    pose proof (Hi h) as (Hnd & Hno & Hcl & Hrest); rewrite Hpc in Hrest; simpl in Hrest.
  - destruct (push_off_spec h (sh c)) as (s2 & E & (? & Hc & ?)).
    rewrite E in Hs. simplify_eq. apply inv_local; try done; [naive_solver|].
    hart_goal. rewrite Hc. simpl. split_and!; [done|naive_solver|naive_solver|lia|done].
  - apply inv_local; try done; [destruct (_ =? _); naive_solver|].
    hart_goal. destruct (_ =? _); simpl; split_and!; try done; naive_solver.
  - apply inv_local; try done; [case_bool_decide; naive_solver|].
    hart_goal. case_bool_decide; simpl; split_and!; try done; naive_solver.
  - apply inv_local; try done; [naive_solver|].
    hart_goal. split_and!; try done; naive_solver.
  - apply inv_local; try done; [destruct (_ =? _); naive_solver|].
    hart_goal. destruct (_ =? _); simpl; split_and!; try done; naive_solver.
  - apply inv_local; try done; [case_bool_decide; naive_solver|].
    destruct (Hw l) as (_ & _ & _ & H3).
    hart_goal. case_bool_decide as Hb; simpl; split_and!; try done; naive_solver.
  - destruct Hrest as [Hn Hsie].
    destruct (pop_off_spec h (sh c)) as (s2 & E & _); [apply Hsie; lia|lia|]. congruence.
Qed.

Lemma reachable_inv c : reachable c → lock_inv c.
Proof. induction 1; eauto using boot_inv, sstep_inv. Qed.

(** ** Properties *)

(** C2: mutual exclusion.  In every configuration reachable from boot by any
    interleaving of any number of harts, no lock is held by two harts. *)
Theorem mutual_exclusion c h h' l :
  reachable c → l ∈ held (harts c h) → l ∈ held (harts c h') → h = h'.
Proof.
  intros Hr H1 H2. apply reachable_inv in Hr as [_ Hw].
  destruct (Hw l) as (_ & _ & Hu & _). apply Hu; by left.
Qed.

(** holding() is exact.  In every reachable configuration the value
    holding(lk) returns to a hart is whether that hart holds lk, whatever the
    other harts are doing to the lock at the same time. *)
Theorem holding_exact c h l :
  reachable c → holding h l (sh c) = Ret (bool_decide (l ∈ held (harts c h))) (sh c).
Proof.
  intros Hr. apply reachable_inv in Hr as [_ Hw].
  destruct (Hw l) as (_ & Hz & _ & Hc). unfold holding, gets. f_equal.
  rewrite (bool_decide_ext _ _ (Hc h)).
  destruct (Z.eqb_spec (locked (locks (sh c) l)) 0) as [E|E]; [|done].
  simpl. symmetry. apply bool_decide_eq_false_2. intros Hin. apply (Hz E h). by left.
Qed.

(** While a hart holds any lock its interrupts are off, and its noff
    counts the locks it holds when it is outside acquire() and release(). *)
Theorem noff_counts_held c h :
  reachable c → hpc (harts c h) = PRun →
  noff (cpus (sh c) h) = Z.of_nat (length (held (harts c h))) ∧
  (held (harts c h) ≠ [] → sie (cpus (sh c) h) = false).
Proof.
  intros Hr Hpc. apply reachable_inv in Hr as [Hi _].
  destruct (Hi h) as (_ & _ & _ & H). rewrite Hpc in H. simpl in H. destruct H as [Hn Hs].
  split; [lia|]. intros Hne. apply Hs. destruct (held (harts c h)); [done|simpl in *; lia].
Qed.

(** acquire() then release() by the same hart gives back the lock, the
    nesting depth and the interrupt state it started with. *)
Theorem acquire_release_restores fuel h l s :
  locked (locks s l) = 0 → 0 ≤ noff (cpus s h) → (0 < noff (cpus s h) → sie (cpus s h) = false) → ∃ s1 s2,
  acquire (S fuel) h l s = Ret tt s1 ∧ holding h l s1 = Ret true s1 ∧
  sie (cpus s1 h) = false ∧ noff (cpus s1 h) = noff (cpus s h) + 1 ∧
  release h l s1 = Ret tt s2 ∧ locked (locks s2 l) = 0 ∧
  noff (cpus s2 h) = noff (cpus s h) ∧ sie (cpus s2 h) = sie (cpus s h) ∧
  (∀ h', h' ≠ h → cpus s2 h' = cpus s h') ∧ (∀ l', l' ≠ l → locks s2 l' = locks s l').
Proof.
  intros Hl Hn Hsie. unfold acquire.
  destruct (push_off_spec h s) as (sa & Ea & (Hla & Hca & Hoa)). rewrite (bind_Ret _ _ _ _ _ Ea).
  unfold holding, gets. unfold mbind at 1, M_bind at 1. rewrite Hla, Hl. simpl.
  destruct (test_and_set_spec l sa) as (sb & Eb & (Hcb & Hlb & Hob)).
  rewrite bind_assoc. rewrite (bind_Ret _ _ _ _ _ Eb). rewrite Hla, Hl. cbn [Z.eqb].
  rewrite bind_ret_l.
  destruct (set_owner_spec l (Some h) sb) as (s1 & E1 & (Hc1 & Hl1 & Ho1)). rewrite E1.
  unfold release, holding, gets. unfold mbind at 1, M_bind at 1.
  destruct (set_owner_spec l None s1) as (sd & Ed & (Hcd & Hld & Hod)).
  destruct (sync_lock_release_spec l sd) as (se & Ee & (Hce & Hle & Hoe)).
  assert (Hce' : cpus se h = cpus sa h) by congruence.
  destruct (pop_off_spec h se) as (s2 & E2 & (Hl2 & Hc2 & Ho2)).
  { by rewrite Hce', Hca. }
  { rewrite Hce', Hca. simpl. lia. }
  exists s1, s2. split; [done|]. rewrite Hl1, Hlb. simpl. rewrite bool_decide_eq_true_2 by done. simpl.
  rewrite (bind_Ret _ _ _ _ _ Ed), (bind_Ret _ _ _ _ _ Ee).
  rewrite Hc1, Hcb, Hca, Hl2, Hle, Hc2, Hce', Hca. simpl.
  split_and!; try done; try lia.
  - destruct (Z.eqb_spec (noff (cpus s h)) 0) as [Hz|Hz].
    + rewrite Hz. simpl. done.
    + destruct (Z.eqb_spec (noff (cpus s h) + 1) 1); [lia|]. simpl. symmetry. apply Hsie. lia.
  - intros h' Hh. rewrite Ho2, Hce, Hcd, Hc1, Hcb, Hoa; done.
  - intros l' Hl'. by rewrite Hoe, Hod, Ho1, Hob, Hla.
Qed.

(** ** Witnesses: hart 0 takes lock 3 after boot *)

Definition demo_conf : conf :=
  Conf (SState (λ _, Cpu 0 false true) (λ _, Spinlock 0 "demo" None)) (λ _, Hart PRun []).

Lemma demo_acquired : ∃ c, reachable c ∧ hpc (harts c 0%nat) = PRun ∧ held (harts c 0%nat) = [3%nat].
Proof.
  eexists. split; [|split].
  - eapply reach_step; [eapply reach_step; [eapply reach_step; [eapply reach_step; [apply (reach_boot demo_conf)|]|]|]|].
    + split; intros; split; done.
    + apply (step_call_acquire 0 3); reflexivity.
    + apply (step_acq_locked 0 3). reflexivity.
    + eapply (step_acq_tas 0 3); reflexivity.
    + eapply (step_acq_own 0 3); reflexivity.
  - reflexivity.
  - reflexivity.
Qed.

Lemma mutual_exclusion_witness : ∃ c, reachable c ∧ 3%nat ∈ held (harts c 0%nat) ∧ (0 = 0)%nat.
Proof.
  destruct demo_acquired as (c & Hr & _ & Hh). exists c.
  assert (Hin : 3%nat ∈ held (harts c 0%nat)) by (rewrite Hh; by left).
  split; [exact Hr|]. split; [exact Hin|]. exact (mutual_exclusion c 0 0 3 Hr Hin Hin).
Defined.

Lemma holding_exact_witness : ∃ c, reachable c ∧ holding 0 3 (sh c) = Ret true (sh c).
Proof.
  destruct demo_acquired as (c & Hr & _ & Hh). exists c. split; [exact Hr|].
  pose proof (holding_exact c 0 3 Hr) as E. rewrite Hh in E. exact E.
Defined.

Lemma noff_counts_held_witness : ∃ c, reachable c ∧ noff (cpus (sh c) 0%nat) = 1.
Proof.
  destruct demo_acquired as (c & Hr & Hpc & Hh). exists c. split; [exact Hr|].
  pose proof (proj1 (noff_counts_held c 0 Hr Hpc)) as E. rewrite Hh in E. exact E.
Defined.

Lemma acquire_release_restores_witness : ∃ s1, acquire 1 0 3 (sh demo_conf) = Ret tt s1.
Proof.
  destruct (acquire_release_restores 0 0 3 (sh demo_conf)) as (s1 & s2 & E & _); [done|done|done|].
  by exists s1.
Defined.
