(* ===== verification/Kalloc.v ===== *)
(** * kernel/kalloc.c: the physical page allocator

    [mstate] is the physical memory together with the global [kmem]: the
    free list is threaded through the free pages themselves, so its
    representation [free_chain] is a statement about memory.

    [PageAllocator] is what the rest of the kernel relies on: an allocator
    described by the set of its free pages.  The instance [kalloc_allocator]
    shows that kalloc.c implements it. *)

From stdpp Require Import base gmap sets strings numbers list.
From coqutil Require Import Byte.
From S2P Require Import Prelude Mem Str Riscv Spinlock.

(** Physical memory and [struct { struct spinlock lock; struct run *freelist; } kmem]. *)
Record mstate := MState { ms_mem : mem; kmem_lock : bool; freelist : Z }.

Definition set_mem (m : mem) (s : mstate) : mstate := MState m (kmem_lock s) (freelist s).
Definition set_kmem_lock (b : bool) (s : mstate) : mstate := MState (ms_mem s) b (freelist s).
Definition set_freelist (p : Z) (s : mstate) : mstate := MState (ms_mem s) (kmem_lock s) p.

(** Memory accesses as state transformers. *)
Definition mload64 (a : Z) : M mstate Z := gets (λ s, load64 (ms_mem s) a).
Definition mstore64 (a v : Z) : M mstate unit := modify (λ s, set_mem (store64 (ms_mem s) a v) s).
Definition mmemset (dst c n : Z) : M mstate unit :=
  modify (λ s, set_mem (memset (ms_mem s) dst c n) s).
Definition mmemmove (dst src n : Z) : M mstate unit :=
  modify (λ s, set_mem (memmove (ms_mem s) dst src n) s).

Section kalloc.
Context {I : image}.

(** ** The code *)

Definition kfree (pa : Z) : M mstate unit :=
  if negb (pa mod PGSIZE =? 0) || (pa <? kend) || (PHYSTOP <=? pa)
  then panic "kfree" else
  (* Fill with junk to catch dangling refs. *)
  mmemset pa 1 PGSIZE;;
  let r := pa in
  acquire_flag kmem_lock set_kmem_lock;;
  head ← gets freelist;
  mstore64 r head;;
  modify (set_freelist r);;
  release_flag kmem_lock set_kmem_lock.

Definition kalloc : M mstate Z :=
  acquire_flag kmem_lock set_kmem_lock;;
  r ← gets freelist;
  (if negb (r =? 0) then next ← mload64 r; modify (set_freelist next) else mret tt);;
  release_flag kmem_lock set_kmem_lock;;
  (if negb (r =? 0) then mmemset r 5 PGSIZE else mret tt);;
  mret r.

(** [for(; p + PGSIZE <= pa_end; p += PGSIZE) kfree(p)] *)
Fixpoint freerange_loop (fuel : nat) (p pa_end : Z) : M mstate unit :=
  match fuel with
  | O => no_fuel
  | S fuel =>
    if p + PGSIZE <=? pa_end then kfree p;; freerange_loop fuel (p + PGSIZE) pa_end
    else mret tt
  end.

(** The fuel covers every page below [pa_end]. *)
Definition freerange (pa_start pa_end : Z) : M mstate unit :=
  freerange_loop (S (Z.to_nat (pa_end / PGSIZE))) (PGROUNDUP pa_start) pa_end.

Definition kinit : M mstate unit :=
  modify (set_kmem_lock false);;   (* initlock *)
  freerange kend PHYSTOP.

(** ** Representation *)

(** A page the allocator manages. *)
Definition page_ok (p : Z) : Prop := p mod PGSIZE = 0 ∧ kend ≤ p < PHYSTOP.

(** Address [x] lies in page [p]. *)
Definition in_page (p x : Z) : Prop := p ≤ x < p + PGSIZE.

(** The linked list from [head] through the [next] words of free pages is [l]. *)
Fixpoint free_chain (m : mem) (head : Z) (l : list Z) : Prop :=
  match l with
  | [] => head = 0
  | p :: l => head = p ∧ page_ok p ∧ free_chain m (load64 m p) l
  end.

Definition kmem_list (s : mstate) (l : list Z) : Prop :=
  free_chain (ms_mem s) (freelist s) l ∧ NoDup l ∧ kmem_lock s = false.

Definition kmem_inv (s : mstate) (F : gset Z) : Prop :=
  ∃ l, kmem_list s l ∧ F = list_to_set l.

(** The two memories agree outside page [p]. *)
Definition same_outside (p : Z) (m m' : mem) : Prop := ∀ x, ¬ in_page p x → m' x = m x.

End kalloc.

(** ** What the allocator promises *)

Class PageAllocator {I : image} := {
  pa_kalloc : M mstate Z;
  pa_kfree : Z → M mstate unit;
  pa_inv : mstate → gset Z → Prop;
  pa_pages s F p : pa_inv s F → p ∈ F → page_ok p;
  pa_frame s F m' : pa_inv s F →
    (∀ p x, p ∈ F → in_page p x → m' x = ms_mem s x) → pa_inv (set_mem m' s) F;
  pa_kalloc_empty s : pa_inv s ∅ → pa_kalloc s = Ret 0 s;
  pa_kalloc_some s F : pa_inv s F → F ≠ ∅ → ∃ p s',
    p ∈ F ∧ pa_kalloc s = Ret p s' ∧ pa_inv s' (F ∖ {[p]}) ∧
    same_outside p (ms_mem s) (ms_mem s');
  pa_kfree_ok s F p : pa_inv s F → page_ok p → p ∉ F → ∃ s',
    pa_kfree p s = Ret tt s' ∧ pa_inv s' ({[p]} ∪ F) ∧
    same_outside p (ms_mem s) (ms_mem s');
  pa_kfree_bad s p : ¬ page_ok p → pa_kfree p s = Panic "kfree"
}.

(** ** Pages *)

Lemma page_disjoint p q :
  p mod PGSIZE = 0 → q mod PGSIZE = 0 → p ≠ q → p + PGSIZE ≤ q ∨ q + PGSIZE ≤ p.
Proof.
  intros Hp Hq Hne. unfold PGSIZE in *.
  pose proof (Z.div_mod p 4096). pose proof (Z.div_mod q 4096). lia.
Qed.

Lemma in_page_unique p q x :
  p mod PGSIZE = 0 → q mod PGSIZE = 0 → in_page p x → in_page q x → p = q.
Proof.
  intros Hp Hq H1 H2. destruct (decide (p = q)) as [|Hne]; [done|].
  destruct (page_disjoint p q Hp Hq Hne); unfold in_page in *; lia.
Qed.

Lemma same_outside_refl p m : same_outside p m m.
Proof. by intros x. Qed.

Lemma same_outside_trans p m1 m2 m3 :
  same_outside p m1 m2 → same_outside p m2 m3 → same_outside p m1 m3.
Proof. intros H1 H2 x Hx. rewrite H2, H1; done. Qed.

(** A word of another page is not affected. *)
Lemma same_outside_load64 p q m m' a :
  same_outside p m m' → p mod PGSIZE = 0 → q mod PGSIZE = 0 → p ≠ q →
  q ≤ a → a + 8 ≤ q + PGSIZE → load64 m' a = load64 m a.
Proof.
  intros Hs Hp Hq Hne ??. apply load64_ext. intros x Hx. apply Hs. intros Hin.
  destruct (page_disjoint p q); unfold in_page in *; lia || done.
Qed.

Lemma memset_same_outside p m c : same_outside p m (memset m p c PGSIZE).
Proof. intros x Hx. apply memset_out. unfold in_page in Hx. lia. Qed.

Lemma store64_same_outside p m a v :
  p ≤ a → a + 8 ≤ p + PGSIZE → same_outside p m (store64 m a v).
Proof. intros ?? x Hx. apply store64_out. unfold in_page in Hx. lia. Qed.

(** ** Correctness of kalloc.c *)

Section kalloc_facts.
Context {I : image} {IO : image_ok I}.

Lemma page_ok_pos p : page_ok p → 0 < p < 2 ^ 32 ∧ p mod PGSIZE = 0.
Proof.
  intros [Ha Hb]. pose proof tramp_ge. pose proof etext_eq. pose proof kend_ge.
  split; [pgunfold; lia|done].
Qed.

#[global] Instance page_ok_dec p : Decision (page_ok p).
Proof. unfold page_ok. apply _. Defined.

(** The check at the top of kfree() is exactly [page_ok]. *)
Lemma kfree_guard pa :
  negb (pa mod PGSIZE =? 0) || (pa <? kend) || (PHYSTOP <=? pa) = bool_decide (¬ page_ok pa).
Proof.
  unfold page_ok. case_bool_decide as Hb;
    destruct (Z.eqb_spec (pa mod PGSIZE) 0), (Z.ltb_spec pa kend), (Z.leb_spec PHYSTOP pa);
    simpl; try done; exfalso; lia.
Qed.

Lemma free_chain_frame m m' head l :
  (∀ p x, p ∈ l → in_page p x → m' x = m x) → free_chain m head l → free_chain m' head l.
Proof.
  revert head. induction l as [|p l IH]; intros head Hag; [done|].
  intros (-> & Hp & Hc). split_and!; [done|done|].
  rewrite (load64_ext m' m).
  - apply IH; [|done]. intros q x Hq. apply Hag. by right.
  - intros x Hx. apply (Hag p); [by left|]. unfold in_page. pgunfold. lia.
Qed.

Lemma free_chain_same_outside m m' p head l :
  same_outside p m m' → p mod PGSIZE = 0 → p ∉ l → free_chain m head l → free_chain m' head l.
Proof.
  intros Hs Hp Hin Hc.
  assert (Hal : ∀ q, q ∈ l → q mod PGSIZE = 0).
  { clear -Hc. revert head Hc. induction l as [|r l IH]; intros head Hc q Hq; [by apply not_elem_of_nil in Hq|].
    destruct Hc as (-> & [? _] & Hc). apply elem_of_cons in Hq as [->|Hq]; eauto. }
  apply (free_chain_frame m); [|done]. intros q x Hq Hx. apply Hs. intros Hx'.
  assert (p = q) as -> by (eapply in_page_unique; eauto). done.
Qed.

Lemma kmem_list_pages s l p : kmem_list s l → p ∈ l → page_ok p.
Proof.
  intros [Hc _] Hp. revert Hc. generalize (freelist s). induction l as [|q l IH]; intros head Hc.
  - by apply not_elem_of_nil in Hp.
  - destruct Hc as (-> & Hq & Hc). apply elem_of_cons in Hp as [->|Hp]; eauto.
Qed.

Lemma kfree_list s l p : kmem_list s l → page_ok p → p ∉ l → ∃ s',
  kfree p s = Ret tt s' ∧ kmem_list s' (p :: l) ∧ same_outside p (ms_mem s) (ms_mem s').
Proof.
  intros (Hc & Hnd & Hl) Hp Hin. unfold kfree. rewrite kfree_guard, bool_decide_eq_false_2 by naive_solver.
  unfold acquire_flag, release_flag, mmemset, mstore64, gets, modify, mbind, M_bind. simpl. rewrite Hl. simpl.
  destruct (page_ok_pos p Hp) as [Hpos Hal].
  assert (Hs : same_outside p (ms_mem s) (store64 (memset (ms_mem s) p 1 PGSIZE) p (freelist s))).
  { eapply same_outside_trans; [apply memset_same_outside|]. apply store64_same_outside; pgunfold; lia. }
  eexists. split; [done|]. split; [|done].
  split_and!; [|by constructor|done]. simpl. split_and!; [done|done|].
  rewrite load64_store64_eq. assert (u64 (freelist s) = freelist s) as ->.
  { apply u64_id. destruct l as [|q l]; simpl in Hc; [lia|].
    destruct Hc as (-> & Hq & _). apply page_ok_pos in Hq. lia. }
  eapply free_chain_same_outside; [done|done|done|]. done.
Qed.

Lemma kalloc_nil s : kmem_list s [] → kalloc s = Ret 0 s.
Proof.
  intros (Hc & _ & Hl). simpl in Hc. unfold kalloc.
  unfold acquire_flag, release_flag, gets, modify, mret, M_ret, mbind, M_bind. simpl.
  rewrite Hl. simpl. rewrite Hc. simpl. by destruct s; simpl in *; subst.
Qed.

Lemma kalloc_cons s p l : kmem_list s (p :: l) → ∃ s',
  kalloc s = Ret p s' ∧ kmem_list s' l ∧ same_outside p (ms_mem s) (ms_mem s') ∧
  ∀ x, in_page p x → ms_mem s' x = byte.of_Z 5.
Proof.
  intros ((Hh & Hp & Hc) & Hnd & Hl). unfold kalloc.
  unfold acquire_flag, release_flag, mmemset, mload64, gets, modify, mret, M_ret, mbind, M_bind. simpl.
  rewrite Hl. simpl. rewrite Hh. destruct (page_ok_pos p Hp) as [Hpos Hal].
  destruct (Z.eqb_spec p 0); [lia|]. simpl. inversion_clear Hnd as [|? ? Hin Hnd'].
  eexists. split; [done|]. split_and!.
  - split_and!; [|done|done]. simpl.
    eapply free_chain_same_outside; [apply memset_same_outside|done|done|done].
  - apply memset_same_outside.
  - intros x Hx. by apply memset_in.
Qed.

Lemma kmem_inv_pages s F p : kmem_inv s F → p ∈ F → page_ok p.
Proof. intros (l & Hl & ->) Hp. eapply kmem_list_pages; [done|]. set_solver. Qed.

Lemma kmem_inv_frame s F m' : kmem_inv s F →
  (∀ p x, p ∈ F → in_page p x → m' x = ms_mem s x) → kmem_inv (set_mem m' s) F.
Proof.
  intros (l & (Hc & Hnd & Hl) & ->) Hag. exists l. split; [|done].
  split_and!; [|done|done]. simpl. apply (free_chain_frame (ms_mem s)); [|done].
  intros p x Hp. apply Hag. set_solver.
Qed.

Lemma kalloc_empty s : kmem_inv s ∅ → kalloc s = Ret 0 s.
Proof.
  intros (l & Hl & Hnil). apply kalloc_nil. destruct l as [|p l]; [done|].
  exfalso. set_solver.
Qed.

Lemma kalloc_some s F : kmem_inv s F → F ≠ ∅ → ∃ p s',
  p ∈ F ∧ kalloc s = Ret p s' ∧ kmem_inv s' (F ∖ {[p]}) ∧
  same_outside p (ms_mem s) (ms_mem s').
Proof.
  intros (l & Hl & ->) Hne. destruct l as [|p l]; [done|].
  destruct (kalloc_cons s p l Hl) as (s' & E & Hl' & Hs & _).
  exists p, s'. split_and!; [set_solver|done| |done]. exists l. split; [done|].
  destruct Hl as (_ & Hnd & _). inversion_clear Hnd as [|? ? Hin Hnd']. set_solver.
Qed.

Lemma kfree_ok s F p : kmem_inv s F → page_ok p → p ∉ F → ∃ s',
  kfree p s = Ret tt s' ∧ kmem_inv s' ({[p]} ∪ F) ∧
  same_outside p (ms_mem s) (ms_mem s').
Proof.
  intros (l & Hl & ->) Hp Hin.
  destruct (kfree_list s l p Hl Hp) as (s' & E & Hl' & Hs); [set_solver|].
  exists s'. split_and!; [done| |done]. exists (p :: l). split; [done|]. set_solver.
Qed.

Lemma kfree_bad s p : ¬ page_ok p → kfree p s = Panic "kfree".
Proof. intros Hp. unfold kfree. by rewrite kfree_guard, bool_decide_eq_true_2. Qed.

#[global] Instance kalloc_allocator : PageAllocator := {
  pa_kalloc := kalloc;
  pa_kfree := kfree;
  pa_inv := kmem_inv;
  pa_pages := kmem_inv_pages;
  pa_frame := kmem_inv_frame;
  pa_kalloc_empty := kalloc_empty;
  pa_kalloc_some := kalloc_some;
  pa_kfree_ok := kfree_ok;
  pa_kfree_bad := kfree_bad
}.

(** ** kinit() *)

(** The [n] pages from [p] up. *)
Definition pages_from (p : Z) (n : nat) : list Z := (λ i, p + Z.of_nat i * PGSIZE) <$> seq 0 n.

Lemma pages_from_S p n : pages_from p (S n) = p :: pages_from (p + PGSIZE) n.
Proof.
  unfold pages_from. cbn [seq]. rewrite fmap_cons, <- fmap_S_seq, <- list_fmap_compose.
  f_equal; [lia|]. apply list_fmap_ext. intros. simpl. lia.
Qed.

Lemma elem_of_pages_from p n q : q ∈ pages_from p n ↔ ∃ i, (i < n)%nat ∧ q = p + Z.of_nat i * PGSIZE.
Proof.
  unfold pages_from. rewrite list_elem_of_fmap. setoid_rewrite elem_of_seq. naive_solver lia.
Qed.

Lemma freerange_loop_spec n fuel p pa_end s l :
  (n < fuel)%nat → p mod PGSIZE = 0 → kend ≤ p → pa_end ≤ PHYSTOP →
  p + Z.of_nat n * PGSIZE ≤ pa_end < p + (Z.of_nat n + 1) * PGSIZE →
  kmem_list s l → (∀ q, q ∈ l → q < p) → ∃ s',
  freerange_loop fuel p pa_end s = Ret tt s' ∧
  kmem_list s' (reverse (pages_from p n) ++ l).
Proof.
  revert fuel p s l. induction n as [|n IH]; intros fuel p s l Hf Hal Hk Hph Hend Hs Hl;
    (destruct fuel as [|fuel]; [lia|]); cbn [freerange_loop].
  - destruct (Z.leb_spec (p + PGSIZE) pa_end); [lia|]. by exists s.
  - destruct (Z.leb_spec (p + PGSIZE) pa_end); [|unfold PGSIZE in *; lia].
    destruct (kfree_list s l p) as (s1 & E & Hs1 & _); [done| |intros Hin%Hl; lia|].
    { split; [done|]. unfold PGSIZE in *. lia. }
    rewrite (bind_Ret _ _ _ _ _ E).
    destruct (IH fuel (p + PGSIZE) s1 (p :: l)) as (s2 & E2 & Hs2); try done;
      try (unfold PGSIZE in *; lia).
    + rewrite <- (Z.mul_1_l PGSIZE) at 1. by rewrite Z.mod_add by done.
    + intros q [->|Hq%Hl]%elem_of_cons; unfold PGSIZE; lia.
    + exists s2. split; [done|]. rewrite pages_from_S, reverse_cons, <- app_assoc. done.
Qed.

(** Every page from end to PHYSTOP, as a list. *)
Definition all_pages : list Z :=
  pages_from (PGROUNDUP kend) (Z.to_nat ((PHYSTOP - PGROUNDUP kend) / PGSIZE)).

Lemma kend_roundup : kend ≤ PGROUNDUP kend < kend + PGSIZE ∧ PGROUNDUP kend mod PGSIZE = 0 ∧
  PGROUNDUP kend ≤ PHYSTOP.
Proof.
  pose proof tramp_ge. pose proof etext_eq. pose proof kend_ge. pose proof kend_lt.
  destruct (PGROUNDUP_bounds kend) as [Hb Ha]; [pgunfold; lia..|]. split_and!; try lia.
  pgunfold. pose proof (Z.div_mod (PGROUNDUP kend) 4096). lia.
Qed.

Lemma elem_of_all_pages p : p ∈ all_pages ↔ page_ok p.
Proof.
  destruct kend_roundup as (Hb & Ha & Hp). unfold all_pages, page_ok.
  rewrite elem_of_pages_from. set (r := PGROUNDUP kend) in *.
  pgunfold. pose proof (Z.div_mod r 4096). pose proof (Z.div_mod (2147483648 + 128 * 1024 * 1024 - r) 4096) as Hd.
  pose proof (Z.mod_pos_bound (2147483648 + 128 * 1024 * 1024 - r) 4096). split.
  - intros (i & Hi & ->). split; [rewrite Z.mod_add by lia; done|]. lia.
  - intros [Hal Hr]. pose proof (Z.div_mod p 4096).
    exists (Z.to_nat (p / 4096 - r / 4096)). split; [|lia]. lia.
Qed.

Lemma kinit_list s : freelist s = 0 → ∃ s', kinit s = Ret tt s' ∧ kmem_list s' (reverse all_pages).
Proof.
  intros Hz. destruct kend_roundup as (Hb & Ha & Hp).
  pose proof tramp_ge. pose proof etext_eq. pose proof kend_ge.
  unfold kinit, modify, mbind, M_bind, freerange.
  destruct (freerange_loop_spec (Z.to_nat ((PHYSTOP - PGROUNDUP kend) / PGSIZE))
     (S (Z.to_nat (PHYSTOP / PGSIZE))) (PGROUNDUP kend) PHYSTOP (set_kmem_lock false s) [])
    as (s' & E & Hl); try done; try lia.
  - pgunfold. pose proof (Z.div_mod (2147483648 + 128 * 1024 * 1024 - PGROUNDUP kend) 4096).
    pose proof (Z.mod_pos_bound (2147483648 + 128 * 1024 * 1024 - PGROUNDUP kend) 4096).
    change ((2147483648 + 128 * 1024 * 1024) / 4096) with 557056. lia.
  - pgunfold. pose proof (Z.div_mod (2147483648 + 128 * 1024 * 1024 - PGROUNDUP kend) 4096).
    pose proof (Z.mod_pos_bound (2147483648 + 128 * 1024 * 1024 - PGROUNDUP kend) 4096). lia.
  - split_and!; [done|constructor|done].
  - intros q Hq. by apply not_elem_of_nil in Hq.
  - exists s'. split; [done|]. by rewrite app_nil_r in Hl.
Qed.

Lemma kinit_inv s : freelist s = 0 → ∃ s', kinit s = Ret tt s' ∧ kmem_inv s' (list_to_set all_pages).
Proof.
  intros Hz. destruct (kinit_list s Hz) as (s' & E & Hl). exists s'. split; [done|].
  eexists. split; [done|]. set_solver.
Qed.

(** ** Clients of the allocator

    A state paired with the set of pages handed out: clients allocate, free
    pages they own, and write the pages they own. *)
Inductive kstep : mstate * gset Z → mstate * gset Z → Prop :=
| k_alloc s A p s' : kalloc s = Ret p s' → p ≠ 0 → kstep (s, A) (s', {[p]} ∪ A)
| k_alloc_fail s A s' : kalloc s = Ret 0 s' → kstep (s, A) (s', A)
| k_free s A p s' : p ∈ A → kfree p s = Ret tt s' → kstep (s, A) (s', A ∖ {[p]})
| k_write s A p m' : p ∈ A → same_outside p (ms_mem s) m' → kstep (s, A) (set_mem m' s, A).

(** Reachable from a fresh kinit(). *)
Inductive kreach : mstate * gset Z → Prop :=
| kr_init s s' : freelist s = 0 → kinit s = Ret tt s' → kreach (s', ∅)
| kr_step c c' : kreach c → kstep c c' → kreach c'.

(** Every page is either free or handed out, never both. *)
Definition client_inv (c : mstate * gset Z) : Prop :=
  ∃ F, kmem_inv c.1 F ∧ F ## c.2 ∧ ∀ p, page_ok p ↔ p ∈ F ∪ c.2.

Lemma kstep_inv c c' : client_inv c → kstep c c' → client_inv c'.
Proof.
  intros (F & HF & Hd & Hall) Hst. destruct Hst as [s A p s' E Hp|s A s' E|s A p s' Hp E|s A p m' Hp Hm]; simpl in *.
  - destruct (decide (F = ∅)) as [->|Hne].
    { rewrite (kalloc_empty s HF) in E. by simplify_eq. }
    destruct (kalloc_some s F HF Hne) as (q & s2 & Hq & E2 & HF2 & _). rewrite E in E2.
    simplify_eq. exists (F ∖ {[q]}). split_and!; [done|set_solver|]. intros r. rewrite Hall.
    destruct (decide (r = q)); set_solver.
  - destruct (decide (F = ∅)) as [->|Hne].
    { rewrite (kalloc_empty s HF) in E. simplify_eq. exists ∅. done. }
    destruct (kalloc_some s F HF Hne) as (q & s2 & Hq & E2 & HF2 & _). rewrite E in E2.
    simplify_eq. assert (Hp : page_ok 0) by (apply Hall; set_solver).
    apply page_ok_pos in Hp. lia.
  - destruct (kfree_ok s F p HF) as (s2 & E2 & HF2 & _); [apply Hall; set_solver|set_solver|].
    rewrite E in E2. simplify_eq. exists ({[p]} ∪ F). split_and!; [done|set_solver|].
    intros r. rewrite Hall. destruct (decide (r = p)); set_solver.
  - exists F. split_and!; [|done|done]. apply kmem_inv_frame; [done|]. intros q x Hq Hx. apply Hm. intros Hx'.
    assert (p = q) as ->; [|set_solver].
    eapply in_page_unique; [| |exact Hx'|exact Hx]; (apply page_ok_pos; apply Hall; set_solver).
Qed.

Lemma kreach_inv c : kreach c → client_inv c.
Proof.
  induction 1 as [s s' Hz E|c c' _ IH Hst]; [|by eapply kstep_inv].
  destruct (kinit_inv s Hz) as (s2 & E2 & HF). rewrite E in E2. simplify_eq.
  exists (list_to_set all_pages). split_and!; [done|set_solver|].
  intros p. rewrite <- elem_of_all_pages. simpl. set_solver.
Qed.

(** ** Properties *)

(** C3: no page is handed out twice.  From kinit() on, through any sequence of
    allocations, frees of owned pages and writes to owned pages, every page of
    RAM between end and PHYSTOP is either on the free list or handed out, and
    kalloc() returns either 0 or a page that is not handed out. *)
Theorem kalloc_never_double c p s' :
  kreach c → kalloc c.1 = Ret p s' →
  (p = 0 ∧ ∀ q, page_ok q → q ∈ c.2) ∨ (page_ok p ∧ p ∉ c.2).
Proof.
  intros (F & HF & Hd & Hall)%kreach_inv E.
  destruct (decide (F = ∅)) as [->|Hne].
  - left. rewrite (kalloc_empty _ HF) in E. simplify_eq. split; [done|]. set_solver.
  - right. destruct (kalloc_some _ F HF Hne) as (q & s2 & Hq & E2 & _). rewrite E in E2.
    simplify_eq. split; [apply Hall; set_solver|set_solver].
Qed.

(** kalloc() and kfree() return whenever a client uses them correctly:
    no lock is left held and neither panics. *)
Theorem kalloc_kfree_progress c :
  kreach c → (∃ p s', kalloc c.1 = Ret p s') ∧ ∀ p, p ∈ c.2 → ∃ s', kfree p c.1 = Ret tt s'.
Proof.
  intros (F & HF & Hd & Hall)%kreach_inv. split.
  - destruct (decide (F = ∅)) as [->|Hne]; [eexists _, _; by apply kalloc_empty|].
    destruct (kalloc_some _ F HF Hne) as (q & s2 & _ & E2 & _). eauto.
  - intros p Hp. destruct (kfree_ok _ F p HF) as (s2 & E2 & _); [apply Hall; set_solver|set_solver|]. eauto.
Qed.

Lemma kreach_boot : ∃ s p s', kreach (s, ∅) ∧ kalloc s = Ret p s'.
Proof.
  destruct (kinit_inv (MState (λ _, Byte.x00) false 0) eq_refl) as (s & E & HF).
  assert (Hr : kreach (s, ∅)) by exact (kr_init (MState (λ _, Byte.x00) false 0) s eq_refl E). exists s.
  destruct (kreach_inv _ Hr) as (F & HF' & _). destruct (decide (F = ∅)) as [->|Hne].
  - exists 0, s. split; [done|]. exact (kalloc_empty s HF').
  - destruct (kalloc_some s F HF' Hne) as (p & s' & _ & Ea & _). by exists p, s'.
Qed.

End kalloc_facts.

(** ** Witnesses: the allocator after kinit(), with the addresses of kernel.sym *)

Lemma kalloc_never_double_witness : ∃ c p s',
  kreach (I := image_sym) c ∧ kalloc c.1 = Ret p s' ∧
  ((p = 0 ∧ ∀ q, page_ok (I := image_sym) q → q ∈ c.2) ∨ (page_ok (I := image_sym) p ∧ p ∉ c.2)).
Proof.
  destruct (kreach_boot (I := image_sym)) as (s & p & s' & Hr & Ea).
  exists (s, ∅), p, s'. split; [exact Hr|]. split; [exact Ea|].
  exact (kalloc_never_double (I := image_sym) (s, ∅) p s' Hr Ea).
Defined.

Lemma kalloc_kfree_progress_witness : ∃ c, kreach (I := image_sym) c ∧ ∃ p s', kalloc c.1 = Ret p s'.
Proof.
  destruct (kreach_boot (I := image_sym)) as (s & p & s' & Hr & Ea).
  exists (s, ∅). split; [exact Hr|]. exact (proj1 (kalloc_kfree_progress (I := image_sym) (s, ∅) Hr)).
Defined.
