(* ===== verification/Vm.v ===== *)
(** * kernel/vm.c: page tables and user memory (the code)

    The functions of vm.c on [mstate], written against [PageAllocator].
    Page tables live in physical memory: a [pagetable_t] is the address of a
    page of 512 64-bit entries.  A kernel buffer handed to copyout(), copyin()
    and copyinstr() is represented by its contents.  Loops that are not
    structural carry fuel computed from their bounds. *)

From stdpp Require Import base gmap sets strings numbers list.
From coqutil Require Import Byte.
From S2P Require Import Prelude Mem Str Riscv Spinlock Kalloc.

Section vm.
Context {I : image} {PA : PageAllocator}.

Local Abbreviation kalloc := pa_kalloc.
Local Abbreviation kfree := pa_kfree.

(** ** walk *)

(** [for(int level = 2; level > 0; level--)], the remaining levels as fuel. *)
Fixpoint walk_loop (level : nat) (pagetable va : Z) (alloc : bool) : M mstate Z :=
  match level with
  | O => mret (pagetable + 8 * PX 0 va)
  | S level' =>
    let pte := pagetable + 8 * PX (Z.of_nat level) va in
    v ← mload64 pte;
    if negb (Z.land v PTE_V =? 0) then walk_loop level' (PTE2PA v) va alloc
    else if negb alloc then mret 0 else
    pagetable' ← kalloc;
    if pagetable' =? 0 then mret 0 else
    mmemset pagetable' 0 PGSIZE;;
    mstore64 pte (Z.lor (PA2PTE pagetable') PTE_V);;
    walk_loop level' pagetable' va alloc
  end.

Definition walk (pagetable va : Z) (alloc : bool) : M mstate Z :=
  if MAXVA <=? va then panic "walk" else walk_loop 2 pagetable va alloc.

Definition walkaddr (pagetable va : Z) : M mstate Z :=
  if MAXVA <=? va then mret 0 else
  pte ← walk pagetable va false;
  if pte =? 0 then mret 0 else
  v ← mload64 pte;
  if Z.land v PTE_V =? 0 then mret 0 else
  if Z.land v PTE_U =? 0 then mret 0 else
  mret (PTE2PA v).

(** ** Mapping *)

Fixpoint mappages_loop (fuel : nat) (pagetable a last pa perm : Z) : M mstate Z :=
  match fuel with
  | O => no_fuel
  | S fuel =>
    pte ← walk pagetable a true;
    if pte =? 0 then mret (-1) else
    v ← mload64 pte;
    if negb (Z.land v PTE_V =? 0) then panic "mappages: remap" else
    mstore64 pte (Z.lor (Z.lor (PA2PTE pa) perm) PTE_V);;
    if a =? last then mret 0
    else mappages_loop fuel pagetable (u64 (a + PGSIZE)) last (u64 (pa + PGSIZE)) perm
  end.

(** The loop visits the pages from [a] to [last], or up to MAXVA where walk()
    panics when the range wraps around. *)
Definition mappages (pagetable va size pa perm : Z) : M mstate Z :=
  if size =? 0 then panic "mappages: size" else
  let a := PGROUNDDOWN va in
  let last := PGROUNDDOWN (u64 (va + size - 1)) in
  let fuel := S (Z.to_nat (((if last <? a then MAXVA else last) - a) / PGSIZE)) in
  mappages_loop fuel pagetable a last pa perm.

Definition kvmmap (kpgtbl va pa sz perm : Z) : M mstate unit :=
  r ← mappages kpgtbl va sz pa perm;
  if negb (r =? 0) then panic "kvmmap" else mret tt.

Fixpoint uvmunmap_loop (fuel : nat) (pagetable a last : Z) (do_free : bool) : M mstate unit :=
  match fuel with
  | O => no_fuel
  | S fuel =>
    if a <? last then
      pte ← walk pagetable a false;
      if pte =? 0 then panic "uvmunmap: walk" else
      v ← mload64 pte;
      if Z.land v PTE_V =? 0 then panic "uvmunmap: not mapped" else
      if PTE_FLAGS v =? PTE_V then panic "uvmunmap: not a leaf" else
      (if do_free then kfree (PTE2PA v) else mret tt);;
      mstore64 pte 0;;
      uvmunmap_loop fuel pagetable (u64 (a + PGSIZE)) last do_free
    else mret tt
  end.

Definition uvmunmap (pagetable va npages : Z) (do_free : bool) : M mstate unit :=
  if negb (va mod PGSIZE =? 0) then panic "uvmunmap: not aligned" else
  uvmunmap_loop (S (Z.to_nat npages)) pagetable va (u64 (va + npages * PGSIZE)) do_free.

Definition uvmcreate : M mstate Z :=
  pagetable ← kalloc;
  if pagetable =? 0 then mret 0 else
  mmemset pagetable 0 PGSIZE;;
  mret pagetable.

(** [src] is the initcode array. *)
Definition uvmfirst (pagetable : Z) (src : list byte) : M mstate unit :=
  let sz := Z.of_nat (length src) in
  if PGSIZE <=? sz then panic "uvmfirst: more than a page" else
  mem ← kalloc;
  mmemset mem 0 PGSIZE;;
  mappages pagetable 0 PGSIZE mem (Z.lor (Z.lor (Z.lor PTE_W PTE_R) PTE_X) PTE_U);;
  modify (λ s, set_mem (store_bytes (ms_mem s) mem src) s).

Definition uvmdealloc (pagetable oldsz newsz : Z) : M mstate Z :=
  if oldsz <=? newsz then mret oldsz else
  (if PGROUNDUP newsz <? PGROUNDUP oldsz then
     let npages := i32 ((PGROUNDUP oldsz - PGROUNDUP newsz) / PGSIZE) in
     uvmunmap pagetable (PGROUNDUP newsz) (u64 npages) true
   else mret tt);;
  mret newsz.

Fixpoint uvmalloc_loop (fuel : nat) (pagetable a oldsz newsz xperm : Z) : M mstate Z :=
  match fuel with
  | O => no_fuel
  | S fuel =>
    if a <? newsz then
      mem ← kalloc;
      if mem =? 0 then
        uvmdealloc pagetable a oldsz;; mret 0
      else
      mmemset mem 0 PGSIZE;;
      r ← mappages pagetable a PGSIZE mem (Z.lor (Z.lor PTE_R PTE_U) xperm);
      if negb (r =? 0) then
        kfree mem;;
        uvmdealloc pagetable a oldsz;;
        mret 0
      else uvmalloc_loop fuel pagetable (u64 (a + PGSIZE)) oldsz newsz xperm
    else mret newsz
  end.

Definition uvmalloc (pagetable oldsz newsz xperm : Z) : M mstate Z :=
  if newsz <? oldsz then mret oldsz else
  let oldsz := PGROUNDUP oldsz in
  uvmalloc_loop (S (S (Z.to_nat ((newsz - oldsz) / PGSIZE)))) pagetable oldsz oldsz newsz xperm.

(** ** Freeing *)

(** [for(int i = 0; i < 512; i++)] of freewalk(), [k] entries to go;
    [rec] is the recursive call. *)
Fixpoint freewalk_loop (rec : Z → M mstate unit) (k : nat) (pagetable i : Z) : M mstate unit :=
  match k with
  | O => mret tt
  | S k =>
    pte ← mload64 (pagetable + 8 * i);
    if negb (Z.land pte PTE_V =? 0) &&
       (Z.land pte (Z.lor (Z.lor PTE_R PTE_W) PTE_X) =? 0)
    then
      (* this PTE points to a lower-level page table. *)
      rec (PTE2PA pte);;
      mstore64 (pagetable + 8 * i) 0;;
      freewalk_loop rec k pagetable (i + 1)
    else if negb (Z.land pte PTE_V =? 0) then panic "freewalk: leaf"
    else freewalk_loop rec k pagetable (i + 1)
  end.

Fixpoint freewalk (depth : nat) (pagetable : Z) : M mstate unit :=
  match depth with
  | O => no_fuel
  | S depth =>
    freewalk_loop (freewalk depth) 512 pagetable 0;;
    kfree pagetable
  end.

(** A Sv39 page table has three levels. *)
Definition uvmfree (pagetable sz : Z) : M mstate unit :=
  (if 0 <? sz then uvmunmap pagetable 0 (PGROUNDUP sz / PGSIZE) true else mret tt);;
  freewalk 3 pagetable.

(** ** fork()'s copy *)

Fixpoint uvmcopy_loop (fuel : nat) (old new i sz : Z) : M mstate Z :=
  match fuel with
  | O => no_fuel
  | S fuel =>
    if i <? sz then
      pte ← walk old i false;
      if pte =? 0 then panic "uvmcopy: pte should exist" else
      v ← mload64 pte;
      if Z.land v PTE_V =? 0 then panic "uvmcopy: page not present" else
      let pa := PTE2PA v in
      let flags := PTE_FLAGS v in
      mem ← kalloc;
      if mem =? 0 then uvmunmap new 0 (i / PGSIZE) true;; mret (-1) else
      mmemmove mem pa PGSIZE;;
      r ← mappages new i PGSIZE mem flags;
      if negb (r =? 0) then
        kfree mem;;
        uvmunmap new 0 (i / PGSIZE) true;; mret (-1)
      else uvmcopy_loop fuel old new (u64 (i + PGSIZE)) sz
    else mret 0
  end.

Definition uvmcopy (old new sz : Z) : M mstate Z :=
  uvmcopy_loop (S (S (Z.to_nat (sz / PGSIZE)))) old new 0 sz.

Definition uvmclear (pagetable va : Z) : M mstate unit :=
  pte ← walk pagetable va false;
  if pte =? 0 then panic "uvmclear" else
  v ← mload64 pte;
  mstore64 pte (Z.land v (Z.lnot PTE_U)).

(** ** Copying between kernel and user *)

Fixpoint copyout_loop (fuel : nat) (pagetable dstva : Z) (src : list byte) : M mstate Z :=
  match fuel with
  | O => no_fuel
  | S fuel =>
    let len := Z.of_nat (length src) in
    if 0 <? len then
      let va0 := PGROUNDDOWN dstva in
      pa0 ← walkaddr pagetable va0;
      if pa0 =? 0 then mret (-1) else
      let n := PGSIZE - (dstva - va0) in
      let n := if len <? n then len else n in
      modify (λ s, set_mem (store_bytes (ms_mem s) (pa0 + (dstva - va0))
                              (take (Z.to_nat n) src)) s);;
      copyout_loop fuel pagetable (u64 (va0 + PGSIZE)) (drop (Z.to_nat n) src)
    else mret 0
  end.

(** [src] holds the [len] bytes to copy; every round moves at least one. *)
Definition copyout (pagetable dstva : Z) (src : list byte) : M mstate Z :=
  copyout_loop (S (length src)) pagetable dstva src.

(** [dst] accumulates the bytes stored so far. *)
Fixpoint copyin_loop (fuel : nat) (pagetable : Z) (dst : list byte) (srcva len : Z) :
    M mstate (Z * list byte) :=
  match fuel with
  | O => no_fuel
  | S fuel =>
    if 0 <? len then
      let va0 := PGROUNDDOWN srcva in
      pa0 ← walkaddr pagetable va0;
      if pa0 =? 0 then mret (-1, dst) else
      let n := PGSIZE - (srcva - va0) in
      let n := if len <? n then len else n in
      bs ← gets (λ s, load_bytes (ms_mem s) (pa0 + (srcva - va0)) (Z.to_nat n));
      copyin_loop fuel pagetable (dst ++ bs) (u64 (va0 + PGSIZE)) (len - n)
    else mret (0, dst)
  end.

(** Returns the status and the bytes written to the kernel buffer. *)
Definition copyin (pagetable srcva len : Z) : M mstate (Z * list byte) :=
  copyin_loop (S (Z.to_nat len)) pagetable [] srcva len.

(** The inner [while(n > 0)] of copyinstr(): the bytes moved to [dst] and
    whether a NUL was met. *)
Fixpoint copyinstr_page (m : mem) (p : Z) (n : nat) : list byte * bool :=
  match n with
  | O => ([], false)
  | S n =>
    if load8 m p =? 0 then ([Byte.x00], true)
    else let '(bs, got_null) := copyinstr_page m (p + 1) n in (m p :: bs, got_null)
  end.

Fixpoint copyinstr_loop (fuel : nat) (pagetable : Z) (dst : list byte) (srcva max : Z) :
    M mstate (Z * list byte) :=
  match fuel with
  | O => no_fuel
  | S fuel =>
    if 0 <? max then
      let va0 := PGROUNDDOWN srcva in
      pa0 ← walkaddr pagetable va0;
      if pa0 =? 0 then mret (-1, dst) else
      let n := PGSIZE - (srcva - va0) in
      let n := if max <? n then max else n in
      m ← gets ms_mem;
      let '(bs, got_null) := copyinstr_page m (pa0 + (srcva - va0)) (Z.to_nat n) in
      if got_null : bool then mret (0, dst ++ bs)
      else copyinstr_loop fuel pagetable (dst ++ bs) (u64 (va0 + PGSIZE)) (max - n)
    else mret (-1, dst)
  end.

Definition copyinstr (pagetable srcva max : Z) : M mstate (Z * list byte) :=
  copyinstr_loop (S (Z.to_nat max)) pagetable [] srcva max.

(** ** The kernel's page table *)

(** proc.c: [for(p = proc; p < &proc[NPROC]; p++)], [k] stacks to go. *)
Fixpoint proc_mapstacks_loop (k : nat) (kpgtbl i : Z) : M mstate unit :=
  match k with
  | O => mret tt
  | S k =>
    pa ← kalloc;
    if pa =? 0 then panic "kalloc" else
    kvmmap kpgtbl (KSTACK i) pa PGSIZE (Z.lor PTE_R PTE_W);;
    proc_mapstacks_loop k kpgtbl (i + 1)
  end.

Definition proc_mapstacks (kpgtbl : Z) : M mstate unit := proc_mapstacks_loop NPROC kpgtbl 0.

Definition kvmmake : M mstate Z :=
  kpgtbl ← kalloc;
  mmemset kpgtbl 0 PGSIZE;;
  (* uart registers *)
  kvmmap kpgtbl UART0 UART0 PGSIZE (Z.lor PTE_R PTE_W);;
  (* virtio mmio disk interface *)
  kvmmap kpgtbl VIRTIO0 VIRTIO0 PGSIZE (Z.lor PTE_R PTE_W);;
  (* PLIC *)
  kvmmap kpgtbl PLIC PLIC 0x400000 (Z.lor PTE_R PTE_W);;
  (* map kernel text executable and read-only. *)
  kvmmap kpgtbl KERNBASE KERNBASE (etext - KERNBASE) (Z.lor PTE_R PTE_X);;
  (* map kernel data and the physical RAM we'll make use of. *)
  kvmmap kpgtbl etext etext (PHYSTOP - etext) (Z.lor PTE_R PTE_W);;
  (* map the trampoline for trap entry/exit to the highest virtual address *)
  kvmmap kpgtbl TRAMPOLINE trampoline PGSIZE (Z.lor PTE_R PTE_X);;
  (* allocate and map a kernel stack for each process. *)
  proc_mapstacks kpgtbl;;
  mret kpgtbl.

(** kvminit(): the value stored in [kernel_pagetable]. *)
Definition kvminit : M mstate Z := kvmmake.

End vm.
