(* ===== verification/VmPt.v ===== *)
(** * Page tables in memory: representation and walk()

    [pt_wf m T root]: in memory [m], a Sv39 page table is rooted at [root];
    the ghost map [T] gives, for each of its pages, the level and the virtual
    address prefix it translates.  As a page has one level and one prefix,
    the table is a tree: distinct virtual pages have distinct leaf entries.
    [pt_get m root va] is the leaf entry of [va] (0 when there is none): the
    translation a page table implements. *)

From stdpp Require Import base gmap sets strings numbers list.
From coqutil Require Import Byte.
From S2P Require Import Prelude Mem Str Riscv Spinlock Kalloc Vm.

Definition pte_valid (v : Z) : bool := negb (Z.land v PTE_V =? 0).

(** The address of the leaf entry of [va] below a level-[level] page. *)
Fixpoint pt_walk (m : mem) (level : nat) (pagetable va : Z) : option Z :=
  match level with
  | O => Some (pagetable + 8 * PX 0 va)
  | S level' =>
    let v := load64 m (pagetable + 8 * PX (Z.of_nat level) va) in
    if pte_valid v then pt_walk m level' (PTE2PA v) va else None
  end.

Definition pt_leaf (m : mem) (root va : Z) : option Z := pt_walk m 2 root va.

Definition pt_get (m : mem) (root va : Z) : Z :=
  match pt_leaf m root va with Some a => load64 m a | None => 0 end.

(** Levels and prefixes of the pages of a table. *)
Definition ptree : Type := gmap Z (nat * Z).

Section pt.
Context {I : image}.

(** A page of level [lv] and prefix [pre] translates addresses below MAXVA. *)
Definition pt_bounded (lv : nat) (pre : Z) : Prop :=
  (lv ≤ 2)%nat ∧ 0 ≤ pre ∧ pre * 2 ^ (21 + 9 * Z.of_nat lv) < MAXVA.

(** Valid entries of inner pages carry no permission, and every page but the
    root is pointed to by the entry of its prefix. *)
Definition pt_tight (m : mem) (T : gmap Z (nat * Z)) (root : Z) : Prop :=
  (∀ p lv pre i, T !! p = Some (S lv, pre) → 0 ≤ i < 512 →
     pte_valid (load64 m (p + 8 * i)) = true → PTE_FLAGS (load64 m (p + 8 * i)) = PTE_V) ∧
  (∀ p lv pre, T !! p = Some (lv, pre) → p ≠ root → ∃ q, T !! q = Some (S lv, pre / 512) ∧
     pte_valid (load64 m (q + 8 * (pre mod 512))) = true ∧ PTE2PA (load64 m (q + 8 * (pre mod 512))) = p) ∧
  (∀ p lv pre, T !! p = Some (lv, pre) → pt_bounded lv pre).

Definition pt_wf (m : mem) (T : gmap Z (nat * Z)) (root : Z) : Prop :=
  T !! root = Some (2%nat, 0) ∧
  (∀ p lv pre, T !! p = Some (lv, pre) → page_ok p) ∧
  (∀ p lv pre i, T !! p = Some (S lv, pre) → 0 ≤ i < 512 →
     pte_valid (load64 m (p + 8 * i)) = true →
     T !! PTE2PA (load64 m (p + 8 * i)) = Some (lv, pre * 512 + i)) ∧
  pt_tight m T root.

(** The prefix of [va] at a page of level [lv]. *)
Definition va_prefix (lv : nat) (va : Z) : Z := va / 2 ^ (21 + 9 * Z.of_nat lv).

End pt.

(** ** The walk as a function of memory *)

Section pt_facts.
Context {I : image} {IO : image_ok I}.

Lemma PX_prefix lv va : 0 ≤ va →
  va_prefix (S lv) va * 512 + PX (Z.of_nat (S lv)) va = va_prefix lv va.
Proof.
  intros Hva. unfold va_prefix. rewrite PX_div by lia.
  replace (21 + 9 * Z.of_nat (S lv)) with ((21 + 9 * Z.of_nat lv) + 9) by lia.
  replace (12 + 9 * Z.of_nat (S lv)) with (21 + 9 * Z.of_nat lv) by lia.
  rewrite Z.pow_add_r, <- Z.div_div by (try apply Z.pow_nonzero; lia).
  change (2 ^ 9) with 512.
  pose proof (Z.div_mod (va / 2 ^ (21 + 9 * Z.of_nat lv)) 512). lia.
Qed.

Lemma va_prefix_root va : 0 ≤ va < MAXVA → va_prefix 2 va = 0.
Proof. intros. unfold va_prefix. apply Z.div_small. pgunfold. simpl. lia. Qed.

Lemma va_prefix_bounded lv va : (lv ≤ 2)%nat → 0 ≤ va < MAXVA → pt_bounded lv (va_prefix lv va).
Proof.
  intros Hl Hva. unfold va_prefix. assert (0 < 2 ^ (21 + 9 * Z.of_nat lv)) by (apply Z.pow_pos_nonneg; lia).
  split_and!; [done|by apply Z.div_pos; lia|].
  pose proof (Z.mul_div_le va (2 ^ (21 + 9 * Z.of_nat lv))). lia.
Qed.

Lemma vpage_prefix va va' : 0 ≤ va → 0 ≤ va' →
  va_prefix 0 va = va_prefix 0 va' → PX 0 va = PX 0 va' → va / PGSIZE = va' / PGSIZE.
Proof.
  intros H1 H2 Hp Hx. rewrite !PX_div in Hx by lia. unfold va_prefix in Hp.
  change (21 + 9 * Z.of_nat 0) with (12 + 9) in Hp. change (12 + 9 * 0) with 12 in Hx.
  rewrite !Z.pow_add_r, <- !Z.div_div in Hp by lia. change (2 ^ 9) with 512 in Hp.
  change PGSIZE with (2 ^ 12).
  pose proof (Z.div_mod (va / 2 ^ 12) 512). pose proof (Z.div_mod (va' / 2 ^ 12) 512). lia.
Qed.

Lemma PX_vpage level va va' : 0 ≤ level → va / PGSIZE = va' / PGSIZE → PX level va = PX level va'.
Proof.
  intros Hl He. rewrite !PX_div by done. rewrite Z.pow_add_r, <- !Z.div_div by lia.
  change (2 ^ 12) with PGSIZE. by rewrite He.
Qed.

Lemma pt_walk_vpage m level pt va va' :
  va / PGSIZE = va' / PGSIZE → pt_walk m level pt va = pt_walk m level pt va'.
Proof.
  intros He. revert pt. induction level as [|level IH]; intros pt; cbn [pt_walk];
    rewrite (PX_vpage _ va va') by (lia || done); [done|]. by rewrite IH.
Qed.

Lemma pt_get_vpage m root va va' : va / PGSIZE = va' / PGSIZE → pt_get m root va = pt_get m root va'.
Proof. intros He. unfold pt_get, pt_leaf. by rewrite (pt_walk_vpage _ _ _ va va'). Qed.

(** The page at the end of the walk is the level-0 page of the prefix. *)
Lemma pt_walk_page m T root lv p va a :
  pt_wf m T root → 0 ≤ va → T !! p = Some (lv, va_prefix lv va) → pt_walk m lv p va = Some a →
  ∃ q, T !! q = Some (0%nat, va_prefix 0 va) ∧ a = q + 8 * PX 0 va.
Proof.
  intros (_ & _ & Hch & _) Hva. revert p. induction lv as [|lv IH]; intros p Hp Hw; cbn [pt_walk] in Hw.
  - simplify_eq. eauto.
  - destruct (pte_valid _) eqn:Ev; [|done]. eapply IH, Hw.
    erewrite Hch by (try done; apply PX_range; lia). by rewrite PX_prefix.
Qed.

Lemma pt_leaf_page m T root va a :
  pt_wf m T root → 0 ≤ va < MAXVA → pt_leaf m root va = Some a →
  ∃ q, T !! q = Some (0%nat, va_prefix 0 va) ∧ a = q + 8 * PX 0 va.
Proof.
  intros Hwf Hva Hl. eapply pt_walk_page; [done|lia| |exact Hl].
  rewrite va_prefix_root by done. apply Hwf.
Qed.

(** Entries of distinct pages, and distinct entries of a page, do not overlap. *)
Lemma slot_disjoint p q i j :
  p mod PGSIZE = 0 → q mod PGSIZE = 0 → 0 ≤ i < 512 → 0 ≤ j < 512 → (p ≠ q ∨ i ≠ j) →
  p + 8 * i + 8 ≤ q + 8 * j ∨ q + 8 * j + 8 ≤ p + 8 * i.
Proof.
  intros Hp Hq Hi Hj Hne. destruct (decide (p = q)) as [->|Hpq]; [lia|].
  destruct (page_disjoint p q Hp Hq Hpq); unfold PGSIZE in *; lia.
Qed.

Lemma slot_inj p q i j :
  p mod PGSIZE = 0 → q mod PGSIZE = 0 → 0 ≤ i < 512 → 0 ≤ j < 512 →
  p + 8 * i = q + 8 * j → p = q ∧ i = j.
Proof.
  intros Hp Hq Hi Hj He. destruct (decide (p = q)) as [->|Hpq]; [lia|].
  destruct (page_disjoint p q Hp Hq Hpq); unfold PGSIZE in *; lia.
Qed.

Lemma pt_wf_aligned m T root p lv pre : pt_wf m T root → T !! p = Some (lv, pre) → p mod PGSIZE = 0.
Proof. intros (_ & Hp & _) HT. by destruct (Hp _ _ _ HT). Qed.

(** Distinct virtual pages have distinct leaf entries. *)
Lemma pt_leaf_inj m T root va va' a :
  pt_wf m T root → 0 ≤ va < MAXVA → 0 ≤ va' < MAXVA →
  pt_leaf m root va = Some a → pt_leaf m root va' = Some a → va / PGSIZE = va' / PGSIZE.
Proof.
  intros Hwf Hva Hva' Hl Hl'.
  destruct (pt_leaf_page _ _ _ _ _ Hwf Hva Hl) as (q & Hq & ->).
  destruct (pt_leaf_page _ _ _ _ _ Hwf Hva' Hl') as (q' & Hq' & He).
  destruct (slot_inj q q' (PX 0 va) (PX 0 va')) as [-> Hx];
    eauto using pt_wf_aligned, PX_range, Z.le_refl.
  apply vpage_prefix; [lia|lia|congruence|done].
Qed.

(** Memory outside the pages of the table is irrelevant. *)
Lemma pt_walk_frame m m' T root lv p va :
  pt_wf m T root → 0 ≤ va → T !! p = Some (lv, va_prefix lv va) →
  (∀ q x, is_Some (T !! q) → in_page q x → m' x = m x) →
  pt_walk m' lv p va = pt_walk m lv p va.
Proof.
  intros (_ & _ & Hch & _) Hva Hp Hag. revert p Hp. induction lv as [|lv IH]; intros p Hp; [done|].
  cbn [pt_walk]. pose proof (PX_range (Z.of_nat (S lv)) va).
  rewrite (load64_ext m' m).
  - destruct (pte_valid _) eqn:Ev; [|done]. apply IH.
    erewrite Hch by (try done; lia). by rewrite PX_prefix.
  - intros x Hx. apply (Hag p); [by rewrite Hp|]. unfold in_page, PGSIZE. lia.
Qed.

Lemma pt_tight_ext m m' T root :
  (∀ p lv pre i, T !! p = Some (S lv, pre) → 0 ≤ i < 512 → load64 m' (p + 8 * i) = load64 m (p + 8 * i)) →
  pt_tight m T root → pt_tight m' T root.
Proof.
  intros He (Hf & Hl & Hb). split_and!; [| |done].
  - intros p lv pre i Hp Hi. rewrite (He p lv pre i) by done. by apply (Hf p lv pre).
  - intros p lv pre Hp Hr. destruct (Hl p lv pre Hp Hr) as (q & Hq & Hv & Ha). exists q.
    rewrite (He q lv _ _ Hq) by (apply Z.mod_pos_bound; lia). done.
Qed.

Lemma pt_frame m m' T root :
  pt_wf m T root → (∀ q x, is_Some (T !! q) → in_page q x → m' x = m x) →
  pt_wf m' T root ∧ ∀ va, 0 ≤ va < MAXVA →
    pt_leaf m' root va = pt_leaf m root va ∧ pt_get m' root va = pt_get m root va.
Proof.
  intros Hwf Hag. pose proof Hwf as (Hr & Hok & Hch & Htt). split.
  - assert (He : ∀ p lv pre i, T !! p = Some (lv, pre) → 0 ≤ i < 512 →
      load64 m' (p + 8 * i) = load64 m (p + 8 * i)).
    { intros p lv pre i Hp Hi. apply load64_ext. intros x Hx.
      apply (Hag p); [by rewrite Hp|]. unfold in_page, PGSIZE. lia. }
    split_and!; [done|done| |].
    + intros p lv pre i Hp Hi. rewrite (He p (S lv) pre i) by done. by apply Hch.
    + apply (pt_tight_ext m); [|done]. intros p lv pre i Hp. by apply (He p (S lv) pre).
  - intros va Hva.
    assert (Hl : pt_leaf m' root va = pt_leaf m root va).
    { eapply pt_walk_frame; [done|lia| |done]. by rewrite va_prefix_root. }
    split; [done|]. unfold pt_get. rewrite Hl. destruct (pt_leaf m root va) as [a|] eqn:E; [|done].
    destruct (pt_leaf_page _ _ _ _ _ Hwf Hva E) as (q & Hq & ->). apply load64_ext.
    intros x Hx. apply (Hag q); [by rewrite Hq|]. pose proof (PX_range 0 va).
    unfold in_page, PGSIZE. lia.
Qed.

(** Writing an entry of a level-0 page. *)
Lemma pt_walk_store_leaf m T root lv p va a v q i :
  pt_wf m T root → 0 ≤ va → T !! p = Some (lv, va_prefix lv va) →
  T !! q = Some (0%nat, a) → 0 ≤ i < 512 →
  pt_walk (store64 m (q + 8 * i) v) lv p va = pt_walk m lv p va.
Proof.
  intros Hwf Hva Hp Hq Hi. pose proof Hwf as (_ & _ & Hch & _).
  revert p Hp. induction lv as [|lv IH]; intros p Hp; [done|].
  cbn [pt_walk]. pose proof (PX_range (Z.of_nat (S lv)) va).
  rewrite load64_store64_ne.
  - destruct (pte_valid _) eqn:Ev; [|done]. apply IH.
    erewrite Hch by (try done; lia). by rewrite PX_prefix.
  - apply slot_disjoint; eauto using pt_wf_aligned; [lia|]. left. intros ->. congruence.
Qed.

Lemma pt_store_leaf m T root va a v :
  pt_wf m T root → 0 ≤ va < MAXVA → pt_leaf m root va = Some a →
  let m' := store64 m a v in
  pt_wf m' T root ∧
  (∀ va', 0 ≤ va' < MAXVA → pt_leaf m' root va' = pt_leaf m root va') ∧
  (∀ va', 0 ≤ va' < MAXVA → pt_get m' root va' =
     if decide (va' / PGSIZE = va / PGSIZE) then u64 v else pt_get m root va').
Proof.
  intros Hwf Hva Hl. pose proof Hwf as (Hr & Hok & Hch & Htt).
  destruct (pt_leaf_page _ _ _ _ _ Hwf Hva Hl) as (q & Hq & ->). simpl.
  pose proof (PX_range 0 va ltac:(lia)) as Hx.
  assert (Hleaf : ∀ va', 0 ≤ va' < MAXVA →
    pt_leaf (store64 m (q + 8 * PX 0 va) v) root va' = pt_leaf m root va').
  { intros va' Hva'. eapply pt_walk_store_leaf; try done; [lia|]. by rewrite va_prefix_root. }
  split_and!; [|done|].
  - assert (He : ∀ p lv pre i, T !! p = Some (S lv, pre) → 0 ≤ i < 512 →
      load64 (store64 m (q + 8 * PX 0 va) v) (p + 8 * i) = load64 m (p + 8 * i)).
    { intros p lv pre i Hp Hi. apply load64_store64_ne.
      apply slot_disjoint; eauto using pt_wf_aligned. left. intros ->. congruence. }
    split_and!; [done|done| |by apply (pt_tight_ext m)].
    intros p lv pre i Hp Hi. rewrite (He p lv pre i) by done. by apply Hch.
  - intros va' Hva'. unfold pt_get. rewrite Hleaf by done.
    case_decide as Hd.
    + unfold pt_leaf. rewrite (pt_walk_vpage _ _ _ va' va) by done. fold (pt_leaf m root va).
      rewrite Hl. apply load64_store64_eq.
    + destruct (pt_leaf m root va') as [a'|] eqn:E; [|done].
      destruct (pt_leaf_page _ _ _ _ _ Hwf Hva' E) as (q' & Hq' & ->).
      apply load64_store64_ne. apply slot_disjoint; eauto using pt_wf_aligned.
      * apply PX_range. lia.
      * destruct (decide (q' = q)) as [->|]; [right|by left]. intros Hpx. apply Hd.
        rewrite Hq in Hq'. apply vpage_prefix; [lia|lia|congruence|done].
Qed.

End pt_facts.
