(* ===== verification/VmWalk.v ===== *)
(** * walk(): correctness

    [vm_ok s F T root]: the allocator has the free pages [F], the page table
    rooted at [root] occupies the pages of [T], and the two are disjoint.
    [pt_grow] is what walk(.., 1) may do: move pages from the free set to the
    table, without changing any translation nor memory outside of them. *)

From stdpp Require Import base gmap sets strings numbers list.
From coqutil Require Import Byte.
From S2P Require Import Prelude Mem Str Riscv Spinlock Kalloc Vm VmPt.

(** Value of the leaf entry of [va] below a page of level [lv]. *)
Definition pt_val (m : mem) (lv : nat) (p va : Z) : Z :=
  match pt_walk m lv p va with Some a => load64 m a | None => 0 end.

Section walk.
Context {I : image} {IO : image_ok I} {PA : PageAllocator}.

Definition vm_ok (s : mstate) (F : gset Z) (T : gmap Z (nat * Z)) (root : Z) : Prop :=
  pa_inv s F ∧ pt_wf (ms_mem s) T root ∧ ∀ q, is_Some (T !! q) → q ∉ F.

(** Valid entries of inner pages are kept. *)
Definition inner_kept (m m' : mem) (T : gmap Z (nat * Z)) : Prop :=
  ∀ q lv pre i, T !! q = Some (S lv, pre) → 0 ≤ i < 512 →
    pte_valid (load64 m (q + 8 * i)) = true → load64 m' (q + 8 * i) = load64 m (q + 8 * i).

(** Memory outside the pages of [X] is unchanged. *)
Definition frame (X : gset Z) (m m' : mem) : Prop :=
  ∀ x, (∀ q, q ∈ X → ¬ in_page q x) → m' x = m x.

Definition same_get (m m' : mem) (root : Z) : Prop :=
  ∀ va, 0 ≤ va < MAXVA → pt_get m' root va = pt_get m root va.

Definition pt_grow s F (T : gmap Z (nat * Z)) s' F' (T' : gmap Z (nat * Z)) root : Prop :=
  vm_ok s' F' T' root ∧ T ⊆ T' ∧ F' ∪ dom T' = F ∪ dom T ∧
  same_get (ms_mem s) (ms_mem s') root ∧ inner_kept (ms_mem s) (ms_mem s') T ∧
  frame (F ∪ dom T) (ms_mem s) (ms_mem s').

(** The pages [T'] has more than [T] are on the walks to addresses in [V]. *)
Definition on_walks (T T' : gmap Z (nat * Z)) (V : Z → Prop) : Prop :=
  ∀ q lv pre, T' !! q = Some (lv, pre) → T !! q = Some (lv, pre) ∨ ∃ va, V va ∧ pre = va_prefix lv va.

Lemma on_walks_refl T V : on_walks T T V.
Proof. intros q lv pre Hq. by left. Qed.
Lemma on_walks_trans T1 T2 T3 (V1 V2 V : Z → Prop) : on_walks T1 T2 V1 → on_walks T2 T3 V2 →
  (∀ va, V1 va → V va) → (∀ va, V2 va → V va) → on_walks T1 T3 V.
Proof. intros H1 H2 HV1 HV2 q lv pre Hq. destruct (H2 _ _ _ Hq) as [Hq'|(va & ? & ?)]; [destruct (H1 _ _ _ Hq') as [?|(va & ? & ?)]|]; eauto. Qed.

Lemma frame_refl X m : frame X m m.
Proof. by intros x. Qed.

Lemma frame_trans X m1 m2 m3 : frame X m1 m2 → frame X m2 m3 → frame X m1 m3.
Proof. intros H1 H2 x Hx. rewrite H2, H1; done. Qed.

Lemma frame_mono X Y m m' : X ⊆ Y → frame X m m' → frame Y m m'.
Proof. intros Hs Hf x Hx. apply Hf. intros q Hq. apply Hx. set_solver. Qed.

Lemma same_outside_frame p X m m' : p ∈ X → same_outside p m m' → frame X m m'.
Proof. intros Hp Hs x Hx. apply Hs. by apply Hx. Qed.

Lemma pt_grow_refl s F T root : vm_ok s F T root → pt_grow s F T s F T root.
Proof. intros H. split_and!; try done; by intros ?. Qed.

Lemma pt_grow_trans s1 F1 T1 s2 F2 T2 s3 F3 T3 root :
  pt_grow s1 F1 T1 s2 F2 T2 root → pt_grow s2 F2 T2 s3 F3 T3 root →
  pt_grow s1 F1 T1 s3 F3 T3 root.
Proof.
  intros (Hok & HT & HF & Hg & Hi & Hf) (Hok' & HT' & HF' & Hg' & Hi' & Hf').
  split_and!; [done|by etrans|congruence| | |].
  - intros va Hva. rewrite Hg' by done. by apply Hg.
  - intros q lv pre i Hq Hi0 Hv. pose proof (Hi _ _ _ _ Hq Hi0 Hv) as E. rewrite <- E.
    eapply Hi'; [|done|by rewrite E]. by eapply lookup_weaken.
  - eapply frame_trans; [done|]. by rewrite <- HF.
Qed.

(** ** walk() without allocation *)

Lemma walk_loop_noalloc lv p va s :
  walk_loop lv p va false s = Ret (default 0 (pt_walk (ms_mem s) lv p va)) s.
Proof.
  revert p. induction lv as [|lv IH]; intros p; [done|].
  cbn [walk_loop pt_walk]. unfold mload64, gets, mbind, M_bind, pte_valid.
  destruct (negb _); [apply IH|done].
Qed.

Lemma walk_noalloc root va s :
  0 ≤ va < MAXVA → walk root va false s = Ret (default 0 (pt_leaf (ms_mem s) root va)) s.
Proof.
  intros Hva. unfold walk. destruct (Z.leb_spec MAXVA va); [lia|]. apply walk_loop_noalloc.
Qed.

Lemma pt_leaf_nonzero m T root va a :
  pt_wf m T root → 0 ≤ va < MAXVA → pt_leaf m root va = Some a → a ≠ 0.
Proof.
  intros Hwf Hva Hl. destruct (pt_leaf_page _ _ _ _ _ Hwf Hva Hl) as (q & Hq & ->).
  pose proof Hwf as (_ & Hok & _). destruct (page_ok_pos q (Hok _ _ _ Hq)) as [? _].
  pose proof (PX_range 0 va). lia.
Qed.

(** ** A new page-table page *)

Lemma new_pte_facts n : page_ok n →
  u64 (Z.lor (PA2PTE n) PTE_V) = Z.lor (PA2PTE n) PTE_V ∧
  pte_valid (Z.lor (PA2PTE n) PTE_V) = true ∧ PTE2PA (Z.lor (PA2PTE n) PTE_V) = n.
Proof.
  intros Hn. apply page_ok_pos in Hn as [Hn Hal]. split_and!.
  - rewrite PA2PTE_div by lia. change PTE_V with 1. change 1024 with (2 ^ 10).
    rewrite lor_mul_small by lia. apply u64_id.
    pose proof (Z.div_mod n 4096). unfold PGSIZE in Hal. lia.
  - unfold pte_valid, PTE_V. rewrite land_bit_testbit by lia. rewrite negb_involutive, Z.lor_spec.
    apply orb_true_r.
  - apply PTE2PA_entry; try lia; try done.
Qed.

(** Everything below a page of zeros is unmapped. *)
Lemma pt_val_zero m lv n va :
  (∀ x, in_page n x → m x = Byte.x00) → pt_val m lv n va = 0.
Proof.
  intros Hz. assert (Hl : ∀ k, 0 ≤ k < 512 → load64 m (n + 8 * k) = 0).
  { intros k Hk. apply load64_zero. intros x Hx. apply Hz. unfold in_page, PGSIZE. lia. }
  unfold pt_val. destruct lv as [|lv]; cbn [pt_walk]; rewrite Hl by (apply PX_range; lia); done.
Qed.

Section install.
Context (m : mem) (T : gmap Z (nat * Z)) (root p n : Z) (lv : nat) (pre i : Z).
Hypothesis (Hwf : pt_wf m T root) (Hp : T !! p = Some (S lv, pre)) (Hi : 0 ≤ i < 512).
Hypothesis (Hinv : pte_valid (load64 m (p + 8 * i)) = false).
Hypothesis (Hn : page_ok n) (HnT : T !! n = None) (Hbd : pt_bounded lv (pre * 512 + i)).

(** Memory after [memset(n, 0, PGSIZE); *pte = PA2PTE(n) | PTE_V]. *)
Definition installed : mem :=
  store64 (memset m n 0 PGSIZE) (p + 8 * i) (Z.lor (PA2PTE n) PTE_V).

Lemma installed_slot : load64 installed (p + 8 * i) = Z.lor (PA2PTE n) PTE_V.
Proof. unfold installed. rewrite load64_store64_eq. by apply new_pte_facts. Qed.

Lemma installed_other q j :
  q mod PGSIZE = 0 → q ≠ n → 0 ≤ j < 512 → (q ≠ p ∨ j ≠ i) →
  load64 installed (q + 8 * j) = load64 m (q + 8 * j).
Proof.
  intros Hq Hqn Hj Hne. pose proof (pt_wf_aligned _ _ _ _ _ _ Hwf Hp) as Hpal.
  destruct (page_ok_pos n Hn) as [_ Hnal]. unfold installed.
  rewrite load64_store64_ne by (apply slot_disjoint; naive_solver).
  apply (same_outside_load64 n q); try done; [apply memset_same_outside|unfold PGSIZE; lia..].
Qed.

Lemma installed_zero x : in_page n x → installed x = Byte.x00.
Proof.
  intros Hx. assert (p ≠ n) by congruence.
  pose proof (pt_wf_aligned _ _ _ _ _ _ Hwf Hp) as Hpal.
  destruct (page_ok_pos n Hn) as [_ Hnal]. unfold installed.
  rewrite store64_out; [by apply memset_in|].
  destruct (page_disjoint p n) as [?|?]; try done; unfold in_page, PGSIZE in *; lia.
Qed.

Lemma T_ne_n q x : T !! q = Some x → q ≠ n.
Proof. congruence. Qed.

Lemma installed_val k q va :
  0 ≤ va → T !! q = Some (k, va_prefix k va) → pt_val installed k q va = pt_val m k q va.
Proof.
  intros Hva. revert q. induction k as [|k IH]; intros q Hq; unfold pt_val; cbn [pt_walk].
  - pose proof (PX_range 0 va ltac:(lia)). apply installed_other; eauto using pt_wf_aligned, T_ne_n. left. intros ->. congruence.
  - pose proof (PX_range (Z.of_nat (S k)) va ltac:(lia)).
    destruct (decide (q = p ∧ PX (Z.of_nat (S k)) va = i)) as [[-> Hx]|Hne].
    + rewrite Hx, installed_slot, Hinv.
      destruct (new_pte_facts n Hn) as (_ & -> & ->). fold (pt_val installed k n va).
      apply pt_val_zero, installed_zero.
    + rewrite installed_other; eauto using pt_wf_aligned, T_ne_n.
      * destruct (pte_valid (load64 m (q + 8 * PX (Z.of_nat (S k)) va))) eqn:Ev; [|done]. apply IH.
        destruct Hwf as (_ & _ & Hch & _). erewrite Hch by (try done; lia). by rewrite PX_prefix.
      * destruct (decide (q = p)); [right|by left]. naive_solver.
Qed.

Lemma installed_tight : pt_tight installed (<[n := (lv, pre * 512 + i)]> T) root.
Proof.
  pose proof Hwf as (Hr & Hok & Hch & Hfl & Hlk & Hb). destruct (new_pte_facts n Hn) as (_ & Hnv & Hna). split_and!.
  - intros q k pr j Hq Hj Hv. destruct (decide (q = n)) as [->|Hqn].
    { rewrite load64_zero in Hv; [done|]. intros x Hx. apply installed_zero. unfold in_page, PGSIZE. lia. }
    rewrite lookup_insert_ne in Hq by done. destruct (decide (q = p ∧ j = i)) as [[-> ->]|Hne].
    + rewrite installed_slot. apply page_ok_pos in Hn as [Hn' _]. apply PTE_FLAGS_entry; [lia|done].
    + rewrite installed_other in Hv |- * by (eauto using pt_wf_aligned; destruct (decide (q = p)); naive_solver).
      by apply (Hfl q k pr).
  - intros q k pr Hq Hqr. destruct (decide (q = n)) as [->|Hqn].
    + rewrite lookup_insert_eq in Hq. simplify_eq. exists p.
      rewrite lookup_insert_ne by congruence.
      rewrite Z.div_add_l, Z.div_small, Z.add_0_r by lia.
      replace ((pre * 512 + i) mod 512) with i.
      { by rewrite installed_slot. }
      rewrite Z.add_comm, Z.mod_add, Z.mod_small by lia. done.
    + rewrite lookup_insert_ne in Hq by done. destruct (Hlk q k pr Hq Hqr) as (q' & Hq' & Hv & Ha).
      assert (q' ≠ n) by congruence. exists q'. rewrite lookup_insert_ne by done.
      rewrite installed_other; [done|by eapply pt_wf_aligned|done|by apply Z.mod_pos_bound|].
      destruct (decide (q' = p)) as [->|]; [right|by left]. intros Hm. rewrite Hm in Hv. congruence.
  - intros q k pr Hq. destruct (decide (q = n)) as [->|Hqn].
    + rewrite lookup_insert_eq in Hq. by simplify_eq.
    + rewrite lookup_insert_ne in Hq by done. by apply (Hb q).
Qed.

Lemma installed_wf : pt_wf installed (<[n := (lv, pre * 512 + i)]> T) root.
Proof.
  pose proof Hwf as (Hr & Hok & Hch & Htt). split_and!.
  - rewrite lookup_insert_ne; [done|]. intros ->. congruence.
  - intros q k pr. destruct (decide (q = n)) as [->|Hq]; [done|].
    rewrite lookup_insert_ne by done. apply Hok.
  - intros q k pr j Hq Hj Hv. destruct (decide (q = n)) as [->|Hqn].
    { rewrite load64_zero in Hv; [done|]. intros x Hx. apply installed_zero. unfold in_page, PGSIZE. lia. }
    rewrite lookup_insert_ne in Hq by done.
    destruct (decide (q = p ∧ j = i)) as [[-> ->]|Hne].
    + rewrite installed_slot. destruct (new_pte_facts n Hn) as (_ & _ & ->).
      rewrite lookup_insert_eq. by simplify_eq.
    + rewrite installed_other in Hv |- * by (eauto using pt_wf_aligned; destruct (decide (q = p)); naive_solver).
      rewrite lookup_insert_ne; [by apply Hch|]. intros He.
      pose proof (Hch _ _ _ _ Hq Hj Hv) as Hc. congruence.
  - apply installed_tight.
Qed.

Lemma installed_get : same_get m installed root.
Proof.
  intros va Hva. pose proof (installed_val 2 root va) as H. unfold pt_val in H.
  unfold pt_get, pt_leaf. apply H; [lia|]. rewrite va_prefix_root by done. apply Hwf.
Qed.

Lemma installed_inner : inner_kept m installed T.
Proof.
  intros q k pr j Hq Hj Hv. apply installed_other; eauto using pt_wf_aligned, T_ne_n.
  destruct (decide (q = p)) as [->|]; [right|by left]. intros ->. congruence.
Qed.

End install.

(** ** walk() with allocation *)

(** kalloc() hands out a page: the table is untouched. *)
Lemma kalloc_grow s F T root : vm_ok s F T root → F ≠ ∅ → ∃ n s',
  pa_kalloc s = Ret n s' ∧ n ∈ F ∧ page_ok n ∧ T !! n = None ∧
  vm_ok s' (F ∖ {[n]}) T root ∧ same_outside n (ms_mem s) (ms_mem s') ∧
  (∀ q x, is_Some (T !! q) → in_page q x → ms_mem s' x = ms_mem s x).
Proof.
  intros (Hinv & Hwf & Hd) Hne.
  destruct (pa_kalloc_some s F Hinv Hne) as (n & s' & Hn & E & Hinv' & Hs).
  pose proof (pa_pages _ _ _ Hinv Hn) as Hok.
  assert (HnT : T !! n = None).
  { destruct (T !! n) eqn:En; [|done]. exfalso. by apply (Hd n); [rewrite En|]. }
  assert (Hag : ∀ q x, is_Some (T !! q) → in_page q x → ms_mem s' x = ms_mem s x).
  { intros q x [[lv pre] Hq] Hx. apply Hs. intros Hx'.
    assert (n = q) as ->; [|congruence].
    eapply in_page_unique; [by apply page_ok_pos|by eapply pt_wf_aligned|done|done]. }
  exists n, s'. split_and!; try done. split_and!; [done|by eapply pt_frame|].
  intros q Hq Hin. apply (Hd q Hq). set_solver.
Qed.

(** One new page-table page is allocated and linked at entry [i] of [p]. *)
Lemma install_grow s F T root p lv pre i s1 n :
  vm_ok s F T root → T !! p = Some (S lv, pre) → 0 ≤ i < 512 →
  pte_valid (load64 (ms_mem s) (p + 8 * i)) = false → pt_bounded lv (pre * 512 + i) →
  pa_kalloc s = Ret n s1 → n ∈ F →
  pt_grow s F T (set_mem (installed (ms_mem s1) p n i) s1) (F ∖ {[n]})
    (<[n := (lv, pre * 512 + i)]> T) root.
Proof.
  intros Hok Hp Hi Hinv Hbd E Hn.
  destruct (kalloc_grow s F T root Hok) as (n' & s' & E' & _ & Hnok & HnT & Hok' & Hs & Hag); [set_solver|].
  rewrite E in E'. simplify_eq. destruct Hok as (_ & Hwf & Hd). destruct Hok' as (Hpa & Hwf' & Hd').
  assert (Hpw : p ≠ n') by congruence.
  assert (Hld : ∀ j, 0 ≤ j < 512 → load64 (ms_mem s') (p + 8 * j) = load64 (ms_mem s) (p + 8 * j)).
  { intros j Hj. apply load64_ext. intros x Hx. apply (Hag p); [by rewrite Hp|]. unfold in_page, PGSIZE. lia. }
  assert (Hinv' : pte_valid (load64 (ms_mem s') (p + 8 * i)) = false) by (by rewrite Hld).
  assert (Hfr : frame (F ∪ dom T) (ms_mem s) (installed (ms_mem s') p n' i)).
  { intros x Hx. unfold installed. rewrite store64_out, memset_out.
    - apply Hs, Hx. set_solver.
    - assert (¬ in_page n' x) as Hnx by (apply Hx; set_solver). unfold in_page in Hnx. lia.
    - assert (¬ in_page p x) as Hpx.
      { apply Hx, elem_of_union_r, elem_of_dom. by rewrite Hp. }
      unfold in_page, PGSIZE in Hpx. lia. }
  split_and!.
  - split_and!; [|by eapply installed_wf|].
    + apply pa_frame; [done|]. intros q x Hq Hx. unfold installed.
      assert (page_ok q) as Hqok by (by eapply pa_pages).
      assert (Hqn : n' ≠ q) by set_solver. assert (Hqp : p ≠ q).
      { intros ->. apply (Hd' q); [by rewrite Hp|done]. }
      rewrite store64_out, memset_out; [done| |].
      * destruct (page_disjoint n' q); try done; try by apply page_ok_pos.
        all: unfold in_page in Hx; lia.
      * destruct (page_disjoint p q); try done; try by apply page_ok_pos.
        { by eapply pt_wf_aligned. }
        all: unfold in_page, PGSIZE in *; lia.
    + intros q Hq. destruct (decide (q = n')) as [->|Hqn]; [set_solver|].
      rewrite lookup_insert_ne in Hq by done. by apply Hd'.
  - by apply insert_subseteq.
  - rewrite dom_insert_L. apply set_eq. intros q. destruct (decide (q = n')); set_solver.
  - intros va Hva. transitivity (pt_get (ms_mem s') root va).
    + exact (installed_get _ T root p n' lv pre i Hwf' Hp Hi Hinv' Hnok HnT Hbd va Hva).
    + apply (pt_frame (ms_mem s) (ms_mem s') T root Hwf Hag). exact Hva.
  - intros q k pr j Hq Hj Hv.
    assert (Hq' : load64 (ms_mem s') (q + 8 * j) = load64 (ms_mem s) (q + 8 * j)).
    { apply load64_ext. intros x Hx. apply (Hag q); [by rewrite Hq|]. unfold in_page, PGSIZE. lia. }
    rewrite <- Hq'. eapply installed_inner; [exact Hwf'|exact Hp|done..|exact Hq|done|by rewrite Hq'].
  - done.
Qed.

Lemma walk_loop_alloc lv p va s F T root :
  vm_ok s F T root → 0 ≤ va < MAXVA → T !! p = Some (lv, va_prefix lv va) →
  ∃ r s' F' T', walk_loop lv p va true s = Ret r s' ∧ pt_grow s F T s' F' T' root ∧ on_walks T T' (eq va) ∧
    ((r = 0 ∧ F' = ∅) ∨ (r ≠ 0 ∧ pt_walk (ms_mem s') lv p va = Some r)).
Proof.
  revert p s F T. induction lv as [|lv IH]; intros p s F T Hok Hva Hp.
  { eexists _, s, F, T. split; [done|]. split; [by apply pt_grow_refl|]. split; [apply on_walks_refl|]. right. split; [|done].
    destruct Hok as (_ & (_ & Hpok & _) & _). destruct (page_ok_pos p) as [? _]; [by eapply Hpok|].
    pose proof (PX_range 0 va). lia. }
  cbn [walk_loop]. unfold mload64, gets. unfold mbind at 1, M_bind at 1.
  set (slot := p + 8 * PX (Z.of_nat (S lv)) va).
  pose proof (PX_range (Z.of_nat (S lv)) va ltac:(lia)) as Hx.
  pose proof Hok as (Hpa & Hwf & Hd). fold (pte_valid (load64 (ms_mem s) slot)).
  destruct (pte_valid (load64 (ms_mem s) slot)) eqn:Ev.
  - destruct (IH (PTE2PA (load64 (ms_mem s) slot)) s F T) as (r & s' & F' & T' & E & Hg & Hw & Hr); try done.
    { destruct Hwf as (_ & _ & Hch & _). unfold slot in *. erewrite Hch by done. by rewrite PX_prefix by lia. }
    exists r, s', F', T'. split_and!; [done|done|done|]. destruct Hr as [?|[Hr0 Hr]]; [by left|right].
    split; [done|]. cbn [pt_walk]. fold slot. pose proof Hg as (_ & _ & _ & _ & Hin & _).
    assert (Hk : load64 (ms_mem s') slot = load64 (ms_mem s) slot) by (eapply Hin; [exact Hp|exact Hx|exact Ev]).
    rewrite Hk, Ev. exact Hr.
  - simpl. destruct (decide (F = ∅)) as [->|Hne].
    { rewrite (bind_Ret _ _ _ _ _ (pa_kalloc_empty s Hpa)). exists 0, s, ∅, T.
      split; [done|]. split; [by apply pt_grow_refl|]. split; [apply on_walks_refl|by left]. }
    destruct (kalloc_grow s F T root Hok Hne) as (n & s1 & E1 & Hn & Hnok & _).
    rewrite (bind_Ret _ _ _ _ _ E1). destruct (Z.eqb_spec n 0) as [->|_].
    { apply page_ok_pos in Hnok. lia. }
    assert (Hbd : pt_bounded lv (va_prefix (S lv) va * 512 + PX (Z.of_nat (S lv)) va)).
    { rewrite PX_prefix by lia. destruct Hwf as (_ & _ & _ & _ & _ & Hb).
      apply va_prefix_bounded; [|done]. destruct (Hb _ _ _ Hp) as [Hlv _]. lia. }
    pose proof (install_grow s F T root p lv _ _ s1 n Hok Hp Hx Ev Hbd E1 Hn) as Hgr.
    rewrite PX_prefix in Hgr by lia. pose proof Hgr as (Hok2 & _).
    destruct (IH n _ _ _ Hok2 Hva) as (r & s' & F' & T' & E & Hg & Hw & Hr); [by rewrite lookup_insert_eq|].
    exists r, s', F', T'. split_and!; [exact E|by eapply pt_grow_trans| |].
    { eapply on_walks_trans; [|exact Hw|done..]. intros q k pr Hq. destruct (decide (q = n)) as [->|].
      - rewrite lookup_insert_eq in Hq. simplify_eq. right. by exists va.
      - rewrite lookup_insert_ne in Hq by done. by left. }
    destruct Hr as [?|[Hr0 Hr]]; [by left|right]. split; [done|].
    cbn [pt_walk]. fold slot. pose proof Hg as (_ & _ & _ & _ & Hin & _).
    assert (Hslot : load64 (ms_mem (set_mem (installed (ms_mem s1) p n (PX (Z.of_nat (S lv)) va)) s1)) slot
                    = Z.lor (PA2PTE n) PTE_V) by (simpl; by apply installed_slot).
    destruct (new_pte_facts n Hnok) as (_ & Hv & Hpa2).
    assert (Hk : load64 (ms_mem s') slot = Z.lor (PA2PTE n) PTE_V).
    { rewrite <- Hslot. eapply Hin; [rewrite lookup_insert_ne; [exact Hp|]|exact Hx|fold slot; by rewrite Hslot].
      intros ->. apply (Hd p); [by rewrite Hp|done]. }
    rewrite Hk, Hv, Hpa2. exact Hr.
Qed.

Lemma walk_alloc root va s F T :
  vm_ok s F T root → 0 ≤ va < MAXVA →
  ∃ r s' F' T', walk root va true s = Ret r s' ∧ pt_grow s F T s' F' T' root ∧ on_walks T T' (eq va) ∧
    ((r = 0 ∧ F' = ∅) ∨ (r ≠ 0 ∧ pt_leaf (ms_mem s') root va = Some r)).
Proof.
  intros Hok Hva. unfold walk. destruct (Z.leb_spec MAXVA va); [lia|].
  apply walk_loop_alloc; [done|done|]. rewrite va_prefix_root by done. apply Hok.
Qed.

(** ** walkaddr() *)

(** The user translation of [va]: the page it maps to, when it is mapped for
    the user. *)
Definition user_page (m : mem) (root va : Z) : Z :=
  let v := pt_get m root va in
  if pte_valid v && negb (Z.land v PTE_U =? 0) then PTE2PA v else 0.

Lemma walkaddr_spec s T root va :
  pt_wf (ms_mem s) T root → 0 ≤ va →
  walkaddr root va s = Ret (if MAXVA <=? va then 0 else user_page (ms_mem s) root va) s.
Proof.
  intros Hwf Hva. unfold walkaddr. destruct (Z.leb_spec MAXVA va); [done|].
  rewrite (bind_Ret _ _ _ _ _ (walk_noalloc root va s ltac:(lia))).
  unfold user_page, pt_get. destruct (pt_leaf (ms_mem s) root va) as [a|] eqn:E; simpl; [|done].
  pose proof (pt_leaf_nonzero _ _ _ va _ Hwf ltac:(lia) E). destruct (Z.eqb_spec a 0); [done|].
  unfold mload64, gets, mbind, M_bind, pte_valid.
  destruct (Z.land _ PTE_V =? 0); [done|]. by destruct (Z.land _ PTE_U =? 0).
Qed.

End walk.

(** ** The pages of a table *)

Section pages.
Context {I : image} {PA : PageAllocator}.

Lemma pt_root_only m T root p pre : pt_wf m T root → T !! p = Some (2%nat, pre) → p = root.
Proof.
  intros (_ & _ & _ & _ & Hlk & Hb) Hp. destruct (decide (p = root)) as [|Hne]; [done|].
  destruct (Hlk _ _ _ Hp Hne) as (q & Hq & _). destruct (Hb _ _ _ Hq) as [? _]. lia.
Qed.

(** A page is determined by its level and prefix. *)
Lemma pt_inj m T root p q x : pt_wf m T root → T !! p = Some x → T !! q = Some x → p = q.
Proof.
  intros Hwf. destruct x as [lv pre]. remember (2 - lv)%nat as d eqn:Hd. revert lv pre p q Hd.
  induction d as [|d IH]; intros lv pre p q Hd Hp Hq; pose proof Hwf as (Hr & _ & _ & _ & Hlk & Hb); destruct (Hb _ _ _ Hp) as [Hlv _].
  - assert (lv = 2%nat) as -> by lia. rewrite (pt_root_only _ _ _ _ _ Hwf Hp). symmetry. exact (pt_root_only _ _ _ _ _ Hwf Hq).
  - assert (Hnr : ∀ a, T !! a = Some (lv, pre) → a ≠ root) by (intros a Ha ->; rewrite Hr in Ha; simplify_eq; lia).
    destruct (Hlk _ _ _ Hp (Hnr _ Hp)) as (p' & Hp' & _ & <-), (Hlk _ _ _ Hq (Hnr _ Hq)) as (q' & Hq' & _ & <-).
    by rewrite (IH (S lv) (pre / 512) p' q' ltac:(lia) Hp' Hq').
Qed.

Lemma vm_size s F T root : vm_ok s F T root → size (F ∪ dom T) = (size F + size T)%nat.
Proof.
  intros (_ & _ & Hd). rewrite size_union, size_dom; [done|]. intros p HF HT%elem_of_dom. by apply (Hd p).
Qed.

(** A walk adds at most two pages. *)
Lemma walk_pages m T T' root a (V : Z → Prop) : pt_wf m T' root → T ⊆ T' → T !! root = Some (2%nat, 0) → on_walks T T' V → (∀ x, V x → x = a) →
  (size T' ≤ size T + 2)%nat.
Proof.
  intros Hwf Hsub Hr Hw HV. assert (HT' : T' = T ∪ T' ∖ T) by (symmetry; by apply map_difference_union).
  rewrite HT', map_size_disj_union by (by apply map_disjoint_difference_r1). apply Nat.add_le_mono_l.
  change 2%nat with (length [(0%nat, va_prefix 0 a); (1%nat, va_prefix 1 a)]).
  rewrite <- length_map_to_list, <- (length_fmap snd). apply submseteq_length, NoDup_submseteq.
  - apply NoDup_fmap_2_strong; [|apply NoDup_map_to_list]. intros [p x] [q y] Hp%elem_of_map_to_list Hq%elem_of_map_to_list Hxy.
    cbn in Hxy. subst y. f_equal. apply lookup_difference_Some in Hp as [Hp _], Hq as [Hq _]. by eapply pt_inj.
  - intros x ([p y] & -> & Hp%elem_of_map_to_list)%list_elem_of_fmap. apply lookup_difference_Some in Hp as [Hp HpT]. destruct y as [lv pre]. cbn.
    destruct (Hw _ _ _ Hp) as [?|(va & Hva%HV & ->)]; [congruence|]. subst va. pose proof Hwf as (_ & _ & _ & _ & _ & Hb). destruct (Hb _ _ _ Hp) as [Hlv _].
    destruct lv as [|[|[|]]]; [by left|by right; left| |lia]. rewrite (pt_root_only _ _ _ _ _ Hwf Hp) in HpT. congruence.
Qed.
End pages.
