(* ===== verification/VmMap.v ===== *)
(** * mappages() and uvmunmap(): correctness

    [pt_ext] describes what mapping functions may do to the allocator and
    the table; [urange m root base es] says that the leaf entries of the
    consecutive virtual pages from [base] are [es]. *)

From stdpp Require Import base gmap sets strings numbers list.
From coqutil Require Import Byte.
From S2P Require Import Prelude Mem Str Riscv Spinlock Kalloc Vm VmPt VmWalk.

(** The entry mappages() stores. *)
Definition pte_entry (pa perm : Z) : Z := Z.lor (Z.lor (PA2PTE pa) perm) PTE_V.

Definition urange (m : mem) (root base : Z) (es : list Z) : Prop :=
  ∀ j e, es !! j = Some e → pt_get m root (base + Z.of_nat j * PGSIZE) = e.

Section map.
Context {I : image} {IO : image_ok I} {PA : PageAllocator}.

Definition pt_ext s F (T : gmap Z (nat * Z)) s' F' (T' : gmap Z (nat * Z)) root : Prop :=
  vm_ok s' F' T' root ∧ T ⊆ T' ∧ F' ∪ dom T' = F ∪ dom T ∧
  frame (F ∪ dom T) (ms_mem s) (ms_mem s').

(** [m'] maps the [j] pages from [a] to the pages from [pa], and is [m] elsewhere. *)
Definition mapped_to (m m' : mem) (root a : Z) (j : nat) (pa perm : Z) : Prop :=
  ∀ va, 0 ≤ va < MAXVA → pt_get m' root va =
    if (a <=? va) && (va <? a + Z.of_nat j * PGSIZE)
    then pte_entry (pa + (PGROUNDDOWN va - a)) perm else pt_get m root va.

(** An entry uvmunmap() accepts. *)
Definition leaf_entry (e : Z) : Prop := pte_valid e = true ∧ PTE_FLAGS e ≠ PTE_V.

(** It maps a page of the allocator's, not free and not of the table. *)
Definition owned (F : gset Z) (T : gmap Z (nat * Z)) (e : Z) : Prop :=
  page_ok (PTE2PA e) ∧ (PTE2PA e ∉ F) ∧ T !! (PTE2PA e) = None.

(** The pages uvmunmap() gives back to the allocator. *)
Definition freed (do_free : bool) (es : list Z) : gset Z :=
  if do_free then list_to_set (PTE2PA <$> es) else ∅.

Definition unmappable (do_free : bool) F T (es : list Z) : Prop :=
  Forall leaf_entry es ∧
  (do_free = true → Forall (owned F T) es ∧ NoDup (PTE2PA <$> es)).

(** [m'] has no entry for the [n] pages from [a], and is [m] elsewhere. *)
Definition unmapped (m m' : mem) (root a : Z) (n : nat) : Prop :=
  ∀ va, 0 ≤ va < MAXVA → pt_get m' root va =
    if (a <=? va) && (va <? a + Z.of_nat n * PGSIZE) then 0 else pt_get m root va.

(** ** Entries *)

Lemma lor_small f g : 0 ≤ f < 1024 → 0 ≤ g < 1024 → 0 ≤ Z.lor f g < 1024.
Proof.
  intros Hf Hg. split; [apply Z.lor_nonneg; lia|].
  destruct (decide (Z.lor f g = 0)); [lia|].
  apply (Z.log2_lt_cancel _ 1024). rewrite Z.log2_lor by lia.
  apply Z.max_lub_lt.
  - destruct (decide (f = 0)) as [->|]; [simpl; lia|]. apply (Z.log2_lt_pow2 f 10); lia.
  - destruct (decide (g = 0)) as [->|]; [simpl; lia|]. apply (Z.log2_lt_pow2 g 10); lia.
Qed.

Lemma pte_entry_facts pa perm :
  0 ≤ pa < 2 ^ 54 → pa mod PGSIZE = 0 → 0 ≤ perm < 1024 →
  u64 (pte_entry pa perm) = pte_entry pa perm ∧ pte_valid (pte_entry pa perm) = true ∧
  PTE2PA (pte_entry pa perm) = pa ∧ PTE_FLAGS (pte_entry pa perm) = Z.lor perm PTE_V.
Proof.
  intros Hpa Hal Hperm. unfold pte_entry. rewrite <- Z.lor_assoc.
  assert (0 ≤ Z.lor perm PTE_V < 1024) as Hf by (apply lor_small; [done|change PTE_V with 1; lia]).
  split_and!.
  - rewrite PA2PTE_div by lia. change 1024 with (2 ^ 10). rewrite lor_mul_small by lia.
    apply u64_id. pose proof (Z.div_mod pa 4096). unfold PGSIZE in Hal. lia.
  - unfold pte_valid, PTE_V. rewrite land_bit_testbit by lia.
    rewrite negb_involutive, !Z.lor_spec. simpl (Z.testbit (Z.shiftl 1 0) 0).
    by rewrite !orb_true_r.
  - by apply PTE2PA_entry.
  - by apply PTE_FLAGS_entry.
Qed.

(** ** Basic steps on [vm_ok] *)

Lemma pt_grow_ext s F T s' F' T' root : pt_grow s F T s' F' T' root → pt_ext s F T s' F' T' root.
Proof. intros (? & ? & ? & _ & _ & ?). by split_and!. Qed.

Lemma pt_ext_trans s1 F1 T1 s2 F2 T2 s3 F3 T3 root :
  pt_ext s1 F1 T1 s2 F2 T2 root → pt_ext s2 F2 T2 s3 F3 T3 root → pt_ext s1 F1 T1 s3 F3 T3 root.
Proof.
  intros (? & ? & HF & ?) (? & ? & HF' & ?). split_and!; [done|by etrans|congruence|].
  eapply frame_trans; [done|]. by rewrite <- HF.
Qed.

Lemma store_leaf_vm s F T root va a v :
  vm_ok s F T root → 0 ≤ va < MAXVA → pt_leaf (ms_mem s) root va = Some a →
  let s' := set_mem (store64 (ms_mem s) a v) s in
  vm_ok s' F T root ∧ frame (dom T) (ms_mem s) (ms_mem s') ∧
  ∀ va', 0 ≤ va' < MAXVA → pt_get (ms_mem s') root va' =
    if decide (va' / PGSIZE = va / PGSIZE) then u64 v else pt_get (ms_mem s) root va'.
Proof.
  intros (Hpa & Hwf & Hd) Hva Hl.
  destruct (pt_store_leaf _ _ _ _ _ v Hwf Hva Hl) as (Hwf' & _ & Hget).
  destruct (pt_leaf_page _ _ _ _ _ Hwf Hva Hl) as (q & Hq & ->).
  pose proof (PX_range 0 va ltac:(lia)) as Hx.
  assert (Hso : same_outside q (ms_mem s) (store64 (ms_mem s) (q + 8 * PX 0 va) v)).
  { apply store64_same_outside; unfold PGSIZE; lia. }
  split_and!; [split_and!; [|done|done]| |done].
  - apply pa_frame; [done|]. intros p x Hp Hx'. apply Hso. intros Hq'.
    assert (p = q) as ->.
    { eapply in_page_unique; [|by eapply pt_wf_aligned|done|done]. by apply page_ok_pos; eapply pa_pages. }
    apply (Hd q); [by rewrite Hq|done].
  - eapply same_outside_frame; [|done]. apply elem_of_dom. by rewrite Hq.
Qed.

Lemma kfree_vm s F T root p :
  vm_ok s F T root → page_ok p → p ∉ F → T !! p = None → ∃ s',
  pa_kfree p s = Ret tt s' ∧ vm_ok s' ({[p]} ∪ F) T root ∧
  same_get (ms_mem s) (ms_mem s') root ∧ same_outside p (ms_mem s) (ms_mem s') ∧
  ∀ va, 0 ≤ va < MAXVA → pt_leaf (ms_mem s') root va = pt_leaf (ms_mem s) root va.
Proof.
  intros (Hpa & Hwf & Hd) Hp HpF HpT.
  destruct (pa_kfree_ok s F p Hpa Hp HpF) as (s' & E & Hpa' & Hs).
  destruct (pt_frame (ms_mem s) (ms_mem s') T root Hwf) as [Hwf' Hg].
  { intros q x [[lv pre] Hq] Hx. apply Hs. intros Hx'. assert (p = q) as ->; [|congruence].
    eapply in_page_unique; [by apply page_ok_pos|by eapply pt_wf_aligned|done|done]. }
  exists s'. split_and!; [done| |intros va Hva; by apply Hg|done|intros va Hva; by apply Hg].
  split_and!; [done|done|]. intros q Hq. apply not_elem_of_union. split; [|by apply Hd].
  rewrite elem_of_singleton. intros ->. rewrite HpT in Hq. by destruct Hq.
Qed.

(** ** mappages() *)

(** One round of the loop: the entry is written. *)
Lemma mappages_round s F T root a pa perm :
  vm_ok s F T root → 0 ≤ a < MAXVA → 0 ≤ pa < 2 ^ 54 → pa mod PGSIZE = 0 → 0 ≤ perm < 1024 →
  pte_valid (pt_get (ms_mem s) root a) = false →
  ∃ r s1 F' T', walk root a true s = Ret r s1 ∧ on_walks T T' (eq a) ∧
  ((r = 0 ∧ F' = ∅ ∧ pt_grow s F T s1 F' T' root) ∨
   (r ≠ 0 ∧ pte_valid (load64 (ms_mem s1) r) = false ∧
    let s2 := set_mem (store64 (ms_mem s1) r (pte_entry pa perm)) s1 in
    pt_ext s F T s2 F' T' root ∧
    ∀ va, 0 ≤ va < MAXVA → pt_get (ms_mem s2) root va =
      if decide (va / PGSIZE = a / PGSIZE) then pte_entry pa perm else pt_get (ms_mem s) root va)).
Proof.
  intros Hok Ha Hpa Hal Hperm Hinv.
  destruct (walk_alloc root a s F T Hok Ha) as (r & s1 & F' & T' & E & Hg & Hw & Hr).
  exists r, s1, F', T'. split; [done|]. split; [done|]. pose proof Hg as (Hok1 & _ & _ & Hsame & _).
  destruct Hr as [[-> ->]|[Hr0 Hr]]; [by left|right]. split; [done|].
  assert (Hget : pt_get (ms_mem s1) root a = load64 (ms_mem s1) r) by (unfold pt_get; by rewrite Hr).
  rewrite <- Hget, (Hsame a Ha). split; [done|].
  destruct (store_leaf_vm s1 F' T' root a r (pte_entry pa perm) Hok1 Ha Hr) as (Hok2 & Hf & Hg2).
  destruct (pte_entry_facts pa perm) as (Hu & _); try done. split.
  - eapply pt_ext_trans; [by apply pt_grow_ext|]. split_and!; try done.
    eapply frame_mono; [|done]. set_solver.
  - intros va Hva. rewrite Hg2, Hu by done. case_decide; [done|]. by apply Hsame.
Qed.

Lemma div_page_eq a va : a mod PGSIZE = 0 → va / PGSIZE = a / PGSIZE ↔ a ≤ va < a + PGSIZE.
Proof.
  intros Ha. unfold PGSIZE in *. pose proof (Z.div_mod a 4096). pose proof (Z.div_mod va 4096).
  pose proof (Z.mod_pos_bound va 4096). lia.
Qed.

Lemma PGROUNDDOWN_in a va : a mod PGSIZE = 0 → a ≤ va < a + PGSIZE → PGROUNDDOWN va = a.
Proof.
  intros Ha Hva. apply div_page_eq in Hva; [|done]. rewrite PGROUNDDOWN_div.
  unfold PGSIZE in *. pose proof (Z.div_mod a 4096). lia.
Qed.

Lemma aligned_step a : a mod PGSIZE = 0 → (a + PGSIZE) mod PGSIZE = 0.
Proof. intros. rewrite <- (Z.mul_1_l PGSIZE) at 1. by rewrite Z.mod_add. Qed.

Lemma mappages_loop_spec k fuel s F T root a pa perm :
  (k < fuel)%nat → vm_ok s F T root → 0 ≤ a → a + Z.of_nat k * PGSIZE < MAXVA → a mod PGSIZE = 0 →
  0 ≤ pa → pa + Z.of_nat k * PGSIZE < 2 ^ 54 → pa mod PGSIZE = 0 → 0 ≤ perm < 1024 →
  (∀ j, (j ≤ k)%nat → pte_valid (pt_get (ms_mem s) root (a + Z.of_nat j * PGSIZE)) = false) →
  ∃ r s' F' T' j,
    mappages_loop fuel root a (a + Z.of_nat k * PGSIZE) pa perm s = Ret r s' ∧ on_walks T T' (λ x, a ≤ x ≤ a + Z.of_nat k * PGSIZE) ∧
    pt_ext s F T s' F' T' root ∧ mapped_to (ms_mem s) (ms_mem s') root a j pa perm ∧
    ((r = 0 ∧ j = S k) ∨ (r = -1 ∧ (j ≤ k)%nat ∧ F' = ∅)).
Proof.
  revert k s F T a pa. induction fuel as [|fuel IH];
    intros k s F T a pa Hf Hok Ha Hlast Hal Hpa Hpal Hpaa Hperm Hinv; [lia|].
  cbn [mappages_loop].
  destruct (mappages_round s F T root a pa perm) as (r & s1 & F1 & T1 & E & Hw & Hr);
    try done; try (unfold PGSIZE in *; lia).
  { rewrite <- (Hinv 0%nat) by lia. do 2 f_equal. lia. }
  rewrite (bind_Ret _ _ _ _ _ E). destruct Hr as [(-> & -> & Hg)|(Hr0 & Hv & Hext & Hget)].
  { exists (-1), s1, ∅, T1, 0%nat. split; [done|].
    split; [eapply on_walks_trans; [exact Hw|apply (on_walks_refl _ (λ _, False))|unfold PGSIZE; lia|done]|]. pose proof Hg as (_ & _ & _ & Hsame & _).
    split_and!; [by apply pt_grow_ext| |right; split_and!; [done|lia|done]].
    intros va Hva. rewrite Hsame by done.
    destruct (Z.leb_spec a va), (Z.ltb_spec va (a + Z.of_nat 0 * PGSIZE)); simpl; lia || done. }
  destruct (Z.eqb_spec r 0); [done|]. unfold mload64, gets, mstore64, modify.
  unfold mbind at 1, M_bind at 1. fold (pte_valid (load64 (ms_mem s1) r)). rewrite Hv.
  unfold mbind, M_bind. fold (pte_entry pa perm). simpl in Hext, Hget.
  set (s2 := set_mem _ s1) in *.
  destruct k as [|k].
  { destruct (Z.eqb_spec a (a + Z.of_nat 0 * PGSIZE)); [|lia].
    exists 0, s2, F1, T1, 1%nat. split; [done|].
    split; [eapply on_walks_trans; [exact Hw|apply (on_walks_refl _ (λ _, False))|lia|done]|]. split_and!; [done| |by left].
    intros va Hva. rewrite Hget by done. case_decide as Hd; rewrite div_page_eq in Hd by done.
    - rewrite (PGROUNDDOWN_in a va) by done.
      destruct (Z.leb_spec a va), (Z.ltb_spec va (a + Z.of_nat 1 * PGSIZE)); simpl; try lia.
      f_equal. lia.
    - destruct (Z.leb_spec a va), (Z.ltb_spec va (a + Z.of_nat 1 * PGSIZE)); simpl; lia || done. }
  destruct (Z.eqb_spec a (a + Z.of_nat (S k) * PGSIZE)); [unfold PGSIZE in *; lia|].
  rewrite !u64_id by (pgunfold; lia).
  replace (a + Z.of_nat (S k) * PGSIZE) with ((a + PGSIZE) + Z.of_nat k * PGSIZE) by lia.
  destruct (IH k s2 F1 T1 (a + PGSIZE) (pa + PGSIZE)) as (r' & s3 & F3 & T3 & j & E3 & Hw3 & Hext3 & Hmap3 & Hr3);
    try lia; try done; try (by apply aligned_step); try (unfold PGSIZE in *; lia).
  { apply Hext. }
  { intros j Hj. rewrite Hget by (pgunfold; lia). case_decide as Hd.
    - rewrite div_page_eq in Hd by done. unfold PGSIZE in *. lia.
    - rewrite <- (Hinv (S j)) by lia. do 2 f_equal. lia. }
  exists r', s3, F3, T3, (S j). split; [done|].
  split; [eapply on_walks_trans; [exact Hw|exact Hw3|unfold PGSIZE; lia..]|]. split_and!; [by eapply pt_ext_trans| |destruct Hr3; [left|right]; intuition lia].
  intros va Hva. rewrite Hmap3, Hget by done.
  assert (0 ≤ Z.of_nat j * PGSIZE) by (unfold PGSIZE; lia).
  assert (0 < PGSIZE) by (unfold PGSIZE; lia).
  replace (a + Z.of_nat (S j) * PGSIZE) with (a + PGSIZE + Z.of_nat j * PGSIZE) by lia.
  destruct (decide (va / PGSIZE = a / PGSIZE)) as [Hd|Hd]; rewrite div_page_eq in Hd by done.
  - rewrite (PGROUNDDOWN_in a va) by done.
    destruct (Z.leb_spec (a + PGSIZE) va), (Z.leb_spec a va),
      (Z.ltb_spec va (a + PGSIZE + Z.of_nat j * PGSIZE)); simpl; try lia. f_equal. lia.
  - destruct (Z.leb_spec (a + PGSIZE) va), (Z.leb_spec a va),
      (Z.ltb_spec va (a + PGSIZE + Z.of_nat j * PGSIZE)); simpl; try lia; try done.
    f_equal. lia.
Qed.
Definition map_last (va size : Z) : Z := PGROUNDDOWN (va + size - 1).
Definition map_count (va size : Z) : nat := Z.to_nat ((map_last va size - PGROUNDDOWN va) / PGSIZE).

Lemma map_count_spec va size : 0 < size → 
  map_last va size = PGROUNDDOWN va + Z.of_nat (map_count va size) * PGSIZE.
Proof.
  intros Hs. unfold map_count, map_last. rewrite !PGROUNDDOWN_div. unfold PGSIZE.
  rewrite <- Z.mul_sub_distr_r, Z.div_mul by done.
  assert (va / 4096 ≤ (va + size - 1) / 4096) by (apply Z.div_le_mono; lia). lia.
Qed.

Lemma mappages_spec s F T root va size pa perm :
  vm_ok s F T root → 0 ≤ va → 0 < size → va + size ≤ MAXVA →
  0 ≤ pa → pa + size + PGSIZE < 2 ^ 54 → pa mod PGSIZE = 0 → 0 ≤ perm < 1024 →
  (∀ j, (j ≤ map_count va size)%nat →
     pte_valid (pt_get (ms_mem s) root (PGROUNDDOWN va + Z.of_nat j * PGSIZE)) = false) →
  ∃ r s' F' T' j, mappages root va size pa perm s = Ret r s' ∧
    on_walks T T' (λ x, PGROUNDDOWN va ≤ x ≤ map_last va size) ∧ pt_ext s F T s' F' T' root ∧
    mapped_to (ms_mem s) (ms_mem s') root (PGROUNDDOWN va) j pa perm ∧
    ((r = 0 ∧ j = S (map_count va size)) ∨ (r = -1 ∧ (j ≤ map_count va size)%nat ∧ F' = ∅)).
Proof.
  intros Hok Hva Hs Hmax Hpa Hpal Hal Hperm Hinv. unfold mappages.
  destruct (Z.eqb_spec size 0); [lia|]. rewrite u64_id by (pgunfold; lia).
  fold (map_last va size). pose proof (map_count_spec va size Hs) as Hc.
  pose proof (PGROUNDDOWN_bounds va). pose proof (PGROUNDDOWN_bounds (va + size - 1)).
  assert (Hle : 0 ≤ PGROUNDDOWN va) by (rewrite PGROUNDDOWN_div; pose proof (Z.div_pos va 4096); lia).
  fold (map_last va size) in *. unfold map_last in *.
  rewrite Hc. apply (mappages_loop_spec (map_count va size)); try done.
  - destruct (Z.ltb_spec (PGROUNDDOWN va + Z.of_nat (map_count va size) * PGSIZE) (PGROUNDDOWN va));
      [unfold PGSIZE in *; lia|].
    replace (_ + _ - _) with (Z.of_nat (map_count va size) * PGSIZE) by lia.
    rewrite Z.div_mul by done. lia.
  - lia.
  - apply PGROUNDDOWN_aligned.
  - lia.
Qed.

(** ** uvmunmap() *)

Lemma pt_get_leaf m T root va e :
  pt_wf m T root → 0 ≤ va < MAXVA → pt_get m root va = e → pte_valid e = true →
  ∃ a, pt_leaf m root va = Some a ∧ a ≠ 0 ∧ load64 m a = e.
Proof.
  intros Hwf Hva Hg Hv. unfold pt_get in Hg. destruct (pt_leaf m root va) as [a|] eqn:E; [|by subst e].
  exists a. split_and!; [done| |done]. by eapply pt_leaf_nonzero.
Qed.

Lemma freed_one e : freed true [e] = {[PTE2PA e]}.
Proof. unfold freed. simpl. set_solver. Qed.

Lemma freed_cons do_free e es : freed do_free (e :: es) = freed do_free [e] ∪ freed do_free es.
Proof. unfold freed. destruct do_free; simpl; set_solver. Qed.

Lemma frame_trans_union X Y Z m1 m2 m3 :
  frame X m1 m2 → frame Y m2 m3 → X ∪ Y ⊆ Z → frame Z m1 m3.
Proof. intros H1 H2 Hs. eapply frame_trans; (eapply frame_mono; [|done]); set_solver. Qed.

Lemma uvmunmap_round (do_free : bool) s F T root a e :
  vm_ok s F T root → 0 ≤ a < MAXVA → pt_get (ms_mem s) root a = e → leaf_entry e →
  (do_free = true → owned F T e) →
  ∃ r s1, walk root a false s = Ret r s ∧ r ≠ 0 ∧ load64 (ms_mem s) r = e ∧
    (if do_free then pa_kfree (PTE2PA e) else mret tt) s = Ret tt s1 ∧
    let s2 := set_mem (store64 (ms_mem s1) r 0) s1 in
    vm_ok s2 (freed do_free [e] ∪ F) T root ∧
    frame (freed do_free [e] ∪ dom T) (ms_mem s) (ms_mem s2) ∧
    ∀ va, 0 ≤ va < MAXVA → pt_get (ms_mem s2) root va =
      if decide (va / PGSIZE = a / PGSIZE) then 0 else pt_get (ms_mem s) root va.
Proof.
  intros Hok Ha Hg [Hv _] Hown.
  destruct (pt_get_leaf (ms_mem s) T root a e) as (r & Hl & Hr0 & Hld); try done; [apply Hok|].
  assert (∃ s1, (if do_free then pa_kfree (PTE2PA e) else mret tt) s = Ret tt s1 ∧
    vm_ok s1 (freed do_free [e] ∪ F) T root ∧ same_get (ms_mem s) (ms_mem s1) root ∧
    frame (freed do_free [e]) (ms_mem s) (ms_mem s1) ∧
    pt_leaf (ms_mem s1) root a = Some r) as (s1 & E & Hok1 & Hsg & Hfr & Hl1).
  { destruct do_free; [|exists s; split_and!; [done| |by intros ?|by intros ?|done]].
    - destruct (Hown eq_refl) as (Hp & HF & HT).
      destruct (kfree_vm s F T root (PTE2PA e) Hok Hp HF HT) as (s1 & E & Hok1 & Hsg & Hso & Hlf).
      exists s1. split_and!; [done| |done| |by rewrite Hlf].
      + by rewrite freed_one.
      + eapply same_outside_frame; [|done]. rewrite freed_one. by apply elem_of_singleton.
    - unfold freed. by rewrite union_empty_l_L. }
  exists r, s1. split_and!; try done.
  { rewrite walk_noalloc by done. by rewrite Hl. }
  destruct (store_leaf_vm s1 _ T root a r 0 Hok1 Ha Hl1) as (Hok2 & Hf2 & Hg2).
  split_and!; [exact Hok2| |].
  - eapply frame_trans_union; [exact Hfr|exact Hf2|done].
  - intros va Hva. rewrite Hg2 by done. case_decide; [done|]. by apply Hsg.
Qed.

Lemma unmappable_step do_free F T e es :
  unmappable do_free F T (e :: es) → leaf_entry e ∧ (do_free = true → owned F T e) ∧
  unmappable do_free (freed do_free [e] ∪ F) T es.
Proof.
  intros [Hl Hd]. inversion_clear Hl as [|? ? He Hes]. split_and!; [done| |split; [done|]].
  - intros Ht. destruct (Hd Ht) as [Ho _]. by inversion_clear Ho.
  - intros ->. destruct (Hd eq_refl) as [Ho Hn]. inversion_clear Ho as [|? ? _ Ho'].
    rewrite fmap_cons in Hn. inversion_clear Hn as [|? ? Hin Hn'].
    split; [|done]. rewrite Forall_forall in Ho' |- *. intros x Hx.
    destruct (Ho' x Hx) as (? & ? & ?). split_and!; try done.
    assert (PTE2PA x ≠ PTE2PA e).
    { intros Hxe. apply Hin. rewrite <- Hxe. by apply list_elem_of_fmap_2. }
    unfold freed. simpl. set_solver.
Qed.

Lemma uvmunmap_loop_spec do_free es fuel s F T root a :
  (length es < fuel)%nat → vm_ok s F T root → 0 ≤ a → a mod PGSIZE = 0 →
  a + Z.of_nat (length es) * PGSIZE ≤ MAXVA →
  urange (ms_mem s) root a es → unmappable do_free F T es →
  ∃ s', uvmunmap_loop fuel root a (a + Z.of_nat (length es) * PGSIZE) do_free s = Ret tt s' ∧
    vm_ok s' (freed do_free es ∪ F) T root ∧
    frame (freed do_free es ∪ dom T) (ms_mem s) (ms_mem s') ∧
    unmapped (ms_mem s) (ms_mem s') root a (length es).
Proof.
  revert fuel s F a. induction es as [|e es IH]; intros fuel s F a Hf Hok Ha Hal Hmax Hur Hun;
    (destruct fuel as [|fuel]; [simpl in *; lia|]); cbn [uvmunmap_loop].
  { simpl. rewrite Z.mul_0_l, Z.add_0_r, Z.ltb_irrefl. exists s. split_and!; [done| |by intros ?|].
    - unfold freed. destruct do_free; simpl; by rewrite union_empty_l_L.
    - intros va Hva. destruct (Z.leb_spec a va), (Z.ltb_spec va (a + Z.of_nat 0 * PGSIZE)); simpl; lia || done. }
  cbn [length] in *. apply unmappable_step in Hun as (Hle & How & Hun).
  assert (0 ≤ Z.of_nat (length es) * PGSIZE) by (unfold PGSIZE; lia).
  assert (Hpg : PGSIZE = 4096) by done.
  destruct (Z.ltb_spec a (a + Z.of_nat (S (length es)) * PGSIZE)); [|lia].
  destruct (uvmunmap_round do_free s F T root a e) as (r & s1 & Ew & Hr0 & Hld & Ek & Hok2 & Hf2 & Hg2);
    try done; try lia.
  { rewrite <- (Hur 0%nat e) by done. f_equal. lia. }
  rewrite (bind_Ret _ _ _ _ _ Ew). destruct (Z.eqb_spec r 0); [done|].
  unfold mload64, gets. unfold mbind at 1, M_bind at 1. rewrite Hld.
  destruct Hle as [Hv Hfl]. unfold pte_valid in Hv. apply negb_true_iff in Hv. rewrite Hv.
  destruct (Z.eqb_spec (PTE_FLAGS e) PTE_V); [done|]. rewrite (bind_Ret _ _ _ _ _ Ek).
  unfold mstore64, modify. unfold mbind, M_bind. set (s2 := set_mem _ s1) in *.
  rewrite u64_id by (pgunfold; lia).
  replace (a + Z.of_nat (S (length es)) * PGSIZE) with ((a + PGSIZE) + Z.of_nat (length es) * PGSIZE) by lia.
  destruct (IH fuel s2 (freed do_free [e] ∪ F) (a + PGSIZE)) as (s' & E & Hok' & Hf' & Hu');
    try done; try lia.
  { by apply aligned_step. }
  { intros j e' Hj. rewrite Hg2.
    - case_decide as Hd; [rewrite div_page_eq in Hd by done; lia|].
      rewrite <- (Hur (S j) e') by done. f_equal. lia.
    - apply lookup_lt_Some in Hj. unfold PGSIZE in *. lia. }
  exists s'. split_and!; [exact E| | |].
  - rewrite freed_cons, (union_comm_L (freed do_free [e])), <- union_assoc_L. exact Hok'.
  - rewrite freed_cons. eapply frame_trans_union; [exact Hf2|exact Hf'|]. clear. set_solver.
  - intros va Hva. rewrite Hu', Hg2 by done.
    replace (a + Z.of_nat (S (length es)) * PGSIZE) with (a + PGSIZE + Z.of_nat (length es) * PGSIZE) by lia.
    destruct (decide (va / PGSIZE = a / PGSIZE)) as [Hd|Hd]; rewrite div_page_eq in Hd by done;
      destruct (Z.leb_spec (a + PGSIZE) va), (Z.leb_spec a va),
        (Z.ltb_spec va (a + PGSIZE + Z.of_nat (length es) * PGSIZE)); simpl; lia || done.
Qed.

Lemma uvmunmap_spec do_free es s F T root va :
  vm_ok s F T root → 0 ≤ va → va mod PGSIZE = 0 →
  va + Z.of_nat (length es) * PGSIZE ≤ MAXVA →
  urange (ms_mem s) root va es → unmappable do_free F T es →
  ∃ s', uvmunmap root va (Z.of_nat (length es)) do_free s = Ret tt s' ∧
    vm_ok s' (freed do_free es ∪ F) T root ∧
    frame (freed do_free es ∪ dom T) (ms_mem s) (ms_mem s') ∧
    unmapped (ms_mem s) (ms_mem s') root va (length es).
Proof.
  intros Hok Hva Hal Hmax Hur Hun. unfold uvmunmap. rewrite Hal. simpl negb. cbn [negb].
  rewrite Z.eqb_refl. cbn [negb]. rewrite u64_id by (pgunfold; lia).
  apply uvmunmap_loop_spec; try done. lia.
Qed.

End map.
