(* ===== verification/VmUser.v ===== *)
(** * uvmalloc(), uvmdealloc() and uvmcopy(): correctness

    uvmalloc() and uvmcopy() both extend a page table by fresh pages, one at
    a time, and undo everything when memory runs out.  [alloced] is the loop
    invariant they share: pages [ps] were allocated since the state [s0],
    the [i]-th one is mapped at [a0 + i * PGSIZE] with permissions [perm i]
    and holds the bytes [C i]. *)

From stdpp Require Import base gmap sets strings numbers list.
From coqutil Require Import Byte.
From S2P Require Import Prelude Mem Str Riscv Spinlock Kalloc Vm VmPt VmWalk VmMap.

Section user.
Context {I : image} {IO : image_ok I} {PA : PageAllocator}.

(** ** Contents of a page outside the allocator and the table *)

Lemma vm_ok_outside s F T root n m' :
  vm_ok s F T root → page_ok n → n ∉ F → T !! n = None →
  same_outside n (ms_mem s) m' →
  vm_ok (set_mem m' s) F T root ∧ same_get (ms_mem s) m' root.
Proof.
  intros (Hpa & Hwf & Hd) Hn HnF HnT Hs. destruct (page_ok_pos n Hn) as [_ Hnal].
  destruct (pt_frame (ms_mem s) m' T root Hwf) as [Hwf' Hg].
  { intros q x [[lv pre] Hq] Hx. apply Hs. intros Hx'. assert (n = q) as ->; [|congruence].
    eapply in_page_unique; [done|by eapply pt_wf_aligned|done|done]. }
  split; [|intros va Hva; by apply Hg]. split_and!; [|done|done].
  apply pa_frame; [done|]. intros p x Hp Hx. apply Hs. intros Hx'. assert (n = p) as ->; [|done].
  eapply in_page_unique; [done|by apply page_ok_pos; eapply pa_pages|done|done].
Qed.

Lemma map_count_page a : a mod PGSIZE = 0 → map_count a PGSIZE = 0%nat.
Proof.
  intros Ha. unfold map_count, map_last. rewrite (PGROUNDDOWN_in a) by (unfold PGSIZE; lia || done).
  rewrite (PGROUNDDOWN_id a) by done. by rewrite Z.sub_diag.
Qed.

Lemma aligned_add a i : a mod PGSIZE = 0 → (a + Z.of_nat i * PGSIZE) mod PGSIZE = 0.
Proof. intros. by rewrite Z.mod_add. Qed.

Lemma page_ok_small n : page_ok n → 0 ≤ n ∧ n + PGSIZE + PGSIZE < 2 ^ 54.
Proof. intros [? _]%page_ok_pos. unfold PGSIZE. lia. Qed.

(** ** The loop invariant *)

Section alloc.
Context (s0 : mstate) (F0 : gset Z) (T0 : gmap Z (nat * Z)) (root a0 : Z) (N : nat).
Context (perm : nat → Z) (C : nat → Z → byte).

Definition alloced (s : mstate) (F : gset Z) (T : gmap Z (nat * Z)) (ps : list Z) : Prop :=
  vm_ok s F T root ∧ T0 ⊆ T ∧ F ∪ dom T ∪ list_to_set ps = F0 ∪ dom T0 ∧
  (NoDup ps ∧ Forall (λ p, page_ok p ∧ (p ∉ F) ∧ T !! p = None) ps) ∧
  frame (F0 ∪ dom T0) (ms_mem s0) (ms_mem s) ∧
  (∀ i p va, ps !! i = Some p → a0 + Z.of_nat i * PGSIZE ≤ va < a0 + Z.of_nat (S i) * PGSIZE →
     pt_get (ms_mem s) root va = pte_entry p (perm i)) ∧
  (∀ va, 0 ≤ va < MAXVA → va < a0 ∨ a0 + Z.of_nat (length ps) * PGSIZE ≤ va →
     pt_get (ms_mem s) root va = pt_get (ms_mem s0) root va) ∧
  (∀ i p x, ps !! i = Some p → 0 ≤ x < PGSIZE → ms_mem s (p + x) = C i x).

Definition alloc_pre : Prop :=
  a0 mod PGSIZE = 0 ∧ 0 ≤ a0 ∧ a0 + Z.of_nat N * PGSIZE ≤ MAXVA ∧
  (∀ i, (i < N)%nat → 0 ≤ perm i < 1024 ∧ Z.lor (perm i) PTE_V ≠ PTE_V) ∧
  (∀ va, a0 ≤ va < a0 + Z.of_nat N * PGSIZE → pt_get (ms_mem s0) root va = 0).

Hypothesis Hpre : alloc_pre.

Lemma alloced_init : vm_ok s0 F0 T0 root → alloced s0 F0 T0 [].
Proof using Type.
  clear. intros Hok. split_and!; try done; [set_solver|apply NoDup_nil_2].
Qed.

Lemma alloced_pages s F T ps i p : alloced s F T ps → ps !! i = Some p →
  page_ok p ∧ (p ∉ F) ∧ T !! p = None.
Proof.
  intros (_ & _ & _ & [_ Hall] & _) Hi. rewrite Forall_lookup in Hall. by apply (Hall i).
Qed.

(** Contents of the allocated pages survive changes elsewhere. *)
Lemma contents_frame (X : gset Z) m m' (ps : list Z) i p x :
  frame X m m' → (∀ q, q ∈ X → q mod PGSIZE = 0) → ps !! i = Some p → p ∉ X → p mod PGSIZE = 0 →
  0 ≤ x < PGSIZE → m' (p + x) = m (p + x).
Proof.
  intros Hf Hal Hi Hp Hpal Hx. apply Hf. intros q Hq Hin. apply Hp.
  assert (p = q) as ->; [|done].
  apply (in_page_unique p q (p + x)); try done; [by apply Hal|]. unfold in_page. lia.
Qed.

Lemma vm_ok_aligned s F T q : vm_ok s F T root → q ∈ F ∪ dom T → q mod PGSIZE = 0.
Proof.
  intros (Hpa & Hwf & _) [Hq|Hq]%elem_of_union.
  - by apply page_ok_pos; eapply pa_pages.
  - apply elem_of_dom in Hq as [[lv pre] Hq]. by eapply pt_wf_aligned.
Qed.

(** A page was allocated and filled; mappages() is next. *)
Lemma alloced_fill s F T ps : alloced s F T ps → (length ps < N)%nat → F ≠ ∅ → ∃ n s1,
  pa_kalloc s = Ret n s1 ∧ n ≠ 0 ∧ page_ok n ∧ n ∈ F ∧ T !! n = None ∧
  same_outside n (ms_mem s) (ms_mem s1) ∧
  ∀ m2, same_outside n (ms_mem s1) m2 →
    vm_ok (set_mem m2 s1) (F ∖ {[n]}) T root ∧ same_get (ms_mem s) m2 root.
Proof.
  intros (Hok & _) Hlt Hne.
  destruct (kalloc_grow s F T root Hok Hne) as (n & s1 & E & Hn & Hnok & HnT & Hok1 & Hs & Hag).
  exists n, s1. split_and!; try done.
  { apply page_ok_pos in Hnok. lia. }
  intros m2 Hs2. destruct (vm_ok_outside s1 (F ∖ {[n]}) T root n m2) as [Hok2 Hsg]; try done.
  { rewrite elem_of_difference, elem_of_singleton. naive_solver. }
  split; [done|]. intros va Hva. rewrite Hsg by done.
  destruct Hok as (_ & Hwf & _). by apply (pt_frame (ms_mem s) (ms_mem s1) T root Hwf Hag).
Qed.

Lemma alloced_slot_free s F T ps va : alloced s F T ps → 
  a0 + Z.of_nat (length ps) * PGSIZE ≤ va < a0 + Z.of_nat N * PGSIZE → pt_get (ms_mem s) root va = 0.
Proof.
  intros (_ & _ & _ & _ & _ & _ & Hout & _) Hva. destruct Hpre as (Hal & H0 & Hmax & _ & Hz).
  rewrite Hout by (unfold PGSIZE in *; lia). apply Hz. unfold PGSIZE in *. lia.
Qed.

(** mappages() of the new page [n], from the state where it has been filled. *)
Section map_new.
Context (s : mstate) (F : gset Z) (T : gmap Z (nat * Z)) (ps : list Z) (n : Z) (s1 : mstate) (m2 : mem).
Let a := a0 + Z.of_nat (length ps) * PGSIZE.
Hypothesis (Hal : alloced s F T ps) (Hlt : (length ps < N)%nat).
Hypothesis (Hn : page_ok n) (HnF : n ∈ F) (HnT : T !! n = None).
Hypothesis (Hs1 : same_outside n (ms_mem s) (ms_mem s1)) (Hs2 : same_outside n (ms_mem s1) m2).
Hypothesis (Hok2 : vm_ok (set_mem m2 s1) (F ∖ {[n]}) T root) (Hsg : same_get (ms_mem s) m2 root).

Section after.
Context (s3 : mstate) (F3 : gset Z) (T3 : gmap Z (nat * Z)).
Hypothesis (Hext : pt_ext (set_mem m2 s1) (F ∖ {[n]}) T s3 F3 T3 root).

Lemma new_page_fresh : (n ∉ F3) ∧ T3 !! n = None.
Proof.
  destruct Hext as (_ & _ & HF3 & _).
  rewrite <- not_elem_of_dom, <- not_elem_of_union, HF3, not_elem_of_union, not_elem_of_dom.
  split; [|done]. rewrite elem_of_difference, elem_of_singleton. naive_solver.
Qed.

Lemma old_pages i p : ps !! i = Some p →
  p ≠ n ∧ (p ∉ F3) ∧ T3 !! p = None ∧ p ∉ F ∖ {[n]} ∪ dom T.
Proof.
  destruct Hext as (_ & _ & HF3 & _). intros Hi.
  destruct (alloced_pages s F T ps i p Hal Hi) as (Hp & HpF & HpT).
  assert (p ≠ n) by congruence. apply not_elem_of_dom in HpT.
  assert (p ∉ F ∖ {[n]} ∪ dom T) as Hp' by (clear -HpF HpT; set_solver).
  rewrite <- HF3 in Hp'. rewrite not_elem_of_union, not_elem_of_dom in Hp'.
  split_and!; try tauto. by rewrite <- HF3, not_elem_of_union, not_elem_of_dom.
Qed.

Lemma kept_contents i p x : ps !! i = Some p → 0 ≤ x < PGSIZE → ms_mem s3 (p + x) = C i x.
Proof.
  intros Hi Hx. destruct (old_pages i p Hi) as (Hpn & _ & _ & HpX).
  destruct (alloced_pages s F T ps i p Hal Hi) as (Hp & _ & _). destruct Hext as (_ & _ & _ & Hfr3).
  assert (Hpal : p mod PGSIZE = 0) by apply Hp. assert (Hnal : n mod PGSIZE = 0) by apply Hn.
  rewrite (contents_frame _ _ _ ps i p x Hfr3 (λ q, vm_ok_aligned _ _ _ q Hok2) Hi HpX Hpal Hx).
  assert (Hnx : ¬ in_page n (p + x)).
  { intros Hx'. apply Hpn. eapply in_page_unique; [done|done| |done]. unfold in_page. lia. }
  cbn [set_mem ms_mem]. rewrite Hs2, Hs1 by done.
  destruct Hal as (_ & _ & _ & _ & _ & _ & _ & Hcont). by apply Hcont.
Qed.

Lemma kept_frame : frame (F0 ∪ dom T0) (ms_mem s0) (ms_mem s3).
Proof.
  destruct Hext as (_ & _ & _ & Hfr3). destruct Hal as (_ & _ & HF & _ & Hfr & _).
  eapply frame_trans; [exact Hfr|]. intros x Hx. rewrite Hfr3.
  - cbn [set_mem ms_mem]. rewrite Hs2, Hs1; [done| |]; apply Hx; rewrite <- HF; clear -HnF; set_solver.
  - intros q Hq. apply Hx. rewrite <- HF. clear -Hq. set_solver.
Qed.

Lemma alloced_mapped :
  mapped_to m2 (ms_mem s3) root a 1 n (perm (length ps)) →
  (∀ x, 0 ≤ x < PGSIZE → m2 (n + x) = C (length ps) x) → alloced s3 F3 T3 (ps ++ [n]).
Proof.
  intros Hmap HC. pose proof Hpre as (Ha0 & Hpos & Hmax & Hperm & Hz).
  pose proof Hal as (Hok & HT & HF & [Hnd Hall] & Hfr & Hin & Hout & Hcont).
  destruct Hext as (Hok3 & HT3 & HF3 & Hfr3). assert (HP : PGSIZE = 4096) by done.
  assert (Haal : a mod PGSIZE = 0) by (by apply aligned_add).
  assert (Ha : a = a0 + Z.of_nat (length ps) * PGSIZE) by done. clearbody a.
  split_and!; [exact Hok3|by etrans| | | |apply kept_frame| | |].
  - rewrite HF3, list_to_set_app_L, <- HF. apply set_eq. intros q.
    rewrite !elem_of_union, elem_of_difference, list_to_set_singleton, !elem_of_singleton.
    destruct (decide (q = n)) as [->|]; tauto.
  - apply NoDup_app. split_and!; [done| |apply NoDup_singleton].
    intros p Hp Hpn. apply list_elem_of_singleton in Hpn as ->. apply list_elem_of_lookup in Hp as [i Hi].
    by destruct (old_pages i n Hi).
  - apply Forall_app. split; [|apply Forall_singleton; split_and!; [done|apply new_page_fresh..]].
    apply Forall_lookup. intros i p Hi. destruct (old_pages i p Hi) as (_ & ? & ? & _).
    split_and!; try done. by eapply alloced_pages.
  - intros i p va Hi Hva. rewrite Hmap by (apply lookup_lt_Some in Hi; rewrite length_app in Hi; simpl in Hi; lia).
    apply lookup_app_Some in Hi as [Hi|[Hle Hi]].
    + pose proof (lookup_lt_Some _ _ _ Hi). destruct (Z.leb_spec a va); [lia|]. simpl.
      rewrite Hsg by lia. by apply (Hin i).
    + apply list_lookup_singleton_Some in Hi as [Hi0 <-]. assert (i = length ps) as -> by lia.
      destruct (Z.leb_spec a va); [|lia]. destruct (Z.ltb_spec va (a + Z.of_nat 1 * PGSIZE)); [|lia].
      simpl. rewrite (PGROUNDDOWN_in a va) by (done || lia). f_equal. lia.
  - intros va Hva Hr. rewrite length_app in Hr. simpl in Hr. rewrite Hmap by done.
    destruct (Z.leb_spec a va), (Z.ltb_spec va (a + Z.of_nat 1 * PGSIZE)); simpl; try lia;
      rewrite Hsg by done; apply Hout; try done; lia.
  - intros i p x Hi Hx. apply lookup_app_Some in Hi as [Hi|[Hle Hi]]; [by apply kept_contents|].
    apply list_lookup_singleton_Some in Hi as [Hi0 <-]. replace i with (length ps) by lia.
    rewrite <- HC by done.
    apply (contents_frame _ _ _ [n] 0%nat n x Hfr3 (λ q, vm_ok_aligned _ _ _ q Hok2)); try done.
    + clear -HnT. apply not_elem_of_dom in HnT. set_solver.
    + apply Hn.
Qed.

Lemma alloced_unmapped :
  mapped_to m2 (ms_mem s3) root a 0 n (perm (length ps)) →
  ∃ s4, pa_kfree n s3 = Ret tt s4 ∧ alloced s4 ({[n]} ∪ F3) T3 ps.
Proof.
  intros Hmap. pose proof Hpre as (Ha0 & Hpos & Hmax & Hperm & Hz). destruct new_page_fresh as [HnF3 HnT3].
  pose proof Hal as (Hok & HT & HF & [Hnd Hall] & Hfr & Hin & Hout & Hcont).
  pose proof Hext as (Hok3 & HT3 & HF3 & Hfr3). assert (HP : PGSIZE = 4096) by done.
  destruct (kfree_vm s3 F3 T3 root n Hok3 Hn HnF3 HnT3) as (s4 & E4 & Hok4 & Hsg4 & Hso4 & _).
  exists s4. split; [done|].
  assert (Hget : ∀ va, 0 ≤ va < MAXVA → pt_get (ms_mem s4) root va = pt_get (ms_mem s) root va).
  { intros va Hva. rewrite Hsg4, Hmap by done.
    destruct (Z.leb_spec a va), (Z.ltb_spec va (a + Z.of_nat 0 * PGSIZE)); simpl; try lia; by apply Hsg. }
  split_and!; [exact Hok4|by etrans| |done| | | | |].
  - rewrite <- HF. apply set_eq. intros q.
    assert (Hq : q ∈ F3 ∪ dom T3 ↔ q ∈ F ∖ {[n]} ∪ dom T) by (by rewrite HF3).
    rewrite !elem_of_union, elem_of_difference, elem_of_singleton in Hq.
    rewrite !elem_of_union, elem_of_singleton. destruct (decide (q = n)) as [->|]; tauto.
  - apply Forall_lookup. intros i p Hi. destruct (old_pages i p Hi) as (? & ? & ? & _).
    split_and!; [by eapply alloced_pages| |done]. by rewrite not_elem_of_union, not_elem_of_singleton.
  - eapply frame_trans; [apply kept_frame|]. eapply same_outside_frame; [|done].
    rewrite <- HF. clear -HnF. set_solver.
  - intros i p va Hi Hva. pose proof (lookup_lt_Some _ _ _ Hi). rewrite Hget by lia. by apply (Hin i).
  - intros va Hva Hr. rewrite Hget by done. by apply Hout.
  - intros i p x Hi Hx. rewrite <- (kept_contents i p x) by done. apply Hso4. intros Hx'.
    destruct (old_pages i p Hi) as (Hpn & _). apply Hpn. eapply in_page_unique; [|apply Hn| |done].
    + by apply page_ok_pos; eapply alloced_pages.
    + unfold in_page. lia.
Qed.
End after.

Lemma alloced_map : (∀ x, 0 ≤ x < PGSIZE → m2 (n + x) = C (length ps) x) →
  ∃ r s3 F3 T3, mappages root a PGSIZE n (perm (length ps)) (set_mem m2 s1) = Ret r s3 ∧
    (size T3 ≤ size T + 2)%nat ∧
    ((r = 0 ∧ alloced s3 F3 T3 (ps ++ [n])) ∨
     (r = -1 ∧ ∃ s4, pa_kfree n s3 = Ret tt s4 ∧ alloced s4 {[n]} T3 ps)).
Proof.
  intros HC. pose proof Hpre as (Ha0 & Hpos & Hmax & Hperm & Hz).
  assert (Haal : a mod PGSIZE = 0) by (by apply aligned_add).
  assert (Ha : a = a0 + Z.of_nat (length ps) * PGSIZE) by done.
  pose proof (page_ok_small n Hn) as [Hn0 Hn54]. assert (HP : PGSIZE = 4096) by done.
  destruct (mappages_spec (set_mem m2 s1) (F ∖ {[n]}) T root a PGSIZE n (perm (length ps)))
    as (r & s3 & F3 & T3 & j & E & Hw & Hext & Hmap & Hr); try done; try lia.
  { apply Hn. }
  { by apply Hperm. }
  { intros i Hi. rewrite map_count_page in Hi by done. rewrite PGROUNDDOWN_id by done.
    cbn [set_mem ms_mem]. rewrite Hsg by lia. rewrite (alloced_slot_free s F T ps); [done|done|]. lia. }
  exists r, s3, F3, T3. split; [exact E|]. split.
  { destruct Hext as (Hok3 & HT3 & _). eapply (walk_pages (ms_mem s3) T T3 root a); [apply Hok3|done|apply Hok2|exact Hw|].
    intros x. unfold map_last. rewrite PGROUNDDOWN_id by done. rewrite (PGROUNDDOWN_in a) by lia || done. lia. }
  rewrite map_count_page in Hr by done. rewrite (PGROUNDDOWN_id a) in Hmap by done.
  destruct Hr as [[-> ->]|(-> & Hj & ->)]; [left|right]; (split; [done|]).
  - by apply alloced_mapped.
  - assert (j = 0%nat) as -> by lia. destruct (alloced_unmapped s3 ∅ T3 Hext Hmap) as (s4 & E4 & H4). exists s4. by rewrite union_empty_r_L in H4.
Qed.
End map_new.

(** No page is lost, so that running out of memory means that there were too
    few: each page takes at most two more for the table. *)
Lemma alloced_size s F T ps : vm_ok s0 F0 T0 root → alloced s F T ps → (size F + size T + length ps = size F0 + size T0)%nat.
Proof using Type.
  intros Hok0 (Hok & _ & HX & [Hnd Hall] & _). assert (Hd : F ∪ dom T ## (list_to_set ps : gset Z)).
  { intros p Hp Hps%elem_of_list_to_set. rewrite Forall_forall in Hall. destruct (Hall p Hps) as (_ & H1 & H2). apply elem_of_union in Hp as [?|[? Hp]%elem_of_dom]; [done|congruence]. }
  by rewrite <- (vm_size _ _ _ _ Hok0), <- HX, size_union, (vm_size _ _ _ _ Hok), size_list_to_set.
Qed.

(** The entries of the pages added, as uvmunmap() finds them. *)
Lemma alloced_entries s F T ps : alloced s F T ps → (length ps ≤ N)%nat →
  let es := imap (λ i p, pte_entry p (perm i)) ps in
  PTE2PA <$> es = ps ∧ urange (ms_mem s) root a0 es ∧ unmappable true F T es.
Proof.
  intros Hal Hlen es. pose proof Hpre as (Ha0 & Hpos & Hmax & Hperm & Hz).
  assert (Hes : ∀ i e, es !! i = Some e → ∃ p, ps !! i = Some p ∧ e = pte_entry p (perm i) ∧
    leaf_entry e ∧ PTE2PA e = p).
  { intros i e Hi. unfold es in Hi. rewrite list_lookup_imap in Hi. apply fmap_Some in Hi as (p & Hp & ->).
    destruct (alloced_pages s F T ps i p Hal Hp) as (Hpok & _). destruct (page_ok_pos p Hpok) as [? Hpal].
    destruct (Hperm i) as [Hpi Hpl]; [apply lookup_lt_Some in Hp; lia|].
    destruct (pte_entry_facts p (perm i)) as (_ & Hv & Hpa & Hfl); [lia|done|done|].
    exists p. split_and!; try done. split; [done|by rewrite Hfl]. }
  assert (Hfm : PTE2PA <$> es = ps).
  { apply list_eq. intros i. rewrite list_lookup_fmap. destruct (es !! i) as [e|] eqn:Hi; simpl.
    - destruct (Hes i e Hi) as (p & -> & _ & _ & ->). done.
    - unfold es in Hi. rewrite list_lookup_imap in Hi. by apply fmap_None in Hi. }
  split_and!; [done| |split].
  - intros i e Hi. destruct (Hes i e Hi) as (p & Hp & -> & _).
    pose proof Hal as (_ & _ & _ & _ & _ & Hin & _). apply Hin; [done|]. unfold PGSIZE. lia.
  - apply Forall_lookup. intros i e Hi. by destruct (Hes i e Hi) as (p & _ & _ & ? & _).
  - intros _. split; [|rewrite Hfm; apply Hal]. apply Forall_lookup. intros i e Hi.
    destruct (Hes i e Hi) as (p & Hp & _ & _ & Hpa). unfold owned. rewrite Hpa. by eapply alloced_pages.
Qed.

(** The pages added were unmapped and freed.  The page-table pages that walk()
    allocated for them stay in the table, [T], until the table is freed. *)
Definition undone (s : mstate) (F : gset Z) (T : gmap Z (nat * Z)) : Prop :=
  vm_ok s F T root ∧ T0 ⊆ T ∧ F ∪ dom T = F0 ∪ dom T0 ∧
  frame (F0 ∪ dom T0) (ms_mem s0) (ms_mem s) ∧ same_get (ms_mem s0) (ms_mem s) root.

Lemma alloced_undo s F T ps : alloced s F T ps → (length ps ≤ N)%nat → ∃ s' F',
  uvmunmap root a0 (Z.of_nat (length ps)) true s = Ret tt s' ∧ undone s' F' T.
Proof.
  intros Hal Hlen. destruct (alloced_entries s F T ps Hal Hlen) as (Hfm & Hur & Hun).
  set (es := imap _ ps) in *. pose proof Hpre as (Ha0 & Hpos & Hmax & Hperm & Hz).
  assert (Hl : length ps = length es) by (unfold es; by rewrite length_imap).
  pose proof Hal as (Hok & HT & HF & _ & Hfr & _ & Hout & _).
  destruct (uvmunmap_spec true es s F T root a0) as (s' & E & Hok' & Hfr' & Hum); try done.
  { rewrite <- Hl. unfold PGSIZE in *. lia. }
  exists s', (freed true es ∪ F). rewrite Hl. split; [done|]. split_and!; [done|done| | |].
  - unfold freed. rewrite Hfm, <- HF. clear. set_solver.
  - eapply frame_trans; [done|]. eapply frame_mono; [|done]. unfold freed. rewrite Hfm, <- HF. clear. set_solver.
  - intros va Hva. rewrite Hum by done. rewrite <- Hl.
    destruct (Z.leb_spec a0 va), (Z.ltb_spec va (a0 + Z.of_nat (length ps) * PGSIZE)); simpl;
      try (apply Hout; lia). symmetry. apply Hz. unfold PGSIZE in *. lia.
Qed.
Lemma alloced_dealloc s F T ps : alloced s F T ps → (length ps ≤ N)%nat → ∃ r s' F',
  uvmdealloc root (a0 + Z.of_nat (length ps) * PGSIZE) a0 s = Ret r s' ∧ undone s' F' T.
Proof.
  intros Hal Hlen. pose proof Hpre as (Ha0 & Hpos & Hmax & Hperm & Hz). assert (HP : PGSIZE = 4096) by done.
  unfold uvmdealloc. destruct (Z.leb_spec (a0 + Z.of_nat (length ps) * PGSIZE) a0).
  { assert (length ps = 0%nat) as Hl0 by lia. apply nil_length_inv in Hl0 as ->.
    exists (a0 + Z.of_nat (@length Z []) * PGSIZE), s, F. split; [done|].
    destruct Hal as (Hok & HT & HF & _ & Hfr & _ & Hout & _). split_and!; try done.
    - rewrite <- HF. simpl. by rewrite union_empty_r_L.
    - intros va Hva. apply Hout; [done|]. simpl. lia. }
  rewrite !PGROUNDUP_id by (first [by apply aligned_add|done|pgunfold; lia]).
  destruct (Z.ltb_spec a0 (a0 + Z.of_nat (length ps) * PGSIZE)); [|lia].
  replace (a0 + Z.of_nat (length ps) * PGSIZE - a0) with (Z.of_nat (length ps) * PGSIZE) by lia.
  rewrite Z.div_mul by done. rewrite i32_id, u64_id by (pgunfold; lia).
  destruct (alloced_undo s F T ps Hal Hlen) as (s' & F' & E & Hun).
  exists a0, s', F'. rewrite (bind_Ret _ _ _ _ _ E). done.
Qed.
End alloc.

(** ** uvmalloc() *)

Definition uvm_perm (xperm : Z) (_ : nat) : Z := Z.lor (Z.lor PTE_R PTE_U) xperm.
Definition zero_page (_ : nat) (_ : Z) : byte := Byte.x00.

(** Number of pages uvmalloc() adds. *)
Definition uvm_pages (oldsz newsz : Z) : nat := Z.to_nat ((PGROUNDUP newsz - PGROUNDUP oldsz) / PGSIZE).

Lemma uvm_perm_ok xperm i : 0 ≤ xperm < 1024 →
  0 ≤ uvm_perm xperm i < 1024 ∧ Z.lor (uvm_perm xperm i) PTE_V ≠ PTE_V.
Proof.
  intros Hx. unfold uvm_perm. split; [apply lor_small; [|done]; vm_compute; by split|].
  intros He. apply (f_equal (λ z, Z.testbit z 1)) in He. rewrite !Z.lor_spec in He. done.
Qed.

Section uvmalloc.
Context (s0 : mstate) (F0 : gset Z) (T0 : gmap Z (nat * Z)) (root a0 newsz xperm : Z) (N : nat).
Hypothesis (Hpre : alloc_pre s0 root a0 N (uvm_perm xperm)).
Hypothesis (HN : ∀ i : nat, a0 + Z.of_nat i * PGSIZE < newsz ↔ (i < N)%nat).

Lemma uvmalloc_loop_spec k fuel s F T ps :
  vm_ok s0 F0 T0 root → alloced s0 F0 T0 root a0 (uvm_perm xperm) zero_page s F T ps → (size T ≤ size T0 + 2 * length ps)%nat →
  (length ps + k = N)%nat → (k < fuel)%nat → ∃ r s' F' T',
  uvmalloc_loop fuel root (a0 + Z.of_nat (length ps) * PGSIZE) a0 newsz xperm s = Ret r s' ∧
  ((r = newsz ∧ (size T' ≤ size T0 + 2 * N)%nat ∧ ∃ ps', length ps' = N ∧
      alloced s0 F0 T0 root a0 (uvm_perm xperm) zero_page s' F' T' ps') ∨
   (r = 0 ∧ undone s0 F0 T0 root s' F' T' ∧ (size F0 ≤ 3 * N)%nat)).
Proof.
  intros Hok0. revert k s F T ps. induction fuel as [|fuel IH]; intros k s F T ps Hal Hsz Hk Hf; [lia|]. pose proof (alloced_size _ _ _ _ _ _ _ _ _ _ _ Hok0 Hal) as Hsum.
  pose proof Hpre as (Ha0 & Hpos & Hmax & Hperm & Hz). assert (HP : PGSIZE = 4096) by done.
  cbn [uvmalloc_loop]. set (a := a0 + Z.of_nat (length ps) * PGSIZE).
  destruct (Z.ltb_spec a newsz) as [Ha|Ha].
  2: { exists newsz, s, F, T. split; [done|]. left. split; [done|]. split; [lia|]. exists ps. split; [|done].
       destruct (decide (length ps < N)%nat) as [Hlt|]; [|lia]. apply HN in Hlt. fold a in Hlt. lia. }
  apply HN in Ha. destruct (decide (F = ∅)) as [->|Hne].
  { pose proof Hal as ((Hpa & _) & _). rewrite (bind_Ret _ _ _ _ _ (pa_kalloc_empty s Hpa)). simpl.
    destruct (alloced_dealloc s0 F0 T0 root a0 N _ _ Hpre s ∅ T ps Hal) as (r & s' & F' & E & Hun); [lia|].
    fold a in E. rewrite (bind_Ret _ _ _ _ _ E). exists 0, s', F', T. split; [done|]. right. split_and!; [done|done|]. rewrite size_empty in Hsum. lia. }
  destruct (alloced_fill s0 F0 T0 root a0 N _ _ s F T ps Hal Ha Hne) as (n & s1 & E & Hn0 & Hn & HnF & HnT & Hs1 & Hm2).
  rewrite (bind_Ret _ _ _ _ _ E). destruct (Z.eqb_spec n 0); [done|].
  unfold mmemset, modify. unfold mbind at 1, M_bind at 1.
  pose proof (memset_same_outside n (ms_mem s1) 0) as Hs2.
  destruct (Hm2 _ Hs2) as [Hok2 Hsg].
  destruct (alloced_map s0 F0 T0 root a0 N _ _ Hpre s F T ps n s1 _ Hal Ha Hn HnF HnT Hs1 Hs2 Hok2 Hsg)
    as (r & s3 & F3 & T3 & E3 & HT3 & Hr).
  { intros x Hx. apply memset_in. lia. }
  fold a in E3. unfold uvm_perm in E3. rewrite (bind_Ret _ _ _ _ _ E3).
  destruct Hr as [[-> Hal3]|(-> & s4 & E4 & Hal4)];
    [change (negb (0 =? 0)) with false|change (negb (-1 =? 0)) with true]; cbv iota.
  - rewrite u64_id by (unfold a; pgunfold; lia).
    destruct (IH (pred k) s3 F3 T3 (ps ++ [n]) Hal3) as (r & s' & F' & T' & E' & Hr);
      [rewrite length_app; simpl; lia|rewrite length_app; simpl; lia|lia|].
    rewrite length_app in E'. simpl length in E'.
    replace (a + PGSIZE) with (a0 + Z.of_nat (length ps + 1) * PGSIZE) by (unfold a; lia).
    by exists r, s', F', T'.
  - rewrite (bind_Ret _ _ _ _ _ E4).
    destruct (alloced_dealloc s0 F0 T0 root a0 N _ _ Hpre s4 _ T3 ps Hal4) as (r & s' & F' & E' & Hun); [lia|].
    fold a in E'. rewrite (bind_Ret _ _ _ _ _ E'). exists 0, s', F', T3. split; [done|]. right. split_and!; [done|done|].
    pose proof (alloced_size _ _ _ _ _ _ _ _ _ _ _ Hok0 Hal4) as Hs4. rewrite size_singleton in Hs4. lia.
Qed.
End uvmalloc.

Lemma PGROUNDUP_range a : 0 ≤ a ≤ MAXVA → a ≤ PGROUNDUP a < a + PGSIZE ∧ PGROUNDUP a mod PGSIZE = 0 ∧ PGROUNDUP a ≤ MAXVA.
Proof.
  intros Ha. destruct (PGROUNDUP_bounds a) as [Hb Hal]; [pgunfold; lia..|]. split_and!; try lia.
  pgunfold. pose proof (Z.div_mod (PGROUNDUP a) 4096). lia.
Qed.

Lemma uvm_pages_spec oldsz newsz i : 0 ≤ oldsz ≤ newsz → newsz ≤ MAXVA →
  PGROUNDUP oldsz + Z.of_nat i * PGSIZE < newsz ↔ (i < uvm_pages oldsz newsz)%nat.
Proof.
  intros Ho Hn. destruct (PGROUNDUP_range oldsz) as (? & Ho2 & _); [lia|].
  destruct (PGROUNDUP_range newsz) as (? & Hn2 & _); [lia|]. unfold uvm_pages.
  set (x := PGROUNDUP oldsz) in *. set (y := PGROUNDUP newsz) in *. unfold PGSIZE in *.
  pose proof (Z.div_mod x 4096). pose proof (Z.div_mod y 4096).
  assert ((y - x) / 4096 = y / 4096 - x / 4096) as ->.
  { replace (y - x) with ((y / 4096 - x / 4096) * 4096) by lia. by rewrite Z.div_mul. }
  lia.
Qed.

(** The memory from PGROUNDUP(oldsz) up to newsz is not mapped. *)
Definition uvm_room (m : mem) (root oldsz newsz : Z) : Prop :=
  ∀ va, PGROUNDUP oldsz ≤ va < PGROUNDUP newsz → pt_get m root va = 0.

Lemma uvm_pages_end oldsz newsz : 0 ≤ oldsz ≤ newsz → newsz ≤ MAXVA →
  PGROUNDUP oldsz + Z.of_nat (uvm_pages oldsz newsz) * PGSIZE = PGROUNDUP newsz.
Proof.
  intros Ho Hn. destruct (PGROUNDUP_range oldsz) as (? & Ho2 & _); [lia|].
  destruct (PGROUNDUP_range newsz) as (? & Hn2 & _); [lia|]. unfold uvm_pages.
  set (x := PGROUNDUP oldsz) in *. set (y := PGROUNDUP newsz) in *. unfold PGSIZE in *.
  pose proof (Z.div_mod x 4096). pose proof (Z.div_mod y 4096).
  replace (y - x) with ((y / 4096 - x / 4096) * 4096) by lia. rewrite Z.div_mul by done. lia.
Qed.

Lemma uvmalloc_spec s F T root oldsz newsz xperm :
  vm_ok s F T root → 0 ≤ oldsz ≤ newsz → newsz ≤ MAXVA → 0 ≤ xperm < 1024 →
  uvm_room (ms_mem s) root oldsz newsz → ∃ r s' F' T',
  uvmalloc root oldsz newsz xperm s = Ret r s' ∧
  ((r = newsz ∧ (size F ≤ size F' + 3 * uvm_pages oldsz newsz)%nat ∧ ∃ ps, length ps = uvm_pages oldsz newsz ∧
      alloced s F T root (PGROUNDUP oldsz) (uvm_perm xperm) zero_page s' F' T' ps) ∨
   (r = 0 ∧ undone s F T root s' F' T' ∧ (size F ≤ 3 * uvm_pages oldsz newsz)%nat)).
Proof.
  intros Hok Ho Hn Hx Hroom. unfold uvmalloc. destruct (Z.ltb_spec newsz oldsz); [lia|].
  destruct (PGROUNDUP_range oldsz) as (Hb & Hal & _); [lia|].
  destruct (PGROUNDUP_range newsz) as (Hb' & _ & Hmx); [lia|].
  pose proof (uvm_pages_end oldsz newsz Ho Hn) as He.
  destruct (uvmalloc_loop_spec s F T root (PGROUNDUP oldsz) newsz xperm (uvm_pages oldsz newsz))
    with (k := uvm_pages oldsz newsz) (s := s) (F := F) (T := T) (ps := @nil Z)
      (fuel := S (S (Z.to_nat ((newsz - PGROUNDUP oldsz) / PGSIZE))))
    as (r & s' & F' & T' & E & Hr).
  - split_and!; [done|lia|lia|intros; by apply uvm_perm_ok|]. intros va Hva. apply Hroom. lia.
  - intros i. by apply uvm_pages_spec.
  - done.
  - by apply alloced_init.
  - simpl. lia.
  - done.
  - unfold PGSIZE in *. pose proof (Z.div_mod (newsz - PGROUNDUP oldsz) 4096).
    pose proof (Z.mod_pos_bound (newsz - PGROUNDUP oldsz) 4096). lia.
  - simpl length in E. rewrite Z.mul_0_l, Z.add_0_r in E. exists r, s', F', T'. split; [exact E|]. destruct Hr as [(-> & HT & ps & Hl & Hal')|?]; [left|by right].
    split; [done|]. split; [|by exists ps]. pose proof (alloced_size _ _ _ _ _ _ _ _ _ _ _ Hok Hal') as Hs. lia.
Qed.

(** ** uvmcopy() *)

Definition copy_perm (es : list Z) (i : nat) : Z := PTE_FLAGS (es !!! i).
Definition copy_page (m : mem) (es : list Z) (i : nat) (x : Z) : byte := m (PTE2PA (es !!! i) + x).

(** The parent's address space: the table rooted at [old] occupies [To], its
    first pages have the entries [es], all apart from the pages of [X]. *)
Definition parent_space (m : mem) (old : Z) (To : gmap Z (nat * Z)) (es : list Z) (X : gset Z) : Prop :=
  pt_wf m To old ∧ dom To ## X ∧ urange m old 0 es ∧
  Forall (λ e, leaf_entry e ∧ PTE2PA e ∉ X) es.

Lemma lor_flags_V e : pte_valid e = true → Z.lor (PTE_FLAGS e) PTE_V = PTE_FLAGS e.
Proof.
  intros Hv. unfold pte_valid, PTE_V in Hv. rewrite land_bit_testbit in Hv by lia.
  rewrite negb_involutive in Hv. apply Z.bits_inj'. intros k Hk. unfold PTE_FLAGS, PTE_V.
  rewrite Z.lor_spec, Z.land_spec. change (Z.shiftl 1 0) with 1.
  destruct (decide (k = 0)) as [->|]; [by rewrite Hv|].
  assert (Z.testbit 1 k = false) as -> by (by destruct k; [done|..|lia]). apply orb_false_r.
Qed.

Section uvmcopy.
Context (s0 : mstate) (F0 : gset Z) (T0 : gmap Z (nat * Z)) (old new sz : Z) (es : list Z) (To : gmap Z (nat * Z)).
Let C := copy_page (ms_mem s0) es.
Hypothesis (Hpre : alloc_pre s0 new 0 (length es) (copy_perm es)).
Hypothesis (HN : ∀ i : nat, Z.of_nat i * PGSIZE < sz ↔ (i < length es)%nat).
Hypothesis (Hpar : parent_space (ms_mem s0) old To es (F0 ∪ dom T0)).

(** The parent is as it was at the start. *)
Lemma parent_frame m i e : frame (F0 ∪ dom T0) (ms_mem s0) m → (∀ q, q ∈ F0 ∪ dom T0 → q mod PGSIZE = 0) →
  es !! i = Some e → pt_wf m To old ∧ pt_get m old (Z.of_nat i * PGSIZE) = e ∧
  ∀ x, 0 ≤ x < PGSIZE → m (PTE2PA e + x) = ms_mem s0 (PTE2PA e + x).
Proof using Hpre IO Hpar.
  intros Hf HX Hi. destruct Hpar as (Hwf & Hd & Hur & Hall).
  destruct (pt_frame (ms_mem s0) m To old Hwf) as [Hwf' Hg].
  { intros q x Hq Hx. apply Hf. intros q' Hq' Hx'.
    assert (q = q') as ->; [|apply elem_of_dom in Hq; by apply (Hd q')].
    destruct Hq as [[lv pre] Hq]. eapply in_page_unique; [by eapply pt_wf_aligned|by apply HX|done|done]. }
  pose proof (lookup_lt_Some _ _ _ Hi) as Hlt. destruct Hpre as (_ & _ & Hmax & _).
  split_and!; [done| |].
  - destruct (Hg (Z.of_nat i * PGSIZE)) as [_ ->]; [unfold PGSIZE in *; lia|]. by apply (Hur i).
  - intros x Hx. rewrite Forall_lookup in Hall. destruct (Hall i e Hi) as [_ HeX].
    eapply (contents_frame _ _ _ [PTE2PA e] 0%nat); try done. apply PTE2PA_aligned.
Qed.

(** The code finds the parent's entry. *)
Lemma uvmcopy_entry s F T ps e :
  vm_ok s0 F0 T0 new → alloced s0 F0 T0 new 0 (copy_perm es) C s F T ps → es !! length ps = Some e →
  let a := Z.of_nat (length ps) * PGSIZE in
  0 ≤ a < MAXVA ∧ ∃ pte, walk old a false s = Ret pte s ∧ (pte =? 0) = false ∧
  load64 (ms_mem s) pte = e ∧ (Z.land e PTE_V =? 0) = false.
Proof using Hpre IO Hpar.
  intros Hok0 Hal He a. pose proof Hpre as (_ & _ & Hmax & _). pose proof (lookup_lt_Some _ _ _ He) as Hlt.
  assert (Ha' : 0 ≤ a < MAXVA) by (unfold a, PGSIZE in *; lia). split; [done|].
  pose proof Hal as (_ & _ & _ & _ & Hfr & _).
  destruct (parent_frame (ms_mem s) (length ps) e Hfr (λ q, vm_ok_aligned new s0 F0 T0 q Hok0) He) as (Hwf & Hget & _).
  pose proof Hpar as (_ & _ & _ & Hall). rewrite Forall_lookup in Hall.
  destruct (Hall _ _ He) as [[Hv Hfl] _].
  destruct (pt_get_leaf (ms_mem s) To old a e Hwf Ha' Hget Hv) as (pte & Hl & Hp0 & Hld).
  exists pte. split_and!; [|by apply Z.eqb_neq|done|by apply negb_true_iff].
  rewrite walk_noalloc by done. by rewrite Hl.
Qed.

(** What memmove() puts in the new page. *)
Lemma uvmcopy_contents s F T ps e n s1 x :
  vm_ok s0 F0 T0 new → alloced s0 F0 T0 new 0 (copy_perm es) C s F T ps → es !! length ps = Some e →
  n ∈ F → same_outside n (ms_mem s) (ms_mem s1) → 0 ≤ x < PGSIZE →
  memmove (ms_mem s1) n (PTE2PA e) PGSIZE (n + x) = C (length ps) x.
Proof using Hpre IO Hpar.
  intros Hok0 Hal He HnF Hs1 Hx. rewrite memmove_in by lia.
  replace (PTE2PA e + (n + x - n)) with (PTE2PA e + x) by lia.
  assert (Hfr1 : frame (F0 ∪ dom T0) (ms_mem s0) (ms_mem s1)).
  { pose proof Hal as (_ & _ & HF & _ & Hfr & _).
    eapply frame_trans; [done|]. eapply same_outside_frame; [|exact Hs1].
    rewrite <- HF. clear -HnF. set_solver. }
  destruct (parent_frame (ms_mem s1) (length ps) e Hfr1 (λ q, vm_ok_aligned new s0 F0 T0 q Hok0) He) as (_ & _ & ->); [|done].
  unfold C, copy_page. by rewrite (list_lookup_total_correct _ _ _ He).
Qed.

Lemma uvmcopy_loop_spec k fuel s F T ps :
  vm_ok s0 F0 T0 new →
  alloced s0 F0 T0 new 0 (copy_perm es) C s F T ps → (size T ≤ size T0 + 2 * length ps)%nat →
  (length ps + k = length es)%nat → (k < fuel)%nat → ∃ r s' F' T',
  uvmcopy_loop fuel old new (Z.of_nat (length ps) * PGSIZE) sz s = Ret r s' ∧
  ((r = 0 ∧ ∃ ps', length ps' = length es ∧
      alloced s0 F0 T0 new 0 (copy_perm es) C s' F' T' ps') ∨
   (r = -1 ∧ undone s0 F0 T0 new s' F' T' ∧ (size F0 ≤ 3 * length es)%nat)).
Proof.
  intros Hok0. revert k s F T ps. induction fuel as [|fuel IH]; intros k s F T ps Hal Hsz Hk Hf; [lia|]. pose proof (alloced_size _ _ _ _ _ _ _ _ _ _ _ Hok0 Hal) as Hsum.
  pose proof Hpre as (Ha0 & Hpos & Hmax & Hperm & Hz). assert (HP : PGSIZE = 4096) by done.
  cbn [uvmcopy_loop]. set (a := Z.of_nat (length ps) * PGSIZE).
  destruct (Z.ltb_spec a sz) as [Ha|Ha].
  2: { exists 0, s, F, T. split; [done|]. left. split; [done|]. exists ps. split; [|done].
       destruct (decide (length ps < length es)%nat) as [Hlt|]; [|lia]. apply HN in Hlt. fold a in Hlt. lia. }
  apply HN in Ha. destruct (lookup_lt_is_Some_2 _ _ Ha) as [e He].
  assert (Hundo : ∀ s F T, alloced s0 F0 T0 new 0 (copy_perm es) C s F T ps → ∃ s' F',
    uvmunmap new 0 (a / PGSIZE) true s = Ret tt s' ∧ undone s0 F0 T0 new s' F' T).
  { intros s' F' T' Hal'. unfold a. rewrite Z.div_mul by done.
    apply (alloced_undo s0 F0 T0 new 0 (length es) _ _ Hpre s' F' T' ps Hal'). lia. }
  destruct (uvmcopy_entry s F T ps e Hok0 Hal He) as (Ha' & pte & Ew & Hp0 & Hld & Hv). fold a in Ew, Ha'.
  rewrite (bind_Ret _ _ _ _ _ Ew), Hp0. unfold mload64, gets. unfold mbind at 1, M_bind at 1.
  rewrite Hld, Hv.
  destruct (decide (F = ∅)) as [->|Hne].
  { pose proof Hal as ((Hpa & _) & _). rewrite (bind_Ret _ _ _ _ _ (pa_kalloc_empty s Hpa)). simpl.
    destruct (Hundo s ∅ T Hal) as (s' & F' & E & Hun).
    rewrite (bind_Ret _ _ _ _ _ E). exists (-1), s', F', T. split; [done|]. right. split_and!; [done|done|]. rewrite size_empty in Hsum. lia. }
  destruct (alloced_fill s0 F0 T0 new 0 (length es) _ _ s F T ps Hal Ha Hne) as (n & s1 & E & Hn0 & Hn & HnF & HnT & Hs1 & Hm2).
  rewrite (bind_Ret _ _ _ _ _ E). destruct (Z.eqb_spec n 0); [done|].
  unfold mmemmove, modify. unfold mbind at 1, M_bind at 1.
  assert (Hs2 : same_outside n (ms_mem s1) (memmove (ms_mem s1) n (PTE2PA e) PGSIZE)).
  { intros x Hx. apply memmove_out; [lia|]. unfold in_page in Hx. lia. }
  destruct (Hm2 _ Hs2) as [Hok2 Hsg].
  destruct (alloced_map s0 F0 T0 new 0 (length es) _ _ Hpre s F T ps n s1 _ Hal Ha Hn HnF HnT Hs1 Hs2 Hok2 Hsg)
    as (r & s3 & F3 & T3 & E3 & HT3 & Hr).
  { intros x Hx. by apply (uvmcopy_contents s F T). }
  rewrite Z.add_0_l in E3. fold a in E3. unfold copy_perm at 1 in E3.
  rewrite (list_lookup_total_correct _ _ _ He) in E3. rewrite (bind_Ret _ _ _ _ _ E3).
  destruct Hr as [[-> Hal3]|(-> & s4 & E4 & Hal4)];
    [change (negb (0 =? 0)) with false|change (negb (-1 =? 0)) with true]; cbv iota.
  - rewrite u64_id by (unfold a; pgunfold; lia).
    destruct (IH (pred k) s3 F3 T3 (ps ++ [n]) Hal3) as (r & s' & F' & T' & E' & Hr);
      [rewrite length_app; simpl; lia|rewrite length_app; simpl; lia|lia|].
    rewrite length_app in E'. simpl length in E'.
    replace (a + PGSIZE) with (Z.of_nat (length ps + 1) * PGSIZE) by (unfold a; lia).
    by exists r, s', F', T'.
  - rewrite (bind_Ret _ _ _ _ _ E4). destruct (Hundo s4 _ T3 Hal4) as (s' & F' & E' & Hun).
    rewrite (bind_Ret _ _ _ _ _ E'). exists (-1), s', F', T3. split; [done|]. right. split_and!; [done|done|].
    pose proof (alloced_size _ _ _ _ _ _ _ _ _ _ _ Hok0 Hal4) as Hs4. rewrite size_singleton in Hs4. lia.
Qed.
End uvmcopy.

End user.
