(* ===== verification/VmFree.v ===== *)
(** * freewalk(), uvmfree() and uvmcreate(): correctness

    [pt_pages m lv p] lists the pages freewalk() visits below a page [p] of
    level [lv], in the order it frees them; for a well-formed table they are
    exactly the pages of the table, each once. *)

From stdpp Require Import base gmap sets strings numbers list.
From coqutil Require Import Byte.
From S2P Require Import Prelude Mem Str Riscv Spinlock Kalloc Vm VmPt VmWalk VmMap VmUser.

(** [g i ++ g (i + 1) ++ ...], [k] times. *)
Fixpoint concat_from (g : Z → list Z) (k : nat) (i : Z) : list Z :=
  match k with
  | O => []
  | S k => g i ++ concat_from g k (i + 1)
  end.

Fixpoint pt_pages (m : mem) (lv : nat) (p : Z) : list Z :=
  match lv with
  | O => [p]
  | S lv => concat_from (λ i, let e := load64 m (p + 8 * i) in
                              if pte_valid e then pt_pages m lv (PTE2PA e) else []) 512 0 ++ [p]
  end.

(** The pages below entry [i] of a page [p] of level [S lv]. *)
Definition pt_sub (m : mem) (lv : nat) (p i : Z) : list Z :=
  let e := load64 m (p + 8 * i) in if pte_valid e then pt_pages m lv (PTE2PA e) else [].

(** No leaf is mapped below [p], and inner entries carry no permission. *)
Fixpoint pt_bare (m : mem) (lv : nat) (p : Z) : Prop :=
  ∀ i, 0 ≤ i < 512 → let e := load64 m (p + 8 * i) in
  match lv with
  | O => pte_valid e = false
  | S lv => pte_valid e = true → PTE_FLAGS e = PTE_V ∧ pt_bare m lv (PTE2PA e)
  end.

Lemma elem_of_concat_from g k i q :
  q ∈ concat_from g k i ↔ ∃ j, i ≤ j < i + Z.of_nat k ∧ q ∈ g j.
Proof.
  revert i. induction k as [|k IH]; intros i; cbn [concat_from].
  { rewrite elem_of_nil. split; [done|]. intros (j & ? & _). lia. }
  rewrite elem_of_app, IH. split.
  - intros [Hq|(j & Hj & Hq)]; [exists i|exists j]; split; try done; lia.
  - intros (j & Hj & Hq). destruct (decide (j = i)) as [->|]; [by left|right].
    exists j. split; [lia|done].
Qed.

Lemma concat_from_ext g g' k i :
  (∀ j, i ≤ j < i + Z.of_nat k → g j = g' j) → concat_from g k i = concat_from g' k i.
Proof.
  revert i. induction k as [|k IH]; intros i He; [done|]. cbn [concat_from].
  rewrite He by lia. f_equal. apply IH. intros j Hj. apply He. lia.
Qed.

Lemma NoDup_concat_from g k i :
  (∀ j, i ≤ j < i + Z.of_nat k → NoDup (g j)) →
  (∀ j j' q, i ≤ j < i + Z.of_nat k → i ≤ j' < i + Z.of_nat k → q ∈ g j → q ∈ g j' → j = j') →
  NoDup (concat_from g k i).
Proof.
  revert i. induction k as [|k IH]; intros i Hn Hd; [apply NoDup_nil_2|]. cbn [concat_from].
  apply NoDup_app. split_and!; [apply Hn; lia| |].
  - intros q Hq (j & Hj & Hq')%elem_of_concat_from.
    assert (i = j) by (apply (Hd i j q); try done; lia). lia.
  - apply IH; [intros; apply Hn; lia|]. intros j j' q Hj Hj'. apply Hd; lia.
Qed.

Lemma pt_pages_S m lv p : pt_pages m (S lv) p = concat_from (pt_sub m lv p) 512 0 ++ [p].
Proof. done. Qed.

Lemma pt_pages_self m lv p : p ∈ pt_pages m lv p.
Proof. destruct lv; [by left|]. rewrite pt_pages_S, elem_of_app. right. by left. Qed.

(** Only the memory of the pages matters. *)
Lemma pt_pages_frame m m' lv p :
  (∀ q x, q ∈ pt_pages m lv p → in_page q x → m' x = m x) →
  pt_pages m' lv p = pt_pages m lv p ∧ (pt_bare m lv p → pt_bare m' lv p).
Proof.
  revert p. induction lv as [|lv IH]; intros p Hag.
  - split; [done|]. intros Hb i Hi e. subst e. rewrite (load64_ext m' m); [by apply Hb|].
    intros x Hx. apply (Hag p); [by left|]. unfold in_page, PGSIZE. lia.
  - assert (He : ∀ i, 0 ≤ i < 512 → load64 m' (p + 8 * i) = load64 m (p + 8 * i)).
    { intros i Hi. apply load64_ext. intros x Hx. apply (Hag p); [apply pt_pages_self|].
      unfold in_page, PGSIZE. lia. }
    assert (Hsub : ∀ i, 0 ≤ i < 512 → pte_valid (load64 m (p + 8 * i)) = true →
      pt_pages m' lv (PTE2PA (load64 m (p + 8 * i))) = pt_pages m lv (PTE2PA (load64 m (p + 8 * i))) ∧
      (pt_bare m lv (PTE2PA (load64 m (p + 8 * i))) → pt_bare m' lv (PTE2PA (load64 m (p + 8 * i))))).
    { intros i Hi Hv. apply IH. intros q x Hq. apply Hag. rewrite pt_pages_S, elem_of_app. left.
      apply elem_of_concat_from. exists i. split; [lia|]. unfold pt_sub. by rewrite Hv. }
    split.
    + rewrite !pt_pages_S. f_equal. apply concat_from_ext. intros i Hi. unfold pt_sub.
      rewrite He by lia. destruct (pte_valid _) eqn:Ev; [|done]. by apply Hsub; [lia|].
    + intros Hb i Hi e Hv. subst e. rewrite He in Hv |- * by done. destruct (Hb i Hi Hv). split; [done|].
      by apply Hsub.
Qed.

Lemma pt_sub_frame m m' lv p i :
  load64 m' (p + 8 * i) = load64 m (p + 8 * i) →
  (∀ q x, q ∈ pt_sub m lv p i → in_page q x → m' x = m x) →
  pt_sub m' lv p i = pt_sub m lv p i.
Proof.
  intros He Hag. unfold pt_sub in *. rewrite He. destruct (pte_valid _); [|done].
  by apply pt_pages_frame.
Qed.

Lemma flags_V_no_rwx e : PTE_FLAGS e = PTE_V → Z.land e (Z.lor (Z.lor PTE_R PTE_W) PTE_X) = 0.
Proof.
  intros Hf. assert (He : Z.land (PTE_FLAGS e) 14 = 0) by (by rewrite Hf).
  unfold PTE_FLAGS in He. rewrite <- Z.land_assoc in He. exact He.
Qed.

(** ** The pages of a table *)

Section pages.
Context {I : image} {IO : image_ok I}.
Context (m : mem) (T : gmap Z (nat * Z)) (root : Z) (Hwf : pt_wf m T root).

Lemma pt_wf_child p lv pre i : T !! p = Some (S lv, pre) → 0 ≤ i < 512 →
  pte_valid (load64 m (p + 8 * i)) = true →
  T !! PTE2PA (load64 m (p + 8 * i)) = Some (lv, pre * 512 + i).
Proof using Hwf. intros Hp Hi Hv. destruct Hwf as (_ & _ & Hch & _). by apply Hch. Qed.

Lemma pt_wf_bounded p lv pre : T !! p = Some (lv, pre) → pt_bounded lv pre.
Proof using Hwf. destruct Hwf as (_ & _ & _ & _ & _ & Hb). apply Hb. Qed.

Lemma pt_pages_desc lv p pre q : T !! p = Some (lv, pre) → q ∈ pt_pages m lv p →
  ∃ k pr, T !! q = Some (k, pr) ∧ (k ≤ lv)%nat ∧ pr / 2 ^ (9 * Z.of_nat (lv - k)) = pre.
Proof using Hwf.
  revert p pre. induction lv as [|lv IH]; intros p pre Hp Hq.
  { apply list_elem_of_singleton in Hq as ->. exists 0%nat, pre. split_and!; [done|done|].
    simpl. by rewrite Z.div_1_r. }
  rewrite pt_pages_S, elem_of_app, elem_of_concat_from in Hq. destruct Hq as [(i & Hi & Hq)|Hq].
  - unfold pt_sub in Hq. destruct (pte_valid _) eqn:Ev; [|by apply elem_of_nil in Hq].
    destruct (IH _ _ (pt_wf_child p lv pre i Hp ltac:(lia) Ev) Hq) as (k & pr & Hk & Hle & Hd).
    exists k, pr. split_and!; [done|lia|].
    replace (9 * Z.of_nat (S lv - k)) with (9 * Z.of_nat (lv - k) + 9) by lia.
    rewrite Z.pow_add_r, <- Z.div_div by (try apply Z.pow_nonzero; lia). rewrite Hd.
    change (2 ^ 9) with 512. rewrite Z.div_add_l, Z.div_small by lia. lia.
  - apply list_elem_of_singleton in Hq as ->. exists (S lv), pre. split_and!; [done|lia|].
    rewrite Nat.sub_diag. by rewrite Z.div_1_r.
Qed.

Lemma NoDup_pt_pages lv p pre : T !! p = Some (lv, pre) → NoDup (pt_pages m lv p).
Proof using Hwf.
  revert p pre. induction lv as [|lv IH]; intros p pre Hp; [apply NoDup_singleton|].
  assert (Hsub : ∀ j q, 0 ≤ j < 512 → q ∈ pt_sub m lv p j → ∃ k pr, T !! q = Some (k, pr) ∧
    (k ≤ lv)%nat ∧ pr / 2 ^ (9 * Z.of_nat (lv - k)) = pre * 512 + j).
  { intros j q Hj Hq. unfold pt_sub in Hq. destruct (pte_valid _) eqn:Ev; [|by apply elem_of_nil in Hq].
    eapply pt_pages_desc; [|exact Hq]. by apply pt_wf_child. }
  rewrite pt_pages_S. apply NoDup_app. split_and!; [|intros q Hq Hqp|apply NoDup_singleton].
  - apply NoDup_concat_from.
    + intros j Hj. unfold pt_sub. destruct (pte_valid _) eqn:Ev; [|apply NoDup_nil_2].
      eapply IH. apply pt_wf_child; [exact Hp|lia|done].
    + intros j j' q Hj Hj' Hq Hq'. destruct (Hsub j q ltac:(lia) Hq) as (k & pr & Hk & _ & Hd).
      destruct (Hsub j' q ltac:(lia) Hq') as (k' & pr' & Hk' & _ & Hd').
      rewrite Hk in Hk'. injection Hk' as <- <-. lia.
  - apply list_elem_of_singleton in Hqp as ->. apply elem_of_concat_from in Hq as (j & Hj & Hq).
    destruct (Hsub j p ltac:(lia) Hq) as (k & pr & Hk & Hle & _). rewrite Hp in Hk. injection Hk. lia.
Qed.

Lemma pt_pages_child lv r pr p k pre i :
  T !! r = Some (lv, pr) → p ∈ pt_pages m lv r → T !! p = Some (S k, pre) → 0 ≤ i < 512 →
  pte_valid (load64 m (p + 8 * i)) = true → PTE2PA (load64 m (p + 8 * i)) ∈ pt_pages m lv r.
Proof using Hwf.
  revert r pr. induction lv as [|lv IH]; intros r pr Hr Hp HpT Hi Hv.
  { apply list_elem_of_singleton in Hp as ->. congruence. }
  rewrite pt_pages_S, elem_of_app, elem_of_concat_from in Hp |- *. left.
  destruct Hp as [(j & Hj & Hp)|Hp].
  - exists j. split; [done|]. unfold pt_sub in *. destruct (pte_valid (load64 m (r + 8 * j))) eqn:Ev; [|by apply elem_of_nil in Hp].
    eapply IH; try done. apply pt_wf_child; [exact Hr|lia|done].
  - apply list_elem_of_singleton in Hp as ->. exists i. split; [lia|]. unfold pt_sub. rewrite Hv.
    apply pt_pages_self.
Qed.

(** A page of the table is the root or has a parent. *)
Lemma pt_wf_parent q k pre : T !! q = Some (k, pre) →
  (q = root ∧ k = 2%nat ∧ pre = 0) ∨ ((k < 2)%nat ∧ ∃ p, T !! p = Some (S k, pre / 512) ∧
    pte_valid (load64 m (p + 8 * (pre mod 512))) = true ∧ PTE2PA (load64 m (p + 8 * (pre mod 512))) = q).
Proof using Hwf.
  intros Hq. destruct Hwf as (Hr & _ & _ & _ & Hl & Hb).
  destruct (decide (q = root)) as [->|Hne]; [left; rewrite Hr in Hq; by simplify_eq|right].
  destruct (Hl q k pre Hq Hne) as (p & Hp & Hv & Ha). destruct (Hb _ _ _ Hp) as [Hlv _].
  split; [lia|]. by exists p.
Qed.

Lemma pt_pages_complete q k pre : T !! q = Some (k, pre) → q ∈ pt_pages m 2 root.
Proof using Hwf.
  remember (2 - k)%nat as d eqn:Hd. revert q k pre Hd. induction d as [|d IH]; intros q k pre Hd Hq;
    destruct (pt_wf_parent q k pre Hq) as [(-> & _ & _)|(Hk & p & Hp & Hv & Ha)];
    try apply pt_pages_self; [lia|].
  rewrite <- Ha. eapply pt_pages_child; [apply Hwf| |exact Hp|by apply Z.mod_pos_bound|done].
  eapply IH; [|exact Hp]. lia.
Qed.

Lemma pt_pages_dom : list_to_set (pt_pages m 2 root) = dom T.
Proof using Hwf.
  apply set_eq. intros q. rewrite elem_of_list_to_set, elem_of_dom. split.
  - intros Hq. eapply pt_pages_desc in Hq as (k & pr & Hk & _); [|apply Hwf]. by rewrite Hk.
  - intros [[k pr] Hk]. by eapply pt_pages_complete.
Qed.

(** The walk passes through the pages of the address's prefixes. *)
Lemma pt_walk_through k q va : 0 ≤ va → T !! q = Some (k, va_prefix k va) →
  pt_walk m 2 root va = pt_walk m k q va.
Proof using Hwf.
  intros Hva. remember (2 - k)%nat as d eqn:Hd. revert q k Hd. induction d as [|d IH]; intros q k Hd Hq;
    destruct (pt_wf_parent q k _ Hq) as [(-> & -> & _)|(Hk & p & Hp & Hv & Ha)]; try done; [lia|].
  pose proof (PX_prefix k va Hva) as Hpx. pose proof (PX_range (Z.of_nat (S k)) va ltac:(lia)) as Hrg.
  assert (va_prefix k va / 512 = va_prefix (S k) va) as Hdv.
  { rewrite <- Hpx, Z.div_add_l, Z.div_small by lia. lia. }
  assert (va_prefix k va mod 512 = PX (Z.of_nat (S k)) va) as Hmd.
  { rewrite <- Hpx, Z.add_comm, Z.mod_add, Z.mod_small by lia. done. }
  rewrite Hdv in Hp. rewrite Hmd in Hv, Ha. rewrite (IH p (S k)) by (done || lia).
  cbn [pt_walk]. by rewrite Hv, Ha.
Qed.

Lemma pt_bare_of_get : (∀ va, 0 ≤ va < MAXVA → pte_valid (pt_get m root va) = false) → pt_bare m 2 root.
Proof using Hwf.
  intros Hz. assert (H : ∀ lv p pre, T !! p = Some (lv, pre) → pt_bare m lv p); [|eapply H; apply Hwf].
  induction lv as [|lv IH]; intros p pre Hp i Hi e.
  - destruct (pt_wf_bounded p 0 pre Hp) as (_ & Hpre & Hmax).
    set (va := (pre * 512 + i) * 4096). change (2 ^ (21 + 9 * Z.of_nat 0)) with 2097152 in Hmax.
    assert (Hva : 0 ≤ va < MAXVA) by (unfold va; pgunfold; lia).
    assert (Hvp : va_prefix 0 va = pre).
    { unfold va_prefix, va. change (2 ^ (21 + 9 * Z.of_nat 0)) with (4096 * 512).
      rewrite <- Z.div_div, Z.div_mul, Z.div_add_l, Z.div_small by lia. lia. }
    assert (Hpx : PX 0 va = i).
    { rewrite PX_div by lia. change (2 ^ (12 + 9 * 0)) with 4096. unfold va.
      rewrite Z.div_mul, Z.add_comm, Z.mod_add, Z.mod_small by lia. done. }
    specialize (Hz va Hva). unfold pt_get, pt_leaf in Hz.
    rewrite (pt_walk_through 0 p va) in Hz by (rewrite ?Hvp; done || lia).
    cbn [pt_walk] in Hz. by rewrite Hpx in Hz.
  - intros Hv. destruct Hwf as (_ & _ & _ & Hfl & _). split; [by apply (Hfl p lv pre)|].
    eapply IH. by apply pt_wf_child.
Qed.
End pages.

Section free.
Context {I : image} {IO : image_ok I} {PA : PageAllocator}.

(** ** freewalk() *)

Lemma freewalk_loop_leaf rec k s p i :
  (∀ j, i ≤ j < i + Z.of_nat k → pte_valid (load64 (ms_mem s) (p + 8 * j)) = false) →
  freewalk_loop rec k p i s = Ret tt s.
Proof.
  revert i. induction k as [|k IH]; intros i Hv; [done|]. cbn [freewalk_loop].
  unfold mload64, gets. unfold mbind at 1, M_bind at 1.
  fold (pte_valid (load64 (ms_mem s) (p + 8 * i))). rewrite Hv by lia. cbn [negb andb].
  apply IH. intros j Hj. apply Hv. lia.
Qed.

Definition freeable (F : gset Z) (l : list Z) : Prop :=
  NoDup l ∧ ∀ q, q ∈ l → page_ok q ∧ q ∉ F.

Definition freewalk_ok (lv : nat) : Prop := ∀ p s F,
  pa_inv s F → pt_bare (ms_mem s) lv p → freeable F (pt_pages (ms_mem s) lv p) → ∃ s',
  freewalk (S lv) p s = Ret tt s' ∧
  pa_inv s' (list_to_set (pt_pages (ms_mem s) lv p) ∪ F) ∧
  frame (list_to_set (pt_pages (ms_mem s) lv p)) (ms_mem s) (ms_mem s').

(** Storing into a page that is not free. *)
Lemma pa_store_outside s F p i v : pa_inv s F → page_ok p → p ∉ F → 0 ≤ i < 512 →
  pa_inv (set_mem (store64 (ms_mem s) (p + 8 * i) v) s) F.
Proof.
  intros Hpa Hp HF Hi. apply pa_frame; [done|]. intros q x Hq Hx. apply store64_out.
  assert (Hne : p ≠ q) by congruence. pose proof (pa_pages _ _ _ Hpa Hq) as Hqok.
  destruct (page_disjoint p q); try done; [apply Hp|apply Hqok|..]; unfold in_page, PGSIZE in *; lia.
Qed.

Lemma freewalk_loop_inner lv : freewalk_ok lv → ∀ k i p s F,
  0 ≤ i → i + Z.of_nat k ≤ 512 → pa_inv s F → page_ok p → p ∉ F →
  (∀ j, i ≤ j < i + Z.of_nat k → let e := load64 (ms_mem s) (p + 8 * j) in
     pte_valid e = true → PTE_FLAGS e = PTE_V ∧ pt_bare (ms_mem s) lv (PTE2PA e)) →
  let l := concat_from (pt_sub (ms_mem s) lv p) k i in
  freeable F l → p ∉ l → ∃ s',
  freewalk_loop (freewalk (S lv)) k p i s = Ret tt s' ∧
  pa_inv s' (list_to_set l ∪ F) ∧ frame ({[p]} ∪ list_to_set l) (ms_mem s) (ms_mem s').
Proof.
  intros IHlv. induction k as [|k IH]; intros i p s F Hi Hk Hpa Hp HpF Hch l Hfr Hpl.
  { exists s. split_and!; [done| |by intros ?]. unfold l. simpl. by rewrite union_empty_l_L. }
  cbn [freewalk_loop]. unfold mload64, gets. unfold mbind at 1, M_bind at 1.
  set (e := load64 (ms_mem s) (p + 8 * i)). fold (pte_valid e).
  subst l. cbn [concat_from] in *. set (l1 := pt_sub (ms_mem s) lv p i) in *.
  set (l2 := concat_from (pt_sub (ms_mem s) lv p) k (i + 1)) in *.
  destruct Hfr as [Hnd Hall]. apply NoDup_app in Hnd as (Hnd1 & Hd12 & Hnd2).
  rewrite not_elem_of_app in Hpl. destruct Hpl as [Hpl1 Hpl2].
  assert (Hfr2 : freeable F l2) by (split; [done|]; intros q Hq; apply Hall, elem_of_app; by right).
  destruct (pte_valid e) eqn:Ev.
  2: { cbn [negb andb]. assert (l1 = []) as -> by (unfold l1, pt_sub; fold e; by rewrite Ev).
       apply (IH (i + 1) p s F); try done; try lia. intros j Hj. apply Hch. lia. }
  destruct (Hch i ltac:(lia) Ev) as [Hfl Hbare]. fold e in Hfl, Hbare.
  rewrite (flags_V_no_rwx e Hfl). cbn [negb andb Z.eqb].
  assert (Hl1 : l1 = pt_pages (ms_mem s) lv (PTE2PA e)) by (unfold l1, pt_sub; fold e; by rewrite Ev).
  destruct (IHlv (PTE2PA e) s F Hpa Hbare) as (s1 & E1 & Hpa1 & Hf1).
  { rewrite <- Hl1. split; [done|]. intros q Hq. apply Hall, elem_of_app. by left. }
  rewrite <- Hl1 in Hpa1, Hf1. rewrite (bind_Ret _ _ _ _ _ E1).
  unfold mstore64, modify. unfold mbind, M_bind. set (s2 := set_mem _ s1).
  assert (HpF1 : p ∉ list_to_set l1 ∪ F) by (rewrite elem_of_union, elem_of_list_to_set; tauto).
  assert (Hpa2 : pa_inv s2 (list_to_set l1 ∪ F)) by (apply pa_store_outside; try done; lia).
  assert (Hal1 : ∀ q, q ∈ (list_to_set l1 : gset Z) → q mod PGSIZE = 0).
  { intros q Hq. rewrite elem_of_list_to_set in Hq. apply (Hall q), elem_of_app. by left. }
  assert (Hout : ∀ q x, q ∉ l1 → page_ok q → in_page q x → ms_mem s1 x = ms_mem s x).
  { intros q x Hq Hqok Hx. apply Hf1. intros q' Hq' Hx'. apply Hq.
    assert (q = q') as ->; [|by rewrite elem_of_list_to_set in Hq'].
    eapply in_page_unique; [apply Hqok|by apply Hal1|done|done]. }
  assert (Hslot : ∀ j, i + 1 ≤ j < i + 1 + Z.of_nat k →
    load64 (ms_mem s2) (p + 8 * j) = load64 (ms_mem s) (p + 8 * j)).
  { intros j Hj. cbn [s2 set_mem ms_mem]. rewrite load64_store64_ne by lia. apply load64_ext. intros x Hx.
    apply (Hout p); try done. unfold in_page, PGSIZE. lia. }
  assert (Hag : ∀ q x, q ∈ l2 → in_page q x → ms_mem s2 x = ms_mem s x).
  { intros q x Hq Hx. assert (Hqok : page_ok q) by (apply Hall, elem_of_app; by right).
    assert (p ≠ q) by congruence. simpl. rewrite store64_out.
    - apply (Hout q); try done. intros Hq1. by apply (Hd12 q).
    - destruct (page_disjoint p q); try done; [apply Hp|apply Hqok|..]; unfold in_page, PGSIZE in *; lia. }
  assert (Hsub2 : ∀ j, i + 1 ≤ j < i + 1 + Z.of_nat k → ∀ q, q ∈ pt_sub (ms_mem s) lv p j → q ∈ l2).
  { intros j Hj q Hq. apply elem_of_concat_from. by exists j. }
  assert (Hl2 : concat_from (pt_sub (ms_mem s2) lv p) k (i + 1) = l2).
  { apply concat_from_ext. intros j Hj. apply pt_sub_frame; [by apply Hslot|]. eauto. }
  destruct (IH (i + 1) p s2 (list_to_set l1 ∪ F)) as (s' & E & Hpa' & Hf'); try done; try lia.
  - intros j Hj. rewrite Hslot by done. intros Hv. destruct (Hch j ltac:(lia) Hv) as [Hfj Hbj].
    split; [done|]. apply (pt_pages_frame (ms_mem s)); [|done]. intros q x Hq. apply Hag.
    apply (Hsub2 j Hj). unfold pt_sub. by rewrite Hv.
  - rewrite Hl2. split; [done|]. intros q Hq. split; [by apply Hfr2|].
    rewrite elem_of_union, elem_of_list_to_set. intros [Hq1|Hq1]; [by apply (Hd12 q)|by apply (proj2 Hfr2 q)].
  - by rewrite Hl2.
  - rewrite Hl2 in Hpa', Hf'. exists s'. split_and!; [exact E| |].
    + rewrite list_to_set_app_L, (union_comm_L (list_to_set l1)), <- union_assoc_L. exact Hpa'.
    + rewrite list_to_set_app_L. intros x Hx. rewrite Hf' by (intros q Hq; apply Hx; clear -Hq; set_solver).
      simpl. rewrite store64_out.
      * apply Hf1. intros q Hq. apply Hx. clear -Hq. set_solver.
      * assert (¬ in_page p x) as Hpx by (apply Hx; clear; set_solver). unfold in_page, PGSIZE in Hpx. lia.
Qed.

Lemma freewalk_S depth p :
  freewalk (S depth) p = (freewalk_loop (freewalk depth) 512 p 0;; pa_kfree p).
Proof. done. Qed.

Lemma freewalk_spec lv : freewalk_ok lv.
Proof.
  induction lv as [|lv IH]; intros p s F Hpa Hb [Hnd Hall]; rewrite freewalk_S.
  - rewrite (bind_Ret _ _ _ _ _ (freewalk_loop_leaf _ 512 s p 0 (λ j Hj, Hb j Hj))).
    destruct (Hall p) as [Hp HpF]; [by left|].
    destruct (pa_kfree_ok s F p Hpa Hp HpF) as (s' & E & Hpa' & Hs). exists s'. simpl.
    rewrite union_empty_r_L. split_and!; [done|done|]. eapply same_outside_frame; [|done]. set_solver.
  - rewrite pt_pages_S in Hnd, Hall |- *. set (l := concat_from (pt_sub (ms_mem s) lv p) 512 0) in *.
    apply NoDup_app in Hnd as (Hnd & Hdp & _).
    destruct (Hall p) as [Hp HpF]; [apply elem_of_app; right; by left|].
    assert (Hpl : p ∉ l) by (intros Hp'; apply (Hdp p Hp'); by left).
    destruct (freewalk_loop_inner lv IH 512 0 p s F) as (s1 & E1 & Hpa1 & Hf1); try done; try lia.
    { split; [done|]. intros q Hq. apply Hall, elem_of_app. by left. }
    fold l in Hpa1, Hf1. clearbody l. rewrite (bind_Ret _ _ _ _ _ E1).
    destruct (pa_kfree_ok s1 (list_to_set l ∪ F) p Hpa1 Hp) as (s' & E & Hpa' & Hs).
    { rewrite elem_of_union, elem_of_list_to_set. tauto. }
    exists s'. split_and!; [done| |].
    + rewrite list_to_set_app_L. simpl. rewrite union_empty_r_L, (union_comm_L (list_to_set l)), <- union_assoc_L. done.
    + rewrite list_to_set_app_L. simpl. rewrite union_empty_r_L.
      eapply frame_trans; [eapply frame_mono; [|exact Hf1]; clear; set_solver|].
      eapply same_outside_frame; [|done]. clear. set_solver.
Qed.
(** ** uvmfree() *)

Lemma freewalk_table s F T root :
  vm_ok s F T root → (∀ va, 0 ≤ va < MAXVA → pte_valid (pt_get (ms_mem s) root va) = false) → ∃ s',
  freewalk 3 root s = Ret tt s' ∧ pa_inv s' (dom T ∪ F) ∧ frame (dom T) (ms_mem s) (ms_mem s').
Proof.
  intros (Hpa & Hwf & Hd) Hz. rewrite <- (pt_pages_dom (ms_mem s) T root Hwf).
  apply (freewalk_spec 2); [done|by eapply pt_bare_of_get|]. split.
  - eapply NoDup_pt_pages; [done|]. apply Hwf.
  - intros q Hq. assert (Hq' : q ∈ dom T).
    { rewrite <- (pt_pages_dom (ms_mem s) T root Hwf). by apply elem_of_list_to_set. }
    apply elem_of_dom in Hq'. split; [|by apply Hd]. destruct Hq' as [[lv pre] Hq'].
    destruct Hwf as (_ & Hok & _). by eapply Hok.
Qed.

Lemma uvmfree_spec s F T root sz es :
  vm_ok s F T root → 0 ≤ sz ≤ MAXVA → Z.of_nat (length es) = PGROUNDUP sz / PGSIZE →
  urange (ms_mem s) root 0 es → unmappable true F T es →
  (∀ va, PGROUNDUP sz ≤ va < MAXVA → pte_valid (pt_get (ms_mem s) root va) = false) → ∃ s',
  uvmfree root sz s = Ret tt s' ∧ pa_inv s' (dom T ∪ (freed true es ∪ F)) ∧
  frame (freed true es ∪ dom T) (ms_mem s) (ms_mem s').
Proof.
  intros Hok Hsz Hlen Hur Hun Hz. destruct (PGROUNDUP_range sz Hsz) as (Hb & Hal & Hmx).
  assert (Hend : Z.of_nat (length es) * PGSIZE = PGROUNDUP sz).
  { rewrite Hlen. unfold PGSIZE in *. pose proof (Z.div_mod (PGROUNDUP sz) 4096). lia. }
  assert (∃ s1, (if 0 <? sz then uvmunmap root 0 (PGROUNDUP sz / PGSIZE) true else mret tt) s = Ret tt s1 ∧
    vm_ok s1 (freed true es ∪ F) T root ∧ frame (freed true es ∪ dom T) (ms_mem s) (ms_mem s1) ∧
    unmapped (ms_mem s) (ms_mem s1) root 0 (length es)) as (s1 & E & Hok1 & Hf1 & Hum).
  { destruct (Z.ltb_spec 0 sz).
    - rewrite <- Hlen. apply uvmunmap_spec; try done. lia.
    - assert (length es = 0%nat) as Hl by (unfold PGSIZE in *; lia). apply nil_length_inv in Hl as ->.
      exists s. split_and!; [done|unfold freed; simpl; by rewrite union_empty_l_L|by intros ?|].
      intros va Hva. destruct (Z.ltb_spec va (0 + Z.of_nat (@length Z []) * PGSIZE)) as [Hlt|]; [simpl in Hlt; lia|].
      by rewrite andb_false_r. }
  unfold uvmfree. rewrite (bind_Ret _ _ _ _ _ E).
  destruct (freewalk_table s1 (freed true es ∪ F) T root Hok1) as (s' & E' & Hpa' & Hf').
  { intros va Hva. rewrite Hum by done. rewrite Hend.
    destruct (Z.leb_spec 0 va), (Z.ltb_spec va (0 + PGROUNDUP sz)); simpl; try lia; [done|]. apply Hz. lia. }
  exists s'. split_and!; [done|done|]. eapply frame_trans_union; [exact Hf1|exact Hf'|]. clear. set_solver.
Qed.

(** ** uvmcreate() *)

Lemma vm_ok_fresh s F root :
  pa_inv s F → page_ok root → root ∉ F → (∀ x, in_page root x → ms_mem s x = Byte.x00) →
  vm_ok s F {[root := (2%nat, 0)]} root ∧ ∀ va, pt_get (ms_mem s) root va = 0.
Proof.
  intros Hpa Hr HrF Hz.
  assert (He : ∀ i, 0 ≤ i < 512 → load64 (ms_mem s) (root + 8 * i) = 0).
  { intros i Hi. apply load64_zero. intros x Hx. apply Hz. unfold in_page, PGSIZE. lia. }
  assert (Hlk : ∀ p x, ({[root := (2%nat, 0)]} : gmap Z (nat * Z)) !! p = Some x → p = root ∧ x = (2%nat, 0)).
  { intros p x Hx. apply lookup_singleton_Some in Hx. naive_solver. }
  split.
  - split_and!; [done| |intros q [x Hx]; by apply Hlk in Hx as [-> _]].
    split_and!; [by rewrite lookup_singleton_eq|intros p lv pre Hp; by apply Hlk in Hp as [-> _]| |split_and!].
    + intros p lv pre i Hp Hi. apply Hlk in Hp as [-> _]. by rewrite He.
    + intros p lv pre i Hp Hi. apply Hlk in Hp as [-> _]. by rewrite He.
    + intros p lv pre Hp. by apply Hlk in Hp as [-> _].
    + intros p lv pre Hp. apply Hlk in Hp as [-> ?]. simplify_eq. split_and!; [lia|lia|done].
  - intros va. unfold pt_get, pt_leaf. cbn [pt_walk]. by rewrite He by (apply PX_range; lia).
Qed.

Lemma uvmcreate_spec s F : pa_inv s F →
  (F = ∅ ∧ uvmcreate s = Ret 0 s) ∨
  ∃ root s', uvmcreate s = Ret root s' ∧ root ∈ F ∧
    vm_ok s' (F ∖ {[root]}) {[root := (2%nat, 0)]} root ∧
    (∀ va, pt_get (ms_mem s') root va = 0) ∧ same_outside root (ms_mem s) (ms_mem s').
Proof.
  intros Hpa. unfold uvmcreate. destruct (decide (F = ∅)) as [->|Hne]; [left|right].
  { split; [done|]. by rewrite (bind_Ret _ _ _ _ _ (pa_kalloc_empty s Hpa)). }
  destruct (pa_kalloc_some s F Hpa Hne) as (p & s1 & Hp & E & Hpa1 & Hs).
  pose proof (pa_pages _ _ _ Hpa Hp) as Hpok. destruct (page_ok_pos p Hpok) as [? Hal].
  rewrite (bind_Ret _ _ _ _ _ E). destruct (Z.eqb_spec p 0); [lia|].
  set (s2 := set_mem (memset (ms_mem s1) p 0 PGSIZE) s1).
  assert (HpF : p ∉ F ∖ {[p]}) by (rewrite elem_of_difference, elem_of_singleton; naive_solver).
  assert (Hpa2 : pa_inv s2 (F ∖ {[p]})).
  { apply pa_frame; [done|]. intros q x Hq Hx. apply memset_same_outside. intros Hx'. apply HpF.
    assert (p = q) as <-; [|done]. eapply in_page_unique; [done| |done|done].
    by apply page_ok_pos; eapply pa_pages. }
  destruct (vm_ok_fresh s2 (F ∖ {[p]}) p) as [Hok Hg]; try done.
  { intros x Hx. by apply memset_in. }
  exists p, s2. split_and!; try done. eapply same_outside_trans; [done|]. apply memset_same_outside.
Qed.
End free.
