(* ===== verification/VmCopy.v ===== *)
(** * copyin(), copyout() and copyinstr(): correctness

    [uview m root va] is the byte a user program with the page table [root]
    sees at address [va], [None] when it is not mapped for the user.  The
    copy functions read and update user memory through this view. *)

From stdpp Require Import base gmap sets strings numbers list.
From coqutil Require Import Byte.
From S2P Require Import Prelude Mem Str Riscv Spinlock Kalloc Vm VmPt VmWalk VmMap VmUser.

Section copy.
Context {I : image} {IO : image_ok I} {PA : PageAllocator}.

(** What walkaddr() returns. *)
Definition upa (m : mem) (root va : Z) : Z := if MAXVA <=? va then 0 else user_page m root va.

Definition uview (m : mem) (root va : Z) : option byte :=
  let va0 := PGROUNDDOWN va in
  let pa0 := upa m root va0 in
  if pa0 =? 0 then None else Some (m (pa0 + (va - va0))).

(** User pages are pages of the allocator's, neither free nor part of the
    table, and each is mapped once. *)
Definition uspace_ok (m : mem) (F : gset Z) (T : gmap Z (nat * Z)) (root : Z) : Prop :=
  ∀ va, 0 ≤ va → upa m root va ≠ 0 → 
    page_ok (upa m root va) ∧ (upa m root va ∉ F) ∧ T !! (upa m root va) = None ∧
    ∀ va', 0 ≤ va' → upa m root va' = upa m root va → va' / PGSIZE = va / PGSIZE.

Lemma upa_same_get m m' root va : same_get m m' root → 0 ≤ va → upa m' root va = upa m root va.
Proof.
  intros Hsg Hva. unfold upa. destruct (Z.leb_spec MAXVA va); [done|]. unfold user_page. by rewrite (Hsg va) by lia.
Qed.

Lemma uspace_same_get m m' F T root : same_get m m' root → uspace_ok m F T root → uspace_ok m' F T root.
Proof.
  intros Hsg Hu va Hva. rewrite (upa_same_get m m') by done. intros Hne.
  destruct (Hu va Hva Hne) as (? & ? & ? & Hinj). split_and!; try done.
  intros va' Hva'. rewrite (upa_same_get m m') by done. by apply Hinj.
Qed.

Lemma PGROUNDDOWN_nonneg va : 0 ≤ va → 0 ≤ PGROUNDDOWN va.
Proof. intros. rewrite PGROUNDDOWN_div. pose proof (Z.div_pos va 4096). lia. Qed.

Lemma PGROUNDDOWN_same va i : PGROUNDDOWN va ≤ i < PGROUNDDOWN va + PGSIZE → PGROUNDDOWN i = PGROUNDDOWN va.
Proof. intros. apply PGROUNDDOWN_in; [apply PGROUNDDOWN_aligned|done]. Qed.

Lemma uview_same_page m root va i : PGROUNDDOWN va ≤ i < PGROUNDDOWN va + PGSIZE →
  uview m root i = if upa m root (PGROUNDDOWN va) =? 0 then None
                   else Some (m (upa m root (PGROUNDDOWN va) + (i - PGROUNDDOWN va))).
Proof. intros Hi. unfold uview. by rewrite (PGROUNDDOWN_same va i). Qed.

Lemma upa_below m root va : upa m root va ≠ 0 → va < MAXVA.
Proof. unfold upa. destruct (Z.leb_spec MAXVA va); done. Qed.

Lemma walkaddr_upa s T root va : pt_wf (ms_mem s) T root → 0 ≤ va →
  walkaddr root va s = Ret (upa (ms_mem s) root va) s.
Proof. apply walkaddr_spec. Qed.

(** ** copyin() *)

Definition reads (m : mem) (root va : Z) (bs : list byte) : Prop :=
  ∀ i b, bs !! i = Some b → uview m root (va + Z.of_nat i) = Some b.

Lemma reads_app m root va l1 l2 :
  reads m root va l1 → reads m root (va + Z.of_nat (length l1)) l2 → reads m root va (l1 ++ l2).
Proof.
  intros H1 H2 i b Hi. apply lookup_app_Some in Hi as [Hi|[Hle Hi]]; [by apply H1|].
  rewrite <- (H2 _ _ Hi). f_equal. lia.
Qed.

(** The part of the current page, from [va]. *)
Lemma chunk_facts va len : 0 < len →
  let n := PGSIZE - (va - PGROUNDDOWN va) in
  let n := if len <? n then len else n in
  0 < n ≤ len ∧ va + n ≤ PGROUNDDOWN va + PGSIZE ∧ (n = len ∨ va + n = PGROUNDDOWN va + PGSIZE).
Proof.
  intros Hl n0 n. pose proof (PGROUNDDOWN_bounds va). unfold n, n0.
  destruct (Z.ltb_spec len (PGSIZE - (va - PGROUNDDOWN va))); lia.
Qed.

Lemma reads_chunk m root va n : upa m root (PGROUNDDOWN va) ≠ 0 → 0 ≤ n →
  va + n ≤ PGROUNDDOWN va + PGSIZE →
  reads m root va (load_bytes m (upa m root (PGROUNDDOWN va) + (va - PGROUNDDOWN va)) (Z.to_nat n)).
Proof.
  intros Hu Hn Hle i b Hi. pose proof (lookup_lt_Some _ _ _ Hi) as Hlt. rewrite load_bytes_length in Hlt.
  rewrite load_bytes_lookup in Hi by done. simplify_eq. pose proof (PGROUNDDOWN_bounds va).
  rewrite (uview_same_page m root va) by lia. destruct (Z.eqb_spec (upa m root (PGROUNDDOWN va)) 0); [done|].
  do 2 f_equal. lia.
Qed.

Lemma uview_unmapped m root va : upa m root (PGROUNDDOWN va) = 0 → uview m root va = None.
Proof. intros Hu. unfold uview. by rewrite Hu. Qed.

(** The next page's address does not wrap around. *)
Lemma next_page m root va : upa m root (PGROUNDDOWN va) ≠ 0 → 0 ≤ va →
  u64 (PGROUNDDOWN va + PGSIZE) = PGROUNDDOWN va + PGSIZE.
Proof.
  intros Hu%upa_below Hva. apply PGROUNDDOWN_nonneg in Hva. apply u64_id. pgunfold. lia.
Qed.

Lemma copyin_loop_spec fuel s T root dst srcva len :
  pt_wf (ms_mem s) T root → 0 ≤ srcva → 0 ≤ len → (Z.to_nat len < fuel)%nat → ∃ r bs,
  copyin_loop fuel root dst srcva len s = Ret (r, dst ++ bs) s ∧
  reads (ms_mem s) root srcva bs ∧
  ((r = 0 ∧ Z.of_nat (length bs) = len) ∨
   (r = -1 ∧ Z.of_nat (length bs) < len ∧ uview (ms_mem s) root (srcva + Z.of_nat (length bs)) = None)).
Proof.
  intros Hwf. revert dst srcva len. induction fuel as [|fuel IH]; intros dst srcva len Hva Hlen Hf; [lia|].
  cbn [copyin_loop]. destruct (Z.ltb_spec 0 len).
  2: { exists 0, []. rewrite app_nil_r. split_and!; [done|by intros ?|]. left. split; [done|]. simpl. lia. }
  pose proof (PGROUNDDOWN_nonneg srcva Hva) as H0.
  rewrite (bind_Ret _ _ _ _ _ (walkaddr_upa s T root _ Hwf H0)).
  destruct (Z.eqb_spec (upa (ms_mem s) root (PGROUNDDOWN srcva)) 0) as [Hz|Hnz].
  { exists (-1), []. rewrite app_nil_r. split_and!; [done|by intros ?|]. right. simpl.
    split_and!; [done|lia|]. rewrite Z.add_0_r. by apply uview_unmapped. }
  destruct (chunk_facts srcva len) as (Hn & Hle & Hor); [done|].
  set (n := if len <? _ then len else _) in *. unfold gets. unfold mbind at 1, M_bind at 1.
  rewrite (next_page (ms_mem s) root) by done.
  set (bs := load_bytes _ _ _). assert (Hbl : Z.of_nat (length bs) = n).
  { unfold bs. rewrite load_bytes_length. lia. }
  assert (Hrd : reads (ms_mem s) root srcva bs) by (apply reads_chunk; done || lia).
  destruct (IH (dst ++ bs) (PGROUNDDOWN srcva + PGSIZE) (len - n)) as (r & bs' & E & Hrd' & Hr);
    [pgunfold; lia|lia|lia|].
  exists r, (bs ++ bs'). rewrite app_assoc. split; [exact E|]. rewrite length_app, Nat2Z.inj_add, Hbl.
  destruct Hor as [Hnl|Hnl].
  - assert (bs' = []) as -> by (apply nil_length_inv; lia). rewrite app_nil_r. split; [done|].
    left. destruct Hr as [[? ?]|(? & ? & ?)]; [|lia]. split; [done|]. simpl. lia.
  - rewrite <- Hnl in Hrd', Hr. split; [by apply reads_app; rewrite ?Hbl|].
    replace (srcva + (n + Z.of_nat (length bs'))) with (srcva + n + Z.of_nat (length bs')) by lia.
    destruct Hr as [[? ?]|(? & ? & ?)]; [left|right]; split_and!; try done; lia.
Qed.

(** ** copyinstr() *)

Lemma copyinstr_page_spec m p n bs g : copyinstr_page m p n = (bs, g) →
  if g : bool then ∃ l, bs = l ++ [Byte.x00] ∧ (Byte.x00 ∉ l) ∧ (length bs ≤ n)%nat ∧
                        bs = load_bytes m p (length bs)
  else bs = load_bytes m p n ∧ Byte.x00 ∉ bs.
Proof.
  revert p bs g. induction n as [|n IH]; intros p bs g Hc; cbn [copyinstr_page] in Hc.
  { simplify_eq. split; [done|]. apply not_elem_of_nil. }
  assert (Hlb : ∀ k, load_bytes m p (S k) = m p :: load_bytes m (p + 1) k).
  { intros k. unfold load_bytes. cbn [seq]. rewrite fmap_cons, Z.add_0_r. f_equal.
    rewrite <- fmap_S_seq, <- list_fmap_compose. apply list_fmap_ext. intros i x _. simpl. f_equal. lia. }
  destruct (Z.eqb_spec (load8 m p) 0) as [Hz|Hz].
  - simplify_eq. apply byte_unsigned_0 in Hz. exists []. simpl. split_and!; [done|apply not_elem_of_nil|lia|].
    by rewrite Hlb, Hz.
  - destruct (copyinstr_page m (p + 1) n) as [bs' g'] eqn:E. simplify_eq. specialize (IH _ _ _ E).
    assert (Hne : Byte.x00 ≠ m p) by (intros He; apply Hz, byte_unsigned_0; by rewrite He).
    destruct g.
    + destruct IH as (l & -> & Hl & Hle & Hb). exists (m p :: l). split_and!; [done| |simpl in *; lia|].
      * by apply not_elem_of_cons.
      * cbn [length]. by rewrite Hlb, <- Hb.
    + destruct IH as [-> Hl]. split; [by rewrite Hlb|]. by apply not_elem_of_cons.
Qed.

Lemma reads_prefix m root va l1 l2 : reads m root va (l1 ++ l2) → reads m root va l1.
Proof. intros H i b Hi. apply H. by apply lookup_app_l_Some. Qed.

Lemma load_bytes_prefix m p n k : (k ≤ n)%nat → load_bytes m p n = load_bytes m p k ++ drop k (load_bytes m p n).
Proof.
  intros Hk. rewrite <- (take_drop k (load_bytes m p n)) at 1. f_equal.
  unfold load_bytes. by rewrite <- fmap_take, take_seq, Nat.min_l.
Qed.

Lemma copyinstr_loop_spec fuel s T root dst srcva max :
  pt_wf (ms_mem s) T root → 0 ≤ srcva → 0 ≤ max → (Z.to_nat max < fuel)%nat → ∃ r bs,
  copyinstr_loop fuel root dst srcva max s = Ret (r, dst ++ bs) s ∧
  reads (ms_mem s) root srcva bs ∧ Z.of_nat (length bs) ≤ max ∧
  ((r = 0 ∧ ∃ l, bs = l ++ [Byte.x00] ∧ Byte.x00 ∉ l) ∨
   (r = -1 ∧ (Byte.x00 ∉ bs) ∧ (Z.of_nat (length bs) = max ∨
      uview (ms_mem s) root (srcva + Z.of_nat (length bs)) = None))).
Proof.
  intros Hwf. revert dst srcva max. induction fuel as [|fuel IH]; intros dst srcva max Hva Hmax Hf; [lia|].
  cbn [copyinstr_loop]. destruct (Z.ltb_spec 0 max).
  2: { exists (-1), []. rewrite app_nil_r. simpl. split_and!; [done|by intros ?|lia|].
       right. split_and!; [done|apply not_elem_of_nil|left; lia]. }
  pose proof (PGROUNDDOWN_nonneg srcva Hva) as H0.
  rewrite (bind_Ret _ _ _ _ _ (walkaddr_upa s T root _ Hwf H0)).
  destruct (Z.eqb_spec (upa (ms_mem s) root (PGROUNDDOWN srcva)) 0) as [Hz|Hnz].
  { exists (-1), []. rewrite app_nil_r. simpl. split_and!; [done|by intros ?|lia|]. right. 
    split_and!; [done|apply not_elem_of_nil|]. right. rewrite Z.add_0_r. by apply uview_unmapped. }
  destruct (chunk_facts srcva max) as (Hn & Hle & Hor); [done|].
  set (n := if max <? _ then max else _) in *. unfold gets. unfold mbind at 1, M_bind at 1.
  pose proof (reads_chunk (ms_mem s) root srcva n Hnz ltac:(lia) Hle) as Hrd.
  rewrite (next_page (ms_mem s) root) by done. set (p := upa _ _ _ + _) in *.
  destruct (copyinstr_page (ms_mem s) p (Z.to_nat n)) as [bs g] eqn:Ec.
  apply copyinstr_page_spec in Ec. destruct g.
  { destruct Ec as (l & Hbs & Hl & Hlen & Hbl). exists 0, bs. split; [done|].
    rewrite (load_bytes_prefix _ _ _ _ Hlen), <- Hbl in Hrd.
    split_and!; [by eapply reads_prefix|lia|]. left. split; [done|]. by exists l. }
  destruct Ec as [-> Hnn]. set (bs := load_bytes _ _ _) in *. assert (Hbl : Z.of_nat (length bs) = n).
  { unfold bs. rewrite load_bytes_length. lia. }
  destruct (IH (dst ++ bs) (PGROUNDDOWN srcva + PGSIZE) (max - n)) as (r & bs' & E & Hrd' & Hle' & Hr);
    [pgunfold; lia|lia|lia|].
  exists r, (bs ++ bs'). rewrite app_assoc. split; [exact E|]. rewrite length_app, Nat2Z.inj_add, Hbl.
  assert (Hfull : reads (ms_mem s) root srcva (bs ++ bs') ∧ (n = max ∧ bs' = [] ∨ srcva + n = PGROUNDDOWN srcva + PGSIZE)).
  { destruct Hor as [Hnl|Hnl].
    - assert (bs' = []) as -> by (apply nil_length_inv; lia). rewrite app_nil_r. split; [done|]. by left.
    - split; [|by right]. apply reads_app; [done|]. by rewrite Hbl, Hnl. }
  destruct Hfull as [Hfull Hcase]. split_and!; [done|lia|].
  destruct Hr as [(-> & l & -> & Hl)|(-> & Hnn' & Hend)]; [left|right]; (split; [done|]).
  - exists (bs ++ l). rewrite app_assoc. split; [done|]. rewrite elem_of_app. tauto.
  - split; [rewrite elem_of_app; tauto|].
    destruct Hcase as [[-> ->]|Hnl]; [left; simpl; lia|]. rewrite <- Hnl in Hend.
    destruct Hend as [Hend|Hend]; [left; lia|right]. rewrite <- Hend. f_equal. lia.
Qed.

(** ** copyout() *)

(** [m'] is [m] with the bytes [bs] at the user addresses from [va]. *)
Definition written (m m' : mem) (root va : Z) (bs : list byte) : Prop :=
  ∀ x, 0 ≤ x → uview m' root x =
    if (va <=? x) && (x <? va + Z.of_nat (length bs)) then bs !! Z.to_nat (x - va) else uview m root x.

Lemma written_app m1 m2 m3 root va l1 l2 :
  written m1 m2 root va l1 → written m2 m3 root (va + Z.of_nat (length l1)) l2 →
  written m1 m3 root va (l1 ++ l2).
Proof.
  intros H1 H2 x Hx. rewrite H2, H1 by done. rewrite length_app, Nat2Z.inj_add.
  destruct (Z.leb_spec (va + Z.of_nat (length l1)) x), (Z.leb_spec va x),
    (Z.ltb_spec x (va + Z.of_nat (length l1))),
    (Z.ltb_spec x (va + Z.of_nat (length l1) + Z.of_nat (length l2))),
    (Z.ltb_spec x (va + (Z.of_nat (length l1) + Z.of_nat (length l2)))); simpl; try lia; try done.
  - rewrite lookup_app_r by lia. f_equal. lia.
  - rewrite lookup_app_l by lia. done.
Qed.

Lemma written_nil m root va : written m m root va [].
Proof.
  intros x Hx. destruct (Z.leb_spec va x), (Z.ltb_spec x (va + Z.of_nat (@length byte []))) as [Hlt|]; simpl in *; try done; lia.
Qed.

Lemma uview_store s F T root va l :
  let pa0 := upa (ms_mem s) root (PGROUNDDOWN va) in
  let m' := store_bytes (ms_mem s) (pa0 + (va - PGROUNDDOWN va)) l in
  vm_ok s F T root → uspace_ok (ms_mem s) F T root → 0 ≤ va → pa0 ≠ 0 →
  va + Z.of_nat (length l) ≤ PGROUNDDOWN va + PGSIZE →
  vm_ok (set_mem m' s) F T root ∧ same_get (ms_mem s) m' root ∧ written (ms_mem s) m' root va l ∧
  same_outside pa0 (ms_mem s) m'.
Proof.
  intros pa0 m' Hok Hu Hva Hne Hle. pose proof (PGROUNDDOWN_bounds va) as Hb.
  pose proof (PGROUNDDOWN_nonneg va Hva) as Hd0.
  destruct (Hu _ Hd0 Hne) as (Hpok & HpF & HpT & Hinj). fold pa0 in Hpok, HpF, HpT, Hinj.
  assert (Hso : same_outside pa0 (ms_mem s) m').
  { intros x Hx. apply store_bytes_out. unfold in_page in Hx. lia. }
  destruct (vm_ok_outside s F T root pa0 m' Hok Hpok HpF HpT Hso) as [Hok' Hsg].
  split_and!; [done|done| |done]. intros x Hx. pose proof (PGROUNDDOWN_nonneg x Hx) as Hx0.
  pose proof (PGROUNDDOWN_bounds x) as Hbx.
  unfold uview. rewrite (upa_same_get (ms_mem s) m') by done.
  destruct (decide (PGROUNDDOWN x = PGROUNDDOWN va)) as [He|He].
  - rewrite He. fold pa0. destruct (Z.eqb_spec pa0 0); [done|].
    destruct (Z.leb_spec va x), (Z.ltb_spec x (va + Z.of_nat (length l))); simpl;
      try (f_equal; unfold m'; rewrite store_bytes_out by lia; done).
    destruct (lookup_lt_is_Some_2 l (Z.to_nat (x - va))) as [b Hlb]; [lia|]. rewrite Hlb. f_equal.
    unfold m'. rewrite <- (store_bytes_in (ms_mem s) (pa0 + (va - PGROUNDDOWN va)) l _ b Hlb). f_equal. lia.
  - assert (Hout : (va <=? x) && (x <? va + Z.of_nat (length l)) = false).
    { destruct (Z.leb_spec va x), (Z.ltb_spec x (va + Z.of_nat (length l))); simpl; try done.
      exfalso. apply He. apply PGROUNDDOWN_same. lia. }
    rewrite Hout. destruct (Z.eqb_spec (upa (ms_mem s) root (PGROUNDDOWN x)) 0) as [|Hxz]; [done|].
    f_equal. apply Hso. intros Hin. apply He.
    destruct (Hu _ Hx0 Hxz) as (Hxok & _).
    assert (upa (ms_mem s) root (PGROUNDDOWN x) = pa0) as Heq.
    { eapply in_page_unique; [apply Hxok|apply Hpok| |exact Hin]. unfold in_page. lia. }
    apply Hinj in Heq; [|done]. pose proof (PGROUNDDOWN_aligned x) as Ha1. pose proof (PGROUNDDOWN_aligned va) as Ha2.
    unfold PGSIZE in *. pose proof (Z.div_mod (PGROUNDDOWN x) 4096). pose proof (Z.div_mod (PGROUNDDOWN va) 4096). lia.
Qed.

Lemma copyout_loop_spec fuel s F T root dstva src :
  vm_ok s F T root → uspace_ok (ms_mem s) F T root → 0 ≤ dstva → (length src < fuel)%nat → ∃ r s' n,
  copyout_loop fuel root dstva src s = Ret r s' ∧
  vm_ok s' F T root ∧ same_get (ms_mem s) (ms_mem s') root ∧
  written (ms_mem s) (ms_mem s') root dstva (take n src) ∧
  ((r = 0 ∧ n = length src) ∨
   (r = -1 ∧ (n < length src)%nat ∧ uview (ms_mem s) root (dstva + Z.of_nat n) = None)).
Proof.
  revert s dstva src. induction fuel as [|fuel IH]; intros s dstva src Hok Hu Hva Hf; [lia|].
  cbn [copyout_loop]. destruct (Z.ltb_spec 0 (Z.of_nat (length src))).
  2: { exists 0, s, 0%nat. split_and!; [done|done|by intros ?|apply written_nil|]. left. split; [done|lia]. }
  pose proof (PGROUNDDOWN_nonneg dstva Hva) as H0. pose proof Hok as (_ & Hwf & _).
  rewrite (bind_Ret _ _ _ _ _ (walkaddr_upa s T root _ Hwf H0)).
  destruct (Z.eqb_spec (upa (ms_mem s) root (PGROUNDDOWN dstva)) 0) as [Hz|Hnz].
  { exists (-1), s, 0%nat. split_and!; [done|done|by intros ?|apply written_nil|]. right.
    split_and!; [done|lia|]. rewrite Z.add_0_r. by apply uview_unmapped. }
  destruct (chunk_facts dstva (Z.of_nat (length src))) as (Hn & Hle & Hor); [done|].
  set (n := if _ <? _ then _ else _) in *.
  unfold modify. unfold mbind at 1, M_bind at 1. rewrite (next_page (ms_mem s) root) by done.
  assert (Htl : length (take (Z.to_nat n) src) = Z.to_nat n) by (rewrite length_take; lia).
  destruct (uview_store s F T root dstva (take (Z.to_nat n) src)) as (Hok1 & Hsg1 & Hw1 & _); try done; [lia|].
  set (m1 := store_bytes _ _ _) in *.
  destruct (IH (set_mem m1 s) (PGROUNDDOWN dstva + PGSIZE) (drop (Z.to_nat n) src))
    as (r & s' & k & E & Hok' & Hsg' & Hw' & Hr); [done|by eapply uspace_same_get|pgunfold; lia|rewrite length_drop; lia|].
  cbn [set_mem ms_mem] in *. exists r, s', (Z.to_nat n + k)%nat. split; [exact E|]. split; [done|].
  rewrite length_drop in Hr.
  assert (Hsg : same_get (ms_mem s) (ms_mem s') root) by (intros va' Hva'; rewrite Hsg' by done; by apply Hsg1).
  assert (Htk : take (Z.to_nat n + k) src = take (Z.to_nat n) src ++ take k (drop (Z.to_nat n) src)).
  { by rewrite take_take_drop. }
  rewrite Htk. destruct Hor as [Hnl|Hnl].
  - assert (Hdn : drop (Z.to_nat n) src = []) by (apply drop_ge; lia). rewrite Hdn in *. rewrite take_nil in *.
    rewrite app_nil_r. split_and!; [done| |].
    + intros x Hx. rewrite Hw' by done. simpl. rewrite Z.add_0_r.
      destruct (Z.leb_spec (PGROUNDDOWN dstva + PGSIZE) x), (Z.ltb_spec x (PGROUNDDOWN dstva + PGSIZE)); simpl;
        try lia; by apply Hw1.
    + left. destruct Hr as [[-> ?]|(? & ? & _)]; [|lia]. split; [done|lia].
  - rewrite <- Hnl in Hw', Hr. split_and!; [done| |].
    + eapply written_app; [exact Hw1|]. rewrite Htl, Z2Nat.id by lia. exact Hw'.
    + destruct Hr as [[-> ?]|(-> & ? & Hv)]; [left; split; [done|lia]|right; split_and!; [done|lia|]].
      rewrite Hw1 in Hv by lia. rewrite Htl in Hv.
      destruct (Z.ltb_spec (dstva + n + Z.of_nat k) (dstva + Z.of_nat (Z.to_nat n))); [lia|].
      rewrite andb_false_r in Hv. rewrite <- Hv. f_equal. lia.
Qed.

End copy.
