(* ===== verification/VmThms.v ===== *)
(** * kernel/vm.c: properties

    The theorems about virtual memory, for any page allocator that satisfies
    [PageAllocator]; the witnesses instantiate it with kalloc.c and the
    addresses of the kernel.sym in the repository. *)

From stdpp Require Import base gmap sets strings numbers list.
From coqutil Require Import Byte.
From S2P Require Import Prelude Mem Str Riscv Spinlock Kalloc Vm VmPt VmWalk VmMap VmUser VmFree VmCopy.

(** ** Small concrete memories for the witnesses *)

Module VmDemo.

Definition root : Z := 0x87000000.
Definition w1 : Z := 0x87001000.
Definition w2 : Z := 0x87002000.
Definition w3 : Z := 0x87003000.
Definition w4 : Z := 0x87004000.
Definition w5 : Z := 0x87005000.
Definition zeros : mem := λ _, Byte.x00.

(** An empty page table at [root], and four free pages. *)
Definition free4_mem : mem := store64 (store64 (store64 zeros w1 w2) w2 w3) w3 w4.
Definition free4 : mstate := MState free4_mem false w1.
Definition free4_pages : gset Z := list_to_set [w1; w2; w3; w4].

(** A page table at [root] that maps the user page [w3] at address 0, with
    [w4] free. *)
Definition mapped_mem : mem :=
  store64 (store64 (store64 zeros root (Z.lor (PA2PTE w1) PTE_V)) w1 (Z.lor (PA2PTE w2) PTE_V))
    w2 (pte_entry w3 (Z.lor (Z.lor PTE_R PTE_W) PTE_U)).
Definition mapped1 : mstate := MState mapped_mem false w4.
Definition mapped_table : gmap Z (nat * Z) := {[root := (2%nat, 0); w1 := (1%nat, 0); w2 := (0%nat, 0)]}.
Definition mapped_entry : Z := pte_entry w3 (Z.lor (Z.lor PTE_R PTE_W) PTE_U).

#[export] Instance img : image := image_sym.
#[export] Instance img_ok : image_ok img := image_sym_ok.

(** Case analysis on membership in a concrete list. *)
Ltac demo_cases H :=
  repeat (apply elem_of_cons in H as [->|H]); [..|by apply not_elem_of_nil in H].

Lemma demo_page_ok p : p ∈ [root; w1; w2; w3; w4; w5] → page_ok p.
Proof. intros Hp. demo_cases Hp; by vm_compute. Qed.

Lemma free4_inv : kmem_inv free4 free4_pages.
Proof.
  exists [w1; w2; w3; w4]. split; [|done]. split_and!; [|by apply (bool_decide_unpack _); vm_compute|done].
  repeat (split_and!; [by vm_compute|apply demo_page_ok; by apply (bool_decide_unpack _); vm_compute|]).
  by vm_compute.
Qed.

Lemma free4_ok : vm_ok free4 free4_pages {[root := (2%nat, 0)]} root ∧ ∀ va, pt_get (ms_mem free4) root va = 0.
Proof.
  apply vm_ok_fresh; [exact free4_inv|apply demo_page_ok; by left| |].
  - by apply (bool_decide_unpack _); vm_compute.
  - intros x Hx. unfold in_page, root, PGSIZE in Hx. simpl. unfold free4_mem.
    rewrite !store64_out by (unfold w1, w2, w3; lia). done.
Qed.

Lemma mapped_load p i : p ∈ [root; w1; w2] → 0 ≤ i < 512 → load64 mapped_mem (p + 8 * i) =
  if decide (i = 0) then
    if decide (p = root) then Z.lor (PA2PTE w1) PTE_V
    else if decide (p = w1) then Z.lor (PA2PTE w2) PTE_V else mapped_entry
  else 0.
Proof.
  intros Hp Hi. unfold mapped_mem. case_decide as H0.
  - subst i. rewrite Z.mul_0_r, Z.add_0_r.
    demo_cases Hp; by vm_compute.
  - demo_cases Hp; (rewrite !load64_store64_ne by (unfold root, w1, w2; lia); by vm_compute).
Qed.

Lemma mapped_lookup p lv pre : mapped_table !! p = Some (lv, pre) →
  p ∈ [root; w1; w2] ∧ pre = 0 ∧ (lv = if decide (p = root) then 2 else if decide (p = w1) then 1 else 0)%nat.
Proof.
  unfold mapped_table. rewrite !lookup_insert_Some, lookup_singleton_Some.
  intros [[<- ?]|[? [[<- ?]|[? [<- ?]]]]]; try done; simplify_eq; split_and!; try done; set_solver.
Qed.

Lemma mapped_wf : pt_wf mapped_mem mapped_table root.
Proof.
  split_and!; [done| | |split_and!].
  - intros p lv pre (Hp & _)%mapped_lookup. apply demo_page_ok. set_solver.
  - intros p lv pre i (Hp & -> & Hlv)%mapped_lookup Hi. rewrite mapped_load by done.
    destruct (decide (i = 0)) as [->|]; [|by intros ?].
    demo_cases Hp; intros _; vm_compute in Hlv |- *; congruence.
  - intros p lv pre i (Hp & -> & Hlv)%mapped_lookup Hi. rewrite mapped_load by done.
    destruct (decide (i = 0)) as [->|]; [|by intros ?].
    demo_cases Hp; intros _; vm_compute in Hlv |- *; congruence.
  - intros p lv pre (Hp & -> & Hlv)%mapped_lookup Hr. rewrite decide_False in Hlv by done.
    demo_cases Hp; [done|exists root|exists w1]; subst lv;
      (split; [done|]; rewrite mapped_load by (set_solver || done); by vm_compute).
  - intros p lv pre (Hp & -> & Hlv)%mapped_lookup. subst lv.
    demo_cases Hp; (split_and!; [vm_compute; lia|lia|by vm_compute]).
Qed.

Lemma mapped_kmem : kmem_inv mapped1 {[w4]}.
Proof.
  exists [w4]. split; [|set_solver]. split_and!; [|apply NoDup_singleton|done].
  split_and!; [done|apply demo_page_ok; set_solver|by vm_compute].
Qed.

Lemma mapped_ok : vm_ok mapped1 {[w4]} mapped_table root.
Proof.
  split_and!; [exact mapped_kmem|exact mapped_wf|].
  intros q [[lv pre] (Hq & _)%mapped_lookup] Hq4%elem_of_singleton. subst q.
  repeat (apply elem_of_cons in Hq as [Hq|Hq]; [done|]). by apply not_elem_of_nil in Hq.
Qed.

(** Only page 0 is mapped. *)
Lemma mapped_get va : 0 ≤ va < MAXVA → pt_get mapped_mem root va = if va <? PGSIZE then mapped_entry else 0.
Proof.
  intros Hva. destruct (Z.ltb_spec va PGSIZE) as [Hlt|Hge].
  { rewrite (pt_get_vpage _ _ va 0); [by vm_compute|]. rewrite Z.div_small by lia. done. }
  unfold pt_get, pt_leaf. cbn [pt_walk].
  assert (Hr : ∀ l, 0 ≤ l → 0 ≤ PX l va < 512) by (intros; by apply PX_range).
  rewrite (mapped_load root) by (set_solver || (apply Hr; lia)).
  destruct (decide (PX (Z.of_nat 2) va = 0)) as [H2|]; [|done].
  rewrite decide_True by done. destruct (new_pte_facts w1) as (_ & -> & ->); [apply demo_page_ok; set_solver|].
  rewrite (mapped_load w1) by (set_solver || (apply Hr; lia)).
  destruct (decide (PX (Z.of_nat 1) va = 0)) as [H1|]; [|done].
  rewrite decide_False, decide_True by done.
  destruct (new_pte_facts w2) as (_ & -> & ->); [apply demo_page_ok; set_solver|].
  rewrite (mapped_load w2) by (set_solver || (apply Hr; lia)).
  destruct (decide (PX 0 va = 0)) as [H0|]; [|done]. exfalso.
  rewrite PX_div in H0, H1, H2 by lia. change (Z.of_nat 2) with 2 in *. change (Z.of_nat 1) with 1 in *.
  pgunfold. change (2 ^ (12 + 9 * 2)) with (4096 * 512 * 512) in H2.
  change (2 ^ (12 + 9 * 1)) with (4096 * 512) in H1. change (2 ^ (12 + 9 * 0)) with 4096 in H0.
  rewrite <- !Z.div_div in H2 by lia. rewrite <- Z.div_div in H1 by lia.
  pose proof (Z.div_mod va 4096). pose proof (Z.mod_pos_bound va 4096).
  pose proof (Z.div_mod (va / 4096) 512). pose proof (Z.div_mod (va / 4096 / 512) 512).
  assert (0 ≤ va / 4096 / 512 / 512 < 512).
  { rewrite !Z.div_div by lia. split; [apply Z.div_pos; lia|apply Z.div_lt_upper_bound; lia]. }
  rewrite Z.mod_small in H2 by done. lia.
Qed.

Lemma mapped_upa va : 0 ≤ va → upa mapped_mem root va = if va <? PGSIZE then w3 else 0.
Proof.
  intros Hva. unfold upa, user_page. destruct (Z.leb_spec MAXVA va).
  - destruct (Z.ltb_spec va PGSIZE); [pgunfold; lia|done].
  - rewrite mapped_get by lia. destruct (Z.ltb_spec va PGSIZE); by vm_compute.
Qed.

Lemma mapped_uspace : uspace_ok (ms_mem mapped1) {[w4]} mapped_table root.
Proof.
  intros va Hva. simpl. rewrite mapped_upa by done. destruct (Z.ltb_spec va PGSIZE) as [Hlt|]; [|done].
  intros _. split_and!; [apply demo_page_ok; set_solver|set_solver|done|].
  intros va' Hva'. rewrite mapped_upa by done. destruct (Z.ltb_spec va' PGSIZE); [|done].
  intros _. rewrite !Z.div_small by lia. done.
Qed.

End VmDemo.

(** ** Properties *)

Section thms.
Context {I : image} {IO : image_ok I} {PA : PageAllocator}.

(** mappages() on an unmapped range returns 0 with every page of the
    range mapped to the corresponding physical page with the given
    permissions, or -1 when memory for page-table pages has run out, with a
    prefix of the range mapped; no other translation changes, the table stays
    well-formed, and pages only move from the free set to the table. *)
Theorem mappages_maps s F T root va size pa perm :
  vm_ok s F T root → 0 ≤ va → 0 < size → va + size ≤ MAXVA →
  0 ≤ pa → pa + size + PGSIZE < 2 ^ 54 → pa mod PGSIZE = 0 → 0 ≤ perm < 1024 →
  (∀ j, (j ≤ map_count va size)%nat →
     pte_valid (pt_get (ms_mem s) root (PGROUNDDOWN va + Z.of_nat j * PGSIZE)) = false) →
  ∃ r s' F' T' j, mappages root va size pa perm s = Ret r s' ∧
    pt_ext s F T s' F' T' root ∧
    mapped_to (ms_mem s) (ms_mem s') root (PGROUNDDOWN va) j pa perm ∧
    ((r = 0 ∧ j = S (map_count va size)) ∨ (r = -1 ∧ (j ≤ map_count va size)%nat ∧ F' = ∅)).
Proof.
  intros Hok Hva Hs Hm Hpa Hp Hal Hperm Hun.
  destruct (mappages_spec s F T root va size pa perm Hok Hva Hs Hm Hpa Hp Hal Hperm Hun) as (r & s' & F' & T' & j & E & _ & H). by exists r, s', F', T', j.
Qed.

(** uvmunmap() of mapped leaf pages returns with exactly those
    translations removed; with do_free every page they mapped is back in the
    allocator, and nothing else is. *)
Theorem uvmunmap_unmaps do_free es s F T root va :
  vm_ok s F T root → 0 ≤ va → va mod PGSIZE = 0 →
  va + Z.of_nat (length es) * PGSIZE ≤ MAXVA →
  urange (ms_mem s) root va es → unmappable do_free F T es →
  ∃ s', uvmunmap root va (Z.of_nat (length es)) do_free s = Ret tt s' ∧
    vm_ok s' (freed do_free es ∪ F) T root ∧
    frame (freed do_free es ∪ dom T) (ms_mem s) (ms_mem s') ∧
    unmapped (ms_mem s) (ms_mem s') root va (length es).
Proof. apply uvmunmap_spec. Qed.

(** uvmalloc() either returns newsz, having mapped from PGROUNDUP(oldsz)
    fresh, pairwise distinct, zeroed pages with permissions R|U|xperm and
    changed no other translation, or returns 0 and is undone: every
    translation is as before, and of the free pages only those that were made
    page-table pages are taken; with more than three free
    pages for each page added it does not fail. *)
Theorem uvmalloc_all_or_nothing s F T root oldsz newsz xperm :
  vm_ok s F T root → 0 ≤ oldsz ≤ newsz → newsz ≤ MAXVA → 0 ≤ xperm < 1024 →
  uvm_room (ms_mem s) root oldsz newsz → ∃ r s' F' T',
  uvmalloc root oldsz newsz xperm s = Ret r s' ∧
  ((r = newsz ∧ (size F ≤ size F' + 3 * uvm_pages oldsz newsz)%nat ∧ ∃ ps, length ps = uvm_pages oldsz newsz ∧
      alloced s F T root (PGROUNDUP oldsz) (uvm_perm xperm) zero_page s' F' T' ps) ∨
   (r = 0 ∧ undone s F T root s' F' T' ∧ (size F ≤ 3 * uvm_pages oldsz newsz)%nat)).
Proof. apply uvmalloc_spec. Qed.

(** When pages are unmapped again, the page-table pages made for them are what
    is missing of the free pages. *)
Lemma undone_free s F T root s' F' T' : vm_ok s F T root → undone s F T root s' F' T' → T ⊆ T' ∧ F' = F ∖ dom T'.
Proof.
  intros (_ & _ & HF) ((_ & _ & HF') & Hsub & Hdom & _). split; [done|]. apply subseteq_dom in Hsub.
  assert (Hd : ∀ q, q ∈ dom T → q ∉ F) by (intros q Hq; apply HF; by apply elem_of_dom).
  assert (Hd' : ∀ q, q ∈ dom T' → q ∉ F') by (intros q Hq; apply HF'; by apply elem_of_dom).
  apply set_eq. intros q. assert (Hq : q ∈ F' ∪ dom T' ↔ q ∈ F ∪ dom T) by (by rewrite Hdom). specialize (Hd q). specialize (Hd' q). specialize (Hsub q). set_solver.
Qed.

(** C15: uvmcopy() either returns 0, having given the child, for every page of
    the parent, a fresh page with the same contents and the same flags, or
    returns -1, which does not happen with more than three free pages for each
    page copied.  Then every page it had copied is unmapped and free again and
    every translation of the child is as before; the page-table pages that
    were allocated on the way stay in the child's table, and are all that is
    missing of the free pages.  In both cases the parent's translations and
    memory are untouched. *)
Theorem uvmcopy_all_or_nothing s F T old new sz es To :
  vm_ok s F T new → parent_space (ms_mem s) old To es (F ∪ dom T) →
  0 ≤ sz ≤ MAXVA → length es = uvm_pages 0 sz → uvm_room (ms_mem s) new 0 sz → ∃ r s' F' T',
  uvmcopy old new sz s = Ret r s' ∧
  ((r = 0 ∧ ∃ ps, length ps = length es ∧
      alloced s F T new 0 (copy_perm es) (copy_page (ms_mem s) es) s' F' T' ps) ∨
   (r = -1 ∧ undone s F T new s' F' T' ∧ T ⊆ T' ∧ F' = F ∖ dom T' ∧ (size F ≤ 3 * length es)%nat)) ∧
  ∀ i e, es !! i = Some e → pt_get (ms_mem s') old (Z.of_nat i * PGSIZE) = e ∧
    ∀ x, 0 ≤ x < PGSIZE → ms_mem s' (PTE2PA e + x) = ms_mem s (PTE2PA e + x).
Proof.
  intros Hok Hpar Hsz Hlen Hroom. destruct (PGROUNDUP_range sz Hsz) as (Hb & Hal & Hmx).
  assert (Hr0 : PGROUNDUP 0 = 0) by done.
  assert (Hend : Z.of_nat (length es) * PGSIZE = PGROUNDUP sz).
  { rewrite Hlen. rewrite <- (uvm_pages_end 0 sz) by lia. lia. }
  assert (Hpre : alloc_pre s new 0 (length es) (copy_perm es)).
  { split_and!; [done|done|lia| |intros va Hva; apply Hroom; lia].
    intros i Hi. destruct (lookup_lt_is_Some_2 _ _ Hi) as [e He].
    destruct Hpar as (_ & _ & _ & Hall). rewrite Forall_lookup in Hall.
    destruct (Hall i e He) as [[Hv Hfl] _]. unfold copy_perm. rewrite (list_lookup_total_correct _ _ _ He).
    rewrite lor_flags_V by done. split; [|done]. unfold PTE_FLAGS. change 1023 with (Z.ones 10).
    rewrite Z.land_ones by lia. apply Z.mod_pos_bound. lia. }
  destruct (uvmcopy_loop_spec s F T old new sz es To Hpre) with (k := length es)
    (fuel := S (S (Z.to_nat (sz / PGSIZE)))) (s := s) (F := F) (T := T) (ps := @nil Z)
    as (r & s' & F' & T' & E & Hr); try done.
  - intros i. rewrite Hlen, <- (uvm_pages_spec 0 sz) by lia. lia.
  - by apply alloced_init.
  - simpl. lia.
  - unfold PGSIZE in *. pose proof (Z.div_mod sz 4096). pose proof (Z.mod_pos_bound sz 4096). lia.
  - exists r, s', F', T'. split; [exact E|]. split.
    { destruct Hr as [Hr|(Hr & Hun & Hsz')]; [by left|right]. destruct (undone_free _ _ _ _ _ _ _ Hok Hun) as [H1 H2]. by split_and!. }
    intros i e He.
    assert (Hfr : frame (F ∪ dom T) (ms_mem s) (ms_mem s')).
    { destruct Hr as [(_ & ps & _ & (_ & _ & _ & _ & Hfr & _))|(_ & (_ & _ & _ & Hfr & _) & _)]; exact Hfr. }
    destruct (parent_frame s F T old new es To Hpre Hpar (ms_mem s') i e Hfr
      (λ q, vm_ok_aligned new s F T q Hok) He) as (_ & Hg & Hc). by split.
Qed.

(** C27: uvmfree() of a process's address space of size sz returns every page
    it owned to the allocator: the user pages and all the page-table pages. *)
Theorem uvmfree_returns_all s F T root sz es :
  vm_ok s F T root → 0 ≤ sz ≤ MAXVA → Z.of_nat (length es) = PGROUNDUP sz / PGSIZE →
  urange (ms_mem s) root 0 es → unmappable true F T es →
  (∀ va, PGROUNDUP sz ≤ va < MAXVA → pte_valid (pt_get (ms_mem s) root va) = false) → ∃ s',
  uvmfree root sz s = Ret tt s' ∧ pa_inv s' (dom T ∪ (freed true es ∪ F)) ∧
  frame (freed true es ∪ dom T) (ms_mem s) (ms_mem s').
Proof. apply uvmfree_spec. Qed.

(** copyout() returns 0 exactly when all the bytes were written, and then
    the user's memory is as before except for those bytes; it returns -1 at
    the first address that is not mapped for the user, having written the
    bytes before it.  No translation and no allocator state changes. *)
Theorem copyout_writes s F T root dstva src :
  vm_ok s F T root → uspace_ok (ms_mem s) F T root → 0 ≤ dstva → ∃ r s' n,
  copyout root dstva src s = Ret r s' ∧
  vm_ok s' F T root ∧ same_get (ms_mem s) (ms_mem s') root ∧
  written (ms_mem s) (ms_mem s') root dstva (take n src) ∧
  ((r = 0 ∧ n = length src) ∨
   (r = -1 ∧ (n < length src)%nat ∧ uview (ms_mem s) root (dstva + Z.of_nat n) = None)).
Proof. intros Hok Hu Hva. apply copyout_loop_spec; try done. lia. Qed.

(** What copyout() stored at a user address, copyin() reads back. *)
Theorem copyout_copyin_roundtrip s F T root va bs s' :
  vm_ok s F T root → uspace_ok (ms_mem s) F T root → 0 ≤ va →
  copyout root va bs s = Ret 0 s' →
  copyin root va (Z.of_nat (length bs)) s' = Ret (0, bs) s'.
Proof.
  intros Hok Hu Hva E.
  destruct (copyout_loop_spec (S (length bs)) s F T root va bs) as (r & s2 & n & E2 & Hok2 & _ & Hw & Hr);
    try done; [lia|]. unfold copyout in E. rewrite E in E2. simplify_eq.
  destruct Hr as [[_ ->]|(? & _)]; [|done]. rewrite firstn_all in Hw.
  assert (Hview : ∀ i b, bs !! i = Some b → uview (ms_mem s2) root (va + Z.of_nat i) = Some b).
  { intros i b Hi. pose proof (lookup_lt_Some _ _ _ Hi). rewrite Hw by lia.
    destruct (Z.leb_spec va (va + Z.of_nat i)); [|lia].
    destruct (Z.ltb_spec (va + Z.of_nat i) (va + Z.of_nat (length bs))); [|lia]. simpl.
    by replace (Z.to_nat (va + Z.of_nat i - va)) with i by lia. }
  destruct (copyin_loop_spec (S (Z.to_nat (Z.of_nat (length bs)))) s2 T root [] va (Z.of_nat (length bs)))
    as (r & bs' & E' & Hrd & Hr); [apply Hok2|done|lia|lia|]. simpl app in E'.
  unfold copyin. rewrite E'. destruct Hr as [[-> Hl]|(_ & Hl & Hn)].
  - do 2 f_equal. apply list_eq_same_length with (length bs); [done|lia|].
    intros i x y Hi Hx Hy. apply Hrd in Hx. apply Hview in Hy. congruence.
  - destruct (lookup_lt_is_Some_2 bs (length bs')) as [b Hb]; [lia|]. apply Hview in Hb. congruence.
Qed.

(** copyinstr() returns 0 with a NUL-terminated string read from user
    memory, or -1 when max bytes without a NUL were read or an unmapped
    address was met; it never reads more than max bytes and changes nothing. *)
Theorem copyinstr_reads_string s T root srcva max :
  pt_wf (ms_mem s) T root → 0 ≤ srcva → 0 ≤ max → ∃ r bs,
  copyinstr root srcva max s = Ret (r, bs) s ∧
  reads (ms_mem s) root srcva bs ∧ Z.of_nat (length bs) ≤ max ∧
  ((r = 0 ∧ ∃ l, bs = l ++ [Byte.x00] ∧ Byte.x00 ∉ l) ∨
   (r = -1 ∧ (Byte.x00 ∉ bs) ∧ (Z.of_nat (length bs) = max ∨
      uview (ms_mem s) root (srcva + Z.of_nat (length bs)) = None))).
Proof. intros Hwf Hva Hm. apply (copyinstr_loop_spec _ s T root []); try done. lia. Qed.
End thms.

(** ** Witnesses *)

Section witnesses.
Import VmDemo.

Lemma mappages_maps_witness : ∃ r s', mappages root 4096 8192 KERNBASE (Z.lor PTE_R PTE_W) free4 = Ret r s'.
Proof.
  destruct (mappages_maps free4 free4_pages {[root := (2%nat, 0)]} root 4096 8192 KERNBASE (Z.lor PTE_R PTE_W))
    as (r & s' & F' & T' & j & E & _).
  - apply free4_ok.
  - done.
  - done.
  - done.
  - done.
  - done.
  - done.
  - done.
  - intros j _. destruct free4_ok as [_ Hg]. by rewrite Hg.
  - by exists r, s'.
Defined.

Lemma mapped_range : urange (ms_mem mapped1) root 0 [mapped_entry].
Proof.
  intros [|j] e Hj; simplify_eq/=. rewrite mapped_get by done. done.
Qed.

Lemma mapped_unmappable : unmappable true {[w4]} mapped_table [mapped_entry].
Proof.
  split; [apply Forall_singleton; by split; vm_compute|]. intros _.
  split; [|apply NoDup_singleton]. apply Forall_singleton.
  assert (Hp : PTE2PA mapped_entry = w3) by (by vm_compute). unfold owned. rewrite Hp.
  split_and!; [apply demo_page_ok; set_solver|set_solver|by vm_compute].
Qed.

Lemma uvmunmap_unmaps_witness : ∃ s', uvmunmap root 0 1 true mapped1 = Ret tt s'.
Proof.
  destruct (uvmunmap_unmaps true [mapped_entry] mapped1 {[w4]} mapped_table root 0) as (s' & E & _).
  - exact mapped_ok.
  - done.
  - done.
  - done.
  - exact mapped_range.
  - exact mapped_unmappable.
  - by exists s'.
Defined.

Lemma uvmalloc_all_or_nothing_witness : ∃ r s', uvmalloc root 0 5000 PTE_W free4 = Ret r s'.
Proof.
  destruct (uvmalloc_all_or_nothing free4 free4_pages {[root := (2%nat, 0)]} root 0 5000 PTE_W)
    as (r & s' & F' & T' & E & _).
  - apply free4_ok.
  - done.
  - done.
  - done.
  - intros va _. destruct free4_ok as [_ Hg]. by rewrite Hg.
  - by exists r, s'.
Defined.

(** [mapped1] is the parent; the child has an empty table at [w5]. *)
Lemma child_ok : vm_ok mapped1 {[w4]} {[w5 := (2%nat, 0)]} w5 ∧ ∀ va, pt_get (ms_mem mapped1) w5 va = 0.
Proof.
  apply vm_ok_fresh; [exact mapped_kmem|apply demo_page_ok; set_solver|set_solver|].
  intros x Hx. unfold in_page, w5, PGSIZE in Hx. simpl. unfold mapped_mem.
  rewrite !store64_out by (unfold root, w1, w2; lia). done.
Qed.

Lemma parent_ok : parent_space (ms_mem mapped1) root mapped_table [mapped_entry] ({[w4]} ∪ dom ({[w5 := (2%nat, 0)]} : gmap Z (nat * Z))).
Proof.
  assert (Hp : PTE2PA mapped_entry = w3) by (by vm_compute).
  split_and!; [exact mapped_wf| |exact mapped_range|].
  - intros q Hq Hq'. rewrite dom_singleton_L in Hq'. apply elem_of_dom in Hq as [[lv pre] (Hq & _)%mapped_lookup].
    assert (Hq2 : q = w4 ∨ q = w5) by set_solver.
    by destruct Hq2 as [-> | ->]; repeat (apply elem_of_cons in Hq as [Hq|Hq]; [done|]); apply not_elem_of_nil in Hq.
  - apply Forall_singleton. split; [by split; vm_compute|]. rewrite Hp, dom_singleton_L. set_solver.
Qed.

Lemma uvmcopy_all_or_nothing_witness : ∃ r s', uvmcopy root w5 4096 mapped1 = Ret r s'.
Proof.
  destruct (uvmcopy_all_or_nothing mapped1 {[w4]} {[w5 := (2%nat, 0)]} root w5 4096 [mapped_entry] mapped_table)
    as (r & s' & F' & T' & E & _).
  - apply child_ok.
  - exact parent_ok.
  - done.
  - done.
  - intros va _. destruct child_ok as [_ Hg]. by rewrite Hg.
  - by exists r, s'.
Defined.

Lemma uvmfree_returns_all_witness : ∃ s', uvmfree root 4096 mapped1 = Ret tt s'.
Proof.
  destruct (uvmfree_returns_all mapped1 {[w4]} mapped_table root 4096 [mapped_entry]) as (s' & E & _).
  - exact mapped_ok.
  - done.
  - done.
  - exact mapped_range.
  - exact mapped_unmappable.
  - intros va Hva. change (PGROUNDUP 4096) with 4096 in Hva. cbn [ms_mem mapped1].
    rewrite mapped_get by lia. destruct (Z.ltb_spec va PGSIZE); [unfold PGSIZE in *; lia|done].
  - by exists s'.
Defined.

Lemma copyout_writes_witness :
  ∃ r s', copyout root 4094 [Byte.x41; Byte.x42; Byte.x43] mapped1 = Ret r s'.
Proof.
  destruct (copyout_writes mapped1 {[w4]} mapped_table root 4094 [Byte.x41; Byte.x42; Byte.x43])
    as (r & s' & n & E & _).
  - exact mapped_ok.
  - exact mapped_uspace.
  - done.
  - by exists r, s'.
Defined.

Lemma copyout_copyin_roundtrip_witness : ∃ s',
  copyout root 8 [Byte.x41; Byte.x42] mapped1 = Ret 0 s' ∧
  copyin root 8 2 s' = Ret (0, [Byte.x41; Byte.x42]) s'.
Proof.
  destruct (copyout_loop_spec 3 mapped1 {[w4]} mapped_table root 8 [Byte.x41; Byte.x42])
    as (r & s' & n & E & _ & _ & _ & Hr);
    [exact mapped_ok|exact mapped_uspace|done|simpl; lia|].
  assert (r = 0) as ->.
  { destruct Hr as [[-> _]|(_ & Hn & Hv)]; [done|]. simpl in Hn.
    by destruct n as [|[|n]]; [vm_compute in Hv..|lia]. }
  exists s'. split; [exact E|].
  apply (copyout_copyin_roundtrip mapped1 {[w4]} mapped_table root 8 [Byte.x41; Byte.x42]).
  - exact mapped_ok.
  - exact mapped_uspace.
  - done.
  - exact E.
Defined.

Lemma copyinstr_reads_string_witness : ∃ r bs, copyinstr root 0 16 mapped1 = Ret (r, bs) mapped1.
Proof.
  destruct (copyinstr_reads_string mapped1 mapped_table root 0 16) as (r & bs & E & _).
  - exact mapped_wf.
  - done.
  - done.
  - by exists r, bs.
Defined.
End witnesses.
