(* ===== verification/VmKernel.v ===== *)
(** * kvmmake(): the kernel's page table

    The page table kvmmake() returns maps the devices and the whole memory to
    themselves, the kernel text without write permission and all other memory
    without execute permission, the trampoline at the top, and for each
    process a stack with an unmapped page below it.  It takes 72 pages for
    the table itself ([kernel_prefixes] lists their levels and prefixes) and
    one per stack, so that with 137 free pages no call of it panics. *)

From stdpp Require Import base gmap sets strings numbers list.
From coqutil Require Import Byte.
From S2P Require Import Prelude Mem Str Riscv Spinlock Kalloc Vm VmPt VmWalk VmMap VmFree.

(** ** The pages of a table *)

Section pages.
Context {I : image} {IO : image_ok I}.

(** So a table has no more pages than there are prefixes of its addresses. *)
Lemma pt_pages m T root (V : Z → Prop) L : pt_wf m T root → on_walks {[root := (2%nat, 0)]} T V →
  (2%nat, 0) ∈ L → (∀ va lv, V va → (lv ≤ 2)%nat → (lv, va_prefix lv va) ∈ L) → (size T ≤ length L)%nat.
Proof.
  intros Hwf Hw H0 HV. rewrite <- length_map_to_list, <- (length_fmap snd). apply submseteq_length, NoDup_submseteq.
  - apply NoDup_fmap_2_strong; [|apply NoDup_map_to_list]. intros [p x] [q y] Hp%elem_of_map_to_list Hq%elem_of_map_to_list Hxy.
    cbn in Hxy. subst y. f_equal. by eapply pt_inj.
  - intros x ([p y] & -> & Hp%elem_of_map_to_list)%list_elem_of_fmap. destruct y as [lv pre]. cbn.
    destruct (Hw _ _ _ Hp) as [[-> [= <- <-]]%lookup_singleton_Some|(va & Hva & ->)]; [done|]. apply HV; [done|].
    destruct Hwf as (_ & _ & _ & _ & _ & Hb). by destruct (Hb _ _ _ Hp).
Qed.
End pages.

(** ** Regions of the kernel's address space *)

Record region := Region { r_va : Z; r_size : Z; r_pa : Z; r_perm : Z }.

Definition in_region (r : region) (va : Z) : Prop := r_va r ≤ va < r_va r + r_size r.
(** The entry of the page of [va] in the region. *)
Definition region_entry (r : region) (va : Z) : Z := pte_entry (r_pa r + (PGROUNDDOWN va - r_va r)) (r_perm r).

Definition region_ok (r : region) : Prop :=
  0 ≤ r_va r ∧ r_va r mod PGSIZE = 0 ∧ 0 < r_size r ∧ r_size r mod PGSIZE = 0 ∧ r_va r + r_size r ≤ MAXVA ∧
  0 ≤ r_pa r ∧ r_pa r mod PGSIZE = 0 ∧ r_pa r + r_size r + PGSIZE < 2 ^ 54 ∧ 0 ≤ r_perm r < 1024.

(** The table at [root] maps the regions [rs] and nothing else. *)
Definition maps_regions (m : mem) (root : Z) (rs : list region) : Prop :=
  (∀ r va, r ∈ rs → 0 ≤ va < MAXVA → in_region r va → pt_get m root va = region_entry r va) ∧
  (∀ va, 0 ≤ va < MAXVA → (∀ r, r ∈ rs → ¬ in_region r va) → pt_get m root va = 0).

Definition apart (r : region) (rs : list region) : Prop := ∀ r' va, r' ∈ rs → in_region r va → ¬ in_region r' va.

Section regions.
Context {I : image}.

Definition text_perm : Z := Z.lor PTE_R PTE_X.
Definition data_perm : Z := Z.lor PTE_R PTE_W.

Definition kernel_regions : list region :=
  [Region UART0 PGSIZE UART0 data_perm; Region VIRTIO0 PGSIZE VIRTIO0 data_perm; Region PLIC 0x400000 PLIC data_perm;
   Region KERNBASE (etext - KERNBASE) KERNBASE text_perm; Region etext (PHYSTOP - etext) etext data_perm;
   Region TRAMPOLINE PGSIZE trampoline text_perm].
Definition stack_region (i : nat) (pa : Z) : region := Region (KSTACK (Z.of_nat i)) PGSIZE pa data_perm.

(** The addresses mapped, and the pages of the table on the way to them. *)
Definition kernel_va (va : Z) : Prop :=
  PLIC ≤ va < PLIC + 0x400000 ∨ UART0 ≤ va < VIRTIO0 + PGSIZE ∨ KERNBASE ≤ va < PHYSTOP ∨ KSTACK (Z.of_nat (NPROC - 1)) ≤ va < MAXVA.
Definition kernel_prefixes : list (nat * Z) :=
  [(2%nat, 0); (1%nat, 0); (1%nat, 2); (1%nat, 255); (0%nat, 96); (0%nat, 97); (0%nat, 128); (0%nat, 131071)] ++ (pair 0%nat <$> seqZ 1024 64).

Lemma div_between a b c d : 0 < b → c * b ≤ a < (d + 1) * b → c ≤ a / b ≤ d.
Proof. intros Hb Ha. split; [apply Z.div_le_lower_bound; lia|]. enough (a / b < d + 1) by lia. apply Z.div_lt_upper_bound; lia. Qed.

#[local] Ltac prefix_is c :=
  match goal with |- context [?va / ?b] => pose proof (div_between va b c c); assert (va / b = c) as -> by lia; set_solver end.

Lemma kernel_va_prefix va lv : kernel_va va → (lv ≤ 2)%nat → (lv, va_prefix lv va) ∈ kernel_prefixes.
Proof.
  intros Hva Hlv. unfold kernel_va, PLIC, UART0, VIRTIO0, KSTACK, NPROC in Hva. pgunfold. simpl in Hva. unfold va_prefix.
  destruct lv as [|[|[|]]]; [| | |lia]; cbn [Z.of_nat Pos.of_succ_nat Z.mul Pos.mul Z.add Pos.add].
  - change (2 ^ (21 + 9 * Z.of_nat 0)) with 2097152. destruct Hva as [?|[?|[?|?]]].
    + pose proof (div_between va 2097152 96 97). assert (va / 2097152 = 96 ∨ va / 2097152 = 97) as [->| ->] by lia; set_solver.
    + prefix_is 128.
    + pose proof (div_between va 2097152 1024 1087). apply elem_of_app. right. apply list_elem_of_fmap. eexists. split; [done|].
      apply elem_of_seqZ. lia.
    + prefix_is 131071.
  - change (2 ^ (21 + 9 * Z.of_nat 1)) with 1073741824. destruct Hva as [?|[?|[?|?]]]; [prefix_is 0|prefix_is 0|prefix_is 2|prefix_is 255].
  - change (2 ^ (21 + 9 * Z.of_nat 2)) with 549755813888. rewrite Z.div_small by lia. set_solver.
Qed.
End regions.

(** ** Mapping a region

    [rtable V s F T root rs]: the table maps the regions [rs], and its pages
    are on the walks to addresses in [V]. *)

Section table.
Context {I : image} {IO : image_ok I} {PA : PageAllocator}.
Context (V : Z → Prop) (L : list (nat * Z)).
Context (HL : (2%nat, 0) ∈ L) (HV : ∀ va lv, V va → (lv ≤ 2)%nat → (lv, va_prefix lv va) ∈ L).

Definition rtable (s : mstate) (F : gset Z) (T : gmap Z (nat * Z)) (root : Z) (rs : list region) : Prop :=
  vm_ok s F T root ∧ on_walks {[root := (2%nat, 0)]} T V ∧ maps_regions (ms_mem s) root rs.

Lemma rtable_pages s F T root rs : rtable s F T root rs → (size T ≤ length L)%nat.
Proof using HL HV IO. intros (Hok & Hw & _). by apply (pt_pages (ms_mem s) T root V L (proj1 (proj2 Hok)) Hw). Qed.

Lemma region_pages r : region_ok r → map_last (r_va r) (r_size r) = r_va r + r_size r - PGSIZE ∧
  Z.of_nat (S (map_count (r_va r) (r_size r))) * PGSIZE = r_size r.
Proof.
  intros (H0 & Ha & Hs & Hm & _). pose proof (map_count_spec (r_va r) (r_size r) Hs) as Hc. rewrite (PGROUNDDOWN_id (r_va r)) in Hc by done.
  assert (Hl : map_last (r_va r) (r_size r) = r_va r + r_size r - PGSIZE).
  { unfold map_last. apply PGROUNDDOWN_in; unfold PGSIZE in *; [|lia].
    rewrite Zminus_mod, Z.add_mod, Ha, Hm by done. done. }
  split; [done|]. unfold PGSIZE in *. lia.
Qed.

#[local] Instance in_region_dec r va : Decision (in_region r va).
Proof. unfold in_region. apply _. Defined.
Lemma region_test r va : (r_va r <=? va) && (va <? r_va r + r_size r) = bool_decide (in_region r va).
Proof.
  unfold in_region. destruct (Z.leb_spec (r_va r) va), (Z.ltb_spec va (r_va r + r_size r)); simpl;
    symmetry; [apply bool_decide_true|apply bool_decide_false..]; lia.
Qed.

Lemma mapped_region m m' root rs r : region_ok r → apart r rs → maps_regions m root rs →
  mapped_to m m' root (r_va r) (S (map_count (r_va r) (r_size r))) (r_pa r) (r_perm r) → maps_regions m' root (r :: rs).
Proof.
  intros Hr Hap [Hin Hout] Hmap. destruct (region_pages r Hr) as [_ Hcnt]. unfold mapped_to in Hmap. rewrite Hcnt in Hmap. split.
  - intros r' va Hr' Hva Hrv. rewrite Hmap by done. destruct (decide (in_region r va)) as [Hv|Hv].
    + apply elem_of_cons in Hr' as [->|Hr']; [|by destruct (Hap r' va)]. rewrite (region_test r va). by rewrite bool_decide_true.
    + apply elem_of_cons in Hr' as [->|Hr']; [done|]. rewrite (region_test r va), bool_decide_false by done. by apply Hin.
  - intros va Hva Hno. rewrite Hmap by done. rewrite (region_test r va), bool_decide_false by (apply Hno; set_solver).
    apply Hout; [done|]. intros r' Hr'. apply Hno. set_solver.
Qed.

(** With more pages than the table can take, mappages() does not fail. *)
Lemma mappages_region s F T root rs r : rtable s F T root rs → region_ok r → apart r rs → (∀ va, in_region r va → V va) →
  (length L < size F + size T)%nat → ∃ s' F' T', mappages root (r_va r) (r_size r) (r_pa r) (r_perm r) s = Ret 0 s' ∧
    rtable s' F' T' root (r :: rs) ∧ F' ∪ dom T' = F ∪ dom T ∧ (length L < size F' + size T')%nat ∧ frame (F ∪ dom T) (ms_mem s) (ms_mem s').
Proof using HL HV IO.
  intros (Hok & Hw & Hm) Hr Hap Hkv Hroom. pose proof Hr as (H0 & Ha & Hs & Hms & Hmax & Hpa & Hpaa & Hpab & Hperm).
  destruct (region_pages r Hr) as [Hlast Hcnt].
  assert (Hun : ∀ va, in_region r va → pt_get (ms_mem s) root va = 0).
  { intros va Hva. apply Hm; [unfold in_region in Hva; lia|]. intros r' Hr' Hva'. by apply (Hap r' va). }
  destruct (mappages_spec s F T root (r_va r) (r_size r) (r_pa r) (r_perm r)) as (v & s' & F' & T' & j & E & Hw' & (Hok' & HT & HF & Hfr) & Hmap & Hv); try done.
  { intros j Hj. rewrite Hun; [done|]. rewrite PGROUNDDOWN_id by done. unfold in_region, PGSIZE in *. lia. }
  rewrite PGROUNDDOWN_id in Hw', Hmap by done. rewrite Hlast in Hw'.
  assert (Hw2 : on_walks {[root := (2%nat, 0)]} T' V).
  { eapply on_walks_trans; [exact Hw|exact Hw'|done|]. intros va Hva. apply Hkv. unfold in_region, PGSIZE in *. lia. }
  pose proof (vm_size _ _ _ _ Hok) as Hsz. pose proof (vm_size _ _ _ _ Hok') as Hsz'. rewrite HF in Hsz'.
  assert (Hpg : (size T' ≤ length L)%nat) by (by apply (pt_pages (ms_mem s') T' root V L (proj1 (proj2 Hok')) Hw2)).
  exists s', F', T'. destruct Hv as [[-> ->]|(-> & _ & ->)]; [|rewrite size_empty in Hsz'; lia].
  split; [done|]. split; [|split; [done|split; [lia|done]]]. split; [done|]. split; [done|]. by eapply mapped_region.
Qed.

(** kalloc() leaves the table alone. *)
Lemma kalloc_rtable s F T root rs : rtable s F T root rs → F ≠ ∅ → ∃ n s',
  pa_kalloc s = Ret n s' ∧ n ≠ 0 ∧ n ∈ F ∧ page_ok n ∧ T !! n = None ∧ rtable s' (F ∖ {[n]}) T root rs ∧ same_outside n (ms_mem s) (ms_mem s').
Proof.
  intros (Hok & Hw & Hin & Hout) Hne. destruct (kalloc_grow s F T root Hok Hne) as (n & s' & E & Hn & Hnok & HnT & Hok' & Hso & Hag).
  exists n, s'. destruct (page_ok_pos n Hnok) as [? _]. split_and!; try done; [lia|].
  destruct (pt_frame (ms_mem s) (ms_mem s') T root (proj1 (proj2 Hok)) Hag) as [_ Hg].
  split; [done|split; [done|]]. split.
  - intros r va Hr Hva Hrv. rewrite (proj2 (Hg va Hva)). by apply Hin.
  - intros va Hva Hno. rewrite (proj2 (Hg va Hva)). by apply Hout.
Qed.

(** An empty table. *)
Lemma rtable_root s F : pa_inv s F → F ≠ ∅ → ∃ root s', uvmcreate s = Ret root s' ∧ root ≠ 0 ∧ root ∈ F ∧
  rtable s' (F ∖ {[root]}) {[root := (2%nat, 0)]} root [] ∧ same_outside root (ms_mem s) (ms_mem s').
Proof.
  intros Hpa Hne. destruct (uvmcreate_spec s F Hpa) as [[-> _]|(root & s' & E & Hr & Hok & Hg & Hso)]; [done|].
  exists root, s'. destruct (page_ok_pos root (pa_pages _ _ _ Hpa Hr)) as [? _]. split_and!; try done; [lia|].
  split; [done|split; [apply on_walks_refl|]]. split; [|intros va _ _; apply Hg]. by intros r va Hn%elem_of_nil.
Qed.
End table.

(** ** kvmmap() *)

Section kvm.
Context {I : image} {IO : image_ok I} {PA : PageAllocator}.

Abbreviation ktable := (rtable kernel_va).

Lemma kernel_prefix_root : (2%nat, 0) ∈ kernel_prefixes.
Proof. set_solver. Qed.

Lemma kvmmap_region s F T root rs r : ktable s F T root rs → region_ok r → apart r rs → (∀ va, in_region r va → kernel_va va) →
  (72 < size F + size T)%nat → ∃ s' F' T', kvmmap root (r_va r) (r_pa r) (r_size r) (r_perm r) s = Ret tt s' ∧
    ktable s' F' T' root (r :: rs) ∧ F' ∪ dom T' = F ∪ dom T.
Proof.
  intros Hk Hr Hap Hkv Hroom.
  destruct (mappages_region kernel_va kernel_prefixes kernel_prefix_root kernel_va_prefix s F T root rs r Hk Hr Hap Hkv Hroom) as (s' & F' & T' & E & Hk' & HF & _).
  exists s', F', T'. split; [|done]. unfold kvmmap. by rewrite (bind_Ret _ _ _ _ _ E).
Qed.

(** ** The fixed regions *)

Lemma maps_regions_same m root rs rs' : (∀ r, r ∈ rs ↔ r ∈ rs') → maps_regions m root rs → maps_regions m root rs'.
Proof. intros He [Hin Hout]. split; [intros r va Hr; apply Hin; by apply He|]. intros va Hva Hno. apply Hout; [done|]. intros r Hr. apply Hno. by apply He. Qed.

Lemma etext_facts : etext mod PGSIZE = 0 ∧ KERNBASE + PGSIZE ≤ etext ∧ etext < PHYSTOP ∧ trampoline mod PGSIZE = 0 ∧ KERNBASE ≤ trampoline < PHYSTOP.
Proof.
  pose proof tramp_ge as H1. pose proof tramp_aligned as H2. pose proof etext_eq as H3. pose proof kend_ge as H4. pose proof kend_lt as H5.
  assert (0 < PGSIZE) by done. split_and!; try lia; try done. rewrite H3. by apply aligned_step.
Qed.

Lemma sub_aligned a b : a mod PGSIZE = 0 → b mod PGSIZE = 0 → (a - b) mod PGSIZE = 0.
Proof. intros Ha Hb. rewrite Zminus_mod, Ha, Hb. done. Qed.

Ltac region_arith :=
  unfold region_ok, apart, in_region, kernel_va, stack_region, text_perm, data_perm, UART0, VIRTIO0, PLIC, KSTACK, NPROC in *;
  cbn [r_va r_size r_pa r_perm] in *; pgunfold.

Lemma kernel_region_ok r : r ∈ kernel_regions → region_ok r ∧ ∀ va, in_region r va → kernel_va va.
Proof.
  destruct etext_facts as (He & H1 & H2 & Ht & H3). pose proof (sub_aligned etext KERNBASE He eq_refl) as Hs1. pose proof (sub_aligned PHYSTOP etext eq_refl He) as Hs2.
  intros Hr. unfold kernel_regions in Hr. repeat (apply elem_of_cons in Hr as [->|Hr]); [..|by apply elem_of_nil in Hr];
    (split; [|intros va Hva]; region_arith; [split_and!; (done || lia)|simpl; lia]).
Qed.

(** The regions in the order kvmmake() maps them. *)
Lemma kernel_regions_apart : ∀ i r, kernel_regions !! i = Some r → apart r (take i kernel_regions).
Proof.
  destruct etext_facts as (_ & H1 & H2 & _ & _). intros i r Hi r' va (j & Hj & Hlt)%elem_of_take Hva Hva'.
  unfold kernel_regions in *. do 6 (destruct i as [|i]; [injection Hi as <-; do 6 (destruct j as [|j]; [injection Hj as <-; region_arith; lia|]); lia|]). done.
Qed.

Lemma kvmmap_next i r s F T root : kernel_regions !! i = Some r → ktable s F T root (take i kernel_regions) → (72 < size F + size T)%nat →
  ∃ s' F' T', kvmmap root (r_va r) (r_pa r) (r_size r) (r_perm r) s = Ret tt s' ∧
    ktable s' F' T' root (take (S i) kernel_regions) ∧ F' ∪ dom T' = F ∪ dom T ∧ (72 < size F' + size T')%nat.
Proof.
  intros Hi Hk Hroom. destruct (kernel_region_ok r) as [Hr Hkv]; [by eapply list_elem_of_lookup_2|].
  destruct (kvmmap_region s F T root _ r Hk Hr (kernel_regions_apart i r Hi) Hkv Hroom) as (s' & F' & T' & E & (Hok & Hw & Hm) & HF).
  exists s', F', T'. split; [done|]. split; [split; [done|split; [done|]]|split; [done|]].
  - eapply maps_regions_same; [|exact Hm]. intros r'. rewrite (take_S_r _ _ _ Hi). set_solver.
  - rewrite <- (vm_size _ _ _ _ Hok), HF, (vm_size s F T root); [done|]. apply Hk.
Qed.

(** ** The stacks *)

Lemma stack_region_ok i n : (i < NPROC)%nat → page_ok n → region_ok (stack_region i n) ∧ ∀ va, in_region (stack_region i n) va → kernel_va va.
Proof.
  intros Hi Hn. destruct (page_ok_pos n Hn) as [Hn0 Hal]. destruct Hn as [_ Hn].
  assert (Ha : KSTACK (Z.of_nat i) mod PGSIZE = 0).
  { unfold KSTACK. apply sub_aligned; [done|]. by rewrite Z.mod_mul. }
  split; [|intros va Hva]; region_arith; [split_and!; (done || lia)|right; right; right]. change (Z.of_nat (64 - 1)) with 63. lia.
Qed.

Lemma elem_of_stacks r ss : r ∈ imap stack_region ss ↔ ∃ i n, ss !! i = Some n ∧ r = stack_region i n.
Proof.
  rewrite list_elem_of_lookup. setoid_rewrite list_lookup_imap. split.
  - intros (i & Hi). destruct (ss !! i) as [n|] eqn:Hn; [|done]. injection Hi as <-. by exists i, n.
  - intros (i & n & Hn & ->). exists i. by rewrite Hn.
Qed.

Lemma stack_apart ss n : (length ss < NPROC)%nat → apart (stack_region (length ss) n) (imap stack_region ss ++ kernel_regions).
Proof.
  intros Hl r va [(j & q & Hj & ->)%elem_of_stacks|Hr]%elem_of_app Hva Hva'.
  - apply lookup_lt_Some in Hj. region_arith. lia.
  - destruct etext_facts as (_ & H1 & H2 & _ & _). unfold kernel_regions in Hr.
    repeat (apply elem_of_cons in Hr as [->|Hr]); [..|by apply elem_of_nil in Hr]; region_arith; lia.
Qed.

(** The pages [ss] of [X] are the stacks so far. *)
Definition stacks_ok (X F : gset Z) (T : gmap Z (nat * Z)) (ss : list Z) : Prop :=
  NoDup ss ∧ (∀ p, p ∈ ss → p ∉ F ∪ dom T) ∧ X = list_to_set ss ∪ (F ∪ dom T).

Lemma stack_taken X F T F2 T2 ss n : stacks_ok X F T ss → n ∈ F → n ∉ F ∖ {[n]} ∪ dom T → F2 ∪ dom T2 = F ∖ {[n]} ∪ dom T → stacks_ok X F2 T2 (ss ++ [n]).
Proof.
  intros (Hnd & Hp & HX) Hn HnX HF. unfold stacks_ok. rewrite HF, HX. split_and!.
  - apply NoDup_app. split_and!; [done| |apply NoDup_singleton]. intros p Hps Hpn%list_elem_of_singleton. subst p. apply (Hp n Hps). by apply elem_of_union_l.
  - intros p [Hps| ->%list_elem_of_singleton]%elem_of_app; [|done]. apply Hp in Hps. set_solver.
  - apply set_eq. intros x. rewrite list_to_set_app_L. cbn. destruct (decide (x = n)); set_solver.
Qed.

Lemma proc_mapstacks_ok X k s F T root ss : ktable s F T root (imap stack_region ss ++ kernel_regions) → stacks_ok X F T ss →
  (length ss + k = NPROC)%nat → (72 + k < size F + size T)%nat →
  ∃ s' F' T' ss', proc_mapstacks_loop k root (Z.of_nat (length ss)) s = Ret tt s' ∧
    ktable s' F' T' root (imap stack_region ss' ++ kernel_regions) ∧ stacks_ok X F' T' ss' ∧ length ss' = NPROC.
Proof.
  revert s F T ss. induction k as [|k IH]; intros s F T ss Hk Hss Hlen Hroom; cbn [proc_mapstacks_loop].
  { exists s, F, T, ss. split_and!; try done. lia. }
  pose proof (rtable_pages _ _ kernel_prefix_root kernel_va_prefix _ _ _ _ _ Hk : (_ ≤ 72)%nat) as Hpg.
  destruct (kalloc_rtable _ _ _ _ _ _ Hk) as (n & s1 & E1 & Hn0 & Hn & Hnok & HnT & Hk1 & _); [intros ->; rewrite size_empty in Hroom; lia|].
  rewrite (bind_Ret _ _ _ _ _ E1). destruct (Z.eqb_spec n 0); [done|].
  destruct (stack_region_ok (length ss) n) as [Hr Hkv]; [lia|done|].
  assert (Hsz : (size (F ∖ {[n]}) + 1 = size F)%nat).
  { rewrite size_difference by set_solver. rewrite size_singleton. assert (size F ≠ 0)%nat; [|lia]. intros H0%size_empty_inv. set_solver. }
  destruct (kvmmap_region _ _ _ _ _ _ Hk1 Hr (stack_apart ss n ltac:(lia)) Hkv) as (s2 & F2 & T2 & E2 & Hk2 & HF2); [lia|].
  cbn [r_va r_pa r_size r_perm stack_region] in E2. rewrite (bind_Ret _ _ _ _ _ E2).
  replace (Z.of_nat (length ss) + 1) with (Z.of_nat (length (ss ++ [n]))) by (rewrite length_app; cbn; lia).
  destruct Hss as (Hnd & Hp & HX). apply (IH s2 F2 T2 (ss ++ [n])).
  - destruct Hk2 as (Hok2 & Hw2 & Hm2). split; [done|split; [done|]]. eapply maps_regions_same; [|exact Hm2].
    intros r. rewrite imap_app. cbn. rewrite Nat.add_0_r, elem_of_cons, !elem_of_app, list_elem_of_singleton. tauto.
  - assert (HnX : n ∉ F ∖ {[n]} ∪ dom T) by (apply not_elem_of_union; split; [set_solver|by apply not_elem_of_dom]).
    apply (stack_taken X F T F2 T2 ss n); [by split_and!|done|done|done].
  - rewrite length_app. cbn. lia.
  - destruct Hk2 as (Hok2 & _). rewrite <- (vm_size _ _ _ _ Hok2), HF2, (vm_size _ _ _ _ (proj1 Hk1)). lia.
Qed.

(** ** kvmmake() *)

(** The first page: kvmmake() does not test the result of kalloc(). *)
Lemma kvmmake_root s F : pa_inv s F → F ≠ ∅ → ∃ root s1 s2, pa_kalloc s = Ret root s1 ∧ mmemset root 0 PGSIZE s1 = Ret tt s2 ∧ root ∈ F ∧
  ktable s2 (F ∖ {[root]}) {[root := (2%nat, 0)]} root [].
Proof.
  intros Hpa Hne. destruct (rtable_root kernel_va s F Hpa Hne) as (root & s2 & E & Hr0 & Hr & Hk & _).
  unfold uvmcreate in E. apply bind_Ret_inv in E as (p & s1 & E1 & E). destruct (Z.eqb_spec p 0) as [->|_]; [by injection E as <- <-|].
  apply bind_Ret_inv in E as ([] & s3 & E3 & [= <- <-]). by exists p, s1, s3.
Qed.

Lemma kvmmake_run s F : pa_inv s F → (137 ≤ size F)%nat → ∃ root s' F' T' stacks, kvmmake s = Ret root s' ∧
  ktable s' F' T' root (imap stack_region stacks ++ kernel_regions) ∧ stacks_ok F F' T' stacks ∧ length stacks = NPROC.
Proof.
  intros Hpa Hsz. destruct (kvmmake_root s F Hpa) as (root & s1 & s2 & E1 & E2 & Hr & Hk); [intros ->; rewrite size_empty in Hsz; lia|].
  unfold kvmmake. rewrite (bind_Ret _ _ _ _ _ E1), (bind_Ret _ _ _ _ _ E2).
  set (F0 := F ∖ {[root]}) in *. set (T0 := {[root := (2%nat, 0)]} : gmap Z (nat * Z)) in *.
  assert (HF0 : F0 ∪ dom T0 = F).
  { unfold F0, T0. rewrite dom_singleton_L. apply set_eq. intros q. destruct (decide (q = root)); set_solver. }
  assert (Hroom : (72 < size F0 + size T0)%nat) by (rewrite <- (vm_size _ _ _ _ (proj1 Hk)), HF0; lia).
  destruct (kvmmap_next 0 _ _ _ _ _ eq_refl Hk Hroom) as (s3 & F3 & T3 & E3 & Hk3 & HF3 & Hr3).
  destruct (kvmmap_next 1 _ _ _ _ _ eq_refl Hk3 Hr3) as (s4 & F4 & T4 & E4 & Hk4 & HF4 & Hr4).
  destruct (kvmmap_next 2 _ _ _ _ _ eq_refl Hk4 Hr4) as (s5 & F5 & T5 & E5 & Hk5 & HF5 & Hr5).
  destruct (kvmmap_next 3 _ _ _ _ _ eq_refl Hk5 Hr5) as (s6 & F6 & T6 & E6 & Hk6 & HF6 & Hr6).
  destruct (kvmmap_next 4 _ _ _ _ _ eq_refl Hk6 Hr6) as (s7 & F7 & T7 & E7 & Hk7 & HF7 & Hr7).
  destruct (kvmmap_next 5 _ _ _ _ _ eq_refl Hk7 Hr7) as (s8 & F8 & T8 & E8 & Hk8 & HF8 & Hr8).
  rewrite (bind_Ret _ _ _ _ _ E3), (bind_Ret _ _ _ _ _ E4), (bind_Ret _ _ _ _ _ E5), (bind_Ret _ _ _ _ _ E6), (bind_Ret _ _ _ _ _ E7), (bind_Ret _ _ _ _ _ E8).
  assert (HF : F8 ∪ dom T8 = F) by (by rewrite HF8, HF7, HF6, HF5, HF4, HF3).
  destruct (proc_mapstacks_ok F NPROC s8 F8 T8 root [] Hk8) as (s9 & F9 & T9 & ss & E9 & Hk9 & Hss & Hlen).
  - split_and!; [constructor|by intros p Hp%elem_of_nil|rewrite HF; set_solver].
  - done.
  - rewrite <- (vm_size _ _ _ _ (proj1 Hk8)), HF. unfold NPROC. lia.
  - exists root, s9, F9, T9, ss. split; [|done]. unfold proc_mapstacks. by rewrite (bind_Ret _ _ _ _ _ E9).
Qed.

(** Consequences of the regions. *)
Lemma guard_unmapped m root ss i : maps_regions m root (imap stack_region ss ++ kernel_regions) → length ss = NPROC → (i < NPROC)%nat →
  pt_get m root (KSTACK (Z.of_nat i) - PGSIZE) = 0.
Proof.
  intros [_ Hout] Hl Hi. destruct etext_facts as (_ & H1 & H2 & _ & _). apply Hout; [region_arith; lia|].
  intros r [(j & q & Hj%lookup_lt_Some & ->)%elem_of_stacks|Hr]%elem_of_app Hva.
  - region_arith. lia.
  - unfold kernel_regions in Hr. repeat (apply elem_of_cons in Hr as [->|Hr]); [..|by apply elem_of_nil in Hr]; region_arith; lia.
Qed.

Lemma flags_land e f : 0 ≤ f < 1024 → Z.land e f = Z.land (PTE_FLAGS e) f.
Proof.
  intros Hf. unfold PTE_FLAGS. rewrite <- Z.land_assoc. f_equal. change 1023 with (Z.ones 10). rewrite Z.land_comm, Z.land_ones by lia.
  symmetry. by apply Z.mod_small.
Qed.

Lemma regions_wx m root ss va : maps_regions m root (imap stack_region ss ++ kernel_regions) → Forall page_ok ss → (length ss ≤ NPROC)%nat → 0 ≤ va < MAXVA →
  Z.land (pt_get m root va) PTE_W = 0 ∨ Z.land (pt_get m root va) PTE_X = 0.
Proof.
  intros [Hin Hout] Hss Hl Hva. set (rs := imap stack_region ss ++ kernel_regions) in *.
  assert (Hok : ∀ r, r ∈ rs → region_ok r ∧ (r_perm r = data_perm ∨ r_perm r = text_perm)).
  { intros r [(j & q & Hj & ->)%elem_of_stacks|Hr]%elem_of_app.
    - split; [|by left]. apply stack_region_ok; [apply lookup_lt_Some in Hj; lia|]. by eapply Forall_lookup_1.
    - split; [by apply kernel_region_ok|]. unfold kernel_regions in Hr.
      repeat (apply elem_of_cons in Hr as [->|Hr]); [..|by apply elem_of_nil in Hr]; cbn; auto. }
  destruct (decide (Exists (λ r, in_region r va) rs)) as [Hex|Hno].
  - apply Exists_exists in Hex as (r & Hr & Hrv). rewrite (Hin r va Hr Hva Hrv).
    destruct (Hok r Hr) as [(H0 & Ha & Hs & Hm & Hmax & Hpa & Hpaa & Hpab & Hperm) Hp].
    pose proof (PGROUNDDOWN_bounds va). pose proof (PGROUNDDOWN_aligned va).
    destruct (pte_entry_facts (r_pa r + (PGROUNDDOWN va - r_va r)) (r_perm r)) as (_ & _ & _ & Hfl); [|by rewrite Z.add_mod, Hpaa, sub_aligned|done|].
    { unfold in_region in Hrv. assert (r_va r ≤ PGROUNDDOWN va); [|unfold PGSIZE in *; lia].
      rewrite PGROUNDDOWN_div. unfold PGSIZE in *. pose proof (Z.div_mod (r_va r) 4096). pose proof (Z.div_le_mono (r_va r) va 4096). lia. }
    unfold region_entry. rewrite !(flags_land (pte_entry _ _)), Hfl by done. destruct Hp as [-> | ->]; [right|left]; done.
  - rewrite Hout; [by left|done|]. intros r Hr Hrv. apply Hno, Exists_exists. eauto.
Qed.

(** C12: with 137 free pages kvmmake() returns a page table in which the UART,
    the disk and the PLIC, the kernel text (readable and executable) and the
    rest of memory (readable and writable) are mapped to themselves, the
    trampoline page at the top, and one page per process, each of its own, at
    KSTACK(i); nothing else is mapped, and no page is lost.  In particular the page below each
    stack is not mapped, so that an overflow faults, and no page is both
    writable and executable. *)
Theorem kernel_page_table s F : pa_inv s F → (137 ≤ size F)%nat → ∃ root s' F' T' stacks,
  kvmmake s = Ret root s' ∧ vm_ok s' F' T' root ∧
  length stacks = NPROC ∧ NoDup stacks ∧ (∀ p, p ∈ stacks → p ∉ F' ∪ dom T') ∧ F = list_to_set stacks ∪ (F' ∪ dom T') ∧ (size T' ≤ 72)%nat ∧
  maps_regions (ms_mem s') root (imap stack_region stacks ++ kernel_regions) ∧
  (∀ i, (i < NPROC)%nat → pt_get (ms_mem s') root (KSTACK (Z.of_nat i) - PGSIZE) = 0) ∧
  (∀ va, 0 ≤ va < MAXVA → Z.land (pt_get (ms_mem s') root va) PTE_W = 0 ∨ Z.land (pt_get (ms_mem s') root va) PTE_X = 0).
Proof.
  intros Hpa Hsz. destruct (kvmmake_run s F Hpa Hsz) as (root & s' & F' & T' & ss & E & Hk & (Hnd & Hp & HX) & Hl).
  pose proof (rtable_pages _ _ kernel_prefix_root kernel_va_prefix _ _ _ _ _ Hk : (_ ≤ 72)%nat) as Hpg. destruct Hk as (Hok & _ & Hm).
  exists root, s', F', T', ss. split_and!; try done.
  - intros i Hi. by eapply guard_unmapped.
  - intros va Hva. eapply regions_wx; [done| |lia|done]. apply Forall_forall. intros p Hps. eapply pa_pages; [done|]. rewrite HX. set_solver.
Qed.
End kvm.

(** ** The allocator after kinit() *)

Lemma boot_pages n : (n ≤ 200)%nat → (n ≤ size (list_to_set (all_pages (I := image_sym)) : gset Z))%nat.
Proof.
  intros Hn. etransitivity; [exact Hn|].
  transitivity (size (list_to_set ((λ k, 0x80022000 + 4096 * k) <$> seqZ 0 200) : gset Z)); [by vm_compute|].
  apply subseteq_size. intros p Hp. apply elem_of_list_to_set in Hp. apply elem_of_list_to_set.
  apply list_elem_of_fmap in Hp as (k & -> & Hk%elem_of_seqZ).
  apply elem_of_all_pages. split; [|unfold kend; cbn; pgunfold; lia]. rewrite Z.mul_comm. exact (Z.mod_add 0x80022000 k 4096 ltac:(done)).
Qed.

Lemma kernel_page_table_witness : ∃ s root s', kinit (I := image_sym) (MState (λ _, Byte.x00) false 0) = Ret tt s ∧ kvmmake (I := image_sym) (PA := kalloc_allocator) s = Ret root s'.
Proof.
  destruct (kinit_inv (I := image_sym) (MState (λ _, Byte.x00) false 0) eq_refl) as (s & E & HF).
  destruct (kernel_page_table (I := image_sym) (PA := kalloc_allocator) s (list_to_set all_pages) HF (boot_pages 137 ltac:(lia))) as (root & s' & F' & T' & ss & Ek & _).
  exists s, root, s'. split; [exact E|exact Ek].
Defined.
