(* ===== verification/Block.v ===== *)
(** * Disk blocks

    The contents of a disk block or of [b->data] of a buffer: BSIZE bytes,
    with the accesses the file system makes through [int *], [uint *] and
    [struct] pointers into it; and the interfaces [BlockLayer], from the file
    system to the log, and [UserMem], to the memory of the process. *)

From stdpp Require Import base gmap sets strings numbers list.
From coqutil Require Import Byte Word.LittleEndianList.
From S2P Require Import Prelude Riscv.

Definition BSIZE : Z := 1024.

Abbreviation block := (list byte).

(** [n] bytes at offset [off]. *)
Definition blk_get (b : block) (off : Z) (n : nat) : list byte := take n (drop (Z.to_nat off) b).
(** Overwrite the bytes at offset [off]. *)
Definition blk_put (b : block) (off : Z) (bs : list byte) : block :=
  take (Z.to_nat off) b ++ bs ++ drop (Z.to_nat off + length bs) b.

Definition get16 (b : block) (off : Z) : Z := le_combine (blk_get b off 2).
Definition put16 (b : block) (off v : Z) : block := blk_put b off (le_split 2 v).
Definition get32 (b : block) (off : Z) : Z := le_combine (blk_get b off 4).
Definition put32 (b : block) (off v : Z) : block := blk_put b off (le_split 4 v).

Definition zero_block : block := replicate (Z.to_nat BSIZE) Byte.x00.

(** A block has BSIZE bytes. *)
Definition block_ok (b : block) : Prop := Z.of_nat (length b) = BSIZE.

(** ** Facts *)

Lemma blk_put_length b off bs :
  0 ≤ off → off + Z.of_nat (length bs) ≤ Z.of_nat (length b) → length (blk_put b off bs) = length b.
Proof. intros. unfold blk_put. rewrite !length_app, length_take, length_drop. lia. Qed.

Lemma blk_get_length b off n :
  0 ≤ off → off + Z.of_nat n ≤ Z.of_nat (length b) → length (blk_get b off n) = n.
Proof. intros. unfold blk_get. rewrite length_take, length_drop. lia. Qed.

Lemma blk_get_put_eq b off bs :
  0 ≤ off → off + Z.of_nat (length bs) ≤ Z.of_nat (length b) → blk_get (blk_put b off bs) off (length bs) = bs.
Proof.
  intros. unfold blk_get, blk_put. rewrite drop_app_length' by (rewrite length_take; lia).
  by rewrite take_app_length.
Qed.

Lemma blk_lookup b off n i :
  0 ≤ off → (i < n)%nat → blk_get b off n !! i = b !! (Z.to_nat off + i)%nat.
Proof. intros. unfold blk_get. by rewrite lookup_take_lt, lookup_drop. Qed.

Lemma blk_put_lookup b off bs i :
  0 ≤ off → off + Z.of_nat (length bs) ≤ Z.of_nat (length b) →
  blk_put b off bs !! i =
    if decide (Z.to_nat off ≤ i < Z.to_nat off + length bs)%nat then bs !! (i - Z.to_nat off)%nat else b !! i.
Proof.
  intros. unfold blk_put. case_decide as Hd.
  - rewrite lookup_app_r by (rewrite length_take; lia). rewrite length_take.
    rewrite lookup_app_l by lia. f_equal. lia.
  - destruct (decide (i < Z.to_nat off)%nat).
    + rewrite lookup_app_l by (rewrite length_take; lia). by rewrite lookup_take_lt.
    + rewrite lookup_app_r by (rewrite length_take; lia). rewrite length_take.
      rewrite lookup_app_r by lia. rewrite lookup_drop. f_equal. lia.
Qed.

Lemma blk_get_put_ne b off bs o n :
  0 ≤ off → off + Z.of_nat (length bs) ≤ Z.of_nat (length b) → 0 ≤ o →
  o + Z.of_nat n ≤ off ∨ off + Z.of_nat (length bs) ≤ o →
  blk_get (blk_put b off bs) o n = blk_get b o n.
Proof.
  intros H1 H2 H3 H4. apply list_eq. intros i. destruct (decide (i < n)%nat) as [Hi|Hi].
  - rewrite !blk_lookup by done. rewrite blk_put_lookup by done. case_decide; [lia|done].
  - unfold blk_get. rewrite !lookup_take_ge by lia. done.
Qed.

Lemma put32_length b off v : 0 ≤ off → off + 4 ≤ Z.of_nat (length b) → length (put32 b off v) = length b.
Proof. intros. apply blk_put_length; [done|]. rewrite length_le_split. lia. Qed.

Lemma get32_put32_eq b off v :
  0 ≤ off → off + 4 ≤ Z.of_nat (length b) → get32 (put32 b off v) off = u32 v.
Proof.
  intros. unfold get32, put32. rewrite <- (length_le_split 4 v) at 2.
  rewrite blk_get_put_eq by (rewrite ?length_le_split; lia). by rewrite le_combine_split.
Qed.

Lemma get32_put32_ne b off o v :
  0 ≤ off → off + 4 ≤ Z.of_nat (length b) → 0 ≤ o → o + 4 ≤ off ∨ off + 4 ≤ o →
  get32 (put32 b off v) o = get32 b o.
Proof. intros. unfold get32, put32. f_equal. apply blk_get_put_ne; rewrite ?length_le_split; lia. Qed.

Lemma put16_length b off v : 0 ≤ off → off + 2 ≤ Z.of_nat (length b) → length (put16 b off v) = length b.
Proof. intros. apply blk_put_length; [done|]. rewrite length_le_split. lia. Qed.

Lemma get16_put16_eq b off v :
  0 ≤ off → off + 2 ≤ Z.of_nat (length b) → get16 (put16 b off v) off = u16 v.
Proof.
  intros. unfold get16, put16. rewrite <- (length_le_split 2 v) at 2.
  rewrite blk_get_put_eq by (rewrite ?length_le_split; lia). by rewrite le_combine_split.
Qed.

Lemma get32_range b off : 0 ≤ get32 b off < 2 ^ 32.
Proof.
  unfold get32. pose proof (le_combine_bound (blk_get b off 4)) as H.
  assert (length (blk_get b off 4) ≤ 4)%nat by (unfold blk_get; rewrite length_take; lia).
  assert (2 ^ (8 * Z.of_nat (length (blk_get b off 4))) ≤ 2 ^ 32) by (apply Z.pow_le_mono_r; lia). lia.
Qed.

Lemma zero_block_ok : block_ok zero_block.
Proof. unfold block_ok, zero_block. rewrite length_replicate. done. Qed.

(** ** The interface between the file system and the log *)

(** A buffer the caller holds: its handle, its block, and whether it has
    changes that have not been logged. *)
Record held := Held { hd_buf : nat; hd_bn : Z; hd_dirty : bool }.

Class BlockLayer := {
  bl_state : Type;
  bl_bread : Z → Z → M bl_state nat;
  bl_brelse : nat → M bl_state unit;
  bl_log_write : nat → M bl_state unit;
  bl_modify : nat → (block → block) → M bl_state unit;   (* stores to bp->data *)
  bl_data : nat → bl_state → block;                      (* bp->data *)

  bl_view : bl_state → Z → block;
  bl_logged : bl_state → gset Z;
  bl_limit : bl_state → nat;
  bl_home : Z → Prop;
  bl_txn : bl_state → list held → Prop;

  bl_view_ok s H x : bl_txn s H → block_ok (bl_view s x);
  bl_data_law s i bn f H : bl_txn s (Held i bn f :: H) → bl_data i s = bl_view s bn;
  bread_law s H bn : bl_txn s H → bl_home bn → bn ∉ hd_bn <$> H → (length H ≤ 2)%nat →
    (size (bl_logged s) + 3 ≤ NBUF)%nat →
    ∃ i s', bl_bread ROOTDEV bn s = Ret i s' ∧ bl_txn s' (Held i bn false :: H) ∧
    (∀ x, bl_view s' x = bl_view s x) ∧ bl_logged s' = bl_logged s ∧ bl_limit s' = bl_limit s;
  modify_law s i bn f H g : bl_txn s (Held i bn f :: H) → block_ok (g (bl_view s bn)) →
    ∃ s', bl_modify i g s = Ret tt s' ∧ bl_txn s' (Held i bn true :: H) ∧
    (∀ x, bl_view s' x = if x =? bn then g (bl_view s bn) else bl_view s x) ∧
    bl_logged s' = bl_logged s ∧ bl_limit s' = bl_limit s;
  log_write_law s i bn f H : bl_txn s (Held i bn f :: H) →
    (size ({[bn]} ∪ bl_logged s) ≤ bl_limit s)%nat →
    ∃ s', bl_log_write i s = Ret tt s' ∧ bl_txn s' (Held i bn false :: H) ∧
    (∀ x, bl_view s' x = bl_view s x) ∧ bl_logged s' = {[bn]} ∪ bl_logged s ∧ bl_limit s' = bl_limit s;
  brelse_law s i bn H : bl_txn s (Held i bn false :: H) →
    ∃ s', bl_brelse i s = Ret tt s' ∧ bl_txn s' H ∧
    (∀ x, bl_view s' x = bl_view s x) ∧ bl_logged s' = bl_logged s ∧ bl_limit s' = bl_limit s
}.

(** User memory as either_copyout() and either_copyin() reach it: a copy
    reports failure after having copied a prefix. *)
Class UserMem := {
  um_state : Type;
  um_copyout : Z → list byte → um_state → bool * um_state;
  um_copyin : Z → nat → um_state → bool * list byte;
  um_copyinstr : Z → Z → um_state → option (list byte);   (* the string, when copyinstr() returns 0 *)
  um_copyin_len va n u : um_copyin va n u = (true, snd (um_copyin va n u)) → length (snd (um_copyin va n u)) = n;
  um_copyin_le va n u : (length (snd (um_copyin va n u)) ≤ n)%nat
}.

Section user_bytes.
Context {U : UserMem}.

(** The bytes [w] are in user memory from [va] on. *)
Definition supplies (u : um_state) (va : Z) (w : list byte) : Prop :=
  ∀ j b, w !! j = Some b → um_copyin (u64 (va + Z.of_nat j)) 1 u = (true, [b]).

(** copyout() of the bytes one by one; the number that succeed. *)
Fixpoint deliver (u : um_state) (va : Z) (r : list byte) : nat * um_state :=
  match r with
  | [] => (0%nat, u)
  | b :: r =>
    let '(ok, u) := um_copyout (u64 va) [b] u in
    if ok : bool then let '(k, u) := deliver u (va + 1) r in (S k, u) else (0%nat, u)
  end.
End user_bytes.
