(* ===== verification/Sleeplock.v ===== *)
(** * kernel/sleeplock.c: sleeping locks

    The functions work on a sleeplock inside a larger state [S] ([get],
    [set]); [c] is the wait channel (the lock's address), [wakeup] what the
    component does to wake a channel up, [pid] is myproc()->pid.

    sleep(lk, &lk->lk) releases the inner spinlock and gives up the CPU; when
    the process runs again it re-acquires it and tests the loop condition
    again, which is acquiresleep() from its start. *)

From stdpp Require Import base sets strings numbers list.
From S2P Require Import Prelude Spinlock.

Record sleeplock := Sleeplock {
  sl_locked : bool;    (* Is the lock held? *)
  sl_lk : bool;        (* spinlock protecting this sleep lock *)
  sl_name : string;    (* Name of lock. *)
  sl_pid : Z           (* Process holding lock *)
}.

Definition set_sl_lk (b : bool) (k : sleeplock) : sleeplock :=
  Sleeplock (sl_locked k) b (sl_name k) (sl_pid k).
Definition set_sl_held (b : bool) (pid : Z) (k : sleeplock) : sleeplock :=
  Sleeplock b (sl_lk k) (sl_name k) pid.

Section sleeplock.
Context {S : Type} (get : S → sleeplock) (set : sleeplock → S → S) (c : chan).
Context (wakeup : chan → M S unit) (pid : Z).

Definition upd_sl (f : sleeplock → sleeplock) : M S unit := modify (λ s, set (f (get s)) s).
Definition sl_acquire : M S unit := acquire_flag (λ s, sl_lk (get s)) (λ b s, set (set_sl_lk b (get s)) s).
Definition sl_release : M S unit := release_flag (λ s, sl_lk (get s)) (λ b s, set (set_sl_lk b (get s)) s).

Definition initsleeplock (name : string) : M S unit := upd_sl (λ _, Sleeplock false false name 0).

Definition acquiresleep : M S unit :=
  sl_acquire;;
  held ← gets (λ s, sl_locked (get s));
  if held : bool then sl_release;; sleep_on c
  else
  upd_sl (set_sl_held true pid);;
  sl_release.

Definition releasesleep : M S unit :=
  sl_acquire;;
  upd_sl (set_sl_held false 0);;
  wakeup c;;
  sl_release.

Definition holdingsleep : M S bool :=
  sl_acquire;;
  r ← gets (λ s, sl_locked (get s) && (sl_pid (get s) =? pid));
  sl_release;;
  mret r.

(** ** Behaviour, for lawful [get] and [set] on the states where [P] holds *)

Context (P : S → Prop).
Hypothesis get_set' : ∀ k s, P s → get (set k s) = k.
Hypothesis set_set : ∀ k k' s, set k (set k' s) = set k s.
Hypothesis set_get : ∀ s, set (get s) s = s.
Hypothesis P_set : ∀ k s, P s → P (set k s).
Hypothesis wakeup_ok : ∀ s, ∃ s', wakeup c s = Ret tt s' ∧ (P s → P s') ∧ ∀ k, wakeup c (set k s) = Ret tt (set k s').

Ltac slsimpl :=
  unfold acquiresleep, releasesleep, holdingsleep, sl_acquire, sl_release, acquire_flag, release_flag, upd_sl,
    gets, modify, mbind, M_bind;
  repeat (simpl; rewrite ?set_set; rewrite ?get_set' by auto; rewrite ?set_set).

Lemma acquiresleep_free s : P s → sl_lk (get s) = false → sl_locked (get s) = false →
  acquiresleep s = Ret tt (set (Sleeplock true false (sl_name (get s)) pid) s).
Proof using get_set' set_set P_set.
  intros HP Hl Hf. slsimpl. rewrite Hl. slsimpl. rewrite Hf. by slsimpl.
Qed.

Lemma sl_lk_restore s : sl_lk (get s) = false → set (set_sl_lk false (set_sl_lk true (get s))) s = s.
Proof using set_get.
  intros Hl. replace (set_sl_lk false _) with (get s); [apply set_get|].
  destruct (get s); simpl in *; by subst.
Qed.

Lemma acquiresleep_held s : P s → sl_lk (get s) = false → sl_locked (get s) = true →
  acquiresleep s = Sleep c s.
Proof using get_set' set_set set_get P_set.
  intros HP Hl Hf. slsimpl. rewrite Hl. slsimpl. rewrite Hf. slsimpl. unfold sleep_on. f_equal.
  by apply sl_lk_restore.
Qed.

Lemma holdingsleep_spec s : P s → sl_lk (get s) = false →
  holdingsleep s = Ret (sl_locked (get s) && (sl_pid (get s) =? pid)) s.
Proof using get_set' set_set set_get P_set.
  intros HP Hl. slsimpl. rewrite Hl. slsimpl. unfold mret, M_ret. f_equal.
  by apply sl_lk_restore.
Qed.

Lemma releasesleep_spec s : P s → sl_lk (get s) = false → ∃ s', wakeup c s = Ret tt s' ∧
  releasesleep s = Ret tt (set (Sleeplock false false (sl_name (get s)) 0) s').
Proof using get_set' set_set wakeup_ok P_set.
  intros HP Hl. destruct (wakeup_ok s) as (s' & E & HP' & Hset). exists s'. split; [done|].
  slsimpl. rewrite Hl. slsimpl. rewrite Hset. by slsimpl.
Qed.
End sleeplock.
