(* ===== verification/Bio.v ===== *)
(** * kernel/bio.c: the buffer cache (the code)

    [bstate] is [bcache] together with the disk behind it: [bufs] are the
    NBUF buffers, pointers to buffers are their indices and [NBUF] itself is
    [&bcache.head].  [dsk] is the contents of the disk, [dtrace] the sequence
    of writes it has completed, [woke] the wakeup() calls made (the process
    table reacts to them).

    [DiskDriver] is what the cache needs from virtio_disk_rw(): when it
    returns, the block has been read into the buffer, or written to the disk. *)

From stdpp Require Import base sets strings numbers list.
From coqutil Require Import Byte.
From S2P Require Import Prelude Riscv Spinlock Block Sleeplock.

Record buf := Buf {
  b_valid : bool;       (* has data been read from disk? *)
  b_dev : Z;
  b_blockno : Z;
  b_lock : sleeplock;
  b_refcnt : Z;
  b_prev : nat;         (* LRU cache list *)
  b_next : nat;
  b_data : block
}.

Definition buf0 : buf := Buf false 0 0 (Sleeplock false false "" 0) 0 0 0 zero_block.
#[export] Instance buf_inhabited : Inhabited buf := populate buf0.

Record bstate := BState {
  bc_lock : bool;
  bufs : list buf;
  head_prev : nat;
  head_next : nat;
  dsk : Z → block;
  dtrace : list (Z * block);
  woke : list chan
}.

Definition set_bc_lock (b : bool) (s : bstate) : bstate :=
  BState b (bufs s) (head_prev s) (head_next s) (dsk s) (dtrace s) (woke s).
Definition set_bufs (l : list buf) (s : bstate) : bstate :=
  BState (bc_lock s) l (head_prev s) (head_next s) (dsk s) (dtrace s) (woke s).
Definition set_head (p n : nat) (s : bstate) : bstate :=
  BState (bc_lock s) (bufs s) p n (dsk s) (dtrace s) (woke s).

Definition getb (i : nat) (s : bstate) : buf := bufs s !!! i.
Definition updb (i : nat) (f : buf → buf) (s : bstate) : bstate := set_bufs (alter f i (bufs s)) s.
Definition upd_buf (i : nat) (f : buf → buf) : M bstate unit := modify (updb i f).

Definition bset_key (dev blockno : Z) (b : buf) : buf :=
  Buf (b_valid b) dev blockno (b_lock b) (b_refcnt b) (b_prev b) (b_next b) (b_data b).
Definition bset_valid (v : bool) (b : buf) : buf :=
  Buf v (b_dev b) (b_blockno b) (b_lock b) (b_refcnt b) (b_prev b) (b_next b) (b_data b).
Definition bset_lock (k : sleeplock) (b : buf) : buf :=
  Buf (b_valid b) (b_dev b) (b_blockno b) k (b_refcnt b) (b_prev b) (b_next b) (b_data b).
Definition bset_refcnt (r : Z) (b : buf) : buf :=
  Buf (b_valid b) (b_dev b) (b_blockno b) (b_lock b) r (b_prev b) (b_next b) (b_data b).
Definition bset_prev (p : nat) (b : buf) : buf :=
  Buf (b_valid b) (b_dev b) (b_blockno b) (b_lock b) (b_refcnt b) p (b_next b) (b_data b).
Definition bset_next (n : nat) (b : buf) : buf :=
  Buf (b_valid b) (b_dev b) (b_blockno b) (b_lock b) (b_refcnt b) (b_prev b) n (b_data b).
Definition bset_data (d : block) (b : buf) : buf :=
  Buf (b_valid b) (b_dev b) (b_blockno b) (b_lock b) (b_refcnt b) (b_prev b) (b_next b) d.

(** [p->next] and [p->prev], where [p] may be [&bcache.head]. *)
Definition nextp (p : nat) (s : bstate) : nat := if (p =? NBUF)%nat then head_next s else b_next (getb p s).
Definition prevp (p : nat) (s : bstate) : nat := if (p =? NBUF)%nat then head_prev s else b_prev (getb p s).
Definition setnext (p v : nat) (s : bstate) : bstate :=
  if (p =? NBUF)%nat then set_head (head_prev s) v s else updb p (bset_next v) s.
Definition setprev (p v : nat) (s : bstate) : bstate :=
  if (p =? NBUF)%nat then set_head v (head_next s) s else updb p (bset_prev v) s.

(** wakeup(): recorded for the process table. *)
Definition bwakeup (c : chan) : M bstate unit :=
  modify (λ s, BState (bc_lock s) (bufs s) (head_prev s) (head_next s) (dsk s) (dtrace s) (woke s ++ [c])).

(** The sleep lock of buffer [i]. *)
Definition getlk (i : nat) (s : bstate) : sleeplock := b_lock (getb i s).
Definition setlk (i : nat) (k : sleeplock) : bstate → bstate := updb i (bset_lock k).
Definition bacquiresleep (pid : Z) (i : nat) : M bstate unit := acquiresleep (getlk i) (setlk i) (ChanBufLock i) pid.
Definition breleasesleep (i : nat) : M bstate unit := releasesleep (getlk i) (setlk i) (ChanBufLock i) bwakeup.
Definition bholdingsleep (pid : Z) (i : nat) : M bstate bool := holdingsleep (getlk i) (setlk i) pid.

(** What reading or writing buffer [i] does. *)
Definition disk_read (i : nat) (s : bstate) : bstate := updb i (bset_data (dsk s (b_blockno (getb i s)))) s.
Definition disk_write (i : nat) (s : bstate) : bstate :=
  let bn := b_blockno (getb i s) in
  let d := b_data (getb i s) in
  BState (bc_lock s) (bufs s) (head_prev s) (head_next s)
    (λ x, if x =? bn then d else dsk s x) (dtrace s ++ [(bn, d)]) (woke s).

Class DiskDriver := {
  virtio_disk_rw : nat → bool → M bstate unit;
  rw_read i s : (i < length (bufs s))%nat → virtio_disk_rw i false s = Ret tt (disk_read i s);
  rw_write i s : (i < length (bufs s))%nat → virtio_disk_rw i true s = Ret tt (disk_write i s)
}.

Section bio.
Context {D : DiskDriver}.

Definition acquire_bcache : M bstate unit := acquire_flag bc_lock set_bc_lock.
Definition release_bcache : M bstate unit := release_flag bc_lock set_bc_lock.

(** ** binit *)

(** [for(b = bcache.buf; b < bcache.buf+NBUF; b++)], [k] buffers to go. *)
Fixpoint binit_loop (k b : nat) : M bstate unit :=
  match k with
  | O => mret tt
  | S k =>
    h ← gets head_next;
    modify (setnext b h);;
    modify (setprev b NBUF);;
    initsleeplock (getlk b) (setlk b) "buffer";;
    h ← gets head_next;
    modify (setprev h b);;
    modify (setnext NBUF b);;
    binit_loop k (S b)
  end.

Definition binit : M bstate unit :=
  modify (set_bc_lock false);;   (* initlock *)
  modify (setprev NBUF NBUF);;
  modify (setnext NBUF NBUF);;
  binit_loop NBUF 0.

(** ** bget *)

(** The first loop of bget(). *)
Fixpoint bget_cached (fuel b : nat) (dev blockno : Z) : M bstate (option nat) :=
  match fuel with
  | O => no_fuel
  | S fuel =>
    if (b =? NBUF)%nat then mret None else
    x ← gets (getb b);
    if (b_dev x =? dev) && (b_blockno x =? blockno) then mret (Some b)
    else bget_cached fuel (b_next x) dev blockno
  end.

(** The second loop: the least recently used unused buffer. *)
Fixpoint bget_unused (fuel b : nat) : M bstate (option nat) :=
  match fuel with
  | O => no_fuel
  | S fuel =>
    if (b =? NBUF)%nat then mret None else
    x ← gets (getb b);
    if b_refcnt x =? 0 then mret (Some b)
    else bget_unused fuel (b_prev x)
  end.

(** Every buffer is visited at most once. *)
Definition bget (pid dev blockno : Z) : M bstate nat :=
  acquire_bcache;;
  (* Is the block already cached? *)
  h ← gets head_next;
  r ← bget_cached (S NBUF) h dev blockno;
  match r with
  | Some b =>
    upd_buf b (λ x, bset_refcnt (u32 (b_refcnt x + 1)) x);;
    release_bcache;;
    bacquiresleep pid b;;
    mret b
  | None =>
    (* Not cached. Recycle the least recently used (LRU) unused buffer. *)
    t ← gets head_prev;
    r ← bget_unused (S NBUF) t;
    match r with
    | Some b =>
      upd_buf b (bset_key dev blockno);;
      upd_buf b (bset_valid false);;
      upd_buf b (bset_refcnt 1);;
      release_bcache;;
      bacquiresleep pid b;;
      mret b
    | None => panic "bget: no buffers"
    end
  end.

(** ** bread, bwrite, brelse, bpin, bunpin *)

Definition bread (pid dev blockno : Z) : M bstate nat :=
  b ← bget pid dev blockno;
  v ← gets (λ s, b_valid (getb b s));
  (if negb v then
     virtio_disk_rw b false;;
     upd_buf b (bset_valid true)
   else mret tt);;
  mret b.

Definition bwrite (pid : Z) (b : nat) : M bstate unit :=
  h ← bholdingsleep pid b;
  if negb h then panic "bwrite" else virtio_disk_rw b true.

(** [b->next->prev = b->prev; b->prev->next = b->next] *)
Definition unlink (b : nat) : M bstate unit :=
  x ← gets (getb b);
  modify (setprev (b_next x) (b_prev x));;
  x ← gets (getb b);
  modify (setnext (b_prev x) (b_next x)).

(** [b->next = head.next; b->prev = &head; head.next->prev = b; head.next = b] *)
Definition push_front (b : nat) : M bstate unit :=
  h ← gets head_next;
  modify (setnext b h);;
  modify (setprev b NBUF);;
  h ← gets head_next;
  modify (setprev h b);;
  modify (setnext NBUF b).

Definition brelse (pid : Z) (b : nat) : M bstate unit :=
  h ← bholdingsleep pid b;
  if negb h then panic "brelse" else
  breleasesleep b;;
  acquire_bcache;;
  upd_buf b (λ x, bset_refcnt (u32 (b_refcnt x - 1)) x);;
  r ← gets (λ s, b_refcnt (getb b s));
  (* no one is waiting for it. *)
  (if r =? 0 then unlink b;; push_front b else mret tt);;
  release_bcache.

Definition bpin (b : nat) : M bstate unit :=
  acquire_bcache;;
  upd_buf b (λ x, bset_refcnt (u32 (b_refcnt x + 1)) x);;
  release_bcache.

Definition bunpin (b : nat) : M bstate unit :=
  acquire_bcache;;
  upd_buf b (λ x, bset_refcnt (u32 (b_refcnt x - 1)) x);;
  release_bcache.

(** A client's change of [b->data], in place. *)
Definition bmodify (b : nat) (f : block → block) : M bstate unit :=
  upd_buf b (λ x, bset_data (f (b_data x)) x).

End bio.

(** A disk that completes each request at once. *)
Definition direct_disk : DiskDriver := {|
  virtio_disk_rw i w s := Ret tt (if w : bool then disk_write i s else disk_read i s);
  rw_read _ _ _ := eq_refl;
  rw_write _ _ _ := eq_refl
|}.

(** The state before binit(): zeroed memory. *)
Definition bstate0 (d : Z → block) : bstate := BState false (replicate NBUF buf0) 0 0 d [] [].
