(* ===== verification/BioLru.v ===== *)
(** * The buffer cache's doubly linked list

    [lru s l]: the buffers, from the most to the least recently used, are
    [l]; the pointers of bcache.head and of the buffers implement it. *)

From stdpp Require Import base sets strings numbers list.
From coqutil Require Import Byte.
From S2P Require Import Prelude Riscv Spinlock Block Sleeplock Bio.

(** The path from [x] through [l] to [y], in both directions. *)
Fixpoint lseg (s : bstate) (x : nat) (l : list nat) (y : nat) : Prop :=
  match l with
  | [] => nextp x s = y ∧ prevp y s = x
  | z :: l => nextp x s = z ∧ prevp z s = x ∧ lseg s z l y
  end.

Definition lru (s : bstate) (l : list nat) : Prop :=
  lseg s NBUF l NBUF ∧ NoDup l ∧ ∀ i, i ∈ l ↔ (i < NBUF)%nat.

Definition bwf (s : bstate) : Prop := length (bufs s) = NBUF.

(** ** Reading fields after writes *)

Lemma updb_length i f s : length (bufs (updb i f s)) = length (bufs s).
Proof. unfold updb. simpl. apply length_alter. Qed.

Lemma getb_lookup i s : (i < length (bufs s))%nat → bufs s !! i = Some (getb i s).
Proof. intros Hi. unfold getb. by apply list_lookup_lookup_total_lt. Qed.

Lemma getb_updb_eq i f s : (i < length (bufs s))%nat → getb i (updb i f s) = f (getb i s).
Proof.
  intros Hi. unfold getb, updb. simpl. apply list_lookup_total_correct.
  rewrite list_lookup_alter_eq, list_lookup_lookup_total_lt by done. done.
Qed.

Lemma getb_updb_ne i j f s : i ≠ j → getb j (updb i f s) = getb j s.
Proof.
  intros Hne. unfold getb, updb. simpl. rewrite !list_lookup_total_alt.
  by rewrite list_lookup_alter_ne by done.
Qed.

Lemma updb_updb i f g s : updb i g (updb i f s) = updb i (g ∘ f) s.
Proof. unfold updb, set_bufs. simpl. by rewrite list_alter_alter_eq. Qed.

Lemma updb_ext i f g s : (∀ b, f b = g b) → updb i f s = updb i g s.
Proof. intros He. unfold updb. f_equal. apply list_alter_ext; [|done]. intros; apply He. Qed.

Lemma updb_id i f s : f (getb i s) = getb i s → updb i f s = s.
Proof.
  intros He. unfold updb. assert (alter f i (bufs s) = bufs s) as ->; [|by destruct s].
  apply list_eq. intros j. destruct (decide (i = j)) as [->|]; [|by rewrite list_lookup_alter_ne].
  rewrite list_lookup_alter_eq. destruct (bufs s !! j) as [b|] eqn:E; [|done]. simpl. f_equal.
  unfold getb in He. by rewrite (list_lookup_total_correct _ _ _ E) in He.
Qed.

Lemma neqb_NBUF p : (p < NBUF)%nat → (p =? NBUF)%nat = false.
Proof. intros. apply Nat.eqb_neq. lia. Qed.

Lemma nextp_setnext p v q s : bwf s → (p ≤ NBUF)%nat → (q ≤ NBUF)%nat →
  nextp q (setnext p v s) = if decide (q = p) then v else nextp q s.
Proof.
  intros Hw Hp Hq. unfold nextp, setnext.
  destruct (Nat.eqb_spec p NBUF), (Nat.eqb_spec q NBUF); case_decide; subst; try done.
  - by rewrite getb_updb_eq by (rewrite Hw; lia).
  - by rewrite getb_updb_ne by done.
Qed.

Lemma nextp_setprev p v q s : bwf s → (p ≤ NBUF)%nat → (q ≤ NBUF)%nat →
  nextp q (setprev p v s) = nextp q s.
Proof.
  intros Hw Hp Hq. unfold nextp, setprev.
  destruct (Nat.eqb_spec p NBUF), (Nat.eqb_spec q NBUF); try done.
  destruct (decide (p = q)) as [->|]; [|by rewrite getb_updb_ne].
  by rewrite getb_updb_eq by (rewrite Hw; lia).
Qed.

Lemma prevp_setprev p v q s : bwf s → (p ≤ NBUF)%nat → (q ≤ NBUF)%nat →
  prevp q (setprev p v s) = if decide (q = p) then v else prevp q s.
Proof.
  intros Hw Hp Hq. unfold prevp, setprev.
  destruct (Nat.eqb_spec p NBUF), (Nat.eqb_spec q NBUF); case_decide; subst; try done.
  - by rewrite getb_updb_eq by (rewrite Hw; lia).
  - by rewrite getb_updb_ne by done.
Qed.

Lemma prevp_setnext p v q s : bwf s → (p ≤ NBUF)%nat → (q ≤ NBUF)%nat →
  prevp q (setnext p v s) = prevp q s.
Proof.
  intros Hw Hp Hq. unfold prevp, setnext.
  destruct (Nat.eqb_spec p NBUF), (Nat.eqb_spec q NBUF); try done.
  destruct (decide (p = q)) as [->|]; [|by rewrite getb_updb_ne].
  by rewrite getb_updb_eq by (rewrite Hw; lia).
Qed.

Lemma bwf_setnext p v s : bwf s → bwf (setnext p v s).
Proof. unfold bwf, setnext. intros. destruct (_ =? _)%nat; [done|]. by rewrite updb_length. Qed.
Lemma bwf_setprev p v s : bwf s → bwf (setprev p v s).
Proof. unfold bwf, setprev. intros. destruct (_ =? _)%nat; [done|]. by rewrite updb_length. Qed.

#[export] Hint Resolve bwf_setnext bwf_setprev : xv6.

(** ** Segments *)

Lemma lseg_ext s s' x l y :
  (∀ p, p ∈ x :: l → nextp p s' = nextp p s) → (∀ p, p ∈ l ++ [y] → prevp p s' = prevp p s) →
  lseg s x l y → lseg s' x l y.
Proof.
  revert x. induction l as [|z l IH]; intros x Hn Hp; simpl.
  - rewrite Hn, Hp by (by left). done.
  - rewrite Hn, Hp by (by left). intros (? & ? & Hl). split_and!; try done.
    apply IH; [intros p Hin; apply Hn; by right|intros p Hin; apply Hp; by right|done].
Qed.

(** The neighbours of an element. *)
Lemma lseg_split s x l1 i l2 y :
  lseg s x (l1 ++ i :: l2) y → lseg s x l1 i ∧ lseg s i l2 y.
Proof.
  revert x. induction l1 as [|z l1 IH]; intros x; simpl.
  - intros (? & ? & ?). done.
  - intros (? & ? & Hl). destruct (IH z Hl). by split_and!.
Qed.

Lemma lseg_join s x l1 i l2 y :
  lseg s x l1 i → lseg s i l2 y → lseg s x (l1 ++ i :: l2) y.
Proof.
  revert x. induction l1 as [|z l1 IH]; intros x; simpl.
  - intros (? & ?) ?. done.
  - intros (? & ? & Hl) ?. split_and!; try done. by apply IH.
Qed.

Lemma last_cons_default (l : list nat) w a b : List.last (w :: l) a = List.last (w :: l) b.
Proof. revert w. induction l as [|z l IH]; intros w; [done|]. apply (IH z). Qed.

Lemma lseg_prev s x l y : lseg s x l y → prevp y s = List.last l x.
Proof.
  revert x. induction l as [|z l IH]; intros x; simpl; [naive_solver|].
  intros (_ & _ & Hl). rewrite (IH z Hl). destruct l; [done|]. apply last_cons_default.
Qed.

Lemma lseg_next s x l y : lseg s x l y → nextp x s = hd y l.
Proof. destruct l; simpl; naive_solver. Qed.

(** The end points can be moved: joining [l1] and [l2] around [i]. *)
Lemma lseg_last s x l y : lseg s x l y → nextp (List.last l x) s = y.
Proof.
  revert x. induction l as [|z l IH]; intros x; simpl; [naive_solver|].
  intros (_ & _ & Hl). specialize (IH z Hl). destruct l; [done|].
  by rewrite (last_cons_default _ _ x z).
Qed.

Lemma last_elem_of (l : list nat) x : List.last l x ∈ x :: l.
Proof.
  revert x. induction l as [|z l IH]; intros x; [by left|]. right.
  destruct l as [|z' l]; [by left|]. specialize (IH z).
  change (List.last (z :: z' :: l) x) with (List.last (z' :: l) x).
  by rewrite (last_cons_default _ _ x z).
Qed.

Lemma hd_elem_of (l : list nat) y : hd y l ∈ l ++ [y].
Proof. destruct l; by left. Qed.

(** *** Unlinking *)

(** The state after [b->next->prev = b->prev; b->prev->next = b->next]. *)
Definition unlinked (i : nat) (s : bstate) : bstate :=
  setnext (prevp i s) (nextp i s) (setprev (nextp i s) (prevp i s) s).

Lemma unlinked_next i s q : bwf s → (nextp i s ≤ NBUF)%nat → (prevp i s ≤ NBUF)%nat → (q ≤ NBUF)%nat →
  nextp q (unlinked i s) = if decide (q = prevp i s) then nextp i s else nextp q s.
Proof.
  intros. unfold unlinked. rewrite nextp_setnext by auto with xv6. case_decide; [done|].
  by rewrite nextp_setprev.
Qed.

Lemma unlinked_prev i s q : bwf s → (nextp i s ≤ NBUF)%nat → (prevp i s ≤ NBUF)%nat → (q ≤ NBUF)%nat →
  prevp q (unlinked i s) = if decide (q = nextp i s) then prevp i s else prevp q s.
Proof.
  intros. unfold unlinked. rewrite prevp_setnext by auto with xv6. by rewrite prevp_setprev.
Qed.

Lemma lseg_unlinked s x l1 i l2 y :
  bwf s → lseg s x (l1 ++ i :: l2) y → NoDup (x :: l1 ++ i :: l2) → NoDup ((l1 ++ i :: l2) ++ [y]) →
  (∀ p, p ∈ x :: (l1 ++ i :: l2) ++ [y] → (p ≤ NBUF)%nat) →
  lseg (unlinked i s) x (l1 ++ l2) y.
Proof.
  intros Hw Hl Hnd Hnd' Hb. apply lseg_split in Hl as [Hl1 Hl2].
  pose proof (lseg_prev _ _ _ _ Hl1) as Hpi. pose proof (lseg_next _ _ _ _ Hl2) as Hni.
  assert (Hpe : prevp i s ∈ x :: l1) by (rewrite Hpi; apply last_elem_of).
  assert (Hne : nextp i s ∈ l2 ++ [y]) by (rewrite Hni; apply hd_elem_of).
  assert (Hpb : (prevp i s ≤ NBUF)%nat) by (apply Hb; set_solver).
  assert (Hnb : (nextp i s ≤ NBUF)%nat) by (apply Hb; set_solver).
  (* l2, after i *)
  assert (Hseg2 : ∀ z l2', l2 = z :: l2' → lseg (unlinked i s) z l2' y).
  { intros z l2' ->. destruct Hl2 as (Hz & _ & Hl2). simpl in Hz.
    apply (lseg_ext s); [| |done]; intros p Hp.
    - rewrite unlinked_next by (try done; apply Hb; set_solver). rewrite decide_False; [done|].
      intros ->. clear -Hpe Hp Hnd. apply NoDup_cons in Hnd as [Hx Hnd]. apply NoDup_app in Hnd as (_ & Hd & _).
      apply elem_of_cons in Hpe as [He|He]; [rewrite He in Hp; set_solver|].
      apply (Hd _ He). set_solver.
    - rewrite unlinked_prev by (try done; apply Hb; set_solver). rewrite decide_False; [done|].
      rewrite Hz. intros ->. clear -Hp Hnd'. rewrite <- app_assoc in Hnd'.
      apply NoDup_app in Hnd' as (_ & _ & Hnd'). simpl in Hnd'. apply NoDup_cons in Hnd' as [_ Hnd'].
      apply NoDup_cons in Hnd' as [Hz _]. done. }
  (* l1, before i *)
  assert (Hseg1 : ∀ l0 z, (∀ p, p ∈ z :: l0 → p ∈ x :: l1) → (∀ p, p ∈ l0 → p ∈ l1) →
    NoDup (z :: l0) → List.last l0 z = prevp i s → lseg s z l0 i → lseg (unlinked i s) z (l0 ++ l2) y).
  { induction l0 as [|w l0 IH]; intros z Hsub Hsub' Hnd0 Hlast Hlz.
    - simpl in Hlast. subst z. simpl. destruct l2 as [|w l2']; simpl.
      + rewrite unlinked_next, decide_True by done. rewrite unlinked_prev by (try done; apply Hb; set_solver).
        rewrite decide_True by done. simpl in Hni. by split.
      + rewrite unlinked_next, decide_True by done. simpl in Hni.
        rewrite unlinked_prev by (try done; apply Hb; set_solver). rewrite decide_True by done.
        split_and!; [done|done|]. by apply Hseg2.
    - destruct Hlz as (Hz1 & Hz2 & Hlz). simpl.
      rewrite unlinked_next by (try done; apply Hb; specialize (Hsub z); set_solver).
      rewrite unlinked_prev by (try done; apply Hb; specialize (Hsub' w); set_solver).
      apply NoDup_cons in Hnd0 as [Hzn Hnd0].
      assert (Hlast' : List.last l0 w = prevp i s) by (rewrite <- Hlast; destruct l0; [done|]; apply (last_cons_default l0)).
      rewrite decide_False; [rewrite decide_False|].
      + split_and!; [done|done|]. apply IH; try done; set_solver.
      + intros ->. clear -Hne Hsub' Hnd'. rewrite <- app_assoc in Hnd'. apply NoDup_app in Hnd' as (_ & Hd & _).
        apply (Hd (nextp i s)); [apply Hsub'; by left|]. right. done.
      + intros ->. apply Hzn. rewrite <- Hlast'. apply last_elem_of. }
  apply (Hseg1 l1 x); try done. clear -Hnd. apply NoDup_cons in Hnd as [Hx Hnd].
  apply NoDup_app in Hnd as (Hnd & _). apply NoDup_cons. set_solver.
Qed.

(** *** Pushing at the front *)

Definition pushed (i : nat) (s : bstate) : bstate :=
  let s1 := setprev i NBUF (setnext i (head_next s) s) in
  setnext NBUF i (setprev (head_next s1) i s1).

Lemma head_next_nextp s : head_next s = nextp NBUF s.
Proof. done. Qed.

Lemma lseg_pushed s i l :
  bwf s → lseg s NBUF l NBUF → NoDup (i :: l) → (i < NBUF)%nat → (∀ p, p ∈ l → (p < NBUF)%nat) →
  lseg (pushed i s) NBUF (i :: l) NBUF.
Proof.
  intros Hw Hl Hnd Hi Hb. apply NoDup_cons in Hnd as [Hil Hnd].
  pose proof (lseg_next _ _ _ _ Hl) as Hh. rewrite <- head_next_nextp in Hh.
  set (h := head_next s) in *.
  assert (Hhb : (h ≤ NBUF)%nat) by (rewrite Hh; destruct l as [|z l]; simpl; [lia|]; apply Nat.lt_le_incl, Hb; by left).
  assert (Hhi : h ≠ i).
  { rewrite Hh. destruct l as [|z l]; simpl; [lia|]. intros ->. set_solver. }
  set (s1 := setprev i NBUF (setnext i h s)).
  assert (Hw1 : bwf s1) by (unfold s1; auto with xv6).
  assert (Hh1 : head_next s1 = h).
  { rewrite head_next_nextp. unfold s1. rewrite nextp_setprev by (auto with xv6; lia).
    rewrite nextp_setnext by (auto; lia). rewrite decide_False by lia. done. }
  assert (Hn : ∀ q, (q ≤ NBUF)%nat → nextp q (pushed i s) = 
    if decide (q = NBUF) then i else if decide (q = i) then h else nextp q s).
  { intros q Hq. unfold pushed. fold h s1. rewrite Hh1. rewrite nextp_setnext by (auto with xv6).
    case_decide; [done|]. rewrite nextp_setprev by (auto with xv6). unfold s1.
    rewrite nextp_setprev by (auto with xv6; lia). by rewrite nextp_setnext by (auto with xv6; lia). }
  assert (Hp : ∀ q, (q ≤ NBUF)%nat → prevp q (pushed i s) = 
    if decide (q = h) then i else if decide (q = i) then NBUF else prevp q s).
  { intros q Hq. unfold pushed. fold h s1. rewrite Hh1. rewrite prevp_setnext by (auto with xv6).
    rewrite prevp_setprev by (auto with xv6). case_decide; [done|]. unfold s1.
    rewrite prevp_setprev by (auto with xv6; lia). by rewrite prevp_setnext by (auto with xv6; lia). }
  cbn [lseg]. rewrite Hn, decide_True by done. rewrite Hp by lia. rewrite decide_False by congruence.
  rewrite decide_True by done. split_and!; [done|done|].
  destruct l as [|z l]; cbn [lseg].
  - rewrite Hn by lia. rewrite decide_False, decide_True by lia. simpl in Hh.
    rewrite Hp, decide_True by done. done.
  - simpl in Hh. rewrite Hn by lia. rewrite decide_False, decide_True by lia.
    assert (Hzb : (z < NBUF)%nat) by (apply Hb; by left).
    rewrite Hp by lia. rewrite decide_True by done. split_and!; [done|done|].
    destruct Hl as (_ & _ & Hl). apply NoDup_cons in Hnd as [Hzl Hnd].
    apply (lseg_ext s); [| |done]; intros p Hpin.
    + assert (p < NBUF)%nat by (apply Hb; done). rewrite Hn by lia.
      rewrite decide_False by lia. rewrite decide_False; [done|]. intros ->. done.
    + apply elem_of_app in Hpin as [Hpin|Hpin].
      * assert (p < NBUF)%nat by (apply Hb; by right). rewrite Hp by lia.
        assert (p ≠ h) by (rewrite Hh; intros ->; done).
        assert (p ≠ i) by (intros ->; apply Hil; by right). by rewrite !decide_False.
      * apply list_elem_of_singleton in Hpin as ->. rewrite Hp by lia.
        rewrite !decide_False by lia. done.
Qed.
