(* ===== verification/BioFacts.v ===== *)
(** * kernel/bio.c: correctness

    [bview s bn] is the current contents of disk block [bn]: the cached copy
    when there is a valid one, the disk's otherwise.  [bc_ok s l] is the
    cache's invariant.  Each operation is specified by its effect on the
    view, the disk and the one buffer it works on. *)

From stdpp Require Import base sets strings numbers list.
From coqutil Require Import Byte.
From S2P Require Import Prelude Riscv Spinlock Block Sleeplock Bio BioLru.

(** ** The invariant *)

(** A buffer whose block is cached on the device the system uses. *)
Definition caches (b : buf) (bn : Z) : Prop := b_dev b = ROOTDEV ∧ b_blockno b = bn.

#[export] Instance caches_dec b bn : Decision (caches b bn).
Proof. unfold caches. apply _. Defined.

Definition buf_ok (d : Z → block) (b : buf) : Prop :=
  sl_lk (b_lock b) = false ∧ (0 ≤ b_refcnt b < 2 ^ 32) ∧ block_ok (b_data b) ∧
  (sl_locked (b_lock b) = true → 0 < b_refcnt b) ∧
  (b_dev b = ROOTDEV ∨ (b_dev b = 0 ∧ b_refcnt b = 0 ∧ b_valid b = false)) ∧
  (b_valid b = true → b_refcnt b = 0 → b_data b = d (b_blockno b)).

Definition bufs_ok (bs : list buf) (d : Z → block) : Prop :=
  length bs = NBUF ∧ (∀ x, block_ok (d x)) ∧
  (∀ i b, bs !! i = Some b → buf_ok d b) ∧
  (∀ i j a b bn, bs !! i = Some a → bs !! j = Some b → caches a bn → caches b bn → i = j).

Definition bc_ok (s : bstate) (l : list nat) : Prop :=
  bc_lock s = false ∧ lru s l ∧ bufs_ok (bufs s) (dsk s).

(** The buffer that caches block [bn]. *)
Definition bufof (bs : list buf) (bn : Z) : option buf := snd <$> list_find (λ b, caches b bn) bs.

(** The logical contents of block [bn], its reference count, and the process
    that has it locked. *)
Definition buf_view (d : Z → block) (bn : Z) (o : option buf) : block :=
  match o with Some b => if b_valid b then b_data b else d bn | None => d bn end.
Definition buf_ref (o : option buf) : Z := match o with Some b => b_refcnt b | None => 0 end.
Definition buf_hold (o : option buf) : option Z :=
  match o with Some b => if sl_locked (b_lock b) then Some (sl_pid (b_lock b)) else None | None => None end.

Definition bview (s : bstate) (bn : Z) : block := buf_view (dsk s) bn (bufof (bufs s) bn).
Definition bref (s : bstate) (bn : Z) : Z := buf_ref (bufof (bufs s) bn).
Definition bhold (s : bstate) (bn : Z) : option Z := buf_hold (bufof (bufs s) bn).

(** Buffer [i] holds block [bn], locked by [pid]. *)
Definition bheld (s : bstate) (pid : Z) (i : nat) (bn : Z) : Prop :=
  (i < NBUF)%nat ∧ caches (getb i s) bn ∧ b_valid (getb i s) = true ∧
  sl_locked (b_lock (getb i s)) = true ∧ sl_pid (b_lock (getb i s)) = pid ∧ 0 < b_refcnt (getb i s).

(** A buffer without its links. *)
Definition core (b : buf) : buf := bset_prev 0 (bset_next 0 b).

(** ** The cached copy of a block *)

Lemma bufof_Some bs d bn i b : bufs_ok bs d → bs !! i = Some b → caches b bn → bufof bs bn = Some b.
Proof.
  intros (_ & _ & _ & Hu) Hi Hc. unfold bufof.
  destruct (list_find _ bs) as [[j b']|] eqn:E; simpl.
  - apply list_find_Some in E as (Hj & Hc' & _). assert (j = i) as -> by (by eapply Hu). congruence.
  - apply list_find_None in E. rewrite Forall_lookup in E. by destruct (E i b Hi).
Qed.

Lemma bufof_inv bs bn b : bufof bs bn = Some b → ∃ i, bs !! i = Some b ∧ caches b bn.
Proof.
  unfold bufof. destruct (list_find _ bs) as [[j b']|] eqn:E; simpl; [|done]. intros [= ->].
  apply list_find_Some in E as (Hj & Hc' & _). by exists j.
Qed.

Lemma bufof_None bs bn : (∀ i b, bs !! i = Some b → ¬ caches b bn) → bufof bs bn = None.
Proof.
  intros Hn. destruct (bufof bs bn) as [b|] eqn:E; [|done].
  apply bufof_inv in E as (i & Hi & Hc). by destruct (Hn i b).
Qed.

(** Replacing one buffer. *)
Lemma bufs_ok_insert bs d i b b' :
  bufs_ok bs d → bs !! i = Some b → buf_ok d b' →
  (∀ j a bn, j ≠ i → bs !! j = Some a → caches a bn → caches b' bn → False) →
  bufs_ok (<[i := b']> bs) d.
Proof.
  intros (Hlen & Hd & Hall & Hu) Hi Hb' Hun. split_and!; [by rewrite length_insert|done| |].
  - intros j a Hj. destruct (decide (j = i)) as [->|].
    + rewrite list_lookup_insert_eq in Hj by (by eapply lookup_lt_Some). by simplify_eq.
    + rewrite list_lookup_insert_ne in Hj by done. by eapply Hall.
  - assert (Hl : ∀ j a, <[i := b']> bs !! j = Some a → (j = i ∧ a = b') ∨ (j ≠ i ∧ bs !! j = Some a)).
    { intros j a Hj. destruct (decide (j = i)) as [->|].
      - rewrite list_lookup_insert_eq in Hj by (by eapply lookup_lt_Some). simplify_eq. by left.
      - rewrite list_lookup_insert_ne in Hj by done. by right. }
    intros j k a c bn [[-> ->]|[Hj1 Hj]]%Hl [[-> ->]|[Hk1 Hk]]%Hl Hc1 Hc2; [done| | |by eapply Hu].
    + by destruct (Hun k c bn).
    + by destruct (Hun j a bn).
Qed.

(** Replacing a buffer by one with the same key keeps keys unique. *)
Lemma same_key_unique bs d i b b' :
  bufs_ok bs d → bs !! i = Some b → b_dev b' = b_dev b → b_blockno b' = b_blockno b →
  ∀ j a bn, j ≠ i → bs !! j = Some a → caches a bn → caches b' bn → False.
Proof.
  intros (_ & _ & _ & Hu) Hi Hd Hk j a bn Hne Hj Hc Hc'. apply Hne.
  apply (Hu j i a b bn); try done. unfold caches in *. by rewrite <- Hd, <- Hk.
Qed.

Lemma bufof_insert bs d i b b' bn :
  bufs_ok bs d → bufs_ok (<[i := b']> bs) d → bs !! i = Some b →
  bufof (<[i := b']> bs) bn =
    if decide (caches b' bn) then Some b' else if decide (caches b bn) then None else bufof bs bn.
Proof.
  intros Hok Hok' Hi. pose proof (lookup_lt_Some _ _ _ Hi) as Hlt.
  assert (Hu : ∀ j a, <[i := b']> bs !! j = Some a → (j = i ∧ a = b') ∨ (j ≠ i ∧ bs !! j = Some a)).
  { intros j a Hj. destruct (decide (j = i)) as [->|].
    - rewrite list_lookup_insert_eq in Hj by done. simplify_eq. by left.
    - rewrite list_lookup_insert_ne in Hj by done. by right. }
  case_decide as Hc'; [|case_decide as Hc].
  - eapply bufof_Some; [done| |done]. by apply list_lookup_insert_eq.
  - apply bufof_None. intros j a [[-> ->]|[Hne Hj]]%Hu; [done|]. intros Ha.
    destruct Hok as (_ & _ & _ & Hun). apply Hne. by eapply Hun.
  - destruct (bufof bs bn) as [a|] eqn:E.
    + apply bufof_inv in E as (j & Hj & Ha). eapply bufof_Some; [done| |done].
      rewrite list_lookup_insert_ne; [done|]. intros ->. congruence.
    + apply bufof_None. intros j a [[-> ->]|[Hne Hj]]%Hu; [done|]. intros Ha.
      by rewrite (bufof_Some bs d bn j a) in E.
Qed.

(** Links do not matter. *)
Lemma core_fields a b : core a = core b →
  b_valid a = b_valid b ∧ b_dev a = b_dev b ∧ b_blockno a = b_blockno b ∧ b_lock a = b_lock b ∧
  b_refcnt a = b_refcnt b ∧ b_data a = b_data b.
Proof. destruct a, b. unfold core, bset_prev, bset_next. simpl. intros [=]. subst. by split_and!. Qed.

Lemma bufs_ok_core bs bs' d : core <$> bs = core <$> bs' → bufs_ok bs d → bufs_ok bs' d.
Proof.
  intros He (Hlen & Hd & Hall & Hu).
  assert (Hlk : ∀ i b', bs' !! i = Some b' → ∃ b, bs !! i = Some b ∧ core b = core b').
  { intros i b' Hi. apply (f_equal (λ l, l !! i)) in He. rewrite !list_lookup_fmap, Hi in He.
    destruct (bs !! i) as [b|]; [|done]. apply (inj Some) in He. by exists b. }
  split_and!; [|done| |].
  - apply (f_equal length) in He. rewrite !length_fmap in He. lia.
  - intros i b' Hi. destruct (Hlk i b' Hi) as (b & Hb & Hc). apply core_fields in Hc as (Hv & Hde & Hbn & Hk & Hr & Hda).
    specialize (Hall i b Hb). unfold buf_ok in *. by rewrite <- Hv, <- Hde, <- Hbn, <- Hk, <- Hr, <- Hda.
  - intros i j a' b' bn Hi Hj. destruct (Hlk i a' Hi) as (a & Ha & Hca), (Hlk j b' Hj) as (b & Hb & Hcb).
    apply core_fields in Hca as (_ & Hda & Hna & _), Hcb as (_ & Hdb & Hnb & _).
    unfold caches. rewrite <- Hda, <- Hna, <- Hdb, <- Hnb. by apply Hu.
Qed.

Lemma bufof_core bs bs' d bn : core <$> bs = core <$> bs' → bufs_ok bs d →
  core <$> bufof bs' bn = core <$> bufof bs bn.
Proof.
  intros He Hok. pose proof (bufs_ok_core _ _ _ He Hok) as Hok'.
  assert (Hlk : ∀ i, core <$> bs !! i = core <$> bs' !! i).
  { intros i. apply (f_equal (λ l, l !! i)) in He. by rewrite !list_lookup_fmap in He. }
  assert (Hone : ∀ (l l' : list buf) b, bufs_ok l' d → (∀ i, core <$> l !! i = core <$> l' !! i) →
    bufof l bn = Some b → core <$> bufof l' bn = Some (core b)).
  { intros l l' b Hl' Hll (i & Hi & Hc)%bufof_inv. specialize (Hll i). rewrite Hi in Hll.
    destruct (l' !! i) as [b'|] eqn:Hi'; [|done]. apply (inj Some) in Hll as Hcore.
    pose proof (core_fields _ _ Hcore) as (_ & Hde & Hbn & _).
    rewrite (bufof_Some l' d bn i b'); [|done|done|]; [simpl; by rewrite Hcore|].
    unfold caches in *. by rewrite <- Hde, <- Hbn. }
  destruct (bufof bs bn) as [b|] eqn:E; [by apply (Hone bs bs' b)|].
  destruct (bufof bs' bn) as [b'|] eqn:E'; [|done].
  apply (Hone bs' bs b') in E'; [|done|by intros]. by rewrite E in E'.
Qed.

(** ** Scanning the list *)

Lemma bget_cached_spec s dev bn l x fuel :
  lseg s x l NBUF → (length l < fuel)%nat → (∀ p, p ∈ l → (p < NBUF)%nat) →
  bget_cached fuel (nextp x s) dev bn s =
    Ret (snd <$> list_find (λ i, b_dev (getb i s) = dev ∧ b_blockno (getb i s) = bn) l) s.
Proof.
  revert x fuel. induction l as [|z l IH]; intros x fuel Hl Hf Hb; (destruct fuel as [|fuel]; [simpl in Hf; lia|]).
  { destruct Hl as [-> _]. done. }
  destruct Hl as (-> & _ & Hl). cbn [bget_cached]. rewrite neqb_NBUF by (apply Hb; by left).
  unfold gets. unfold mbind at 1, M_bind at 1. cbn [list_find].
  destruct (Z.eqb_spec (b_dev (getb z s)) dev), (Z.eqb_spec (b_blockno (getb z s)) bn); simpl;
    try (rewrite decide_True by done; done); rewrite decide_False by naive_solver.
  all: assert (Hn : b_next (getb z s) = nextp z s)
    by (unfold nextp; by rewrite neqb_NBUF by (apply Hb; by left)); rewrite Hn.
  all: rewrite (IH z) by (try done; simpl in Hf; try lia; intros; apply Hb; by right).
  all: destruct (list_find _ l) as [[? ?]|]; done.
Qed.

Lemma lseg_app_inv s x l z y : lseg s x (l ++ [z]) y → lseg s x l z ∧ nextp z s = y ∧ prevp y s = z.
Proof. intros Hl. apply lseg_split in Hl as [? [? ?]]. done. Qed.

Lemma bget_unused_spec s l y fuel :
  lseg s NBUF l y → (length l < fuel)%nat → (∀ p, p ∈ l → (p < NBUF)%nat) →
  bget_unused fuel (prevp y s) s =
    Ret (snd <$> list_find (λ i, b_refcnt (getb i s) = 0) (reverse l)) s.
Proof.
  revert y fuel. induction l as [|z l IH] using rev_ind; intros y fuel Hl Hf Hb;
    (destruct fuel as [|fuel]; [rewrite ?length_app in Hf; simpl in Hf; lia|]).
  { destruct Hl as [_ ->]. done. }
  apply lseg_app_inv in Hl as (Hl & _ & ->). rewrite length_app in Hf. simpl in Hf.
  assert (Hz : (z < NBUF)%nat) by (apply Hb; set_solver).
  rewrite reverse_snoc. cbn [bget_unused list_find]. rewrite neqb_NBUF by done.
  unfold gets. unfold mbind at 1, M_bind at 1.
  destruct (Z.eqb_spec (b_refcnt (getb z s)) 0) as [He|He]; [by rewrite decide_True|].
  rewrite decide_False by done.
  assert (Hn : b_prev (getb z s) = prevp z s) by (unfold prevp; by rewrite neqb_NBUF). rewrite Hn.
  rewrite (IH z) by (try done; try lia; intros; apply Hb; set_solver).
  destruct (list_find _ (reverse l)) as [[? ?]|]; done.
Qed.

(** ** Sleep locks of buffers *)

Section slk.
Context (i : nat).

Definition inrange (s : bstate) : Prop := (i < length (bufs s))%nat.

Lemma getlk_setlk k s : inrange s → getlk i (setlk i k s) = k.
Proof. intros H. unfold getlk, setlk. by rewrite getb_updb_eq. Qed.
Lemma setlk_setlk k k' s : setlk i k (setlk i k' s) = setlk i k s.
Proof. unfold setlk. by rewrite updb_updb. Qed.
Lemma setlk_getlk s : setlk i (getlk i s) s = s.
Proof. unfold setlk, getlk. apply updb_id. by destruct (getb i s). Qed.
Lemma inrange_setlk k s : inrange s → inrange (setlk i k s).
Proof. unfold inrange, setlk. by rewrite updb_length. Qed.
Lemma bwakeup_setlk c s : ∃ s', bwakeup c s = Ret tt s' ∧ (inrange s → inrange s') ∧
  ∀ k, bwakeup c (setlk i k s) = Ret tt (setlk i k s').
Proof. eexists. split; [done|]. split; [done|]. done. Qed.

Lemma bacquiresleep_free pid s : inrange s → sl_lk (getlk i s) = false → sl_locked (getlk i s) = false →
  bacquiresleep pid i s = Ret tt (setlk i (Sleeplock true false (sl_name (getlk i s)) pid) s).
Proof. apply acquiresleep_free; eauto using getlk_setlk, setlk_setlk, inrange_setlk. Qed.

(** The lock is held: the process waits, and the buffer is not touched. *)
Lemma bacquiresleep_held pid s : inrange s → sl_lk (getlk i s) = false → sl_locked (getlk i s) = true →
  bacquiresleep pid i s = Sleep (ChanBufLock i) s.
Proof. apply acquiresleep_held; eauto using getlk_setlk, setlk_setlk, inrange_setlk, setlk_getlk. Qed.

Lemma bholdingsleep_spec pid s : inrange s → sl_lk (getlk i s) = false →
  bholdingsleep pid i s = Ret (sl_locked (getlk i s) && (sl_pid (getlk i s) =? pid)) s.
Proof. apply holdingsleep_spec; eauto using getlk_setlk, setlk_setlk, inrange_setlk, setlk_getlk. Qed.

Lemma breleasesleep_spec s : inrange s → sl_lk (getlk i s) = false → ∃ s',
  bwakeup (ChanBufLock i) s = Ret tt s' ∧
  breleasesleep i s = Ret tt (setlk i (Sleeplock false false (sl_name (getlk i s)) 0) s').
Proof.
  apply releasesleep_spec; eauto using getlk_setlk, setlk_setlk, inrange_setlk, bwakeup_setlk.
Qed.
End slk.

(** ** bget() *)

Lemma list_find_unique {A} (P : A → Prop) `{∀ x, Decision (P x)} (l : list A) x :
  x ∈ l → P x → (∀ y, y ∈ l → P y → y = x) → snd <$> list_find P l = Some x.
Proof.
  intros Hx HP Hu. destruct (list_find P l) as [[k y]|] eqn:E.
  - apply list_find_Some in E as (Hk & HPy & _). simpl. f_equal. apply Hu; [|done].
    by eapply list_elem_of_lookup_2.
  - apply list_find_None in E. rewrite Forall_forall in E. by destruct (E x Hx).
Qed.

Lemma list_find_none {A} (P : A → Prop) `{∀ x, Decision (P x)} (l : list A) :
  (∀ y, y ∈ l → ¬ P y) → snd <$> list_find P l = None.
Proof. intros Hn. assert (list_find P l = None) as ->; [|done]. by apply list_find_None, Forall_forall. Qed.

Lemma list_find_some {A} (P : A → Prop) `{∀ x, Decision (P x)} (l : list A) x :
  x ∈ l → P x → ∃ y, snd <$> list_find P l = Some y ∧ y ∈ l ∧ P y.
Proof.
  intros Hx HP. destruct (list_find P l) as [[k y]|] eqn:E.
  - apply list_find_Some in E as (Hk & HPy & _). exists y. split_and!; [done| |done].
    by eapply list_elem_of_lookup_2.
  - apply list_find_None in E. rewrite Forall_forall in E. by destruct (E x Hx).
Qed.

Lemma lseg_lock s b x l y : lseg s x l y → lseg (set_bc_lock b s) x l y.
Proof. apply lseg_ext; intros; done. Qed.

Section ops.
Context {D : DiskDriver}.

Lemma bc_ok_facts s l : bc_ok s l →
  bc_lock s = false ∧ length (bufs s) = NBUF ∧ length l = NBUF ∧ (∀ p, p ∈ l → (p < NBUF)%nat).
Proof.
  intros (Hl & (_ & Hnd & Hin) & Hlen & _). split_and!; [done|done| |intros p; apply Hin].
  assert (Hp : l ≡ₚ seq 0 NBUF).
  { apply NoDup_Permutation; [done|apply NoDup_seq|]. intros x. rewrite Hin, elem_of_seq. lia. }
  apply Permutation_length in Hp. by rewrite length_seq in Hp.
Qed.

Lemma bc_ok_buf s l i : bc_ok s l → (i < NBUF)%nat → bufs s !! i = Some (getb i s) ∧ buf_ok (dsk s) (getb i s).
Proof.
  intros Hok Hi. destruct (bc_ok_facts s l Hok) as (_ & Hlen & _).
  assert (Hlk : bufs s !! i = Some (getb i s)) by (apply getb_lookup; lia).
  split; [done|]. destruct Hok as (_ & _ & _ & _ & Hall & _). by eapply Hall.
Qed.

Definition bc_hit (pid : Z) (x : buf) : buf :=
  bset_lock (Sleeplock true false (sl_name (b_lock x)) pid) (bset_refcnt (b_refcnt x + 1) x).
Definition bc_miss (pid bn : Z) (x : buf) : buf :=
  bset_lock (Sleeplock true false (sl_name (b_lock x)) pid)
    (bset_refcnt 1 (bset_valid false (bset_key ROOTDEV bn x))).

Lemma unlock_updb i f s : bc_lock s = false → set_bc_lock false (updb i f (set_bc_lock true s)) = updb i f s.
Proof. destruct s. simpl. by intros ->. Qed.

Lemma acquire_bcache_ok s : bc_lock s = false → acquire_bcache s = Ret tt (set_bc_lock true s).
Proof. intros Hl. unfold acquire_bcache, acquire_flag, gets, modify, mbind, M_bind. by rewrite Hl. Qed.

Lemma release_bcache_ok s : bc_lock s = true → release_bcache s = Ret tt (set_bc_lock false s).
Proof. intros Hl. unfold release_bcache, release_flag, gets, modify, mbind, M_bind. by rewrite Hl. Qed.

(** A change of one buffer under the lock. *)
Lemma locked_updb {A} i f s (k : M bstate A) : bc_lock s = true →
  (upd_buf i f;; release_bcache;; k) s = k (set_bc_lock false (updb i f s)).
Proof.
  intros Hl. rewrite (bind_Ret _ _ _ tt (updb i f s)) by done.
  by rewrite (bind_Ret _ _ _ _ _ (release_bcache_ok (updb i f s) Hl)).
Qed.

Lemma bget_scan s l dev bn : bc_ok s l →
  bget_cached (S NBUF) (head_next (set_bc_lock true s)) dev bn (set_bc_lock true s) =
    Ret (snd <$> list_find (λ i, b_dev (getb i s) = dev ∧ b_blockno (getb i s) = bn) l) (set_bc_lock true s).
Proof.
  intros Hok. destruct (bc_ok_facts s l Hok) as (_ & _ & Hlen & Hin).
  refine (bget_cached_spec (set_bc_lock true s) dev bn l NBUF (S NBUF) _ _ Hin); [|lia].
  apply lseg_lock. apply Hok.
Qed.

Lemma bget_hit pid bn s l i :
  bc_ok s l → (i < NBUF)%nat → caches (getb i s) bn → b_refcnt (getb i s) < 2 ^ 32 - 1 →
  sl_locked (b_lock (getb i s)) = false → bget pid ROOTDEV bn s = Ret i (updb i (bc_hit pid) s).
Proof.
  intros Hok Hi Hc Hr Hlk. destruct (bc_ok_facts s l Hok) as (Hl & Hlen & _ & Hin).
  destruct (bc_ok_buf s l i Hok Hi) as [Hbi Hbok].
  unfold bget. rewrite (bind_Ret _ _ _ _ _ (acquire_bcache_ok s Hl)).
  rewrite (bind_Ret _ _ _ (head_next s) (set_bc_lock true s)) by done.
  rewrite (bind_Ret _ _ _ _ _ (bget_scan s l ROOTDEV bn Hok)).
  rewrite (list_find_unique _ l i); [|apply Hok; lia|done|].
  2: { intros y Hy Hcy. destruct Hok as (_ & _ & _ & _ & _ & Hu). apply (Hu y i (getb y s) (getb i s) bn); try done.
       apply getb_lookup. rewrite Hlen. by apply Hin. }
  rewrite locked_updb by done. rewrite unlock_updb by done. set (s1 := updb _ _ s).
  assert (Hb1 : getb i s1 = bset_refcnt (b_refcnt (getb i s) + 1) (getb i s)).
  { unfold s1. rewrite getb_updb_eq by (rewrite Hlen; done). destruct Hbok as (_ & Hr0 & _).
    rewrite u32_id by lia. done. }
  rewrite (bind_Ret _ _ _ _ _ (bacquiresleep_free i pid s1 ltac:(unfold inrange, s1; rewrite updb_length, Hlen; done)
    ltac:(unfold getlk; rewrite Hb1; apply Hbok) ltac:(unfold getlk; rewrite Hb1; done))).
  unfold mret, M_ret, setlk, getlk. f_equal. rewrite Hb1. unfold s1. rewrite updb_updb.
  unfold updb. f_equal. apply list_alter_ext; [|done]. intros x Hx. rewrite Hbi in Hx. injection Hx as <-.
  unfold compose. destruct Hbok as (_ & Hr0 & _). rewrite u32_id by lia. done.
Qed.

Lemma bget_miss pid bn s l :
  bc_ok s l → (∀ i, (i < NBUF)%nat → ¬ caches (getb i s) bn) →
  (∃ i, (i < NBUF)%nat ∧ b_refcnt (getb i s) = 0) → ∃ i,
  (i < NBUF)%nat ∧ b_refcnt (getb i s) = 0 ∧
  snd <$> list_find (λ i, b_refcnt (getb i s) = 0) (reverse l) = Some i ∧
  bget pid ROOTDEV bn s = Ret i (updb i (bc_miss pid bn) s).
Proof.
  intros Hok Hno (k & Hk & Hk0). destruct (bc_ok_facts s l Hok) as (Hl & Hlen & Hll & Hin).
  destruct (list_find_some (λ i, b_refcnt (getb i s) = 0) (reverse l) k) as (i & Hf & Hil & Hi0).
  { rewrite elem_of_reverse. by apply Hok. } { done. }
  rewrite elem_of_reverse in Hil. pose proof (Hin i Hil) as Hi. exists i. split_and!; try done.
  destruct (bc_ok_buf s l i Hok Hi) as [Hbi Hbok].
  unfold bget. rewrite (bind_Ret _ _ _ _ _ (acquire_bcache_ok s Hl)).
  rewrite (bind_Ret _ _ _ (head_next s) (set_bc_lock true s)) by done.
  rewrite (bind_Ret _ _ _ _ _ (bget_scan s l ROOTDEV bn Hok)). rewrite list_find_none; [|intros y Hy Hc; apply (Hno y); [by apply Hin|done]].
  cbv iota beta. assert (Hun : bget_unused (S NBUF) (head_prev (set_bc_lock true s)) (set_bc_lock true s) =
    Ret (snd <$> list_find (λ i, b_refcnt (getb i s) = 0) (reverse l)) (set_bc_lock true s)).
  { refine (bget_unused_spec (set_bc_lock true s) l NBUF (S NBUF) _ _ Hin); [|lia]. apply lseg_lock. apply Hok. }
  rewrite (bind_Ret _ _ _ (head_prev s) (set_bc_lock true s)) by done.
  rewrite (bind_Ret _ _ _ _ _ Hun), Hf.
  rewrite (bind_Ret _ _ _ tt (updb i (bset_key ROOTDEV bn) (set_bc_lock true s))) by done.
  rewrite (bind_Ret _ _ _ tt (updb i (bset_valid false) (updb i (bset_key ROOTDEV bn) (set_bc_lock true s)))) by done.
  rewrite locked_updb by done. rewrite !updb_updb. rewrite unlock_updb by done. set (s1 := updb _ _ s).
  assert (Hb1 : getb i s1 = bset_refcnt 1 (bset_valid false (bset_key ROOTDEV bn (getb i s)))).
  { unfold s1. by rewrite getb_updb_eq by (rewrite Hlen; done). }
  assert (Hfree : sl_locked (b_lock (getb i s)) = false).
  { destruct Hbok as (_ & _ & _ & Hlo & _). destruct (sl_locked (b_lock (getb i s))); [|done].
    rewrite Hi0 in Hlo. specialize (Hlo eq_refl). lia. }
  rewrite (bind_Ret _ _ _ _ _ (bacquiresleep_free i pid s1 ltac:(unfold inrange, s1; rewrite updb_length, Hlen; done)
    ltac:(unfold getlk; rewrite Hb1; apply Hbok) ltac:(unfold getlk; rewrite Hb1; done))).
  unfold mret, M_ret, setlk, getlk. f_equal. rewrite Hb1. unfold s1. rewrite updb_updb.
  unfold updb. f_equal. apply list_alter_ext; [|done]. intros x Hx. rewrite Hbi in Hx. injection Hx as <-. done.
Qed.

(** All buffers are in use. *)
Lemma bget_panics pid bn s l :
  bc_ok s l → (∀ i, (i < NBUF)%nat → ¬ caches (getb i s) bn ∧ b_refcnt (getb i s) ≠ 0) →
  bget pid ROOTDEV bn s = Panic "bget: no buffers".
Proof.
  intros Hok Hno. destruct (bc_ok_facts s l Hok) as (Hl & Hlen & Hll & Hin).
  unfold bget. rewrite (bind_Ret _ _ _ _ _ (acquire_bcache_ok s Hl)).
  rewrite (bind_Ret _ _ _ (head_next s) (set_bc_lock true s)) by done.
  rewrite (bind_Ret _ _ _ _ _ (bget_scan s l ROOTDEV bn Hok)). rewrite list_find_none; [|intros y Hy; exact (proj1 (Hno y (Hin y Hy)))].
  cbv iota beta. assert (Hun : bget_unused (S NBUF) (head_prev (set_bc_lock true s)) (set_bc_lock true s) =
    Ret (snd <$> list_find (λ i, b_refcnt (getb i s) = 0) (reverse l)) (set_bc_lock true s)).
  { refine (bget_unused_spec (set_bc_lock true s) l NBUF (S NBUF) _ _ Hin); [|lia]. apply lseg_lock. apply Hok. }
  rewrite (bind_Ret _ _ _ (head_prev s) (set_bc_lock true s)) by done.
  rewrite (bind_Ret _ _ _ _ _ Hun), list_find_none; [done|]. intros y Hy. rewrite elem_of_reverse in Hy. apply Hno. by apply Hin.
Qed.
End ops.
