(* ===== verification/BioOps.v ===== *)
(** * kernel/bio.c: specification of the operations and properties

    A client of the cache sees, for each block, its contents ([bview]), its
    reference count ([bref]) and who has it locked ([bhold]). *)

From stdpp Require Import base sets strings numbers list.
From coqutil Require Import Byte.
From S2P Require Import Prelude Riscv Spinlock Block Sleeplock Bio BioLru BioFacts.

(** The disk and its history are untouched. *)
Definition same_disk (s s' : bstate) : Prop := dsk s' = dsk s ∧ dtrace s' = dtrace s.

(** Buffers other than [i] that a process holds are as they were. *)
Definition keep_held (i : nat) (s s' : bstate) : Prop :=
  ∀ j pid bn, j ≠ i → bheld s pid j bn → bheld s' pid j bn ∧ b_data (getb j s') = b_data (getb j s).

(** Some buffer is not in use. *)
Definition has_free (s : bstate) : Prop := ∃ i, (i < NBUF)%nat ∧ b_refcnt (getb i s) = 0.

Definition upd {A} (f : Z → A) (k : Z) (v : A) : Z → A := λ x, if x =? k then v else f x.

Section ops.
Context {D : DiskDriver}.

(** ** Changing one buffer *)

Lemma alter_insert (bs : list buf) f i b : bs !! i = Some b → alter f i bs = <[i := f b]> bs.
Proof.
  intros Hi. apply list_eq. intros j. destruct (decide (i = j)) as [->|].
  - rewrite list_lookup_alter_eq, Hi, list_lookup_insert_eq by (by eapply lookup_lt_Some). done.
  - by rewrite list_lookup_alter_ne, list_lookup_insert_ne.
Qed.

Lemma updb_links s i f q : (i < length (bufs s))%nat → b_next (f (getb i s)) = b_next (getb i s) →
  b_prev (f (getb i s)) = b_prev (getb i s) →
  nextp q (updb i f s) = nextp q s ∧ prevp q (updb i f s) = prevp q s.
Proof.
  intros Hi Hn Hp. unfold nextp, prevp. destruct (q =? NBUF)%nat; [done|].
  destruct (decide (i = q)) as [->|]; [by rewrite getb_updb_eq|by rewrite getb_updb_ne].
Qed.

(** [f] keeps the links of buffer [i] and leads to an acceptable buffer. *)
Definition good_update (s : bstate) (i : nat) (f : buf → buf) : Prop :=
  (i < NBUF)%nat ∧ b_next (f (getb i s)) = b_next (getb i s) ∧ b_prev (f (getb i s)) = b_prev (getb i s) ∧
  buf_ok (dsk s) (f (getb i s)) ∧
  (∀ j bn, j ≠ i → (j < NBUF)%nat → caches (getb j s) bn → caches (f (getb i s)) bn → False).

Lemma bc_ok_updb s l i f : bc_ok s l → good_update s i f → bc_ok (updb i f s) l.
Proof.
  intros Hok (Hi & Hn & Hp & Hb & Hu). destruct (bc_ok_facts s l Hok) as (_ & Hlen & _).
  destruct (bc_ok_buf s l i Hok Hi) as [Hbi _]. pose proof Hok as (Hl & (Hseg & Hnd & Hin) & Hbs).
  split_and!; [done| |].
  - split_and!; [|done|done]. apply (lseg_ext s); [..|done]; intros q _; apply updb_links; try done; by rewrite Hlen.
  - simpl. rewrite (alter_insert _ _ _ _ Hbi). eapply bufs_ok_insert; [done|done|done|].
    intros j a bn Hne Hj Hc Hc'. assert (Hjl : (j < NBUF)%nat) by (apply lookup_lt_Some in Hj; lia).
    rewrite (getb_lookup j s) in Hj by lia. simplify_eq. by eapply (Hu j bn).
Qed.

Lemma bufof_updb s l i f bn : bc_ok s l → good_update s i f →
  bufof (bufs (updb i f s)) bn =
    if decide (caches (f (getb i s)) bn) then Some (f (getb i s))
    else if decide (caches (getb i s) bn) then None else bufof (bufs s) bn.
Proof.
  intros Hok Hg. pose proof (bc_ok_updb s l i f Hok Hg) as (_ & _ & Hok').
  destruct Hg as (Hi & _). destruct (bc_ok_buf s l i Hok Hi) as [Hbi _]. simpl in Hok' |- *.
  rewrite (alter_insert _ _ _ _ Hbi) in Hok' |- *. eapply bufof_insert; [apply Hok|done|done].
Qed.

(** The key is kept: views change at one block at most. *)
Lemma abs_updb s l i f bn : bc_ok s l → good_update s i f → caches (getb i s) bn → caches (f (getb i s)) bn →
  (∀ x, bview (updb i f s) x =
     upd (bview s) bn (buf_view (dsk s) bn (Some (f (getb i s)))) x) ∧
  (∀ x, bref (updb i f s) x = upd (bref s) bn (b_refcnt (f (getb i s))) x) ∧
  (∀ x, bhold (updb i f s) x = upd (bhold s) bn (buf_hold (Some (f (getb i s)))) x).
Proof.
  intros Hok Hg Hc Hc'. unfold bview, bref, bhold, upd.
  assert (H : ∀ x, bufof (bufs (updb i f s)) x = if x =? bn then Some (f (getb i s)) else bufof (bufs s) x).
  { intros x. rewrite (bufof_updb s l i f x Hok Hg). destruct (Z.eqb_spec x bn) as [->|Hne].
    - by rewrite decide_True.
    - rewrite !decide_False; [done| |]; intros [_ ?]; destruct Hc, Hc'; congruence. }
  split_and!; intros x; rewrite H; destruct (Z.eqb_spec x bn) as [->|]; done.
Qed.

Lemma bufof_getb s l i bn : bc_ok s l → (i < NBUF)%nat → caches (getb i s) bn → bufof (bufs s) bn = Some (getb i s).
Proof.
  intros Hok Hi Hc. destruct (bc_ok_buf s l i Hok Hi) as [Hbi _]. eapply bufof_Some; [apply Hok|done|done].
Qed.

Lemma keep_held_updb s i f : (i < length (bufs s))%nat → keep_held i s (updb i f s).
Proof.
  intros Hi j pid bn Hne Hh. unfold bheld in *. rewrite !getb_updb_ne by done. by split.
Qed.

Lemma bheld_bufof s l pid i bn : bc_ok s l → bheld s pid i bn → bufof (bufs s) bn = Some (getb i s).
Proof. intros Hok (Hi & Hc & _). by eapply bufof_getb. Qed.

Lemma bheld_view s l pid i bn : bc_ok s l → bheld s pid i bn →
  bview s bn = b_data (getb i s) ∧ bref s bn = b_refcnt (getb i s) ∧ bhold s bn = Some pid.
Proof.
  intros Hok Hh. unfold bview, bref, bhold. rewrite (bheld_bufof s l pid i bn Hok Hh). simpl.
  destruct Hh as (_ & _ & -> & -> & -> & _). done.
Qed.

(** ** bread() *)

(** The rest of bread(), after bget(). *)
Definition bc_fill (d : block) (x : buf) : buf :=
  if b_valid x then x else bset_valid true (bset_data d x).

Lemma bread_after pid bn s i f :
  length (bufs s) = NBUF → (i < NBUF)%nat → b_blockno (f (getb i s)) = bn → 
  bget pid ROOTDEV bn s = Ret i (updb i f s) →
  bread pid ROOTDEV bn s = Ret i (updb i (bc_fill (dsk s bn) ∘ f) s).
Proof.
  intros Hlen Hi Hbn E. unfold bread. rewrite (bind_Ret _ _ _ _ _ E).
  unfold gets. unfold mbind at 1, M_bind at 1.
  assert (Hg : getb i (updb i f s) = f (getb i s)) by (apply getb_updb_eq; lia). rewrite Hg.
  assert (Hlk : bufs s !! i = Some (getb i s)) by (apply getb_lookup; lia).
  destruct (b_valid (f (getb i s))) eqn:Ev; cbn [negb].
  - rewrite bind_ret_l. unfold mret, M_ret. f_equal. unfold updb. f_equal. apply list_alter_ext; [|done].
    intros x Hx. rewrite Hlk in Hx. injection Hx as <-. unfold compose, bc_fill. by rewrite Ev.
  - rewrite bind_assoc. rewrite (bind_Ret _ _ _ _ _ (rw_read i (updb i f s) ltac:(rewrite updb_length; lia))).
    rewrite (bind_Ret _ _ _ tt (updb i (bset_valid true) (disk_read i (updb i f s)))) by done.
    unfold mret, M_ret, disk_read. f_equal. rewrite Hg, !updb_updb.
    unfold updb. f_equal. apply list_alter_ext; [|done].
    intros x Hx. rewrite Hlk in Hx. injection Hx as <-. unfold compose, bc_fill. by rewrite Ev, Hbn.
Qed.

Lemma bread_spec pid bn s l :
  bc_ok s l → bref s bn < 2 ^ 32 - 1 → bhold s bn = None → (bufof (bufs s) bn ≠ None ∨ has_free s) → ∃ i s',
  bread pid ROOTDEV bn s = Ret i s' ∧ bc_ok s' l ∧ bheld s' pid i bn ∧ b_data (getb i s') = bview s bn ∧
  (∀ x, bview s' x = bview s x) ∧ (∀ x, bref s' x = upd (bref s) bn (bref s bn + 1) x) ∧
  (∀ x, bhold s' x = upd (bhold s) bn (Some pid) x) ∧ keep_held i s s' ∧ same_disk s s' ∧
  (∀ q b, ¬ bheld s q i b).
Proof.
  intros Hok Href Hhold Hav. destruct (bc_ok_facts s l Hok) as (_ & Hlen & _).
  pose proof Hok as (_ & _ & _ & Hdok & _).
  destruct (bufof (bufs s) bn) as [b|] eqn:Eb.
  - (* cached *)
    apply bufof_inv in Eb as Hb. destruct Hb as (i & Hlk & Hc).
    assert (Hi : (i < NBUF)%nat) by (apply lookup_lt_Some in Hlk; lia).
    destruct (bc_ok_buf s l i Hok Hi) as [Hbi Hbok]. rewrite Hlk in Hbi. injection Hbi as ->.
    set (b := getb i s) in *.
    assert (Hr : bref s bn = b_refcnt b) by (unfold bref; by rewrite Eb).
    assert (Hunl : sl_locked (b_lock b) = false).
    { unfold bhold in Hhold. rewrite Eb in Hhold. simpl in Hhold. by destruct (sl_locked (b_lock b)). }
    pose proof (bget_hit pid bn s l i Hok Hi Hc ltac:(fold b; lia) Hunl) as E.
    apply bread_after in E; [|done|done|apply Hc].
    set (f := bc_fill (dsk s bn) ∘ bc_hit pid) in *.
    destruct Hbok as (H1 & H2 & H3 & H4 & H5 & H6). destruct Hc as [Hcd Hcb].
    assert (Hf : b_next (f b) = b_next b ∧ b_prev (f b) = b_prev b ∧ b_dev (f b) = ROOTDEV ∧ b_blockno (f b) = bn ∧
      b_valid (f b) = true ∧ b_lock (f b) = Sleeplock true false (sl_name (b_lock b)) pid ∧
      b_refcnt (f b) = b_refcnt b + 1 ∧ b_data (f b) = buf_view (dsk s) bn (Some b)).
    { unfold f, compose, bc_fill, bc_hit. simpl. destruct (b_valid b) eqn:Ev; simpl; by split_and!. }
    destruct Hf as (Hf1 & Hf2 & Hf3 & Hf4 & Hf5 & Hf6 & Hf7 & Hf8).
    assert (Hg : good_update s i f).
    { split_and!; try done; fold b.
      - unfold buf_ok. rewrite Hf3, Hf5, Hf6, Hf7, Hf8. simpl. split_and!; try done; try lia.
        destruct (b_valid b); [done|apply Hdok].
      - destruct Hok as (_ & _ & _ & _ & _ & Hu). intros j x Hne Hj Hcj Hcf. apply Hne.
        destruct Hcf as [_ Hx]. apply (Hu j i (getb j s) b x); [apply getb_lookup; by rewrite Hlen|exact Hlk|exact Hcj|].
        split; congruence. }
    destruct (abs_updb s l i f bn Hok Hg) as (Hv' & Hr' & Hh'); [done|by split|]. fold b in Hv', Hr', Hh'.
    exists i, (updb i f s). split_and!; [done|by apply bc_ok_updb| | | | | |apply keep_held_updb; lia|done|intros q x (_ & _ & _ & Hl & _); fold b in Hl; congruence].
    + unfold bheld. rewrite getb_updb_eq by lia. fold b. rewrite Hf5, Hf6, Hf7. simpl. unfold caches.
      split_and!; try done. lia.
    + rewrite getb_updb_eq by lia. fold b. rewrite Hf8. unfold bview. by rewrite Eb.
    + intros x. rewrite Hv'. unfold upd. destruct (Z.eqb_spec x bn) as [->|]; [|done]. simpl.
      rewrite Hf5, Hf8. unfold bview. by rewrite Eb.
    + intros x. rewrite Hr'. unfold upd. by rewrite Hf7, Hr.
    + intros x. rewrite Hh'. unfold upd. simpl. by rewrite Hf6.
  - (* a buffer is recycled *)
    destruct Hav as [|Hfree]; [done|].
    assert (Hno : ∀ i, (i < NBUF)%nat → ¬ caches (getb i s) bn).
    { intros i Hi Hc. by rewrite (bufof_getb s l i bn Hok Hi Hc) in Eb. }
    destruct (bget_miss pid bn s l Hok Hno Hfree) as (i & Hi & Hi0 & _ & E).
    apply bread_after in E; [|done|done|done].
    set (f := bc_fill (dsk s bn) ∘ bc_miss pid bn) in *. set (b := getb i s) in *.
    destruct (bc_ok_buf s l i Hok Hi) as [Hbi (H1 & H2 & H3 & H4 & H5 & H6)]. fold b in Hbi, H1, H2, H3, H4, H5, H6.
    assert (Hcf : caches (f b) bn) by done.
    assert (Hg : good_update s i f).
    { split_and!; try done; fold b.
      - unfold buf_ok. simpl. split_and!; try done. by left.
      - intros j x Hne Hj Hcj [_ Hx]. simpl in Hx. subst x. by apply (Hno j). }
    pose proof (λ x, bufof_updb s l i f x Hok Hg) as Hbo. fold b in Hbo.
    exists i, (updb i f s).
    split_and!; [done|by apply bc_ok_updb| | | | | |apply keep_held_updb; lia|done|intros q x (_ & _ & _ & _ & _ & Hl); fold b in Hl; lia].
    + unfold bheld. rewrite getb_updb_eq by lia. fold b. by split_and!.
    + rewrite getb_updb_eq by lia. unfold bview. by rewrite Eb.
    + intros x. unfold bview. rewrite Hbo. case_decide as Hx.
      { destruct Hx as [_ Hx]. simpl in Hx. subst x. by rewrite Eb. }
      case_decide as Hx'; [|done]. rewrite (bufof_getb s l i x Hok Hi Hx'). simpl. fold b.
      destruct (b_valid b) eqn:Ev; [|done]. destruct Hx' as [_ <-]. by rewrite H6.
    + intros x. unfold bref, upd. rewrite Hbo. rewrite Eb. case_decide as Hx.
      { destruct Hx as [_ Hx]. simpl in Hx. subst x. by rewrite Z.eqb_refl. }
      destruct (Z.eqb_spec x bn) as [->|]; [by destruct Hx|].
      case_decide as Hx'; [|done]. rewrite (bufof_getb s l i x Hok Hi Hx'). simpl. by rewrite <- Hi0.
    + intros x. unfold bhold, upd. rewrite Hbo. case_decide as Hx.
      { destruct Hx as [_ Hx]. simpl in Hx. subst x. by rewrite Z.eqb_refl. }
      destruct (Z.eqb_spec x bn) as [->|]; [by destruct Hx|].
      case_decide as Hx'; [|done]. rewrite (bufof_getb s l i x Hok Hi Hx'). simpl. fold b.
      destruct (sl_locked (b_lock b)); [|done]. specialize (H4 eq_refl). lia.
Qed.
(** ** bwrite() *)

Lemma bholding_held s l pid i bn : bc_ok s l → bheld s pid i bn → bholdingsleep pid i s = Ret true s.
Proof.
  intros Hok (Hi & _ & _ & Hlk & Hpid & _). destruct (bc_ok_facts s l Hok) as (_ & Hlen & _).
  destruct (bc_ok_buf s l i Hok Hi) as [_ (Hsl & _)].
  rewrite bholdingsleep_spec; [|unfold inrange; lia|done]. unfold getlk. by rewrite Hlk, Hpid, Z.eqb_refl.
Qed.

Lemma bwrite_spec s l pid i bn : bc_ok s l → bheld s pid i bn → ∃ s',
  bwrite pid i s = Ret tt s' ∧ bc_ok s' l ∧
  (∀ x, bview s' x = bview s x) ∧ (∀ x, bref s' x = bref s x) ∧ (∀ x, bhold s' x = bhold s x) ∧
  (∀ j, getb j s' = getb j s) ∧
  (∀ x, dsk s' x = upd (dsk s) bn (bview s bn) x) ∧ dtrace s' = dtrace s ++ [(bn, bview s bn)].
Proof.
  intros Hok Hh. destruct (bc_ok_facts s l Hok) as (_ & Hlen & _).
  destruct (bheld_view s l pid i bn Hok Hh) as (Hv & _ & _). pose proof Hh as (Hi & (Hcd & Hcb) & Hval & _).
  exists (disk_write i s). unfold bwrite. rewrite (bind_Ret _ _ _ _ _ (bholding_held s l pid i bn Hok Hh)). simpl.
  rewrite rw_write by lia. rewrite Hcb, Hv. split_and!; try done.
  - destruct Hok as (Hl & Hlru & Hlb & Hd & Hall & Hu). split_and!; [done| |].
    + destruct Hlru as (Hseg & Hnd & Hin). split_and!; [|done|done]. apply (lseg_ext s); done.
    + split_and!; [done| | |done]; simpl.
      * intros x. destruct (x =? b_blockno (getb i s)); [|done].
        apply (Hall i). apply getb_lookup. lia.
      * intros j a Hj. destruct (Hall j a Hj) as (H1 & H2 & H3 & H4 & H5 & H6). do 5 (split; [done|]).
        simpl. intros Hva Hr. destruct (Z.eqb_spec (b_blockno a) (b_blockno (getb i s))) as [He|]; [|by apply H6].
        assert (j = i) as ->.
        { apply (Hu j i a (getb i s) bn); [done|apply getb_lookup; lia| |by split].
          split; [|congruence]. destruct H5 as [|(_ & _ & Hf)]; [done|congruence]. }
        rewrite (getb_lookup i s) in Hj by lia. by simplify_eq.
  - intros x. unfold bview. simpl. destruct (bufof (bufs s) x) as [b|] eqn:Eb; simpl.
    + destruct (b_valid b) eqn:Evb; [done|]. destruct (Z.eqb_spec x (b_blockno (getb i s))) as [->|]; [|done].
      rewrite Hcb in Eb. rewrite (bheld_bufof s l pid i bn Hok Hh) in Eb. simplify_eq. congruence.
    + destruct (Z.eqb_spec x (b_blockno (getb i s))) as [->|]; [|done].
      rewrite Hcb in Eb. by rewrite (bheld_bufof s l pid i bn Hok Hh) in Eb.
Qed.

(** Only the owner may write. *)
Lemma bwrite_panics s l pid i : bc_ok s l → (i < NBUF)%nat →
  sl_locked (b_lock (getb i s)) && (sl_pid (b_lock (getb i s)) =? pid) = false →
  bwrite pid i s = Panic "bwrite" ∧ brelse pid i s = Panic "brelse".
Proof.
  intros Hok Hi Hn. destruct (bc_ok_facts s l Hok) as (_ & Hlen & _).
  destruct (bc_ok_buf s l i Hok Hi) as [_ (Hsl & _)].
  assert (E : bholdingsleep pid i s = Ret false s).
  { rewrite bholdingsleep_spec; [|unfold inrange; lia|done]. unfold getlk. by rewrite Hn. }
  unfold bwrite, brelse. by rewrite !(bind_Ret _ _ _ _ _ E).
Qed.

(** ** Changing the data *)

Lemma bmodify_spec s l pid i bn g : bc_ok s l → bheld s pid i bn → block_ok (g (b_data (getb i s))) → ∃ s',
  bmodify i g s = Ret tt s' ∧ bc_ok s' l ∧ bheld s' pid i bn ∧
  (∀ x, bview s' x = upd (bview s) bn (g (bview s bn)) x) ∧
  (∀ x, bref s' x = bref s x) ∧ (∀ x, bhold s' x = bhold s x) ∧ keep_held i s s' ∧ same_disk s s'.
Proof.
  intros Hok Hh Hg. destruct (bc_ok_facts s l Hok) as (_ & Hlen & _).
  destruct (bheld_view s l pid i bn Hok Hh) as (Hv & Hr & Hho). pose proof Hh as (Hi & Hc & Hval & Hlk & Hpid & Href).
  destruct (bc_ok_buf s l i Hok Hi) as [Hbi (H1 & H2 & H3 & H4 & H5 & H6)].
  set (f := λ x, bset_data (g (b_data x)) x).
  assert (Hgu : good_update s i f).
  { split_and!; try done.
    - do 5 (split; [done|]). simpl. intros _ Hz. lia.
    - destruct Hok as (_ & _ & _ & _ & _ & Hu). intros j x Hne Hj Hcj Hcf. apply Hne.
      apply (Hu j i (getb j s) (getb i s) x); [apply getb_lookup; lia|done|done|done]. }
  destruct (abs_updb s l i f bn Hok Hgu Hc Hc) as (Hv' & Hr' & Hh').
  exists (updb i f s). split_and!; [done|by apply bc_ok_updb| | | | |apply keep_held_updb; lia|done].
  - unfold bheld. rewrite getb_updb_eq by lia. done.
  - intros x. rewrite Hv'. simpl. rewrite Hval. by rewrite Hv.
  - intros x. rewrite Hr'. unfold upd. destruct (Z.eqb_spec x bn) as [->|]; [|done]. by rewrite Hr.
  - intros x. rewrite Hh'. unfold upd. destruct (Z.eqb_spec x bn) as [->|]; [|done]. simpl.
    by rewrite Hho, Hlk, Hpid.
Qed.

(** ** bpin() and bunpin() *)

Lemma bset_ref_spec s l i bn r : bc_ok s l → (i < NBUF)%nat → caches (getb i s) bn → 0 ≤ r < 2 ^ 32 →
  (sl_locked (b_lock (getb i s)) = true → 0 < r) →
  (b_valid (getb i s) = true → r = 0 → bview s bn = dsk s bn) →
  let s' := updb i (bset_refcnt r) s in
  bc_ok s' l ∧ (∀ x, bview s' x = bview s x) ∧ (∀ x, bref s' x = upd (bref s) bn r x) ∧
  (∀ x, bhold s' x = bhold s x) ∧ same_disk s s' ∧
  (∀ j pid b, bheld s pid j b → (j = i → 0 < r) → bheld s' pid j b ∧ b_data (getb j s') = b_data (getb j s)).
Proof.
  intros Hok Hi Hc Hr Hlkr Hcl. destruct (bc_ok_facts s l Hok) as (_ & Hlen & _).
  destruct (bc_ok_buf s l i Hok Hi) as [Hbi (H1 & H2 & H3 & H4 & H5 & H6)].
  pose proof (bufof_getb s l i bn Hok Hi Hc) as Hbo.
  assert (Hgu : good_update s i (bset_refcnt r)).
  { split_and!; try done.
    - do 4 (split; [done|]). split; simpl.
      + left. apply Hc.
      + intros Hv Hz. rewrite <- (proj2 Hc) in Hcl. rewrite <- (Hcl Hv Hz). unfold bview.
        rewrite (proj2 Hc), Hbo. simpl. by rewrite Hv.
    - destruct Hok as (_ & _ & _ & _ & _ & Hu). intros j x Hne Hj Hcj Hcf. apply Hne.
      apply (Hu j i (getb j s) (getb i s) x); [apply getb_lookup; lia|done|done|done]. }
  destruct (abs_updb s l i (bset_refcnt r) bn Hok Hgu Hc Hc) as (Hv' & Hr' & Hh').
  split_and!; [by apply bc_ok_updb| | | |done|].
  - intros x. rewrite Hv'. unfold upd. destruct (Z.eqb_spec x bn) as [->|]; [|done]. unfold bview. by rewrite Hbo.
  - intros x. rewrite Hr'. done.
  - intros x. rewrite Hh'. unfold upd. destruct (Z.eqb_spec x bn) as [->|]; [|done]. unfold bhold. by rewrite Hbo.
  - intros j pid b Hh Hj. destruct (decide (j = i)) as [->|Hne].
    + unfold bheld in *. rewrite !getb_updb_eq by lia. simpl. split; [|done].
      destruct Hh as (? & ? & ? & ? & ? & ?). split_and!; try done. by apply Hj.
    + by apply keep_held_updb; [lia|..].
Qed.

Lemma bpin_run s l i : bc_ok s l → (i < NBUF)%nat → b_refcnt (getb i s) < 2 ^ 32 - 1 →
  bpin i s = Ret tt (updb i (bset_refcnt (b_refcnt (getb i s) + 1)) s).
Proof.
  intros Hok Hi Hr. destruct (bc_ok_facts s l Hok) as (Hl & Hlen & _).
  destruct (bc_ok_buf s l i Hok Hi) as [Hbi (_ & H2 & _)].
  unfold bpin. rewrite (bind_Ret _ _ _ _ _ (acquire_bcache_ok s Hl)).
  rewrite (bind_Ret _ _ _ tt (updb i (λ x, bset_refcnt (u32 (b_refcnt x + 1)) x) (set_bc_lock true s))) by done.
  rewrite release_bcache_ok, unlock_updb by done. f_equal. unfold updb. f_equal. apply list_alter_ext; [|done].
  intros x Hx. rewrite Hbi in Hx. injection Hx as <-. rewrite u32_id by lia. done.
Qed.

Lemma bunpin_run s l i : bc_ok s l → (i < NBUF)%nat → 0 < b_refcnt (getb i s) →
  bunpin i s = Ret tt (updb i (bset_refcnt (b_refcnt (getb i s) - 1)) s).
Proof.
  intros Hok Hi Hr. destruct (bc_ok_facts s l Hok) as (Hl & Hlen & _).
  destruct (bc_ok_buf s l i Hok Hi) as [Hbi (_ & H2 & _)].
  unfold bunpin. rewrite (bind_Ret _ _ _ _ _ (acquire_bcache_ok s Hl)).
  rewrite (bind_Ret _ _ _ tt (updb i (λ x, bset_refcnt (u32 (b_refcnt x - 1)) x) (set_bc_lock true s))) by done.
  rewrite release_bcache_ok, unlock_updb by done. f_equal. unfold updb. f_equal. apply list_alter_ext; [|done].
  intros x Hx. rewrite Hbi in Hx. injection Hx as <-. rewrite u32_id by lia. done.
Qed.
End ops.
