(* ===== verification/BioThms.v ===== *)
(** * kernel/bio.c: brelse(), binit() and properties *)

From stdpp Require Import base sets strings numbers list.
From coqutil Require Import Byte.
From S2P Require Import Prelude Riscv Spinlock Block Sleeplock Bio BioLru BioFacts BioOps.

Section relse.
Context {D : DiskDriver}.

(** ** Relinking *)

Lemma core_setnext p v s : core <$> bufs (setnext p v s) = core <$> bufs s.
Proof.
  unfold setnext. destruct (_ =? _)%nat; [done|]. unfold updb. simpl. apply list_eq. intros j.
  rewrite !list_lookup_fmap. destruct (decide (p = j)) as [->|]; [|by rewrite list_lookup_alter_ne].
  rewrite list_lookup_alter_eq. by destruct (bufs s !! j).
Qed.
Lemma core_setprev p v s : core <$> bufs (setprev p v s) = core <$> bufs s.
Proof.
  unfold setprev. destruct (_ =? _)%nat; [done|]. unfold updb. simpl. apply list_eq. intros j.
  rewrite !list_lookup_fmap. destruct (decide (p = j)) as [->|]; [|by rewrite list_lookup_alter_ne].
  rewrite list_lookup_alter_eq. by destruct (bufs s !! j).
Qed.

(** The state apart from the links. *)
Definition same_data (s s' : bstate) : Prop :=
  core <$> bufs s' = core <$> bufs s ∧ bc_lock s' = bc_lock s ∧ dsk s' = dsk s ∧ dtrace s' = dtrace s.

Lemma same_data_setnext p v s : same_data s (setnext p v s).
Proof. split; [apply core_setnext|]. unfold setnext. by destruct (_ =? _)%nat. Qed.
Lemma same_data_setprev p v s : same_data s (setprev p v s).
Proof. split; [apply core_setprev|]. unfold setprev. by destruct (_ =? _)%nat. Qed.
Lemma same_data_trans s1 s2 s3 : same_data s1 s2 → same_data s2 s3 → same_data s1 s3.
Proof. unfold same_data. intuition congruence. Qed.

#[local] Hint Resolve same_data_setnext same_data_setprev : xv6.

Lemma same_data_relink i s : same_data s (pushed i (unlinked i s)).
Proof.
  unfold pushed, unlinked. repeat (eapply same_data_trans; [|by auto with xv6]).
  repeat (eapply same_data_trans; [|by auto with xv6]). done.
Qed.

Lemma unlink_run i s : (i < NBUF)%nat → bwf s → nextp i s ≠ i → (nextp i s ≤ NBUF)%nat →
  unlink i s = Ret tt (unlinked i s).
Proof.
  intros Hi Hw Hne Hb. unfold unlink, gets, modify, mbind, M_bind, unlinked.
  assert (Hn : b_next (getb i s) = nextp i s) by (unfold nextp; by rewrite neqb_NBUF).
  assert (Hp : b_prev (getb i s) = prevp i s) by (unfold prevp; by rewrite neqb_NBUF).
  rewrite Hn, Hp. set (s1 := setprev _ _ s).
  assert (b_next (getb i s1) = nextp i s1) as -> by (unfold nextp; by rewrite neqb_NBUF).
  assert (b_prev (getb i s1) = prevp i s1) as -> by (unfold prevp; by rewrite neqb_NBUF).
  unfold s1. rewrite nextp_setprev, prevp_setprev by (done || lia). by rewrite decide_False by done.
Qed.

Lemma push_front_run i s : push_front i s = Ret tt (pushed i s).
Proof. done. Qed.

(** What a client sees is unaffected. *)
Lemma abs_same_data s s' l : bc_ok s l → same_data s s' →
  bufs_ok (bufs s') (dsk s') ∧ (∀ x, bview s' x = bview s x) ∧ (∀ x, bref s' x = bref s x) ∧
  (∀ x, bhold s' x = bhold s x) ∧
  (∀ j pid bn, bheld s pid j bn → bheld s' pid j bn ∧ b_data (getb j s') = b_data (getb j s)).
Proof.
  intros Hok (Hcore & _ & Hd & _). pose proof Hok as (_ & _ & Hbs).
  assert (Hb : ∀ x, core <$> bufof (bufs s') x = core <$> bufof (bufs s) x).
  { intros x. by eapply bufof_core. }
  assert (Hf : ∀ x, match bufof (bufs s') x, bufof (bufs s) x with
    | Some a, Some b => b_valid a = b_valid b ∧ b_refcnt a = b_refcnt b ∧ b_lock a = b_lock b ∧ b_data a = b_data b
    | None, None => True | _, _ => False end).
  { intros x. specialize (Hb x). destruct (bufof (bufs s') x), (bufof (bufs s) x); try done.
    apply (inj Some) in Hb. apply core_fields in Hb as (? & ? & ? & ? & ? & ?). done. }
  rewrite Hd. split_and!; [by eapply bufs_ok_core|..].
  1-3: intros x; unfold bview, bref, bhold; specialize (Hf x); rewrite ?Hd;
    destruct (bufof (bufs s') x), (bufof (bufs s) x); try done; simpl; destruct Hf as (Hv & Hr & Hl & Hda); by rewrite ?Hv, ?Hr, ?Hl, ?Hda.
  intros j pid bn Hh. destruct (bc_ok_facts s l Hok) as (_ & Hlen & _).
  assert (Hcj : core (getb j s') = core (getb j s)).
  { destruct Hh as (Hj & _). pose proof (f_equal (λ q, q !! j) Hcore) as He. simpl in He.
    rewrite !list_lookup_fmap in He. rewrite (getb_lookup j s) in He by lia.
    rewrite (getb_lookup j s') in He; [by apply (inj Some) in He|].
    apply (f_equal length) in Hcore. rewrite !length_fmap in Hcore. lia. }
  apply core_fields in Hcj as (Hv & Hde & Hbn & Hl & Hr & Hda).
  unfold bheld, caches in *. rewrite Hv, Hde, Hbn, Hl, Hr, Hda. done.
Qed.

Definition to_front (i : nat) (l : list nat) : list nat := i :: filter (λ j, j ≠ i) l.

Lemma filter_ne_app (i : nat) l1 l2 : i ∉ l1 → i ∉ l2 → filter (λ j, j ≠ i) (l1 ++ i :: l2) = l1 ++ l2.
Proof.
  intros H1 H2. rewrite filter_app, filter_cons_False by naive_solver.
  rewrite !filter_all; [done| |]; intros x Hx ->; done.
Qed.

Lemma lru_relink s l i : bwf s → lru s l → (i < NBUF)%nat →
  unlink i s = Ret tt (unlinked i s) ∧ lru (pushed i (unlinked i s)) (to_front i l).
Proof.
  intros Hw (Hseg & Hnd & Hin) Hi. assert (Hil : i ∈ l) by (by apply Hin).
  apply list_elem_of_split in Hil as (l1 & l2 & ->).
  pose proof Hnd as Hnd'. apply NoDup_app in Hnd' as (Hnd1 & Hd & Hnd2). apply NoDup_cons in Hnd2 as [Hi2 Hnd2].
  assert (Hi1 : i ∉ l1) by (intros Hx; apply (Hd i Hx); by left).
  assert (HN : NBUF ∉ l1 ++ i :: l2) by (intros Hx; apply Hin in Hx; lia).
  assert (Hbd : ∀ p, p ∈ NBUF :: (l1 ++ i :: l2) ++ [NBUF] → (p ≤ NBUF)%nat).
  { intros p Hp. apply elem_of_cons in Hp as [->|Hp]; [lia|]. apply elem_of_app in Hp as [Hp|Hp].
    - apply Hin in Hp. lia.
    - apply list_elem_of_singleton in Hp. lia. }
  assert (Hns : nextp i s ∈ l2 ++ [NBUF]).
  { apply lseg_split in Hseg as [_ Hs2]. rewrite (lseg_next _ _ _ _ Hs2). apply hd_elem_of. }
  split.
  - apply unlink_run; try done.
    + intros He. rewrite He in Hns. apply elem_of_app in Hns as [Hx|Hx]; [done|].
      apply list_elem_of_singleton in Hx. lia.
    + apply Hbd. apply elem_of_cons. right. clear -Hns. set_solver.
  - unfold to_front. rewrite filter_ne_app by done.
    assert (Hseg' : lseg (unlinked i s) NBUF (l1 ++ l2) NBUF).
    { apply lseg_unlinked; try done.
      - apply NoDup_cons. done.
      - apply NoDup_app. split_and!; [done| |apply NoDup_singleton].
        intros x Hx Hxn. apply list_elem_of_singleton in Hxn as ->. done. }
    assert (Hndr : NoDup (i :: l1 ++ l2)).
    { apply NoDup_cons. split; [rewrite elem_of_app; tauto|]. apply NoDup_app. split_and!; [done| |done].
      intros x Hx Hx2. apply (Hd x Hx). by right. }
    split_and!; [|done|].
    + apply lseg_pushed; try done.
      * unfold unlinked. by auto with xv6.
      * intros p Hp. apply Hin. clear -Hp. set_solver.
    + intros j. rewrite <- Hin. clear. set_solver.
Qed.

(** ** brelse() *)

Definition add_woke (c : chan) (s : bstate) : bstate :=
  BState (bc_lock s) (bufs s) (head_prev s) (head_next s) (dsk s) (dtrace s) (woke s ++ [c]).

Lemma bc_ok_woke c s l : bc_ok s l → bc_ok (add_woke c s) l.
Proof. intros (Hl & (Hseg & Hnd & Hin) & Hbs). split_and!; [done| |done]. split_and!; [|done|done]. by apply (lseg_ext s). Qed.

(** The buffer after its lock is released and its count decremented. *)
Definition bc_rel (x : buf) : buf :=
  bset_refcnt (b_refcnt x - 1) (bset_lock (Sleeplock false false (sl_name (b_lock x)) 0) x).

Lemma bc_rel_spec s l pid i bn : bc_ok s l → bheld s pid i bn → (2 ≤ bref s bn ∨ bview s bn = dsk s bn) →
  let s' := updb i bc_rel s in
  bc_ok s' l ∧ (∀ x, bview s' x = bview s x) ∧ (∀ x, bref s' x = upd (bref s) bn (bref s bn - 1) x) ∧
  (∀ x, bhold s' x = upd (bhold s) bn None x) ∧ keep_held i s s'.
Proof.
  intros Hok Hh Hcl. destruct (bc_ok_facts s l Hok) as (_ & Hlen & _).
  destruct (bheld_view s l pid i bn Hok Hh) as (Hv & Hr & Hho). pose proof Hh as (Hi & Hc & Hval & Hlk & Hpid & Href).
  destruct (bc_ok_buf s l i Hok Hi) as [Hbi (H1 & H2 & H3 & H4 & H5 & H6)].
  assert (Hgu : good_update s i bc_rel).
  { split_and!; try done.
    - split; [done|]. split; [simpl; lia|]. split; [done|]. split; [done|]. split; simpl.
      + left. apply Hc.
      + intros _ Hz. rewrite (proj2 Hc). destruct Hcl; [lia|congruence].
    - destruct Hok as (_ & _ & _ & _ & _ & Hu). intros j x Hne Hj Hcj Hcf. apply Hne.
      apply (Hu j i (getb j s) (getb i s) x); [apply getb_lookup; lia|done|done|done]. }
  destruct (abs_updb s l i bc_rel bn Hok Hgu Hc Hc) as (Hv' & Hr' & Hh').
  split_and!; [by apply bc_ok_updb| | |done|apply keep_held_updb; lia].
  - intros x. rewrite Hv'. unfold upd. destruct (Z.eqb_spec x bn) as [->|]; [|done]. simpl. by rewrite Hval, Hv.
  - intros x. rewrite Hr'. simpl. by rewrite Hr.
Qed.

Lemma unlock_same s l : bc_ok s l → set_bc_lock false (set_bc_lock true s) = s.
Proof. intros (Hl & _). destruct s; simpl in *; by subst. Qed.

Lemma brelse_run s l pid i bn : bc_ok s l → bheld s pid i bn →
  let s2 := updb i bc_rel (add_woke (ChanBufLock i) s) in
  brelse pid i s = Ret tt
    (if b_refcnt (getb i s) =? 1 then set_bc_lock false (pushed i (unlinked i (set_bc_lock true s2))) else s2).
Proof.
  intros Hok Hh s2. destruct (bc_ok_facts s l Hok) as (Hl & Hlen & _). pose proof Hh as (Hi & _ & _ & _ & _ & Href).
  destruct (bc_ok_buf s l i Hok Hi) as [Hbi (H1 & H2 & _)].
  unfold brelse. rewrite (bind_Ret _ _ _ _ _ (bholding_held s l pid i bn Hok Hh)). cbn [negb].
  destruct (breleasesleep_spec i s) as (s1 & Ew & E); [unfold inrange; lia|done|].
  injection Ew as Es1. fold (add_woke (ChanBufLock i) s) in Es1. rewrite (bind_Ret _ _ _ _ _ E). rewrite <- Es1.
  set (k := Sleeplock false false _ 0). set (sw := add_woke (ChanBufLock i) s) in *.
  rewrite (bind_Ret _ _ _ _ _ (acquire_bcache_ok (setlk i k sw) Hl)).
  set (g := λ x, bset_refcnt (u32 (b_refcnt x - 1)) x).
  rewrite (bind_Ret _ _ _ tt (updb i g (set_bc_lock true (setlk i k sw)))) by done.
  assert (Hst : updb i g (set_bc_lock true (setlk i k sw)) = set_bc_lock true s2).
  { unfold setlk. change (updb i g (updb i (bset_lock k) (set_bc_lock true sw)) = updb i bc_rel (set_bc_lock true sw)).
    rewrite updb_updb. unfold updb. f_equal. apply list_alter_ext; [|done]. intros x Hx.
    change (bufs s !! i = Some x) in Hx. rewrite Hbi in Hx. injection Hx as <-.
    unfold compose, g, bc_rel. simpl. rewrite u32_id by lia. done. }
  rewrite Hst. unfold gets. unfold mbind at 1, M_bind at 1.
  assert (Hg : getb i (set_bc_lock true s2) = bc_rel (getb i s)).
  { change (getb i s2 = bc_rel (getb i sw)). unfold s2. rewrite getb_updb_eq; [done|]. simpl. lia. }
  rewrite Hg. simpl b_refcnt.
  replace (b_refcnt (getb i s) - 1 =? 0) with (b_refcnt (getb i s) =? 1)
    by (destruct (Z.eqb_spec (b_refcnt (getb i s)) 1), (Z.eqb_spec (b_refcnt (getb i s) - 1) 0); lia || done).
  assert (Hlru : lru (set_bc_lock true s2) l).
  { destruct Hok as (_ & (Hseg & Hnd & Hin) & _). split_and!; [|done|done].
    apply (lseg_ext s); [..|done]; intros q _;
      change (nextp q s2 = nextp q sw) || change (prevp q s2 = prevp q sw); unfold s2; apply updb_links;
      try done; simpl; lia. }
  destruct (b_refcnt (getb i s) =? 1).
  - assert (Hw : bwf (set_bc_lock true s2)) by (unfold bwf, s2; simpl; by rewrite length_alter).
    destruct (lru_relink _ l i Hw Hlru Hi) as [Eu _].
    rewrite bind_assoc, (bind_Ret _ _ _ _ _ Eu), (bind_Ret _ _ _ _ _ (push_front_run i _)).
    apply release_bcache_ok. destruct (same_data_relink i (set_bc_lock true s2)) as (_ & -> & _). done.
  - rewrite bind_ret_l, release_bcache_ok by done. f_equal. unfold s2. destruct s; simpl in *; by subst.
Qed.

Lemma brelse_spec s l pid i bn : bc_ok s l → bheld s pid i bn → (2 ≤ bref s bn ∨ bview s bn = dsk s bn) → ∃ s',
  brelse pid i s = Ret tt s' ∧ bc_ok s' (if bref s bn =? 1 then to_front i l else l) ∧
  (∀ x, bview s' x = bview s x) ∧ (∀ x, bref s' x = upd (bref s) bn (bref s bn - 1) x) ∧
  (∀ x, bhold s' x = upd (bhold s) bn None x) ∧ keep_held i s s' ∧ same_disk s s'.
Proof.
  intros Hok Hh Hcl. pose proof (brelse_run s l pid i bn Hok Hh) as E. cbv zeta in E.
  destruct (bheld_view s l pid i bn Hok Hh) as (_ & Hr & _). rewrite <- Hr in E.
  set (sw := add_woke (ChanBufLock i) s) in *. pose proof (bc_ok_woke (ChanBufLock i) s l Hok) as Hokw. fold sw in Hokw.
  destruct (bc_rel_spec sw l pid i bn Hokw Hh Hcl) as (Hok2 & Hv2 & Hr2 & Hh2 & Hk2).
  set (s2 := updb i bc_rel sw) in *.
  destruct (Z.eqb_spec (bref s bn) 1) as [He|He].
  - set (s3 := set_bc_lock true s2) in *. pose proof Hok2 as (Hl2 & Hlru2 & Hbs2).
    assert (Hok3 : bc_ok s2 l) by done. pose proof (same_data_relink i s3) as Hsd.
    assert (Hsd' : same_data s2 (set_bc_lock false (pushed i (unlinked i s3)))).
    { destruct Hsd as (H1 & H2 & H3 & H4). by split_and!. }
    destruct (abs_same_data s2 _ l Hok2 Hsd') as (Hbs & Hv & Hrf & Hho & Hhe).
    eexists. split; [exact E|]. split_and!.
    + split_and!; [done| |done].
      assert (Hlru3 : lru s3 l) by (destruct Hlru2 as (? & ? & ?); split_and!; [by apply lseg_lock|done|done]).
      destruct (lru_relink s3 l i) as [_ (Hseg & Hnd & Hin)]; [|done|apply Hh|].
      { unfold bwf, s3, s2. simpl. rewrite length_alter. by destruct (bc_ok_facts s l Hok) as (_ & ? & _). }
      split_and!; [by apply lseg_lock|done|done].
    + intros x. by rewrite Hv, Hv2.
    + intros x. by rewrite Hrf, Hr2.
    + intros x. by rewrite Hho, Hh2.
    + intros j pid' b Hne Hj. destruct (Hk2 j pid' b Hne Hj) as [Hj2 Hd2]. destruct (Hhe j pid' b Hj2) as [Hj3 Hd3].
      split; [done|]. by rewrite Hd3, Hd2.
    + destruct Hsd' as (_ & _ & H3 & H4). split; [by rewrite H3|by rewrite H4].
  - eexists. split; [exact E|]. by split_and!.
Qed.
End relse.

(** ** binit() *)

(** A buffer of the zeroed bcache. *)
Definition fresh (b : buf) : Prop :=
  b_valid b = false ∧ b_dev b = 0 ∧ b_refcnt b = 0 ∧ sl_locked (b_lock b) = false ∧
  sl_lk (b_lock b) = false ∧ block_ok (b_data b).

Lemma fresh_core a b : core a = core b → fresh b → fresh a.
Proof.
  intros Hc. apply core_fields in Hc as (Hv & Hd & _ & Hl & Hr & Hda). unfold fresh.
  by rewrite Hv, Hd, Hl, Hr, Hda.
Qed.

Definition all_fresh (s : bstate) : Prop := bwf s ∧ ∀ i b, bufs s !! i = Some b → fresh b.

Lemma all_fresh_core s s' : core <$> bufs s' = core <$> bufs s → all_fresh s → all_fresh s'.
Proof.
  intros Hc [Hw Hf]. split.
  - unfold bwf in *. apply (f_equal length) in Hc. rewrite !length_fmap in Hc. lia.
  - intros i b Hi. apply (f_equal (λ q, q !! i)) in Hc. rewrite !list_lookup_fmap, Hi in Hc.
    destruct (bufs s !! i) as [a|] eqn:E; [|done]. apply (inj Some) in Hc. eapply fresh_core; [done|]. by eapply Hf.
Qed.

Lemma all_fresh_lock s i : all_fresh s → all_fresh (setlk i (Sleeplock false false "buffer" 0) s).
Proof.
  intros [Hw Hf]. unfold setlk. split; [unfold bwf; by rewrite updb_length|].
  intros j b Hj. simpl in Hj. destruct (decide (i = j)) as [->|].
  - rewrite list_lookup_alter_eq in Hj. destruct (bufs s !! j) as [a|] eqn:E; [|done]. simpl in Hj.
    injection Hj as <-. destruct (Hf j a E) as (? & ? & ? & ? & ? & ?). by split_and!.
  - rewrite list_lookup_alter_ne in Hj by done. by eapply Hf.
Qed.

(** The state apart from the buffers. *)
Definition rest (s : bstate) : bool * (Z → block) * list (Z * block) := (bc_lock s, dsk s, dtrace s).
Lemma rest_setnext p v s : rest (setnext p v s) = rest s.
Proof. unfold setnext. by destruct (_ =? _)%nat. Qed.
Lemma rest_setprev p v s : rest (setprev p v s) = rest s.
Proof. unfold setprev. by destruct (_ =? _)%nat. Qed.
Lemma rest_setlk i k s : rest (setlk i k s) = rest s.
Proof. done. Qed.

(** One round of binit()'s loop. *)
Definition binit_step (b : nat) (s : bstate) : bstate :=
  let s1 := setlk b (Sleeplock false false "buffer" 0) (setprev b NBUF (setnext b (head_next s) s)) in
  setnext NBUF b (setprev (head_next s1) b s1).

Lemma binit_loop_S k b s : binit_loop (S k) b s = binit_loop k (S b) (binit_step b s).
Proof. done. Qed.

Lemma setlk_links b k s q : bwf s → (b < NBUF)%nat → nextp q (setlk b k s) = nextp q s ∧ prevp q (setlk b k s) = prevp q s.
Proof. intros Hw Hb. apply updb_links; try done. by rewrite Hw. Qed.

Lemma binit_step_ok b s l : all_fresh s → (b < NBUF)%nat → lseg s NBUF l NBUF → NoDup (b :: l) →
  (∀ p, p ∈ l → (p < NBUF)%nat) →
  all_fresh (binit_step b s) ∧ lseg (binit_step b s) NBUF (b :: l) NBUF ∧
  bc_lock (binit_step b s) = bc_lock s ∧ dsk (binit_step b s) = dsk s ∧ dtrace (binit_step b s) = dtrace s.
Proof.
  intros Hf Hb Hl Hnd Hlt. pose proof Hf as [Hw _]. unfold binit_step.
  set (s0 := setprev b NBUF (setnext b (head_next s) s)).
  set (s1 := setlk b (Sleeplock false false "buffer" 0) s0).
  assert (Hf0 : all_fresh s0).
  { eapply all_fresh_core; [|done]. unfold s0. by rewrite core_setprev, core_setnext. }
  pose proof (all_fresh_lock s0 b Hf0) as Hf1. fold s1 in Hf1.
  assert (Hh : head_next s1 = head_next s0) by done. rewrite Hh.
  split; [|split].
  - eapply all_fresh_core; [|exact Hf1]. by rewrite core_setnext, core_setprev.
  - pose proof (lseg_pushed s b l Hw Hl Hnd Hb Hlt) as Hp.
    assert (Hh0 : (head_next s0 ≤ NBUF)%nat).
    { unfold s0. change (head_next (setprev b NBUF (setnext b (head_next s) s))) with
        (nextp NBUF (setprev b NBUF (setnext b (head_next s) s))).
      rewrite nextp_setprev, nextp_setnext by (auto with xv6; lia). rewrite decide_False by lia.
      rewrite (lseg_next _ _ _ _ Hl). destruct l as [|z l]; simpl; [lia|]. apply Nat.lt_le_incl, Hlt. by left. }
    assert (Hw0 : bwf s0) by apply Hf0. assert (Hw1 : bwf s1) by apply Hf1.
    assert (Hle : ∀ q, q ∈ b :: l → (q ≤ NBUF)%nat).
    { intros q [->|Hq%Hlt]%elem_of_cons; lia. }
    apply (lseg_ext (pushed b s)); [| |done]; intros q Hq.
    all: assert (Hqle : (q ≤ NBUF)%nat) by (apply elem_of_app in Hq || apply elem_of_cons in Hq;
      destruct Hq as [Hq|Hq]; first [by apply Hle|subst; done|apply list_elem_of_singleton in Hq; lia]).
    all: unfold pushed; fold s0.
    + rewrite !nextp_setnext, !nextp_setprev by auto with xv6. case_decide; [done|]. by apply setlk_links.
    + rewrite !prevp_setnext, !prevp_setprev by auto with xv6. case_decide; [done|]. by apply setlk_links.
  - assert (Hr : rest (setnext NBUF b (setprev (head_next s0) b s1)) = rest s).
    { rewrite rest_setnext, rest_setprev. unfold s1, s0. rewrite rest_setlk, rest_setprev. apply rest_setnext. }
    by injection Hr.
Qed.

Lemma binit_loop_ok k b s l : (b + k = NBUF)%nat → all_fresh s → lseg s NBUF l NBUF → NoDup l →
  (∀ p, p ∈ l ↔ (p < b)%nat) → ∃ s' l', binit_loop k b s = Ret tt s' ∧ all_fresh s' ∧
  lru s' l' ∧ bc_lock s' = bc_lock s ∧ dsk s' = dsk s ∧ dtrace s' = dtrace s.
Proof.
  revert b s l. induction k as [|k IH]; intros b s l Hk Hf Hl Hnd Hin.
  { exists s, l. assert (b = NBUF) as -> by lia. by split_and!. }
  rewrite binit_loop_S.
  destruct (binit_step_ok b s l) as (Hf' & Hl' & E1 & E2 & E3); try done; try lia.
  { apply NoDup_cons. split; [|done]. intros Hb%Hin. lia. }
  { intros p Hp%Hin. lia. }
  destruct (IH (S b) (binit_step b s) (b :: l)) as (s' & l' & E & ? & ? & ? & ? & ?); try done; try lia.
  { apply NoDup_cons. split; [|done]. intros Hb%Hin. lia. }
  { intros p. rewrite elem_of_cons, Hin. lia. }
  exists s', l'. split_and!; try done; congruence.
Qed.

Lemma binit_ok s : all_fresh s → (∀ x, block_ok (dsk s x)) → ∃ s' l, binit s = Ret tt s' ∧ bc_ok s' l ∧
  dsk s' = dsk s ∧ dtrace s' = dtrace s ∧
  ∀ x, bview s' x = dsk s x ∧ bufof (bufs s') x = None ∧ bref s' x = 0 ∧ bhold s' x = None ∧ has_free s'.
Proof.
  intros Hf Hd. unfold binit, modify. unfold mbind, M_bind.
  set (s1 := setnext NBUF NBUF (setprev NBUF NBUF (set_bc_lock false s))).
  destruct (binit_loop_ok NBUF 0 s1 []) as (s' & l & E & Hf' & Hlru & Hlk & Hdk & Htr); try done.
  { apply NoDup_nil_2. }
  { intros p. split; [by intros ?%elem_of_nil|lia]. }
  assert (Hnone : ∀ x, bufof (bufs s') x = None).
  { intros x. apply bufof_None. intros i b Hi [Hdev _]. destruct Hf' as [_ Hf'].
    destruct (Hf' i b Hi) as (_ & Hd0 & _). rewrite Hd0 in Hdev. done. }
  exists s', l. split_and!; [exact E| |done|done|].
  - split_and!; [done|done|]. destruct Hf' as [Hw Hf']. split_and!; [done|by rewrite Hdk| |].
    + intros i b Hi. destruct (Hf' i b Hi) as (Hv & Hde & Hr & Hl0 & Hl1 & Hda). unfold buf_ok.
      rewrite Hv, Hde, Hr, Hl0. split_and!; try done. by right.
    + intros i j a b bn Hi _ [Hdev _]. destruct (Hf' i a Hi) as (_ & Hd0 & _). rewrite Hd0 in Hdev. done.
  - intros x. unfold bview, bref, bhold. rewrite Hnone. simpl. rewrite Hdk. split_and!; try done.
    exists 0%nat. split; [unfold NBUF; lia|]. destruct Hf' as [Hw Hf'].
    destruct (Hf' 0%nat (getb 0 s')) as (_ & _ & Hr & _); [|done]. apply getb_lookup. rewrite Hw. unfold NBUF. lia.
Qed.

(** ** Counting *)

(** When fewer than NBUF blocks are referenced, a buffer is free. *)
Lemma has_free_count s l (P : list Z) :
  bc_ok s l → (∀ bn, 0 < bref s bn → bn ∈ P) → (length P < NBUF)%nat → has_free s.
Proof.
  intros Hok HP Hlen. destruct (bc_ok_facts s l Hok) as (_ & Hlb & _).
  destruct (decide (Exists (λ i, b_refcnt (getb i s) = 0) (seq 0 NBUF))) as [He|Hn].
  { apply Exists_exists in He as (i & Hi & Hz). apply elem_of_seq in Hi. exists i. split; [lia|done]. }
  exfalso. rewrite <- Forall_Exists_neg, Forall_forall in Hn.
  set (keys := (λ i, b_blockno (getb i s)) <$> seq 0 NBUF).
  assert (Hbuf : ∀ i, i ∈ seq 0 NBUF → (i < NBUF)%nat ∧ caches (getb i s) (b_blockno (getb i s)) ∧ 0 < b_refcnt (getb i s)).
  { intros i Hi. pose proof (Hn i Hi) as Hz. apply elem_of_seq in Hi. assert (Hi' : (i < NBUF)%nat) by lia.
    destruct (bc_ok_buf s l i Hok Hi') as [_ (_ & Hr & _ & _ & Hd & _)]. split_and!; [done| |lia].
    split; [|done]. destruct Hd as [|(_ & Hz' & _)]; done. }
  assert (Hnd : NoDup keys).
  { apply NoDup_fmap_2_strong; [|apply NoDup_seq]. intros i j Hi Hj Heq.
    destruct (Hbuf i Hi) as (Hi' & Hci & _), (Hbuf j Hj) as (Hj' & Hcj & _).
    destruct Hok as (_ & _ & _ & _ & _ & Hu).
    apply (Hu i j (getb i s) (getb j s) (b_blockno (getb i s))); [apply getb_lookup; lia..|done|].
    by rewrite Heq. }
  assert (Hsub : keys ⊆+ P).
  { apply NoDup_submseteq; [done|]. intros bn Hb. unfold keys in Hb. apply list_elem_of_fmap in Hb as (i & -> & Hi).
    apply HP. destruct (Hbuf i Hi) as (Hi' & Hci & Hr). unfold bref. by rewrite (bufof_getb s l i _ Hok Hi' Hci). }
  apply submseteq_length in Hsub. unfold keys in Hsub. rewrite length_fmap, length_seq in Hsub. lia.
Qed.

(** ** The cache as a logical disk

    What clients do to the cache, as labelled steps: [EvRead bn d] returns
    the contents [d] of block [bn], [EvModify bn g] applies [g] to them, the
    other operations are silent.  A client gives a buffer back only when it
    is pinned or agrees with the disk, as log_write() and bwrite() ensure. *)
Inductive event := EvRead (bn : Z) (d : block) | EvModify (bn : Z) (g : block → block) | EvSilent.

Section client.
Context {D : DiskDriver}.

Inductive bstep : bstate → event → bstate → Prop :=
| step_bread s s' pid bn i :
    bref s bn < 2 ^ 32 - 1 → bread pid ROOTDEV bn s = Ret i s' → bstep s (EvRead bn (b_data (getb i s'))) s'
| step_modify s s' pid i bn g :
    bheld s pid i bn → block_ok (g (b_data (getb i s))) → bmodify i g s = Ret tt s' → bstep s (EvModify bn g) s'
| step_bwrite s s' pid i bn : bheld s pid i bn → bwrite pid i s = Ret tt s' → bstep s EvSilent s'
| step_brelse s s' pid i bn :
    bheld s pid i bn → (2 ≤ bref s bn ∨ bview s bn = dsk s bn) → brelse pid i s = Ret tt s' → bstep s EvSilent s'
| step_bpin s s' pid i bn :
    bheld s pid i bn → bref s bn < 2 ^ 32 - 1 → bpin i s = Ret tt s' → bstep s EvSilent s'
| step_bunpin s s' pid i bn :
    bheld s pid i bn → 2 ≤ bref s bn → bunpin i s = Ret tt s' → bstep s EvSilent s'.

Inductive breach : bstate → Prop :=
| reach_binit s s' : all_fresh s → (∀ x, block_ok (dsk s x)) → binit s = Ret tt s' → breach s'
| reach_bstep s e s' : breach s → bstep s e s' → breach s'.

(** The steps of a disk without a cache. *)
Definition logical_step (v : Z → block) (e : event) (v' : Z → block) : Prop :=
  match e with
  | EvRead bn d => d = v bn ∧ ∀ x, v' x = v x
  | EvModify bn g => ∀ x, v' x = upd v bn (g (v bn)) x
  | EvSilent => ∀ x, v' x = v x
  end.

(** bread() of an uncached block with no free buffer panics, of a locked one sleeps. *)
Lemma bread_ret_inv s l pid bn i s' : bc_ok s l → bref s bn < 2 ^ 32 - 1 → bread pid ROOTDEV bn s = Ret i s' →
  bhold s bn = None ∧ (bufof (bufs s) bn ≠ None ∨ has_free s).
Proof.
  intros Hok Hr E. destruct (bc_ok_facts s l Hok) as (Hl & Hlen & _ & Hin).
  destruct (bufof (bufs s) bn) as [b|] eqn:Eb.
  - split; [|by left]. apply bufof_inv in Eb as Hb. destruct Hb as (k & Hk & Hc).
    assert (Hk' : (k < NBUF)%nat) by (apply lookup_lt_Some in Hk; lia).
    destruct (bc_ok_buf s l k Hok Hk') as [Hbk Hbok]. rewrite Hk in Hbk. injection Hbk as ->.
    unfold bhold. rewrite Eb. simpl. destruct (sl_locked (b_lock (getb k s))) eqn:Elk; [|done]. exfalso.
    unfold bread, bget in E. rewrite bind_assoc in E. rewrite (bind_Ret _ _ _ _ _ (acquire_bcache_ok s Hl)) in E.
    rewrite bind_assoc, (bind_Ret _ _ _ (head_next s) (set_bc_lock true s)) in E by done.
    rewrite bind_assoc, (bind_Ret _ _ _ _ _ (bget_scan s l ROOTDEV bn Hok)) in E.
    rewrite (list_find_unique _ l k) in E; [|apply Hok; lia|done|].
    2: { intros y Hy Hcy. destruct Hok as (_ & _ & _ & _ & _ & Hu). apply (Hu y k (getb y s) (getb k s) bn); try done.
         apply getb_lookup. rewrite Hlen. by apply Hin. }
    set (g := λ x, bset_refcnt (u32 (b_refcnt x + 1)) x) in E.
    assert (Hs : ∀ {A} (K : M bstate A), (upd_buf k g;; release_bcache;; K) (set_bc_lock true s) = K (updb k g s)).
    { intros A K. rewrite locked_updb by done. by rewrite unlock_updb. }
    unfold mbind at 1, M_bind at 1 in E. rewrite Hs in E.
    assert (Hbk : getb k (updb k g s) = g (getb k s)) by (apply getb_updb_eq; lia).
    assert (Esl : bacquiresleep pid k (updb k g s) = Sleep (ChanBufLock k) (updb k g s)).
    { apply bacquiresleep_held; [unfold inrange; rewrite updb_length; lia|..]; unfold getlk; rewrite Hbk; simpl; [apply Hbok|done]. }
    unfold mbind, M_bind in E. by rewrite Esl in E.
  - split; [unfold bhold; by rewrite Eb|]. right.
    destruct (decide (Exists (λ i, b_refcnt (getb i s) = 0) (seq 0 NBUF))) as [He|Hn].
    { apply Exists_exists in He as (j & Hj & Hz). apply elem_of_seq in Hj. exists j. split; [lia|done]. }
    exfalso. rewrite <- Forall_Exists_neg, Forall_forall in Hn. unfold bread in E.
    rewrite (bind_Panic _ _ _ "bget: no buffers") in E; [done|]. apply (bget_panics pid bn s l Hok).
    intros j Hj. split; [|apply Hn; rewrite elem_of_seq; lia].
    intros Hc. by rewrite (bufof_getb s l j bn Hok Hj Hc) in Eb.
Qed.

Lemma bstep_ok s l e s' : bc_ok s l → bstep s e s' → (∃ l', bc_ok s' l') ∧ logical_step (bview s) e (bview s').
Proof.
  intros Hok Hst. destruct Hst as [s s' pid bn i Hr E|s s' pid i bn g Hh Hg E|s s' pid i bn Hh E
    |s s' pid i bn Hh Hcl E|s s' pid i bn Hh Hr E|s s' pid i bn Hh Hr E].
  - destruct (bread_ret_inv s l pid bn i s' Hok Hr E) as [Hho Hav].
    destruct (bread_spec pid bn s l Hok Hr Hho Hav) as (i' & s2 & E' & Hok' & _ & Hd & Hv & _).
    rewrite E in E'. simplify_eq. split; [by exists l|]. by split.
  - destruct (bmodify_spec s l pid i bn g Hok Hh Hg) as (s2 & E' & Hok' & _ & Hv & _).
    rewrite E in E'. simplify_eq. split; [by exists l|done].
  - destruct (bwrite_spec s l pid i bn Hok Hh) as (s2 & E' & Hok' & Hv & _).
    rewrite E in E'. simplify_eq. split; [by exists l|done].
  - destruct (brelse_spec s l pid i bn Hok Hh Hcl) as (s2 & E' & Hok' & Hv & _).
    rewrite E in E'. simplify_eq. split; [by eexists|done].
  - destruct (bheld_view s l pid i bn Hok Hh) as (_ & Href & _). pose proof Hh as (Hi & Hc & _ & _ & _ & Hpos).
    destruct (bc_ok_buf s l i Hok Hi) as [_ (_ & H2 & _)].
    rewrite (bpin_run s l i Hok Hi) in E by lia. simplify_eq.
    destruct (bset_ref_spec s l i bn (b_refcnt (getb i s) + 1) Hok Hi Hc) as (Hok' & Hv & _); [lia|lia|lia|].
    split; [by exists l|done].
  - destruct (bheld_view s l pid i bn Hok Hh) as (_ & Href & _). pose proof Hh as (Hi & Hc & _ & _ & _ & Hpos).
    destruct (bc_ok_buf s l i Hok Hi) as [_ (_ & H2 & _)].
    rewrite (bunpin_run s l i Hok Hi) in E by lia. simplify_eq.
    destruct (bset_ref_spec s l i bn (b_refcnt (getb i s) - 1) Hok Hi Hc) as (Hok' & Hv & _); [lia|lia|lia|].
    split; [by exists l|done].
Qed.

Lemma breach_ok s : breach s → ∃ l, bc_ok s l.
Proof.
  induction 1 as [s s' Hf Hd E|s e s' _ (l & IH) Hst].
  - destruct (binit_ok s Hf Hd) as (s2 & l & E' & Hok & _). rewrite E in E'. simplify_eq. by exists l.
  - by apply (bstep_ok s l e s' IH).
Qed.

(** ** Properties *)

(** C4: the buffer cache is transparent.  From binit() on, every step of a
    client on the cache is a step of a plain disk: bread() returns the latest
    contents of the block, a client's change of a buffer changes that block
    only, and all other operations change no block's contents. *)
Theorem cache_refines_disk s e s' :
  breach s → bstep s e s' → logical_step (bview s) e (bview s').
Proof. intros (l & Hok)%breach_ok Hst. by apply (bstep_ok s l e s' Hok). Qed.

(** A block is never cached twice, and a valid buffer that nobody uses
    agrees with the disk. *)
Theorem cache_one_copy s i j bn :
  breach s → (i < NBUF)%nat → (j < NBUF)%nat →
  (caches (getb i s) bn → caches (getb j s) bn → i = j) ∧
  (b_valid (getb i s) = true → b_refcnt (getb i s) = 0 → b_data (getb i s) = dsk s (b_blockno (getb i s))).
Proof.
  intros (l & Hok)%breach_ok Hi Hj. destruct (bc_ok_buf s l i Hok Hi) as [Hbi (_ & _ & _ & _ & _ & Hcl)].
  destruct (bc_ok_buf s l j Hok Hj) as [Hbj _]. split; [|done].
  destruct Hok as (_ & _ & _ & _ & _ & Hu). by eapply Hu.
Qed.

(** The LRU policy.  When the block is not cached and a buffer is unused,
    bget() recycles the least recently used of the unused buffers, leaving
    the others alone. *)
Theorem bget_recycles_lru pid bn s l :
  bc_ok s l → (∀ i, (i < NBUF)%nat → ¬ caches (getb i s) bn) → has_free s → ∃ i l1 l2 s',
  bget pid ROOTDEV bn s = Ret i s' ∧ l = l1 ++ i :: l2 ∧ b_refcnt (getb i s) = 0 ∧
  Forall (λ j, b_refcnt (getb j s) ≠ 0) l2 ∧ (∀ j, j ≠ i → getb j s' = getb j s) ∧
  caches (getb i s') bn ∧ b_valid (getb i s') = false ∧ b_refcnt (getb i s') = 1.
Proof.
  intros Hok Hno Hfree. destruct (bget_miss pid bn s l Hok Hno Hfree) as (i & Hi & Hi0 & Hf & E).
  destruct (bc_ok_facts s l Hok) as (_ & Hlen & _).
  destruct (list_find _ (reverse l)) as [[k i']|] eqn:El; simplify_eq/=.
  apply list_find_Some in El as (Hk & _ & Hbefore).
  destruct (list_elem_of_split_length (reverse l) k i Hk) as (l2 & l1 & Hrl & Hkl).
  assert (Hl : l = reverse l1 ++ i :: reverse l2).
  { rewrite <- (reverse_involutive l), Hrl, reverse_app, reverse_cons, <- app_assoc. done. }
  exists i, (reverse l1), (reverse l2), (updb i (bc_miss pid bn) s). split_and!; try done.
  - apply Forall_forall. intros j Hj. rewrite elem_of_reverse in Hj. apply list_elem_of_lookup in Hj as [q Hq].
    apply (Hbefore q j); [rewrite Hrl; by apply lookup_app_l_Some|]. apply lookup_lt_Some in Hq. lia.
  - intros j Hj. by apply getb_updb_ne.
  - rewrite getb_updb_eq by lia. done.
  - rewrite getb_updb_eq by lia. done.
  - rewrite getb_updb_eq by lia. done.
Qed.
End client.

(** ** Witnesses: a zeroed disk behind [direct_disk] *)

Lemma demo_fresh d : all_fresh (bstate0 d).
Proof.
  split; [done|]. intros i b Hi. apply lookup_replicate in Hi as [-> _].
  by split_and!.
Qed.

Lemma demo_boot : ∃ s l, breach (D := direct_disk) s ∧ bc_ok s l ∧
  ∀ x, bview s x = zero_block ∧ bufof (bufs s) x = None ∧ bref s x = 0 ∧ bhold s x = None ∧ has_free s.
Proof.
  destruct (binit_ok (bstate0 (λ _, zero_block))) as (s & l & E & Hok & _ & _ & Hv).
  { apply demo_fresh. } { intros x. apply zero_block_ok. }
  exists s, l. split_and!; [|done|done].
  apply (reach_binit (D := direct_disk) (bstate0 (λ _, zero_block)) s); [apply demo_fresh|intros x; apply zero_block_ok|exact E].
Qed.

Lemma cache_refines_disk_witness : ∃ s e s', breach (D := direct_disk) s ∧
  bstep (D := direct_disk) s e s' ∧ logical_step (bview s) e (bview s').
Proof.
  destruct demo_boot as (s & l & Hr & Hok & Hv). destruct (Hv 5) as (_ & Hn5 & Hr5 & Hh5 & Hf).
  destruct (bread_spec (D := direct_disk) 7 5 s l Hok) as (i & s' & E & _); [lia|done|by right|].
  assert (Hst : bstep (D := direct_disk) s (EvRead 5 (b_data (getb i s'))) s').
  { apply (step_bread (D := direct_disk) s s' 7 5 i); [lia|exact E]. }
  exists s, (EvRead 5 (b_data (getb i s'))), s'. split; [exact Hr|]. split; [exact Hst|].
  exact (cache_refines_disk (D := direct_disk) s _ s' Hr Hst).
Defined.

Lemma cache_one_copy_witness : ∃ s, breach (D := direct_disk) s ∧
  (caches (getb 0 s) 5 → caches (getb 1 s) 5 → 0%nat = 1%nat).
Proof.
  destruct demo_boot as (s & l & Hr & Hok & Hv). exists s. split; [exact Hr|].
  apply (cache_one_copy (D := direct_disk) s 0 1 5 Hr); unfold NBUF; lia.
Defined.

Lemma bget_recycles_lru_witness : ∃ s i s', bget 7 ROOTDEV 5 s = Ret i s'.
Proof.
  destruct demo_boot as (s & l & Hr & Hok & Hv). destruct (Hv 5) as (_ & Hn5 & Hr5 & Hh5 & Hf).
  destruct (bget_recycles_lru 7 5 s l) as (i & l1 & l2 & s' & E & _).
  - exact Hok.
  - intros i Hi Hc. by rewrite (bufof_getb s l i 5 Hok Hi Hc) in Hn5.
  - exact Hf.
  - by exists s, i, s'.
Defined.
