(* ===== verification/Log.v ===== *)
(** * kernel/log.c: the write-ahead log (the code)

    [lstate] is [log] together with the buffer cache it works on.  [pid] is
    the calling process.  An access to [log.lh.block] outside the array,
    undefined in C, is the outcome [Panic "log.lh.block[]"]. *)

From stdpp Require Import base sets strings numbers list.
From coqutil Require Import Byte.
From S2P Require Import Prelude Riscv Spinlock Block Sleeplock Bio.

Record lstate := LState {
  lg_lock : bool;
  lg_start : Z;
  lg_size : Z;
  lg_outstanding : Z;     (* how many FS sys calls are executing. *)
  lg_committing : bool;   (* in commit(), please wait. *)
  lg_dev : Z;
  lh_n : Z;               (* log.lh *)
  lh_block : list Z;
  lg_bc : bstate
}.

Definition set_lg_lock (b : bool) (s : lstate) : lstate :=
  LState b (lg_start s) (lg_size s) (lg_outstanding s) (lg_committing s) (lg_dev s) (lh_n s) (lh_block s) (lg_bc s).
Definition set_lg_sb (start size dev : Z) (s : lstate) : lstate :=
  LState (lg_lock s) start size (lg_outstanding s) (lg_committing s) dev (lh_n s) (lh_block s) (lg_bc s).
Definition set_outstanding (n : Z) (s : lstate) : lstate :=
  LState (lg_lock s) (lg_start s) (lg_size s) n (lg_committing s) (lg_dev s) (lh_n s) (lh_block s) (lg_bc s).
Definition set_committing (b : bool) (s : lstate) : lstate :=
  LState (lg_lock s) (lg_start s) (lg_size s) (lg_outstanding s) b (lg_dev s) (lh_n s) (lh_block s) (lg_bc s).
Definition set_lh_n (n : Z) (s : lstate) : lstate :=
  LState (lg_lock s) (lg_start s) (lg_size s) (lg_outstanding s) (lg_committing s) (lg_dev s) n (lh_block s) (lg_bc s).
Definition set_lh_block (l : list Z) (s : lstate) : lstate :=
  LState (lg_lock s) (lg_start s) (lg_size s) (lg_outstanding s) (lg_committing s) (lg_dev s) (lh_n s) l (lg_bc s).
Definition set_lg_bc (b : bstate) (s : lstate) : lstate :=
  LState (lg_lock s) (lg_start s) (lg_size s) (lg_outstanding s) (lg_committing s) (lg_dev s) (lh_n s) (lh_block s) b.

(** Operations of the buffer cache. *)
Definition bio {A} (m : M bstate A) : M lstate A := zoom lg_bc set_lg_bc m.

Definition acquire_log : M lstate unit := acquire_flag lg_lock set_lg_lock.
Definition release_log : M lstate unit := release_flag lg_lock set_lg_lock.
Definition wakeup_log : M lstate unit := bio (bwakeup ChanLog).

Definition lh_get (i : Z) : M lstate Z :=
  l ← gets lh_block;
  match l !! Z.to_nat i with Some b => mret b | None => panic "log.lh.block[]" end.
Definition lh_set (i b : Z) : M lstate unit :=
  l ← gets lh_block;
  if (Z.to_nat i <? length l)%nat then modify (set_lh_block (<[Z.to_nat i := b]> l)) else panic "log.lh.block[]".

(** [struct logheader] in a block: [int n] at 0, [int block[i]] at 4 + 4 * i. *)
Definition hdr_n (b : block) : Z := i32 (get32 b 0).
Definition hdr_block (b : block) (i : Z) : Z := i32 (get32 b (4 + 4 * i)).
Definition sizeof_logheader : Z := 4 + 4 * LOGSIZE.

Section log.
Context {D : DiskDriver} (pid : Z).

(** ** install_trans *)

(** [for (tail = 0; tail < log.lh.n; tail++)], [k] blocks to go. *)
Fixpoint install_trans_loop (recovering : bool) (k : nat) (tail : Z) : M lstate unit :=
  match k with
  | O => mret tt
  | S k =>
    dev ← gets lg_dev;
    start ← gets lg_start;
    lbuf ← bio (bread pid dev (start + tail + 1));   (* read log block *)
    dst ← lh_get tail;
    dbuf ← bio (bread pid dev dst);                  (* read dst *)
    src ← bio (gets (λ s, b_data (getb lbuf s)));
    bio (bmodify dbuf (λ _, src));;                  (* copy block to dst *)
    bio (bwrite pid dbuf);;                          (* write dst to disk *)
    (if recovering then mret tt else bio (bunpin dbuf));;
    bio (brelse pid lbuf);;
    bio (brelse pid dbuf);;
    install_trans_loop recovering k (tail + 1)
  end.

Definition install_trans (recovering : bool) : M lstate unit :=
  n ← gets lh_n; install_trans_loop recovering (Z.to_nat n) 0.

(** ** The header *)

Fixpoint read_head_loop (k : nat) (i : Z) (d : block) : M lstate unit :=
  match k with
  | O => mret tt
  | S k => lh_set i (hdr_block d i);; read_head_loop k (i + 1) d
  end.

Definition read_head : M lstate unit :=
  dev ← gets lg_dev;
  start ← gets lg_start;
  b ← bio (bread pid dev start);
  d ← bio (gets (λ s, b_data (getb b s)));
  modify (set_lh_n (hdr_n d));;
  read_head_loop (Z.to_nat (hdr_n d)) 0 d;;
  bio (brelse pid b).

Fixpoint write_head_loop (k : nat) (i : Z) (b : nat) : M lstate unit :=
  match k with
  | O => mret tt
  | S k =>
    v ← lh_get i;
    bio (bmodify b (λ d, put32 d (4 + 4 * i) v));;
    write_head_loop k (i + 1) b
  end.

Definition write_head : M lstate unit :=
  dev ← gets lg_dev;
  start ← gets lg_start;
  b ← bio (bread pid dev start);
  n ← gets lh_n;
  bio (bmodify b (λ d, put32 d 0 n));;
  write_head_loop (Z.to_nat n) 0 b;;
  bio (bwrite pid b);;
  bio (brelse pid b).

Definition recover_from_log : M lstate unit :=
  read_head;;
  install_trans true;;     (* if committed, copy from log to disk *)
  modify (set_lh_n 0);;
  write_head.              (* clear the log *)

Definition initlog (dev logstart nlog : Z) : M lstate unit :=
  if BSIZE <=? sizeof_logheader then panic "initlog: too big logheader" else
  modify (set_lg_lock false);;   (* initlock *)
  modify (set_lg_sb logstart nlog dev);;
  recover_from_log.

(** ** Transactions *)

(** One turn of begin_op()'s loop; a process that sleeps calls it again. *)
Definition begin_op : M lstate unit :=
  acquire_log;;
  s ← gets id;
  if lg_committing s then release_log;; sleep_on ChanLog else
  if LOGSIZE <? lh_n s + (lg_outstanding s + 1) * MAXOPBLOCKS then
    (* this op might exhaust log space; wait for commit. *)
    release_log;; sleep_on ChanLog
  else
  modify (set_outstanding (lg_outstanding s + 1));;
  release_log.

(** Copy modified blocks from cache to log. *)
Fixpoint write_log_loop (k : nat) (tail : Z) : M lstate unit :=
  match k with
  | O => mret tt
  | S k =>
    dev ← gets lg_dev;
    start ← gets lg_start;
    to ← bio (bread pid dev (start + tail + 1));     (* log block *)
    src ← lh_get tail;
    from ← bio (bread pid dev src);                  (* cache block *)
    d ← bio (gets (λ s, b_data (getb from s)));
    bio (bmodify to (λ _, d));;
    bio (bwrite pid to);;                            (* write the log *)
    bio (brelse pid from);;
    bio (brelse pid to);;
    write_log_loop k (tail + 1)
  end.

Definition write_log : M lstate unit := n ← gets lh_n; write_log_loop (Z.to_nat n) 0.

Definition commit : M lstate unit :=
  n ← gets lh_n;
  if 0 <? n then
    write_log;;             (* Write modified blocks from cache to log *)
    write_head;;            (* Write header to disk -- the real commit *)
    install_trans false;;   (* Now install writes to home locations *)
    modify (set_lh_n 0);;
    write_head              (* Erase the transaction from the log *)
  else mret tt.

(** end_op() up to the release of log.lock: whether to commit. *)
Definition end_op_enter : M lstate bool :=
  acquire_log;;
  o ← gets lg_outstanding;
  modify (set_outstanding (o - 1));;
  c ← gets lg_committing;
  if c : bool then panic "log.committing" else
  o ← gets lg_outstanding;
  do_commit ← (if o =? 0 then modify (set_committing true);; mret true
               else wakeup_log;; mret false);
  release_log;;
  mret do_commit.

(** end_op() after commit(). *)
Definition end_op_leave : M lstate unit :=
  acquire_log;;
  modify (set_committing false);;
  wakeup_log;;
  release_log.

Definition end_op : M lstate unit :=
  do_commit ← end_op_enter;
  if do_commit : bool then commit;; end_op_leave else mret tt.

(** The index of [blockno] among the first [n] logged blocks, or [n]. *)
Fixpoint log_find (l : list Z) (n : nat) (blockno : Z) : nat :=
  match n, l with
  | S n, b :: l => if b =? blockno then O else S (log_find l n blockno)
  | _, _ => O
  end.

Definition log_write (b : nat) : M lstate unit :=
  acquire_log;;
  s ← gets id;
  if (LOGSIZE <=? lh_n s) || (lg_size s - 1 <=? lh_n s) then panic "too big a transaction" else
  if lg_outstanding s <? 1 then panic "log_write outside of trans" else
  let blockno := b_blockno (getb b (lg_bc s)) in
  let i := log_find (lh_block s) (Z.to_nat (lh_n s)) blockno in   (* log absorption *)
  lh_set (Z.of_nat i) blockno;;
  (if Z.of_nat i =? lh_n s then   (* Add new block to log? *)
     bio (bpin b);;
     modify (set_lh_n (lh_n s + 1))
   else mret tt);;
  release_log.

End log.
