(* ===== verification/LogFacts.v ===== *)
(** * kernel/log.c: the runs of write_log(), write_head(), install_trans()

    [cst s v r h d t] describes a buffer cache to a client: contents [v],
    reference counts [r], locks [h], the disk [d] and the trace [t] of the
    disk writes so far.  [apply_writes ws d] is the disk after the writes
    [ws]. *)

From stdpp Require Import base sets strings numbers list.
From coqutil Require Import Byte.
From S2P Require Import Prelude Riscv Spinlock Block Sleeplock Bio BioLru BioFacts BioOps BioThms Log.

Definition apply_writes (ws : list (Z * block)) (d : Z → block) : Z → block :=
  foldl (λ d w, upd d w.1 w.2) d ws.

Lemma apply_writes_app ws ws' d : apply_writes (ws ++ ws') d = apply_writes ws' (apply_writes ws d).
Proof. apply foldl_app. Qed.

Lemma apply_writes_ext ws d d' x : d x = d' x → apply_writes ws d x = apply_writes ws d' x.
Proof.
  revert d d'. induction ws as [|w ws IH]; intros d d' Hd; [done|]. simpl. apply IH.
  unfold upd. by destruct (x =? w.1).
Qed.

Lemma apply_writes_out ws d x : x ∉ ws.*1 → apply_writes ws d x = d x.
Proof.
  revert d. induction ws as [|w ws IH]; intros d Hx; [done|]. simpl in *. rewrite not_elem_of_cons in Hx.
  rewrite IH by tauto. unfold upd. destruct (Z.eqb_spec x w.1); [tauto|done].
Qed.

Definition upd_eq {A} (f : Z → A) k v : upd f k v k = v.
Proof. unfold upd. by rewrite Z.eqb_refl. Qed.
Definition upd_ne {A} (f : Z → A) k v x : x ≠ k → upd f k v x = f x.
Proof. unfold upd. by destruct (Z.eqb_spec x k). Qed.

(** Decide the comparisons of goals about [upd]. *)
Ltac updtac :=
  unfold upd; repeat match goal with |- context [?x =? ?y] => destruct (Z.eqb_spec x y) end;
  subst; try done; try congruence; try lia.

(** All written values of an address agree: the result is that value. *)
Lemma apply_writes_val ws d x c : x ∈ ws.*1 → (∀ c', (x, c') ∈ ws → c' = c) → apply_writes ws d x = c.
Proof.
  induction ws as [|[y e] ws IH] using rev_ind; intros Hin Hall; [by apply elem_of_nil in Hin|].
  rewrite apply_writes_app. simpl. destruct (Z.eqb_spec x y) as [->|Hne].
  - rewrite upd_eq. apply Hall. set_solver.
  - rewrite upd_ne by done. apply IH; [|set_solver]. rewrite fmap_app in Hin. set_solver.
Qed.

(** ** The cache as a client sees it *)

Definition cst (s : bstate) (v : Z → block) (r : Z → Z) (h : Z → option Z) (d : Z → block)
    (t : list (Z * block)) : Prop :=
  ∃ l, bc_ok s l ∧ (∀ x, bview s x = v x) ∧ (∀ x, bref s x = r x) ∧ (∀ x, bhold s x = h x) ∧
  (∀ x, dsk s x = d x) ∧ dtrace s = t.

Lemma cst_ext s v v' r r' h h' d d' t :
  cst s v r h d t → (∀ x, v x = v' x) → (∀ x, r x = r' x) → (∀ x, h x = h' x) → (∀ x, d x = d' x) →
  cst s v' r' h' d' t.
Proof.
  intros (l & Hok & Hv & Hr & Hh & Hd & Ht) Ev Er Eh Ed. exists l.
  split_and!; try done; intros x; by rewrite ?Hv, ?Hr, ?Hh, ?Hd.
Qed.

(** At most [P] is referenced. *)
Definition refs_in (r : Z → Z) (P : list Z) : Prop := ∀ x, 0 < r x → x ∈ P.

Section triples.
Context {D : DiskDriver} (pid : Z).

Lemma cst_block_ok s v r h d t x : cst s v r h d t → block_ok (v x) ∧ block_ok (d x).
Proof.
  intros (l & Hok & Hv & _ & _ & Hd & _). rewrite <- Hv, <- Hd. pose proof Hok as (_ & _ & Hlen & Hdk & Hall & _).
  split; [|done]. unfold bview. destruct (bufof (bufs s) x) as [b|] eqn:E; simpl; [|done].
  destruct (b_valid b); [|done]. apply bufof_inv in E as (i & Hi & _). by apply (Hall i b).
Qed.

Lemma cst_bread s v r h d t bn P : cst s v r h d t → h bn = None → r bn < 2 ^ 32 - 1 →
  (0 < r bn ∨ (refs_in r P ∧ (length P < NBUF)%nat)) → ∃ i s', bread pid ROOTDEV bn s = Ret i s' ∧
  cst s' v (upd r bn (r bn + 1)) (upd h bn (Some pid)) d t ∧ bheld s' pid i bn ∧
  ∀ j q b, bheld s q j b → bheld s' q j b.
Proof.
  intros (l & Hok & Hv & Hr & Hh & Hd & Ht) Hhn Hrn Hav.
  destruct (bread_spec pid bn s l Hok) as (i & s' & E & Hok' & Hhe & _ & Hv' & Hr' & Hh' & Hk & (Hd' & Ht') & Hnh).
  - by rewrite Hr.
  - by rewrite Hh.
  - destruct Hav as [Hpos|[HP Hlen]].
    + left. intros Hn. rewrite <- Hr in Hpos. unfold bref in Hpos. rewrite Hn in Hpos. simpl in Hpos. lia.
    + right. apply (has_free_count s l P Hok); [|done]. intros x. rewrite Hr. apply HP.
  - exists i, s'. split_and!; try done.
    2: { intros j q b Hj. destruct (decide (j = i)) as [->|Hne]; [by apply Hnh in Hj|by apply Hk]. }
    exists l. split_and!; try done.
    + intros x. by rewrite Hv', Hv.
    + intros x. rewrite Hr'. unfold upd. destruct (x =? bn); by rewrite Hr.
    + intros x. rewrite Hh'. unfold upd. destruct (x =? bn); by rewrite ?Hh.
    + intros x. by rewrite Hd', Hd.
    + by rewrite Ht'.
Qed.

Lemma cst_data s v r h d t i bn : cst s v r h d t → bheld s pid i bn → b_data (getb i s) = v bn.
Proof. intros (l & Hok & Hv & _) Hh. destruct (bheld_view s l pid i bn Hok Hh) as (E & _). by rewrite <- E, Hv. Qed.

Lemma cst_bmodify s v r h d t i bn g : cst s v r h d t → bheld s pid i bn → block_ok (g (v bn)) → ∃ s',
  bmodify i g s = Ret tt s' ∧ cst s' (upd v bn (g (v bn))) r h d t ∧ bheld s' pid i bn ∧ keep_held i s s'.
Proof.
  intros Hc Hh Hg. pose proof (cst_data _ _ _ _ _ _ _ _ Hc Hh) as Hda.
  destruct Hc as (l & Hok & Hv & Hr & Hho & Hd & Ht).
  destruct (bmodify_spec s l pid i bn g Hok Hh) as (s' & E & Hok' & Hh' & Hv' & Hr' & Hho' & Hk & Hd' & Ht').
  { by rewrite Hda. }
  exists s'. split_and!; try done. exists l. split_and!; try done.
  - intros x. rewrite Hv'. unfold upd. destruct (x =? bn); by rewrite Hv.
  - intros x. by rewrite Hr', Hr.
  - intros x. by rewrite Hho', Hho.
  - intros x. by rewrite Hd', Hd.
  - by rewrite Ht'.
Qed.

Lemma cst_bwrite s v r h d t i bn : cst s v r h d t → bheld s pid i bn → ∃ s',
  bwrite pid i s = Ret tt s' ∧ cst s' v r h (upd d bn (v bn)) (t ++ [(bn, v bn)]) ∧
  (∀ j q b, bheld s q j b → bheld s' q j b) ∧ (∀ j, getb j s' = getb j s).
Proof.
  intros (l & Hok & Hv & Hr & Hho & Hd & Ht) Hh.
  destruct (bwrite_spec s l pid i bn Hok Hh) as (s' & E & Hok' & Hv' & Hr' & Hho' & Hg & Hd' & Ht').
  exists s'. split_and!; try done.
  - exists l. split_and!; try done.
    + intros x. by rewrite Hv'.
    + intros x. by rewrite Hr'.
    + intros x. by rewrite Hho'.
    + intros x. rewrite Hd'. unfold upd. destruct (x =? bn); by rewrite ?Hv, ?Hd.
    + by rewrite Ht', Ht, Hv.
  - intros j q b Hj. unfold bheld in *. by rewrite Hg.
Qed.

Lemma cst_brelse s v r h d t i bn : cst s v r h d t → bheld s pid i bn → (2 ≤ r bn ∨ v bn = d bn) → ∃ s',
  brelse pid i s = Ret tt s' ∧ cst s' v (upd r bn (r bn - 1)) (upd h bn None) d t ∧ keep_held i s s'.
Proof.
  intros (l & Hok & Hv & Hr & Hho & Hd & Ht) Hh Hcl.
  destruct (brelse_spec s l pid i bn Hok Hh) as (s' & E & Hok' & Hv' & Hr' & Hho' & Hk & Hd' & Ht').
  { by rewrite Hr, Hv, Hd. }
  exists s'. split_and!; try done. eexists. split_and!; try done.
  - intros x. by rewrite Hv'.
  - intros x. rewrite Hr'. unfold upd. destruct (x =? bn); by rewrite Hr.
  - intros x. rewrite Hho'. unfold upd. destruct (x =? bn); by rewrite ?Hho.
  - intros x. by rewrite Hd', Hd.
  - by rewrite Ht'.
Qed.

Lemma cst_bunpin s v r h d t i bn : cst s v r h d t → bheld s pid i bn → 2 ≤ r bn → ∃ s',
  bunpin i s = Ret tt s' ∧ cst s' v (upd r bn (r bn - 1)) h d t ∧ (∀ j q b, bheld s q j b → bheld s' q j b).
Proof.
  intros (l & Hok & Hv & Hr & Hho & Hd & Ht) Hh H2. destruct (bheld_view s l pid i bn Hok Hh) as (_ & Href & _).
  pose proof Hh as (Hi & Hc & _ & _ & _ & Hpos). destruct (bc_ok_buf s l i Hok Hi) as [_ (_ & Hrg & _)].
  rewrite Hr in Href. exists (updb i (bset_refcnt (b_refcnt (getb i s) - 1)) s).
  destruct (bset_ref_spec s l i bn (b_refcnt (getb i s) - 1) Hok Hi Hc) as (Hok' & Hv' & Hr' & Hho' & (Hd' & Ht') & Hk); [lia|lia|lia|].
  split_and!; [by apply (bunpin_run s l)| |intros j q b Hj; by apply Hk; [|lia]].
  exists l. split_and!; try done.
  - intros x. by rewrite Hv'.
  - intros x. rewrite Hr'. unfold upd. destruct (x =? bn); [lia|by rewrite Hr].
  - intros x. by rewrite Hho'.
Qed.

Lemma bheld_ne s v r h d t i j a b : cst s v r h d t → bheld s pid i a → bheld s pid j b → a ≠ b → i ≠ j.
Proof. intros _ (_ & (_ & Ha) & _) (_ & (_ & Hb) & _) Hne ->. congruence. Qed.
End triples.

(** Running a cache operation inside the log. *)
Lemma bio_bind {A B} (m : M bstate A) (k : A → M lstate B) s a b :
  m (lg_bc s) = Ret a b → (bio m ≫= k) s = k a (set_lg_bc b s).
Proof. intros E. unfold bio. by rewrite (bind_Ret _ _ _ _ _ (zoom_Ret _ _ _ _ _ _ E)). Qed.

Lemma gets_bind {S A B} (f : S → A) (k : A → M S B) s : (gets f ≫= k) s = k (f s) s.
Proof. done. Qed.

Lemma bio_gets {A B} (f : bstate → A) (k : A → M lstate B) s : (bio (gets f) ≫= k) s = k (f (lg_bc s)) s.
Proof. unfold bio, zoom, gets, mbind, M_bind. by destruct s. Qed.

Lemma lh_get_bind {B} (k : Z → M lstate B) i s b : lh_block s !! Z.to_nat i = Some b → (lh_get i ≫= k) s = k b s.
Proof. intros E. apply bind_Ret. unfold lh_get. rewrite gets_bind, E. done. Qed.

(** ** Writes of the log *)

(** write_log(): the blocks [bl] are copied to the log from address [a]. *)
Fixpoint wl_writes (v : Z → block) (a : Z) (bl : list Z) : list (Z * block) :=
  match bl with [] => [] | b :: bl => (a, v b) :: wl_writes v (a + 1) bl end.

(** install_trans(): the log blocks from [a] are copied home. *)
Fixpoint it_writes (v : Z → block) (a : Z) (bl : list Z) : list (Z * block) :=
  match bl with [] => [] | b :: bl => (b, v a) :: it_writes v (a + 1) bl end.

(** The header with the blocks [bl] from index [i] filled in. *)
Fixpoint hdr_fill (d : block) (i : Z) (bl : list Z) : block :=
  match bl with [] => d | b :: bl => hdr_fill (put32 d (4 + 4 * i) b) (i + 1) bl end.
Definition hdr_of (d : block) (bl : list Z) : block := hdr_fill (put32 d 0 (Z.of_nat (length bl))) 0 bl.

Definition in_range (a n x : Z) : Prop := a ≤ x < a + n.

Lemma wl_writes_ext v v' a bl : (∀ b, b ∈ bl → v b = v' b) → wl_writes v a bl = wl_writes v' a bl.
Proof.
  revert a. induction bl as [|b bl IH]; intros a He; [done|]. simpl. rewrite He by (by left). f_equal.
  apply IH. intros x Hx. apply He. by right.
Qed.

Lemma it_writes_ext v v' a bl :
  (∀ x, in_range a (Z.of_nat (length bl)) x → v x = v' x) → it_writes v a bl = it_writes v' a bl.
Proof.
  revert a. induction bl as [|b bl IH]; intros a He; [done|]. simpl.
  rewrite He by (unfold in_range; simpl; lia). f_equal. apply IH. intros x Hx. apply He. unfold in_range in *. simpl. lia.
Qed.

Lemma elem_of_wl_writes v a bl x c : (x, c) ∈ wl_writes v a bl ↔
  ∃ j b, bl !! j = Some b ∧ x = a + Z.of_nat j ∧ c = v b.
Proof.
  revert a. induction bl as [|b bl IH]; intros a; simpl.
  { rewrite elem_of_nil. split; [done|]. intros (j & b & Hj & _). done. }
  rewrite elem_of_cons, IH. split.
  - intros [[= -> ->]|(j & b' & Hj & -> & ->)]; [exists 0%nat, b|exists (S j), b']; split_and!; try done; lia.
  - intros ([|j] & b' & Hj & -> & ->); simplify_eq/=; [left; f_equal; lia|right].
    exists j, b'. split_and!; try done. lia.
Qed.

Lemma wl_writes_fst v a bl : (wl_writes v a bl).*1 = (λ j, a + Z.of_nat j) <$> seq 0 (length bl).
Proof.
  revert a. induction bl as [|b bl IH]; intros a; [done|]. cbn [wl_writes length seq]. rewrite !fmap_cons, IH.
  f_equal; [simpl; lia|]. rewrite <- fmap_S_seq, <- list_fmap_compose. apply list_fmap_ext. intros. simpl. lia.
Qed.

Lemma elem_of_it_writes v a bl x c : (x, c) ∈ it_writes v a bl ↔
  ∃ j, bl !! j = Some x ∧ c = v (a + Z.of_nat j).
Proof.
  revert a. induction bl as [|b bl IH]; intros a; simpl.
  { rewrite elem_of_nil. split; [done|]. intros (j & Hj & _). done. }
  rewrite elem_of_cons, IH. split.
  - intros [[= -> ->]|(j & Hj & ->)]; [exists 0%nat|exists (S j)]; (split; [done|]); f_equal; lia.
  - intros ([|j] & Hj & ->); simplify_eq/=; [left; f_equal; f_equal; lia|right].
    exists j. split; [done|]. f_equal. lia.
Qed.

Lemma it_writes_fst v a bl : (it_writes v a bl).*1 = bl.
Proof. revert a. induction bl as [|b bl IH]; intros a; [done|]. simpl. by rewrite IH. Qed.

Section runs.
Context {D : DiskDriver} (pid : Z).

(** One block of write_log(). *)
Lemma write_log_round s v r h d t P tail b :
  cst (lg_bc s) v r h d t → lg_dev s = ROOTDEV → lh_block s !! Z.to_nat tail = Some b →
  let a := lg_start s + tail + 1 in
  a ≠ b → r a = 0 → 0 < r b < 2 ^ 32 - 1 → h a = None → h b = None → refs_in r P → (length P < NBUF)%nat →
  ∃ c, (∀ k, write_log_loop pid (S k) tail s = write_log_loop pid k (tail + 1) (set_lg_bc c s)) ∧
    cst c (upd v a (v b)) r h (upd d a (v b)) (t ++ [(a, v b)]).
Proof.
  intros Hc Hdev Hblk a Hab Hra Hrb Hha Hhb HP Hlen.
  destruct (cst_bread pid _ v r h d t a P Hc) as (i & c1 & E1 & Hc1 & Hi1 & _); [done|lia|by right|].
  destruct (cst_bread pid c1 _ _ _ d t b [] Hc1) as (j & c2 & E2 & Hc2 & Hj2 & Hk2).
  { by rewrite upd_ne. } { rewrite upd_ne by done. lia. } { left. rewrite upd_ne by done. lia. }
  pose proof (Hk2 _ _ _ Hi1) as Hi2. pose proof (bheld_ne _ _ _ _ _ _ _ _ _ _ _ Hc2 Hi2 Hj2 Hab) as Hij.
  destruct (cst_bmodify pid c2 _ _ _ d t i a (λ _, v b) Hc2 Hi2) as (c3 & E3 & Hc3 & Hi3 & Hk3).
  { apply (cst_block_ok _ _ _ _ _ _ b Hc2). }
  destruct (Hk3 j pid b (not_eq_sym Hij) Hj2) as [Hj3 _].
  destruct (cst_bwrite pid c3 _ _ _ d t i a Hc3 Hi3) as (c4 & E4 & Hc4 & Hk4 & _).
  destruct (cst_brelse pid c4 _ _ _ _ _ j b Hc4 (Hk4 _ _ _ Hj3)) as (c5 & E5 & Hc5 & Hk5).
  { left. rewrite upd_eq, upd_ne by done. lia. }
  destruct (Hk5 i pid a Hij (Hk4 _ _ _ Hi3)) as [Hi5 _].
  destruct (cst_brelse pid c5 _ _ _ _ _ i a Hc5 Hi5) as (c6 & E6 & Hc6 & _).
  { right. by rewrite !upd_eq. }
  exists c6. split.
  - intros k. cbn [write_log_loop]. rewrite !gets_bind, Hdev.
    rewrite (bio_bind _ _ s _ _ E1). rewrite (lh_get_bind _ tail (set_lg_bc c1 s) b Hblk).
    rewrite (bio_bind _ _ (set_lg_bc c1 s) _ _ E2), bio_gets.
    cbn [set_lg_bc lg_bc]. rewrite (cst_data pid _ _ _ _ _ _ _ _ Hc2 Hj2).
    rewrite (bio_bind _ _ (set_lg_bc c2 s) _ _ E3), (bio_bind _ _ (set_lg_bc c3 s) _ _ E4).
    rewrite (bio_bind _ _ (set_lg_bc c4 s) _ _ E5), (bio_bind _ _ (set_lg_bc c5 s) _ _ E6). done.
  - rewrite (upd_eq v a) in Hc6. clear -Hc6 Hra Hrb Hha Hhb Hab. clearbody a.
    eapply cst_ext; [exact Hc6|..]; intros x; updtac.
Qed.
Lemma set_lg_bc_twice c c' s : set_lg_bc c (set_lg_bc c' s) = set_lg_bc c s.
Proof. done. Qed.
Lemma set_lg_bc_id s : set_lg_bc (lg_bc s) s = s.
Proof. by destruct s. Qed.

(** The blocks [bl] are those of log.lh from index [tail]. *)
Definition lh_has (s : lstate) (tail : Z) (bl : list Z) : Prop :=
  0 ≤ tail ∧ ∀ j b, bl !! j = Some b → lh_block s !! Z.to_nat (tail + Z.of_nat j) = Some b.

Lemma lh_has_cons s tail b bl : lh_has s tail (b :: bl) →
  lh_block s !! Z.to_nat tail = Some b ∧ lh_has s (tail + 1) bl.
Proof.
  intros [H0 H]. split.
  - rewrite <- (H 0%nat b) by done. f_equal. lia.
  - split; [lia|]. intros j x Hj. rewrite <- (H (S j) x) by done. f_equal. lia.
Qed.

Lemma write_log_loop_spec bl s v r h d t P tail :
  cst (lg_bc s) v r h d t → lg_dev s = ROOTDEV → lh_has s tail bl →
  let a := lg_start s + tail + 1 in
  (∀ b, b ∈ bl → ¬ in_range a (Z.of_nat (length bl)) b ∧ 0 < r b < 2 ^ 32 - 1 ∧ h b = None) →
  (∀ x, in_range a (Z.of_nat (length bl)) x → r x = 0 ∧ h x = None) →
  refs_in r P → (length P < NBUF)%nat →
  ∃ c, write_log_loop pid (length bl) tail s = Ret tt (set_lg_bc c s) ∧
    let ws := wl_writes v a bl in cst c (apply_writes ws v) r h (apply_writes ws d) (t ++ ws).
Proof.
  revert s v d t tail. induction bl as [|b bl IH]; intros s v d t tail Hc Hdev Hlh a Hbl Hlog HP Hlen.
  { exists (lg_bc s). rewrite set_lg_bc_id. split; [done|]. simpl. by rewrite app_nil_r. }
  apply lh_has_cons in Hlh as [Hb Hlh]. cbn [length] in *. unfold in_range in Hbl, Hlog.
  destruct (Hbl b) as (Hba & Hrb & Hhb); [by left|]. destruct (Hlog a) as [Hra Hha]; [lia|].
  destruct (write_log_round s v r h d t P tail b Hc Hdev Hb) as (c1 & E1 & Hc1); try done; [fold a; lia|].
  fold a in Hc1. rewrite E1.
  destruct (IH (set_lg_bc c1 s) _ _ _ (tail + 1) Hc1) as (c & E & Hc2); try done.
  - intros x Hx. unfold in_range. destruct (Hbl x) as (? & ? & ?); [by right|].
    split_and!; try done; simpl; unfold a in *; lia.
  - intros x Hx. apply Hlog. unfold in_range in Hx. simpl in Hx. unfold a. lia.
  - exists c. rewrite E, set_lg_bc_twice. split; [done|]. simpl in Hc2.
    replace (lg_start s + (tail + 1) + 1) with (a + 1) in Hc2 by (unfold a; lia).
    rewrite (wl_writes_ext (upd v a (v b)) v (a + 1) bl) in Hc2.
    + simpl. rewrite <- app_assoc in Hc2. exact Hc2.
    + intros x Hx. destruct (Hbl x) as (Hxa & _); [by right|]. apply upd_ne. lia.
Qed.

(** One block of install_trans(). *)
Lemma install_round (recovering : bool) s v r h d t P tail b :
  cst (lg_bc s) v r h d t → lg_dev s = ROOTDEV → lh_block s !! Z.to_nat tail = Some b →
  let a := lg_start s + tail + 1 in
  a ≠ b → r a = 0 → 0 ≤ r b < 2 ^ 32 - 1 → (recovering = false → 0 < r b) →
  h a = None → h b = None → v a = d a → refs_in r P →
  ((length P < NBUF - 1)%nat ∨ ((length P < NBUF)%nat ∧ 0 < r b)) →
  ∃ c, (∀ k, install_trans_loop pid recovering (S k) tail s =
             install_trans_loop pid recovering k (tail + 1) (set_lg_bc c s)) ∧
    cst c (upd v b (v a)) (if recovering then r else upd r b (r b - 1)) h (upd d b (v a)) (t ++ [(b, v a)]).
Proof.
  intros Hc Hdev Hblk a Hab Hra Hrb Hrec Hha Hhb Hcl HP Hlen.
  destruct (cst_bread pid _ v r h d t a P Hc) as (i & c1 & E1 & Hc1 & Hi1 & _); [done|lia|right; split; [done|lia]|].
  destruct (cst_bread pid c1 _ _ _ d t b (a :: P) Hc1) as (j & c2 & E2 & Hc2 & Hj2 & Hk2).
  { by rewrite upd_ne. } { rewrite upd_ne by done. lia. }
  { rewrite upd_ne by done. destruct Hlen as [Hlen|[_ Hpos]]; [right|by left]. split; [|simpl; lia].
    intros x. unfold upd. destruct (Z.eqb_spec x a) as [->|]; [intros _; by left|]. intros Hx. right. by apply HP. }
  pose proof (Hk2 _ _ _ Hi1) as Hi2. pose proof (bheld_ne _ _ _ _ _ _ _ _ _ _ _ Hc2 Hi2 Hj2 Hab) as Hij.
  destruct (cst_bmodify pid c2 _ _ _ d t j b (λ _, v a) Hc2 Hj2) as (c3 & E3 & Hc3 & Hj3 & Hk3).
  { apply (cst_block_ok _ _ _ _ _ _ a Hc2). }
  destruct (Hk3 i pid a Hij Hi2) as [Hi3 _].
  destruct (cst_bwrite pid c3 _ _ _ d t j b Hc3 Hj3) as (c4 & E4 & Hc4 & Hk4 & _).
  assert (∃ c5 r5, (if recovering then mret tt else bunpin j) c4 = Ret tt c5 ∧
    cst c5 (upd v b (v a)) r5 (upd (upd h a (Some pid)) b (Some pid)) (upd d b (v a)) (t ++ [(b, v a)]) ∧
    (∀ x, r5 x = if x =? a then r a + 1 else if x =? b then (if recovering then r b + 1 else r b) else r x) ∧
    ∀ j q b, bheld c4 q j b → bheld c5 q j b) as (c5 & r5 & E5 & Hc5 & Hr5 & Hk5).
  { rewrite !upd_eq in Hc4. destruct recovering.
    - exists c4. eexists. split_and!; [done|exact Hc4| |done]. intros x. clear -Hab. clearbody a. updtac.
    - destruct (cst_bunpin pid c4 _ _ _ _ _ j b Hc4 (Hk4 _ _ _ Hj3)) as (c5 & E5 & Hc5 & Hk5).
      { rewrite upd_eq, upd_ne by done. specialize (Hrec eq_refl). lia. }
      exists c5. eexists. split_and!; [done|exact Hc5| |done]. intros x. clear -Hab. clearbody a. updtac. }
  destruct (cst_brelse pid c5 _ _ _ _ _ i a Hc5 (Hk5 _ _ _ (Hk4 _ _ _ Hi3))) as (c6 & E6 & Hc6 & Hk6).
  { right. by rewrite !upd_ne. }
  destruct (Hk6 j pid b (not_eq_sym Hij) (Hk5 _ _ _ (Hk4 _ _ _ Hj3))) as [Hj6 _].
  destruct (cst_brelse pid c6 _ _ _ _ _ j b Hc6 Hj6) as (c7 & E7 & Hc7 & _).
  { right. by rewrite !upd_eq. }
  exists c7. split.
  - intros k. cbn [install_trans_loop]. rewrite !gets_bind, Hdev.
    rewrite (bio_bind _ _ s _ _ E1). rewrite (lh_get_bind _ tail (set_lg_bc c1 s) b Hblk).
    rewrite (bio_bind _ _ (set_lg_bc c1 s) _ _ E2), bio_gets.
    cbn [set_lg_bc lg_bc]. rewrite (cst_data pid _ _ _ _ _ _ _ _ Hc2 Hi2).
    rewrite (bio_bind _ _ (set_lg_bc c2 s) _ _ E3), (bio_bind _ _ (set_lg_bc c3 s) _ _ E4).
    assert (E5' : (if recovering then mret tt else bio (bunpin j)) (set_lg_bc c4 s) = Ret tt (set_lg_bc c5 s)).
    { destruct recovering; [by injection E5 as ->|]. exact (zoom_Ret lg_bc set_lg_bc (bunpin j) (set_lg_bc c4 s) _ _ E5). }
    rewrite (bind_Ret _ _ _ _ _ E5').
    rewrite (bio_bind _ _ (set_lg_bc c5 s) _ _ E6), (bio_bind _ _ (set_lg_bc c6 s) _ _ E7). done.
  - clear -Hc7 Hr5 Hra Hrb Hha Hhb Hab. clearbody a.
    eapply cst_ext; [exact Hc7|..]; intros x; [done| |updtac|done].
    rewrite (upd_ne r5 a _ b) by congruence. pose proof (Hr5 x) as Hx. pose proof (Hr5 a) as Ha. pose proof (Hr5 b) as Hb.
    rewrite ?Z.eqb_refl in *. unfold upd. destruct recovering;
    repeat match goal with |- context [?x =? ?y] => destruct (Z.eqb_spec x y) end; subst;
    repeat match goal with H : context [?x =? ?y] |- _ => destruct (Z.eqb_spec x y) end; subst; try done; lia.
Qed.
End runs.
