(* ===== verification/LogRun.v ===== *)
(** * kernel/log.c: the runs of commit() and recovery

    commit() and recover_from_log() as sequences of disk writes. *)

From stdpp Require Import base sets strings numbers list.
From coqutil Require Import Byte Word.LittleEndianList.
From S2P Require Import Prelude Riscv Spinlock Block Sleeplock Bio BioLru BioFacts BioOps BioThms Log LogFacts.

(** Reference counts after bunpin() of the blocks [bl]. *)
Definition unpinned (r : Z → Z) (bl : list Z) : Z → Z := λ x, if decide (x ∈ bl) then r x - 1 else r x.

Section runs.
Context {D : DiskDriver} (pid : Z).

Lemma install_loop_spec (recovering : bool) bl s v r h d t P tail :
  cst (lg_bc s) v r h d t → lg_dev s = ROOTDEV → lh_has s tail bl →
  let a := lg_start s + tail + 1 in
  (∀ b, b ∈ bl → ¬ in_range a (Z.of_nat (length bl)) b ∧ 0 ≤ r b < 2 ^ 32 - 1 ∧ h b = None ∧
     (recovering = false → 0 < r b)) →
  (recovering = false → NoDup bl) →
  (∀ x, in_range a (Z.of_nat (length bl)) x → r x = 0 ∧ h x = None ∧ v x = d x) →
  refs_in r P → (length P < NBUF)%nat → (recovering = true → (length P < NBUF - 1)%nat) →
  ∃ c, install_trans_loop pid recovering (length bl) tail s = Ret tt (set_lg_bc c s) ∧
    let ws := it_writes v a bl in
    cst c (apply_writes ws v) (if recovering then r else unpinned r bl) h (apply_writes ws d) (t ++ ws).
Proof.
  revert s v r d t tail. induction bl as [|b bl IH]; intros s v r d t tail Hc Hdev Hlh a Hbl Hnd Hlog HP Hlen Hlen'.
  { exists (lg_bc s). rewrite set_lg_bc_id. split; [done|]. simpl. rewrite app_nil_r.
    eapply cst_ext; [exact Hc|..]; try done. intros x. destruct recovering; [done|]. unfold unpinned. by rewrite decide_False by apply not_elem_of_nil. }
  apply lh_has_cons in Hlh as [Hb Hlh]. cbn [length] in *. unfold in_range in Hbl, Hlog.
  destruct (Hbl b) as (Hba & Hrb & Hhb & Hpos); [by left|]. destruct (Hlog a) as (Hra & Hha & Hva); [lia|].
  destruct (install_round pid recovering s v r h d t P tail b Hc Hdev Hb) as (c1 & E1 & Hc1); try done.
  { fold a. lia. }
  { destruct recovering; [left; by apply Hlen'|right; split; [done|by apply Hpos]]. }
  fold a in Hc1. rewrite E1.
  assert (Hndb : recovering = false → (b ∉ bl) ∧ NoDup bl).
  { intros Hf. by apply NoDup_cons, Hnd. }
  destruct (IH (set_lg_bc c1 s) _ _ _ _ (tail + 1) Hc1) as (c & E & Hc2); try done.
  - intros x Hx. unfold in_range. destruct (Hbl x) as (? & ? & ? & ?); [by right|].
    assert (Hrx : (if recovering then r else upd r b (r b - 1)) x = r x).
    { destruct recovering; [done|]. apply upd_ne. intros ->. by destruct (Hndb eq_refl). }
    rewrite Hrx. split_and!; try done; simpl; unfold a in *; lia.
  - intros Hf. by apply Hndb.
  - intros x Hx. unfold in_range in Hx. simpl in Hx. destruct (Hlog x) as (? & ? & ?); [unfold a; lia|].
    assert (x ≠ b) by (intros ->; unfold a in *; lia). rewrite !upd_ne by done.
    split_and!; try done. destruct recovering; [done|]. by rewrite upd_ne.
  - intros x Hx. apply HP. destruct recovering; [done|]. revert Hx. unfold upd.
    destruct (Z.eqb_spec x b) as [->|]; [specialize (Hpos eq_refl); lia|done].
  - exists c. rewrite E, set_lg_bc_twice. split; [done|]. simpl in Hc2.
    replace (lg_start s + (tail + 1) + 1) with (a + 1) in Hc2 by (unfold a; lia).
    rewrite (it_writes_ext (upd v b (v a)) v (a + 1) bl) in Hc2.
    + simpl. rewrite <- app_assoc in Hc2. eapply cst_ext; [exact Hc2|done| |done|done].
      intros x. destruct recovering; [done|]. destruct (Hndb eq_refl) as [Hnb _]. unfold unpinned, upd.
      destruct (Z.eqb_spec x b) as [->|Hne].
      * rewrite decide_False by done. rewrite decide_True by (by left). done.
      * destruct (decide (x ∈ bl)) as [Hx|Hx]; [rewrite decide_True by (by right); done|].
        rewrite decide_False; [done|]. rewrite elem_of_cons. tauto.
    + intros x Hx. apply upd_ne. unfold in_range in Hx. lia.
Qed.

(** ** The header block *)

Lemma hdr_fill_length d i bl : 0 ≤ i → 4 + 4 * (i + Z.of_nat (length bl)) ≤ Z.of_nat (length d) →
  length (hdr_fill d i bl) = length d.
Proof.
  revert d i. induction bl as [|b bl IH]; intros d i Hi Hl; [done|]. cbn [hdr_fill length] in *.
  rewrite IH; rewrite ?put32_length; try done; lia.
Qed.

Lemma hdr_fill_below d i bl o : 0 ≤ i → 4 + 4 * (i + Z.of_nat (length bl)) ≤ Z.of_nat (length d) →
  0 ≤ o → o + 4 ≤ 4 + 4 * i → get32 (hdr_fill d i bl) o = get32 d o.
Proof.
  revert d i. induction bl as [|b bl IH]; intros d i Hi Hl Ho Hoi; [done|]. cbn [hdr_fill length] in *.
  rewrite IH; rewrite ?put32_length; try lia. rewrite get32_put32_ne; lia || done.
Qed.

Lemma hdr_fill_at d i bl j b : 0 ≤ i → 4 + 4 * (i + Z.of_nat (length bl)) ≤ Z.of_nat (length d) →
  bl !! j = Some b → get32 (hdr_fill d i bl) (4 + 4 * (i + Z.of_nat j)) = u32 b.
Proof.
  revert d i j. induction bl as [|b' bl IH]; intros d i j Hi Hl Hj; [done|]. cbn [hdr_fill length] in *.
  destruct j as [|j]; simplify_eq/=.
  - rewrite Z.add_0_r. rewrite hdr_fill_below; rewrite ?put32_length; try lia.
    rewrite get32_put32_eq by lia. done.
  - replace (4 + 4 * (i + Z.of_nat (S j))) with (4 + 4 * ((i + 1) + Z.of_nat j)) by lia.
    apply IH; rewrite ?put32_length; try lia. done.
Qed.

(** Block numbers the log can hold. *)
Definition small (b : Z) : Prop := 0 ≤ b < 2 ^ 31.

Lemma i32_u32 b : small b → i32 (u32 b) = b.
Proof. intros [? ?]. rewrite u32_id by lia. apply i32_id. lia. Qed.

Lemma hdr_of_ok d bl : block_ok d → (length bl ≤ Z.to_nat LOGSIZE)%nat → Forall small bl →
  block_ok (hdr_of d bl) ∧ hdr_n (hdr_of d bl) = Z.of_nat (length bl) ∧
  ∀ j b, bl !! j = Some b → hdr_block (hdr_of d bl) (Z.of_nat j) = b.
Proof.
  unfold block_ok, hdr_of, BSIZE. intros Hd Hl Hs. change (Z.to_nat LOGSIZE) with 30%nat in Hl.
  rewrite hdr_fill_length; rewrite ?put32_length; try lia. split_and!; [done| |].
  - unfold hdr_n. rewrite hdr_fill_below; rewrite ?put32_length; try lia.
    rewrite get32_put32_eq by lia. apply i32_u32. split; lia.
  - intros j b Hj. unfold hdr_block. rewrite <- (Z.add_0_l (Z.of_nat j)).
    rewrite (hdr_fill_at _ _ _ _ b); rewrite ?put32_length; try lia; try done.
    apply i32_u32. rewrite Forall_lookup in Hs. by eapply Hs.
Qed.

Lemma write_head_loop_spec bl s v r h d t i b start :
  cst (lg_bc s) v r h d t → bheld (lg_bc s) pid b start → lh_has s i bl →
  4 + 4 * (i + Z.of_nat (length bl)) ≤ BSIZE →
  ∃ c, write_head_loop (length bl) i b s = Ret tt (set_lg_bc c s) ∧
    cst c (upd v start (hdr_fill (v start) i bl)) r h d t ∧ bheld c pid b start.
Proof.
  revert s v i. induction bl as [|x bl IH]; intros s v i Hc Hh Hlh Hsz.
  { exists (lg_bc s). rewrite set_lg_bc_id. split_and!; [done| |done]. eapply cst_ext; [exact Hc|..]; try done.
    intros x. updtac. }
  pose proof Hlh as [Hi _]. apply lh_has_cons in Hlh as [Hx Hlh]. cbn [length write_head_loop hdr_fill] in *.
  rewrite (lh_get_bind _ i s x Hx). destruct (cst_block_ok _ _ _ _ _ _ start Hc) as [Hvok _].
  unfold block_ok, BSIZE in *.
  destruct (cst_bmodify pid (lg_bc s) v r h d t b start (λ d, put32 d (4 + 4 * i) x) Hc Hh) as (c1 & E1 & Hc1 & Hh1 & _).
  { unfold block_ok, BSIZE. rewrite put32_length; lia. }
  rewrite (bio_bind _ _ s _ _ E1).
  destruct (IH (set_lg_bc c1 s) _ (i + 1) Hc1 Hh1 Hlh) as (c & E & Hc2 & Hh2); [lia|].
  exists c. rewrite E, set_lg_bc_twice. split_and!; [done| |done].
  eapply cst_ext; [exact Hc2|..]; try done. intros y. rewrite upd_eq. updtac.
Qed.

Lemma write_head_spec bl s v r h d t P :
  cst (lg_bc s) v r h d t → lg_dev s = ROOTDEV → lh_n s = Z.of_nat (length bl) → lh_has s 0 bl →
  (length bl ≤ Z.to_nat LOGSIZE)%nat → r (lg_start s) = 0 → h (lg_start s) = None →
  refs_in r P → (length P < NBUF)%nat →
  let H := hdr_of (v (lg_start s)) bl in
  ∃ c, write_head pid s = Ret tt (set_lg_bc c s) ∧
    cst c (upd v (lg_start s) H) r h (upd d (lg_start s) H) (t ++ [(lg_start s, H)]).
Proof.
  intros Hc Hdev Hn Hlh Hlen Hr Hh HP HPl H. set (start := lg_start s) in *.
  destruct (cst_bread pid _ v r h d t start P Hc) as (b & c1 & E1 & Hc1 & Hb1 & _); [done|lia|by right|].
  destruct (cst_block_ok _ _ _ _ _ _ start Hc1) as [Hvok _]. unfold block_ok, BSIZE in Hvok.
  destruct (cst_bmodify pid c1 _ _ _ d t b start (λ x, put32 x 0 (lh_n s)) Hc1 Hb1) as (c2 & E2 & Hc2 & Hb2 & _).
  { unfold block_ok, BSIZE. rewrite put32_length; lia. }
  destruct (write_head_loop_spec bl (set_lg_bc c2 s) _ _ _ _ _ 0 b start Hc2 Hb2 Hlh) as (c3 & E3 & Hc3 & Hb3).
  { change (Z.to_nat LOGSIZE) with 30%nat in Hlen. unfold BSIZE. lia. }
  rewrite upd_eq, Hn in Hc3. fold (hdr_of (v start) bl) in Hc3. fold H in Hc3.
  destruct (cst_bwrite pid c3 _ _ _ _ _ b start Hc3 Hb3) as (c4 & E4 & Hc4 & Hk4 & _).
  destruct (cst_brelse pid c4 _ _ _ _ _ b start Hc4 (Hk4 _ _ _ Hb3)) as (c5 & E5 & Hc5 & _).
  { right. by rewrite !upd_eq. }
  exists c5. split.
  - unfold write_head. rewrite !gets_bind, Hdev. fold start. rewrite (bio_bind _ _ s _ _ E1), gets_bind.
    cbn [set_lg_bc lh_n]. rewrite (bio_bind _ _ (set_lg_bc c1 s) _ _ E2).
    rewrite Hn, Nat2Z.id. rewrite (bind_Ret _ _ _ _ _ E3).
    rewrite (bio_bind _ _ (set_lg_bc c3 s) _ _ E4). unfold bio.
    exact (zoom_Ret lg_bc set_lg_bc (brelse pid b) (set_lg_bc c4 s) _ _ E5).
  - rewrite (upd_eq _ start H) in Hc5. clear -Hc5 Hr Hh. clearbody start H.
    eapply cst_ext; [exact Hc5|..]; intros x; updtac.
Qed.

(** ** commit() *)

(** log.lh holds the blocks [bl], pinned in the cache and locked by nobody;
    the log area is unused and agrees with the disk; some buffer is unused
    ([P] lists the blocks in use). *)
Record commit_pre (s : lstate) (v : Z → block) (r : Z → Z) (h : Z → option Z) (d : Z → block)
    (t : list (Z * block)) (bl P : list Z) : Prop := {
  cp_cst : cst (lg_bc s) v r h d t;
  cp_dev : lg_dev s = ROOTDEV;
  cp_n : lh_n s = Z.of_nat (length bl);
  cp_lh : lh_has s 0 bl;
  cp_len : (length bl < Z.to_nat LOGSIZE)%nat;
  cp_nodup : NoDup bl;
  cp_small : Forall small bl;
  cp_home b : b ∈ bl → ¬ in_range (lg_start s) (Z.of_nat (length bl) + 1) b;
  cp_pinned b : b ∈ bl → 0 < r b < 2 ^ 32 - 1 ∧ h b = None;
  cp_log x : in_range (lg_start s) (Z.of_nat (length bl) + 1) x → r x = 0 ∧ h x = None ∧ v x = d x;
  cp_refs : refs_in r P;
  cp_free : (length P < NBUF)%nat
}.

(** The disk writes of commit(). *)
Definition commit_writes (start : Z) (v : Z → block) (bl : list Z) : list (Z * block) :=
  let H := hdr_of (v start) bl in
  wl_writes v (start + 1) bl ++ [(start, H)] ++
  ((λ b, (b, v b)) <$> bl) ++ [(start, hdr_of H [])].

Lemma wl_writes_at v a bl d j b : bl !! j = Some b → apply_writes (wl_writes v a bl) d (a + Z.of_nat j) = v b.
Proof.
  intros Hj. apply apply_writes_val.
  - rewrite wl_writes_fst. apply list_elem_of_fmap. exists j. split; [done|].
    apply elem_of_seq. apply lookup_lt_Some in Hj. lia.
  - intros c (j' & b' & Hj' & Heq & ->)%elem_of_wl_writes. assert (j' = j) as -> by lia. congruence.
Qed.

Lemma wl_writes_other v a bl d x : ¬ in_range a (Z.of_nat (length bl)) x → apply_writes (wl_writes v a bl) d x = d x.
Proof.
  intros Hx. apply apply_writes_out. rewrite wl_writes_fst. intros (j & -> & Hj)%list_elem_of_fmap.
  apply elem_of_seq in Hj. apply Hx. unfold in_range. lia.
Qed.

(** install_trans() right after write_log() writes the cached contents home. *)
Lemma it_writes_copy v w a bl : (∀ j b, bl !! j = Some b → w (a + Z.of_nat j) = v b) →
  it_writes w a bl = (λ b, (b, v b)) <$> bl.
Proof.
  revert a. induction bl as [|b bl IH]; intros a Hw; [done|]. simpl. f_equal.
  - f_equal. rewrite <- (Hw 0%nat b) by done. f_equal. lia.
  - apply IH. intros j x Hj. rewrite <- (Hw (S j) x) by done. f_equal. lia.
Qed.

Lemma commit_run s v r h d t bl P : commit_pre s v r h d t bl P → bl ≠ [] → ∃ c,
  commit pid s = Ret tt (set_lh_n 0 (set_lg_bc c s)) ∧
  let ws := commit_writes (lg_start s) v bl in
  cst c (apply_writes ws v) (unpinned r bl) h (apply_writes ws d) (t ++ ws).
Proof.
  intros [Hc Hdev Hn Hlh Hlen Hnd Hsm Hhome Hpin Hlog Hrefs Hfree] Hne.
  change (Z.to_nat LOGSIZE) with 30%nat in Hlen. unfold in_range in Hhome, Hlog. change LOGSIZE with 30 in *.
  set (start := lg_start s) in *.
  destruct (write_log_loop_spec pid bl s v r h d t P 0 Hc Hdev Hlh) as (c1 & E1 & Hc1); try done.
  { fold start. intros b Hb. unfold in_range. specialize (Hhome b Hb). destruct (Hpin b Hb) as [[??]?]. split_and!; try done; lia. }
  { fold start. intros x Hx. unfold in_range in Hx. destruct (Hlog x) as (? & ? & ?); [lia|done]. }
  fold start in Hc1. rewrite Z.add_0_r in Hc1. set (w1 := wl_writes v (start + 1) bl) in *.
  assert (Hv1s : apply_writes w1 v start = v start).
  { apply wl_writes_other. unfold in_range. lia. }
  destruct (write_head_spec bl (set_lg_bc c1 s) _ _ _ _ _ P Hc1) as (c2 & E2 & Hc2); try done; [change (Z.to_nat LOGSIZE) with 30%nat; lia| | |].
  { apply Hlog. simpl. fold start. lia. }
  { apply Hlog. simpl. fold start. lia. }
  cbn [set_lg_bc lg_start] in Hc2, E2. fold start in Hc2, E2. rewrite Hv1s in Hc2. set (H1 := hdr_of (v start) bl) in *.
  set (v2 := upd (apply_writes w1 v) start H1) in *.
  assert (Hv2 : ∀ j b, bl !! j = Some b → v2 (start + 1 + Z.of_nat j) = v b).
  { intros j b Hj. unfold v2. rewrite upd_ne by lia. by apply wl_writes_at. }
  destruct (install_loop_spec false bl (set_lg_bc c2 s) _ _ _ _ _ P 0 Hc2) as (c3 & E3 & Hc3); try done.
  { cbn [set_lg_bc lg_start]. fold start. intros b Hb. unfold in_range. specialize (Hhome b Hb).
    destruct (Hpin b Hb) as [[??]?]. split_and!; try done; lia. }
  { cbn [set_lg_bc lg_start]. fold start. intros x Hx. unfold in_range in Hx.
    split_and!; [apply Hlog; lia|apply Hlog; lia|]. unfold v2. rewrite !upd_ne by lia.
    destruct (lookup_lt_is_Some_2 bl (Z.to_nat (x - start - 1))) as [b Hb]; [lia|].
    replace x with (start + 1 + Z.of_nat (Z.to_nat (x - start - 1))) by lia.
    unfold w1. by rewrite !(wl_writes_at _ _ _ _ _ b). }
  cbn [set_lg_bc lg_start] in Hc3. fold start in Hc3. rewrite Z.add_0_r in Hc3.
  rewrite (it_writes_copy v v2 (start + 1) bl Hv2) in Hc3. set (w3 := (λ b, (b, v b)) <$> bl) in *.
  destruct (write_head_spec [] (set_lh_n 0 (set_lg_bc c3 s)) _ _ _ _ _ P Hc3) as (c4 & E4 & Hc4); try done.
  { change (Z.to_nat LOGSIZE) with 30%nat. simpl. lia. }
  { cbn [set_lh_n set_lg_bc lg_start]. fold start. unfold unpinned. rewrite decide_False.
    - apply Hlog. lia.
    - intros Hb. specialize (Hhome _ Hb). lia. }
  { apply Hlog. cbn [set_lh_n set_lg_bc lg_start]. fold start. lia. }
  { intros x Hx. unfold unpinned in Hx. apply Hrefs. case_decide; [|done]. destruct (Hpin x) as [[??]?]; [done|lia]. }
  cbn [set_lh_n set_lg_bc lg_start] in Hc4. fold start in Hc4.
  assert (Hv3s : apply_writes w3 v2 start = H1).
  { rewrite apply_writes_out; [unfold v2; apply upd_eq|]. unfold w3. rewrite <- list_fmap_compose.
    intros (b & -> & Hb)%list_elem_of_fmap. specialize (Hhome b Hb). simpl in Hhome. lia. }
  rewrite Hv3s in Hc4. exists c4. split.
  - unfold commit. rewrite gets_bind, Hn. destruct (Z.ltb_spec 0 (Z.of_nat (length bl))).
    2: { destruct bl; simpl in *; [done|lia]. }
    unfold write_log. rewrite bind_assoc, gets_bind, Hn, Nat2Z.id.
    rewrite (bind_Ret _ _ _ _ _ E1), (bind_Ret _ _ _ _ _ E2).
    rewrite set_lg_bc_twice. unfold install_trans. rewrite bind_assoc, gets_bind. cbn [set_lg_bc lh_n].
    rewrite Hn, Nat2Z.id, (bind_Ret _ _ _ _ _ E3).
    rewrite (bind_Ret _ _ _ tt (set_lh_n 0 (set_lg_bc c3 (set_lg_bc c2 s)))) by done. rewrite set_lg_bc_twice.
    rewrite E4. done.
  - unfold commit_writes. fold H1 w1 w3.
    rewrite !apply_writes_app. rewrite <- !app_assoc in Hc4. exact Hc4.
Qed.
End runs.
