(* ===== verification/LogCrash.v ===== *)
(** * kernel/log.c: recovery and crash atomicity

    A crash during a run leaves the disk with a prefix of the run's writes
    applied.  [recovered start d] is the disk a complete recovery makes of
    [d]: the blocks the header names are copied home from the log and the
    header is emptied. *)

From stdpp Require Import base sets strings numbers list.
From coqutil Require Import Byte Word.LittleEndianList.
From S2P Require Import Prelude Riscv Spinlock Block Sleeplock Bio BioLru BioFacts BioOps BioThms Log LogFacts LogRun.

(** The block numbers a header names. *)
Definition hdr_list (b : block) : list Z := (λ j, hdr_block b (Z.of_nat j)) <$> seq 0 (Z.to_nat (hdr_n b)).

Definition recovery_writes (start : Z) (d : Z → block) : list (Z * block) :=
  it_writes d (start + 1) (hdr_list (d start)) ++ [(start, hdr_of (d start) [])].

Definition recovered (start : Z) (d : Z → block) : Z → block := apply_writes (recovery_writes start d) d.

(** The log area: the header block, and [nlog] blocks with it. *)
Definition log_area (start nlog x : Z) : Prop := x = start ∨ in_range start nlog x.

(** A header recovery can follow. *)
Definition log_good (start nlog : Z) (d : Z → block) : Prop :=
  block_ok (d start) ∧ hdr_n (d start) ≤ LOGSIZE ∧ (0 < nlog ∧ hdr_n (d start) < nlog) ∧
  ∀ b, b ∈ hdr_list (d start) → ¬ log_area start nlog b.

(** Equal outside the log area. *)
Definition same_home (start nlog : Z) (d d' : Z → block) : Prop := ∀ x, ¬ log_area start nlog x → d x = d' x.

Lemma hdr_list_lookup b j x : hdr_list b !! j = Some x ↔ (j < Z.to_nat (hdr_n b))%nat ∧ x = hdr_block b (Z.of_nat j).
Proof.
  unfold hdr_list. rewrite list_lookup_fmap_Some. setoid_rewrite lookup_seq.
  split; [intros (y & -> & -> & ?); done|]. intros [? ->]. by exists j.
Qed.

Lemma hdr_list_length b : length (hdr_list b) = Z.to_nat (hdr_n b).
Proof. unfold hdr_list. by rewrite length_fmap, length_seq. Qed.

Lemma hdr_list_of d bl : block_ok d → (length bl ≤ Z.to_nat LOGSIZE)%nat → Forall small bl →
  hdr_list (hdr_of d bl) = bl.
Proof.
  intros Hd Hl Hs. destruct (hdr_of_ok d bl Hd Hl Hs) as (_ & Hn & Hb). apply list_eq. intros j.
  destruct (bl !! j) as [b|] eqn:E.
  - rewrite hdr_list_lookup, Hn, Nat2Z.id. split; [by apply lookup_lt_Some in E|]. symmetry. by apply Hb.
  - apply lookup_ge_None. rewrite hdr_list_length, Hn, Nat2Z.id. by apply lookup_ge_None in E.
Qed.

Lemma hdr_clear_list d : block_ok d → hdr_list (hdr_of d []) = [].
Proof. intros Hd. apply hdr_list_of; [done|simpl; lia|done]. Qed.

(** ** What recovery leaves *)

Lemma apply_writes_in ws d d' x : x ∈ ws.*1 → apply_writes ws d x = apply_writes ws d' x.
Proof.
  revert d d'. induction ws as [|w ws IH]; intros d d' Hx; [by apply elem_of_nil in Hx|]. simpl in *.
  destruct (decide (x ∈ ws.*1)) as [Hin|Hnin]; [by apply IH|].
  apply elem_of_cons in Hx as [->|]; [|done]. rewrite !apply_writes_out by done. by rewrite !upd_eq.
Qed.

Section area.
Context {nlog : Z}.

Lemma not_log_area_start start x : ¬ log_area start nlog x → x ≠ start.
Proof. unfold log_area. tauto. Qed.

Lemma log_area_start start : log_area start nlog start.
Proof. unfold log_area. tauto. Qed.

Lemma recovered_start start d : recovered start d start = hdr_of (d start) [].
Proof. unfold recovered, recovery_writes. rewrite apply_writes_app. simpl. apply upd_eq. Qed.

(** Outside the log area only the copies matter. *)
Lemma recovered_home start d x : ¬ log_area start nlog x →
  recovered start d x = apply_writes (it_writes d (start + 1) (hdr_list (d start))) d x.
Proof.
  intros Hx. unfold recovered, recovery_writes. rewrite apply_writes_app. simpl.
  apply upd_ne. by apply not_log_area_start in Hx.
Qed.

Lemma recovered_clean start d : hdr_list (d start) = [] → same_home start nlog (recovered start d) d.
Proof. intros Hn x Hx. rewrite recovered_home by done. by rewrite Hn. Qed.

(** Disks with the same header and log recover alike, where the other blocks agree. *)
Lemma recovered_agree start d d' x : log_good start nlog d → (∀ y, log_area start nlog y → d y = d' y) →
  ¬ log_area start nlog x → (x ∈ hdr_list (d start) ∨ d x = d' x) → recovered start d x = recovered start d' x.
Proof.
  intros (_ & _ & Hn & _) Hlog Hx Hor. rewrite !recovered_home by done.
  rewrite <- (Hlog start) by apply log_area_start.
  rewrite (it_writes_ext d' d (start + 1) (hdr_list (d start))).
  - destruct Hor as [Hin|E].
    + apply apply_writes_in. by rewrite it_writes_fst.
    + by apply apply_writes_ext.
  - intros y Hy. symmetry. apply Hlog. unfold log_area, in_range in *. rewrite hdr_list_length in Hy. lia.
Qed.

Lemma recovered_ext start d d' x : log_good start nlog d → (∀ y, d y = d' y) → ¬ log_area start nlog x →
  recovered start d x = recovered start d' x.
Proof. intros Hg He Hx. apply recovered_agree; auto. Qed.

Lemma log_good_ext start d d' : d start = d' start → log_good start nlog d → log_good start nlog d'.
Proof. unfold log_good. intros ->. done. Qed.

(** ** A crash during recovery *)

Lemma prefix_app_cases {A} (l l1 l2 : list A) : l `prefix_of` l1 ++ l2 →
  l `prefix_of` l1 ∨ ∃ k, l = l1 ++ k ∧ k `prefix_of` l2.
Proof.
  revert l. induction l1 as [|x l1 IH]; intros l Hp; [right; by exists l|].
  destruct l as [|y l]; [left; apply prefix_nil|]. simpl in Hp. pose proof (prefix_cons_inv_1 _ _ _ _ Hp) as ->.
  destruct (IH l (prefix_cons_inv_2 _ _ _ _ Hp)) as [?|(k & -> & ?)]; [left; by apply prefix_cons|right; by exists k].
Qed.

Lemma prefix_snoc_cases {A} (l k : list A) x : l `prefix_of` k ++ [x] → l `prefix_of` k ∨ l = k ++ [x].
Proof.
  intros [?|(m & -> & Hm)]%prefix_app_cases; [by left|]. destruct m as [|y m]; [left; by rewrite app_nil_r|right].
  pose proof (prefix_cons_inv_1 _ _ _ _ Hm) as ->. apply prefix_cons_inv_2, prefix_nil_inv in Hm as ->. done.
Qed.

Lemma it_writes_prefix_log start d ws : log_good start nlog d →
  ws `prefix_of` it_writes d (start + 1) (hdr_list (d start)) → ∀ y, log_area start nlog y → apply_writes ws d y = d y.
Proof.
  intros (_ & _ & _ & Hh) [k Hk] y Hy. apply apply_writes_out. intros Hin. apply (Hh y); [|done].
  rewrite <- (it_writes_fst d (start + 1)), Hk, fmap_app. by apply elem_of_app; left.
Qed.

Lemma log_good_clear start d d' : log_good start nlog d → d' start = hdr_of (d start) [] → log_good start nlog d'.
Proof.
  intros (Hok & _ & Hnl & _) E. unfold log_good. rewrite E. destruct (hdr_of_ok (d start) [] Hok) as (Hok' & Hn & _); [simpl; lia|done|].
  rewrite hdr_clear_list by done. rewrite Hn. split; [done|]. split; [simpl; change LOGSIZE with 30; lia|]. split; [simpl; lia|]. intros b []%elem_of_nil.
Qed.

Lemma recovery_crash start d ws : log_good start nlog d → ws `prefix_of` recovery_writes start d →
  log_good start nlog (apply_writes ws d) ∧ same_home start nlog (recovered start (apply_writes ws d)) (recovered start d).
Proof.
  intros Hg Hp. apply prefix_snoc_cases in Hp as [Hp| ->].
  - pose proof (it_writes_prefix_log start d ws Hg Hp) as Hl.
    assert (Hs : d start = apply_writes ws d start) by (symmetry; apply Hl, log_area_start).
    split; [by apply (log_good_ext start d)|]. intros x Hx. symmetry. apply recovered_agree; [done| |done|].
    + intros y Hy. symmetry. by apply Hl.
    + destruct (decide (x ∈ hdr_list (d start))) as [|Hnin]; [by left|right]. symmetry. apply apply_writes_out.
      intros Hin. apply Hnin. destruct Hp as [k Hk]. rewrite <- (it_writes_fst d (start + 1)), Hk, fmap_app.
      by apply elem_of_app; left.
  - fold (recovery_writes start d). fold (recovered start d).
    split; [by apply (log_good_clear start d), recovered_start|].
    apply recovered_clean. rewrite recovered_start. apply hdr_clear_list. apply Hg.
Qed.

(** ** A crash during commit() *)

(** The disk after the transaction that wrote the blocks [bl] of [v]. *)
Definition committed (v : Z → block) (bl : list Z) (d : Z → block) : Z → block :=
  λ x, if decide (x ∈ bl) then v x else d x.

Section commit_crash.
Context (start : Z) (v d : Z → block) (bl : list Z).
Hypothesis Hok : block_ok (v start).
Hypothesis Hlen : (length bl ≤ Z.to_nat LOGSIZE)%nat.
Hypothesis Hfit : Z.of_nat (length bl) < nlog.
Hypothesis Hsmall : Forall small bl.
Hypothesis Hhome : ∀ b, b ∈ bl → ¬ log_area start nlog b.
Hypothesis Hvd : v start = d start.
Hypothesis Hclean : hdr_list (d start) = [].

Let H := hdr_of (v start) bl.
Let d1 := apply_writes (wl_writes v (start + 1) bl ++ [(start, H)]) d.

Lemma wl_writes_area x : x ∈ (wl_writes v (start + 1) bl).*1 → log_area start nlog x ∧ x ≠ start.
Proof using Hfit.
  rewrite wl_writes_fst. intros (j & -> & Hj)%list_elem_of_fmap. apply elem_of_seq in Hj.
  unfold log_area, in_range. clear Hlen. lia.
Qed.

Lemma header_written : d1 start = H.
Proof using Type. unfold d1. rewrite apply_writes_app. simpl. apply upd_eq. Qed.

Lemma d1_home x : ¬ log_area start nlog x → d1 x = d x.
Proof using Hfit.
  intros Hx. unfold d1. rewrite apply_writes_app. simpl. rewrite upd_ne by (by apply not_log_area_start in Hx).
  apply apply_writes_out. intros Hin. by apply Hx, wl_writes_area.
Qed.

Lemma d1_list : hdr_list (d1 start) = bl.
Proof using Hok Hlen Hsmall. rewrite header_written. by apply hdr_list_of. Qed.

Lemma d1_good : log_good start nlog d1.
Proof using Hok Hlen Hsmall Hhome Hfit.
  unfold log_good. rewrite d1_list, header_written. destruct (hdr_of_ok (v start) bl Hok Hlen Hsmall) as (Hok' & Hn & _).
  fold H in Hn. rewrite Hn. split; [done|]. split; [|split; [lia|done]].
  change (Z.to_nat LOGSIZE) with 30%nat in Hlen. change LOGSIZE with 30. lia.
Qed.

Lemma d1_writes : it_writes d1 (start + 1) bl = (λ b, (b, v b)) <$> bl.
Proof using Type.
  apply it_writes_copy. intros j b Hj. unfold d1. rewrite apply_writes_app. simpl. rewrite upd_ne by (clear Hlen; lia).
  by apply wl_writes_at.
Qed.

(** After the header write, commit() does what recovery would do. *)
Lemma commit_writes_split :
  commit_writes start v bl = (wl_writes v (start + 1) bl ++ [(start, H)]) ++ recovery_writes start d1.
Proof using Hok Hlen Hsmall.
  unfold commit_writes, recovery_writes. rewrite d1_list, d1_writes, header_written. fold H. by rewrite <- app_assoc.
Qed.

Lemma recovered_d1 : same_home start nlog (recovered start d1) (committed v bl d).
Proof using Hok Hlen Hsmall Hfit.
  intros x Hx. rewrite recovered_home by done. rewrite d1_list, d1_writes. unfold committed. case_decide as Hin.
  - apply apply_writes_val.
    + by rewrite <- list_fmap_compose, list_fmap_id.
    + intros c (b & Heq & _)%list_elem_of_fmap. congruence.
  - rewrite apply_writes_out; [by apply d1_home|]. by rewrite <- list_fmap_compose, list_fmap_id.
Qed.

(** Old before the header write, new from it on. *)
Lemma commit_crash ws : ws `prefix_of` commit_writes start v bl →
  (ws `prefix_of` wl_writes v (start + 1) bl ∧ same_home start nlog (recovered start (apply_writes ws d)) d ∧
     hdr_list (apply_writes ws d start) = [] ∧ same_home start nlog (apply_writes ws d) d) ∨
  (¬ ws `prefix_of` wl_writes v (start + 1) bl ∧ log_good start nlog (apply_writes ws d) ∧
     same_home start nlog (recovered start (apply_writes ws d)) (committed v bl d)).
Proof using Hok Hlen Hsmall Hhome Hfit Hclean.
  rewrite commit_writes_split. intros Hp.
  assert (Hcase : ws `prefix_of` wl_writes v (start + 1) bl ∨
    ∃ k, ws = (wl_writes v (start + 1) bl ++ [(start, H)]) ++ k ∧ k `prefix_of` recovery_writes start d1).
  { apply prefix_app_cases in Hp as [Hp|Hp]; [|by right]. apply prefix_snoc_cases in Hp as [Hp| ->]; [by left|right].
    exists []. rewrite app_nil_r. split; [done|apply prefix_nil]. }
  destruct Hcase as [Hw|(k & -> & Hk)].
  - left. split; [done|].
    assert (Hin : ∀ x, x ∈ ws.*1 → log_area start nlog x ∧ x ≠ start).
    { intros x Hx. destruct Hw as [k Hk]. apply wl_writes_area. rewrite Hk, fmap_app. by apply elem_of_app; left. }
    assert (Hs : apply_writes ws d start = d start).
    { apply apply_writes_out. intros Hx. by destruct (Hin _ Hx). }
    assert (Hsh : same_home start nlog (apply_writes ws d) d).
    { intros y Hy. apply apply_writes_out. intros Hx. by destruct (Hin _ Hx). }
    rewrite Hs. split_and!; [|done|done]. intros x Hx. rewrite recovered_clean by (done || by rewrite Hs). by apply Hsh.
  - right. split.
    { intros [m Hm]. apply (f_equal length) in Hm. rewrite !length_app in Hm. simpl in Hm. lia. }
    rewrite apply_writes_app. fold d1. destruct (recovery_crash start d1 k d1_good Hk) as [Hg Hr].
    split; [done|]. intros x Hx. rewrite Hr by done. by apply recovered_d1.
Qed.
End commit_crash.
End area.
