(* ===== verification/LogBoot.v ===== *)
(** * kernel/log.c: the run of initlog()

    At boot the buffer cache is empty: its contents are the disk's.  Then the
    functions of a transaction, begin_op(), log_write() and end_op(). *)

From stdpp Require Import base sets strings numbers list.
From coqutil Require Import Byte Word.LittleEndianList.
From S2P Require Import Prelude Riscv Spinlock Block Sleeplock Bio BioLru BioFacts BioOps BioThms Log LogFacts LogRun LogCrash.

Section boot.
Context {D : DiskDriver} (pid : Z) {nlog : Z}.

Lemma lh_set_run i b s : (Z.to_nat i < length (lh_block s))%nat →
  lh_set i b s = Ret tt (set_lh_block (<[Z.to_nat i := b]> (lh_block s)) s).
Proof. intros Hi. unfold lh_set. rewrite gets_bind. destruct (Nat.ltb_spec (Z.to_nat i) (length (lh_block s))); [done|lia]. Qed.

(** The header entries [i, i + k) are copied to log.lh.block. *)
Lemma read_head_loop_spec k i d s : 0 ≤ i → (Z.to_nat i + k ≤ length (lh_block s))%nat → ∃ l,
  read_head_loop k i d s = Ret tt (set_lh_block l s) ∧ length l = length (lh_block s) ∧
  ∀ j, l !! j = if decide (Z.to_nat i ≤ j < Z.to_nat i + k)%nat then Some (hdr_block d (Z.of_nat j)) else lh_block s !! j.
Proof.
  revert i s. induction k as [|k IH]; intros i s Hi Hk.
  { exists (lh_block s). split_and!; [by destruct s|done|]. intros j. by rewrite decide_False by lia. }
  cbn [read_head_loop]. rewrite (bind_Ret _ _ _ _ _ (lh_set_run i _ s ltac:(lia))).
  set (s1 := set_lh_block _ s). destruct (IH (i + 1) s1) as (l & E & Hl & Hj).
  - lia.
  - unfold s1. cbn [set_lh_block lh_block]. rewrite length_insert. lia.
  - exists l. rewrite E. unfold s1 in *. cbn [set_lh_block lh_block] in *. rewrite length_insert in Hl.
    split_and!; [done|done|]. intros j. rewrite Hj. replace (Z.to_nat (i + 1)) with (S (Z.to_nat i)) by lia.
    destruct (decide (j = Z.to_nat i)) as [->|Hne].
    + rewrite decide_False, decide_True by lia. rewrite list_lookup_insert_eq by lia. f_equal. f_equal. lia.
    + rewrite list_lookup_insert_ne by done. repeat case_decide; try done; lia.
Qed.

(** A cache nobody uses, equal to the disk. *)
Definition idle (c : bstate) (d : Z → block) (t : list (Z * block)) : Prop := cst c d (λ _, 0) (λ _, None) d t.

Lemma refs_idle : refs_in (λ _, 0) [].
Proof. intros x Hx. lia. Qed.

Lemma read_head_spec s d t : idle (lg_bc s) d t → lg_dev s = ROOTDEV → length (lh_block s) = Z.to_nat LOGSIZE →
  hdr_n (d (lg_start s)) ≤ LOGSIZE → ∃ c l, read_head pid s =
    Ret tt (set_lh_block l (set_lh_n (hdr_n (d (lg_start s))) (set_lg_bc c s))) ∧ idle c d t ∧
  length l = Z.to_nat LOGSIZE ∧ ∀ j b, hdr_list (d (lg_start s)) !! j = Some b → l !! j = Some b.
Proof.
  intros Hc Hdev Hlen Hn. set (start := lg_start s) in *.
  destruct (cst_bread pid _ _ _ _ _ t start [] Hc) as (b & c1 & E1 & Hc1 & Hb1 & _); [done|done| |].
  { right. split; [apply refs_idle|unfold NBUF; simpl; lia]. }
  destruct (cst_brelse pid c1 _ _ _ _ _ b start Hc1 Hb1) as (c2 & E2 & Hc2 & _); [by right|].
  set (s1 := set_lh_n (hdr_n (d start)) (set_lg_bc c1 s)).
  destruct (read_head_loop_spec (Z.to_nat (hdr_n (d start))) 0 (d start) s1) as (l & E3 & Hl & Hj).
  { lia. } { unfold s1. cbn [set_lh_n set_lg_bc lh_block]. change LOGSIZE with 30 in *. lia. }
  exists c2, l. split_and!.
  - unfold read_head. rewrite !gets_bind, Hdev. fold start. rewrite (bio_bind _ _ s _ _ E1), bio_gets.
    cbn [set_lg_bc lg_bc]. rewrite (cst_data pid _ _ _ _ _ _ _ _ Hc1 Hb1). fold s1.
    rewrite (bind_Ret _ _ _ tt s1) by done. rewrite (bind_Ret _ _ _ _ _ E3). unfold bio.
    exact (zoom_Ret lg_bc set_lg_bc (brelse pid b) (set_lh_block l s1) _ _ E2).
  - eapply cst_ext; [exact Hc2|done| | |done]; intros x; clearbody start; updtac.
  - by rewrite Hl.
  - intros j x [Hlt ->]%hdr_list_lookup. rewrite Hj, decide_True by lia. done.
Qed.

(** recover_from_log() on a disk with a good header. *)
Lemma recover_run s d t : idle (lg_bc s) d t → lg_dev s = ROOTDEV → length (lh_block s) = Z.to_nat LOGSIZE →
  log_good (lg_start s) nlog d → ∃ c l, recover_from_log pid s = Ret tt (set_lh_block l (set_lh_n 0 (set_lg_bc c s))) ∧
  length l = Z.to_nat LOGSIZE ∧ idle c (recovered (lg_start s) d) (t ++ recovery_writes (lg_start s) d).
Proof.
  intros Hc Hdev Hlen Hg. pose proof Hg as (Hok & Hn & Hnl & Hh). set (start := lg_start s) in *.
  destruct (read_head_spec s d t Hc Hdev Hlen Hn) as (c1 & l & E1 & Hc1 & Hl & Hlj). fold start in E1, Hlj.
  set (bl := hdr_list (d start)) in *. set (s1 := set_lh_block l _) in E1.
  assert (Hbl : length bl = Z.to_nat (hdr_n (d start))) by apply hdr_list_length.
  assert (Hbn : Z.of_nat (length bl) ≤ 30) by (change LOGSIZE with 30 in Hn; lia).
  assert (Hh1 : lh_has s1 0 bl). { split; [lia|]. intros j b Hj. rewrite Z.add_0_l, Nat2Z.id. by apply Hlj. }
  destruct (install_loop_spec pid true bl s1 d _ _ d t [] 0 Hc1) as (c2 & E2 & Hc2); try done.
  { intros b Hb. cbn. fold start. split; [|split; [lia|done]]. intros Hr. apply (Hh b Hb).
    unfold log_area, in_range in *. lia. }
  { unfold NBUF; simpl; lia. } { intros _. unfold NBUF; simpl; lia. }
  cbn [s1 set_lh_block set_lh_n set_lg_bc lg_start] in Hc2. fold start in Hc2. rewrite Z.add_0_r in Hc2.
  set (w := it_writes d (start + 1) bl) in *. set (s2 := set_lh_n 0 (set_lg_bc c2 s1)).
  destruct (write_head_spec pid [] s2 _ _ _ _ _ [] Hc2) as (c3 & E3 & Hc3); try done.
  { change (Z.to_nat LOGSIZE) with 30%nat. simpl. lia. } { unfold NBUF; simpl; lia. }
  cbn [s2 s1 set_lh_block set_lh_n set_lg_bc lg_start] in Hc3. fold start in Hc3.
  assert (Hs : apply_writes w d start = d start).
  { apply (it_writes_prefix_log (nlog := nlog) start d); [done|reflexivity|apply log_area_start]. }
  rewrite Hs in Hc3. exists c3, l. split_and!; [|done|].
  - unfold recover_from_log. rewrite (bind_Ret _ _ _ _ _ E1).
    unfold install_trans. rewrite bind_assoc, gets_bind. change (lh_n s1) with (hdr_n (d start)).
    rewrite <- Hbl. rewrite (bind_Ret _ _ _ _ _ E2). rewrite (bind_Ret _ _ _ tt s2) by done. exact E3.
  - unfold recovered, recovery_writes. fold bl w. unfold idle. rewrite apply_writes_app.
    rewrite <- app_assoc in Hc3. exact Hc3.
Qed.

Lemma initlog_run start size s d t : idle (lg_bc s) d t → length (lh_block s) = Z.to_nat LOGSIZE → log_good start nlog d →
  ∃ c l, initlog pid ROOTDEV start size s =
    Ret tt (set_lh_block l (set_lh_n 0 (set_lg_bc c (set_lg_sb start size ROOTDEV (set_lg_lock false s))))) ∧
  length l = Z.to_nat LOGSIZE ∧ idle c (recovered start d) (t ++ recovery_writes start d).
Proof.
  intros Hc Hlen Hg. unfold initlog. change (BSIZE <=? sizeof_logheader) with false. cbn beta iota.
  rewrite (bind_Ret _ _ _ tt (set_lg_lock false s)) by done.
  rewrite (bind_Ret _ _ _ tt (set_lg_sb start size ROOTDEV (set_lg_lock false s))) by done.
  exact (recover_run (set_lg_sb start size ROOTDEV (set_lg_lock false s)) d t Hc eq_refl Hlen Hg).
Qed.
End boot.

(** ** kernel/log.c: transactions *)

(** ** More of the cache as a client sees it *)

Section triples.
Context {D : DiskDriver} (pid : Z).

Lemma cst_held s v r h d t i bn : cst s v r h d t → bheld s pid i bn → h bn = Some pid ∧ 0 < r bn.
Proof.
  intros (l & Hok & _ & Hr & Hh & _) Hb. destruct (bheld_view s l pid i bn Hok Hb) as (_ & Er & Eh).
  destruct Hb as (_ & _ & _ & _ & _ & Hpos). rewrite <- Hh, <- Hr. split; [done|lia].
Qed.

Lemma cst_bpin s v r h d t i bn : cst s v r h d t → bheld s pid i bn → r bn < 2 ^ 32 - 1 → ∃ s',
  bpin i s = Ret tt s' ∧ cst s' v (upd r bn (r bn + 1)) h d t ∧ (∀ j q b, bheld s q j b → bheld s' q j b).
Proof.
  intros (l & Hok & Hv & Hr & Hho & Hd & Ht) Hh H2. destruct (bheld_view s l pid i bn Hok Hh) as (_ & Href & _).
  pose proof Hh as (Hi & Hc & _ & _ & _ & Hpos). destruct (bc_ok_buf s l i Hok Hi) as [_ (_ & Hrg & _)].
  rewrite Hr in Href. exists (updb i (bset_refcnt (b_refcnt (getb i s) + 1)) s).
  destruct (bset_ref_spec s l i bn (b_refcnt (getb i s) + 1) Hok Hi Hc) as (Hok' & Hv' & Hr' & Hho' & (Hd' & Ht') & Hk); [lia|lia|lia|].
  split_and!; [apply (bpin_run s l); [done|done|lia]| |intros j q b Hj; by apply Hk; [|lia]].
  exists l. split_and!; try done.
  - intros x. by rewrite Hv'.
  - intros x. rewrite Hr'. unfold upd. destruct (x =? bn); [lia|by rewrite Hr].
  - intros x. by rewrite Hho'.
Qed.

(** A bread() that returned found the block unlocked. *)
Lemma cst_bread_ret s v r h d t bn i s' : cst s v r h d t → r bn < 2 ^ 32 - 1 →
  bread pid ROOTDEV bn s = Ret i s' → h bn = None ∧
  cst s' v (upd r bn (r bn + 1)) (upd h bn (Some pid)) d t.
Proof.
  intros (l & Hok & Hv & Hr & Hh & Hd & Ht) Hrn E.
  destruct (bread_ret_inv s l pid bn i s' Hok) as [Hho Hav]; [by rewrite Hr|done|]. rewrite Hh in Hho. split; [done|].
  destruct (bread_spec pid bn s l Hok) as (i' & s2 & E' & Hok' & _ & _ & Hv' & Hr' & Hh' & _ & (Hd' & Ht') & _);
    [by rewrite Hr|by rewrite Hh|done|]. rewrite E in E'. simplify_eq.
  exists l. split_and!; try done.
  - intros x. by rewrite Hv', Hv.
  - intros x. rewrite Hr'. unfold upd. destruct (x =? bn); by rewrite Hr.
  - intros x. rewrite Hh'. unfold upd. destruct (x =? bn); by rewrite ?Hh.
  - intros x. by rewrite Hd', Hd.
Qed.

Lemma cst_wakeup s v r h d t ch s' : cst s v r h d t → bwakeup ch s = Ret tt s' → cst s' v r h d t.
Proof.
  intros (l & (Hl & (Hseg & Hnd & Hin) & Hbs) & Hv & Hr & Hh & Hd & Ht) [= <-]. exists l. split; [|done].
  split; [done|]. split; [|done]. split; [|done]. by apply (lseg_ext s).
Qed.
End triples.

(** ** The functions on every branch *)

Lemma acquire_log_bind {B} (k : unit → M lstate B) s : lg_lock s = false →
  (acquire_log ≫= k) s = k tt (set_lg_lock true s).
Proof. intros Hl. unfold acquire_log, acquire_flag, gets, modify, mbind, M_bind. by rewrite Hl. Qed.

Lemma release_log_ok s : lg_lock s = true → release_log s = Ret tt (set_lg_lock false s).
Proof. intros Hl. unfold release_log, release_flag, gets, modify, mbind, M_bind. by rewrite Hl. Qed.

Lemma unlock_log s : lg_lock s = false → set_lg_lock false s = s.
Proof. destruct s; simpl; by intros ->. Qed.

(** begin_op() admits the caller, or puts it to sleep and changes nothing. *)
Lemma begin_op_run s : lg_lock s = false →
  begin_op s = if lg_committing s || (LOGSIZE <? lh_n s + (lg_outstanding s + 1) * MAXOPBLOCKS)
               then Sleep ChanLog s else Ret tt (set_outstanding (lg_outstanding s + 1) s).
Proof.
  intros Hl. unfold begin_op. rewrite acquire_log_bind, gets_bind by done. destruct s as [lk st sz o c dv n b bc].
  simpl in Hl. subst lk. unfold id. simpl. destruct c; simpl; [done|].
  destruct (LOGSIZE <? n + (o + 1) * MAXOPBLOCKS); done.
Qed.

Lemma end_op_enter_run s : lg_lock s = false → lg_committing s = false →
  end_op_enter s =
    if lg_outstanding s - 1 =? 0 then Ret true (set_committing true (set_outstanding (lg_outstanding s - 1) s))
    else match bwakeup ChanLog (lg_bc s) with
         | Ret _ c => Ret false (set_lg_bc c (set_outstanding (lg_outstanding s - 1) s))
         | _ => NoFuel
         end.
Proof.
  intros Hl Hc. unfold end_op_enter. rewrite acquire_log_bind, gets_bind by done.
  destruct s as [lk st sz o c dv n b bc]. simpl in *. subst lk c.
  unfold mbind, M_bind, gets, modify. simpl. destruct (o - 1 =? 0) eqn:E; done.
Qed.

Lemma end_op_leave_run s : lg_lock s = false → ∃ c, bwakeup ChanLog (lg_bc s) = Ret tt c ∧
  end_op_leave s = Ret tt (set_lg_bc c (set_committing false s)).
Proof.
  intros Hl. eexists. split; [reflexivity|]. unfold end_op_leave. rewrite acquire_log_bind by done.
  destruct s as [lk st sz o c dv n b bc]. simpl in *. by subst lk.
Qed.

(** log_find() is the position of the block, or the length. *)
Lemma log_find_spec l bl n b : length bl = n → (∀ j x, bl !! j = Some x → l !! j = Some x) →
  (log_find l n b ≤ n)%nat ∧ (log_find l n b = n ↔ b ∉ bl) ∧ (b ∈ bl → l !! log_find l n b = Some b).
Proof.
  revert l bl. induction n as [|n IH]; intros l bl Hlen Hl.
  { destruct bl; [|done]. destruct l; simpl; (split_and!; [lia|split; [intros _; apply not_elem_of_nil|done]|intros []%elem_of_nil]). }
  destruct bl as [|x bl]; [done|]. destruct l as [|y l]; [by specialize (Hl 0%nat x eq_refl)|].
  pose proof (Hl 0%nat x eq_refl) as [= ->]. simpl in Hlen. injection Hlen as Hlen.
  destruct (IH l bl Hlen) as (IH1 & IH2 & IH3); [intros j z Hj; exact (Hl (S j) z Hj)|]. simpl.
  destruct (Z.eqb_spec x b) as [->|Hne].
  - split_and!; [lia|split; [done|intros Hn; exfalso; apply Hn; left]|done].
  - split_and!; [lia| |].
    + rewrite not_elem_of_cons. split; [intros [= E]; split; [done|by apply IH2]|intros [_ E]; f_equal; by apply IH2].
    + intros [->|Hin]%elem_of_cons; [done|]. simpl. by apply IH3.
Qed.

(** The logged blocks after log_write() of [b]: absorption. *)
Definition log_add (b : Z) (bl : list Z) : list Z := if decide (b ∈ bl) then bl else bl ++ [b].

Section log_write.
Context {D : DiskDriver} (pid : Z).

Lemma log_write_too_big i s : lg_lock s = false → LOGSIZE ≤ lh_n s ∨ lg_size s - 1 ≤ lh_n s →
  log_write i s = Panic "too big a transaction".
Proof.
  intros Hl Hbig. unfold log_write. rewrite acquire_log_bind, gets_bind by done. unfold id. simpl.
  destruct (Z.leb_spec LOGSIZE (lh_n s)), (Z.leb_spec (lg_size s - 1) (lh_n s)); try done. lia.
Qed.

Lemma log_write_outside i s : lg_lock s = false → lh_n s < LOGSIZE → lh_n s < lg_size s - 1 →
  lg_outstanding s < 1 → log_write i s = Panic "log_write outside of trans".
Proof.
  intros Hl H1 H2 H3. unfold log_write. rewrite acquire_log_bind, gets_bind by done. unfold id. simpl.
  destruct (Z.leb_spec LOGSIZE (lh_n s)), (Z.leb_spec (lg_size s - 1) (lh_n s)); try lia. simpl.
  destruct (Z.ltb_spec (lg_outstanding s) 1); [done|lia].
Qed.

Lemma log_write_spec i b s v r h d t bl : lg_lock s = false → cst (lg_bc s) v r h d t → bheld (lg_bc s) pid i b →
  lh_n s = Z.of_nat (length bl) → length (lh_block s) = Z.to_nat LOGSIZE → lh_has s 0 bl →
  lh_n s < LOGSIZE → lh_n s < lg_size s - 1 → 1 ≤ lg_outstanding s → r b < 2 ^ 32 - 1 →
  ∃ c l, log_write i s = Ret tt (set_lh_n (Z.of_nat (length (log_add b bl))) (set_lg_bc c (set_lh_block l s))) ∧
    length l = Z.to_nat LOGSIZE ∧ (∀ j x, log_add b bl !! j = Some x → l !! j = Some x) ∧
    cst c v (if decide (b ∈ bl) then r else upd r b (r b + 1)) h d t ∧
    (∀ j q x, bheld (lg_bc s) q j x → bheld c q j x).
Proof.
  intros Hl Hc Hb Hn Hlen [_ Hlh] H1 H2 H3 Hr. change (Z.to_nat LOGSIZE) with 30%nat in *. change LOGSIZE with 30 in H1.
  assert (Hlh' : ∀ j x, bl !! j = Some x → lh_block s !! j = Some x).
  { intros j x Hj. rewrite <- (Hlh j x Hj). f_equal. lia. }
  destruct (log_find_spec (lh_block s) bl (length bl) b eq_refl Hlh') as (Hf1 & Hf2 & Hf3).
  unfold log_write. rewrite acquire_log_bind, gets_bind by done. unfold id.
  cbn [set_lg_lock lh_n lg_size lg_outstanding lg_bc lh_block]. change LOGSIZE with 30.
  destruct (Z.leb_spec 30 (lh_n s)), (Z.leb_spec (lg_size s - 1) (lh_n s)); try lia. cbn [orb].
  destruct (Z.ltb_spec (lg_outstanding s) 1); [lia|].
  destruct Hb as (Hi & [Hdev Hbn] & Hb3). rewrite Hbn. rewrite Hn, Nat2Z.id.
  set (k := log_find (lh_block s) (length bl) b) in *.
  rewrite (bind_Ret _ _ _ _ _ (lh_set_run (Z.of_nat k) b (set_lg_lock true s) ltac:(simpl; lia))).
  rewrite Nat2Z.id. cbn [set_lg_lock lh_block]. unfold log_add. case_decide as Hin.
  - assert (Hk : k ≠ length bl) by (intros E; by apply Hf2 in E).
    destruct (Z.eqb_spec (Z.of_nat k) (Z.of_nat (length bl))); [lia|].
    exists (lg_bc s), (<[k:=b]> (lh_block s)). rewrite length_insert. split_and!; try done.
    + rewrite bind_ret_l, release_log_ok by done. rewrite <- Hn. by destruct s; simpl in *; subst.
    + intros j x Hj. rewrite list_insert_id by (by apply Hf3). by apply Hlh'.
  - apply Hf2 in Hin as Hk. rewrite Hk, Z.eqb_refl.
    destruct (cst_bpin pid (lg_bc s) v r h d t i b Hc) as (c & Ep & Hc' & Hk'); [by split|done|].
    exists c, (<[length bl := b]> (lh_block s)). rewrite length_insert, length_app. split_and!; try done.
    + rewrite bind_assoc. rewrite (bio_bind _ _ (set_lh_block (<[length bl := b]> (lh_block s)) (set_lg_lock true s)) _ _ Ep).
      rewrite (bind_Ret _ _ _ tt (set_lh_n (Z.of_nat (length bl) + 1) (set_lg_bc c (set_lh_block (<[length bl := b]> (lh_block s)) (set_lg_lock true s))))) by done.
      rewrite release_log_ok by done. simpl. f_equal. rewrite Nat2Z.inj_add. by destruct s; simpl in *; subst.
    + intros j x Hj. destruct (decide (j = length bl)) as [->|Hne].
      * rewrite list_lookup_middle in Hj by done. rewrite list_lookup_insert_eq by lia. done.
      * rewrite list_lookup_insert_ne by done. apply Hlh'. apply lookup_app_Some in Hj as [?|[? Hj]]; [done|].
        apply list_lookup_singleton_Some in Hj. lia.
Qed.
End log_write.
