(* ===== verification/LogSys.v ===== *)
(** * kernel/log.c: any number of concurrent system calls

    [lsys] is the log, the system calls between begin_op() and end_op() with
    the number of blocks each has logged, and how far the end_op() that
    commits has come. *)

From stdpp Require Import base sets strings numbers list.
From coqutil Require Import Byte Word.LittleEndianList.
From S2P Require Import Prelude Riscv Spinlock Block Sleeplock Bio BioLru BioFacts BioOps BioThms.
From S2P Require Import Log LogFacts LogRun LogCrash LogBoot.

Inductive phase := Running | Committing (pid : Z) | Committed (pid : Z).

Record lsys := LSys { ls : lstate; ops : list (Z * Z); ph : phase }.

(** The logged blocks. *)
Definition logged (s : lstate) : list Z := take (Z.to_nat (lh_n s)) (lh_block s).

(** Process [pid] has logged all it changed of the buffers it holds. *)
Definition clean_or_logged (s : lstate) (x : Z) : Prop := bview (lg_bc s) x = dsk (lg_bc s) x ∨ x ∈ logged s.
Definition all_logged (pid : Z) (s : lstate) : Prop := ∀ x, bhold (lg_bc s) x = Some pid → clean_or_logged s x.

(** The reservations left to the system calls. *)
Definition reserved (os : list (Z * Z)) : Z := foldr (λ o n, MAXOPBLOCKS - o.2 + n) 0 os.

Section sys.
Context {D : DiskDriver} (start nlog : Z).

(** System calls leave the log area alone, write at most MAXOPBLOCKS blocks
    each, and log what they change before they release it. *)
Inductive lstep : lsys → lsys → Prop :=
| step_begin s s' os p pid :
    pid ∉ os.*1 → begin_op s = Ret tt s' → lstep (LSys s os p) (LSys s' ((pid, 0) :: os) p)
| step_read s os p pid bn i c :
    ¬ log_area start nlog bn → small bn → bref (lg_bc s) bn < 2 ^ 32 - 3 →
    bread pid ROOTDEV bn (lg_bc s) = Ret i c → lstep (LSys s os p) (LSys (set_lg_bc c s) os p)
| step_change s os p pid bn i g c :
    pid ∈ os.*1 → bheld (lg_bc s) pid i bn → block_ok (g (b_data (getb i (lg_bc s)))) →
    bmodify i g (lg_bc s) = Ret tt c → lstep (LSys s os p) (LSys (set_lg_bc c s) os p)
| step_log os1 os2 s s' p pid u bn i :
    u < MAXOPBLOCKS → bheld (lg_bc s) pid i bn → bref (lg_bc s) bn < 2 ^ 32 - 2 →
    log_write i s = Ret tt s' →
    lstep (LSys s (os1 ++ (pid, u) :: os2) p) (LSys s' (os1 ++ (pid, u + 1) :: os2) p)
| step_release s os p pid bn i c :
    bheld (lg_bc s) pid i bn → clean_or_logged s bn → brelse pid i (lg_bc s) = Ret tt c →
    lstep (LSys s os p) (LSys (set_lg_bc c s) os p)
| step_end os1 os2 s s' pid u dc :
    all_logged pid s → end_op_enter s = Ret dc s' →
    lstep (LSys s (os1 ++ (pid, u) :: os2) Running) (LSys s' (os1 ++ os2) (if dc : bool then Committing pid else Running))
| step_commit s s' os pid P :
    (∀ x, x ∈ logged s → bhold (lg_bc s) x = None) → refs_in (bref (lg_bc s)) P → (length P < NBUF)%nat →
    commit pid s = Ret tt s' → lstep (LSys s os (Committing pid)) (LSys s' os (Committed pid))
| step_leave s s' os pid :
    end_op_leave s = Ret tt s' → lstep (LSys s os (Committed pid)) (LSys s' os Running).

(** ** The invariant *)

Definition phase_ok (s : lstate) (os : list (Z * Z)) (p : phase) : Prop :=
  match p with
  | Running => lg_committing s = false
  | Committing _ => lg_committing s = true ∧ os = []
  | Committed _ => lg_committing s = true ∧ os = [] ∧ lh_n s = 0
  end.

Record log_ok (s : lstate) (bl : list Z) : Prop := {
  lo_lock : lg_lock s = false;
  lo_dev : lg_dev s = ROOTDEV;
  lo_start : lg_start s = start;
  lo_size : lg_size s = nlog;
  lo_n : lh_n s = Z.of_nat (length bl);
  lo_fit : 0 < nlog ∧ Z.of_nat (length bl) < nlog;
  lo_len : length (lh_block s) = Z.to_nat LOGSIZE;
  lo_lh : lh_has s 0 bl;
  lo_nodup : NoDup bl;
  lo_small : Forall small bl;
  lo_home b : b ∈ bl → ¬ log_area start nlog b
}.

Record cache_ok (v : Z → block) (r : Z → Z) (h : Z → option Z) (d : Z → block) (os : list (Z * Z)) (bl : list Z) : Prop := {
  co_pinned b : b ∈ bl → (if h b is Some _ then 2 else 1) ≤ r b;
  co_refs x : r x < 2 ^ 32 - 1;
  co_held x : is_Some (h x) → small x ∧ ¬ log_area start nlog x;
  co_log x : log_area start nlog x → r x = 0 ∧ h x = None ∧ v x = d x;
  co_dirty x : v x = d x ∨ x ∈ bl ∨ ∃ pid, h x = Some pid ∧ pid ∈ os.*1;
  co_hdr : hdr_list (d start) = []
}.

Record ops_ok (s : lstate) (os : list (Z * Z)) (bl : list Z) : Prop := {
  oo_out : lg_outstanding s = Z.of_nat (length os);
  oo_nodup : NoDup os.*1;
  oo_used o : o ∈ os → 0 ≤ o.2 ≤ MAXOPBLOCKS;
  oo_reserved : Z.of_nat (length bl) + reserved os ≤ LOGSIZE
}.

Definition linv (σ : lsys) : Prop := ∃ v r h d t bl,
  cst (lg_bc (ls σ)) v r h d t ∧ log_ok (ls σ) bl ∧ cache_ok v r h d (ops σ) bl ∧
  ops_ok (ls σ) (ops σ) bl ∧ phase_ok (ls σ) (ops σ) (ph σ).

(** initlog() starts the system. *)
Inductive lreach : lsys → Prop :=
| reach_init pid s d t s' :
    lg_outstanding s = 0 → lg_committing s = false → length (lh_block s) = Z.to_nat LOGSIZE →
    idle (lg_bc s) d t → log_good start nlog d → initlog pid ROOTDEV start nlog s = Ret tt s' →
    lreach (LSys s' [] Running)
| reach_step σ σ' : lreach σ → lstep σ σ' → lreach σ'.

Lemma logged_eq s bl : log_ok s bl → logged s = bl.
Proof.
  intros []. unfold logged. rewrite lo_n0, Nat2Z.id. apply list_eq. intros j. destruct (bl !! j) as [x|] eqn:E.
  - pose proof (lookup_lt_Some _ _ _ E). rewrite lookup_take_lt by lia. destruct lo_lh0 as [_ Hlh].
    rewrite <- (Hlh j x E). f_equal. lia.
  - apply lookup_ge_None in E. apply lookup_ge_None. rewrite length_take. lia.
Qed.

Lemma reserved_bounds os : (∀ o, o ∈ os → 0 ≤ o.2 ≤ MAXOPBLOCKS) → 0 ≤ reserved os ≤ Z.of_nat (length os) * MAXOPBLOCKS.
Proof.
  unfold reserved. change MAXOPBLOCKS with 10. induction os as [|o os IH]; intros Ho; [done|]. cbn [foldr length].
  assert (IH' := IH (λ o' H, Ho o' ltac:(by right))). assert (Ho' := Ho o ltac:(by left)). lia.
Qed.

Lemma reserved_app os1 os2 : reserved (os1 ++ os2) = reserved os1 + reserved os2.
Proof. unfold reserved. induction os1 as [|o os IH]; [done|]. cbn [foldr app]. rewrite IH. lia. Qed.

(** ** Every step preserves the invariant *)

Lemma init_linv pid s d t s' : lg_outstanding s = 0 → lg_committing s = false →
  length (lh_block s) = Z.to_nat LOGSIZE → idle (lg_bc s) d t → log_good start nlog d →
  initlog pid ROOTDEV start nlog s = Ret tt s' → linv (LSys s' [] Running).
Proof.
  intros Ho Hc Hlen Hi Hg E. destruct (initlog_run pid start nlog s d t Hi Hlen Hg) as (c & l & E' & Hl & Hi').
  rewrite E in E'. simplify_eq. exists (recovered start d), (λ _, 0), (λ _, None), (recovered start d). eexists _, [].
  simpl. split_and!; [exact Hi'|..].
  - split; simpl; try done; [split; apply Hg|apply NoDup_nil_2|intros b []%elem_of_nil].
  - split; simpl; try done.
    + intros b []%elem_of_nil.
    + by left.
    + rewrite recovered_start. apply hdr_clear_list, Hg.
  - split; simpl; try done; [apply NoDup_nil_2|intros o []%elem_of_nil].
  - done.
Qed.

Lemma begin_linv s s' os p pid : linv (LSys s os p) → pid ∉ os.*1 → begin_op s = Ret tt s' →
  linv (LSys s' ((pid, 0) :: os) p).
Proof.
  intros (v & r & h & d & t & bl & Hc & [] & [] & [] & Hp) Hpid E. simpl in *.
  rewrite begin_op_run in E by done. destruct (_ || _) eqn:Eg; simplify_eq. zbool.
  exists v, r, h, d, t, bl. split_and!; simpl; try done.
  - split; simpl; try done. intros x. destruct (co_dirty0 x) as [?|[?|(q & ? & ?)]]; [by left|by (right; left)|].
    right; right. exists q. split; [done|]. by right.
  - split; simpl; try done.
    + lia.
    + by apply NoDup_cons.
    + intros o [->|Ho]%elem_of_cons; [simpl; change MAXOPBLOCKS with 10; lia|by apply oo_used0].
    + destruct (reserved_bounds os oo_used0). change MAXOPBLOCKS with 10 in *. lia.
  - destruct p; simpl in *; [done|destruct Hp; congruence|destruct Hp; congruence].
Qed.

Lemma cache_change v r h d os bl v' r' h' : cache_ok v r h d os bl →
  (∀ b, b ∈ bl → (if h' b is Some _ then 2 else 1) ≤ r' b) → (∀ x, r' x < 2 ^ 32 - 1) →
  (∀ x, is_Some (h' x) → small x ∧ ¬ log_area start nlog x) →
  (∀ x, log_area start nlog x → r' x = r x ∧ h' x = h x ∧ v' x = v x) →
  (∀ x, v' x = d x ∨ x ∈ bl ∨ ∃ pid, h' x = Some pid ∧ pid ∈ os.*1) → cache_ok v' r' h' d os bl.
Proof.
  intros [] H1 H2 H3 H4 H5. split; try done. intros x Hx. destruct (H4 x Hx) as (-> & -> & ->). by apply co_log0.
Qed.

Lemma log_ok_bc s bl c : log_ok s bl → log_ok (set_lg_bc c s) bl.
Proof. by intros []. Qed.
Lemma ops_ok_bc s os bl c : ops_ok s os bl → ops_ok (set_lg_bc c s) os bl.
Proof. by intros []. Qed.

Lemma read_linv s os p pid bn i c : linv (LSys s os p) → ¬ log_area start nlog bn → small bn →
  bref (lg_bc s) bn < 2 ^ 32 - 3 → bread pid ROOTDEV bn (lg_bc s) = Ret i c → linv (LSys (set_lg_bc c s) os p).
Proof.
  intros (v & r & h & d & t & bl & Hc & Hlo & Hco & Hoo & Hp) Hbn Hsm Hr E. simpl in *. pose proof Hco as [].
  assert (Hrb : bref (lg_bc s) bn = r bn) by (destruct Hc as (l & _ & _ & Hr' & _); apply Hr').
  destruct (cst_bread_ret pid (lg_bc s) v r h d t bn i c Hc) as [Hn Hc']; [lia|done|].
  exists v, (upd r bn (r bn + 1)), (upd h bn (Some pid)), d, t, bl. split_and!; simpl; try done;
    [by apply log_ok_bc| |by apply ops_ok_bc].
  apply (cache_change v r h); try done.
  - intros b Hb. specialize (co_pinned0 b Hb). updtac. rewrite Hn in co_pinned0. lia.
  - intros x. specialize (co_refs0 x). updtac.
  - intros x. specialize (co_held0 x). updtac.
  - intros x Hx. rewrite !upd_ne by congruence. done.
  - intros x. destruct (co_dirty0 x) as [?|[?|(q & ? & ?)]]; [by left|by (right; left)|].
    right; right. exists q. rewrite upd_ne by congruence. done.
Qed.

Lemma change_linv s os p pid bn i g c : linv (LSys s os p) → pid ∈ os.*1 → bheld (lg_bc s) pid i bn →
  block_ok (g (b_data (getb i (lg_bc s)))) → bmodify i g (lg_bc s) = Ret tt c → linv (LSys (set_lg_bc c s) os p).
Proof.
  intros (v & r & h & d & t & bl & Hc & Hlo & Hco & Hoo & Hp) Hpid Hb Hg E. simpl in *. pose proof Hco as [].
  destruct (cst_held pid _ _ _ _ _ _ _ _ Hc Hb) as [Hh _]. rewrite (cst_data pid _ _ _ _ _ _ _ _ Hc Hb) in Hg.
  destruct (cst_bmodify pid _ _ _ _ _ _ i bn g Hc Hb Hg) as (c' & E' & Hc' & _). rewrite E in E'. simplify_eq.
  exists (upd v bn (g (v bn))), r, h, d, t, bl. split_and!; simpl; try done;
    [by apply log_ok_bc| |by apply ops_ok_bc].
  apply (cache_change v r h); try done.
  - intros x Hx. destruct (co_log0 x Hx) as (_ & Hn & _). rewrite upd_ne by congruence. done.
  - intros x. destruct (decide (x = bn)) as [->|Hne]; [right; right; by exists pid|]. by rewrite upd_ne.
Qed.

Lemma release_linv s os p pid bn i c : linv (LSys s os p) → bheld (lg_bc s) pid i bn → clean_or_logged s bn →
  brelse pid i (lg_bc s) = Ret tt c → linv (LSys (set_lg_bc c s) os p).
Proof.
  intros (v & r & h & d & t & bl & Hc & Hlo & Hco & Hoo & Hp) Hb Hcl E. simpl in *. pose proof Hco as [].
  destruct (cst_held pid _ _ _ _ _ _ _ _ Hc Hb) as [Hh _].
  assert (Hcl' : v bn = d bn ∨ bn ∈ bl).
  { destruct Hcl as [Hcl|Hcl]; [left|right; by rewrite (logged_eq s bl) in Hcl].
    destruct Hc as (l & _ & Hv & _ & _ & Hd & _). by rewrite <- Hv, <- Hd. }
  destruct (cst_brelse pid _ _ _ _ _ _ i bn Hc Hb) as (c' & E' & Hc' & _).
  { destruct Hcl' as [?|Hin]; [by right|left]. specialize (co_pinned0 bn Hin). by rewrite Hh in co_pinned0. }
  rewrite E in E'. simplify_eq. exists v, (upd r bn (r bn - 1)), (upd h bn None), d, t, bl. split_and!; simpl; try done;
    [by apply log_ok_bc| |by apply ops_ok_bc].
  apply (cache_change v r h); try done.
  - intros b Hin. specialize (co_pinned0 b Hin). updtac. rewrite Hh in co_pinned0. lia.
  - intros x. specialize (co_refs0 x). updtac.
  - intros x. specialize (co_held0 x). updtac.
  - intros x Hx. destruct (co_log0 x Hx) as (_ & Hn & _). rewrite !upd_ne by congruence. done.
  - intros x. destruct (decide (x = bn)) as [->|Hne]; [destruct Hcl'; by eauto|]. rewrite upd_ne by done. apply co_dirty0.
Qed.

Lemma elem_of_log_add b x bl : x ∈ log_add b bl ↔ x = b ∨ x ∈ bl.
Proof.
  unfold log_add. case_decide; [split; [by right|]; intros [->|]; done|].
  rewrite elem_of_app, list_elem_of_singleton. tauto.
Qed.

Lemma log_add_NoDup b bl : NoDup bl → NoDup (log_add b bl).
Proof.
  intros Hn. unfold log_add. case_decide as Hb; [done|]. apply NoDup_app. split_and!; [done| |apply NoDup_singleton].
  intros x Hx ->%list_elem_of_singleton. done.
Qed.

Lemma log_add_length b bl : (length (log_add b bl) ≤ S (length bl))%nat.
Proof. unfold log_add. case_decide; [lia|]. rewrite length_app. simpl. lia. Qed.

(** A log_write() that returned was within the limits. *)
Lemma log_write_ret_inv i s s' : lg_lock s = false → log_write i s = Ret tt s' →
  lh_n s < LOGSIZE ∧ lh_n s < lg_size s - 1 ∧ 1 ≤ lg_outstanding s.
Proof.
  intros Hl E. destruct (Z.le_gt_cases LOGSIZE (lh_n s)); [by rewrite log_write_too_big in E by auto|].
  destruct (Z.le_gt_cases (lg_size s - 1) (lh_n s)); [by rewrite log_write_too_big in E by auto|].
  destruct (Z.lt_ge_cases (lg_outstanding s) 1); [by rewrite log_write_outside in E by (done || lia)|]. lia.
Qed.

Lemma ops_use (os1 os2 : list (Z * Z)) pid (u : Z) : (os1 ++ (pid, u + 1) :: os2).*1 = (os1 ++ (pid, u) :: os2).*1.
Proof. by rewrite !fmap_app. Qed.

Lemma log_linv os1 os2 s s' p pid u bn i : linv (LSys s (os1 ++ (pid, u) :: os2) p) → u < MAXOPBLOCKS →
  bheld (lg_bc s) pid i bn → bref (lg_bc s) bn < 2 ^ 32 - 2 → log_write i s = Ret tt s' →
  linv (LSys s' (os1 ++ (pid, u + 1) :: os2) p).
Proof.
  intros (v & r & h & d & t & bl & Hc & Hlo & Hco & Hoo & Hp) Hu Hb Hr E. simpl in *.
  pose proof Hlo as []. pose proof Hco as []. pose proof Hoo as [].
  assert (Hrb : bref (lg_bc s) bn = r bn) by (destruct Hc as (l & _ & _ & Hr' & _); apply Hr').
  destruct (log_write_ret_inv i s s' lo_lock0 E) as (H1 & H2 & H3). destruct (cst_held pid _ _ _ _ _ _ _ _ Hc Hb) as [Hh Hpos].
  destruct (log_write_spec pid i bn s v r h d t bl) as (c & l & E' & Hl & Hlj & Hc' & _); try done.
  rewrite E in E'. simplify_eq. destruct (co_held0 bn) as [Hsm Hha]; [by rewrite Hh|].
  eexists v, _, h, d, t, (log_add bn bl). split_and!; simpl; [exact Hc'|..].
  - split; simpl; try done.
    + pose proof (log_add_length bn bl). lia.
    + split; [lia|]. intros j b Hj. rewrite Z.add_0_l, Nat2Z.id. by apply Hlj.
    + by apply log_add_NoDup.
    + apply Forall_forall. intros x [->|Hx]%elem_of_log_add; [done|]. by apply (proj1 (Forall_forall _ _) lo_small0).
    + intros x [->|Hx]%elem_of_log_add; [done|]. by apply lo_home0.
  - split; try done.
    + intros b [->|Hx]%elem_of_log_add.
      * rewrite Hh. case_decide as Hin; [specialize (co_pinned0 _ Hin); by rewrite Hh in co_pinned0|]. rewrite upd_eq. lia.
      * specialize (co_pinned0 b Hx). case_decide as Hin; [done|]. updtac.
    + intros x. specialize (co_refs0 x). case_decide; [done|]. updtac.
    + intros x Hx. destruct (co_log0 x Hx) as (? & ? & ?). case_decide; [done|]. rewrite upd_ne by congruence. done.
    + intros x. rewrite elem_of_log_add, ops_use. destruct (co_dirty0 x) as [?|[?|?]]; auto.
  - split; simpl; try done.
    + rewrite length_app in *. simpl in *. done.
    + by rewrite ops_use.
    + intros o Ho. rewrite elem_of_app, elem_of_cons in Ho. destruct Ho as [Ho|[->|Ho]].
      * apply oo_used0. rewrite elem_of_app. by left.
      * assert (Hu' := oo_used0 (pid, u) ltac:(rewrite elem_of_app; right; by left)). simpl in *. lia.
      * apply oo_used0. rewrite elem_of_app. right. by right.
    + pose proof (log_add_length bn bl). rewrite reserved_app in *. unfold reserved in *. cbn [foldr snd] in *. lia.
  - destruct p; simpl in *; [done| |]; destruct Hp as [_ Hp]; [|destruct Hp as [Hp _]]; by destruct os1.
Qed.

(** ** end_op() and commit() *)

Lemma end_linv os1 os2 s s' pid u dc : linv (LSys s (os1 ++ (pid, u) :: os2) Running) → all_logged pid s →
  end_op_enter s = Ret dc s' → linv (LSys s' (os1 ++ os2) (if dc : bool then Committing pid else Running)).
Proof.
  intros (v & r & h & d & t & bl & Hc & Hlo & Hco & Hoo & Hp) Hal E. simpl in *.
  pose proof Hlo as []. pose proof Hco as []. pose proof Hoo as [].
  rewrite end_op_enter_run in E by done. rewrite oo_out0, length_app in E. simpl in E.
  assert (Hco' : cache_ok v r h d (os1 ++ os2) bl).
  { split; try done.
    intros x. destruct (co_dirty0 x) as [?|[?|(q & Hq & Hin)]]; [by left|by (right; left)|].
    destruct (decide (q = pid)) as [->|Hne].
    - destruct Hc as (l & _ & Hv & _ & Hho & Hd & _). destruct (Hal x) as [Hcl|Hcl]; [by rewrite Hho|left; by rewrite <- Hv, <- Hd|].
      rewrite (logged_eq s bl) in Hcl by done. by right; left.
    - right; right. exists q. split; [done|]. rewrite fmap_app, elem_of_app in *. simpl in Hin. rewrite elem_of_cons in Hin. tauto. }
  assert (Hoo' : ∀ f, ops_ok (set_committing f (set_outstanding (Z.of_nat (length os1 + S (length os2)) - 1) s)) (os1 ++ os2) bl).
  { split; simpl; try done.
    - rewrite length_app. lia.
    - rewrite !fmap_app in *. simpl in *. apply NoDup_app in oo_nodup0 as (? & Hd & Hn). apply NoDup_cons in Hn as [? ?].
      apply NoDup_app. split_and!; [done| |done]. intros x Hx Hx2. apply (Hd x Hx). by right.
    - intros o Ho. apply oo_used0. rewrite elem_of_app in *. rewrite elem_of_cons. tauto.
    - assert (Hu := oo_used0 (pid, u) ltac:(rewrite elem_of_app; right; by left)). simpl in Hu.
      rewrite reserved_app in *. unfold reserved in *. cbn [foldr snd] in *. lia. }
  destruct (Z.eqb_spec (Z.of_nat (length os1 + S (length os2)) - 1) 0) as [Hz|Hz]; simplify_eq.
  - exists v, r, h, d, t, bl. split_and!; simpl; try done. split; [done|]. destruct os1, os2; simpl in *; try lia. done.
  - exists v, r, h, d, t, bl. split_and!; simpl; try done.
    + by eapply cst_wakeup.
    + by destruct (Hoo' false).
Qed.

Lemma NoDup_incl_length (l P : list Z) : NoDup l → (∀ x, x ∈ l → x ∈ P) → (length l ≤ length P)%nat.
Proof. intros Hn Hi. by apply submseteq_length, NoDup_submseteq. Qed.

Lemma commit_writes_last v bl d : apply_writes (commit_writes start v bl) d start = hdr_of (hdr_of (v start) bl) [].
Proof. unfold commit_writes. rewrite !apply_writes_app. simpl. apply upd_eq. Qed.

Lemma commit_writes_ext v v' bl : (∀ x, v x = v' x) → commit_writes start v bl = commit_writes start v' bl.
Proof.
  intros He. unfold commit_writes. rewrite (He start). rewrite (wl_writes_ext v v' _ bl) by auto.
  do 3 f_equal. apply list_fmap_ext. intros _ b _. by rewrite He.
Qed.

Lemma commit_writes_bl v bl b : b ∈ bl → b ∈ (commit_writes start v bl).*1.
Proof.
  intros Hb. unfold commit_writes. rewrite !fmap_app, !elem_of_app. right; right; left.
  by rewrite <- list_fmap_compose, list_fmap_id.
Qed.

Lemma commit_pre_of s v r h d t bl P pid : cst (lg_bc s) v r h d t → log_ok s bl → cache_ok v r h d [] bl →
  phase_ok s [] (Committing pid) → (∀ x, x ∈ bl → h x = None) → refs_in r P → (length P < NBUF)%nat →
  commit_pre s v r h d t bl P.
Proof.
  intros Hc [] [] Hp Hh HP Hlen. rewrite <- lo_start0 in *.
  assert (Hsub : ∀ x, in_range (lg_start s) (Z.of_nat (length bl) + 1) x → log_area (lg_start s) nlog x).
  { intros x. unfold log_area, in_range. lia. }
  split; try done.
  - change (Z.to_nat LOGSIZE) with NBUF. eapply Nat.le_lt_trans; [|exact Hlen]. apply NoDup_incl_length; [done|].
    intros x Hx. apply HP. specialize (co_pinned0 x Hx). destruct (h x); lia.
  - intros b Hb Hr. by apply (lo_home0 b Hb), Hsub.
  - intros b Hb. specialize (co_pinned0 b Hb). specialize (co_refs0 b). rewrite Hh in * by done. split; [lia|done].
  - intros x Hx. by apply co_log0, Hsub.
Qed.

(** What commit() does to the disk, and the invariant after it. *)
Lemma commit_linv s s' os pid P : linv (LSys s os (Committing pid)) →
  (∀ x, x ∈ logged s → bhold (lg_bc s) x = None) → refs_in (bref (lg_bc s)) P → (length P < NBUF)%nat →
  commit pid s = Ret tt s' → linv (LSys s' os (Committed pid)) ∧
  ∃ ws, dtrace (lg_bc s') = dtrace (lg_bc s) ++ ws ∧
    (∀ x, dsk (lg_bc s') x = apply_writes ws (dsk (lg_bc s)) x) ∧
    (ws = [] ∧ same_home start nlog (dsk (lg_bc s)) (bview (lg_bc s)) ∨
     ws = commit_writes start (bview (lg_bc s)) (logged s)).
Proof.
  intros (v & r & h & d & t & bl & Hc & Hlo & Hco & Hoo & Hp) Hh HP Hlen E. simpl in *.
  pose proof Hlo as []. destruct Hp as [Hcm ->]. pose proof Hco as []. rewrite (logged_eq s bl) in * by done.
  pose proof Hc as (l0 & _ & Hv & Hr & Hho & Hd & Ht).
  destruct (decide (bl = [])) as [->|Hne].
  { simpl in lo_n0. unfold commit in E. rewrite gets_bind, lo_n0 in E. injection E as <-. split.
    - exists v, r, h, d, t, []. split_and!; simpl; try done; by split_and!.
    - exists []. rewrite app_nil_r. split_and!; try done. left. split; [done|]. intros x _. rewrite Hd, Hv.
      destruct (co_dirty0 x) as [?|[[]%elem_of_nil|(q & _ & []%elem_of_nil)]]; done. }
  destruct (commit_run pid s v r h d t bl P) as (c & E' & Hc'); [|done|].
  { apply (commit_pre_of s v r h d t bl P pid); try done.
    - intros x Hx. rewrite <- Hho. by apply Hh.
    - intros x. rewrite <- Hr. apply HP. }
  rewrite E in E'. injection E' as ->. rewrite lo_start0 in Hc'. set (ws := commit_writes start v bl) in *. split.
  - eexists _, _, h, _, _, []. simpl. split_and!; [exact Hc'| | | |done|done|done].
    + split; simpl; try done; [lia|apply NoDup_nil_2|intros b []%elem_of_nil].
    + assert (Hvd : ∀ x, apply_writes ws v x = apply_writes ws d x).
      { intros x. destruct (co_dirty0 x) as [?|[Hx|(q & _ & []%elem_of_nil)]]; [by apply apply_writes_ext|].
        by apply apply_writes_in, commit_writes_bl. }
      split.
      * intros b []%elem_of_nil.
      * intros x. unfold unpinned. specialize (co_refs0 x). case_decide; lia.
      * done.
      * intros x Hx. destruct (co_log0 x Hx) as (? & ? & ?). split_and!; try done.
        unfold unpinned. rewrite decide_False; [done|]. intros Hb. by apply (lo_home0 x).
      * by left.
      * unfold ws. rewrite commit_writes_last. apply hdr_clear_list.
        assert (Hlen' : (length bl < Z.to_nat LOGSIZE)%nat).
        { eapply cp_len, (commit_pre_of s v r h d t bl P pid); try done;
            [intros x Hx; rewrite <- Hho; by apply Hh|intros x; rewrite <- Hr; apply HP]. }
        apply hdr_of_ok; [apply (cst_block_ok _ _ _ _ _ _ start Hc)|lia|done].
    + destruct Hoo. split; simpl in *; try done.
  - destruct Hc' as (l1 & _ & Hv' & _ & _ & Hd' & Ht'). exists ws. simpl. rewrite Ht', Ht.
    split_and!; [done| |right].
    + intros x. rewrite Hd'. apply apply_writes_ext. by rewrite Hd.
    + unfold ws. apply commit_writes_ext; intros; by rewrite Hv.
Qed.

Lemma leave_linv s s' os pid : linv (LSys s os (Committed pid)) → end_op_leave s = Ret tt s' → linv (LSys s' os Running).
Proof.
  intros (v & r & h & d & t & bl & Hc & Hlo & Hco & Hoo & Hp) E. simpl in *. pose proof Hlo as []. pose proof Hoo as [].
  destruct (end_op_leave_run s lo_lock0) as (c & Ew & E'). rewrite E in E'. injection E' as ->.
  exists v, r, h, d, t, bl. split_and!; simpl; try done.
  by eapply cst_wakeup.
Qed.

Lemma lstep_linv σ σ' : linv σ → lstep σ σ' → linv σ'.
Proof.
  intros Hi Hst. destruct Hst; eauto using begin_linv, read_linv, change_linv, log_linv, release_linv, end_linv, leave_linv.
  by eapply commit_linv.
Qed.

Lemma lreach_linv σ : lreach σ → linv σ.
Proof. induction 1; eauto using init_linv, lstep_linv. Qed.

(** All steps but commit() leave the disk alone. *)
Definition is_commit (σ σ' : lsys) : Prop := ∃ pid, ph σ = Committing pid ∧ ph σ' = Committed pid.

Lemma lstep_disk σ σ' : linv σ → lstep σ σ' → ¬ is_commit σ σ' →
  dtrace (lg_bc (ls σ')) = dtrace (lg_bc (ls σ)) ∧ ∀ x, dsk (lg_bc (ls σ')) x = dsk (lg_bc (ls σ)) x.
Proof.
  intros (v & r & h & d & t & bl & Hc & Hlo & Hco & Hoo & Hp) Hst Hnc. pose proof Hlo as []. pose proof Hco as []. pose proof Hoo as [].
  pose proof Hc as (l0 & _ & Hv & Hr & Hho & Hd & Ht). destruct Hst; simpl in *.
  - rewrite begin_op_run in H0 by done. by destruct (_ || _); simplify_eq.
  - destruct (cst_bread_ret pid (lg_bc s) v r h d t bn i c Hc) as (_ & l & _ & _ & _ & _ & Hd' & Ht'); [rewrite <- Hr; lia|done|].
    split; [congruence|]. intros x. by rewrite Hd, Hd'.
  - unfold bmodify, upd_buf, modify in H2. by injection H2 as <-.
  - destruct (log_write_ret_inv i s s' lo_lock0 H2) as (H3 & H4 & H5).
    destruct (log_write_spec pid i bn s v r h d t bl) as (c & l & E' & _ & _ & (l1 & _ & _ & _ & _ & Hd' & Ht') & _); try done.
    rewrite H2 in E'. injection E' as ->. simpl. split; [congruence|]. intros x. by rewrite Hd, Hd'.
  - assert (Hcl : 2 ≤ r bn ∨ v bn = d bn).
    { destruct (cst_held pid _ _ _ _ _ _ _ _ Hc H) as [Hh _]. destruct H0 as [Hcl|Hcl]; [right; by rewrite <- Hv, <- Hd|left].
      rewrite (logged_eq s bl) in Hcl by done. specialize (co_pinned0 bn Hcl). by rewrite Hh in co_pinned0. }
    destruct (cst_brelse pid _ _ _ _ _ _ i bn Hc H Hcl) as (c' & E' & (l1 & _ & _ & _ & _ & Hd' & Ht') & _).
    rewrite H1 in E'. injection E' as <-. split; [congruence|]. intros x. by rewrite Hd, Hd'.
  - rewrite end_op_enter_run in H0 by done. by destruct (_ =? 0); injection H0 as <- <-.
  - exfalso. apply Hnc. by exists pid.
  - destruct (end_op_leave_run s lo_lock0) as (c & Ew & E'). rewrite H in E'. injection E' as ->. simpl.
    unfold bwakeup, modify in Ew. by injection Ew as <-.
Qed.

(** A disk the machine can find after a crash between [σ] and [σ']: some of
    the writes of the step, in order, have reached it. *)
Definition crash_disk (σ σ' : lsys) (d : Z → block) : Prop := ∃ ws ws',
  dtrace (lg_bc (ls σ')) = dtrace (lg_bc (ls σ)) ++ ws ∧ ws' `prefix_of` ws ∧ d = apply_writes ws' (dsk (lg_bc (ls σ))).
End sys.
