(* ===== verification/LogThms.v ===== *)
(** * kernel/log.c: properties

    Crash atomicity and durability of transactions, crash-safe recovery, and
    the reservation discipline of begin_op(). *)

From stdpp Require Import base sets strings numbers list.
From coqutil Require Import Byte Word.LittleEndianList.
From S2P Require Import Prelude Riscv Spinlock Block Sleeplock Bio BioLru BioFacts BioOps BioThms.
From S2P Require Import Log LogFacts LogRun LogCrash LogBoot LogSys.

Section thms.
Context {D : DiskDriver} (start nlog : Z).

Lemma log_good_clean d : 0 < nlog → block_ok (d start) → hdr_list (d start) = [] → log_good start nlog d.
Proof.
  intros Hnl Hok Hn. unfold log_good. rewrite Hn.
  apply (f_equal length) in Hn. rewrite hdr_list_length in Hn. simpl in Hn. change LOGSIZE with 30.
  split; [done|]. split; [lia|]. split; [lia|]. intros b []%elem_of_nil.
Qed.

Lemma linv_clean σ : linv start nlog σ → 0 < nlog ∧ block_ok (dsk (lg_bc (ls σ)) start) ∧ hdr_list (dsk (lg_bc (ls σ)) start) = [].
Proof.
  intros (v & r & h & d & t & bl & Hc & Hlo & [] & _). pose proof Hc as (l0 & _ & _ & _ & _ & Hd & _).
  rewrite Hd. split; [apply Hlo|split]; [apply (cst_block_ok _ _ _ _ _ _ start Hc)|done].
Qed.

(** What the disk of a crash inside commit() recovers to. *)
Lemma commit_crash_sys s os pid P ws' : linv start nlog (LSys s os (Committing pid)) →
  (∀ x, x ∈ logged s → bhold (lg_bc s) x = None) → refs_in (bref (lg_bc s)) P → (length P < NBUF)%nat →
  ws' `prefix_of` commit_writes start (bview (lg_bc s)) (logged s) →
  let d := apply_writes ws' (dsk (lg_bc s)) in
  log_good start nlog d ∧ (same_home start nlog (recovered start d) (dsk (lg_bc s)) ∨ same_home start nlog (recovered start d) (bview (lg_bc s))) ∧
  (ws' = commit_writes start (bview (lg_bc s)) (logged s) → same_home start nlog (recovered start d) (bview (lg_bc s))).
Proof.
  intros (v & r & h & d & t & bl & Hc & Hlo & Hco & Hoo & Hp) Hh HP Hlen Hpre d'. simpl in *.
  pose proof Hlo as []. destruct Hp as [Hcm ->]. pose proof Hco as []. rewrite (logged_eq start nlog s bl) in * by done.
  pose proof Hc as (l0 & _ & Hv & Hr & Hho & Hd & Ht). destruct (cst_block_ok _ _ _ _ _ _ start Hc) as [Hvok Hdok].
  assert (Hpre' : (length bl ≤ Z.to_nat LOGSIZE)%nat).
  { destruct (commit_pre_of start nlog s v r h d t bl P pid) as [? ? ? ? Hl]; try done;
      [intros x Hx; rewrite <- Hho; by apply Hh|intros x; rewrite <- Hr; apply HP|lia]. }
  assert (Hnew : same_home start nlog (committed (bview (lg_bc s)) bl (dsk (lg_bc s))) (bview (lg_bc s))).
  { intros x _. unfold committed. case_decide; [done|]. rewrite Hd, Hv.
    destruct (co_dirty x) as [?|[?|(q & _ & []%elem_of_nil)]]; done. }
  assert (Hvs : bview (lg_bc s) start = dsk (lg_bc s) start).
  { rewrite Hv, Hd. apply co_log, log_area_start. }
  destruct (commit_crash (nlog := nlog) start (bview (lg_bc s)) (dsk (lg_bc s)) bl) with (ws := ws')
    as [(Hw & Hs & Hl & _)|(Hw & Hg & Hs)]; try done; [by rewrite Hv|apply lo_fit|by rewrite Hd|..].
  - fold d' in Hs, Hl. split_and!; [|by left|].
    + apply log_good_clean; [apply lo_fit| |done]. unfold d'. rewrite apply_writes_out; [by rewrite Hd|]. intros Hin.
      destruct Hw as [k Hk]. destruct (wl_writes_area (nlog := nlog) start (bview (lg_bc s)) bl (proj2 lo_fit) start) as [_ []]; [|done].
      rewrite Hk, fmap_app. by apply elem_of_app; left.
    + intros ->. exfalso. destruct Hw as [k Hk]. apply (f_equal length) in Hk. unfold commit_writes in Hk.
      rewrite !length_app in Hk. simpl in Hk. lia.
  - fold d' in Hs, Hg. assert (Hs' : same_home start nlog (recovered start d') (bview (lg_bc s))).
    { intros x Hx. rewrite Hs by done. by apply Hnew. }
    split_and!; [done|by right|done].
Qed.

(** C1: crash atomicity and durability.  In any interleaving of system calls,
    a crash during any step leaves a disk whose recovery gives, on every block
    outside the log, either what recovery would have given before the step or,
    when the step is commit(), the contents the cache had at the commit; all
    the writes of the transactions together or none of them.  Once commit()
    has returned it is the latter. *)
Theorem log_crash_atomic σ σ' d : lreach start nlog σ → lstep start nlog σ σ' → crash_disk σ σ' d →
  log_good start nlog d ∧
  (same_home start nlog (recovered start d) (recovered start (dsk (lg_bc (ls σ)))) ∨
   is_commit σ σ' ∧ same_home start nlog (recovered start d) (bview (lg_bc (ls σ)))) ∧
  (is_commit σ σ' → same_home start nlog (recovered start (dsk (lg_bc (ls σ')))) (bview (lg_bc (ls σ)))).
Proof.
  intros Hi%lreach_linv Hst (ws & ws' & Htr & Hpre & ->). destruct (linv_clean σ Hi) as (Hnl & Hok & Hcl).
  pose proof (recovered_clean (nlog := nlog) start _ Hcl) as Hrc.
  assert (Hdec : is_commit σ σ' ∨ ¬ is_commit σ σ').
  { unfold is_commit. destruct (ph σ) as [|p|p], (ph σ') as [|q|q]; try (right; by intros (? & ? & ?)).
    destruct (decide (p = q)) as [->|]; [left; by exists q|right; intros (? & ? & ?); congruence]. }
  destruct Hdec as [Hc|Hnc].
  - pose proof Hc as (pid & Hp & Hp'). destruct Hst; simpl in *; try congruence;
      try (destruct dc; congruence). injection Hp as ->.
    destruct (commit_linv start nlog s s' os pid P Hi) as (Hi' & ws2 & Htr' & Hd' & Hcase); try done.
    rewrite Htr in Htr'. apply app_inv_head in Htr' as ->.
    destruct Hcase as [[-> Hsame]| ->].
    { apply prefix_nil_inv in Hpre as ->. simpl. split_and!; [by apply log_good_clean|by left|].
      intros _ x Hx. rewrite (recovered_clean (nlog := nlog)); [|by rewrite Hd'|done]. rewrite Hd'. simpl. by apply Hsame. }
    destruct (commit_crash_sys s os pid P ws' Hi) as (Hg & Hor & _); try done.
    destruct (commit_crash_sys s os pid P _ Hi H H0 H1 (reflexivity _)) as (Hg2 & _ & Hfull). specialize (Hfull eq_refl).
    split_and!; [done| |].
    + destruct Hor as [Hor|Hor]; [left|by right]. intros x Hx. rewrite Hor, Hrc; done.
    + intros _ x Hx. rewrite <- (Hfull x Hx). symmetry. apply (recovered_ext (nlog := nlog)); [done| |done]. intros y. by rewrite Hd'.
  - destruct (lstep_disk start nlog σ σ' Hi Hst Hnc) as [Ht Hd].
    assert (ws = []) as ->. { rewrite Ht in Htr. rewrite <- (app_nil_r (dtrace _)) in Htr at 1. by apply app_inv_head in Htr. }
    apply prefix_nil_inv in Hpre as ->. simpl. split_and!; [by apply log_good_clean|by left|done].
Qed.

(** C16: boot-time recovery.  On a disk with a good log header, initlog()
    returns; outside the log the disk is then the recovered one, the log is
    empty, and the cache agrees with the disk.  A crash at any moment of it
    leaves a disk that recovers to the same contents. *)
Theorem recovery_crash_safe pid s d t : length (lh_block s) = Z.to_nat LOGSIZE → idle (lg_bc s) d t →
  log_good start nlog d → ∃ s' ws, initlog pid ROOTDEV start nlog s = Ret tt s' ∧
  dtrace (lg_bc s') = t ++ ws ∧ lh_n s' = 0 ∧ hdr_list (dsk (lg_bc s') start) = [] ∧
  (∀ x, dsk (lg_bc s') x = recovered start d x ∧ bview (lg_bc s') x = dsk (lg_bc s') x) ∧
  ∀ ws', ws' `prefix_of` ws → log_good start nlog (apply_writes ws' d) ∧
    same_home start nlog (recovered start (apply_writes ws' d)) (recovered start d).
Proof.
  intros Hlen Hi Hg. destruct (initlog_run pid start nlog s d t Hi Hlen Hg) as (c & l & E & Hl & (l1 & _ & Hv & _ & _ & Hd & Ht)).
  eexists _, _. split; [exact E|]. simpl. split_and!; [exact Ht|done| | |].
  - rewrite Hd, recovered_start. apply hdr_clear_list, Hg.
  - intros x. by rewrite Hd, Hv.
  - intros ws' Hp. by apply recovery_crash.
Qed.

(** The reservation made by begin_op() is enough when the log has more
    than LOGSIZE blocks: a system call that has logged fewer than MAXOPBLOCKS
    blocks can log another one. *)
Theorem log_write_reserved σ pid u i bn : lreach start nlog σ → (pid, u) ∈ ops σ → u < MAXOPBLOCKS →
  bheld (lg_bc (ls σ)) pid i bn → bref (lg_bc (ls σ)) bn < 2 ^ 32 - 1 → LOGSIZE < nlog →
  ∃ s', log_write i (ls σ) = Ret tt s' ∧ logged s' = log_add bn (logged (ls σ)).
Proof.
  intros (v & r & h & d & t & bl & Hc & Hlo & Hco & Hoo & Hp)%lreach_linv Hin Hu Hb Hr Hsz.
  pose proof Hlo as []. pose proof Hoo as []. pose proof Hc as (l0 & _ & _ & Hrr & _).
  apply list_elem_of_split in Hin as (os1 & os2 & Hos). rewrite Hos in *.
  assert (Hres : Z.of_nat (length bl) < LOGSIZE).
  { rewrite reserved_app in oo_reserved. unfold reserved at 2 in oo_reserved. cbn [foldr snd] in oo_reserved.
    assert (H1 := reserved_bounds os1 (λ o H, oo_used o ltac:(by rewrite elem_of_app; left))).
    assert (H2 := reserved_bounds os2 (λ o H, oo_used o ltac:(by rewrite elem_of_app; right; right))).
    unfold reserved at 1 in H2. lia. }
  destruct (log_write_spec pid i bn (ls σ) v r h d t bl) as (c & l & E & Hl & Hlj & _); try done; try lia.
  { rewrite oo_out, length_app. simpl. lia. } { by rewrite <- Hrr. }
  eexists. split; [exact E|]. rewrite (logged_eq start nlog (ls σ) bl) by done. unfold logged. simpl. rewrite Nat2Z.id.
  apply list_eq. intros j. destruct (log_add bn bl !! j) as [x|] eqn:Ej.
  - rewrite lookup_take_lt by (by apply lookup_lt_Some in Ej). by apply Hlj.
  - apply lookup_ge_None in Ej. apply lookup_ge_None. rewrite length_take. lia.
Qed.

(** No system call is inside a transaction while a commit is under way,
    begin_op() then waits, and end_op() never finds another commit running. *)
Theorem commit_excludes_ops σ : lreach start nlog σ →
  (lg_committing (ls σ) = true → ops σ = [] ∧ lg_outstanding (ls σ) = 0 ∧ begin_op (ls σ) = Sleep ChanLog (ls σ)) ∧
  (ops σ ≠ [] → ∃ dc s', end_op_enter (ls σ) = Ret dc s').
Proof.
  intros (v & r & h & d & t & bl & Hc & Hlo & Hco & Hoo & Hp)%lreach_linv. pose proof Hlo as []. pose proof Hoo as [].
  unfold phase_ok in Hp. split.
  - intros Hcm. assert (Ho : ops σ = []) by (destruct (ph σ); [congruence|apply Hp|apply Hp]). rewrite Ho in *.
    split_and!; [done|done|]. rewrite begin_op_run by done. by rewrite Hcm.
  - intros Hne. rewrite end_op_enter_run; [|done|by destruct (ph σ); [|destruct Hp; congruence|destruct Hp as (? & ? & ?); congruence]].
    destruct (_ =? 0); eauto.
Qed.
End thms.

(** ** Runs: the steps of a system call that logs blocks *)

Section runs.
Context {D : DiskDriver} (start nlog : Z).

(** Nobody holds a buffer; only the logged blocks [bl] are in use. *)
Definition quiet (σ : lsys) (bl : list Z) : Prop := ∃ v r d t,
  cst (lg_bc (ls σ)) v r (λ _, None) d t ∧ refs_in r bl ∧ log_ok start nlog (ls σ) bl.

(** bread(): the block gets locked. *)
Lemma read_one σ bl pid bn : lreach start nlog σ → quiet σ bl → (length bl < NBUF)%nat → bn ∉ bl → small bn → ¬ log_area start nlog bn →
  ∃ i c v r d t, lreach start nlog (LSys (set_lg_bc c (ls σ)) (ops σ) (ph σ)) ∧ bheld c pid i bn ∧ r bn ≤ 0 ∧ v bn = d bn ∧
    cst c v (upd r bn (r bn + 1)) (upd (λ _, None) bn (Some pid)) d t ∧ refs_in r bl ∧ log_ok start nlog (ls σ) bl.
Proof.
  intros Hre (v & r & d & t & Hc & Hr & Hlo) Hlen Hbn Hsm Ha.
  assert (Hr0 : r bn ≤ 0). { destruct (Z.le_gt_cases (r bn) 0); [done|]. exfalso. by apply Hbn, Hr. }
  destruct (cst_bread pid _ v r _ d t bn bl Hc) as (i & c & E & Hc' & Hb & _); [done|lia|by right|].
  destruct (lreach_linv start nlog σ Hre) as (v1 & r1 & h1 & d1 & t1 & bl1 & Hc1 & Hlo1 & [] & _).
  assert (bl1 = bl) as -> by (rewrite <- (logged_eq start nlog (ls σ) bl1), <- (logged_eq start nlog (ls σ) bl); done).
  destruct Hc as (l & _ & Hv & Hrr & Hh & Hd & _), Hc1 as (l1 & _ & Hv1 & _ & Hh1 & Hd1 & _).
  exists i, c, v, r, d, t. split_and!; try done.
  - eapply (reach_step start nlog σ); [done|]. destruct σ as [s os p]. simpl in *. eapply step_read; try done. rewrite Hrr. lia.
  - rewrite <- Hv, <- Hd, Hv1, Hd1. destruct (co_dirty bn) as [?|[?|(q & Hq & _)]]; [done|done|].
    rewrite <- Hh1, Hh in Hq. done.
Qed.

(** bread(), log_write(), brelse(). *)
Lemma log_one σ bl os1 os2 pid u bn : lreach start nlog σ → quiet σ bl → ops σ = os1 ++ (pid, u) :: os2 → u < MAXOPBLOCKS →
  bn ∉ bl → small bn → ¬ log_area start nlog bn → Z.of_nat (length bl) < LOGSIZE → Z.of_nat (length bl) < lg_size (ls σ) - 1 →
  ∃ σ', lreach start nlog σ' ∧ quiet σ' (bl ++ [bn]) ∧ ops σ' = os1 ++ (pid, u + 1) :: os2 ∧ ph σ' = ph σ ∧
    lg_size (ls σ') = lg_size (ls σ).
Proof.
  intros Hre Hq Hos Hu Hbn Hsm Ha Hl Hsz.
  destruct (read_one σ bl pid bn) as (i & c & v & r & d & t & Hre1 & Hb & Hr0 & Hvd & Hc & HP & Hlo); try done.
  { change LOGSIZE with 30 in Hl. unfold NBUF. lia. }
  set (s1 := set_lg_bc c (ls σ)) in *. assert (Hlo1 : log_ok start nlog s1 bl) by (by apply log_ok_bc). pose proof Hlo1 as [].
  assert (Hout : 1 ≤ lg_outstanding s1).
  { destruct (lreach_linv start nlog σ Hre) as (v1 & r1 & h1 & d1 & t1 & bl1 & _ & _ & _ & [] & _). simpl.
    rewrite oo_out, Hos, length_app. simpl. lia. }
  destruct (log_write_spec pid i bn s1 v (upd r bn (r bn + 1)) (upd (λ _, None) bn (Some pid)) d t bl) as (c2 & l2 & E2 & Hl2 & Hlj & Hc2 & Hk); try done; try (simpl; lia).
  { rewrite lo_n. simpl. done. } { rewrite lo_n. done. } { rewrite upd_eq. lia. }
  unfold log_add in *. rewrite decide_False in E2, Hlj by done. rewrite decide_False in Hc2 by done. set (s2 := set_lh_n _ _) in *.
  assert (Hre2 : lreach start nlog (LSys s2 (os1 ++ (pid, u + 1) :: os2) (ph σ))).
  { eapply (reach_step start nlog _ _ Hre1). simpl. rewrite Hos. eapply step_log; try done.
    destruct Hc as (l & _ & _ & Hr & _). simpl. rewrite Hr, upd_eq. lia. }
  assert (Hlo2 : log_ok start nlog s2 (bl ++ [bn])).
  { split; simpl; try done.
    - rewrite length_app. simpl in *. lia.
    - split; [lia|]. intros j b Hj. rewrite Z.add_0_l, Nat2Z.id. by apply Hlj.
    - apply NoDup_app. split_and!; [done| |apply NoDup_singleton]. intros x Hx ->%list_elem_of_singleton. done.
    - apply Forall_app. split; [done|]. by apply Forall_singleton.
    - intros b [?| ->%list_elem_of_singleton]%elem_of_app; [by apply lo_home|done]. }
  assert (Hb2 : bheld c2 pid i bn) by (by apply Hk).
  destruct (cst_brelse pid c2 _ _ _ _ _ i bn Hc2 Hb2) as (c3 & E3 & Hc3 & _); [by right|].
  exists (LSys (set_lg_bc c3 s2) (os1 ++ (pid, u + 1) :: os2) (ph σ)). split_and!; simpl; try done.
  - eapply (reach_step start nlog _ _ Hre2). eapply (step_release start nlog s2 _ _ pid bn i c3); [done| |done].
    right. rewrite (logged_eq start nlog s2 _ Hlo2). rewrite elem_of_app. right. by apply list_elem_of_singleton.
  - eexists v, _, d, t. simpl. split_and!; [eapply cst_ext; [exact Hc3|done|done| |done]|..].
    + intros x. updtac.
    + intros x. rewrite elem_of_app, list_elem_of_singleton. specialize (HP x). updtac; auto.
    + by apply log_ok_bc.
Qed.

(** The next [k] blocks from [b] on. *)
Fixpoint blocks (b : Z) (k : nat) : list Z := match k with O => [] | S k => b :: blocks (b + 1) k end.

Lemma elem_of_blocks b k x : x ∈ blocks b k ↔ b ≤ x < b + Z.of_nat k.
Proof.
  revert b. induction k as [|k IH]; intros b; simpl.
  - rewrite elem_of_nil. lia.
  - rewrite elem_of_cons, IH. lia.
Qed.

Lemma blocks_length b k : length (blocks b k) = k.
Proof. revert b. induction k as [|k IH]; intros b; [done|]. simpl. by rewrite IH. Qed.

(** A system call logs [k] blocks. *)
Lemma log_many k σ bl os1 os2 pid u b : lreach start nlog σ → quiet σ bl → ops σ = os1 ++ (pid, u) :: os2 →
  u + Z.of_nat k ≤ MAXOPBLOCKS → (∀ x, x ∈ bl → x < b) → 0 ≤ b → b + Z.of_nat k < 2 ^ 31 → start + Z.max nlog 1 ≤ b →
  Z.of_nat (length bl + k) ≤ LOGSIZE → Z.of_nat (length bl + k) ≤ lg_size (ls σ) - 1 →
  ∃ σ', lreach start nlog σ' ∧ quiet σ' (bl ++ blocks b k) ∧ ops σ' = os1 ++ (pid, u + Z.of_nat k) :: os2 ∧ ph σ' = ph σ ∧
    lg_size (ls σ') = lg_size (ls σ).
Proof.
  revert σ bl u b. induction k as [|k IH]; intros σ bl u b Hre Hq Hos Hu Hbl Hb0 Hb1 Hst Hl Hsz.
  { exists σ. simpl. rewrite app_nil_r, Z.add_0_r. done. }
  destruct (log_one σ bl os1 os2 pid u b) as (σ1 & Hre1 & Hq1 & Hos1 & Hph1 & Hsz1); try done; try lia.
  { intros Hx%Hbl. lia. } { split; lia. } { unfold log_area, in_range. lia. }
  destruct (IH σ1 (bl ++ [b]) (u + 1) (b + 1)) as (σ2 & Hre2 & Hq2 & Hos2 & Hph2 & Hsz2); try done; rewrite ?length_app; simpl; try lia.
  { intros x [?%Hbl| ->%list_elem_of_singleton]%elem_of_app; lia. }
  exists σ2. rewrite <- app_assoc in Hq2. replace (u + Z.of_nat (S k)) with (u + 1 + Z.of_nat k) by lia.
  split_and!; try done; congruence.
Qed.
End runs.

(** ** A zeroed disk with the log at block 2 *)

Definition zero_disk : Z → block := λ _, zero_block.
Definition log_boot0 (c : bstate) : lstate := LState false 0 0 0 false 0 0 (replicate 30 0) c.

Lemma zero_log_good nlog : 0 < nlog → log_good 2 nlog zero_disk.
Proof. intros Hn. apply log_good_clean; [done|apply zero_block_ok|reflexivity]. Qed.

Lemma idle_boot : ∃ c, idle c zero_disk [].
Proof.
  destruct (binit_ok (bstate0 zero_disk)) as (s & l & _ & Hok & Hd & Ht & Hv).
  { apply demo_fresh. } { intros x. apply zero_block_ok. }
  exists s, l. split_and!; try done; intros x; try apply Hv. by rewrite Hd.
Qed.

Section demo.
Context (nlog : Z) (Hnl : 29 < nlog < 90).

Lemma boot_quiet : ∃ σ, lreach (D := direct_disk) 2 nlog σ ∧ quiet 2 nlog σ [] ∧ ops σ = [] ∧ ph σ = Running ∧ lg_size (ls σ) = nlog.
Proof using Hnl.
  destruct idle_boot as (c & Hc). assert (Hg : log_good 2 nlog zero_disk) by (apply zero_log_good; lia).
  destruct (initlog_run (D := direct_disk) 1 2 nlog (log_boot0 c) zero_disk [] Hc eq_refl Hg) as (c' & l & E & Hl & Hi).
  eexists (LSys _ [] Running). split_and!.
  - eapply (reach_init 2 nlog 1 (log_boot0 c)); [done|done|done|exact Hc|exact Hg|exact E].
  - eexists _, _, _, _. split_and!; [exact Hi| |].
    + intros x. simpl. lia.
    + split; simpl; try done; [lia|apply NoDup_nil_2|intros b []%elem_of_nil].
  - done.
  - done.
  - done.
Qed.

Lemma begin_one σ bl pid : lreach (D := direct_disk) 2 nlog σ → quiet 2 nlog σ bl → ph σ = Running → pid ∉ (ops σ).*1 →
  Z.of_nat (length bl) + Z.of_nat (S (length (ops σ))) * MAXOPBLOCKS ≤ LOGSIZE →
  ∃ σ', lreach (D := direct_disk) 2 nlog σ' ∧ quiet 2 nlog σ' bl ∧ ops σ' = (pid, 0) :: ops σ ∧ ph σ' = Running ∧ lg_size (ls σ') = lg_size (ls σ).
Proof.
  intros Hre (v & r & d & t & Hc & HP & Hlo) Hph Hpid Hl. pose proof Hlo as [].
  destruct (lreach_linv (D := direct_disk) 2 nlog σ Hre) as (v1 & r1 & h1 & d1 & t1 & bl1 & _ & _ & _ & [] & Hp).
  rewrite Hph in Hp. simpl in Hp.
  exists (LSys (set_outstanding (lg_outstanding (ls σ) + 1) (ls σ)) ((pid, 0) :: ops σ) Running). split_and!; try done.
  - eapply (reach_step 2 nlog σ); [done|]. destruct σ as [s os p]. simpl in *. subst p. apply step_begin; [done|].
    rewrite begin_op_run by done. rewrite Hp. destruct (Z.ltb_spec LOGSIZE (lh_n s + (lg_outstanding s + 1) * MAXOPBLOCKS)); [|done].
    change MAXOPBLOCKS with 10 in *. lia.
  - exists v, r, d, t. split_and!; try done.
Qed.

(** Three system calls have logged [a], [b] and [c] blocks. *)
Lemma three_calls : ∃ σ, lreach (D := direct_disk) 2 nlog σ ∧
  quiet 2 nlog σ (((([] ++ blocks 100 10) ++ blocks 110 10)) ++ blocks 120 9) ∧
  ops σ = [(3, 9); (2, 10); (1, 10)] ∧ ph σ = Running ∧ lg_size (ls σ) = nlog.
Proof using Hnl.
  destruct boot_quiet as (σ0 & Hre0 & Hq0 & Ho0 & Hp0 & Hs0).
  destruct (begin_one σ0 [] 1) as (σ1 & Hre1 & Hq1 & Ho1 & Hp1 & Hs1); try done; rewrite ?Ho0; [apply not_elem_of_nil|done|].
  rewrite Ho0 in Ho1.
  destruct (begin_one σ1 [] 2) as (σ2 & Hre2 & Hq2 & Ho2 & Hp2 & Hs2); try done; rewrite ?Ho1; [by vm_compute; apply not_elem_of_cons; split; [|apply not_elem_of_nil]|done|].
  rewrite Ho1 in Ho2.
  destruct (begin_one σ2 [] 3) as (σ3 & Hre3 & Hq3 & Ho3 & Hp3 & Hs3); try done; rewrite ?Ho2; [by apply (bool_decide_unpack _)|done|].
  rewrite Ho2 in Ho3.
  destruct (log_many (D := direct_disk) 2 nlog 10 σ3 [] [(3, 0); (2, 0)] [] 1 0 100) as (σ4 & Hre4 & Hq4 & Ho4 & Hp4 & Hs4); try done; try (simpl; lia).
  { intros x []%elem_of_nil. }
  destruct (log_many (D := direct_disk) 2 nlog 10 σ4 _ [(3, 0)] [(1, 10)] 2 0 110 Hre4 Hq4) as (σ5 & Hre5 & Hq5 & Ho5 & Hp5 & Hs5);
    try done; rewrite ?length_app, ?blocks_length; try (simpl; lia).
  { intros x [[]%elem_of_nil|Hx%elem_of_blocks]%elem_of_app; lia. }
  destruct (log_many (D := direct_disk) 2 nlog 9 σ5 _ [] [(2, 10); (1, 10)] 3 0 120 Hre5 Hq5) as (σ6 & Hre6 & Hq6 & Ho6 & Hp6 & Hs6);
    try done; rewrite ?length_app, ?blocks_length; try (simpl; lia).
  { intros x [[[]%elem_of_nil|Hx%elem_of_blocks]%elem_of_app|Hx%elem_of_blocks]%elem_of_app; lia. }
  exists σ6. split_and!; try done; congruence.
Qed.

End demo.

(** C31: the log mkfs makes is one block too small for the reservations
    begin_op() grants.  mkfs gives the log nlog = LOGSIZE blocks including its
    header; then three admitted system calls, none of which has logged
    MAXOPBLOCKS blocks and still may log one, can be in a state in which
    log_write() panics. *)
Theorem log_reservation_short : ∃ σ pid u i bn,
  lreach (D := direct_disk) 2 30 σ ∧ lg_size (ls σ) = LOGSIZE ∧ (pid, u) ∈ ops σ ∧ u < MAXOPBLOCKS ∧
  bheld (lg_bc (ls σ)) pid i bn ∧ log_write i (ls σ) = Panic "too big a transaction".
Proof.
  destruct (three_calls 30) as (σ & Hre & Hq & Ho & Hp & Hs); [lia|].
  destruct (read_one (D := direct_disk) 2 30 σ _ 3 129 Hre Hq) as (i & c & v & r & d & t & Hre' & Hb & _ & _ & _ & _ & Hlo).
  { rewrite !length_app, !blocks_length. unfold NBUF. simpl. lia. }
  { rewrite !elem_of_app, !elem_of_blocks, elem_of_nil. lia. }
  { split; lia. } { unfold log_area, in_range. change LOGSIZE with 30. lia. }
  exists (LSys (set_lg_bc c (ls σ)) (ops σ) (ph σ)), 3, 9, i, 129. split_and!; try done.
  - rewrite Ho. by left.
  - destruct Hlo. apply log_write_too_big; [done|right]. simpl. rewrite lo_n, Hs, !length_app, !blocks_length. simpl. lia.
Qed.

Lemma log_write_reserved_witness : ∃ σ i bn s', log_write i (ls σ) = Ret tt s' ∧ logged s' = log_add bn (logged (ls σ)).
Proof.
  destruct (three_calls 31) as (σ & Hre & Hq & Ho & Hp & Hs); [lia|].
  destruct (read_one (D := direct_disk) 2 31 σ _ 3 129 Hre Hq) as (i & c & v & r & d & t & Hre' & Hb & Hr0 & _ & Hc & _ & Hlo).
  { rewrite !length_app, !blocks_length. unfold NBUF. simpl. lia. }
  { rewrite !elem_of_app, !elem_of_blocks, elem_of_nil. lia. }
  { split; lia. } { unfold log_area, in_range. change LOGSIZE with 30. lia. }
  destruct (log_write_reserved (D := direct_disk) 2 31 _ 3 9 i 129 Hre') as (s' & E & El).
  - simpl. rewrite Ho. by left.
  - done.
  - done.
  - destruct Hc as (l & _ & _ & Hr & _). simpl. rewrite Hr, upd_eq. lia.
  - done.
  - exists (LSys (set_lg_bc c (ls σ)) (ops σ) (ph σ)), i, 129, s'. split; [exact E|exact El].
Defined.

(** One system call has logged block 100 and is committing. *)
Lemma committing_run : ∃ σ σ', lreach (D := direct_disk) 2 31 σ ∧ lstep (D := direct_disk) 2 31 σ σ' ∧ is_commit σ σ'.
Proof.
  destruct (boot_quiet 31) as (σ0 & Hre0 & Hq0 & Ho0 & Hp0 & Hs0); [lia|].
  destruct (begin_one 31 σ0 [] 1) as (σ1 & Hre1 & Hq1 & Ho1 & Hp1 & Hs1); try done; rewrite ?Ho0; [apply not_elem_of_nil|done|].
  rewrite Ho0 in Ho1.
  destruct (log_many (D := direct_disk) 2 31 1 σ1 [] [] [] 1 0 100 Hre1 Hq1) as (σ2 & Hre2 & Hq2 & Ho2 & Hp2 & Hs2);
    try done; try (simpl; lia).
  { intros x []%elem_of_nil. }
  destruct Hq2 as (v & r & d & t & Hc & HP & Hlo). pose proof Hlo as [].
  destruct (lreach_linv (D := direct_disk) 2 31 σ2 Hre2) as (v1 & r1 & h1 & d1 & t1 & bl1 & _ & _ & _ & [] & Hp).
  rewrite Hp2, Hp1 in Hp. simpl in Hp. destruct σ2 as [s os p]. simpl in *. subst os p.
  pose proof Hc as (l0 & _ & Hv & Hr & Hh & _).
  assert (Hst : lstep (D := direct_disk) 2 31 (LSys s ([] ++ [(1, 1)]) Running) (LSys (set_committing true (set_outstanding 0 s)) ([] ++ []) (Committing 1))).
  { eapply (step_end 2 31 [] [] s _ 1 1 true).
    - intros x. by rewrite Hh.
    - rewrite end_op_enter_run by done. by rewrite oo_out. }
  rewrite Hp1 in Hre2. pose proof (reach_step 2 31 _ _ Hre2 Hst) as Hre3. set (s3 := set_committing _ _) in *.
  destruct (lreach_linv (D := direct_disk) 2 31 _ Hre3) as (v3 & r3 & h3 & d3 & t3 & bl3 & Hc3 & Hlo3 & Hco3 & _ & Hp3). simpl in *.
  assert (Hb3 : bl3 = [100]).
  { rewrite <- (logged_eq 2 31 s3 bl3 Hlo3). transitivity (logged s); [done|]. by apply (logged_eq 2 31). }
  subst bl3. pose proof Hc3 as (l3 & _ & _ & Hr3 & Hh3 & _).
  destruct (commit_run (D := direct_disk) 1 s3 v3 r3 h3 d3 t3 [100] [100]) as (c & E & _); [|done|].
  { apply (commit_pre_of 2 31 s3 v3 r3 h3 d3 t3 [100] [100] 1); try done.
    - intros x _. rewrite <- Hh3. apply Hh.
    - intros x. rewrite <- Hr3. simpl. rewrite Hr. apply HP.
    - unfold NBUF. simpl. lia. }
  exists (LSys s3 [] (Committing 1)). eexists. split_and!; [done| |].
  - eapply (step_commit 2 31 s3 _ [] 1 [100]); [..|exact E].
    + intros x _. apply Hh.
    + intros x. simpl. rewrite Hr. apply HP.
    + unfold NBUF. simpl. lia.
  - by exists 1.
Qed.

Lemma log_crash_atomic_witness : ∃ σ σ' d, is_commit σ σ' ∧ crash_disk σ σ' d ∧ log_good 2 31 d ∧
  same_home 2 31 (recovered 2 (dsk (lg_bc (ls σ')))) (bview (lg_bc (ls σ))).
Proof.
  destruct committing_run as (σ & σ' & Hre & Hst & Hcm).
  assert (Hcd : crash_disk σ σ' (dsk (lg_bc (ls σ)))).
  { pose proof Hcm as (pid & Hp & Hp'). pose proof (lreach_linv (D := direct_disk) 2 31 σ Hre) as Hi.
    destruct Hst; simpl in *; try congruence; try (destruct dc; congruence). injection Hp as ->.
    destruct (commit_linv (D := direct_disk) 2 31 s s' os pid P Hi) as (_ & ws & Htr & _); try done.
    exists ws, []. simpl. split_and!; [exact Htr|apply prefix_nil|done]. }
  exists σ, σ', (dsk (lg_bc (ls σ))). split; [exact Hcm|]. split; [exact Hcd|].
  destruct (log_crash_atomic (D := direct_disk) 2 31 σ σ' _ Hre Hst Hcd) as (Hg & _ & Hd). split; [exact Hg|exact (Hd Hcm)].
Defined.

Lemma recovery_crash_safe_witness : ∃ s s', initlog (D := direct_disk) 1 ROOTDEV 2 31 s = Ret tt s' ∧ lh_n s' = 0.
Proof.
  destruct idle_boot as (c & Hc). exists (log_boot0 c).
  destruct (recovery_crash_safe (D := direct_disk) 2 31 1 (log_boot0 c) zero_disk [] eq_refl Hc (zero_log_good 31 eq_refl))
    as (s' & ws & E & _ & Hn & _).
  exists s'. split; [exact E|exact Hn].
Defined.

Lemma commit_excludes_ops_witness : ∃ σ, ops σ ≠ [] ∧ ∃ dc s', end_op_enter (ls σ) = Ret dc s'.
Proof.
  destruct (three_calls 31) as (σ & Hre & Hq & Ho & Hp & Hs); [done|]. exists σ.
  assert (Hne : ops σ ≠ []) by (by rewrite Ho). split; [exact Hne|].
  exact (proj2 (commit_excludes_ops (D := direct_disk) 2 31 σ Hre) Hne).
Defined.
