(* ===== verification/VmUserMem.v ===== *)
(** * vm.c implements the user memory of the file system

    fs.c, pipe.c, console.c and sysfile.c reach the memory of the calling
    process through [UserMem].  copyout(), copyin() and copyinstr() on the
    process's page table implement it ([vm_user]); [deliver_vm] and
    [supplies_vm] read the byte-wise copies through the user's view. *)

From stdpp Require Import base gmap sets strings numbers list.
From coqutil Require Import Byte.
From S2P Require Import Prelude Mem Str Riscv Spinlock Kalloc Vm VmPt VmWalk VmMap VmUser VmCopy Block.

Section user_mem.
Context {I : image} {PA : PageAllocator} (root : Z).

Definition vm_copyout (va : Z) (l : list byte) (s : mstate) : bool * mstate :=
  match copyout root va l s with Ret r s' => (r =? 0, s') | _ => (false, s) end.
Definition vm_copyin (va : Z) (n : nat) (s : mstate) : bool * list byte :=
  match copyin root va (Z.of_nat n) s with Ret (r, l) _ => (r =? 0, l) | _ => (false, []) end.
(** The string without its NUL. *)
Definition vm_copyinstr (va max : Z) (s : mstate) : option (list byte) :=
  match copyinstr root va max s with Ret (r, l) _ => if r =? 0 then Some (removelast l) else None | _ => None end.

(** copyin() returns 0 after the whole length, and never writes more. *)
Lemma copyin_loop_length fuel dst va len s r out s' : 0 ≤ len → copyin_loop fuel root dst va len s = Ret (r, out) s' →
  Z.of_nat (length dst) ≤ Z.of_nat (length out) ≤ Z.of_nat (length dst) + len ∧ (r = 0 → Z.of_nat (length out) = Z.of_nat (length dst) + len).
Proof.
  revert dst va len s. induction fuel as [|fuel IH]; intros dst va len s Hlen H; [done|]. cbn [copyin_loop] in H.
  destruct (Z.ltb_spec 0 len) as [Hl|Hl]; [|injection H as <- <- <-; lia].
  apply bind_Ret_inv in H as (pa0 & s1 & _ & H). destruct (pa0 =? 0); [injection H as <- <- <-; lia|].
  rewrite bind_gets in H. pose proof (chunk_facts va len Hl) as Hc. cbn zeta in Hc. set (n := if _ <? _ then _ else _) in *.
  apply IH in H as [H1 H2]; [|lia]. rewrite length_app, load_bytes_length in H1, H2. lia.
Qed.

Lemma vm_copyin_len va n s : vm_copyin va n s = (true, snd (vm_copyin va n s)) → length (snd (vm_copyin va n s)) = n.
Proof.
  unfold vm_copyin. destruct (copyin root va (Z.of_nat n) s) as [[r l] s'| | |] eqn:E; try done. cbn [snd]. intros [= Hr].
  apply copyin_loop_length in E as [_ E]; [|lia]. zbool. specialize (E Hr). simpl in E. lia.
Qed.

Lemma vm_copyin_le va n s : (length (snd (vm_copyin va n s)) ≤ n)%nat.
Proof.
  unfold vm_copyin. destruct (copyin root va (Z.of_nat n) s) as [[r l] s'| | |] eqn:E; simpl; try lia.
  apply copyin_loop_length in E as [E _]; [|lia]. simpl in E. lia.
Qed.

#[export] Instance vm_user : UserMem := {|
  um_state := mstate;
  um_copyout := vm_copyout;
  um_copyin := vm_copyin;
  um_copyinstr := vm_copyinstr;
  um_copyin_len := vm_copyin_len;
  um_copyin_le := vm_copyin_le
|}.

(** ** Byte-wise copies *)

Context {IO : image_ok I}.

(** The range [va, va + n) is mapped for the user. *)
Definition user_range (m : mem) (va : Z) (n : nat) : Prop := ∀ i, (i < n)%nat → is_Some (uview m root (va + Z.of_nat i)).

Lemma uview_below m va b : uview m root va = Some b → 0 ≤ va → va < MAXVA.
Proof.
  unfold uview. intros H Hva. destruct (Z.eqb_spec (upa m root (PGROUNDDOWN va)) 0) as [|Hne]; [done|]. apply upa_below in Hne.
  pose proof (PGROUNDDOWN_bounds va). rewrite PGROUNDDOWN_div in *. pgunfold. lia.
Qed.

(** Delivering bytes to a mapped range writes them all. *)
Lemma deliver_vm s F T va l : vm_ok s F T root → uspace_ok (ms_mem s) F T root → 0 ≤ va → user_range (ms_mem s) va (length l) → ∃ s',
  deliver s va l = (length l, s') ∧ vm_ok s' F T root ∧ same_get (ms_mem s) (ms_mem s') root ∧ written (ms_mem s) (ms_mem s') root va l.
Proof.
  revert s va. induction l as [|b l IH]; intros s va Hok Hu Hva Hr.
  { exists s. split_and!; try done. apply written_nil. }
  destruct (Hr 0%nat) as [x Hx]; [simpl; lia|]. rewrite Z.add_0_r in Hx. pose proof (uview_below _ _ _ Hx Hva) as Hmax.
  destruct (copyout_loop_spec 2 s F T root va [b]) as (r & s1 & n & E & Hok1 & Hsg1 & Hw1 & Hr1); [done..|simpl; lia|].
  assert (r = 0 ∧ n = 1%nat) as [-> ->].
  { destruct Hr1 as [[-> ->]|(-> & Hn & Hv)]; [done|]. simpl in Hn. replace n with 0%nat in Hv by lia. by rewrite Z.add_0_r, Hx in Hv. }
  cbn [deliver]. change (@um_copyout vm_user (u64 va) [b] s) with (vm_copyout (u64 va) [b] s). rewrite u64_id by (pgunfold; lia).
  unfold vm_copyout, copyout. cbn [length]. rewrite E. cbn [Z.eqb].
  destruct (IH s1 (va + 1)) as (s2 & E2 & Hok2 & Hsg2 & Hw2); [done|by eapply uspace_same_get|lia| |].
  { intros i Hi. rewrite Hw1 by lia. cbn [take length]. destruct (Hr (S i)) as [y Hy]; [simpl; lia|].
    destruct (Z.ltb_spec (va + 1 + Z.of_nat i) (va + Z.of_nat 1)); [lia|]. rewrite andb_false_r. exists y. rewrite <- Hy. f_equal. lia. }
  exists s2. cbn [take] in Hw1. rewrite E2. split_and!; try done.
  - intros x' Hx'. rewrite Hsg2, Hsg1 by done. done.
  - apply (written_app _ _ _ _ _ [b] l Hw1). exact Hw2.
Qed.

(** Bytes the user sees are supplied one by one. *)
Lemma supplies_vm s T va w : pt_wf (ms_mem s) T root → 0 ≤ va → reads (ms_mem s) root va w → supplies (U := vm_user) s va w.
Proof.
  intros Hwf Hva Hw j b Hj. pose proof (Hw j b Hj) as Hb. pose proof (uview_below _ _ _ Hb ltac:(lia)) as Hmax.
  rewrite u64_id by (pgunfold; lia). change (@um_copyin vm_user) with vm_copyin. unfold vm_copyin, copyin.
  destruct (copyin_loop_spec 2 s T root [] (va + Z.of_nat j) 1) as (r & bs & E & Hrd & Hr); [done|lia|done|simpl; lia|].
  change (Z.of_nat 1) with 1. change (S (Z.to_nat 1)) with 2%nat. rewrite E. cbn [app].
  destruct Hr as [[-> Hl]|(-> & Hl & Hn)].
  - destruct bs as [|c [|]]; simpl in Hl; try lia. pose proof (Hrd 0%nat c eq_refl) as Hc. rewrite Z.add_0_r, Hb in Hc. by injection Hc as ->.
  - replace (length bs) with 0%nat in Hn by lia. by rewrite Z.add_0_r, Hb in Hn.
Qed.
End user_mem.
