(* ===== verification/Fs.v ===== *)
(** * kernel/fs.c: the file system (the code)

    [fstate] is the file system's memory (super block and inode table) on top
    of a [BlockLayer]; [fs_um] is the memory of the calling process, [fs_woke]
    the wakeup() calls made.  Pointers to in-memory inodes are indices into
    itable.inode; a null pointer is [None].  Messages printed on errors are
    left out.

    [off], [n] and sizes are [uint], kept modulo 2^32 where the code adds
    them. *)

From stdpp Require Import base gmap sets strings numbers list.
From coqutil Require Import Byte Word.LittleEndianList.
From S2P Require Import Prelude Riscv Spinlock Block Sleeplock.

(** ** fs.h *)
Definition ROOTINO : Z := 1.
Definition FSMAGIC : Z := 0x10203040.
Definition NDIRECT : Z := 12.
Definition sizeof_dinode : Z := 64.
Definition NINDIRECT : Z := BSIZE / 4.
Definition MAXFILE : Z := NDIRECT + NINDIRECT.
Definition IPB : Z := BSIZE / sizeof_dinode.
Definition BPB : Z := BSIZE * 8.
Definition DIRSIZ : nat := 14.
Definition sizeof_dirent : Z := 16.

Definition T_DIR : Z := 1.
Definition T_FILE : Z := 2.
Definition T_DEVICE : Z := 3.

Record superblock := Superblock {
  sb_magic : Z; sb_size : Z; sb_nblocks : Z; sb_ninodes : Z;
  sb_nlog : Z; sb_logstart : Z; sb_inodestart : Z; sb_bmapstart : Z
}.

Definition IBLOCK (i : Z) (sb : superblock) : Z := i / IPB + sb_inodestart sb.
Definition BBLOCK (b : Z) (sb : superblock) : Z := b / BPB + sb_bmapstart sb.

(** [struct dinode]. *)
Record dinode := Dinode { d_type : Z; d_major : Z; d_minor : Z; d_nlink : Z; d_size : Z; d_addrs : list Z }.

(** ** file.h *)
Record inode := Inode {
  i_dev : Z; i_inum : Z; i_ref : Z;
  i_lock : sleeplock;
  i_valid : bool;
  i_type : Z; i_major : Z; i_minor : Z; i_nlink : Z; i_size : Z; i_addrs : list Z
}.
Definition inode0 : inode := Inode 0 0 0 (Sleeplock false false "" 0) false 0 0 0 0 0 (replicate 13 0).
#[export] Instance inode_inhabited : Inhabited inode := populate inode0.

(** ** Accesses to a block *)

Definition get8 (b : block) (off : Z) : Z := le_combine (blk_get b off 1).
Definition put8 (b : block) (off v : Z) : block := blk_put b off (le_split 1 v).

(** [((struct dinode* )bp->data)[k]] *)
Definition get_dinode (b : block) (k : Z) : dinode :=
  let o := k * sizeof_dinode in
  Dinode (i16 (get16 b o)) (i16 (get16 b (o + 2))) (i16 (get16 b (o + 4))) (i16 (get16 b (o + 6))) (get32 b (o + 8))
    ((λ j, get32 b (o + 12 + 4 * Z.of_nat j)) <$> seq 0 13).

(** The bytes of a [struct dinode]. *)
Definition dinode_bytes (d : dinode) : list byte :=
  le_split 2 (d_type d) ++ le_split 2 (d_major d) ++ le_split 2 (d_minor d) ++ le_split 2 (d_nlink d) ++
  le_split 4 (d_size d) ++ mjoin (le_split 4 <$> d_addrs d).
Definition put_dinode (b : block) (k : Z) (d : dinode) : block := blk_put b (k * sizeof_dinode) (dinode_bytes d).

(** The super block's fields in the bytes of block 1. *)
Definition get_superblock (b : block) : superblock :=
  Superblock (get32 b 0) (get32 b 4) (get32 b 8) (get32 b 12) (get32 b 16) (get32 b 20) (get32 b 24) (get32 b 28).

(** [struct dirent]: inum, name. *)
Record dirent := Dirent { de_inum : Z; de_name : list byte }.
Definition get_dirent (l : list byte) : dirent := Dirent (le_combine (take 2 l)) (take DIRSIZ (drop 2 l)).
Definition dirent_bytes (de : dirent) : list byte := le_split 2 (de_inum de) ++ de_name de.

Section fs.
Context {B : BlockLayer} {U : UserMem} (pid : Z).

Record fstate := FState {
  fs_sb : superblock;
  it_lock : bool;            (* itable *)
  itab : list inode;
  fs_bl : bl_state;
  fs_um : um_state;
  fs_woke : list chan
}.

Definition set_sb (x : superblock) (s : fstate) : fstate := FState x (it_lock s) (itab s) (fs_bl s) (fs_um s) (fs_woke s).
Definition set_it_lock (x : bool) (s : fstate) : fstate := FState (fs_sb s) x (itab s) (fs_bl s) (fs_um s) (fs_woke s).
Definition set_itab (x : list inode) (s : fstate) : fstate := FState (fs_sb s) (it_lock s) x (fs_bl s) (fs_um s) (fs_woke s).
Definition set_fs_bl (x : bl_state) (s : fstate) : fstate := FState (fs_sb s) (it_lock s) (itab s) x (fs_um s) (fs_woke s).
Definition set_fs_um (x : um_state) (s : fstate) : fstate := FState (fs_sb s) (it_lock s) (itab s) (fs_bl s) x (fs_woke s).

Definition bl {A} (m : M bl_state A) : M fstate A := zoom fs_bl set_fs_bl m.
Definition fs_bread (dev bn : Z) : M fstate nat := bl (bl_bread dev bn).
Definition fs_brelse (b : nat) : M fstate unit := bl (bl_brelse b).
Definition fs_log_write (b : nat) : M fstate unit := bl (bl_log_write b).
Definition bdata (b : nat) : M fstate block := bl (gets (bl_data b)).
Definition bstore (b : nat) (f : block → block) : M fstate unit := bl (bl_modify b f).

(** ** Super block *)

Definition readsb (dev : Z) : M fstate unit :=
  bp ← fs_bread dev 1;
  d ← bdata bp;
  modify (set_sb (get_superblock d));;
  fs_brelse bp.

(** [initlog] is log.c's. *)
Definition fsinit (initlog : Z → superblock → M bl_state unit) (dev : Z) : M fstate unit :=
  readsb dev;;
  sb ← gets fs_sb;
  if sb_magic sb =? FSMAGIC then bl (initlog dev sb) else panic "invalid file system".

(** ** Blocks *)

Definition bzero (dev bno : Z) : M fstate unit :=
  bp ← fs_bread dev bno;
  bstore bp (λ _, zero_block);;    (* memset(bp->data, 0, BSIZE) *)
  fs_log_write bp;;
  fs_brelse bp.

(** [bp->data[bi/8] & (1 << (bi % 8))] *)
Definition bit_used (d : block) (bi : Z) : bool :=
  negb (Z.land (get8 d (bi / 8)) (Z.shiftl 1 (bi mod 8)) =? 0).
Definition set_bit (bi : Z) (d : block) : block :=
  put8 d (bi / 8) (Z.lor (get8 d (bi / 8)) (Z.shiftl 1 (bi mod 8))).
Definition clear_bit (bi : Z) (d : block) : block :=
  put8 d (bi / 8) (Z.land (get8 d (bi / 8)) (Z.lnot (Z.shiftl 1 (bi mod 8)))).

(** The inner loop of balloc() over the bits from [bi] on, [k] to go: the
    first clear one. *)
Fixpoint balloc_scan (k : nat) (bi : Z) (d : block) : option Z :=
  match k with
  | O => None
  | S k => if bit_used d bi then balloc_scan k (bi + 1) d else Some bi
  end.

(** The outer loop of balloc() from block [b] on. *)
Fixpoint balloc_loop (fuel : nat) (dev b : Z) : M fstate Z :=
  match fuel with
  | O => no_fuel
  | S fuel =>
    sb ← gets fs_sb;
    if b <? sb_size sb then
      bp ← fs_bread dev (BBLOCK b sb);
      d ← bdata bp;
      match balloc_scan (Z.to_nat (Z.min BPB (sb_size sb - b))) 0 d with
      | Some bi =>
        bstore bp (set_bit bi);;     (* Mark block in use. *)
        fs_log_write bp;;
        fs_brelse bp;;
        bzero dev (b + bi);;
        mret (b + bi)
      | None => fs_brelse bp;; balloc_loop fuel dev (b + BPB)
      end
    else mret 0   (* printf("balloc: out of blocks\n") *)
  end.

Definition balloc (dev : Z) : M fstate Z :=
  sb ← gets fs_sb;
  balloc_loop (S (Z.to_nat (sb_size sb))) dev 0.

Definition bfree (dev b : Z) : M fstate unit :=
  sb ← gets fs_sb;
  bp ← fs_bread dev (BBLOCK b sb);
  let bi := b mod BPB in
  d ← bdata bp;
  if bit_used d bi then
    bstore bp (clear_bit bi);;
    fs_log_write bp;;
    fs_brelse bp
  else panic "freeing free block".

(** ** The inode table *)

Definition geti (i : nat) (s : fstate) : inode := itab s !!! i.
Definition updi (i : nat) (f : inode → inode) : M fstate unit := modify (λ s, set_itab (alter f i (itab s)) s).

Definition i_set_ref (r : Z) (x : inode) : inode :=
  Inode (i_dev x) (i_inum x) r (i_lock x) (i_valid x) (i_type x) (i_major x) (i_minor x) (i_nlink x) (i_size x) (i_addrs x).
Definition i_set_lock (k : sleeplock) (x : inode) : inode :=
  Inode (i_dev x) (i_inum x) (i_ref x) k (i_valid x) (i_type x) (i_major x) (i_minor x) (i_nlink x) (i_size x) (i_addrs x).
Definition i_set_valid (v : bool) (x : inode) : inode :=
  Inode (i_dev x) (i_inum x) (i_ref x) (i_lock x) v (i_type x) (i_major x) (i_minor x) (i_nlink x) (i_size x) (i_addrs x).
Definition i_set_type (t : Z) (x : inode) : inode :=
  Inode (i_dev x) (i_inum x) (i_ref x) (i_lock x) (i_valid x) t (i_major x) (i_minor x) (i_nlink x) (i_size x) (i_addrs x).
Definition i_set_nlink (n : Z) (x : inode) : inode :=
  Inode (i_dev x) (i_inum x) (i_ref x) (i_lock x) (i_valid x) (i_type x) (i_major x) (i_minor x) n (i_size x) (i_addrs x).
Definition i_set_dev (mj mn : Z) (x : inode) : inode :=
  Inode (i_dev x) (i_inum x) (i_ref x) (i_lock x) (i_valid x) (i_type x) mj mn (i_nlink x) (i_size x) (i_addrs x).
Definition i_set_size (z : Z) (x : inode) : inode :=
  Inode (i_dev x) (i_inum x) (i_ref x) (i_lock x) (i_valid x) (i_type x) (i_major x) (i_minor x) (i_nlink x) z (i_addrs x).
Definition i_set_addrs (l : list Z) (x : inode) : inode :=
  Inode (i_dev x) (i_inum x) (i_ref x) (i_lock x) (i_valid x) (i_type x) (i_major x) (i_minor x) (i_nlink x) (i_size x) l.
(** What iget() stores in a recycled entry. *)
Definition i_recycle (dev inum : Z) (x : inode) : inode :=
  Inode dev inum 1 (i_lock x) false (i_type x) (i_major x) (i_minor x) (i_nlink x) (i_size x) (i_addrs x).
(** What ilock() copies from the disk. *)
Definition i_load (d : dinode) (x : inode) : inode :=
  Inode (i_dev x) (i_inum x) (i_ref x) (i_lock x) (i_valid x) (d_type d) (d_major d) (d_minor d) (d_nlink d) (d_size d) (d_addrs d).
(** What iupdate() copies to the disk. *)
Definition i_dinode (x : inode) : dinode :=
  Dinode (i_type x) (i_major x) (i_minor x) (i_nlink x) (i_size x) (i_addrs x).

Definition acquire_itable : M fstate unit := acquire_flag it_lock set_it_lock.
Definition release_itable : M fstate unit := release_flag it_lock set_it_lock.

(** wakeup(): recorded for the process table. *)
Definition fwakeup (c : chan) : M fstate unit :=
  modify (λ s, FState (fs_sb s) (it_lock s) (itab s) (fs_bl s) (fs_um s) (fs_woke s ++ [c])).
Definition getilk (i : nat) (s : fstate) : sleeplock := i_lock (geti i s).
Definition setilk (i : nat) (k : sleeplock) (s : fstate) : fstate := set_itab (alter (i_set_lock k) i (itab s)) s.

(** [for(i = 0; i < NINODE; i++)], [k] inodes to go. *)
Fixpoint iinit_loop (k i : nat) : M fstate unit :=
  match k with
  | O => mret tt
  | S k => initsleeplock (getilk i) (setilk i) "inode";; iinit_loop k (S i)
  end.
Definition iinit : M fstate unit := modify (set_it_lock false);; iinit_loop NINODE 0.

(** The search loop of iget(): the entry of the inode, else the first empty
    entry. *)
Fixpoint iget_loop (l : list inode) (ip : nat) (dev inum : Z) (empty : option nat) : nat + option nat :=
  match l with
  | [] => inr empty
  | x :: l =>
    if (0 <? i_ref x) && (i_dev x =? dev) && (i_inum x =? inum) then inl ip
    else iget_loop l (S ip) dev inum
           (match empty with None => if i_ref x =? 0 then Some ip else None | Some e => Some e end)
  end.

Definition iget (dev inum : Z) : M fstate nat :=
  acquire_itable;;
  l ← gets itab;
  match iget_loop l 0 dev inum None with
  | inl ip => updi ip (λ x, i_set_ref (i_ref x + 1) x);; release_itable;; mret ip
  | inr None => panic "iget: no inodes"
  | inr (Some ip) => updi ip (i_recycle dev inum);; release_itable;; mret ip
  end.

(** The loop of ialloc() from inode [inum] on. *)
Fixpoint ialloc_loop (fuel : nat) (dev type inum : Z) : M fstate (option nat) :=
  match fuel with
  | O => no_fuel
  | S fuel =>
    sb ← gets fs_sb;
    if inum <? sb_ninodes sb then
      bp ← fs_bread dev (IBLOCK inum sb);
      d ← bdata bp;
      if d_type (get_dinode d (inum mod IPB)) =? 0 then   (* a free inode *)
        bstore bp (λ d, put_dinode d (inum mod IPB) (Dinode type 0 0 0 0 (replicate 13 0)));;
        fs_log_write bp;;    (* mark it allocated on the disk *)
        fs_brelse bp;;
        ip ← iget dev inum;
        mret (Some ip)
      else
      fs_brelse bp;;
      ialloc_loop fuel dev type (inum + 1)
    else mret None   (* printf("ialloc: no inodes\n") *)
  end.

Definition ialloc (dev type : Z) : M fstate (option nat) :=
  sb ← gets fs_sb;
  ialloc_loop (S (Z.to_nat (sb_ninodes sb))) dev type 1.

Definition iupdate (ip : nat) : M fstate unit :=
  sb ← gets fs_sb;
  x ← gets (geti ip);
  bp ← fs_bread (i_dev x) (IBLOCK (i_inum x) sb);
  bstore bp (λ d, put_dinode d (i_inum x mod IPB) (i_dinode x));;
  fs_log_write bp;;
  fs_brelse bp.

Definition idup (ip : nat) : M fstate nat :=
  acquire_itable;;
  updi ip (λ x, i_set_ref (i_ref x + 1) x);;
  release_itable;;
  mret ip.

Definition iacquiresleep (ip : nat) : M fstate unit := acquiresleep (getilk ip) (setilk ip) (ChanInodeLock ip) pid.
Definition ireleasesleep (ip : nat) : M fstate unit := releasesleep (getilk ip) (setilk ip) (ChanInodeLock ip) fwakeup.
Definition iholdingsleep (ip : nat) : M fstate bool := holdingsleep (getilk ip) (setilk ip) pid.

Definition ilock (ip : nat) : M fstate unit :=
  x ← gets (geti ip);
  if i_ref x <? 1 then panic "ilock" else
  iacquiresleep ip;;
  x ← gets (geti ip);
  if i_valid x then mret tt else
  sb ← gets fs_sb;
  bp ← fs_bread (i_dev x) (IBLOCK (i_inum x) sb);
  d ← bdata bp;
  updi ip (i_load (get_dinode d (i_inum x mod IPB)));;
  fs_brelse bp;;
  updi ip (i_set_valid true);;
  x ← gets (geti ip);
  if i_type x =? 0 then panic "ilock: no type" else mret tt.

Definition iunlock (ip : nat) : M fstate unit :=
  h ← iholdingsleep ip;
  x ← gets (geti ip);
  if negb h || (i_ref x <? 1) then panic "iunlock" else ireleasesleep ip.

(** ** Inode content *)

Definition set_addr (k : nat) (a : Z) (x : inode) : inode := i_set_addrs (<[k := a]> (i_addrs x)) x.
(** [a[k]] of an indirect block. *)
Definition ind_get (d : block) (k : Z) : Z := get32 d (4 * k).
Definition ind_put (k a : Z) (d : block) : block := put32 d (4 * k) a.

(** The address in ip->addrs[k], allocated if it is 0. *)
Definition addr_or_alloc (ip k : nat) : M fstate Z :=
  x ← gets (geti ip);
  let addr := i_addrs x !!! k in
  if addr =? 0 then
    addr ← balloc (i_dev x);
    if addr =? 0 then mret 0 else
    updi ip (set_addr k addr);;
    mret addr
  else mret addr.

Definition bmap (ip : nat) (bn : Z) : M fstate Z :=
  if bn <? NDIRECT then addr_or_alloc ip (Z.to_nat bn) else
  let bn := bn - NDIRECT in
  if bn <? NINDIRECT then
    (* Load indirect block, allocating if necessary. *)
    addr ← addr_or_alloc ip (Z.to_nat NDIRECT);
    if addr =? 0 then mret 0 else
    x ← gets (geti ip);
    bp ← fs_bread (i_dev x) addr;
    d ← bdata bp;
    let addr := ind_get d bn in
    addr ← (if addr =? 0 then
              addr ← balloc (i_dev x);
              (if addr =? 0 then mret tt else bstore bp (ind_put bn addr);; fs_log_write bp);;
              mret addr
            else mret addr);
    fs_brelse bp;;
    mret addr
  else panic "bmap: out of range".

(** [for(i = 0; i < NDIRECT; i++)], [k] addresses to go. *)
Fixpoint itrunc_direct (k : nat) (ip i : nat) : M fstate unit :=
  match k with
  | O => mret tt
  | S k =>
    x ← gets (geti ip);
    (if i_addrs x !!! i =? 0 then mret tt else bfree (i_dev x) (i_addrs x !!! i);; updi ip (set_addr i 0));;
    itrunc_direct k ip (S i)
  end.

(** [for(j = 0; j < NINDIRECT; j++)], [k] entries of the indirect block to go. *)
Fixpoint itrunc_indirect (k : nat) (dev : Z) (bp : nat) (j : Z) : M fstate unit :=
  match k with
  | O => mret tt
  | S k =>
    d ← bdata bp;
    (if ind_get d j =? 0 then mret tt else bfree dev (ind_get d j));;
    itrunc_indirect k dev bp (j + 1)
  end.

Definition itrunc (ip : nat) : M fstate unit :=
  itrunc_direct (Z.to_nat NDIRECT) ip 0;;
  x ← gets (geti ip);
  let a := i_addrs x !!! Z.to_nat NDIRECT in
  (if a =? 0 then mret tt else
     bp ← fs_bread (i_dev x) a;
     itrunc_indirect (Z.to_nat NINDIRECT) (i_dev x) bp 0;;
     fs_brelse bp;;
     bfree (i_dev x) a;;
     updi ip (set_addr (Z.to_nat NDIRECT) 0));;
  updi ip (i_set_size 0);;
  iupdate ip.

Definition iput (ip : nat) : M fstate unit :=
  acquire_itable;;
  x ← gets (geti ip);
  (if (i_ref x =? 1) && i_valid x && (i_nlink x =? 0) then
     (* inode has no links and no other references: truncate and free. *)
     iacquiresleep ip;;
     release_itable;;
     itrunc ip;;
     updi ip (i_set_type 0);;
     iupdate ip;;
     updi ip (i_set_valid false);;
     ireleasesleep ip;;
     acquire_itable
   else mret tt);;
  updi ip (λ x, i_set_ref (i_ref x - 1) x);;
  release_itable.

Definition iunlockput (ip : nat) : M fstate unit := iunlock ip;; iput ip.

(** stati(): the fields of [struct stat]. *)
Record stat := Stat { st_dev : Z; st_ino : Z; st_type : Z; st_nlink : Z; st_size : Z }.
Definition stati (ip : nat) : M fstate stat :=
  x ← gets (geti ip);
  mret (Stat (i_dev x) (i_inum x) (i_type x) (i_nlink x) (i_size x)).

(** ** readi and writei

    A kernel destination receives the bytes as a list; a kernel source is the
    list of its bytes. *)
Inductive dst := UserDst (va : Z) | KernDst.
Inductive src := UserSrc (va : Z) | KernSrc (bytes : list byte).

(** either_copyout() of the bytes [l] at [tot] bytes from the destination's
    start; the bytes a kernel destination has received so far are [acc]. *)
Definition either_copyout (d : dst) (tot : Z) (l acc : list byte) : M fstate (bool * list byte) :=
  match d with
  | UserDst va => λ s, let '(ok, u) := um_copyout (u64 (va + tot)) l (fs_um s) in Ret (ok, acc) (set_fs_um u s)
  | KernDst => mret (true, acc ++ l)
  end.

(** either_copyin() of [m] bytes at [tot] bytes from the source's start. *)
Definition either_copyin (x : src) (tot : Z) (m : Z) : M fstate (bool * list byte) :=
  match x with
  | UserSrc va => gets (λ s, um_copyin (u64 (va + tot)) (Z.to_nat m) (fs_um s))
  | KernSrc l => mret (true, blk_get l tot (Z.to_nat m))
  end.

Fixpoint readi_loop (fuel ip : nat) (d : dst) (tot off n : Z) (acc : list byte) : M fstate (Z * list byte) :=
  match fuel with
  | O => no_fuel
  | S fuel =>
    if tot <? n then
      addr ← bmap ip (off / BSIZE);
      if addr =? 0 then mret (tot, acc) else
      x ← gets (geti ip);
      bp ← fs_bread (i_dev x) addr;
      let m := Z.min (n - tot) (BSIZE - off mod BSIZE) in
      data ← bdata bp;
      r ← either_copyout d tot (blk_get data (off mod BSIZE) (Z.to_nat m)) acc;
      if r.1 : bool then
        fs_brelse bp;;
        readi_loop fuel ip d (tot + m) (off + m) n r.2
      else
        fs_brelse bp;; mret (-1, r.2)
    else mret (tot, acc)
  end.

Definition readi (ip : nat) (d : dst) (off n : Z) : M fstate (Z * list byte) :=
  x ← gets (geti ip);
  if (i_size x <? off) || (u32 (off + n) <? off) then mret (0, []) else
  let n := if i_size x <? u32 (off + n) then i_size x - off else n in
  readi_loop (S (Z.to_nat n)) ip d 0 off n [].

Fixpoint writei_loop (fuel ip : nat) (w : src) (tot off n : Z) : M fstate (Z * Z) :=
  match fuel with
  | O => no_fuel
  | S fuel =>
    if tot <? n then
      addr ← bmap ip (off / BSIZE);
      if addr =? 0 then mret (tot, off) else
      x ← gets (geti ip);
      bp ← fs_bread (i_dev x) addr;
      let m := Z.min (n - tot) (BSIZE - off mod BSIZE) in
      r ← either_copyin w tot m;
      (* the bytes copied are in bp->data even when the copy fails half-way *)
      bstore bp (λ d, blk_put d (off mod BSIZE) r.2);;
      if r.1 : bool then
        fs_log_write bp;;
        fs_brelse bp;;
        writei_loop fuel ip w (tot + m) (off + m) n
      else
        fs_brelse bp;; mret (tot, off)
    else mret (tot, off)
  end.

Definition writei (ip : nat) (w : src) (off n : Z) : M fstate Z :=
  x ← gets (geti ip);
  if (i_size x <? off) || (u32 (off + n) <? off) then mret (-1) else
  if MAXFILE * BSIZE <? u32 (off + n) then mret (-1) else
  r ← writei_loop (S (Z.to_nat n)) ip w 0 off n;
  x ← gets (geti ip);
  (if i_size x <? r.2 then updi ip (i_set_size r.2) else mret tt);;
  (* write the i-node back to disk even if the size didn't change *)
  iupdate ip;;
  mret r.1.

(** ** Directories *)

(** strncmp() of two byte strings read up to [n] bytes or a NUL. *)
Fixpoint strncmp_bytes (p q : list byte) (n : nat) : Z :=
  match n with
  | O => 0
  | S n =>
    let a := byte.unsigned (hd Byte.x00 p) in
    let b := byte.unsigned (hd Byte.x00 q) in
    if negb (a =? 0) && (a =? b) then strncmp_bytes (tl p) (tl q) n else a - b
  end.
Definition namecmp (s t : list byte) : Z := strncmp_bytes s t DIRSIZ.

(** strncpy(): the bytes up to a NUL, padded with NULs to [n]. *)
Fixpoint strncpy_bytes (t : list byte) (n : nat) : list byte :=
  match n with
  | O => []
  | S n =>
    match t with
    | c :: t => if byte.unsigned c =? 0 then replicate (S n) Byte.x00 else c :: strncpy_bytes t n
    | [] => replicate (S n) Byte.x00
    end
  end.

Fixpoint dirlookup_loop (fuel dp : nat) (name : list byte) (off : Z) : M fstate (option (nat * Z)) :=
  match fuel with
  | O => no_fuel
  | S fuel =>
    x ← gets (geti dp);
    if off <? i_size x then
      r ← readi dp KernDst off sizeof_dirent;
      if negb (r.1 =? sizeof_dirent) then panic "dirlookup read" else
      let de := get_dirent r.2 in
      if negb (de_inum de =? 0) && (namecmp name (de_name de) =? 0) then
        ip ← iget (i_dev x) (de_inum de);
        mret (Some (ip, off))      (* *poff = off *)
      else dirlookup_loop fuel dp name (off + sizeof_dirent)
    else mret None
  end.

Definition dirlookup (dp : nat) (name : list byte) : M fstate (option (nat * Z)) :=
  x ← gets (geti dp);
  if negb (i_type x =? T_DIR) then panic "dirlookup not DIR" else
  dirlookup_loop (S (Z.to_nat (i_size x))) dp name 0.

(** The offset of the first empty entry of the directory, or its size. *)
Fixpoint dirlink_loop (fuel dp : nat) (off : Z) : M fstate Z :=
  match fuel with
  | O => no_fuel
  | S fuel =>
    x ← gets (geti dp);
    if off <? i_size x then
      r ← readi dp KernDst off sizeof_dirent;
      if negb (r.1 =? sizeof_dirent) then panic "dirlink read" else
      if de_inum (get_dirent r.2) =? 0 then mret off
      else dirlink_loop fuel dp (off + sizeof_dirent)
    else mret off
  end.

Definition dirlink (dp : nat) (name : list byte) (inum : Z) : M fstate Z :=
  r ← dirlookup dp name;   (* Check that name is not present. *)
  match r with
  | Some (ip, _) => iput ip;; mret (-1)
  | None =>
    x ← gets (geti dp);
    off ← dirlink_loop (S (Z.to_nat (i_size x))) dp 0;
    r ← writei dp (KernSrc (dirent_bytes (Dirent (u16 inum) (strncpy_bytes name DIRSIZ)))) off sizeof_dirent;
    mret (if r =? sizeof_dirent then 0 else -1)
  end.

End fs.
