(* ===== verification/FsBlocks.v ===== *)
(** * kernel/fs.c: blocks (bzero, balloc, bfree)

    [room b X k]: the log has room for the blocks [X] and [k] more, and the
    cache has buffers for them.  Functions that only use blocks change the
    state by [set_fs_bl]. *)

From stdpp Require Import base gmap sets strings numbers list.
From coqutil Require Import Byte Word.LittleEndianList.
From S2P Require Import Prelude Riscv Spinlock Block Sleeplock Fs.

(** ** Single bytes and bits of a block *)

Lemma get8_range b off : 0 ≤ get8 b off < 256.
Proof.
  unfold get8. pose proof (le_combine_bound (blk_get b off 1)) as H.
  assert (length (blk_get b off 1) ≤ 1)%nat by (unfold blk_get; rewrite length_take; lia).
  assert (2 ^ (8 * Z.of_nat (length (blk_get b off 1))) ≤ 2 ^ 8) by (apply Z.pow_le_mono_r; lia). lia.
Qed.

Lemma put8_length b off v : 0 ≤ off → off + 1 ≤ Z.of_nat (length b) → length (put8 b off v) = length b.
Proof. intros. apply blk_put_length; [done|]. rewrite length_le_split. lia. Qed.

Lemma get8_put8_eq b off v : 0 ≤ off → off + 1 ≤ Z.of_nat (length b) → get8 (put8 b off v) off = v mod 2 ^ 8.
Proof.
  intros. unfold get8, put8. rewrite <- (length_le_split 1 v) at 2.
  rewrite blk_get_put_eq by (rewrite ?length_le_split; lia). by rewrite le_combine_split.
Qed.

Lemma get8_put8_ne b off o v : 0 ≤ off → off + 1 ≤ Z.of_nat (length b) → 0 ≤ o → o ≠ off →
  get8 (put8 b off v) o = get8 b o.
Proof. intros. unfold get8, put8. f_equal. apply blk_get_put_ne; rewrite ?length_le_split; lia. Qed.

(** bit_used() is the bit [bi] of the block. *)
Lemma bit_used_testbit d bi : bit_used d bi = Z.testbit (get8 d (bi / 8)) (bi mod 8).
Proof.
  unfold bit_used. pose proof (Z.mod_pos_bound bi 8). set (m := bi mod 8) in *. set (x := get8 d (bi / 8)).
  assert (Hb : Z.land x (Z.shiftl 1 m) = if Z.testbit x m then 2 ^ m else 0).
  { rewrite Z.shiftl_1_l. apply Z.bits_inj'. intros n Hn. rewrite Z.land_spec, Z.pow2_bits_eqb by lia.
    destruct (Z.eqb_spec m n) as [<-|Hne].
    - destruct (Z.testbit x m); simpl; [by rewrite Z.pow2_bits_true by lia|by rewrite Z.bits_0].
    - rewrite andb_false_r. destruct (Z.testbit x m); [by rewrite Z.pow2_bits_false by lia|by rewrite Z.bits_0]. }
  rewrite Hb. destruct (Z.testbit x m); [|done]. destruct (Z.eqb_spec (2 ^ m) 0); [|done].
  pose proof (Z.pow_pos_nonneg 2 m). lia.
Qed.

Lemma byte_bits_mod x m : 0 ≤ m < 8 → Z.testbit (x mod 2 ^ 8) m = Z.testbit x m.
Proof. intros. by rewrite Z.mod_pow2_bits_low by lia. Qed.

Lemma bit_split a b : a ≠ b → a / 8 ≠ b / 8 ∨ (a / 8 = b / 8 ∧ a mod 8 ≠ b mod 8).
Proof.
  intros Hne. destruct (Z.eq_dec (a / 8) (b / 8)) as [E|]; [right; split; [done|]|by left].
  intros E2. apply Hne. rewrite (Z.div_mod a 8), (Z.div_mod b 8) by lia. lia.
Qed.

Section bits.
Context (d : block) (bi : Z) (Hd : block_ok d) (Hbi : 0 ≤ bi < BPB).

Lemma bit_off : 0 ≤ bi / 8 ∧ bi / 8 + 1 ≤ Z.of_nat (length d).
Proof using Hd Hbi.
  unfold block_ok in Hd. rewrite Hd. unfold BPB in Hbi. change BSIZE with 1024 in *.
  split; [apply Z.div_pos; lia|]. assert (bi / 8 < 1024) by (apply Z.div_lt_upper_bound; lia). lia.
Qed.

Lemma set_bit_ok : block_ok (set_bit bi d).
Proof using Hd Hbi. destruct bit_off. unfold block_ok, set_bit. by rewrite put8_length. Qed.
Lemma clear_bit_ok : block_ok (clear_bit bi d).
Proof using Hd Hbi. destruct bit_off. unfold block_ok, clear_bit. by rewrite put8_length. Qed.

Lemma bit_used_set c : 0 ≤ c → bit_used (set_bit bi d) c = if c =? bi then true else bit_used d c.
Proof using Hd Hbi.
  intros Hc. destruct bit_off as [H1 H2]. rewrite !bit_used_testbit. unfold set_bit.
  pose proof (Z.mod_pos_bound bi 8). pose proof (Z.mod_pos_bound c 8). pose proof (Z.div_pos c 8).
  destruct (Z.eqb_spec c bi) as [->|Hne].
  - rewrite get8_put8_eq by done. rewrite byte_bits_mod by lia.
    rewrite Z.lor_spec, Z.shiftl_1_l, Z.pow2_bits_true by lia. apply orb_true_r.
  - destruct (bit_split c bi Hne) as [?|[-> ?]]; [by rewrite get8_put8_ne by lia|].
    rewrite get8_put8_eq by done. rewrite byte_bits_mod by lia.
    rewrite Z.lor_spec, Z.shiftl_1_l, Z.pow2_bits_false by lia. apply orb_false_r.
Qed.

Lemma bit_used_clear c : 0 ≤ c → bit_used (clear_bit bi d) c = if c =? bi then false else bit_used d c.
Proof using Hd Hbi.
  intros Hc. destruct bit_off as [H1 H2]. rewrite !bit_used_testbit. unfold clear_bit.
  pose proof (Z.mod_pos_bound bi 8). pose proof (Z.mod_pos_bound c 8). pose proof (Z.div_pos c 8).
  destruct (Z.eqb_spec c bi) as [->|Hne].
  - rewrite get8_put8_eq by done. rewrite byte_bits_mod by lia.
    rewrite Z.land_spec, Z.lnot_spec, Z.shiftl_1_l, Z.pow2_bits_true by lia. apply andb_false_r.
  - destruct (bit_split c bi Hne) as [?|[-> ?]]; [by rewrite get8_put8_ne by lia|].
    rewrite get8_put8_eq by done. rewrite byte_bits_mod by lia.
    rewrite Z.land_spec, Z.lnot_spec, Z.shiftl_1_l, Z.pow2_bits_false by lia. apply andb_true_r.
Qed.
End bits.

(** The scan finds the first clear bit. *)
Lemma balloc_scan_Some k bi d r : balloc_scan k bi d = Some r →
  bi ≤ r < bi + Z.of_nat k ∧ bit_used d r = false ∧ ∀ j, bi ≤ j < r → bit_used d j = true.
Proof.
  revert bi. induction k as [|k IH]; intros bi E; [done|]. simpl in E. destruct (bit_used d bi) eqn:Eb.
  - apply IH in E as (? & ? & Hj). split_and!; try lia; try done. intros j Hj'.
    destruct (Z.eq_dec j bi) as [->|]; [done|]. apply Hj. lia.
  - injection E as <-. split; [lia|]. split; [done|]. intros j ?. lia.
Qed.

Lemma balloc_scan_None k bi d : balloc_scan k bi d = None → ∀ j, bi ≤ j < bi + Z.of_nat k → bit_used d j = true.
Proof.
  revert bi. induction k as [|k IH]; intros bi E j Hj; [lia|]. simpl in E. destruct (bit_used d bi) eqn:Eb; [|done].
  destruct (Z.eq_dec j bi) as [->|]; [done|]. apply (IH (bi + 1)); [done|lia].
Qed.

(** ** Room in the log *)

Lemma gets_bind' {S A C} (f : S → A) (k : A → M S C) s : (gets f ≫= k) s = k (f s) s.
Proof. done. Qed.

Section blocks.
Context {B : BlockLayer} {U : UserMem}.

Definition room (b : bl_state) (X : gset Z) (k : nat) : Prop :=
  (size (bl_logged b ∪ X) + k ≤ bl_limit b)%nat ∧ (size (bl_logged b ∪ X) + k + 3 ≤ NBUF)%nat.

Lemma room_mono b X Y k j : room b X k → Y ⊆ X → (j ≤ k)%nat → room b Y j.
Proof.
  intros [H1 H2] HY Hj. assert (size (bl_logged b ∪ Y) ≤ size (bl_logged b ∪ X))%nat by (apply subseteq_size; set_solver).
  split; lia.
Qed.

Lemma room_same b b' X k : bl_logged b' = bl_logged b → bl_limit b' = bl_limit b → room b X k → room b' X k.
Proof. unfold room. by intros -> ->. Qed.

Lemma room_in b b' X k bn : bn ∈ X → bl_logged b' = {[bn]} ∪ bl_logged b → bl_limit b' = bl_limit b →
  room b X k → room b' X k ∧ (size ({[bn]} ∪ bl_logged b) ≤ bl_limit b)%nat.
Proof.
  intros Hin Hl Hlim [H1 H2]. unfold room. rewrite Hl, Hlim.
  replace ({[bn]} ∪ bl_logged b ∪ X) with (bl_logged b ∪ X) by set_solver.
  assert (size ({[bn]} ∪ bl_logged b) ≤ size (bl_logged b ∪ X))%nat by (apply subseteq_size; set_solver). lia.
Qed.

Lemma room_new b b' X k bn : bl_logged b' = {[bn]} ∪ bl_logged b → bl_limit b' = bl_limit b →
  room b X (S k) → room b' X k ∧ (size ({[bn]} ∪ bl_logged b) ≤ bl_limit b)%nat.
Proof.
  intros Hl Hlim [H1 H2]. unfold room. rewrite Hl, Hlim.
  assert (size ({[bn]} ∪ bl_logged b ∪ X) ≤ 1 + size (bl_logged b ∪ X))%nat.
  { rewrite <- (union_assoc_L {[bn]}), size_union_alt, size_singleton.
    assert (size ((bl_logged b ∪ X) ∖ {[bn]}) ≤ size (bl_logged b ∪ X))%nat by (apply subseteq_size; set_solver). lia. }
  assert (size ({[bn]} ∪ bl_logged b) ≤ size ({[bn]} ∪ bl_logged b ∪ X))%nat by (apply subseteq_size; set_solver). lia.
Qed.

(** [bn] can be logged, leaving room for [X] and [k] more. *)
Definition can_log (b : bl_state) (X : gset Z) (k : nat) (bn : Z) : Prop := (bn ∈ X ∧ room b X k) ∨ room b X (S k).

Lemma can_log_room b X k bn : can_log b X k bn → room b X k.
Proof. intros [[_ H]|H]; [done|]. eapply room_mono; [exact H|done|lia]. Qed.

Lemma can_log_same b b' X k bn : bl_logged b' = bl_logged b → bl_limit b' = bl_limit b → can_log b X k bn → can_log b' X k bn.
Proof. intros Hl Hm [[? H]|H]; [left; split; [done|]|right]; by eapply room_same. Qed.

Lemma can_log_log b b' X k bn : can_log b X k bn → bl_logged b' = {[bn]} ∪ bl_logged b → bl_limit b' = bl_limit b →
  room b' X k ∧ (size ({[bn]} ∪ bl_logged b) ≤ bl_limit b)%nat.
Proof. intros [[? H]|H] ? ?; [by eapply room_in|by eapply room_new]. Qed.

Lemma room_buffers b X k : room b X k → (size (bl_logged b) + 3 ≤ NBUF)%nat.
Proof. intros [_ H]. assert (size (bl_logged b) ≤ size (bl_logged b ∪ X))%nat by (apply subseteq_size; set_solver). lia. Qed.

(** ** Running block operations *)

Lemma bl_bind {A C} (m : M bl_state A) (k : A → M fstate C) s a b :
  m (fs_bl s) = Ret a b → (bl m ≫= k) s = k a (set_fs_bl b s).
Proof. intros E. unfold bl. by rewrite (bind_Ret _ _ _ _ _ (zoom_Ret _ _ _ _ _ _ E)). Qed.

Lemma bl_run {A} (m : M bl_state A) s a b : m (fs_bl s) = Ret a b → bl m s = Ret a (set_fs_bl b s).
Proof. intros E. exact (zoom_Ret fs_bl set_fs_bl m s a b E). Qed.

Lemma bdata_bind {C} i (k : block → M fstate C) s : (bdata i ≫= k) s = k (bl_data i (fs_bl s)) s.
Proof. unfold bdata, bl, zoom, gets, mbind, M_bind. by destruct s. Qed.

Lemma set_fs_bl_id s : set_fs_bl (fs_bl s) s = s.
Proof. by destruct s. Qed.

(** Logging and releasing the buffer on top of the stack, after a change. *)
Lemma change_run b i bn f H g X k : bl_txn b (Held i bn f :: H) → can_log b X k bn → block_ok (g (bl_view b bn)) →
  ∃ b1 b2 b3, bl_modify i g b = Ret tt b1 ∧ bl_log_write i b1 = Ret tt b2 ∧ bl_brelse i b2 = Ret tt b3 ∧
  bl_txn b2 (Held i bn false :: H) ∧ bl_txn b3 H ∧ room b3 X k ∧ room b2 X k ∧
  (∀ x, bl_view b2 x = if x =? bn then g (bl_view b bn) else bl_view b x) ∧
  (∀ x, bl_view b3 x = if x =? bn then g (bl_view b bn) else bl_view b x).
Proof.
  intros Ht Hc Hg. destruct (modify_law b i bn f H g Ht Hg) as (b1 & E1 & Ht1 & Hv1 & Hl1 & Hm1).
  destruct (log_write_law b1 i bn true H Ht1) as (b2 & E2 & Ht2 & Hv2 & Hl2 & Hm2).
  { rewrite Hl1, Hm1. destruct Hc as [[Hin [H1 H2]]|[H1 H2]].
    - assert (size ({[bn]} ∪ bl_logged b) ≤ size (bl_logged b ∪ X))%nat by (apply subseteq_size; set_solver). lia.
    - rewrite size_union_alt, size_singleton. assert (size (bl_logged b ∖ {[bn]}) ≤ size (bl_logged b ∪ X))%nat by (apply subseteq_size; set_solver). lia. }
  destruct (brelse_law b2 i bn H Ht2) as (b3 & E3 & Ht3 & Hv3 & Hl3 & Hm3).
  assert (Hr2 : room b2 X k).
  { apply (can_log_log b b2 X k bn Hc); [by rewrite Hl2, Hl1|by rewrite Hm2, Hm1]. }
  exists b1, b2, b3. split_and!; try done.
  - by apply (room_same b2).
  - intros x. by rewrite Hv2, Hv1.
  - intros x. by rewrite Hv3, Hv2, Hv1.
Qed.

(** bread() of block [bn]. *)
Lemma bread_run b H bn X k : bl_txn b H → bl_home bn → bn ∉ hd_bn <$> H → (length H ≤ 2)%nat → room b X k →
  ∃ i b', bl_bread ROOTDEV bn b = Ret i b' ∧ bl_txn b' (Held i bn false :: H) ∧ bl_data i b' = bl_view b bn ∧
  (∀ x, bl_view b' x = bl_view b x) ∧ bl_logged b' = bl_logged b ∧ bl_limit b' = bl_limit b ∧ room b' X k.
Proof.
  intros Ht Hh Hn Hl Hr. destruct (bread_law b H bn Ht Hh Hn Hl (room_buffers _ _ _ Hr)) as (i & b' & E & Ht' & Hv & Hlg & Hm).
  exists i, b'. split_and!; try done; [|by apply (room_same b)]. rewrite <- Hv. by eapply bl_data_law.
Qed.

Lemma bzero_spec s H bn X k : bl_txn (fs_bl s) H → bl_home bn → bn ∉ hd_bn <$> H → (length H ≤ 2)%nat →
  can_log (fs_bl s) X k bn → ∃ b, bzero ROOTDEV bn s = Ret tt (set_fs_bl b s) ∧ bl_txn b H ∧ room b X k ∧
  ∀ x, bl_view b x = if x =? bn then zero_block else bl_view (fs_bl s) x.
Proof.
  intros Ht Hh Hn Hl Hc. destruct (bread_run _ H bn X k Ht Hh Hn Hl (can_log_room _ _ _ _ Hc)) as (i & b1 & E1 & Ht1 & _ & Hv1 & Hl1 & Hm1 & _).
  destruct (change_run b1 i bn false H (λ _, zero_block) X k Ht1) as (b2 & b3 & b4 & E2 & E3 & E4 & _ & Ht4 & Hr4 & _ & _ & Hv4).
  { by eapply can_log_same. } { apply zero_block_ok. }
  exists b4. split_and!; try done.
  - unfold bzero, fs_bread, bstore, fs_log_write, fs_brelse. rewrite (bl_bind _ _ s _ _ E1).
    rewrite (bl_bind _ _ (set_fs_bl b1 s) _ _ E2), (bl_bind _ _ (set_fs_bl b2 s) _ _ E3).
    exact (bl_run _ (set_fs_bl b3 s) _ _ E4).
  - intros x. rewrite Hv4, Hv1. done.
Qed.
End blocks.
