(* ===== verification/FsAlloc.v ===== *)
(** * kernel/fs.c: the block allocator

    [layout sb] is what mkfs guarantees of the super block; [bused v sb b] is
    the bit of block [b] in the free map; [free_ok] says that only data
    blocks are free. *)

From stdpp Require Import base gmap sets strings numbers list.
From coqutil Require Import Byte Word.LittleEndianList.
From S2P Require Import Prelude Riscv Spinlock Block Sleeplock Fs FsBlocks.

Definition bused (v : Z → block) (sb : superblock) (b : Z) : bool := bit_used (v (BBLOCK b sb)) (b mod BPB).

(** The first data block: mkfs reserves size / BPB + 1 blocks for the map. *)
Definition dstart (sb : superblock) : Z := sb_bmapstart sb + sb_size sb / BPB + 1.

(** Block [x] belongs to the free map. *)
Definition in_bmap (sb : superblock) (x : Z) : Prop := sb_bmapstart sb ≤ x < dstart sb.

Lemma BPB_val : BPB = 8192.
Proof. reflexivity. Qed.

Section alloc.
Context {B : BlockLayer} {U : UserMem}.

Record layout (sb : superblock) : Prop := {
  ly_start : 0 < sb_inodestart sb ≤ sb_bmapstart sb;
  ly_data : dstart sb ≤ sb_size sb;
  ly_inodes i : 0 ≤ i < sb_ninodes sb → IBLOCK i sb < sb_bmapstart sb;
  ly_home x : sb_inodestart sb ≤ x < sb_size sb → bl_home x
}.

Definition free_ok (v : Z → block) (sb : superblock) : Prop :=
  ∀ b, 0 ≤ b < sb_size sb → bused v sb b = false → dstart sb ≤ b.

(** The held blocks are data blocks in use. *)
Definition stack_ok (v : Z → block) (sb : superblock) (H : list held) : Prop :=
  ∀ h, h ∈ H → dstart sb ≤ hd_bn h < sb_size sb ∧ bused v sb (hd_bn h) = true.

Section one.
Context (sb : superblock) (Hly : layout sb).

Lemma BBLOCK_in b : 0 ≤ b < sb_size sb → in_bmap sb (BBLOCK b sb).
Proof using Type.
  intros Hb. unfold in_bmap, BBLOCK, dstart. rewrite BPB_val. pose proof (Z.div_pos b 8192).
  assert (b / 8192 ≤ sb_size sb / 8192) by (apply Z.div_le_mono; lia). lia.
Qed.

Lemma in_bmap_home x : in_bmap sb x → bl_home x ∧ sb_inodestart sb ≤ x < sb_size sb.
Proof using Hly. intros [H1 H2]. destruct Hly. split; [apply ly_home0|]; lia. Qed.

Lemma stack_not_bmap v H x : stack_ok v sb H → in_bmap sb x → x ∉ hd_bn <$> H.
Proof using Type. intros Hs [_ Hx] (h & -> & Hin)%list_elem_of_fmap. destruct (Hs h Hin). lia. Qed.

Lemma stack_not_free v H x : stack_ok v sb H → bused v sb x = false → x ∉ hd_bn <$> H.
Proof using Type. intros Hs Hx (h & -> & Hin)%list_elem_of_fmap. destruct (Hs h Hin). congruence. Qed.

Lemma BBLOCK_chunk b bi : 0 ≤ bi < BPB → b mod BPB = 0 → BBLOCK (b + bi) sb = BBLOCK b sb ∧ (b + bi) mod BPB = bi.
Proof using Type.
  unfold BBLOCK. rewrite BPB_val. intros Hbi Hb.
  assert (E : b = 8192 * (b / 8192)) by (pose proof (Z.div_mod b 8192); lia).
  assert ((b + bi) / 8192 = b / 8192) as -> by (symmetry; apply (Z.div_unique _ _ _ bi); lia). split; [done|].
  symmetry. apply (Z.mod_unique _ _ (b / 8192)); lia.
Qed.

(** The effect of changing one bit of the free map. *)
Lemma bused_upd v v' g a f : 0 ≤ a < sb_size sb →
  (∀ x, block_ok (v x)) →
  (∀ d c, block_ok d → 0 ≤ c < BPB → bit_used (g (a mod BPB) d) c = if c =? a mod BPB then f else bit_used d c) →
  (∀ x, in_bmap sb x → v' x = if x =? BBLOCK a sb then g (a mod BPB) (v x) else v x) →
  ∀ c, 0 ≤ c < sb_size sb → bused v' sb c = if c =? a then f else bused v sb c.
Proof using Type.
  intros Ha Hok Hg Hv c Hc. unfold bused. rewrite Hv by (by apply BBLOCK_in).
  pose proof (Z.mod_pos_bound c BPB). pose proof (Z.mod_pos_bound a BPB). rewrite BPB_val in *.
  destruct (Z.eqb_spec (BBLOCK c sb) (BBLOCK a sb)) as [E|Hne].
  - rewrite Hg by (done || lia). destruct (Z.eqb_spec c a) as [->|Hca]; [by rewrite Z.eqb_refl|].
    destruct (Z.eqb_spec (c mod 8192) (a mod 8192)) as [Em|]; [|done]. exfalso. apply Hca.
    unfold BBLOCK in E. rewrite BPB_val in E. rewrite (Z.div_mod c 8192), (Z.div_mod a 8192) by lia. lia.
  - destruct (Z.eqb_spec c a) as [->|]; done.
Qed.

Context (X : gset Z) (HX : ∀ x, in_bmap sb x → x ∈ X).

(** What balloc() does when it succeeds with block [a]. *)
Definition allocated (v v' : Z → block) (a : Z) : Prop :=
  dstart sb ≤ a < sb_size sb ∧ bused v sb a = false ∧
  (∀ c, 0 ≤ c < sb_size sb → bused v' sb c = if c =? a then true else bused v sb c) ∧
  (∀ x, ¬ in_bmap sb x → v' x = if x =? a then zero_block else v x).

Lemma balloc_loop_spec fuel s H k b : fs_sb s = sb → bl_txn (fs_bl s) H → (length H ≤ 1)%nat →
  let v := bl_view (fs_bl s) in
  stack_ok v sb H → free_ok v sb → room (fs_bl s) X (S k) → 0 ≤ b → b mod BPB = 0 →
  (Z.to_nat (sb_size sb - b) < fuel)%nat → (∀ c, 0 ≤ c < b → c < sb_size sb → bused v sb c = true) →
  ∃ a b', balloc_loop fuel ROOTDEV b s = Ret a (set_fs_bl b' s) ∧ bl_txn b' H ∧ room b' X k ∧
  ((a ≠ 0 ∧ allocated v (bl_view b') a) ∨
   (a = 0 ∧ room b' X (S k) ∧ (∀ x, bl_view b' x = v x) ∧ ∀ c, 0 ≤ c < sb_size sb → bused v sb c = true)).
Proof using Hly HX.
  revert s b. induction fuel as [|fuel IH]; intros s b Hsb Ht Hlen v Hst Hfr Hr Hb Hbm Hf Hu; [lia|].
  cbn [balloc_loop]. rewrite gets_bind', Hsb. destruct (Z.ltb_spec b (sb_size sb)) as [Hlt|Hge].
  2: { exists 0, (fs_bl s). rewrite set_fs_bl_id. split_and!; try done; [eapply room_mono; [exact Hr|done|lia]|].
       right. split_and!; try done. intros c Hc. apply Hu; lia. }
  pose proof (BBLOCK_in b ltac:(lia)) as Hin. destruct (in_bmap_home _ Hin) as [Hh _].
  destruct (bread_run _ H (BBLOCK b sb) X (S k) Ht Hh (stack_not_bmap _ _ _ Hst Hin)) as (i & b1 & E1 & Ht1 & Hd1 & Hv1 & Hl1 & Hm1 & Hr1); [lia|done|].
  unfold fs_bread. rewrite (bl_bind _ _ s _ _ E1), bdata_bind. cbn [set_fs_bl fs_bl]. rewrite Hd1. fold v.
  set (n := Z.min BPB (sb_size sb - b)). assert (Hn : 0 < n ≤ BPB) by (unfold n; rewrite BPB_val in *; lia).
  destruct (balloc_scan (Z.to_nat n) 0 (v (BBLOCK b sb))) as [bi|] eqn:Esc.
  - apply balloc_scan_Some in Esc as (Hbi & Hfree & _). assert (Hbi' : 0 ≤ bi < BPB) by lia.
    assert (Ha : 0 ≤ b + bi < sb_size sb) by (unfold n in Hbi; lia).
    destruct (BBLOCK_chunk b bi Hbi' Hbm) as [Eb Em].
    assert (Huse : bused v sb (b + bi) = false) by (unfold bused; by rewrite Eb, Em).
    assert (Hvok : ∀ x, block_ok (v x)) by (intros x; by eapply bl_view_ok).
    destruct (change_run b1 i (BBLOCK b sb) false H (set_bit bi) X (S k) Ht1) as (b2 & b3 & b4 & E2 & E3 & E4 & _ & Ht4 & Hr4 & _ & _ & Hv4).
    { left. split; [by apply HX|done]. } { rewrite Hv1. by apply set_bit_ok. }
    unfold bstore. rewrite (bl_bind _ _ (set_fs_bl b1 s) _ _ E2). unfold fs_log_write. rewrite (bl_bind _ _ (set_fs_bl b2 s) _ _ E3).
    unfold fs_brelse. rewrite (bl_bind _ _ (set_fs_bl b3 s) _ _ E4).
    pose proof (Hfr _ Ha Huse) as Hds. destruct Hly.
    destruct (bzero_spec (set_fs_bl b4 s) H (b + bi) X k) as (b5 & E5 & Ht5 & Hr5 & Hv5); try done.
    { apply ly_home0. unfold dstart in Hds. rewrite BPB_val in *. pose proof (Z.div_pos (sb_size sb) 8192). lia. }
    { by eapply stack_not_free. } { lia. } { by right. }
    rewrite (bind_Ret _ _ _ _ _ E5). exists (b + bi), b5. split_and!; try done.
    left. split; [unfold dstart in Hds; rewrite BPB_val in *; pose proof (Z.div_pos (sb_size sb) 8192); lia|].
    cbn [set_fs_bl fs_bl] in Hv5. assert (Hnb : ¬ in_bmap sb (b + bi)) by (unfold in_bmap; lia). split; [lia|]. split; [done|]. split.
    + apply (bused_upd v _ set_bit (b + bi) true); try done.
      * intros d c Hd Hc. apply bit_used_set; [done| |lia]. rewrite Em. done.
      * intros x Hx. rewrite Hv5, Hv4, Eb, Em. destruct (Z.eqb_spec x (b + bi)) as [->|]; [done|].
        rewrite !Hv1. fold v. destruct (Z.eqb_spec x (BBLOCK b sb)) as [->|]; done.
    + intros x Hx. rewrite Hv5, Hv4. destruct (Z.eqb_spec x (b + bi)); [done|].
      destruct (Z.eqb_spec x (BBLOCK b sb)) as [->|]; [done|]. by rewrite Hv1.
  - destruct (brelse_law b1 i _ H Ht1) as (b2 & E2 & Ht2 & Hv2 & Hl2 & Hm2).
    unfold fs_brelse. rewrite (bl_bind _ _ (set_fs_bl b1 s) _ _ E2). change (set_fs_bl b2 (set_fs_bl b1 s)) with (set_fs_bl b2 s).
    assert (Hv : ∀ x, bl_view b2 x = v x) by (intros x; by rewrite Hv2, Hv1).
    destruct (IH (set_fs_bl b2 s) (b + BPB)) as (a & b' & E & Ht' & Hr' & Hcase); try done.
    + intros h Hin'. destruct (Hst h Hin') as [? ?]. split; [done|]. unfold bused in *. cbn [set_fs_bl fs_bl]. by rewrite Hv.
    + intros c Hc. unfold bused. cbn [set_fs_bl fs_bl]. rewrite Hv. by apply Hfr.
    + apply (room_same b1); [done|done|done].
    + rewrite BPB_val. lia.
    + rewrite BPB_val in *. rewrite <- Z.add_mod_idemp_l, Hbm by lia. done.
    + rewrite BPB_val. lia.
    + intros c Hc1 Hc2. unfold bused. cbn [set_fs_bl fs_bl]. rewrite Hv.
      destruct (Z.lt_ge_cases c b); [apply Hu; lia|].
      assert (Hsc := balloc_scan_None _ _ _ Esc (c - b) ltac:(unfold n; lia)).
      destruct (BBLOCK_chunk b (c - b) ltac:(lia) Hbm) as [Eb Em]. replace (b + (c - b)) with c in * by lia. by rewrite Eb, Em.
    + exists a, b'. rewrite E. split_and!; try done. cbn [set_fs_bl fs_bl] in Hcase.
      assert (Hbu : ∀ c, bused (bl_view b2) sb c = bused v sb c) by (intros c; unfold bused; by rewrite Hv).
      destruct Hcase as [(Ha & Hd & Hf' & Hbu' & Hx)|(Ha & ? & Hx & Hall)]; [left|right].
      * split; [done|]. rewrite Hbu in Hf'. split; [done|]. split; [done|]. split.
        -- intros c Hc. by rewrite Hbu', Hbu.
        -- intros x Hx'. by rewrite Hx, Hv.
      * split_and!; try done; [intros x; by rewrite Hx, Hv|]. intros c Hc. rewrite <- Hbu. by apply Hall.
Qed.

(** balloc() returns a zeroed block that was free, or 0 when none is. *)
Lemma balloc_spec s H k : fs_sb s = sb → bl_txn (fs_bl s) H → (length H ≤ 1)%nat →
  let v := bl_view (fs_bl s) in
  stack_ok v sb H → free_ok v sb → room (fs_bl s) X (S k) →
  ∃ a b', balloc ROOTDEV s = Ret a (set_fs_bl b' s) ∧ bl_txn b' H ∧ room b' X k ∧
  ((a ≠ 0 ∧ allocated v (bl_view b') a) ∨
   (a = 0 ∧ room b' X (S k) ∧ (∀ x, bl_view b' x = v x) ∧ ∀ c, 0 ≤ c < sb_size sb → bused v sb c = true)).
Proof using Hly HX.
  intros Hsb Ht Hlen v Hst Hfr Hr. unfold balloc. rewrite gets_bind', Hsb.
  apply balloc_loop_spec; try done; [lia|]. intros c Hc. lia.
Qed.

(** What bfree() of block [a] does. *)
Definition freed (v v' : Z → block) (a : Z) : Prop :=
  (∀ c, 0 ≤ c < sb_size sb → bused v' sb c = if c =? a then false else bused v sb c) ∧
  (∀ x, ¬ in_bmap sb x → v' x = v x).

Lemma bfree_run s H a k : fs_sb s = sb → bl_txn (fs_bl s) H → (length H ≤ 2)%nat →
  let v := bl_view (fs_bl s) in
  stack_ok v sb H → 0 ≤ a < sb_size sb → room (fs_bl s) X k →
  (bused v sb a = true → ∃ b', bfree ROOTDEV a s = Ret tt (set_fs_bl b' s) ∧ bl_txn b' H ∧ room b' X k ∧ freed v (bl_view b') a) ∧
  (bused v sb a = false → bfree ROOTDEV a s = Panic "freeing free block").
Proof using Hly HX.
  intros Hsb Ht Hlen v Hst Ha Hr. unfold bfree. rewrite gets_bind', Hsb.
  pose proof (BBLOCK_in a Ha) as Hin. destruct (in_bmap_home _ Hin) as [Hh _].
  destruct (bread_run _ H (BBLOCK a sb) X k Ht Hh (stack_not_bmap _ _ _ Hst Hin)) as (i & b1 & E1 & Ht1 & Hd1 & Hv1 & Hl1 & Hm1 & Hr1); [lia|done|].
  unfold fs_bread. rewrite (bl_bind _ _ s _ _ E1), bdata_bind. cbn [set_fs_bl fs_bl]. rewrite Hd1. fold v.
  change (bit_used (v (BBLOCK a sb)) (a mod BPB)) with (bused v sb a).
  split; intros Hu; rewrite Hu; [|done].
  assert (Hvok : ∀ x, block_ok (v x)) by (intros x; by eapply bl_view_ok).
  assert (Hm : 0 ≤ a mod BPB < BPB) by (apply Z.mod_pos_bound; done).
  destruct (change_run b1 i (BBLOCK a sb) false H (clear_bit (a mod BPB)) X k Ht1) as (b2 & b3 & b4 & E2 & E3 & E4 & _ & Ht4 & Hr4 & _ & _ & Hv4).
  { left. split; [by apply HX|done]. } { rewrite Hv1. by apply clear_bit_ok. }
  unfold bstore. rewrite (bl_bind _ _ (set_fs_bl b1 s) _ _ E2). unfold fs_log_write. rewrite (bl_bind _ _ (set_fs_bl b2 s) _ _ E3).
  exists b4. split_and!; try done; [exact (bl_run _ (set_fs_bl b3 s) _ _ E4)|]. split.
  - apply (bused_upd v _ clear_bit a false); try done.
    + intros d c Hd Hc. apply bit_used_clear; [done|done|lia].
    + intros x Hx. rewrite Hv4, !Hv1. fold v. destruct (Z.eqb_spec x (BBLOCK a sb)) as [->|]; done.
  - intros x Hx. rewrite Hv4. destruct (Z.eqb_spec x (BBLOCK a sb)) as [->|]; [done|]. by rewrite Hv1.
Qed.
End one.
End alloc.
