(* ===== verification/FsBmap.v ===== *)
(** * kernel/fs.c: bmap()

    [iaddr v al n] is the disk address of block [n] of a file with the
    addresses [al] (0: none).  [file_ok] is the invariant of one file: its
    blocks are data blocks in use and all different. *)

From stdpp Require Import base gmap sets strings numbers list.
From coqutil Require Import Byte Word.LittleEndianList.
From S2P Require Import Prelude Riscv Spinlock Block Sleeplock Fs FsBlocks FsAlloc.

Definition iaddr (v : Z → block) (al : list Z) (n : Z) : Z :=
  if n <? NDIRECT then al !!! Z.to_nat n
  else if al !!! 12%nat =? 0 then 0 else ind_get (v (al !!! 12%nat)) (n - NDIRECT).

Lemma fs_consts : NDIRECT = 12 ∧ NINDIRECT = 256 ∧ MAXFILE = 268 ∧ BSIZE = 1024.
Proof. done. Qed.

(** [fsnorm]: make the constants of fs.h visible to lia. *)
Ltac fsnorm := change NDIRECT with 12 in *; change NINDIRECT with 256 in *; change MAXFILE with 268 in *;
  change BSIZE with 1024 in *; change (Z.to_nat 12) with 12%nat in *.

(** A block of a file or its indirect block. *)
Definition in_use (v : Z → block) (sb : superblock) (a : Z) : Prop := dstart sb ≤ a < sb_size sb ∧ bused v sb a = true.

Record file_ok (v : Z → block) (sb : superblock) (al : list Z) : Prop := {
  fo_len : length al = 13%nat;
  fo_used n : 0 ≤ n < MAXFILE → iaddr v al n ≠ 0 → in_use v sb (iaddr v al n);
  fo_ind : al !!! 12%nat ≠ 0 → in_use v sb (al !!! 12%nat);
  fo_inj n m : 0 ≤ n < MAXFILE → 0 ≤ m < MAXFILE → iaddr v al n ≠ 0 → iaddr v al n = iaddr v al m → n = m;
  fo_ind_ne n : 0 ≤ n < MAXFILE → iaddr v al n ≠ 0 → iaddr v al n ≠ al !!! 12%nat
}.

(** A block whose contents an allocation leaves alone. *)
Definition settled (v : Z → block) (sb : superblock) (x : Z) : Prop :=
  ¬ in_bmap sb x ∧ (x < dstart sb ∨ in_use v sb x).

Lemma in_use_settled v sb a : in_use v sb a → settled v sb a.
Proof. intros Hu. split; [|by right]. destruct Hu. unfold in_bmap. lia. Qed.

Lemma ind_get_put_eq d k a : block_ok d → 0 ≤ k < NINDIRECT → 0 ≤ a < 2 ^ 32 → ind_get (ind_put k a d) k = a.
Proof.
  unfold block_ok. fsnorm. intros Hd Hk Ha. unfold ind_get, ind_put. rewrite get32_put32_eq by lia. by apply u32_id.
Qed.
Lemma ind_get_put_ne d k j a : block_ok d → 0 ≤ k < NINDIRECT → 0 ≤ j → j ≠ k → ind_get (ind_put k a d) j = ind_get d j.
Proof. unfold block_ok. fsnorm. intros Hd Hk Hj Hne. unfold ind_get, ind_put. apply get32_put32_ne; lia. Qed.
Lemma ind_put_ok d k a : block_ok d → 0 ≤ k < NINDIRECT → block_ok (ind_put k a d).
Proof. unfold block_ok. fsnorm. intros Hd Hk. unfold ind_put. rewrite put32_length; lia. Qed.

Lemma zero_block_get32 o : get32 zero_block o = 0.
Proof.
  unfold get32, blk_get, zero_block. rewrite drop_replicate, take_replicate.
  set (k := (4 `min` _)%nat). clearbody k. induction k as [|k IH]; [done|]. 
  change (le_combine (replicate (S k) Byte.x00)) with (Z.lor 0 (Z.shiftl (le_combine (replicate k Byte.x00)) 8)).
  by rewrite IH.
Qed.
Lemma ind_get_zero k : ind_get zero_block k = 0.
Proof. apply zero_block_get32. Qed.

Lemma lookup_total_insert_ne' (al : list Z) i j a : i ≠ j → <[i:=a]> al !!! j = al !!! j.
Proof. intros. by apply list_lookup_total_insert_ne. Qed.

(** Setting a direct address. *)
Lemma iaddr_set_direct v v' al k a n : length al = 13%nat → 0 ≤ k < NDIRECT → 0 ≤ n →
  (al !!! 12%nat ≠ 0 → v' (al !!! 12%nat) = v (al !!! 12%nat)) →
  iaddr v' (<[Z.to_nat k := a]> al) n = if n =? k then a else iaddr v al n.
Proof.
  fsnorm. intros Hl Hk Hn Hv. unfold iaddr. fsnorm. rewrite (lookup_total_insert_ne' al (Z.to_nat k) 12) by lia.
  destruct (Z.ltb_spec n 12), (Z.eqb_spec n k); subst; try lia.
  - by rewrite list_lookup_total_insert_eq by lia.
  - by rewrite lookup_total_insert_ne' by lia.
  - destruct (Z.eqb_spec (al !!! 12%nat) 0) as [|Hne]; [done|]. by rewrite Hv.
Qed.

(** Setting the indirect block's address to a zeroed block. *)
Lemma iaddr_set_ind v v' al a n : length al = 13%nat → al !!! 12%nat = 0 → a ≠ 0 → v' a = zero_block →
  iaddr v' (<[12%nat := a]> al) n = iaddr v al n.
Proof.
  intros Hl H0 Ha Hz. unfold iaddr. fsnorm. destruct (Z.ltb_spec n 12).
  - destruct (Z.lt_ge_cases n 0).
    + by rewrite lookup_total_insert_ne' by lia.
    + by rewrite lookup_total_insert_ne' by lia.
  - rewrite list_lookup_total_insert_eq by lia. rewrite H0. simpl. destruct (Z.eqb_spec a 0); [done|]. by rewrite Hz, ind_get_zero.
Qed.

(** Setting an entry of the indirect block. *)
Lemma iaddr_set_entry v v' al k a n : al !!! 12%nat ≠ 0 → 0 ≤ k < NINDIRECT → 0 ≤ n → 0 ≤ a < 2 ^ 32 →
  block_ok (v (al !!! 12%nat)) → v' (al !!! 12%nat) = ind_put k a (v (al !!! 12%nat)) →
  iaddr v' al n = if n =? NDIRECT + k then a else iaddr v al n.
Proof.
  intros Hi Hk Hn Ha Hok Hv. unfold iaddr. destruct (Z.ltb_spec n NDIRECT); fsnorm.
  - destruct (Z.eqb_spec n (12 + k)); [lia|done].
  - destruct (Z.eqb_spec (al !!! 12%nat) 0); [done|]. rewrite Hv. destruct (Z.eqb_spec n (12 + k)) as [->|].
    + replace (12 + k - 12) with k by lia. by apply ind_get_put_eq.
    + apply ind_get_put_ne; fsnorm; (done || lia).
Qed.

Section bmap.
Context {B : BlockLayer} {U : UserMem} (sb : superblock) (Hly : layout sb) (X : gset Z) (HX : ∀ x, in_bmap sb x → x ∈ X).

Lemma dstart_pos : 0 < dstart sb.
Proof using Hly.
  destruct Hly. unfold dstart in *. rewrite BPB_val in *.
  destruct (Z.lt_ge_cases (sb_size sb) 0); [|pose proof (Z.div_pos (sb_size sb) 8192); lia].
  assert (sb_size sb / 8192 < 0) by (apply Z.div_lt_upper_bound; lia). pose proof (Z.div_mod (sb_size sb) 8192).
  pose proof (Z.mod_pos_bound (sb_size sb) 8192). lia.
Qed.

(** ** The invariant of a file under allocation *)

Lemma in_use_mono v v' a c : allocated sb v v' a → in_use v sb c → in_use v' sb c.
Proof using Hly.
  intros (_ & _ & Hu & _) [H1 H2]. split; [done|]. pose proof dstart_pos. rewrite Hu by lia. by destruct (c =? a).
Qed.

Lemma allocated_in_use v v' a : allocated sb v v' a → in_use v' sb a.
Proof using Hly. intros (Ha & _ & Hu & _). split; [done|]. pose proof dstart_pos. rewrite Hu by lia. by rewrite Z.eqb_refl. Qed.

Lemma allocated_fresh v v' a c : allocated sb v v' a → in_use v sb c → c ≠ a.
Proof using Type. intros (_ & Hf & _) [_ Hu] ->. congruence. Qed.

Lemma allocated_same v v' a x : allocated sb v v' a → settled v sb x → v' x = v x.
Proof using Type.
  intros (Ha & Hf & _ & Hx) [Hb Hs]. rewrite Hx by done. destruct (Z.eqb_spec x a) as [->|]; [|done].
  destruct Hs as [|[_ Hs]]; [lia|congruence].
Qed.

Lemma allocated_zero v v' a : allocated sb v v' a → v' a = zero_block.
Proof using Type. intros (Ha & _ & _ & Hx). rewrite Hx; [by rewrite Z.eqb_refl|]. unfold in_bmap. lia. Qed.

Lemma allocated_free_ok v v' a : allocated sb v v' a → free_ok v sb → free_ok v' sb.
Proof using Type.
  intros (_ & _ & Hu & _) Hf c Hc Hfalse. rewrite Hu in Hfalse by done. destruct (c =? a); [done|]. by apply Hf.
Qed.

(** A new data block [a] for block [k] of the file. *)
Lemma file_ok_data v v1 v' al al' a k : file_ok v sb al → allocated sb v v1 a → length al' = 13%nat →
  (∀ c, 0 ≤ c < sb_size sb → bused v' sb c = bused v1 sb c) → al' !!! 12%nat = al !!! 12%nat → iaddr v al k = 0 →
  (∀ n, 0 ≤ n → iaddr v' al' n = if n =? k then a else iaddr v al n) → file_ok v' sb al'.
Proof using Hly.
  intros [] Hal Hlen Hbu Hind Hk Hn.
  assert (Huse : ∀ c, in_use v1 sb c → in_use v' sb c). { intros c [? ?]. split; [done|]. pose proof dstart_pos. by rewrite Hbu by lia. }
  pose proof (allocated_in_use _ _ _ Hal) as Ha. split; try done.
  - intros n Hn'. rewrite Hn by lia. destruct (Z.eqb_spec n k); intros Hne; [by apply Huse|].
    apply Huse. eapply in_use_mono; [done|]. by apply fo_used0.
  - rewrite Hind. intros Hne. apply Huse. eapply in_use_mono; [done|]. by apply fo_ind0.
  - intros n m Hn' Hm. rewrite !Hn by lia. destruct (Z.eqb_spec n k), (Z.eqb_spec m k); intros Hne He; [congruence|..|by apply fo_inj0].
    + exfalso. rewrite He in Hne. eapply allocated_fresh; [exact Hal| |symmetry; exact He]. by apply fo_used0.
    + exfalso. eapply allocated_fresh; [exact Hal| |exact He]. by apply fo_used0.
  - intros n Hn'. rewrite Hind, Hn by lia. destruct (Z.eqb_spec n k); [|by apply fo_ind_ne0].
    intros Hne He. eapply allocated_fresh; [exact Hal| |symmetry; exact He]. apply fo_ind0. by rewrite <- He.
Qed.

(** A new indirect block. *)
Lemma file_ok_indirect v v' al a : file_ok v sb al → allocated sb v v' a → al !!! 12%nat = 0 → a ≠ 0 →
  file_ok v' sb (<[12%nat := a]> al) ∧ ∀ n, 0 ≤ n → iaddr v' (<[12%nat := a]> al) n = iaddr v al n.
Proof using Hly.
  intros Hfo Hal H0 Ha. pose proof Hfo as [].
  assert (Hia : ∀ n, iaddr v' (<[12%nat := a]> al) n = iaddr v al n).
  { intros n. apply iaddr_set_ind; try done. by eapply allocated_zero. }
  split; [|done]. pose proof (allocated_in_use _ _ _ Hal) as Hau. split.
  - by rewrite length_insert.
  - intros n Hn Hne. rewrite Hia in *. eapply in_use_mono; [done|]. by apply fo_used0.
  - rewrite list_lookup_total_insert_eq by lia. done.
  - intros n m Hn Hm Hne He. rewrite !Hia in *. by apply fo_inj0.
  - intros n Hn Hne. rewrite Hia in *. rewrite list_lookup_total_insert_eq by lia.
    eapply allocated_fresh; [exact Hal|]. by apply fo_used0.
Qed.

(** ** The in-memory inode *)

(** The state with new addresses for inode [ip] and the block layer [b]. *)
Definition fset (ip : nat) (al : list Z) (b : bl_state) (s : fstate) : fstate :=
  set_itab (alter (i_set_addrs al) ip (itab s)) (set_fs_bl b s).

Lemma geti_fset ip al b s : (ip < length (itab s))%nat → geti ip (fset ip al b s) = i_set_addrs al (geti ip s).
Proof using Type.
  intros Hi. unfold geti, fset. simpl. apply list_lookup_total_correct.
  rewrite list_lookup_alter_eq. by rewrite (list_lookup_lookup_total_lt _ _ Hi).
Qed.

Lemma fset_fset ip al al' b b' s : fset ip al' b' (fset ip al b s) = fset ip al' b' s.
Proof using Type.
  unfold fset. simpl. unfold set_itab. simpl. f_equal. apply list_eq. intros j.
  destruct (decide (j = ip)) as [->|Hne]; [|by rewrite !list_lookup_alter_ne].
  rewrite !list_lookup_alter_eq. by destruct (itab s !! ip).
Qed.

Lemma fset_id ip b s : (ip < length (itab s))%nat → fset ip (i_addrs (geti ip s)) b s = set_fs_bl b s.
Proof using Type.
  intros Hi. unfold fset, set_itab. simpl. unfold set_fs_bl. f_equal. apply list_eq. intros j.
  destruct (decide (j = ip)) as [->|Hne]; [|by rewrite list_lookup_alter_ne].
  rewrite list_lookup_alter_eq, (list_lookup_lookup_total_lt _ _ Hi). simpl. f_equal. unfold geti. by destruct (itab s !!! ip).
Qed.

Lemma fset_length ip al b s : length (itab (fset ip al b s)) = length (itab s).
Proof using Type. unfold fset. simpl. apply length_alter. Qed.

Lemma updi_fset {C} ip k a b s (K : unit → M fstate C) : (ip < length (itab s))%nat →
  (updi ip (set_addr k a) ≫= K) (set_fs_bl b s) = K tt (fset ip (<[k := a]> (i_addrs (geti ip s))) b s).
Proof using Type.
  intros Hi. unfold updi, modify, mbind, M_bind. f_equal. unfold fset, set_itab. simpl. f_equal. apply list_eq. intros j.
  destruct (decide (j = ip)) as [->|Hne]; [|by rewrite !list_lookup_alter_ne].
  rewrite !list_lookup_alter_eq, (list_lookup_lookup_total_lt _ _ Hi). done.
Qed.

(** ** addr_or_alloc() *)

Lemma addr_or_alloc_spec s ip k j : fs_sb s = sb → bl_txn (fs_bl s) [] → (ip < length (itab s))%nat →
  i_dev (geti ip s) = ROOTDEV → let al := i_addrs (geti ip s) in let v := bl_view (fs_bl s) in
  free_ok v sb → room (fs_bl s) X (S j) → ∃ a al' b', addr_or_alloc ip k s = Ret a (fset ip al' b' s) ∧
  bl_txn b' [] ∧ room b' X j ∧
  ((al !!! k ≠ 0 ∧ a = al !!! k ∧ al' = al ∧ (∀ x, bl_view b' x = v x)) ∨
   (al !!! k = 0 ∧ a ≠ 0 ∧ al' = <[k := a]> al ∧ allocated sb v (bl_view b') a) ∨
   (al !!! k = 0 ∧ a = 0 ∧ al' = al ∧ (∀ x, bl_view b' x = v x) ∧ ∀ c, 0 ≤ c < sb_size sb → bused v sb c = true)).
Proof using Hly HX.
  intros Hsb Ht Hi Hdev al v Hfr Hr. unfold addr_or_alloc. rewrite gets_bind'. fold al.
  assert (Hid : ∀ b, fset ip al b s = set_fs_bl b s) by (intros; by apply fset_id).
  destruct (Z.eqb_spec (al !!! k) 0) as [E0|Hne].
  - rewrite Hdev. destruct (balloc_spec sb Hly X HX s [] j) as (a & b' & E & Ht' & Hr' & Hcase); try done; [simpl; lia| |].
    { intros h []%elem_of_nil. }
    rewrite (bind_Ret _ _ _ _ _ E). destruct Hcase as [[Ha Hal]|(-> & _ & Hv & Hfull)].
    + destruct (Z.eqb_spec a 0); [done|]. rewrite updi_fset by done. exists a, (<[k := a]> al), b'.
      split_and!; try done. right; left. done.
    + simpl. exists 0, al, b'. rewrite Hid. split_and!; try done. right; right. done.
  - exists (al !!! k), al, (fs_bl s). rewrite Hid, set_fs_bl_id.
    split_and!; try done; [eapply room_mono; [exact Hr|done|lia]|]. by left.
Qed.

(** ** bmap() *)

(** What bmap() of block [bn] does to the disk [v] and the addresses [al]
    when it returns [a]. *)
Record bmapped (v : Z → block) (al : list Z) (v' : Z → block) (al' : list Z) (bn a : Z) : Prop := {
  bm_file : file_ok v' sb al';
  bm_free : free_ok v' sb;
  bm_addr : iaddr v' al' bn = a;
  bm_other n : 0 ≤ n → n ≠ bn → iaddr v' al' n = iaddr v al n;
  bm_mono c : in_use v sb c → in_use v' sb c;
  bm_frame x : settled v sb x → (al !!! 12%nat ≠ 0 → x ≠ al !!! 12%nat) → v' x = v x;
  bm_found : iaddr v al bn ≠ 0 → a = iaddr v al bn ∧ al' = al ∧ ∀ x, v' x = v x;
  bm_new : iaddr v al bn = 0 → a ≠ 0 → v' a = zero_block ∧ bused v sb a = false;
  bm_full : a = 0 → ∀ c, 0 ≤ c < sb_size sb → bused v' sb c = true;
  bm_ind : al' !!! 12%nat = al !!! 12%nat ∨ bused v sb (al' !!! 12%nat) = false
}.

(** Disks that are equal block by block. *)
Lemma view_ext v v' : (∀ x, v' x = v x) →
  (∀ c, bused v' sb c = bused v sb c) ∧ (∀ al n, iaddr v' al n = iaddr v al n) ∧
  (∀ c, in_use v' sb c ↔ in_use v sb c) ∧ (∀ x, settled v' sb x ↔ settled v sb x).
Proof using Type.
  intros Hv. assert (Hb : ∀ c, bused v' sb c = bused v sb c) by (intros c; unfold bused; by rewrite Hv).
  assert (Hu : ∀ c, in_use v' sb c ↔ in_use v sb c) by (intros c; unfold in_use; by rewrite Hb).
  split_and!; [done| |done|].
  - intros al n. unfold iaddr. by rewrite Hv.
  - intros x. unfold settled. by rewrite Hu.
Qed.

Lemma file_ok_ext v v' al : (∀ x, v' x = v x) → file_ok v sb al → file_ok v' sb al.
Proof using Type.
  intros Hv []. destruct (view_ext v v' Hv) as (_ & Hia & Hu & _). split; try done.
  - intros n Hn. rewrite Hia, Hu. by apply fo_used0.
  - rewrite Hu. done.
  - intros n m Hn Hm. rewrite !Hia. by apply fo_inj0.
  - intros n Hn. rewrite Hia. by apply fo_ind_ne0.
Qed.

Lemma free_ok_ext v v' : (∀ x, v' x = v x) → free_ok v sb → free_ok v' sb.
Proof using Type. intros Hv Hf c Hc. destruct (view_ext v v' Hv) as (Hb & _). rewrite Hb. by apply Hf. Qed.

Lemma bmapped_ext v v1 al v' al' bn a : (∀ x, v1 x = v x) → bmapped v1 al v' al' bn a → bmapped v al v' al' bn a.
Proof using Type.
  intros Hv []. destruct (view_ext v v1 Hv) as (Hb & Hia & Hu & Hs). split; try done.
  - intros n Hn Hne. by rewrite <- Hia, bm_other0.
  - intros c Hc. by apply bm_mono0, Hu.
  - intros x Hx Hne. rewrite <- Hv. apply bm_frame0; [by apply Hs|done].
  - intros Hne. rewrite <- Hia in Hne. destruct (bm_found0 Hne) as (-> & -> & Hx). rewrite Hia. split_and!; try done.
    intros x. by rewrite Hx.
  - intros Hz Hne. rewrite <- Hb. apply bm_new0; [by rewrite Hia|done].
  - by rewrite <- Hb.
Qed.

Lemma bmapped_same v al v' bn : file_ok v sb al → free_ok v sb → (∀ x, v' x = v x) →
  (iaddr v al bn = 0 → ∀ c, 0 ≤ c < sb_size sb → bused v sb c = true) → bmapped v al v' al bn (iaddr v al bn).
Proof using Type.
  intros Hfo Hfr Hv Hfull. destruct (view_ext v v' Hv) as (Hb & Hia & Hu & _). split; try done.
  - by eapply file_ok_ext.
  - by eapply free_ok_ext.
  - intros c. apply Hu.
  - intros H0 c Hc. rewrite Hb. by apply Hfull.
  - by left.
Qed.

(** Composition with a new indirect block. *)
Lemma bmapped_indirect v al v1 a1 v' al' bn a : file_ok v sb al → allocated sb v v1 a1 → al !!! 12%nat = 0 → a1 ≠ 0 →
  (∀ c, in_use v sb c → in_use v1 sb c) → NDIRECT ≤ bn < MAXFILE → bmapped v1 (<[12%nat := a1]> al) v' al' bn a →
  bmapped v al v' al' bn a.
Proof using Hly.
  intros Hfo Hal H0 Ha Hm Hbn []. destruct (file_ok_indirect v v1 al a1 Hfo Hal H0 Ha) as [Hfo1 Hia].
  assert (Hz : iaddr v al bn = 0). { unfold iaddr. destruct (Z.ltb_spec bn NDIRECT); [lia|]. by rewrite H0. }
  pose proof (fo_len _ _ _ Hfo) as Hlen. fsnorm. split; try done.
  - intros n Hn Hne. rewrite bm_other0 by done. by apply Hia.
  - intros c Hc. by apply bm_mono0, Hm.
  - intros x Hx Hne. rewrite list_lookup_total_insert_eq in bm_frame0 by lia.
    rewrite bm_frame0; [by eapply allocated_same|..].
    + destruct Hx as [Hb [Hs|Hs]]; (split; [done|]); [by left|right]. by eapply in_use_mono.
    + intros _ ->. destruct Hx as [_ [Hs|Hs]]; [destruct Hal; lia|]. by eapply allocated_fresh.
  - intros _ Hne. destruct (bm_new0) as [? Hf]; [rewrite Hia by lia; done|done|]. split; [done|].
    destruct Hal as (_ & _ & Hu & _). destruct (bused v sb a) eqn:E; [|done]. exfalso.
    assert (Hau : in_use v' sb a) by (rewrite <- bm_addr0; apply bm_file0; [fsnorm; lia|by rewrite bm_addr0]).
    destruct Hau as [Hr _]. pose proof dstart_pos. rewrite Hu, E in Hf by lia. by destruct (a =? a1).
  - rewrite list_lookup_total_insert_eq in bm_ind0 by lia. right. destruct Hal as (Hr & Hf & Hu & _).
    destruct bm_ind0 as [->|Hf']; [done|]. destruct (bused v sb (al' !!! 12%nat)) eqn:E; [|done]. exfalso.
    destruct (decide (al' !!! 12%nat = 0)) as [Ez|Enz].
    + pose proof dstart_pos. destruct Hly. rewrite Ez in *. rewrite Hu, E in Hf' by lia. by destruct (0 =? a1).
    + destruct (fo_ind _ _ _ bm_file0 Enz) as [Hr' _]. pose proof dstart_pos. rewrite Hu, E in Hf' by lia. by destruct (_ =? a1).
Qed.

(** The block [k] of the indirect block [ind], with the buffer held. *)
Lemma bmap_indirect_spec s ip ind k j : fs_sb s = sb → bl_txn (fs_bl s) [] → (ip < length (itab s))%nat →
  i_dev (geti ip s) = ROOTDEV → sb_size sb ≤ 2 ^ 32 → let al := i_addrs (geti ip s) in let v := bl_view (fs_bl s) in
  file_ok v sb al → free_ok v sb → al !!! 12%nat = ind → ind ≠ 0 → 0 ≤ k < NINDIRECT → room (fs_bl s) X (S (S j)) →
  ∃ a b', (bp ← fs_bread (i_dev (geti ip s)) ind;
           d ← bdata bp;
           a ← (if ind_get d k =? 0 then
                  a ← balloc (i_dev (geti ip s));
                  (if a =? 0 then mret tt else bstore bp (ind_put k a);; fs_log_write bp);;
                  mret a
                else mret (ind_get d k));
           fs_brelse bp;;
           mret a) s = Ret a (set_fs_bl b' s) ∧ bl_txn b' [] ∧ room b' X j ∧ bmapped v al (bl_view b') al (NDIRECT + k) a.
Proof using Hly HX.
  intros Hsb Ht Hi Hdev Hsz al v Hfo Hfr Hind Hne Hk Hr. pose proof Hfo as []. rewrite Hdev.
  assert (Hiu : in_use v sb ind) by (rewrite <- Hind; apply fo_ind0; by rewrite Hind). pose proof Hiu as [Hir Hib]. pose proof Hly as [].
  assert (Hst : stack_ok v sb []) by (intros h []%elem_of_nil).
  destruct (bread_run _ [] ind X (S (S j)) Ht) as (i & b1 & E1 & Ht1 & Hd1 & Hv1 & Hl1 & Hm1 & Hr1); try done.
  { apply ly_home. unfold dstart in Hir. rewrite BPB_val in Hir. pose proof dstart_pos. pose proof (Z.div_pos (sb_size sb) 8192). lia. }
  { apply not_elem_of_nil. } { simpl. lia. }
  unfold fs_bread. rewrite (bl_bind _ _ s _ _ E1), bdata_bind. cbn [set_fs_bl fs_bl]. rewrite Hd1. fold v.
  assert (Hia : iaddr v al (NDIRECT + k) = ind_get (v ind) k).
  { unfold iaddr. destruct (Z.ltb_spec (NDIRECT + k) NDIRECT); [fsnorm; lia|]. rewrite Hind.
    destruct (Z.eqb_spec ind 0); [done|]. f_equal. lia. }
  assert (Hbu1 : ∀ c, bused (bl_view b1) sb c = bused v sb c) by (intros c; unfold bused; by rewrite Hv1).
  destruct (Z.eqb_spec (ind_get (v ind) k) 0) as [E0|Hn0].
  2: { destruct (brelse_law b1 i _ [] Ht1) as (b2 & E2 & Ht2 & Hv2 & Hl2 & Hm2).
       rewrite bind_ret_l. unfold fs_brelse. rewrite (bl_bind _ _ (set_fs_bl b1 s) _ _ E2).
       exists (ind_get (v ind) k), b2. split_and!; try done.
       - apply (room_mono _ X X (S (S j))); [by apply (room_same b1)|done|lia].
       - rewrite <- Hia. apply bmapped_same; try done; [intros x; by rewrite Hv2, Hv1|]. rewrite Hia. done. }
  rewrite bind_assoc.
  destruct (balloc_spec sb Hly X HX (set_fs_bl b1 s) [Held i ind false] (S j)) as (a & b2 & E2 & Ht2 & Hr2 & Hcase); try done.
  { intros h ->%list_elem_of_singleton. cbn [set_fs_bl fs_bl hd_bn]. by rewrite Hbu1. }
  { intros c Hc. cbn [set_fs_bl fs_bl]. rewrite Hbu1. by apply Hfr. }
  rewrite (bind_Ret _ _ _ _ _ E2). cbn [set_fs_bl fs_bl] in Hcase. rewrite bind_assoc.
  destruct Hcase as [[Ha Hal]|(-> & _ & Hv2 & Hfull)].
  - destruct (Z.eqb_spec a 0) as [|Hna]; [done|].
    assert (Hal' : allocated sb v (bl_view b2) a).
    { destruct Hal as (H1 & H2 & H3 & H4). split; [done|]. rewrite Hbu1 in H2. split; [done|]. split.
      - intros c Hc. by rewrite H3, Hbu1.
      - intros x Hx. by rewrite H4, Hv1. }
    assert (Hvi : bl_view b2 ind = v ind) by (eapply allocated_same; [exact Hal'|by apply in_use_settled]).
    assert (Hok : block_ok (v ind)) by (by eapply bl_view_ok).
    destruct (change_run b2 i ind false [] (ind_put k a) X j Ht2) as (b3 & b4 & b5 & E3 & E4 & E5 & _ & Ht5 & Hr5 & _ & _ & Hv5).
    { by right. } { rewrite Hvi. by apply ind_put_ok. }
    rewrite bind_assoc. unfold bstore. rewrite (bl_bind _ _ (set_fs_bl b2 (set_fs_bl b1 s)) _ _ E3).
    unfold fs_log_write. rewrite (bl_bind _ _ (set_fs_bl b3 s) _ _ E4). rewrite bind_ret_l.
    unfold fs_brelse. rewrite (bl_bind _ _ (set_fs_bl b4 s) _ _ E5). exists a, b5. split_and!; try done.
    assert (Hbu : ∀ c, 0 ≤ c < sb_size sb → bused (bl_view b5) sb c = bused (bl_view b2) sb c).
    { intros c Hc. unfold bused. rewrite Hv5. destruct (Z.eqb_spec (BBLOCK c sb) ind) as [E|]; [|done].
      destruct (BBLOCK_in sb c Hc). lia. }
    pose proof dstart_pos as Hpos.
    assert (Hset : ∀ n, 0 ≤ n → iaddr (bl_view b5) al n = if n =? NDIRECT + k then a else iaddr v al n).
    { intros n Hn. apply iaddr_set_entry; rewrite ?Hind; try done; [destruct Hal' as [? _]; lia|].
      rewrite Hv5, Z.eqb_refl, Hvi. done. }
    assert (Hmono : ∀ c, in_use v sb c → in_use (bl_view b5) sb c).
    { intros c Hc. pose proof Hc as [Hcr _]. split; [done|]. rewrite Hbu by lia. by eapply in_use_mono. }
    split.
    + apply (file_ok_data v (bl_view b2) (bl_view b5) al al a (NDIRECT + k)); try done. by rewrite Hia.
    + intros c Hc Hf. rewrite Hbu in Hf by done. eapply allocated_free_ok; [exact Hal'|exact Hfr|done|done].
    + rewrite Hset by (fsnorm; lia). by rewrite Z.eqb_refl.
    + intros n Hn Hnn. rewrite Hset by done. by destruct (Z.eqb_spec n (NDIRECT + k)).
    + done.
    + intros x Hx Hxn. rewrite Hv5. destruct (Z.eqb_spec x ind) as [->|]; [|by eapply allocated_same].
      exfalso. by apply Hxn; rewrite Hind.
    + rewrite Hia. done.
    + intros _ _. split; [|apply Hal']. rewrite Hv5. destruct (Z.eqb_spec a ind) as [->|]; [|by eapply allocated_zero].
      exfalso. by apply (allocated_fresh v (bl_view b2) ind ind Hal' Hiu).
    + done.
    + by left.
  - simpl. destruct (brelse_law b2 i _ [] Ht2) as (b3 & E3 & Ht3 & Hv3 & Hl3 & Hm3).
    rewrite !bind_ret_l. unfold fs_brelse. rewrite (bl_bind _ _ (set_fs_bl b2 (set_fs_bl b1 s)) _ _ E3).
    exists 0, b3. split_and!; try done.
    + apply (room_mono _ X X (S j)); [by apply (room_same b2)|done|lia].
    + rewrite <- E0, <- Hia. apply bmapped_same; try done.
      * intros x. by rewrite Hv3, Hv2, Hv1.
      * intros _ c Hc. rewrite <- Hbu1. by apply Hfull.
Qed.

(** A direct block. *)
Lemma bmapped_direct v al v' k a : file_ok v sb al → free_ok v sb → 0 ≤ k < NDIRECT → al !!! Z.to_nat k = 0 → a ≠ 0 →
  allocated sb v v' a → bmapped v al v' (<[Z.to_nat k := a]> al) k a.
Proof using Hly.
  intros Hfo Hfr Hk H0 Ha Hal. pose proof Hfo as [].
  assert (Hiv : al !!! 12%nat ≠ 0 → v' (al !!! 12%nat) = v (al !!! 12%nat)).
  { intros Hne. eapply allocated_same; [exact Hal|]. by apply in_use_settled, fo_ind0. }
  assert (Hz : iaddr v al k = 0) by (unfold iaddr; destruct (Z.ltb_spec k NDIRECT); [done|lia]).
  assert (Hset : ∀ n, 0 ≤ n → iaddr v' (<[Z.to_nat k := a]> al) n = if n =? k then a else iaddr v al n).
  { intros n Hn. by apply iaddr_set_direct. }
  split.
  - apply (file_ok_data v v' v' al _ a k); try done; [by rewrite length_insert|].
    fsnorm. by rewrite lookup_total_insert_ne' by lia.
  - by eapply allocated_free_ok.
  - rewrite Hset by lia. by rewrite Z.eqb_refl.
  - intros n Hn Hnn. rewrite Hset by done. by destruct (Z.eqb_spec n k).
  - intros c. by apply (in_use_mono v v' a).
  - intros x Hx _. by eapply allocated_same.
  - done.
  - intros _ _. split; [by eapply allocated_zero|apply Hal].
  - done.
  - left. fsnorm. by rewrite lookup_total_insert_ne' by lia.
Qed.

Lemma bmap_spec s ip bn j : fs_sb s = sb → bl_txn (fs_bl s) [] → (ip < length (itab s))%nat →
  i_dev (geti ip s) = ROOTDEV → sb_size sb ≤ 2 ^ 32 → let al := i_addrs (geti ip s) in let v := bl_view (fs_bl s) in
  file_ok v sb al → free_ok v sb → 0 ≤ bn < MAXFILE → room (fs_bl s) X (S (S (S j))) →
  ∃ a al' b', bmap ip bn s = Ret a (fset ip al' b' s) ∧ bl_txn b' [] ∧ room b' X j ∧ bmapped v al (bl_view b') al' bn a.
Proof using Hly HX.
  intros Hsb Ht Hi Hdev Hsz al v Hfo Hfr Hbn Hr. pose proof Hfo as [Hlen].
  assert (Hid : ∀ b, fset ip al b s = set_fs_bl b s) by (intros; by apply fset_id).
  unfold bmap. destruct (Z.ltb_spec bn NDIRECT) as [Hd|Hd].
  { destruct (addr_or_alloc_spec s ip (Z.to_nat bn) j) as (a & al' & b' & E & Ht' & Hr' & Hcase); try done.
    { eapply room_mono; [exact Hr|done|lia]. }
    fold al v in Hcase. exists a, al', b'. split_and!; try done.
    assert (Hia : iaddr v al bn = al !!! Z.to_nat bn) by (unfold iaddr; destruct (Z.ltb_spec bn NDIRECT); [done|lia]).
    destruct Hcase as [(Hne & -> & -> & Hv)|[(H0 & Ha & -> & Hal)|(H0 & -> & -> & Hv & Hfull)]].
    - rewrite <- Hia. apply bmapped_same; try done. intros E0. rewrite Hia in E0. done.
    - apply bmapped_direct; try done. lia.
    - rewrite <- H0, <- Hia. apply bmapped_same; done. }
  destruct (Z.ltb_spec (bn - NDIRECT) NINDIRECT) as [Hlt|]; [|fsnorm; lia].
  change (Z.to_nat NDIRECT) with 12%nat.
  destruct (addr_or_alloc_spec s ip 12 (S (S j))) as (ind & al1 & b1 & E1 & Ht1 & Hr1 & Hcase); try done.
  fold al v in Hcase. rewrite (bind_Ret _ _ _ _ _ E1).
  destruct (Z.eqb_spec ind 0) as [E0|Hne].
  { exists 0, al1, b1. destruct Hcase as [(? & -> & _)|[(_ & ? & _)|(H0 & _ & -> & Hv & Hfull)]]; [done|done|].
    assert (Hia : iaddr v al bn = 0) by (unfold iaddr; destruct (Z.ltb_spec bn NDIRECT); [lia|by rewrite H0]).
    split_and!; try done; [eapply room_mono; [exact Hr1|done|lia]|].
    rewrite <- Hia. by apply bmapped_same. }
  set (s1 := fset ip al1 b1 s). assert (Hg1 : geti ip s1 = i_set_addrs al1 (geti ip s)) by (by apply geti_fset).
  assert (Hi1 : (ip < length (itab s1))%nat) by (unfold s1; by rewrite fset_length).
  assert (Hfo1 : file_ok (bl_view b1) sb al1 ∧ free_ok (bl_view b1) sb ∧ al1 !!! 12%nat = ind).
  { destruct Hcase as [(H12 & Hind & -> & Hv)|[(H0 & Ha & -> & Hal)|(_ & ? & _)]]; [|..|done].
    - split_and!; [by eapply file_ok_ext|by eapply free_ok_ext|done].
    - destruct (file_ok_indirect v _ al ind Hfo Hal H0 Hne) as [Hf _]. split_and!; [done|by eapply allocated_free_ok|].
      by rewrite list_lookup_total_insert_eq by lia. }
  destruct Hfo1 as (Hfo1 & Hfr1 & Hind).
  destruct (bmap_indirect_spec s1 ip ind (bn - NDIRECT) j) as (a & b2 & E2 & Ht2 & Hr2 & Hbm); try done;
    rewrite ?Hg1; try done; [fsnorm; lia|].
  rewrite gets_bind'. rewrite Hg1 in *. simpl in Hbm. exists a, al1, b2.
  replace (NDIRECT + (bn - NDIRECT)) with bn in Hbm by lia. split_and!; try done.
  destruct Hcase as [(H12 & -> & -> & Hv)|[(H0 & Ha & -> & Hal)|(_ & ? & _)]]; [|..|done].
  - by eapply bmapped_ext.
  - eapply bmapped_indirect; try done; [intros c; by apply (in_use_mono v _ ind)|lia].
Qed.
End bmap.
