(* ===== verification/FsFile.v ===== *)
(** * kernel/fs.c: file contents, readi() and writei()

    [fbyte v al o] is byte [o] of the file with addresses [al]; [fslice] the
    bytes from [off] on.  [dense] says that a file of size [sz] has no holes. *)

From stdpp Require Import base gmap sets strings numbers list.
From coqutil Require Import Byte Word.LittleEndianList.
From S2P Require Import Prelude Riscv Spinlock Block Sleeplock Fs FsBlocks FsAlloc FsBmap.

Definition fbyte (v : Z → block) (al : list Z) (o : Z) : byte :=
  default Byte.x00 (v (iaddr v al (o / BSIZE)) !! Z.to_nat (o mod BSIZE)).
Definition fslice (v : Z → block) (al : list Z) (off : Z) (n : nat) : list byte :=
  (λ j, fbyte v al (off + Z.of_nat j)) <$> seq 0 n.
Definition dense (v : Z → block) (al : list Z) (sz : Z) : Prop :=
  0 ≤ sz ≤ MAXFILE * BSIZE ∧ ∀ n, 0 ≤ n → n * BSIZE < sz → iaddr v al n ≠ 0.

Lemma fslice_length v al off n : length (fslice v al off n) = n.
Proof. unfold fslice. by rewrite length_fmap, length_seq. Qed.

Lemma fslice_lookup v al off n j : (j < n)%nat → fslice v al off n !! j = Some (fbyte v al (off + Z.of_nat j)).
Proof. intros Hj. unfold fslice. rewrite list_lookup_fmap, lookup_seq_lt by done. done. Qed.

Lemma fslice_app v al off m n : fslice v al off (m + n) = fslice v al off m ++ fslice v al (off + Z.of_nat m) n.
Proof.
  unfold fslice. rewrite seq_app, fmap_app. f_equal. rewrite Nat.add_0_l.
  replace (seq m n) with (Nat.add m <$> seq 0 n) by (rewrite fmap_add_seq; f_equal; lia).
  rewrite <- list_fmap_compose. apply list_fmap_ext. intros _ j _. simpl. f_equal. lia.
Qed.

Lemma div_mod_block off m : 0 ≤ off → 0 ≤ m → off mod BSIZE + m < BSIZE →
  (off + m) / BSIZE = off / BSIZE ∧ (off + m) mod BSIZE = off mod BSIZE + m.
Proof.
  fsnorm. intros Ho Hm Hlt. pose proof (Z.div_mod off 1024). pose proof (Z.mod_pos_bound off 1024).
  split; symmetry; [apply (Z.div_unique _ _ _ (off mod 1024 + m))|apply (Z.mod_unique _ _ (off / 1024))]; lia.
Qed.

(** A piece of one block. *)
Lemma blk_get_fslice v al off m : 0 ≤ off → 0 ≤ m → off mod BSIZE + m ≤ BSIZE →
  block_ok (v (iaddr v al (off / BSIZE))) →
  blk_get (v (iaddr v al (off / BSIZE))) (off mod BSIZE) (Z.to_nat m) = fslice v al off (Z.to_nat m).
Proof.
  intros Ho Hm Hle Hok. unfold block_ok in Hok. pose proof (Z.mod_pos_bound off BSIZE ltac:(done)).
  apply list_eq. intros j. destruct (decide (j < Z.to_nat m)%nat) as [Hj|Hj].
  - rewrite blk_lookup, fslice_lookup by (done || lia).
    destruct (div_mod_block off (Z.of_nat j)) as [Ed Em]; [lia|lia|lia|].
    unfold fbyte. rewrite Ed, Em. replace (Z.to_nat (off mod BSIZE + Z.of_nat j)) with (Z.to_nat (off mod BSIZE) + j)%nat by lia.
    destruct (lookup_lt_is_Some_2 (v (iaddr v al (off / BSIZE))) (Z.to_nat (off mod BSIZE) + j)) as [x ->]; [lia|done].
  - rewrite !lookup_ge_None_2; [done|rewrite fslice_length; lia|].
    unfold blk_get. rewrite length_take. lia.
Qed.

Lemma blk_get_slice v al off n tot m : 0 ≤ tot → 0 ≤ m → tot + m ≤ Z.of_nat n →
  blk_get (fslice v al off n) tot (Z.to_nat m) = fslice v al (off + tot) (Z.to_nat m).
Proof.
  intros Ht Hm Hle. unfold blk_get. replace n with (Z.to_nat tot + (Z.to_nat m + (n - Z.to_nat tot - Z.to_nat m)))%nat by lia.
  rewrite fslice_app, drop_app_length' by (by rewrite fslice_length). rewrite fslice_app, take_app_length' by (by rewrite fslice_length). by rewrite Z2Nat.id.
Qed.

(** ** Where readi() and writei() copy to and from *)

Section copies.
Context {B : BlockLayer} {U : UserMem}.

(** The source [x] holds the bytes [l]: each piece of it can be copied in. *)
Definition gives (u : um_state) (x : src) (l : list byte) : Prop :=
  match x with
  | KernSrc l' => l' = l
  | UserSrc va => ∀ tot m, 0 ≤ tot → 0 ≤ m → tot + m ≤ Z.of_nat (length l) → um_copyin (u64 (va + tot)) (Z.to_nat m) u = (true, blk_get l tot (Z.to_nat m))
  end.

Lemma copyin_gives x l tot m s : gives (fs_um s) x l → 0 ≤ tot → 0 ≤ m → tot + m ≤ Z.of_nat (length l) →
  either_copyin x tot m s = Ret (true, blk_get l tot (Z.to_nat m)) s.
Proof. destruct x as [va|l']; cbn [gives either_copyin]; [|by intros ->]. intros H Ht Hm Hle. unfold gets. by rewrite H. Qed.

(** What a kernel destination receives; a user destination is in user memory. *)
Definition received (d : dst) (l : list byte) : list byte := match d with KernDst => l | UserDst _ => [] end.

(** The destination [d] has room for [l]: each piece of it can be copied out.
    [W j] says what user memory is like once the first [j] bytes are there. *)
Definition takes (W : Z → um_state → Prop) (d : dst) (l : list byte) : Prop :=
  ∀ u j m, W j u → 0 ≤ j → 0 < m → j + m ≤ Z.of_nat (length l) →
  match d with
  | KernDst => W (j + m) u
  | UserDst va => ∃ u', um_copyout (u64 (va + j)) (blk_get l j (Z.to_nat m)) u = (true, u') ∧ W (j + m) u'
  end.

Lemma copyout_takes W d l j m acc s : takes W d l → W j (fs_um s) → 0 ≤ j → 0 < m → j + m ≤ Z.of_nat (length l) → ∃ u',
  either_copyout d j (blk_get l j (Z.to_nat m)) acc s = Ret (true, acc ++ received d (blk_get l j (Z.to_nat m))) (set_fs_um u' s) ∧ W (j + m) u'.
Proof.
  intros Ht HW Hj Hm Hle. specialize (Ht (fs_um s) j m HW Hj Hm Hle). destruct d as [va|]; cbn [either_copyout received].
  - destruct Ht as (u' & E & HW'). exists u'. by rewrite E, app_nil_r.
  - exists (fs_um s). split; [by destruct s|done].
Qed.

Lemma takes_kern l u : takes (λ _ u', u' = u) KernDst l.
Proof. by intros u' j m ->. Qed.
End copies.

Section files.
Context {B : BlockLayer} {U : UserMem} (sb : superblock) (Hly : layout sb).

Lemma in_use_home v a : in_use v sb a → bl_home a.
Proof using Hly.
  intros [Ha _]. pose proof (dstart_pos sb Hly). destruct Hly. apply ly_home. unfold dstart in *. rewrite BPB_val in *.
  pose proof (Z.div_pos (sb_size sb) 8192). lia.
Qed.

(** bmap() of an existing block needs no room in the log. *)
Lemma bmap_found s ip bn : bl_txn (fs_bl s) [] → (size (bl_logged (fs_bl s)) + 3 ≤ NBUF)%nat →
  i_dev (geti ip s) = ROOTDEV → let al := i_addrs (geti ip s) in let v := bl_view (fs_bl s) in
  file_ok v sb al → 0 ≤ bn < MAXFILE → iaddr v al bn ≠ 0 → ∃ b', bmap ip bn s = Ret (iaddr v al bn) (set_fs_bl b' s) ∧
  bl_txn b' [] ∧ (∀ x, bl_view b' x = v x) ∧ bl_logged b' = bl_logged (fs_bl s) ∧ bl_limit b' = bl_limit (fs_bl s).
Proof using Hly.
  intros Ht Hnb Hdev al v Hfo Hbn Hne. pose proof Hfo as []. unfold bmap, addr_or_alloc.
  unfold iaddr in *. destruct (Z.ltb_spec bn NDIRECT) as [Hd|Hd].
  { rewrite gets_bind'. fold al. destruct (Z.eqb_spec (al !!! Z.to_nat bn) 0); [done|].
    exists (fs_bl s). by rewrite set_fs_bl_id. }
  destruct (Z.ltb_spec (bn - NDIRECT) NINDIRECT) as [Hlt|]; [|fsnorm; lia].
  change (Z.to_nat NDIRECT) with 12%nat. rewrite bind_assoc, gets_bind'. fold al.
  destruct (Z.eqb_spec (al !!! 12%nat) 0) as [E0|Hne12]; [done|]. rewrite bind_ret_l.
  destruct (Z.eqb_spec (al !!! 12%nat) 0) as [|_]; [done|]. rewrite gets_bind', Hdev.
  destruct (bread_law (fs_bl s) [] (al !!! 12%nat)) as (i & b1 & E1 & Ht1 & Hv1 & Hl1 & Hm1); try done.
  { apply (in_use_home v). by apply fo_ind. } { apply not_elem_of_nil. } { simpl. lia. }
  unfold fs_bread. rewrite (bl_bind _ _ s _ _ E1), bdata_bind. cbn [set_fs_bl fs_bl].
  rewrite (bl_data_law _ _ _ _ _ Ht1), Hv1. fold v.
  destruct (Z.eqb_spec (ind_get (v (al !!! 12%nat)) (bn - NDIRECT)) 0); [done|]. rewrite bind_ret_l.
  destruct (brelse_law b1 i _ [] Ht1) as (b2 & E2 & Ht2 & Hv2 & Hl2 & Hm2).
  unfold fs_brelse. rewrite (bl_bind _ _ (set_fs_bl b1 s) _ _ E2). exists b2.
  split_and!; try done; [|congruence|congruence]. intros x. by rewrite Hv2, Hv1.
Qed.

(** ** readi() *)

Lemma readi_loop_spec W d l fuel s ip tot off n acc c : takes W d l → W tot (fs_um s) →
  bl_txn (fs_bl s) [] → (size (bl_logged (fs_bl s)) + 3 ≤ NBUF)%nat → i_dev (geti ip s) = ROOTDEV →
  let al := i_addrs (geti ip s) in let v := bl_view (fs_bl s) in
  l = fslice v al (off - tot) (Z.to_nat n) → file_ok v sb al → dense v al (i_size (geti ip s)) → 0 ≤ off → 0 ≤ tot ≤ n → off + (n - tot) ≤ i_size (geti ip s) →
  (tot < n → off + (n - tot) ≤ (off / BSIZE + Z.of_nat c) * BSIZE ∧ (c < fuel)%nat) → (0 < fuel)%nat →
  ∃ b' u', readi_loop fuel ip d tot off n acc s = Ret (n, acc ++ received d (fslice v al off (Z.to_nat (n - tot)))) (set_fs_um u' (set_fs_bl b' s)) ∧ W n u' ∧
  bl_txn b' [] ∧ (∀ x, bl_view b' x = v x) ∧ bl_logged b' = bl_logged (fs_bl s) ∧ bl_limit b' = bl_limit (fs_bl s).
Proof using Hly.
  revert s tot off acc c. induction fuel as [|fuel IH]; intros s tot off acc c Htk HW Ht Hnb Hdev al v El Hfo Hde Hoff Htot Hsz Hc Hf; [lia|].
  cbn [readi_loop]. destruct (Z.ltb_spec tot n) as [Hlt|Hge].
  2: { replace (n - tot) with 0 by lia. change (fslice v al off (Z.to_nat 0)) with (@nil byte). replace n with tot by lia. exists (fs_bl s), (fs_um s).
       assert (acc ++ received d [] = acc) as -> by (destruct d; apply app_nil_r). split_and!; try done. by destruct s. }
  destruct (Hc Hlt) as [Hc1 Hc2]. destruct Hde as [Hmax Hde].
  assert (Hpos : 0 ≤ off / BSIZE) by (apply Z.div_pos; fsnorm; lia).
  pose proof (Z.div_mod off BSIZE ltac:(done)) as Hdm. pose proof (Z.mod_pos_bound off BSIZE ltac:(done)) as Hmb.
  assert (Hblk : iaddr v al (off / BSIZE) ≠ 0) by (apply Hde; fsnorm; lia).
  assert (Hbn : 0 ≤ off / BSIZE < MAXFILE) by (split; [done|]; apply Z.div_lt_upper_bound; fsnorm; lia).
  destruct (bmap_found s ip (off / BSIZE) Ht Hnb Hdev Hfo Hbn Hblk) as (b1 & E1 & Ht1 & Hv1 & Hl1 & Hm1). fold al v in E1.
  rewrite (bind_Ret _ _ _ _ _ E1). destruct (Z.eqb_spec (iaddr v al (off / BSIZE)) 0); [done|]. rewrite gets_bind'.
  change (geti ip (set_fs_bl b1 s)) with (geti ip s). rewrite Hdev.
  destruct (bread_law b1 [] (iaddr v al (off / BSIZE))) as (i & b2 & E2 & Ht2 & Hv2 & Hl2 & Hm2); try done.
  { apply (in_use_home v). by apply Hfo. } { apply not_elem_of_nil. } { simpl. lia. } { by rewrite Hl1. }
  unfold fs_bread. rewrite (bl_bind _ _ (set_fs_bl b1 s) _ _ E2), bdata_bind. cbn [set_fs_bl fs_bl].
  rewrite (bl_data_law _ _ _ _ _ Ht2), Hv2, Hv1. set (m := Z.min (n - tot) (BSIZE - off mod BSIZE)).
  assert (Hm : 0 < m ≤ n - tot ∧ off mod BSIZE + m ≤ BSIZE) by (unfold m; lia).
  rewrite blk_get_fslice by (try lia; by eapply bl_view_ok).
  assert (Hpiece : blk_get l tot (Z.to_nat m) = fslice v al off (Z.to_nat m)) by (rewrite El, blk_get_slice by lia; f_equal; lia).
  assert (Hll : Z.of_nat (length l) = n) by (rewrite El, fslice_length; lia).
  destruct (copyout_takes W d l tot m acc (set_fs_bl b2 (set_fs_bl b1 s)) Htk HW) as (u1 & Eo & HW1); [lia|lia|lia|]. rewrite Hpiece in Eo.
  rewrite (bind_Ret _ _ _ _ _ Eo). cbn [fst snd].
  destruct (brelse_law b2 i _ [] Ht2) as (b3 & E3 & Ht3 & Hv3 & Hl3 & Hm3).
  unfold fs_brelse. rewrite (bl_bind _ _ _ _ _ (E3 : bl_brelse i (fs_bl (set_fs_um u1 (set_fs_bl b2 (set_fs_bl b1 s)))) = _)).
  set (s3 := set_fs_bl b3 _).
  assert (Hv : ∀ x, bl_view b3 x = v x) by (intros x; by rewrite Hv3, Hv2, Hv1).
  destruct (view_ext sb v (bl_view b3) Hv) as (_ & Hia & _).
  assert (Hfs : ∀ o k, fslice (bl_view b3) al o k = fslice v al o k).
  { intros o k. unfold fslice. apply list_fmap_ext. intros _ j _. unfold fbyte. by rewrite Hia, Hv. }
  destruct (IH s3 (tot + m) (off + m) (acc ++ received d (fslice v al off (Z.to_nat m))) (c - 1)%nat) as (b' & u' & E' & HW' & Ht' & Hv' & Hl' & Hm').
  - done.
  - done.
  - done.
  - cbn [s3 set_fs_bl fs_bl]. by rewrite Hl3, Hl2, Hl1.
  - done.
  - cbn [s3 set_fs_bl fs_bl]. change (geti ip s3) with (geti ip s). fold al. rewrite Hfs, El. f_equal. lia.
  - cbn [s3 set_fs_bl fs_bl]. by eapply file_ok_ext.
  - cbn [s3 set_fs_bl fs_bl]. split; [done|]. intros k Hk1 Hk2. rewrite Hia. by apply Hde.
  - lia.
  - lia.
  - change (geti ip s3) with (geti ip s). lia.
  - intros Hlt'. assert (m = BSIZE - off mod BSIZE) as Em by (unfold m; lia).
    assert ((off + m) / BSIZE = off / BSIZE + 1) as ->.
    { symmetry. apply (Z.div_unique _ _ _ 0); fsnorm; lia. }
    assert (c ≠ 0%nat) by (intros ->; fsnorm; lia). fsnorm. split; lia.
  - assert (c ≠ 0%nat) by (intros ->; fsnorm; lia). lia.
  - cbn [s3 set_fs_bl fs_bl] in *. change (geti ip s3) with (geti ip s) in E'. fold al in E'. rewrite Hfs in E'.
    exists b', u'. rewrite E'. split_and!; [|done|done| |congruence|congruence].
    + rewrite <- app_assoc. do 3 f_equal. assert (Hrc : ∀ l1 l2, received d l1 ++ received d l2 = received d (l1 ++ l2)) by (by destruct d). rewrite Hrc. f_equal. replace (Z.to_nat (n - tot)) with (Z.to_nat m + Z.to_nat (n - (tot + m)))%nat by lia.
      rewrite fslice_app, Z2Nat.id by lia. done.
    + intros x. by rewrite Hv', Hv.
Qed.

(** readi() returns the bytes of the file in the range, cut at its end. *)
Lemma readi_to_spec W d s ip off n : W 0 (fs_um s) → bl_txn (fs_bl s) [] → (size (bl_logged (fs_bl s)) + 3 ≤ NBUF)%nat → i_dev (geti ip s) = ROOTDEV →
  let al := i_addrs (geti ip s) in let v := bl_view (fs_bl s) in let sz := i_size (geti ip s) in
  file_ok v sb al → dense v al sz → 0 ≤ off < 2 ^ 32 → 0 ≤ n < 2 ^ 32 →
  let k := if (off <=? sz) && (off + n <? 2 ^ 32) then Z.min n (sz - off) else 0 in
  takes W d (fslice v al off (Z.to_nat k)) →
  ∃ b' u', readi ip d off n s = Ret (k, received d (fslice v al off (Z.to_nat k))) (set_fs_um u' (set_fs_bl b' s)) ∧ W k u' ∧
  bl_txn b' [] ∧ (∀ x, bl_view b' x = v x) ∧ bl_logged b' = bl_logged (fs_bl s) ∧ bl_limit b' = bl_limit (fs_bl s).
Proof using Hly.
  intros HW Ht Hnb Hdev al v sz Hfo Hde Hoff Hn k Htk. unfold readi. rewrite gets_bind'. fold sz.
  assert (Hszb : 0 ≤ sz ≤ 268 * 1024) by (destruct Hde as [Hs _]; fsnorm; lia).
  assert (Hu : (u32 (off + n) <? off) = negb (off + n <? 2 ^ 32)).
  { unfold u32. destruct (Z.ltb_spec (off + n) (2 ^ 32)).
    - rewrite Z.mod_small by lia. destruct (Z.ltb_spec (off + n) off); [lia|done].
    - assert ((off + n) mod 2 ^ 32 = off + n - 2 ^ 32) as -> by (symmetry; apply (Z.mod_unique _ _ 1); lia).
      destruct (Z.ltb_spec (off + n - 2 ^ 32) off); [done|lia]. }
  assert (Hnil : received d [] = []) by (by destruct d).
  rewrite Hu. unfold k in *. destruct (Z.ltb_spec sz off) as [Hgt|Hle].
  { destruct (Z.leb_spec off sz); [lia|]. cbn [andb]. exists (fs_bl s), (fs_um s). change (fslice v al off (Z.to_nat 0)) with (@nil byte). rewrite Hnil. split_and!; try done. by destruct s. }
  destruct (Z.leb_spec off sz); [|lia]. destruct (Z.ltb_spec (off + n) (2 ^ 32)) as [Hnw|Hw]; cbn [negb andb orb].
  2: { exists (fs_bl s), (fs_um s). change (fslice v al off (Z.to_nat 0)) with (@nil byte). rewrite Hnil. split_and!; try done. by destruct s. }
  assert (u32 (off + n) = off + n) as -> by (apply u32_id; lia).
  set (n' := if sz <? off + n then sz - off else n). assert (Hn' : n' = Z.min n (sz - off)).
  { unfold n'. destruct (Z.ltb_spec sz (off + n)); lia. }
  cbn [andb] in Htk. rewrite <- Hn' in *.
  destruct (readi_loop_spec W d (fslice v al off (Z.to_nat n')) (S (Z.to_nat n')) s ip 0 off n' [] (Z.to_nat n')) as (b' & u' & E & HW' & Ht' & Hv' & Hl' & Hm'); try done; try lia.
  - fold al v. by rewrite Z.sub_0_r.
  - intros Hlt. split; [|lia]. pose proof (Z.div_mod off BSIZE ltac:(done)). pose proof (Z.mod_pos_bound off BSIZE ltac:(done)). fsnorm. lia.
  - exists b', u'. cbv zeta. rewrite E. rewrite Z.sub_0_r. done.
Qed.

(** readi() into the kernel. *)
Lemma readi_spec s ip off n : bl_txn (fs_bl s) [] → (size (bl_logged (fs_bl s)) + 3 ≤ NBUF)%nat → i_dev (geti ip s) = ROOTDEV →
  let al := i_addrs (geti ip s) in let v := bl_view (fs_bl s) in let sz := i_size (geti ip s) in
  file_ok v sb al → dense v al sz → 0 ≤ off < 2 ^ 32 → 0 ≤ n < 2 ^ 32 →
  let k := if (off <=? sz) && (off + n <? 2 ^ 32) then Z.min n (sz - off) else 0 in
  ∃ b', readi ip KernDst off n s = Ret (k, fslice v al off (Z.to_nat k)) (set_fs_bl b' s) ∧
  bl_txn b' [] ∧ (∀ x, bl_view b' x = v x) ∧ bl_logged b' = bl_logged (fs_bl s) ∧ bl_limit b' = bl_limit (fs_bl s).
Proof using Hly.
  intros Ht Hnb Hdev al v sz Hfo Hde Hoff Hn k.
  destruct (readi_to_spec (λ _ u, u = fs_um s) KernDst s ip off n eq_refl Ht Hnb Hdev Hfo Hde Hoff Hn (takes_kern _ _)) as (b' & u' & E & -> & H). by exists b'.
Qed.
End files.
