(* ===== verification/FsWrite.v ===== *)
(** * kernel/fs.c: writei()

    [written] is the effect of writing the bytes [w] at [off]: those bytes of
    the file change, all others, and all blocks that do not belong to the file,
    stay as they are. *)

From stdpp Require Import base gmap sets strings numbers list.
From coqutil Require Import Byte Word.LittleEndianList.
From S2P Require Import Prelude Riscv Spinlock Block Sleeplock Fs FsBlocks FsAlloc FsBmap FsFile.

(** A block that belongs to the file. *)
Definition own (v : Z → block) (al : list Z) (x : Z) : Prop :=
  (∃ n, 0 ≤ n < MAXFILE ∧ iaddr v al n ≠ 0 ∧ iaddr v al n = x) ∨ (al !!! 12%nat ≠ 0 ∧ x = al !!! 12%nat).

Record written (sb : superblock) (v : Z → block) (al : list Z) (v' : Z → block) (al' : list Z) (off : Z) (w : list byte) : Prop := {
  wr_file : file_ok v' sb al';
  wr_free : free_ok v' sb;
  wr_addr j : (j < length w)%nat → iaddr v' al' ((off + Z.of_nat j) / BSIZE) ≠ 0;
  wr_new j b : w !! j = Some b → fbyte v' al' (off + Z.of_nat j) = b;
  wr_old o : 0 ≤ o < MAXFILE * BSIZE → o < off ∨ off + Z.of_nat (length w) ≤ o → iaddr v al (o / BSIZE) ≠ 0 →
    fbyte v' al' o = fbyte v al o;
  wr_keep n : 0 ≤ n < MAXFILE → iaddr v al n ≠ 0 → iaddr v' al' n = iaddr v al n;
  wr_mono c : in_use v sb c → in_use v' sb c;
  wr_frame x : settled v sb x → ¬ own v al x → v' x = v x;
  wr_own x : settled v sb x → ¬ own v al x → ¬ own v' al' x
}.

Lemma block_num o : 0 ≤ o < MAXFILE * BSIZE → 0 ≤ o / BSIZE < MAXFILE.
Proof. fsnorm. intros Ho. split; [apply Z.div_pos; lia|apply Z.div_lt_upper_bound; lia]. Qed.

Section write.
Context {B : BlockLayer} {U : UserMem} (sb : superblock) (Hly : layout sb) (X : gset Z) (HX : ∀ x, in_bmap sb x → x ∈ X).

Lemma settled_mono v v' x : (∀ c, in_use v sb c → in_use v' sb c) → settled v sb x → settled v' sb x.
Proof using Type. intros Hm [Hb [?|?]]; (split; [done|]); [by left|right; by apply Hm]. Qed.

(** The file's blocks after bmap() are old ones or fresh ones. *)
Lemma bmapped_own v al v' al' bn a x : file_ok v sb al → bmapped sb v al v' al' bn a → 0 ≤ bn < MAXFILE →
  settled v sb x → ¬ own v al x → ¬ own v' al' x.
Proof using Hly.
  intros Hfo [] Hbn Hs Hno [(n & Hn & Hne & <-)|[Hne ->]].
  - destruct (decide (n = bn)) as [->|Hnb].
    + destruct (decide (iaddr v al bn = 0)) as [E0|En0].
      * rewrite bm_addr in *. destruct (bm_new E0 Hne) as [_ Hf]. destruct (fo_used _ _ _ bm_file bn Hbn) as [Hr _]; [by rewrite bm_addr|].
        rewrite bm_addr in Hr. destruct Hs as [_ [?|[_ ?]]]; [lia|congruence].
      * destruct (bm_found En0) as (Ha & -> & Hv). apply Hno. left. exists bn. rewrite bm_addr. split_and!; [lia|lia|done|congruence].
    + rewrite bm_other in * by lia. apply Hno. left. exists n. done.
  - destruct bm_ind as [E|Hf]; [apply Hno; right; by rewrite <- E|].
    destruct (fo_ind _ _ _ bm_file Hne) as [Hr _]. destruct Hs as [_ [?|[_ ?]]]; [lia|congruence].
Qed.

(** bmap() as a write of no bytes. *)
Lemma written_bmap v al v' al' bn a off : file_ok v sb al → bmapped sb v al v' al' bn a → 0 ≤ bn < MAXFILE → written sb v al v' al' off [].
Proof using Hly.
  intros Hfo Hbm Hbn. pose proof Hbm as [].
  assert (Hkeep : ∀ n, 0 ≤ n < MAXFILE → iaddr v al n ≠ 0 → iaddr v' al' n = iaddr v al n).
  { intros n Hn Hne. destruct (decide (n = bn)) as [->|]; [|apply bm_other; lia]. rewrite bm_addr. by apply bm_found. }
  split; try done.
  - simpl. lia.
  - intros o Ho _ Hne. unfold fbyte. rewrite Hkeep by (done || by apply block_num). rewrite bm_frame; [done|..].
    + apply in_use_settled, Hfo; [by apply block_num|done].
    + intros _. apply Hfo; [by apply block_num|done].
  - intros x Hs Hno. apply bm_frame; [done|]. intros Hne ->. apply Hno. by right.
  - intros x. by eapply bmapped_own.
Qed.

(** Changing bytes of one data block. *)
Lemma written_block v al v' off w : file_ok v sb al → free_ok v sb → (∀ x, block_ok (v x)) →
  0 ≤ off → off + Z.of_nat (length w) ≤ MAXFILE * BSIZE → off mod BSIZE + Z.of_nat (length w) ≤ BSIZE → w ≠ [] →
  let a := iaddr v al (off / BSIZE) in a ≠ 0 →
  (∀ x, v' x = if x =? a then blk_put (v a) (off mod BSIZE) w else v x) → written sb v al v' al off w.
Proof using Hly.
  intros Hfo Hfr Hok Hoff Hmax Hfit Hne a Ha Hv'. pose proof Hfo as []. pose proof (dstart_pos sb Hly) as Hdp.
  assert (Hlen : (0 < length w)%nat) by (destruct w; simpl; [done|lia]).
  pose proof (Z.mod_pos_bound off BSIZE ltac:(done)) as Hmb. pose proof (Z.div_mod off BSIZE ltac:(done)) as Hdm.
  assert (Hbn : 0 ≤ off / BSIZE < MAXFILE) by (apply block_num; lia).
  pose proof (fo_used _ Hbn Ha) as Hau. fold a in Hau. pose proof (Hok a) as Hoka. unfold block_ok in Hoka.
  assert (Hbu : ∀ c, 0 ≤ c < sb_size sb → bused v' sb c = bused v sb c).
  { intros c Hc. unfold bused. rewrite Hv'. destruct (Z.eqb_spec (BBLOCK c sb) a) as [E|]; [|done].
    destruct (BBLOCK_in sb c Hc), Hau. lia. }
  assert (Hmono : ∀ c, in_use v sb c ↔ in_use v' sb c).
  { intros c. unfold in_use. split; intros [? ?]; (split; [done|]); [rewrite Hbu by lia|rewrite <- Hbu by lia]; done. }
  assert (Hia : ∀ n, iaddr v' al n = iaddr v al n).
  { intros n. unfold iaddr. rewrite Hv'. destruct (n <? NDIRECT); [done|].
    destruct (Z.eqb_spec (al !!! 12%nat) 0); [done|]. destruct (Z.eqb_spec (al !!! 12%nat) a) as [E|]; [|done].
    exfalso. by apply (fo_ind_ne _ Hbn Ha). }
  assert (Hfb : ∀ o, 0 ≤ o < MAXFILE * BSIZE → iaddr v al (o / BSIZE) ≠ 0 → fbyte v' al o =
    if decide (off ≤ o < off + Z.of_nat (length w)) then default Byte.x00 (w !! Z.to_nat (o - off)) else fbyte v al o).
  { intros o Ho Hno. unfold fbyte. rewrite Hia, Hv'. pose proof (Z.mod_pos_bound o BSIZE ltac:(done)). pose proof (Z.div_mod o BSIZE ltac:(done)).
    destruct (Z.eqb_spec (iaddr v al (o / BSIZE)) a) as [E|Hnea].
    - assert (Ed : o / BSIZE = off / BSIZE) by (apply fo_inj; [by apply block_num|done|done|done]).
      rewrite blk_put_lookup by lia. rewrite Ed in *. fold a. repeat case_decide; try lia; [|done]. do 2 f_equal. lia.
    - case_decide as Hin; [|done]. exfalso. apply Hnea. unfold a. f_equal.
      destruct (div_mod_block off (o - off)) as [Ed _]; [lia|lia|lia|]. by replace (off + (o - off)) with o in Ed by lia. }
  assert (Hin : ∀ j, (j < length w)%nat → (off + Z.of_nat j) / BSIZE = off / BSIZE) by (intros j Hj; apply div_mod_block; lia).
  split; try done.
  - split; try done.
    + intros n Hn. rewrite Hia, <- Hmono. by apply fo_used.
    + rewrite <- Hmono. done.
    + intros n m Hn Hm. rewrite !Hia. by apply fo_inj.
    + intros n Hn. rewrite Hia. by apply fo_ind_ne.
  - intros c Hc. rewrite Hbu by done. by apply Hfr.
  - intros j Hj. rewrite Hia, Hin by done. done.
  - intros j b Hj. pose proof (lookup_lt_Some _ _ _ Hj). rewrite Hfb; [|lia|by rewrite Hin].
    rewrite decide_True by lia. replace (Z.to_nat (off + Z.of_nat j - off)) with j by lia. by rewrite Hj.
  - intros o Ho Hor Hno. rewrite Hfb by done. by rewrite decide_False by lia.
  - intros c. by rewrite Hmono.
  - intros x _ Hno. rewrite Hv'. destruct (Z.eqb_spec x a) as [->|]; [|done]. exfalso. apply Hno. left. by exists (off / BSIZE).
  - intros x _ Hno [(n & Hn & Hnz & <-)|?]; apply Hno; [left; exists n; by rewrite <- Hia|by right].
Qed.

(** Two writes in a row. *)
Lemma written_join v al v1 al1 v' al' off w1 w2 : file_ok v sb al →
  written sb v al v1 al1 off w1 → written sb v1 al1 v' al' (off + Z.of_nat (length w1)) w2 →
  0 ≤ off → off + Z.of_nat (length w1 + length w2) ≤ MAXFILE * BSIZE →
  written sb v al v' al' off (w1 ++ w2).
Proof using Type.
  intros Hfo [] [] Hoff Hmax. split; try done.
  - intros j. rewrite length_app. intros Hj. destruct (decide (j < length w1)%nat) as [Hl|Hl].
    + rewrite wr_keep1; [by apply wr_addr0|apply block_num; lia|by apply wr_addr0].
    + replace (off + Z.of_nat j) with (off + Z.of_nat (length w1) + Z.of_nat (j - length w1)) by lia. apply wr_addr1. lia.
  - intros j b Hj. apply lookup_app_Some in Hj as [Hj|[Hge Hj]].
    + pose proof (lookup_lt_Some _ _ _ Hj). rewrite wr_old1; [by apply wr_new0|lia|lia|by apply wr_addr0].
    + replace (off + Z.of_nat j) with (off + Z.of_nat (length w1) + Z.of_nat (j - length w1)) by lia. by apply wr_new1.
  - intros o Ho Hor Hne. rewrite length_app in Hor. rewrite wr_old1; [apply wr_old0; [done|lia|done]|done|lia|].
    rewrite wr_keep0 by (done || by apply block_num). done.
  - intros n Hn Hne. rewrite wr_keep1; [by apply wr_keep0|done|]. by rewrite wr_keep0.
  - intros c Hc. by apply wr_mono1, wr_mono0.
  - intros x Hs Hno. rewrite wr_frame1.
    + by apply wr_frame0.
    + by eapply settled_mono.
    + by apply wr_own0.
  - intros x Hs Hno. apply wr_own1; [by eapply settled_mono|by apply wr_own0].
Qed.

(** ** The loop *)

Lemma writei_loop_spec src l fuel s ip tot off c : gives (fs_um s) src l →
  fs_sb s = sb → bl_txn (fs_bl s) [] → (ip < length (itab s))%nat → i_dev (geti ip s) = ROOTDEV → sb_size sb ≤ 2 ^ 32 →
  let n := Z.of_nat (length l) in let al := i_addrs (geti ip s) in let v := bl_view (fs_bl s) in
  file_ok v sb al → free_ok v sb → 0 ≤ off → 0 ≤ tot ≤ n → off + (n - tot) ≤ MAXFILE * BSIZE →
  room (fs_bl s) X (if tot <? n then 4 * c else 0) →
  (tot < n → off + (n - tot) ≤ (off / BSIZE + Z.of_nat c) * BSIZE ∧ (c < fuel)%nat) → (0 < fuel)%nat →
  ∃ k al' b', writei_loop fuel ip src tot off n s = Ret (tot + k, off + k) (fset ip al' b' s) ∧
  bl_txn b' [] ∧ room b' X 0 ∧ 0 ≤ k ≤ n - tot ∧ written sb v al (bl_view b') al' off (blk_get l tot (Z.to_nat k)) ∧
  (k < n - tot → ∀ d, 0 ≤ d < sb_size sb → bused (bl_view b') sb d = true).
Proof using Hly HX.
  revert s tot off c. induction fuel as [|fuel IH]; intros s tot off c Hg Hsb Ht Hi Hdev Hsz n al v Hfo Hfr Hoff Htot Hmax Hr Hc Hf; [lia|].
  cbn [writei_loop]. assert (Hid : ∀ b, fset ip al b s = set_fs_bl b s) by (intros; by apply fset_id).
  destruct (Z.ltb_spec tot n) as [Hlt|Hge].
  2: { exists 0, al, (fs_bl s). rewrite Hid, set_fs_bl_id, !Z.add_0_r. split_and!; try done; try lia.
       assert (blk_get l tot (Z.to_nat 0) = []) as -> by done. split; try done; simpl; intros; lia. }
  destruct (Hc Hlt) as [Hc1 Hc2].
  pose proof (Z.div_mod off BSIZE ltac:(done)) as Hdm. pose proof (Z.mod_pos_bound off BSIZE ltac:(done)) as Hmb.
  destruct c as [|c]; [exfalso; fsnorm; lia|].
  assert (Hbn : 0 ≤ off / BSIZE < MAXFILE) by (apply block_num; lia).
  destruct (bmap_spec sb Hly X HX s ip (off / BSIZE) (S (4 * c))) as (a & al1 & b1 & E1 & Ht1 & Hr1 & Hbm); try done.
  { eapply room_mono; [exact Hr|done|lia]. }
  rewrite (bind_Ret _ _ _ _ _ E1). fold al v in Hbm. pose proof (written_bmap v al _ al1 _ a off Hfo Hbm Hbn) as Hw1.
  pose proof Hbm as []. destruct (Z.eqb_spec a 0) as [E0|Hna].
  { exists 0, al1, b1. rewrite !Z.add_0_r. split_and!; try done; try lia; [eapply room_mono; [exact Hr1|done|lia]|].
    intros _ d Hd. by apply bm_full. }
  set (s1 := fset ip al1 b1 s). assert (Hg1 : geti ip s1 = i_set_addrs al1 (geti ip s)) by (by apply geti_fset).
  rewrite gets_bind', Hg1. cbn [i_set_addrs i_dev]. rewrite Hdev.
  assert (Hau : in_use (bl_view b1) sb a) by (rewrite <- bm_addr; apply bm_file; [done|by rewrite bm_addr]).
  destruct (bread_run b1 [] a X (S (4 * c)) Ht1) as (i & b2 & E2 & Ht2 & _ & Hv2 & Hl2 & Hm2 & Hr2); try done.
  { by eapply in_use_home. } { apply not_elem_of_nil. } { simpl. lia. }
  unfold fs_bread. rewrite (bl_bind _ _ s1 _ _ (E2 : bl_bread ROOTDEV a (fs_bl s1) = _)).
  set (m := Z.min (n - tot) (BSIZE - off mod BSIZE)). assert (Hm : 0 < m ≤ n - tot ∧ off mod BSIZE + m ≤ BSIZE) by (unfold m; lia).
  rewrite (bind_Ret _ _ _ _ _ (copyin_gives src l tot m (set_fs_bl b2 s1) Hg ltac:(lia) ltac:(lia) ltac:(unfold n in *; lia))). cbn [fst snd]. set (w := blk_get l tot (Z.to_nat m)).
  assert (Hwl : length w = Z.to_nat m) by (apply blk_get_length; unfold n in *; lia).
  assert (Hok1 : ∀ x, block_ok (bl_view b1 x)) by (intros x; by eapply bl_view_ok).
  destruct (change_run b2 i a false [] (λ d, blk_put d (off mod BSIZE) w) X (4 * c) Ht2) as (b3 & b4 & b5 & E3 & E4 & E5 & _ & Ht5 & Hr5 & _ & _ & Hv5).
  { by right. } { rewrite Hv2. unfold block_ok. rewrite blk_put_length; [apply Hok1|lia|]. specialize (Hok1 a). unfold block_ok in Hok1. lia. }
  unfold bstore. rewrite (bl_bind _ _ (set_fs_bl b2 s1) _ _ E3). unfold fs_log_write. rewrite (bl_bind _ _ (set_fs_bl b3 s1) _ _ E4).
  unfold fs_brelse. rewrite (bl_bind _ _ (set_fs_bl b4 s1) _ _ E5).
  set (s5 := set_fs_bl b5 s1). change (set_fs_bl b5 (set_fs_bl b4 s1)) with s5.
  assert (Hs5 : s5 = fset ip al1 b5 s) by done. assert (Hg5 : geti ip s5 = i_set_addrs al1 (geti ip s)) by exact Hg1.
  assert (Hw2 : written sb (bl_view b1) al1 (bl_view b5) al1 off w).
  { assert (Ea : iaddr (bl_view b1) al1 (off / BSIZE) = a) by done. rewrite <- Ea in Hv5, Hna.
    apply written_block; try done; rewrite ?Hwl; try lia.
    - intros E. rewrite E in Hwl. simpl in Hwl. lia.
    - intros x. rewrite Hv5, Hv2. destruct (_ =? _); done. }
  assert (Hw12 : written sb v al (bl_view b5) al1 off w).
  { change w with ([] ++ w). eapply written_join; [done|exact Hw1| |done|simpl; lia]. by rewrite Z.add_0_r. }
  destruct (IH s5 (tot + m) (off + m) c) as (k & al' & b' & E' & Ht' & Hr' & Hk & Hw3 & Hfull); try done; rewrite ?Hg5; try done.
  - unfold s5. simpl. by rewrite length_alter.
  - apply Hw12.
  - apply Hw12.
  - lia.
  - fold n. lia.
  - fold n. lia.
  - fold n. destruct (tot + m <? n); [done|]. eapply room_mono; [exact Hr5|done|lia].
  - fold n. intros Hlt'. assert (m = BSIZE - off mod BSIZE) as Em by (unfold m; lia).
    assert ((off + m) / BSIZE = off / BSIZE + 1) as -> by (symmetry; apply (Z.div_unique _ _ _ 0); fsnorm; lia).
    fsnorm. split; lia.
  - lia.
  - fold n in E', Hk, Hfull. exists (m + k), al', b'. rewrite E'. rewrite Hs5, fset_fset.
    split_and!; try done; try lia.
    + do 2 f_equal; lia.
    + rewrite Hg5 in Hw3. cbn [i_set_addrs i_addrs] in Hw3.
      assert (blk_get l tot (Z.to_nat (m + k)) = w ++ blk_get l (tot + m) (Z.to_nat k)) as ->.
      { unfold w, blk_get. rewrite Z2Nat.inj_add by lia. rewrite <- take_take_drop, drop_drop. do 2 f_equal. f_equal. lia. }
      assert (Hw3l : length (blk_get l (tot + m) (Z.to_nat k)) = Z.to_nat k) by (apply blk_get_length; unfold n in *; lia).
      eapply written_join; [done|exact Hw12| |done|rewrite Hwl, Hw3l; lia].
      rewrite Hwl, Z2Nat.id by lia. exact Hw3.
    + intros Hkn. apply Hfull. lia.
Qed.
End write.
