(* ===== verification/FsInode.v ===== *)
(** * kernel/fs.c: inodes on disk, iupdate() and writei() *)

From stdpp Require Import base gmap sets strings numbers list.
From coqutil Require Import Byte Word.LittleEndianList.
From S2P Require Import Prelude Riscv Spinlock Block Sleeplock Fs FsBlocks FsAlloc FsBmap FsFile FsWrite.

(** ** Reading back a [struct dinode] *)

Lemma blk_get_put_in b off bs c n : 0 ≤ off → off + Z.of_nat (length bs) ≤ Z.of_nat (length b) → 0 ≤ c →
  c + Z.of_nat n ≤ Z.of_nat (length bs) → blk_get (blk_put b off bs) (off + c) n = blk_get bs c n.
Proof.
  intros H1 H2 H3 H4. apply list_eq. intros i. destruct (decide (i < n)%nat) as [Hi|Hi].
  - rewrite !blk_lookup by lia. rewrite blk_put_lookup by done. rewrite decide_True by lia. f_equal. lia.
  - unfold blk_get. by rewrite !lookup_take_ge by lia.
Qed.

Lemma blk_get_app_l (l k : list byte) n : length l = n → blk_get (l ++ k) 0 n = l.
Proof. intros <-. unfold blk_get. simpl. by rewrite drop_0, take_app_length. Qed.

Lemma blk_get_app_r (l k : list byte) c n : Z.of_nat (length l) ≤ c → blk_get (l ++ k) c n = blk_get k (c - Z.of_nat (length l)) n.
Proof. intros Hc. unfold blk_get. rewrite drop_app_ge by lia. do 2 f_equal. lia. Qed.

Lemma blk_get_words l j a : l !! j = Some a → blk_get (mjoin (le_split 4 <$> l)) (4 * Z.of_nat j) 4 = le_split 4 a.
Proof.
  revert j. induction l as [|x l IH]; intros j Hj; [done|]. change (mjoin (le_split 4 <$> x :: l)) with (le_split 4 x ++ mjoin (le_split 4 <$> l)).
  destruct j as [|j]; [injection Hj as ->|].
  - apply blk_get_app_l. apply length_le_split.
  - change (l !! j = Some a) in Hj. rewrite blk_get_app_r by (rewrite length_le_split; lia). rewrite length_le_split.
    rewrite <- (IH j Hj). f_equal. lia.
Qed.

Lemma mjoin_words_length l : length (mjoin (le_split 4 <$> l)) = (4 * length l)%nat.
Proof.
  induction l as [|x l IH]; [done|]. change (mjoin (le_split 4 <$> x :: l)) with (le_split 4 x ++ mjoin (le_split 4 <$> l)).
  rewrite length_app, length_le_split, IH. simpl. lia.
Qed.

(** Fields that fit. *)
Definition short (x : Z) : Prop := - 2 ^ 15 ≤ x < 2 ^ 15.
Record dinode_ok (d : dinode) : Prop := {
  do_type : short (d_type d); do_major : short (d_major d); do_minor : short (d_minor d); do_nlink : short (d_nlink d);
  do_size : 0 ≤ d_size d < 2 ^ 32;
  do_len : length (d_addrs d) = 13%nat;
  do_addrs : Forall (λ a, 0 ≤ a < 2 ^ 32) (d_addrs d)
}.

Lemma dinode_bytes_length d : length (d_addrs d) = 13%nat → length (dinode_bytes d) = 64%nat.
Proof. intros Hl. unfold dinode_bytes. rewrite !length_app, !length_le_split, mjoin_words_length, Hl. done. Qed.

Lemma i16_split x : short x → i16 (le_combine (le_split 2 x)) = x.
Proof.
  unfold short. intros Hx. rewrite le_combine_split. unfold i16. change (2 ^ (Z.of_nat 2 * 8)) with (2 ^ 16).
  rewrite Z.add_mod_idemp_l by lia. rewrite Z.mod_small; lia.
Qed.

Section dinode.
Context (b : block) (k : Z) (d : dinode) (Hb : block_ok b) (Hk : 0 ≤ k < IPB).

Lemma dinode_off : 0 ≤ k * sizeof_dinode ∧ k * sizeof_dinode + 64 ≤ Z.of_nat (length b).
Proof using Hb Hk. unfold block_ok in Hb. rewrite Hb. change IPB with 16 in Hk. unfold sizeof_dinode. fsnorm. lia. Qed.

Lemma put_dinode_ok : length (d_addrs d) = 13%nat → block_ok (put_dinode b k d).
Proof using Hb Hk.
  intros Hl. destruct dinode_off. unfold block_ok, put_dinode. rewrite blk_put_length; [done|done|].
  by rewrite dinode_bytes_length.
Qed.

(** Encoding an inode in a block and decoding it gives it back. *)
Lemma get_put_dinode : dinode_ok d → get_dinode (put_dinode b k d) k = d.
Proof using Hb Hk.
  intros []. destruct dinode_off as [H1 H2]. pose proof (dinode_bytes_length d do_len0) as Hbl.
  assert (Hg : ∀ c n, 0 ≤ c → c + Z.of_nat n ≤ 64 → blk_get (put_dinode b k d) (k * sizeof_dinode + c) n = blk_get (dinode_bytes d) c n).
  { intros c n Hc Hn. unfold put_dinode. apply blk_get_put_in; rewrite ?Hbl; try done. }
  assert (Hf : ∀ c n l1 l2, dinode_bytes d = l1 ++ l2 → Z.of_nat (length l1) = c → blk_get (dinode_bytes d) c n = blk_get l2 0 n).
  { intros c n l1 l2 -> <-. rewrite blk_get_app_r by lia. f_equal. lia. }
  unfold get_dinode, get16, get32. rewrite <- (Z.add_0_r (k * sizeof_dinode)) at 1. rewrite !Hg by lia.
  destruct d as [t mj mn nl sz al]. simpl in *. set (o := k * sizeof_dinode) in *.
  assert (Hwords : (λ j, le_combine (blk_get (put_dinode b k (Dinode t mj mn nl sz al)) (o + 12 + 4 * Z.of_nat j) 4)) <$> seq 0 13 = al).
  { apply list_eq. intros j. destruct (al !! j) as [a|] eqn:Ej.
    - pose proof (lookup_lt_Some _ _ _ Ej) as Hj. rewrite list_lookup_fmap, lookup_seq_lt by lia. simpl. f_equal.
      rewrite <- Z.add_assoc, Hg by lia. unfold dinode_bytes. cbn [d_type d_major d_minor d_nlink d_size d_addrs].
      rewrite !app_assoc. rewrite blk_get_app_r by (rewrite !length_app, !length_le_split; lia).
      rewrite !length_app, !length_le_split. replace (12 + 4 * Z.of_nat j - _) with (4 * Z.of_nat j) by lia.
      rewrite (blk_get_words al j a Ej), le_combine_split. apply Z.mod_small. rewrite Forall_lookup in do_addrs0.
      exact (do_addrs0 j a Ej).
    - apply lookup_ge_None in Ej. apply lookup_ge_None. rewrite length_fmap, length_seq. lia. }
  change ((λ j, le_combine (blk_get (put_dinode b k (Dinode t mj mn nl sz al)) (o + 12 + 4 * Z.of_nat j) 4)) <$> seq 0 13 = al) in Hwords.
  f_equal; [..|exact Hwords]; unfold dinode_bytes; cbn [d_type d_major d_minor d_nlink d_size d_addrs];
    rewrite ?blk_get_app_r by (rewrite ?length_le_split; lia); rewrite ?length_le_split; rewrite blk_get_app_l by apply length_le_split;
    try by apply i16_split.
  rewrite le_combine_split. by apply Z.mod_small.
Qed.

(** The other inodes of the block are not touched. *)
Lemma get_put_dinode_ne j : length (d_addrs d) = 13%nat → 0 ≤ j < IPB → j ≠ k → get_dinode (put_dinode b k d) j = get_dinode b j.
Proof using Hb Hk.
  intros Hl Hj Hne. destruct dinode_off as [H1 H2]. pose proof (dinode_bytes_length d Hl) as Hbl. unfold sizeof_dinode in *.
  assert (Hg : ∀ c n, 0 ≤ c → c + Z.of_nat n ≤ 64 → blk_get (put_dinode b k d) (j * 64 + c) n = blk_get b (j * 64 + c) n).
  { intros c n Hc Hn. unfold put_dinode, sizeof_dinode. apply blk_get_put_ne; rewrite ?Hbl; lia. }
  unfold get_dinode, get16, get32, sizeof_dinode. pose proof (Hg 0 2%nat) as H0. rewrite Z.add_0_r in H0.
  rewrite H0 by lia. rewrite !Hg by lia. f_equal. apply list_fmap_ext. intros i x Hx. apply lookup_seq in Hx as [-> Hi].
  rewrite <- Z.add_assoc. by rewrite Hg by lia.
Qed.
End dinode.

Section inodes.
Context {B : BlockLayer} {U : UserMem} (sb : superblock) (Hly : layout sb) (X : gset Z) (HX : ∀ x, in_bmap sb x → x ∈ X).

(** ** Changing a block below the free map *)

Lemma meta_change v v' x0 : (∀ x, x ≠ x0 → v' x = v x) → x0 < sb_bmapstart sb →
  (∀ c, 0 ≤ c < sb_size sb → bused v' sb c = bused v sb c) ∧ (free_ok v sb → free_ok v' sb) ∧
  ∀ al, file_ok v sb al → file_ok v' sb al ∧ (∀ n, iaddr v' al n = iaddr v al n) ∧
    ∀ o, 0 ≤ o < MAXFILE * BSIZE → iaddr v al (o / BSIZE) ≠ 0 → fbyte v' al o = fbyte v al o.
Proof using Hly.
  intros Hv Hx0. pose proof (dstart_pos sb Hly) as Hdp. destruct Hly.
  assert (Hlow : ∀ x, sb_bmapstart sb ≤ x → v' x = v x) by (intros x Hx; apply Hv; lia).
  assert (Hbd : sb_bmapstart sb ≤ dstart sb).
  { unfold dstart. rewrite BPB_val in *. pose proof (Z.div_pos (sb_size sb) 8192). lia. }
  assert (Hb : ∀ c, 0 ≤ c < sb_size sb → bused v' sb c = bused v sb c).
  { intros c Hc. unfold bused. destruct (BBLOCK_in sb c Hc). by rewrite Hlow. }
  assert (Hu : ∀ c, in_use v' sb c ↔ in_use v sb c).
  { intros c. unfold in_use. split; intros [? ?]; (split; [done|]); [rewrite <- Hb by lia|rewrite Hb by lia]; done. }
  split; [done|]. split; [intros Hf c Hc; rewrite Hb by done; by apply Hf|]. intros al Hfo. pose proof Hfo as [].
  assert (Hia : ∀ n, iaddr v' al n = iaddr v al n).
  { intros n. unfold iaddr. destruct (n <? NDIRECT); [done|]. destruct (Z.eqb_spec (al !!! 12%nat) 0) as [|Hne]; [done|].
    destruct (fo_ind Hne). rewrite Hlow by lia. done. }
  split_and!; [|done|].
  - split; try done.
    + intros n Hn. rewrite Hia, Hu. by apply fo_used.
    + rewrite Hu. done.
    + intros n m Hn Hm. rewrite !Hia. by apply fo_inj.
    + intros n Hn. rewrite Hia. by apply fo_ind_ne.
  - intros o Ho Hne. unfold fbyte. rewrite Hia. destruct (fo_used _ (block_num o Ho) Hne). by rewrite Hlow by lia.
Qed.

Lemma iblock_range i : 0 ≤ i < sb_ninodes sb → sb_inodestart sb ≤ IBLOCK i sb < sb_bmapstart sb ∧ bl_home (IBLOCK i sb).
Proof using Hly.
  intros Hi. pose proof (dstart_pos sb Hly). destruct Hly. pose proof (ly_inodes i Hi).
  assert (sb_inodestart sb ≤ IBLOCK i sb) by (unfold IBLOCK; change IPB with 16; pose proof (Z.div_pos i 16); lia).
  split; [lia|]. apply ly_home. unfold dstart in *. rewrite BPB_val in *. pose proof (Z.div_pos (sb_size sb) 8192). lia.
Qed.

(** iupdate(): the inode's fields are on the disk, nothing else changed. *)
Lemma iupdate_spec s ip : fs_sb s = sb → bl_txn (fs_bl s) [] → i_dev (geti ip s) = ROOTDEV →
  let x := geti ip s in 0 ≤ i_inum x < sb_ninodes sb → length (i_addrs x) = 13%nat →
  IBLOCK (i_inum x) sb ∈ X → room (fs_bl s) X 0 →
  ∃ b', iupdate ip s = Ret tt (set_fs_bl b' s) ∧ bl_txn b' [] ∧ room b' X 0 ∧
  ∀ y, bl_view b' y = if y =? IBLOCK (i_inum x) sb
    then put_dinode (bl_view (fs_bl s) y) (i_inum x mod IPB) (i_dinode x) else bl_view (fs_bl s) y.
Proof using Hly.
  intros Hsb Ht Hdev x Hin Hlen HinX Hr. unfold iupdate. rewrite !gets_bind', Hsb, Hdev. fold x.
  destruct (iblock_range _ Hin) as [Hrg Hh]. assert (Hm : 0 ≤ i_inum x mod IPB < IPB) by (by apply Z.mod_pos_bound).
  destruct (bread_run _ [] (IBLOCK (i_inum x) sb) X 0 Ht Hh) as (i & b1 & E1 & Ht1 & _ & Hv1 & Hl1 & Hm1 & Hr1); [apply not_elem_of_nil|simpl; lia|done|].
  unfold fs_bread. rewrite (bl_bind _ _ s _ _ E1).
  destruct (change_run b1 i _ false [] (λ d, put_dinode d (i_inum x mod IPB) (i_dinode x)) X 0 Ht1) as (b2 & b3 & b4 & E2 & E3 & E4 & _ & Ht4 & Hr4 & _ & _ & Hv4).
  { by left. } { apply put_dinode_ok; [|done|done]. by eapply bl_view_ok. }
  unfold bstore. rewrite (bl_bind _ _ (set_fs_bl b1 s) _ _ E2). unfold fs_log_write. rewrite (bl_bind _ _ (set_fs_bl b2 s) _ _ E3).
  exists b4. split_and!; try done; [exact (bl_run _ (set_fs_bl b3 s) _ _ E4)|].
  intros y. rewrite Hv4, !Hv1. destruct (Z.eqb_spec y (IBLOCK (i_inum x) sb)) as [->|]; done.
Qed.

(** ** writei() *)

(** Inode [ip] with new addresses and size. *)
Definition fset2 (ip : nat) (al : list Z) (sz : Z) (b : bl_state) (s : fstate) : fstate :=
  set_itab (alter (λ x, i_set_size sz (i_set_addrs al x)) ip (itab s)) (set_fs_bl b s).

Lemma geti_fset2 ip al sz b s : (ip < length (itab s))%nat →
  geti ip (fset2 ip al sz b s) = i_set_size sz (i_set_addrs al (geti ip s)).
Proof using Type.
  intros Hi. unfold geti, fset2. simpl. apply list_lookup_total_correct.
  rewrite list_lookup_alter_eq. by rewrite (list_lookup_lookup_total_lt _ _ Hi).
Qed.

Lemma fset2_size ip al b s : (ip < length (itab s))%nat → fset2 ip al (i_size (geti ip s)) b s = fset ip al b s.
Proof using Type.
  intros Hi. unfold fset2, fset, set_itab. f_equal. apply list_eq. intros j.
  destruct (decide (j = ip)) as [->|Hne]; [|by rewrite !list_lookup_alter_ne].
  rewrite !list_lookup_alter_eq, (list_lookup_lookup_total_lt _ _ Hi). done.
Qed.

Lemma updi_fset2 {C} ip al sz b s (K : unit → M fstate C) :
  (updi ip (i_set_size sz) ≫= K) (fset ip al b s) = K tt (fset2 ip al sz b s).
Proof using Type.
  unfold updi, modify, mbind, M_bind. f_equal. unfold fset2, fset, set_itab. simpl. f_equal. apply list_eq. intros j.
  destruct (decide (j = ip)) as [->|Hne]; [|by rewrite !list_lookup_alter_ne].
  rewrite !list_lookup_alter_eq. by destruct (itab s !! ip).
Qed.

Lemma dense_written v al v' al' off w sz : dense v al sz → written sb v al v' al' off w →
  0 ≤ off ≤ sz → off + Z.of_nat (length w) ≤ MAXFILE * BSIZE → dense v' al' (Z.max sz (off + Z.of_nat (length w))).
Proof using Type.
  intros [Hsz Hd] [] Hoff Hmax. split; [lia|]. intros n Hn Hlt. destruct (Z.lt_ge_cases (n * BSIZE) sz) as [Hs|Hs].
  - rewrite wr_keep; [by apply Hd|split; [done|fsnorm; lia]|by apply Hd].
  - assert (Hj : (Z.to_nat (n * BSIZE - off) < length w)%nat) by lia.
    specialize (wr_addr _ Hj). replace (off + Z.of_nat (Z.to_nat (n * BSIZE - off))) with (n * BSIZE) in wr_addr by lia.
    by rewrite Z.div_mul in wr_addr.
Qed.

(** The file [ip] is in order. *)
Record inode_ok (s : fstate) (ip : nat) : Prop := {
  io_lt : (ip < length (itab s))%nat;
  io_dev : i_dev (geti ip s) = ROOTDEV;
  io_inum : 0 ≤ i_inum (geti ip s) < sb_ninodes sb;
  io_file : file_ok (bl_view (fs_bl s)) sb (i_addrs (geti ip s));
  io_dense : dense (bl_view (fs_bl s)) (i_addrs (geti ip s)) (i_size (geti ip s));
  io_block : IBLOCK (i_inum (geti ip s)) sb ∈ X
}.

Lemma written_meta v al v1 al' v' off w x0 : file_ok v sb al → written sb v al v1 al' off w →
  0 ≤ off → off + Z.of_nat (length w) ≤ MAXFILE * BSIZE → (∀ x, x ≠ x0 → v' x = v1 x) → x0 < sb_bmapstart sb →
  file_ok v' sb al' ∧ free_ok v' sb ∧ (∀ n, iaddr v' al' n = iaddr v1 al' n) ∧
  (∀ j b, w !! j = Some b → fbyte v' al' (off + Z.of_nat j) = b) ∧
  (∀ o, 0 ≤ o < MAXFILE * BSIZE → o < off ∨ off + Z.of_nat (length w) ≤ o → iaddr v al (o / BSIZE) ≠ 0 →
    fbyte v' al' o = fbyte v al o).
Proof using Hly.
  intros Hfo Hw Hoff Hmax Hv Hx0. pose proof Hw as []. destruct (meta_change v1 v' x0 Hv Hx0) as (_ & Hfr & Hal).
  destruct (Hal al' wr_file) as (Hf & Hia & Hfb). split_and!; [done|by apply Hfr|done|..].
  - intros j b Hj. pose proof (lookup_lt_Some _ _ _ Hj). rewrite Hfb; [by apply wr_new|lia|by apply wr_addr].
  - intros o Ho Hor Hne. rewrite Hfb; [by apply wr_old|done|]. rewrite wr_keep by (done || by apply block_num). done.
Qed.

Lemma writei_spec s ip src l off c : gives (fs_um s) src l → fs_sb s = sb → bl_txn (fs_bl s) [] → sb_size sb ≤ 2 ^ 32 → inode_ok s ip →
  let n := Z.of_nat (length l) in let x := geti ip s in let v := bl_view (fs_bl s) in
  free_ok v sb → 0 ≤ off ≤ i_size x → off + n ≤ MAXFILE * BSIZE →
  (0 < n → off + n ≤ (off / BSIZE + Z.of_nat c) * BSIZE ∧ (c ≤ length l)%nat) →
  room (fs_bl s) X (4 * c) →
  ∃ k al' b', let sz' := Z.max (i_size x) (off + k) in let s' := fset2 ip al' sz' b' s in
  writei ip src off n s = Ret k s' ∧ bl_txn b' [] ∧ room b' X 0 ∧ 0 ≤ k ≤ n ∧
  inode_ok s' ip ∧ free_ok (bl_view b') sb ∧
  (∀ j b, (Z.of_nat j < k) → l !! j = Some b → fbyte (bl_view b') al' (off + Z.of_nat j) = b) ∧
  (∀ o, 0 ≤ o < i_size x → o < off ∨ off + k ≤ o → fbyte (bl_view b') al' o = fbyte v (i_addrs x) o) ∧
  (k < n → ∀ d, 0 ≤ d < sb_size sb → bused (bl_view b') sb d = true).
Proof using Hly HX.
  intros Hgv Hsb Ht Hsz Hio n x v Hfr Hoff Hmax Hc Hr. pose proof Hio as [].
  assert (Hb32 : MAXFILE * BSIZE < 2 ^ 32) by done.
  assert (Hu : u32 (off + n) = off + n) by (apply u32_id; lia).
  unfold writei. rewrite gets_bind'. fold x. rewrite Hu. destruct (Z.ltb_spec (i_size x) off); [lia|].
  destruct (Z.ltb_spec (off + n) off); [lia|]. cbn [orb]. destruct (Z.ltb_spec (MAXFILE * BSIZE) (off + n)); [lia|].
  destruct (writei_loop_spec sb Hly X HX src l (S (Z.to_nat n)) s ip 0 off c) as (k & al' & b1 & E & Ht1 & Hr1 & Hk & Hw & Hfull);
    try done; try lia.
  { eapply room_mono; [exact Hr|done|]. destruct (0 <? _); lia. }
  fold n v x in E, Hk, Hfull, Hw. rewrite (bind_Ret _ _ _ _ _ E). cbn [fst snd]. rewrite Z.add_0_l, Z.sub_0_r in *.
  set (w := blk_get l 0 (Z.to_nat k)) in *. assert (Hwl : Z.of_nat (length w) = k) by (unfold w; rewrite blk_get_length; unfold n in *; lia).
  rewrite gets_bind', geti_fset by done. cbn [i_set_addrs i_size]. fold x. set (sz' := Z.max (i_size x) (off + k)).
  assert (Hstep : ∀ (K : unit → M fstate Z), ((if i_size x <? off + k then updi ip (i_set_size (off + k)) else mret tt) ≫= K) (fset ip al' b1 s) = K tt (fset2 ip al' sz' b1 s)).
  { intros K. unfold sz'. destruct (Z.ltb_spec (i_size x) (off + k)).
    - rewrite updi_fset2. by rewrite Z.max_r by lia.
    - rewrite Z.max_l by lia. unfold x. by rewrite fset2_size. }
  rewrite Hstep. set (s1 := fset2 ip al' sz' b1 s).
  assert (Hg1 : geti ip s1 = i_set_size sz' (i_set_addrs al' x)) by (by apply geti_fset2).
  destruct (iupdate_spec s1 ip) as (b2 & E2 & Ht2 & Hr2 & Hv2); rewrite ?Hg1; try done; [apply Hw|].
  rewrite (bind_Ret _ _ _ _ _ E2). rewrite Hg1 in Hv2. cbn [i_set_size i_set_addrs i_inum] in Hv2.
  destruct (iblock_range _ io_inum0) as [Hrg _]. fold x in Hrg.
  assert (Hv2' : ∀ y, y ≠ IBLOCK (i_inum x) sb → bl_view b2 y = bl_view b1 y).
  { intros y Hy. rewrite Hv2. by destruct (Z.eqb_spec y (IBLOCK (i_inum x) sb)). }
  destruct (written_meta v (i_addrs x) (bl_view b1) al' (bl_view b2) off w (IBLOCK (i_inum x) sb) io_file0 Hw) as (Hf2 & Hfr2 & Hia2 & Hnew & Hold); try done; try lia.
  exists k, al', b2. cbv zeta. fold sz'. split_and!; try done; try lia.
  - assert (Hg2 : geti ip (fset2 ip al' sz' b2 s) = i_set_size sz' (i_set_addrs al' x)) by (by apply geti_fset2).
    split; rewrite ?Hg2; cbn [i_set_size i_set_addrs i_dev i_inum i_addrs i_size fset2 set_itab set_fs_bl fs_bl itab]; try done.
    + by rewrite length_alter.
    + destruct (dense_written v (i_addrs x) (bl_view b1) al' off w (i_size x) io_dense0 Hw) as [Hd1 Hd2]; [done|lia|].
      rewrite Hwl in Hd1, Hd2. split; [done|]. intros m Hm1 Hm2. rewrite Hia2. by apply Hd2.
  - intros j b Hj Hb. apply Hnew. unfold w. rewrite blk_lookup by lia. done.
  - intros o Ho Hor. destruct io_dense0 as [Hmx Hdn]. fold x in Hmx, Hdn. apply Hold; [lia|lia|]. apply Hdn; [apply Z.div_pos; fsnorm; lia|].
    pose proof (Z.div_mod o BSIZE ltac:(done)). pose proof (Z.mod_pos_bound o BSIZE ltac:(done)). fsnorm. lia.
  - intros Hkn d Hd. destruct (meta_change (bl_view b1) (bl_view b2) _ Hv2') as (Hbu & _); [lia|]. rewrite Hbu by done. by apply Hfull.
Qed.
End inodes.
