(* ===== verification/BlockLog.v ===== *)
(** * log.c and bio.c implement the block layer of the file system *)

From stdpp Require Import base gmap sets strings numbers list.
From coqutil Require Import Byte Word.LittleEndianList.
From S2P Require Import Prelude Riscv Spinlock Block Sleeplock Bio BioLru BioFacts BioOps BioThms.
From S2P Require Import Log LogFacts LogRun LogCrash LogBoot LogSys Block.

Section impl.
Context {D : DiskDriver} (pid start nlog : Z).

(** log_write() panics when the log is full even if the block is in it
    already: the last place is not usable. *)
Definition log_limit (s : lstate) : nat :=
  if lg_outstanding s <? 1 then 0%nat else Z.to_nat (Z.min LOGSIZE (lg_size s - 1) - 1).

Definition bns (H : list held) : list Z := hd_bn <$> H.

(** Process [pid] holds the buffers [H] and nobody else holds any. *)
Definition log_txn (s : lstate) (H : list held) : Prop := ∃ v r h d t bl,
  cst (lg_bc s) v r h d t ∧ log_ok start nlog s bl ∧ NoDup (bns H) ∧
  (∀ x, h x = if decide (x ∈ bns H) then Some pid else None) ∧
  (∀ x, r x = (if decide (x ∈ bl) then 1 else 0) + (if decide (x ∈ bns H) then 1 else 0)) ∧
  (∀ e, e ∈ H → bheld (lg_bc s) pid (hd_buf e) (hd_bn e) ∧ small (hd_bn e) ∧ ¬ log_area start nlog (hd_bn e)) ∧
  (∀ x, v x = d x ∨ x ∈ bl ∨ ∃ e, e ∈ H ∧ hd_bn e = x ∧ hd_dirty e = true).

Definition log_logged (s : lstate) : gset Z := list_to_set (logged s).
Definition log_view (s : lstate) (x : Z) : block := bview (lg_bc s) x.
Definition log_home (bn : Z) : Prop := small bn ∧ ¬ log_area start nlog bn.

Lemma log_logged_size s bl : log_ok start nlog s bl → log_logged s = list_to_set bl ∧ size (log_logged s) = length bl.
Proof.
  intros Hlo. unfold log_logged. rewrite (logged_eq start nlog s bl Hlo). split; [done|]. apply size_list_to_set. apply Hlo.
Qed.

Lemma bns_cons e H : bns (e :: H) = hd_bn e :: bns H.
Proof. done. Qed.

Lemma elem_of_bns_inv x H : x ∈ bns H → ∃ e, e ∈ H ∧ hd_bn e = x.
Proof. intros (e & -> & He)%list_elem_of_fmap. by exists e. Qed.

Lemma in_cons_iff (x b : Z) (l : list Z) : x ∈ b :: l ↔ x = b ∨ x ∈ l.
Proof. apply elem_of_cons. Qed.

Lemma log_bread_law s H bn : log_txn s H → log_home bn → bn ∉ bns H → (length H ≤ 2)%nat →
  (size (log_logged s) + 3 ≤ NBUF)%nat →
  ∃ i s', bio (bread pid ROOTDEV bn) s = Ret i s' ∧ log_txn s' (Held i bn false :: H) ∧
  (∀ x, log_view s' x = log_view s x) ∧ log_logged s' = log_logged s ∧ log_limit s' = log_limit s.
Proof.
  intros (v & r & h & d & t & bl & Hc & Hlo & Hnd & Hh & Hr & Hb & Hdirty) [Hsm Ha] Hbn Hlen Hsz.
  destruct (log_logged_size s bl Hlo) as [_ Hsize]. rewrite Hsize in Hsz.
  assert (HP : refs_in r (bl ++ bns H)).
  { intros x. rewrite Hr, elem_of_app. repeat case_decide; try tauto. lia. }
  destruct (cst_bread pid (lg_bc s) v r h d t bn (bl ++ bns H) Hc) as (i & c & E & Hc' & Hi & Hk).
  - rewrite Hh. by rewrite decide_False.
  - rewrite Hr. repeat case_decide; lia.
  - right. split; [done|]. rewrite length_app. unfold bns. rewrite length_fmap. lia.
  - exists i, (set_lg_bc c s). split_and!.
    + exact (zoom_Ret lg_bc set_lg_bc _ s _ _ E).
    + exists v, (upd r bn (r bn + 1)), (upd h bn (Some pid)), d, t, bl. split_and!; try done.
      * by apply log_ok_bc.
      * rewrite bns_cons. by apply NoDup_cons.
      * intros x. rewrite bns_cons. unfold upd. simpl. destruct (Z.eqb_spec x bn) as [->|Hne].
        -- rewrite decide_True by (by left). done.
        -- rewrite Hh. destruct (decide (x ∈ bns H)) as [Hin|Hin].
           ++ rewrite decide_True; [done|by right].
           ++ rewrite decide_False; [done|]. rewrite in_cons_iff. tauto.
      * intros x. rewrite bns_cons. unfold upd. simpl. destruct (Z.eqb_spec x bn) as [->|Hne].
        -- rewrite (decide_True (P := bn ∈ bn :: _)) by (by left). rewrite Hr, (decide_False (P := bn ∈ bns H)) by done. lia.
        -- rewrite Hr. destruct (decide (x ∈ bns H)) as [Hin|Hin].
           ++ rewrite (decide_True (P := x ∈ bn :: _)); [done|by right].
           ++ rewrite (decide_False (P := x ∈ bn :: _)); [done|]. rewrite in_cons_iff. tauto.
      * intros e [->|He]%elem_of_cons; [done|]. destruct (Hb e He) as (Hb1 & Hb2 & Hb3). split_and!; try done. by apply Hk.
      * intros x. destruct (Hdirty x) as [?|[?|(e & He & ?)]]; [by left|by (right; left)|]. right; right. exists e.
        split; [by right|done].
    + intros x. unfold log_view. destruct Hc as (l1 & _ & Hv1 & _), Hc' as (l2 & _ & Hv2 & _). simpl. by rewrite Hv1, Hv2.
    + done.
    + done.
Qed.

Lemma log_data_law s i bn f H : log_txn s (Held i bn f :: H) → b_data (getb i (lg_bc s)) = log_view s bn.
Proof.
  intros (v & r & h & d & t & bl & Hc & _ & _ & _ & _ & Hb & _). destruct (Hb (Held i bn f)) as [Hi _]; [by left|]. simpl in Hi.
  rewrite (cst_data pid _ _ _ _ _ _ _ _ Hc Hi). destruct Hc as (l & _ & Hv & _). unfold log_view. by rewrite Hv.
Qed.

(** The handles of different blocks differ. *)
Lemma log_handles s v r h d t i bn f H e : cst (lg_bc s) v r h d t → NoDup (bns (Held i bn f :: H)) →
  (∀ e, e ∈ Held i bn f :: H → bheld (lg_bc s) pid (hd_buf e) (hd_bn e) ∧ small (hd_bn e) ∧ ¬ log_area start nlog (hd_bn e)) →
  e ∈ H → hd_buf e ≠ i ∧ hd_bn e ≠ bn.
Proof.
  intros Hc Hnd Hb He. rewrite bns_cons in Hnd. apply NoDup_cons in Hnd as [Hni _].
  assert (Hne : hd_bn e ≠ bn). { intros <-. apply Hni. simpl. by apply list_elem_of_fmap_2. }
  split; [|done]. destruct (Hb e) as [H1 _]; [by right|]. destruct (Hb (Held i bn f)) as [H2 _]; [by left|]. simpl in H2.
  by apply (bheld_ne pid _ _ _ _ _ _ _ _ _ _ Hc H1 H2).
Qed.

Lemma log_modify_law s i bn f H g : log_txn s (Held i bn f :: H) → block_ok (g (log_view s bn)) →
  ∃ s', bio (bmodify i g) s = Ret tt s' ∧ log_txn s' (Held i bn true :: H) ∧
  (∀ x, log_view s' x = if x =? bn then g (log_view s bn) else log_view s x) ∧
  log_logged s' = log_logged s ∧ log_limit s' = log_limit s.
Proof.
  intros (v & r & h & d & t & bl & Hc & Hlo & Hnd & Hh & Hr & Hb & Hdirty) Hg.
  assert (Hvw : log_view s bn = v bn) by (destruct Hc as (l & _ & Hv & _); unfold log_view; apply Hv). rewrite Hvw in *.
  destruct (Hb (Held i bn f)) as [Hi _]; [by left|]. simpl in Hi.
  destruct (cst_bmodify pid _ _ _ _ _ _ i bn g Hc Hi Hg) as (c & E & Hc' & Hi' & Hk).
  exists (set_lg_bc c s). split_and!; [exact (zoom_Ret lg_bc set_lg_bc _ s _ _ E)| | |done|done].
  - exists (upd v bn (g (v bn))), r, h, d, t, bl. split_and!; try done.
    + by apply log_ok_bc.
    + intros e He. apply elem_of_cons in He as [->|He]; simpl.
      * split; [done|]. destruct (Hb (Held i bn f)) as [_ ?]; [by left|done].
      * destruct (log_handles s v r h d t i bn f H e Hc Hnd Hb He) as [Hne _]. destruct (Hb e) as (H1 & H2); [by right|].
        split; [by apply (Hk (hd_buf e) pid (hd_bn e))|done].
    + intros x. destruct (decide (x = bn)) as [->|Hne]; [right; right; exists (Held i bn true); split_and!; [by left|done|done]|].
      rewrite upd_ne by done. destruct (Hdirty x) as [?|[?|(e & He & Hex & Hed)]]; [by left|by (right; left)|].
      apply elem_of_cons in He as [->|He]; [done|]. right; right. exists e. split_and!; try done. by right.
  - intros x. destruct Hc as (l1 & _ & Hv1 & _), Hc' as (l2 & _ & Hv2 & _). unfold log_view. simpl. rewrite Hv2, Hv1. done.
Qed.

Lemma log_log_write_law s i bn f H : log_txn s (Held i bn f :: H) → (size ({[bn]} ∪ log_logged s) ≤ log_limit s)%nat →
  ∃ s', log_write i s = Ret tt s' ∧ log_txn s' (Held i bn false :: H) ∧
  (∀ x, log_view s' x = log_view s x) ∧ log_logged s' = {[bn]} ∪ log_logged s ∧ log_limit s' = log_limit s.
Proof.
  intros (v & r & h & d & t & bl & Hc & Hlo & Hnd & Hh & Hr & Hb & Hdirty) Hsz.
  destruct (log_logged_size s bl Hlo) as [Hset Hsize]. pose proof Hlo as [].
  assert (Hle : (length bl ≤ log_limit s)%nat).
  { rewrite <- Hsize. etrans; [|exact Hsz]. apply subseteq_size. set_solver. }
  assert (Hpos : (0 < log_limit s)%nat).
  { assert (0 < size ({[bn]} ∪ log_logged s))%nat; [|lia]. rewrite size_union_alt, size_singleton. lia. }
  unfold log_limit in Hle, Hpos, Hsz. destruct (Z.ltb_spec (lg_outstanding s) 1); [lia|].
  destruct (Hb (Held i bn f)) as (Hi & Hsm & Ha); [by left|]. simpl in Hi, Hsm, Ha.
  assert (Hrb : r bn < 2 ^ 32 - 1) by (rewrite Hr; repeat case_decide; lia).
  destruct (log_write_spec pid i bn s v r h d t bl) as (c & l & E & Hl & Hlj & Hc' & Hk); try done; try lia.
  set (s' := set_lh_n _ _) in E. exists s'.
  assert (Hlo' : log_ok start nlog s' (log_add bn bl)).
  { split; simpl; try done.
    - pose proof (log_add_length bn bl). lia.
    - split; [lia|]. intros j b Hj. rewrite Z.add_0_l, Nat2Z.id. by apply Hlj.
    - by apply log_add_NoDup.
    - apply Forall_forall. intros x [->|Hx]%elem_of_log_add; [done|]. by apply (proj1 (Forall_forall _ _) lo_small).
    - intros x [->|Hx]%elem_of_log_add; [done|]. by apply lo_home. }
  split_and!; [done| | | |done].
  - eexists v, _, h, d, t, (log_add bn bl). split_and!; [exact Hc'|done|exact Hnd|exact Hh|..].
    + intros x. rewrite bns_cons in *. simpl in *. case_decide as Hin.
      * rewrite Hr. assert (log_add bn bl = bl) as -> by (unfold log_add; by rewrite decide_True). done.
      * unfold upd. destruct (Z.eqb_spec x bn) as [->|Hne].
        -- rewrite Hr, (decide_False (P := bn ∈ bl)) by done. rewrite (decide_True (P := bn ∈ log_add bn bl)) by (apply elem_of_log_add; by left). lia.
        -- rewrite Hr. f_equal. destruct (decide (x ∈ bl)).
           ++ by rewrite decide_True by (apply elem_of_log_add; by right).
           ++ rewrite decide_False; [done|]. rewrite elem_of_log_add. tauto.
    + intros e [->|He]%elem_of_cons; simpl; [split_and!; [by apply Hk|done|done]|].
      destruct (Hb e) as (H1 & H2); [by right|]. split; [by apply Hk|done].
    + intros x. rewrite elem_of_log_add. destruct (Hdirty x) as [?|[?|(e & He & Hex & Hed)]]; [by left|by (right; left; right)|].
      apply elem_of_cons in He as [->|He]; [right; left; by left|]. right; right. exists e. split_and!; try done. by right.
  - intros x. destruct Hc as (l1 & _ & Hv1 & _), Hc' as (l2 & _ & Hv2 & _). unfold log_view. simpl. by rewrite Hv1, Hv2.
  - destruct (log_logged_size s' _ Hlo') as [-> _]. rewrite Hset. apply set_eq. intros x.
    rewrite elem_of_union, !elem_of_list_to_set, elem_of_log_add, elem_of_singleton. done.
Qed.

Lemma log_brelse_law s i bn H : log_txn s (Held i bn false :: H) →
  ∃ s', bio (brelse pid i) s = Ret tt s' ∧ log_txn s' H ∧
  (∀ x, log_view s' x = log_view s x) ∧ log_logged s' = log_logged s ∧ log_limit s' = log_limit s.
Proof.
  intros (v & r & h & d & t & bl & Hc & Hlo & Hnd & Hh & Hr & Hb & Hdirty).
  pose proof Hnd as Hnd'. rewrite bns_cons in Hnd'. apply NoDup_cons in Hnd' as [Hni Hnd']. simpl in Hni.
  destruct (Hb (Held i bn false)) as (Hi & _); [by left|]. simpl in Hi.
  assert (Hcl : 2 ≤ r bn ∨ v bn = d bn).
  { destruct (Hdirty bn) as [?|[Hin|(e & He & Hex & Hed)]]; [by right|left|].
    - rewrite Hr, bns_cons. simpl. rewrite !decide_True; [lia|by left|done].
    - apply elem_of_cons in He as [->|He]; [done|]. exfalso. apply Hni. rewrite <- Hex. by apply list_elem_of_fmap_2. }
  destruct (cst_brelse pid _ _ _ _ _ _ i bn Hc Hi Hcl) as (c & E & Hc' & Hk).
  exists (set_lg_bc c s). split_and!; [exact (zoom_Ret lg_bc set_lg_bc _ s _ _ E)| | |done|done].
  - exists v, (upd r bn (r bn - 1)), (upd h bn None), d, t, bl. split_and!; try done.
    + by apply log_ok_bc.
    + intros x. unfold upd. destruct (Z.eqb_spec x bn) as [->|Hne]; [by rewrite decide_False|].
      rewrite Hh, bns_cons. simpl. destruct (decide (x ∈ bns H)).
      * rewrite decide_True; [done|by right].
      * rewrite decide_False; [done|]. rewrite in_cons_iff. tauto.
    + intros x. unfold upd. destruct (Z.eqb_spec x bn) as [->|Hne].
      * rewrite Hr, bns_cons. simpl. rewrite (decide_True (P := bn ∈ bn :: _)) by (by left). rewrite (decide_False (P := bn ∈ bns H)) by done. lia.
      * rewrite Hr, bns_cons. simpl. f_equal. destruct (decide (x ∈ bns H)).
        -- rewrite decide_True; [done|by right].
        -- rewrite decide_False; [done|]. rewrite in_cons_iff. tauto.
    + intros e He. destruct (log_handles s v r h d t i bn false H e Hc Hnd Hb He) as [Hne _]. destruct (Hb e) as (H1 & H2); [by right|].
      split; [by apply (Hk (hd_buf e) pid (hd_bn e))|done].
    + intros x. destruct (Hdirty x) as [?|[?|(e & He & Hex & Hed)]]; [by left|by (right; left)|].
      apply elem_of_cons in He as [->|He]; [done|]. right; right. by exists e.
  - intros x. destruct Hc as (l1 & _ & Hv1 & _), Hc' as (l2 & _ & Hv2 & _). unfold log_view. simpl. by rewrite Hv1, Hv2.
Qed.

Lemma log_view_ok s H x : log_txn s H → block_ok (log_view s x).
Proof.
  intros (v & r & h & d & t & bl & Hc & _). unfold log_view.
  destruct (cst_block_ok _ _ _ _ _ _ x Hc) as [Hok _]. destruct Hc as (l & _ & Hv & _). by rewrite Hv.
Qed.

#[export] Instance log_blocks : BlockLayer := {|
  bl_state := lstate;
  bl_bread dev bn := bio (bread pid dev bn);
  bl_brelse i := bio (brelse pid i);
  bl_log_write i := log_write i;
  bl_modify i g := bio (bmodify i g);
  bl_data i s := b_data (getb i (lg_bc s));
  bl_view := log_view;
  bl_logged := log_logged;
  bl_limit := log_limit;
  bl_home := log_home;
  bl_txn := log_txn;
  bl_view_ok := log_view_ok;
  bl_data_law := log_data_law;
  bread_law := log_bread_law;
  modify_law := log_modify_law;
  log_write_law := log_log_write_law;
  brelse_law := log_brelse_law
|}.
End impl.
