(* ===== verification/FsThms.v ===== *)
(** * kernel/fs.c: properties of blocks and file contents

    The properties hold over any [BlockLayer]; the witnesses run on the log
    and buffer cache of log.c and bio.c, on a small file system like the one
    mkfs makes. *)

From stdpp Require Import base gmap sets strings numbers list.
From coqutil Require Import Byte Word.LittleEndianList.
From S2P Require Import Prelude Mem Riscv Spinlock Block Sleeplock Fs FsBlocks FsAlloc FsBmap FsFile FsWrite FsInode.
From S2P Require Import Bio BioLru BioFacts BioOps BioThms Log LogFacts LogRun LogCrash LogBoot LogSys LogThms BlockLog.

Section thms.
Context {B : BlockLayer} {U : UserMem}.

(** The free map's blocks are among [X]. *)
Definition bmap_in (sb : superblock) (X : gset Z) : Prop := ∀ x, in_bmap sb x → x ∈ X.

(** balloc() returns a data block that was free, zeroed, and marks exactly
    it as used; no other block changes but the free map.  It returns 0 only
    when no block is free, and then changes nothing. *)
Theorem balloc_allocates s X k : layout (fs_sb s) → bmap_in (fs_sb s) X → bl_txn (fs_bl s) [] →
  free_ok (bl_view (fs_bl s)) (fs_sb s) → room (fs_bl s) X (S k) →
  ∃ a b', balloc ROOTDEV s = Ret a (set_fs_bl b' s) ∧ bl_txn b' [] ∧ room b' X k ∧
  ((a ≠ 0 ∧ dstart (fs_sb s) ≤ a < sb_size (fs_sb s) ∧ bused (bl_view (fs_bl s)) (fs_sb s) a = false ∧
    (∀ c, 0 ≤ c < sb_size (fs_sb s) → bused (bl_view b') (fs_sb s) c = if c =? a then true else bused (bl_view (fs_bl s)) (fs_sb s) c) ∧
    (∀ x, ¬ in_bmap (fs_sb s) x → bl_view b' x = if x =? a then zero_block else bl_view (fs_bl s) x)) ∨
   (a = 0 ∧ (∀ x, bl_view b' x = bl_view (fs_bl s) x) ∧
    ∀ c, 0 ≤ c < sb_size (fs_sb s) → bused (bl_view (fs_bl s)) (fs_sb s) c = true)).
Proof.
  intros Hly HX Ht Hfr Hr. destruct (balloc_spec (fs_sb s) Hly X HX s [] k) as (a & b' & E & Ht' & Hr' & Hcase); try done.
  { simpl. lia. } { intros h []%elem_of_nil. }
  exists a, b'. split_and!; try done. destruct Hcase as [[Ha Hal]|(-> & _ & Hv & Hf)]; [left|right]; done.
Qed.

(** bfree() of a block in use frees exactly it, so that balloc() can return
    it again, and bfree() of a free block panics. *)
Theorem bfree_frees s a X k : layout (fs_sb s) → bmap_in (fs_sb s) X → bl_txn (fs_bl s) [] →
  0 ≤ a < sb_size (fs_sb s) → room (fs_bl s) X k →
  (bused (bl_view (fs_bl s)) (fs_sb s) a = false → bfree ROOTDEV a s = Panic "freeing free block") ∧
  (bused (bl_view (fs_bl s)) (fs_sb s) a = true → ∃ b', bfree ROOTDEV a s = Ret tt (set_fs_bl b' s) ∧ bl_txn b' [] ∧
    (∀ c, 0 ≤ c < sb_size (fs_sb s) → bused (bl_view b') (fs_sb s) c = if c =? a then false else bused (bl_view (fs_bl s)) (fs_sb s) c) ∧
    ∀ x, ¬ in_bmap (fs_sb s) x → bl_view b' x = bl_view (fs_bl s) x).
Proof.
  intros Hly HX Ht Ha Hr. destruct (bfree_run (fs_sb s) Hly X HX s [] a k) as [H1 H2]; try done.
  { simpl. lia. } { intros h []%elem_of_nil. }
  split; [done|]. intros Hu. destruct (H1 Hu) as (b' & E & Ht' & _ & Hb & Hx). by exists b'.
Qed.

(** The in-memory inode [ip] and the disk are in order, and the log has room
    for [k] blocks besides [X]. *)
Record fs_ready (s : fstate) (ip : nat) (X : gset Z) (k : nat) : Prop := {
  fr_layout : layout (fs_sb s);
  fr_size : sb_size (fs_sb s) ≤ 2 ^ 32;
  fr_bmap : bmap_in (fs_sb s) X;
  fr_txn : bl_txn (fs_bl s) [];
  fr_free : free_ok (bl_view (fs_bl s)) (fs_sb s);
  fr_inode : inode_ok (fs_sb s) X s ip;
  fr_room : room (fs_bl s) X k
}.

(** bmap() maps the blocks of a file to different data blocks in use, and
    keeps to it: asked again it returns the same address and changes nothing,
    and all other blocks of the file keep their addresses. *)
Theorem bmap_stable s ip X k bn : fs_ready s ip X (S (S (S k))) → 0 ≤ bn < MAXFILE →
  ∃ a s1, bmap ip bn s = Ret a s1 ∧
  let al := i_addrs (geti ip s) in let al1 := i_addrs (geti ip s1) in
  let v := bl_view (fs_bl s) in let v1 := bl_view (fs_bl s1) in
  iaddr v1 al1 bn = a ∧ (∀ n, 0 ≤ n → n ≠ bn → iaddr v1 al1 n = iaddr v al n) ∧
  (∀ n, 0 ≤ n < MAXFILE → n ≠ bn → a ≠ 0 → iaddr v1 al1 n ≠ a) ∧
  (a = 0 → ∀ c, 0 ≤ c < sb_size (fs_sb s) → bused v1 (fs_sb s) c = true) ∧
  (a ≠ 0 → in_use v1 (fs_sb s) a ∧
    ∃ s2, bmap ip bn s1 = Ret a s2 ∧ itab s2 = itab s1 ∧ ∀ x, bl_view (fs_bl s2) x = v1 x).
Proof.
  intros [Hly Hsz HX Ht Hfr [] Hr] Hbn.
  destruct (bmap_spec (fs_sb s) Hly X HX s ip bn k) as (a & al' & b' & E & Ht' & Hr' & []); try done.
  exists a, (fset ip al' b' s). split; [done|]. cbv zeta. rewrite geti_fset by done. cbn [i_set_addrs i_addrs fset set_itab set_fs_bl fs_bl].
  split_and!; try done.
  - intros n Hn Hne Ha He. apply Hne. by apply (fo_inj _ _ _ bm_file); rewrite ?He, ?bm_addr.
  - intros Ha. split; [rewrite <- bm_addr; apply bm_file; [done|by rewrite bm_addr]|].
    assert (Hg : geti ip (fset ip al' b' s) = i_set_addrs al' (geti ip s)) by (by apply geti_fset).
    destruct (bmap_found (fs_sb s) Hly (fset ip al' b' s) ip bn) as (b2 & E2 & _ & Hv2 & _); rewrite ?Hg; try done.
    { by apply (room_buffers _ X k). } { simpl. by rewrite bm_addr. }
    rewrite Hg in E2. simpl in E2. rewrite bm_addr in E2. by exists (set_fs_bl b2 (fset ip al' b' s)).
Qed.

(** C7: writei() followed by readi(), with the kernel's or a user's memory at
    either end.  From a source that can be read, holding the bytes [l],
    writei() writes the first [k] of them, all of them unless the disk is full;
    readi() of that range to a destination that can be written then delivers
    exactly these bytes: to the kernel, or to user memory as [W] says.  Every
    other byte of the file is as before, and the size is the maximum of the old
    size and the end of the write.  (A source that cannot be read, for which
    either_copyin() fails, is not covered: the write is then short as well.) *)
Theorem writei_readi_roundtrip s ip X src l off c : gives (fs_um s) src l → fs_ready s ip X (4 * c) →
  let x := geti ip s in let n := Z.of_nat (length l) in
  0 ≤ off ≤ i_size x → off + n ≤ MAXFILE * BSIZE → (0 < n → off + n ≤ (off / BSIZE + Z.of_nat c) * BSIZE ∧ (c ≤ length l)%nat) →
  ∃ k s1, writei ip src off n s = Ret k s1 ∧ 0 ≤ k ≤ n ∧ fs_ready s1 ip X 0 ∧ fs_um s1 = fs_um s ∧
  i_size (geti ip s1) = Z.max (i_size x) (off + k) ∧
  (k < n → ∀ d, 0 ≤ d < sb_size (fs_sb s) → bused (bl_view (fs_bl s1)) (fs_sb s) d = true) ∧
  (∀ o, 0 ≤ o < i_size x → o < off ∨ off + k ≤ o →
    fbyte (bl_view (fs_bl s1)) (i_addrs (geti ip s1)) o = fbyte (bl_view (fs_bl s)) (i_addrs x) o) ∧
  ∀ d W, takes W d (take (Z.to_nat k) l) → W 0 (fs_um s1) →
    ∃ s2, readi ip d off k s1 = Ret (k, received d (take (Z.to_nat k) l)) s2 ∧ W k (fs_um s2).
Proof.
  intros Hgv [Hly Hsz HX Ht Hfr Hio Hr] x n Hoff Hmax Hc.
  destruct (writei_spec (fs_sb s) Hly X HX s ip src l off c) as (k & al' & b' & E & Ht' & Hr' & Hk & Hio' & Hfr' & Hnew & Hold & Hfull); try done.
  set (sz' := Z.max (i_size x) (off + k)) in *. set (s1 := fset2 ip al' sz' b' s).
  pose proof Hio as [Hlt]. assert (Hg : geti ip s1 = i_set_size sz' (i_set_addrs al' x)) by (by apply geti_fset2).
  exists k, s1. rewrite Hg. cbn [i_set_size i_set_addrs i_size i_addrs]. split_and!; try done; try lia.
  - intros d W Htk HW. pose proof Hio' as []. assert (Hb32 : MAXFILE * BSIZE < 2 ^ 31) by done. destruct (io_dense) as [Hd _].
    assert (Hslice : fslice (bl_view b') al' off (Z.to_nat k) = take (Z.to_nat k) l).
    { apply list_eq. intros j. destruct (decide (j < Z.to_nat k)%nat) as [Hj|Hj].
      - rewrite fslice_lookup by done. rewrite lookup_take_lt by done.
        destruct (lookup_lt_is_Some_2 l j) as [b Hb]; [unfold n in *; lia|]. rewrite Hb. f_equal. apply Hnew; [lia|done].
      - rewrite !lookup_ge_None_2; [done|rewrite length_take; lia|rewrite fslice_length; lia]. }
    assert (Hk' : (if (off <=? sz') && (off + k <? 2 ^ 32) then Z.min k (sz' - off) else 0) = k).
    { destruct (Z.leb_spec off sz') as [_|]; [|unfold sz' in *; lia]. destruct (Z.ltb_spec (off + k) (2 ^ 32)) as [_|]; [|lia]. cbn [andb]. unfold sz'. lia. }
    destruct (readi_to_spec (fs_sb s) Hly W d s1 ip off k) as (b2 & u2 & E2 & HW2 & _); try done; try lia.
    { by apply (room_buffers _ X 0). }
    { rewrite Hg. cbn [i_set_size i_set_addrs i_size i_addrs]. rewrite Hk'. change (bl_view (fs_bl s1)) with (bl_view b'). by rewrite Hslice. }
    rewrite Hg in E2, HW2. cbn [i_set_size i_set_addrs i_size i_addrs] in E2, HW2. rewrite Hk' in E2, HW2. change (bl_view (fs_bl s1)) with (bl_view b') in E2. rewrite Hslice in E2.
    eexists. split; [exact E2|exact HW2].
Qed.
End thms.

(** ** Witnesses: a small file system on log.c and bio.c

    2000 blocks: the log in blocks 2 to 31, inodes from block 32 on, the free
    map in block 45, which marks blocks 0 to 45 as used. *)

Definition demo_sb : superblock := Superblock FSMAGIC 2000 1954 200 30 2 32 45.
Definition demo_bitmap : block := replicate 5 Byte.xff ++ Byte.x3f :: replicate 1018 Byte.x00.
Definition demo_disk : Z → block := λ x, if x =? 45 then demo_bitmap else zero_block.

(** A user memory of the byte 'a' everywhere, and what was last written. *)
#[local] Instance letter_user : UserMem := {|
  um_state := list byte;
  um_copyout _ l _ := (true, l);
  um_copyin _ n _ := (true, replicate n Byte.x61);
  um_copyinstr _ _ _ := None;
  um_copyin_len _ n _ _ := length_replicate n Byte.x61;
  um_copyin_le _ n _ := Nat.eq_le_incl _ _ (length_replicate n Byte.x61)
|}.

#[local] Instance demo_blocks : BlockLayer := log_blocks (D := direct_disk) 1 2 30.

Lemma demo_block_ok x : block_ok (demo_disk x).
Proof. unfold demo_disk. destruct (x =? 45); [reflexivity|apply zero_block_ok]. Qed.

Lemma idle_disk d : (∀ x, block_ok (d x)) → ∃ c, idle c d [].
Proof.
  intros Hd. destruct (binit_ok (bstate0 d) (demo_fresh d) Hd) as (s & l & _ & Hok & Hs & Ht & Hv).
  exists s, l. split_and!; try done; intros x; try apply Hv. by rewrite Hs.
Qed.

(** The state after initlog() and begin_op(). *)
Lemma demo_txn : ∃ b : lstate, log_txn 1 2 30 b [] ∧ log_logged b = ∅ ∧ log_limit b = 28%nat ∧
  ∀ x, 32 ≤ x → log_view b x = demo_disk x.
Proof.
  assert (Hg : log_good 2 30 demo_disk) by (apply log_good_clean; [done|apply demo_block_ok|reflexivity]).
  destruct (idle_disk demo_disk demo_block_ok) as (c & Hc).
  destruct (initlog_run (D := direct_disk) 1 2 30 (log_boot0 c) demo_disk [] Hc eq_refl Hg) as (c' & l & _ & Hl & Hi).
  eexists (set_outstanding 1 (set_lh_block l (set_lh_n 0 (set_lg_bc c' (set_lg_sb 2 30 ROOTDEV (set_lg_lock false (log_boot0 c))))))).
  split_and!; [|done|done|].
  - eexists _, _, _, _, _, []. split_and!; [exact Hi| |..].
    + split; simpl; try done; [apply NoDup_nil_2|intros b []%elem_of_nil].
    + apply NoDup_nil_2.
    + intros x. by rewrite decide_False by apply not_elem_of_nil.
    + intros x. rewrite !decide_False by apply not_elem_of_nil. done.
    + intros e []%elem_of_nil.
    + intros x. by left.
  - intros x Hx. destruct Hi as (l0 & _ & Hv & _). unfold log_view. simpl. rewrite Hv.
    apply (recovered_clean (nlog := 30)); [reflexivity|]. unfold log_area, in_range. lia.
Qed.

Lemma demo_layout : layout demo_sb.
Proof.
  split; try done.
  - intros i Hi. simpl in Hi. unfold IBLOCK. simpl. change IPB with 16.
    assert (i / 16 < 13) by (apply Z.div_lt_upper_bound; lia). lia.
  - intros x Hx. simpl in Hx. split; [split; lia|]. unfold log_area, in_range. lia.
Qed.

Lemma demo_bused v b : v 45 = demo_bitmap → 0 ≤ b < 2000 → bused v demo_sb b = (b <? 46).
Proof.
  intros Hv Hb. unfold bused, BBLOCK. change (sb_bmapstart demo_sb) with 45. rewrite BPB_val, Z.div_small, Z.mod_small by lia.
  change (0 + 45) with 45. rewrite Hv.
  assert (Hall : forallb (λ k, eqb (bit_used demo_bitmap (Z.of_nat k)) (Z.of_nat k <? 46)) (seq 0 2000) = true) by (by vm_compute).
  rewrite forallb_forall in Hall. apply eqb_prop. rewrite <- (Z2Nat.id b) by lia. apply Hall, in_seq. lia.
Qed.

(** A file system with an empty file of type [t] in entry 0 of the inode table. *)
Definition demo_inode (t : Z) : inode := Inode ROOTDEV 1 1 (Sleeplock true false "inode" 1) true t 0 0 1 0 (replicate 13 0).
Definition demo_fs (t : Z) (b : lstate) : fstate := FState demo_sb false [demo_inode t] b [] [].
Definition demo_X : gset Z := {[45; 32]}.

Lemma demo_iaddr v n : iaddr v (replicate 13 0) n = 0.
Proof.
  unfold iaddr. destruct (Z.ltb_spec n NDIRECT) as [Hn|]; [|reflexivity]. change NDIRECT with 12 in Hn.
  rewrite list_lookup_total_alt. destruct (replicate 13 0 !! Z.to_nat n) as [y|] eqn:E; [|apply lookup_ge_None in E; rewrite length_replicate in E; lia].
  by apply lookup_replicate in E as [-> _].
Qed.

Lemma demo_room b k : log_logged b = ∅ → log_limit b = 28%nat → (k ≤ 25)%nat → room b demo_X k.
Proof.
  intros Hl Hm Hk. unfold room. simpl. rewrite Hl, Hm, union_empty_l_L.
  change (size demo_X) with 2%nat. unfold NBUF. simpl. lia.
Qed.

Lemma demo_ready t : ∃ b : lstate, fs_ready (demo_fs t b) 0 demo_X 24 ∧ log_view b 45 = demo_bitmap.
Proof.
  destruct demo_txn as (b & Ht & Hl & Hm & Hv). assert (H45 : log_view b 45 = demo_bitmap) by (by rewrite Hv).
  exists b. split; [|done]. split; try done.
  - apply demo_layout.
  - intros x Hx. unfold in_bmap, dstart in Hx. simpl in Hx. rewrite BPB_val in Hx. change (2000 / 8192) with 0 in Hx.
    assert (x = 45) as -> by lia. unfold demo_X. set_solver.
  - intros x Hx Hu. change (bused (log_view b) demo_sb x = false) in Hu. rewrite demo_bused in Hu by done.
    unfold dstart. simpl. rewrite BPB_val. change (2000 / 8192) with 0. destruct (Z.ltb_spec x 46); [done|lia].
  - split; try done. { simpl. lia. }
    + change (file_ok (log_view b) demo_sb (replicate 13 0)). split; try done; intros n; rewrite ?demo_iaddr; done.
    + split; [done|]. intros n H0 H1. change (n * 1024 < 0) in H1. lia.
  - apply demo_room; [done|done|lia].
Qed.

Lemma balloc_allocates_witness : ∃ s a b', balloc ROOTDEV s = Ret a (set_fs_bl b' s) ∧ 46 ≤ a < 2000.
Proof.
  destruct (demo_ready T_FILE) as (b & Hr & H45). destruct Hr as [Hly Hsz HX Ht Hfr Hio Hrm].
  destruct (balloc_allocates (demo_fs T_FILE b) demo_X 23 Hly HX Ht Hfr Hrm) as (a & b' & E & _ & _ & Hc).
  exists (demo_fs T_FILE b), a, b'. split; [exact E|]. destruct Hc as [(_ & Ha & _)|(_ & _ & Hfull)]; [exact Ha|].
  specialize (Hfull 1000). change (bl_view (fs_bl (demo_fs T_FILE b))) with (log_view b) in Hfull. simpl fs_sb in Hfull.
  rewrite demo_bused in Hfull; [|done|lia]. discriminate Hfull. simpl. lia.
Defined.

Lemma bfree_frees_witness : ∃ s, bfree ROOTDEV 1000 s = Panic "freeing free block" ∧ ∃ b', bfree ROOTDEV 45 s = Ret tt (set_fs_bl b' s).
Proof.
  destruct (demo_ready T_FILE) as (b & Hr & H45). destruct Hr as [Hly Hsz HX Ht Hfr Hio Hrm]. exists (demo_fs T_FILE b). split.
  - apply (bfree_frees (demo_fs T_FILE b) 1000 demo_X 24 Hly HX Ht); [simpl; lia|exact Hrm|].
    change (bused (log_view b) demo_sb 1000 = false). rewrite demo_bused; [done|done|lia].
  - destruct (bfree_frees (demo_fs T_FILE b) 45 demo_X 24 Hly HX Ht) as [_ H]; [simpl; lia|exact Hrm|].
    destruct H as (b' & E & _); [|exists b'; exact E].
    change (bused (log_view b) demo_sb 45 = true). rewrite demo_bused; [done|done|lia].
Defined.

Lemma bmap_stable_witness : ∃ s a s1, bmap 0 20 s = Ret a s1 ∧ iaddr (bl_view (fs_bl s1)) (i_addrs (geti 0 s1)) 20 = a.
Proof.
  destruct (demo_ready T_FILE) as (b & Hr & _). destruct (bmap_stable (demo_fs T_FILE b) 0 demo_X 21 20 Hr) as (a & s1 & E & Ha & _); [done|].
  exists (demo_fs T_FILE b), a, s1. split; [exact E|exact Ha].
Defined.

(** 3000 bytes from user memory, read back to the kernel and to user memory. *)
Lemma writei_readi_roundtrip_witness : ∃ s k s1, writei 0 (UserSrc 4096) 0 3000 s = Ret k s1 ∧
  (∃ s2, readi 0 KernDst 0 k s1 = Ret (k, take (Z.to_nat k) (replicate 3000 Byte.x61)) s2) ∧ ∃ s2, readi 0 (UserDst 0) 0 k s1 = Ret (k, []) s2.
Proof.
  destruct (demo_ready T_FILE) as (b & Hr & _).
  destruct (writei_readi_roundtrip (demo_fs T_FILE b) 0 demo_X (UserSrc 4096) (replicate 3000 Byte.x61) 0 6) as (k & s1 & E & _ & _ & _ & _ & _ & _ & Hread).
  - intros tot m Ht Hm Hle. rewrite length_replicate in Hle. unfold blk_get. rewrite drop_replicate, take_replicate. cbn. repeat f_equal. lia.
  - exact Hr.
  - split; [lia|done].
  - by vm_compute.
  - intros _. rewrite length_replicate. split; [by vm_compute|lia].
  - exists (demo_fs T_FILE b), k, s1. rewrite length_replicate in E. split; [exact E|]. split.
    + destruct (Hread KernDst (λ _ _, True)) as (s2 & E2 & _); [intros u j m _ _ _ _; exact I|exact I|]. exists s2. exact E2.
    + destruct (Hread (UserDst 0) (λ _ _, True)) as (s2 & E2 & _); [|exact I|exists s2; exact E2]. intros u j m _ _ _ _. eexists. split; [reflexivity|exact I].
Defined.
