(* ===== verification/FsPath.v ===== *)
(** * kernel/fs.c: path names

    A path is the list of its bytes; the C string ends at the first NUL byte
    or at the end of the list.  [name] is the caller's buffer of DIRSIZ bytes.
    skipelem() is compared with [split_path], which cuts a C string at its
    slashes. *)

From stdpp Require Import base gmap sets strings numbers list.
From coqutil Require Import Byte Word.LittleEndianList.
From S2P Require Import Prelude Riscv Spinlock Block Sleeplock Fs.

(** [*path] *)
Definition deref (p : list byte) : Z := byte.unsigned (hd Byte.x00 p).
Definition slash : Z := 47.

(** [while( *path == '/') path++] *)
Fixpoint skip_slashes (p : list byte) : list byte :=
  match p with
  | c :: q => if byte.unsigned c =? slash then skip_slashes q else p
  | [] => []
  end.

(** [while( *path != '/' && *path != 0) path++]: the bytes passed and the
    rest. *)
Fixpoint skip_name (p : list byte) : list byte * list byte :=
  match p with
  | c :: q => if negb (byte.unsigned c =? slash) && negb (byte.unsigned c =? 0)
              then (c :: (skip_name q).1, (skip_name q).2) else ([], p)
  | [] => ([], [])
  end.

Definition skipelem (path name : list byte) : option (list byte * list byte) :=
  let path := skip_slashes path in
  if deref path =? 0 then None else
  let '(s, path) := skip_name path in
  let len := length s in
  let name := if (DIRSIZ <=? len)%nat then blk_put name 0 (take DIRSIZ s)
              else blk_put (blk_put name 0 s) (Z.of_nat len) [Byte.x00] in
  Some (skip_slashes path, name).

Section path.
Context {B : BlockLayer} {U : UserMem} (pid : Z).

(** The loop of namex(). *)
Fixpoint namex_loop (fuel : nat) (ip : nat) (path : list byte) (parent : bool) (name : list byte) : M fstate (option nat * list byte) :=
  match fuel with
  | O => no_fuel
  | S fuel =>
    match skipelem path name with
    | Some (path, name) =>
      ilock pid ip;;
      x ← gets (geti ip);
      if negb (i_type x =? T_DIR) then
        iunlockput pid ip;; mret (None, name)
      else if parent && (deref path =? 0) then
        (* Stop one level early. *)
        iunlock pid ip;; mret (Some ip, name)
      else
      next ← dirlookup ip name;
      match next with
      | None => iunlockput pid ip;; mret (None, name)
      | Some (next, _) => iunlockput pid ip;; namex_loop fuel next path parent name
      end
    | None => if parent then iput pid ip;; mret (None, name) else mret (Some ip, name)
    end
  end.

(** [cwd] is myproc()->cwd. *)
Definition namex (cwd : nat) (path : list byte) (parent : bool) (name : list byte) : M fstate (option nat * list byte) :=
  ip ← (if deref path =? slash then iget ROOTDEV ROOTINO else idup cwd);
  namex_loop (S (length path)) ip path parent name.

(** [name] is an uninitialised local array. *)
Definition namei (cwd : nat) (name path : list byte) : M fstate (option nat) :=
  r ← namex cwd path false name;
  mret r.1.

Definition nameiparent (cwd : nat) (path name : list byte) : M fstate (option nat * list byte) :=
  namex cwd path true name.
End path.

(** ** The reference: cutting a path at its slashes *)

(** The C string at the start of [p]. *)
Fixpoint c_string (p : list byte) : list byte :=
  match p with
  | c :: q => if byte.unsigned c =? 0 then [] else c :: c_string q
  | [] => []
  end.

(** The non-empty pieces between the slashes; [cur] is the piece so far. *)
Fixpoint pieces (cur p : list byte) : list (list byte) :=
  match p with
  | [] => if decide (cur = []) then [] else [cur]
  | c :: q => if byte.unsigned c =? slash then (if decide (cur = []) then [] else [cur]) ++ pieces [] q
              else pieces (cur ++ [c]) q
  end.
Definition split_path (p : list byte) : list (list byte) := pieces [] (c_string p).

(** The elements skipelem() takes off a path, as the names in the buffer. *)
Fixpoint elements (fuel : nat) (p name : list byte) : option (list (list byte)) :=
  match fuel with
  | O => None
  | S fuel =>
    match skipelem p name with
    | None => Some []
    | Some (p, name) => (λ es, take DIRSIZ (c_string name) :: es) <$> elements fuel p name
    end
  end.

(** ** Facts *)

Lemma skip_slashes_split p : split_path (skip_slashes p) = split_path p.
Proof.
  induction p as [|c p IH]; [done|]. simpl. destruct (Z.eqb_spec (byte.unsigned c) slash) as [E|]; [|done].
  rewrite IH. unfold split_path. simpl. rewrite E. simpl. rewrite E. simpl. done.
Qed.

Lemma skip_slashes_length p : (length (skip_slashes p) ≤ length p)%nat.
Proof. induction p as [|c p IH]; simpl; [done|]. case_match; simpl; lia. Qed.

Lemma skip_slashes_head p : deref (skip_slashes p) ≠ slash.
Proof. induction p as [|c p IH]; simpl; [done|]. destruct (Z.eqb_spec (byte.unsigned c) slash); [done|]. done. Qed.

Lemma skip_name_app p : (skip_name p).1 ++ (skip_name p).2 = p.
Proof. induction p as [|c p IH]; simpl; [done|]. case_match; simpl; [by rewrite IH|done]. Qed.

Lemma skip_name_chars p c : c ∈ (skip_name p).1 → byte.unsigned c ≠ slash ∧ byte.unsigned c ≠ 0.
Proof.
  induction p as [|d p IH]; simpl; [by intros []%elem_of_nil|]. case_match eqn:E; simpl; [|by intros []%elem_of_nil].
  zbool. intros [->|Hc]%elem_of_cons; auto.
Qed.

Lemma skip_name_rest p : deref (skip_name p).2 = slash ∨ deref (skip_name p).2 = 0.
Proof.
  induction p as [|c p IH]; simpl; [by right|]. case_match eqn:E; simpl; [done|]. unfold deref. simpl.
  apply andb_false_iff in E as [E|E]; zbool; auto.
Qed.

Lemma pieces_run s q cur : (∀ c, c ∈ s → byte.unsigned c ≠ slash) → pieces cur (s ++ q) = pieces (cur ++ s) q.
Proof.
  revert cur. induction s as [|c s IH]; intros cur Hs; simpl; [by rewrite app_nil_r|].
  destruct (Z.eqb_spec (byte.unsigned c) slash) as [E|_]; [exfalso; apply (Hs c); [by left|done]|].
  rewrite IH by (intros d Hd; apply Hs; by right). by rewrite <- app_assoc.
Qed.

Lemma c_string_app s q : (∀ c, c ∈ s → byte.unsigned c ≠ 0) → c_string (s ++ q) = s ++ c_string q.
Proof.
  induction s as [|c s IH]; intros Hs; simpl; [done|].
  destruct (Z.eqb_spec (byte.unsigned c) 0) as [E|_]; [exfalso; apply (Hs c); [by left|done]|].
  rewrite IH; [done|]. intros d Hd. apply Hs. by right.
Qed.

Lemma c_string_end p : deref p = 0 → c_string p = [].
Proof. destruct p as [|c p]; simpl; [done|]. unfold deref. simpl. by intros ->. Qed.

(** A path that starts with the name [s]. *)
Lemma split_path_cons s q : s ≠ [] → (∀ c, c ∈ s → byte.unsigned c ≠ slash ∧ byte.unsigned c ≠ 0) →
  deref q = slash ∨ deref q = 0 → split_path (s ++ q) = s :: split_path q.
Proof.
  intros Hne Hs Hq. unfold split_path. rewrite c_string_app by (intros c Hc; by apply Hs).
  rewrite pieces_run by (intros c Hc; by apply Hs). simpl. destruct Hq as [Hq|Hq].
  - destruct q as [|d q]; [done|]. unfold deref in Hq. simpl in Hq. simpl. rewrite Hq. simpl. rewrite Hq. simpl. by rewrite decide_False.
  - rewrite c_string_end by done. simpl. by rewrite decide_False.
Qed.

Lemma skip_name_ne p : deref p ≠ 0 → deref p ≠ slash → (skip_name p).1 ≠ [].
Proof.
  destruct p as [|c p]; [done|]. unfold deref. simpl. intros H1 H2.
  destruct (Z.eqb_spec (byte.unsigned c) slash); [done|]. destruct (Z.eqb_spec (byte.unsigned c) 0); done.
Qed.

(** What the buffer holds after skipelem(). *)
Lemma name_buffer name s : length name = DIRSIZ → (∀ c, c ∈ s → byte.unsigned c ≠ slash ∧ byte.unsigned c ≠ 0) →
  let name' := if (DIRSIZ <=? length s)%nat then blk_put name 0 (take DIRSIZ s)
               else blk_put (blk_put name 0 s) (Z.of_nat (length s)) [Byte.x00] in
  length name' = DIRSIZ ∧ take DIRSIZ (c_string name') = take DIRSIZ s.
Proof.
  intros Hn Hs. cbv zeta. destruct (Nat.leb_spec DIRSIZ (length s)) as [Hl|Hl].
  - assert (Ht : length (take DIRSIZ s) = DIRSIZ) by (rewrite length_take; lia).
    rewrite blk_put_length by (rewrite ?Ht, ?Hn; lia). split; [done|].
    unfold blk_put. rewrite Ht. change (Z.to_nat 0) with 0%nat. rewrite take_0. cbn [app].
    rewrite drop_ge by (rewrite Hn; lia). rewrite c_string_app; [|intros c Hc; apply Hs; by apply elem_of_take in Hc as (? & ? & _); apply list_elem_of_lookup_2 in H].
    rewrite take_app_length' by lia. done.
  - assert (Hl1 : length (blk_put name 0 s) = DIRSIZ) by (rewrite blk_put_length; lia).
    rewrite blk_put_length by (rewrite ?Hl1; simpl; lia). split; [done|].
    assert (E : blk_put (blk_put name 0 s) (Z.of_nat (length s)) [Byte.x00] = s ++ Byte.x00 :: drop (S (length s)) name).
    { unfold blk_put at 1. rewrite Nat2Z.id. simpl length. unfold blk_put. change (Z.to_nat 0) with 0%nat. rewrite take_0. cbn [app plus].
      rewrite take_app_length. f_equal. cbn [app]. f_equal. rewrite drop_app_ge by lia. rewrite drop_drop. f_equal. lia. }
    rewrite E, c_string_app by (intros c Hc; by apply Hs). simpl. by rewrite app_nil_r.
Qed.

Lemma skipelem_spec p name : length name = DIRSIZ →
  match skipelem p name with
  | None => split_path p = []
  | Some (q, name') => ∃ e, split_path p = e :: split_path q ∧ (length q < length p)%nat ∧ length name' = DIRSIZ ∧
      take DIRSIZ (c_string name') = take DIRSIZ e ∧ deref q ≠ slash ∧ e ≠ []
  end.
Proof.
  intros Hn. unfold skipelem. rewrite <- (skip_slashes_split p). pose proof (skip_slashes_length p) as Hlen.
  pose proof (skip_slashes_head p) as Hh. set (p1 := skip_slashes p) in *.
  destruct (Z.eqb_spec (deref p1) 0) as [H0|H0]; [unfold split_path; by rewrite c_string_end|].
  pose proof (skip_name_app p1) as Happ. pose proof (skip_name_chars p1) as Hch. pose proof (skip_name_rest p1) as Hr.
  pose proof (skip_name_ne p1 H0 Hh) as Hne. destruct (skip_name p1) as [s q]. simpl in *.
  destruct (name_buffer name s Hn Hch) as [Hl Ht]. exists s. rewrite <- Happ at 1. rewrite split_path_cons by done.
  rewrite skip_slashes_split. split_and!; try done.
  - pose proof (skip_slashes_length q). rewrite <- Happ, length_app in Hlen. destruct s; [done|]. simpl in Hlen. lia.
  - apply skip_slashes_head.
Qed.

(** [path] ends here exactly when no element is left. *)
Lemma path_end q : deref q ≠ slash → deref q = 0 ↔ split_path q = [].
Proof.
  intros Hs. split; [intros H0; unfold split_path; by rewrite c_string_end|].
  intros He. destruct (decide (deref q = 0)); [done|]. exfalso.
  pose proof (skip_name_app q) as Happ. pose proof (skip_name_chars q) as Hch. pose proof (skip_name_rest q) as Hr.
  pose proof (skip_name_ne q n Hs) as Hne. destruct (skip_name q) as [s q']. simpl in *.
  rewrite <- Happ, split_path_cons in He; done.
Qed.

(** skipelem() takes the elements of a path off one by one, as cutting the
    C string at its slashes gives them, each truncated to DIRSIZ bytes; after
    each the rest of the path is empty exactly when no element is left. *)
Theorem skipelem_splits p name : length name = DIRSIZ →
  elements (S (length p)) p name = Some (take DIRSIZ <$> split_path p) ∧
  (∀ q name', skipelem p name = Some (q, name') → deref q = 0 ↔ split_path q = []).
Proof.
  intros Hn. split.
  - remember (S (length p)) as fuel eqn:Hf. assert (Hle : (length p < fuel)%nat) by lia. clear Hf.
    revert p name Hn Hle. induction fuel as [|fuel IH]; intros p name Hn Hle; [lia|].
    cbn [elements]. pose proof (skipelem_spec p name Hn) as Hsp. destruct (skipelem p name) as [[q name']|]; [|by rewrite Hsp].
    destruct Hsp as (e & -> & Hl & Hn' & Ht & _). rewrite (IH q name') by (done || lia). simpl. by rewrite Ht.
  - intros q name' E. pose proof (skipelem_spec p name Hn) as Hsp. rewrite E in Hsp.
    destruct Hsp as (_ & _ & _ & _ & _ & Hs & _). by apply path_end.
Qed.

(** "//ab/c" *)
Lemma skipelem_splits_witness : ∃ p, length p = 6%nat ∧
  elements 7 p (replicate DIRSIZ Byte.x00) = Some (take DIRSIZ <$> split_path p) ∧
  split_path p = [[Byte.x61; Byte.x62]; [Byte.x63]].
Proof.
  exists [Byte.x2f; Byte.x2f; Byte.x61; Byte.x62; Byte.x2f; Byte.x63]. split; [reflexivity|]. split; [|reflexivity].
  apply (skipelem_splits [Byte.x2f; Byte.x2f; Byte.x61; Byte.x62; Byte.x2f; Byte.x63]). reflexivity.
Defined.
