(* ===== verification/FsItab.v ===== *)
(** * kernel/fs.c: the inode table

    iget() keeps at most one entry per inode: [itab_ok]. *)

From stdpp Require Import base gmap sets strings numbers list.
From coqutil Require Import Byte Word.LittleEndianList.
From S2P Require Import Prelude Riscv Spinlock Block Sleeplock Fs FsBlocks.

(** Entry [x] holds inode [inum]. *)
Definition holds (dev inum : Z) (x : inode) : Prop := 0 < i_ref x ∧ i_dev x = dev ∧ i_inum x = inum.

Record itab_ok (l : list inode) : Prop := {
  it_ref x : x ∈ l → 0 ≤ i_ref x;
  it_uniq i j x y dev inum : l !! i = Some x → l !! j = Some y → holds dev inum x → holds dev inum y → i = j
}.

Definition cached (dev inum : Z) (l : list inode) : Prop := ∃ x, x ∈ l ∧ holds dev inum x.
Definition has_slot (l : list inode) : Prop := ∃ x, x ∈ l ∧ i_ref x = 0.

#[export] Instance holds_dec dev inum x : Decision (holds dev inum x).
Proof. unfold holds. apply _. Defined.

(** iget()'s scan: the entry of the inode, else the first free entry. *)
Lemma iget_loop_spec l ip dev inum empty :
  match iget_loop l ip dev inum empty with
  | inl i => ∃ j x, i = (ip + j)%nat ∧ l !! j = Some x ∧ holds dev inum x
  | inr e => ¬ cached dev inum l ∧
      match empty with
      | Some _ => e = empty
      | None => match e with
                | Some i => ∃ j x, i = (ip + j)%nat ∧ l !! j = Some x ∧ i_ref x = 0
                | None => ¬ has_slot l
                end
      end
  end.
Proof.
  revert ip empty. induction l as [|x l IH]; intros ip empty; cbn [iget_loop].
  - split; [by intros (? & []%elem_of_nil & _)|]. destruct empty; [done|]. by intros (? & []%elem_of_nil & _).
  - destruct (_ && _) eqn:E.
    { zbool. exists 0%nat, x. split_and!; [lia|done|]. by split_and!. }
    assert (Hx : ¬ holds dev inum x).
    { intros (H1 & H2 & H3). apply Z.ltb_lt in H1. rewrite H1, H2, H3, !Z.eqb_refl in E. done. }
    specialize (IH (S ip) (match empty with None => if i_ref x =? 0 then Some ip else None | Some e => Some e end)).
    destruct (iget_loop _ _ _ _ _) as [i|e].
    + destruct IH as (j & y & -> & Hj & Hh). exists (S j), y. by split_and!; [lia|..].
    + destruct IH as [Hn He]. split.
      { intros (y & [->|Hy]%elem_of_cons & Hh); [done|]. apply Hn. by exists y. }
      destruct empty as [e0|]; [done|]. destruct (Z.eqb_spec (i_ref x) 0) as [H0|H0].
      * subst e. exists 0%nat, x. split_and!; [lia|done|done].
      * destruct e as [i|]; [destruct He as (j & y & -> & ? & ?); exists (S j), y; split_and!; [lia|done|done]|].
        intros (y & [->|Hy]%elem_of_cons & Hh); [done|]. apply He. by exists y.
Qed.

Section itab.
Context {B : BlockLayer} {U : UserMem}.

(** One entry changes. *)
Definition itab_upd (ip : nat) (f : inode → inode) (s : fstate) : fstate := set_itab (alter f ip (itab s)) s.

Lemma updi_locked ip f (s : fstate) : it_lock s = false →
  (acquire_itable;; updi ip f;; release_itable) s = Ret tt (itab_upd ip f s).
Proof. intros Hl. destruct s as [sb lk it b u w]. simpl in Hl. subst lk. reflexivity. Qed.

Lemma itab_upd_ok ip f s x : itab_ok (itab s) → itab s !! ip = Some x → 0 ≤ i_ref (f x) →
  (∀ dev inum, holds dev inum (f x) → holds dev inum x ∨ ¬ cached dev inum (itab s)) → itab_ok (itab (itab_upd ip f s)).
Proof.
  intros [Href Hun] Hx Hr Hh. unfold itab_upd. simpl.
  assert (Hlk : ∀ i y, alter f ip (itab s) !! i = Some y → (i = ip ∧ y = f x) ∨ (i ≠ ip ∧ itab s !! i = Some y)).
  { intros i y Hy. destruct (decide (i = ip)) as [->|Hne].
    - rewrite list_lookup_alter_eq, Hx in Hy. left. by injection Hy as <-.
    - rewrite list_lookup_alter_ne in Hy by done. by right. }
  split.
  - intros y (i & Hi)%list_elem_of_lookup_1. destruct (Hlk i y Hi) as [[-> ->]|[_ Hy]]; [done|].
    apply Href. by apply list_elem_of_lookup_2 in Hy.
  - intros i j y z dev inum Hi Hj H1 H2. destruct (Hlk i y Hi) as [[-> ->]|[Hn1 Hy]], (Hlk j z Hj) as [[-> ->]|[Hn2 Hz]]; [done|..].
    + destruct (Hh dev inum H1) as [?|Hc]; [by eapply Hun|]. exfalso. apply Hc. exists z. split; [by apply list_elem_of_lookup_2 in Hz|done].
    + destruct (Hh dev inum H2) as [?|Hc]; [by eapply Hun|]. exfalso. apply Hc. exists y. split; [by apply list_elem_of_lookup_2 in Hy|done].
    + by eapply Hun.
Qed.

Lemma iget_run dev inum s : it_lock s = false → itab_ok (itab s) →
  (¬ cached dev inum (itab s) ∧ ¬ has_slot (itab s) ∧ iget dev inum s = Panic "iget: no inodes") ∨
  (∃ ip x f, iget dev inum s = Ret ip (itab_upd ip f s) ∧ itab s !! ip = Some x ∧ holds dev inum (f x) ∧
    itab_ok (itab (itab_upd ip f s)) ∧
    ((holds dev inum x ∧ f x = i_set_ref (i_ref x + 1) x) ∨
     (¬ cached dev inum (itab s) ∧ i_ref x = 0 ∧ f x = i_recycle dev inum x))).
Proof.
  intros Hl Hok. pose proof (iget_loop_spec (itab s) 0 dev inum None) as Hs.
  assert (E : iget dev inum s = match iget_loop (itab s) 0 dev inum None with
    | inl ip => Ret ip (itab_upd ip (λ x, i_set_ref (i_ref x + 1) x) s)
    | inr None => Panic "iget: no inodes"
    | inr (Some ip) => Ret ip (itab_upd ip (i_recycle dev inum) s) end).
  { destruct s as [sb lk it b u w]. simpl in Hl. subst lk. unfold iget, acquire_itable, acquire_flag, gets, modify, mbind, M_bind. simpl.
    destruct (iget_loop it 0 dev inum None) as [?|[?|]]; reflexivity. }
  destruct (iget_loop _ _ _ _ _) as [ip|[ip|]].
  - right. destruct Hs as (j & x & -> & Hx & Hh). simpl in *. eexists j, x, _. split; [exact E|].
    pose proof (it_ref _ Hok x ltac:(by apply list_elem_of_lookup_2 in Hx)) as Hr.
    assert (Hf : ∀ d n, holds d n (i_set_ref (i_ref x + 1) x) → holds d n x).
    { intros d n (H1 & H2 & H3). split_and!; [apply Hh|done|done]. }
    split_and!; try done; [destruct Hh as (? & ? & ?); by split_and!; [simpl; lia|..]| |by left].
    apply (itab_upd_ok _ _ _ x); try done; [simpl; lia|]. intros d n Hd. left. by apply Hf.
  - right. destruct Hs as [Hn (j & x & -> & Hx & Hr)]. simpl in *. eexists j, x, _. split; [exact E|].
    split_and!; try done; [|right; done].
    apply (itab_upd_ok _ _ _ x); try done. intros d n (_ & H2 & H3). simpl in *. subst d n. by right.
  - left. by destruct Hs.
Qed.

(** C29: iget() returns an entry for the inode: the one it already has, with one
    more reference, or else a free one, marked as not read from disk; all other
    entries stay as they are.  No two entries with references are ever for the
    same inode, and iget() panics only when the inode has no entry and none is
    free. *)
Theorem iget_one_entry dev inum s : it_lock s = false → itab_ok (itab s) →
  (¬ cached dev inum (itab s) ∧ ¬ has_slot (itab s) ∧ iget dev inum s = Panic "iget: no inodes") ∨
  ∃ ip s' x x', iget dev inum s = Ret ip s' ∧ itab s !! ip = Some x ∧ itab s' !! ip = Some x' ∧
    holds dev inum x' ∧ itab_ok (itab s') ∧ it_lock s' = false ∧ fs_bl s' = fs_bl s ∧
    (∀ j, j ≠ ip → itab s' !! j = itab s !! j) ∧
    ((holds dev inum x ∧ x' = i_set_ref (i_ref x + 1) x) ∨
     (¬ cached dev inum (itab s) ∧ i_ref x = 0 ∧ i_ref x' = 1 ∧ i_valid x' = false)).
Proof.
  intros Hl Hok. destruct (iget_run dev inum s Hl Hok) as [?|(ip & x & f & E & Hx & Hh & Hok' & Hc)]; [by left|right].
  exists ip, (itab_upd ip f s), x, (f x). split_and!; try done; try apply Hh.
  - unfold itab_upd. simpl. by rewrite list_lookup_alter_eq, Hx.
  - intros j Hj. unfold itab_upd. simpl. by rewrite list_lookup_alter_ne.
  - destruct Hc as [?|(H1 & H2 & H3)]; [by left|right]. by rewrite H3.
Qed.

(** idup() and the last step of iput() keep [itab_ok]. *)
Lemma idup_run ip s x : it_lock s = false → itab_ok (itab s) → itab s !! ip = Some x → 0 < i_ref x →
  idup ip s = Ret ip (itab_upd ip (λ x, i_set_ref (i_ref x + 1) x) s) ∧
  itab_ok (itab (itab_upd ip (λ x, i_set_ref (i_ref x + 1) x) s)).
Proof.
  intros Hl Hok Hx Hr. split.
  - destruct s as [sb lk it b u w]. simpl in Hl. subst lk. reflexivity.
  - apply (itab_upd_ok _ _ _ x); try done; [simpl; lia|]. intros d n (H1 & H2 & H3). left. done.
Qed.

(** iput() of an inode that has other references or links. *)
Lemma iput_run pid ip s x : it_lock s = false → itab_ok (itab s) → itab s !! ip = Some x → 0 < i_ref x →
  i_ref x ≠ 1 ∨ i_valid x = false ∨ i_nlink x ≠ 0 →
  iput pid ip s = Ret tt (itab_upd ip (λ x, i_set_ref (i_ref x - 1) x) s) ∧
  itab_ok (itab (itab_upd ip (λ x, i_set_ref (i_ref x - 1) x) s)).
Proof.
  intros Hl Hok Hx Hr Hn. split.
  - destruct s as [sb lk it b u w]. simpl in *. subst lk. unfold iput, acquire_itable, acquire_flag, gets, modify, mbind, M_bind. simpl.
    unfold geti. simpl. rewrite (list_lookup_total_correct it ip x Hx).
    assert ((i_ref x =? 1) && i_valid x && (i_nlink x =? 0) = false) as ->; [|reflexivity].
    destruct Hn as [Hn|[Hn|Hn]]; [|rewrite Hn, andb_false_r; done|];
      apply Z.eqb_neq in Hn; rewrite Hn; [done|by rewrite andb_false_r].
  - apply (itab_upd_ok _ _ _ x); try done; [simpl; lia|]. intros d n (H1 & H2 & H3). left. done.
Qed.
End itab.
