(* ===== verification/FsDir.v ===== *)
(** * kernel/fs.c: directories

    A directory is a file of [struct dirent]s.  [dents] is the list of its
    entries, [dir_find] the entry a name has: dirlookup() computes it and
    dirlink() adds to it. *)

From stdpp Require Import base gmap sets strings numbers list.
From coqutil Require Import Byte Word.LittleEndianList.
From S2P Require Import Prelude Riscv Spinlock Block Sleeplock Fs FsBlocks FsAlloc FsBmap FsFile FsWrite FsInode FsItab FsThms.

(** ** Names *)

Lemma byte_eq_unsigned (a b : byte) : byte.unsigned a = byte.unsigned b → a = b.
Proof. intros H. rewrite <- (byte.of_Z_unsigned a), <- (byte.of_Z_unsigned b). by rewrite H. Qed.

Lemma strncmp_refl p n : strncmp_bytes p p n = 0.
Proof. revert p. induction n as [|n IH]; intros p; simpl; [done|]. case_match; [apply IH|lia]. Qed.

Lemma strncpy_length t n : length (strncpy_bytes t n) = n.
Proof.
  revert t. induction n as [|n IH]; intros [|c t]; [done|done|apply (length_replicate (S n))|].
  cbn [strncpy_bytes]. destruct (_ =? _); [apply length_replicate|]. simpl. by rewrite IH.
Qed.

(** A name is compared with its copy in an entry as with itself. *)
Lemma strncmp_strncpy p q n : strncmp_bytes p (strncpy_bytes q n) n = strncmp_bytes p q n.
Proof.
  revert p q. induction n as [|n IH]; intros p q; [done|]. cbn [strncmp_bytes].
  destruct q as [|c q]; cbn [strncpy_bytes]; [|destruct (Z.eqb_spec (byte.unsigned c) 0) as [Hc|Hc]]; cbn [hd tl replicate].
  - set (a := byte.unsigned (hd _ p)). change (byte.unsigned Byte.x00) with 0. by destruct (Z.eqb_spec a 0) as [->|].
  - rewrite Hc. set (a := byte.unsigned (hd _ p)). change (byte.unsigned Byte.x00) with 0. by destruct (Z.eqb_spec a 0) as [->|].
  - by rewrite IH.
Qed.

Lemma namecmp_copy p q : namecmp p (strncpy_bytes q DIRSIZ) = namecmp p q.
Proof. apply strncmp_strncpy. Qed.

(** ** Entries *)

Definition dentry (v : Z → block) (al : list Z) (k : Z) : dirent := get_dirent (fslice v al (16 * k) 16).
(** The [n] entries from entry [k] on. *)
Definition dents (v : Z → block) (al : list Z) (k : Z) (n : nat) : list dirent := (λ j, dentry v al (k + Z.of_nat j)) <$> seq 0 n.

Definition names (name : list byte) (de : dirent) : Prop := de_inum de ≠ 0 ∧ namecmp name (de_name de) = 0.
#[export] Instance names_dec name de : Decision (names name de).
Proof. unfold names. apply _. Defined.
#[export] Instance inum0_dec de : Decision (de_inum de = 0).
Proof. apply _. Defined.

Lemma dents_S v al k n : dents v al k (S n) = dentry v al k :: dents v al (k + 1) n.
Proof.
  unfold dents. cbn [seq fmap list_fmap]. f_equal; [f_equal; lia|]. rewrite <- fmap_S_seq, <- list_fmap_compose.
  apply list_fmap_ext. intros _ j _. simpl. f_equal. lia.
Qed.

Lemma dents_length v al k n : length (dents v al k n) = n.
Proof. unfold dents. by rewrite length_fmap, length_seq. Qed.

Lemma dents_lookup v al n j : (j < n)%nat → dents v al 0 n !! j = Some (dentry v al (Z.of_nat j)).
Proof. intros Hj. unfold dents. rewrite list_lookup_fmap, lookup_seq_lt by done. done. Qed.

Lemma get_dirent_bytes de : 0 ≤ de_inum de < 2 ^ 16 → length (de_name de) = DIRSIZ → get_dirent (dirent_bytes de) = de.
Proof.
  intros Hi Hn. destruct de as [i n]. simpl in *. unfold get_dirent, dirent_bytes. cbn [de_inum de_name].
  rewrite take_app_length', drop_app_length' by (by rewrite length_le_split).
  rewrite le_combine_split. f_equal; [by apply Z.mod_small|]. rewrite take_ge by lia. done.
Qed.

Section dir.
Context {B : BlockLayer} {U : UserMem} (sb : superblock) (Hly : layout sb).

(** The directory in entry [dp] of the inode table can be read. *)
Record dir_ok (s : fstate) (dp : nat) (n : nat) : Prop := {
  dk_txn : bl_txn (fs_bl s) [];
  dk_bufs : (size (bl_logged (fs_bl s)) + 3 ≤ NBUF)%nat;
  dk_dev : i_dev (geti dp s) = ROOTDEV;
  dk_type : i_type (geti dp s) = T_DIR;
  dk_size : i_size (geti dp s) = 16 * Z.of_nat n;
  dk_file : file_ok (bl_view (fs_bl s)) sb (i_addrs (geti dp s));
  dk_dense : dense (bl_view (fs_bl s)) (i_addrs (geti dp s)) (i_size (geti dp s))
}.

(** [s'] differs from [s] in the cached blocks alone. *)
Definition same_view (b : bl_state) (s s' : fstate) : Prop :=
  s' = set_fs_bl b s ∧ bl_txn b [] ∧ (∀ x, bl_view b x = bl_view (fs_bl s) x) ∧
  bl_logged b = bl_logged (fs_bl s) ∧ bl_limit b = bl_limit (fs_bl s).

Lemma dir_ok_same s dp n b : dir_ok s dp n → bl_txn b [] → (∀ x, bl_view b x = bl_view (fs_bl s) x) →
  bl_logged b = bl_logged (fs_bl s) → dir_ok (set_fs_bl b s) dp n.
Proof.
  intros [] Ht Hv Hl. destruct (view_ext sb _ _ Hv) as (_ & Hia & _).
  split; try done; cbn [set_fs_bl fs_bl]; [by rewrite Hl|by eapply file_ok_ext|].
  destruct dk_dense0 as [H1 H2]. split; [done|]. intros k. rewrite Hia. apply H2.
Qed.

Lemma dentry_ext v v' al k : (∀ x, v' x = v x) → dentry v' al k = dentry v al k.
Proof.
  intros Hv. destruct (view_ext sb _ _ Hv) as (_ & Hia & _). unfold dentry, fslice. f_equal.
  apply list_fmap_ext. intros _ j _. unfold fbyte. by rewrite Hia, Hv.
Qed.

Lemma dents_ext v v' al k n : (∀ x, v' x = v x) → dents v' al k n = dents v al k n.
Proof. intros Hv. unfold dents. apply list_fmap_ext. intros _ j _. by apply dentry_ext. Qed.

(** readi() of entry [k]. *)
Lemma read_entry s dp n k : dir_ok s dp n → 0 ≤ k < Z.of_nat n → ∃ b,
  readi dp KernDst (16 * k) sizeof_dirent s =
    Ret (sizeof_dirent, fslice (bl_view (fs_bl s)) (i_addrs (geti dp s)) (16 * k) 16) (set_fs_bl b s) ∧
  bl_txn b [] ∧ (∀ x, bl_view b x = bl_view (fs_bl s) x) ∧ bl_logged b = bl_logged (fs_bl s) ∧ bl_limit b = bl_limit (fs_bl s).
Proof using Hly.
  intros [] Hk. assert (Hmax : 16 * Z.of_nat n ≤ 274432) by (destruct dk_dense0 as [Hd _]; rewrite dk_size0 in Hd; fsnorm; lia).
  destruct (readi_spec sb Hly s dp (16 * k) sizeof_dirent) as (b & E & H); try done; [lia|].
  exists b. split; [|exact H]. rewrite dk_size0 in E. change sizeof_dirent with 16 in *.
  destruct (Z.leb_spec (16 * k) (16 * Z.of_nat n)); [|lia]. destruct (Z.ltb_spec (16 * k + 16) (2 ^ 32)); [|lia].
  cbn [andb] in E. rewrite Z.min_l in E by lia. exact E.
Qed.

(** The scan of dirlookup(), from entry [k] on with [m] to go. *)
Lemma dirlookup_loop_spec m fuel s dp n name k : dir_ok s dp n → (m < fuel)%nat → 0 ≤ k → k + Z.of_nat m = Z.of_nat n →
  ∃ b, bl_txn b [] ∧ (∀ x, bl_view b x = bl_view (fs_bl s) x) ∧ bl_logged b = bl_logged (fs_bl s) ∧ bl_limit b = bl_limit (fs_bl s) ∧
  dirlookup_loop fuel dp name (16 * k) s =
    match list_find (names name) (dents (bl_view (fs_bl s)) (i_addrs (geti dp s)) k m) with
    | None => Ret None (set_fs_bl b s)
    | Some (j, de) => (ip ← iget ROOTDEV (de_inum de); mret (Some (ip, 16 * (k + Z.of_nat j)))) (set_fs_bl b s)
    end.
Proof using Hly.
  revert fuel s k. induction m as [|m IH]; intros fuel s k Hd Hf Hk0 Hk; (destruct fuel as [|fuel]; [lia|]); pose proof Hd as [];
    cbn [dirlookup_loop]; rewrite gets_bind', dk_size0.
  - destruct (Z.ltb_spec (16 * k) (16 * Z.of_nat n)); [lia|]. exists (fs_bl s). rewrite set_fs_bl_id. done.
  - destruct (Z.ltb_spec (16 * k) (16 * Z.of_nat n)); [|lia].
    destruct (read_entry s dp n k Hd) as (b1 & E1 & Ht1 & Hv1 & Hl1 & Hm1); [lia|].
    rewrite (bind_Ret _ _ _ _ _ E1), Z.eqb_refl. cbn [negb fst snd]. rewrite dents_S. cbn [list_find].
    change (get_dirent (fslice _ _ _ _)) with (dentry (bl_view (fs_bl s)) (i_addrs (geti dp s)) k).
    set (de := dentry _ _ k). destruct (decide (names name de)) as [[Hn1 Hn2]|Hn].
    + apply Z.eqb_neq in Hn1. rewrite Hn1, Hn2. cbn [negb andb Z.eqb]. rewrite Z.add_0_r, dk_dev0. by exists b1.
    + assert (negb (de_inum de =? 0) && (namecmp name (de_name de) =? 0) = false) as ->.
      { apply not_true_is_false. intros E. zbool. by apply Hn. }
      destruct (IH fuel (set_fs_bl b1 s) (k + 1)) as (b & Ht & Hv & Hl & Hm & E); [by apply dir_ok_same|lia..|].
      cbn [set_fs_bl fs_bl] in *. change (geti dp (set_fs_bl b1 s)) with (geti dp s) in E.
      rewrite (dents_ext _ _ _ _ _ Hv1) in E. exists b. split_and!; [done| |congruence|congruence|].
      { intros x. by rewrite Hv. }
      change sizeof_dirent with 16. replace (16 * k + 16) with (16 * (k + 1)) by lia. rewrite E.
      destruct (list_find _ _) as [[j de']|]; [|done]. cbn [fmap option_fmap option_map prod_map fst snd id].
      replace (k + Z.of_nat (S j)) with (k + 1 + Z.of_nat j) by lia. done.
Qed.

(** The entry of [name] in the directory. *)
Definition dir_find (s : fstate) (dp : nat) (name : list byte) : option (nat * dirent) :=
  list_find (names name) (dents (bl_view (fs_bl s)) (i_addrs (geti dp s)) 0 (Z.to_nat (i_size (geti dp s) / 16))).

Lemma dir_count s dp n : dir_ok s dp n → Z.to_nat (i_size (geti dp s) / 16) = n.
Proof. intros []. rewrite dk_size0, Z.mul_comm, Z.div_mul by done. lia. Qed.

Lemma dirlookup_run s dp n name : dir_ok s dp n →
  ∃ b, bl_txn b [] ∧ (∀ x, bl_view b x = bl_view (fs_bl s) x) ∧ bl_logged b = bl_logged (fs_bl s) ∧ bl_limit b = bl_limit (fs_bl s) ∧
  dirlookup dp name s =
    match dir_find s dp name with
    | None => Ret None (set_fs_bl b s)
    | Some (j, de) => (ip ← iget ROOTDEV (de_inum de); mret (Some (ip, 16 * Z.of_nat j))) (set_fs_bl b s)
    end.
Proof using Hly.
  intros Hd. pose proof Hd as []. unfold dirlookup, dir_find. rewrite gets_bind', dk_type0. cbn [negb Z.eqb].
  rewrite (dir_count s dp n Hd), dk_size0.
  destruct (dirlookup_loop_spec n (S (Z.to_nat (16 * Z.of_nat n))) s dp n name 0) as (b & Ht & Hv & Hl & Hm & E); try done; try lia.
  exists b. split_and!; try done.
Qed.

(** dirlink()'s search for an empty entry. *)
Lemma dirlink_loop_spec m fuel s dp n k : dir_ok s dp n → (m < fuel)%nat → 0 ≤ k → k + Z.of_nat m = Z.of_nat n →
  ∃ b, bl_txn b [] ∧ (∀ x, bl_view b x = bl_view (fs_bl s) x) ∧ bl_logged b = bl_logged (fs_bl s) ∧ bl_limit b = bl_limit (fs_bl s) ∧
  dirlink_loop fuel dp (16 * k) s =
    Ret (match list_find (λ de, de_inum de = 0) (dents (bl_view (fs_bl s)) (i_addrs (geti dp s)) k m) with
         | None => 16 * Z.of_nat n | Some (j, _) => 16 * (k + Z.of_nat j) end) (set_fs_bl b s).
Proof using Hly.
  revert fuel s k. induction m as [|m IH]; intros fuel s k Hd Hf Hk0 Hk; (destruct fuel as [|fuel]; [lia|]); pose proof Hd as [];
    cbn [dirlink_loop]; rewrite gets_bind', dk_size0.
  - destruct (Z.ltb_spec (16 * k) (16 * Z.of_nat n)); [lia|]. exists (fs_bl s). rewrite set_fs_bl_id. simpl.
    split_and!; try done. f_equal. lia.
  - destruct (Z.ltb_spec (16 * k) (16 * Z.of_nat n)); [|lia].
    destruct (read_entry s dp n k Hd) as (b1 & E1 & Ht1 & Hv1 & Hl1 & Hm1); [lia|].
    rewrite (bind_Ret _ _ _ _ _ E1), Z.eqb_refl. cbn [negb fst snd]. rewrite dents_S. cbn [list_find].
    change (get_dirent (fslice _ _ _ _)) with (dentry (bl_view (fs_bl s)) (i_addrs (geti dp s)) k).
    set (de := dentry _ _ k). destruct (Z.eqb_spec (de_inum de) 0) as [H0|H0].
    + rewrite decide_True by done. rewrite Z.add_0_r. by exists b1.
    + rewrite decide_False by done.
      destruct (IH fuel (set_fs_bl b1 s) (k + 1)) as (b & Ht & Hv & Hl & Hm & E); [by apply dir_ok_same|lia..|].
      cbn [set_fs_bl fs_bl] in *. change (geti dp (set_fs_bl b1 s)) with (geti dp s) in E.
      rewrite (dents_ext _ _ _ _ _ Hv1) in E. exists b. split_and!; [done| |congruence|congruence|].
      { intros x. by rewrite Hv. }
      change sizeof_dirent with 16. replace (16 * k + 16) with (16 * (k + 1)) by lia. rewrite E.
      destruct (list_find _ _) as [[j de']|]; [|done]. cbn [fmap option_fmap option_map prod_map fst snd id].
      replace (k + Z.of_nat (S j)) with (k + 1 + Z.of_nat j) by lia. done.
Qed.
End dir.
