(* ===== verification/FsDirThms.v ===== *)
(** * kernel/fs.c: properties of directories *)

From stdpp Require Import base gmap sets strings numbers list.
From coqutil Require Import Byte Word.LittleEndianList.
From S2P Require Import Prelude Riscv Spinlock Block Sleeplock Fs FsBlocks FsAlloc FsBmap FsFile FsWrite FsInode FsItab.
From S2P Require Import Bio Log LogSys BlockLog FsThms FsDir.

(** ** One entry of a list changes *)

Section find.
Context {A : Type} (P : A → Prop) `{∀ x, Decision (P x)}.



End find.

Section thms.
Context {B : BlockLayer} {U : UserMem} (pid : Z).

Lemma ready_dir s dp X k n : fs_ready s dp X k → i_type (geti dp s) = T_DIR → i_size (geti dp s) = 16 * Z.of_nat n →
  dir_ok (fs_sb s) s dp n.
Proof. intros [? ? ? ? ? [] Hr] Ht Hs. split; try done. by eapply room_buffers. Qed.








(** dirlookup() finds the first entry of the name and returns a table entry
    for its inode with the entry's offset, or nothing when no entry has the
    name; the disk is not changed.  It fails only when the inode table is
    full. *)
Theorem dirlookup_finds s dp n name : layout (fs_sb s) → dir_ok (fs_sb s) s dp n → it_lock s = false → itab_ok (itab s) →
  match dir_find s dp name with
  | None => ∃ b, dirlookup dp name s = Ret None (set_fs_bl b s) ∧ ∀ x, bl_view b x = bl_view (fs_bl s) x
  | Some (j, de) =>
    dirlookup dp name s = Panic "iget: no inodes" ∧ ¬ has_slot (itab s) ∨
    ∃ ip s', dirlookup dp name s = Ret (Some (ip, 16 * Z.of_nat j)) s' ∧ itab_ok (itab s') ∧
      holds ROOTDEV (de_inum de) (geti ip s') ∧ ∀ x, bl_view (fs_bl s') x = bl_view (fs_bl s) x
  end.
Proof.
  intros Hly Hd Hl Hok. destruct (dirlookup_run (fs_sb s) Hly s dp n name Hd) as (b & Ht & Hv & _ & _ & E).
  destruct (dir_find s dp name) as [[j de]|]; [|by exists b]. rewrite E.
  destruct (iget_run ROOTDEV (de_inum de) (set_fs_bl b s) Hl Hok) as [(Hn & Hs & Ei)|(ip & x & f & Ei & Hx & Hh & Hok' & _)].
  - left. by rewrite (bind_Panic _ _ _ _ Ei).
  - right. rewrite (bind_Ret _ _ _ _ _ Ei). eexists ip, _. split_and!; [done|done| |done].
    unfold geti, itab_upd. simpl. rewrite list_lookup_total_alt, list_lookup_alter_eq. simpl in Hx. by rewrite Hx.
Qed.
End thms.

(** ** Witnesses *)

#[local] Existing Instance letter_user.
#[local] Existing Instance demo_blocks.

Lemma iget_one_entry_witness : ∃ (s : fstate) ip s', iget ROOTDEV 7 s = Ret ip s' ∧ itab_ok (itab s').
Proof.
  destruct (demo_ready T_DIR) as (b & _ & _). set (s := set_itab [inode0] (demo_fs T_DIR b)).
  assert (Hok : itab_ok (itab s)).
  { split; [by intros x ->%list_elem_of_singleton|]. intros [|i] [|j] x y; by intros. }
  destruct (iget_one_entry ROOTDEV 7 s eq_refl Hok) as [(_ & Hs & _)|(ip & s' & x & x' & E & _ & _ & _ & Hok' & _)].
  - exfalso. apply Hs. exists inode0. split; [by left|done].
  - exists s, ip, s'. split; [exact E|exact Hok'].
Defined.


Lemma dirlookup_finds_witness : ∃ (s : fstate) b, dirlookup 0 [Byte.x61] s = Ret None (set_fs_bl b s).
Proof.
  destruct (demo_ready T_DIR) as (b & Hr & _).
  assert (Hd : dir_ok demo_sb (demo_fs T_DIR b) 0 0) by (by apply (ready_dir (demo_fs T_DIR b) 0 demo_X 24 0 Hr)).
  assert (Hok : itab_ok (itab (demo_fs T_DIR b))).
  { split; [by intros x ->%list_elem_of_singleton|]. intros [|i] [|j] x y; by intros. }
  destruct (dirlookup_finds (demo_fs T_DIR b) 0 0 [Byte.x61] (fr_layout _ _ _ _ Hr) Hd eq_refl Hok) as (b' & E & _).
  exists (demo_fs T_DIR b), b'. exact E.
Defined.
