(* ===== verification/Ring.v ===== *)
(** * Ring buffers

    pipe.c, console.c, uart.c and the rings of virtio_disk.c all keep a queue in an array of [N] slots
    with free-running counters of a machine width: a counter [x] (modulo [K])
    stands for slot [x % N].  [ring_bytes data a b] is the contents between
    the counters [a] and [b]. *)

From stdpp Require Import base strings numbers list.
From coqutil Require Import Byte.
From S2P Require Import Prelude.

#[export] Instance byte_inhabited : Inhabited byte := populate Byte.x00.

Section ring.
Context {A : Type} `{!Inhabited A} (K N : Z).

(** Number of bytes between two counters, and the bytes from [a] on. *)
Definition ring_len (a b : Z) : Z := (b - a) mod K.
Definition ring_seq (data : list A) (a : Z) (n : nat) : list A :=
  (λ j, data !!! Z.to_nat ((a + Z.of_nat j) mod N)) <$> seq 0 n.
Definition ring_bytes (data : list A) (a b : Z) : list A := ring_seq data a (Z.to_nat (ring_len a b)).

Context (HN : 0 < N) (HK : (N | K)) (HKN : N < K).

Lemma ring_len_range a b : 0 ≤ ring_len a b < K.
Proof. apply Z.mod_pos_bound. lia. Qed.

Lemma ring_seq_length data a n : length (ring_seq data a n) = n.
Proof. unfold ring_seq. by rewrite length_fmap, length_seq. Qed.

Lemma ring_bytes_length data a b : length (ring_bytes data a b) = Z.to_nat (ring_len a b).
Proof. apply ring_seq_length. Qed.

(** [x % K % N = x % N] *)
Lemma ring_slot x : (x mod K) mod N = x mod N.
Proof.
  destruct HK as [q ->]. assert (0 < q) by nia. rewrite Z.mul_comm, Z.rem_mul_r by lia.
  rewrite Z.mul_comm, Z.mod_add by lia. by rewrite Z.mod_mod by lia.
Qed.

Lemma ring_slot_add x y : (x mod K + y) mod N = (x + y) mod N.
Proof. rewrite <- Zplus_mod_idemp_l, ring_slot, Zplus_mod_idemp_l. done. Qed.

Lemma ring_end a b : 0 ≤ b < K → b = (a + ring_len a b) mod K.
Proof.
  intros Hb. unfold ring_len. rewrite Zplus_mod_idemp_r. replace (a + (b - a)) with b by lia.
  symmetry. by apply Z.mod_small.
Qed.

Lemma ring_empty a b : 0 ≤ a < K → 0 ≤ b < K → (a =? b) = (ring_len a b =? 0).
Proof.
  intros Ha Hb. unfold ring_len. destruct (Z.eqb_spec a b) as [->|Hne]; [by rewrite Z.sub_diag|].
  symmetry. apply Z.eqb_neq. intros E. apply Hne. rewrite (ring_end a b Hb). unfold ring_len. rewrite E, Z.add_0_r, Z.mod_small; lia.
Qed.

Lemma ring_full a b : 0 ≤ b < K → ring_len a b ≤ N → (b =? (a + N) mod K) = (ring_len a b =? N).
Proof.
  intros Hb Hle. pose proof (ring_len_range a b). rewrite (ring_end a b Hb) at 1.
  destruct (Z.eqb_spec (ring_len a b) N) as [->|Hne]; [by rewrite Z.eqb_refl|].
  apply Z.eqb_neq. intros E. apply Hne.
  assert (Hd : (a + N - (a + ring_len a b)) mod K = 0) by (rewrite Zminus_mod, E, Z.sub_diag; apply Z.mod_0_l; lia).
  replace (a + N - (a + ring_len a b)) with (N - ring_len a b) in Hd by lia. rewrite Z.mod_small in Hd; lia.
Qed.

Lemma ring_len_succ_r a b : ring_len a b < N → ring_len a ((b + 1) mod K) = ring_len a b + 1.
Proof.
  intros Hlt. pose proof (ring_len_range a b). unfold ring_len in *. rewrite Zminus_mod_idemp_l.
  replace (b + 1 - a) with (b - a + 1) by lia. rewrite <- Zplus_mod_idemp_l. apply Z.mod_small. lia.
Qed.

Lemma ring_len_pred_r a b : 0 < ring_len a b → ring_len a ((b - 1) mod K) = ring_len a b - 1.
Proof.
  intros Hlt. pose proof (ring_len_range a b). unfold ring_len in *. rewrite Zminus_mod_idemp_l.
  replace (b - 1 - a) with (b - a - 1) by lia. rewrite <- Zminus_mod_idemp_l. apply Z.mod_small. lia.
Qed.

Lemma ring_len_succ_l a b : 0 < ring_len a b → ring_len ((a + 1) mod K) b = ring_len a b - 1.
Proof.
  intros Hlt. pose proof (ring_len_range a b). unfold ring_len in *. rewrite Zminus_mod_idemp_r.
  replace (b - (a + 1)) with (b - a - 1) by lia. rewrite <- Zminus_mod_idemp_l. apply Z.mod_small. lia.
Qed.

Lemma ring_seq_snoc data a n :
  ring_seq data a (n + 1) = ring_seq data a n ++ [data !!! Z.to_nat ((a + Z.of_nat n) mod N)].
Proof. unfold ring_seq. by rewrite seq_app, fmap_app. Qed.

Lemma ring_seq_cons data a n :
  ring_seq data a (S n) = data !!! Z.to_nat (a mod N) :: ring_seq data (a + 1) n.
Proof.
  unfold ring_seq. cbn [seq fmap list_fmap]. f_equal; [do 2 f_equal; f_equal; lia|].
  rewrite <- fmap_S_seq, <- list_fmap_compose. apply list_fmap_ext. intros _ j _. cbn [compose]. do 2 f_equal; f_equal. lia.
Qed.

Lemma ring_seq_mod data a n : ring_seq data (a mod K) n = ring_seq data a n.
Proof. unfold ring_seq. apply list_fmap_ext. intros _ j _. by rewrite ring_slot_add. Qed.

(** Writing a slot behind the [n] bytes from [a] does not change them. *)
Lemma ring_seq_insert data a c n k : Z.of_nat n ≤ k < N →
  ring_seq (<[Z.to_nat ((a + k) mod N) := c]> data) a n = ring_seq data a n.
Proof.
  intros Hk. unfold ring_seq. apply list_fmap_ext. intros i j [-> Hi]%lookup_seq.
  rewrite list_lookup_total_insert_ne; [done|]. intros E.
  pose proof (Z.mod_pos_bound (a + k) N HN). pose proof (Z.mod_pos_bound (a + Z.of_nat (0 + i)) N HN).
  apply Z2Nat.inj in E; [|lia|lia]. simpl in E.
  assert (Hd : (a + k - (a + Z.of_nat i)) mod N = 0) by (rewrite Zminus_mod, E, Z.sub_diag; apply Z.mod_0_l; lia).
  replace (a + k - (a + Z.of_nat i)) with (k - Z.of_nat i) in Hd by lia. rewrite Z.mod_small in Hd; lia.
Qed.

(** [data[b++ % N] = c] appends. *)
Lemma ring_put data a b c : length data = Z.to_nat N → 0 ≤ b < K → ring_len a b < N →
  ring_bytes (<[Z.to_nat (b mod N) := c]> data) a ((b + 1) mod K) = ring_bytes data a b ++ [c].
Proof.
  intros Hd Hb Hlt. pose proof (ring_len_range a b). unfold ring_bytes. rewrite ring_len_succ_r by done.
  replace (Z.to_nat (ring_len a b + 1)) with (Z.to_nat (ring_len a b) + 1)%nat by lia.
  assert (Hs : b mod N = (a + ring_len a b) mod N) by (rewrite (ring_end a b Hb) at 1; apply ring_slot).
  rewrite ring_seq_snoc, Hs, ring_seq_insert by lia. do 2 f_equal. rewrite Z2Nat.id by lia.
  apply list_lookup_total_insert_eq. rewrite Hd. pose proof (Z.mod_pos_bound (a + ring_len a b) N HN). lia.
Qed.

(** [data[a++ % N]] takes the oldest byte. *)
Lemma ring_take data a b : 0 < ring_len a b →
  ring_bytes data a b = data !!! Z.to_nat (a mod N) :: ring_bytes data ((a + 1) mod K) b.
Proof.
  intros Hlt. unfold ring_bytes. rewrite ring_len_succ_l by done.
  replace (Z.to_nat (ring_len a b)) with (S (Z.to_nat (ring_len a b - 1))) by lia.
  by rewrite ring_seq_cons, ring_seq_mod.
Qed.

(** [b--] drops the newest byte, which is in slot [(b-1) % N]. *)
Lemma ring_unput data a b : 0 ≤ b < K → 0 < ring_len a b →
  ring_bytes data a b = ring_bytes data a ((b - 1) mod K) ++ [data !!! Z.to_nat ((b - 1) mod K mod N)].
Proof.
  intros Hb Hlt. unfold ring_bytes. rewrite ring_len_pred_r by done.
  replace (Z.to_nat (ring_len a b)) with (Z.to_nat (ring_len a b - 1) + 1)%nat by lia. rewrite ring_seq_snoc.
  do 4 f_equal. rewrite ring_slot, Z2Nat.id by lia. rewrite (ring_end a b Hb) at 2.
  rewrite <- (ring_slot ((a + ring_len a b) mod K - 1)), Zminus_mod_idemp_l, ring_slot. f_equal. lia.
Qed.

(** The bytes up to a counter in between. *)
Lemma ring_prefix data a b e : ring_len a b ≤ ring_len a e →
  take (Z.to_nat (ring_len a b)) (ring_bytes data a e) = ring_bytes data a b.
Proof.
  intros Hle. unfold ring_bytes, ring_seq. rewrite <- fmap_take, take_seq. do 2 f_equal. lia.
Qed.

(** Lengths add up. *)
Lemma ring_len_split a b e : ring_len a b ≤ ring_len a e → ring_len b e = ring_len a e - ring_len a b.
Proof.
  intros Hle. pose proof (ring_len_range a b). pose proof (ring_len_range a e). unfold ring_len in *.
  replace (e - b) with (e - a - (b - a)) by lia. rewrite Zminus_mod. apply Z.mod_small. lia.
Qed.
End ring.
