(* ===== verification/Pipe.v ===== *)
(** * kernel/pipe.c: pipes (the code)

    [pstate] is one pipe with the memory of the calling process and the
    wakeup() calls made.  A process that sleeps inside pipewrite() or
    piperead() has released pi->lock; it continues at the loop test with the
    lock held again, so the code is split there: [PipeSleep] reports where the
    process sleeps and how far it has come, [pipewrite_from] and
    [piperead_from] continue.  killed(pr) can change at any moment: [kl i] is
    what it returns after [i] bytes.  pipealloc() is in File. *)

From stdpp Require Import base gmap sets strings numbers list.
From coqutil Require Import Byte Word.LittleEndianList.
From S2P Require Import Prelude Spinlock Block Ring.

Definition PIPESIZE : Z := 512.

Record pipe := Pipe {
  pi_lock : bool;
  pi_data : list byte;
  pi_nread : Z;       (* number of bytes read *)
  pi_nwrite : Z;      (* number of bytes written *)
  pi_readopen : bool;
  pi_writeopen : bool
}.

Definition set_pi_lock (b : bool) (p : pipe) : pipe := Pipe b (pi_data p) (pi_nread p) (pi_nwrite p) (pi_readopen p) (pi_writeopen p).
Definition set_readopen (b : bool) (p : pipe) : pipe := Pipe (pi_lock p) (pi_data p) (pi_nread p) (pi_nwrite p) b (pi_writeopen p).
Definition set_writeopen (b : bool) (p : pipe) : pipe := Pipe (pi_lock p) (pi_data p) (pi_nread p) (pi_nwrite p) (pi_readopen p) b.

(** [pi->data[pi->nwrite++ % PIPESIZE] = ch] *)
Definition pipe_put (ch : byte) (p : pipe) : pipe :=
  Pipe (pi_lock p) (<[Z.to_nat (pi_nwrite p mod PIPESIZE) := ch]> (pi_data p)) (pi_nread p) (u32 (pi_nwrite p + 1)) (pi_readopen p) (pi_writeopen p).
(** [ch = pi->data[pi->nread++ % PIPESIZE]] *)
Definition pipe_peek (p : pipe) : byte := pi_data p !!! Z.to_nat (pi_nread p mod PIPESIZE).
Definition pipe_take (p : pipe) : pipe :=
  Pipe (pi_lock p) (pi_data p) (u32 (pi_nread p + 1)) (pi_nwrite p) (pi_readopen p) (pi_writeopen p).

(** What pipealloc() stores in the new pipe's page; [data] is what was there. *)
Definition pipe_init (data : list byte) : pipe := Pipe false data 0 0 true true.

Inductive pipe_result := PipeDone (r : Z) | PipeSleep (c : chan) (i : Z).

Section pipe.
Context {U : UserMem} (pi : Z).   (* the address of the pipe *)

Record pstate := PState { ps_pipe : pipe; ps_um : um_state; ps_woke : list chan }.

Definition set_pipe (p : pipe) (s : pstate) : pstate := PState p (ps_um s) (ps_woke s).
Definition updp (f : pipe → pipe) : M pstate unit := modify (λ s, set_pipe (f (ps_pipe s)) s).
Definition pwakeup (c : chan) : M pstate unit := modify (λ s, PState (ps_pipe s) (ps_um s) (ps_woke s ++ [c])).
Definition acquire_pi : M pstate unit := acquire_flag (λ s, pi_lock (ps_pipe s)) (λ b s, set_pipe (set_pi_lock b (ps_pipe s)) s).
Definition release_pi : M pstate unit := release_flag (λ s, pi_lock (ps_pipe s)) (λ b s, set_pipe (set_pi_lock b (ps_pipe s)) s).

(** copyin() of one byte, copyout() of one byte: [None], [false] when they
    return -1. *)
Definition copyin1 (va : Z) : M pstate (option byte) :=
  gets (λ s, let '(ok, l) := um_copyin (u64 va) 1 (ps_um s) in if ok : bool then head l else None).
Definition copyout1 (va : Z) (ch : byte) : M pstate bool := λ s,
  let '(ok, u) := um_copyout (u64 va) [ch] (ps_um s) in Ret ok (PState (ps_pipe s) u (ps_woke s)).

(** pipeclose(): true when both ends are closed, and the caller's kfree()
    follows. *)
Definition pipeclose (writable : bool) : M pstate bool :=
  acquire_pi;;
  (if writable then updp (set_writeopen false);; pwakeup (ChanPipeRead pi)
   else updp (set_readopen false);; pwakeup (ChanPipeWrite pi));;
  p ← gets ps_pipe;
  release_pi;;
  mret (negb (pi_readopen p) && negb (pi_writeopen p)).

(** The loop of pipewrite() with [i] bytes written, pi->lock held. *)
Fixpoint pipewrite_loop (fuel : nat) (kl : Z → bool) (addr i n : Z) : M pstate pipe_result :=
  match fuel with
  | O => no_fuel
  | S fuel =>
    if i <? n then
      p ← gets ps_pipe;
      if negb (pi_readopen p) || kl i then
        release_pi;; mret (PipeDone (-1))
      else if pi_nwrite p =? u32 (pi_nread p + PIPESIZE) then    (* pipewrite-full *)
        pwakeup (ChanPipeRead pi);;
        release_pi;;
        mret (PipeSleep (ChanPipeWrite pi) i)
      else
      ch ← copyin1 (addr + i);
      match ch with
      | None => pwakeup (ChanPipeRead pi);; release_pi;; mret (PipeDone i)
      | Some ch => updp (pipe_put ch);; pipewrite_loop fuel kl addr (i + 1) n
      end
    else
      pwakeup (ChanPipeRead pi);;
      release_pi;;
      mret (PipeDone i)
  end.

Definition pipewrite_from (kl : Z → bool) (addr i n : Z) : M pstate pipe_result :=
  acquire_pi;;
  pipewrite_loop (S (Z.to_nat (n - i))) kl addr i n.

Definition pipewrite (kl : Z → bool) (addr n : Z) : M pstate pipe_result := pipewrite_from kl addr 0 n.

(** The copy loop of piperead(), [k] bytes to go. *)
Fixpoint piperead_copy (k : nat) (addr i : Z) : M pstate Z :=
  match k with
  | O => mret i
  | S k =>
    p ← gets ps_pipe;
    if pi_nread p =? pi_nwrite p then mret i else
    updp pipe_take;;
    ok ← copyout1 (addr + i) (pipe_peek p);
    if ok : bool then piperead_copy k addr (i + 1) else mret i
  end.

(** piperead(), from the test of its first loop on; it is also where a process
    that slept continues. *)
Definition piperead (kl : bool) (addr n : Z) : M pstate pipe_result :=
  acquire_pi;;
  p ← gets ps_pipe;
  if (pi_nread p =? pi_nwrite p) && pi_writeopen p then    (* pipe-empty *)
    release_pi;;
    (if kl then mret (PipeDone (-1)) else mret (PipeSleep (ChanPipeRead pi) 0))
  else
  i ← piperead_copy (Z.to_nat n) addr 0;
  pwakeup (ChanPipeWrite pi);;
  release_pi;;
  mret (PipeDone i).
End pipe.

(** ** The pipe as a bounded queue *)

(** The number of bytes in the pipe, and the bytes from the oldest on. *)
Definition pipe_len (p : pipe) : Z := ring_len (2 ^ 32) (pi_nread p) (pi_nwrite p).
Definition pipe_bytes (p : pipe) : list byte := ring_bytes (2 ^ 32) PIPESIZE (pi_data p) (pi_nread p) (pi_nwrite p).

Record pipe_ok (p : pipe) : Prop := {
  po_data : length (pi_data p) = Z.to_nat PIPESIZE;
  po_nread : 0 ≤ pi_nread p < 2 ^ 32;
  po_nwrite : 0 ≤ pi_nwrite p < 2 ^ 32;
  po_len : pipe_len p ≤ PIPESIZE
}.

Lemma pipe_ring : 0 < PIPESIZE ∧ (PIPESIZE | 2 ^ 32) ∧ PIPESIZE < 2 ^ 32.
Proof. split_and!; [done| |done]. by exists 8388608. Qed.
Local Ltac ring_side := destruct pipe_ring as (? & ? & ?); auto.

Lemma pipe_bytes_length p : length (pipe_bytes p) = Z.to_nat (pipe_len p).
Proof. apply ring_bytes_length. Qed.

Lemma pipe_len_range p : 0 ≤ pipe_len p.
Proof. apply Z.mod_pos_bound. done. Qed.

Lemma pipe_full p : pipe_ok p → (pi_nwrite p =? u32 (pi_nread p + PIPESIZE)) = (pipe_len p =? PIPESIZE).
Proof. intros []. apply ring_full; ring_side. Qed.

Lemma pipe_empty p : pipe_ok p → (pi_nread p =? pi_nwrite p) = (pipe_len p =? 0).
Proof. intros []. apply ring_empty; ring_side. Qed.

Lemma pipe_put_spec ch p : pipe_ok p → pipe_len p < PIPESIZE →
  pipe_ok (pipe_put ch p) ∧ pipe_bytes (pipe_put ch p) = pipe_bytes p ++ [ch] ∧ pipe_len (pipe_put ch p) = pipe_len p + 1.
Proof.
  intros [] Hlt. assert (Hl : pipe_len (pipe_put ch p) = pipe_len p + 1) by (apply (ring_len_succ_r _ PIPESIZE); ring_side).
  split_and!; [|apply ring_put; ring_side|done].
  split; cbn [pipe_put pi_data pi_nread pi_nwrite]; rewrite ?length_insert; try done; [apply u32_range|lia].
Qed.

Lemma pipe_take_spec p : pipe_ok p → 0 < pipe_len p →
  pipe_ok (pipe_take p) ∧ pipe_bytes p = pipe_peek p :: pipe_bytes (pipe_take p) ∧ pipe_len (pipe_take p) = pipe_len p - 1.
Proof.
  intros [] Hlt. assert (Hl : pipe_len (pipe_take p) = pipe_len p - 1) by (apply (ring_len_succ_l _ PIPESIZE); ring_side).
  split_and!; [|apply ring_take; ring_side|done].
  split; cbn [pipe_take pi_data pi_nread pi_nwrite]; try done; [apply u32_range|lia].
Qed.
