(* ===== verification/PipeThms.v ===== *)
(** * kernel/pipe.c: a pipe is a bounded queue of bytes

    [preach] are the pipes the code can produce, in any order of operations of
    any processes; pi->lock makes each stretch between sleeps atomic. *)

From stdpp Require Import base gmap sets strings numbers list.
From coqutil Require Import Byte Word.LittleEndianList.
From S2P Require Import Prelude Spinlock Block Pipe.

Section thms.
Context {U : UserMem} (pi : Z).

Lemma copyin1_run va (s : pstate) : copyin1 va s = Ret (match um_copyin (u64 va) 1 (ps_um s) with (true, l) => head l | _ => None end) s.
Proof. unfold copyin1, gets. by destruct (um_copyin _ _ _) as [[] l]. Qed.

(** copyin() of one byte. *)
Lemma copyin1_Some va u b : match um_copyin (u64 va) 1 u with (true, l) => head l | _ => None end = Some b → um_copyin (u64 va) 1 u = (true, [b]).
Proof.
  pose proof (um_copyin_len (u64 va) 1 u) as Hlen. destruct (um_copyin _ _ _) as [[] l]; [|done]. simpl in *. specialize (Hlen eq_refl).
  destruct l as [|c [|]]; try done. simpl. by intros [= ->].
Qed.

Lemma copyin1_None va u : match um_copyin (u64 va) 1 u with (true, l) => head l | _ => None end = None → fst (um_copyin (u64 va) 1 u) = false.
Proof.
  pose proof (um_copyin_len (u64 va) 1 u) as Hlen. destruct (um_copyin _ _ _) as [[] l]; [|done]. simpl in *. specialize (Hlen eq_refl).
  by destruct l.
Qed.

(** What a stretch of pipewrite() that starts with [i] of [n] bytes written
    and ends in [r] has added to the queue. *)
Definition write_result (kl : Z → bool) (u : um_state) (addr i n : Z) (p : pipe) (w : list byte) (r : pipe_result) (woke : list chan) : Prop :=
  let k := i + Z.of_nat (length w) in
  match r with
  | PipeSleep c j => j = k ∧ k < n ∧ c = ChanPipeWrite pi ∧ Z.of_nat (length (pipe_bytes p)) = PIPESIZE ∧ pi_readopen p = true ∧ woke = [ChanPipeRead pi]
  | PipeDone j => (j = -1 ∧ k < n ∧ (pi_readopen p = false ∨ kl k = true) ∧ woke = []) ∨
      (j = k ∧ k ≤ n ∧ (k = n ∨ fst (um_copyin (u64 (addr + k)) 1 u) = false) ∧ woke = [ChanPipeRead pi])
  end.

Definition locked (p : pipe) : Prop := pi_lock p = true.

Lemma supplies_cons u va b w : um_copyin (u64 va) 1 u = (true, [b]) → supplies u (va + 1) w → supplies u va (b :: w).
Proof.
  intros Hb Hw [|j] c Hj; simpl in Hj; [injection Hj as <-; by rewrite Z.add_0_r|].
  specialize (Hw j c Hj). by replace (va + Z.of_nat (S j)) with (va + 1 + Z.of_nat j) by lia.
Qed.

Lemma pipe_ok_lock b p : pipe_ok p → pipe_ok (set_pi_lock b p) ∧ pipe_bytes (set_pi_lock b p) = pipe_bytes p.
Proof. intros []. by split. Qed.

Lemma set_lock_twice a b p : set_pi_lock a (set_pi_lock b p) = set_pi_lock a p.
Proof. done. Qed.

Lemma pipewrite_loop_spec kl addr n fuel i p u k : pipe_ok p → locked p → i ≤ n → (Z.to_nat (n - i) < fuel)%nat →
  ∃ r w p' k', pipewrite_loop pi fuel kl addr i n (PState p u k) = Ret r (PState (set_pi_lock false p') u (k ++ k')) ∧
  pipe_ok p' ∧ pipe_bytes p' = pipe_bytes p ++ w ∧ supplies u (addr + i) w ∧
  pi_readopen p' = pi_readopen p ∧ pi_writeopen p' = pi_writeopen p ∧ write_result kl u addr i n p' w r k'.
Proof.
  revert i p. induction fuel as [|fuel IH]; intros i p Hok Hl Hi Hf; [lia|]. cbn [pipewrite_loop].
  unfold locked in Hl. destruct (Z.ltb_spec i n) as [Hlt|Hge].
  - unfold gets. unfold mbind at 1, M_bind at 1. cbn [ps_pipe].
    destruct (negb (pi_readopen p) || kl i) eqn:Ecl.
    { exists (PipeDone (-1)), [], p, []. unfold release_pi, release_flag, gets, modify, mbind, M_bind. simpl. rewrite Hl, !app_nil_r.
      split_and!; try done. left. rewrite Z.add_0_r. split_and!; try done. apply orb_true_iff in Ecl as [E|E]; [left|by right].
      by apply negb_true_iff. }
    apply orb_false_iff in Ecl as [Hro Hkl]. apply negb_false_iff in Hro. rewrite pipe_full by done.
    destruct (Z.eqb_spec (pipe_len p) PIPESIZE) as [Hfull|Hroom].
    { exists (PipeSleep (ChanPipeWrite pi) i), [], p, [ChanPipeRead pi].
      unfold pwakeup, release_pi, release_flag, gets, modify, mbind, M_bind. simpl. rewrite Hl, !app_nil_r.
      split_and!; try done; try lia. rewrite pipe_bytes_length, Hfull. done. }
    rewrite (bind_Ret _ _ _ _ _ (copyin1_run _ _)). cbn [ps_um].
    destruct (match um_copyin (u64 (addr + i)) 1 u with (true, l) => head l | _ => None end) as [b|] eqn:Eb.
    + apply copyin1_Some in Eb. destruct (pipe_put_spec b p Hok) as (Hok' & Hb' & Hl'); [pose proof (po_len p Hok); lia|].
      unfold updp. unfold mbind at 1, M_bind at 1, modify at 1. cbn [set_pipe ps_pipe ps_um ps_woke].
      destruct (IH (i + 1) (pipe_put b p) Hok' Hl) as (r & w & p' & k' & E & Hp' & Hb & Hs & Hro' & Hwo' & Hr); [lia|lia|].
      exists r, (b :: w), p', k'. split_and!; try done.
      * rewrite Hb, Hb', <- app_assoc. done.
      * apply supplies_cons; [done|]. by replace (addr + i + 1) with (addr + (i + 1)) by lia.
      * unfold write_result in *. simpl length. replace (i + Z.of_nat (S (length w))) with (i + 1 + Z.of_nat (length w)) by lia. done.
    + apply copyin1_None in Eb. exists (PipeDone i), [], p, [ChanPipeRead pi].
      unfold pwakeup, release_pi, release_flag, gets, modify, mbind, M_bind. simpl. rewrite Hl, !app_nil_r.
      split_and!; try done. right. rewrite Z.add_0_r. split_and!; try done. by right.
  - exists (PipeDone i), [], p, [ChanPipeRead pi]. unfold pwakeup, release_pi, release_flag, gets, modify, mbind, M_bind. simpl. rewrite Hl, !app_nil_r.
    split_and!; try done. right. rewrite Z.add_0_r. split_and!; try done. left. lia.
Qed.

Lemma pipewrite_run kl addr i n p u k : pipe_ok p → pi_lock p = false → i ≤ n →
  ∃ r w p' k', pipewrite_from pi kl addr i n (PState p u k) = Ret r (PState p' u (k ++ k')) ∧
  pipe_ok p' ∧ pi_lock p' = false ∧ pipe_bytes p' = pipe_bytes p ++ w ∧ supplies u (addr + i) w ∧
  pi_readopen p' = pi_readopen p ∧ pi_writeopen p' = pi_writeopen p ∧ write_result kl u addr i n p' w r k'.
Proof.
  intros Hok Hl Hi. destruct (pipe_ok_lock true p Hok) as [Hok1 Hb1].
  destruct (pipewrite_loop_spec kl addr n (S (Z.to_nat (n - i))) i (set_pi_lock true p) u k Hok1 eq_refl Hi) as (r & w & p' & k' & E & Hok' & Hb & Hs & H1 & H2 & H3); [lia|].
  exists r, w, (set_pi_lock false p'), k'. destruct (pipe_ok_lock false p' Hok') as [Hok2 Hb2]. rewrite Hb2, Hb, Hb1. split_and!; try done.
  - unfold pipewrite_from. rewrite (bind_Ret _ _ _ tt (PState (set_pi_lock true p) u k)); [done|].
    unfold acquire_pi, acquire_flag, gets, modify, mbind, M_bind. simpl. by rewrite Hl.
Qed.

(** The bytes [r] of the queue that the copy loop of piperead() takes. *)
Lemma piperead_copy_spec m addr i p u k : pipe_ok p → ∃ r p' d,
  piperead_copy m addr i (PState p u k) = Ret (i + Z.of_nat d) (PState p' (deliver u (addr + i) r).2 k) ∧
  d = (deliver u (addr + i) r).1 ∧
  pipe_ok p' ∧ pi_lock p' = pi_lock p ∧ pipe_bytes p = r ++ pipe_bytes p' ∧
  pi_readopen p' = pi_readopen p ∧ pi_writeopen p' = pi_writeopen p ∧
  (length r ≤ m)%nat ∧ ((d = length r ∧ (d = m ∨ pipe_bytes p' = [])) ∨ length r = S d).
Proof.
  revert i p u. induction m as [|m IH]; intros i p u Hok; cbn [piperead_copy].
  { exists [], p, 0%nat. simpl. rewrite Z.add_0_r. split_and!; try done. left. split; [done|by left]. }
  unfold gets. unfold mbind at 1, M_bind at 1. cbn [ps_pipe]. rewrite pipe_empty by done. pose proof (pipe_len_range p).
  destruct (Z.eqb_spec (pipe_len p) 0) as [H0|Hn].
  { exists [], p, 0%nat. simpl. rewrite Z.add_0_r. split_and!; try done; [lia|]. left. split; [done|right].
    apply length_zero_iff_nil. by rewrite pipe_bytes_length, H0. }
  destruct (pipe_take_spec p Hok) as (Hok' & Hb & Hl'); [lia|].
  unfold updp. unfold mbind at 1, M_bind at 1, modify at 1. cbn [set_pipe ps_pipe ps_um ps_woke].
  unfold copyout1. unfold mbind at 1, M_bind at 1. cbn [ps_pipe ps_um ps_woke].
  destruct (um_copyout (u64 (addr + i)) [pipe_peek p] u) as [ok u1] eqn:Eu. destruct ok.
  - destruct (IH (i + 1) (pipe_take p) u1 Hok') as (r & p' & d & E & Hd & Hp' & Hk' & Hb' & H1 & H2 & H3 & H4).
    exists (pipe_peek p :: r), p', (S d). cbn [deliver]. rewrite Eu. replace (addr + i + 1) with (addr + (i + 1)) by lia.
    destruct (deliver u1 (addr + (i + 1)) r) as [d' u'] eqn:Ed. simpl in *. subst d'. split_and!; try done; try lia.
    + rewrite Eu. etrans; [exact E|]. f_equal. lia.
    + rewrite Hb, Hb'. done.
    + destruct H4 as [[? [?|?]]|?]; [left; split; [lia|left; lia]|left; split; [lia|by right]|right; lia].
  - exists [pipe_peek p], (pipe_take p), 0%nat. cbn [deliver]. rewrite Eu. simpl. rewrite Z.add_0_r. split_and!; try done; try lia. by rewrite Eu.
Qed.

(** ** Reachable pipes *)

Inductive preach : pipe → Prop :=
| preach_init data : length data = Z.to_nat PIPESIZE → preach (pipe_init data)
| preach_write p kl addr i n u k r s' : preach p → i ≤ n →
    pipewrite_from pi kl addr i n (PState p u k) = Ret r s' → preach (ps_pipe s')
| preach_read p kl addr n u k r s' : preach p → piperead pi kl addr n (PState p u k) = Ret r s' → preach (ps_pipe s')
| preach_close p w u k r s' : preach p → pipeclose pi w (PState p u k) = Ret r s' → preach (ps_pipe s').

Lemma piperead_run kl addr n p u k : pipe_ok p → pi_lock p = false →
  ∃ res r p' u' k', piperead pi kl addr n (PState p u k) = Ret res (PState p' u' (k ++ k')) ∧
  pipe_ok p' ∧ pi_lock p' = false ∧ pipe_bytes p = r ++ pipe_bytes p' ∧
  pi_readopen p' = pi_readopen p ∧ pi_writeopen p' = pi_writeopen p ∧
  match res with
  | PipeSleep c _ => c = ChanPipeRead pi ∧ p' = p ∧ u' = u ∧ r = [] ∧ pipe_bytes p = [] ∧ pi_writeopen p = true ∧ kl = false
  | PipeDone d => (d = -1 ∧ kl = true ∧ p' = p ∧ u' = u ∧ r = [] ∧ pipe_bytes p = [] ∧ pi_writeopen p = true) ∨
      ((pipe_bytes p ≠ [] ∨ pi_writeopen p = false) ∧ d = Z.of_nat (deliver u addr r).1 ∧ u' = (deliver u addr r).2 ∧ k' = [ChanPipeWrite pi] ∧
       (length r ≤ Z.to_nat n)%nat ∧
       ((d = Z.of_nat (length r) ∧ (d = Z.max 0 n ∨ pipe_bytes p' = [])) ∨ Z.of_nat (length r) = d + 1))
  end.
Proof.
  intros Hok Hl. destruct (pipe_ok_lock true p Hok) as [Hok1 Hb1].
  assert (Hnil : pipe_len p = 0 ↔ pipe_bytes p = []).
  { rewrite <- length_zero_iff_nil, pipe_bytes_length. pose proof (pipe_len_range p). lia. }
  unfold piperead. rewrite (bind_Ret _ _ _ tt (PState (set_pi_lock true p) u k)).
  2: { unfold acquire_pi, acquire_flag, gets, modify, mbind, M_bind. simpl. by rewrite Hl. }
  unfold gets. unfold mbind at 1, M_bind at 1. cbn [ps_pipe]. rewrite pipe_empty by done.
  change (pipe_len (set_pi_lock true p)) with (pipe_len p). cbn [set_pi_lock pi_writeopen].
  assert (Hlk : set_pi_lock false p = p) by (destruct p; simpl in *; by subst).
  destruct ((pipe_len p =? 0) && pi_writeopen p) eqn:Ew.
  - apply andb_true_iff in Ew as [E0 Ewo]. zbool. apply Hnil in E0. destruct kl.
    + exists (PipeDone (-1)), [], p, u, []. split_and!; try done; [|by left].
      unfold release_pi, release_flag, gets, modify, mbind, M_bind, set_pipe. simpl. rewrite set_lock_twice, Hlk, app_nil_r. done.
    + exists (PipeSleep (ChanPipeRead pi) 0), [], p, u, []. split_and!; try done.
      unfold release_pi, release_flag, gets, modify, mbind, M_bind, set_pipe. simpl. rewrite set_lock_twice, Hlk, app_nil_r. done.
  - destruct (piperead_copy_spec (Z.to_nat n) addr 0 (set_pi_lock true p) u k Hok1) as (r & p' & d & E & Hd & Hok' & Hk' & Hb & H1 & H2 & H3 & H4).
    rewrite Z.add_0_r in *. rewrite (bind_Ret _ _ _ _ _ E). cbn [Z.add].
    exists (PipeDone (Z.of_nat d)), r, (set_pi_lock false p'), (deliver u addr r).2, [ChanPipeWrite pi].
    destruct (pipe_ok_lock false p' Hok') as [Hok2 Hb2]. rewrite Hb2, <- Hb, Hb1. split_and!; try done.
    + unfold pwakeup, release_pi, release_flag, gets, modify, mbind, M_bind, set_pipe. simpl. by rewrite Hk'.
    + right. split_and!; try done; [|by rewrite Hd|].
      { apply andb_false_iff in Ew as [E0|Ewo]; [left|by right]. zbool. by rewrite <- Hnil. }
      destruct H4 as [[? [?|?]]|?]; [left; split; [lia|left; lia]|left; split; [lia|by right]|right; lia].
Qed.

Lemma pipeclose_run w p u k : pipe_ok p → pi_lock p = false →
  pipeclose pi w (PState p u k) = let p' := if w then set_writeopen false p else set_readopen false p in
    Ret (negb (pi_readopen p') && negb (pi_writeopen p')) (PState p' u (k ++ [if w then ChanPipeRead pi else ChanPipeWrite pi])).
Proof.
  intros Hok Hl. destruct p as [lk da nr nw ro wo]. simpl in Hl. subst lk. destruct w; reflexivity.
Qed.

Lemma preach_ok p : preach p → pipe_ok p ∧ pi_lock p = false.
Proof.
  induction 1 as [data Hd|p kl addr i n u k r s' _ [Hok Hl] Hi E|p kl addr n u k r s' _ [Hok Hl] E|p w u k r s' _ [Hok Hl] E].
  - split; [|done]. by split.
  - destruct (pipewrite_run kl addr i n p u k Hok Hl Hi) as (r' & w & p' & k' & E' & Hok' & Hl' & _). rewrite E in E'. by injection E' as -> ->.
  - destruct (piperead_run kl addr n p u k Hok Hl) as (res & r' & p' & u' & k' & E' & Hok' & Hl' & _). rewrite E in E'. by injection E' as -> ->.
  - rewrite pipeclose_run in E by done. injection E as _ <-. simpl. destruct Hok, w; by split; [split|].
Qed.

(** C17: pipewrite() on the queue of bytes a pipe is.  A stretch of it, entered
    with [i] of [n] bytes written, always ends: it has appended the next bytes
    of the caller's memory, in order, to the queue, which never holds more
    than PIPESIZE bytes, and then either sleeps because the queue is full and
    the read end open, having woken the readers, or returns the number of
    bytes written, all of them unless copyin() failed, or returns -1 because
    the read end is closed or the caller was killed. *)
Theorem pipewrite_appends kl addr i n p u k : preach p → i ≤ n →
  ∃ r w p' k', pipewrite_from pi kl addr i n (PState p u k) = Ret r (PState p' u (k ++ k')) ∧ preach p' ∧
  pipe_bytes p' = pipe_bytes p ++ w ∧ Z.of_nat (length (pipe_bytes p')) ≤ PIPESIZE ∧ supplies u (addr + i) w ∧
  write_result kl u addr i n p' w r k'.
Proof.
  intros Hp Hi. destruct (preach_ok p Hp) as [Hok Hl].
  destruct (pipewrite_run kl addr i n p u k Hok Hl Hi) as (r & w & p' & k' & E & Hok' & Hl' & Hb & Hs & _ & _ & Hr).
  exists r, w, p', k'. split_and!; try done.
  - by apply (preach_write p kl addr i n u k r _ Hp Hi) in E.
  - rewrite pipe_bytes_length, Z2Nat.id by apply pipe_len_range. apply Hok'.
Qed.

(** C18: piperead() always ends.  It sleeps only when the pipe is empty, the
    write end open and the caller not killed; otherwise it takes bytes from
    the front of the queue, the oldest first, up to [n] or all there are,
    stores them in the caller's memory, wakes the writers and returns their
    number.  When copyout() fails it has taken one byte more than it
    returns: that byte is lost. *)
Theorem piperead_takes kl addr n p u k : preach p →
  ∃ res r p' u' k', piperead pi kl addr n (PState p u k) = Ret res (PState p' u' (k ++ k')) ∧ preach p' ∧
  pipe_bytes p = r ++ pipe_bytes p' ∧
  match res with
  | PipeSleep c _ => c = ChanPipeRead pi ∧ p' = p ∧ u' = u ∧ pipe_bytes p = [] ∧ pi_writeopen p = true ∧ kl = false
  | PipeDone d => (d = -1 ∧ kl = true ∧ p' = p ∧ u' = u ∧ pipe_bytes p = [] ∧ pi_writeopen p = true) ∨
      ((pipe_bytes p ≠ [] ∨ pi_writeopen p = false) ∧ d = Z.of_nat (deliver u addr r).1 ∧ u' = (deliver u addr r).2 ∧ k' = [ChanPipeWrite pi] ∧
       (length r ≤ Z.to_nat n)%nat ∧
       ((d = Z.of_nat (length r) ∧ (d = Z.max 0 n ∨ pipe_bytes p' = [])) ∨ Z.of_nat (length r) = d + 1))
  end.
Proof.
  intros Hp. destruct (preach_ok p Hp) as [Hok Hl].
  destruct (piperead_run kl addr n p u k Hok Hl) as (res & r & p' & u' & k' & E & _ & _ & Hb & _ & _ & Hr).
  exists res, r, p', u', k'. split_and!; try done.
  - by apply (preach_read p kl addr n u k res _ Hp) in E.
  - destruct res as [d|c j]; [destruct Hr as [(? & ? & ? & ? & ? & ?)|?]; [left|right]; done|]. by destruct Hr as (? & ? & ? & ? & ?).
Qed.
End thms.

(** ** Witnesses: a user memory of a constant byte *)

#[local] Instance const_user : UserMem := {|
  um_state := unit;
  um_copyout _ _ u := (true, u);
  um_copyin _ n _ := (true, replicate n Byte.x61);
  um_copyinstr _ _ _ := None;
  um_copyin_len _ n _ _ := length_replicate n Byte.x61;
  um_copyin_le _ n _ := Nat.eq_le_incl _ _ (length_replicate n Byte.x61)
|}.

Lemma pipewrite_appends_witness : ∃ r w p' k', pipewrite_from (U := const_user) 0 (λ _, false) 0 0 600 (PState (pipe_init (replicate 512 Byte.x00)) tt []) = Ret r (PState p' tt k') ∧
  pipe_bytes p' = w ∧ r = PipeSleep (ChanPipeWrite 0) 512.
Proof.
  destruct (pipewrite_appends (U := const_user) 0 (λ _, false) 0 0 600 (pipe_init (replicate 512 Byte.x00)) tt []) as (r & w & p' & k' & E & _ & Hb & _ & _ & Hr).
  - apply preach_init. reflexivity.
  - done.
  - exists r, w, p', k'. split; [exact E|]. split; [exact Hb|]. vm_compute in E. by injection E as <-.
Defined.

Lemma piperead_takes_witness : ∃ res p' u' k', piperead (U := const_user) 0 false 0 10 (PState (pipe_init (replicate 512 Byte.x00)) tt []) = Ret res (PState p' u' k') ∧ res = PipeSleep (ChanPipeRead 0) 0.
Proof.
  destruct (piperead_takes (U := const_user) 0 false 0 10 (pipe_init (replicate 512 Byte.x00)) tt []) as (res & r & p' & u' & k' & E & _).
  - apply preach_init. reflexivity.
  - exists res, p', u', k'. split; [exact E|]. vm_compute in E. by injection E as <-.
Defined.
