(* ===== verification/Proc.v ===== *)
(** * kernel/proc.c: processes (the code)

    [pkstate] is the process table with the memory of kalloc.c and vm.c, the
    open files and inodes (through the interface [FileLayer]) and the hart the
    code runs on.  A [struct proc *] is an index into the table; myproc() is
    the argument [me].  A lock is a flag together with the hart's nesting
    depth, as in spinlock.c.

    swtch() leaves a kernel thread and comes back to it later: functions that
    reach sched() are split there, [..._before] up to the swtch() and
    [..._after] from it on. *)

From stdpp Require Import base gmap sets strings numbers list.
From coqutil Require Import Byte Word.LittleEndianList.
From S2P Require Import Prelude Mem Str Riscv Spinlock Kalloc Vm.

(** What proc.c uses of the file system and the open-file table. *)
Class FileLayer := {
  fl_state : Type;
  fl_filedup : nat → M fl_state nat;
  fl_fileclose : nat → M fl_state unit;
  fl_idup : nat → M fl_state nat;
  fl_iput : nat → M fl_state unit;
  fl_begin_op : M fl_state unit;
  fl_end_op : M fl_state unit;
  fl_namei : list byte → M fl_state (option nat);
  fl_fsinit : Z → M fl_state unit
}.

(** ** proc.h *)

Inductive procstate := UNUSED | USED | SLEEPING | RUNNABLE | RUNNING | ZOMBIE.
#[export] Instance procstate_eq_dec : EqDecision procstate.
Proof. solve_decision. Defined.

Record context := Ctx { ctx_ra : Z; ctx_sp : Z; ctx_s : list Z }.

Record proc := Proc {
  p_lock : bool;
  p_state : procstate;
  p_chan : option chan;
  p_killed : bool;
  p_xstate : Z;
  p_pid : Z;
  p_parent : option nat;
  p_kstack : Z;
  p_sz : Z;
  p_pagetable : Z;
  p_trapframe : Z;
  p_context : context;
  p_ofile : list (option nat);
  p_cwd : option nat;
  p_name : list byte
}.

Definition proc0 : proc :=
  Proc false UNUSED None false 0 0 None 0 0 0 0 (Ctx 0 0 (replicate 12 0)) (replicate NOFILE None) None (replicate 16 Byte.x00).
#[export] Instance proc_inhabited : Inhabited proc := populate proc0.

Definition p_set_lock (b : bool) (p : proc) : proc :=
  Proc b (p_state p) (p_chan p) (p_killed p) (p_xstate p) (p_pid p) (p_parent p) (p_kstack p) (p_sz p) (p_pagetable p) (p_trapframe p) (p_context p) (p_ofile p) (p_cwd p) (p_name p).
Definition p_set_state (x : procstate) (p : proc) : proc :=
  Proc (p_lock p) x (p_chan p) (p_killed p) (p_xstate p) (p_pid p) (p_parent p) (p_kstack p) (p_sz p) (p_pagetable p) (p_trapframe p) (p_context p) (p_ofile p) (p_cwd p) (p_name p).
Definition p_set_chan (c : option chan) (p : proc) : proc :=
  Proc (p_lock p) (p_state p) c (p_killed p) (p_xstate p) (p_pid p) (p_parent p) (p_kstack p) (p_sz p) (p_pagetable p) (p_trapframe p) (p_context p) (p_ofile p) (p_cwd p) (p_name p).
Definition p_set_killed (b : bool) (p : proc) : proc :=
  Proc (p_lock p) (p_state p) (p_chan p) b (p_xstate p) (p_pid p) (p_parent p) (p_kstack p) (p_sz p) (p_pagetable p) (p_trapframe p) (p_context p) (p_ofile p) (p_cwd p) (p_name p).
Definition p_set_xstate (x : Z) (p : proc) : proc :=
  Proc (p_lock p) (p_state p) (p_chan p) (p_killed p) x (p_pid p) (p_parent p) (p_kstack p) (p_sz p) (p_pagetable p) (p_trapframe p) (p_context p) (p_ofile p) (p_cwd p) (p_name p).
Definition p_set_pid (x : Z) (p : proc) : proc :=
  Proc (p_lock p) (p_state p) (p_chan p) (p_killed p) (p_xstate p) x (p_parent p) (p_kstack p) (p_sz p) (p_pagetable p) (p_trapframe p) (p_context p) (p_ofile p) (p_cwd p) (p_name p).
Definition p_set_parent (x : option nat) (p : proc) : proc :=
  Proc (p_lock p) (p_state p) (p_chan p) (p_killed p) (p_xstate p) (p_pid p) x (p_kstack p) (p_sz p) (p_pagetable p) (p_trapframe p) (p_context p) (p_ofile p) (p_cwd p) (p_name p).
Definition p_set_kstack (x : Z) (p : proc) : proc :=
  Proc (p_lock p) (p_state p) (p_chan p) (p_killed p) (p_xstate p) (p_pid p) (p_parent p) x (p_sz p) (p_pagetable p) (p_trapframe p) (p_context p) (p_ofile p) (p_cwd p) (p_name p).
Definition p_set_sz (x : Z) (p : proc) : proc :=
  Proc (p_lock p) (p_state p) (p_chan p) (p_killed p) (p_xstate p) (p_pid p) (p_parent p) (p_kstack p) x (p_pagetable p) (p_trapframe p) (p_context p) (p_ofile p) (p_cwd p) (p_name p).
Definition p_set_pagetable (x : Z) (p : proc) : proc :=
  Proc (p_lock p) (p_state p) (p_chan p) (p_killed p) (p_xstate p) (p_pid p) (p_parent p) (p_kstack p) (p_sz p) x (p_trapframe p) (p_context p) (p_ofile p) (p_cwd p) (p_name p).
Definition p_set_trapframe (x : Z) (p : proc) : proc :=
  Proc (p_lock p) (p_state p) (p_chan p) (p_killed p) (p_xstate p) (p_pid p) (p_parent p) (p_kstack p) (p_sz p) (p_pagetable p) x (p_context p) (p_ofile p) (p_cwd p) (p_name p).
Definition p_set_context (x : context) (p : proc) : proc :=
  Proc (p_lock p) (p_state p) (p_chan p) (p_killed p) (p_xstate p) (p_pid p) (p_parent p) (p_kstack p) (p_sz p) (p_pagetable p) (p_trapframe p) x (p_ofile p) (p_cwd p) (p_name p).
Definition p_set_ofile (x : list (option nat)) (p : proc) : proc :=
  Proc (p_lock p) (p_state p) (p_chan p) (p_killed p) (p_xstate p) (p_pid p) (p_parent p) (p_kstack p) (p_sz p) (p_pagetable p) (p_trapframe p) (p_context p) x (p_cwd p) (p_name p).
Definition p_set_cwd (x : option nat) (p : proc) : proc :=
  Proc (p_lock p) (p_state p) (p_chan p) (p_killed p) (p_xstate p) (p_pid p) (p_parent p) (p_kstack p) (p_sz p) (p_pagetable p) (p_trapframe p) (p_context p) (p_ofile p) x (p_name p).
Definition p_set_name (x : list byte) (p : proc) : proc :=
  Proc (p_lock p) (p_state p) (p_chan p) (p_killed p) (p_xstate p) (p_pid p) (p_parent p) (p_kstack p) (p_sz p) (p_pagetable p) (p_trapframe p) (p_context p) (p_ofile p) (p_cwd p) x.

(** Offsets in [struct trapframe]. *)
Definition tf_epc : Z := 24.
Definition tf_sp : Z := 48.
Definition tf_a0 : Z := 112.
Definition sizeof_trapframe : Z := 288.

(** string.c's safestrcpy() into a buffer with the bytes [s]. *)
Fixpoint safestrcpy_bytes (s t : list byte) (n : nat) : list byte :=
  match n with
  | O => s
  | S O => Byte.x00 :: tl s
  | S (S _ as n) =>
    let c := hd Byte.x00 t in
    if byte.unsigned c =? 0 then c :: Byte.x00 :: tl (tl s) else c :: safestrcpy_bytes (tl s) (tl t) n
  end.

Section proc.
Context {I : image} {PA : PageAllocator} {FL : FileLayer}.

Record pkstate := PK {
  ptable : list proc;
  nextpid : Z;
  initproc : option nat;
  pid_lock : bool;
  wait_lock : bool;
  pk_mem : mstate;
  pk_files : fl_state;
  hart : cpu;                (* this hart's struct cpu ... *)
  hart_proc : option nat     (* ... and its proc field *)
}.

Definition set_ptable (x : list proc) (s : pkstate) : pkstate := PK x (nextpid s) (initproc s) (pid_lock s) (wait_lock s) (pk_mem s) (pk_files s) (hart s) (hart_proc s).
Definition set_nextpid (x : Z) (s : pkstate) : pkstate := PK (ptable s) x (initproc s) (pid_lock s) (wait_lock s) (pk_mem s) (pk_files s) (hart s) (hart_proc s).
Definition set_initproc (x : option nat) (s : pkstate) : pkstate := PK (ptable s) (nextpid s) x (pid_lock s) (wait_lock s) (pk_mem s) (pk_files s) (hart s) (hart_proc s).
Definition set_pid_lock (x : bool) (s : pkstate) : pkstate := PK (ptable s) (nextpid s) (initproc s) x (wait_lock s) (pk_mem s) (pk_files s) (hart s) (hart_proc s).
Definition set_wait_lock (x : bool) (s : pkstate) : pkstate := PK (ptable s) (nextpid s) (initproc s) (pid_lock s) x (pk_mem s) (pk_files s) (hart s) (hart_proc s).
Definition set_pk_mem (x : mstate) (s : pkstate) : pkstate := PK (ptable s) (nextpid s) (initproc s) (pid_lock s) (wait_lock s) x (pk_files s) (hart s) (hart_proc s).
Definition set_pk_files (x : fl_state) (s : pkstate) : pkstate := PK (ptable s) (nextpid s) (initproc s) (pid_lock s) (wait_lock s) (pk_mem s) x (hart s) (hart_proc s).
Definition set_hart (x : cpu) (s : pkstate) : pkstate := PK (ptable s) (nextpid s) (initproc s) (pid_lock s) (wait_lock s) (pk_mem s) (pk_files s) x (hart_proc s).
Definition set_hart_proc (x : option nat) (s : pkstate) : pkstate := PK (ptable s) (nextpid s) (initproc s) (pid_lock s) (wait_lock s) (pk_mem s) (pk_files s) (hart s) x.

Definition mm {A} (m : M mstate A) : M pkstate A := zoom pk_mem set_pk_mem m.
Definition files {A} (m : M fl_state A) : M pkstate A := zoom pk_files set_pk_files m.

Definition getp (i : nat) (s : pkstate) : proc := ptable s !!! i.
Definition updp (i : nat) (f : proc → proc) : M pkstate unit := modify (λ s, set_ptable (alter f i (ptable s)) s).

(** ** Locks on this hart *)

Definition hpush : M pkstate unit :=
  modify (λ s, let c := hart s in set_hart (Cpu (noff c + 1) (if noff c =? 0 then sie c else intena c) false) s).
Definition hpop : M pkstate unit :=
  c ← gets hart;
  if sie c then panic "pop_off - interruptible" else
  if noff c <? 1 then panic "pop_off" else
  modify (set_hart (Cpu (noff c - 1) (intena c) ((noff c - 1 =? 0) && intena c))).

Definition lock (get : pkstate → bool) (set : bool → pkstate → pkstate) : M pkstate unit := hpush;; acquire_flag get set.
Definition unlock (get : pkstate → bool) (set : bool → pkstate → pkstate) : M pkstate unit := release_flag get set;; hpop.
Definition set_plock (i : nat) (b : bool) (s : pkstate) : pkstate := set_ptable (alter (p_set_lock b) i (ptable s)) s.
Definition plock (i : nat) : M pkstate unit := lock (λ s, p_lock (getp i s)) (set_plock i).
Definition punlock (i : nat) : M pkstate unit := unlock (λ s, p_lock (getp i s)) (set_plock i).

(** ** The table *)

(** [for(p = proc; p < &proc[NPROC]; p++)], [k] processes to go. *)
Fixpoint procinit_loop (k i : nat) : M pkstate unit :=
  match k with
  | O => mret tt
  | S k =>
    updp i (λ p, p_set_kstack (KSTACK (Z.of_nat i)) (p_set_state UNUSED (p_set_lock false p)));;
    procinit_loop k (S i)
  end.
Definition procinit : M pkstate unit :=
  modify (set_pid_lock false);;
  modify (set_wait_lock false);;
  procinit_loop NPROC 0.

Definition allocpid : M pkstate Z :=
  lock pid_lock set_pid_lock;;
  pid ← gets nextpid;
  modify (set_nextpid (i32 (pid + 1)));;
  unlock pid_lock set_pid_lock;;
  mret pid.

Definition proc_freepagetable (pagetable sz : Z) : M mstate unit :=
  uvmunmap pagetable TRAMPOLINE 1 false;;
  uvmunmap pagetable TRAPFRAME 1 false;;
  uvmfree pagetable sz.

Definition proc_pagetable (trapframe : Z) : M mstate Z :=
  pagetable ← uvmcreate;
  if pagetable =? 0 then mret 0 else
  (* map the trampoline code at the highest user virtual address. *)
  r ← mappages pagetable TRAMPOLINE PGSIZE trampoline (Z.lor PTE_R PTE_X);
  if r <? 0 then uvmfree pagetable 0;; mret 0 else
  (* map the trapframe page just below the trampoline page *)
  r ← mappages pagetable TRAPFRAME PGSIZE trapframe (Z.lor PTE_R PTE_W);
  if r <? 0 then
    uvmunmap pagetable TRAMPOLINE 1 false;;
    uvmfree pagetable 0;;
    mret 0
  else mret pagetable.

Definition freeproc (i : nat) : M pkstate unit :=
  p ← gets (getp i);
  (if p_trapframe p =? 0 then mret tt else mm (pa_kfree (p_trapframe p)));;
  updp i (p_set_trapframe 0);;
  (if p_pagetable p =? 0 then mret tt else mm (proc_freepagetable (p_pagetable p) (p_sz p)));;
  updp i (p_set_pagetable 0);;
  updp i (p_set_sz 0);;
  updp i (p_set_pid 0);;
  updp i (p_set_parent None);;
  updp i (λ p, p_set_name (Byte.x00 :: tl (p_name p)) p);;
  updp i (p_set_chan None);;
  updp i (p_set_killed false);;
  updp i (p_set_xstate 0);;
  updp i (p_set_state UNUSED).

(** The search of allocproc(), [k] processes to go; the process found is
    locked. *)
Fixpoint allocproc_find (k i : nat) : M pkstate (option nat) :=
  match k with
  | O => mret None
  | S k =>
    plock i;;
    p ← gets (getp i);
    if decide (p_state p = UNUSED) then mret (Some i) else
    punlock i;;
    allocproc_find k (S i)
  end.

(** [forkret] is the address of the function. *)
Definition allocproc (forkret : Z) : M pkstate (option nat) :=
  r ← allocproc_find NPROC 0;
  match r with
  | None => mret None
  | Some i =>
    pid ← allocpid;
    updp i (p_set_pid pid);;
    updp i (p_set_state USED);;
    (* Allocate a trapframe page. *)
    tf ← mm pa_kalloc;
    updp i (p_set_trapframe tf);;
    if tf =? 0 then freeproc i;; punlock i;; mret None else
    (* An empty user page table. *)
    pt ← mm (proc_pagetable tf);
    updp i (p_set_pagetable pt);;
    if pt =? 0 then freeproc i;; punlock i;; mret None else
    (* Set up new context to start executing at forkret *)
    updp i (λ p, p_set_context (Ctx forkret (u64 (p_kstack p + PGSIZE)) (replicate 12 0)) p);;
    mret (Some i)
  end.

(** [initcode] is the array of the same name, "initcode" and "/" are spelled
    out by the caller. *)
Definition userinit (forkret : Z) (initcode name_initcode path_root : list byte) : M pkstate unit :=
  r ← allocproc forkret;
  modify (set_initproc r);;
  match r with
  | None => panic "null pointer"     (* p->pagetable of a null pointer *)
  | Some i =>
    p ← gets (getp i);
    mm (uvmfirst (p_pagetable p) initcode);;
    updp i (p_set_sz PGSIZE);;
    mm (mstore64 (p_trapframe p + tf_epc) 0);;
    mm (mstore64 (p_trapframe p + tf_sp) PGSIZE);;
    updp i (λ p, p_set_name (safestrcpy_bytes (p_name p) name_initcode 16) p);;
    cwd ← files (fl_namei path_root);
    updp i (p_set_cwd cwd);;
    updp i (p_set_state RUNNABLE);;
    punlock i
  end.

Definition growproc (me : nat) (n : Z) : M pkstate Z :=
  p ← gets (getp me);
  let sz := p_sz p in
  if 0 <? n then
    sz ← mm (uvmalloc (p_pagetable p) sz (u64 (sz + n)) PTE_W);
    if sz =? 0 then mret (-1) else updp me (p_set_sz sz);; mret 0
  else if n <? 0 then
    sz ← mm (uvmdealloc (p_pagetable p) sz (u64 (sz + n)));
    updp me (p_set_sz sz);; mret 0
  else updp me (p_set_sz sz);; mret 0.

(** ** fork, exit, wait *)

(** [for(i = 0; i < NOFILE; i++)], [k] descriptors to go. *)
Fixpoint fork_files (k fd me np : nat) : M pkstate unit :=
  match k with
  | O => mret tt
  | S k =>
    p ← gets (getp me);
    (match p_ofile p !!! fd with
     | None => mret tt
     | Some f => f' ← files (fl_filedup f); updp np (λ p, p_set_ofile (<[fd := Some f']> (p_ofile p)) p)
     end);;
    fork_files k (S fd) me np
  end.

Definition fork (forkret : Z) (me : nat) : M pkstate Z :=
  r ← allocproc forkret;
  match r with
  | None => mret (-1)
  | Some np =>
    p ← gets (getp me);
    q ← gets (getp np);
    r ← mm (uvmcopy (p_pagetable p) (p_pagetable q) (p_sz p));
    if r <? 0 then freeproc np;; punlock np;; mret (-1) else
    updp np (p_set_sz (p_sz p));;
    (* copy saved user registers. *)
    mm (modify (λ m, set_mem (store_bytes (ms_mem m) (p_trapframe q) (load_bytes (ms_mem m) (p_trapframe p) (Z.to_nat sizeof_trapframe))) m));;
    (* Cause fork to return 0 in the child. *)
    mm (mstore64 (p_trapframe q + tf_a0) 0);;
    fork_files NOFILE 0 me np;;
    cwd ← (match p_cwd p with Some ip => files (fl_idup ip) | None => panic "null pointer" end);
    updp np (p_set_cwd (Some cwd));;
    updp np (λ q, p_set_name (safestrcpy_bytes (p_name q) (p_name p) 16) q);;
    q ← gets (getp np);
    let pid := p_pid q in
    punlock np;;
    lock wait_lock set_wait_lock;;
    updp np (p_set_parent (Some me));;
    unlock wait_lock set_wait_lock;;
    plock np;;
    updp np (p_set_state RUNNABLE);;
    punlock np;;
    mret pid
  end.

(** The body of wakeup()'s loop. *)
Definition wakeup_one (i : nat) (me : option nat) (c : chan) : M pkstate unit :=
  if decide (Some i = me) then mret tt else
  plock i;;
  p ← gets (getp i);
  (if decide (p_state p = SLEEPING ∧ p_chan p = Some c) then updp i (p_set_state RUNNABLE) else mret tt);;
  punlock i.

(** wakeup(): [k] processes to go. *)
Fixpoint wakeup_loop (k i : nat) (me : option nat) (c : chan) : M pkstate unit :=
  match k with
  | O => mret tt
  | S k => wakeup_one i me c;; wakeup_loop k (S i) me c
  end.
Definition wakeup (me : option nat) (c : chan) : M pkstate unit := wakeup_loop NPROC 0 me c.

(** [wakeup(initproc)] and [wakeup(p->parent)]: the channel is a process's
    address, and nobody sleeps on a null pointer. *)
Definition wakeup_proc (me : option nat) (p : option nat) : M pkstate unit :=
  match p with Some i => wakeup me (ChanProc i) | None => mret tt end.

Fixpoint reparent_loop (k i me : nat) : M pkstate unit :=
  match k with
  | O => mret tt
  | S k =>
    pp ← gets (getp i);
    (if decide (p_parent pp = Some me) then
       ini ← gets initproc;
       updp i (p_set_parent ini);;
       wakeup_proc (Some me) ini
     else mret tt);;
    reparent_loop k (S i) me
  end.
Definition reparent (me : nat) : M pkstate unit := reparent_loop NPROC 0 me.

(** sched() up to swtch(), with the saved [intena] as its result. *)
Definition sched_before (me : nat) : M pkstate bool :=
  p ← gets (getp me);
  c ← gets hart;
  if negb (p_lock p) then panic "sched p->lock" else
  if negb (noff c =? 1) then panic "sched locks" else
  if decide (p_state p = RUNNING) then panic "sched running" else
  if sie c then panic "sched interruptible" else
  mret (intena c).
Definition sched_after (ie : bool) : M pkstate unit := modify (λ s, set_hart (Cpu (noff (hart s)) ie (sie (hart s))) s).

(** [for(int fd = 0; fd < NOFILE; fd++)], [k] descriptors to go. *)
Fixpoint exit_files (k fd me : nat) : M pkstate unit :=
  match k with
  | O => mret tt
  | S k =>
    p ← gets (getp me);
    (match p_ofile p !!! fd with
     | None => mret tt
     | Some f => files (fl_fileclose f);; updp me (λ p, p_set_ofile (<[fd := None]> (p_ofile p)) p)
     end);;
    exit_files k (S fd) me
  end.

(** The end of exit(), from acquire(&wait_lock) on. *)
Definition exit_tail (me : nat) (status : Z) : M pkstate bool :=
  lock wait_lock set_wait_lock;;
  (* Give any children to init. *)
  reparent me;;
  (* Parent might be sleeping in wait(). *)
  p ← gets (getp me);
  wakeup_proc (Some me) (p_parent p);;
  plock me;;
  updp me (p_set_xstate status);;
  updp me (p_set_state ZOMBIE);;
  unlock wait_lock set_wait_lock;;
  sched_before me.

(** exit(), up to the swtch() it never returns from. *)
Definition exit_before (me : nat) (status : Z) : M pkstate bool :=
  ini ← gets initproc;
  if decide (ini = Some me) then panic "init exiting" else
  exit_files NOFILE 0 me;;
  p ← gets (getp me);
  files fl_begin_op;;
  (match p_cwd p with Some ip => files (fl_iput ip) | None => panic "null pointer" end);;
  files fl_end_op;;
  updp me (p_set_cwd None);;
  exit_tail me status.

(** One scan of wait() over the table, [k] processes to go: the value to
    return, or whether there are children. *)
Fixpoint wait_scan (k i me : nat) (addr : Z) (havekids : bool) : M pkstate (Z + bool) :=
  match k with
  | O => mret (inr havekids)
  | S k =>
    pp ← gets (getp i);
    if decide (p_parent pp = Some me) then
      plock i;;
      pp ← gets (getp i);
      if decide (p_state pp = ZOMBIE) then
        let pid := p_pid pp in
        p ← gets (getp me);
        r ← (if addr =? 0 then mret 0 else mm (copyout (p_pagetable p) addr (le_split 4 (p_xstate pp))));
        if r <? 0 then
          punlock i;; unlock wait_lock set_wait_lock;; mret (inl (-1))
        else
        freeproc i;;
        punlock i;;
        unlock wait_lock set_wait_lock;;
        mret (inl pid)
      else punlock i;; wait_scan k (S i) me addr true
    else wait_scan k (S i) me addr havekids
  end.

Definition killed (i : nat) : M pkstate bool :=
  plock i;;
  p ← gets (getp i);
  punlock i;;
  mret (p_killed p).

Definition setkilled (i : nat) : M pkstate unit :=
  plock i;;
  updp i (p_set_killed true);;
  punlock i.

(** sleep(), up to the swtch() and after it. *)
Definition sleep_before (me : nat) (c : chan) (release_lk : M pkstate unit) : M pkstate bool :=
  plock me;;
  release_lk;;
  updp me (p_set_chan (Some c));;
  updp me (p_set_state SLEEPING);;
  sched_before me.
Definition sleep_after (me : nat) (ie : bool) (acquire_lk : M pkstate unit) : M pkstate unit :=
  sched_after ie;;
  updp me (p_set_chan None);;
  punlock me;;
  acquire_lk.

(** The body of wait()'s outer loop, wait_lock held: the value to return, or
    the saved [intena] of a process that sleeps and then comes back here. *)
Definition wait_round (me : nat) (addr : Z) : M pkstate (Z + bool) :=
  r ← wait_scan NPROC 0 me addr false;
  match r with
  | inl v => mret (inl v)
  | inr havekids =>
    k ← (if havekids : bool then killed me else mret false);
    if negb havekids || k then unlock wait_lock set_wait_lock;; mret (inl (-1)) else
    ie ← sleep_before me (ChanProc me) (unlock wait_lock set_wait_lock);
    mret (inr ie)
  end.
Definition wait (me : nat) (addr : Z) : M pkstate (Z + bool) :=
  lock wait_lock set_wait_lock;;
  wait_round me addr.
Definition wait_again (me : nat) (addr : Z) (ie : bool) : M pkstate (Z + bool) :=
  sleep_after me ie (lock wait_lock set_wait_lock);;
  wait_round me addr.

(** ** The scheduler *)

(** One process of scheduler()'s loop: whether it switches to it. *)
Definition scheduler_try (i : nat) : M pkstate bool :=
  plock i;;
  p ← gets (getp i);
  if decide (p_state p = RUNNABLE) then
    updp i (p_set_state RUNNING);;
    modify (set_hart_proc (Some i));;
    mret true
  else punlock i;; mret false.
(** ... and when the process comes back from its swtch(). *)
Definition scheduler_back (i : nat) : M pkstate unit :=
  modify (set_hart_proc None);;
  punlock i.

Definition yield_before (me : nat) : M pkstate bool :=
  plock me;;
  updp me (p_set_state RUNNABLE);;
  sched_before me.
Definition yield_after (me : nat) (ie : bool) : M pkstate unit :=
  sched_after ie;;
  punlock me.

(** forkret(), up to usertrapret(); [first] is its static variable. *)
Definition forkret_body (me : nat) (first : bool) : M pkstate bool :=
  punlock me;;
  (if first then files (fl_fsinit ROOTDEV) else mret tt);;
  mret false.

(** kill(): [k] processes to go. *)
Fixpoint kill_loop (k i : nat) (pid : Z) : M pkstate Z :=
  match k with
  | O => mret (-1)
  | S k =>
    plock i;;
    p ← gets (getp i);
    if p_pid p =? pid then
      updp i (p_set_killed true);;
      (if decide (p_state p = SLEEPING) then updp i (p_set_state RUNNABLE) else mret tt);;
      punlock i;;
      mret 0
    else
    punlock i;;
    kill_loop k (S i) pid
  end.
Definition kill (pid : Z) : M pkstate Z := kill_loop NPROC 0 pid.

(** The lines procdump() prints: pid, state and name. *)
Definition state_name (x : procstate) : string :=
  match x with
  | UNUSED => "unused" | USED => "used" | SLEEPING => "sleep " | RUNNABLE => "runble" | RUNNING => "run   " | ZOMBIE => "zombie"
  end.
Definition procdump (s : pkstate) : list (Z * string * list byte) :=
  (λ p, (p_pid p, state_name (p_state p), p_name p)) <$> filter (λ p, p_state p ≠ UNUSED) (ptable s).
End proc.
