(* ===== verification/ProcSleep.v ===== *)
(** * kernel/proc.c: sleep() and wakeup() on several harts

    Threads that wait for a condition [cond] protected by a lock [lk],

      acquire(lk); while(!cond) sleep(c, lk); ...; release(lk);

    and threads that make it true,

      acquire(lk); cond = 1; wakeup(c); release(lk);

    interleaved at every acquire and release: thread [t] is the kernel thread
    of process [t].  The steps change the process table by [sleep_entry],
    [wake_entry] and [kill_entry], which ProcThms proves to be what the code of
    Proc does between these points: sleep_before() ([sleep_switches]), the body
    of wakeup()'s loop ([wakeup_one_run]) and kill() ([kill_loop_PK]); kill()
    interferes at any time. *)

From stdpp Require Import base gmap sets functions strings numbers list.
From S2P Require Import Prelude Riscv Proc.

(** What sleep() does to the entry of the caller before it calls sched(). *)
Definition sleep_entry (c : chan) (p : proc) : proc := p_set_state SLEEPING (p_set_chan (Some c) p).
(** What the body of wakeup()'s loop does to an entry. *)
Definition wake_entry (c : chan) (p : proc) : proc :=
  if decide (p_state p = SLEEPING ∧ p_chan p = Some c) then p_set_state RUNNABLE p else p.
(** What kill() does to the entry it finds. *)
Definition kill_entry (p : proc) : proc :=
  if decide (p_state p = SLEEPING) then p_set_state RUNNABLE (p_set_killed true p) else p_set_killed true p.

(** Where a thread is. *)
Inductive wpc :=
| Out                (* does not hold lk *)
| Crit               (* holds lk, at the test of the condition *)
| Slp1               (* in sleep(), p->lock acquired *)
| Slp2               (* lk released *)
| Slp3               (* p->chan and p->state set, on its way into swtch() *)
| Asleep             (* switched out, p->lock released by the scheduler *)
| Wake1              (* switched in again by the scheduler, which holds p->lock *)
| Wake2              (* p->lock released, about to acquire lk *)
| Scan (j : nat).    (* cond set, in wakeup() at process j; holds lk *)

Record ws := WS {
  w_tab : nat → proc;
  w_cond : bool;
  w_lk : option nat;           (* the thread that holds lk *)
  w_pl : nat → bool;           (* p->lock is held *)
  w_pc : nat → wpc
}.

Section wait.
Context (c : chan).

Definition at_pc (t : nat) (x : wpc) (s : ws) : ws := WS (w_tab s) (w_cond s) (w_lk s) (w_pl s) (<[t := x]> (w_pc s)).
Definition with_lk (o : option nat) (s : ws) : ws := WS (w_tab s) (w_cond s) o (w_pl s) (w_pc s).
Definition with_pl (i : nat) (b : bool) (s : ws) : ws := WS (w_tab s) (w_cond s) (w_lk s) (<[i := b]> (w_pl s)) (w_pc s).
Definition with_tab (i : nat) (f : proc → proc) (s : ws) : ws := WS (<[i := f (w_tab s i)]> (w_tab s)) (w_cond s) (w_lk s) (w_pl s) (w_pc s).
Definition with_cond (b : bool) (s : ws) : ws := WS (w_tab s) b (w_lk s) (w_pl s) (w_pc s).

Inductive wstep : ws → ws → Prop :=
| st_enter t s : w_pc s t = Out ∨ w_pc s t = Wake2 → w_lk s = None → wstep s (at_pc t Crit (with_lk (Some t) s))
(* while(!cond) sleep(c, lk) *)
| st_sleep1 t s : w_pc s t = Crit → w_cond s = false → w_pl s t = false → wstep s (at_pc t Slp1 (with_pl t true s))
| st_sleep2 t s : w_pc s t = Slp1 → wstep s (at_pc t Slp2 (with_lk None s))
| st_sleep3 t s : w_pc s t = Slp2 → wstep s (at_pc t Slp3 (with_tab t (sleep_entry c) s))
| st_switch t s : w_pc s t = Slp3 → wstep s (at_pc t Asleep (with_pl t false s))
| st_sched t s : w_pc s t = Asleep → w_pl s t = false → p_state (w_tab s t) = RUNNABLE →
    wstep s (at_pc t Wake1 (with_tab t (p_set_state RUNNING) (with_pl t true s)))
| st_wake1 t s : w_pc s t = Wake1 → wstep s (at_pc t Wake2 (with_tab t (p_set_chan None) (with_pl t false s)))
(* the condition holds: use it, perhaps up *)
| st_done t s b : w_pc s t = Crit → w_cond s = true → wstep s (at_pc t Out (with_lk None (with_cond b s)))
(* make it true and wake the waiters up *)
| st_set t s : w_pc s t = Crit → wstep s (at_pc t (Scan 0) (with_cond true s))
| st_scan t j s : w_pc s t = Scan j → (j < NPROC)%nat → j ≠ t → w_pl s j = false →
    wstep s (at_pc t (Scan (S j)) (with_tab j (wake_entry c) s))
| st_skip t s : w_pc s t = Scan t → (t < NPROC)%nat → wstep s (at_pc t (Scan (S t)) s)
| st_scanned t s : w_pc s t = Scan NPROC → wstep s (at_pc t Out (with_lk None s))
(* kill() *)
| st_kill i s : w_pl s i = false → wstep s (with_tab i kill_entry s).

Definition winit (s : ws) : Prop :=
  w_lk s = None ∧ ∀ i, w_pc s i = Out ∧ w_pl s i = false ∧ p_state (w_tab s i) = RUNNING.

Inductive wreach : ws → Prop :=
| wr_init s : winit s → wreach s
| wr_step s s' : wreach s → wstep s s' → wreach s'.

(** Thread [i] has given up lk and waits to be woken up. *)
Definition waiting (s : ws) (i : nat) : Prop :=
  w_pc s i = Slp2 ∨ w_pc s i = Slp3 ∨ (w_pc s i = Asleep ∧ p_state (w_tab s i) = SLEEPING).

Definition holds_lk (x : wpc) : Prop := match x with Crit | Slp1 | Scan _ => True | _ => False end.
Definition holds_pl (x : wpc) : Prop := match x with Slp1 | Slp2 | Slp3 | Wake1 => True | _ => False end.

Record winv (s : ws) : Prop := {
  wi_lk t : holds_lk (w_pc s t) ↔ w_lk s = Some t;
  wi_pl t : holds_pl (w_pc s t) ↔ w_pl s t = true;
  wi_chan t : w_pc s t = Slp3 ∨ w_pc s t = Asleep → p_chan (w_tab s t) = Some c;
  wi_test t : w_pc s t = Slp1 → w_cond s = false;
  wi_scan i : w_cond s = true → (i < NPROC)%nat → waiting s i → ∃ t j, w_pc s t = Scan j ∧ (j ≤ i)%nat
}.

(** [fntac t x]: case analysis on whether thread [t] is the updated one. *)
Ltac fntac t x :=
  unfold at_pc, with_lk, with_pl, with_tab, with_cond, waiting; cbn [w_tab w_cond w_lk w_pl w_pc];
  destruct (decide (t = x)) as [->|]; [rewrite ?fn_lookup_insert|rewrite ?fn_lookup_insert_ne by done].

Lemma holder_unique s t t' : winv s → holds_lk (w_pc s t) → holds_lk (w_pc s t') → t = t'.
Proof. intros [] H1%wi_lk0 H2%wi_lk0. congruence. Qed.

Lemma wake_entry_chan p : p_chan (wake_entry c p) = p_chan p.
Proof. unfold wake_entry. by case_decide. Qed.
Lemma kill_entry_chan p : p_chan (kill_entry p) = p_chan p.
Proof. unfold kill_entry. by case_decide. Qed.

(** [pcs]: use what is known about the program counters. *)
Ltac pcs :=
  repeat match goal with H : _ = _ ∨ _ = _ |- _ => destruct H end;
  repeat match goal with H : w_pc ?s ?t = _ |- _ => rewrite H in * end; simpl in *.

Lemma step_lk s s' : winv s → wstep s s' → ∀ t, holds_lk (w_pc s' t) ↔ w_lk s' = Some t.
Proof.
  intros Hi Hst t'. pose proof (wi_lk s Hi t') as H'. destruct Hst as [t s|t s|t s|t s|t s|t s|t s|t s|t s|t j s|t s|t s|i s];
    [pose proof (wi_lk s Hi t) as Ht; fntac t' t..|done]; pcs; try tauto; rewrite ?H'; naive_solver.
Qed.

Lemma step_pl s s' : winv s → wstep s s' → ∀ t, holds_pl (w_pc s' t) ↔ w_pl s' t = true.
Proof.
  intros Hi Hst t'. pose proof (wi_pl s Hi t') as H'. destruct Hst as [t s|t s|t s|t s|t s|t s|t s|t s|t s|t j s|t s|t s|i s];
    [pose proof (wi_pl s Hi t) as Ht; fntac t' t..|done]; pcs; try tauto; rewrite ?H'; naive_solver.
Qed.

Lemma step_chan s s' : winv s → wstep s s' → ∀ t, w_pc s' t = Slp3 ∨ w_pc s' t = Asleep → p_chan (w_tab s' t) = Some c.
Proof.
  intros Hi Hst t'. pose proof (wi_chan s Hi t') as H.
  destruct Hst; try (fntac t' t; simpl; naive_solver).
  - fntac t' t; [by intros [?|?]|]. intros Hp. destruct (decide (t' = j)) as [->|]; [rewrite fn_lookup_insert, wake_entry_chan|rewrite fn_lookup_insert_ne by done]; auto.
  - fntac t' i; intros Hp; rewrite ?kill_entry_chan; auto.
Qed.

Lemma step_test s s' : winv s → wstep s s' → ∀ t, w_pc s' t = Slp1 → w_cond s' = false.
Proof.
  intros Hi Hst t'. pose proof (wi_test s Hi t') as H. pose proof (wi_lk s Hi) as Hl.
  assert (Hu : ∀ t, w_pc s t = Crit → w_pc s t' = Slp1 → t = t').
  { intros t H1 H2. apply (holder_unique s t t' Hi); [by rewrite H1|by rewrite H2]. }
  destruct Hst; try (fntac t' t; simpl; naive_solver). done.
Qed.

(** When the holder of lk is not scanning, nobody waits for a true condition. *)
Lemma not_waiting s t i : winv s → w_lk s = Some t → (∀ j, w_pc s t ≠ Scan j) → w_cond s = true → (i < NPROC)%nat → ¬ waiting s i.
Proof.
  intros Hi Hl Hn Hc Hlt Hw. destruct (wi_scan s Hi i Hc Hlt Hw) as (t' & j & Hp & _).
  assert (w_lk s = Some t') as Hl' by (apply (wi_lk s Hi); by rewrite Hp). rewrite Hl in Hl'. injection Hl' as ->. by eapply Hn.
Qed.

Lemma waiting_entry s i p : (p_state p = SLEEPING → p_state (w_tab s i) = SLEEPING) →
  w_pc s i = Slp2 ∨ w_pc s i = Slp3 ∨ (w_pc s i = Asleep ∧ p_state p = SLEEPING) → waiting s i.
Proof. unfold waiting. tauto. Qed.

Lemma wake_entry_state p : p_state (wake_entry c p) = SLEEPING → p_state p = SLEEPING.
Proof. unfold wake_entry. case_decide; simpl; [done|done]. Qed.
Lemma kill_entry_state p : p_state (kill_entry p) = SLEEPING → p_state p = SLEEPING.
Proof. unfold kill_entry. case_decide; simpl; done. Qed.

(** The steps that only move a thread which is not scanning: the scans stay. *)
Lemma scan_kept s s' t x i : w_pc s' = <[t := x]> (w_pc s) → (∀ j, w_pc s t ≠ Scan j) →
  (∃ t j, w_pc s t = Scan j ∧ (j ≤ i)%nat) → ∃ t j, w_pc s' t = Scan j ∧ (j ≤ i)%nat.
Proof.
  intros Hpc Hn (t' & j & Hp & Hj). exists t', j. rewrite Hpc, fn_lookup_insert_ne; [done|]. intros <-. by eapply Hn.
Qed.

(** A waiting thread stays ahead of some scan. *)
Lemma step_scan s s' : winv s → wstep s s' → ∀ i, w_cond s' = true → (i < NPROC)%nat → waiting s' i → ∃ t j, w_pc s' t = Scan j ∧ (j ≤ i)%nat.
Proof.
  intros Hi Hst i Hc Hlt Hw. destruct Hst as [t s Hp Hl|t s Hp H0|t s Hp|t s Hp|t s Hp|t s Hp Hpl Hs|t s Hp|t s b Hp H1|t s Hp|t j s Hp Hj Hne Hpl|t s Hp Hj|t s Hp|k s Hpl].
  - eapply (scan_kept s _ t); [reflexivity|intros j E; rewrite E in Hp; naive_solver|]. apply (wi_scan s Hi i Hc Hlt).
    revert Hw. fntac i t; naive_solver.
  - simpl in Hc. congruence.
  - eapply (scan_kept s _ t); [reflexivity|congruence|]. destruct (decide (i = t)) as [->|Hne].
    + simpl in Hc. rewrite (wi_test s Hi t Hp) in Hc. done.
    + apply (wi_scan s Hi i Hc Hlt). revert Hw. fntac i t; naive_solver.
  - eapply (scan_kept s _ t); [reflexivity|congruence|]. apply (wi_scan s Hi i Hc Hlt). revert Hw. fntac i t; naive_solver.
  - eapply (scan_kept s _ t); [reflexivity|congruence|]. apply (wi_scan s Hi i Hc Hlt). revert Hw. fntac i t; naive_solver.
  - eapply (scan_kept s _ t); [reflexivity|congruence|]. apply (wi_scan s Hi i Hc Hlt). revert Hw. fntac i t; naive_solver.
  - eapply (scan_kept s _ t); [reflexivity|congruence|]. apply (wi_scan s Hi i Hc Hlt). revert Hw. fntac i t; naive_solver.
  - exfalso. apply (not_waiting s t i Hi); [apply (wi_lk s Hi); by rewrite Hp|congruence|done|done|].
    revert Hw. fntac i t; naive_solver.
  - exists t, 0%nat. split; [|lia]. simpl. apply fn_lookup_insert.
  - assert (Hw' : waiting s i ∧ i ≠ j).
    { assert (Hwe : waiting s i).
      { revert Hw. fntac i t; [naive_solver|]. destruct (decide (i = j)) as [->|]; rewrite ?fn_lookup_insert, ?fn_lookup_insert_ne by done; [|done].
        apply waiting_entry, wake_entry_state. }
      split; [done|]. intros ->. revert Hw. fntac j t; [done|]. rewrite fn_lookup_insert. unfold wake_entry.
      assert (¬ holds_pl (w_pc s j)) as Hnp by (rewrite (wi_pl s Hi j), Hpl; done).
      intros [E|[E|[E Es]]]; [by rewrite E in Hnp; apply Hnp|by rewrite E in Hnp; apply Hnp|].
      pose proof (wi_chan s Hi j (or_intror E)) as Hch. case_decide as Hd; [done|]. by apply Hd. }
    destruct Hw' as [Hw' Hij]. destruct (wi_scan s Hi i Hc Hlt Hw') as (t' & j' & Hp' & Hj').
    assert (t' = t) as -> by (apply (holder_unique s _ _ Hi); [by rewrite Hp'|by rewrite Hp]). rewrite Hp in Hp'. injection Hp' as <-.
    exists t, (S j). split; [simpl; apply fn_lookup_insert|lia].
  - assert (Hw' : waiting s i ∧ i ≠ t). { revert Hw. fntac i t; naive_solver. }
    destruct Hw' as [Hw' Hij]. destruct (wi_scan s Hi i Hc Hlt Hw') as (t' & j' & Hp' & Hj').
    assert (t' = t) as -> by (apply (holder_unique s _ _ Hi); [by rewrite Hp'|by rewrite Hp]). rewrite Hp in Hp'. injection Hp' as <-.
    exists t, (S t). split; [simpl; apply fn_lookup_insert|lia].
  - assert (Hw' : waiting s i) by (revert Hw; fntac i t; naive_solver).
    destruct (wi_scan s Hi i Hc Hlt Hw') as (t' & j' & Hp' & Hj').
    assert (t' = t) as -> by (apply (holder_unique s _ _ Hi); [by rewrite Hp'|by rewrite Hp]). rewrite Hp in Hp'. injection Hp' as <-. lia.
  - apply (wi_scan s Hi i Hc Hlt). revert Hw. fntac i k; [|done]. apply waiting_entry, kill_entry_state.
Qed.

Lemma wreach_inv s : wreach s → winv s.
Proof.
  induction 1 as [s (Hl & Hs)|s s' _ IH Hst].
  - split; intros t; destruct (Hs t) as (Hp & Hpl & Hst).
    + rewrite Hp, Hl. simpl. naive_solver.
    + rewrite Hp, Hpl. simpl. naive_solver.
    + rewrite Hp. naive_solver.
    + rewrite Hp. naive_solver.
    + intros _ _ Hw. exfalso. unfold waiting in Hw. rewrite Hp in Hw. naive_solver.
  - split; [by eapply step_lk|by eapply step_pl|by eapply step_chan|by eapply step_test|by eapply step_scan].
Qed.

(** C5: no wakeup is lost.  In every interleaving of threads that wait for the
    condition in sleep() and threads that make it true and call wakeup(),
    whenever the lock is free and the condition holds, no process is asleep on
    the channel or on its way to sleep. *)
Theorem no_lost_wakeup s i : wreach s → w_lk s = None → w_cond s = true → (i < NPROC)%nat → ¬ waiting s i.
Proof.
  intros Hi%wreach_inv Hl Hc Hlt Hw. destruct (wi_scan s Hi i Hc Hlt Hw) as (t & j & Hp & _).
  assert (w_lk s = Some t) by (apply (wi_lk s Hi); by rewrite Hp). congruence.
Qed.
End wait.

(** Thread 0 goes to sleep, thread 1 wakes it up. *)
Definition wdemo : ws := WS (λ _, p_set_state RUNNING proc0) false None (λ _, false) (λ _, Out).

Lemma wdemo_reach : ∃ s, wreach ChanTicks s ∧ w_lk s = None ∧ w_cond s = true ∧ p_chan (w_tab s 0%nat) = Some ChanTicks.
Proof.
  set (s1 := at_pc 0 Asleep (with_pl 0 false (at_pc 0 Slp3 (with_tab 0 (sleep_entry ChanTicks)
    (at_pc 0 Slp2 (with_lk None (at_pc 0 Slp1 (with_pl 0 true (at_pc 0 Crit (with_lk (Some 0%nat) wdemo)))))))))).
  assert (H1 : wreach ChanTicks s1).
  { eapply wr_step; [|by apply st_switch]. eapply wr_step; [|by apply st_sleep3]. eapply wr_step; [|by apply st_sleep2].
    eapply wr_step; [|by apply st_sleep1]. eapply wr_step; [|apply st_enter; [by left|done]]. apply wr_init. done. }
  set (s2 := at_pc 1 (Scan 0) (with_cond true (at_pc 1 Crit (with_lk (Some 1%nat) s1)))).
  assert (H2 : wreach ChanTicks s2).
  { eapply wr_step; [|by apply st_set]. eapply wr_step; [|apply st_enter; [by left|done]]. done. }
  assert (Hscan : ∀ k, (k ≤ NPROC)%nat → ∃ s, wreach ChanTicks s ∧ w_pc s 1%nat = Scan k ∧ w_cond s = true ∧
    (∀ i, w_pl s i = false) ∧ p_chan (w_tab s 0%nat) = Some ChanTicks).
  { induction k as [|k IH]; intros Hk.
    - exists s2. split_and!; try done. intros [|[|i]]; done.
    - destruct IH as (s & Hr & Hp & Hc & Hpl & Hch); [lia|]. destruct (decide (k = 1%nat)) as [->|Hne].
      + eexists. split_and!; [eapply wr_step; [done|]; apply st_skip; [done|lia]|by simpl; rewrite fn_lookup_insert|done|done|done].
      + eexists. split_and!; [eapply wr_step; [done|]; apply (st_scan _ 1 k); [done|lia|done|done]|by simpl; rewrite fn_lookup_insert|done|done|].
        simpl. destruct (decide (k = 0%nat)) as [->|]; [rewrite fn_lookup_insert, wake_entry_chan|rewrite fn_lookup_insert_ne by done]; done. }
  destruct (Hscan NPROC ltac:(done)) as (s & Hr & Hp & Hc & Hpl & Hch).
  eexists. split_and!; [eapply wr_step; [done|]; by apply (st_scanned _ 1)|done|done|done].
Qed.

Lemma no_lost_wakeup_witness : ∃ s, p_chan (w_tab s 0%nat) = Some ChanTicks ∧ ¬ waiting s 0%nat.
Proof.
  destruct wdemo_reach as (s & Hr & Hl & Hc & Hch). exists s. split; [exact Hch|].
  apply (no_lost_wakeup ChanTicks s 0 Hr Hl Hc). unfold NPROC. lia.
Defined.
