(* ===== verification/ProcThms.v ===== *)
(** * kernel/proc.c: what the functions do to the process table

    sleep() and wakeup(), fork(), exit() and wait(). *)

From stdpp Require Import base gmap sets strings numbers list.
From coqutil Require Import Byte Word.LittleEndianList.
From S2P Require Import Prelude Mem Str Riscv Spinlock Kalloc Vm Proc ProcSleep.

Section facts.
Context {I : image} {PA : PageAllocator} {FL : FileLayer}.

(** This hart holds some lock. *)
Definition in_crit (s : pkstate) : Prop := 1 ≤ noff (hart s) ∧ sie (hart s) = false.
(** No process's lock is held. *)
Definition unlocked (s : pkstate) : Prop := Forall (λ p, p_lock p = false) (ptable s).

Lemma gets_bindp {A C} (f : pkstate → A) (k : A → M pkstate C) s : (gets f ≫= k) s = k (f s) s.
Proof. done. Qed.

Lemma getp_lookup s i p : ptable s !! i = Some p → getp i s = p.
Proof. apply list_lookup_total_correct. Qed.

Lemma unlocked_at s i p : unlocked s → ptable s !! i = Some p → p_lock p = false.
Proof. intros Hu Hi. by eapply Forall_lookup_1 in Hu. Qed.

(** Inside a critical section acquire() and release() of p->lock leave the
    hart as it was. *)
Lemma plock_bind {C} i p (k : unit → M pkstate C) s : in_crit s → ptable s !! i = Some p → p_lock p = false →
  (plock i ≫= k) s = k tt (set_hart (Cpu (noff (hart s) + 1) (intena (hart s)) false) (set_plock i true s)).
Proof.
  intros [Hn Hs] Hi Hl. unfold plock, lock, hpush, acquire_flag, modify, gets, mbind, M_bind. simpl.
  change (getp i _) with (getp i s). rewrite (getp_lookup s i p Hi), Hl. simpl. destruct (Z.eqb_spec (noff (hart s)) 0); [lia|done].
Qed.

Lemma punlock_run i s p : 2 ≤ noff (hart s) → sie (hart s) = false → ptable s !! i = Some p → p_lock p = true →
  punlock i s = Ret tt (set_hart (Cpu (noff (hart s) - 1) (intena (hart s)) false) (set_plock i false s)).
Proof.
  intros Hn Hs Hi Hl. unfold punlock, unlock, release_flag, hpop, modify, gets, mbind, M_bind. rewrite (getp_lookup s i p Hi), Hl. simpl.
  rewrite Hs. destruct (Z.ltb_spec (noff (hart s)) 1); [lia|]. destruct (Z.eqb_spec (noff (hart s) - 1) 0); [lia|done].
Qed.

(** acquire(&p->lock); ...; release(&p->lock) around a change of the entry. *)
Lemma locked_update i p f s : in_crit s → ptable s !! i = Some p → p_lock p = false → (∀ q, p_lock (f q) = p_lock q) →
  (∀ b q, p_set_lock b (f q) = f (p_set_lock b q)) →
  (plock i;; updp i f;; punlock i) s = Ret tt (set_ptable (alter f i (ptable s)) s).
Proof.
  intros Hc Hi Hl Hf Hcomm. rewrite (plock_bind i p) by done. destruct Hc as [Hn Hs].
  rewrite (bind_Ret _ _ _ tt (set_ptable (alter f i (alter (p_set_lock true) i (ptable s))) (set_hart (Cpu (noff (hart s) + 1) (intena (hart s)) false) s))) by done.
  rewrite (punlock_run i _ (f (p_set_lock true p))); simpl; [|lia|done|by rewrite !list_lookup_alter_eq, Hi|by rewrite Hf].
  unfold set_plock. simpl. f_equal. destruct s as [tb np ip pl wl mm fl [n ie si] hp]. simpl in *. subst si. unfold set_ptable, set_hart. simpl.
  replace (n + 1 - 1) with n by lia. f_equal. apply list_eq. intros j. destruct (decide (j = i)) as [->|Hne].
  - rewrite !list_lookup_alter_eq, Hi. simpl. f_equal. rewrite Hcomm. f_equal. destruct p; simpl in *; by subst.
  - by rewrite !list_lookup_alter_ne.
Qed.

(** wakeup()'s loop body: what [wake_entry] says. *)
Lemma wakeup_one_run i me c s p : in_crit s → ptable s !! i = Some p → p_lock p = false →
  wakeup_one i me c s = Ret tt (if decide (Some i = me) then s else set_ptable (alter (wake_entry c) i (ptable s)) s).
Proof.
  intros Hc Hi Hl. unfold wakeup_one. case_decide; [done|].
  rewrite <- (locked_update i p (wake_entry c) s Hc Hi Hl).
  2: { intros q. unfold wake_entry. by case_decide. } 2: { intros b q. unfold wake_entry. simpl. by case_decide. }
  rewrite !(plock_bind i p) by done. rewrite gets_bindp. unfold updp, modify, mbind, M_bind.
  set (s1 := set_hart _ _). assert (Hg : getp i s1 = p_set_lock true p) by (apply getp_lookup; simpl; by rewrite list_lookup_alter_eq, Hi).
  rewrite Hg. unfold wake_entry. simpl. case_decide as Hd.
  - f_equal. unfold set_ptable. f_equal. apply list_eq. intros j. simpl. destruct (decide (j = i)) as [->|]; [|by rewrite !list_lookup_alter_ne].
    rewrite !list_lookup_alter_eq, Hi. simpl. rewrite decide_True by done. done.
  - f_equal. destruct s as [tb np ip pl wl mm fl h hp]. unfold s1, set_ptable, set_plock, set_hart. simpl in *. f_equal.
    apply list_eq. intros j. destruct (decide (j = i)) as [->|]; [|by rewrite !list_lookup_alter_ne].
    rewrite !list_lookup_alter_eq, Hi. simpl. by rewrite decide_False.
Qed.

(** The table after wakeup() by [me]. *)
Definition woken (me : option nat) (c : chan) (i : nat) (p : proc) : proc := if decide (Some i = me) then p else wake_entry c p.

Lemma woken_lock me c i p : p_lock (woken me c i p) = p_lock p.
Proof. unfold woken, wake_entry. repeat case_decide; done. Qed.

Lemma wakeup_loop_run k i me c s : in_crit s → unlocked s → (i + k ≤ length (ptable s))%nat → ∃ t,
  wakeup_loop k i me c s = Ret tt (set_ptable t s) ∧
  ∀ j, t !! j = if decide (i ≤ j < i + k)%nat then woken me c j <$> ptable s !! j else ptable s !! j.
Proof.
  revert i s. induction k as [|k IH]; intros i s Hc Hu Hlen.
  { exists (ptable s). split; [by destruct s|]. intros j. by rewrite decide_False by lia. }
  destruct (lookup_lt_is_Some_2 (ptable s) i) as [p Hi]; [lia|]. cbn [wakeup_loop].
  rewrite (bind_Ret _ _ _ _ _ (wakeup_one_run i me c s p Hc Hi (unlocked_at s i p Hu Hi))).
  set (s1 := if decide (Some i = me) then s else _).
  assert (Ht : ptable s1 = alter (woken me c i) i (ptable s)).
  { unfold s1, woken. case_decide; simpl; [|done]. symmetry. apply list_alter_id. done. }
  assert (Hs1 : ∀ t, set_ptable t s1 = set_ptable t s) by (intros t; unfold s1; by case_decide).
  destruct (IH (S i) s1) as (t & E & Hj).
  - unfold s1. by case_decide.
  - unfold unlocked. rewrite Ht. apply Forall_alter; [done|]. intros q Hq Hql. by rewrite woken_lock.
  - rewrite Ht, length_alter. lia.
  - exists t. rewrite E, Hs1. split; [done|]. intros j. rewrite Hj, Ht. destruct (decide (j = i)) as [->|Hne].
    + rewrite decide_False, decide_True by lia. by rewrite list_lookup_alter_eq.
    + rewrite list_lookup_alter_ne by done. repeat case_decide; done || lia.
Qed.

(** wakeup() makes every process that sleeps on the channel runnable, except
    the caller, and changes nothing else. *)
Theorem wakeup_wakes me c s : in_crit s → unlocked s → length (ptable s) = NPROC → ∃ s',
  wakeup me c s = Ret tt s' ∧ s' = set_ptable (ptable s') s ∧
  ∀ i p, ptable s !! i = Some p → ptable s' !! i = Some
    (if decide (Some i ≠ me ∧ p_state p = SLEEPING ∧ p_chan p = Some c) then p_set_state RUNNABLE p else p).
Proof.
  intros Hc Hu Hl. destruct (wakeup_loop_run NPROC 0 me c s Hc Hu) as (t & E & Hj); [lia|].
  eexists. split_and!; [exact E|done|]. intros i p Hi. simpl. rewrite Hj, Hi.
  rewrite decide_True by (apply lookup_lt_Some in Hi; lia). simpl. f_equal. unfold woken, wake_entry.
  repeat case_decide; try done; naive_solver.
Qed.

(** ** Reaching the scheduler *)

(** A lock other than the processes'. *)
Record is_lock (get : pkstate → bool) (set : bool → pkstate → pkstate) : Prop := {
  il_get b s : get (set b s) = b;
  il_table b s : ptable (set b s) = ptable s;
  il_hart b s : hart (set b s) = hart s;
  il_get_table t s : get (set_ptable t s) = get s;
  il_get_hart h s : get (set_hart h s) = get s
}.

Lemma sched_run me s p : ptable s !! me = Some p → p_lock p = true → noff (hart s) = 1 → p_state p ≠ RUNNING → sie (hart s) = false →
  sched_before me s = Ret (intena (hart s)) s.
Proof.
  intros Hi Hl Hn Hst Hs. unfold sched_before. rewrite !gets_bindp, (getp_lookup s me p Hi), Hl, Hn, Hs. simpl.
  by rewrite decide_False.
Qed.

(** sleep() called with only the lock [lk] held gets to swtch() with only
    p->lock held, [lk] free and the process asleep on the channel: none of the
    panics of sched() is reached. *)
Theorem sleep_switches get set me c s p : is_lock get set → get s = true → ptable s !! me = Some p → p_lock p = false →
  noff (hart s) = 1 → sie (hart s) = false →
  ∃ s', sleep_before me c (unlock get set) s = Ret (intena (hart s)) s' ∧ get s' = false ∧
  noff (hart s') = 1 ∧ sie (hart s') = false ∧
  ptable s' !! me = Some (sleep_entry c (p_set_lock true p)) ∧
  ∀ j, j ≠ me → ptable s' !! j = ptable s !! j.
Proof.
  intros [] Hg Hi Hl Hn Hs. assert (Hc : in_crit s) by (split; [lia|done]).
  unfold sleep_before. rewrite (plock_bind me p) by done. set (s1 := set_hart _ _).
  assert (Hg1 : get s1 = true) by (unfold s1, set_plock; by rewrite il_get_hart0, il_get_table0).
  set (s2 := set_hart (Cpu 1 (intena (hart s)) false) (set false s1)).
  assert (E2 : unlock get set s1 = Ret tt s2).
  { unfold unlock, release_flag, hpop, modify, gets, mbind, M_bind. rewrite Hg1, !il_hart0. unfold s1 at 1 2 3 4 5 6. simpl. unfold s2. rewrite !Hn. reflexivity. }
  rewrite (bind_Ret _ _ _ _ _ E2).
  set (f := sleep_entry c). set (t := alter f me (alter (p_set_lock true) me (ptable s))).
  set (s3 := set_ptable t s2).
  assert (E3 : ∀ (k : unit → M pkstate bool), (updp me (p_set_chan (Some c));; updp me (p_set_state SLEEPING) ≫= k) s2 = k tt s3).
  { intros k. unfold updp, modify, mbind, M_bind. f_equal. unfold s3, set_ptable. simpl. f_equal. rewrite il_table0. unfold t, s1, f. simpl.
    apply list_eq. intros j. destruct (decide (j = me)) as [->|]; [by rewrite !list_lookup_alter_eq, Hi|by rewrite !list_lookup_alter_ne]. }
  rewrite E3. assert (H3 : ptable s3 !! me = Some (f (p_set_lock true p))) by (simpl; unfold t; by rewrite !list_lookup_alter_eq, Hi).
  rewrite (sched_run me s3 _ H3); try done. exists s3. split_and!; try done.
  - unfold s3, s2. by rewrite il_get_table0, il_get_hart0, il_get0.
  - intros j Hne. simpl. unfold t. by rewrite !list_lookup_alter_ne.
Qed.
End facts.

(** ** exit() *)

Section exit.
Context {I : image} {PA : PageAllocator} {FL : FileLayer}.

(** A step of the table that keeps every lock and everything but the fields
    [f] changes. *)
Definition tab_step (s s' : pkstate) (f : nat → proc → proc) : Prop :=
  s' = set_ptable (ptable s') s ∧ ∀ j, ptable s' !! j = f j <$> ptable s !! j.

Lemma tab_step_length s s' f : tab_step s s' f → length (ptable s') = length (ptable s).
Proof.
  intros [_ H]. apply Nat.le_antisymm; apply Nat.nlt_ge; intros Hlt;
    [destruct (lookup_lt_is_Some_2 (ptable s') (length (ptable s))) as [x Hx]; [done|]|destruct (lookup_lt_is_Some_2 (ptable s) (length (ptable s'))) as [x Hx]; [done|]].
  - by rewrite H, lookup_ge_None_2 in Hx.
  - pose proof (H (length (ptable s'))) as Hj. rewrite Hx, lookup_ge_None_2 in Hj by done. done.
Qed.

Lemma tab_step_crit s s' f : tab_step s s' f → in_crit s → in_crit s'.
Proof. intros [-> _]. done. Qed.

Lemma tab_step_unlocked s s' f : tab_step s s' f → (∀ j p, p_lock (f j p) = p_lock p) → unlocked s → unlocked s'.
Proof.
  intros [_ H] Hf Hu. apply Forall_lookup_2. intros j q Hq. rewrite H in Hq. destruct (ptable s !! j) as [p|] eqn:Hp; [|done].
  simpl in Hq. injection Hq as <-. rewrite Hf. by eapply unlocked_at.
Qed.

Lemma tab_step_trans s1 s2 s3 f g : tab_step s1 s2 f → tab_step s2 s3 g → tab_step s1 s3 (λ j p, g j (f j p)).
Proof.
  intros [E1 H1] [E2 H2]. split; [rewrite E2, E1; done|]. intros j. rewrite H2, H1. by destruct (ptable s1 !! j).
Qed.

Lemma tab_step_refl s : tab_step s s (λ _ p, p).
Proof. split; [by destruct s|]. intros j. by destruct (ptable s !! j). Qed.

Lemma wakeup_proc_run me q s : in_crit s → unlocked s → length (ptable s) = NPROC →
  ∃ s', wakeup_proc me q s = Ret tt s' ∧ tab_step s s' (λ j p, match q with Some i => woken me (ChanProc i) j p | None => p end).
Proof.
  intros Hc Hu Hl. destruct q as [i|]; [|exists s; split; [done|]; apply tab_step_refl].
  destruct (wakeup_loop_run NPROC 0 me (ChanProc i) s Hc Hu) as (t & E & Hj); [lia|].
  exists (set_ptable t s). split; [exact E|]. split; [done|]. intros j. simpl. rewrite Hj. case_decide; [done|].
  rewrite (lookup_ge_None_2 (ptable s)) by lia. done.
Qed.

(** reparent(): what becomes of entry [j]. *)
Definition reparented (me : nat) (ini : option nat) (p : proc) : proc :=
  if decide (p_parent p = Some me) then p_set_parent ini p else p.

Lemma woken_twice me c j p : woken me c j (woken me c j p) = woken me c j p.
Proof. unfold woken, wake_entry. repeat case_decide; try done. Qed.

Lemma woken_parent me c j p : p_parent (woken me c j p) = p_parent p.
Proof. unfold woken, wake_entry. by repeat case_decide. Qed.

Lemma reparented_woken me ini c m j p : reparented me ini (woken m c j p) = woken m c j (reparented me ini p).
Proof. unfold reparented. rewrite woken_parent. case_decide; [|done]. unfold woken, wake_entry. simpl. by repeat case_decide. Qed.

Lemma tab_step_ext s s' f g : tab_step s s' f → (∀ j p, ptable s !! j = Some p → f j p = g j p) → tab_step s s' g.
Proof. intros [E H] Hx. split; [done|]. intros j. rewrite H. destruct (ptable s !! j) as [p|] eqn:Ej; [|done]. simpl. by rewrite Hx. Qed.

Lemma updp_run i f s : ∃ s', updp i f s = Ret tt s' ∧ tab_step s s' (λ j p, if decide (j = i) then f p else p).
Proof.
  eexists. split; [done|]. split; [done|]. intros j. simpl. case_decide as H.
  - subst j. by rewrite list_lookup_alter_eq.
  - rewrite list_lookup_alter_ne by done. by destruct (ptable s !! j).
Qed.

(** Entry [j] after reparent() has been over the entries [i, i + k); [w] says
    whether it has called wakeup(). *)
Definition rep_entry (me : nat) (ini : option nat) (i k : nat) (w : bool) (j : nat) (p : proc) : proc :=
  let p := if decide (i ≤ j < i + k)%nat then reparented me ini p else p in
  match ini with Some q => if w then woken (Some me) (ChanProc q) j p else p | None => p end.

Lemma rep_entry_lock me ini i k w j p : p_lock (rep_entry me ini i k w j p) = p_lock p.
Proof. unfold rep_entry, reparented. repeat case_decide; destruct ini as [q|], w; rewrite ?woken_lock; done. Qed.

Lemma tab_step_init s s' f : tab_step s s' f → initproc s' = initproc s ∧ wait_lock s' = wait_lock s ∧ hart s' = hart s.
Proof. intros [-> _]. done. Qed.

(** The loop of reparent(): every child in its range goes to init, which is
    woken up if there is one. *)
Lemma reparent_loop_run k i me s : in_crit s → unlocked s → length (ptable s) = NPROC → (i + k ≤ NPROC)%nat →
  ∃ s' (w : bool), reparent_loop k i me s = Ret tt s' ∧ tab_step s s' (rep_entry me (initproc s) i k w) ∧
  (w = false → ∀ j p, (i ≤ j < i + k)%nat → ptable s !! j = Some p → p_parent p ≠ Some me).
Proof.
  revert i s. induction k as [|k IH]; intros i s Hc Hu Hl Hk.
  { exists s, false. split_and!; [done| |intros _ j p Hj; lia]. apply (tab_step_ext _ _ (λ _ p, p)); [apply tab_step_refl|].
    intros j p _. unfold rep_entry. rewrite decide_False by lia. by destruct (initproc s). }
  destruct (lookup_lt_is_Some_2 (ptable s) i) as [pp Hi]; [lia|]. cbn [reparent_loop]. rewrite gets_bindp, (getp_lookup s i pp Hi).
  case_decide as Hpar.
  - destruct (updp_run i (p_set_parent (initproc s)) s) as (s1 & E1 & H1). destruct (tab_step_init _ _ _ H1) as (Hi1 & _ & _).
    assert (Hu1 : unlocked s1) by (eapply tab_step_unlocked; [done| |done]; intros j p; simpl; by case_decide).
    assert (Hl1 : length (ptable s1) = NPROC) by (by erewrite tab_step_length).
    destruct (wakeup_proc_run (Some me) (initproc s) s1) as (s2 & E2 & H2); [by eapply tab_step_crit|done|done|].
    pose proof (tab_step_trans _ _ _ _ _ H1 H2) as H12. destruct (tab_step_init _ _ _ H12) as (Hi2 & _ & _).
    destruct (IH (S i) s2) as (s3 & w & E3 & H3 & _);
      [by eapply tab_step_crit| |by erewrite tab_step_length|lia|].
    { eapply tab_step_unlocked; [done| |done]. intros j p. destruct (initproc s); rewrite ?woken_lock; by case_decide. }
    exists s3, true. split_and!; [|eapply tab_step_ext; [exact (tab_step_trans _ _ _ _ _ H12 H3)|]|done].
    + rewrite bind_assoc, gets_bindp, bind_assoc, (bind_Ret _ _ _ _ _ E1), (bind_Ret _ _ _ _ _ E2). exact E3.
    + intros j p Hj. rewrite Hi2. unfold rep_entry. destruct (decide (j = i)) as [->|Hne].
      * rewrite Hi in Hj. injection Hj as <-. rewrite decide_False, (decide_True (P := (i ≤ i < i + S k)%nat)) by lia.
        unfold reparented. rewrite decide_True by done. destruct (initproc s) as [q|]; [|done]. destruct w; [by rewrite woken_twice|done].
      * destruct (decide (S i ≤ j < S i + k)%nat), (decide (i ≤ j < i + S k)%nat); try lia; destruct (initproc s) as [q|]; try done;
          destruct w; rewrite ?reparented_woken, ?woken_twice; done.
  - destruct (IH (S i) s Hc Hu Hl) as (s3 & w & E3 & H3 & Hw); [lia|]. exists s3, w. split_and!; [done| |].
    + eapply tab_step_ext; [exact H3|]. intros j p Hj. unfold rep_entry. destruct (decide (j = i)) as [->|Hne].
      * rewrite Hi in Hj. injection Hj as <-. rewrite decide_False, decide_True by lia. unfold reparented. by rewrite decide_False.
      * destruct (decide (S i ≤ j < S i + k)%nat), (decide (i ≤ j < i + S k)%nat); try lia; done.
    + intros Hf j p Hj Hp. destruct (decide (j = i)) as [->|Hne]; [rewrite Hi in Hp; by injection Hp as <-|]. apply (Hw Hf j p); [lia|done].
Qed.

(** Locks other than the processes'. *)
Lemma lock_run get set s : get s = false → (∀ h, get (set_hart h s) = get s) →
  lock get set s = Ret tt (set true (set_hart (Cpu (noff (hart s) + 1) (if noff (hart s) =? 0 then sie (hart s) else intena (hart s)) false) s)).
Proof. intros Hg Hh. unfold lock, hpush, acquire_flag, modify, gets, mbind, M_bind. by rewrite Hh, Hg. Qed.

(** What exit() leaves of the table entries. *)
Definition exit_entry (me : nat) (status : Z) (ini par : option nat) (w : bool) (j : nat) (p : proc) : proc :=
  let p := rep_entry me ini 0 NPROC w j p in
  let p := match par with Some q => woken (Some me) (ChanProc q) j p | None => p end in
  if decide (j = me) then p_set_state ZOMBIE (p_set_xstate status (p_set_lock true p)) else p.

Lemma exit_tail_run me status s p : unlocked s → length (ptable s) = NPROC → ptable s !! me = Some p →
  wait_lock s = false → noff (hart s) = 0 → p_parent p ≠ Some me →
  ∃ s' (w : bool), exit_tail me status s = Ret (sie (hart s)) s' ∧
  (∀ j, ptable s' !! j = exit_entry me status (initproc s) (p_parent p) w j <$> ptable s !! j) ∧
  wait_lock s' = false ∧ noff (hart s') = 1 ∧ sie (hart s') = false ∧
  (w = false → ∀ j p, ptable s !! j = Some p → p_parent p ≠ Some me).
Proof.
  intros Hu Hl Hi Hw Hn Hpar. unfold exit_tail.
  rewrite (bind_Ret _ _ _ _ _ (lock_run wait_lock set_wait_lock s Hw (λ _, eq_refl))). rewrite Hn. set (s1 := set_wait_lock _ _).
  assert (Hc1 : in_crit s1) by done.
  destruct (reparent_loop_run NPROC 0 me s1 Hc1 Hu Hl) as (s2 & w & E2 & H2 & Hwf); [done|].
  unfold reparent. rewrite (bind_Ret _ _ _ _ _ E2), gets_bindp. change (initproc s1) with (initproc s) in H2.
  pose proof (proj2 H2 me) as Hm. simpl in Hm. rewrite Hi in Hm. simpl in Hm.
  assert (Hpar2 : p_parent (getp me s2) = p_parent p).
  { rewrite (getp_lookup _ _ _ Hm). unfold rep_entry, reparented. rewrite (decide_False (P := p_parent p = Some me)) by done.
    case_decide; destruct (initproc s), w; rewrite ?woken_parent; done. }
  rewrite Hpar2. destruct (tab_step_init _ _ _ H2) as (Hi2 & Hw2 & Hh2).
  assert (Hu2 : unlocked s2) by (eapply tab_step_unlocked; [done|apply rep_entry_lock|done]).
  destruct (wakeup_proc_run (Some me) (p_parent p) s2) as (s3 & E3 & H3); [by eapply tab_step_crit|done|by rewrite (tab_step_length _ _ _ H2)|].
  rewrite (bind_Ret _ _ _ _ _ E3). pose proof (tab_step_trans _ _ _ _ _ H2 H3) as H23. destruct (tab_step_init _ _ _ H23) as (_ & Hw3 & Hh3).
  pose proof (proj2 H23 me) as Hm3. simpl in Hm3. rewrite Hi in Hm3. simpl in Hm3. set (q := match p_parent p with Some _ => _ | None => _ end) in Hm3.
  assert (Hq : p_lock q = false).
  { unfold q. destruct (p_parent p); rewrite ?woken_lock, rep_entry_lock; by apply (unlocked_at s me p Hu Hi). }
  rewrite (plock_bind me q) by (done || by eapply tab_step_crit).
  set (s4 := set_hart _ _). unfold updp, modify. unfold mbind at 1 2, M_bind at 1 2.
  set (t5 := alter (p_set_state ZOMBIE) me _). set (s5 := set_ptable t5 _).
  set (s6 := set_hart (Cpu 1 (sie (hart s)) false) (set_wait_lock false s5)).
  assert (E6 : unlock wait_lock set_wait_lock s5 = Ret tt s6).
  { unfold unlock, release_flag, hpop, modify, gets, mbind, M_bind. unfold s5, s4. simpl. rewrite Hw3, Hh3. simpl. reflexivity. }
  rewrite (bind_Ret _ _ _ _ _ E6).
  assert (H6 : ptable s6 !! me = Some (p_set_state ZOMBIE (p_set_xstate status (p_set_lock true q)))).
  { simpl. unfold t5. simpl. by rewrite !list_lookup_alter_eq, Hm3. }
  exists s6, w. split_and!; try done.
  - by rewrite (sched_run me s6 _ H6).
  - intros j. unfold exit_entry. destruct (decide (j = me)) as [->|Hne].
    + rewrite H6, Hi. simpl. done.
    + simpl. unfold t5. simpl. rewrite !list_lookup_alter_ne by done. pose proof (proj2 H23 j) as Hj. simpl in Hj. by rewrite Hj.
  - intros Hwf0 j r Hj. apply (Hwf Hwf0 j r); [apply lookup_lt_Some in Hj; lia|done].
Qed.

(** C25: the end of exit().  The process becomes a zombie with its exit status
    and gets to swtch() with only its own lock held; its children belong to
    init; a parent asleep in wait() is made runnable, and so is init when it
    has got children. *)
Theorem exit_hands_over me status s p : unlocked s → length (ptable s) = NPROC → ptable s !! me = Some p →
  wait_lock s = false → noff (hart s) = 0 → p_parent p ≠ Some me → initproc s ≠ Some me →
  ∃ s', exit_tail me status s = Ret (sie (hart s)) s' ∧ wait_lock s' = false ∧ noff (hart s') = 1 ∧
  (∃ p', ptable s' !! me = Some p' ∧ p_state p' = ZOMBIE ∧ p_xstate p' = status ∧ p_lock p' = true ∧ p_pid p' = p_pid p ∧ p_parent p' = p_parent p) ∧
  (∀ j x, ptable s !! j = Some x → ∃ x', ptable s' !! j = Some x' ∧
     p_parent x' = (if decide (p_parent x = Some me) then initproc s else p_parent x) ∧
     (j ≠ me → p_parent p = Some j → p_state x = SLEEPING → p_chan x = Some (ChanProc j) → p_state x' = RUNNABLE) ∧
     (j ≠ me → initproc s = Some j → (∃ i y, ptable s !! i = Some y ∧ p_parent y = Some me) → p_state x = SLEEPING → p_chan x = Some (ChanProc j) →
      p_state x' = RUNNABLE)).
Proof.
  intros Hu Hl Hi Hw Hn Hpar Hini. destruct (exit_tail_run me status s p Hu Hl Hi Hw Hn Hpar) as (s' & w & E & Ht & Hw' & Hn' & _ & Hwf).
  assert (Hpp : ∀ j x, j = me ∨ j ≠ me → ptable s !! j = Some x → p_parent (exit_entry me status (initproc s) (p_parent p) w j x) =
    if decide (p_parent x = Some me) then initproc s else p_parent x).
  { intros j x _ Hj. assert (Hjl : (j < NPROC)%nat) by (apply lookup_lt_Some in Hj; lia).
    unfold exit_entry, rep_entry, reparented. rewrite (decide_True (P := (0 ≤ j < 0 + NPROC)%nat)) by lia.
    destruct (decide (j = me)); simpl; destruct (p_parent p), (initproc s), w; rewrite ?woken_parent; by destruct (decide (p_parent x = Some me)). }
  exists s'. split_and!; try done.
  - eexists. split; [by rewrite Ht, Hi|]. split_and!; [by unfold exit_entry; rewrite decide_True..| |].
    + unfold exit_entry. rewrite decide_True by done. simpl. unfold rep_entry, reparented, woken.
      rewrite (decide_False (P := p_parent p = Some me)) by done. repeat case_decide; destruct (p_parent p), (initproc s), w; done.
    + rewrite Hpp by (done || by left). by rewrite decide_False.
  - intros j x Hj. eexists. split; [by rewrite Ht, Hj|]. split_and!.
    + apply Hpp; [destruct (decide (j = me)); auto|done].
    + intros Hne Hp Hs Hch. rewrite Hp. unfold exit_entry. rewrite decide_False by done.
      assert (Hrs : ∀ q, p_state (woken (Some me) q j x) = RUNNABLE ∨ p_state (woken (Some me) q j x) = SLEEPING).
      { intros q. unfold woken, wake_entry. repeat case_decide; auto. }
      unfold rep_entry. rewrite (decide_True (P := (0 ≤ j < 0 + NPROC)%nat)) by (apply lookup_lt_Some in Hj; lia).
      unfold woken, wake_entry, reparented. destruct (initproc s), w; repeat case_decide; simpl in *; naive_solver.
    + intros Hne Hq (i & y & Hy & Hyp) Hs Hch. unfold exit_entry. rewrite decide_False by done.
      assert (w = true) as ->. { destruct w; [done|]. exfalso. by apply (Hwf eq_refl i y Hy). }
      rewrite Hq. unfold rep_entry. rewrite (decide_True (P := (0 ≤ j < 0 + NPROC)%nat)) by (apply lookup_lt_Some in Hj; lia).
      unfold woken, wake_entry, reparented. destruct (p_parent p); repeat case_decide; simpl in *; naive_solver.
Qed.
End exit.

(** ** wait() *)

Section wait.
Context {I : image} {PA : PageAllocator} {FL : FileLayer}.

(** acquire(&p->lock); release(&p->lock) with nothing in between. *)
Lemma punlock_back i p s : in_crit s → ptable s !! i = Some p → p_lock p = false →
  punlock i (set_hart (Cpu (noff (hart s) + 1) (intena (hart s)) false) (set_plock i true s)) = Ret tt s.
Proof.
  intros [Hn Hs] Hi Hl. rewrite (punlock_run i _ (p_set_lock true p)); simpl; [|lia|done|by rewrite list_lookup_alter_eq, Hi|done].
  f_equal. destruct s as [tb np ip pl wl mm fl [n ie si] hp]. simpl in *. subst si. unfold set_plock, set_ptable, set_hart. simpl.
  replace (n + 1 - 1) with n by lia. f_equal. apply list_eq. intros j. destruct (decide (j = i)) as [->|Hne].
  - rewrite !list_lookup_alter_eq, Hi. simpl. f_equal. destruct p; simpl in *; by subst.
  - by rewrite !list_lookup_alter_ne.
Qed.

(** The memory freeproc() gives back, and the entry it leaves. *)
Definition free_mem (p : proc) : M mstate unit :=
  (if p_trapframe p =? 0 then mret tt else pa_kfree (p_trapframe p));;
  (if p_pagetable p =? 0 then mret tt else proc_freepagetable (p_pagetable p) (p_sz p)).
Definition reaped (p : proc) : proc :=
  Proc (p_lock p) UNUSED None false 0 0 None (p_kstack p) 0 0 0 (p_context p) (p_ofile p) (p_cwd p) (Byte.x00 :: tl (p_name p)).

Lemma zoom_mm {A C} (m : M mstate A) (k : A → M pkstate C) s a t : m (pk_mem s) = Ret a t → (mm m ≫= k) s = k a (set_pk_mem t s).
Proof. intros H. apply bind_Ret. unfold mm. by apply zoom_Ret. Qed.

(** Assignments to fields of one entry, one after the other. *)
Lemma updp_chain {C} i f t s (k : unit → M pkstate C) : (updp i f ≫= k) (set_ptable t s) = k tt (set_ptable (alter f i t) s).
Proof. done. Qed.
Lemma updp_last i f t s : updp i f (set_ptable t s) = Ret tt (set_ptable (alter f i t) s).
Proof. done. Qed.

Lemma mem_table m t s : set_pk_mem m (set_ptable t s) = set_ptable t (set_pk_mem m s).
Proof. done. Qed.

Lemma freeproc_run i s p m : ptable s !! i = Some p → free_mem p (pk_mem s) = Ret tt m →
  freeproc i s = Ret tt (set_pk_mem m (set_ptable (alter reaped i (ptable s)) s)).
Proof.
  intros Hi Hf. unfold free_mem in Hf. apply bind_Ret_inv in Hf as ([] & m1 & H1 & H2). unfold freeproc. rewrite gets_bindp, (getp_lookup s i p Hi).
  assert (E1 : (if p_trapframe p =? 0 then mret tt else mm (pa_kfree (p_trapframe p))) s = Ret tt (set_pk_mem m1 s)).
  { destruct (p_trapframe p =? 0); [injection H1 as <-; by destruct s|]. unfold mm. by apply zoom_Ret. }
  rewrite (bind_Ret _ _ _ _ _ E1). set (s2 := set_ptable (alter (p_set_trapframe 0) i (ptable s)) (set_pk_mem m1 s)).
  rewrite (bind_Ret (updp i (p_set_trapframe 0)) _ _ tt s2) by done.
  assert (E2 : (if p_pagetable p =? 0 then mret tt else mm (proc_freepagetable (p_pagetable p) (p_sz p))) s2 = Ret tt (set_pk_mem m s2)).
  { destruct (p_pagetable p =? 0); [injection H2 as <-; done|]. unfold mm. by apply zoom_Ret. }
  rewrite (bind_Ret _ _ _ _ _ E2). change (set_pk_mem m s2) with (set_ptable (alter (p_set_trapframe 0) i (ptable s)) (set_pk_mem m s)).
  rewrite !updp_chain. rewrite updp_last. f_equal. transitivity (set_ptable (alter reaped i (ptable s)) (set_pk_mem m s)); [|done]. f_equal.
  apply list_eq. intros j. destruct (decide (j = i)) as [->|Hne].
  - by rewrite !list_lookup_alter_eq, Hi.
  - by rewrite !list_lookup_alter_ne.
Qed.

Section scan.
Context (me : nat) (addr : Z).

Definition child (q : proc) : Prop := p_parent q = Some me.
Definition zombie (q : proc) : Prop := child q ∧ p_state q = ZOMBIE.
#[export] Instance zombie_dec q : Decision (zombie q).
Proof. unfold zombie, child. apply _. Defined.

(** wait() looks at the processes before the first zombie and leaves them. *)
Lemma wait_scan_skip d k i hk s : in_crit s → unlocked s → (i + d ≤ length (ptable s))%nat →
  (∀ j q, (i ≤ j < i + d)%nat → ptable s !! j = Some q → ¬ zombie q) → ∃ hk',
  wait_scan (d + k) i me addr hk s = wait_scan k (i + d) me addr hk' s ∧
  (hk' = true ↔ hk = true ∨ ∃ j q, (i ≤ j < i + d)%nat ∧ ptable s !! j = Some q ∧ child q).
Proof.
  intros Hc Hu. revert i hk. induction d as [|d IH]; intros i hk Hl Hz.
  { exists hk. rewrite Nat.add_0_r. split; [done|]. split; [by left|]. intros [?|(j & q & Hj & _)]; [done|lia]. }
  destruct (lookup_lt_is_Some_2 (ptable s) i) as [p Hi]; [lia|]. cbn [Nat.add wait_scan]. rewrite gets_bindp, (getp_lookup s i p Hi).
  pose proof (unlocked_at s i p Hu Hi) as Hpl. replace (i + S d)%nat with (S i + d)%nat in * by lia.
  assert (Hz' : ∀ j q, (S i ≤ j < S i + d)%nat → ptable s !! j = Some q → ¬ zombie q) by (intros j q Hj; apply Hz; lia).
  destruct (decide (p_parent p = Some me)) as [Hp|Hp].
  - destruct (IH (S i) true ltac:(lia) Hz') as (hk' & E & Hhk). exists hk'. split.
    + rewrite (plock_bind i p) by done. rewrite gets_bindp. set (s1 := set_hart _ _).
      assert (Hg : getp i s1 = p_set_lock true p) by (apply getp_lookup; simpl; by rewrite list_lookup_alter_eq, Hi). rewrite Hg.
      rewrite decide_False by (intros Hst; apply (Hz i p); [lia|done|by split]).
      unfold s1. erewrite bind_Ret by (by apply (punlock_back i p)). exact E.
    + rewrite Hhk. split; [intros _; right; exists i, p; split_and!; [lia|lia|done|done]|by left].
  - destruct (IH (S i) hk ltac:(lia) Hz') as (hk' & E & Hhk). exists hk'. split; [exact E|]. rewrite Hhk.
    split; (intros [?|(j & q & Hj & Hq & Hch)]; [by left|right]).
    + exists j, q. split_and!; [lia|lia|done|done].
    + exists j, q. destruct (decide (j = i)) as [->|]; [rewrite Hi in Hq; injection Hq as <-; done|]. split_and!; [lia|lia|done|done].
Qed.

(** The copy of the exit status to the parent. *)
Definition report (pagetable status : Z) : M mstate Z := if addr =? 0 then mret 0 else copyout pagetable addr (le_split 4 status).

Lemma unlock_wait s : wait_lock s = true → noff (hart s) = 1 → sie (hart s) = false →
  unlock wait_lock set_wait_lock s = Ret tt (set_hart (Cpu 0 (intena (hart s)) (intena (hart s))) (set_wait_lock false s)).
Proof. intros Hw Hn Hs. unfold unlock, release_flag, hpop, modify, gets, mbind, M_bind. rewrite Hw. simpl. rewrite Hs, Hn. done. Qed.

(** At the first zombie. *)
Lemma wait_scan_zombie k i hk s p q r m1 m2 : in_crit s → unlocked s → wait_lock s = true → noff (hart s) = 1 → i ≠ me →
  ptable s !! me = Some p → ptable s !! i = Some q → zombie q → report (p_pagetable p) (p_xstate q) (pk_mem s) = Ret r m1 →
  (0 ≤ r → free_mem q m1 = Ret tt m2) → ∃ s',
  wait_scan (S k) i me addr hk s = Ret (inl (if r <? 0 then -1 else p_pid q)) s' ∧ wait_lock s' = false ∧
  hart s' = Cpu 0 (intena (hart s)) (intena (hart s)) ∧ pk_mem s' = (if r <? 0 then m1 else m2) ∧
  ptable s' = if r <? 0 then ptable s else alter reaped i (ptable s).
Proof.
  intros Hc Hu Hw Hn Hne Hme Hi [Hch Hst] Hrep Hfree. pose proof Hc as [_ Hs]. pose proof (unlocked_at s i q Hu Hi) as Hql.
  cbn [wait_scan]. rewrite gets_bindp, (getp_lookup s i q Hi), decide_True by done.
  rewrite (plock_bind i q) by done. rewrite gets_bindp. set (s1 := set_hart _ _).
  assert (H1 : ptable s1 !! i = Some (p_set_lock true q)) by (simpl; by rewrite list_lookup_alter_eq, Hi). rewrite (getp_lookup _ _ _ H1).
  rewrite decide_True by done. rewrite gets_bindp.
  assert (Hm1 : getp me s1 = p) by (apply getp_lookup; simpl; by rewrite list_lookup_alter_ne).
  assert (Er : (if addr =? 0 then mret 0 else mm (copyout (p_pagetable (getp me s1)) addr (le_split 4 (p_xstate (p_set_lock true q))))) s1 = Ret r (set_pk_mem m1 s1)).
  { rewrite Hm1. unfold report in Hrep. destruct (addr =? 0); [injection Hrep as <- <-; by destruct s|]. unfold mm. by apply zoom_Ret. }
  rewrite (bind_Ret _ _ _ _ _ Er). destruct (Z.ltb_spec r 0) as [Hr|Hr].
  - set (s2 := set_pk_mem m1 s). assert (Hu2 : punlock i (set_pk_mem m1 s1) = Ret tt s2) by (apply (punlock_back i q s2); done).
    rewrite (bind_Ret _ _ _ _ _ Hu2), (bind_Ret _ _ _ _ _ (unlock_wait s2 Hw Hn Hs)). by eexists.
  - assert (Ef : freeproc i (set_pk_mem m1 s1) = Ret tt (set_pk_mem m2 (set_ptable (alter reaped i (ptable s1)) s1))).
    { rewrite (freeproc_run i (set_pk_mem m1 s1) _ m2 H1); [done|]. by apply Hfree. }
    rewrite (bind_Ret _ _ _ _ _ Ef). set (s2 := set_pk_mem m2 (set_ptable (alter reaped i (ptable s)) s)).
    assert (H2 : ptable s2 !! i = Some (reaped q)) by (simpl; by rewrite list_lookup_alter_eq, Hi).
    assert (Es : set_pk_mem m2 (set_ptable (alter reaped i (ptable s1)) s1) = set_hart (Cpu (noff (hart s2) + 1) (intena (hart s2)) false) (set_plock i true s2)).
    { unfold s2, s1, set_plock, set_hart, set_pk_mem, set_ptable. simpl. f_equal. apply list_eq. intros j. destruct (decide (j = i)) as [->|].
      - by rewrite !list_lookup_alter_eq, Hi. - by rewrite !list_lookup_alter_ne. }
    rewrite Es, (bind_Ret _ _ _ _ _ (punlock_back i (reaped q) s2 Hc H2 Hql)), (bind_Ret _ _ _ _ _ (unlock_wait s2 Hw Hn Hs)). by eexists.
Qed.
End scan.

Lemma killed_in_crit i p s : in_crit s → ptable s !! i = Some p → p_lock p = false → killed i s = Ret (p_killed p) s.
Proof.
  intros Hc Hi Hl. unfold killed. rewrite (plock_bind i p) by done. rewrite gets_bindp. set (s1 := set_hart _ _).
  assert (Hg : getp i s1 = p_set_lock true p) by (apply getp_lookup; simpl; by rewrite list_lookup_alter_eq, Hi). rewrite Hg.
  unfold s1. by rewrite (bind_Ret _ _ _ _ _ (punlock_back i p s Hc Hi Hl)).
Qed.

(** The scan when there is no zombie. *)
Lemma wait_scan_none me addr s : in_crit s → unlocked s → length (ptable s) = NPROC → list_find (zombie me) (ptable s) = None → ∃ hk : bool,
  wait_scan NPROC 0 me addr false s = Ret (inr hk) s ∧ (hk = true ↔ ∃ q, q ∈ ptable s ∧ child me q).
Proof.
  intros Hc Hu Hl Hnone. apply list_find_None in Hnone. rewrite Forall_lookup in Hnone.
  destruct (wait_scan_skip me addr NPROC 0 0 false s Hc Hu) as (hk & E & Hhk); [lia|intros j q _; apply Hnone|].
  exists hk. split; [rewrite Nat.add_0_r in E; exact E|]. rewrite Hhk. split.
  - intros [?|(j & q & _ & Hq & Hch)]; [done|]. exists q. split; [by eapply list_elem_of_lookup_2|done].
  - intros (q & Hq & Hch). right. apply list_elem_of_lookup_1 in Hq as [j Hj]. exists j, q. pose proof (lookup_lt_Some _ _ _ Hj).
    split_and!; [lia|lia|done|done].
Qed.

(** C30: wait().  With a zombie child it frees the first one in the table, its
    memory included, and returns its pid, or -1 with the child left alone when
    the exit status cannot be copied out; without children, or when killed, it
    returns -1 and changes nothing; otherwise it gets to swtch() asleep on its
    own channel with only its own lock held. *)
Theorem wait_reaps me addr s p : unlocked s → length (ptable s) = NPROC → ptable s !! me = Some p → wait_lock s = false →
  noff (hart s) = 0 → p_parent p ≠ Some me →
  match list_find (zombie me) (ptable s) with
  | Some (i, q) => ∀ r m1 m2, report addr (p_pagetable p) (p_xstate q) (pk_mem s) = Ret r m1 → (0 ≤ r → free_mem q m1 = Ret tt m2) → ∃ s',
      wait me addr s = Ret (inl (if r <? 0 then -1 else p_pid q)) s' ∧ wait_lock s' = false ∧ noff (hart s') = 0 ∧ sie (hart s') = sie (hart s) ∧
      pk_mem s' = (if r <? 0 then m1 else m2) ∧ ptable s' = if r <? 0 then ptable s else alter reaped i (ptable s)
  | None =>
      (¬ (∃ q, q ∈ ptable s ∧ child me q) ∨ p_killed p = true → ∃ s', wait me addr s = Ret (inl (-1)) s' ∧
         ptable s' = ptable s ∧ pk_mem s' = pk_mem s ∧ wait_lock s' = false ∧ noff (hart s') = 0 ∧ sie (hart s') = sie (hart s)) ∧
      ((∃ q, q ∈ ptable s ∧ child me q) → p_killed p = false → ∃ s', wait me addr s = Ret (inr (sie (hart s))) s' ∧
         wait_lock s' = false ∧ noff (hart s') = 1 ∧ (∀ j, j ≠ me → ptable s' !! j = ptable s !! j) ∧
         ptable s' !! me = Some (p_set_state SLEEPING (p_set_chan (Some (ChanProc me)) (p_set_lock true p))))
  end.
Proof.
  intros Hu Hl Hi Hw Hn Hpar. unfold wait. rewrite (bind_Ret _ _ _ _ _ (lock_run wait_lock set_wait_lock s Hw (λ _, eq_refl))), Hn.
  set (s1 := set_wait_lock _ _). assert (Hc : in_crit s1) by done. pose proof (unlocked_at s me p Hu Hi) as Hpl. unfold wait_round.
  destruct (list_find (zombie me) (ptable s)) as [[i q]|] eqn:Ef.
  - intros r m1 m2 Hrep Hfree. apply list_find_Some_first in Ef as (Hq & Hz & Hfirst). pose proof (lookup_lt_Some _ _ _ Hq).
    destruct (wait_scan_skip me addr i (NPROC - i) 0 false s1 Hc Hu) as (hk & E & _); [simpl; lia|intros j x Hj Hx; apply (Hfirst j x); [done|lia]|].
    replace (i + (NPROC - i))%nat with NPROC in E by lia. replace (NPROC - i)%nat with (S (NPROC - S i)) in E by lia.
    destruct (wait_scan_zombie me addr (NPROC - S i) i hk s1 p q r m1 m2) as (s' & E' & H1 & H2 & H3 & H4); try done.
    { intros ->. rewrite Hi in Hq. injection Hq as ->. by destruct Hz. }
    exists s'. rewrite (bind_Ret _ _ _ _ _ (eq_trans E E')). split; [done|]. rewrite H2. done.
  - destruct (wait_scan_none me addr s1 Hc Hu Hl Ef) as (hk & E & Hhk). rewrite (bind_Ret _ _ _ _ _ E).
    pose proof (unlock_wait s1 eq_refl eq_refl eq_refl) as Hul. pose proof (killed_in_crit me p s1 Hc Hi Hpl) as Hk. split.
    + intros Hor. assert (Hb : ∃ k : bool, (if hk then killed me else mret false) s1 = Ret k s1 ∧ negb hk || k = true).
      { destruct hk; [exists (p_killed p); split; [done|]|by exists false]. destruct Hor as [Hno|]; [|done]. exfalso. by apply Hno, Hhk. }
      destruct Hb as (k & Ek & Hb). rewrite (bind_Ret _ _ _ _ _ Ek), Hb, (bind_Ret _ _ _ _ _ Hul). by eexists.
    + intros Hch Hkl. apply Hhk in Hch. rewrite Hch, (bind_Ret _ _ _ _ _ Hk), Hkl. cbn [negb orb].
      destruct (sleep_switches wait_lock set_wait_lock me (ChanProc me) s1 p) as (s' & Es & H1 & H2 & _ & H4 & H5); try done.
      rewrite (bind_Ret _ _ _ _ _ Es). exists s'. done.
Qed.
End wait.

(** ** fork() *)

Section fork.
Context {I : image} {PA : PageAllocator} {FL : FileLayer}.

(** The functions on a state given by its parts. *)
Section parts.
Context (np : Z) (ip : option nat) (pl wl : bool) (m : mstate) (fl : fl_state) (hp : option nat).

Lemma plock_PK i q tb n ie si : tb !! i = Some q → p_lock q = false →
  plock i (PK tb np ip pl wl m fl (Cpu n ie si) hp) =
  Ret tt (PK (alter (p_set_lock true) i tb) np ip pl wl m fl (Cpu (n + 1) (if n =? 0 then si else ie) false) hp).
Proof.
  intros Hi Hl. unfold plock, lock, hpush, acquire_flag, modify, gets, mbind, M_bind, getp. simpl.
  by rewrite (list_lookup_total_correct _ _ _ Hi), Hl.
Qed.

Lemma punlock_PK i q tb n ie : tb !! i = Some q → p_lock q = true → 1 ≤ n →
  punlock i (PK tb np ip pl wl m fl (Cpu n ie false) hp) =
  Ret tt (PK (alter (p_set_lock false) i tb) np ip pl wl m fl (Cpu (n - 1) ie ((n - 1 =? 0) && ie)) hp).
Proof.
  intros Hi Hl Hn. unfold punlock, unlock, release_flag, hpop, modify, gets, mbind, M_bind, getp. simpl.
  rewrite (list_lookup_total_correct _ _ _ Hi), Hl. simpl. by destruct (Z.ltb_spec n 1); [lia|].
Qed.

Lemma relock_id i q (tb : list proc) : tb !! i = Some q → p_lock q = false → alter (p_set_lock false) i (alter (p_set_lock true) i tb) = tb.
Proof using Type.
  intros Hi Hl. apply list_eq. intros j. destruct (decide (j = i)) as [->|]; [|by rewrite !list_lookup_alter_ne].
  rewrite !list_lookup_alter_eq, Hi. simpl. f_equal. destruct q; simpl in *; by subst.
Qed.

Definition unused (q : proc) : Prop := p_state q = UNUSED.
#[export] Instance unused_dec q : Decision (unused q).
Proof. unfold unused. apply _. Defined.

(** allocproc() finds the first unused entry and locks it. *)
Lemma allocproc_find_PK d k j tb q ie b : Forall (λ p, p_lock p = false) tb → tb !! (j + d)%nat = Some q → unused q →
  (∀ x p, (j ≤ x < j + d)%nat → tb !! x = Some p → ¬ unused p) →
  allocproc_find (d + S k) j (PK tb np ip pl wl m fl (Cpu 0 ie b) hp) =
  Ret (Some (j + d)%nat) (PK (alter (p_set_lock true) (j + d)%nat tb) np ip pl wl m fl (Cpu 1 b false) hp).
Proof.
  intros Hu. revert j ie. induction d as [|d IH]; intros j ie Hj Hq Hx; cbn [Nat.add allocproc_find].
  - rewrite Nat.add_0_r in *. pose proof (Forall_lookup_1 _ _ _ _ Hu Hj) as Hl. rewrite (bind_Ret _ _ _ _ _ (plock_PK j q tb 0 ie b Hj Hl)).
    rewrite gets_bindp. unfold getp. cbn [ptable]. rewrite (list_lookup_total_correct _ _ (p_set_lock true q)) by (by rewrite list_lookup_alter_eq, Hj).
    by rewrite decide_True by done.
  - destruct (lookup_lt_is_Some_2 tb j) as [p Hp]; [apply lookup_lt_Some in Hj; lia|]. pose proof (Forall_lookup_1 _ _ _ _ Hu Hp) as Hl.
    rewrite (bind_Ret _ _ _ _ _ (plock_PK j p tb 0 ie b Hp Hl)).
    assert (Hp1 : alter (p_set_lock true) j tb !! j = Some (p_set_lock true p)) by (by rewrite list_lookup_alter_eq, Hp).
    rewrite gets_bindp. unfold getp. cbn [ptable]. rewrite (list_lookup_total_correct _ _ _ Hp1).
    rewrite decide_False by (apply (Hx j p); [lia|done]).
    erewrite bind_Ret by (apply (punlock_PK j _ _ _ _ Hp1); [done|lia]). rewrite (relock_id j p) by done.
    replace (j + S d)%nat with (S j + d)%nat in * by lia. apply IH; [done|done|]. intros x y Hxy. apply Hx. lia.
Qed.

(** kill() changes the first entry with the pid, in use or not, as [kill_entry]
    says. *)
Lemma kill_loop_PK pid d k j tb q ie b : Forall (λ p, p_lock p = false) tb → tb !! (j + d)%nat = Some q → p_pid q = pid →
  (∀ x p, (j ≤ x < j + d)%nat → tb !! x = Some p → p_pid p ≠ pid) →
  kill_loop (d + S k) j pid (PK tb np ip pl wl m fl (Cpu 0 ie b) hp) =
  Ret 0 (PK (alter kill_entry (j + d)%nat tb) np ip pl wl m fl (Cpu 0 b b) hp).
Proof.
  intros Hu. revert j ie. induction d as [|d IH]; intros j ie Hj Hq Hx; cbn [Nat.add kill_loop].
  - rewrite Nat.add_0_r in *. pose proof (Forall_lookup_1 _ _ _ _ Hu Hj) as Hl. rewrite (bind_Ret _ _ _ _ _ (plock_PK j q tb 0 ie b Hj Hl)).
    rewrite gets_bindp. unfold getp. cbn [ptable]. rewrite (list_lookup_total_correct _ _ (p_set_lock true q)) by (by rewrite list_lookup_alter_eq, Hj).
    cbn [p_set_lock p_pid p_state]. rewrite Hq, Z.eqb_refl.
    change (PK (alter (p_set_lock true) j tb) np ip pl wl m fl (Cpu (0 + 1) (if 0 =? 0 then b else ie) false) hp)
      with (set_ptable (alter (p_set_lock true) j tb) (PK tb np ip pl wl m fl (Cpu 1 b false) hp)).
    rewrite updp_chain. set (t1 := alter _ j (alter _ j tb)). set (s0 := PK tb np ip pl wl m fl (Cpu 1 b false) hp).
    set (t2 := alter (p_set_lock true) j (alter kill_entry j tb)).
    rewrite (bind_Ret _ _ _ tt (set_ptable t2 s0)).
    2: { assert (t2 = if decide (p_state q = SLEEPING) then alter (p_set_state RUNNABLE) j t1 else t1) as ->; [|by case_decide].
      unfold t1, t2. apply list_eq. intros x. destruct (decide (x = j)) as [->|]; [|case_decide; by rewrite !list_lookup_alter_ne].
      unfold kill_entry. case_decide as Hd; rewrite !list_lookup_alter_eq, Hj; cbn; by rewrite ?(decide_True _ _ Hd), ?(decide_False _ _ Hd). }
    assert (Hv : p_lock (kill_entry q) = false) by (unfold kill_entry; case_decide; done).
    assert (H2 : t2 !! j = Some (p_set_lock true (kill_entry q))) by (unfold t2; by rewrite !list_lookup_alter_eq, Hj).
    unfold s0, set_ptable. cbn. erewrite bind_Ret by (apply (punlock_PK j _ _ _ _ H2); [done|lia]). unfold t2. by rewrite (relock_id j (kill_entry q)) by (done || by rewrite list_lookup_alter_eq, Hj).
  - destruct (lookup_lt_is_Some_2 tb j) as [p Hp]; [apply lookup_lt_Some in Hj; lia|]. pose proof (Forall_lookup_1 _ _ _ _ Hu Hp) as Hl.
    rewrite (bind_Ret _ _ _ _ _ (plock_PK j p tb 0 ie b Hp Hl)).
    assert (Hp1 : alter (p_set_lock true) j tb !! j = Some (p_set_lock true p)) by (by rewrite list_lookup_alter_eq, Hp).
    rewrite gets_bindp. unfold getp. cbn [ptable]. rewrite (list_lookup_total_correct _ _ _ Hp1). cbn [p_set_lock p_pid].
    rewrite (proj2 (Z.eqb_neq _ _)) by (apply (Hx j p); [lia|done]).
    erewrite bind_Ret by (apply (punlock_PK j _ _ _ _ Hp1); [done|lia]). rewrite (relock_id j p) by done.
    replace (j + S d)%nat with (S j + d)%nat in * by lia. apply IH; [done|done|]. intros x y Hxy. apply Hx. lia.
Qed.

Lemma allocpid_PK tb ie : pl = false → allocpid (PK tb np ip pl wl m fl (Cpu 1 ie false) hp) =
  Ret np (PK tb (i32 (np + 1)) ip false wl m fl (Cpu 1 ie false) hp).
Proof. intros ->. done. Qed.
End parts.

(** The entry allocproc() makes of [q]. *)
Definition alloced (forkret pid tf pt : Z) (q : proc) : proc :=
  Proc true USED (p_chan q) (p_killed q) (p_xstate q) pid (p_parent q) (p_kstack q) (p_sz q) pt tf
    (Ctx forkret (u64 (p_kstack q + PGSIZE)) (replicate 12 0)) (p_ofile q) (p_cwd q) (p_name q).

Lemma alter_alter_at {A} (f g h : A → A) i (l : list A) x : l !! i = Some x → g (f x) = h x → alter g i (alter f i l) = alter h i l.
Proof.
  intros Hi He. apply list_eq. intros j. destruct (decide (j = i)) as [->|]; [|by rewrite !list_lookup_alter_ne].
  rewrite !list_lookup_alter_eq, Hi. simpl. by rewrite He.
Qed.

Lemma allocproc_run forkret s i q tf pt m1 m2 : unlocked s → noff (hart s) = 0 → pid_lock s = false → length (ptable s) = NPROC →
  list_find unused (ptable s) = Some (i, q) → pa_kalloc (pk_mem s) = Ret tf m1 → tf ≠ 0 → proc_pagetable tf m1 = Ret pt m2 → pt ≠ 0 →
  allocproc forkret s = Ret (Some i) (PK (alter (alloced forkret (nextpid s) tf pt) i (ptable s)) (i32 (nextpid s + 1)) (initproc s) false
    (wait_lock s) m2 (pk_files s) (Cpu 1 (sie (hart s)) false) (hart_proc s)).
Proof.
  intros Hu Hn Hpl Hlen Hf Hk Htf Hp Hpt. apply list_find_Some_first in Hf as (Hi & Hq & Hfirst). pose proof (lookup_lt_Some _ _ _ Hi) as Hil.
  destruct s as [tb np ip pl wl m fl [n ie b] hp]. cbn in *. subst n. unfold allocproc.
  assert (Hx : ∀ x p, (0 ≤ x < 0 + i)%nat → tb !! x = Some p → ¬ unused p).
  { intros x p Hx Hxp. apply (Hfirst x p); [done|lia]. }
  pose proof (allocproc_find_PK np ip pl wl m fl hp i (NPROC - S i) 0 tb q ie b Hu Hi Hq Hx) as E.
  replace (i + S (NPROC - S i))%nat with NPROC in E by lia. rewrite (bind_Ret _ _ _ _ _ E). cbn [Nat.add].
  rewrite (bind_Ret _ _ _ _ _ (allocpid_PK np ip pl wl m fl hp _ b Hpl)).
  set (s0 := PK tb (i32 (np + 1)) ip false wl m fl (Cpu 1 b false) hp).
  change (PK (alter (p_set_lock true) i tb) (i32 (np + 1)) ip false wl m fl (Cpu 1 b false) hp) with (set_ptable (alter (p_set_lock true) i tb) s0).
  rewrite !updp_chain. rewrite (zoom_mm _ _ _ tf m1) by done. rewrite mem_table, updp_chain. destruct (Z.eqb_spec tf 0); [done|].
  rewrite (zoom_mm _ _ _ pt m2) by done. rewrite mem_table, updp_chain. destruct (Z.eqb_spec pt 0); [done|]. rewrite updp_chain.
  transitivity (Ret (Some i) (set_ptable (alter (alloced forkret np tf pt) i tb) (set_pk_mem m2 s0)) : res pkstate (option nat)); [|done].
  unfold mret, M_ret. change (set_pk_mem m2 (set_pk_mem m1 s0)) with (set_pk_mem m2 s0). do 2 f_equal.
  apply list_eq. intros j. destruct (decide (j = i)) as [->|]; [by rewrite !list_lookup_alter_eq, Hi|by rewrite !list_lookup_alter_ne].
Qed.

(** filedup() of every open descriptor [l], over the entries [c] of the child. *)
Fixpoint dup_all (l c : list (option nat)) : M fl_state (list (option nat)) :=
  match l, c with
  | Some f :: l, _ :: c => f' ← fl_filedup f; c' ← dup_all l c; mret (Some f' :: c')
  | None :: l, x :: c => c' ← dup_all l c; mret (x :: c')
  | _, _ => mret c
  end.

Lemma fork_files_run k fd me np p q t fl s c' fl' : t !! me = Some p → t !! np = Some q → me ≠ np →
  length (p_ofile p) = (fd + k)%nat → length (p_ofile q) = (fd + k)%nat →
  dup_all (drop fd (p_ofile p)) (drop fd (p_ofile q)) fl = Ret c' fl' →
  fork_files k fd me np (set_ptable t (set_pk_files fl s)) =
  Ret tt (set_ptable (alter (p_set_ofile (take fd (p_ofile q) ++ c')) np t) (set_pk_files fl' s)).
Proof.
  intros Hme Hnp Hne Hlp. revert fd q t fl c' Hme Hnp Hlp. induction k as [|k IH]; intros fd q t fl c' Hme Hnp Hlp Hlq Hd; cbn [fork_files].
  { rewrite !drop_ge in Hd by lia. injection Hd as <- <-. rewrite app_nil_r, take_ge by lia. unfold mret, M_ret. do 2 f_equal.
    symmetry. apply list_eq. intros j. destruct (decide (j = np)) as [->|]; [|by rewrite list_lookup_alter_ne].
    rewrite list_lookup_alter_eq, Hnp. simpl. f_equal. by destruct q. }
  rewrite gets_bindp. unfold getp. cbn [ptable set_ptable]. rewrite (list_lookup_total_correct _ _ _ Hme).
  destruct (lookup_lt_is_Some_2 (p_ofile p) fd) as [o Ho]; [lia|]. destruct (lookup_lt_is_Some_2 (p_ofile q) fd) as [x Hx]; [lia|].
  rewrite (list_lookup_total_correct _ _ _ Ho). rewrite (drop_S _ _ _ Ho), (drop_S _ _ _ Hx) in Hd. destruct o as [f|]; cbn [dup_all] in Hd.
  - apply bind_Ret_inv in Hd as (f' & fl1 & Hf & Hd). apply bind_Ret_inv in Hd as (c1 & fl2 & Hd & E). injection E as <- <-.
    rewrite bind_assoc. erewrite bind_Ret by (unfold files; apply zoom_Ret; exact Hf).
    set (q1 := p_set_ofile (<[fd := Some f']> (p_ofile q)) q). set (t1 := alter (λ p, p_set_ofile (<[fd := Some f']> (p_ofile p)) p) np t).
    rewrite (bind_Ret _ _ _ tt (set_ptable t1 (set_pk_files fl1 s))) by done.
    rewrite (IH (S fd) q1 t1 fl1 c1); [| |  | | |].
    + do 2 f_equal. unfold t1. apply (alter_alter_at _ _ _ _ _ q Hnp). cbn [p_ofile p_set_ofile q1]. unfold p_set_ofile. cbn. f_equal.
      rewrite (take_S_r _ _ (Some f')) by (apply list_lookup_insert_eq; lia). rewrite take_insert_ge by lia. by rewrite <- app_assoc.
    + unfold t1. by rewrite list_lookup_alter_ne.
    + unfold t1. by rewrite list_lookup_alter_eq, Hnp.
    + lia.
    + cbn [q1 p_ofile p_set_ofile]. rewrite length_insert. lia.
    + cbn [q1 p_ofile p_set_ofile]. rewrite drop_insert_lt by lia. exact Hd.
  - apply bind_Ret_inv in Hd as (c1 & fl2 & Hd & E). injection E as <- <-. rewrite bind_ret_l.
    rewrite (IH (S fd) q t fl c1) by (done || lia). do 2 f_equal. rewrite (take_S_r _ _ _ Hx). by rewrite <- app_assoc.
Qed.

(** The memory after the child's trap frame has been copied. *)
Definition fork_frame (tfp tf : Z) (m : mstate) : mstate :=
  let m := set_mem (store_bytes (ms_mem m) tf (load_bytes (ms_mem m) tfp (Z.to_nat sizeof_trapframe))) m in
  set_mem (store64 (ms_mem m) (tf + tf_a0) 0) m.

(** The child fork() makes of the entry [q]. *)
Definition forked (forkret pid tf pt : Z) (me : nat) (p q : proc) (ofile : list (option nat)) (cwd : nat) : proc :=
  Proc false RUNNABLE (p_chan q) (p_killed q) (p_xstate q) pid (Some me) (p_kstack q) (p_sz p) pt tf
    (Ctx forkret (u64 (p_kstack q + PGSIZE)) (replicate 12 0)) ofile (Some cwd) (safestrcpy_bytes (p_name q) (p_name p) 16).

(** The end of fork(): the child gets its parent and may run. *)
Definition fork_end (me np : nat) : M pkstate Z :=
  q ← gets (getp np);
  let pid := p_pid q in
  punlock np;;
  lock wait_lock set_wait_lock;;
  updp np (p_set_parent (Some me));;
  unlock wait_lock set_wait_lock;;
  plock np;;
  updp np (p_set_state RUNNABLE);;
  punlock np;;
  mret pid.

Lemma fork_end_run me i q t np ip m fl b hp : t !! i = Some q → p_lock q = true → ∃ ie,
  fork_end me i (PK t np ip false false m fl (Cpu 1 b false) hp) =
  Ret (p_pid q) (PK (alter (λ q, p_set_lock false (p_set_state RUNNABLE (p_set_parent (Some me) q))) i t) np ip false false m fl (Cpu 0 ie b) hp).
Proof.
  intros Hi Hl. unfold fork_end. rewrite gets_bindp. unfold getp. cbn [ptable]. rewrite (list_lookup_total_correct _ _ _ Hi).
  erewrite bind_Ret by (apply (punlock_PK _ _ _ _ _ _ _ i q); [done|done|lia]). cbn [Z.sub Z.add Z.opp Z.pos_sub Z.eqb andb].
  set (t1 := alter (p_set_lock false) i t). set (s0 := PK t np ip false true m fl (Cpu 1 b false) hp).
  rewrite (bind_Ret (lock wait_lock set_wait_lock) _ _ tt (set_ptable t1 s0)) by done. rewrite updp_chain.
  set (t2 := alter (p_set_parent (Some me)) i t1). set (q2 := p_set_parent (Some me) (p_set_lock false q)).
  assert (H2 : t2 !! i = Some q2) by (unfold t2, t1; by rewrite !list_lookup_alter_eq, Hi).
  rewrite (bind_Ret (unlock wait_lock set_wait_lock) _ _ tt (PK t2 np ip false false m fl (Cpu 0 b b) hp)) by done.
  set (t3 := alter (p_set_lock true) i t2). assert (H3 : t3 !! i = Some (p_set_lock true q2)) by (unfold t3; by rewrite list_lookup_alter_eq, H2).
  set (s1 := PK t np ip false false m fl (Cpu 1 b false) hp).
  rewrite (bind_Ret (plock i) _ _ tt (set_ptable t3 s1)) by (by rewrite (plock_PK _ _ _ _ _ _ _ i q2)).
  rewrite updp_chain. set (t4 := alter (p_set_state RUNNABLE) i t3).
  assert (H4 : t4 !! i = Some (p_set_state RUNNABLE (p_set_lock true q2))) by (unfold t4; by rewrite list_lookup_alter_eq, H3).
  rewrite (bind_Ret (punlock i) _ _ tt (PK (alter (p_set_lock false) i t4) np ip false false m fl (Cpu 0 b b) hp))
    by (unfold s1, set_ptable; simpl; by rewrite (punlock_PK _ _ _ _ _ _ _ i _ _ _ _ H4)).
  exists b. unfold mret, M_ret. do 2 f_equal. apply list_eq. intros j. unfold t4, t3, t2, t1.
  destruct (decide (j = i)) as [->|]; [by rewrite !list_lookup_alter_eq, Hi|by rewrite !list_lookup_alter_ne].
Qed.

(** C28: fork(), when there is an entry, memory and files: it returns the new
    pid; the first unused entry of the table becomes a runnable child of the
    caller with the caller's memory copied, its trap frame but for a 0 in a0,
    its descriptors and directory duplicated; no other entry changes. *)
Theorem fork_makes_child forkret me s p i q tf pt m1 m2 m3 ofile fl1 ip cwd fl2 : unlocked s → length (ptable s) = NPROC →
  ptable s !! me = Some p → p_state p ≠ UNUSED → list_find unused (ptable s) = Some (i, q) →
  pid_lock s = false → wait_lock s = false → noff (hart s) = 0 → length (p_ofile p) = NOFILE → length (p_ofile q) = NOFILE →
  pa_kalloc (pk_mem s) = Ret tf m1 → tf ≠ 0 → proc_pagetable tf m1 = Ret pt m2 → pt ≠ 0 → uvmcopy (p_pagetable p) pt (p_sz p) m2 = Ret 0 m3 →
  dup_all (p_ofile p) (p_ofile q) (pk_files s) = Ret ofile fl1 → p_cwd p = Some ip → fl_idup ip fl1 = Ret cwd fl2 → ∃ s',
  fork forkret me s = Ret (nextpid s) s' ∧
  ptable s' = <[i := forked forkret (nextpid s) tf pt me p q ofile cwd]> (ptable s) ∧ nextpid s' = i32 (nextpid s + 1) ∧
  pk_mem s' = fork_frame (p_trapframe p) tf m3 ∧ pk_files s' = fl2 ∧ wait_lock s' = false ∧ noff (hart s') = 0 ∧ sie (hart s') = sie (hart s).
Proof.
  intros Hu Hlen Hme Hst Hf Hpl Hwl Hn Hop Hoq Hk Htf Hpp Hpt Hcopy Hdup Hcwd Hidup. unfold fork.
  rewrite (bind_Ret _ _ _ _ _ (allocproc_run forkret s i q tf pt m1 m2 Hu Hn Hpl Hlen Hf Hk Htf Hpp Hpt)).
  apply list_find_Some_first in Hf as (Hi & Hq & _). assert (Hne : me ≠ i). { intros ->. rewrite Hme in Hi. injection Hi as ->. done. }
  rewrite Hwl. set (q1 := alloced forkret (nextpid s) tf pt q). set (t1 := alter _ i (ptable s)).
  assert (Hm1 : t1 !! me = Some p) by (unfold t1; by rewrite list_lookup_alter_ne).
  assert (Hi1 : t1 !! i = Some q1) by (unfold t1; by rewrite list_lookup_alter_eq, Hi).
  set (s1 := PK t1 _ _ _ _ _ _ _ _). rewrite !gets_bindp, (getp_lookup s1 me p Hm1), (getp_lookup s1 i q1 Hi1). cbn [p_pagetable q1 alloced p_trapframe].
  rewrite (zoom_mm _ _ _ 0 m3) by done. cbn [Z.ltb Z.compare].
  change (set_pk_mem m3 s1) with (set_ptable t1 (set_pk_mem m3 s1)). rewrite updp_chain. set (t2 := alter _ i t1).
  erewrite zoom_mm by reflexivity. rewrite mem_table. erewrite zoom_mm by reflexivity. rewrite mem_table. set (s2 := set_pk_mem _ _).
  assert (Hm2 : t2 !! me = Some p) by (unfold t2; by rewrite list_lookup_alter_ne).
  set (q2 := p_set_sz (p_sz p) q1). assert (Hi2 : t2 !! i = Some q2) by (unfold t2; by rewrite list_lookup_alter_eq, Hi1).
  pose proof (fork_files_run NOFILE 0 me i p q2 t2 (pk_files s) s2 ofile fl1 Hm2 Hi2 Hne Hop Hoq Hdup) as Hff.
  change (set_pk_files (pk_files s) s2) with s2 in Hff. rewrite (bind_Ret _ _ _ _ _ Hff), Hcwd. cbn [take app].
  set (t3 := alter _ i t2). erewrite bind_Ret by (unfold files; apply zoom_Ret; exact Hidup).
  change (set_pk_files fl2 (set_ptable t3 (set_pk_files fl1 s2))) with (set_ptable t3 (set_pk_files fl2 s2)). rewrite !updp_chain.
  set (t4 := alter _ i (alter _ i t3)). set (q4 := p_set_name (safestrcpy_bytes (p_name q) (p_name p) 16) (p_set_cwd (Some cwd) (p_set_ofile ofile q2))).
  assert (Hi4 : t4 !! i = Some q4) by (unfold t4, t3; by rewrite !list_lookup_alter_eq, Hi2).
  set (sf := set_ptable t4 (set_pk_files fl2 s2)). fold (fork_end me i).
  change sf with (PK t4 (i32 (nextpid s + 1)) (initproc s) false false (fork_frame (p_trapframe p) tf m3) fl2 (Cpu 1 (sie (hart s)) false) (hart_proc s)).
  destruct (fork_end_run me i q4 t4 (i32 (nextpid s + 1)) (initproc s) (fork_frame (p_trapframe p) tf m3) fl2 (sie (hart s)) (hart_proc s) Hi4 eq_refl) as (ie & E).
  eexists. split; [exact E|]. split; [|done]. cbn [ptable]. apply list_eq. intros j. destruct (decide (j = i)) as [->|].
  - rewrite list_lookup_alter_eq, Hi4, list_lookup_insert_eq by (by eapply lookup_lt_Some). done.
  - rewrite list_lookup_alter_ne, list_lookup_insert_ne by done. unfold t4, t3, t2, t1. by rewrite !list_lookup_alter_ne.
Qed.
End fork.

(** ** Witnesses: init asleep in wait(), its child running *)

#[local] Existing Instance image_sym.

(** A file layer that does nothing. *)
#[local] Instance no_files : FileLayer := {|
  fl_state := unit;
  fl_filedup f := mret f; fl_fileclose _ := mret tt; fl_idup i := mret i; fl_iput _ := mret tt;
  fl_begin_op := mret tt; fl_end_op := mret tt; fl_namei _ := mret None; fl_fsinit _ := mret tt
|}.

Definition demo_init : proc := p_set_pid 1 (p_set_chan (Some (ChanProc 0)) (p_set_state SLEEPING proc0)).
Definition demo_child : proc := p_set_pid 2 (p_set_parent (Some 0%nat) (p_set_state RUNNING proc0)).
Definition demo_procs (c : cpu) (wl : bool) : pkstate :=
  PK (demo_init :: demo_child :: replicate 62 proc0) 3 (Some 0%nat) false wl (MState (λ _, Byte.x00) false 0) tt c (Some 1%nat).

Lemma demo_unlocked c wl : unlocked (demo_procs c wl).
Proof. apply Forall_cons. split; [done|]. apply Forall_cons. split; [done|]. by apply Forall_replicate. Qed.

Lemma exit_hands_over_witness : ∃ s', exit_tail 1 7 (demo_procs (Cpu 0 true true) false) = Ret true s' ∧
  ∃ x', ptable s' !! 0%nat = Some x' ∧ p_state x' = RUNNABLE.
Proof.
  destruct (exit_hands_over 1 7 (demo_procs (Cpu 0 true true) false) demo_child (demo_unlocked _ _)) as (s' & E & _ & _ & _ & H);
    [reflexivity|reflexivity|reflexivity|reflexivity|discriminate|discriminate|].
  exists s'. split; [exact E|]. destruct (H 0%nat demo_init eq_refl) as (x' & Hx & _ & Hr & _). exists x'. split; [exact Hx|]. by apply Hr.
Defined.

Lemma wakeup_wakes_witness : ∃ s', wakeup (Some 1%nat) (ChanProc 0) (demo_procs (Cpu 1 true false) false) = Ret tt s' ∧
  ptable s' !! 0%nat = Some (p_set_state RUNNABLE demo_init).
Proof.
  destruct (wakeup_wakes (Some 1%nat) (ChanProc 0) (demo_procs (Cpu 1 true false) false)) as (s' & E & _ & H).
  - done.
  - apply demo_unlocked.
  - reflexivity.
  - exists s'. split; [exact E|]. by rewrite (H 0%nat demo_init eq_refl).
Defined.

Lemma sleep_switches_witness : ∃ s', sleep_before 1 ChanTicks (unlock wait_lock set_wait_lock) (demo_procs (Cpu 1 true false) true) = Ret true s' ∧ wait_lock s' = false.
Proof.
  destruct (sleep_switches wait_lock set_wait_lock 1 ChanTicks (demo_procs (Cpu 1 true false) true) demo_child) as (s' & E & Hw & _);
    [by split|reflexivity..|].
  exists s'. split; [exact E|exact Hw].
Defined.

(** init waits for its child, which has exited with status 7. *)
Definition demo_dead : pkstate :=
  PK (demo_init :: p_set_xstate 7 (p_set_state ZOMBIE demo_child) :: replicate 62 proc0) 3 (Some 0%nat) false false (MState (λ _, Byte.x00) false 0) tt (Cpu 0 true true) (Some 0%nat).

Lemma wait_reaps_witness : ∃ s', wait 0 0 demo_dead = Ret (inl 2) s' ∧ ∃ q, ptable s' !! 1%nat = Some q ∧ p_state q = UNUSED.
Proof.
  pose proof (wait_reaps 0 0 demo_dead demo_init) as H.
  destruct H with (r := 0) (m1 := pk_mem demo_dead) (m2 := pk_mem demo_dead) as (s' & E & _ & _ & _ & _ & Ht); try reflexivity; try discriminate.
  - apply Forall_cons. split; [done|]. apply Forall_cons. split; [done|]. by apply Forall_replicate.
  - exists s'. split; [exact E|]. rewrite Ht. eexists. split; reflexivity.
Defined.

(** A shell running alone, with five free pages. *)
Definition demo_sh : proc := p_set_cwd (Some 3%nat) (p_set_ofile (Some 4%nat :: replicate 15 None) (p_set_pid 2 (p_set_state RUNNING proc0))).
Definition demo_pages : mstate :=
  MState (store64 (store64 (store64 (store64 (λ _, Byte.x00) 0x87001000 0x87002000) 0x87002000 0x87003000) 0x87003000 0x87004000) 0x87004000 0x87005000) false 0x87001000.
Definition demo_fork : pkstate := PK (demo_sh :: replicate 63 proc0) 3 (Some 0%nat) false false demo_pages tt (Cpu 0 true true) (Some 0%nat).

Definition returns {S A} (r : res S A) (ok : A → bool) : bool := match r with Ret a _ => ok a | _ => false end.

Lemma returns_Ret {S A} (r : res S A) ok : returns r ok = true → ∃ a s, r = Ret a s ∧ ok a = true.
Proof. destruct r as [a s| | |]; try discriminate. by exists a, s. Qed.

Lemma fork_makes_child_witness : ∃ s' c, fork 0x80001000 0 demo_fork = Ret 3 s' ∧ ptable s' !! 1%nat = Some c ∧
  p_state c = RUNNABLE ∧ p_parent c = Some 0%nat ∧ p_ofile c = Some 4%nat :: replicate 15 None.
Proof.
  assert (Hm : returns ((tf ← pa_kalloc; pt ← proc_pagetable tf; mret (tf, pt)) demo_pages) (λ x, negb (fst x =? 0) && negb (snd x =? 0)) = true)
    by (vm_compute; reflexivity).
  apply returns_Ret in Hm as ([tf pt] & m2 & E & Hm). cbn [fst snd] in Hm.
  apply andb_true_iff in Hm as [H1 H2]. apply negb_true_iff, Z.eqb_neq in H1. apply negb_true_iff, Z.eqb_neq in H2.
  apply bind_Ret_inv in E as (tf' & m1 & Ea & E). apply bind_Ret_inv in E as (pt' & m2' & Eb & E). injection E as -> -> ->.
  assert (Hu : unlocked demo_fork) by (apply Forall_cons; split; [done|]; by apply Forall_replicate).
  destruct (fork_makes_child 0x80001000 0 demo_fork demo_sh 1 proc0 tf pt m1 m2 m2 (Some 4%nat :: replicate 15 None) tt 3 3 tt
    Hu eq_refl eq_refl ltac:(discriminate) eq_refl eq_refl eq_refl eq_refl eq_refl eq_refl Ea H1 Eb H2 eq_refl eq_refl eq_refl eq_refl) as (s' & E & Ht & _).
  exists s'. eexists. split; [exact E|]. rewrite Ht. repeat split; reflexivity.
Defined.
