(* ===== verification/ProcInv.v ===== *)
(** * kernel/proc.c: the invariant of the process table

    Every function of proc.c keeps the table well formed: the processes in use
    have pids of their own below nextpid, an unused entry has neither pid nor
    parent, and a parent, like init, is a process that is in use and has not
    exited, so that no entry refers to one that has been freed.

    The functions are seen through [tkey], the states, pids and parents of the
    table: [triple] is the partial-correctness triple on it, and [quiet] code
    does not change it. *)

From stdpp Require Import base gmap sets strings numbers list.
From coqutil Require Import Byte Word.LittleEndianList.
From S2P Require Import Prelude Mem Str Riscv Spinlock Kalloc Vm Proc ProcSleep ProcThms.

(** ** What the invariant is about *)

Record kentry := KE { k_state : procstate; k_pid : Z; k_parent : option nat }.
Record ktab := KT { kt : list kentry; k_next : Z; k_init : option nat }.

Definition key (p : proc) : kentry := KE (p_state p) (p_pid p) (p_parent p).
#[export] Instance kentry_inhabited : Inhabited kentry := populate (key proc0).

(** In use and not exited. *)
Definition alive (t : list kentry) (j : nat) : Prop := ∃ e, t !! j = Some e ∧ k_state e ≠ UNUSED ∧ k_state e ≠ ZOMBIE.

Record ktab_ok (k : ktab) : Prop := {
  ko_len : length (kt k) = NPROC;
  ko_next : 1 ≤ k_next k;
  ko_used i e : kt k !! i = Some e → k_state e ≠ UNUSED → 1 ≤ k_pid e < k_next k;
  ko_free i e : kt k !! i = Some e → k_state e = UNUSED → k_pid e = 0 ∧ k_parent e = None;
  ko_uniq i j e f : kt k !! i = Some e → kt k !! j = Some f → k_state e ≠ UNUSED → k_pid e = k_pid f → i = j;
  ko_parent i e j : kt k !! i = Some e → k_parent e = Some j → alive (kt k) j;
  ko_init j : k_init k = Some j → alive (kt k) j
}.

(** ** Changes of one entry *)

Definition kset (i : nat) (e : kentry) (k : ktab) : ktab := KT (<[i := e]> (kt k)) (k_next k) (k_init k).
Definition childless (i : nat) (k : ktab) : Prop := ∀ j e, kt k !! j = Some e → k_parent e ≠ Some i.


Lemma lookup_set (t : list kentry) i j e' e f : t !! i = Some e → <[i := e']> t !! j = Some f →
  (j = i ∧ f = e') ∨ (j ≠ i ∧ t !! j = Some f).
Proof.
  intros Hi Hj. destruct (decide (j = i)) as [->|Hne].
  - rewrite list_lookup_insert_eq in Hj by (by eapply lookup_lt_Some). left. split; congruence.
  - rewrite list_lookup_insert_ne in Hj by done. by right.
Qed.

Lemma alive_set_ne t i j e : j ≠ i → alive t j → alive (<[i := e]> t) j.
Proof. intros Hne (f & Hf & ?). exists f. by rewrite list_lookup_insert_ne. Qed.
Lemma alive_set_eq (t : list kentry) i e e' : t !! i = Some e → k_state e' ≠ UNUSED → k_state e' ≠ ZOMBIE → alive (<[i := e']> t) i.
Proof. intros Hi H1 H2. exists e'. by rewrite list_lookup_insert_eq by (by eapply lookup_lt_Some). Qed.
Lemma alive_at t i e : alive t i → t !! i = Some e → k_state e ≠ UNUSED ∧ k_state e ≠ ZOMBIE.
Proof. intros (f & Hf & ?) Hi. rewrite Hf in Hi. by injection Hi as <-. Qed.

(** What a new entry [e'] in place of [e] has to satisfy. *)
Section update.
Context (i : nat) (e e' : kentry) (np : Z) (k : ktab).
Context (Hok : ktab_ok k) (Hi : kt k !! i = Some e) (Hnp : k_next k ≤ np).

Lemma ok_update :
  (k_state e' ≠ UNUSED → 1 ≤ k_pid e' < np) → (k_state e' = UNUSED → k_pid e' = 0 ∧ k_parent e' = None) →
  (∀ j f, j ≠ i → kt k !! j = Some f → k_state e' ≠ UNUSED ∨ k_state f ≠ UNUSED → k_pid e' ≠ k_pid f) →
  (∀ j, k_parent e' = Some j → alive (<[i := e']> (kt k)) j) →
  ((∃ j f, kt k !! j = Some f ∧ k_parent f = Some i) ∨ k_init k = Some i → k_state e' ≠ UNUSED ∧ k_state e' ≠ ZOMBIE) →
  ktab_ok (KT (<[i := e']> (kt k)) np (k_init k)).
Proof using Hok Hi Hnp.
  intros Hused Hfree Huniq Hpar Href. destruct Hok.
  assert (Hal : ∀ j, ((∃ a f, kt k !! a = Some f ∧ k_parent f = Some j) ∨ k_init k = Some j) → alive (kt k) j → alive (<[i := e']> (kt k)) j).
  { intros j Hr Ha. destruct (decide (j = i)) as [->|]; [|by apply alive_set_ne]. destruct (Href Hr). by eapply alive_set_eq. }
  split; cbn [kt k_next k_init].
  - by rewrite length_insert.
  - lia.
  - intros j f Hj Hs. destruct (lookup_set _ _ _ _ _ _ Hi Hj) as [[-> ->]|[_ Hj']]; [by apply Hused|].
    pose proof (ko_used0 _ _ Hj' Hs). lia.
  - intros j f Hj Hs. destruct (lookup_set _ _ _ _ _ _ Hi Hj) as [[-> ->]|[_ Hj']]; [by apply Hfree|exact (ko_free0 _ _ Hj' Hs)].
  - intros a b f g Ha Hb Hs Hp. destruct (lookup_set _ _ _ _ _ _ Hi Ha) as [[-> ->]|[Hna Ha']], (lookup_set _ _ _ _ _ _ Hi Hb) as [[-> ->]|[Hnb Hb']].
    + done.
    + exfalso. exact (Huniq _ _ Hnb Hb' (or_introl Hs) Hp).
    + exfalso. exact (Huniq _ _ Hna Ha' (or_intror Hs) (eq_sym Hp)).
    + exact (ko_uniq0 _ _ _ _ Ha' Hb' Hs Hp).
  - intros j f a Hj Hp. destruct (lookup_set _ _ _ _ _ _ Hi Hj) as [[-> ->]|[_ Hj']]; [by apply Hpar|].
    apply Hal; [left; by exists j, f|exact (ko_parent0 _ _ _ Hj' Hp)].
  - intros j Hj. apply Hal; [by right|by apply ko_init0].
Qed.

(** The pid of a process in use is not another's. *)
Lemma pid_own j f : k_state e ≠ UNUSED → j ≠ i → kt k !! j = Some f → k_pid e ≠ k_pid f.
Proof using Hok Hi. intros Hs Hne Hj He. apply Hne. symmetry. exact (ko_uniq _ Hok _ _ _ _ Hi Hj Hs He). Qed.
End update.

(** A process in use goes to another state in which it is alive. *)
Lemma ok_state i e st k : ktab_ok k → kt k !! i = Some e → k_state e ≠ UNUSED → st ≠ UNUSED → st ≠ ZOMBIE →
  ktab_ok (kset i (KE st (k_pid e) (k_parent e)) k).
Proof.
  intros Hok Hi Hu H1 H2. apply (ok_update i e); try done; cbn [k_state k_pid k_parent].
  - intros _. exact (ko_used _ Hok _ _ Hi Hu).
  - intros j f Hne Hj _. by eapply pid_own.
  - intros j Hj. pose proof (ko_parent _ Hok _ _ _ Hi Hj) as Ha. destruct (decide (j = i)) as [->|]; [by eapply alive_set_eq|by apply alive_set_ne].
Qed.

(** exit(): a process without children becomes a zombie. *)
Lemma ok_zombie i e k : ktab_ok k → kt k !! i = Some e → k_state e ≠ UNUSED → childless i k → k_init k ≠ Some i →
  ktab_ok (kset i (KE ZOMBIE (k_pid e) (k_parent e)) k).
Proof.
  intros Hok Hi Hu Hc Hini. apply (ok_update i e); try done; cbn [k_state k_pid k_parent].
  - intros _. exact (ko_used _ Hok _ _ Hi Hu).
  - intros j f Hne Hj _. by eapply pid_own.
  - intros j Hj. apply alive_set_ne; [intros ->; by eapply Hc|exact (ko_parent _ Hok _ _ _ Hi Hj)].
  - intros [(j & f & Hj & Hp)|Hp]; [by destruct (Hc _ _ Hj)|done].
Qed.

(** freeproc(): the entry of a process without children. *)
Lemma ok_free i e k : ktab_ok k → kt k !! i = Some e → childless i k → k_init k ≠ Some i → ktab_ok (kset i (KE UNUSED 0 None) k).
Proof.
  intros Hok Hi Hc Hini. apply (ok_update i e); try done; cbn [k_state k_pid k_parent].
  - intros j f Hne Hj [?|Hs]; [done|]. pose proof (ko_used _ Hok _ _ Hj Hs). lia.
  - intros [(j & f & Hj & Hp)|Hp]; [by destruct (Hc _ _ Hj)|done].
Qed.

(** No process refers to an unused entry. *)
Lemma unused_childless i e k : ktab_ok k → kt k !! i = Some e → k_state e = UNUSED ∨ k_state e = ZOMBIE → childless i k ∧ k_init k ≠ Some i.
Proof.
  intros Hok Hi Hu. split.
  - intros j f Hj Hp. destruct (alive_at _ _ _ (ko_parent _ Hok _ _ _ Hj Hp) Hi). by destruct Hu.
  - intros Hini. destruct (alive_at _ _ _ (ko_init _ Hok _ Hini) Hi). by destruct Hu.
Qed.

(** allocproc(): an unused entry gets the next pid. *)
Lemma ok_alloc i e k : ktab_ok k → kt k !! i = Some e → k_state e = UNUSED →
  let k' := KT (<[i := KE USED (k_next k) None]> (kt k)) (k_next k + 1) (k_init k) in ktab_ok k' ∧ childless i k'.
Proof.
  intros Hok Hi Hu k'. destruct (unused_childless i e k Hok Hi (or_introl Hu)) as [Hc _]. pose proof (ko_next _ Hok). split.
  - apply (ok_update i e); try done; cbn [k_state k_pid k_parent]; try lia.
    intros j f Hne Hj _. destruct (decide (k_state f = UNUSED)) as [Hf|Hf]; [pose proof (ko_free _ Hok _ _ Hj Hf)|pose proof (ko_used _ Hok _ _ Hj Hf)]; lia.
  - intros j f Hj. destruct (lookup_set _ _ _ _ _ _ Hi Hj) as [[-> ->]|[_ Hj']]; [done|by eapply Hc].
Qed.

(** The parent of a process is set to one that is alive. *)
Lemma ok_parent i e par k : ktab_ok k → kt k !! i = Some e → k_state e ≠ UNUSED → (∀ j, par = Some j → alive (kt k) j) →
  ktab_ok (kset i (KE (k_state e) (k_pid e) par) k).
Proof.
  intros Hok Hi Hu Hpar. apply (ok_update i e); try done; cbn [k_state k_pid k_parent].
  - intros _. exact (ko_used _ Hok _ _ Hi Hu).
  - intros j f Hne Hj _. by eapply pid_own.
  - intros j Hj. pose proof (Hpar j Hj) as Ha. destruct (decide (j = i)) as [->|]; [|by apply alive_set_ne].
    destruct (alive_at _ _ _ Ha Hi). by eapply alive_set_eq.
  - intros [(j & f & Hj & Hp)|Hp]; [exact (alive_at _ _ _ (ko_parent _ Hok _ _ _ Hj Hp) Hi)|exact (alive_at _ _ _ (ko_init _ Hok _ Hp) Hi)].
Qed.

(** ** Triples *)

Section logic.
Context {I : image} {PA : PageAllocator} {FL : FileLayer}.

Definition tkey (s : pkstate) : ktab := KT (key <$> ptable s) (nextpid s) (initproc s).

Definition triple {A} (P : ktab → Prop) (m : M pkstate A) (Q : A → ktab → Prop) : Prop :=
  ∀ s a s', P (tkey s) → m s = Ret a s' → Q a (tkey s').
(** [m] changes the table as [f] says, whatever it returns. *)
Definition eff {A} (m : M pkstate A) (f : ktab → ktab) : Prop := ∀ s a s', m s = Ret a s' → tkey s' = f (tkey s).
Definition quiet {A} (m : M pkstate A) : Prop := eff m (λ k, k).

Lemma triple_bind {A C} P Q R (m : M pkstate A) (f : A → M pkstate C) :
  triple P m Q → (∀ a, triple (Q a) (f a) R) → triple P (m ≫= f) R.
Proof. intros Hm Hf s c s' HP H. apply bind_Ret_inv in H as (a & s1 & H1 & H2). eapply Hf; [by eapply Hm|done]. Qed.
Lemma triple_ret {A} (P : ktab → Prop) (Q : A → ktab → Prop) a : (∀ k, P k → Q a k) → triple P (mret a) Q.
Proof. intros H s b s' HP [= <- <-]. by apply H. Qed.
Lemma triple_panic {A} P (Q : A → ktab → Prop) msg : triple P (panic msg) Q.
Proof. by intros s a s' _. Qed.
Lemma triple_conseq {A} (P P' : ktab → Prop) (Q Q' : A → ktab → Prop) m :
  triple P m Q → (∀ k, P' k → P k) → (∀ a k, Q a k → Q' a k) → triple P' m Q'.
Proof. intros H HP HQ s a s' Hs Hm. eapply HQ, H; [by apply HP|done]. Qed.
Lemma triple_eff {A} (P : ktab → Prop) (Q : A → ktab → Prop) m f : eff m f → (∀ a k, P k → Q a (f k)) → triple P m Q.
Proof. intros Hm H s a s' HP Hs. rewrite (Hm _ _ _ Hs). by apply H. Qed.
Lemma triple_quiet {A} P (m : M pkstate A) : quiet m → triple P m (λ _, P).
Proof. intros Hm. eapply triple_eff; [exact Hm|done]. Qed.
(** Quiet code before the code of interest. *)
Lemma triple_skip {A C} P (m : M pkstate A) (f : A → M pkstate C) R : quiet m → (∀ a, triple P (f a) R) → triple P (m ≫= f) R.
Proof. intros Hm Hf. eapply triple_bind; [by apply triple_quiet|done]. Qed.
Lemma triple_pre {A} (P : ktab → Prop) (Q : A → ktab → Prop) m : (∀ k, P k → triple (λ k', k' = k) m Q) → triple P m Q.
Proof. intros H s a s' HP Hm. by eapply H. Qed.

Lemma triple_getp {C} P i (f : proc → M pkstate C) R :
  (∀ p, triple (λ k, P k ∧ key p = kt k !!! i) (f p) R) → (∀ k, P k → (i < length (kt k))%nat) → triple P (gets (getp i) ≫= f) R.
Proof.
  intros Hf Hi s c s' HP H. rewrite bind_gets in H. eapply Hf; [|exact H]. split; [done|]. specialize (Hi _ HP). cbn [kt tkey] in *.
  rewrite length_fmap in Hi. destruct (lookup_lt_is_Some_2 _ _ Hi) as [p Hp]. unfold getp.
  rewrite (list_lookup_total_correct _ _ _ Hp), (list_lookup_total_correct _ _ (key p)); [done|]. by rewrite list_lookup_fmap, Hp.
Qed.
Lemma triple_initproc {C} P (f : option nat → M pkstate C) R : (∀ o, triple (λ k, P k ∧ o = k_init k) (f o) R) → triple P (gets initproc ≫= f) R.
Proof. intros Hf s c s' HP H. rewrite bind_gets in H. by eapply Hf; [|exact H]. Qed.

(** ** Quiet code *)

Lemma quiet_ret {A} (a : A) : quiet (mret a).
Proof. by intros s b s' [= <- <-]. Qed.
Lemma quiet_bind {A C} (m : M pkstate A) (f : A → M pkstate C) : quiet m → (∀ a, quiet (f a)) → quiet (m ≫= f).
Proof. intros Hm Hf s c s' H. apply bind_Ret_inv in H as (a & s1 & H1 & H2). by rewrite (Hf _ _ _ _ H2), (Hm _ _ _ H1). Qed.
Lemma quiet_gets {A} (f : pkstate → A) : quiet (gets f).
Proof. by intros s a s' [= <- <-]. Qed.
Lemma quiet_panic {A} msg : quiet (panic msg : M pkstate A).
Proof. by intros s a s'. Qed.
Lemma quiet_modify f : (∀ s, tkey (f s) = tkey s) → quiet (modify f).
Proof. intros H s a s' [= <- <-]. apply H. Qed.
Lemma quiet_mm {A} (m : M mstate A) : quiet (mm m).
Proof. intros s a s' H. by apply zoom_Ret_inv in H as (t & _ & ->). Qed.
Lemma quiet_files {A} (m : M fl_state A) : quiet (files m).
Proof. intros s a s' H. by apply zoom_Ret_inv in H as (t & _ & ->). Qed.

Lemma tkey_alter f g i s : (∀ p, key (f p) = g (key p)) → tkey (set_ptable (alter f i (ptable s)) s) = KT (alter g i (kt (tkey s))) (nextpid s) (initproc s).
Proof.
  intros H. unfold tkey. cbn. f_equal. apply list_eq. intros j. rewrite list_lookup_fmap. destruct (decide (j = i)) as [->|].
  - rewrite !list_lookup_alter_eq, list_lookup_fmap. destruct (ptable s !! i) as [p|]; [|done]. cbn. by rewrite H.
  - by rewrite !list_lookup_alter_ne, list_lookup_fmap.
Qed.
Lemma eff_updp i f g : (∀ p, key (f p) = g (key p)) → eff (updp i f) (λ k, KT (alter g i (kt k)) (k_next k) (k_init k)).
Proof. intros H s a s' [= <- <-]. by apply tkey_alter. Qed.
Lemma alter_same {A} (l : list A) i : alter (λ x, x) i l = l.
Proof. by apply list_alter_id. Qed.
Lemma quiet_updp i f : (∀ p, key (f p) = key p) → quiet (updp i f).
Proof. intros H s a s' Hs. rewrite (eff_updp i f (λ e, e) H _ _ _ Hs), alter_same. by destruct (tkey s). Qed.

Lemma eff_ext {A} (m : M pkstate A) f g : eff m f → (∀ k, f k = g k) → eff m g.
Proof. intros Hm H s a s' Hs. rewrite (Hm _ _ _ Hs). apply H. Qed.
Lemma eff_bind {A C} (m : M pkstate A) (h : A → M pkstate C) f g : eff m f → (∀ a, eff (h a) g) → eff (m ≫= h) (λ k, g (f k)).
Proof. intros Hm Hf s c s' H. apply bind_Ret_inv in H as (a & s1 & H1 & H2). by rewrite (Hf _ _ _ _ H2), (Hm _ _ _ H1). Qed.
Lemma eff_skip {A C} (m : M pkstate A) (h : A → M pkstate C) g : quiet m → (∀ a, eff (h a) g) → eff (m ≫= h) g.
Proof. intros Hm Hf. exact (eff_bind m h (λ k, k) g Hm Hf). Qed.

(** Locks. *)
Lemma quiet_acquire get set : (∀ b s, tkey (set b s) = tkey s) → quiet (lock get set).
Proof.
  intros H. unfold lock, hpush, acquire_flag. apply quiet_bind; [by apply quiet_modify|]. intros _.
  apply quiet_bind; [apply quiet_gets|]. intros b. destruct b; [apply quiet_panic || (intros ? ? ? ?; discriminate)|by apply quiet_modify].
Qed.
Lemma quiet_hpop : quiet hpop.
Proof.
  unfold hpop. apply quiet_bind; [apply quiet_gets|]. intros c. destruct (sie c); [apply quiet_panic|].
  destruct (_ <? _); [apply quiet_panic|by apply quiet_modify].
Qed.
Lemma quiet_release get set : (∀ b s, tkey (set b s) = tkey s) → quiet (unlock get set).
Proof.
  intros H. unfold unlock, release_flag. apply quiet_bind; [|intros _; apply quiet_hpop].
  apply quiet_bind; [apply quiet_gets|]. intros b. destruct b; cbn; [by apply quiet_modify|apply quiet_panic].
Qed.
Lemma tkey_set_plock i b s : tkey (set_plock i b s) = tkey s.
Proof. unfold set_plock. rewrite (tkey_alter _ (λ e, e)) by done. rewrite alter_same. done. Qed.
Lemma quiet_plock i : quiet (plock i).
Proof. apply quiet_acquire. intros b s. apply tkey_set_plock. Qed.
Lemma quiet_punlock i : quiet (punlock i).
Proof. apply quiet_release. intros b s. apply tkey_set_plock. Qed.
Lemma quiet_wait_lock : quiet (lock wait_lock set_wait_lock).
Proof. by apply quiet_acquire. Qed.
Lemma quiet_wait_unlock : quiet (unlock wait_lock set_wait_lock).
Proof. by apply quiet_release. Qed.
End logic.

Create HintDb quiet.
#[export] Hint Resolve quiet_ret quiet_gets quiet_panic quiet_mm quiet_files quiet_plock quiet_punlock quiet_wait_lock quiet_wait_unlock : quiet.

(** [quiet_tac]: code that does not touch states, pids and parents. *)
Ltac quiet_tac :=
  repeat first
    [ solve [eauto 2 with quiet]
    | apply quiet_bind; [|intros ?]
    | apply quiet_updp; intros; reflexivity
    | apply quiet_modify; intros; reflexivity
    | match goal with |- quiet (match ?x with _ => _ end) => destruct x end ].

(** ** The functions of proc.c *)

Section ops.
Context {I : image} {PA : PageAllocator} {FL : FileLayer}.

Lemma quiet_killed i : quiet (killed i).
Proof. unfold killed. quiet_tac. Qed.
Lemma quiet_setkilled i : quiet (setkilled i).
Proof. unfold setkilled. quiet_tac. Qed.
Lemma quiet_sched_before i : quiet (sched_before i).
Proof. unfold sched_before. quiet_tac. Qed.
Lemma quiet_sched_after ie : quiet (sched_after ie).
Proof. unfold sched_after. quiet_tac. Qed.
Lemma quiet_growproc me n : quiet (growproc me n).
Proof. unfold growproc. quiet_tac. Qed.
Lemma quiet_scheduler_back i : quiet (scheduler_back i).
Proof. unfold scheduler_back. quiet_tac. Qed.
Lemma quiet_yield_after me ie : quiet (yield_after me ie).
Proof. unfold yield_after, sched_after. quiet_tac. Qed.
Lemma quiet_fork_files k fd me np : quiet (fork_files k fd me np).
Proof. revert fd. induction k as [|k IH]; intros fd; cbn [fork_files]; quiet_tac; try apply IH. Qed.
Lemma quiet_exit_files k fd me : quiet (exit_files k fd me).
Proof. revert fd. induction k as [|k IH]; intros fd; cbn [exit_files]; quiet_tac; try apply IH. Qed.
#[local] Hint Resolve quiet_killed quiet_sched_before quiet_sched_after quiet_fork_files quiet_exit_files : quiet.
Lemma quiet_sleep_after me ie (lk : M pkstate unit) : quiet lk → quiet (sleep_after me ie lk).
Proof. intros H. unfold sleep_after. quiet_tac. Qed.

(** The entry of index [i], known to be in the table. *)
Lemma lookup_kt k i e : (i < length (kt k))%nat → e = kt k !!! i → kt k !! i = Some e.
Proof. intros Hi ->. by apply list_lookup_lookup_total_lt. Qed.
Lemma alter_kset i g k e : kt k !! i = Some e → KT (alter g i (kt k)) (k_next k) (k_init k) = kset i (g e) k.
Proof.
  intros Hi. unfold kset. f_equal. apply list_eq. intros j. destruct (decide (j = i)) as [->|].
  - by rewrite list_lookup_alter_eq, list_lookup_insert_eq, Hi by (by eapply lookup_lt_Some).
  - by rewrite list_lookup_alter_ne, list_lookup_insert_ne.
Qed.

Definition set_kstate (st : procstate) (e : kentry) : kentry := KE st (k_pid e) (k_parent e).

(** A table in which [me] can run. *)
Definition live (me : nat) (k : ktab) : Prop := ktab_ok k ∧ alive (kt k) me.

Lemma alive_kset_state i e st k j : kt k !! i = Some e → st ≠ UNUSED → st ≠ ZOMBIE → alive (kt k) j → alive (kt (kset i (set_kstate st e) k)) j.
Proof. intros Hi H1 H2 Ha. cbn [kt kset]. destruct (decide (j = i)) as [->|]; [by eapply alive_set_eq|by apply alive_set_ne]. Qed.

Lemma alive_lookup t i : alive t i → ∃ e, t !! i = Some e ∧ k_state e ≠ UNUSED ∧ k_state e ≠ ZOMBIE.
Proof. done. Qed.

(** A process that is alive changes its own state to another live one. *)
Lemma set_own_state me j st : st ≠ UNUSED → st ≠ ZOMBIE → triple (λ k, live me k ∧ alive (kt k) j) (updp me (p_set_state st)) (λ _ k, live me k ∧ alive (kt k) j).
Proof.
  intros H1 H2. eapply triple_eff; [by apply (eff_updp me _ (set_kstate st))|]. intros _ k [[Hok (e & He & Hu & Hz)] Hj].
  rewrite (alter_kset _ _ _ _ He). split; [split|].
  - by eapply ok_state.
  - eapply alive_kset_state; [done..|]. by exists e.
  - by eapply alive_kset_state.
Qed.

(** The loops that wake up processes. *)
Definition steady (k : ktab) (k' : ktab) : Prop := (* [k'] is [k] with sleepers made runnable *)
  ktab_ok k → ktab_ok k' ∧ (∀ j, alive (kt k) j → alive (kt k') j) ∧ k_init k' = k_init k ∧ k_next k' = k_next k ∧
  ∀ j e', kt k' !! j = Some e' → ∃ e, kt k !! j = Some e ∧ k_parent e' = k_parent e ∧ (k_state e' = UNUSED ∨ k_state e' = ZOMBIE → k_state e' = k_state e).

Lemma steady_refl k : steady k k.
Proof. intros Hok. split_and!; try done. intros j e He. by exists e. Qed.
Lemma steady_trans k1 k2 k3 : steady k1 k2 → steady k2 k3 → steady k1 k3.
Proof.
  intros H1 H2 Hok. destruct (H1 Hok) as (Hok2 & Ha & Hi & Hn & He). destruct (H2 Hok2) as (Hok3 & Ha' & Hi' & Hn' & He'). split_and!; try done.
  - intros j Hj. by apply Ha', Ha.
  - congruence.
  - congruence.
  - intros j e3 Hj. destruct (He' j e3 Hj) as (e2 & Hj2 & Hp2 & Hs2). destruct (He j e2 Hj2) as (e1 & Hj1 & Hp1 & Hs1).
    exists e1. split_and!; [done|congruence|]. intros Hs. pose proof (Hs2 Hs) as Heq. rewrite Heq in Hs |- *. by apply Hs1.
Qed.

Lemma steady_wake i e k : kt k !! i = Some e → k_state e = SLEEPING → steady k (kset i (set_kstate RUNNABLE e) k).
Proof.
  intros Hi Hs Hok. split_and!; try done.
  - by eapply ok_state; rewrite ?Hs.
  - intros j Hj. by eapply alive_kset_state.
  - intros j e' Hj. cbn [kt kset] in Hj. destruct (lookup_set _ _ _ _ _ _ Hi Hj) as [[-> ->]|[_ Hj']]; [|by exists e'].
    exists e. split_and!; try done. by intros [?|?].
Qed.

(** Code that only wakes up processes. *)
Definition waker {A} (m : M pkstate A) : Prop := ∀ k0, triple (λ k, steady k0 k ∧ ktab_ok k0) m (λ _ k, steady k0 k ∧ ktab_ok k0).

Lemma waker_quiet {A} (m : M pkstate A) : quiet m → waker m.
Proof. intros H k0. by apply triple_quiet. Qed.
Lemma waker_bind {A C} (m : M pkstate A) (f : A → M pkstate C) : waker m → (∀ a, waker (f a)) → waker (m ≫= f).
Proof. intros Hm Hf k0. eapply triple_bind; [apply Hm|]. intros a. apply Hf. Qed.
Lemma steady_len k0 k : steady k0 k → ktab_ok k0 → length (kt k) = NPROC.
Proof. intros H Hok. destruct (H Hok) as (Hk & _). by destruct Hk. Qed.

(** [if(p->state == SLEEPING ...) p->state = RUNNABLE;] *)
Lemma waker_cond {C} i (test : proc → Prop) (Hd : ∀ p, Decision (test p)) (f : proc → M pkstate C) : (i < NPROC)%nat → (∀ p, test p → p_state p = SLEEPING) →
  (∀ p, waker (f p)) →
  waker (p ← gets (getp i); (if decide (test p) then updp i (p_set_state RUNNABLE) else mret tt);; f p).
Proof.
  intros Hi Ht Hf k0. apply triple_getp.
  - intros p. eapply triple_bind with (Q := λ _ k, steady k0 k ∧ ktab_ok k0); [|intros _; apply Hf]. destruct (decide (test p)) as [Hp|].
    + eapply triple_eff; [by apply (eff_updp i _ (set_kstate RUNNABLE))|]. intros _ k [[Hs Hok] Hkey].
      assert (He : kt k !! i = Some (key p)) by (apply lookup_kt; [by rewrite (steady_len k0 k)|done]). rewrite (alter_kset _ _ _ _ He).
      split; [|done]. eapply steady_trans; [done|]. apply steady_wake; [done|]. by apply Ht.
    + apply triple_ret. by intros k [? _].
  - intros k [Hs Hok]. by rewrite (steady_len k0 k).
Qed.

Lemma waker_wakeup_loop k i me c : (i + k ≤ NPROC)%nat → waker (wakeup_loop k i me c).
Proof.
  revert i. induction k as [|k IH]; intros i Hi; cbn [wakeup_loop]; [by apply waker_quiet, quiet_ret|].
  apply waker_bind; [|intros _; apply IH; lia]. unfold wakeup_one. case_decide; [by apply waker_quiet, quiet_ret|].
  apply waker_bind; [apply waker_quiet, quiet_plock|]. intros _. apply (waker_cond i (λ p, p_state p = SLEEPING ∧ p_chan p = Some c)).
  - lia.
  - by intros p [? _].
  - intros p. apply waker_quiet, quiet_punlock.
Qed.
Lemma waker_wakeup_proc me o : waker (wakeup_proc me o).
Proof. destruct o; [by apply waker_wakeup_loop|by apply waker_quiet, quiet_ret]. Qed.

Lemma waker_triple {A} (m : M pkstate A) (P : ktab → Prop) (Q : A → ktab → Prop) : waker m → (∀ k, P k → ktab_ok k) →
  (∀ a k k', P k → steady k k' → Q a k') → triple P m Q.
Proof.
  intros Hm HP HQ s a s' Hs Hr. eapply HQ; [exact Hs|]. eapply Hm; [|exact Hr]. split; [apply steady_refl|by apply HP].
Qed.

(** *** Allocation *)

Lemma alter_twice (g h : kentry → kentry) (i : nat) (t : list kentry) : alter g i (alter h i t) = alter (λ e, g (h e)) i t.
Proof. revert t. induction i as [|i IH]; intros [|e t]; cbn; [done..|]. f_equal. apply IH. Qed.

Lemma eff_freeproc i : eff (freeproc i) (λ k, KT (alter (λ _, KE UNUSED 0 None) i (kt k)) (k_next k) (k_init k)).
Proof.
  unfold freeproc. repeat (apply eff_skip; [solve [quiet_tac]|intros ?]).
  eapply eff_ext.
  - eapply eff_bind; [by apply (eff_updp i _ (λ e, KE (k_state e) 0 (k_parent e)))|]. intros _.
    eapply eff_bind; [by apply (eff_updp i _ (λ e, KE (k_state e) (k_pid e) None))|]. intros _.
    repeat (apply eff_skip; [solve [quiet_tac]|intros ?]). by apply (eff_updp i _ (set_kstate UNUSED)).
  - intros k. cbn [kt k_next k_init]. by rewrite !alter_twice.
Qed.

(** allocpid() below the largest int. *)
Lemma allocpid_key k0 : 1 ≤ k_next k0 < 2 ^ 31 - 1 →
  triple (λ k, k = k0) allocpid (λ pid k, pid = k_next k0 ∧ k = KT (kt k0) (k_next k0 + 1) (k_init k0)).
Proof.
  intros Hn s a s' Hk H. unfold allocpid in H. apply bind_Ret_inv in H as ([] & s1 & H1 & H).
  assert (Hq : tkey s1 = k0) by (rewrite <- Hk; exact (quiet_acquire pid_lock set_pid_lock (λ _ _, eq_refl) _ _ _ H1)).
  rewrite bind_gets in H. apply bind_Ret_inv in H as ([] & s2 & [= <-] & H). apply bind_Ret_inv in H as ([] & s3 & H3 & [= <- <-]).
  rewrite (quiet_release pid_lock set_pid_lock (λ _ _, eq_refl) _ _ _ H3). clear Hk. subst k0. split; [done|]. unfold tkey at 1. cbn. f_equal. apply i32_id.
  cbn [k_next tkey] in Hn. lia.
Qed.

Lemma allocproc_find_key k0 n i : (i + n ≤ length (kt k0))%nat →
  triple (λ k, k = k0) (allocproc_find n i) (λ r k, k = k0 ∧ ∀ j, r = Some j → ∃ e, kt k0 !! j = Some e ∧ k_state e = UNUSED).
Proof.
  revert i. induction n as [|n IH]; intros i Hi; cbn [allocproc_find].
  - apply triple_ret. by intros k ->.
  - apply triple_skip; [apply quiet_plock|]. intros _. apply triple_getp; [|intros k ->; lia]. intros p. case_decide as Hp.
    + apply triple_ret. intros k [-> He]. split; [done|]. intros j [= <-]. exists (key p). split; [|done]. apply lookup_kt; [lia|done].
    + apply triple_skip; [apply quiet_punlock|]. intros _. eapply triple_conseq; [apply IH; lia| |done]. by intros k [? _].
Qed.

(** The table after allocproc() has taken the entry [i]. *)
Definition taken (i : nat) (k : ktab) : ktab := KT (<[i := KE USED (k_next k) None]> (kt k)) (k_next k + 1) (k_init k).
Definition advanced (k : ktab) : ktab := KT (kt k) (k_next k + 1) (k_init k).

Lemma ok_advanced k : ktab_ok k → ktab_ok (advanced k).
Proof.
  intros []. split; cbn [kt k_next k_init advanced]; try done; [lia|].
  intros i e Hi Hu. pose proof (ko_used0 i e Hi Hu). lia.
Qed.

Lemma free_taken i e k : ktab_ok k → kt k !! i = Some e → k_state e = UNUSED →
  KT (alter (λ _, KE UNUSED 0 None) i (kt (taken i k))) (k_next (taken i k)) (k_init (taken i k)) = advanced k.
Proof.
  intros Hok Hi Hu. destruct (ko_free _ Hok _ _ Hi Hu) as [Hpid Hpar]. unfold advanced. f_equal.
  apply list_eq. intros j. cbn [kt taken]. destruct (decide (j = i)) as [->|].
  - rewrite list_lookup_alter_eq, list_lookup_insert_eq by (by eapply lookup_lt_Some). rewrite Hi. cbn. f_equal.
    destruct e as [st pid par]. cbn in *. congruence.
  - by rewrite list_lookup_alter_ne, list_lookup_insert_ne.
Qed.

Definition alloc_post (k0 : ktab) (r : option nat) (k : ktab) : Prop :=
  match r with
  | Some i => k = taken i k0 ∧ ∃ e, kt k0 !! i = Some e ∧ k_state e = UNUSED
  | None => k = k0 ∨ k = advanced k0
  end.

Lemma allocproc_key forkret k0 : ktab_ok k0 → k_next k0 < 2 ^ 31 - 1 →
  triple (λ k, k = k0) (allocproc forkret) (alloc_post k0).
Proof.
  intros Hok Hn. pose proof (ko_next _ Hok). unfold allocproc. eapply triple_bind.
  { apply (allocproc_find_key k0). by rewrite (ko_len _ Hok). }
  intros [i|]; [|apply triple_ret; intros k [-> _]; by left].
  apply triple_pre. intros k [-> Hr]. destruct (Hr i eq_refl) as (e & He & Hu).
  eapply triple_bind; [by apply allocpid_key|]. intros pid.
  assert (Hfail : triple (λ k, k = taken i k0) (freeproc i;; punlock i;; mret None) (alloc_post k0)).
  { eapply triple_bind; [eapply (triple_eff _ (λ _ k, k = advanced k0)); [apply eff_freeproc|]|intros []].
    - intros ? k ->. by eapply free_taken.
    - apply triple_skip; [apply quiet_punlock|]. intros _. apply triple_ret. by right. }
  eapply triple_bind; [eapply (triple_eff _ (λ _ k, pid = k_next k0 ∧ k = KT (alter (λ e, KE (k_state e) pid (k_parent e)) i (kt k0)) (k_next k0 + 1) (k_init k0)));
    [by apply (eff_updp i _ (λ e, KE (k_state e) pid (k_parent e)))|by intros ? k [-> ->]]|intros []].
  eapply triple_bind; [eapply (triple_eff _ (λ _ k, k = taken i k0)); [by apply (eff_updp i _ (set_kstate USED))|]|intros []].
  { intros ? k [-> ->]. unfold taken. cbn [kt k_next k_init]. f_equal. rewrite alter_twice.
    destruct (ko_free _ Hok _ _ He Hu) as [_ Hpar].
    pose proof (alter_kset i (λ e, set_kstate USED (KE (k_state e) (k_next k0) (k_parent e))) k0 e He) as Ha. injection Ha as ->.
    f_equal. unfold set_kstate. cbn. by rewrite Hpar. }
  apply triple_skip; [quiet_tac|]. intros tf. apply triple_skip; [quiet_tac|]. intros _. destruct (tf =? 0); [exact Hfail|].
  apply triple_skip; [quiet_tac|]. intros pt. apply triple_skip; [quiet_tac|]. intros _. destruct (pt =? 0); [exact Hfail|].
  apply triple_skip; [quiet_tac|]. intros _. apply triple_ret. intros k ->. split; [done|by exists e].
Qed.

(** An update of the entry [e] of a known table. *)
Lemma updp_key i f g k0 e : (∀ p, key (f p) = g (key p)) → kt k0 !! i = Some e →
  triple (λ k, k = k0) (updp i f) (λ _ k, k = kset i (g e) k0).
Proof. intros Hf He. eapply triple_eff; [by apply (eff_updp i f g)|]. intros ? k ->. by apply alter_kset. Qed.
Lemma kset_at i e e' k : kt k !! i = Some e → kt (kset i e' k) !! i = Some e'.
Proof. intros Hi. cbn [kt kset]. by rewrite list_lookup_insert_eq by (by eapply lookup_lt_Some). Qed.

(** *** userinit, fork *)

Lemma triple_userinit forkret initcode name path : triple (λ k, ktab_ok k ∧ k_next k < 2 ^ 31 - 1) (userinit forkret initcode name path) (λ _ k, ktab_ok k).
Proof.
  apply triple_pre. intros k0 [Hok Hn]. unfold userinit. eapply triple_bind; [by apply allocproc_key|]. intros r. cbv beta.
  eapply triple_bind; [eapply (triple_eff _ (λ _ k, ∃ k1, alloc_post k0 r k1 ∧ k = KT (kt k1) (k_next k1) r))|].
  { instantiate (1 := λ k, KT (kt k) (k_next k) r). intros s a s' Hs. injection Hs as <- <-. done. }
  { intros ? k Hk. by exists k. }
  intros []. destruct r as [i|]; [|apply triple_panic]. apply triple_pre. intros k (k1 & [-> (e & He & Hu)] & ->).
  destruct (ok_alloc i e k0 Hok He Hu) as [Hok1 _].
  repeat (apply triple_skip; [solve [quiet_tac]|intros ?]). eapply triple_bind.
  { apply (updp_key i _ (set_kstate RUNNABLE) _ (KE USED (k_next k0) None)); [done|]. by apply (kset_at i e). }
  intros []. eapply triple_conseq; [apply triple_quiet, quiet_punlock|intros k Hk; exact Hk|]. cbv beta. intros _ k ->.
  pose proof (ok_state i _ RUNNABLE _ Hok1 (kset_at i e _ k0 He)) as Hok2. specialize (Hok2 ltac:(done) ltac:(done) ltac:(done)).
  destruct Hok2. split; try done. cbn [k_init kset]. intros j [= <-]. eapply alive_set_eq; [by apply (kset_at i e _ k0 He)|done|done].
Qed.

Lemma triple_fork forkret me : triple (λ k, live me k ∧ k_next k < 2 ^ 31 - 1) (fork forkret me) (λ _ k, ktab_ok k).
Proof.
  apply triple_pre. intros k0 [[Hok Hme] Hn]. unfold fork. eapply triple_bind; [by apply allocproc_key|]. intros [np|]; cbv beta.
  2:{ apply triple_ret. intros k [->| ->]; [done|by apply ok_advanced]. }
  apply triple_pre. intros k [-> (e & He & Hu)]. destruct (ok_alloc np e k0 Hok He Hu) as [Hok1 _]. fold (taken np k0) in Hok1.
  assert (Hne : me ≠ np) by (intros ->; by destruct (alive_at _ _ _ Hme He)).
  assert (Hat : kt (taken np k0) !! np = Some (KE USED (k_next k0) None)) by by apply (kset_at np e).
  assert (Hok2 : ktab_ok (kset np (KE USED (k_next k0) (Some me)) (taken np k0))).
  { apply (ok_parent np (KE USED (k_next k0) None) (Some me) (taken np k0)); try done. intros j [= <-]. by apply alive_set_ne. }
  do 2 (apply triple_skip; [solve [quiet_tac]|intros ?]). apply triple_skip; [solve [quiet_tac]|]. intros r. destruct (r <? 0).
  { eapply triple_bind; [eapply (triple_eff _ (λ _ k, k = advanced k0)); [apply eff_freeproc|]|intros []].
    - intros ? k ->. by eapply free_taken.
    - apply triple_skip; [apply quiet_punlock|]. intros _. apply triple_ret. intros k ->. by apply ok_advanced. }
  repeat (apply triple_skip; [solve [quiet_tac]|intros ?]).
  eapply triple_bind; [eapply (updp_key np _ (λ e, KE (k_state e) (k_pid e) (Some me))); [done|exact Hat]|]. intros []. cbn [k_state k_pid].
  repeat (apply triple_skip; [solve [quiet_tac]|intros ?]).
  eapply triple_bind; [eapply (updp_key np _ (set_kstate RUNNABLE)); [done|exact (kset_at _ _ _ _ Hat)]|]. intros [].
  repeat (apply triple_skip; [solve [quiet_tac]|intros ?]). apply triple_ret. cbv beta. intros k ->.
  eapply (ok_state np (KE USED (k_next k0) (Some me))); try done. exact (kset_at _ _ _ _ Hat).
Qed.

(** *** exit *)

(** [me] may still have children among the entries from [i] on only. *)
Definition reparented (me i : nat) (k : ktab) : Prop :=
  live me k ∧ k_init k ≠ Some me ∧ ∀ j e, (j < i)%nat → kt k !! j = Some e → k_parent e ≠ Some me.

Lemma reparented_steady me i k k' : reparented me i k → steady k k' → reparented me i k'.
Proof.
  intros ([Hok Hme] & Hini & Hc) Hs. destruct (Hs Hok) as (Hok' & Ha & Hi & _ & He). split; [split; auto|]. split; [congruence|].
  intros j e Hj Hje. destruct (He j e Hje) as (e0 & Hje0 & -> & _). by eapply Hc.
Qed.

Lemma reparent_one me i : (i < NPROC)%nat → triple (reparented me i)
  (pp ← gets (getp i);
   if decide (p_parent pp = Some me) then ini ← gets initproc; updp i (p_set_parent ini);; wakeup_proc (Some me) ini else mret tt)
  (λ _, reparented me (S i)).
Proof.
  intros Hi. apply triple_getp; [|intros k [[[] _] _]; lia]. intros p. apply triple_pre. intros k [(Hl & Hini & Hc) Hp].
  assert (He : kt k !! i = Some (key p)) by (apply lookup_kt; [destruct Hl as [[] _]; lia|done]). case_decide as Hpar.
  - apply triple_initproc. intros o. eapply (triple_bind _ (λ _, reparented me (S i))).
    + apply triple_pre. intros ? [-> ->]. destruct Hl as [Hok Hme].
      assert (Hu : k_state (key p) ≠ UNUSED) by (intros Hu; pose proof (ko_free _ Hok _ _ He Hu) as [_ Hn]; cbn in Hn; congruence).
      eapply triple_conseq; [eapply (updp_key i _ (λ e, KE (k_state e) (k_pid e) (k_init k))); [done|exact He]|done|]. cbv beta. intros _ ? ->.
      split; [split|split; [done|]].
      * eapply ok_parent; try done. intros j Hj. exact (ko_init _ Hok _ Hj).
      * cbn [kt kset]. destruct (decide (me = i)) as [->|]; [|by apply alive_set_ne]. destruct (alive_at _ _ _ Hme He).
        by eapply alive_set_eq.
      * intros j e Hj Hje. destruct (lookup_set _ _ _ _ _ _ He Hje) as [[-> ->]|[Hne Hje']]; [done|]. eapply Hc; [|done]. lia.
    + intros []. eapply waker_triple; [apply waker_wakeup_proc|by intros k' [[? _] _]|]. intros ? k1 k2. apply reparented_steady.
  - apply triple_ret. intros ? ->. split; [done|split; [done|]]. intros j e Hj Hje. destruct (decide (j = i)) as [->|].
    + rewrite He in Hje. by injection Hje as <-.
    + eapply Hc; [|done]. lia.
Qed.

Lemma triple_reparent me : triple (λ k, live me k ∧ k_init k ≠ Some me) (reparent me) (λ _ k, live me k ∧ k_init k ≠ Some me ∧ childless me k).
Proof.
  assert (Hloop : ∀ n i, (i + n = NPROC)%nat → triple (reparented me i) (reparent_loop n i me) (λ _, reparented me NPROC)).
  { induction n as [|n IH]; intros i Hi; cbn [reparent_loop]; [apply triple_ret; by replace i with NPROC by lia|].
    intros s a s' HP Hs. apply bind_Ret_inv in Hs as (p & s1 & H1 & H2). apply bind_Ret_inv in H2 as (u & s2 & H2 & H3).
    eapply (IH (S i)); [lia| |exact H3]. eapply (reparent_one me i); [lia|exact HP|]. by rewrite (bind_Ret _ _ _ _ _ H1). }
  eapply triple_conseq; [apply (Hloop NPROC O); lia| |].
  - intros k [Hl Hini]. split; [done|split; [done|lia]].
  - intros a k (Hl & Hini & Hc). split; [done|split; [done|]]. intros j e Hj. eapply Hc; [|done].
    destruct Hl as [[Hlen] _]. rewrite <- Hlen. by eapply lookup_lt_Some.
Qed.

Lemma triple_exit me status : triple (live me) (exit_before me status) (λ _ k, ktab_ok k).
Proof.
  unfold exit_before. apply triple_initproc. intros o. case_decide as Ho; [apply triple_panic|].
  repeat (apply triple_skip; [solve [quiet_tac]|intros ?]).
  eapply triple_bind; [eapply triple_conseq; [apply (triple_reparent me)| |done]|].
  { intros k [Hl ->]. done. }
  intros []. apply triple_skip; [quiet_tac|]. intros p.
  eapply triple_bind; [eapply (waker_triple _ _ (λ _ k, live me k ∧ k_init k ≠ Some me ∧ childless me k)); [apply waker_wakeup_proc|by intros k [[? _] _]|]|].
  { intros ? k k' ([Hok Hme] & Hini & Hc) Hs. destruct (Hs Hok) as (Hok' & Ha & Hi & _ & He). split; [split; auto|]. split; [congruence|].
    intros j e Hj. destruct (He j e Hj) as (e0 & Hj0 & -> & _). by eapply Hc. }
  intros []. cbv beta. do 2 (apply triple_skip; [solve [quiet_tac]|intros ?]).
  apply triple_pre. intros k ([Hok (e & He & Hu & _)] & Hini & Hc).
  eapply triple_bind; [eapply (updp_key me _ (set_kstate ZOMBIE)); [done|exact He]|]. intros [].
  apply triple_skip; [quiet_tac|]. intros _. eapply triple_conseq; [apply triple_quiet; quiet_tac|intros ? Hk; exact Hk|].
  cbv beta. intros _ ? ->. by apply ok_zombie.
Qed.

(** *** wait *)

Lemma triple_freeproc_zombie me i k0 e : live me k0 → kt k0 !! i = Some e → k_state e = ZOMBIE → triple (λ k, k = k0) (freeproc i) (λ _, live me).
Proof.
  intros [Hok Hme] He Hz. eapply triple_eff; [apply eff_freeproc|]. intros _ k ->. rewrite (alter_kset _ _ _ _ He).
  destruct (unused_childless i e k0 Hok He (or_intror Hz)) as [Hc Hini]. split; [by eapply ok_free|].
  apply alive_set_ne; [|done]. intros ->. by destruct (alive_at _ _ _ Hme He).
Qed.

Lemma triple_wait_scan n i me addr hk : (i + n ≤ NPROC)%nat → triple (live me) (wait_scan n i me addr hk) (λ _, live me).
Proof.
  revert i hk. induction n as [|n IH]; intros i hk Hi; cbn [wait_scan]; [by apply triple_ret|].
  apply triple_skip; [quiet_tac|]. intros pp. case_decide; [|apply IH; lia].
  apply triple_skip; [quiet_tac|]. intros _. apply triple_getp; [|intros k [[] _]; lia]. intros p. case_decide as Hz.
  - apply triple_skip; [quiet_tac|]. intros q. apply triple_skip; [quiet_tac|]. intros r. destruct (r <? 0).
    + eapply triple_conseq; [apply triple_quiet; quiet_tac|intros k Hk; exact Hk|]. cbv beta. by intros _ k [? _].
    + eapply (triple_bind _ (λ _, live me)); [|intros []; apply triple_quiet; quiet_tac]. apply triple_pre. intros k [Hl Hp].
      eapply (triple_freeproc_zombie me i k (key p)); [done| |done]. apply lookup_kt; [destruct Hl as [[] _]; lia|done].
  - apply triple_skip; [quiet_tac|]. intros _. eapply triple_conseq; [apply (IH (S i) true); lia| |done]. by intros k [? _].
Qed.

(** *** Giving up the CPU *)

Lemma set_state_ok me st : st ≠ UNUSED → st ≠ ZOMBIE → triple (live me) (updp me (p_set_state st)) (λ _, live me).
Proof.
  intros H1 H2. eapply triple_conseq; [apply (set_own_state me me st H1 H2)| |by intros ? k [? _]].
  intros k [Hok Hme]. done.
Qed.

Lemma triple_sleep_before me c rel : quiet rel → triple (live me) (sleep_before me c rel) (λ _, live me).
Proof.
  intros Hrel. unfold sleep_before. do 3 (apply triple_skip; [solve [quiet_tac]|intros ?]).
  eapply triple_bind; [by apply (set_state_ok me SLEEPING)|]. intros []. apply triple_quiet. quiet_tac.
Qed.
Lemma triple_yield_before me : triple (live me) (yield_before me) (λ _, live me).
Proof.
  unfold yield_before. apply triple_skip; [quiet_tac|]. intros _.
  eapply triple_bind; [by apply (set_state_ok me RUNNABLE)|]. intros []. apply triple_quiet. quiet_tac.
Qed.
Lemma triple_scheduler_try i : (i < NPROC)%nat → triple ktab_ok (scheduler_try i) (λ _, ktab_ok).
Proof.
  intros Hi. unfold scheduler_try. apply triple_skip; [quiet_tac|]. intros _. apply triple_getp; [|intros k []; lia]. intros p.
  case_decide as Hp.
  - apply triple_pre. intros k [Hok He]. assert (Hat : kt k !! i = Some (key p)) by (apply lookup_kt; [destruct Hok; lia|done]).
    eapply triple_bind; [eapply (updp_key i _ (set_kstate RUNNING)); [done|exact Hat]|]. intros [].
    eapply triple_conseq; [apply triple_quiet; quiet_tac|intros ? Hk; exact Hk|]. cbv beta. intros _ ? ->.
    apply ok_state; try done. cbn. by rewrite Hp.
  - eapply triple_conseq; [apply triple_quiet; quiet_tac|intros k Hk; exact Hk|]. cbv beta. by intros _ k [? _].
Qed.

Lemma triple_wait_round me addr : triple (live me) (wait_round me addr) (λ _, live me).
Proof.
  unfold wait_round. eapply triple_bind; [by apply triple_wait_scan|]. intros [v|hk]; [by apply triple_ret|].
  apply triple_skip; [destruct hk; quiet_tac|]. intros b. destruct (_ || _); [apply triple_quiet; quiet_tac|].
  eapply triple_bind; [apply triple_sleep_before; quiet_tac|]. intros ie. by apply triple_ret.
Qed.

(** *** kill *)

Lemma waker_kill_loop n i pid : (i + n ≤ NPROC)%nat → waker (kill_loop n i pid).
Proof.
  revert i. induction n as [|n IH]; intros i Hi k0; cbn [kill_loop]; [by apply triple_ret|].
  apply triple_skip; [quiet_tac|]. intros _. apply triple_getp; [|intros k [Hs Hok]; rewrite (steady_len k0 k Hs Hok); lia]. intros p.
  destruct (p_pid p =? pid).
  - apply triple_skip; [quiet_tac|]. intros _. eapply (triple_bind _ (λ _ k, steady k0 k ∧ ktab_ok k0)); [|intros []; apply triple_quiet; quiet_tac].
    case_decide as Hp; [|apply triple_ret; by intros k [? _]]. apply triple_pre. intros k [[Hs Hok] He].
    assert (Hat : kt k !! i = Some (key p)) by (apply lookup_kt; [rewrite (steady_len k0 k Hs Hok); lia|done]).
    eapply triple_conseq; [eapply (updp_key i _ (set_kstate RUNNABLE)); [done|exact Hat]|intros ? Hk; exact Hk|]. cbv beta. intros ? ? ->.
    split; [|done]. eapply steady_trans; [done|]. by apply steady_wake.
  - apply triple_skip; [quiet_tac|]. intros _. eapply triple_conseq; [apply (IH (S i)); lia| |intros ? k Hk; exact Hk]. by intros k [? _].
Qed.
Lemma waker_ok {A} (m : M pkstate A) : waker m → triple ktab_ok m (λ _, ktab_ok).
Proof. intros Hm. eapply waker_triple; [done|done|]. intros ? k k' Hok Hs. by destruct (Hs Hok). Qed.

(** *** procinit *)

Definition blank (k : ktab) : Prop := kt k = replicate NPROC (KE UNUSED 0 None) ∧ k_next k = 1 ∧ k_init k = None.

Lemma blank_ok k : blank k → ktab_ok k.
Proof.
  intros (Ht & Hn & Hi). split; rewrite ?Ht, ?Hn, ?Hi; try done.
  - by intros i e [-> _]%lookup_replicate.
  - by intros i e [-> _]%lookup_replicate.
  - by intros i j e f [-> _]%lookup_replicate.
  - by intros i e j [-> _]%lookup_replicate.
Qed.

Lemma alter_replicate {A} (g : A → A) n i x : g x = x → alter g i (replicate n x) = replicate n x.
Proof. intros Hg. revert i. induction n as [|n IH]; intros [|i]; cbn; [done..|by rewrite Hg|]. f_equal. apply IH. Qed.

Lemma triple_procinit : triple blank procinit (λ _, blank).
Proof.
  assert (Hloop : ∀ n i, triple blank (procinit_loop n i) (λ _, blank)).
  { induction n as [|n IH]; intros i; cbn [procinit_loop]; [by apply triple_ret|].
    eapply (triple_bind _ (λ _, blank)); [|intros []; apply IH]. eapply triple_eff; [by apply (eff_updp i _ (set_kstate UNUSED))|].
    intros _ k (Ht & Hn & Hi). split; [|done]. cbn [kt]. by rewrite Ht, alter_replicate. }
  unfold procinit. do 2 (apply triple_skip; [solve [quiet_tac]|intros ?]). apply Hloop.
Qed.

(** ** Histories of the kernel *)

(** The process [me] runs, on some hart. *)
Definition running (me : nat) (s : pkstate) : Prop := ∃ p, ptable s !! me = Some p ∧ p_state p = RUNNING.

(** A completed call of a function of proc.c, or the part of it up to or after
    the swtch() inside it.  The lock that sleep() lets go of is not in the
    table of processes. *)
Inductive proc_step (forkret : Z) : pkstate → pkstate → Prop :=
  | step_userinit initcode name path u s s' : userinit forkret initcode name path s = Ret u s' → proc_step forkret s s'
  | step_fork me r s s' : running me s → fork forkret me s = Ret r s' → proc_step forkret s s'
  | step_exit me status r s s' : running me s → exit_before me status s = Ret r s' → proc_step forkret s s'
  | step_wait me addr r s s' : running me s → wait me addr s = Ret r s' → proc_step forkret s s'
  | step_wait_again me addr ie r s s' : running me s → wait_again me addr ie s = Ret r s' → proc_step forkret s s'
  | step_sleep me c rel r s s' : quiet rel → running me s → sleep_before me c rel s = Ret r s' → proc_step forkret s s'
  | step_awake me ie acq r s s' : quiet acq → running me s → sleep_after me ie acq s = Ret r s' → proc_step forkret s s'
  | step_yield me r s s' : running me s → yield_before me s = Ret r s' → proc_step forkret s s'
  | step_yielded me ie r s s' : running me s → yield_after me ie s = Ret r s' → proc_step forkret s s'
  | step_forkret me first r s s' : running me s → forkret_body me first s = Ret r s' → proc_step forkret s s'
  | step_grow me n r s s' : running me s → growproc me n s = Ret r s' → proc_step forkret s s'
  | step_wakeup me c r s s' : wakeup me c s = Ret r s' → proc_step forkret s s'
  | step_kill pid r s s' : kill pid s = Ret r s' → proc_step forkret s s'
  | step_setkilled i r s s' : setkilled i s = Ret r s' → proc_step forkret s s'
  | step_killed i r s s' : killed i s = Ret r s' → proc_step forkret s s'
  | step_scheduler i r s s' : (i < NPROC)%nat → scheduler_try i s = Ret r s' → proc_step forkret s s'
  | step_scheduled i r s s' : scheduler_back i s = Ret r s' → proc_step forkret s s'.

(** What the kernel reaches from the zeroed table, as long as pids fit an int. *)
Inductive table_reach (forkret : Z) : pkstate → Prop :=
  | table_reach_boot s0 s u : ptable s0 = replicate NPROC proc0 → nextpid s0 = 1 → initproc s0 = None → procinit s0 = Ret u s → table_reach forkret s
  | table_reach_step s s' : table_reach forkret s → nextpid s < 2 ^ 31 - 1 → proc_step forkret s s' → table_reach forkret s'.

Lemma running_live me s : running me s → ktab_ok (tkey s) → live me (tkey s).
Proof. intros (p & Hp & Hs) Hok. split; [done|]. exists (key p). cbn. by rewrite list_lookup_fmap, Hp, Hs. Qed.

Lemma quiet_ok {A} (m : M pkstate A) : quiet m → triple ktab_ok m (λ _, ktab_ok).
Proof. apply triple_quiet. Qed.
Lemma live_ok {A} (m : M pkstate A) me s a s' : triple (live me) m (λ _, live me) → running me s → ktab_ok (tkey s) → m s = Ret a s' → ktab_ok (tkey s').
Proof. intros Hm Hr Hok Hs. by destruct (Hm s a s' (running_live _ _ Hr Hok) Hs). Qed.

Lemma proc_step_ok forkret s s' : ktab_ok (tkey s) → nextpid s < 2 ^ 31 - 1 → proc_step forkret s s' → ktab_ok (tkey s').
Proof.
  intros Hok Hn Hs. revert Hok Hn. destruct Hs as [ini name path u s1 s2 H|me r s1 s2 Hr H|me st r s1 s2 Hr H|me addr r s1 s2 Hr H|me addr ie r s1 s2 Hr H|me c rel r s1 s2 Hq Hr H
    |me ie acq r s1 s2 Hq Hr H|me r s1 s2 Hr H|me ie r s1 s2 Hr H|me first r s1 s2 Hr H|me n r s1 s2 Hr H|me c r s1 s2 H|pid r s1 s2 H|i r s1 s2 H|i r s1 s2 H|i r s1 s2 Hi H|i r s1 s2 H]; intros Hok Hn.
  - eapply triple_userinit; [|exact H]. by split.
  - eapply triple_fork; [|exact H]. split; [by apply running_live|done].
  - eapply triple_exit; [|exact H]. by apply running_live.
  - eapply live_ok; [|done..]. unfold wait. apply triple_skip; [quiet_tac|intros _; apply triple_wait_round].
  - eapply live_ok; [|done..]. unfold wait_again. apply triple_skip; [apply quiet_sleep_after; quiet_tac|intros _; apply triple_wait_round].
  - eapply live_ok; [|done..]. by apply triple_sleep_before.
  - eapply (quiet_ok (sleep_after me ie acq)); [by apply quiet_sleep_after|done..].
  - eapply live_ok; [|done..]. apply triple_yield_before.
  - eapply (quiet_ok (yield_after me ie)); [apply quiet_yield_after|done..].
  - eapply (quiet_ok (forkret_body me first)); [unfold forkret_body; quiet_tac|done..].
  - eapply (quiet_ok (growproc me n)); [apply quiet_growproc|done..].
  - eapply (waker_ok (wakeup me c)); [by apply waker_wakeup_loop|done..].
  - eapply (waker_ok (kill pid)); [by apply waker_kill_loop|done..].
  - eapply (quiet_ok (setkilled i)); [apply quiet_setkilled|done..].
  - eapply (quiet_ok (killed i)); [apply quiet_killed|done..].
  - eapply triple_scheduler_try; [exact Hi|done|exact H].
  - eapply (quiet_ok (scheduler_back i)); [apply quiet_scheduler_back|done..].
Qed.

Lemma table_reach_ok forkret s : table_reach forkret s → ktab_ok (tkey s).
Proof.
  induction 1 as [s0 s u Ht Hn Hi H|s s' _ IH Hn Hs]; [|by eapply proc_step_ok].
  apply blank_ok. eapply triple_procinit; [|exact H]. split; [|done]. cbn [kt tkey]. by rewrite Ht.
Qed.

Lemma key_at s i p : ptable s !! i = Some p → kt (tkey s) !! i = Some (key p).
Proof. intros Hp. cbn [kt tkey]. by rewrite list_lookup_fmap, Hp. Qed.
Lemma alive_proc s j : alive (kt (tkey s)) j → ∃ q, ptable s !! j = Some q ∧ p_state q ≠ UNUSED ∧ p_state q ≠ ZOMBIE.
Proof.
  intros (e & He & Hu). cbn [kt tkey] in He. rewrite list_lookup_fmap in He. destruct (ptable s !! j) as [q|] eqn:Hq; [|done].
  injection He as <-. by exists q.
Qed.

(** C6: in every history of calls of proc.c, from procinit() on and as long as
    the pids fit an int, the process table is well formed: a process in use
    has a pid that is positive, below nextpid and no other entry's; an unused
    entry has pid 0 and no parent (its other fields may be anything: kill(0)
    sets killed in one); a parent, like initproc, is an entry in use whose
    process has not exited, so that no pointer of the table is to an entry
    that was freed. *)
Theorem process_table_invariant forkret s : table_reach forkret s →
  length (ptable s) = NPROC ∧
  (∀ i p, ptable s !! i = Some p → if decide (p_state p = UNUSED) then p_pid p = 0 ∧ p_parent p = None else 1 ≤ p_pid p < nextpid s) ∧
  (∀ i j p q, ptable s !! i = Some p → ptable s !! j = Some q → p_state p ≠ UNUSED → p_pid p = p_pid q → i = j) ∧
  (∀ j, (∃ i p, ptable s !! i = Some p ∧ p_parent p = Some j) ∨ initproc s = Some j →
     ∃ q, ptable s !! j = Some q ∧ p_state q ≠ UNUSED ∧ p_state q ≠ ZOMBIE).
Proof.
  intros Hr. pose proof (table_reach_ok _ _ Hr) as []. split_and!.
  - by rewrite <- (length_fmap key).
  - intros i p Hp%key_at. case_decide as Hu; [exact (ko_free0 _ _ Hp Hu)|exact (ko_used0 _ _ Hp Hu)].
  - intros i j p q Hp%key_at Hq%key_at. exact (ko_uniq0 i j _ _ Hp Hq).
  - intros j [(i & p & Hp%key_at & Hj)|Hj]; apply alive_proc; [by eapply ko_parent0|by apply ko_init0].
Qed.

(** kill(0) finds the first unused entry, since unused entries have pid 0: it
    returns 0 as if it had killed a process, and sets killed in that entry.
    allocproc() takes the same entry and does not clear the flag, so that the
    next process made is killed before it has run. *)
Theorem kill_zero_born_killed forkret s i q : table_reach forkret s → unlocked s → noff (hart s) = 0 → pid_lock s = false →
  list_find unused (ptable s) = Some (i, q) → ∃ s', kill 0 s = Ret 0 s' ∧ ptable s' = <[i := p_set_killed true q]> (ptable s) ∧
  ∀ tf m1 pt m2, pa_kalloc (pk_mem s') = Ret tf m1 → tf ≠ 0 → proc_pagetable tf m1 = Ret pt m2 → pt ≠ 0 → ∃ s'' c,
    allocproc forkret s' = Ret (Some i) s'' ∧ ptable s'' !! i = Some c ∧ p_state c = USED ∧ p_pid c = nextpid s ∧ p_killed c = true.
Proof.
  intros Hr Hu Hn Hpl Hf. pose proof (table_reach_ok _ _ Hr) as []. pose proof Hf as (Hi & Hq & Hfirst)%list_find_Some_first. pose proof (lookup_lt_Some _ _ _ Hi) as Hil.
  assert (Hlen : length (ptable s) = NPROC) by (by rewrite <- (length_fmap key)). assert (Hq0 : p_pid q = 0) by (by destruct (ko_free0 _ _ (key_at _ _ _ Hi) Hq)).
  assert (Hno : ∀ x p, (0 ≤ x < 0 + i)%nat → ptable s !! x = Some p → p_pid p ≠ 0).
  { intros x p Hx Hp. pose proof (ko_used0 _ _ (key_at _ _ _ Hp) (Hfirst x p Hp ltac:(lia))) as H1. cbn in H1. lia. }
  destruct s as [tb np ip pl wl m fl [n ie b] hp]. cbn in *. subst n pl. unfold kill.
  pose proof (kill_loop_PK np ip false wl m fl hp 0 i (NPROC - S i) 0 tb q ie b Hu Hi Hq0 Hno) as E. replace (i + S (NPROC - S i))%nat with NPROC in E by lia.
  assert (Ev : alter kill_entry i tb = <[i := p_set_killed true q]> tb).
  { apply list_eq. intros j. destruct (decide (j = i)) as [->|]; [|by rewrite list_lookup_alter_ne, list_lookup_insert_ne].
    rewrite list_lookup_alter_eq, Hi, list_lookup_insert_eq by done. cbn. f_equal. unfold kill_entry. apply decide_False. congruence. }
  eexists. split; [exact E|]. cbn [ptable Nat.add]. split; [exact Ev|]. intros tf m1 pt m2 Hk Htf Hp Hpt. cbn [Nat.add] in *. rewrite Ev in *.
  eexists _, _. split; [apply (allocproc_run forkret _ i (p_set_killed true q) tf pt m1 m2); cbn [ptable hart pid_lock pk_mem noff]; try done|].
  - apply Forall_insert; [done|]. exact (Forall_lookup_1 _ _ _ _ Hu Hi).
  - by rewrite length_insert.
  - apply list_find_Some. rewrite list_lookup_insert_eq by done. split_and!; [done|done|]. intros j y Hy Hj. rewrite list_lookup_insert_ne in Hy by lia. by eapply Hfirst.
  - cbn [ptable]. rewrite list_lookup_alter_eq, list_lookup_insert_eq by done. done.
Qed.
End ops.

(** ** A history of five calls *)

Section witness.
#[local] Existing Instance image_sym.
#[local] Instance root_only : FileLayer := {|
  fl_state := unit;
  fl_filedup f := mret f; fl_fileclose _ := mret tt; fl_idup i := mret i; fl_iput _ := mret tt;
  fl_begin_op := mret tt; fl_end_op := mret tt; fl_namei _ := mret (Some 0%nat); fl_fsinit _ := mret tt
|}.

(** Seven free pages, which is what init takes. *)
Fixpoint free_pages (n : nat) (m : mstate) : mstate :=
  match n with
  | O => m
  | S n => let pa := 0x87000000 + Z.of_nat n * 4096 in free_pages n (MState (store64 (ms_mem m) pa (freelist m)) false pa)
  end.
Definition demo_boot : pkstate :=
  PK (replicate 64 proc0) 1 None true true (free_pages 7 (MState (λ _, Byte.x00) false 0)) tt (Cpu 0 true true) None.

(** Run [m] where pids fit and the process 0 runs, if [who] says so. *)
Definition checked {A} (who : bool) (m : M pkstate A) : M pkstate A :=
  ok ← gets (λ s, (nextpid s <? 2 ^ 31 - 1) && (negb who || bool_decide (p_state <$> ptable s !! 0%nat = Some RUNNING)));
  if ok : bool then m else panic "not a step".

Lemma checked_inv {A} who (m : M pkstate A) s a s' : checked who m s = Ret a s' →
  nextpid s < 2 ^ 31 - 1 ∧ (who = true → running 0 s) ∧ m s = Ret a s'.
Proof.
  unfold checked. rewrite bind_gets. destruct (_ && _) eqn:Ht; [|done]. intros H. apply andb_true_iff in Ht as [Hn Hr].
  split_and!; [lia| |done]. intros ->. cbn in Hr. apply bool_decide_eq_true in Hr. unfold running.
  destruct (ptable s !! 0%nat) as [p|]; [|done]. exists p. cbn in Hr. split; congruence.
Qed.

#[local] Abbreviation demo_run := (
  procinit;;
  checked false (userinit 0x80001000 [] [] []);;
  checked false (scheduler_try 0);;
  checked true (forkret_body 0 true);;
  r ← checked true (fork 0x80001000 0);
  ini ← gets initproc;
  mret (ini, r)).

Lemma demo_run_returns : returns (demo_run demo_boot) (λ x, bool_decide (x = (Some 0%nat, -1))) = true.
Proof. vm_compute. reflexivity. Qed.

(** Boot, init made and scheduled, and a fork() that runs out of memory. *)
Lemma demo_run_history s0 ini r s : ptable s0 = replicate NPROC proc0 → nextpid s0 = 1 → initproc s0 = None →
  demo_run s0 = Ret (ini, r) s → table_reach 0x80001000 s ∧ initproc s = ini.
Proof.
  intros Ht Hn Hi E.
  apply bind_Ret_inv in E as (? & s1 & E1 & E). apply bind_Ret_inv in E as (? & s2 & (N2 & _ & E2)%checked_inv & E).
  apply bind_Ret_inv in E as (? & s3 & (N3 & _ & E3)%checked_inv & E). apply bind_Ret_inv in E as (? & s4 & (N4 & R4 & E4)%checked_inv & E).
  apply bind_Ret_inv in E as (? & s5 & (N5 & R5 & E5)%checked_inv & E). rewrite bind_gets in E. injection E as Hini _ <-. split; [|done].
  eapply table_reach_step; [|exact N5|exact (step_fork _ _ _ _ _ (R5 eq_refl) E5)].
  eapply table_reach_step; [|exact N4|exact (step_forkret _ _ _ _ _ _ (R4 eq_refl) E4)].
  eapply table_reach_step; [|exact N3|eapply (step_scheduler _ 0); [unfold NPROC; lia|exact E3]].
  eapply table_reach_step; [|exact N2|exact (step_userinit _ _ _ _ _ _ _ E2)].
  exact (table_reach_boot _ s0 s1 _ Ht Hn Hi E1).
Qed.
Lemma demo_history : ∃ s, table_reach 0x80001000 s ∧ initproc s = Some 0%nat.
Proof.
  destruct (returns_Ret _ _ demo_run_returns) as (x & s & E & Hx). apply bool_decide_eq_true in Hx as ->. exists s.
  exact (demo_run_history demo_boot (Some 0%nat) (-1) s eq_refl eq_refl eq_refl E).
Qed.

Lemma process_table_invariant_witness : ∃ s, table_reach 0x80001000 s ∧ initproc s = Some 0%nat ∧
  ∃ q, ptable s !! 0%nat = Some q ∧ p_state q ≠ UNUSED ∧ p_state q ≠ ZOMBIE.
Proof.
  destruct demo_history as (s & H & Hini). exists s. split; [exact H|split; [exact Hini|]].
  destruct (process_table_invariant _ _ H) as (_ & _ & _ & Hp). apply Hp. right. exact Hini.
Defined.
End witness.
