(* ===== verification/ProcInit.v ===== *)
(** * kernel/proc.c: the first process

    proc_pagetable() and userinit(), for any [PageAllocator]: with nine free
    pages the first process is made, its memory the bytes of initcode. *)

From stdpp Require Import base gmap sets strings numbers list.
From coqutil Require Import Byte Word.LittleEndianList.
From S2P Require Import Prelude Mem Str Riscv Spinlock Kalloc Vm VmPt VmWalk VmMap VmFree VmCopy VmKernel Proc ProcThms.

Section first.
Context {I : image} {IO : image_ok I} {PA : PageAllocator}.

(** ** Regions of a new user page table *)

Definition trampoline_region : region := Region TRAMPOLINE PGSIZE trampoline (Z.lor PTE_R PTE_X).
Definition trapframe_region (tf : Z) : region := Region TRAPFRAME PGSIZE tf (Z.lor PTE_R PTE_W).
Definition first_region (pg : Z) : region := Region 0 PGSIZE pg (Z.lor (Z.lor (Z.lor PTE_W PTE_R) PTE_X) PTE_U).

Definition user_va (va : Z) : Prop := 0 ≤ va < PGSIZE ∨ TRAPFRAME ≤ va < MAXVA.
Definition user_prefixes : list (nat * Z) := [(2%nat, 0); (1%nat, 0); (1%nat, 255); (0%nat, 0); (0%nat, 131071)].

Lemma user_va_prefix va lv : user_va va → (lv ≤ 2)%nat → (lv, va_prefix lv va) ∈ user_prefixes.
Proof.
  intros Hva Hlv. unfold user_va in Hva. pgunfold. unfold va_prefix. destruct lv as [|[|[|]]]; [| | |lia].
  - change (2 ^ (21 + 9 * Z.of_nat 0)) with 2097152. pose proof (div_between va 2097152 0 0). pose proof (div_between va 2097152 131071 131071).
    assert (va / 2097152 = 0 ∨ va / 2097152 = 131071) as [-> | ->] by lia; set_solver.
  - change (2 ^ (21 + 9 * Z.of_nat 1)) with 1073741824. pose proof (div_between va 1073741824 0 0). pose proof (div_between va 1073741824 255 255).
    assert (va / 1073741824 = 0 ∨ va / 1073741824 = 255) as [-> | ->] by lia; set_solver.
  - change (2 ^ (21 + 9 * Z.of_nat 2)) with 549755813888. rewrite Z.div_small by lia. set_solver.
Qed.
Lemma user_prefix_root : (2%nat, 0) ∈ user_prefixes.
Proof. set_solver. Qed.

Abbreviation utable := (rtable user_va).

(** A change of memory that is of no concern to the table. *)
Lemma rtable_frame V s F T root rs m' : rtable V s F T root rs → (∀ q x, q ∈ F ∪ dom T → in_page q x → m' x = ms_mem s x) → rtable V (set_mem m' s) F T root rs.
Proof.
  intros ((Hpa & Hwf & Hd) & Hw & Hm) Hag. assert (HT : ∀ q x, is_Some (T !! q) → in_page q x → m' x = ms_mem s x).
  { intros q x Hq. apply Hag. apply elem_of_union_r. by apply elem_of_dom. }
  destruct (pt_frame (ms_mem s) m' T root Hwf HT) as [Hwf' Hg]. split; [|split; [done|]].
  - split; [|split; [done|done]]. apply pa_frame; [done|]. intros p x Hp. apply Hag. set_solver.
  - destruct Hm as [Hin Hout]. split.
    + intros r va Hr Hva Hrv. cbn [ms_mem set_mem]. rewrite (proj2 (Hg va Hva)). by apply Hin.
    + intros va Hva Hno. cbn [ms_mem set_mem]. rewrite (proj2 (Hg va Hva)). by apply Hout.
Qed.

Lemma region_page r pa va : region_ok (Region va PGSIZE pa r) ↔ (0 ≤ va ∧ va mod PGSIZE = 0 ∧ va + PGSIZE ≤ MAXVA ∧ 0 ≤ pa ∧ pa mod PGSIZE = 0 ∧ pa + PGSIZE + PGSIZE < 2 ^ 54 ∧ 0 ≤ r < 1024).
Proof. unfold region_ok. cbn [r_va r_size r_pa r_perm]. assert (0 < PGSIZE ∧ PGSIZE mod PGSIZE = 0) by done. tauto. Qed.

(** ** proc_pagetable() *)

Lemma proc_pagetable_ok s F tf : pa_inv s F → page_ok tf → (6 ≤ size F)%nat → ∃ pt s' F' T',
  proc_pagetable tf s = Ret pt s' ∧ pt ≠ 0 ∧ utable s' F' T' pt [trapframe_region tf; trampoline_region] ∧
  F' ∪ dom T' = F ∧ frame F (ms_mem s) (ms_mem s').
Proof.
  intros Hpa Htf Hsz. unfold proc_pagetable.
  destruct (rtable_root user_va s F Hpa) as (pt & s1 & E1 & Hpt0 & Hpt & Hk1 & Hso); [intros ->; rewrite size_empty in Hsz; lia|].
  rewrite (bind_Ret _ _ _ _ _ E1). destruct (Z.eqb_spec pt 0); [done|].
  set (F1 := F ∖ {[pt]}) in *. set (T1 := {[pt := (2%nat, 0)]} : gmap Z (nat * Z)) in *.
  assert (HF1 : F1 ∪ dom T1 = F).
  { unfold F1, T1. rewrite dom_singleton_L. apply set_eq. intros q. destruct (decide (q = pt)); set_solver. }
  assert (Hr1 : (length user_prefixes < size F1 + size T1)%nat) by (rewrite <- (vm_size _ _ _ _ (proj1 Hk1)), HF1; cbn; lia).
  pose proof (page_ok_pos tf Htf) as [Htf0 Htfa]. destruct etext_facts as (_ & _ & _ & Hta & Htr). destruct Htf as [_ Htfb].
  destruct (mappages_region user_va user_prefixes user_prefix_root user_va_prefix _ _ _ _ _ trampoline_region Hk1) as (s2 & F2 & T2 & E2 & Hk2 & HF2 & Hr2 & Hf2); [| | |done|].
  { apply region_page. pgunfold. split_and!; (done || lia). }
  { by intros r va Hn%elem_of_nil. }
  { intros va. unfold in_region, user_va. cbn [r_va r_size trampoline_region]. pgunfold. lia. }
  cbn [trampoline_region r_va r_size r_pa r_perm] in E2. rewrite (bind_Ret _ _ _ _ _ E2). cbn [Z.ltb Z.compare].
  destruct (mappages_region user_va user_prefixes user_prefix_root user_va_prefix _ _ _ _ _ (trapframe_region tf) Hk2) as (s3 & F3 & T3 & E3 & Hk3 & HF3 & Hr3 & Hf3); [| | |done|].
  { apply region_page. pgunfold. split_and!; (done || lia). }
  { intros r va ->%list_elem_of_singleton. unfold in_region. cbn [r_va r_size trampoline_region trapframe_region]. pgunfold. lia. }
  { intros va. unfold in_region, user_va. cbn [r_va r_size trapframe_region]. pgunfold. lia. }
  cbn [trapframe_region r_va r_size r_pa r_perm] in E3. rewrite (bind_Ret _ _ _ _ _ E3). cbn [Z.ltb Z.compare].
  exists pt, s3, F3, T3. split_and!; try done; [congruence|].
  rewrite HF2, HF1 in Hf3. rewrite HF1 in Hf2. eapply frame_trans; [|exact Hf3]. eapply frame_trans; [|exact Hf2]. by eapply same_outside_frame.
Qed.

(** ** uvmfirst() *)

(** A page [n] apart from the pages of [X]. *)
Lemma apart_pages (X : gset Z) n q x : (∀ p, p ∈ X → page_ok p) → page_ok n → n ∉ X → q ∈ X → in_page q x → ¬ in_page n x.
Proof.
  intros HX Hn Hni Hq Hx Hx'. apply Hni. assert (n = q) as ->; [|done].
  eapply in_page_unique; [by apply page_ok_pos|by apply page_ok_pos, HX|done|done].
Qed.
Lemma table_pages V s F T root rs q : rtable V s F T root rs → q ∈ F ∪ dom T → page_ok q.
Proof.
  intros ((Hpa & Hwf & _) & _) [Hq|[[lv pre] Hq]%elem_of_dom]%elem_of_union; [by eapply pa_pages|].
  destruct Hwf as (_ & Hok & _). by eapply Hok.
Qed.

Definition initial (src : list byte) (k : nat) : byte := default Byte.x00 (src !! k).

Lemma uvmfirst_ok s F T pt rs src : utable s F T pt rs → apart (first_region 0) rs → Z.of_nat (length src) < PGSIZE → (6 < size F + size T)%nat →
  ∃ s' F' T' pg, uvmfirst pt src s = Ret tt s' ∧ utable s' F' T' pt (first_region pg :: rs) ∧ page_ok pg ∧ pg ∈ F ∧ pg ∉ F' ∪ dom T' ∧
    F' ∪ dom T' = (F ∪ dom T) ∖ {[pg]} ∧ frame (F ∪ dom T) (ms_mem s) (ms_mem s') ∧
    ∀ k, (k < 4096)%nat → ms_mem s' (pg + Z.of_nat k) = initial src k.
Proof.
  intros Hk Hap Hlen Hroom. unfold uvmfirst. destruct (Z.leb_spec PGSIZE (Z.of_nat (length src))); [lia|].
  pose proof (rtable_pages _ _ user_prefix_root user_va_prefix _ _ _ _ _ Hk : (_ ≤ 5)%nat) as Hpg.
  destruct (kalloc_rtable _ _ _ _ _ _ Hk) as (n & s1 & E1 & Hn0 & Hn & Hnok & HnT & Hk1 & Hso); [intros ->; rewrite size_empty in Hroom; lia|].
  rewrite (bind_Ret _ _ _ _ _ E1). pose proof (page_ok_pos n Hnok) as [Hnp Hna]. pose proof Hnok as [_ Hnb].
  assert (HX : (F ∖ {[n]}) ∪ dom T = (F ∪ dom T) ∖ {[n]}).
  { apply set_eq. intros q. apply not_elem_of_dom in HnT. destruct (decide (q = n)); set_solver. }
  assert (Hni : n ∉ (F ∖ {[n]}) ∪ dom T) by (rewrite HX; set_solver).
  assert (Hsub : ∀ q, q ∈ (F ∖ {[n]}) ∪ dom T → q ∈ F ∪ dom T) by (rewrite HX; set_solver).
  set (m2 := memset (ms_mem s1) n 0 PGSIZE). rewrite (bind_Ret (mmemset n 0 PGSIZE) _ _ tt (set_mem m2 s1)) by done.
  assert (Hk2 : utable (set_mem m2 s1) (F ∖ {[n]}) T pt rs).
  { apply rtable_frame; [done|]. intros q x Hq Hx. apply memset_same_outside.
    eapply (apart_pages _ n q x); [intros p Hp; by eapply table_pages|done..]. }
  assert (Hsz : (size (F ∖ {[n]}) + 1 = size F)%nat).
  { rewrite size_difference by set_solver. rewrite size_singleton. assert (size F ≠ 0)%nat; [|lia]. intros H0%size_empty_inv. set_solver. }
  destruct (mappages_region user_va user_prefixes user_prefix_root user_va_prefix _ _ _ _ _ (first_region n) Hk2) as (s3 & F3 & T3 & E3 & Hk3 & HF3 & _ & Hf3).
  { apply region_page. pgunfold. split_and!; (done || lia). }
  { exact Hap. }
  { intros va. unfold in_region, user_va. cbn [r_va r_size first_region]. lia. }
  { cbn. lia. }
  cbn [first_region r_va r_size r_pa r_perm] in E3. rewrite (bind_Ret _ _ _ _ _ E3). unfold modify.
  exists (set_mem (store_bytes (ms_mem s3) n src) s3), F3, T3, n. rewrite HF3, HX.
  assert (Hout : ∀ x, ¬ in_page n x → store_bytes (ms_mem s3) n src x = ms_mem s3 x).
  { intros x Hx. apply store_bytes_out. unfold in_page in Hx. lia. }
  split; [reflexivity|]. split; [|split; [exact Hnok|split; [exact Hn|split; [by rewrite <- HX|split; [reflexivity|split]]]]].
  - apply rtable_frame; [exact Hk3|]. rewrite HF3. intros q x Hq Hx. apply Hout.
    eapply (apart_pages _ n q x); [intros p Hp; by eapply (table_pages _ (set_mem m2 s1))|done..].
  - intros x Hx. cbn [ms_mem set_mem]. assert (Hnx : ¬ in_page n x) by (apply Hx, elem_of_union_l; exact Hn). rewrite Hout, Hf3; [|intros q Hq; apply Hx, Hsub, Hq|exact Hnx].
    cbn [ms_mem set_mem]. unfold m2. rewrite memset_same_outside by exact Hnx. apply Hso, Hnx.
  - intros k Hkk. cbn [ms_mem set_mem]. unfold initial. destruct (src !! k) as [b|] eqn:Hb; [by apply store_bytes_in|].
    apply lookup_ge_None in Hb. rewrite store_bytes_out by lia. rewrite Hf3.
    + cbn [ms_mem set_mem]. apply memset_in. unfold in_page, PGSIZE. lia.
    + intros q Hq. intros Hx. eapply (apart_pages _ n q); [intros p Hp; by eapply (table_pages _ (set_mem m2 s1))|done|exact Hni|exact Hq|exact Hx|].
      unfold in_page, PGSIZE. lia.
Qed.

(** ** userinit() *)

Context {FL : FileLayer}.

(** The entry userinit() makes of [q]. *)
Definition first_proc (forkret pid tf pt : Z) (name : list byte) (cwd : option nat) (q : proc) : proc :=
  Proc false RUNNABLE (p_chan q) (p_killed q) (p_xstate q) pid (p_parent q) (p_kstack q) PGSIZE pt tf
    (Ctx forkret (u64 (p_kstack q + PGSIZE)) (replicate 12 0)) (p_ofile q) cwd (safestrcpy_bytes (p_name q) name 16).

(** The memory after the trap frame has its two fields. *)
Definition first_frame (tf : Z) (m : mstate) : mstate :=
  set_mem (store64 (store64 (ms_mem m) (tf + tf_epc) 0) (tf + tf_sp) PGSIZE) m.

Lemma userinit_run forkret initcode name path s i q tf pt m1 m2 m3 cwd fl' : unlocked s → noff (hart s) = 0 → pid_lock s = false →
  length (ptable s) = NPROC → list_find unused (ptable s) = Some (i, q) →
  pa_kalloc (pk_mem s) = Ret tf m1 → tf ≠ 0 → proc_pagetable tf m1 = Ret pt m2 → pt ≠ 0 → uvmfirst pt initcode m2 = Ret tt m3 →
  fl_namei path (pk_files s) = Ret cwd fl' →
  userinit forkret initcode name path s = Ret tt (PK (alter (first_proc forkret (nextpid s) tf pt name cwd) i (ptable s)) (i32 (nextpid s + 1)) (Some i) false
    (wait_lock s) (first_frame tf m3) fl' (Cpu 0 (sie (hart s)) (sie (hart s))) (hart_proc s)).
Proof.
  intros Hu Hn Hpl Hlen Hf Hk Htf Hpp Hpt Huv Hna. unfold userinit.
  rewrite (bind_Ret _ _ _ _ _ (allocproc_run forkret s i q tf pt m1 m2 Hu Hn Hpl Hlen Hf Hk Htf Hpp Hpt)).
  apply list_find_Some in Hf as (Hi & _). set (t0 := alter (alloced forkret (nextpid s) tf pt) i (ptable s)).
  set (s0 := PK (ptable s) (i32 (nextpid s + 1)) (Some i) false (wait_lock s) m2 (pk_files s) (Cpu 1 (sie (hart s)) false) (hart_proc s)).
  rewrite bind_modify. change (set_initproc (Some i) _) with (set_ptable t0 s0). rewrite gets_bindp. unfold getp. cbn [ptable set_ptable].
  assert (Hi0 : t0 !! i = Some (alloced forkret (nextpid s) tf pt q)) by (unfold t0; by rewrite list_lookup_alter_eq, Hi).
  rewrite (list_lookup_total_correct _ _ _ Hi0). cbn [alloced p_pagetable p_trapframe].
  rewrite (zoom_mm _ _ _ tt m3) by done. rewrite mem_table, updp_chain.
  rewrite (zoom_mm _ _ _ tt (set_mem (store64 (ms_mem m3) (tf + tf_epc) 0) m3)) by done. rewrite mem_table.
  rewrite (zoom_mm _ _ _ tt (first_frame tf m3)) by done. rewrite mem_table, updp_chain.
  erewrite bind_Ret by (unfold files; apply zoom_Ret; exact Hna).
  set (s1 := set_pk_mem (first_frame tf m3) (set_pk_mem (set_mem (store64 (ms_mem m3) (tf + tf_epc) 0) m3) (set_pk_mem m3 s0))).
  match goal with |- context [set_pk_files fl' (set_ptable ?t s1)] => change (set_pk_files fl' (set_ptable t s1)) with (set_ptable t (set_pk_files fl' s1)) end.
  rewrite !updp_chain.
  match goal with |- punlock i (set_ptable ?t _) = _ => set (t1 := t) end.
  unfold s1, s0, set_ptable, set_pk_files, set_pk_mem. cbn [ptable nextpid initproc pid_lock wait_lock pk_mem pk_files hart hart_proc].
  assert (Hi1 : ∃ q1, t1 !! i = Some q1 ∧ p_lock q1 = true).
  { eexists. unfold t1. rewrite !list_lookup_alter_eq, Hi0. split; reflexivity. }
  destruct Hi1 as (q1 & Hi1 & Hl1). rewrite (punlock_PK _ _ _ _ _ _ _ i q1 _ _ _ Hi1 Hl1) by lia.
  cbn [Z.sub Z.add Z.opp Z.pos_sub Z.eqb andb]. do 2 f_equal. apply list_eq. intros j. unfold t1, t0.
  destruct (decide (j = i)) as [->|]; [by rewrite !list_lookup_alter_eq, Hi|by rewrite !list_lookup_alter_ne].
Qed.

(** The user's view of the first page. *)
Lemma first_view m pt pg rs va : maps_regions m pt (first_region pg :: rs) → page_ok pg → 0 ≤ va < PGSIZE → uview m pt va = Some (m (pg + va)).
Proof.
  intros [Hin _] Hpg Hva. destruct (page_ok_pos pg Hpg) as [Hp0 Hpa]. unfold uview.
  assert (Hd : PGROUNDDOWN va = 0) by (apply PGROUNDDOWN_in; [done|lia]). rewrite Hd.
  assert (Hg : pt_get m pt 0 = pte_entry pg (Z.lor (Z.lor (Z.lor PTE_W PTE_R) PTE_X) PTE_U)).
  { rewrite (Hin (first_region pg) 0); [|by left|done|unfold in_region; cbn [first_region r_va r_size]; pgunfold; lia].
    unfold region_entry. cbn [first_region r_va r_pa r_perm]. f_equal. change (PGROUNDDOWN 0) with 0. lia. }
  assert (Hu : upa m pt 0 = pg).
  { unfold upa, user_page. change (MAXVA <=? 0) with false. cbv beta iota zeta. rewrite Hg.
    destruct (pte_entry_facts pg (Z.lor (Z.lor (Z.lor PTE_W PTE_R) PTE_X) PTE_U)) as (_ & -> & -> & Hfl); [lia|done|done|].
    rewrite flags_land, Hfl by done. done. }
  rewrite Hu. destruct (Z.eqb_spec pg 0); [lia|]. do 2 f_equal. lia.
Qed.

(** Two pages taken from [F] one after the other. *)
Lemma two_taken (F : gset Z) a b X Y : a ∈ F → X = F ∖ {[a]} → b ∈ X → Y = X ∖ {[b]} → a ∉ Y ∧ a ≠ b ∧ F = {[a; b]} ∪ Y.
Proof.
  intros Ha -> Hb ->. split_and!; [set_solver|set_solver|]. apply set_eq. intros x. destruct (decide (x = a)), (decide (x = b)); set_solver.
Qed.

(** With eight free pages and an unused entry userinit() returns: the first
    unused entry of the table is a runnable process, initproc, named and in
    the directory given, whose page table maps one user page, the trap frame
    and the trampoline and nothing else; its memory is initcode followed by
    zeros, and its trap frame starts it at address 0 with its stack pointer at
    the end of the page.  No other entry changes, every other page taken is a
    page of the table, no other memory changes, and the hart holds no lock. *)
Theorem userinit_makes_init forkret initcode name path s F i q cwd fl' : unlocked s → noff (hart s) = 0 → pid_lock s = false →
  length (ptable s) = NPROC → list_find unused (ptable s) = Some (i, q) → pa_inv (pk_mem s) F → (8 ≤ size F)%nat →
  Z.of_nat (length initcode) < PGSIZE → fl_namei path (pk_files s) = Ret cwd fl' →
  ∃ s' tf pt pg F' T', userinit forkret initcode name path s = Ret tt s' ∧
    ptable s' = alter (first_proc forkret (nextpid s) tf pt name cwd) i (ptable s) ∧ initproc s' = Some i ∧ pk_files s' = fl' ∧ hart s' = Cpu 0 (sie (hart s)) (sie (hart s)) ∧
    let m := ms_mem (pk_mem s') in
    vm_ok (pk_mem s') F' T' pt ∧ maps_regions m pt [first_region pg; trapframe_region tf; trampoline_region] ∧
    tf ≠ pg ∧ F = {[tf; pg]} ∪ (F' ∪ dom T') ∧ tf ∉ F' ∪ dom T' ∧ pg ∉ F' ∪ dom T' ∧
    load64 m (tf + tf_epc) = 0 ∧ load64 m (tf + tf_sp) = PGSIZE ∧
    (∀ k, (k < 4096)%nat → uview m pt (Z.of_nat k) = Some (initial initcode k)) ∧ frame F (ms_mem (pk_mem s)) m.
Proof.
  intros Hu Hn Hpl Hlen Hf Hpa Hsz Hil Hna.
  destruct (pa_kalloc_some (pk_mem s) F Hpa) as (tf & m1 & Htf & E1 & Hpa1 & Hs1); [intros ->; rewrite size_empty in Hsz; lia|].
  pose proof (pa_pages _ _ _ Hpa Htf) as Htfok. destruct (page_ok_pos tf Htfok) as [Htf0 Htfa].
  assert (Hsz1 : (size (F ∖ {[tf]}) + 1 = size F)%nat) by (rewrite size_difference by set_solver; rewrite size_singleton; lia).
  destruct (proc_pagetable_ok m1 (F ∖ {[tf]}) tf Hpa1 Htfok) as (pt & m2 & F2 & T2 & E2 & Hpt & Hk2 & HF2 & Hf2); [lia|].
  assert (Hroom : (6 < size F2 + size T2)%nat) by (rewrite <- (vm_size _ _ _ _ (proj1 Hk2)), HF2; lia).
  destruct (uvmfirst_ok m2 F2 T2 pt _ initcode Hk2) as (m3 & F3 & T3 & pg & E3 & Hk3 & Hpg & HpgF & Hpgn & HF3 & Hf3 & Hc); [|done|done|].
  { intros r va Hr. unfold in_region. cbn [first_region r_va r_size].
    apply elem_of_cons in Hr as [->|Hr%list_elem_of_singleton]; [|subst r]; cbn [trapframe_region trampoline_region r_va r_size]; pgunfold; lia. }
  rewrite HF2 in HF3, Hf3. destruct (two_taken F tf pg (F2 ∪ dom T2) (F3 ∪ dom T3)) as (Htn & Hne & HFF); [done|by rewrite HF2|by apply elem_of_union_l|by rewrite HF2|].
  pose proof (userinit_run forkret initcode name path s i q tf pt m1 m2 m3 cwd fl' Hu Hn Hpl Hlen Hf E1 ltac:(lia) E2 Hpt E3 Hna) as E.
  assert (Hso : same_outside tf (ms_mem m3) (ms_mem (first_frame tf m3))).
  { intros x Hx. unfold in_page, PGSIZE in Hx. unfold first_frame, tf_epc, tf_sp. cbn [ms_mem set_mem]. rewrite !store64_out by lia. reflexivity. }
  assert (Hk4 : utable (first_frame tf m3) F3 T3 pt [first_region pg; trapframe_region tf; trampoline_region]).
  { apply (rtable_frame _ m3); [exact Hk3|]. intros p x Hp Hx. apply Hso. eapply apart_pages; [|exact Htfok|exact Htn|exact Hp|exact Hx].
    intros p' Hp'. by eapply (table_pages _ m3). }
  clear Hk3. eexists _, tf, pt, pg, F3, T3. split; [exact E|]. split; [reflexivity|]. split; [reflexivity|]. split; [reflexivity|]. split; [reflexivity|].
  cbn [pk_mem]. destruct Hk4 as (Hok & _ & Hm). split; [exact Hok|]. split; [exact Hm|]. split; [exact Hne|]. split; [exact HFF|]. split; [exact Htn|]. split; [exact Hpgn|].
  split; [|split; [|split]].
  - unfold first_frame. cbn [ms_mem set_mem]. rewrite load64_store64_ne by (unfold tf_epc, tf_sp; lia). apply load64_store64_eq.
  - unfold first_frame. cbn [ms_mem set_mem]. apply load64_store64_eq.
  - intros k Hk. rewrite (first_view _ _ _ _ _ Hm Hpg) by (unfold PGSIZE; lia). f_equal. rewrite <- Hc by exact Hk. apply Hso.
    destruct (page_ok_pos pg Hpg) as [_ Hpga]. destruct (page_disjoint tf pg Htfa Hpga Hne); unfold in_page, PGSIZE in *; lia.
  - assert (Hsub : F ∖ {[tf]} ⊆ F) by (clear; set_solver). eapply frame_trans; [exact (same_outside_frame tf F _ _ Htf Hs1)|].
    eapply frame_trans; [exact (frame_mono _ _ _ _ Hsub Hf2)|]. eapply frame_trans; [exact (frame_mono _ _ _ _ Hsub Hf3)|].
    exact (same_outside_frame tf F _ _ Htf Hso).
Qed.
End first.

(** ** The first process after procinit() *)

Section witness.
#[local] Existing Instance image_sym.
#[local] Instance init_files : FileLayer := {|
  fl_state := unit;
  fl_filedup f := mret f; fl_fileclose _ := mret tt; fl_idup i := mret i; fl_iput _ := mret tt;
  fl_begin_op := mret tt; fl_end_op := mret tt; fl_namei _ := mret (Some 0%nat); fl_fsinit _ := mret tt
|}.

Definition boot_procs (m : mstate) : pkstate := PK (replicate 64 proc0) 1 None false false m tt (Cpu 0 false false) None.

Lemma enough_pages : (8 ≤ size (list_to_set all_pages : gset Z))%nat.
Proof. pose proof (boot_pages 137 ltac:(lia)). lia. Qed.

Lemma userinit_makes_init_witness : ∃ s s', userinit 0x80001000 [Byte.x17; Byte.x05] [] [] s = Ret tt s' ∧ initproc s' = Some 0%nat.
Proof.
  destruct (kinit_inv (MState (λ _, Byte.x00) false 0) eq_refl) as (m & _ & HF).
  destruct (userinit_makes_init (PA := kalloc_allocator) (FL := init_files) 0x80001000 [Byte.x17; Byte.x05] [] [] (boot_procs m)
    (list_to_set all_pages) 0 proc0 (Some 0%nat) tt) as (s' & tf & pt & pg & F' & T' & E & _ & Hi & _).
  - apply Forall_replicate. reflexivity.
  - reflexivity.
  - reflexivity.
  - reflexivity.
  - reflexivity.
  - exact HF.
  - exact enough_pages.
  - reflexivity.
  - reflexivity.
  - eexists _, s'. split; [exact E|exact Hi].
Defined.
End witness.
