(* ===== verification/File.v ===== *)
(** * kernel/file.c: open files (the code), and pipealloc()

    [fkstate] is the open-file table on top of the file system ([fstate]), the
    pipes, by the address of their page, and the memory of kalloc.c.
    begin_op() and end_op() are log.c's; [devsw] is the table of device
    drivers.  A read or write that sleeps inside a pipe returns [PipeSleep]. *)

From stdpp Require Import base gmap sets strings numbers list.
From coqutil Require Import Byte Word.LittleEndianList.
From S2P Require Import Prelude Mem Riscv Spinlock Kalloc Block Sleeplock Fs Pipe.

Inductive ftype := FD_NONE | FD_PIPE | FD_INODE | FD_DEVICE.
#[export] Instance ftype_eq_dec : EqDecision ftype.
Proof. solve_decision. Defined.

Record file := File {
  f_type : ftype;
  f_ref : Z;           (* reference count *)
  f_readable : bool;
  f_writable : bool;
  f_pipe : Z;          (* FD_PIPE *)
  f_ip : nat;          (* FD_INODE and FD_DEVICE *)
  f_off : Z;           (* FD_INODE *)
  f_major : Z          (* FD_DEVICE *)
}.
Definition file0 : file := File FD_NONE 0 false false 0 0 0 0.
#[export] Instance file_inhabited : Inhabited file := populate file0.

Definition f_set_type (t : ftype) (f : file) : file := File t (f_ref f) (f_readable f) (f_writable f) (f_pipe f) (f_ip f) (f_off f) (f_major f).
Definition f_set_ref (r : Z) (f : file) : file := File (f_type f) r (f_readable f) (f_writable f) (f_pipe f) (f_ip f) (f_off f) (f_major f).
Definition f_set_off (o : Z) (f : file) : file := File (f_type f) (f_ref f) (f_readable f) (f_writable f) (f_pipe f) (f_ip f) o (f_major f).
Definition f_set_major (m : Z) (f : file) : file := File (f_type f) (f_ref f) (f_readable f) (f_writable f) (f_pipe f) (f_ip f) (f_off f) m.
Definition f_set_ip (i : nat) (f : file) : file := File (f_type f) (f_ref f) (f_readable f) (f_writable f) (f_pipe f) i (f_off f) (f_major f).
Definition f_set_rw (r w : bool) (f : file) : file := File (f_type f) (f_ref f) r w (f_pipe f) (f_ip f) (f_off f) (f_major f).
(** What pipealloc() stores in the file of an end. *)
Definition f_set_pipe (r w : bool) (pi : Z) (f : file) : file := File FD_PIPE (f_ref f) r w pi (f_ip f) (f_off f) (f_major f).

(** Bytes of a [struct stat] (with the padding the compiler puts before the
    64-bit size). *)
Definition stat_bytes (st : stat) : list byte :=
  le_split 4 (st_dev st) ++ le_split 4 (st_ino st) ++ le_split 2 (st_type st) ++ le_split 2 (st_nlink st) ++ replicate 4 Byte.x00 ++ le_split 8 (st_size st).

Section state.
Context {I : image} {PA : PageAllocator} {B : BlockLayer} {U : UserMem}.

Record fkstate := FK {
  k_fs : fstate;
  ft_lock : bool;
  ftab : list file;
  k_pipes : gmap Z pipe;
  k_mem : mstate
}.
Definition set_k_fs (x : fstate) (s : fkstate) : fkstate := FK x (ft_lock s) (ftab s) (k_pipes s) (k_mem s).
Definition set_ft_lock (x : bool) (s : fkstate) : fkstate := FK (k_fs s) x (ftab s) (k_pipes s) (k_mem s).
Definition set_ftab (x : list file) (s : fkstate) : fkstate := FK (k_fs s) (ft_lock s) x (k_pipes s) (k_mem s).
Definition set_k_pipes (x : gmap Z pipe) (s : fkstate) : fkstate := FK (k_fs s) (ft_lock s) (ftab s) x (k_mem s).
Definition set_k_mem (x : mstate) (s : fkstate) : fkstate := FK (k_fs s) (ft_lock s) (ftab s) (k_pipes s) x.

Definition fsm {A} (m : M fstate A) : M fkstate A := zoom k_fs set_k_fs m.
Definition kmm {A} (m : M mstate A) : M fkstate A := zoom k_mem set_k_mem m.

Definition getf (i : nat) (s : fkstate) : file := ftab s !!! i.
Definition updf (i : nat) (f : file → file) : M fkstate unit := modify (λ s, set_ftab (alter f i (ftab s)) s).
Definition acquire_ft : M fkstate unit := acquire_flag ft_lock set_ft_lock.
Definition release_ft : M fkstate unit := release_flag ft_lock set_ft_lock.

(** Code of pipe.c on the pipe at [pi], with the process's memory and the
    wakeups of the file system. *)
Definition pipem {A} (pi : Z) (m : M pstate A) : M fkstate A := λ s,
  match k_pipes s !! pi with
  | None => Panic "dangling pipe"
  | Some p =>
    match m (PState p (fs_um (k_fs s)) (fs_woke (k_fs s))) with
    | Ret a t =>
      let f := k_fs s in
      Ret a (set_k_fs (FState (fs_sb f) (it_lock f) (itab f) (fs_bl f) (ps_um t) (ps_woke t)) (set_k_pipes (<[pi := ps_pipe t]> (k_pipes s)) s))
    | Panic msg => Panic msg
    | Sleep c t => Sleep c s
    | NoFuel => NoFuel
    end
  end.
End state.

(** A device driver: devsw[].read and devsw[].write, null when [None]. *)
Record dev (S : Type) := Dev { dev_read : option (Z → Z → M S Z); dev_write : option (Z → Z → M S Z) }.
Arguments Dev {S} _ _.
Arguments dev_read {S} _.
Arguments dev_write {S} _.

Section file.
Context {I : image} {PA : PageAllocator} {B : BlockLayer} {U : UserMem} (pid : Z).
Context (begin_op end_op : M bl_state unit) (devsw : Z → dev fkstate).

Definition fbegin : M fkstate unit := fsm (bl begin_op).
Definition fend : M fkstate unit := fsm (bl end_op).

Definition fileinit : M fkstate unit := modify (set_ft_lock false).

(** [for(f = ftable.file; f < ftable.file + NFILE; f++)] *)
Fixpoint filealloc_loop (l : list file) (i : nat) : option nat :=
  match l with
  | [] => None
  | f :: l => if f_ref f =? 0 then Some i else filealloc_loop l (S i)
  end.

Definition filealloc : M fkstate (option nat) :=
  acquire_ft;;
  l ← gets ftab;
  match filealloc_loop l 0 with
  | Some i => updf i (f_set_ref 1);; release_ft;; mret (Some i)
  | None => release_ft;; mret None
  end.

Definition filedup (i : nat) : M fkstate nat :=
  acquire_ft;;
  f ← gets (getf i);
  if f_ref f <? 1 then panic "filedup" else
  updf i (f_set_ref (f_ref f + 1));;
  release_ft;;
  mret i.

(** pipeclose() with the kfree() of the last close. *)
Definition pipeclose_free (pi : Z) (writable : bool) : M fkstate unit :=
  last ← pipem pi (pipeclose pi writable);
  if last : bool then modify (λ s, set_k_pipes (delete pi (k_pipes s)) s);; kmm (pa_kfree pi) else mret tt.

Definition fileclose (i : nat) : M fkstate unit :=
  acquire_ft;;
  f ← gets (getf i);
  if f_ref f <? 1 then panic "fileclose" else
  updf i (f_set_ref (f_ref f - 1));;
  if 0 <? f_ref f - 1 then release_ft else
  ff ← gets (getf i);
  updf i (λ f, f_set_type FD_NONE (f_set_ref 0 f));;
  release_ft;;
  match f_type ff with
  | FD_PIPE => pipeclose_free (f_pipe ff) (f_writable ff)
  | FD_INODE | FD_DEVICE => fbegin;; fsm (iput pid (f_ip ff));; fend
  | FD_NONE => mret tt
  end.

Definition filestat (i : nat) (addr : Z) : M fkstate Z :=
  f ← gets (getf i);
  match f_type f with
  | FD_INODE | FD_DEVICE =>
    fsm (ilock pid (f_ip f));;
    st ← fsm (stati (f_ip f));
    fsm (iunlock pid (f_ip f));;
    r ← fsm (either_copyout (UserDst addr) 0 (stat_bytes st) []);
    mret (if r.1 : bool then 0 else -1)
  | _ => mret (-1)
  end.

(** [kl] is what killed() returns. *)
Definition fileread (kl : bool) (i : nat) (addr n : Z) : M fkstate pipe_result :=
  f ← gets (getf i);
  if negb (f_readable f) then mret (PipeDone (-1)) else
  match f_type f with
  | FD_PIPE => pipem (f_pipe f) (piperead (f_pipe f) kl addr n)
  | FD_DEVICE =>
    if (f_major f <? 0) || (NDEV <=? f_major f) then mret (PipeDone (-1)) else
    match dev_read (devsw (f_major f)) with
    | None => mret (PipeDone (-1))
    | Some rd => r ← rd addr n; mret (PipeDone r)
    end
  | FD_INODE =>
    fsm (ilock pid (f_ip f));;
    r ← fsm (readi (f_ip f) (UserDst addr) (f_off f) (u32 n));
    (if 0 <? r.1 then updf i (λ f, f_set_off (u32 (f_off f + r.1)) f) else mret tt);;
    fsm (iunlock pid (f_ip f));;
    mret (PipeDone r.1)
  | FD_NONE => panic "fileread"
  end.

(** [((MAXOPBLOCKS-1-1-2) / 2) * BSIZE] *)
Definition max_write : Z := ((MAXOPBLOCKS - 1 - 1 - 2) / 2) * BSIZE.

(** The loop of filewrite() with [i] of [n] bytes written: the bytes written
    in the end. *)
Fixpoint filewrite_loop (fuel fi : nat) (addr i n : Z) : M fkstate Z :=
  match fuel with
  | O => no_fuel
  | S fuel =>
    if i <? n then
      f ← gets (getf fi);
      let n1 := if max_write <? n - i then max_write else n - i in
      fbegin;;
      fsm (ilock pid (f_ip f));;
      r ← fsm (writei (f_ip f) (UserSrc (u64 (addr + i))) (f_off f) n1);
      (if 0 <? r then updf fi (λ f, f_set_off (u32 (f_off f + r)) f) else mret tt);;
      fsm (iunlock pid (f_ip f));;
      fend;;
      if negb (r =? n1) then mret i      (* error from writei *)
      else filewrite_loop fuel fi addr (i + r) n
    else mret i
  end.

Definition filewrite (kl : Z → bool) (fi : nat) (addr n : Z) : M fkstate pipe_result :=
  f ← gets (getf fi);
  if negb (f_writable f) then mret (PipeDone (-1)) else
  match f_type f with
  | FD_PIPE => pipem (f_pipe f) (pipewrite (f_pipe f) kl addr n)
  | FD_DEVICE =>
    if (f_major f <? 0) || (NDEV <=? f_major f) then mret (PipeDone (-1)) else
    match dev_write (devsw (f_major f)) with
    | None => mret (PipeDone (-1))
    | Some wr => r ← wr addr n; mret (PipeDone r)
    end
  | FD_INODE =>
    i ← filewrite_loop (S (Z.to_nat n)) fi addr 0 n;
    mret (PipeDone (if i =? n then n else -1))
  | FD_NONE => panic "filewrite"
  end.

(** ** pipe.c: pipealloc() *)

Definition close_opt (f : option nat) : M fkstate unit := match f with Some i => fileclose i | None => mret tt end.

(** The page the pipe is in keeps what was at its data array (24 bytes into
    the structure). *)
Definition pipealloc : M fkstate (option (nat * nat)) :=
  f0 ← filealloc;
  f1 ← (match f0 with Some _ => filealloc | None => mret None end);
  match f0, f1 with
  | Some i, Some j =>
    pi ← kmm pa_kalloc;
    if pi =? 0 then close_opt f0;; close_opt f1;; mret None else
    modify (λ s, set_k_pipes (<[pi := pipe_init (load_bytes (ms_mem (k_mem s)) (pi + 24) (Z.to_nat PIPESIZE))]> (k_pipes s)) s);;
    updf i (f_set_pipe true false pi);;
    updf j (f_set_pipe false true pi);;
    mret (Some (i, j))
  | _, _ => close_opt f0;; close_opt f1;; mret None
  end.
End file.
