(* ===== verification/Sysfile.v ===== *)
(** * kernel/sysfile.c: the file system calls (the code)

    [ustate] is the kernel's file state with the descriptors and the current
    directory of the calling process; [args n] is the system call's argument
    register a[n].  sys_exec() is with exec(). *)

From stdpp Require Import base gmap sets strings numbers list.
From coqutil Require Import Byte Word.LittleEndianList.
From S2P Require Import Prelude Mem Riscv Spinlock Kalloc Block Sleeplock Fs FsPath Pipe File.

Definition O_RDONLY : Z := 0.
Definition O_WRONLY : Z := 0x001.
Definition O_RDWR : Z := 0x002.
Definition O_CREATE : Z := 0x200.
Definition O_TRUNC : Z := 0x400.

(** The names "." and "..". *)
Definition name_dot : list byte := [Byte.x2e].
Definition name_dotdot : list byte := [Byte.x2e; Byte.x2e].

Section sysfile.
Context {I : image} {PA : PageAllocator} {B : BlockLayer} {U : UserMem} (pid : Z).
Context (begin_op end_op : M bl_state unit) (devsw : Z → dev fkstate) (args : nat → Z).

Record ustate := US { us_k : fkstate; us_ofile : list (option nat); us_cwd : nat }.
Definition set_us_k (k : fkstate) (s : ustate) : ustate := US k (us_ofile s) (us_cwd s).
Definition set_ofile (l : list (option nat)) (s : ustate) : ustate := US (us_k s) l (us_cwd s).
Definition set_cwd (i : nat) (s : ustate) : ustate := US (us_k s) (us_ofile s) i.

Definition fk {A} (m : M fkstate A) : M ustate A := zoom us_k set_us_k m.
Definition fs {A} (m : M fstate A) : M ustate A := fk (fsm m).
Definition ubegin : M ustate unit := fk (fbegin begin_op).
Definition uend : M ustate unit := fk (fend end_op).
Definition uinode (i : nat) : M ustate inode := gets (λ s, geti i (k_fs (us_k s))).

(** ** syscall.c: arguments *)

Definition argint (n : nat) : Z := i32 (args n).
Definition argaddr (n : nat) : Z := u64 (args n).
Definition argstr (n : nat) (max : Z) : M ustate (option (list byte)) :=
  gets (λ s, um_copyinstr (argaddr n) max (fs_um (k_fs (us_k s)))).

(** The descriptor and the file. *)
Definition argfd (n : nat) : M ustate (option (nat * nat)) :=
  let fd := argint n in
  l ← gets us_ofile;
  if (fd <? 0) || (Z.of_nat NOFILE <=? fd) then mret None else
  mret (match l !!! Z.to_nat fd with None => None | Some f => Some (Z.to_nat fd, f) end).

(** [for(fd = 0; fd < NOFILE; fd++)] *)
Fixpoint fdalloc_loop (l : list (option nat)) (fd : nat) : option nat :=
  match l with
  | [] => None
  | None :: _ => Some fd
  | Some _ :: l => fdalloc_loop l (S fd)
  end.
Definition setfd (fd : nat) (f : option nat) : M ustate unit := modify (λ s, set_ofile (<[fd := f]> (us_ofile s)) s).
Definition fdalloc (f : nat) : M ustate (option nat) :=
  l ← gets us_ofile;
  match fdalloc_loop l 0 with
  | Some fd => setfd fd (Some f);; mret (Some fd)
  | None => mret None
  end.

Definition sys_dup : M ustate Z :=
  r ← argfd 0;
  match r with
  | None => mret (-1)
  | Some (_, f) =>
    fd ← fdalloc f;
    match fd with
    | None => mret (-1)
    | Some fd => fk (filedup f);; mret (Z.of_nat fd)
    end
  end.

Definition sys_read (kl : bool) : M ustate pipe_result :=
  r ← argfd 0;
  match r with
  | None => mret (PipeDone (-1))
  | Some (_, f) => fk (fileread pid devsw kl f (argaddr 1) (argint 2))
  end.

Definition sys_write (kl : Z → bool) : M ustate pipe_result :=
  r ← argfd 0;
  match r with
  | None => mret (PipeDone (-1))
  | Some (_, f) => fk (filewrite pid begin_op end_op devsw kl f (argaddr 1) (argint 2))
  end.

Definition ufileclose (f : nat) : M ustate unit := fk (fileclose pid begin_op end_op f).

Definition sys_close : M ustate Z :=
  r ← argfd 0;
  match r with
  | None => mret (-1)
  | Some (fd, f) => setfd fd None;; ufileclose f;; mret 0
  end.

Definition sys_fstat : M ustate Z :=
  r ← argfd 0;
  match r with
  | None => mret (-1)
  | Some (_, f) => fk (filestat pid f (argaddr 1))
  end.

Definition unamei (path : list byte) : M ustate (option nat) :=
  cwd ← gets us_cwd;
  fs (namei pid cwd (replicate DIRSIZ Byte.x00) path).
Definition unameiparent (path : list byte) : M ustate (option nat * list byte) :=
  cwd ← gets us_cwd;
  fs (nameiparent pid cwd path (replicate DIRSIZ Byte.x00)).

(** [goto bad] of sys_link(). *)
Definition link_bad (ip : nat) : M ustate Z :=
  fs (ilock pid ip);;
  fs (updi ip (λ x, i_set_nlink (i16 (i_nlink x - 1)) x));;
  fs (iupdate ip);;
  fs (iunlockput pid ip);;
  uend;;
  mret (-1).

Definition sys_link : M ustate Z :=
  old ← argstr 0 MAXPATH;
  match old with
  | None => mret (-1)
  | Some old =>
    new ← argstr 1 MAXPATH;
    match new with
    | None => mret (-1)
    | Some new =>
      ubegin;;
      ip ← unamei old;
      match ip with
      | None => uend;; mret (-1)
      | Some ip =>
        fs (ilock pid ip);;
        x ← uinode ip;
        if i_type x =? T_DIR then fs (iunlockput pid ip);; uend;; mret (-1) else
        fs (updi ip (λ x, i_set_nlink (i16 (i_nlink x + 1)) x));;
        fs (iupdate ip);;
        fs (iunlock pid ip);;
        r ← unameiparent new;
        match r with
        | (None, _) => link_bad ip
        | (Some dp, name) =>
          fs (ilock pid dp);;
          y ← uinode dp;
          x ← uinode ip;
          ok ← (if negb (i_dev y =? i_dev x) then mret false else
                r ← fs (dirlink pid dp name (i_inum x)); mret (negb (r <? 0)));
          fs (iunlockput pid dp);;
          if negb ok then link_bad ip else
          fs (iput pid ip);;
          uend;;
          mret 0
        end
      end
    end
  end.

(** Is the directory dp empty except for "." and ".." ? *)
Fixpoint isdirempty_loop (fuel dp : nat) (off : Z) : M fstate bool :=
  match fuel with
  | O => no_fuel
  | S fuel =>
    x ← gets (geti dp);
    if off <? i_size x then
      r ← readi dp KernDst off sizeof_dirent;
      if negb (r.1 =? sizeof_dirent) then panic "isdirempty: readi" else
      if negb (de_inum (get_dirent r.2) =? 0) then mret false else
      isdirempty_loop fuel dp (off + sizeof_dirent)
    else mret true
  end.
Definition isdirempty (dp : nat) : M fstate bool :=
  x ← gets (geti dp);
  isdirempty_loop (S (Z.to_nat (i_size x))) dp (2 * sizeof_dirent).

Definition unlink_bad (dp : nat) : M ustate Z := fs (iunlockput pid dp);; uend;; mret (-1).

Definition sys_unlink : M ustate Z :=
  path ← argstr 0 MAXPATH;
  match path with
  | None => mret (-1)
  | Some path =>
    ubegin;;
    r ← unameiparent path;
    match r with
    | (None, _) => uend;; mret (-1)
    | (Some dp, name) =>
      fs (ilock pid dp);;
      (* Cannot unlink "." or "..". *)
      if (namecmp name name_dot =? 0) || (namecmp name name_dotdot =? 0) then unlink_bad dp else
      r ← fs (dirlookup dp name);
      match r with
      | None => unlink_bad dp
      | Some (ip, off) =>
        fs (ilock pid ip);;
        x ← uinode ip;
        if i_nlink x <? 1 then panic "unlink: nlink < 1" else
        e ← (if i_type x =? T_DIR then fs (isdirempty ip) else mret true);
        if negb e then fs (iunlockput pid ip);; unlink_bad dp else
        r ← fs (writei dp (KernSrc (replicate (Z.to_nat sizeof_dirent) Byte.x00)) off sizeof_dirent);
        if negb (r =? sizeof_dirent) then panic "unlink: writei" else
        x ← uinode ip;
        (if i_type x =? T_DIR then
           fs (updi dp (λ x, i_set_nlink (i16 (i_nlink x - 1)) x));; fs (iupdate dp)
         else mret tt);;
        fs (iunlockput pid dp);;
        fs (updi ip (λ x, i_set_nlink (i16 (i_nlink x - 1)) x));;
        fs (iupdate ip);;
        fs (iunlockput pid ip);;
        uend;;
        mret 0
      end
    end
  end.

(** [goto fail] of create(). *)
Definition create_fail (ip dp : nat) : M ustate (option nat) :=
  fs (updi ip (i_set_nlink 0));;
  fs (iupdate ip);;
  fs (iunlockput pid ip);;
  fs (iunlockput pid dp);;
  mret None.

(** dirlink() succeeds. *)
Definition linked (dp : nat) (name : list byte) (inum : Z) : M ustate bool :=
  r ← fs (dirlink pid dp name inum); mret (negb (r <? 0)).

Definition create (path : list byte) (type major minor : Z) : M ustate (option nat) :=
  r ← unameiparent path;
  match r with
  | (None, _) => mret None
  | (Some dp, name) =>
    fs (ilock pid dp);;
    r ← fs (dirlookup dp name);
    match r with
    | Some (ip, _) =>
      fs (iunlockput pid dp);;
      fs (ilock pid ip);;
      x ← uinode ip;
      if (type =? T_FILE) && ((i_type x =? T_FILE) || (i_type x =? T_DEVICE)) then mret (Some ip) else
      fs (iunlockput pid ip);;
      mret None
    | None =>
      y ← uinode dp;
      r ← fs (ialloc (i_dev y) type);
      match r with
      | None => fs (iunlockput pid dp);; mret None
      | Some ip =>
        fs (ilock pid ip);;
        fs (updi ip (i_set_dev major minor));;
        fs (updi ip (i_set_nlink 1));;
        fs (iupdate ip);;
        x ← uinode ip;
        y ← uinode dp;
        ok ← (if type =? T_DIR then      (* Create . and .. entries. *)
                ok ← linked ip name_dot (i_inum x);
                if ok : bool then linked ip name_dotdot (i_inum y) else mret false
              else mret true);
        if negb ok then create_fail ip dp else
        ok ← linked dp name (i_inum x);
        if negb ok then create_fail ip dp else
        (if type =? T_DIR then
           fs (updi dp (λ x, i_set_nlink (i16 (i_nlink x + 1)) x));;  (* for ".." *)
           fs (iupdate dp)
         else mret tt);;
        fs (iunlockput pid dp);;
        mret (Some ip)
      end
    end
  end.

(** sys_open() with the inode [ip] locked. *)
Definition open_inode (ip : nat) (omode : Z) : M ustate Z :=
  x ← uinode ip;
  if (i_type x =? T_DEVICE) && ((i_major x <? 0) || (NDEV <=? i_major x)) then
    fs (iunlockput pid ip);; uend;; mret (-1)
  else
  f ← fk filealloc;
  fd ← (match f with Some f => fdalloc f | None => mret None end);
  match f, fd with
  | Some f, Some fd =>
    fk (if i_type x =? T_DEVICE then updf f (f_set_type FD_DEVICE);; updf f (f_set_major (i_major x))
        else updf f (f_set_type FD_INODE);; updf f (f_set_off 0));;
    fk (updf f (f_set_ip ip));;
    fk (updf f (f_set_rw (Z.land omode O_WRONLY =? 0) (negb (Z.land omode O_WRONLY =? 0) || negb (Z.land omode O_RDWR =? 0))));;
    (if negb (Z.land omode O_TRUNC =? 0) && (i_type x =? T_FILE) then fs (itrunc ip) else mret tt);;
    fs (iunlock pid ip);;
    uend;;
    mret (Z.of_nat fd)
  | _, _ =>
    (match f with Some f => ufileclose f | None => mret tt end);;
    fs (iunlockput pid ip);;
    uend;;
    mret (-1)
  end.

Definition sys_open : M ustate Z :=
  let omode := argint 1 in
  path ← argstr 0 MAXPATH;
  match path with
  | None => mret (-1)
  | Some path =>
    ubegin;;
    if negb (Z.land omode O_CREATE =? 0) then
      ip ← create path T_FILE 0 0;
      match ip with
      | None => uend;; mret (-1)
      | Some ip => open_inode ip omode
      end
    else
      ip ← unamei path;
      match ip with
      | None => uend;; mret (-1)
      | Some ip =>
        fs (ilock pid ip);;
        x ← uinode ip;
        if (i_type x =? T_DIR) && negb (omode =? O_RDONLY) then fs (iunlockput pid ip);; uend;; mret (-1)
        else open_inode ip omode
      end
  end.

(** sys_mkdir() and sys_mknod() after the path has been fetched. *)
Definition make_node (path : option (list byte)) (type major minor : Z) : M ustate Z :=
  ip ← (match path with Some path => create path type major minor | None => mret None end);
  match ip with
  | None => uend;; mret (-1)
  | Some ip => fs (iunlockput pid ip);; uend;; mret 0
  end.

Definition sys_mkdir : M ustate Z :=
  ubegin;;
  path ← argstr 0 MAXPATH;
  make_node path T_DIR 0 0.

Definition sys_mknod : M ustate Z :=
  ubegin;;
  let major := argint 1 in
  let minor := argint 2 in
  path ← argstr 0 MAXPATH;
  make_node path T_DEVICE (i16 major) (i16 minor).

Definition sys_chdir : M ustate Z :=
  ubegin;;
  path ← argstr 0 MAXPATH;
  ip ← (match path with Some path => unamei path | None => mret None end);
  match ip with
  | None => uend;; mret (-1)
  | Some ip =>
    fs (ilock pid ip);;
    x ← uinode ip;
    if negb (i_type x =? T_DIR) then fs (iunlockput pid ip);; uend;; mret (-1) else
    fs (iunlock pid ip);;
    cwd ← gets us_cwd;
    fs (iput pid cwd);;
    uend;;
    modify (set_cwd ip);;
    mret 0
  end.

Definition ucopyout (va : Z) (l : list byte) : M ustate bool :=
  r ← fs (either_copyout (UserDst va) 0 l []); mret r.1.

Definition sys_pipe : M ustate Z :=
  let fdarray := argaddr 0 in
  r ← fk (pipealloc pid begin_op end_op);
  match r with
  | None => mret (-1)
  | Some (rf, wf) =>
    fd0 ← fdalloc rf;
    fd1 ← (match fd0 with Some _ => fdalloc wf | None => mret None end);
    match fd0, fd1 with
    | Some fd0, Some fd1 =>
      ok ← ucopyout fdarray (le_split 4 (Z.of_nat fd0));
      ok ← (if ok : bool then ucopyout (u64 (fdarray + 4)) (le_split 4 (Z.of_nat fd1)) else mret false);
      if ok : bool then mret 0 else
      setfd fd0 None;;
      setfd fd1 None;;
      ufileclose rf;;
      ufileclose wf;;
      mret (-1)
    | _, _ =>
      (match fd0 with Some fd0 => setfd fd0 None | None => mret tt end);;
      ufileclose rf;;
      ufileclose wf;;
      mret (-1)
    end
  end.
End sysfile.
