(* ===== verification/SysfileThms.v ===== *)
(** * kernel/sysfile.c: descriptors and reference counts

    [at_refs b l] describes the open files by their reference counts [b] and
    the caller's descriptors [l].  Each function of file.c and sysfile.c is
    given by what it does to the two, as a triple [tri]; every system call of
    sysfile.c (exec() is in [Exec]) changes a file's reference count by as much as the number of descriptors
    the caller has for it. *)

From stdpp Require Import base gmap sets strings numbers list.
From coqutil Require Import Byte Word.LittleEndianList.
From S2P Require Import Prelude Mem Riscv Spinlock Kalloc Block Sleeplock Fs FsPath Pipe File Sysfile Bio Log LogSys LogThms BlockLog FsThms.

(** Descriptors for file [g]. *)
Fixpoint fds_of (g : nat) (l : list (option nat)) : Z :=
  match l with
  | [] => 0
  | x :: l => (if decide (x = Some g) then 1 else 0) + fds_of g l
  end.

Definition one (f g : nat) : Z := if decide (f = g) then 1 else 0.

Lemma fds_of_insert g l fd x y : l !! fd = Some x →
  fds_of g (<[fd := y]> l) = fds_of g l - (if decide (x = Some g) then 1 else 0) + (if decide (y = Some g) then 1 else 0).
Proof.
  revert fd. induction l as [|z l IH]; intros [|fd] Hl; simpl in *; [done|done|injection Hl as ->; lia|]. rewrite (IH fd Hl). lia.
Qed.

Lemma fds_of_open g l fd f : l !! fd = Some None → fds_of g (<[fd := Some f]> l) = fds_of g l + one f g.
Proof. intros Hl. rewrite (fds_of_insert g l fd None) by done. unfold one. repeat case_decide; try done; try lia; naive_solver lia. Qed.

Lemma fds_of_close g l fd f : l !! fd = Some (Some f) → fds_of g (<[fd := None]> l) = fds_of g l - one f g.
Proof. intros Hl. rewrite (fds_of_insert g l fd (Some f)) by done. unfold one. repeat case_decide; try done; try lia; naive_solver lia. Qed.

Lemma fdalloc_loop_spec l fd r : fdalloc_loop l fd = Some r → ∃ j, r = (fd + j)%nat ∧ l !! j = Some None ∧ ∀ k, (k < j)%nat → ∃ f, l !! k = Some (Some f).
Proof.
  revert fd. induction l as [|[f|] l IH]; intros fd E; simpl in E; [done| |].
  - destruct (IH (S fd) E) as (j & -> & Hj & Hk). exists (S j). split_and!; [lia|done|]. intros [|k] Hlt; [by exists f|]. apply Hk. lia.
  - injection E as <-. exists 0%nat. split_and!; [lia|done|]. lia.
Qed.

Section thms.
Context {I : image} {PA : PageAllocator} {B : BlockLayer} {U : UserMem} (pid : Z).
Context (begin_op end_op : M bl_state unit).

(** File [g]'s reference count is [b g]. *)
Definition refs (b : nat → Z) (s : fkstate) : Prop := ∀ g, f_ref (ftab s !!! g) = b g.

(** [alter] at an index that may be out of range. *)
Lemma refs_alter b s f h (d : Z) : refs b s → (∀ x, f_ref (h x) = f_ref x + d) → (d = 0 ∨ (f < length (ftab s))%nat) →
  refs (λ g, b g + d * one f g) (set_ftab (alter h f (ftab s)) s).
Proof.
  intros Hb Hh Hf g. simpl. unfold one. rewrite <- (Hb g). rewrite !list_lookup_total_alt. case_decide as Hfg.
  - subst g. rewrite list_lookup_alter_eq. destruct (ftab s !! f) as [x|] eqn:E; simpl; [rewrite Hh; lia|].
    apply lookup_ge_None in E. destruct Hf; lia.
  - rewrite list_lookup_alter_ne by done. lia.
Qed.

Lemma refs_ext b b' s : refs b s → (∀ g, b' g = b g) → refs b' s.
Proof. intros Hb He g. by rewrite He. Qed.

Lemma fsm_refs {A} b (m : M fstate A) : tri (refs b) (fsm m) (λ _, refs b).
Proof. apply tri_zoom. done. Qed.
Lemma kmm_refs {A} b (m : M mstate A) : tri (refs b) (kmm m) (λ _, refs b).
Proof. apply tri_zoom. done. Qed.

Lemma pipem_refs {A} b pi (m : M pstate A) : tri (refs b) (pipem pi m) (λ _, refs b).
Proof.
  intros s a s' Hb E. unfold pipem in E. destruct (k_pipes s !! pi); [|done]. destruct (m _); try done. injection E as _ <-. exact Hb.
Qed.

Lemma acquire_refs b : tri (refs b) acquire_ft (λ _, refs b).
Proof. intros s a s' Hb. unfold acquire_ft, acquire_flag, gets, modify, mbind, M_bind. destruct (ft_lock s); [done|]. by intros [= <- <-]. Qed.
Lemma release_refs b : tri (refs b) release_ft (λ _, refs b).
Proof. intros s a s' Hb. unfold release_ft, release_flag, gets, modify, mbind, M_bind. destruct (ft_lock s); [|done]. by intros [= <- <-]. Qed.

Lemma updf_refs b f h : (∀ x, f_ref (h x) = f_ref x) → tri (refs b) (updf f h) (λ _, refs b).
Proof.
  intros Hh. apply tri_modify. intros s Hb. eapply refs_ext; [apply (refs_alter b s f h 0); [done|intros x; rewrite Hh; lia|by left]|].
  intros g. cbn beta. lia.
Qed.

Lemma filealloc_loop_spec l i r : filealloc_loop l i = Some r → ∃ j x, r = (i + j)%nat ∧ l !! j = Some x ∧ f_ref x = 0.
Proof.
  revert i. induction l as [|x l IH]; intros i E; simpl in E; [done|]. destruct (Z.eqb_spec (f_ref x) 0) as [H0|_].
  - injection E as <-. exists 0%nat, x. split_and!; [lia|done|done].
  - destruct (IH (S i) E) as (j & y & -> & ? & ?). exists (S j), y. split_and!; [lia|done|done].
Qed.

(** filealloc(): a file that had no references. *)
Lemma filealloc_refs b : tri (refs b) filealloc (λ r s, match r with None => refs b s | Some f => refs (λ g, b g + one f g) s ∧ b f = 0 end).
Proof.
  unfold filealloc. eapply tri_bind; [apply acquire_refs|intros ?; cbn beta]. eapply tri_bind; [apply tri_gets|intros l]. simpl.
  destruct (filealloc_loop l 0) as [f|] eqn:E.
  - apply filealloc_loop_spec in E as (j & x & -> & Hx & H0). simpl.
    eapply (tri_bind _ (λ _ s, refs (λ g, b g + one j g) s ∧ b j = 0)).
    + apply tri_modify. intros s [Hb ->]. assert (Hlk : ftab s !!! j = x) by (by apply list_lookup_total_correct).
      assert (Hbj : b j = 0) by (rewrite <- Hb, Hlk; done). split; [|done]. intros g. simpl. unfold one.
      rewrite <- (Hb g), !list_lookup_total_alt. case_decide as Hjg.
      * subst g. rewrite list_lookup_alter_eq, Hx. simpl. lia.
      * rewrite list_lookup_alter_ne by done. lia.
    + intros ?. apply tri_and. intros Hbj. eapply tri_bind; [apply release_refs|intros ?; cbn beta]. by apply tri_ret.
  - eapply tri_pre; [intros s [Hb _]; exact Hb|]. eapply tri_bind; [apply release_refs|intros ?; cbn beta]. by apply tri_ret.
Qed.

(** An open file is in the table. *)
Lemma refs_range b s f : refs b s → 0 < b f → (f < length (ftab s))%nat.
Proof.
  intros Hb Hf. apply Nat.nle_gt. intros Hge. specialize (Hb f). rewrite list_lookup_total_alt, lookup_ge_None_2 in Hb by done.
  simpl in Hb. unfold inhabitant in Hb. simpl in Hb. lia.
Qed.

Lemma filedup_refs b f : tri (refs b) (filedup f) (λ _, refs (λ g, b g + one f g)).
Proof.
  unfold filedup. eapply tri_bind; [apply acquire_refs|intros ?; cbn beta]. eapply tri_bind; [apply tri_gets|intros x]. simpl.
  destruct (Z.ltb_spec (f_ref x) 1); [apply tri_panic|].
  eapply (tri_bind _ (λ _, refs (λ g, b g + one f g))); [|intros ?; cbn beta; eapply tri_bind; [apply release_refs|intros ?; cbn beta; by apply tri_ret]].
  apply tri_modify. intros s [Hb ->]. assert (Hf : (f < length (ftab s))%nat).
  { apply (refs_range b); [done|]. rewrite <- Hb. change (0 < f_ref (getf f s)). lia. }
  destruct (lookup_lt_is_Some_2 (ftab s) f Hf) as [y Hy]. intros g. simpl. unfold one. rewrite <- (Hb g), !list_lookup_total_alt. unfold getf.
  case_decide as Hfg; [subst g; rewrite list_lookup_alter_eq, list_lookup_total_alt, Hy; done|]. rewrite list_lookup_alter_ne by done. lia.
Qed.

Lemma pipeclose_free_refs b pi w : tri (refs b) (pipeclose_free pi w) (λ _, refs b).
Proof.
  unfold pipeclose_free. eapply tri_bind; [apply pipem_refs|intros []; [|by apply tri_ret]].
  eapply (tri_bind _ (λ _, refs b)); [by apply tri_modify|intros ?; cbn beta; apply kmm_refs].
Qed.

Lemma fileclose_refs b f : tri (refs b) (fileclose pid begin_op end_op f) (λ _, refs (λ g, b g - one f g)).
Proof.
  unfold fileclose. eapply tri_bind; [apply acquire_refs|intros ?; cbn beta]. eapply tri_bind; [apply tri_gets|intros x]. simpl.
  destruct (Z.ltb_spec (f_ref x) 1); [apply tri_panic|].
  eapply (tri_bind _ (λ _ s, refs (λ g, b g - one f g) s ∧ b f = f_ref x)).
  { apply tri_modify. intros s [Hb ->]. assert (Hbf : b f = f_ref (getf f s)) by (by rewrite <- Hb). split; [|done].
    assert (Hf : (f < length (ftab s))%nat) by (apply (refs_range b); [done|lia]).
    destruct (lookup_lt_is_Some_2 (ftab s) f Hf) as [y Hy]. intros g. simpl. unfold one. rewrite <- (Hb g), !list_lookup_total_alt. unfold getf.
    case_decide as Hfg; [subst g; rewrite list_lookup_alter_eq, list_lookup_total_alt, Hy; done|]. rewrite list_lookup_alter_ne by done. lia. }
  intros ?. apply tri_and. intros Hbf. destruct (Z.ltb_spec 0 (f_ref x - 1)); [apply release_refs|].
  eapply tri_bind; [apply tri_gets|intros ff]. eapply tri_pre; [intros s [Hb _]; exact Hb|].
  eapply (tri_bind _ (λ _, refs (λ g, b g - one f g))).
  { apply tri_modify. intros s Hb g. simpl. destruct (decide (f = g)) as [->|Hne].
    - rewrite list_lookup_total_alt, list_lookup_alter_eq. specialize (Hb g). rewrite list_lookup_total_alt in Hb. unfold one in *.
      rewrite decide_True in * by done. destruct (ftab s !! g); simpl in *; lia.
    - rewrite <- (Hb g), !list_lookup_total_alt, list_lookup_alter_ne by done. done. }
  intros ?. cbn beta. eapply tri_bind; [apply release_refs|intros ?; cbn beta]. destruct (f_type ff); try by apply tri_ret.
  - apply pipeclose_free_refs.
  - eapply tri_bind; [apply fsm_refs|intros ?; cbn beta]. eapply tri_bind; [apply fsm_refs|intros ?; cbn beta]. apply fsm_refs.
  - eapply tri_bind; [apply fsm_refs|intros ?; cbn beta]. eapply tri_bind; [apply fsm_refs|intros ?; cbn beta]. apply fsm_refs.
Qed.

Lemma close_opt_refs b f : tri (refs b) (close_opt pid begin_op end_op f) (λ _, refs (λ g, b g - match f with Some f => one f g | None => 0 end)).
Proof.
  destruct f as [f|]; [apply fileclose_refs|]. apply tri_ret. intros s Hb. eapply refs_ext; [exact Hb|]. intros g. lia.
Qed.

(** pipealloc(): two new references, or none. *)
Lemma pipealloc_refs b : tri (refs b) (pipealloc pid begin_op end_op)
  (λ r s, match r with None => refs b s | Some (i, j) => refs (λ g, b g + one i g + one j g) s end).
Proof.
  assert (Hundo : ∀ b' f0 f1, (∀ g, b' g = b g + match f0 with Some f => one f g | None => 0 end + match f1 with Some f => one f g | None => 0 end) →
    tri (refs b') (close_opt pid begin_op end_op f0;; close_opt pid begin_op end_op f1;; mret None : M fkstate (option (nat * nat)))
      (λ r s, match r with None => refs b s | Some (i, j) => refs (λ g, b g + one i g + one j g) s end)).
  { intros b' f0 f1 Hb'. eapply tri_bind; [apply close_opt_refs|intros ?; cbn beta]. eapply tri_bind; [apply close_opt_refs|intros ?; cbn beta].
    apply tri_ret. intros s Hb. eapply refs_ext; [exact Hb|]. intros g. simpl. rewrite Hb'. destruct f0, f1; lia. }
  unfold pipealloc. eapply tri_bind; [apply filealloc_refs|intros [i|]]; simpl.
  - apply tri_and. intros ?. cbn beta. eapply tri_bind; [apply filealloc_refs|intros [j|]]; simpl.
    + apply tri_and. intros ?. cbn beta. eapply tri_bind; [apply kmm_refs|intros pi]. simpl. destruct (pi =? 0); [by apply (Hundo _ (Some i) (Some j))|].
      eapply (tri_bind _ (λ _, refs (λ g, b g + one i g + one j g))); [by apply tri_modify|intros ?; cbn beta].
      eapply tri_bind; [by apply updf_refs|intros ?; cbn beta]. eapply tri_bind; [by apply updf_refs|intros ?; cbn beta]. by apply tri_ret.
    + apply (Hundo _ (Some i) None). intros g. lia.
  - eapply tri_bind; [by apply (tri_ret _ _ (λ r s, refs b s ∧ r = None))|intros r]. apply tri_and. intros ->. apply (Hundo _ None None). intros g. lia.
Qed.

(** ** System calls *)

Context (devsw : Z → dev fkstate) (args : nat → Z).

Definition at_refs (b : nat → Z) (l : list (option nat)) (s : ustate) : Prop := refs b (us_k s) ∧ us_ofile s = l.

Lemma fk_at {A} b l (m : M fkstate A) Q : tri (refs b) m Q → tri (at_refs b l) (fk m) (λ a s, Q a (us_k s) ∧ us_ofile s = l).
Proof. intros Hm s a s' [Hb Hl] (t & E & ->)%zoom_Ret_inv. split; [|done]. exact (Hm _ _ _ Hb E). Qed.

Lemma fs_at {A} b l (m : M fstate A) : tri (at_refs b l) (fs m) (λ _, at_refs b l).
Proof. apply (fk_at b l (fsm m) (λ _, refs b)), fsm_refs. Qed.
Lemma ubegin_at b l : tri (at_refs b l) (ubegin begin_op) (λ _, at_refs b l).
Proof. apply (fk_at b l _ (λ _, refs b)), fsm_refs. Qed.
Lemma uend_at b l : tri (at_refs b l) (uend end_op) (λ _, at_refs b l).
Proof. apply (fk_at b l _ (λ _, refs b)), fsm_refs. Qed.
Lemma gets_at {A} b l (f : ustate → A) : tri (at_refs b l) (gets f) (λ _, at_refs b l).
Proof. intros s a s' H [= <- <-]. done. Qed.
Lemma updf_at b l f h : (∀ x, f_ref (h x) = f_ref x) → tri (at_refs b l) (fk (updf f h)) (λ _, at_refs b l).
Proof. intros Hh. apply (fk_at b l _ (λ _, refs b)). by apply updf_refs. Qed.

Lemma at_bind {A C} b l (m : M ustate A) k (Q : C → ustate → Prop) :
  tri (at_refs b l) m (λ _, at_refs b l) → (∀ a, tri (at_refs b l) (k a) Q) → tri (at_refs b l) (m ≫= k) Q.
Proof. intros Hm Hk. by eapply tri_bind. Qed.

(** [neutral]: code that touches neither the reference counts nor the
    descriptors. *)
Ltac neutral :=
  repeat match goal with
  | |- tri _ (_ ≫= _) _ => apply at_bind; [|intros ?; cbn beta]
  | |- tri _ (if ?x then _ else _) _ => destruct x
  | |- tri _ (match ?x with _ => _ end) _ => destruct x
  | |- tri _ (panic _) _ => apply tri_panic
  | |- tri _ (mret _) _ => apply tri_ret; intros ? ?; assumption
  | |- tri _ (fs _) _ => apply fs_at
  | |- tri _ (uinode _) _ => apply gets_at
  | |- tri _ (gets _) _ => apply gets_at
  | |- tri _ (argstr _ _ _) _ => apply gets_at
  | |- tri _ (ubegin _) _ => apply ubegin_at
  | |- tri _ (uend _) _ => apply uend_at
  | |- tri _ (unamei _ _) _ => unfold unamei
  | |- tri _ (unameiparent _ _) _ => unfold unameiparent
  | |- tri _ (linked _ _ _ _) _ => unfold linked
  | |- tri _ (create_fail _ _ _) _ => unfold create_fail
  | |- tri _ (link_bad _ _ _) _ => unfold link_bad
  | |- tri _ (unlink_bad _ _ _) _ => unfold unlink_bad
  | |- tri _ (ucopyout _ _) _ => unfold ucopyout
  end.

Lemma create_at b l path ty mj mn : tri (at_refs b l) (create pid path ty mj mn) (λ _, at_refs b l).
Proof. unfold create. neutral. Qed.
Lemma sys_link_at b l : tri (at_refs b l) (sys_link pid begin_op end_op args) (λ _, at_refs b l).
Proof. unfold sys_link. neutral. Qed.
Lemma sys_unlink_at b l : tri (at_refs b l) (sys_unlink pid begin_op end_op args) (λ _, at_refs b l).
Proof. unfold sys_unlink. neutral. Qed.
Lemma make_node_at b l path ty mj mn : tri (at_refs b l) (make_node pid end_op path ty mj mn) (λ _, at_refs b l).
Proof. unfold make_node. neutral. apply create_at. Qed.

(** The counts and descriptors go together. *)
Definition balanced (b : nat → Z) (l : list (option nat)) (s : ustate) : Prop :=
  ∀ g, f_ref (getf g (us_k s)) - fds_of g (us_ofile s) = b g - fds_of g l.

Lemma balanced_at b l b' l' s : at_refs b' l' s → (∀ g, b' g - fds_of g l' = b g - fds_of g l) → balanced b l s.
Proof. intros [Hb Hl] H g. rewrite Hl, <- H. f_equal. apply Hb. Qed.

Lemma argfd_at b l n : tri (at_refs b l) (argfd args n) (λ r s, at_refs b l s ∧ match r with Some (fd, f) => l !! fd = Some (Some f) | None => True end).
Proof.
  intros s r s' [Hb Hl]. unfold argfd, gets, mbind, M_bind. rewrite Hl. destruct (_ || _); intros [= <- <-]; [done|]. split; [done|].
  rewrite list_lookup_total_alt. destruct (l !! _) as [[f|]|] eqn:E; simpl; [done|done|]. done.
Qed.

Lemma fdalloc_at b l f : tri (at_refs b l) (fdalloc f)
  (λ r s, match r with Some fd => at_refs b (<[fd := Some f]> l) s ∧ l !! fd = Some None | None => at_refs b l s end).
Proof.
  intros s r s' [Hb Hl]. unfold fdalloc, gets, setfd, modify, mbind, M_bind. rewrite Hl. destruct (fdalloc_loop l 0) as [fd|] eqn:E.
  - apply fdalloc_loop_spec in E as (j & Hj & Hn & _). simpl in Hj. subst fd. intros [= <- <-]. split; [|done]. split; [done|]. simpl. by rewrite Hl.
  - intros [= <- <-]. done.
Qed.

Lemma setfd_at b l fd x : tri (at_refs b l) (setfd fd x) (λ _, at_refs b (<[fd := x]> l)).
Proof. apply tri_modify. intros s [Hb Hl]. split; [done|]. simpl. by rewrite Hl. Qed.

Lemma ufileclose_at b l f : tri (at_refs b l) (ufileclose pid begin_op end_op f) (λ _, at_refs (λ g, b g - one f g) l).
Proof. apply (fk_at b l _ (λ _, refs (λ g, b g - one f g))), fileclose_refs. Qed.

Ltac bal := apply tri_ret; intros ? Hat; eapply balanced_at; [exact Hat|]; intros ?; cbn beta;
  rewrite ?fds_of_open, ?(fds_of_close _ _ _ _ ltac:(eassumption)) by assumption; lia.

Lemma sys_dup_balanced b l : tri (at_refs b l) (sys_dup args) (λ _, balanced b l).
Proof.
  unfold sys_dup. eapply tri_bind; [apply argfd_at|intros [[fd0 f]|]]; cbn beta; apply tri_and; intros Hf; [|bal].
  eapply tri_bind; [apply fdalloc_at|intros [fd|]]; cbn beta; [|bal]. apply tri_and. intros Hfd.
  eapply (tri_bind _ (λ _, at_refs (λ g, b g + one f g) (<[fd := Some f]> l))); [|intros ?; bal].
  apply (fk_at _ _ _ (λ _, refs (λ g, b g + one f g))), filedup_refs.
Qed.

Lemma sys_close_balanced b l : tri (at_refs b l) (sys_close pid begin_op end_op args) (λ _, balanced b l).
Proof.
  unfold sys_close. eapply tri_bind; [apply argfd_at|intros [[fd f]|]]; cbn beta; apply tri_and; intros Hf; [|bal].
  eapply tri_bind; [apply setfd_at|intros ?]. eapply tri_bind; [apply ufileclose_at|intros ?]. bal.
Qed.

Lemma open_inode_balanced b l ip om : tri (at_refs b l) (open_inode pid begin_op end_op ip om) (λ _, balanced b l).
Proof.
  unfold open_inode. apply at_bind; [apply gets_at|intros x]. cbn beta.
  destruct (_ && _).
  { apply at_bind; [apply fs_at|intros ?]. apply at_bind; [apply uend_at|intros ?]. bal. }
  eapply tri_bind; [apply fk_at, filealloc_refs|intros [f|]]; cbn beta.
  - eapply (tri_pre _ (λ s, at_refs (λ g, b g + one f g) l s)); [by intros s [[? _] ?]|].
    eapply tri_bind; [apply fdalloc_at|intros [fd|]]; cbn beta.
    + apply tri_and. intros Hfd.
      apply at_bind; [destruct (_ =? _); apply (fk_at _ _ _ (λ _, refs (λ g, b g + one f g))); (eapply tri_bind; [by apply updf_refs|intros ?; by apply updf_refs])|intros ?].
      apply at_bind; [by apply updf_at|intros ?]. apply at_bind; [by apply updf_at|intros ?].
      apply at_bind; [neutral|intros ?]. apply at_bind; [apply fs_at|intros ?]. apply at_bind; [apply uend_at|intros ?]. bal.
    + eapply tri_bind; [apply ufileclose_at|intros ?]; cbn beta. apply at_bind; [apply fs_at|intros ?]. apply at_bind; [apply uend_at|intros ?]. bal.
  - eapply (tri_pre _ (at_refs b l)); [done|]. apply at_bind; [neutral|intros fd]. destruct fd;
      (apply at_bind; [neutral|intros ?]; apply at_bind; [apply fs_at|intros ?]; apply at_bind; [apply uend_at|intros ?]; bal).
Qed.

Lemma sys_open_balanced b l : tri (at_refs b l) (sys_open pid begin_op end_op args) (λ _, balanced b l).
Proof.
  unfold sys_open. apply at_bind; [neutral|intros [path|]]; [|bal]. apply at_bind; [neutral|intros ?]. destruct (negb _).
  - apply at_bind; [apply create_at|intros [ip|]]; [apply open_inode_balanced|]. apply at_bind; [neutral|intros ?]. bal.
  - apply at_bind; [neutral|intros [ip|]]; [|apply at_bind; [neutral|intros ?]; bal].
    apply at_bind; [neutral|intros ?]. apply at_bind; [neutral|intros x]. destruct (_ && _); [|apply open_inode_balanced].
    apply at_bind; [neutral|intros ?]. apply at_bind; [neutral|intros ?]. bal.
Qed.

Lemma sys_pipe_balanced b l : tri (at_refs b l) (sys_pipe pid begin_op end_op args) (λ _, balanced b l).
Proof.
  unfold sys_pipe. eapply tri_bind; [apply fk_at, pipealloc_refs|intros [[rf wf]|]]; cbn beta; [|].
  2: { eapply (tri_pre _ (at_refs b l)); [done|]. bal. }
  eapply (tri_pre _ (at_refs (λ g, b g + one rf g + one wf g) l)); [done|].
  eapply tri_bind; [apply fdalloc_at|intros [fd0|]]; cbn beta.
  - apply tri_and. intros H0. eapply tri_bind; [apply fdalloc_at|intros [fd1|]]; cbn beta.
    + apply tri_and. intros H1. apply at_bind; [neutral|intros ok]. apply at_bind; [neutral|intros ok']. destruct ok'; [bal|].
      assert (fd0 ≠ fd1). { intros ->. rewrite list_lookup_insert_eq in H1; [done|]. by apply lookup_lt_Some in H0. }
      rewrite list_lookup_insert_ne in H1 by done.
      assert (H0' : <[fd1:=Some wf]> (<[fd0:=Some rf]> l) !! fd0 = Some (Some rf)).
      { rewrite list_lookup_insert_ne by done. rewrite list_lookup_insert_eq; [done|]. by apply lookup_lt_Some in H0. }
      eapply tri_bind; [apply setfd_at|intros ?]. eapply tri_bind; [apply setfd_at|intros ?].
      eapply tri_bind; [apply ufileclose_at|intros ?]. eapply tri_bind; [apply ufileclose_at|intros ?]. cbn beta.
      apply tri_ret. intros s Hat. eapply balanced_at; [exact Hat|]. intros g. cbn beta.
      rewrite (fds_of_close _ _ fd1 wf), (fds_of_close _ _ fd0 rf); [|done|].
      * rewrite fds_of_open by (by rewrite list_lookup_insert_ne). rewrite fds_of_open by done. lia.
      * rewrite list_lookup_insert_ne by done. apply list_lookup_insert_eq. rewrite length_insert. by apply lookup_lt_Some in H1.
    + eapply tri_bind; [apply setfd_at|intros ?]. eapply tri_bind; [apply ufileclose_at|intros ?]. eapply tri_bind; [apply ufileclose_at|intros ?]. cbn beta.
      apply tri_ret. intros s Hat. eapply balanced_at; [exact Hat|]. intros g. cbn beta.
      rewrite (fds_of_close _ _ fd0 rf) by (apply list_lookup_insert_eq; by apply lookup_lt_Some in H0). rewrite fds_of_open by done. lia.
  - apply at_bind; [neutral|intros fd1]. destruct fd1;
      (apply at_bind; [neutral|intros ?]; eapply tri_bind; [apply ufileclose_at|intros ?]; eapply tri_bind; [apply ufileclose_at|intros ?]; cbn beta; bal).
Qed.

Lemma sys_chdir_at b l : tri (at_refs b l) (sys_chdir pid begin_op end_op args) (λ _, at_refs b l).
Proof. unfold sys_chdir. neutral. apply tri_modify. done. Qed.

Lemma sys_fstat_at b l : tri (at_refs b l) (sys_fstat pid args) (λ _, at_refs b l).
Proof.
  unfold sys_fstat. eapply tri_bind; [apply argfd_at|intros [[fd f]|]]; cbn beta; apply tri_and; intros Hf; [|by apply tri_ret].
  apply (fk_at b l _ (λ _, refs b)). unfold filestat. eapply (tri_bind _ (λ _, refs b)); [eapply tri_post; [apply tri_gets|by intros a s []]|intros x].
  destruct (f_type x); try (by apply tri_ret);
    repeat (eapply tri_bind; [apply fsm_refs|intros ?; cbn beta]); by apply tri_ret.
Qed.

(** read() and write() change a file's offset, a pipe or an inode, and run the
    functions of a device, which keep the reference counts. *)
Definition devs_keep : Prop := ∀ b mj,
  (∀ rd addr n, dev_read (devsw mj) = Some rd → tri (refs b) (rd addr n) (λ _, refs b)) ∧
  (∀ wr addr n, dev_write (devsw mj) = Some wr → tri (refs b) (wr addr n) (λ _, refs b)).

Lemma refs_bind {A C} b (m : M fkstate A) k (Q : C → fkstate → Prop) :
  tri (refs b) m (λ _, refs b) → (∀ a, tri (refs b) (k a) Q) → tri (refs b) (m ≫= k) Q.
Proof. intros Hm Hk. by eapply tri_bind. Qed.
Lemma gets_refs {A} b (f : fkstate → A) : tri (refs b) (gets f) (λ _, refs b).
Proof. intros s a s' H [= <- <-]. done. Qed.
Lemma off_refs b f (c : bool) (r : Z) : tri (refs b) (if c then updf f (λ x, f_set_off (u32 (f_off x + r)) x) else mret tt) (λ _, refs b).
Proof. destruct c; [by apply updf_refs|by apply tri_ret]. Qed.

Lemma fileread_refs b kl i addr n : devs_keep → tri (refs b) (fileread pid devsw kl i addr n) (λ _, refs b).
Proof.
  intros Hd. unfold fileread. apply refs_bind; [apply gets_refs|intros f]. destruct (negb _); [by apply tri_ret|]. destruct (f_type f).
  - apply tri_panic.
  - apply pipem_refs.
  - do 2 (apply refs_bind; [apply fsm_refs|intros ?]). apply refs_bind; [apply off_refs|intros ?].
    apply refs_bind; [apply fsm_refs|intros ?]. by apply tri_ret.
  - destruct (_ || _); [by apply tri_ret|]. destruct (dev_read _) as [rd|] eqn:E; [|by apply tri_ret].
    apply refs_bind; [exact (proj1 (Hd b (f_major f)) rd addr n E)|intros r]. by apply tri_ret.
Qed.

Lemma filewrite_loop_refs b fuel fi addr i n : tri (refs b) (filewrite_loop pid begin_op end_op fuel fi addr i n) (λ _, refs b).
Proof.
  revert i. induction fuel as [|fuel IH]; intros i; cbn [filewrite_loop]; [by intros s a s'|]. destruct (i <? n); [|by apply tri_ret].
  apply refs_bind; [apply gets_refs|intros f]. cbv zeta. do 3 (apply refs_bind; [apply fsm_refs|intros ?]).
  apply refs_bind; [apply off_refs|intros ?]. do 2 (apply refs_bind; [apply fsm_refs|intros ?]).
  destruct (negb _); [by apply tri_ret|apply IH].
Qed.

Lemma filewrite_refs b kl i addr n : devs_keep → tri (refs b) (filewrite pid begin_op end_op devsw kl i addr n) (λ _, refs b).
Proof.
  intros Hd. unfold filewrite. apply refs_bind; [apply gets_refs|intros f]. destruct (negb _); [by apply tri_ret|]. destruct (f_type f).
  - apply tri_panic.
  - apply pipem_refs.
  - apply refs_bind; [apply filewrite_loop_refs|intros r]. by apply tri_ret.
  - destruct (_ || _); [by apply tri_ret|]. destruct (dev_write _) as [wr|] eqn:E; [|by apply tri_ret].
    apply refs_bind; [exact (proj2 (Hd b (f_major f)) wr addr n E)|intros r]. by apply tri_ret.
Qed.

Lemma sys_read_at b l kl : devs_keep → tri (at_refs b l) (sys_read pid devsw args kl) (λ _, at_refs b l).
Proof.
  intros Hd. unfold sys_read. eapply tri_bind; [apply argfd_at|intros [[fd f]|]]; cbn beta; apply tri_and; intros Hf; [|by apply tri_ret].
  apply (fk_at b l _ (λ _, refs b)). by apply fileread_refs.
Qed.
Lemma sys_write_at b l kl : devs_keep → tri (at_refs b l) (sys_write pid begin_op end_op devsw args kl) (λ _, at_refs b l).
Proof.
  intros Hd. unfold sys_write. eapply tri_bind; [apply argfd_at|intros [[fd f]|]]; cbn beta; apply tri_and; intros Hf; [|by apply tri_ret].
  apply (fk_at b l _ (λ _, refs b)). by apply filewrite_refs.
Qed.

(** The system calls of sysfile.c but exec().  [kl] is what killed() returns
    while read() or write() waits on a pipe. *)
Inductive file_call :=
| CDup | CRead (kl : bool) | CWrite (kl : Z → bool) | CClose | CFstat | CLink | CUnlink | COpen | CMkdir | CMknod | CChdir | CPipe.

Definition run_call (c : file_call) : M ustate pipe_result :=
  let returns (m : M ustate Z) : M ustate pipe_result := r ← m; mret (PipeDone r) in
  match c with
  | CDup => returns (sys_dup args)
  | CRead kl => sys_read pid devsw args kl
  | CWrite kl => sys_write pid begin_op end_op devsw args kl
  | CClose => returns (sys_close pid begin_op end_op args)
  | CFstat => returns (sys_fstat pid args)
  | CLink => returns (sys_link pid begin_op end_op args)
  | CUnlink => returns (sys_unlink pid begin_op end_op args)
  | COpen => returns (sys_open pid begin_op end_op args)
  | CMkdir => returns (sys_mkdir pid begin_op end_op args)
  | CMknod => returns (sys_mknod pid begin_op end_op args)
  | CChdir => returns (sys_chdir pid begin_op end_op args)
  | CPipe => returns (sys_pipe pid begin_op end_op args)
  end.

(** C11: reference counts.  Whatever a call of sysfile.c other than exec() does
    and whether it succeeds, fails or sleeps on a pipe, the reference count of
    every open file changes by exactly the change in the number of descriptors
    the process has for it: no reference is leaked and none is dropped early.
    The read and write functions of the devices are assumed to leave the
    counts alone. *)
Theorem fd_refs_balanced c s r s' g : devs_keep → run_call c s = Ret r s' →
  f_ref (getf g (us_k s')) - fds_of g (us_ofile s') = f_ref (getf g (us_k s)) - fds_of g (us_ofile s).
Proof.
  set (b := λ g, f_ref (getf g (us_k s))). intros Hd E. revert g. change (balanced b (us_ofile s) s').
  assert (Hat : at_refs b (us_ofile s) s) by done. set (l := us_ofile s) in *.
  assert (Hn : ∀ {A} (m : M ustate A), tri (at_refs b l) m (λ _, at_refs b l) → tri (at_refs b l) m (λ _, balanced b l)).
  { intros A m Hm. eapply tri_post; [exact Hm|]. intros a s1 H. eapply balanced_at; [exact H|done]. }
  enough (Ht : tri (at_refs b l) (run_call c) (λ _, balanced b l)) by exact (Ht _ _ _ Hat E).
  assert (Hr : ∀ m : M ustate Z, tri (at_refs b l) m (λ _, balanced b l) → tri (at_refs b l) (r ← m; mret (PipeDone r)) (λ _, balanced b l)).
  { intros m Hm. eapply tri_bind; [exact Hm|intros x; cbn beta; by apply tri_ret]. }
  destruct c; cbn [run_call]; try apply Hr.
  - apply sys_dup_balanced.
  - by apply Hn, sys_read_at.
  - by apply Hn, sys_write_at.
  - apply sys_close_balanced.
  - apply Hn, sys_fstat_at.
  - apply Hn, sys_link_at.
  - apply Hn, sys_unlink_at.
  - apply sys_open_balanced.
  - apply Hn. unfold sys_mkdir. neutral. apply make_node_at.
  - apply Hn. unfold sys_mknod. neutral. apply make_node_at.
  - apply Hn, sys_chdir_at.
  - apply sys_pipe_balanced.
Qed.
End thms.

(** ** Witness: dup() of descriptor 0, then a write() to it, which is not open for writing *)

#[local] Existing Instance image_sym.
#[local] Existing Instance letter_user.
#[local] Existing Instance demo_blocks.

Definition demo_open (b : lstate) : ustate :=
  US (FK (demo_fs T_FILE b) false (File FD_INODE 1 true false 0 0 0 0 :: replicate 99 file0) ∅ (MState (λ _, Byte.x00) false 0))
     (Some 0%nat :: replicate 15 None) 0.
(** A device that reads nothing and takes everything. *)
Definition null_dev (mj : Z) : dev fkstate := Dev (Some (λ _ _, mret 0)) (Some (λ _ n, mret n)).

Lemma fd_refs_balanced_witness : ∃ b s' s'', run_call (B := demo_blocks) 1 begin_op (end_op (D := direct_disk) 1) null_dev (λ _, 0) CDup (demo_open b) = Ret (PipeDone 1) s' ∧
  run_call (B := demo_blocks) 1 begin_op (end_op (D := direct_disk) 1) null_dev (λ _, 0) (CWrite (λ _, false)) s' = Ret (PipeDone (-1)) s'' ∧
  f_ref (getf 0 (us_k s'')) - fds_of 0 (us_ofile s'') = 0 ∧ f_ref (getf 0 (us_k s'')) = 2.
Proof.
  assert (Hd : devs_keep (B := demo_blocks) null_dev) by (intros b mj; split; intros ? addr n [= <-]; by apply tri_ret).
  destruct demo_txn as (b & _). exists b. eexists. eexists. split; [reflexivity|]. split; [reflexivity|]. split; [|reflexivity].
  eapply eq_trans; [|exact (fd_refs_balanced (B := demo_blocks) 1 begin_op (end_op (D := direct_disk) 1) null_dev (λ _, 0) CDup (demo_open b) (PipeDone 1) _ 0 Hd eq_refl)].
  apply (fd_refs_balanced (B := demo_blocks) 1 begin_op (end_op (D := direct_disk) 1) null_dev (λ _, 0) (CWrite (λ _, false)) _ (PipeDone (-1)) _ 0 Hd). reflexivity.
Defined.
