(* ===== verification/Grep.v ===== *)
(** * user/grep.c

    A C string is the list of its bytes before the NUL.  The matcher is
    compared with a declarative reading of patterns ([re_lang]); grep() itself
    with the list of lines of its input. *)

From stdpp Require Import base strings numbers list.
From coqutil Require Import Byte.
From S2P Require Import Prelude.

Definition ch_caret : byte := Byte.x5e.
Definition ch_dollar : byte := Byte.x24.
Definition ch_dot : byte := Byte.x2e.
Definition ch_star : byte := Byte.x2a.
Definition ch_nl : byte := Byte.x0a.
Definition ch_nul : byte := Byte.x00.

(** Comparison of characters. *)
Definition beq (a b : byte) : bool := byte.unsigned a =? byte.unsigned b.

Lemma beq_spec a b : reflect (a = b) (beq a b).
Proof.
  unfold beq. destruct (Z.eqb_spec (byte.unsigned a) (byte.unsigned b)) as [E|E]; constructor; [|congruence].
  rewrite <- (byte.of_Z_unsigned a), <- (byte.of_Z_unsigned b). by rewrite E.
Qed.

Lemma beq_refl a : beq a a = true.
Proof. apply Z.eqb_refl. Qed.

(** ** The code *)

(** matchstar(): search for c*re at beginning of text; [here] is matchhere()
    with [re]. *)
Fixpoint matchstar (here : list byte → bool) (c : byte) (text : list byte) : bool :=
  if here text then true else
  match text with
  | [] => false
  | t :: text => if beq t c || beq c ch_dot then matchstar here c text else false
  end.

(** matchhere(): search for re at beginning of text. *)
Fixpoint matchhere (re text : list byte) : bool :=
  match re with
  | [] => true
  | c :: re1 =>
    match re1 with
    | s :: re2 =>
      if beq s ch_star then matchstar (matchhere re2) c text else
      match text with
      | [] => false
      | t :: text => if beq c ch_dot || beq c t then matchhere re1 text else false
      end
    | [] =>
      if beq c ch_dollar then match text with [] => true | _ => false end else
      match text with
      | [] => false
      | t :: text => if beq c ch_dot || beq c t then matchhere re1 text else false
      end
    end
  end.

(** The loop of match(). *)
Fixpoint match_loop (re text : list byte) : bool :=
  if matchhere re text then true else
  match text with [] => false | _ :: text => match_loop re text end.

Definition match_re (re text : list byte) : bool :=
  match re with
  | c :: re1 => if beq c ch_caret then matchhere re1 text else match_loop re text
  | [] => match_loop re text
  end.

(** [q = strchr(p, '\n')]: the bytes from p to q and those after q.  [p] is what
    the buffer holds up to the NUL that grep() writes after it; strchr() stops
    at that NUL or at one in the input, whichever comes first. *)
Fixpoint split_nl (p : list byte) : option (list byte * list byte) :=
  match p with
  | [] => None
  | c :: q => if beq c ch_nul then None else
              if beq c ch_nl then Some ([], q) else
              match split_nl q with Some (a, b) => Some (c :: a, b) | None => None end
  end.

(** The loop over the lines in the buffer: what is written, and what is left. *)
Fixpoint grep_lines (fuel : nat) (pattern p : list byte) : list byte * list byte :=
  match fuel with
  | O => ([], p)
  | S fuel =>
    match split_nl p with
    | None => ([], p)
    | Some (line, rest) =>
      let '(out, p) := grep_lines fuel pattern rest in
      ((if match_re pattern line then line ++ [ch_nl] else []) ++ out, p)
    end
  end.

Definition sizeof_buf : nat := 1024.

(** grep(): [buf] is what is left in the buffer; each element of [reads] is
    what a read() of at most sizeof(buf)-m-1 bytes returns. *)
Fixpoint grep (pattern buf : list byte) (reads : list (list byte)) : list byte :=
  match reads with
  | [] => []
  | r :: reads =>
    match take (sizeof_buf - length buf - 1) r with
    | [] => []      (* n <= 0 *)
    | r =>
      let buf := buf ++ r in
      let '(out, buf) := grep_lines (S (length buf)) pattern buf in
      out ++ grep pattern buf reads
    end
  end.

(** ** Patterns *)

Inductive item := Chr (c : byte) | Star (c : byte).

(** The items of a pattern without its ^, and whether it ends in $. *)
Fixpoint parse (re : list byte) : list item * bool :=
  match re with
  | [] => ([], false)
  | c :: re1 =>
    match re1 with
    | s :: re2 => if beq s ch_star then (Star c :: (parse re2).1, (parse re2).2) else (Chr c :: (parse re1).1, (parse re1).2)
    | [] => if beq c ch_dollar then ([], true) else ([Chr c], false)
    end
  end.

(** [.] stands for any character. *)
Definition one_char (c t : byte) : Prop := c = ch_dot ∨ c = t.

(** The strings a list of items matches. *)
Inductive re_lang : list item → list byte → Prop :=
| lang_nil : re_lang [] []
| lang_chr c t l w : one_char c t → re_lang l w → re_lang (Chr c :: l) (t :: w)
| lang_star0 c l w : re_lang l w → re_lang (Star c :: l) w
| lang_star c t l w : one_char c t → re_lang (Star c :: l) w → re_lang (Star c :: l) (t :: w).

(** The pattern [re] matches at the beginning of [text]. *)
Definition here_spec (re text : list byte) : Prop :=
  ∃ w rest, text = w ++ rest ∧ re_lang (parse re).1 w ∧ ((parse re).2 = true → rest = []).

Lemma beq_eq a b : beq a b = true ↔ a = b.
Proof. split; [|intros ->; apply beq_refl]. by destruct (beq_spec a b). Qed.

Lemma one_char_iff c t : beq c ch_dot || beq c t = true ↔ one_char c t.
Proof. rewrite orb_true_iff, !beq_eq. done. Qed.

Lemma matchstar_spec re2 c text (H : ∀ t, matchhere re2 t = true ↔ here_spec re2 t) :
  matchstar (matchhere re2) c text = true ↔
  ∃ w rest, text = w ++ rest ∧ re_lang (Star c :: (parse re2).1) w ∧ ((parse re2).2 = true → rest = []).
Proof.
  induction text as [|t text IH]; cbn [matchstar]; destruct (matchhere re2 _) eqn:E.
  - apply H in E as (w & rest & -> & Hl & Hd). split; [|done]. intros _. exists w, rest. split_and!; try done. by apply lang_star0.
  - split; [done|]. intros (w & rest & Hw & Hl & Hd). symmetry in Hw. apply app_eq_nil in Hw as [-> ->].
    enough (matchhere re2 [] = true) by congruence. apply H. exists [], []. inversion Hl; subst. done.
  - apply H in E as (w & rest & E & Hl & Hd). split; [|done]. intros _. exists w, rest. split_and!; try done. by apply lang_star0.
  - split.
    + destruct (_ || _) eqn:Ec; [|done]. intros (w & rest & -> & Hl & Hd)%IH. exists (t :: w), rest. split_and!; try done.
      apply lang_star; [|done]. apply one_char_iff. rewrite orb_comm. destruct (beq_spec t c); [subst; by rewrite beq_refl|].
      simpl in Ec. by rewrite Ec, orb_true_r.
    + intros (w & rest & Hw & Hl & Hd). inversion Hl as [| |c' l' w' Hl'|c' t' l' w' Hc Hl']; subst.
      * enough (matchhere re2 (t :: text) = true) by congruence. apply H. exists w, rest. done.
      * simpl in Hw. injection Hw as <- ->. assert (beq t c || beq c ch_dot = true) as ->.
        { destruct Hc as [->|<-]; rewrite beq_refl; [apply orb_true_r|done]. }
        apply IH. by exists w', rest.
Qed.

(** One ordinary character at the front of the pattern. *)
Lemma matchchr_spec c re1 l d text : (∀ t, matchhere re1 t = true ↔ ∃ w rest, t = w ++ rest ∧ re_lang l w ∧ (d = true → rest = [])) →
  match text with [] => false | t :: text => if beq c ch_dot || beq c t then matchhere re1 text else false end = true ↔
  ∃ w rest, text = w ++ rest ∧ re_lang (Chr c :: l) w ∧ (d = true → rest = []).
Proof.
  intros H. destruct text as [|t text].
  - split; [done|]. intros (w & rest & Hw & Hl & _). symmetry in Hw. apply app_eq_nil in Hw as [-> _]. inversion Hl.
  - split.
    + destruct (_ || _) eqn:Ec; [|done]. intros (w & rest & -> & Hl & Hd)%H. exists (t :: w), rest. split_and!; try done.
      apply lang_chr; [by apply one_char_iff|done].
    + intros (w & rest & Hw & Hl & Hd). inversion Hl as [|c' t' l' w' Hc Hl'| |]; subst. simpl in Hw. injection Hw as <- ->.
      apply one_char_iff in Hc. rewrite Hc. apply H. by exists w', rest.
Qed.

Lemma matchhere_spec re text : matchhere re text = true ↔ here_spec re text.
Proof.
  assert (Hn : ∃ n, (length re < n)%nat) by (exists (S (length re)); lia). destruct Hn as [n Hn].
  revert re text Hn. induction n as [|n IH]; intros re text Hn; [lia|]. destruct re as [|c [|s re2]]; unfold here_spec; simpl in Hn.
  - split; [|done]. intros _. exists [], text. split_and!; [done|apply lang_nil|done].
  - cbn [matchhere parse]. destruct (beq c ch_dollar).
    + cbn [fst snd]. split.
      * destruct text; [|done]. intros _. exists [], []. split_and!; [done|apply lang_nil|done].
      * intros (w & rest & -> & Hl & Hd). inversion Hl; subst. by rewrite Hd.
    + apply (matchchr_spec c [] [] false). intros t. split; [|done]. intros _. exists [], t. split_and!; [done|apply lang_nil|done].
  - cbn [matchhere parse]. destruct (beq s ch_star).
    + apply matchstar_spec. intros t. apply IH. lia.
    + apply (matchchr_spec c (s :: re2) _ (parse (s :: re2)).2). intros t. apply IH. simpl. lia.
Qed.

Lemma match_loop_spec re text : match_loop re text = true ↔ ∃ pre rest, text = pre ++ rest ∧ here_spec re rest.
Proof.
  induction text as [|t text IH]; cbn [match_loop]; destruct (matchhere re _) eqn:E.
  - split; [|done]. intros _. exists [], []. split; [done|]. by apply matchhere_spec.
  - split; [done|]. intros (pre & rest & Hp & Hh). symmetry in Hp. apply app_eq_nil in Hp as [-> ->]. apply matchhere_spec in Hh. congruence.
  - split; [|done]. intros _. exists [], (t :: text). split; [done|]. by apply matchhere_spec.
  - rewrite IH. split; intros (pre & rest & Hp & Hh).
    + exists (t :: pre), rest. by rewrite Hp.
    + destruct pre as [|x pre]; [simpl in Hp; subst rest; apply matchhere_spec in Hh; congruence|].
      simpl in Hp. injection Hp as <- ->. by exists pre, rest.
Qed.

(** C39: the matcher.  match() says whether some part of the text is in the
    language of the pattern, at its beginning if the pattern starts with ^ and
    up to its end if it ends in $. *)
Theorem match_correct re text :
  let anchored := match re with c :: _ => beq c ch_caret | [] => false end in
  let body := if anchored then tl re else re in
  match_re re text = true ↔ ∃ pre w post, text = pre ++ w ++ post ∧ re_lang (parse body).1 w ∧
    (anchored = true → pre = []) ∧ ((parse body).2 = true → post = []).
Proof.
  cbv zeta. assert (Hloop : ∀ r, match_loop r text = true ↔ ∃ pre w post, text = pre ++ w ++ post ∧ re_lang (parse r).1 w ∧
    (false = true → pre = []) ∧ ((parse r).2 = true → post = [])).
  { intros r. rewrite match_loop_spec. unfold here_spec. naive_solver. }
  destruct re as [|c re1]; [apply Hloop|]. cbn [match_re tl]. destruct (beq c ch_caret); [|apply Hloop].
  rewrite matchhere_spec. unfold here_spec. split.
  - intros (w & post & -> & H1 & H2). exists [], w, post. done.
  - intros (pre & w & post & -> & H1 & H2 & H3). rewrite (H2 eq_refl). exists w, post. done.
Qed.

(** ** The lines of the input *)

(** A text at its first newline, whatever its bytes. *)
Fixpoint cut_nl (p : list byte) : option (list byte * list byte) :=
  match p with
  | [] => None
  | c :: q => if beq c ch_nl then Some ([], q) else
              match cut_nl q with Some (a, b) => Some (c :: a, b) | None => None end
  end.

Lemma cut_nl_Some p a b : cut_nl p = Some (a, b) → p = a ++ ch_nl :: b ∧ ch_nl ∉ a.
Proof.
  revert a. induction p as [|c p IH]; intros a E; simpl in E; [done|]. destruct (beq c ch_nl) eqn:Ec.
  - apply beq_eq in Ec as ->. injection E as <- <-. split; [done|apply not_elem_of_nil].
  - destruct (cut_nl p) as [[a' b']|]; [|done]. injection E as <- <-. destruct (IH a' eq_refl) as [-> Hn]. split; [done|].
    apply not_elem_of_cons. split; [|done]. intros <-. by rewrite beq_refl in Ec.
Qed.

Lemma cut_nl_None p : cut_nl p = None ↔ ch_nl ∉ p.
Proof.
  induction p as [|c p IH]; simpl; [split; [intros _; apply not_elem_of_nil|done]|]. destruct (beq c ch_nl) eqn:Ec.
  - apply beq_eq in Ec as ->. split; [done|]. intros H. exfalso. apply H. by left.
  - rewrite not_elem_of_cons. destruct (cut_nl p) as [[a b]|]; [split; [done|]; intros [_ H%IH]; done|].
    split; [intros _; split; [intros <-; by rewrite beq_refl in Ec|by apply IH]|done].
Qed.

(** The text of the lines [ls], each with its newline. *)
Definition text_of (ls : list (list byte)) : list byte := mjoin ((λ l, l ++ [ch_nl]) <$> ls).
Definition no_nl (l : list byte) : Prop := ch_nl ∉ l.

Lemma cut_nl_line l rest : no_nl l → cut_nl (l ++ ch_nl :: rest) = Some (l, rest).
Proof.
  intros Hl. destruct (cut_nl (l ++ ch_nl :: rest)) as [[a b]|] eqn:E.
  - apply cut_nl_Some in E as [E Ha]. revert a E Ha. induction l as [|c l IH]; intros [|d a] E Ha; simpl in E.
    + by injection E as ->.
    + injection E as <- _. exfalso. apply Ha. by left.
    + injection E as -> _. exfalso. apply Hl. by left.
    + injection E as -> E. apply not_elem_of_cons in Ha as [_ Ha]. apply not_elem_of_cons in Hl as [_ Hl]. by injection (IH Hl a E Ha) as -> ->.
  - apply cut_nl_None in E. exfalso. apply E. apply elem_of_app. right. by left.
Qed.

(** The bytes before the first NUL. *)
Fixpoint before_nul (p : list byte) : list byte :=
  match p with [] => [] | c :: q => if beq c ch_nul then [] else c :: before_nul q end.
Definition no_nul (l : list byte) : Prop := ch_nul ∉ l.

Lemma before_nul_app l p : no_nul l → before_nul (l ++ p) = l ++ before_nul p.
Proof.
  induction l as [|c l IH]; intros Hl; [done|]. apply not_elem_of_cons in Hl as [Hc Hl]. cbn [app before_nul].
  destruct (beq_spec c ch_nul) as [->|_]; [done|]. by rewrite IH.
Qed.
Lemma before_nul_no_nul p : no_nul (before_nul p).
Proof.
  induction p as [|c p IH]; cbn [before_nul]; [apply not_elem_of_nil|]. destruct (beq_spec c ch_nul) as [->|Hc]; [apply not_elem_of_nil|].
  apply not_elem_of_cons. split; [by intros <-|done].
Qed.
Lemma before_nul_cut p q : ch_nul ∈ p → before_nul (p ++ q) = before_nul p.
Proof.
  induction p as [|c p IH]; intros Hp; [by apply not_elem_of_nil in Hp|]. cbn [app before_nul]. destruct (beq_spec c ch_nul) as [->|Hc]; [done|].
  f_equal. apply IH. by apply elem_of_cons in Hp as [Hx|Hp]; [congruence|].
Qed.
Lemma before_nul_prefix p : before_nul p `prefix_of` p.
Proof.
  induction p as [|c p IH]; cbn [before_nul]; [done|]. destruct (beq c ch_nul); [apply prefix_nil|by apply prefix_cons].
Qed.

(** strchr() on a text is the cut of what is before its first NUL. *)
Lemma split_nl_line l rest : no_nl l → no_nul l → split_nl (l ++ ch_nl :: rest) = Some (l, rest).
Proof.
  induction l as [|c l IH]; intros Hl H0; [done|]. apply not_elem_of_cons in Hl as [Hc Hl]. apply not_elem_of_cons in H0 as [Hc0 H0].
  cbn [app split_nl]. destruct (beq_spec c ch_nul) as [->|_]; [done|]. destruct (beq_spec c ch_nl) as [->|_]; [done|]. by rewrite IH.
Qed.
Lemma split_nl_None p : no_nl (before_nul p) → split_nl p = None.
Proof.
  induction p as [|c p IH]; cbn [before_nul split_nl]; [done|]. destruct (beq c ch_nul); [done|]. intros [Hc Hp]%not_elem_of_cons.
  destruct (beq_spec c ch_nl) as [->|_]; [done|]. by rewrite IH.
Qed.

Lemma grep_lines_spec pat ls rest fuel : Forall no_nl ls → Forall no_nul ls → no_nl (before_nul rest) → (length ls < fuel)%nat →
  grep_lines fuel pat (text_of ls ++ rest) = (text_of (filter (λ l, match_re pat l = true) ls), rest).
Proof.
  revert fuel. induction ls as [|l ls IH]; intros fuel Hls H0 Hr Hf; (destruct fuel as [|fuel]; [simpl in Hf; lia|]); cbn [grep_lines].
  - simpl. by apply split_nl_None in Hr as ->.
  - apply Forall_cons in Hls as [Hl Hls], H0 as [Hl0 H0]. change (text_of (l :: ls)) with ((l ++ [ch_nl]) ++ text_of ls).
    rewrite <- !app_assoc. cbn [app]. rewrite split_nl_line by done. rewrite IH by (done || simpl in Hf; lia).
    rewrite filter_cons. destruct (decide _) as [E|E].
    + rewrite E. done.
    + apply not_true_is_false in E. rewrite E. done.
Qed.

(** Every text is lines followed by an incomplete one. *)
Fixpoint lines_of (fuel : nat) (p : list byte) : list (list byte) * list byte :=
  match fuel with
  | O => ([], p)
  | S fuel => match cut_nl p with None => ([], p) | Some (l, r) => (l :: (lines_of fuel r).1, (lines_of fuel r).2) end
  end.
Definition lines (p : list byte) : list (list byte) := (lines_of (S (length p)) p).1.
Definition last_part (p : list byte) : list byte := (lines_of (S (length p)) p).2.

Lemma lines_of_spec fuel p : (length p < fuel)%nat →
  p = text_of (lines_of fuel p).1 ++ (lines_of fuel p).2 ∧ Forall no_nl (lines_of fuel p).1 ∧ no_nl (lines_of fuel p).2.
Proof.
  revert p. induction fuel as [|fuel IH]; intros p Hf; [lia|]. cbn [lines_of]. destruct (cut_nl p) as [[l r]|] eqn:E; cbn [fst snd].
  - apply cut_nl_Some in E as [-> Hl]. destruct (IH r) as (H1 & H2 & H3); [rewrite length_app in Hf; simpl in Hf; lia|].
    split_and!; [|by apply Forall_cons|done]. change (text_of (l :: ?x)) with ((l ++ [ch_nl]) ++ text_of x).
    rewrite <- !app_assoc. cbn [app]. by rewrite <- H1.
  - apply cut_nl_None in E. done.
Qed.

Lemma lines_of_fuel f1 f2 p : (length p < f1)%nat → (length p < f2)%nat → lines_of f1 p = lines_of f2 p.
Proof.
  revert f2 p. induction f1 as [|f1 IH]; intros [|f2] p H1 H2; try lia. cbn [lines_of]. destruct (cut_nl p) as [[l r]|] eqn:E; [|done].
  apply cut_nl_Some in E as [-> _]. rewrite length_app in *. simpl in *. by rewrite (IH f2 r) by lia.
Qed.

Lemma lines_app ls p : Forall no_nl ls → lines (text_of ls ++ p) = ls ++ lines p ∧ last_part (text_of ls ++ p) = last_part p.
Proof.
  intros Hls. unfold lines, last_part.
  enough (E : lines_of (S (length (text_of ls ++ p))) (text_of ls ++ p) = (ls ++ (lines_of (S (length p)) p).1, (lines_of (S (length p)) p).2)) by (by rewrite E).
  induction ls as [|l ls IH]; [change (text_of [] ++ p) with p; by destruct (lines_of (S (length p)) p)|]. apply Forall_cons in Hls as [Hl Hls].
  change (text_of (l :: ls)) with ((l ++ [ch_nl]) ++ text_of ls). rewrite <- !app_assoc. cbn [app]. cbn [lines_of].
  rewrite cut_nl_line by done. rewrite (lines_of_fuel _ (S (length (text_of ls ++ p)))); [|rewrite !length_app; simpl; rewrite ?length_app; lia|lia].
  by rewrite (IH Hls).
Qed.

Lemma text_of_length ls : (length ls ≤ length (text_of ls))%nat.
Proof. induction ls as [|l ls IH]; [done|]. change (text_of (l :: ls)) with ((l ++ [ch_nl]) ++ text_of ls). rewrite !length_app. simpl. lia. Qed.
Lemma text_of_no_nul ls : no_nul (text_of ls) ↔ Forall no_nul ls.
Proof.
  induction ls as [|l ls IH]; [split; [done|intros _; apply not_elem_of_nil]|]. change (text_of (l :: ls)) with ((l ++ [ch_nl]) ++ text_of ls).
  rewrite Forall_cons, <- IH. unfold no_nul. rewrite !not_elem_of_app, list_elem_of_singleton. split; [tauto|]. intros [H1 H2]. by split_and!.
Qed.

(** What is left of the buffer [p] once its lines before any NUL are taken. *)
Definition left_over (p : list byte) : list byte := drop (length (text_of (lines (before_nul p)))) p.

Lemma left_over_spec p (ls := lines (before_nul p)) : p = text_of ls ++ left_over p ∧ Forall no_nl ls ∧ Forall no_nul ls ∧
  no_nl (before_nul (left_over p)).
Proof.
  destruct (lines_of_spec (S (length (before_nul p))) (before_nul p)) as (Hsp & Hls & Hrest); [lia|].
  fold (lines (before_nul p)) in *. fold (last_part (before_nul p)) in *. fold ls in Hsp, Hls.
  assert (H0 : no_nul (text_of ls)) by (intros H; apply (before_nul_no_nul p); rewrite Hsp; apply elem_of_app; by left).
  assert (Hp : p = text_of ls ++ left_over p).
  { unfold left_over. fold ls. destruct (before_nul_prefix p) as [q Hq]. rewrite Hsp, <- app_assoc in Hq. rewrite Hq at 1 2. by rewrite drop_app_length. }
  split_and!; [done|done|by apply text_of_no_nul|].
  assert (Hq : before_nul p = text_of ls ++ before_nul (left_over p)) by (rewrite <- before_nul_app by done; by rewrite <- Hp).
  rewrite Hsp in Hq. apply app_inv_head in Hq. by rewrite <- Hq.
Qed.

(** The reads fill the buffer but do not overflow it; nothing is asked of them
    once the buffer holds a NUL, since grep() never looks past it. *)
Fixpoint reads_ok (buf : list byte) (reads : list (list byte)) : Prop :=
  match reads with
  | [] => True
  | r :: reads => ch_nul ∈ buf ∨ r ≠ [] ∧ (length buf + length r < sizeof_buf)%nat ∧ reads_ok (left_over (buf ++ r)) reads
  end.

Lemma lines_none p : no_nl p → lines p = [].
Proof. intros Hp. unfold lines. cbn [lines_of]. by apply cut_nl_None in Hp as ->. Qed.

(** With a NUL in front of every newline the buffer only fills up. *)
Lemma grep_after_nul pat buf reads : ch_nul ∈ buf → no_nl (before_nul buf) → grep pat buf reads = [].
Proof.
  revert buf. induction reads as [|r reads IH]; intros buf H0 Hb; cbn [grep]; [done|]. destruct (take _ r) as [|c r0]; [done|].
  cbn [grep_lines]. rewrite split_nl_None by (by rewrite before_nul_cut). apply IH; [apply elem_of_app; by left|by rewrite before_nul_cut].
Qed.

Lemma grep_spec pat buf reads : no_nl (before_nul buf) → reads_ok buf reads →
  grep pat buf reads = text_of (filter (λ l, match_re pat l = true) (lines (before_nul (buf ++ mjoin reads)))).
Proof.
  revert buf. induction reads as [|r reads IH]; intros buf Hb Hr; [by rewrite app_nil_r, lines_none by done|].
  destruct Hr as [H0|(Hne & Hlen & Hr)]; [by rewrite grep_after_nul, before_nul_cut, lines_none by done|].
  cbn [grep]. rewrite take_ge by lia. destruct r as [|c r0]; [done|]. set (r := c :: r0) in *.
  destruct (left_over_spec (buf ++ r)) as (Hsp & Hls & Hls0 & Hrest).
  set (ls := lines (before_nul (buf ++ r))) in *. set (rest := left_over (buf ++ r)) in *.
  rewrite Hsp at 2. rewrite grep_lines_spec; [|done..|rewrite Hsp, length_app; pose proof (text_of_length ls); lia].
  change (mjoin (r :: reads)) with (r ++ mjoin reads). rewrite app_assoc, Hsp, <- app_assoc, before_nul_app by (by apply text_of_no_nul).
  rewrite (IH rest Hrest Hr). destruct (lines_app ls (before_nul (rest ++ mjoin reads)) Hls) as [-> _]. rewrite filter_app.
  unfold text_of. by rewrite fmap_app, join_app.
Qed.

(** C40: grep() writes exactly the lines of its input that the pattern matches,
    in order, whatever the sizes of the reads, as long as no line overflows
    the buffer.  Only lines that end in a newline before the first NUL of the
    input count: the text is those lines followed by an incomplete one, which
    is never matched, and nothing from the first NUL on is looked at. *)
Theorem grep_prints_matches pat reads (text := before_nul (mjoin reads)) : reads_ok [] reads →
  grep pat [] reads = text_of (filter (λ l, match_re pat l = true) (lines text)) ∧
  text = text_of (lines text) ++ last_part text ∧ Forall no_nl (lines text) ∧ no_nl (last_part text).
Proof.
  intros Hr. split; [by rewrite grep_spec by (done || apply not_elem_of_nil)|]. apply lines_of_spec. lia.
Qed.

(** Input "ab\nb\0b\n" in three reads, the pattern "b": only the first line is
    written. *)
Lemma grep_prints_matches_witness : ∃ reads, grep [Byte.x62] [] reads = text_of [[Byte.x61; Byte.x62]] ∧
  grep [Byte.x62] [] reads = text_of (filter (λ l, match_re [Byte.x62] l = true) (lines (before_nul (mjoin reads)))).
Proof.
  exists [[Byte.x61; Byte.x62]; [ch_nl; Byte.x62; ch_nul]; [Byte.x62; ch_nl]]. split; [reflexivity|].
  apply (grep_prints_matches [Byte.x62] [[Byte.x61; Byte.x62]; [ch_nl; Byte.x62; ch_nul]; [Byte.x62; ch_nl]]).
  simpl. unfold sizeof_buf. right. split_and!; [done|vm_compute; lia|]. right. split_and!; [done|vm_compute; lia|]. left. vm_compute. right. by left.
Defined.
