(* ===== verification/Printf.v ===== *)
(** * user/printf.c, kernel/printf.c and user/ulib.c: numbers and strings

    Output is the list of the bytes written.  A C string is the list of its
    bytes before the NUL. *)

From stdpp Require Import base strings numbers list.
From coqutil Require Import Byte.
From S2P Require Import Prelude Mem Str.

Definition ascii (c : Z) : byte := byte.of_Z c.
Definition ch_minus : byte := ascii 45.
Definition ch_percent : Z := 37.

(** The tables [digits]: user/printf.c has capital letters. *)
Definition kdigits (d : Z) : byte := ascii (if d <? 10 then 48 + d else 87 + d).
Definition udigits (d : Z) : byte := ascii (if d <? 10 then 48 + d else 55 + d).

Section printint.
Context (digits : Z → byte).

(** [do buf[i++] = digits[x % base]; while((x /= base) != 0)]: the digits in
    the order in which they are stored. *)
Fixpoint digits_loop (fuel : nat) (x base : Z) : list byte :=
  match fuel with
  | O => []
  | S fuel => digits (x mod base) :: if x / base =? 0 then [] else digits_loop fuel (x / base) base
  end.

(** printint() writes buf backwards; 32 digits are enough for any base. *)
Definition printint (xx base : Z) (sgn : bool) : list byte :=
  let neg := sgn && (xx <? 0) in
  let x := if neg then u32 (- xx) else u32 xx in
  let buf := digits_loop 32 x base in
  reverse (if neg then buf ++ [ch_minus] else buf).

(** [for (i = 0; i < 16; i++, x <<= 4) putc(digits[x >> 60])], [k] digits to go. *)
Fixpoint printptr_loop (k : nat) (x : Z) : list byte :=
  match k with
  | O => []
  | S k => digits (Z.shiftr x 60) :: printptr_loop k (u64 (Z.shiftl x 4))
  end.
Definition printptr (x : Z) : list byte := ascii 48 :: ascii 120 :: printptr_loop 16 (u64 x).
End printint.

(** A variable argument; a string may be a null pointer. *)
Inductive varg := VNum (x : Z) | VStr (s : option (list byte)).
Definition va_num (ap : list varg) : Z := match ap with VNum x :: _ => x | _ => 0 end.
Definition va_str (ap : list varg) : list byte :=
  match ap with
  | VStr (Some s) :: _ => s
  | _ => ascii <$> [40; 110; 117; 108; 108; 41]      (* "(null)" *)
  end.

(** vprintf() of user/printf.c; [pct] is its state. *)
Fixpoint vprintf (fmt : list byte) (pct : bool) (ap : list varg) : list byte :=
  match fmt with
  | [] => []
  | b :: fmt =>
    let c := byte.unsigned b in
    if negb pct then
      if c =? ch_percent then vprintf fmt true ap else b :: vprintf fmt false ap
    else if c =? 100 (* d *) then printint udigits (i32 (va_num ap)) 10 true ++ vprintf fmt false (tl ap)
    else if c =? 108 (* l *) then printint udigits (i32 (va_num ap)) 10 false ++ vprintf fmt false (tl ap)
    else if c =? 120 (* x *) then printint udigits (i32 (va_num ap)) 16 false ++ vprintf fmt false (tl ap)
    else if c =? 112 (* p *) then printptr udigits (va_num ap) ++ vprintf fmt false (tl ap)
    else if c =? 115 (* s *) then va_str ap ++ vprintf fmt false (tl ap)
    else if c =? 99 (* c *) then byte.of_Z (va_num ap) :: vprintf fmt false (tl ap)
    else if c =? ch_percent then b :: vprintf fmt false ap
    else ascii ch_percent :: b :: vprintf fmt false ap     (* Unknown % sequence. *)
  end.

Definition fprintf (fmt : list byte) (ap : list varg) : list byte := vprintf fmt false ap.

(** printint() and printptr() of the kernel are the same code on its own
    table of digits. *)
Definition kprintint (xx base : Z) (sgn : bool) : list byte := printint kdigits xx base sgn.
Definition kprintptr (x : Z) : list byte := printptr kdigits x.

(** printf() of the kernel, to the console. *)
Fixpoint kprintf (fmt : list byte) (ap : list varg) : list byte :=
  match fmt with
  | [] => []
  | b :: fmt =>
    if negb (byte.unsigned b =? ch_percent) then b :: kprintf fmt ap else
    match fmt with
    | [] => []
    | b :: fmt =>
      let c := byte.unsigned b in
      if c =? 100 then kprintint (i32 (va_num ap)) 10 true ++ kprintf fmt (tl ap)
      else if c =? 120 then kprintint (i32 (va_num ap)) 16 true ++ kprintf fmt (tl ap)
      else if c =? 112 then kprintptr (va_num ap) ++ kprintf fmt (tl ap)
      else if c =? 115 then va_str ap ++ kprintf fmt (tl ap)
      else if c =? ch_percent then ascii ch_percent :: kprintf fmt ap
      else ascii ch_percent :: b :: kprintf fmt ap
    end
  end.

(** ** user/ulib.c *)

Fixpoint atoi_loop (s : list byte) (n : Z) : Z :=
  match s with
  | [] => n
  | c :: s =>
    let c := byte.unsigned c in
    if (48 <=? c) && (c <=? 57) then atoi_loop s (i32 (n * 10 + c - 48)) else n
  end.
Definition atoi (s : list byte) : Z := atoi_loop s 0.

Fixpoint ustrcmp (p q : list byte) : Z :=
  match p, q with
  | a :: p, b :: q => if byte.unsigned a =? byte.unsigned b then ustrcmp p q else byte.unsigned a - byte.unsigned b
  | a :: _, [] => byte.unsigned a
  | [], b :: _ => - byte.unsigned b
  | [], [] => 0
  end.

(** strchr(): the string from the first [c] on, or nothing. *)
Fixpoint ustrchr (s : list byte) (c : byte) : option (list byte) :=
  match s with
  | [] => None
  | x :: t => if byte.unsigned x =? byte.unsigned c then Some s else ustrchr t c
  end.

(** gets(): [input] is what read() returns byte by byte; the line and the rest
    of the input. *)
Fixpoint ugets (k : nat) (input : list byte) : list byte * list byte :=
  match k with
  | O => ([], input)
  | S k =>
    match input with
    | [] => ([], [])
    | c :: rest =>
      if (byte.unsigned c =? 10) || (byte.unsigned c =? 13) then ([c], rest)
      else let '(l, rest) := ugets k rest in (c :: l, rest)
    end
  end.
Definition gets_line (max : Z) (input : list byte) : list byte * list byte := ugets (Z.to_nat (max - 1)) input.

(** strcpy() and strlen() on memory; [fuel] bounds the length of the string. *)
Fixpoint ustrcpy (fuel : nat) (m : mem) (s t : Z) : option mem :=
  match fuel with
  | O => None
  | S fuel =>
    let c := load8 m t in
    let m := store8 m s c in
    if c =? 0 then Some m else ustrcpy fuel m (s + 1) (t + 1)
  end.
Fixpoint ustrlen (fuel : nat) (m : mem) (s n : Z) : option Z :=
  match fuel with
  | O => None
  | S fuel => if load8 m (s + n) =? 0 then Some n else ustrlen fuel m s (n + 1)
  end.

(** memset(): [for(i = 0; i < n; i++) cdst[i] = c], [k] bytes to go. *)
Fixpoint umemset_loop (k : nat) (m : mem) (dst c i : Z) : mem :=
  match k with
  | O => m
  | S k => umemset_loop k (store8 m (dst + i) c) dst c (i + 1)
  end.
Definition umemset (m : mem) (dst c n : Z) : mem := umemset_loop (Z.to_nat n) m dst c 0.

Fixpoint umemcmp (m : mem) (p1 p2 : Z) (n : nat) : Z :=
  match n with
  | O => 0
  | S n => if negb (load8 m p1 =? load8 m p2) then load8 m p1 - load8 m p2 else umemcmp m (p1 + 1) (p2 + 1) n
  end.

(** memmove() of the library, on memory. *)
Definition umemmove (m : mem) (dst src n : Z) : mem :=
  if dst <? src then memmove_up m dst src (Z.to_nat n) else memmove_down m (dst + n) (src + n) (Z.to_nat n).

(** ** Printing and reading numbers *)

(** The number a list of digits stands for, least significant digit first. *)
Fixpoint digits_value (base : Z) (ds : list Z) : Z :=
  match ds with [] => 0 | d :: ds => d + base * digits_value base ds end.

(** The digits of [x] as numbers. *)
Fixpoint digit_list (fuel : nat) (x base : Z) : list Z :=
  match fuel with
  | O => []
  | S fuel => (x mod base) :: if x / base =? 0 then [] else digit_list fuel (x / base) base
  end.

Lemma digits_loop_list digits fuel x base : digits_loop digits fuel x base = digits <$> digit_list fuel x base.
Proof. revert x. induction fuel as [|fuel IH]; intros x; [done|]. simpl. destruct (_ =? _); [done|]. by rewrite IH. Qed.

Lemma digit_list_spec fuel x base : 2 ≤ base → 0 ≤ x < 2 ^ Z.of_nat fuel →
  digits_value base (digit_list fuel x base) = x ∧ Forall (λ d, 0 ≤ d < base) (digit_list fuel x base) ∧
  (digit_list fuel x base ≠ [] ∨ fuel = 0%nat).
Proof.
  intros Hb. revert x. induction fuel as [|fuel IH]; intros x Hx.
  { change (Z.of_nat 0) with 0 in Hx. rewrite Z.pow_0_r in Hx. simpl. split_and!; [lia|done|by right]. }
  cbn [digit_list digits_value]. pose proof (Z.div_mod x base ltac:(lia)) as Hdm. pose proof (Z.mod_pos_bound x base ltac:(lia)).
  assert (Hq : 0 ≤ x / base < 2 ^ Z.of_nat fuel).
  { split; [apply Z.div_pos; lia|]. apply Z.div_lt_upper_bound; [lia|]. rewrite Nat2Z.inj_succ, Z.pow_succ_r in Hx by lia. nia. }
  destruct (Z.eqb_spec (x / base) 0) as [E|E].
  - split_and!; [simpl; lia|by apply Forall_singleton|by left].
  - destruct (IH _ Hq) as (H1 & H2 & _). split_and!; [simpl; rewrite H1; lia|by apply Forall_cons|by left].
Qed.

Lemma digit_list_length k fuel x base : 2 ≤ base → 0 ≤ x < base ^ Z.of_nat k → (0 < k)%nat → (length (digit_list fuel x base) ≤ k)%nat.
Proof.
  intros Hb. revert k x. induction fuel as [|fuel IH]; intros k x Hx Hk; [simpl; lia|]. cbn [digit_list length].
  destruct (Z.eqb_spec (x / base) 0) as [E|E]; [simpl; lia|]. destruct k as [|[|k]]; [lia| |].
  - rewrite Z.pow_1_r in Hx. rewrite Z.div_small in E by lia. done.
  - enough (length (digit_list fuel (x / base) base) ≤ S k)%nat by lia. apply IH; [|lia]. split; [apply Z.div_pos; lia|].
    apply Z.div_lt_upper_bound; [lia|]. rewrite Nat2Z.inj_succ, Z.pow_succ_r in Hx by lia. lia.
Qed.

Lemma udigits_range d : 0 ≤ d < 10 → byte.unsigned (udigits d) = 48 + d.
Proof.
  intros Hd. unfold udigits, ascii. destruct (Z.ltb_spec d 10); [|lia]. rewrite byte.unsigned_of_Z. unfold byte.wrap. apply Z.mod_small. lia.
Qed.

Lemma digits_value_snoc base l d : 2 ≤ base → digits_value base (l ++ [d]) = digits_value base l + base ^ Z.of_nat (length l) * d.
Proof.
  intros Hb. induction l as [|e l IH]; [simpl; lia|]. cbn [digits_value app length]. rewrite IH, Nat2Z.inj_succ, Z.pow_succ_r by lia. lia.
Qed.

Lemma digits_value_pos base l : 2 ≤ base → Forall (λ d, 0 ≤ d < base) l → 0 ≤ digits_value base l.
Proof. intros Hb. induction 1 as [|d l Hd _ IH]; simpl; [done|]. nia. Qed.

(** atoi() of digits, most significant first. *)
Lemma atoi_digits ds n : 0 ≤ n → Forall (λ d, 0 ≤ d < 10) ds → n * 10 ^ Z.of_nat (length ds) + digits_value 10 (reverse ds) < 2 ^ 31 →
  atoi_loop (udigits <$> ds) n = n * 10 ^ Z.of_nat (length ds) + digits_value 10 (reverse ds).
Proof.
  revert n. induction ds as [|d ds IH]; intros n Hn Hds Hlt.
  { simpl. rewrite Z.mul_1_r. lia. }
  apply Forall_cons in Hds as [Hd Hds]. rewrite reverse_cons, digits_value_snoc, length_reverse in * by lia.
  cbn [length] in *. rewrite Nat2Z.inj_succ, Z.pow_succ_r in * by lia. set (P := 10 ^ Z.of_nat (length ds)) in *.
  assert (HP : 1 ≤ P) by (unfold P; pose proof (Z.pow_pos_nonneg 10 (Z.of_nat (length ds))); lia).
  assert (Hv : 0 ≤ digits_value 10 (reverse ds)) by (apply digits_value_pos; [lia|by apply Forall_reverse]).
  cbn [fmap list_fmap atoi_loop]. rewrite udigits_range by lia.
  destruct (Z.leb_spec 48 (48 + d)); [|lia]. destruct (Z.leb_spec (48 + d) 57); [|lia]. cbn [andb].
  replace (n * 10 + (48 + d) - 48) with (n * 10 + d) by lia. rewrite i32_id by nia.
  rewrite IH; [unfold P in *; nia|lia|done|unfold P in *; nia].
Qed.

(** printint() and atoi().  printint() of an int in base 10 or 16 fits in
    its 16-byte buffer, writes a minus sign exactly for negative numbers when
    asked to, and its digits, read in the base, are the number; atoi() reads
    back what printint() prints for a non-negative int. *)
Theorem printint_reads_back x base sgn : - 2 ^ 31 ≤ x < 2 ^ 31 → base = 10 ∨ base = 16 →
  ∃ ds, printint udigits x base sgn = (if sgn && (x <? 0) then [ch_minus] else []) ++ (udigits <$> reverse ds) ∧
  ds ≠ [] ∧ Forall (λ d, 0 ≤ d < base) ds ∧ digits_value base ds = (if sgn then Z.abs x else u32 x) ∧
  (length (printint udigits x base sgn) ≤ 16)%nat ∧
  (0 ≤ x → atoi (printint udigits x 10 sgn) = x).
Proof.
  intros Hx Hb. set (neg := sgn && (x <? 0)). set (y := if neg then u32 (- x) else u32 x).
  assert (Hy : 0 ≤ y < 2 ^ Z.of_nat 32) by (unfold y; destruct neg; apply u32_range).
  assert (Hyv : y = if sgn then Z.abs x else u32 x).
  { unfold y, neg. destruct sgn; [|done]. cbn [andb]. destruct (Z.ltb_spec x 0); rewrite u32_id; lia. }
  assert (Hgen : ∀ b, printint udigits x b sgn = (if neg then [ch_minus] else []) ++ (udigits <$> reverse (digit_list 32 y b))).
  { intros b. unfold printint. fold neg. cbv zeta. fold y. rewrite digits_loop_list. destruct neg; rewrite ?reverse_app, <- fmap_reverse; done. }
  destruct (digit_list_spec 32 y base) as (Hval & Hrange & Hne); [lia|done|].
  exists (digit_list 32 y base). rewrite (Hgen base). split; [done|]. split; [by destruct Hne|]. split; [done|]. split; [by rewrite Hval|]. split.
  - assert (Hl : (length (digit_list 32 y base) ≤ 10)%nat).
    { apply digit_list_length; [lia| |lia]. split; [lia|]. destruct Hb as [-> | ->]; change (2 ^ Z.of_nat 32) with 4294967296 in Hy;
        [change (10 ^ Z.of_nat 10) with 10000000000|change (16 ^ Z.of_nat 10) with 1099511627776]; lia. }
    rewrite length_app, length_fmap, length_reverse. destruct neg; cbn [length Nat.add]; lia.
  - intros H0. assert (Hn : neg = false) by (unfold neg; destruct (Z.ltb_spec x 0); [lia|apply andb_false_r]).
    rewrite Hgen, Hn. cbn [app]. destruct (digit_list_spec 32 y 10) as (Hv & Hr & _); [lia|done|].
    assert (Hyx : y = x) by (rewrite Hyv; destruct sgn; [lia|apply u32_id; lia]).
    unfold atoi. rewrite atoi_digits; rewrite ?reverse_involutive; [lia|lia|by apply Forall_reverse|lia].
Qed.

Lemma printint_reads_back_witness : printint udigits (-42) 10 true = ascii <$> [45; 52; 50] ∧ (length (printint udigits (-42) 10 true) ≤ 16)%nat.
Proof.
  split; [reflexivity|]. destruct (printint_reads_back (-42) 10 true) as (ds & _ & _ & _ & _ & Hl & _); [lia|by left|]. exact Hl.
Defined.

(** The library's memmove() and the kernel's agree. *)
Lemma umemmove_memmove m dst src n x : 0 ≤ n → umemmove m dst src n x = memmove m dst src n x.
Proof.
  intros Hn. rewrite memmove_spec by done. unfold umemmove. destruct (Z.ltb_spec dst src).
  - rewrite memmove_up_spec by lia. by rewrite Z2Nat.id.
  - rewrite memmove_down_spec by lia. rewrite Z2Nat.id by done. replace (dst + n - n) with dst by lia.
    by replace (src + n + (x - (dst + n))) with (src + (x - dst)) by lia.
Qed.

(** strcmp() is zero exactly for equal strings. *)
Lemma ustrcmp_eq p q : Forall (λ c, byte.unsigned c ≠ 0) p → Forall (λ c, byte.unsigned c ≠ 0) q → ustrcmp p q = 0 ↔ p = q.
Proof.
  revert q. induction p as [|a p IH]; intros [|b q] Hp Hq; simpl.
  - done.
  - apply Forall_cons in Hq as [Hb _]. split; [lia|done].
  - apply Forall_cons in Hp as [Ha _]. split; [lia|done].
  - apply Forall_cons in Hp as [_ Hp]. apply Forall_cons in Hq as [_ Hq]. destruct (Z.eqb_spec (byte.unsigned a) (byte.unsigned b)) as [E|E].
    + rewrite IH by done. assert (a = b) as -> by (rewrite <- (byte.of_Z_unsigned a), <- (byte.of_Z_unsigned b); by rewrite E).
      split; [by intros ->|by intros [= ->]].
    + split; [lia|]. by intros [= -> ->].
Qed.
