(* ===== verification/Uart.v ===== *)
(** * kernel/uart.c: the serial port

    [uart] is the transmit ring with its lock, the register writes made so far
    (register number and value) and the wakeup() calls.  The device is the
    parameter: [lsr k] and [rhr k] are the values of the [k]-th read of the
    line status and receive registers, whatever they are.  push_off() and
    pop_off() in uartputc_sync() change the hart's interrupt state only
    (Spinlock). *)

From stdpp Require Import base strings numbers list.
From coqutil Require Import Byte.
From S2P Require Import Prelude Spinlock Ring.

Definition RHR : Z := 0.
Definition THR : Z := 0.
Definition IER : Z := 1.
Definition IER_RX_ENABLE : Z := Z.shiftl 1 0.
Definition IER_TX_ENABLE : Z := Z.shiftl 1 1.
Definition FCR : Z := 2.
Definition FCR_FIFO_ENABLE : Z := Z.shiftl 1 0.
Definition FCR_FIFO_CLEAR : Z := Z.shiftl 3 1.
Definition LCR : Z := 3.
Definition LCR_EIGHT_BITS : Z := Z.shiftl 3 0.
Definition LCR_BAUD_LATCH : Z := Z.shiftl 1 7.
Definition LSR_TX_IDLE : Z := Z.shiftl 1 5.
Definition UART_TX_BUF_SIZE : Z := 32.

Record uart := Uart {
  uart_tx_lock : bool;
  uart_tx_buf : list byte;
  uart_tx_w : Z;                (* write next to uart_tx_buf[uart_tx_w % UART_TX_BUF_SIZE] *)
  uart_tx_r : Z;                (* read next from uart_tx_buf[uart_tx_r % UART_TX_BUF_SIZE] *)
  panicked : bool;              (* from printf.c *)
  reg_writes : list (Z * Z);
  lsr_reads : nat;
  rhr_reads : nat;
  uart_woke : list chan
}.

Definition set_tx_lock (b : bool) (u : uart) : uart :=
  Uart b (uart_tx_buf u) (uart_tx_w u) (uart_tx_r u) (panicked u) (reg_writes u) (lsr_reads u) (rhr_reads u) (uart_woke u).
Definition WriteReg (reg v : Z) (u : uart) : uart :=
  Uart (uart_tx_lock u) (uart_tx_buf u) (uart_tx_w u) (uart_tx_r u) (panicked u) (reg_writes u ++ [(reg, u8 v)]) (lsr_reads u) (rhr_reads u) (uart_woke u).
(** [uart_tx_buf[uart_tx_w % UART_TX_BUF_SIZE] = c; uart_tx_w += 1;] *)
Definition tx_put (c : byte) (u : uart) : uart :=
  Uart (uart_tx_lock u) (<[Z.to_nat (uart_tx_w u mod UART_TX_BUF_SIZE) := c]> (uart_tx_buf u)) (u64 (uart_tx_w u + 1)) (uart_tx_r u)
    (panicked u) (reg_writes u) (lsr_reads u) (rhr_reads u) (uart_woke u).
(** [c = uart_tx_buf[uart_tx_r % UART_TX_BUF_SIZE]; uart_tx_r += 1; wakeup(&uart_tx_r);] *)
Definition tx_peek (u : uart) : byte := uart_tx_buf u !!! Z.to_nat (uart_tx_r u mod UART_TX_BUF_SIZE).
Definition tx_take (u : uart) : uart :=
  Uart (uart_tx_lock u) (uart_tx_buf u) (uart_tx_w u) (u64 (uart_tx_r u + 1)) (panicked u) (reg_writes u) (lsr_reads u) (rhr_reads u)
    (uart_woke u ++ [ChanUart]).

Section uart.
Context (lsr rhr : nat → Z).

Definition ReadLSR : M uart Z := λ u,
  Ret (lsr (lsr_reads u)) (Uart (uart_tx_lock u) (uart_tx_buf u) (uart_tx_w u) (uart_tx_r u) (panicked u) (reg_writes u) (S (lsr_reads u)) (rhr_reads u) (uart_woke u)).
Definition ReadRHR : M uart Z := λ u,
  Ret (u8 (rhr (rhr_reads u))) (Uart (uart_tx_lock u) (uart_tx_buf u) (uart_tx_w u) (uart_tx_r u) (panicked u) (reg_writes u) (lsr_reads u) (S (rhr_reads u)) (uart_woke u)).
Definition acquire_tx : M uart unit := acquire_flag uart_tx_lock set_tx_lock.
Definition release_tx : M uart unit := release_flag uart_tx_lock set_tx_lock.

Definition uartinit : M uart unit :=
  modify (WriteReg IER 0x00);;
  modify (WriteReg LCR LCR_BAUD_LATCH);;
  modify (WriteReg 0 0x03);;
  modify (WriteReg 1 0x00);;
  modify (WriteReg LCR LCR_EIGHT_BITS);;
  modify (WriteReg FCR (Z.lor FCR_FIFO_ENABLE FCR_FIFO_CLEAR));;
  modify (WriteReg IER (Z.lor IER_TX_ENABLE IER_RX_ENABLE));;
  modify (set_tx_lock false).

Definition tx_idle (v : Z) : bool := negb (Z.land v LSR_TX_IDLE =? 0).

Fixpoint uartstart_loop (fuel : nat) : M uart unit :=
  match fuel with
  | O => no_fuel
  | S fuel =>
    u ← gets (λ u, u);
    if uart_tx_w u =? uart_tx_r u then mret tt else        (* transmit buffer is empty *)
    v ← ReadLSR;
    if negb (tx_idle v) then mret tt else                  (* THR is full *)
    c ← gets tx_peek;
    modify tx_take;;
    modify (WriteReg THR (byte.unsigned c));;
    uartstart_loop fuel
  end.

(** Each turn of the loop takes a byte out of the buffer. *)
Definition uartstart : M uart unit := λ u,
  uartstart_loop (S (Z.to_nat (u64 (uart_tx_w u - uart_tx_r u)))) u.

(** uartputc() from its loop test on, with uart_tx_lock held: [false] when it
    sleeps on &uart_tx_r, which releases the lock; [uartputc_wake] is where
    the process continues. *)
Definition uartputc_loop (c : byte) : M uart bool :=
  u ← gets (λ u, u);
  if uart_tx_w u =? u64 (uart_tx_r u + UART_TX_BUF_SIZE) then
    release_tx;; mret false
  else
    modify (tx_put c);;
    uartstart;;
    release_tx;; mret true.

(** [for(;;) ;] *)
Definition forever {S A} : M S A := no_fuel.

Definition uartputc (c : byte) : M uart bool :=
  acquire_tx;;
  p ← gets panicked;
  if p : bool then forever else uartputc_loop c.

Definition uartputc_wake (c : byte) : M uart bool :=
  acquire_tx;;
  uartputc_loop c.

(** The wait for Transmit Holding Empty: as long as the device takes, so the
    fuel is a parameter. *)
Fixpoint wait_idle (spin : nat) : M uart unit :=
  match spin with
  | O => no_fuel
  | S spin => v ← ReadLSR; if tx_idle v then mret tt else wait_idle spin
  end.

Definition uartputc_sync (spin : nat) (c : Z) : M uart unit :=
  p ← gets panicked;
  if p : bool then forever else
  wait_idle spin;;
  modify (WriteReg THR c).

Definition uartgetc : M uart Z :=
  v ← ReadLSR;
  if negb (Z.land v 0x01 =? 0) then ReadRHR else mret (-1).

(** ** The transmit buffer is a queue *)

Definition tx_len (u : uart) : Z := ring_len (2 ^ 64) (uart_tx_r u) (uart_tx_w u).
(** The bytes waiting to be sent, the oldest first. *)
Definition tx_bytes (u : uart) : list byte := ring_bytes (2 ^ 64) UART_TX_BUF_SIZE (uart_tx_buf u) (uart_tx_r u) (uart_tx_w u).
(** The values written to a register. *)
Definition written_to (reg : Z) (l : list (Z * Z)) : list Z := (filter (λ x, x.1 = reg) l).*2.

Record uart_ok (u : uart) : Prop := {
  uo_buf : length (uart_tx_buf u) = Z.to_nat UART_TX_BUF_SIZE;
  uo_w : 0 ≤ uart_tx_w u < 2 ^ 64;
  uo_r : 0 ≤ uart_tx_r u < 2 ^ 64;
  uo_len : tx_len u ≤ UART_TX_BUF_SIZE
}.

Lemma tx_ring : 0 < UART_TX_BUF_SIZE ∧ (UART_TX_BUF_SIZE | 2 ^ 64) ∧ UART_TX_BUF_SIZE < 2 ^ 64.
Proof. split_and!; [done| |done]. by exists (2 ^ 59). Qed.
Local Ltac ring_side := destruct tx_ring as (? & ? & ?); auto.

Lemma tx_put_spec c u : uart_ok u → tx_len u < UART_TX_BUF_SIZE →
  uart_ok (tx_put c u) ∧ tx_bytes (tx_put c u) = tx_bytes u ++ [c].
Proof.
  intros [] Hlt. assert (Hl : tx_len (tx_put c u) = tx_len u + 1) by (apply (ring_len_succ_r _ UART_TX_BUF_SIZE); ring_side).
  split; [|apply ring_put; ring_side].
  split; cbn [tx_put uart_tx_buf uart_tx_w uart_tx_r]; rewrite ?length_insert; try done; [apply u64_range|lia].
Qed.

Lemma tx_take_spec u : uart_ok u → 0 < tx_len u →
  uart_ok (tx_take u) ∧ tx_bytes u = tx_peek u :: tx_bytes (tx_take u) ∧ tx_len (tx_take u) = tx_len u - 1.
Proof.
  intros [] Hlt. assert (Hl : tx_len (tx_take u) = tx_len u - 1) by (apply (ring_len_succ_l _ UART_TX_BUF_SIZE); ring_side).
  split_and!; [|apply ring_take; ring_side|done].
  split; cbn [tx_take uart_tx_buf uart_tx_w uart_tx_r]; try done; [apply u64_range|lia].
Qed.

Lemma tx_empty u : uart_ok u → (uart_tx_w u =? uart_tx_r u) = (tx_len u =? 0).
Proof. intros []. rewrite Z.eqb_sym. by apply ring_empty. Qed.

Lemma tx_full u : uart_ok u → (uart_tx_w u =? u64 (uart_tx_r u + UART_TX_BUF_SIZE)) = (tx_len u =? UART_TX_BUF_SIZE).
Proof. intros []. apply ring_full; ring_side. Qed.

(** A write of the bytes [l] to the transmit register. *)
Definition sends (l : list byte) : list (Z * Z) := (λ b, (THR, byte.unsigned b)) <$> l.

Lemma u8_byte b : u8 (byte.unsigned b) = byte.unsigned b.
Proof. unfold u8. apply Z.mod_small. apply byte.unsigned_range. Qed.

(** What uartstart() does: it sends from the front of the queue until the
    queue is empty or the device busy. *)
Lemma uartstart_loop_spec fuel u : uart_ok u → (Z.to_nat (tx_len u) < fuel)%nat → ∃ sent u',
  uartstart_loop fuel u = Ret tt u' ∧ uart_ok u' ∧ tx_bytes u = sent ++ tx_bytes u' ∧
  reg_writes u' = reg_writes u ++ sends sent ∧
  uart_woke u' = uart_woke u ++ replicate (length sent) ChanUart ∧
  (tx_bytes u' = [] ∨ tx_idle (lsr (pred (lsr_reads u'))) = false) ∧
  uart_tx_lock u' = uart_tx_lock u ∧ panicked u' = panicked u.
Proof.
  revert u. induction fuel as [|fuel IH]; intros u Hok Hf; [lia|]. cbn [uartstart_loop].
  rewrite bind_gets, tx_empty by done.
  destruct (Z.eqb_spec (tx_len u) 0) as [H0|Hn].
  { exists [], u. unfold mret, M_ret. rewrite !app_nil_r. split_and!; try done. left.
    apply length_zero_iff_nil. unfold tx_bytes. rewrite ring_bytes_length. unfold tx_len in H0. by rewrite H0. }
  unfold ReadLSR. unfold mbind at 1, M_bind at 1. cbn beta iota.
  destruct (tx_idle (lsr (lsr_reads u))) eqn:Eidle; cbn [negb].
  - set (u1 := Uart _ _ _ _ _ _ _ _ _). assert (Hok1 : uart_ok u1) by (destruct Hok; by split).
    assert (0 < tx_len u1) by (pose proof (Z.mod_pos_bound (uart_tx_w u - uart_tx_r u) (2 ^ 64) eq_refl); unfold tx_len, ring_len in *; simpl; lia).
    destruct (tx_take_spec u1 Hok1) as (Hok2 & Hb & Hl); [done|].
    unfold gets, modify, mbind, M_bind. cbn beta iota.
    destruct (IH (WriteReg THR (byte.unsigned (tx_peek u1)) (tx_take u1))) as (sent & u' & E & Hu' & Hb' & Hw & Hwk & Hend & Hlk & Hp).
    { destruct Hok2. by split. }
    { assert (tx_len u1 = tx_len u) by done. change (tx_len (WriteReg _ _ _)) with (tx_len (tx_take u1)). lia. }
    exists (tx_peek u1 :: sent), u'. split_and!; try done.
    + change (tx_bytes u) with (tx_bytes u1). rewrite Hb. change (tx_bytes (tx_take u1)) with (tx_bytes (WriteReg THR (byte.unsigned (tx_peek u1)) (tx_take u1))).
      by rewrite Hb'.
    + rewrite Hw. simpl. rewrite <- app_assoc. by rewrite u8_byte.
    + rewrite Hwk. simpl. by rewrite <- app_assoc.
  - eexists [], _. unfold mret, M_ret. rewrite !app_nil_r. split_and!; try done; [by destruct Hok; split|by right].
Qed.

Lemma uartstart_spec u : uart_ok u → ∃ sent u',
  uartstart u = Ret tt u' ∧ uart_ok u' ∧ tx_bytes u = sent ++ tx_bytes u' ∧
  reg_writes u' = reg_writes u ++ sends sent ∧
  uart_woke u' = uart_woke u ++ replicate (length sent) ChanUart ∧
  (tx_bytes u' = [] ∨ tx_idle (lsr (pred (lsr_reads u'))) = false) ∧
  uart_tx_lock u' = uart_tx_lock u ∧ panicked u' = panicked u.
Proof. intros Hok. apply uartstart_loop_spec; [done|]. unfold tx_len, ring_len, u64. lia. Qed.

(** uartputc(), from its first or from a later test of the loop condition. *)
Lemma uartputc_loop_spec c u : uart_ok u → uart_tx_lock u = true → ∃ r u',
  uartputc_loop c u = Ret r u' ∧ uart_ok u' ∧ uart_tx_lock u' = false ∧ panicked u' = panicked u ∧
  if r : bool then ∃ sent, tx_bytes u ++ [c] = sent ++ tx_bytes u' ∧ reg_writes u' = reg_writes u ++ sends sent
  else tx_len u = UART_TX_BUF_SIZE ∧ u' = set_tx_lock false u.
Proof.
  intros Hok Hlk. unfold uartputc_loop. rewrite bind_gets, tx_full by done.
  destruct (Z.eqb_spec (tx_len u) UART_TX_BUF_SIZE) as [Hf|Hf].
  - exists false, (set_tx_lock false u). unfold release_tx, release_flag, gets, modify, mbind, M_bind. rewrite Hlk.
    split_and!; try done. destruct Hok; by split.
  - destruct (tx_put_spec c u Hok) as [Hok1 Hb]; [pose proof (uo_len u Hok); lia|].
    destruct (uartstart_spec (tx_put c u) Hok1) as (sent & u' & E & Hu' & Hb' & Hw & _ & _ & Hl' & Hp').
    exists true, (set_tx_lock false u'). rewrite bind_modify, (bind_Ret _ _ _ _ _ E).
    unfold release_tx, release_flag, gets, modify, mbind, M_bind. rewrite Hl'. cbn [tx_put uart_tx_lock]. rewrite Hlk.
    split_and!; try done; [by destruct Hu'; split| ]. exists sent. split; [by rewrite <- Hb, Hb'|done].
Qed.

Lemma wait_idle_spec spin u s : wait_idle spin u = Ret tt s →
  s = Uart (uart_tx_lock u) (uart_tx_buf u) (uart_tx_w u) (uart_tx_r u) (panicked u) (reg_writes u) (lsr_reads s) (rhr_reads u) (uart_woke u) ∧
  (lsr_reads u < lsr_reads s)%nat ∧ tx_idle (lsr (pred (lsr_reads s))) = true.
Proof.
  revert u. induction spin as [|spin IH]; intros u; [done|]. cbn [wait_idle]. unfold ReadLSR, mbind, M_bind.
  destruct (tx_idle (lsr (lsr_reads u))) eqn:E; intros H.
  - injection H as <-. simpl. split_and!; [done|lia|done].
  - apply IH in H as (Hs & Hlt & Hi). simpl in *. split_and!; [done|lia|done].
Qed.

(** ** The serial line over time

    [ureach puts syncs u]: since the boot the bytes [puts] have been accepted
    by uartputc() and [syncs] sent by uartputc_sync(), in any interleaving
    with the interrupts that call uartstart() under the lock. *)
Inductive ureach (u0 : uart) : list byte → list Z → uart → Prop :=
| ur_boot : ureach u0 [] [] u0
| ur_putc puts syncs u c u' : ureach u0 puts syncs u →
    uartputc c u = Ret true u' ∨ uartputc_wake c u = Ret true u' → ureach u0 (puts ++ [c]) syncs u'
| ur_putc_sleep puts syncs u c u' : ureach u0 puts syncs u →
    uartputc c u = Ret false u' ∨ uartputc_wake c u = Ret false u' → ureach u0 puts syncs u'
| ur_sync puts syncs u spin c u' : ureach u0 puts syncs u →
    uartputc_sync spin c u = Ret tt u' → ureach u0 puts (syncs ++ [u8 c]) u'
| ur_intr puts syncs u u' : ureach u0 puts syncs u →
    (acquire_tx;; uartstart;; release_tx) u = Ret tt u' → ureach u0 puts syncs u'
| ur_getc puts syncs u c u' : ureach u0 puts syncs u → uartgetc u = Ret c u' → ureach u0 puts syncs u'.

(** The device received the values [out], a merge of [l1] and [l2] that keeps
    the order of each. *)
Inductive merged : list Z → list Z → list Z → Prop :=
| merged_nil : merged [] [] []
| merged_l l1 l2 out x : merged l1 l2 out → merged (l1 ++ [x]) l2 (out ++ [x])
| merged_r l1 l2 out x : merged l1 l2 out → merged l1 (l2 ++ [x]) (out ++ [x]).

Lemma merged_app l1 l2 out w : merged l1 l2 out → merged (l1 ++ w) l2 (out ++ w).
Proof.
  intros H. revert l1 out H. induction w as [|x w IH]; intros l1 out H; [by rewrite !app_nil_r|].
  rewrite (cons_middle x l1), (cons_middle x out), !app_assoc. by apply IH, merged_l.
Qed.

(** The invariant: what has left the queue, merged with the synchronous
    bytes, is what the device got. *)
Definition tx_inv (u0 : uart) (puts : list byte) (syncs : list Z) (u : uart) : Prop :=
  uart_ok u ∧ uart_tx_lock u = false ∧ ∃ sent out,
  puts = sent ++ tx_bytes u ∧ reg_writes u = reg_writes u0 ++ ((λ v, (THR, v)) <$> out) ∧
  merged (byte.unsigned <$> sent) syncs out.

Lemma tx_inv_send u0 puts syncs u c u' l sent : tx_inv u0 puts syncs u →
  uart_ok u' → uart_tx_lock u' = false → tx_bytes u ++ c = sent ++ tx_bytes u' → reg_writes u' = reg_writes u ++ sends sent →
  l = puts ++ c → tx_inv u0 l syncs u'.
Proof.
  intros (_ & _ & sent0 & out & Hp & Hw & Hm) Hok Hl Hb Hw' ->. split_and!; [done..|].
  exists (sent0 ++ sent), (out ++ (byte.unsigned <$> sent)). split_and!.
  - rewrite Hp, <- !app_assoc. by f_equal.
  - rewrite Hw', Hw, fmap_app, <- app_assoc. do 2 f_equal. unfold sends. by rewrite <- list_fmap_compose.
  - rewrite fmap_app. by apply merged_app.
Qed.

(** A change of the uart that the queue and the line do not see. *)
Lemma tx_inv_same u0 puts syncs u u' : tx_inv u0 puts syncs u → uart_tx_buf u' = uart_tx_buf u → uart_tx_w u' = uart_tx_w u →
  uart_tx_r u' = uart_tx_r u → reg_writes u' = reg_writes u → uart_tx_lock u' = false → tx_inv u0 puts syncs u'.
Proof.
  intros ([] & _ & H) Hb Hw Hr Hg Hl. unfold tx_inv, tx_bytes, tx_len in *. rewrite Hb, Hw, Hr, Hg. split_and!; [|done|done].
  split; unfold tx_len; by rewrite ?Hb, ?Hw, ?Hr.
Qed.

Lemma uartputc_Ret c u r u' : uartputc c u = Ret r u' → uartputc_wake c u = Ret r u'.
Proof.
  unfold uartputc, uartputc_wake. intros H. apply bind_Ret_inv in H as ([] & u1 & E & H). rewrite (bind_Ret _ _ _ _ _ E).
  rewrite bind_gets in H. by destruct (panicked u1).
Qed.

Lemma acquire_tx_run u : uart_tx_lock u = false → acquire_tx u = Ret tt (set_tx_lock true u).
Proof. unfold acquire_tx, acquire_flag. rewrite bind_gets. by intros ->. Qed.

Lemma uartputc_wake_inv u0 puts syncs u c r u' : tx_inv u0 puts syncs u → uartputc_wake c u = Ret r u' →
  tx_inv u0 (if r : bool then puts ++ [c] else puts) syncs u'.
Proof.
  intros Hi H. pose proof Hi as (Hok & Hl & _). unfold uartputc_wake in H. rewrite (bind_Ret _ _ _ _ _ (acquire_tx_run u Hl)) in H.
  assert (Hok1 : uart_ok (set_tx_lock true u)) by (destruct Hok; by split).
  destruct (uartputc_loop_spec c _ Hok1 eq_refl) as (r' & u1 & E & Hok' & Hl' & _ & Hr). rewrite E in H. injection H as -> ->.
  destruct r.
  - destruct Hr as (sent & Hb & Hw). by eapply tx_inv_send.
  - destruct Hr as [_ ->]. by eapply tx_inv_same.
Qed.

Lemma ureach_inv u0 puts syncs u : uart_ok u0 → tx_bytes u0 = [] → uart_tx_lock u0 = false → ureach u0 puts syncs u → tx_inv u0 puts syncs u.
Proof.
  intros Hok0 He Hl0. induction 1 as [|puts syncs u c u' _ IH H|puts syncs u c u' _ IH H|puts syncs u spin c u' _ IH H|puts syncs u u' _ IH H|puts syncs u c u' _ IH H].
  - split_and!; [done..|]. exists [], []. rewrite He, !app_nil_r. split_and!; try done. constructor.
  - assert (uartputc_wake c u = Ret true u') by (destruct H; auto using uartputc_Ret). by apply (uartputc_wake_inv _ _ _ _ c true _ IH).
  - assert (uartputc_wake c u = Ret false u') by (destruct H; auto using uartputc_Ret). by apply (uartputc_wake_inv _ _ _ _ c false _ IH).
  - unfold uartputc_sync in H. rewrite bind_gets in H. destruct (panicked u); [done|].
    apply bind_Ret_inv in H as ([] & u1 & E & H). apply wait_idle_spec in E as (Hu1 & _). injection H as <-. rewrite Hu1.
    destruct IH as (Hok & Hl & sent & out & Hp & Hw & Hm). split_and!; [by destruct Hok; split|done|].
    exists sent, (out ++ [u8 c]). split_and!; [done| |by apply merged_r]. simpl. by rewrite Hw, fmap_app, <- app_assoc.
  - pose proof IH as (Hok & Hl & _). rewrite (bind_Ret _ _ _ _ _ (acquire_tx_run u Hl)) in H.
    assert (Hok1 : uart_ok (set_tx_lock true u)) by (destruct Hok; by split).
    destruct (uartstart_spec _ Hok1) as (sent & u1 & E & Hok' & Hb & Hw & _ & _ & Hl1 & _). rewrite (bind_Ret _ _ _ _ _ E) in H.
    unfold release_tx, release_flag in H. rewrite bind_gets, Hl1 in H. injection H as <-.
    eapply (tx_inv_send _ _ _ _ [] _ _ sent IH); [by destruct Hok'; split|done|by rewrite app_nil_r|done|by rewrite app_nil_r].
  - unfold uartgetc, ReadLSR, ReadRHR, mbind, M_bind in H. destruct (negb _); injection H as <- <-; by eapply (tx_inv_same _ _ _ u); try apply IH.
Qed.

(** C34: For any order of writes to the console, kernel messages and echoes
    sent synchronously, and UART interrupts: the device receives the bytes
    given to uartputc(), each once and in order, merged with the synchronous
    bytes in their order; the bytes of uartputc() that it has not received yet
    are exactly those in the transmit buffer, which never holds more than its
    32 slots. *)
Theorem uart_sends_in_order u0 puts syncs u : uart_ok u0 → tx_bytes u0 = [] → uart_tx_lock u0 = false → ureach u0 puts syncs u →
  ∃ sent out, puts = sent ++ tx_bytes u ∧ (length (tx_bytes u) ≤ 32)%nat ∧
    reg_writes u = reg_writes u0 ++ ((λ v, (THR, v)) <$> out) ∧ merged (byte.unsigned <$> sent) syncs out.
Proof.
  intros Hok He Hl Hr. destruct (ureach_inv _ _ _ _ Hok He Hl Hr) as (Hu & _ & sent & out & Hp & Hw & Hm).
  exists sent, out. split_and!; try done. unfold tx_bytes. rewrite ring_bytes_length. pose proof (uo_len u Hu) as Hlen.
  unfold tx_len, UART_TX_BUF_SIZE in Hlen. lia.
Qed.

(** uartstart() never leaves a byte waiting while the device is idle, so
    the interrupt that the device raises when it becomes idle is enough to
    drain the buffer; every byte sent wakes the writers that wait for room. *)
Theorem uartstart_keeps_busy u : uart_ok u → ∃ sent u',
  uartstart u = Ret tt u' ∧ tx_bytes u = sent ++ tx_bytes u' ∧ reg_writes u' = reg_writes u ++ sends sent ∧
  uart_woke u' = uart_woke u ++ replicate (length sent) ChanUart ∧
  (tx_bytes u' = [] ∨ tx_idle (lsr (pred (lsr_reads u'))) = false).
Proof.
  intros Hok. destruct (uartstart_spec u Hok) as (sent & u' & E & _ & Hb & Hw & Hk & He & _). exists sent, u'. by split_and!.
Qed.
End uart.

(** A UART after uartinit(), that is idle at every other read of its status. *)
Definition demo_uart : uart := Uart false (replicate 32 Byte.x00) 0 0 false [] 0 0 [].
Definition demo_lsr (k : nat) : Z := if Nat.even k then LSR_TX_IDLE else 0.
Definition no_input (k : nat) : Z := 0.

Lemma demo_uart_ok : uart_ok demo_uart.
Proof. by split. Qed.

Lemma uart_sends_in_order_witness : ∃ u, ureach demo_lsr no_input demo_uart [Byte.x61; Byte.x62] [] u ∧
  ∃ sent out, [Byte.x61; Byte.x62] = sent ++ tx_bytes u ∧ (length (tx_bytes u) ≤ 32)%nat ∧
    reg_writes u = [] ++ ((λ v, (THR, v)) <$> out) ∧ merged (byte.unsigned <$> sent) [] out.
Proof.
  assert (H : ∃ u, ureach demo_lsr no_input demo_uart [Byte.x61; Byte.x62] [] u).
  { eexists. eapply (ur_putc _ _ _ [Byte.x61]); [eapply (ur_putc _ _ _ []); [apply ur_boot|left; vm_compute; reflexivity]|left; vm_compute; reflexivity]. }
  destruct H as [u H]. exists u. split; [exact H|].
  apply (uart_sends_in_order demo_lsr no_input demo_uart); [exact demo_uart_ok|vm_compute; reflexivity|reflexivity|exact H].
Defined.

Lemma uartstart_keeps_busy_witness : ∃ sent u',
  uartstart demo_lsr (tx_put Byte.x61 demo_uart) = Ret tt u' ∧ tx_bytes (tx_put Byte.x61 demo_uart) = sent ++ tx_bytes u' ∧
  reg_writes u' = [] ++ sends sent ∧ uart_woke u' = [] ++ replicate (length sent) ChanUart ∧
  (tx_bytes u' = [] ∨ tx_idle (demo_lsr (pred (lsr_reads u'))) = false).
Proof.
  apply (uartstart_keeps_busy demo_lsr (tx_put Byte.x61 demo_uart)). apply tx_put_spec; [exact demo_uart_ok|reflexivity].
Defined.
