(* ===== verification/Console.v ===== *)
(** * kernel/console.c: the console's line discipline

    [cstate] is [cons] with the UART, the memory of the calling process and
    the wakeup() calls made.  A process that sleeps has released the lock; it
    continues at the loop test: [ConsSleep] reports how far it has come.
    killed(myproc()) can change at any moment: [kl n] is what it returns with
    [n] bytes to go.  procdump() prints the text [dump].

    The code is shown to implement [tty]: the lines ready to be read and the
    line being edited. *)

From stdpp Require Import base strings numbers list.
From coqutil Require Import Byte Word.LittleEndianList.
From S2P Require Import Prelude Spinlock Block Fs Ring Uart.

Definition BACKSPACE : Z := 0x100.
Definition ctrl (x : Z) : Z := x - 64.         (* C(x): x - '@' *)
Definition INPUT_BUF_SIZE : Z := 128.

Record cons := Cons {
  cons_lock : bool;
  cons_buf : list byte;
  cons_r : Z;      (* Read index *)
  cons_w : Z;      (* Write index *)
  cons_e : Z       (* Edit index *)
}.

Definition set_cons_lock (b : bool) (c : cons) : cons := Cons b (cons_buf c) (cons_r c) (cons_w c) (cons_e c).
Definition set_cons_r (x : Z) (c : cons) : cons := Cons (cons_lock c) (cons_buf c) (u32 x) (cons_w c) (cons_e c).
Definition set_cons_w (x : Z) (c : cons) : cons := Cons (cons_lock c) (cons_buf c) (cons_r c) (u32 x) (cons_e c).
Definition set_cons_e (x : Z) (c : cons) : cons := Cons (cons_lock c) (cons_buf c) (cons_r c) (cons_w c) (u32 x).
(** [cons.buf[cons.e++ % INPUT_BUF_SIZE] = c] *)
Definition cons_store (b : byte) (c : cons) : cons :=
  Cons (cons_lock c) (<[Z.to_nat (cons_e c mod INPUT_BUF_SIZE) := b]> (cons_buf c)) (cons_r c) (cons_w c) (u32 (cons_e c + 1)).
Definition cons_at (c : cons) (i : Z) : byte := cons_buf c !!! Z.to_nat (u32 i mod INPUT_BUF_SIZE).

Inductive cons_result := ConsDone (r : Z) | ConsSleep (c : chan) (n : Z).
Inductive consw_result := ConswDone (r : Z) | ConswSleep (c : chan) (i : Z) (ch : byte).

Section console.
Context {U : UserMem} (lsr rhr : nat → Z) (spin : nat).

Record cstate := CState { cs_cons : cons; cs_uart : uart; cs_um : um_state; cs_woke : list chan }.

Definition set_cons (c : cons) (s : cstate) : cstate := CState c (cs_uart s) (cs_um s) (cs_woke s).
Definition set_uart (u : uart) (s : cstate) : cstate := CState (cs_cons s) u (cs_um s) (cs_woke s).
Definition updc (f : cons → cons) : M cstate unit := modify (λ s, set_cons (f (cs_cons s)) s).
Definition cwakeup (c : chan) : M cstate unit := modify (λ s, CState (cs_cons s) (cs_uart s) (cs_um s) (cs_woke s ++ [c])).
Definition acquire_cons : M cstate unit := acquire_flag (λ s, cons_lock (cs_cons s)) (λ b s, set_cons (set_cons_lock b (cs_cons s)) s).
Definition release_cons : M cstate unit := release_flag (λ s, cons_lock (cs_cons s)) (λ b s, set_cons (set_cons_lock b (cs_cons s)) s).
Definition on_uart {A} (m : M uart A) : M cstate A := zoom cs_uart set_uart m.

Definition consputc (c : Z) : M cstate unit :=
  if c =? BACKSPACE then
    on_uart (uartputc_sync lsr spin 8);; on_uart (uartputc_sync lsr spin 32);; on_uart (uartputc_sync lsr spin 8)
  else on_uart (uartputc_sync lsr spin c).

(** either_copyin() of the byte [i] of the source. *)
Definition ccopyin (x : src) (i : Z) : M cstate (option byte) :=
  match x with
  | UserSrc va => gets (λ s, let '(ok, l) := um_copyin (u64 (va + i)) 1 (cs_um s) in if ok : bool then head l else None)
  | KernSrc l => mret (l !! Z.to_nat i)
  end.

(** either_copyout() of one byte; a kernel destination has received [acc]. *)
Definition ccopyout (d : dst) (tot : Z) (b : byte) (acc : list byte) : M cstate (bool * list byte) :=
  match d with
  | UserDst va => λ s, let '(ok, u) := um_copyout (u64 (va + tot)) [b] (cs_um s) in Ret (ok, acc) (CState (cs_cons s) (cs_uart s) u (cs_woke s))
  | KernDst => mret (true, acc ++ [b])
  end.

(** consolewrite(), with [k] bytes to go after byte [i]. *)
Fixpoint consolewrite_loop (k : nat) (x : src) (i : Z) : M cstate consw_result :=
  match k with
  | O => mret (ConswDone i)
  | S k =>
    c ← ccopyin x i;
    match c with
    | None => mret (ConswDone i)
    | Some ch =>
      put ← on_uart (uartputc lsr ch);
      if put : bool then consolewrite_loop k x (i + 1) else mret (ConswSleep ChanUart i ch)
    end
  end.

Definition consolewrite (x : src) (n : Z) : M cstate consw_result := consolewrite_loop (Z.to_nat n) x 0.

(** A writer that slept in uartputc() with the character [ch]. *)
Definition consolewrite_wake (x : src) (i n : Z) (ch : byte) : M cstate consw_result :=
  put ← on_uart (uartputc_wake lsr ch);
  if put : bool then consolewrite_loop (Z.to_nat (n - (i + 1))) x (i + 1) else mret (ConswSleep ChanUart i ch).

Definition consoleread_end (target n : Z) (acc : list byte) : M cstate (cons_result * list byte) :=
  release_cons;; mret (ConsDone (i32 (target - n)), acc).

(** The loop of consoleread() with [n] bytes to go, cons.lock held; [tot]
    bytes have been copied. *)
Fixpoint consoleread_loop (fuel : nat) (kl : Z → bool) (d : dst) (target tot n : Z) (acc : list byte) : M cstate (cons_result * list byte) :=
  match fuel with
  | O => no_fuel
  | S fuel =>
    if 0 <? n then
      k ← gets cs_cons;
      if cons_r k =? cons_w k then
        if kl n then release_cons;; mret (ConsDone (-1), acc)
        else release_cons;; mret (ConsSleep ChanCons n, acc)
      else
      let c := cons_at k (cons_r k) in
      updc (set_cons_r (cons_r k + 1));;
      if byte.unsigned c =? ctrl 68 then       (* end-of-file *)
        (* save ^D for next time *)
        (if u32 n <? target then updc (λ k, set_cons_r (cons_r k - 1) k) else mret tt);;
        consoleread_end target n acc
      else
      r ← ccopyout d tot c acc;
      if r.1 : bool then
        if byte.unsigned c =? 10 then consoleread_end target (n - 1) r.2
        else consoleread_loop fuel kl d target (tot + 1) (n - 1) r.2
      else consoleread_end target n r.2
    else consoleread_end target n acc
  end.

(** consoleread(), and where a reader continues that slept with [n] bytes to
    go and [acc] copied. *)
Definition consoleread_from (kl : Z → bool) (d : dst) (target tot n : Z) (acc : list byte) : M cstate (cons_result * list byte) :=
  acquire_cons;;
  consoleread_loop (S (Z.to_nat n)) kl d target tot n acc.

Definition consoleread (kl : Z → bool) (d : dst) (n : Z) : M cstate (cons_result * list byte) :=
  consoleread_from kl d (u32 n) 0 n [].

(** The loop of control-u. *)
Fixpoint kill_line (fuel : nat) : M cstate unit :=
  match fuel with
  | O => no_fuel
  | S fuel =>
    k ← gets cs_cons;
    if negb (cons_e k =? cons_w k) && negb (byte.unsigned (cons_at k (cons_e k - 1)) =? 10) then
      updc (set_cons_e (cons_e k - 1));;
      consputc BACKSPACE;;
      kill_line fuel
    else mret tt
  end.

Fixpoint print_text (l : list byte) : M cstate unit :=
  match l with
  | [] => mret tt
  | b :: l => consputc (byte.unsigned b);; print_text l
  end.

Definition consoleintr (dump : list byte) (c : Z) : M cstate unit :=
  acquire_cons;;
  (if c =? ctrl 80 then print_text dump
   else if c =? ctrl 85 then
     k ← gets cs_cons; kill_line (S (Z.to_nat (u32 (cons_e k - cons_w k))))
   else if (c =? ctrl 72) || (c =? 127) then
     k ← gets cs_cons;
     if negb (cons_e k =? cons_w k) then
       updc (set_cons_e (cons_e k - 1));; consputc BACKSPACE
     else mret tt
   else
     k ← gets cs_cons;
     if negb (c =? 0) && (u32 (cons_e k - cons_r k) <? INPUT_BUF_SIZE) then
       let c := if c =? 13 then 10 else c in
       consputc c;;
       updc (cons_store (byte.of_Z c));;
       k ← gets cs_cons;
       if (c =? 10) || (c =? ctrl 68) || (u32 (cons_e k - cons_r k) =? INPUT_BUF_SIZE) then
         updc (set_cons_w (cons_e k));;
         cwakeup ChanCons
       else mret tt
     else mret tt);;
  release_cons.

(** uartintr(): the characters the device has, then the transmit buffer.  The
    number of characters is up to the device. *)
Fixpoint uartintr_input (fuel : nat) (dump : list byte) : M cstate unit :=
  match fuel with
  | O => no_fuel
  | S fuel =>
    c ← on_uart (uartgetc lsr rhr);
    if c =? -1 then mret tt else
    consoleintr dump c;; uartintr_input fuel dump
  end.

Definition uartintr (fuel : nat) (dump : list byte) : M cstate unit :=
  uartintr_input fuel dump;;
  on_uart (acquire_tx;; uartstart lsr;; release_tx).

Definition consoleinit : M cstate unit :=
  updc (set_cons_lock false);;
  on_uart uartinit.

End console.
