(* ===== verification/ConsoleThms.v ===== *)
(** * kernel/console.c: the line discipline is [tty]

    [tty] is the input side of a terminal: lines that are complete and wait
    for a reader, and the line being edited.  [tty_input] is what a typed
    character does to it, [tty_read] what a reader takes from it. *)

From stdpp Require Import base strings numbers list.
From coqutil Require Import Byte Word.LittleEndianList.
From S2P Require Import Prelude Spinlock VmThms Block VmUserMem Fs Ring Uart Console.

Record tty := Tty { t_ready : list byte; t_line : list byte }.

Definition erase : list Z := [8; 32; 8].

(** The terminal after the character [c], what it echoes, and whether readers
    are woken. *)
Definition tty_input (dump : list byte) (c : Z) (t : tty) : tty * list Z * bool :=
  if c =? 16 then (t, byte.unsigned <$> dump, false)                                   (* control-p *)
  else if c =? 21 then (Tty (t_ready t) [], mjoin (replicate (length (t_line t)) erase), false)     (* control-u *)
  else if (c =? 8) || (c =? 127) then                                              (* backspace *)
    if decide (t_line t = []) then (t, [], false) else (Tty (t_ready t) (removelast (t_line t)), erase, false)
  else if negb (c =? 0) && (length (t_ready t ++ t_line t) <? 128)%nat then
    let c := if c =? 13 then 10 else c in
    let line := t_line t ++ [byte.of_Z c] in
    if (c =? 10) || (c =? 4) || (length (t_ready t ++ line) =? 128)%nat
    then (Tty (t_ready t ++ line) [], [c], true) else (Tty (t_ready t) line, [c], false)
  else (t, [], false).

(** How a read of at most [n] bytes ends, the bytes it delivers and what is
    left: up to and including a newline, up to a control-d, which is eaten
    only when it is the first byte of the read ([first]). *)
Fixpoint tty_read (first : bool) (n : nat) (ready : list byte) : bool * list byte * list byte :=
  match n, ready with
  | O, _ => (true, [], ready)
  | S n, [] => (false, [], [])
  | S n, b :: rest =>
    if byte.unsigned b =? 4 then (true, [], if first then rest else ready)
    else if byte.unsigned b =? 10 then (true, [b], rest)
    else let '(fin, l, r) := tty_read false n rest in (fin, b :: l, r)
  end.

(** ** The abstraction *)

Definition cons_bytes (c : cons) : list byte := ring_bytes (2 ^ 32) INPUT_BUF_SIZE (cons_buf c) (cons_r c) (cons_e c).
Definition n_ready (c : cons) : Z := ring_len (2 ^ 32) (cons_r c) (cons_w c).
Definition n_bytes (c : cons) : Z := ring_len (2 ^ 32) (cons_r c) (cons_e c).
Definition tty_of (c : cons) : tty := Tty (take (Z.to_nat (n_ready c)) (cons_bytes c)) (drop (Z.to_nat (n_ready c)) (cons_bytes c)).

Record cons_ok (c : cons) : Prop := {
  co_buf : length (cons_buf c) = Z.to_nat INPUT_BUF_SIZE;
  co_r : 0 ≤ cons_r c < 2 ^ 32;
  co_w : 0 ≤ cons_w c < 2 ^ 32;
  co_e : 0 ≤ cons_e c < 2 ^ 32;
  co_ready : n_ready c ≤ n_bytes c;
  co_size : n_bytes c ≤ INPUT_BUF_SIZE;
  (* a line that is being edited has no newline in it *)
  co_line : Forall (λ b, byte.unsigned b ≠ 10) (t_line (tty_of c))
}.

Lemma cons_ring : 0 < INPUT_BUF_SIZE ∧ (INPUT_BUF_SIZE | 2 ^ 32) ∧ INPUT_BUF_SIZE < 2 ^ 32.
Proof. split_and!; [done| |done]. by exists (2 ^ 25). Qed.
Local Ltac ring_side := destruct cons_ring as (? & ? & ?); auto.

Lemma n_ready_range c : 0 ≤ n_ready c < 2 ^ 32.
Proof. by apply Z.mod_pos_bound. Qed.
Lemma n_bytes_range c : 0 ≤ n_bytes c < 2 ^ 32.
Proof. by apply Z.mod_pos_bound. Qed.

Lemma cons_bytes_length c : length (cons_bytes c) = Z.to_nat (n_bytes c).
Proof. apply ring_bytes_length. Qed.

Lemma t_line_length c : n_ready c ≤ n_bytes c → length (t_line (tty_of c)) = Z.to_nat (n_bytes c - n_ready c).
Proof. intros. simpl. rewrite length_drop, cons_bytes_length. pose proof (n_ready_range c). lia. Qed.

Lemma t_ready_length c : n_ready c ≤ n_bytes c → length (t_ready (tty_of c)) = Z.to_nat (n_ready c).
Proof. intros. simpl. rewrite length_take, cons_bytes_length. pose proof (n_ready_range c). lia. Qed.

Lemma tty_bytes c : t_ready (tty_of c) ++ t_line (tty_of c) = cons_bytes c.
Proof. apply take_drop. Qed.

(** The line is empty exactly when e = w. *)
Lemma line_empty c : cons_ok c → (cons_e c =? cons_w c) = bool_decide (t_line (tty_of c) = []).
Proof.
  intros []. assert (Hl : ring_len (2 ^ 32) (cons_w c) (cons_e c) = n_bytes c - n_ready c) by (apply (ring_len_split _ INPUT_BUF_SIZE); ring_side).
  rewrite Z.eqb_sym, (ring_empty (2 ^ 32)) by done. rewrite Hl. pose proof (t_line_length c co_ready0) as Hlen.
  destruct (Z.eqb_spec (n_bytes c - n_ready c) 0) as [E|E]; symmetry.
  - apply bool_decide_eq_true. rewrite E in Hlen. by apply length_zero_iff_nil.
  - apply bool_decide_eq_false. intros H. rewrite H in Hlen. simpl in Hlen. lia.
Qed.

Lemma ready_empty c : cons_ok c → (cons_r c =? cons_w c) = bool_decide (t_ready (tty_of c) = []).
Proof.
  intros []. rewrite (ring_empty (2 ^ 32)) by done. fold (n_ready c). pose proof (t_ready_length c co_ready0) as Hlen. pose proof (n_ready_range c).
  destruct (Z.eqb_spec (n_ready c) 0) as [E|E]; symmetry.
  - apply bool_decide_eq_true. rewrite E in Hlen. by apply length_zero_iff_nil.
  - apply bool_decide_eq_false. intros H'. rewrite H' in Hlen. simpl in Hlen. lia.
Qed.

(** Erasing the last character of the line. *)
Lemma cons_erase c : cons_ok c → t_line (tty_of c) ≠ [] →
  cons_ok (set_cons_e (cons_e c - 1) c) ∧ t_ready (tty_of (set_cons_e (cons_e c - 1) c)) = t_ready (tty_of c) ∧
  t_line (tty_of c) = t_line (tty_of (set_cons_e (cons_e c - 1) c)) ++ [cons_at c (cons_e c - 1)].
Proof.
  intros [] Hne. set (c' := set_cons_e _ _). pose proof (n_ready_range c). pose proof (t_line_length c co_ready0) as Hl.
  assert (n_ready c < n_bytes c) by (destruct (t_line (tty_of c)); [done|simpl in Hl; lia]).
  assert (Hn : n_bytes c' = n_bytes c - 1) by (apply (ring_len_pred_r _ INPUT_BUF_SIZE); [ring_side..|]; unfold n_bytes in *; lia).
  assert (Hb : cons_bytes c = cons_bytes c' ++ [cons_at c (cons_e c - 1)]) by (apply ring_unput; [ring_side..|change (0 < n_bytes c); lia]).
  assert (Hlt : (Z.to_nat (n_ready c) ≤ length (cons_bytes c'))%nat) by (rewrite cons_bytes_length, Hn; lia).
  assert (Hline : t_line (tty_of c) = t_line (tty_of c') ++ [cons_at c (cons_e c - 1)]) by (simpl; rewrite Hb, drop_app_le by done; done).
  split_and!; [|simpl; rewrite Hb, take_app_le by done; done|done].
  split; try done; [apply u32_range|change (n_ready c') with (n_ready c); lia|lia|].
  rewrite Hline in co_line0. by apply Forall_app in co_line0 as [? _].
Qed.

(** Adding a character to the line. *)
Lemma cons_store_spec b c : cons_ok c → n_bytes c < INPUT_BUF_SIZE →
  n_bytes (cons_store b c) = n_bytes c + 1 ∧ cons_bytes (cons_store b c) = cons_bytes c ++ [b] ∧
  t_ready (tty_of (cons_store b c)) = t_ready (tty_of c) ∧ t_line (tty_of (cons_store b c)) = t_line (tty_of c) ++ [b].
Proof.
  intros [] Hlt. assert (Hn : n_bytes (cons_store b c) = n_bytes c + 1) by (apply (ring_len_succ_r _ INPUT_BUF_SIZE); ring_side).
  assert (Hb : cons_bytes (cons_store b c) = cons_bytes c ++ [b]) by (apply ring_put; ring_side).
  pose proof (n_ready_range c). assert (Hle : (Z.to_nat (n_ready c) ≤ length (cons_bytes c))%nat) by (rewrite cons_bytes_length; lia).
  split_and!; [done|done| |]; simpl; change (n_ready (cons_store b c)) with (n_ready c); rewrite Hb; [by rewrite take_app_le|by rewrite drop_app_le].
Qed.

Lemma cons_store_ok b c : cons_ok c → n_bytes c < INPUT_BUF_SIZE → byte.unsigned b ≠ 10 → cons_ok (cons_store b c).
Proof.
  intros Hok Hlt Hb. destruct (cons_store_spec b c Hok Hlt) as (Hn & _ & _ & Hl). destruct Hok.
  split; try done; [simpl; by rewrite length_insert|apply u32_range|change (n_ready (cons_store b c)) with (n_ready c); lia|lia|].
  rewrite Hl. apply Forall_app; split; [done|by constructor].
Qed.

(** [cons.w = cons.e] makes the line ready. *)
Lemma cons_commit c : length (cons_buf c) = Z.to_nat INPUT_BUF_SIZE → 0 ≤ cons_r c < 2 ^ 32 → 0 ≤ cons_e c < 2 ^ 32 → n_bytes c ≤ INPUT_BUF_SIZE →
  cons_ok (set_cons_w (cons_e c) c) ∧ tty_of (set_cons_w (cons_e c) c) = Tty (cons_bytes c) [].
Proof.
  intros Hb Hr He Hn. set (c' := set_cons_w _ _).
  assert (Hw : cons_w c' = cons_e c) by (apply Z.mod_small; lia).
  assert (Hnr : n_ready c' = n_bytes c') by (unfold n_ready; by rewrite Hw).
  assert (Ht : tty_of c' = Tty (cons_bytes c) []).
  { unfold tty_of. rewrite Hnr. change (cons_bytes c') with (cons_bytes c). change (n_bytes c') with (n_bytes c).
    rewrite <- cons_bytes_length, take_ge, drop_ge; done. }
  split; [|done]. split; try done; [rewrite Hw; done|lia|by rewrite Ht].
Qed.

(** Taking the first ready byte, and putting it back. *)
Lemma cons_take c b rest : cons_ok c → t_ready (tty_of c) = b :: rest →
  cons_at c (cons_r c) = b ∧ cons_ok (set_cons_r (cons_r c + 1) c) ∧
  tty_of (set_cons_r (cons_r c + 1) c) = Tty rest (t_line (tty_of c)) ∧
  set_cons_r (cons_r (set_cons_r (cons_r c + 1) c) - 1) (set_cons_r (cons_r c + 1) c) = c.
Proof.
  intros [] Hr. set (c' := set_cons_r _ _). pose proof (t_ready_length c co_ready0) as Hl. rewrite Hr in Hl. simpl in Hl.
  assert (Hn : n_bytes c' = n_bytes c - 1) by (apply (ring_len_succ_l _ INPUT_BUF_SIZE); [ring_side..|]; unfold n_bytes in *; lia).
  assert (Hnr : n_ready c' = n_ready c - 1) by (apply (ring_len_succ_l _ INPUT_BUF_SIZE); [ring_side..|]; unfold n_ready in *; lia).
  assert (Hb : cons_bytes c = cons_at c (cons_r c) :: cons_bytes c').
  { unfold cons_at. unfold u32. rewrite (Z.mod_small (cons_r c)) by done. apply ring_take; [ring_side..|]. change (0 < n_bytes c). lia. }
  assert (Ht : t_ready (tty_of c) = cons_at c (cons_r c) :: t_ready (tty_of c') ∧ t_line (tty_of c) = t_line (tty_of c')).
  { simpl. rewrite Hb, Hnr. replace (Z.to_nat (n_ready c)) with (S (Z.to_nat (n_ready c - 1))) by lia. done. }
  destruct Ht as [Ht1 Ht2]. rewrite Hr in Ht1. injection Ht1 as <- Ht1. split_and!; [done| | |].
  - split; try done; [apply u32_range|lia|lia|by rewrite <- Ht2].
  - rewrite Ht1, Ht2. done.
  - unfold c'. destruct c as [lk buf r w e]. unfold set_cons_r. cbn [cons_r cons_lock cons_buf cons_w cons_e] in *. f_equal. unfold u32.
    rewrite Zminus_mod_idemp_l. replace (r + 1 - 1) with r by lia. by apply Z.mod_small.
Qed.

(** ** The interrupt handler *)

Section thms.
Context {U : UserMem} (lsr rhr : nat → Z) (spin : nat).

(** The device becomes idle within [spin] reads of its status. *)
Definition tx_live : Prop := ∀ k, ∃ j, (j < spin)%nat ∧ tx_idle (lsr (k + j)) = true.

(** [s'] is [s] after the values [l] were sent to the device. *)
Definition echoed (s s' : cstate) (l : list Z) : Prop := ∃ u',
  s' = set_uart u' s ∧ panicked u' = panicked (cs_uart s) ∧ reg_writes u' = reg_writes (cs_uart s) ++ ((λ v, (THR, v)) <$> l).

Lemma echoed_nil s : echoed s s [].
Proof. exists (cs_uart s). rewrite app_nil_r. by destruct s. Qed.

Lemma echoed_app s s' s'' l l' : echoed s s' l → echoed s' s'' l' → echoed s s'' (l ++ l').
Proof.
  intros (u & -> & Hp & Hw) (u' & -> & Hp' & Hw'). exists u'. split_and!; [done|by rewrite Hp'|]. rewrite Hw'. simpl. by rewrite Hw, fmap_app, app_assoc.
Qed.

Lemma echoed_set_cons c s s' l : echoed (set_cons c s) s' l → s' = set_cons c (set_uart (cs_uart s') s) ∧ echoed s (set_uart (cs_uart s') s) l.
Proof. intros (u & -> & Hp & Hw). split; [done|]. by exists u. Qed.

Lemma wait_idle_run n u : (∃ j, (j < n)%nat ∧ tx_idle (lsr (lsr_reads u + j)) = true) → ∃ u', wait_idle lsr n u = Ret tt u'.
Proof.
  revert u. induction n as [|n IH]; intros u (j & Hj & Hi); [lia|]. cbn [wait_idle]. unfold ReadLSR, mbind, M_bind.
  destruct (tx_idle (lsr (lsr_reads u))) eqn:E; [by eexists|]. apply IH. destruct j as [|j]; [by rewrite Nat.add_0_r, E in Hi|].
  exists j. split; [lia|]. simpl. by rewrite <- plus_n_Sm in Hi.
Qed.

Lemma putc_sync_run c s : tx_live → panicked (cs_uart s) = false → ∃ s', on_uart (uartputc_sync lsr spin c) s = Ret tt s' ∧ echoed s s' [u8 c].
Proof.
  intros Hlive Hp. destruct (wait_idle_run spin (cs_uart s) (Hlive _)) as [u1 E]. pose proof (wait_idle_spec lsr _ _ _ E) as (Hu1 & _).
  exists (set_uart (WriteReg THR c u1) s). split.
  - apply zoom_Ret. unfold uartputc_sync. rewrite bind_gets, Hp, (bind_Ret _ _ _ _ _ E). done.
  - exists (WriteReg THR c u1). rewrite Hu1. done.
Qed.

(** Sequences of outputs. *)
Lemma echo_seq (m m' : M cstate unit) s l l' : panicked (cs_uart s) = false →
  (∃ s', m s = Ret tt s' ∧ echoed s s' l) → (∀ s, panicked (cs_uart s) = false → ∃ s', m' s = Ret tt s' ∧ echoed s s' l') →
  ∃ s', (m;; m') s = Ret tt s' ∧ echoed s s' (l ++ l').
Proof.
  intros Hp (s1 & E1 & H1) H2. destruct (H2 s1) as (s2 & E2 & H2'); [destruct H1 as (u & -> & Hu & _); by rewrite <- Hp|].
  exists s2. rewrite (bind_Ret _ _ _ _ _ E1). split; [done|by eapply echoed_app].
Qed.

Lemma erase_run s : tx_live → panicked (cs_uart s) = false → ∃ s', consputc lsr spin BACKSPACE s = Ret tt s' ∧ echoed s s' erase.
Proof.
  intros Hlive Hp. unfold consputc. rewrite Z.eqb_refl. change erase with ([u8 8] ++ ([u8 32] ++ [u8 8])).
  apply echo_seq; [done|by apply putc_sync_run|]. intros s1 Hp1.
  apply echo_seq; [done|by apply putc_sync_run|]. intros s2 Hp2. by apply putc_sync_run.
Qed.

Lemma consputc_run c s : tx_live → panicked (cs_uart s) = false → 0 ≤ c < 256 → ∃ s', consputc lsr spin c s = Ret tt s' ∧ echoed s s' [c].
Proof.
  intros Hlive Hp Hc. unfold consputc. destruct (Z.eqb_spec c BACKSPACE); [unfold BACKSPACE in *; lia|].
  destruct (putc_sync_run c s Hlive Hp) as (s' & E & H). exists s'. split; [done|]. by replace c with (u8 c) by (unfold u8; apply Z.mod_small; lia).
Qed.

Lemma print_text_run l s : tx_live → panicked (cs_uart s) = false → ∃ s', print_text lsr spin l s = Ret tt s' ∧ echoed s s' (byte.unsigned <$> l).
Proof.
  intros Hlive. revert s. induction l as [|b l IH]; intros s Hp; [exists s; split; [done|apply echoed_nil]|].
  cbn [print_text]. apply (echo_seq _ _ _ [byte.unsigned b]); [done| |by apply IH].
  apply consputc_run; [done..|]. apply byte.unsigned_range.
Qed.

(** control-u erases the whole line. *)
Lemma kill_line_run fuel s : tx_live → panicked (cs_uart s) = false → cons_ok (cs_cons s) → (length (t_line (tty_of (cs_cons s))) < fuel)%nat →
  ∃ s' c' s1, kill_line lsr spin fuel s = Ret tt s' ∧ s' = set_cons c' s1 ∧ cons_ok c' ∧ cons_lock c' = cons_lock (cs_cons s) ∧
  tty_of c' = Tty (t_ready (tty_of (cs_cons s))) [] ∧ echoed s s1 (mjoin (replicate (length (t_line (tty_of (cs_cons s)))) erase)).
Proof.
  intros Hlive. revert s. induction fuel as [|fuel IH]; intros s Hp Hok Hf; [lia|]. cbn [kill_line]. rewrite bind_gets, line_empty by done.
  destruct (decide (t_line (tty_of (cs_cons s)) = [])) as [Hnil|Hne].
  - rewrite bool_decide_true by done. exists s, (cs_cons s), s. cbn [negb andb]. rewrite Hnil. split_and!; try done; [by destruct s| |apply echoed_nil].
    destruct (tty_of (cs_cons s)); simpl in *; by subst.
  - rewrite bool_decide_false by done. destruct (cons_erase _ Hok Hne) as (Hok1 & Hr1 & Hl1).
    assert (Hch : byte.unsigned (cons_at (cs_cons s) (cons_e (cs_cons s) - 1)) ≠ 10).
    { pose proof (co_line _ Hok) as Hall. rewrite Hl1 in Hall. apply Forall_app in Hall as [_ Hall]. by inversion Hall. }
    rewrite (proj2 (Z.eqb_neq _ _) Hch). cbn [negb andb]. unfold updc. rewrite bind_modify.
    set (c1 := set_cons_e _ _) in *. destruct (erase_run (set_cons c1 s) Hlive Hp) as (s2 & E2 & u2 & -> & Hu2 & Hw2).
    rewrite (bind_Ret _ _ _ _ _ E2). cbn [set_cons set_uart cs_uart] in Hu2, Hw2.
    destruct (IH (set_uart u2 (set_cons c1 s))) as (s' & c' & s3 & E & Hs' & Hok' & Hlk & Ht & u3 & -> & Hu3 & Hw3).
    + cbn [set_uart cs_uart]. by rewrite Hu2.
    + exact Hok1.
    + cbn [set_cons set_uart cs_cons]. rewrite Hl1, length_app in Hf. cbn [length] in Hf. lia.
    + exists s', c', (set_uart u3 s). rewrite E. cbn [set_cons set_uart cs_cons cs_uart] in *. split_and!; try done.
      * by rewrite Ht, Hr1.
      * exists u3. rewrite Hl1, length_app, Nat.add_1_r. cbn [replicate mjoin list_join]. split_and!; [done|by rewrite Hu3|].
        by rewrite Hw3, Hw2, fmap_app, app_assoc.
Qed.

(** [s'] is [s] after a step of the terminal with the outcome [r]. *)
Definition tty_step (lk : bool) (s s' : cstate) (r : tty * list Z * bool) : Prop :=
  let '(t, echo, wake) := r in
  cons_ok (cs_cons s') ∧ cons_lock (cs_cons s') = lk ∧ tty_of (cs_cons s') = t ∧
  reg_writes (cs_uart s') = reg_writes (cs_uart s) ++ ((λ v, (THR, v)) <$> echo) ∧ panicked (cs_uart s') = panicked (cs_uart s) ∧
  cs_woke s' = cs_woke s ++ (if wake : bool then [ChanCons] else []) ∧ cs_um s' = cs_um s.

Lemma cons_ok_lock b c : cons_ok c → cons_ok (set_cons_lock b c).
Proof. intros []. by split. Qed.

Lemma release_cons_run s s' r : tty_step true s s' r → ∃ s'', release_cons s' = Ret tt s'' ∧ tty_step false s s'' r.
Proof.
  destruct r as [[t echo] wake]. intros (Hok & Hl & Ht & Hw & Hp & Hk & Hu). unfold release_cons, release_flag. rewrite bind_gets, Hl.
  eexists. split; [done|]. split_and!; try done. by apply cons_ok_lock.
Qed.

Lemma acquire_cons_run s : cons_lock (cs_cons s) = false → acquire_cons s = Ret tt (set_cons (set_cons_lock true (cs_cons s)) s).
Proof. unfold acquire_cons, acquire_flag. rewrite bind_gets. by intros ->. Qed.

(** Echo only. *)
Lemma tty_step_echo s s' l : cons_ok (cs_cons s) → echoed s s' l → tty_step (cons_lock (cs_cons s)) s s' (tty_of (cs_cons s), l, false).
Proof. intros Hok (u & -> & Hp & Hw). unfold tty_step. rewrite app_nil_r. by split_and!. Qed.

Lemma backspace_run s : tx_live → panicked (cs_uart s) = false → cons_ok (cs_cons s) → t_line (tty_of (cs_cons s)) ≠ [] → ∃ s',
  (updc (set_cons_e (cons_e (cs_cons s) - 1));; consputc lsr spin BACKSPACE) s = Ret tt s' ∧
  tty_step (cons_lock (cs_cons s)) s s' (Tty (t_ready (tty_of (cs_cons s))) (removelast (t_line (tty_of (cs_cons s)))), erase, false).
Proof.
  intros Hlive Hp Hok Hne. destruct (cons_erase _ Hok Hne) as (Hok1 & Hr1 & Hl1). unfold updc. rewrite bind_modify.
  set (c1 := set_cons_e _ _) in *. destruct (erase_run (set_cons c1 s) Hlive Hp) as (s2 & E2 & u2 & -> & Hu2 & Hw2).
  eexists. split; [exact E2|]. unfold tty_step. rewrite app_nil_r. split_and!; try done.
  cbn [set_cons set_uart cs_cons]. rewrite Hl1, removelast_last, <- Hr1. by destruct (tty_of c1).
Qed.

(** A character that is added to the line. *)
Lemma insert_run c s : tx_live → panicked (cs_uart s) = false → cons_ok (cs_cons s) → 0 ≤ c < 256 → n_bytes (cs_cons s) < INPUT_BUF_SIZE →
  let t := tty_of (cs_cons s) in let line := t_line t ++ [byte.of_Z c] in
  ∃ s', (consputc lsr spin c;;
    updc (cons_store (byte.of_Z c));;
    k ← gets cs_cons;
    if (c =? 10) || (c =? ctrl 68) || (u32 (cons_e k - cons_r k) =? INPUT_BUF_SIZE) then
      updc (set_cons_w (cons_e k));; cwakeup ChanCons
    else mret tt) s = Ret tt s' ∧
  tty_step (cons_lock (cs_cons s)) s s'
    (if (c =? 10) || (c =? 4) || (length (t_ready t ++ line) =? 128)%nat
     then (Tty (t_ready t ++ line) [], [c], true) else (Tty (t_ready t) line, [c], false)).
Proof.
  intros Hlive Hp Hok Hc Hlt t line. destruct (consputc_run c s Hlive Hp Hc) as (s1 & E1 & u1 & -> & Hu1 & Hw1).
  destruct (cons_store_spec (byte.of_Z c) (cs_cons s) Hok Hlt) as (Hn & Hb & Hr & Hl). rewrite (bind_Ret _ _ _ _ _ E1).
  cbn beta. unfold updc. rewrite bind_modify, bind_gets. cbn [set_cons set_uart cs_cons]. set (c1 := cons_store (byte.of_Z c) (cs_cons s)) in *.
  change (ctrl 68) with 4. assert (Hfull : (u32 (cons_e c1 - cons_r c1) =? INPUT_BUF_SIZE) = (length (t_ready t ++ line) =? 128)%nat).
  { change (u32 (cons_e c1 - cons_r c1)) with (n_bytes c1). unfold t, line. rewrite app_assoc, tty_bytes, length_app, cons_bytes_length. cbn [length].
    unfold INPUT_BUF_SIZE in *. pose proof (n_bytes_range (cs_cons s)).
    destruct (Z.eqb_spec (n_bytes c1) 128), (Nat.eqb_spec (Z.to_nat (n_bytes (cs_cons s)) + 1) 128); [done|lia|lia|done]. }
  rewrite Hfull. destruct ((c =? 10) || (c =? 4) || _) eqn:Eq.
  - destruct (cons_commit c1) as [Hok2 Ht2]; [simpl; rewrite length_insert; apply Hok|apply Hok|apply u32_range|lia|].
    eexists. split; [done|]. unfold tty_step. cbn [set_cons set_uart cs_cons cs_uart cs_woke cs_um]. split_and!; try done.
    rewrite Ht2. unfold t, line. by rewrite app_assoc, tty_bytes, Hb.
  - apply orb_false_iff in Eq as [Eq _]. apply orb_false_iff in Eq as [E10 _]. zbool.
    eexists. split; [done|]. unfold tty_step. rewrite app_nil_r. cbn [set_cons set_uart cs_cons cs_uart cs_woke cs_um]. split_and!; try done.
    + apply cons_store_ok; [done..|]. rewrite byte.unsigned_of_Z. unfold byte.wrap. by rewrite Z.mod_small.
    + unfold line, t. rewrite <- Hl, <- Hr. by destruct (tty_of c1).
Qed.

Lemma consoleintr_run dump c s : tx_live → panicked (cs_uart s) = false → cons_ok (cs_cons s) → cons_lock (cs_cons s) = false → 0 ≤ c < 256 → ∃ s',
  consoleintr lsr spin dump c s = Ret tt s' ∧ tty_step false s s' (tty_input dump c (tty_of (cs_cons s))).
Proof.
  intros Hlive Hp Hok Hlk Hc. unfold consoleintr. rewrite (bind_Ret _ _ _ _ _ (acquire_cons_run s Hlk)).
  set (s0 := set_cons (set_cons_lock true (cs_cons s)) s). assert (Hok0 : cons_ok (cs_cons s0)) by (by apply cons_ok_lock).
  assert (Hbody : ∀ (m : M cstate unit) r, (∃ s', m s0 = Ret tt s' ∧ tty_step true s0 s' r) → ∃ s', (m;; release_cons) s0 = Ret tt s' ∧ tty_step false s s' r).
  { intros m [[t echo] wake] (s' & E & H). rewrite (bind_Ret _ _ _ _ _ E). by apply (release_cons_run s s' (t, echo, wake)). }
  apply Hbody. clear Hbody. change (tty_of (cs_cons s)) with (tty_of (cs_cons s0)).
  change (ctrl 80) with 16. change (ctrl 85) with 21. change (ctrl 72) with 8. unfold tty_input.
  destruct (c =? 16).
  { destruct (print_text_run dump s0 Hlive Hp) as (s1 & E1 & He). exists s1. split; [done|]. by apply (tty_step_echo s0). }
  destruct (c =? 21).
  { rewrite bind_gets. destruct (kill_line_run (S (Z.to_nat (u32 (cons_e (cs_cons s0) - cons_w (cs_cons s0))))) s0) as (s' & c' & s1 & E & -> & Hok' & Hl' & Ht' & u & -> & Hu & Hw); [done..| |].
    { rewrite t_line_length by apply Hok0. replace (u32 (cons_e (cs_cons s0) - cons_w (cs_cons s0))) with (n_bytes (cs_cons s0) - n_ready (cs_cons s0)); [lia|].
      symmetry. destruct cons_ring as (? & ? & ?). apply (ring_len_split _ INPUT_BUF_SIZE); [done..|apply Hok0]. }
    eexists. split; [exact E|]. unfold tty_step. rewrite app_nil_r. by split_and!. }
  destruct ((c =? 8) || (c =? 127)).
  { rewrite bind_gets, line_empty by done. destruct (decide (t_line (tty_of (cs_cons s0)) = [])) as [Hnil|Hne].
    - rewrite bool_decide_true by done. exists s0. split; [done|]. apply (tty_step_echo s0); [done|apply echoed_nil].
    - rewrite bool_decide_false by done. apply (backspace_run s0); done. }
  rewrite bind_gets.
  assert (Hroom : (u32 (cons_e (cs_cons s0) - cons_r (cs_cons s0)) <? INPUT_BUF_SIZE) = (length (t_ready (tty_of (cs_cons s0)) ++ t_line (tty_of (cs_cons s0))) <? 128)%nat).
  { rewrite tty_bytes, cons_bytes_length. fold (ring_len (2 ^ 32) (cons_r (cs_cons s0)) (cons_e (cs_cons s0))). change (u32 (cons_e (cs_cons s0) - cons_r (cs_cons s0))) with (n_bytes (cs_cons s0)).
    pose proof (n_bytes_range (cs_cons s0)). unfold INPUT_BUF_SIZE. destruct (Z.ltb_spec (n_bytes (cs_cons s0)) 128), (Nat.ltb_spec (Z.to_nat (n_bytes (cs_cons s0))) 128); [done|lia|lia|done]. }
  destruct (negb (c =? 0) && (length _ <? 128)%nat) eqn:Eb.
  - rewrite Hroom, Eb. apply (insert_run (if c =? 13 then 10 else c) s0); [done..|by destruct (c =? 13)|].
    apply andb_true_iff in Eb as [_ Eb]. rewrite <- Hroom in Eb. by apply Z.ltb_lt in Eb.
  - rewrite Hroom, Eb. exists s0. split; [done|]. apply (tty_step_echo s0); [done|apply echoed_nil].
Qed.

(** ** Reading *)

(** How consoleread() reports a read that ended ([fin]) or has to wait after
    [k] bytes, with [n] to go. *)
Definition read_outcome (kl : Z → bool) (fin : bool) (k n : Z) : cons_result :=
  if fin then ConsDone k else if kl n then ConsDone (-1) else ConsSleep ChanCons n.

(** [s'] is [s] after a read that left [rest] ready and the user memory [u]. *)
Definition read_step (s s' : cstate) (rest : list byte) (u : um_state) : Prop :=
  cons_ok (cs_cons s') ∧ cons_lock (cs_cons s') = false ∧ tty_of (cs_cons s') = Tty rest (t_line (tty_of (cs_cons s))) ∧
  cs_um s' = u ∧ cs_uart s' = cs_uart s ∧ cs_woke s' = cs_woke s.

Lemma release_read s rest u : cons_ok (cs_cons s) → cons_lock (cs_cons s) = true → t_ready (tty_of (cs_cons s)) = rest → cs_um s = u → ∃ s',
  release_cons s = Ret tt s' ∧ read_step s s' rest u.
Proof.
  intros Hok Hl Ht Hu. unfold release_cons, release_flag. rewrite bind_gets, Hl. eexists. split; [done|]. split_and!; try done; [by apply cons_ok_lock|].
  rewrite <- Ht. done.
Qed.

Lemma consoleread_end_run s target n acc rest u : cons_ok (cs_cons s) → cons_lock (cs_cons s) = true → t_ready (tty_of (cs_cons s)) = rest → cs_um s = u →
  0 ≤ n ≤ target → target < 2 ^ 31 →
  ∃ s', consoleread_end target n acc s = Ret (ConsDone (target - n), acc) s' ∧ read_step s s' rest u.
Proof.
  intros Hok Hl Ht Hu Hn Htg. destruct (release_read s rest u Hok Hl Ht Hu) as (s' & E & H). exists s'. unfold consoleread_end.
  rewrite (bind_Ret _ _ _ _ _ E). split; [|done]. unfold mret, M_ret. by rewrite i32_id by lia.
Qed.

Lemma read_step_trans s s1 s2 rest u : read_step s1 s2 rest u → t_line (tty_of (cs_cons s1)) = t_line (tty_of (cs_cons s)) → cs_uart s1 = cs_uart s → cs_woke s1 = cs_woke s →
  read_step s s2 rest u.
Proof. intros (? & ? & ? & ? & ? & ?) El Eu Ew. split_and!; try congruence. Qed.

Lemma consoleread_loop_spec fuel kl va target n s fin l rest u : cons_ok (cs_cons s) → cons_lock (cs_cons s) = true →
  0 ≤ n ≤ target → target < 2 ^ 31 → (Z.to_nat n < fuel)%nat →
  tty_read (n =? target) (Z.to_nat n) (t_ready (tty_of (cs_cons s))) = (fin, l, rest) →
  deliver (cs_um s) (va + (target - n)) l = (length l, u) → ∃ s',
  consoleread_loop fuel kl (UserDst va) target (target - n) n [] s =
    Ret (read_outcome kl fin (target - n + Z.of_nat (length l)) (n - Z.of_nat (length l)), []) s' ∧
  read_step s s' rest u.
Proof.
  intros Hok Hl. revert n s l fin rest u Hok Hl. induction fuel as [|fuel IH]; intros n s l fin rest u Hok Hl Hn Htg Hf Ht Hd; [lia|].
  cbn [consoleread_loop]. destruct (Z.ltb_spec 0 n) as [Hpos|Hz].
  2:{ replace n with 0 in * by lia. simpl in Ht. injection Ht as <- <- <-. simpl in Hd. injection Hd as Hd.
      destruct (consoleread_end_run s target 0 [] _ u Hok Hl eq_refl Hd) as (s' & E & H); [lia|done|]. exists s'. cbn [read_outcome length].
      rewrite E, !Z.sub_0_r, Z.add_0_r. done. }
  rewrite bind_gets, ready_empty by done. replace (Z.to_nat n) with (S (Z.to_nat (n - 1))) in Ht by lia.
  destruct (t_ready (tty_of (cs_cons s))) as [|b ready] eqn:Er.
  { rewrite bool_decide_true by done. injection Ht as <- <- <-. simpl in Hd. injection Hd as Hd.
    destruct (release_read s _ u Hok Hl Er Hd) as (s' & E & H). exists s'. cbn [read_outcome length]. rewrite Z.sub_0_r.
    destruct (kl n); rewrite (bind_Ret _ _ _ _ _ E); done. }
  rewrite bool_decide_false by done. destruct (cons_take _ _ _ Hok Er) as (Hb & Hok1 & Ht1 & Hback). rewrite Hb.
  unfold updc. rewrite bind_modify. set (c1 := set_cons_r (cons_r (cs_cons s) + 1) (cs_cons s)) in *. set (s1 := set_cons c1 s).
  cbn [tty_read] in Ht. change (ctrl 68) with 4. destruct (byte.unsigned b =? 4) eqn:E4.
  { injection Ht as <- <- <-. simpl in Hd. injection Hd as Hd. cbn [read_outcome length]. rewrite Z.add_0_r.
    rewrite (u32_id n) by lia. destruct (Z.eqb_spec n target) as [->|Hne].
    - rewrite (proj2 (Z.ltb_ge target target)) by lia.
      destruct (consoleread_end_run s1 target target [] ready u) as (s' & E & H); [done|done|(try unfold s2); unfold s1; cbn [set_cons cs_cons]; by rewrite Ht1|done|lia|done|].
      exists s'. rewrite bind_ret_l. cbn beta. rewrite E. split; [done|]. eapply read_step_trans; [done| |done|done]. (try unfold s2); unfold s1; cbn [set_cons cs_cons]; by rewrite Ht1.
    - rewrite (proj2 (Z.ltb_lt n target)) by lia. rewrite bind_modify. cbn beta. cbn [cs_cons s1 set_cons]. rewrite Hback.
      destruct (consoleread_end_run s target n [] _ u Hok Hl Er Hd) as (s' & E & H); [lia|done|]. exists s'. split; [|done].
      replace (set_cons (cs_cons s) s1) with s by (by destruct s). done. }
  unfold ccopyout. unfold mbind at 1, M_bind at 1. cbn [cs_um s1 set_cons].
  destruct (byte.unsigned b =? 10) eqn:E10.
  { injection Ht as <- <- <-. cbn [deliver] in Hd. destruct (um_copyout _ _ _) as [[] u1]; [|done]. injection Hd as <-. cbn [fst snd].
    cbn [read_outcome length]. replace (target - n + Z.of_nat 1) with (target - (n - 1)) by lia.
    set (s2 := CState _ _ u1 _). destruct (consoleread_end_run s2 target (n - 1) [] ready u1) as (s' & E & H); [done|done|(try unfold s2); unfold s1; cbn [set_cons cs_cons]; by rewrite Ht1|done|lia|done|].
    exists s'. split; [done|]. eapply read_step_trans; [done| |done|done]. (try unfold s2); unfold s1; cbn [set_cons cs_cons]; by rewrite Ht1. }
  destruct (tty_read false (Z.to_nat (n - 1)) ready) as [[fin' l'] rest'] eqn:Et. injection Ht as <- <- <-. cbn [deliver] in Hd.
  destruct (um_copyout _ _ _) as [[] u1] eqn:Eu; [|done]. destruct (deliver u1 _ l') as [k' u'] eqn:Ed. injection Hd as -> <-. cbn [fst snd].
  set (s2 := CState c1 (cs_uart s1) u1 (cs_woke s1)).
  destruct (IH (n - 1) s2 l' fin' rest' u') as (s' & E & H); [done|done|lia|done|lia| | |].
  - cbn [s2 cs_cons]. rewrite Ht1. cbn [t_ready]. rewrite <- Et. f_equal. apply Z.eqb_neq. lia.
  - replace (va + (target - (n - 1))) with (va + (target - n) + 1) by lia. done.
  - exists s'. cbn [length]. replace (target - n + 1) with (target - (n - 1)) by lia. split.
    + etrans; [exact E|]. do 2 f_equal. f_equal; lia.
    + eapply read_step_trans; [done| |done|done]. (try unfold s2); unfold s1; cbn [set_cons cs_cons]; by rewrite Ht1.
Qed.

Lemma consoleread_run kl va n s fin l rest u : cons_ok (cs_cons s) → cons_lock (cs_cons s) = false → 0 ≤ n < 2 ^ 31 →
  tty_read true (Z.to_nat n) (t_ready (tty_of (cs_cons s))) = (fin, l, rest) → deliver (cs_um s) va l = (length l, u) → ∃ s',
  consoleread kl (UserDst va) n s = Ret (read_outcome kl fin (Z.of_nat (length l)) (n - Z.of_nat (length l)), []) s' ∧ read_step s s' rest u.
Proof.
  intros Hok Hl Hn Ht Hd. unfold consoleread, consoleread_from. rewrite (bind_Ret _ _ _ _ _ (acquire_cons_run s Hl)). rewrite (u32_id n) by lia.
  destruct (consoleread_loop_spec (S (Z.to_nat n)) kl va n n (set_cons (set_cons_lock true (cs_cons s)) s) fin l rest u) as (s' & E & H);
    [by apply cons_ok_lock|done|lia|lia|lia|by rewrite Z.eqb_refl|by rewrite Z.sub_diag, Z.add_0_r|].
  rewrite Z.sub_diag in E. exists s'. split; [exact E|]. by eapply read_step_trans.
Qed.

(** ** Properties *)

(** C33: The interrupt handler implements the line discipline.  For every
    character of the device, consoleintr() returns with the invariant kept
    and the lock free, and changes the terminal as [tty_input] does: control-u
    erases the whole line, backspace its last character (and neither touches
    lines already complete), a character is added when there is room, and the
    line becomes readable, with a wakeup(), at a newline, a control-d or when
    the buffer is full.  The echo on the device is that of [tty_input]. *)
Theorem consoleintr_edits dump c s : tx_live → panicked (cs_uart s) = false → cons_ok (cs_cons s) → cons_lock (cs_cons s) = false → 0 ≤ c < 256 → ∃ s',
  consoleintr lsr spin dump c s = Ret tt s' ∧ cons_ok (cs_cons s') ∧ cons_lock (cs_cons s') = false ∧ cs_um s' = cs_um s ∧
  ∃ echo wake, tty_input dump c (tty_of (cs_cons s)) = (tty_of (cs_cons s'), echo, wake) ∧
  reg_writes (cs_uart s') = reg_writes (cs_uart s) ++ ((λ v, (THR, v)) <$> echo) ∧
  cs_woke s' = cs_woke s ++ (if wake then [ChanCons] else []).
Proof.
  intros Hlive Hp Hok Hl Hc. destruct (consoleintr_run dump c s Hlive Hp Hok Hl Hc) as (s' & E & H). exists s'. unfold tty_step in H.
  destruct (tty_input _ _ _) as [[t echo] wake]. destruct H as (? & ? & Ht & ? & ? & ? & ?). split_and!; try done. exists echo, wake. by rewrite Ht.
Qed.

(** A read takes what [tty_read] says from the lines that are ready: at
    most [n] bytes, up to and including the first newline, or up to a
    control-d, which is left for the next read unless it comes first (so that
    a read of 0 bytes reports the end of the file).  It waits, or fails when
    the process was killed, exactly when the ready bytes run out before.  The
    line being edited is never touched. *)
Theorem consoleread_takes kl va n s fin l rest u : cons_ok (cs_cons s) → cons_lock (cs_cons s) = false → 0 ≤ n < 2 ^ 31 →
  tty_read true (Z.to_nat n) (t_ready (tty_of (cs_cons s))) = (fin, l, rest) → deliver (cs_um s) va l = (length l, u) → ∃ s',
  consoleread kl (UserDst va) n s = Ret (read_outcome kl fin (Z.of_nat (length l)) (n - Z.of_nat (length l)), []) s' ∧
  cons_ok (cs_cons s') ∧ cons_lock (cs_cons s') = false ∧
  tty_of (cs_cons s') = Tty rest (t_line (tty_of (cs_cons s))) ∧ cs_um s' = u.
Proof.
  intros Hok Hl Hn Ht Hd. destruct (consoleread_run kl va n s fin l rest u Hok Hl Hn Ht Hd) as (s' & E & ? & ? & ? & ? & _).
  exists s'. by split_and!.
Qed.

(** Typing the characters [l]. *)
Fixpoint type_all (dump : list byte) (l : list Z) : M cstate unit :=
  match l with
  | [] => mret tt
  | c :: l => consoleintr lsr spin dump c;; type_all dump l
  end.

(** A character without a special meaning. *)
Definition plain (b : byte) : bool := forallb (λ x, negb (byte.unsigned b =? x)) [0; 4; 8; 10; 13; 16; 21; 127].

Lemma plain_input dump b t : plain b = true → (length (t_ready t ++ t_line t) < 127)%nat →
  tty_input dump (byte.unsigned b) t = (Tty (t_ready t) (t_line t ++ [b]), [byte.unsigned b], false).
Proof.
  unfold plain. cbn [forallb]. intros Hp Hlen. zbool. unfold tty_input.
  repeat match goal with H : byte.unsigned b ≠ ?x |- _ => rewrite (proj2 (Z.eqb_neq (byte.unsigned b) x) H); clear H end. cbn [negb orb andb].
  destruct (Nat.ltb_spec (length (t_ready t ++ t_line t)) 128) as [_|]; [|lia]. rewrite byte.of_Z_unsigned.
  rewrite app_assoc, length_app. cbn [length]. destruct (Nat.eqb_spec (length (t_ready t ++ t_line t) + 1) 128); [lia|done].
Qed.

Lemma type_plain dump l s : tx_live → panicked (cs_uart s) = false → cons_ok (cs_cons s) → cons_lock (cs_cons s) = false →
  forallb plain l = true → (length (cons_bytes (cs_cons s)) + length l ≤ 127)%nat → ∃ s',
  type_all dump (byte.unsigned <$> l) s = Ret tt s' ∧
  tty_step false s s' (Tty (t_ready (tty_of (cs_cons s))) (t_line (tty_of (cs_cons s)) ++ l), byte.unsigned <$> l, false).
Proof.
  intros Hlive. revert s. induction l as [|b l IH]; intros s Hp Hok Hl Hpl Hlen.
  { exists s. split; [done|]. unfold tty_step. rewrite !app_nil_r. split_and!; try done. }
  cbn [forallb] in Hpl. apply andb_true_iff in Hpl as [Hb Hpl]. cbn [fmap list_fmap type_all length] in *.
  destruct (consoleintr_run dump (byte.unsigned b) s Hlive Hp Hok Hl (byte.unsigned_range b)) as (s1 & E1 & H1).
  rewrite plain_input in H1; [|done|rewrite tty_bytes; lia]. destruct H1 as (Hok1 & Hl1 & Ht1 & Hw1 & Hp1 & Hk1 & Hu1).
  destruct (IH s1) as (s2 & E2 & H2 & H3 & H4 & H5 & H6 & H7 & H8); [by rewrite Hp1|done..| |].
  { rewrite <- (tty_bytes (cs_cons s1)), Ht1. cbn [t_ready t_line]. rewrite app_assoc, tty_bytes, length_app. simpl. lia. }
  exists s2. rewrite (bind_Ret _ _ _ _ _ E1). split; [done|]. unfold tty_step. rewrite app_nil_r in *. split_and!; try congruence.
  - rewrite H4, Ht1. cbn [t_ready t_line]. by rewrite <- app_assoc.
  - rewrite H5, Hw1. cbn [fmap list_fmap]. by rewrite <- app_assoc.
Qed.

(** tty_read() of a plain line. *)
Lemma tty_read_line first l n : forallb plain l = true → (length l < n)%nat → tty_read first n (l ++ [Byte.x0a]) = (true, l ++ [Byte.x0a], []).
Proof.
  revert first n. induction l as [|b l IH]; intros first n Hp Hn; destruct n as [|n]; simpl in Hn; try lia; [done|].
  cbn [forallb] in Hp. apply andb_true_iff in Hp as [Hb Hp]. cbn [app tty_read]. unfold plain in Hb. cbn [forallb] in Hb. zbool.
  rewrite (proj2 (Z.eqb_neq (byte.unsigned b) 4)), (proj2 (Z.eqb_neq (byte.unsigned b) 10)) by done. rewrite IH by (done || lia). done.
Qed.

(** C19: A line typed at an idle console is what the reader gets: after any
    line of up to 127 ordinary characters and the Return key, every character
    has been echoed, a reader is woken once, and read() returns the line with
    its newline. *)
Theorem console_line_roundtrip dump kl va l n s u : tx_live → panicked (cs_uart s) = false → cons_ok (cs_cons s) → cons_lock (cs_cons s) = false →
  tty_of (cs_cons s) = Tty [] [] → forallb plain l = true → (length l ≤ 127)%nat → Z.of_nat (length l) < n < 2 ^ 31 →
  deliver (cs_um s) va (l ++ [Byte.x0a]) = (length (l ++ [Byte.x0a]), u) → ∃ s1 s2,
  type_all dump ((byte.unsigned <$> l) ++ [13]) s = Ret tt s1 ∧ cs_woke s1 = cs_woke s ++ [ChanCons] ∧
  reg_writes (cs_uart s1) = reg_writes (cs_uart s) ++ sends (l ++ [Byte.x0a]) ∧
  consoleread kl (UserDst va) n s1 = Ret (ConsDone (Z.of_nat (length l) + 1), []) s2 ∧ cs_um s2 = u ∧ tty_of (cs_cons s2) = Tty [] [].
Proof.
  intros Hlive Hp Hok Hlk Ht Hpl Hlen Hn Hd.
  destruct (type_plain dump l s Hlive Hp Hok Hlk Hpl) as (s1 & E1 & Hok1 & Hl1 & Ht1 & Hw1 & Hp1 & Hk1 & Hu1).
  { rewrite <- tty_bytes, Ht. simpl. lia. }
  rewrite Ht in Ht1. cbn [t_ready t_line app] in Ht1.
  destruct (consoleintr_run dump 13 s1 Hlive ltac:(by rewrite Hp1) Hok1 Hl1 ltac:(done)) as (s2 & E2 & H2). rewrite Ht1 in H2.
  assert (Hin : tty_input dump 13 (Tty [] l) = (Tty (l ++ [Byte.x0a]) [], [10], true)).
  { unfold tty_input. cbn [Z.eqb t_ready t_line app negb andb orb Pos.eqb].
    destruct (Nat.ltb_spec (length l) 128); [done|lia]. }
  rewrite Hin in H2. destruct H2 as (Hok2 & Hl2 & Ht2 & Hw2 & Hp2 & Hk2 & Hu2).
  destruct (consoleread_run kl va n s2 true (l ++ [Byte.x0a]) [] u Hok2 Hl2) as (s3 & E3 & Hrs); [lia| |by rewrite Hu2, Hu1|].
  { rewrite Ht2. apply tty_read_line; [done|lia]. }
  exists s2, s3. split_and!.
  - clear -E1 E2. revert s E1. generalize (byte.unsigned <$> l). intros cs. induction cs as [|c cs IH]; intros s E1.
    + injection E1 as ->. cbn [app type_all]. by rewrite (bind_Ret _ _ _ _ _ E2).
    + cbn [app type_all] in *. apply bind_Ret_inv in E1 as ([] & s0 & E0 & E1). rewrite (bind_Ret _ _ _ _ _ E0). by apply IH.
  - by rewrite Hk2, Hk1, app_nil_r.
  - rewrite Hw2, Hw1. unfold sends. rewrite fmap_app, <- app_assoc, <- list_fmap_compose. done.
  - rewrite E3. cbn [read_outcome]. rewrite length_app. cbn [length]. do 3 f_equal. lia.
  - apply Hrs.
  - destruct Hrs as (_ & _ & H & _). by rewrite H, Ht2.
Qed.
End thms.

(** ** Witnesses: an idle console, and a process with one page of memory *)

Section witnesses.
Import VmDemo.

Definition demo_cons : cons := Cons false (replicate 128 Byte.x00) 0 0 0.
Definition demo_user : UserMem := vm_user root.
Definition demo_console : cstate (U := demo_user) := CState (U := demo_user) demo_cons demo_uart mapped1 [].
Definition hi : list byte := [Byte.x68; Byte.x69].

Lemma demo_cons_ok : cons_ok demo_cons.
Proof. by split. Qed.

Lemma demo_live : tx_live demo_lsr 2.
Proof.
  intros k. destruct (Nat.even k) eqn:E; [exists 0%nat|exists 1%nat]; (split; [lia|]); unfold demo_lsr.
  - by rewrite Nat.add_0_r, E.
  - by rewrite Nat.add_1_r, Nat.even_succ, <- Nat.negb_even, E.
Qed.

Lemma demo_deliver l : (length l ≤ 3)%nat → ∃ u, deliver (U := demo_user) mapped1 0 l = (length l, u).
Proof.
  intros Hl. destruct (deliver_vm root mapped1 {[w4]} mapped_table 0 l) as (u & E & _); [exact mapped_ok|exact mapped_uspace|done| |by exists u].
  intros i Hi. assert (i = 0 ∨ i = 1 ∨ i = 2)%nat as [-> | [-> | ->]] by lia; vm_compute; eauto.
Qed.

Lemma consoleintr_edits_witness : ∃ s', consoleintr (U := demo_user) demo_lsr 2 [] 104 demo_console = Ret tt s' ∧
  ∃ echo wake, tty_input [] 104 (tty_of demo_cons) = (tty_of (cs_cons s'), echo, wake).
Proof.
  destruct (consoleintr_edits (U := demo_user) demo_lsr 2 [] 104 demo_console) as (s' & E & _ & _ & _ & echo & wake & H & _).
  - exact demo_live.
  - reflexivity.
  - exact demo_cons_ok.
  - reflexivity.
  - lia.
  - exists s'. split; [exact E|]. exists echo, wake. exact H.
Defined.

Lemma consoleread_takes_witness : ∃ s', consoleread (U := demo_user) (λ _, false) (UserDst 0) 3 demo_console = Ret (ConsSleep ChanCons 3, []) s'.
Proof.
  destruct (consoleread_takes (U := demo_user) (λ _, false) 0 3 demo_console false [] [] mapped1) as (s' & E & _).
  - exact demo_cons_ok.
  - reflexivity.
  - lia.
  - reflexivity.
  - reflexivity.
  - exists s'. exact E.
Defined.

Lemma console_line_roundtrip_witness : ∃ s1 s2,
  type_all (U := demo_user) demo_lsr 2 [] [104; 105; 13] demo_console = Ret tt s1 ∧
  consoleread (U := demo_user) (λ _, false) (UserDst 0) 100 s1 = Ret (ConsDone 3, []) s2.
Proof.
  destruct (demo_deliver (hi ++ [Byte.x0a])) as [u Hu]; [simpl; lia|].
  destruct (console_line_roundtrip (U := demo_user) demo_lsr 2 [] (λ _, false) 0 hi 100 demo_console u) as (s1 & s2 & E1 & _ & _ & E2 & _).
  - exact demo_live.
  - reflexivity.
  - exact demo_cons_ok.
  - reflexivity.
  - reflexivity.
  - reflexivity.
  - simpl. lia.
  - simpl. lia.
  - exact Hu.
  - exists s1, s2. split; [exact E1|exact E2].
Defined.
End witnesses.
