(* ===== verification/Virtio.v ===== *)
(** * kernel/virtio_disk.c: the disk driver (the code)

    [vdisk] is [struct disk] with the descriptor table, the rings and the
    driver's book-keeping; [vstate] adds what the driver uses of the buffers
    ([b->disk], [b->data], [b->blockno]), the wakeup() calls and the register
    writes.  Addresses given to the device are [vaddr]: of a request header,
    of the data of a buffer, of a status byte.

    A process that sleeps has released vdisk_lock; [VSleep] reports where, and
    the first descriptor of its request when it has one.  virtio_disk_rw()
    waits for descriptors at its start, and continues there;
    [virtio_disk_rw_wake] is where it continues after the device is done.
    virtio_disk_intr() is cut at the iterations of its loop, since the device
    can complete requests in between. *)

From stdpp Require Import base functions strings numbers list.
From coqutil Require Import Byte.
From S2P Require Import Prelude Mem Str Riscv Spinlock Kalloc Block.

Definition NUM : nat := 8.
Definition VRING_DESC_F_NEXT : Z := 1.
Definition VRING_DESC_F_WRITE : Z := 2.
Definition VIRTIO_BLK_T_IN : Z := 0.
Definition VIRTIO_BLK_T_OUT : Z := 1.

Inductive vaddr := VNull | VOp (i : nat) | VData (b : nat) | VStatus (i : nat).

Record virtq_desc := Desc { d_addr : vaddr; d_len : Z; d_flags : Z; d_next : Z }.
Definition zero_desc : virtq_desc := Desc VNull 0 0 0.
#[export] Instance virtq_desc_inhabited : Inhabited virtq_desc := populate zero_desc.

Record virtio_blk_req := BlkReq { r_type : Z; r_reserved : Z; r_sector : Z }.
#[export] Instance virtio_blk_req_inhabited : Inhabited virtio_blk_req := populate (BlkReq 0 0 0).

Record vdisk := VDisk {
  desc : list virtq_desc;
  avail_idx : Z;                (* disk.avail->idx *)
  avail_ring : list nat;        (* disk.avail->ring *)
  used_dev_idx : Z;             (* disk.used->idx *)
  used_ring : list nat;         (* disk.used->ring[].id *)
  dfree : list bool;            (* is a descriptor free? *)
  used_idx : Z;                 (* we've looked this far in used *)
  info_b : list (option nat);
  info_status : list Z;
  ops : list virtio_blk_req;
  vdisk_lock : bool
}.

Definition set_desc (l : list virtq_desc) (d : vdisk) : vdisk :=
  VDisk l (avail_idx d) (avail_ring d) (used_dev_idx d) (used_ring d) (dfree d) (used_idx d) (info_b d) (info_status d) (ops d) (vdisk_lock d).
Definition set_avail (idx : Z) (l : list nat) (d : vdisk) : vdisk :=
  VDisk (desc d) idx l (used_dev_idx d) (used_ring d) (dfree d) (used_idx d) (info_b d) (info_status d) (ops d) (vdisk_lock d).
Definition set_used (idx : Z) (l : list nat) (d : vdisk) : vdisk :=
  VDisk (desc d) (avail_idx d) (avail_ring d) idx l (dfree d) (used_idx d) (info_b d) (info_status d) (ops d) (vdisk_lock d).
Definition set_dfree (l : list bool) (d : vdisk) : vdisk :=
  VDisk (desc d) (avail_idx d) (avail_ring d) (used_dev_idx d) (used_ring d) l (used_idx d) (info_b d) (info_status d) (ops d) (vdisk_lock d).
Definition set_used_idx (x : Z) (d : vdisk) : vdisk :=
  VDisk (desc d) (avail_idx d) (avail_ring d) (used_dev_idx d) (used_ring d) (dfree d) x (info_b d) (info_status d) (ops d) (vdisk_lock d).
Definition set_info_b (l : list (option nat)) (d : vdisk) : vdisk :=
  VDisk (desc d) (avail_idx d) (avail_ring d) (used_dev_idx d) (used_ring d) (dfree d) (used_idx d) l (info_status d) (ops d) (vdisk_lock d).
Definition set_status (l : list Z) (d : vdisk) : vdisk :=
  VDisk (desc d) (avail_idx d) (avail_ring d) (used_dev_idx d) (used_ring d) (dfree d) (used_idx d) (info_b d) l (ops d) (vdisk_lock d).
Definition set_ops (l : list virtio_blk_req) (d : vdisk) : vdisk :=
  VDisk (desc d) (avail_idx d) (avail_ring d) (used_dev_idx d) (used_ring d) (dfree d) (used_idx d) (info_b d) (info_status d) l (vdisk_lock d).
Definition set_vdisk_lock (b : bool) (d : vdisk) : vdisk :=
  VDisk (desc d) (avail_idx d) (avail_ring d) (used_dev_idx d) (used_ring d) (dfree d) (used_idx d) (info_b d) (info_status d) (ops d) b.

Record vstate := VState {
  vd : vdisk;
  vbusy : nat → bool;       (* b->disk == 1 *)
  vdata : nat → block;      (* b->data *)
  vblockno : nat → Z;       (* b->blockno *)
  vwoke : list chan;
  vregs : list (Z * Z)      (* register writes *)
}.

Definition set_vd (d : vdisk) (s : vstate) : vstate := VState d (vbusy s) (vdata s) (vblockno s) (vwoke s) (vregs s).
Definition set_vbusy (f : nat → bool) (s : vstate) : vstate := VState (vd s) f (vdata s) (vblockno s) (vwoke s) (vregs s).
Definition updd (f : vdisk → vdisk) : M vstate unit := modify (λ s, set_vd (f (vd s)) s).
Definition vwakeup (c : chan) : M vstate unit :=
  modify (λ s, VState (vd s) (vbusy s) (vdata s) (vblockno s) (vwoke s ++ [c]) (vregs s)).
Definition vwrite_reg (r v : Z) : M vstate unit :=
  modify (λ s, VState (vd s) (vbusy s) (vdata s) (vblockno s) (vwoke s) (vregs s ++ [(r, v)])).
Definition acquire_vd : M vstate unit := acquire_flag (λ s, vdisk_lock (vd s)) (λ b s, set_vd (set_vdisk_lock b (vd s)) s).
Definition release_vd : M vstate unit := release_flag (λ s, vdisk_lock (vd s)) (λ b s, set_vd (set_vdisk_lock b (vd s)) s).

(** ** Descriptors *)

(** The loop of alloc_desc() at descriptor [i], [k] to go. *)
Fixpoint alloc_desc_loop (k i : nat) : M vstate (option nat) :=
  match k with
  | O => mret None
  | S k =>
    d ← gets vd;
    if (dfree d !!! i : bool) then updd (set_dfree (<[i := false]> (dfree d)));; mret (Some i)
    else alloc_desc_loop k (S i)
  end.
Definition alloc_desc : M vstate (option nat) := alloc_desc_loop NUM 0.

Definition free_desc (i : nat) : M vstate unit :=
  if (NUM <=? i)%nat then panic "free_desc 1" else
  d ← gets vd;
  if (dfree d !!! i : bool) then panic "free_desc 2" else
  updd (set_desc (<[i := zero_desc]> (desc d)));;
  updd (λ d, set_dfree (<[i := true]> (dfree d)) d);;
  vwakeup ChanDiskFree.

(** Every turn frees a descriptor, so that NUM turns are enough. *)
Fixpoint free_chain_loop (fuel i : nat) : M vstate unit :=
  match fuel with
  | O => no_fuel
  | S fuel =>
    x ← gets (λ s, desc (vd s) !!! i);
    free_desc i;;
    if negb (Z.land (d_flags x) VRING_DESC_F_NEXT =? 0) then free_chain_loop fuel (Z.to_nat (d_next x)) else mret tt
  end.
Definition free_chain : nat → M vstate unit := free_chain_loop (S NUM).

Fixpoint free_descs (l : list nat) : M vstate unit :=
  match l with
  | [] => mret tt
  | i :: l => free_desc i;; free_descs l
  end.

(** The loop of alloc3_desc(), with the descriptors [idx] allocated. *)
Fixpoint alloc3_loop (k : nat) (idx : list nat) : M vstate (option (list nat)) :=
  match k with
  | O => mret (Some idx)
  | S k =>
    i ← alloc_desc;
    match i with
    | Some i => alloc3_loop k (idx ++ [i])
    | None => free_descs idx;; mret None
    end
  end.
Definition alloc3_desc : M vstate (option (list nat)) := alloc3_loop 3 [].

(** ** Requests *)

Inductive vresult := VDone | VSleep (c : chan) (idx0 : option nat).

(** The request header and the three descriptors. *)
Definition format_request (b : nat) (write : bool) (sector : Z) (i0 i1 i2 : nat) (d : vdisk) : vdisk :=
  let d := set_ops (<[i0 := BlkReq (if write then VIRTIO_BLK_T_OUT else VIRTIO_BLK_T_IN) 0 sector]> (ops d)) d in
  let d := set_desc (<[i0 := Desc (VOp i0) 16 VRING_DESC_F_NEXT (Z.of_nat i1)]> (desc d)) d in
  let d := set_desc (<[i1 := Desc (VData b) BSIZE (Z.lor (if write then 0 else VRING_DESC_F_WRITE) VRING_DESC_F_NEXT) (Z.of_nat i2)]> (desc d)) d in
  let d := set_status (<[i0 := 0xff]> (info_status d)) d in
  set_desc (<[i2 := Desc (VStatus i0) 1 VRING_DESC_F_WRITE 0]> (desc d)) d.

(** [disk.avail->ring[disk.avail->idx % NUM] = idx[0]; disk.avail->idx += 1] *)
Definition publish (i0 : nat) (d : vdisk) : vdisk :=
  set_avail (u16 (avail_idx d + 1)) (<[Z.to_nat (avail_idx d mod Z.of_nat NUM) := i0]> (avail_ring d)) d.

(** The wait for virtio_disk_intr(), with vdisk_lock held. *)
Definition wait_done (b i0 : nat) : M vstate vresult :=
  busy ← gets (λ s, vbusy s b);
  if busy : bool then
    release_vd;; mret (VSleep (ChanBuf b) (Some i0))
  else
    updd (λ d, set_info_b (<[i0 := None]> (info_b d)) d);;
    free_chain i0;;
    release_vd;;
    mret VDone.

Definition VIRTIO_MMIO_QUEUE_NOTIFY : Z := 0x050.
Definition VIRTIO_MMIO_INTERRUPT_ACK : Z := 0x064.

Definition virtio_disk_rw (b : nat) (write : bool) : M vstate vresult :=
  sector ← gets (λ s, u32 (vblockno s b * (BSIZE / 512)));
  acquire_vd;;
  idx ← alloc3_desc;
  match idx with
  | Some [i0; i1; i2] =>
    updd (format_request b write sector i0 i1 i2);;
    modify (λ s, set_vbusy (<[b := true]> (vbusy s)) s);;
    updd (λ d, set_info_b (<[i0 := Some b]> (info_b d)) d);;
    updd (publish i0);;
    vwrite_reg VIRTIO_MMIO_QUEUE_NOTIFY 0;;
    wait_done b i0
  | _ => release_vd;; mret (VSleep ChanDiskFree None)
  end.

Definition virtio_disk_rw_wake (b i0 : nat) : M vstate vresult :=
  acquire_vd;;
  wait_done b i0.

(** ** The interrupt handler *)

(** [istat] is what INTERRUPT_STATUS reads. *)
Definition intr_enter (istat : Z) : M vstate unit :=
  acquire_vd;;
  vwrite_reg VIRTIO_MMIO_INTERRUPT_ACK (Z.land istat 0x3).

(** One iteration of the loop; [false] when there is nothing left. *)
Definition intr_iter : M vstate bool :=
  d ← gets vd;
  if used_idx d =? used_dev_idx d then mret false else
  let id := used_ring d !!! Z.to_nat (used_idx d mod Z.of_nat NUM) in
  if negb (info_status d !!! id =? 0) then panic "virtio_disk_intr status" else
  match info_b d !!! id with
  | None => panic "virtio_disk_intr: null buf"      (* b->disk with b == 0 *)
  | Some b =>
    modify (λ s, set_vbusy (<[b := false]> (vbusy s)) s);;
    vwakeup (ChanBuf b);;
    updd (λ d, set_used_idx (u16 (used_idx d + 1)) d);;
    mret true
  end.

Fixpoint intr_loop (fuel : nat) : M vstate unit :=
  match fuel with
  | O => no_fuel
  | S fuel => more ← intr_iter; if more : bool then intr_loop fuel else mret tt
  end.

(** The whole handler, when the device adds nothing meanwhile. *)
Definition virtio_disk_intr (istat : Z) : M vstate unit :=
  intr_enter istat;;
  d ← gets vd;
  intr_loop (S (Z.to_nat (u16 (used_dev_idx d - used_idx d))));;
  release_vd.

(** ** Initialisation *)

Definition VIRTIO_MMIO_MAGIC_VALUE : Z := 0x000.
Definition VIRTIO_MMIO_VERSION : Z := 0x004.
Definition VIRTIO_MMIO_DEVICE_ID : Z := 0x008.
Definition VIRTIO_MMIO_VENDOR_ID : Z := 0x00c.
Definition VIRTIO_MMIO_DEVICE_FEATURES : Z := 0x010.
Definition VIRTIO_MMIO_DRIVER_FEATURES : Z := 0x020.
Definition VIRTIO_MMIO_QUEUE_SEL : Z := 0x030.
Definition VIRTIO_MMIO_QUEUE_NUM_MAX : Z := 0x034.
Definition VIRTIO_MMIO_QUEUE_NUM : Z := 0x038.
Definition VIRTIO_MMIO_QUEUE_READY : Z := 0x044.
Definition VIRTIO_MMIO_STATUS : Z := 0x070.
Definition VIRTIO_MMIO_QUEUE_DESC_LOW : Z := 0x080.
Definition VIRTIO_MMIO_QUEUE_DESC_HIGH : Z := 0x084.
Definition VIRTIO_MMIO_DRIVER_DESC_LOW : Z := 0x090.
Definition VIRTIO_MMIO_DRIVER_DESC_HIGH : Z := 0x094.
Definition VIRTIO_MMIO_DEVICE_DESC_LOW : Z := 0x0a0.
Definition VIRTIO_MMIO_DEVICE_DESC_HIGH : Z := 0x0a4.
Definition VIRTIO_CONFIG_S_ACKNOWLEDGE : Z := 1.
Definition VIRTIO_CONFIG_S_DRIVER : Z := 2.
Definition VIRTIO_CONFIG_S_DRIVER_OK : Z := 4.
Definition VIRTIO_CONFIG_S_FEATURES_OK : Z := 8.
Definition VIRTIO_BLK_F_RO : Z := 5.
Definition VIRTIO_BLK_F_SCSI : Z := 7.
Definition VIRTIO_BLK_F_CONFIG_WCE : Z := 11.
Definition VIRTIO_BLK_F_MQ : Z := 12.
Definition VIRTIO_F_ANY_LAYOUT : Z := 27.
Definition VIRTIO_RING_F_INDIRECT_DESC : Z := 28.
Definition VIRTIO_RING_F_EVENT_IDX : Z := 29.

Section init.
Context {I : image} {PA : PageAllocator}.
Context (mmio : nat → Z → Z).   (* the value of the k-th read of a register *)

(** The physical memory, the driver and the number of register reads. *)
Record istate := IState { i_ms : mstate; i_vs : vstate; i_reads : nat }.

Definition reg_read (r : Z) : M istate Z := λ s, Ret (u32 (mmio (i_reads s) r)) (IState (i_ms s) (i_vs s) (S (i_reads s))).
Definition reg_write (r v : Z) : M istate unit := zoom i_vs (λ v s, IState (i_ms s) v (i_reads s)) (vwrite_reg r (u32 v)).
Definition on_mem {A} (m : M mstate A) : M istate A := zoom i_ms (λ m s, IState m (i_vs s) (i_reads s)) m.
Definition on_disk (f : vdisk → vdisk) : M istate unit := zoom i_vs (λ v s, IState (i_ms s) v (i_reads s)) (updd f).
Definition clear_bit (x k : Z) : Z := Z.land x (Z.lnot (Z.shiftl 1 k)).
Definition zero_page (pa : Z) : M istate unit := on_mem (mmemset pa 0 PGSIZE).

(** The descriptor table and the two rings are the three pages allocated; they
    are all zero.  The other fields of [disk] are zero since the boot. *)
Definition fresh_queues (d : vdisk) : vdisk :=
  set_used 0 (replicate NUM 0%nat) (set_avail 0 (replicate NUM 0%nat) (set_desc (replicate NUM zero_desc) d)).

(** From the zeroing of the queue memory to the end of virtio_disk_init(). *)
Definition queue_setup (pdesc pavail pused status : Z) : M istate unit :=
  zero_page pdesc;;
  zero_page pavail;;
  zero_page pused;;
  on_disk fresh_queues;;
  (* set queue size. *)
  reg_write VIRTIO_MMIO_QUEUE_NUM (Z.of_nat NUM);;
  (* write physical addresses. *)
  reg_write VIRTIO_MMIO_QUEUE_DESC_LOW pdesc;;
  reg_write VIRTIO_MMIO_QUEUE_DESC_HIGH (Z.shiftr pdesc 32);;
  reg_write VIRTIO_MMIO_DRIVER_DESC_LOW pavail;;
  reg_write VIRTIO_MMIO_DRIVER_DESC_HIGH (Z.shiftr pavail 32);;
  reg_write VIRTIO_MMIO_DEVICE_DESC_LOW pused;;
  reg_write VIRTIO_MMIO_DEVICE_DESC_HIGH (Z.shiftr pused 32);;
  (* queue is ready. *)
  reg_write VIRTIO_MMIO_QUEUE_READY 0x1;;
  (* all NUM descriptors start out unused. *)
  on_disk (set_dfree (replicate NUM true));;
  (* tell device we're completely ready. *)
  reg_write VIRTIO_MMIO_STATUS (Z.lor status VIRTIO_CONFIG_S_DRIVER_OK).

Definition virtio_disk_init : M istate unit :=
  on_disk (set_vdisk_lock false);;
  (* each identification register is read only if those before it are right *)
  magic ← reg_read VIRTIO_MMIO_MAGIC_VALUE;
  if negb (magic =? 0x74726976) then panic "could not find virtio disk" else
  version ← reg_read VIRTIO_MMIO_VERSION;
  if negb (version =? 2) then panic "could not find virtio disk" else
  device ← reg_read VIRTIO_MMIO_DEVICE_ID;
  if negb (device =? 2) then panic "could not find virtio disk" else
  vendor ← reg_read VIRTIO_MMIO_VENDOR_ID;
  if negb (vendor =? 0x554d4551) then panic "could not find virtio disk" else
  (* reset device *)
  let status := 0 in
  reg_write VIRTIO_MMIO_STATUS status;;
  (* set ACKNOWLEDGE status bit *)
  let status := Z.lor status VIRTIO_CONFIG_S_ACKNOWLEDGE in
  reg_write VIRTIO_MMIO_STATUS status;;
  (* set DRIVER status bit *)
  let status := Z.lor status VIRTIO_CONFIG_S_DRIVER in
  reg_write VIRTIO_MMIO_STATUS status;;
  (* negotiate features *)
  features ← reg_read VIRTIO_MMIO_DEVICE_FEATURES;
  let features := clear_bit features VIRTIO_BLK_F_RO in
  let features := clear_bit features VIRTIO_BLK_F_SCSI in
  let features := clear_bit features VIRTIO_BLK_F_CONFIG_WCE in
  let features := clear_bit features VIRTIO_BLK_F_MQ in
  let features := clear_bit features VIRTIO_F_ANY_LAYOUT in
  let features := clear_bit features VIRTIO_RING_F_EVENT_IDX in
  let features := clear_bit features VIRTIO_RING_F_INDIRECT_DESC in
  reg_write VIRTIO_MMIO_DRIVER_FEATURES features;;
  (* tell device that feature negotiation is complete. *)
  let status := Z.lor status VIRTIO_CONFIG_S_FEATURES_OK in
  reg_write VIRTIO_MMIO_STATUS status;;
  (* re-read status to ensure FEATURES_OK is set. *)
  status ← reg_read VIRTIO_MMIO_STATUS;
  if Z.land status VIRTIO_CONFIG_S_FEATURES_OK =? 0 then panic "virtio disk FEATURES_OK unset" else
  (* initialize queue 0. *)
  reg_write VIRTIO_MMIO_QUEUE_SEL 0;;
  (* ensure queue 0 is not in use. *)
  ready ← reg_read VIRTIO_MMIO_QUEUE_READY;
  if negb (ready =? 0) then panic "virtio disk should not be ready" else
  (* check maximum queue size. *)
  max ← reg_read VIRTIO_MMIO_QUEUE_NUM_MAX;
  if max =? 0 then panic "virtio disk has no queue 0" else
  if max <? Z.of_nat NUM then panic "virtio disk max queue too short" else
  (* allocate and zero queue memory. *)
  pdesc ← on_mem pa_kalloc;
  pavail ← on_mem pa_kalloc;
  pused ← on_mem pa_kalloc;
  if (pdesc =? 0) || (pavail =? 0) || (pused =? 0) then panic "virtio disk kalloc" else
  queue_setup pdesc pavail pused status.
End init.
