(* ===== verification/VirtioInv.v ===== *)
(** * kernel/virtio_disk.c: the driver, the device and many requests

    [vsys] is the driver with the disk behind it, the device's position in the
    available ring with the chains it has fetched, and the processes inside
    virtio_disk_rw(), each by the buffer it has locked.  The device behaves as
    the virtio standard says (2.6.7 and 5.2.6): it fetches chains in the order
    of the available ring, serves them in any order, and reports each in the
    used ring after it has transferred the data and written the status byte.
    The status may be any byte; when it is not 0 (VIRTIO_BLK_S_OK) the request
    has failed, and the contents that it should have overwritten are anything.
    The device runs between any two steps of the driver, also inside
    virtio_disk_intr().

    [v] in a process's state is the contents the request is about: of the
    buffer for a write, of the disk block for a read, when the request began. *)

From stdpp Require Import base functions gmap sets strings numbers list.
From coqutil Require Import Byte.
From S2P Require Import Prelude Mem Str Riscv Spinlock Kalloc Block Ring Virtio.

Inductive vthread :=
| TDesc (w : bool) (v : block)              (* sleeps for descriptors *)
| TWait (w : bool) (i0 : nat) (v : block).  (* sleeps for its request *)

Record vsys := VSys {
  sv : vstate;
  sdisk : Z → block;
  dev_avail : Z;            (* how far the device has read the available ring *)
  dev_pend : list nat;      (* chains fetched and not yet served *)
  threads : gmap nat vthread;
  in_intr : bool;           (* a hart is inside the loop of virtio_disk_intr() *)
  dev_report : nat → Z      (* the status the device last reported for a chain *)
}.

(** The device serves the chain at [h] with the status [st]: the new driver
    state and disk.  A request that fails leaves [junk] where it writes. *)
Definition dev_serve (st : Z) (junk : block) (h : nat) (s : vstate) (dk : Z → block) : option (vstate * (Z → block)) :=
  let d := vd s in
  let d0 := desc d !!! h in
  let d1 := desc d !!! Z.to_nat (d_next d0) in
  let d2 := desc d !!! Z.to_nat (d_next d1) in
  match d_addr d0, d_addr d1, d_addr d2 with
  | VOp i, VData b, VStatus j =>
    if (d_flags d0 =? 1) && (d_len d1 =? BSIZE) && (d_flags d2 =? 2) then
      let req := ops d !!! i in
      let bn := r_sector req / 2 in
      let d' := set_used (u16 (used_dev_idx d + 1)) (<[Z.to_nat (used_dev_idx d mod Z.of_nat NUM) := h]> (used_ring d))
                  (set_status (<[j := st]> (info_status d)) d) in
      if (r_type req =? VIRTIO_BLK_T_OUT) && (d_flags d1 =? 1) then
        Some (set_vd d' s, <[bn := if st =? 0 then vdata s b else junk]> dk)
      else if (r_type req =? VIRTIO_BLK_T_IN) && (d_flags d1 =? 3) then
        Some (VState d' (vbusy s) (<[b := if st =? 0 then dk bn else junk]> (vdata s)) (vblockno s) (vwoke s) (vregs s), dk)
      else None
    else None
  | _, _, _ => None
  end.

(** A process after a part of virtio_disk_rw() has returned [r]. *)
Definition thread_after (b : nat) (w : bool) (v : block) (r : vresult) (m : gmap nat vthread) : gmap nat vthread :=
  match r with
  | VDone => delete b m
  | VSleep _ None => <[b := TDesc w v]> m
  | VSleep _ (Some i0) => <[b := TWait w i0 v]> m
  end.

Definition set_sv (v : vstate) (s : vsys) : vsys := VSys v (sdisk s) (dev_avail s) (dev_pend s) (threads s) (in_intr s) (dev_report s).
Definition set_threads (m : gmap nat vthread) (s : vsys) : vsys := VSys (sv s) (sdisk s) (dev_avail s) (dev_pend s) m (in_intr s) (dev_report s).
Definition unlocked (s : vsys) : Prop := vdisk_lock (vd (sv s)) = false.
(** What a request on [b] is about. *)
Definition content (s : vsys) (b : nat) (w : bool) : block := if w then vdata (sv s) b else sdisk s (vblockno (sv s) b).

Inductive vstep : vsys → vsys → Prop :=
(* outside of requests: the owner of a buffer fills it or makes it another block's *)
| vs_client s data bn : (∀ b, is_Some (threads s !! b) → data b = vdata (sv s) b ∧ bn b = vblockno (sv s) b) →
    vstep s (set_sv (VState (vd (sv s)) (vbusy (sv s)) data bn (vwoke (sv s)) (vregs (sv s))) s)
(* virtio_disk_rw(): the buffer is locked, and no other buffer is of its block *)
| vs_rw s b w r v' : threads s !! b = None → 0 ≤ vblockno (sv s) b < 2 ^ 31 →
    (∀ b', is_Some (threads s !! b') → vblockno (sv s) b' ≠ vblockno (sv s) b) → unlocked s →
    virtio_disk_rw b w (sv s) = Ret r v' →
    vstep s (set_threads (thread_after b w (content s b w) r (threads s)) (set_sv v' s))
| vs_retry s b w v r v' : threads s !! b = Some (TDesc w v) → unlocked s → virtio_disk_rw b w (sv s) = Ret r v' →
    vstep s (set_threads (thread_after b w v r (threads s)) (set_sv v' s))
| vs_wake s b w i0 v r v' : threads s !! b = Some (TWait w i0 v) → unlocked s → virtio_disk_rw_wake b i0 (sv s) = Ret r v' →
    vstep s (set_threads (thread_after b w v r (threads s)) (set_sv v' s))
| vs_intr_enter s istat v' : unlocked s → intr_enter istat (sv s) = Ret tt v' →
    vstep s (VSys v' (sdisk s) (dev_avail s) (dev_pend s) (threads s) true (dev_report s))
| vs_intr_iter s v' : in_intr s = true → intr_iter (sv s) = Ret true v' → vstep s (set_sv v' s)
| vs_intr_leave s v v' : in_intr s = true → intr_iter (sv s) = Ret false v → release_vd v = Ret tt v' →
    vstep s (VSys v' (sdisk s) (dev_avail s) (dev_pend s) (threads s) false (dev_report s))
| vs_fetch s : dev_avail s ≠ avail_idx (vd (sv s)) →
    vstep s (VSys (sv s) (sdisk s) (u16 (dev_avail s + 1))
      (dev_pend s ++ [avail_ring (vd (sv s)) !!! Z.to_nat (dev_avail s mod Z.of_nat NUM)]) (threads s) (in_intr s) (dev_report s))
| vs_serve s st junk l1 h l2 v' dk : 0 ≤ st < 2 ^ 8 → dev_pend s = l1 ++ h :: l2 → dev_serve st junk h (sv s) (sdisk s) = Some (v', dk) →
    vstep s (VSys v' dk (dev_avail s) (l1 ++ l2) (threads s) (in_intr s) (<[h := st]> (dev_report s))).

(** ** The invariant *)

Definition nxt (d : vdisk) (i : nat) : nat := Z.to_nat (d_next (desc d !!! i)).
(** The descriptors of the chain that begins at [i0]. *)
Definition chain (d : vdisk) (i0 : nat) : list nat := [i0; nxt d i0; nxt d (nxt d i0)].

(** The descriptors, the header and the book-keeping of a request. *)
Record chain_ok (d : vdisk) (b : nat) (bn : Z) (w : bool) (i0 i1 i2 : nat) : Prop := {
  ch_distinct : NoDup [i0; i1; i2];
  ch_range : Forall (λ i, i < NUM)%nat [i0; i1; i2];
  ch_0 : desc d !!! i0 = Desc (VOp i0) 16 1 (Z.of_nat i1);
  ch_1 : desc d !!! i1 = Desc (VData b) BSIZE (if w then 1 else 3) (Z.of_nat i2);
  ch_2 : desc d !!! i2 = Desc (VStatus i0) 1 2 0;
  ch_op : ops d !!! i0 = BlkReq (if w then 1 else 0) 0 (bn * 2);
  ch_b : info_b d !!! i0 = Some b
}.

Definition avail_win (s : vsys) : list nat := ring_bytes (2 ^ 16) 8 (avail_ring (vd (sv s))) (dev_avail s) (avail_idx (vd (sv s))).
Definition used_win (s : vsys) : list nat := ring_bytes (2 ^ 16) 8 (used_ring (vd (sv s))) (used_idx (vd (sv s))) (used_dev_idx (vd (sv s))).
(** The chains on their way: published, fetched, served. *)
Definition queue (s : vsys) : list nat := avail_win s ++ dev_pend s ++ used_win s.

Record lens_ok (d : vdisk) : Prop := {
  lo_desc : length (desc d) = NUM; lo_avail : length (avail_ring d) = NUM; lo_used : length (used_ring d) = NUM;
  lo_free : length (dfree d) = NUM; lo_info : length (info_b d) = NUM; lo_status : length (info_status d) = NUM; lo_ops : length (ops d) = NUM
}.

Record vinv (s : vsys) : Prop := {
  vi_lens : lens_ok (vd (sv s));
  vi_idx : 0 ≤ dev_avail s < 2 ^ 16 ∧ 0 ≤ avail_idx (vd (sv s)) < 2 ^ 16 ∧ 0 ≤ used_idx (vd (sv s)) < 2 ^ 16 ∧ 0 ≤ used_dev_idx (vd (sv s)) < 2 ^ 16;
  vi_win : ring_len (2 ^ 16) (dev_avail s) (avail_idx (vd (sv s))) ≤ 8 ∧ ring_len (2 ^ 16) (used_idx (vd (sv s))) (used_dev_idx (vd (sv s))) ≤ 8;
  vi_lock : vdisk_lock (vd (sv s)) = in_intr s;
  (* each process that waits has a chain *)
  vi_chain b w i0 v : threads s !! b = Some (TWait w i0 v) →
    chain_ok (vd (sv s)) b (vblockno (sv s) b) w i0 (nxt (vd (sv s)) i0) (nxt (vd (sv s)) (nxt (vd (sv s)) i0));
  (* the chains are disjoint, and the descriptors in none of them are free *)
  vi_disjoint b b' w w' i0 i0' v v' j : threads s !! b = Some (TWait w i0 v) → threads s !! b' = Some (TWait w' i0' v') →
    j ∈ chain (vd (sv s)) i0 → j ∈ chain (vd (sv s)) i0' → b = b';
  vi_free j : (j < NUM)%nat → dfree (vd (sv s)) !!! j = true ↔ ¬ ∃ b w i0 v, threads s !! b = Some (TWait w i0 v) ∧ j ∈ chain (vd (sv s)) i0;
  vi_free_zero j : (j < NUM)%nat → dfree (vd (sv s)) !!! j = true → desc (vd (sv s)) !!! j = zero_desc;
  (* the chains on their way are those the driver waits for *)
  vi_nodup : NoDup (queue s);
  vi_queue h : h ∈ queue s ↔ ∃ b w v, threads s !! b = Some (TWait w h v) ∧ vbusy (sv s) b = true;
  vi_busy b : vbusy (sv s) b = true → ∃ w i0 v, threads s !! b = Some (TWait w i0 v);
  (* different processes, different blocks *)
  vi_range b : is_Some (threads s !! b) → 0 ≤ vblockno (sv s) b < 2 ^ 31;
  vi_blocks b b' : is_Some (threads s !! b) → is_Some (threads s !! b') → vblockno (sv s) b = vblockno (sv s) b' → b = b';
  (* the contents the request is about are kept, and both sides have them once it was served with status 0 *)
  vi_keep b t : threads s !! b = Some t → match t with TDesc w v | TWait w _ v => content s b w = v end;
  vi_status h : h ∈ used_win s → info_status (vd (sv s)) !!! h = dev_report s h;
  vi_done b w i0 v : threads s !! b = Some (TWait w i0 v) → (i0 ∈ used_win s ∧ dev_report s i0 = 0) ∨ vbusy (sv s) b = false →
    vdata (sv s) b = v ∧ sdisk s (vblockno (sv s) b) = v
}.

(** ** Facts about lists and chains *)

Lemma nodup_below (n : nat) l : NoDup l → Forall (λ i, i < n)%nat l → (length l ≤ n)%nat.
Proof.
  intros Hnd Hl. rewrite <- (length_seq n 0). apply submseteq_length, NoDup_submseteq; [done|].
  intros x Hx. apply elem_of_seq. rewrite Forall_forall in Hl. specialize (Hl x Hx). lia.
Qed.

Lemma chain_of d b bn w i0 i1 i2 : chain_ok d b bn w i0 i1 i2 → nxt d i0 = i1 ∧ nxt d i1 = i2 ∧ chain d i0 = [i0; i1; i2].
Proof.
  intros []. assert (H0 : nxt d i0 = i1) by (unfold nxt; rewrite ch_3; simpl; lia).
  assert (H1 : nxt d i1 = i2) by (unfold nxt; rewrite ch_4; simpl; lia). unfold chain. by rewrite H0, H1.
Qed.

(** A chain depends on its own descriptors and header only. *)
Lemma chain_frame d d' b bn w i0 i1 i2 : chain_ok d b bn w i0 i1 i2 → (∀ j, j ∈ [i0; i1; i2] → desc d' !!! j = desc d !!! j) →
  ops d' !!! i0 = ops d !!! i0 → info_b d' !!! i0 = info_b d !!! i0 →
  chain_ok d' b bn w i0 i1 i2 ∧ chain d' i0 = chain d i0 ∧ nxt d' i0 = i1 ∧ nxt d' (nxt d' i0) = i2.
Proof.
  intros Hc Hd Ho Hb. assert (Hc' : chain_ok d' b bn w i0 i1 i2).
  { destruct Hc. split; rewrite ?Hd, ?Ho, ?Hb by set_solver; done. }
  destruct (chain_of _ _ _ _ _ _ _ Hc) as (_ & _ & E). destruct (chain_of _ _ _ _ _ _ _ Hc') as (E0 & E1 & E').
  split_and!; [done|by rewrite E', E|done|by rewrite E0].
Qed.

Lemma used_ring_facts : 0 < 8 ∧ (8 | 2 ^ 16) ∧ 8 < 2 ^ 16.
Proof. split_and!; [done| |done]. by exists 8192. Qed.

(** ** Descriptor allocation *)

Lemma alloc_desc_loop_spec k i s : length (dfree (vd s)) = NUM → (i + k = NUM)%nat → (∀ j, (j < i)%nat → dfree (vd s) !!! j = false) →
  (∃ j, (j < NUM)%nat ∧ dfree (vd s) !!! j = true ∧ alloc_desc_loop k i s = Ret (Some j) (set_vd (set_dfree (<[j := false]> (dfree (vd s))) (vd s)) s)) ∨
  ((∀ j, (j < NUM)%nat → dfree (vd s) !!! j = false) ∧ alloc_desc_loop k i s = Ret None s).
Proof.
  intros Hl. revert i. induction k as [|k IH]; intros i Hik Hlow.
  { right. split; [intros j Hj; apply Hlow; lia|done]. }
  cbn [alloc_desc_loop]. rewrite bind_gets. destruct (dfree (vd s) !!! i) eqn:E.
  - left. exists i. split_and!; [lia|done|]. unfold updd. by rewrite bind_modify.
  - apply IH; [lia|]. intros j Hj. destruct (decide (j = i)) as [->|]; [done|]. apply Hlow. lia.
Qed.

Lemma alloc_desc_spec s : length (dfree (vd s)) = NUM →
  (∃ j, (j < NUM)%nat ∧ dfree (vd s) !!! j = true ∧ alloc_desc s = Ret (Some j) (set_vd (set_dfree (<[j := false]> (dfree (vd s))) (vd s)) s)) ∨
  ((∀ j, (j < NUM)%nat → dfree (vd s) !!! j = false) ∧ alloc_desc s = Ret None s).
Proof. intros Hl. apply alloc_desc_loop_spec; [done|done|lia]. Qed.

(** [s'] differs from [s] in the wakeup() calls only. *)
Definition only_woke (s s' : vstate) : Prop :=
  vd s' = vd s ∧ vbusy s' = vbusy s ∧ vdata s' = vdata s ∧ vblockno s' = vblockno s.

Definition alloc1 (i : nat) (s : vstate) : vstate := set_vd (set_dfree (<[i := false]> (dfree (vd s))) (vd s)) s.

(** Giving back a descriptor that was allocated and not used. *)
Lemma free_alloc1 i s : (i < NUM)%nat → lens_ok (vd s) → dfree (vd s) !!! i = true → desc (vd s) !!! i = zero_desc → ∀ s1, only_woke (alloc1 i s) s1 →
  ∃ s', free_desc i s1 = Ret tt s' ∧ only_woke s s'.
Proof.
  intros Hi [] Hf Hz s1 (E1 & E2 & E3 & E4). unfold free_desc. destruct (Nat.leb_spec NUM i); [lia|]. rewrite bind_gets, E1. cbn [alloc1 set_vd vd set_dfree dfree].
  rewrite list_lookup_total_insert_eq by lia. unfold updd. rewrite !bind_modify. eexists. split; [done|]. unfold only_woke. cbn [vd vbusy vdata vblockno set_vd].
  split_and!; [|by rewrite E2|by rewrite E3|by rewrite E4]. rewrite E1. cbn [alloc1 set_vd vd set_dfree dfree set_desc desc].
  assert (H1 : desc (vd s) !! i = Some zero_desc) by (rewrite <- Hz; apply list_lookup_lookup_total_lt; lia).
  assert (H2 : dfree (vd s) !! i = Some true) by (rewrite <- Hf; apply list_lookup_lookup_total_lt; lia).
  rewrite list_insert_insert_eq, (list_insert_id _ _ _ H1), (list_insert_id _ _ _ H2). by destruct (vd s).
Qed.

Lemma alloc1_free i s j : length (dfree (vd s)) = NUM → (i < NUM)%nat → dfree (vd (alloc1 i s)) !!! j = true → j ≠ i ∧ dfree (vd s) !!! j = true.
Proof.
  intros Hl Hi. cbn [alloc1 set_vd vd set_dfree dfree]. destruct (decide (j = i)) as [->|Hne].
  - by rewrite list_lookup_total_insert_eq by lia.
  - by rewrite list_lookup_total_insert_ne.
Qed.

Lemma alloc1_lens i s : lens_ok (vd s) → lens_ok (vd (alloc1 i s)).
Proof. intros []. split; try done. cbn [alloc1 set_vd vd set_dfree dfree]. by rewrite length_insert. Qed.

Lemma alloc1_comm i j s : i ≠ j → alloc1 i (alloc1 j s) = alloc1 j (alloc1 i s).
Proof. intros Hne. unfold alloc1, set_vd, set_dfree. cbn [vd dfree desc avail_idx avail_ring used_dev_idx used_ring used_idx info_b info_status ops vdisk_lock vbusy vdata vblockno vwoke vregs]. by rewrite list_insert_insert_ne. Qed.

Lemma only_woke_refl s : only_woke s s.
Proof. done. Qed.

(** Three different free descriptors, or nothing changes. *)
Lemma alloc3_spec s : lens_ok (vd s) → (∀ j, (j < NUM)%nat → dfree (vd s) !!! j = true → desc (vd s) !!! j = zero_desc) →
  (∃ i0 i1 i2, NoDup [i0; i1; i2] ∧ Forall (λ i, i < NUM)%nat [i0; i1; i2] ∧ (∀ j, j ∈ [i0; i1; i2] → dfree (vd s) !!! j = true) ∧
     alloc3_desc s = Ret (Some [i0; i1; i2]) (alloc1 i2 (alloc1 i1 (alloc1 i0 s)))) ∨
  (∃ s', alloc3_desc s = Ret None s' ∧ only_woke s s').
Proof.
  intros Hl Hz. unfold alloc3_desc. cbn [alloc3_loop app].
  destruct (alloc_desc_spec s (lo_free _ Hl)) as [(i0 & H0 & F0 & E0)|[_ E0]]; rewrite (bind_Ret _ _ _ _ _ E0).
  2:{ right. by exists s. }
  fold (alloc1 i0 s). pose proof (alloc1_lens i0 s Hl) as Hl1.
  destruct (alloc_desc_spec (alloc1 i0 s) (lo_free _ Hl1)) as [(i1 & H1 & F1 & E1)|[_ E1]]; rewrite (bind_Ret _ _ _ _ _ E1).
  2:{ right. destruct (free_alloc1 i0 s H0 Hl F0 (Hz i0 H0 F0) _ (only_woke_refl _)) as (s' & E & Hs'). exists s'. split; [|done].
      cbn [free_descs]. by rewrite (bind_Ret _ _ _ tt s') by (by rewrite (bind_Ret _ _ _ _ _ E)). }
  fold (alloc1 i1 (alloc1 i0 s)). apply (alloc1_free i0 s i1 (lo_free _ Hl) H0) in F1 as [N1 F1]. pose proof (alloc1_lens i1 _ Hl1) as Hl2.
  destruct (alloc_desc_spec (alloc1 i1 (alloc1 i0 s)) (lo_free _ Hl2)) as [(i2 & H2 & F2 & E2)|[_ E2]]; rewrite (bind_Ret _ _ _ _ _ E2).
  2:{ right. destruct (free_alloc1 i0 (alloc1 i1 s) H0) with (s1 := alloc1 i1 (alloc1 i0 s)) as (s1 & Ea & Ha).
      - by apply alloc1_lens.
      - cbn [alloc1 set_vd vd set_dfree dfree]. by rewrite list_lookup_total_insert_ne.
      - by apply Hz.
      - by rewrite alloc1_comm.
      - destruct (free_alloc1 i1 s H1 Hl F1 (Hz i1 H1 F1) _ Ha) as (s2 & Eb & Hb). exists s2. split; [|done].
        cbn [free_descs]. rewrite (bind_Ret _ _ _ tt s2); [done|]. by rewrite (bind_Ret _ _ _ _ _ Ea), (bind_Ret _ _ _ _ _ Eb). }
  fold (alloc1 i2 (alloc1 i1 (alloc1 i0 s))). apply (alloc1_free i1 _ i2 (lo_free _ Hl1) H1) in F2 as [N2 F2].
  apply (alloc1_free i0 s i2 (lo_free _ Hl) H0) in F2 as [N2' F2]. left. exists i0, i1, i2. split_and!; [| |set_solver|done].
  - rewrite !NoDup_cons. split_and!; [set_solver..|apply NoDup_nil_2].
  - by rewrite !Forall_cons, Forall_nil.
Qed.

(** ** virtio_disk_rw() *)

(** The driver's data after the request for block [bn] was published. *)
Definition submitted (b : nat) (w : bool) (bn : Z) (i0 i1 i2 : nat) (d : vdisk) : vdisk :=
  publish i0 (set_info_b (<[i0 := Some b]> (info_b d))
    (format_request b w (bn * 2) i0 i1 i2 (set_dfree (<[i2 := false]> (<[i1 := false]> (<[i0 := false]> (dfree d)))) d))).

Lemma release_vd_run s : vdisk_lock (vd s) = true → release_vd s = Ret tt (set_vd (set_vdisk_lock false (vd s)) s).
Proof. unfold release_vd, release_flag. rewrite bind_gets. by intros ->. Qed.

Lemma acquire_vd_run s : vdisk_lock (vd s) = false → acquire_vd s = Ret tt (set_vd (set_vdisk_lock true (vd s)) s).
Proof. unfold acquire_vd, acquire_flag. rewrite bind_gets. by intros ->. Qed.

Lemma relock d : vdisk_lock d = false → set_vdisk_lock false (set_vdisk_lock true d) = d.
Proof. destruct d. simpl. by intros ->. Qed.

Lemma rw_run b w s : lens_ok (vd s) → (∀ j, (j < NUM)%nat → dfree (vd s) !!! j = true → desc (vd s) !!! j = zero_desc) →
  vdisk_lock (vd s) = false → 0 ≤ vblockno s b < 2 ^ 31 →
  (∃ i0 i1 i2 s', NoDup [i0; i1; i2] ∧ Forall (λ i, i < NUM)%nat [i0; i1; i2] ∧ (∀ j, j ∈ [i0; i1; i2] → dfree (vd s) !!! j = true) ∧
     virtio_disk_rw b w s = Ret (VSleep (ChanBuf b) (Some i0)) s' ∧
     vd s' = submitted b w (vblockno s b) i0 i1 i2 (vd s) ∧ vbusy s' = <[b := true]> (vbusy s) ∧ vdata s' = vdata s ∧ vblockno s' = vblockno s) ∨
  (∃ s', virtio_disk_rw b w s = Ret (VSleep ChanDiskFree None) s' ∧ only_woke s s').
Proof.
  intros Hl Hz Hlk Hbn. unfold virtio_disk_rw. rewrite bind_gets. change (BSIZE / 512) with 2. rewrite u32_id by lia.
  rewrite (bind_Ret _ _ _ _ _ (acquire_vd_run s Hlk)). set (s0 := set_vd _ s).
  assert (Hl0 : lens_ok (vd s0)) by (destruct Hl; by split).
  destruct (alloc3_spec s0 Hl0 Hz) as [(i0 & i1 & i2 & Hnd & Hr & Hf & E)|(s1 & E & E1 & E2 & E3 & E4)]; rewrite (bind_Ret _ _ _ _ _ E).
  - left. unfold updd. rewrite !bind_modify. unfold vwrite_reg. rewrite bind_modify. unfold wait_done. rewrite bind_gets.
    cbn [set_vbusy vbusy set_vd].
    match goal with |- context [insert b true ?f b] => rewrite (fn_lookup_insert f b true) end. cbn iota.
    match goal with |- context [(release_vd ≫= _) ?x] => rewrite (bind_Ret _ _ _ _ _ (release_vd_run x eq_refl)) end.
    eexists i0, i1, i2, _. split; [done|]. split; [done|]. split; [done|]. split; [done|]. split; [|done].
    unfold submitted, publish, format_request. destruct (vd s) eqn:Ed. cbn in Hlk |- *. by rewrite Hlk.
  - right. assert (Hlk1 : vdisk_lock (vd s1) = true) by (by rewrite E1). rewrite (bind_Ret _ _ _ _ _ (release_vd_run s1 Hlk1)).
    eexists. split; [done|]. unfold only_woke. cbn [set_vd vd vbusy vdata vblockno]. rewrite E1, E2, E3, E4. cbn [s0 set_vd vd vbusy vdata vblockno].
    by rewrite relock.
Qed.

Lemma nodup3 (i0 i1 i2 : nat) : NoDup [i0; i1; i2] → i0 ≠ i1 ∧ i0 ≠ i2 ∧ i1 ≠ i2.
Proof. rewrite !NoDup_cons. set_solver. Qed.

Lemma range3 (i0 i1 i2 : nat) : Forall (λ i, i < NUM)%nat [i0; i1; i2] → (i0 < NUM ∧ i1 < NUM ∧ i2 < NUM)%nat.
Proof. rewrite !Forall_cons. tauto. Qed.

(** Look up in a list updated at concrete places. *)
Ltac lookups := repeat first [rewrite list_lookup_total_insert_eq by (rewrite ?length_insert; lia) | rewrite list_lookup_total_insert_ne by (done || lia || congruence)].

Ltac vcbn := cbn [set_desc set_avail set_used set_dfree set_used_idx set_info_b set_status set_ops set_vdisk_lock
  desc avail_idx avail_ring used_dev_idx used_ring dfree used_idx info_b info_status ops vdisk_lock].

Lemma submitted_facts b w bn i0 i1 i2 d : lens_ok d → NoDup [i0; i1; i2] → Forall (λ i, i < NUM)%nat [i0; i1; i2] →
  let d' := submitted b w bn i0 i1 i2 d in
  lens_ok d' ∧ chain_ok d' b bn w i0 i1 i2 ∧
  (∀ j, j ∉ [i0; i1; i2] → desc d' !!! j = desc d !!! j ∧ dfree d' !!! j = dfree d !!! j) ∧
  (∀ j, j ∈ [i0; i1; i2] → dfree d' !!! j = false) ∧
  (∀ j, j ≠ i0 → ops d' !!! j = ops d !!! j ∧ info_b d' !!! j = info_b d !!! j ∧ info_status d' !!! j = info_status d !!! j) ∧
  avail_ring d' = <[Z.to_nat (avail_idx d mod 8) := i0]> (avail_ring d) ∧ avail_idx d' = (avail_idx d + 1) mod 2 ^ 16 ∧
  used_ring d' = used_ring d ∧ used_idx d' = used_idx d ∧ used_dev_idx d' = used_dev_idx d ∧ vdisk_lock d' = vdisk_lock d.
Proof.
  intros [] Hnd Hr d'. destruct (nodup3 _ _ _ Hnd) as (N01 & N02 & N12). destruct (range3 _ _ _ Hr) as (R0 & R1 & R2).
  unfold d', submitted, publish, format_request. vcbn. split_and!; try done.
  - split; vcbn; by rewrite ?length_insert.
  - split; vcbn; try done; lookups; try done; by destruct w.
  - intros j Hj. assert (j ≠ i0 ∧ j ≠ i1 ∧ j ≠ i2) as (? & ? & ?) by set_solver. by lookups.
  - intros j Hj. assert (j = i0 ∨ j = i1 ∨ j = i2) as [-> | [-> | ->]] by set_solver; by lookups.
  - intros j Hj. by lookups.
Qed.

(** ** Completion *)

Definition freed1 (i : nat) (d : vdisk) : vdisk := set_dfree (<[i := true]> (dfree d)) (set_desc (<[i := zero_desc]> (desc d)) d).

Lemma free_desc_run i s : (i < NUM)%nat → dfree (vd s) !!! i = false → ∃ s', free_desc i s = Ret tt s' ∧
  vd s' = freed1 i (vd s) ∧ vbusy s' = vbusy s ∧ vdata s' = vdata s ∧ vblockno s' = vblockno s.
Proof.
  intros Hi Hf. unfold free_desc. destruct (Nat.leb_spec NUM i); [lia|]. rewrite bind_gets, Hf. unfold updd. rewrite !bind_modify. by eexists.
Qed.

Definition finished (i0 i1 i2 : nat) (d : vdisk) : vdisk :=
  freed1 i2 (freed1 i1 (freed1 i0 (set_info_b (<[i0 := None]> (info_b d)) d))).

Lemma free_chain_run b bn w i0 i1 i2 s : chain_ok (vd s) b bn w i0 i1 i2 → lens_ok (vd s) → (∀ j, j ∈ [i0; i1; i2] → dfree (vd s) !!! j = false) → ∀ s1,
  vd s1 = set_info_b (<[i0 := None]> (info_b (vd s))) (vd s) → ∃ s',
  free_chain i0 s1 = Ret tt s' ∧ vd s' = finished i0 i1 i2 (vd s) ∧ vbusy s' = vbusy s1 ∧ vdata s' = vdata s1 ∧ vblockno s' = vblockno s1.
Proof.
  intros [Hnd Hr E0 E1 E2 _ _] [] Hf s1 Hs1. destruct (nodup3 _ _ _ Hnd) as (N01 & N02 & N12). destruct (range3 _ _ _ Hr) as (R0 & R1 & R2).
  unfold free_chain, NUM. cbn [free_chain_loop]. rewrite bind_gets, Hs1. vcbn. rewrite E0.
  destruct (free_desc_run i0 s1) as (s2 & Ea & Hd2 & ? & ? & ?); [done|rewrite Hs1; apply Hf; set_solver|].
  rewrite (bind_Ret _ _ _ _ _ Ea). cbn [d_flags d_next]. change (negb (Z.land 1 VRING_DESC_F_NEXT =? 0)) with true. cbn iota. rewrite Nat2Z.id.
  assert (Hx1 : desc (vd s2) !!! i1 = desc (vd s) !!! i1) by (rewrite Hd2, Hs1; unfold freed1; vcbn; by lookups).
  assert (Hf1 : dfree (vd s2) !!! i1 = false) by (rewrite Hd2, Hs1; unfold freed1; vcbn; lookups; apply Hf; set_solver).
  rewrite bind_gets, Hx1, E1. destruct (free_desc_run i1 s2 R1 Hf1) as (s3 & Eb & Hd3 & ? & ? & ?). rewrite (bind_Ret _ _ _ _ _ Eb).
  assert (Hfl : negb (Z.land (if w then 1 else 3) VRING_DESC_F_NEXT =? 0) = true) by (by destruct w). cbn [d_flags d_next]. rewrite Hfl, Nat2Z.id.
  assert (Hx2 : desc (vd s3) !!! i2 = desc (vd s) !!! i2) by (rewrite Hd3, Hd2, Hs1; unfold freed1; vcbn; by lookups).
  assert (Hf2 : dfree (vd s3) !!! i2 = false) by (rewrite Hd3, Hd2, Hs1; unfold freed1; vcbn; lookups; apply Hf; set_solver).
  rewrite bind_gets, Hx2, E2. destruct (free_desc_run i2 s3 R2 Hf2) as (s4 & Ec & Hd4 & ? & ? & ?). rewrite (bind_Ret _ _ _ _ _ Ec).
  exists s4. split_and!; [done| |congruence..]. by rewrite Hd4, Hd3, Hd2, Hs1.
Qed.

Lemma finished_facts i0 i1 i2 d : lens_ok d → NoDup [i0; i1; i2] → Forall (λ i, i < NUM)%nat [i0; i1; i2] →
  let d' := finished i0 i1 i2 d in
  lens_ok d' ∧
  (∀ j, j ∉ [i0; i1; i2] → desc d' !!! j = desc d !!! j ∧ dfree d' !!! j = dfree d !!! j) ∧
  (∀ j, j ∈ [i0; i1; i2] → desc d' !!! j = zero_desc ∧ dfree d' !!! j = true) ∧
  (∀ j, j ≠ i0 → info_b d' !!! j = info_b d !!! j) ∧ ops d' = ops d ∧ info_status d' = info_status d ∧
  avail_ring d' = avail_ring d ∧ avail_idx d' = avail_idx d ∧
  used_ring d' = used_ring d ∧ used_idx d' = used_idx d ∧ used_dev_idx d' = used_dev_idx d ∧ vdisk_lock d' = vdisk_lock d.
Proof.
  intros [] Hnd Hr d'. destruct (nodup3 _ _ _ Hnd) as (N01 & N02 & N12). destruct (range3 _ _ _ Hr) as (R0 & R1 & R2).
  unfold d', finished, freed1. vcbn. split_and!; try done.
  - split; vcbn; by rewrite ?length_insert.
  - intros j Hj. assert (j ≠ i0 ∧ j ≠ i1 ∧ j ≠ i2) as (? & ? & ?) by set_solver. by lookups.
  - intros j Hj. assert (j = i0 ∨ j = i1 ∨ j = i2) as [-> | [-> | ->]] by set_solver; by lookups.
  - intros j Hj. by lookups.
Qed.
