(* ===== verification/VirtioThms.v ===== *)
(** * kernel/virtio_disk.c: properties

    The invariant is kept by every step of the driver and the device; it gives
    that requests transfer what they should and that the driver panics only
    when the device reports a failed request.
    virtio_disk_init() with a device it accepts makes its first state. *)

From stdpp Require Import base functions gmap sets strings numbers list.
From coqutil Require Import Byte.
From S2P Require Import Prelude Mem Str Riscv Spinlock Kalloc Block Ring Virtio VirtioInv.

(** ** Consequences of the invariant *)

Lemma vinv_woke s v' : only_woke (sv s) v' → vinv s → vinv (set_sv v' s).
Proof.
  destruct s as [[] ? ? ? ? ? ?], v'. unfold only_woke. simpl. intros (-> & -> & -> & ->) []. by split.
Qed.

Section facts.
Context (s : vsys) (Hi : vinv s).

Lemma chain_in b w i0 v j : threads s !! b = Some (TWait w i0 v) → j ∈ chain (vd (sv s)) i0 → (j < NUM)%nat ∧ dfree (vd (sv s)) !!! j = false.
Proof.
  intros Hb Hj. pose proof (vi_chain s Hi _ _ _ _ Hb) as Hc. destruct (chain_of _ _ _ _ _ _ _ Hc) as (E1 & E2 & E). pose proof (ch_range _ _ _ _ _ _ _ Hc) as Hr.
  assert (Hlt : (j < NUM)%nat) by (rewrite E in Hj; rewrite Forall_forall in Hr; by apply Hr).
  split; [done|]. apply not_true_is_false. intros Ht. apply (vi_free s Hi j Hlt) in Ht. apply Ht. by exists b, w, i0, v.
Qed.

Lemma queue_in h : h ∈ queue s → (h < NUM)%nat ∧ dfree (vd (sv s)) !!! h = false.
Proof. intros (b & w & v & Hb & _)%(vi_queue s Hi). apply (chain_in b w h v); [done|]. unfold chain. set_solver. Qed.

(** There is room in the rings for a chain that is not in the queue. *)
Lemma queue_room i : (i < NUM)%nat → i ∉ queue s → (length (queue s) < NUM)%nat.
Proof.
  intros Hr Hn. pose proof (nodup_below NUM (i :: queue s)) as H. simpl in H. apply H.
  - apply NoDup_cons. split; [done|apply Hi].
  - rewrite Forall_cons, Forall_forall. split; [done|]. intros x Hx. by apply queue_in.
Qed.

Lemma avail_win_length : length (avail_win s) = Z.to_nat (ring_len (2 ^ 16) (dev_avail s) (avail_idx (vd (sv s)))).
Proof. apply ring_bytes_length. Qed.
Lemma used_win_length : length (used_win s) = Z.to_nat (ring_len (2 ^ 16) (used_idx (vd (sv s))) (used_dev_idx (vd (sv s)))).
Proof. apply ring_bytes_length. Qed.
End facts.

(** A process that waits for descriptors. *)
Lemma vinv_tdesc s b w v : vinv s → (∀ w' i0 v', threads s !! b ≠ Some (TWait w' i0 v')) → 0 ≤ vblockno (sv s) b < 2 ^ 31 →
  (∀ b', is_Some (threads s !! b') → b' ≠ b → vblockno (sv s) b' ≠ vblockno (sv s) b) → content s b w = v →
  vinv (set_threads (<[b := TDesc w v]> (threads s)) s).
Proof.
  intros Hi Hno Hr Hd Hc.
  assert (HT : ∀ b' w' i0 v', <[b := TDesc w v]> (threads s) !! b' = Some (TWait w' i0 v') ↔ threads s !! b' = Some (TWait w' i0 v')).
  { intros b' w' i0 v'. destruct (decide (b' = b)) as [->|]; [|by rewrite lookup_insert_ne]. rewrite lookup_insert_eq. split; [done|]. intros H. by apply Hno in H. }
  assert (HS : ∀ b', is_Some (<[b := TDesc w v]> (threads s) !! b') → b' = b ∨ is_Some (threads s !! b')).
  { intros b'. destruct (decide (b' = b)) as [->|]; [by left|]. rewrite lookup_insert_ne by done. by right. }
  split; cbn [set_threads sv sdisk dev_avail dev_pend threads in_intr dev_report]; try (destruct Hi; done).
  - intros b' w' i0 v' H. apply HT in H. by apply ((vi_chain s Hi) b' w' i0 v').
  - intros b1 b2 w1 w2 j1 j2 v1 v2 j H1 H2. apply HT in H1, H2. by eapply (vi_disjoint s Hi).
  - intros j Hj. rewrite (vi_free s Hi) by done. by setoid_rewrite HT.
  - intros h. rewrite ((vi_queue s Hi) h). by setoid_rewrite HT.
  - intros b' Hb'. destruct ((vi_busy s Hi) b' Hb') as (w' & i0 & v' & H). exists w', i0, v'. by apply HT.
  - intros b' H. destruct (HS b' H) as [->|]; [done|by apply (vi_range s Hi)].
  - intros b1 b2 H1 H2 E. destruct (HS b1 H1) as [->|S1], (HS b2 H2) as [->|S2]; [done| | |by apply (vi_blocks s Hi)].
    + destruct (decide (b2 = b)); [done|]. by destruct (Hd b2 S2).
    + destruct (decide (b1 = b)); [done|]. by destruct (Hd b1 S1).
  - intros b' t. destruct (decide (b' = b)) as [->|]; [|rewrite lookup_insert_ne by done; apply (vi_keep s Hi)]. rewrite lookup_insert_eq. by intros [= <-].
  - intros b' w' i0 v' H. apply HT in H. by apply ((vi_done s Hi) b' w' i0 v').
Qed.

(** A request is published. *)
Section submit.
Context (s : vsys) (b : nat) (w : bool) (v : block) (i0 i1 i2 : nat) (v' : vstate).
Context (Hi : vinv s) (Hno : ∀ w' i0 v', threads s !! b ≠ Some (TWait w' i0 v')).
Context (Hnd : NoDup [i0; i1; i2]) (Hrg : Forall (λ i, i < NUM)%nat [i0; i1; i2]) (Hfr : ∀ j, j ∈ [i0; i1; i2] → dfree (vd (sv s)) !!! j = true).
Context (Evd : vd v' = submitted b w (vblockno (sv s) b) i0 i1 i2 (vd (sv s))).

Let d := vd (sv s).
Let d' := vd v'.

Lemma submit_old b' w' j0 u : threads s !! b' = Some (TWait w' j0 u) →
  chain d' j0 = chain d j0 ∧ (∀ j, j ∈ chain d j0 → j ∉ [i0; i1; i2]) ∧
  chain_ok d' b' (vblockno (sv s) b') w' j0 (nxt d' j0) (nxt d' (nxt d' j0)).
Proof.
  intros Hb'. assert (Hout : ∀ j, j ∈ chain d j0 → j ∉ [i0; i1; i2]).
  { intros j Hj Hin. apply (chain_in s Hi b' w' j0 u) in Hj as [_ Hj]; [|done]. by rewrite (Hfr j Hin) in Hj. }
  pose proof (vi_chain s Hi _ _ _ _ Hb') as Hc. destruct (chain_of _ _ _ _ _ _ _ Hc) as (E1 & E2 & E).
  destruct (submitted_facts b w (vblockno (sv s) b) i0 i1 i2 d (vi_lens s Hi) Hnd Hrg) as (_ & _ & Hd & _ & Ho & _).
  unfold d'. rewrite Evd. fold d. fold d in E, Hc, E1, E2. assert (Hj0 : j0 ≠ i0).
  { intros ->. apply (Hout i0); [rewrite E|]; set_solver. }
  destruct (chain_frame d (submitted b w (vblockno (sv s) b) i0 i1 i2 d) _ _ _ _ _ _ Hc) as (Hc' & Ech & En0 & En1).
  - intros j Hj. apply Hd, Hout. by rewrite E.
  - apply (Ho j0 Hj0).
  - apply (Ho j0 Hj0).
  - split; [done|]. split; [done|]. rewrite En0 in En1. by rewrite En0, En1.
Qed.

Lemma submit_head : i0 ∉ queue s.
Proof. intros H. apply (queue_in s Hi) in H as [_ H]. rewrite Hfr in H; [done|]. set_solver. Qed.

Lemma submit_avail : let s' := set_threads (<[b := TWait w i0 v]> (threads s)) (set_sv v' s) in
  avail_win s' = avail_win s ++ [i0] ∧ used_win s' = used_win s ∧
  ring_len (2 ^ 16) (dev_avail s) (avail_idx d') ≤ 8 ∧ 0 ≤ avail_idx d' < 2 ^ 16.
Proof.
  destruct (submitted_facts b w (vblockno (sv s) b) i0 i1 i2 d (vi_lens s Hi) Hnd Hrg) as (_ & _ & _ & _ & _ & Ear & Eai & Eur & Eui & Eud & _).
  destruct used_ring_facts as (? & ? & ?). pose proof (vi_idx s Hi) as (? & Ha & _).
  assert (Hlt : ring_len (2 ^ 16) (dev_avail s) (avail_idx d) < 8).
  { pose proof (queue_room s Hi i0) as Hq. unfold queue in Hq. rewrite !length_app, avail_win_length in Hq. unfold NUM in Hq.
    specialize (Hq ltac:(destruct (range3 _ _ _ Hrg); unfold NUM in *; lia) submit_head). fold d in Hq. lia. }
  cbn zeta. unfold avail_win, used_win. cbn [set_threads set_sv sv dev_avail]. unfold d' in *. rewrite Evd. fold d. rewrite Ear, Eai, Eur, Eui, Eud.
  split_and!; [apply ring_put; try done; apply (lo_avail _ (vi_lens s Hi))|done|rewrite (ring_len_succ_r _ 8) by done; lia|apply Z.mod_pos_bound; lia|apply Z.mod_pos_bound; lia].
Qed.

Context (Ebusy : vbusy v' = <[b := true]> (vbusy (sv s))) (Edata : vdata v' = vdata (sv s)) (Ebn : vblockno v' = vblockno (sv s)).
Context (Hrange : 0 ≤ vblockno (sv s) b < 2 ^ 31) (Hc : content s b w = v).
Context (Hdist : ∀ b', is_Some (threads s !! b') → b' ≠ b → vblockno (sv s) b' ≠ vblockno (sv s) b).

Lemma submit_thread b' t : <[b := TWait w i0 v]> (threads s) !! b' = Some t → (b' = b ∧ t = TWait w i0 v) ∨ (b' ≠ b ∧ threads s !! b' = Some t).
Proof. intros [[-> <-]|[? ?]]%lookup_insert_Some; auto. Qed.

Lemma vinv_submit : vinv (set_threads (<[b := TWait w i0 v]> (threads s)) (set_sv v' s)).
Proof.
  destruct (submitted_facts b w (vblockno (sv s) b) i0 i1 i2 d (vi_lens s Hi) Hnd Hrg) as (Hl & Hck & Hd & Hdf & Ho & _ & _ & _ & Eui & Eud & Elk).
  destruct submit_avail as (Eaw & Euw & Hw8 & Hai). pose proof Evd as Ev. fold d in Ev. rewrite <- Ev in Hl, Hck, Hd, Hdf, Ho, Eui, Eud, Elk.
  unfold d in Eui, Eud, Elk.
  destruct (chain_of _ _ _ _ _ _ _ Hck) as (En0 & En1 & Ech). set (s' := set_threads _ _) in *.
  assert (Hq : ∀ h, h ∈ queue s' ↔ h = i0 ∨ h ∈ queue s) by (intros h; unfold queue; rewrite Eaw, Euw; cbn [s' set_threads set_sv dev_pend]; set_solver).
  assert (Hb0 : vbusy (sv s) b = false).
  { destruct (vbusy (sv s) b) eqn:E; [|done]. apply (vi_busy s Hi) in E as (? & ? & ? & H). by apply Hno in H. }
  assert (Hbusy : ∀ b', b' ≠ b → vbusy v' b' = vbusy (sv s) b') by (intros; rewrite Ebusy; by apply fn_lookup_insert_ne).
  assert (Hbb : vbusy v' b = true) by (rewrite Ebusy; apply fn_lookup_insert).
  split; cbn [s' set_threads set_sv sv sdisk dev_avail dev_pend threads in_intr dev_report].
  - done.
  - pose proof (vi_idx s Hi) as (? & ? & ? & ?). rewrite Eui, Eud. done.
  - rewrite Eui, Eud. split; [done|apply (vi_win s Hi)].
  - rewrite Elk. apply Hi.
  - intros b' w' j0 u [[-> [= -> -> ->]]|[_ Hb']]%submit_thread; [by rewrite Ebn, En0, En1|].
    rewrite Ebn. by destruct (submit_old b' w' j0 u Hb') as (_ & _ & ?).
  - intros b1 b2 w1 w2 j1 j2 u1 u2 j [[-> [= -> -> ->]]|[_ H1]]%submit_thread [[-> [= -> -> ->]]|[_ H2]]%submit_thread Hj1 Hj2; [done| | |].
    + destruct (submit_old _ _ _ _ H2) as (E & Hout & _). fold d' in Hj2. rewrite E in Hj2. destruct (Hout j Hj2). by rewrite <- Ech.
    + destruct (submit_old _ _ _ _ H1) as (E & Hout & _). fold d' in Hj1. rewrite E in Hj1. destruct (Hout j Hj1). by rewrite <- Ech.
    + destruct (submit_old _ _ _ _ H1) as (E1 & _ & _). destruct (submit_old _ _ _ _ H2) as (E2 & _ & _). fold d' in Hj1, Hj2. rewrite E1 in Hj1. rewrite E2 in Hj2.
      by eapply (vi_disjoint s Hi).
  - intros j Hj. destruct (decide (j ∈ [i0; i1; i2])) as [Hin|Hout].
    + rewrite (Hdf j Hin). split; [done|]. intros H. destruct H. exists b, w, i0, v. rewrite lookup_insert_eq. by rewrite Ech.
    + rewrite (proj2 (Hd j Hout)). unfold d. rewrite (vi_free s Hi j Hj). split; intros Hn (b' & w' & j0 & u & Hb' & Hjc); apply Hn; clear Hn.
      * apply submit_thread in Hb' as [[-> [= -> -> ->]]|[_ Hb']]; [by rewrite Ech in Hjc|]. exists b', w', j0, u. split; [done|].
        destruct (submit_old _ _ _ _ Hb') as (E & _). fold d' in Hjc. by rewrite E in Hjc.
      * exists b', w', j0, u. destruct (submit_old _ _ _ _ Hb') as (E & _). fold d'. rewrite E. split; [|done].
        rewrite lookup_insert_ne; [done|]. intros ->. by apply Hno in Hb'.
  - intros j Hj Hf. destruct (decide (j ∈ [i0; i1; i2])) as [Hin|Hout]; [by rewrite (Hdf j Hin) in Hf|].
    rewrite (proj1 (Hd j Hout)). apply (vi_free_zero s Hi j Hj). fold d. by rewrite <- (proj2 (Hd j Hout)).
  - assert (Hp : queue s' ≡ₚ i0 :: queue s) by (unfold queue; rewrite Eaw, Euw; cbn [s' set_threads set_sv dev_pend]; rewrite <- app_assoc; cbn [app]; symmetry; apply Permutation_middle).
    rewrite Hp. apply NoDup_cons. split; [apply submit_head|apply Hi].
  - intros h. rewrite Hq, (vi_queue s Hi h). split.
    + intros [->|(b' & w' & u & Hb' & Hbz)]; [exists b, w, v; by rewrite lookup_insert_eq|].
      assert (b' ≠ b) by (intros ->; by apply Hno in Hb'). exists b', w', u. by rewrite lookup_insert_ne, Hbusy.
    + intros (b' & w' & u & [[-> [= -> -> ->]]|[Hne Hb']]%submit_thread & Hbz); [by left|right]. exists b', w', u. by rewrite <- (Hbusy b' Hne).
  - intros b' Hbz. destruct (decide (b' = b)) as [->|Hne]; [exists w, i0, v; by rewrite lookup_insert_eq|].
    rewrite (Hbusy b' Hne) in Hbz. destruct (vi_busy s Hi b' Hbz) as (w' & j0 & u & H). exists w', j0, u. by rewrite lookup_insert_ne.
  - intros b' [t [[-> _]|[_ Ht]]%submit_thread]; rewrite Ebn; [done|]. apply (vi_range s Hi). by exists t.
  - rewrite Ebn. intros b1 b2 [t1 [[-> _]|[N1 H1]]%submit_thread] [t2 [[-> _]|[N2 H2]]%submit_thread] E; [done| | |].
    + by destruct (Hdist b2 (mk_is_Some _ _ H2) N2).
    + by destruct (Hdist b1 (mk_is_Some _ _ H1) N1).
    + apply (vi_blocks s Hi); by eauto.
  - intros b' t Ht. assert (Hcc : ∀ x, content s' b' x = content s b' x) by (intros; unfold content; cbn [s' set_threads set_sv sv sdisk]; by rewrite Edata, Ebn).
    apply submit_thread in Ht as [[-> ->]|[_ Ht]]; [by rewrite Hcc|]. pose proof (vi_keep s Hi b' t Ht) as H. destruct t; by rewrite Hcc.
  - rewrite Euw. intros h Hh. assert (h ≠ i0) by (intros ->; apply submit_head; unfold queue; set_solver). rewrite (proj2 (proj2 (Ho h ltac:(done)))). by apply Hi.
  - rewrite Euw, Edata, Ebn. intros b' w' j0 u [[-> [= -> -> ->]]|[Hne Hb']]%submit_thread.
    + rewrite Hbb. intros [[H _]|H]; [|done]. destruct submit_head. unfold queue. set_solver.
    + rewrite (Hbusy b' Hne). by apply (vi_done s Hi b' w' j0 u).
Qed.
End submit.

(** Two processes do not share a chain. *)
Lemma same_head s b b' w w' h v v' : vinv s → threads s !! b = Some (TWait w h v) → threads s !! b' = Some (TWait w' h v') → b = b'.
Proof. intros Hi H H'. eapply (vi_disjoint s Hi _ _ _ _ _ _ _ _ h H H'); unfold chain; set_solver. Qed.

(** A request is complete and its descriptors are freed. *)
Section finish.
Context (s : vsys) (b : nat) (w : bool) (v : block) (i0 : nat) (v' : vstate).
Context (Hi : vinv s) (Hb : threads s !! b = Some (TWait w i0 v)) (Hidle : vbusy (sv s) b = false).

Let d := vd (sv s).
Let i1 := nxt d i0.
Let i2 := nxt d i1.
Context (Evd : vd v' = finished i0 i1 i2 d).
Context (Ebusy : vbusy v' = vbusy (sv s)) (Edata : vdata v' = vdata (sv s)) (Ebn : vblockno v' = vblockno (sv s)).

Lemma finish_old b' w' j0 u : b' ≠ b → threads s !! b' = Some (TWait w' j0 u) →
  chain (vd v') j0 = chain d j0 ∧ (∀ j, j ∈ chain d j0 → j ∉ [i0; i1; i2]) ∧
  chain_ok (vd v') b' (vblockno (sv s) b') w' j0 (nxt (vd v') j0) (nxt (vd v') (nxt (vd v') j0)).
Proof.
  intros Hne Hb'. pose proof (vi_chain s Hi _ _ _ _ Hb) as Hcb. fold d i1 i2 in Hcb.
  assert (Hout : ∀ j, j ∈ chain d j0 → j ∉ [i0; i1; i2]) by (intros j Hj Hin; apply Hne; by eapply (vi_disjoint s Hi)).
  pose proof (vi_chain s Hi _ _ _ _ Hb') as Hc. destruct (chain_of _ _ _ _ _ _ _ Hc) as (E1 & E2 & E). fold d in E, Hc, E1, E2.
  destruct (finished_facts i0 i1 i2 d (vi_lens s Hi) (ch_distinct _ _ _ _ _ _ _ Hcb) (ch_range _ _ _ _ _ _ _ Hcb)) as (_ & Hd & _ & Hib & Ho & _).
  rewrite Evd. assert (Hj0 : j0 ≠ i0) by (intros ->; apply (Hout i0); [rewrite E|]; set_solver).
  destruct (chain_frame d (finished i0 i1 i2 d) _ _ _ _ _ _ Hc) as (Hc' & Ech & En0 & En1).
  - intros j Hj. apply Hd, Hout. by rewrite E.
  - by rewrite Ho.
  - by apply Hib.
  - split; [done|]. split; [done|]. rewrite En0 in En1. by rewrite En0, En1.
Qed.

Lemma finish_thread b' t : delete b (threads s) !! b' = Some t → b' ≠ b ∧ threads s !! b' = Some t.
Proof. intros [? ?]%lookup_delete_Some; auto. Qed.

Lemma finish_keeps b' t : b' ≠ b → threads s !! b' = Some t → delete b (threads s) !! b' = Some t.
Proof. intros. by rewrite lookup_delete_ne. Qed.

Lemma vinv_finish : vinv (set_threads (delete b (threads s)) (set_sv v' s)).
Proof.
  pose proof (vi_chain s Hi _ _ _ _ Hb) as Hcb. fold d i1 i2 in Hcb. destruct (chain_of _ _ _ _ _ _ _ Hcb) as (_ & _ & Ech).
  destruct (finished_facts i0 i1 i2 d (vi_lens s Hi) (ch_distinct _ _ _ _ _ _ _ Hcb) (ch_range _ _ _ _ _ _ _ Hcb)) as (Hl & Hd & Hfd & Hib & Ho & Hst & Ear & Eai & Eur & Eui & Eud & Elk).
  rewrite <- Evd in Hl, Hd, Hfd, Hib, Ho, Hst, Ear, Eai, Eur, Eui, Eud, Elk. unfold d in Hst, Ear, Eai, Eur, Eui, Eud, Elk.
  set (s' := set_threads _ _). assert (Eaw : avail_win s' = avail_win s) by (unfold avail_win; cbn [s' set_threads set_sv sv dev_avail]; by rewrite Ear, Eai).
  assert (Euw : used_win s' = used_win s) by (unfold used_win; cbn [s' set_threads set_sv sv dev_avail]; by rewrite Eur, Eui, Eud).
  assert (Eq : queue s' = queue s) by (unfold queue; by rewrite Eaw, Euw).
  split; cbn [s' set_threads set_sv sv sdisk dev_avail dev_pend threads in_intr dev_report].
  - done.
  - rewrite Eai, Eui, Eud. apply Hi.
  - rewrite Eai, Eui, Eud. apply Hi.
  - rewrite Elk. apply Hi.
  - intros b' w' j0 u [Hne Hb']%finish_thread. rewrite Ebn. by destruct (finish_old b' w' j0 u Hne Hb') as (_ & _ & ?).
  - intros b1 b2 w1 w2 j1 j2 u1 u2 j [N1 H1]%finish_thread [N2 H2]%finish_thread Hj1 Hj2.
    rewrite (proj1 (finish_old _ _ _ _ N1 H1)) in Hj1. rewrite (proj1 (finish_old _ _ _ _ N2 H2)) in Hj2. by eapply (vi_disjoint s Hi).
  - intros j Hj. destruct (decide (j ∈ [i0; i1; i2])) as [Hin|Hout].
    + rewrite (proj2 (Hfd j Hin)). split; [|done]. intros _ (b' & w' & j0 & u & [Hne Hb']%finish_thread & Hjc).
      destruct (finish_old _ _ _ _ Hne Hb') as (E & Hno & _). rewrite E in Hjc. by apply (Hno j).
    + rewrite (proj2 (Hd j Hout)). unfold d. rewrite (vi_free s Hi j Hj). split; intros Hn (b' & w' & j0 & u & Hb' & Hjc); apply Hn; clear Hn.
      * apply finish_thread in Hb' as [Hne Hb']. exists b', w', j0, u. split; [done|]. by rewrite (proj1 (finish_old _ _ _ _ Hne Hb')) in Hjc.
      * assert (Hne : b' ≠ b).
        { intros ->. rewrite Hb in Hb'. injection Hb' as <- <- <-. fold d in Hjc. by rewrite Ech in Hjc. }
        exists b', w', j0, u. rewrite (proj1 (finish_old _ _ _ _ Hne Hb')). split; [by apply finish_keeps|done].
  - intros j Hj Hf. destruct (decide (j ∈ [i0; i1; i2])) as [Hin|Hout]; [by apply Hfd|].
    rewrite (proj1 (Hd j Hout)). apply (vi_free_zero s Hi j Hj). fold d. by rewrite <- (proj2 (Hd j Hout)).
  - rewrite Eq. apply Hi.
  - intros h. rewrite Eq, (vi_queue s Hi h), Ebusy. split.
    + intros (b' & w' & u & Hb' & Hbz). exists b', w', u. split; [|done]. apply finish_keeps; [|done]. intros ->. by rewrite Hidle in Hbz.
    + intros (b' & w' & u & [_ Hb']%finish_thread & Hbz). by exists b', w', u.
  - rewrite Ebusy. intros b' Hbz. destruct (vi_busy s Hi b' Hbz) as (w' & j0 & u & H). exists w', j0, u. apply finish_keeps; [|done]. intros ->. by rewrite Hidle in Hbz.
  - rewrite Ebn. intros b' [t [_ Ht]%finish_thread]. apply (vi_range s Hi). by exists t.
  - rewrite Ebn. intros b1 b2 [t1 [_ H1]%finish_thread] [t2 [_ H2]%finish_thread]. apply (vi_blocks s Hi); by eauto.
  - intros b' t [_ Ht]%finish_thread. assert (Hcc : ∀ x, content s' b' x = content s b' x) by (intros; unfold content; cbn [s' set_threads set_sv sv sdisk]; by rewrite Edata, Ebn).
    pose proof (vi_keep s Hi b' t Ht) as H. destruct t; by rewrite Hcc.
  - rewrite Euw, Hst. apply Hi.
  - rewrite Euw, Edata, Ebn, Ebusy. intros b' w' j0 u [_ Hb']%finish_thread. by apply (vi_done s Hi b' w' j0 u).
Qed.
End finish.

(** A step that keeps the descriptors and the threads. *)
Record same_chains (s s' : vsys) : Prop := {
  sc_desc : desc (vd (sv s')) = desc (vd (sv s)); sc_ops : ops (vd (sv s')) = ops (vd (sv s)); sc_info : info_b (vd (sv s')) = info_b (vd (sv s));
  sc_free : dfree (vd (sv s')) = dfree (vd (sv s)); sc_bn : vblockno (sv s') = vblockno (sv s); sc_threads : threads s' = threads s
}.

Lemma same_chain s s' i : same_chains s s' → chain (vd (sv s')) i = chain (vd (sv s)) i ∧ ∀ j, nxt (vd (sv s')) j = nxt (vd (sv s)) j.
Proof. intros H. unfold chain, nxt. by rewrite (sc_desc _ _ H). Qed.

Lemma vinv_same s s' : vinv s → same_chains s s' → lens_ok (vd (sv s')) →
  0 ≤ dev_avail s' < 2 ^ 16 ∧ 0 ≤ avail_idx (vd (sv s')) < 2 ^ 16 ∧ 0 ≤ used_idx (vd (sv s')) < 2 ^ 16 ∧ 0 ≤ used_dev_idx (vd (sv s')) < 2 ^ 16 →
  ring_len (2 ^ 16) (dev_avail s') (avail_idx (vd (sv s'))) ≤ 8 ∧ ring_len (2 ^ 16) (used_idx (vd (sv s'))) (used_dev_idx (vd (sv s'))) ≤ 8 →
  vdisk_lock (vd (sv s')) = in_intr s' → NoDup (queue s') →
  (∀ h, h ∈ queue s' ↔ ∃ b w v, threads s !! b = Some (TWait w h v) ∧ vbusy (sv s') b = true) →
  (∀ b, vbusy (sv s') b = true → ∃ w i0 v, threads s !! b = Some (TWait w i0 v)) →
  (∀ b t, threads s !! b = Some t → match t with TDesc w v | TWait w _ v => content s' b w = v end) →
  (∀ h, h ∈ used_win s' → info_status (vd (sv s')) !!! h = dev_report s' h) →
  (∀ b w i0 v, threads s !! b = Some (TWait w i0 v) → (i0 ∈ used_win s' ∧ dev_report s' i0 = 0) ∨ vbusy (sv s') b = false → vdata (sv s') b = v ∧ sdisk s' (vblockno (sv s) b) = v) →
  vinv s'.
Proof.
  intros Hi Hsc Hl Hx Hw Hlk Hnd Hq Hbz Hk Hst Hdn. split; try done; rewrite ?(sc_threads _ _ Hsc), ?(sc_free _ _ Hsc), ?(sc_bn _ _ Hsc), ?(sc_desc _ _ Hsc); try done; try apply Hi.
  - intros b w i0 v Hb. pose proof (vi_chain s Hi b w i0 v Hb) as Hc.
    destruct (same_chain s s' i0 Hsc) as [_ Hn]. rewrite !Hn.
    eapply chain_frame; [done|by rewrite (sc_desc _ _ Hsc)|by rewrite (sc_ops _ _ Hsc)|by rewrite (sc_info _ _ Hsc)].
  - intros b b' w w' i0 i0' v v' j. rewrite !(proj1 (same_chain s s' _ Hsc)). apply Hi.
  - intros j Hj. rewrite (vi_free s Hi j Hj). by setoid_rewrite (proj1 (same_chain s s' _ Hsc)).
Qed.

Lemma vinv_lock s v' k : vinv s → vd v' = set_vdisk_lock k (vd (sv s)) → vbusy v' = vbusy (sv s) → vdata v' = vdata (sv s) → vblockno v' = vblockno (sv s) →
  vinv (VSys v' (sdisk s) (dev_avail s) (dev_pend s) (threads s) k (dev_report s)).
Proof.
  intros Hi E1 E2 E3 E4. set (s' := VSys _ _ _ _ _ _ _). assert (Hq : queue s' = queue s ∧ used_win s' = used_win s) by (unfold queue, avail_win, used_win; cbn [s' sv dev_avail dev_pend]; by rewrite E1).
  destruct Hq as [Hq Hu]. apply (vinv_same s); rewrite ?Hq, ?Hu; cbn [s' sv sdisk dev_avail dev_pend threads in_intr dev_report]; rewrite ?E1, ?E2, ?E3, ?E4; try apply Hi; try done.
  - split; cbn [s' sv threads]; rewrite ?E1; done.
  - destruct (vi_lens s Hi). by split.
  - intros b t Hb. pose proof (vi_keep s Hi b t Hb) as H. unfold content in *. cbn [s' sv sdisk]. by rewrite E3, E4.
Qed.

(** The interrupt handler takes the next used entry if its status is 0. *)
Lemma intr_iter_run s : vinv s → used_idx (vd (sv s)) ≠ used_dev_idx (vd (sv s)) → ∃ id rest, used_win s = id :: rest ∧
  ((dev_report s id ≠ 0 ∧ intr_iter (sv s) = Panic "virtio_disk_intr status") ∨
  ∃ b w v v', dev_report s id = 0 ∧ threads s !! b = Some (TWait w id v) ∧
  intr_iter (sv s) = Ret true v' ∧ vd v' = set_used_idx ((used_idx (vd (sv s)) + 1) mod 2 ^ 16) (vd (sv s)) ∧
  vbusy v' = <[b := false]> (vbusy (sv s)) ∧ vdata v' = vdata (sv s) ∧ vblockno v' = vblockno (sv s) ∧ used_win (set_sv v' s) = rest).
Proof.
  intros Hi Hne. destruct used_ring_facts as (? & ? & ?). pose proof (vi_idx s Hi) as (_ & _ & Hu & Hd).
  pose proof (ring_len_range (2 ^ 16) 8 ltac:(done) ltac:(done) (used_idx (vd (sv s))) (used_dev_idx (vd (sv s)))) as Hlr.
  assert (Hpos : 0 < ring_len (2 ^ 16) (used_idx (vd (sv s))) (used_dev_idx (vd (sv s)))).
  { pose proof (ring_empty (2 ^ 16) _ _ Hu Hd) as E. rewrite (proj2 (Z.eqb_neq _ _) Hne) in E. symmetry in E. apply Z.eqb_neq in E. lia. }
  pose proof (ring_take (2 ^ 16) 8 ltac:(done) ltac:(done) ltac:(done) (used_ring (vd (sv s))) _ _ Hpos) as Ht. fold (used_win s) in Ht.
  set (id := used_ring (vd (sv s)) !!! _) in Ht. set (rest := ring_bytes _ _ _ _ _) in Ht.
  destruct (proj1 (vi_queue s Hi id)) as (b & w & v & Hb & Hbz); [unfold queue; rewrite Ht; set_solver|].
  pose proof (vi_chain s Hi _ _ _ _ Hb) as Hc. pose proof (ch_b _ _ _ _ _ _ _ Hc) as Hib.
  assert (Hst : info_status (vd (sv s)) !!! id = dev_report s id) by (apply (vi_status s Hi); rewrite Ht; set_solver).
  exists id, rest. split; [done|]. unfold intr_iter. rewrite bind_gets, (proj2 (Z.eqb_neq _ _) Hne). change (Z.of_nat NUM) with 8. fold id. rewrite Hst, Hib.
  destruct (Z.eqb_spec (dev_report s id) 0) as [E0|E0]; [right|by left].
  eexists b, w, v, _. split; [done|]. split; [done|]. split.
  { cbn [negb]. unfold vwakeup, updd. rewrite !bind_modify. done. }
  done.
Qed.

Lemma vinv_iter s v' : vinv s → intr_iter (sv s) = Ret true v' → vinv (set_sv v' s).
Proof.
  intros Hi E. assert (Hne : used_idx (vd (sv s)) ≠ used_dev_idx (vd (sv s))).
  { intros H. unfold intr_iter in E. rewrite bind_gets, H, Z.eqb_refl in E. done. }
  destruct (intr_iter_run s Hi Hne) as (id & rest & Hw & [[_ E1]|(b & w & v & v1 & H0 & Hb & E1 & Ed & Eb & Edt & Ebn & Hw')]); rewrite E in E1; [done|].
  injection E1 as <-. destruct used_ring_facts as (? & ? & ?). pose proof (vi_idx s Hi) as (Hx1 & Hx2 & Hu & Hd).
  assert (Hq : queue s ≡ₚ id :: queue (set_sv v' s)).
  { unfold queue. rewrite Hw, Hw'. unfold avail_win. cbn [set_sv sv dev_avail dev_pend]. rewrite Ed. cbn [set_used_idx avail_ring avail_idx].
    rewrite !app_assoc. symmetry. apply Permutation_middle. }
  pose proof (vi_nodup s Hi) as Hnd. rewrite Hq in Hnd. apply NoDup_cons in Hnd as [Hni Hnd].
  assert (Hbo : ∀ b', vbusy v' b' = true ↔ vbusy (sv s) b' = true ∧ b' ≠ b).
  { intros b'. rewrite Eb. destruct (decide (b' = b)) as [->|Hn]; [rewrite fn_lookup_insert; naive_solver|rewrite fn_lookup_insert_ne by done; naive_solver]. }
  apply (vinv_same s); cbn [set_sv sv sdisk dev_avail dev_pend threads in_intr dev_report]; rewrite ?Ed; cbn [set_used_idx avail_idx used_idx used_dev_idx vdisk_lock info_status].
  - done.
  - split; cbn [set_sv sv threads]; rewrite ?Ed; done.
  - destruct (vi_lens s Hi). by split.
  - split_and!; try lia; apply Z.mod_pos_bound; lia.
  - pose proof (vi_win s Hi) as [Hw1 Hw2]. split; [done|].
    pose proof (ring_len_range (2 ^ 16) 8 ltac:(done) ltac:(done) (used_idx (vd (sv s))) (used_dev_idx (vd (sv s)))).
    assert (0 < ring_len (2 ^ 16) (used_idx (vd (sv s))) (used_dev_idx (vd (sv s)))).
    { pose proof (used_win_length s) as Hwl. rewrite Hw in Hwl. simpl in Hwl. lia. }
    rewrite (ring_len_succ_l _ 8) by done. lia.
  - apply Hi.
  - done.
  - intros h. split.
    + intros Hh. destruct (proj1 (vi_queue s Hi h)) as (b' & w' & u & Hb' & Hbz); [rewrite Hq; apply elem_of_cons; by right|]. exists b', w', u. split; [done|].
      apply Hbo. split; [done|]. intros ->. rewrite Hb in Hb'. injection Hb' as <- <- <-. done.
    + intros (b' & w' & u & Hb' & [Hbz Hnb]%Hbo). assert (Hh : h ∈ queue s) by (apply (vi_queue s Hi); eauto). rewrite Hq in Hh.
      apply elem_of_cons in Hh as [->|Hh]; [|done]. destruct Hnb. by eapply (same_head s).
  - intros b' [Hbz _]%Hbo. by apply (vi_busy s Hi).
  - intros b' t Hb'. pose proof (vi_keep s Hi b' t Hb') as H'. unfold content in *. cbn [set_sv sv sdisk]. by rewrite Edt, Ebn.
  - rewrite Hw'. intros h Hh. apply (vi_status s Hi). rewrite Hw. apply elem_of_cons. by right.
  - rewrite Hw', Edt. intros b' w' j0 u Hb' Hor. apply (vi_done s Hi b' w' j0 u Hb'). destruct (decide (b' = b)) as [->|Hn].
    + left. rewrite Hb in Hb'. injection Hb' as <- <- <-. rewrite Hw. split; [apply elem_of_cons; by left|done].
    + destruct Hor as [[Hor H0']|Hor]; [left; rewrite Hw; split; [apply elem_of_cons; by right|done]|right]. rewrite Eb in Hor. by rewrite fn_lookup_insert_ne in Hor by done.
Qed.

(** Moving a chain from one part of the queue to the next. *)
Lemma perm_fetch (h : nat) A P U : A ++ (P ++ [h]) ++ U ≡ₚ (h :: A) ++ P ++ U.
Proof.
  rewrite <- (app_assoc P [h] U). etrans; [apply Permutation_app_head; symmetry; apply Permutation_middle|].
  symmetry. apply (Permutation_middle A (P ++ U) h).
Qed.

Lemma perm_serve (h : nat) A P Q U : A ++ (P ++ Q) ++ U ++ [h] ≡ₚ A ++ (P ++ h :: Q) ++ U.
Proof.
  apply Permutation_app_head. rewrite <- !app_assoc. apply Permutation_app_head. cbn [app].
  rewrite app_assoc. symmetry. apply Permutation_cons_append.
Qed.

Lemma vinv_fetch s : vinv s → dev_avail s ≠ avail_idx (vd (sv s)) →
  vinv (VSys (sv s) (sdisk s) (u16 (dev_avail s + 1)) (dev_pend s ++ [avail_ring (vd (sv s)) !!! Z.to_nat (dev_avail s mod Z.of_nat NUM)]) (threads s) (in_intr s) (dev_report s)).
Proof.
  intros Hi Hne. destruct used_ring_facts as (? & ? & ?). pose proof (vi_idx s Hi) as (Hx1 & Hx2 & Hu & Hd).
  pose proof (ring_len_range (2 ^ 16) 8 ltac:(done) ltac:(done) (dev_avail s) (avail_idx (vd (sv s)))) as Hlr.
  assert (Hpos : 0 < ring_len (2 ^ 16) (dev_avail s) (avail_idx (vd (sv s)))).
  { pose proof (ring_empty (2 ^ 16) _ _ Hx1 Hx2) as E. rewrite (proj2 (Z.eqb_neq _ _) Hne) in E. symmetry in E. apply Z.eqb_neq in E. lia. }
  pose proof (ring_take (2 ^ 16) 8 ltac:(done) ltac:(done) ltac:(done) (avail_ring (vd (sv s))) _ _ Hpos) as Ht. fold (avail_win s) in Ht.
  change (Z.of_nat NUM) with 8. set (h := avail_ring (vd (sv s)) !!! _) in *. set (s' := VSys _ _ _ _ _ _ _).
  assert (Hq : queue s' ≡ₚ queue s).
  { unfold queue at 2. rewrite Ht. unfold queue. cbn [s' dev_pend]. change (avail_win s') with (ring_bytes (2 ^ 16) 8 (avail_ring (vd (sv s))) ((dev_avail s + 1) mod 2 ^ 16) (avail_idx (vd (sv s)))).
    change (used_win s') with (used_win s). apply perm_fetch. }
  apply (vinv_same s); change (used_win s') with (used_win s); cbn [s' sv sdisk dev_avail dev_pend threads in_intr dev_report]; try apply Hi; try done.
  - split_and!; try lia; apply Z.mod_pos_bound; lia.
  - pose proof (vi_win s Hi) as [Hw1 Hw2]. split; [|done]. unfold u16. rewrite (ring_len_succ_l _ 8) by done. lia.
  - rewrite Hq. apply Hi.
  - intros k. rewrite Hq. apply Hi.
Qed.

(** The device finds the request of the process that waits for it, and does it. *)
Lemma dev_serve_run s st junk h : vinv s → h ∈ dev_pend s → ∃ b w v v' dk, threads s !! b = Some (TWait w h v) ∧ vbusy (sv s) b = true ∧
  dev_serve st junk h (sv s) (sdisk s) = Some (v', dk) ∧
  vd v' = set_used ((used_dev_idx (vd (sv s)) + 1) mod 2 ^ 16) (<[Z.to_nat (used_dev_idx (vd (sv s)) mod 8) := h]> (used_ring (vd (sv s))))
            (set_status (<[h := st]> (info_status (vd (sv s)))) (vd (sv s))) ∧
  vbusy v' = vbusy (sv s) ∧ vblockno v' = vblockno (sv s) ∧
  (∀ b', b' ≠ b → vdata v' b' = vdata (sv s) b') ∧ (∀ x, x ≠ vblockno (sv s) b → dk x = sdisk s x) ∧
  (if w then vdata v' b = v else dk (vblockno (sv s) b) = v) ∧ (st = 0 → vdata v' b = v ∧ dk (vblockno (sv s) b) = v).
Proof.
  intros Hi Hh. destruct (proj1 (vi_queue s Hi h)) as (b & w & v & Hb & Hbz); [unfold queue; set_solver|].
  pose proof (vi_chain s Hi _ _ _ _ Hb) as Hc. destruct (chain_of _ _ _ _ _ _ _ Hc) as (En0 & En1 & _).
  pose proof (vi_keep s Hi _ _ Hb) as Hk. cbn beta iota in Hk. destruct Hc as [_ _ E0 E1 E2 Eop _].
  unfold dev_serve. fold (nxt (vd (sv s)) h). fold (nxt (vd (sv s)) (nxt (vd (sv s)) h)). rewrite E0, E1, E2. cbn [d_addr d_flags d_len]. rewrite Eop. cbn [r_sector r_type].
  rewrite Z.div_mul by done. change ((1 =? 1) && (BSIZE =? BSIZE) && (2 =? 2)) with true. cbn iota. change (Z.of_nat NUM) with 8.
  destruct w; cbn [VIRTIO_BLK_T_OUT VIRTIO_BLK_T_IN Z.eqb Pos.eqb andb]; unfold content in Hk.
  - eexists b, true, v, _, _. split_and!; try done.
    + intros x Hx. by rewrite fn_lookup_insert_ne.
    + intros ->. by rewrite fn_lookup_insert.
  - eexists b, false, v, _, _. split_and!; try done; cbn [vdata].
    + intros x Hx. by rewrite fn_lookup_insert_ne.
    + intros ->. by rewrite fn_lookup_insert.
Qed.

Lemma vinv_serve s st junk l1 h l2 v' dk : vinv s → dev_pend s = l1 ++ h :: l2 → dev_serve st junk h (sv s) (sdisk s) = Some (v', dk) →
  vinv (VSys v' dk (dev_avail s) (l1 ++ l2) (threads s) (in_intr s) (<[h := st]> (dev_report s))).
Proof.
  intros Hi Hp E. assert (Hh : h ∈ dev_pend s) by (rewrite Hp; set_solver).
  destruct (dev_serve_run s st junk h Hi Hh) as (b & w & v & v1 & dk1 & Hb & Hbz & E1 & Ed & Eb & Ebn & Hdt & Hdk & Hkeep & Hdone).
  rewrite E in E1. injection E1 as <- <-. destruct used_ring_facts as (? & ? & ?). pose proof (vi_idx s Hi) as (Hx1 & Hx2 & Hu & Hd).
  set (s' := VSys _ _ _ _ _ _ _). assert (Hhw : h ∉ used_win s).
  { intros Hk. pose proof (vi_nodup s Hi) as Hnd. unfold queue in Hnd. rewrite Hp in Hnd.
    apply NoDup_app in Hnd as (_ & _ & Hnd). apply NoDup_app in Hnd as (_ & Hnd & _). apply (Hnd h); set_solver. }
  assert (Hlen : ring_len (2 ^ 16) (used_idx (vd (sv s))) (used_dev_idx (vd (sv s))) < 8).
  { pose proof (nodup_below NUM (queue s) (vi_nodup s Hi)) as Hq. unfold queue in Hq at 2. rewrite !length_app, Hp, length_app, used_win_length in Hq. simpl length in Hq.
    unfold NUM in Hq. specialize (Hq ltac:(rewrite Forall_forall; intros x Hx; apply (queue_in s Hi x Hx))). lia. }
  assert (Huw : used_win s' = used_win s ++ [h]).
  { unfold used_win. cbn [s' sv]. rewrite Ed. cbn [set_used set_status used_ring used_idx used_dev_idx].
    apply ring_put; try done. apply (lo_used _ (vi_lens s Hi)). }
  assert (Hq : queue s' ≡ₚ queue s).
  { unfold queue. rewrite Huw. unfold avail_win. cbn [s' sv dev_avail dev_pend]. rewrite Ed, Hp. cbn [set_used set_status avail_ring avail_idx].
    apply perm_serve. }
  apply (vinv_same s); rewrite ?Hq; cbn [s' sv sdisk dev_avail dev_pend threads in_intr dev_report]; rewrite ?Ed; cbn [set_used set_status avail_idx used_idx used_dev_idx vdisk_lock info_status]; try apply Hi; try done.
  - split; cbn [s' sv threads]; rewrite ?Ed; done.
  - destruct (vi_lens s Hi). split; cbn [set_used set_status desc avail_ring used_ring dfree info_b info_status ops]; by rewrite ?length_insert.
  - split_and!; try lia; apply Z.mod_pos_bound; lia.
  - pose proof (vi_win s Hi) as [Hw1 Hw2]. split; [done|]. rewrite (ring_len_succ_r _ 8) by done. lia.
  - intros k. rewrite Hq, Eb. apply Hi.
  - rewrite Eb. apply Hi.
  - intros b' t Hb'. pose proof (vi_keep s Hi b' t Hb') as Hk. destruct (decide (b' = b)) as [->|Hn].
    + rewrite Hb in Hb'. injection Hb' as <-. unfold content. cbn [s' sv sdisk]. rewrite Ebn. by destruct w.
    + assert (Hbn : vblockno (sv s) b' ≠ vblockno (sv s) b) by (intros Eq; apply Hn; apply (vi_blocks s Hi); eauto).
      unfold content in *. cbn [s' sv sdisk]. rewrite Ebn, (Hdt b' Hn), (Hdk _ Hbn). done.
  - rewrite Huw. intros k [Hk|Hk]%elem_of_app.
    + rewrite list_lookup_total_insert_ne, fn_lookup_insert_ne by (by intros ->; apply Hhw). by apply Hi.
    + apply list_elem_of_singleton in Hk as ->. rewrite fn_lookup_insert. apply list_lookup_total_insert_eq. rewrite (lo_status _ (vi_lens s Hi)). apply (queue_in s Hi). unfold queue. set_solver.
  - rewrite Huw, Eb. intros b' w' j0 u Hb' Hor. destruct (decide (b' = b)) as [->|Hn].
    + rewrite Hb in Hb'. injection Hb' as <- <- <-. destruct Hor as [[_ Hor]|Hor]; [|congruence]. rewrite fn_lookup_insert in Hor. by apply Hdone.
    + assert (Hbn : vblockno (sv s) b' ≠ vblockno (sv s) b) by (intros Eq; apply Hn; apply (vi_blocks s Hi); eauto).
      rewrite (Hdt b' Hn), (Hdk _ Hbn). apply (vi_done s Hi b' w' j0 u Hb'). destruct Hor as [[Hor Hz0]|Hor]; [|by right].
      apply elem_of_app in Hor as [Hor|Hor]; [left; rewrite fn_lookup_insert_ne in Hz0 by (by intros ->); done|]. apply list_elem_of_singleton in Hor as ->. destruct Hn. by eapply (same_head s).
Qed.

(** ** Steps *)

Lemma vinv_client s data bn : vinv s → (∀ b, is_Some (threads s !! b) → data b = vdata (sv s) b ∧ bn b = vblockno (sv s) b) →
  vinv (set_sv (VState (vd (sv s)) (vbusy (sv s)) data bn (vwoke (sv s)) (vregs (sv s))) s).
Proof.
  intros Hi Hc. set (s' := set_sv _ s). split; try (exact (vi_lens s Hi) || exact (vi_idx s Hi) || exact (vi_win s Hi) || exact (vi_lock s Hi) || exact (vi_disjoint s Hi) ||
    exact (vi_free s Hi) || exact (vi_free_zero s Hi) || exact (vi_nodup s Hi) || exact (vi_queue s Hi) || exact (vi_busy s Hi) || exact (vi_status s Hi));
    cbn [s' set_sv sv sdisk threads vdata vblockno vbusy vd].
  - intros b w i0 v Hb. rewrite (proj2 (Hc b (mk_is_Some _ _ Hb))). by apply (vi_chain s Hi b w i0 v).
  - intros b Hb. rewrite (proj2 (Hc b Hb)). by apply Hi.
  - intros b b' Hb Hb'. rewrite (proj2 (Hc b Hb)), (proj2 (Hc b' Hb')). by apply Hi.
  - intros b t Hb. pose proof (vi_keep s Hi b t Hb) as Hk. destruct (Hc b (mk_is_Some _ _ Hb)) as [E1 E2]. unfold content in *.
    cbn [s' set_sv sv sdisk vdata vblockno]. by rewrite E1, E2.
  - intros b w i0 v Hb. destruct (Hc b (mk_is_Some _ _ Hb)) as [E1 E2]. rewrite E1, E2. by apply (vi_done s Hi b w i0 v).
Qed.

Lemma rw_step s b w v r v' : vinv s → unlocked s → (∀ w' i0 u, threads s !! b ≠ Some (TWait w' i0 u)) → 0 ≤ vblockno (sv s) b < 2 ^ 31 →
  (∀ b', is_Some (threads s !! b') → b' ≠ b → vblockno (sv s) b' ≠ vblockno (sv s) b) → content s b w = v →
  virtio_disk_rw b w (sv s) = Ret r v' → vinv (set_threads (thread_after b w v r (threads s)) (set_sv v' s)).
Proof.
  intros Hi Hu Hno Hr Hd Hc E.
  destruct (rw_run b w (sv s) (vi_lens s Hi) (vi_free_zero s Hi) Hu Hr) as [(i0 & i1 & i2 & v1 & Hnd & Hrg & Hf & E1 & Evd & Eb & Edt & Ebn)|(v1 & E1 & How)];
    rewrite E in E1; injection E1 as -> ->; cbn [thread_after].
  - by apply (vinv_submit s b w v i0 i1 i2 v1).
  - apply (vinv_tdesc (set_sv v1 s)); cbn [set_sv sv threads]; try done.
    + by apply vinv_woke.
    + destruct How as (_ & _ & _ & ->). done.
    + destruct How as (_ & _ & _ & ->). done.
    + destruct How as (_ & _ & E3 & E4). unfold content in *. cbn [set_sv sv sdisk]. by rewrite E3, E4.
Qed.

(** virtio_disk_rw() when it wakes up. *)
Lemma wake_run s b w i0 v : vinv s → unlocked s → threads s !! b = Some (TWait w i0 v) → ∃ r v',
  virtio_disk_rw_wake b i0 (sv s) = Ret r v' ∧ vbusy v' = vbusy (sv s) ∧ vdata v' = vdata (sv s) ∧ vblockno v' = vblockno (sv s) ∧
  ((r = VSleep (ChanBuf b) (Some i0) ∧ vbusy (sv s) b = true ∧ vd v' = vd (sv s)) ∨
   (r = VDone ∧ vbusy (sv s) b = false ∧ vd v' = finished i0 (nxt (vd (sv s)) i0) (nxt (vd (sv s)) (nxt (vd (sv s)) i0)) (vd (sv s)))).
Proof.
  intros Hi Hu Hb. unfold virtio_disk_rw_wake. rewrite (bind_Ret _ _ _ _ _ (acquire_vd_run (sv s) Hu)). unfold wait_done. rewrite bind_gets. cbn [set_vd vbusy].
  destruct (vbusy (sv s) b) eqn:Hbz.
  - rewrite (bind_Ret _ _ _ _ _ (release_vd_run (set_vd (set_vdisk_lock true (vd (sv s))) (sv s)) eq_refl)). eexists _, _. split; [done|]. cbn [set_vd vd vbusy vdata vblockno].
    split_and!; try done. left. split_and!; try done. by apply relock.
  - unfold updd. rewrite bind_modify. set (s1 := set_vd (set_vdisk_lock true (vd (sv s))) (sv s)). pose proof (vi_chain s Hi _ _ _ _ Hb) as Hc.
    assert (Hc1 : chain_ok (vd s1) b (vblockno (sv s) b) w i0 (nxt (vd (sv s)) i0) (nxt (vd (sv s)) (nxt (vd (sv s)) i0))) by (destruct Hc; by split).
    destruct (free_chain_run b _ w i0 _ _ s1 Hc1) with (s1 := set_vd (set_info_b (<[i0 := None]> (info_b (vd s1))) (vd s1)) s1) as (s2 & E2 & Ed2 & Eb2 & Edt2 & Ebn2).
    { destruct (vi_lens s Hi). by split. }
    { intros j Hj. apply (chain_in s Hi b w i0 v j Hb). by rewrite (proj2 (proj2 (chain_of _ _ _ _ _ _ _ Hc))). }
    { done. }
    rewrite (bind_Ret _ _ _ _ _ E2). assert (Hlk : vdisk_lock (vd s2) = true) by (by rewrite Ed2). rewrite (bind_Ret _ _ _ _ _ (release_vd_run s2 Hlk)).
    eexists _, _. split; [done|]. cbn [set_vd vd vbusy vdata vblockno]. rewrite Eb2, Edt2, Ebn2. split_and!; try done. right. split_and!; try done.
    rewrite Ed2. unfold finished, freed1. destruct (vd (sv s)) eqn:Ed. unfold unlocked in Hu. rewrite Ed in Hu. cbn in Hu |- *. by rewrite Hu.
Qed.

Lemma vinv_step s s' : vstep s s' → vinv s → vinv s'.
Proof.
  intros [] Hi.
  - by apply vinv_client.
  - apply rw_step; try done; [by rewrite H|auto].
  - apply rw_step; try done; [by rewrite H|by apply Hi, (mk_is_Some _ _ H)| |by apply (vi_keep s0 Hi _ _ H)].
    intros b' Hb' Hne E. apply Hne. apply (vi_blocks s0 Hi); eauto.
  - destruct (wake_run s0 b w i0 v Hi H0 H) as (r1 & v1 & E & Eb & Edt & Ebn & Hr). rewrite E in H1. injection H1 as -> ->.
    destruct Hr as [(-> & Hbz & Ed)|(-> & Hbz & Ed)]; cbn [thread_after].
    + rewrite insert_id by done. replace (set_threads (threads s0) (set_sv v' s0)) with (set_sv v' s0) by (by destruct s0). by apply vinv_woke.
    + by apply (vinv_finish s0 b w v i0).
  - unfold intr_enter in H0. rewrite (bind_Ret _ _ _ _ _ (acquire_vd_run _ H)) in H0. injection H0 as <-. by apply vinv_lock.
  - by apply vinv_iter.
  - unfold intr_iter in H0. rewrite bind_gets in H0. destruct (used_idx _ =? _) eqn:E.
    + injection H0 as <-. assert (Hlk : vdisk_lock (vd (sv s0)) = true) by (by rewrite (vi_lock s0 Hi)). rewrite (release_vd_run _ Hlk) in H1. injection H1 as <-. by apply vinv_lock.
    + exfalso. destruct (negb _); [done|]. destruct (info_b _ !!! _); done.
  - by apply vinv_fetch.
  - by eapply vinv_serve.
Qed.

(** ** The driver after virtio_disk_init() *)

Definition disk_booted : vdisk :=
  VDisk (replicate NUM zero_desc) 0 (replicate NUM 0%nat) 0 (replicate NUM 0%nat) (replicate NUM true) 0 (replicate NUM None) (replicate NUM 0) (replicate NUM (BlkReq 0 0 0)) false.
Definition vboot (data : nat → block) (bn : nat → Z) (dk : Z → block) (regs : list (Z * Z)) : vsys :=
  VSys (VState disk_booted (λ _, false) data bn [] regs) dk 0 [] ∅ false (λ _, 0).
Definition vreach (s : vsys) : Prop := ∃ data bn dk regs, rtc vstep (vboot data bn dk regs) s.

Lemma vinv_boot data bn dk regs : vinv (vboot data bn dk regs).
Proof.
  split; try done.
  - intros j Hj. split; [|intros _; by do 8 (destruct j as [|j]; [done|]); unfold NUM in Hj; lia]. intros _ (b & w & i0 & v & H & _). done.
  - intros j Hj _. by do 8 (destruct j as [|j]; [done|]); unfold NUM in Hj; lia.
  - vm_compute. constructor.
  - intros h. split; [intros H; vm_compute in H; by apply elem_of_nil in H|]. intros (b & w & v & H & _). done.
  - intros b [t H]. done.
  - intros b b' [t H]. done.
  - intros h H. vm_compute in H. by apply elem_of_nil in H.
Qed.

Lemma vreach_inv s : vreach s → vinv s.
Proof.
  intros (data & bn & dk & regs & H). apply (rtc_ind_r vinv _ (vinv_boot data bn dk regs)) in H; [done|]. intros s1 s2 _ H1 H2. by eapply vinv_step.
Qed.

(** ** Properties *)

(** C8: The driver transfers the block, for any number of concurrent requests,
    any order in which the device serves them and any moment of the
    interrupts: when virtio_disk_rw() returns, the buffer and its disk block
    both hold what the request began with, the buffer's contents for a write
    and the block's for a read.  So a write has put the buffer on the disk,
    and a read the block into the buffer, as [DiskDriver] of the buffer cache
    asks. *)
Theorem virtio_rw_transfers s b w i0 v v' : vreach s → unlocked s → threads s !! b = Some (TWait w i0 v) →
  virtio_disk_rw_wake b i0 (sv s) = Ret VDone v' →
  vdata v' b = v ∧ sdisk s (vblockno v' b) = v ∧ ∀ b', vblockno v' b' = vblockno (sv s) b' ∧ vdata v' b' = vdata (sv s) b'.
Proof.
  intros Hr Hu Hb E. pose proof (vreach_inv s Hr) as Hi. destruct (wake_run s b w i0 v Hi Hu Hb) as (r & v1 & E1 & _ & Edt & Ebn & Hc).
  rewrite E in E1. injection E1 as <- <-. destruct Hc as [(? & _)|(_ & Hbz & _)]; [done|]. rewrite Edt, Ebn.
  destruct (vi_done s Hi b w i0 v Hb (or_intror Hbz)) as [H1 H2]. done.
Qed.

(** C35: After virtio_disk_init() the only panic of the driver that can be
    reached is "virtio_disk_intr status", and exactly when the device reports a
    failed request: whatever statuses the device reports and whenever it does,
    virtio_disk_rw() either publishes a request or sleeps for descriptors, a
    woken process returns or sleeps again, the interrupt handler handles the
    next used entry if the device reported status 0 for it, finding the
    buffer to wake, and panics otherwise; and every chain the device has
    fetched is one it can serve. *)
Theorem virtio_panics_on_status_only s : vreach s →
  (unlocked s → ∀ b w, 0 ≤ vblockno (sv s) b < 2 ^ 31 → ∃ r v', virtio_disk_rw b w (sv s) = Ret r v') ∧
  (unlocked s → ∀ b w i0 v, threads s !! b = Some (TWait w i0 v) → ∃ r v', virtio_disk_rw_wake b i0 (sv s) = Ret r v') ∧
  match used_win s with
  | [] => intr_iter (sv s) = Ret false (sv s)
  | id :: _ => if dev_report s id =? 0 then ∃ v', intr_iter (sv s) = Ret true v' else intr_iter (sv s) = Panic "virtio_disk_intr status"
  end ∧
  (∀ h st junk, h ∈ dev_pend s → is_Some (dev_serve st junk h (sv s) (sdisk s))).
Proof.
  intros Hi%vreach_inv. split_and!.
  - intros Hu b w Hr. destruct (rw_run b w (sv s) (vi_lens s Hi) (vi_free_zero s Hi) Hu Hr) as [(i0 & i1 & i2 & v' & _ & _ & _ & E & _)|(v' & E & _)]; eauto.
  - intros Hu b w i0 v Hb. destruct (wake_run s b w i0 v Hi Hu Hb) as (r & v' & E & _). eauto.
  - destruct (decide (used_idx (vd (sv s)) = used_dev_idx (vd (sv s)))) as [Heq|Hne].
    + assert (used_win s = []) as -> by (apply nil_length_inv; rewrite used_win_length, Heq; unfold ring_len; by rewrite Z.sub_diag).
      unfold intr_iter. by rewrite bind_gets, Heq, Z.eqb_refl.
    + destruct (intr_iter_run s Hi Hne) as (id & rest & -> & [[H E]|(b & w & v & v' & -> & _ & E & _)]); [|by exists v'].
      by rewrite (proj2 (Z.eqb_neq _ _) H).
  - intros h st junk Hh. destruct (dev_serve_run s st junk h Hi Hh) as (b & w & v & v' & dk & _ & _ & -> & _). eauto.
Qed.

(** Whether a descriptor is in use can be read off the table of requests. *)
Definition uses (d : vdisk) (j : nat) (t : vthread) : bool := match t with TDesc _ _ => false | TWait _ i0 _ => bool_decide (j ∈ chain d i0) end.

Lemma in_chain_dec s j : Decision (∃ b w i0 v, threads s !! b = Some (TWait w i0 v) ∧ j ∈ chain (vd (sv s)) i0).
Proof.
  destruct (decide (map_Exists (λ _ t, uses (vd (sv s)) j t = true) (threads s))) as [H|H]; [left|right].
  - destruct H as (b & t & Hb & Hu). destruct t as [|w i0 v]; [done|]. exists b, w, i0, v. split; [done|]. by apply bool_decide_eq_true in Hu.
  - intros (b & w & i0 & v & Hb & Hj). apply H. exists b, (TWait w i0 v). split; [done|]. by apply bool_decide_eq_true.
Defined.

(** No descriptor is lost or shared: the descriptors that are not free are
    exactly those of the requests under way, three different ones each, no two
    requests share one, and all are free when no request is under way. *)
Theorem virtio_descriptors_conserved s : vreach s →
  (∀ j, (j < NUM)%nat → dfree (vd (sv s)) !!! j = false ↔ ∃ b w i0 v, threads s !! b = Some (TWait w i0 v) ∧ j ∈ chain (vd (sv s)) i0) ∧
  (∀ b w i0 v, threads s !! b = Some (TWait w i0 v) → NoDup (chain (vd (sv s)) i0)) ∧
  (∀ b b' w w' i0 i0' v v', b ≠ b' → threads s !! b = Some (TWait w i0 v) → threads s !! b' = Some (TWait w' i0' v') → chain (vd (sv s)) i0 ## chain (vd (sv s)) i0') ∧
  (threads s = ∅ → dfree (vd (sv s)) = replicate NUM true).
Proof.
  intros Hi%vreach_inv. assert (Hin : ∀ j, (j < NUM)%nat → dfree (vd (sv s)) !!! j = false ↔ ∃ b w i0 v, threads s !! b = Some (TWait w i0 v) ∧ j ∈ chain (vd (sv s)) i0).
  { intros j Hj. split.
    - intros Hf. destruct (vi_free s Hi j Hj) as [_ H]. rewrite Hf in H. destruct (in_chain_dec s j) as [|Hn]; [done|]. by specialize (H Hn).
    - intros (b & w & i0 & v & Hb & Hj'). by apply (chain_in s Hi b w i0 v). }
  split_and!; [done| | |].
  - intros b w i0 v Hb. pose proof (vi_chain s Hi _ _ _ _ Hb) as Hc. rewrite (proj2 (proj2 (chain_of _ _ _ _ _ _ _ Hc))). apply Hc.
  - intros b b' w w' i0 i0' v v' Hne Hb Hb' j Hj Hj'. apply Hne. by eapply (vi_disjoint s Hi).
  - intros He. apply list_eq_same_length with NUM; [by rewrite length_replicate|apply (vi_lens s Hi)|].
    intros j x y Hj Hx Hy. rewrite lookup_replicate in Hy. destruct Hy as [-> _]. apply list_lookup_total_correct in Hx as <-.
    apply not_false_is_true. intros Hf. apply Hin in Hf as (b & w & i0 & v & Hb & _); [|done]. by rewrite He in Hb.
Qed.

(** ** Witnesses: a write request, from its start to its completion *)

Definition demo_vboot : vsys := vboot (λ _, [Byte.x61]) (λ _, 7) (λ _, []) [].

(** The device has served the request of buffer 0, and the interrupt handler
    has seen it. *)
Lemma demo_served : ∃ s, vreach s ∧ unlocked s ∧ threads s !! 0%nat = Some (TWait true 0 [Byte.x61]) ∧ ∃ v', virtio_disk_rw_wake 0 0 (sv s) = Ret VDone v'.
Proof.
  eexists. split; [|split; [|split]].
  - exists (λ _, [Byte.x61]), (λ _, 7), (λ _, []), [].
    eapply rtc_l; [apply (vs_rw demo_vboot 0 true); [done|done|by intros b' [t H]|done|vm_compute; reflexivity]|].
    eapply rtc_l; [apply vs_fetch; intros H; vm_compute in H; discriminate|].
    eapply rtc_l; [eapply (vs_serve _ 0 [] []); [done|vm_compute; reflexivity|vm_compute; reflexivity]|].
    eapply rtc_l; [eapply (vs_intr_enter _ 1); [vm_compute; reflexivity|vm_compute; reflexivity]|].
    eapply rtc_l; [eapply vs_intr_iter; [vm_compute; reflexivity|vm_compute; reflexivity]|].
    eapply rtc_l; [eapply vs_intr_leave; [vm_compute; reflexivity|vm_compute; reflexivity|vm_compute; reflexivity]|].
    apply rtc_refl.
  - vm_compute. reflexivity.
  - vm_compute. reflexivity.
  - eexists. vm_compute. reflexivity.
Qed.

Lemma virtio_rw_transfers_witness : ∃ s v', vreach s ∧ virtio_disk_rw_wake 0 0 (sv s) = Ret VDone v' ∧
  vdata v' 0 = [Byte.x61] ∧ sdisk s (vblockno v' 0) = [Byte.x61].
Proof.
  destruct demo_served as (s & Hr & Hu & Hb & v' & E). exists s, v'. split; [exact Hr|]. split; [exact E|].
  destruct (virtio_rw_transfers s 0 true 0 [Byte.x61] v' Hr Hu Hb E) as (H1 & H2 & _). split; [exact H1|exact H2].
Defined.

(** The device reports VIRTIO_BLK_S_IOERR for the same request. *)
Lemma demo_failed : ∃ s, vreach s ∧ in_intr s = true ∧ used_win s = [0%nat] ∧ dev_report s 0 = 1.
Proof.
  eexists. split; [|split; [|split]].
  - exists (λ _, [Byte.x61]), (λ _, 7), (λ _, []), [].
    eapply rtc_l; [apply (vs_rw demo_vboot 0 true); [done|done|by intros b' [t H]|done|vm_compute; reflexivity]|].
    eapply rtc_l; [apply vs_fetch; intros H; vm_compute in H; discriminate|].
    eapply rtc_l; [eapply (vs_serve _ 1 [] []); [done|vm_compute; reflexivity|vm_compute; reflexivity]|].
    eapply rtc_l; [eapply (vs_intr_enter _ 1); [vm_compute; reflexivity|vm_compute; reflexivity]|].
    apply rtc_refl.
  - vm_compute. reflexivity.
  - vm_compute. reflexivity.
  - vm_compute. reflexivity.
Qed.

Lemma virtio_panics_on_status_only_witness :
  (∃ s, vreach s ∧ unlocked s ∧ ∃ r v', virtio_disk_rw_wake 0 0 (sv s) = Ret r v') ∧
  ∃ s, vreach s ∧ in_intr s = true ∧ intr_iter (sv s) = Panic "virtio_disk_intr status".
Proof.
  split.
  - destruct demo_served as (s & Hr & Hu & Hb & _). exists s. split; [exact Hr|]. split; [exact Hu|].
    exact (proj1 (proj2 (virtio_panics_on_status_only s Hr)) Hu _ _ _ _ Hb).
  - destruct demo_failed as (s & Hr & Hin & Hw & Hd). exists s. split; [exact Hr|]. split; [exact Hin|].
    pose proof (proj1 (proj2 (proj2 (virtio_panics_on_status_only s Hr)))) as H. rewrite Hw, Hd in H. exact H.
Defined.

Lemma virtio_descriptors_conserved_witness : ∃ s, vreach s ∧ dfree (vd (sv s)) !!! 0%nat = false.
Proof.
  destruct demo_served as (s & Hr & _ & Hb & _). exists s. split; [exact Hr|].
  destruct (virtio_descriptors_conserved s Hr) as (H & _). apply (H 0%nat).
  - unfold NUM. lia.
  - exists 0%nat, true, 0%nat, [Byte.x61]. split; [exact Hb|]. apply elem_of_cons. left. reflexivity.
Defined.

(** ** kernel/virtio_disk.c: virtio_disk_init() *)

Section init.
Context {I : image} {PA : PageAllocator}.

(** A device that virtio_disk_init() accepts. *)
Definition good_device (mmio : nat → Z → Z) : Prop := ∀ k,
  u32 (mmio k VIRTIO_MMIO_MAGIC_VALUE) = 0x74726976 ∧ u32 (mmio k VIRTIO_MMIO_VERSION) = 2 ∧ u32 (mmio k VIRTIO_MMIO_DEVICE_ID) = 2 ∧
  u32 (mmio k VIRTIO_MMIO_VENDOR_ID) = 0x554d4551 ∧ Z.land (u32 (mmio k VIRTIO_MMIO_STATUS)) VIRTIO_CONFIG_S_FEATURES_OK ≠ 0 ∧
  u32 (mmio k VIRTIO_MMIO_QUEUE_READY) = 0 ∧ 8 ≤ u32 (mmio k VIRTIO_MMIO_QUEUE_NUM_MAX).

(** [disk] as the loader leaves it: all zero. *)
Definition disk_bss : vdisk :=
  VDisk (replicate NUM zero_desc) 0 (replicate NUM 0%nat) 0 (replicate NUM 0%nat) (replicate NUM false) 0 (replicate NUM None) (replicate NUM 0) (replicate NUM (BlkReq 0 0 0)) false.

Context {IO : image_ok I}.

Lemma on_mem_Ret {A} (m : M mstate A) s a ms : m (i_ms s) = Ret a ms → on_mem m s = Ret a (IState ms (i_vs s) (i_reads s)).
Proof. intros H. unfold on_mem, zoom. by rewrite H. Qed.

Lemma page_ne0 p : page_ok p → (p =? 0) = false.
Proof. intros [_ Hp]. pose proof tramp_ge. pose proof etext_eq. pose proof kend_ge. pgunfold. apply Z.eqb_neq. lia. Qed.

(** [m] returns and changes the driver's data by [f] and memory by [g]. *)
Definition disk_to (f : vdisk → vdisk) (g : mstate → mstate) (m : M istate unit) : Prop := ∀ s, ∃ s',
  m s = Ret tt s' ∧ vd (i_vs s') = f (vd (i_vs s)) ∧ vbusy (i_vs s') = vbusy (i_vs s) ∧ i_ms s' = g (i_ms s).
Definition zeroed (p : Z) (ms : mstate) : mstate := set_mem (memset (ms_mem ms) p 0 PGSIZE) ms.

Lemma disk_to_seq f f' g g' m m' : disk_to f g m → disk_to f' g' m' → disk_to (f' ∘ f) (g' ∘ g) (m;; m').
Proof.
  intros Hm Hm' s. destruct (Hm s) as (s1 & E1 & D1 & B1 & G1). destruct (Hm' s1) as (s2 & E2 & D2 & B2 & G2). exists s2. rewrite (bind_Ret _ _ _ _ _ E1).
  split; [exact E2|]. unfold compose. by rewrite D2, D1, B2, B1, G2, G1.
Qed.
Lemma disk_to_id f g m m' : disk_to id id m → disk_to f g m' → disk_to f g (m;; m').
Proof. apply (disk_to_seq id f id g). Qed.
Lemma disk_to_zero p : disk_to id (zeroed p) (zero_page p).
Proof. intros s. eexists. unfold zero_page, on_mem, zoom, mmemset, modify. cbn beta iota. split; [reflexivity|]. done. Qed.
Lemma disk_to_reg r v : disk_to id id (reg_write r v).
Proof. intros s. eexists. split; [reflexivity|]. done. Qed.
Lemma disk_to_disk f : disk_to f id (on_disk f).
Proof. intros s. eexists. split; [reflexivity|]. done. Qed.

Lemma queue_setup_run pdesc pavail pused status : disk_to (λ d, set_dfree (replicate NUM true) (fresh_queues d)) (λ ms, zeroed pused (zeroed pavail (zeroed pdesc ms))) (queue_setup pdesc pavail pused status).
Proof.
  unfold queue_setup. apply (disk_to_seq id (λ d, set_dfree (replicate NUM true) (fresh_queues d)) (zeroed pdesc) (λ ms, zeroed pused (zeroed pavail ms))); [apply disk_to_zero|].
  apply (disk_to_seq id (λ d, set_dfree (replicate NUM true) (fresh_queues d)) (zeroed pavail) (zeroed pused)); [apply disk_to_zero|].
  apply (disk_to_seq id (λ d, set_dfree (replicate NUM true) (fresh_queues d)) (zeroed pused) id); [apply disk_to_zero|].
  apply (disk_to_seq fresh_queues (set_dfree (replicate NUM true)) id id); [apply disk_to_disk|].
  do 8 (apply disk_to_id; [apply disk_to_reg|]). apply (disk_to_seq (set_dfree (replicate NUM true)) id id id); [apply disk_to_disk|apply disk_to_reg].
Qed.

(** ** One step at a time *)

(** The memory, the driver's data and the requests under way of a state. *)
Definition at_state (ms : mstate) (d : vdisk) (busy : nat → bool) (s : istate) : Prop := i_ms s = ms ∧ vd (i_vs s) = d ∧ vbusy (i_vs s) = busy.
(** [m] returns with the driver's data [d'] and memory as [R] says. *)
Definition boots (d' : vdisk) (busy : nat → bool) (R : mstate → Prop) (m : M istate unit) (s : istate) : Prop :=
  ∃ s', m s = Ret tt s' ∧ vd (i_vs s') = d' ∧ vbusy (i_vs s') = busy ∧ R (i_ms s').

Section steps.
Context (mmio : nat → Z → Z) (ms : mstate) (d d' : vdisk) (busy : nat → bool) (R : mstate → Prop).

Lemma boots_read r k s : at_state ms d busy s → (∀ n s', at_state ms d busy s' → boots d' busy R (k (u32 (mmio n r))) s') → boots d' busy R (reg_read mmio r ≫= k) s.
Proof. intros Hs Hk. apply (Hk (i_reads s) (IState (i_ms s) (i_vs s) (S (i_reads s)))). exact Hs. Qed.

Lemma boots_write r v k s : at_state ms d busy s → (∀ s', at_state ms d busy s' → boots d' busy R (k tt) s') → boots d' busy R (reg_write r v ≫= k) s.
Proof. intros Hs Hk. refine (Hk (IState _ (VState _ _ _ _ _ _) _) _). exact Hs. Qed.

Lemma boots_disk f k s : at_state ms d busy s → (∀ s', at_state ms (f d) busy s' → boots d' busy R (k tt) s') → boots d' busy R (on_disk f ≫= k) s.
Proof. intros (E1 & E2 & E3) Hk. refine (Hk (IState (i_ms s) (set_vd (f (vd (i_vs s))) (i_vs s)) (i_reads s)) _). split_and!; [done|by rewrite <- E2|done]. Qed.

Lemma boots_kalloc F k s : at_state ms d busy s → pa_inv ms F → F ≠ ∅ →
  (∀ p ms' s', page_ok p → p ∈ F → pa_inv ms' (F ∖ {[p]}) → same_outside p (ms_mem ms) (ms_mem ms') → at_state ms' d busy s' → boots d' busy R (k p) s') → boots d' busy R (on_mem pa_kalloc ≫= k) s.
Proof.
  intros (E1 & E2 & E3) Hpa HF Hk. destruct (pa_kalloc_some ms F Hpa HF) as (p & ms' & Hp & E & Hpa' & Hso). unfold boots.
  rewrite <- E1 in E. rewrite (bind_Ret _ _ _ _ _ (on_mem_Ret pa_kalloc s _ _ E)). apply (Hk p ms'); [exact (pa_pages _ _ _ Hpa Hp)|done|done|done|done].
Qed.
End steps.

Lemma boots_setup ms d busy (R : mstate → Prop) p1 p2 p3 st s : at_state ms d busy s → R (zeroed p3 (zeroed p2 (zeroed p1 ms))) →
  boots (set_dfree (replicate NUM true) (fresh_queues d)) busy R (queue_setup p1 p2 p3 st) s.
Proof. intros (E1 & E2 & E3) HR. destruct (queue_setup_run p1 p2 p3 st s) as (s' & E & Hd & Hb & Hm). exists s'. by rewrite Hd, Hb, Hm, E1, E2, E3. Qed.

(** A page that is not free is zeroed. *)
Lemma zeroed_inv p ms F : pa_inv ms F → page_ok p → p ∉ F → pa_inv (zeroed p ms) F.
Proof.
  intros Hpa Hp HpF. apply pa_frame; [done|]. intros q x Hq Hx. apply memset_same_outside. intros Hx'. apply HpF.
  assert (p = q) as ->; [|done]. eapply in_page_unique; [by apply page_ok_pos|by apply page_ok_pos; eapply pa_pages|done|done].
Qed.
(** Memory outside the pages [F] is unchanged. *)
Definition outside (F : gset Z) (m m' : mem) : Prop := ∀ x, (∀ q, q ∈ F → ¬ in_page q x) → m' x = m x.
Lemma outside_step F p m m1 m2 : outside F m m1 → p ∈ F → same_outside p m1 m2 → outside F m m2.
Proof. intros H Hp Hs x Hx. rewrite Hs by (by apply Hx). by apply H. Qed.

Ltac read_step n s := eapply boots_read; [eassumption|]; let H := fresh "Hst" in intros n s H.
Ltac write_step := eapply boots_write; [eassumption|]; let s := fresh "sw" in let H := fresh "Hst" in intros s H.

(** With a disk behind the registers and three free pages, virtio_disk_init()
    returns with every descriptor free and the rings empty: the state in which
    requests start. *)
Theorem virtio_init_boots mmio ms F vs k : pa_inv ms F → (3 ≤ size F)%nat → good_device mmio → vd vs = disk_bss → ∃ s',
  virtio_disk_init mmio (IState ms vs k) = Ret tt s' ∧ vd (i_vs s') = disk_booted ∧ vbusy (i_vs s') = vbusy vs ∧
  ∃ F', pa_inv (i_ms s') F' ∧ F' ⊆ F ∧ (size F = size F' + 3)%nat ∧ outside F (ms_mem ms) (ms_mem (i_ms s')).
Proof.
  intros Hpa HF Hg Hvd. apply (boots_disk ms disk_bss _ _ (λ ms', ∃ F', pa_inv ms' F' ∧ F' ⊆ F ∧ (size F = size F' + 3)%nat ∧ outside F (ms_mem ms) (ms_mem ms'))); [done|]. intros s0 Hst.
  read_step n1 s1. destruct (Hg n1) as (-> & _). cbn [Z.eqb Pos.eqb negb]. read_step n2 s2. destruct (Hg n2) as (_ & -> & _). cbn [Z.eqb Pos.eqb negb].
  read_step n3 s3. destruct (Hg n3) as (_ & _ & -> & _). cbn [Z.eqb Pos.eqb negb]. read_step n4 s4. destruct (Hg n4) as (_ & _ & _ & -> & _). cbn [Z.eqb Pos.eqb negb].
  cbv zeta. do 3 write_step. read_step n5 s5. do 2 write_step. read_step n6 s6.
  destruct (Hg n6) as (_ & _ & _ & _ & Hs & _). apply Z.eqb_neq in Hs. rewrite Hs. write_step. read_step n7 s7.
  destruct (Hg n7) as (_ & _ & _ & _ & _ & -> & _). cbn [Z.eqb negb]. read_step n8 s8. destruct (Hg n8) as (_ & _ & _ & _ & _ & _ & Hm). revert Hm. generalize (u32 (mmio n8 VIRTIO_MMIO_QUEUE_NUM_MAX)). intros mx Hm.
  rewrite (proj2 (Z.eqb_neq mx 0)), (proj2 (Z.ltb_ge mx (Z.of_nat NUM))) by (unfold NUM; lia).
  eapply boots_kalloc; [eassumption|exact Hpa|by intros ->; rewrite size_empty in HF; lia|]. intros p1 m1 s9 Hp1 Hin1 Hpa1 Hs1 Hk1.
  assert (HF1 : (size F = size (F ∖ {[p1]}) + 1)%nat) by (rewrite size_difference, size_singleton by set_solver; lia).
  eapply boots_kalloc; [eassumption|exact Hpa1|by intros H; rewrite H, size_empty in HF1; lia|]. intros p2 m2 s10 Hp2 Hin2 Hpa2 Hs2 Hk2.
  assert (HF2 : (size F = size (F ∖ {[p1]} ∖ {[p2]}) + 2)%nat) by (rewrite size_difference, size_singleton by set_solver; lia).
  eapply boots_kalloc; [eassumption|exact Hpa2|by intros H; rewrite H, size_empty in HF2; lia|]. intros p3 m3 s11 Hp3 Hin3 Hpa3 Hs3 Hk3.
  assert (HF3 : (size F = size (F ∖ {[p1]} ∖ {[p2]} ∖ {[p3]}) + 3)%nat) by (rewrite size_difference, size_singleton by set_solver; lia).
  rewrite (page_ne0 p1 Hp1), (page_ne0 p2 Hp2), (page_ne0 p3 Hp3). cbn [orb]. eapply (boots_setup m3 (set_vdisk_lock false disk_bss)); [done|].
  clear - Hpa3 Hp1 Hp2 Hp3 Hin1 Hin2 Hin3 HF3 Hs1 Hs2 Hs3 IO. exists (F ∖ {[p1]} ∖ {[p2]} ∖ {[p3]}). split; [|split; [set_solver|split; [done|]]].
  - apply zeroed_inv; [apply zeroed_inv; [apply zeroed_inv; [done|done|set_solver]|done|set_solver]|done|set_solver].
  - assert (p2 ∈ F ∧ p3 ∈ F) as [? ?] by set_solver. apply (outside_step F p3 _ (ms_mem (zeroed p2 (zeroed p1 m3)))); [|done|apply memset_same_outside].
    apply (outside_step F p2 _ (ms_mem (zeroed p1 m3))); [|done|apply memset_same_outside]. apply (outside_step F p1 _ (ms_mem m3)); [|done|apply memset_same_outside].
    apply (outside_step F p3 _ (ms_mem m2)); [|done|exact Hs3]. apply (outside_step F p2 _ (ms_mem m1)); [|done|exact Hs2].
    apply (outside_step F p1 _ (ms_mem ms)); [|done|exact Hs1]. by intros x.
Qed.
End init.
