(* ===== verification/Sh.v ===== *)
(** * user/sh.c: the shell's parser (the code)

    The line is the list of the bytes before its NUL; pointers into it are
    positions, and [es] is its end.  A parser takes the position [*ps] and
    returns the new one.  panic() of the shell, which exits, is [PPanic].
    malloc() is taken to succeed in the constructors.

    parseexec() fills the arguments of its [execcmd] while parseredirs() wraps
    it: the commands parseredirs() makes are returned as the list of
    redirections, which [wrap] puts around the finished command. *)

From stdpp Require Import base strings numbers list.
From coqutil Require Import Byte.
From S2P Require Import Prelude Ring Sysfile.

Definition MAXARGS : nat := 10.

(** A counted string: its start and its end. *)
Definition span : Type := nat * nat.

Record redir := Redir { r_file : span; r_mode : Z; r_fd : Z }.

Inductive cmd :=
| EXEC (argv : list span)
| REDIR (c : cmd) (r : redir)
| PIPE (left right : cmd)
| LIST (left right : cmd)
| BACK (c : cmd).

(** The constructors; the execcmd is given its arguments. *)
Definition execcmd (argv : list span) : cmd := EXEC argv.
Definition redircmd (subcmd : cmd) (file : span) (mode fd : Z) : cmd := REDIR subcmd (Redir file mode fd).
Definition pipecmd (left right : cmd) : cmd := PIPE left right.
Definition listcmd (left right : cmd) : cmd := LIST left right.
Definition backcmd (subcmd : cmd) : cmd := BACK subcmd.

Inductive presult (A : Type) := POk (a : A) (s : nat) | PPanic (msg : string) | PFuel.
Arguments POk {A} a s.
Arguments PPanic {A} msg.
Arguments PFuel {A}.

Definition pbind {A B} (m : presult A) (k : A → nat → presult B) : presult B :=
  match m with POk a s => k a s | PPanic msg => PPanic msg | PFuel => PFuel end.

Definition whitespace : list byte := [Byte.x20; Byte.x09; Byte.x0d; Byte.x0a; Byte.x0b].
Definition symbols : list byte := [Byte.x3c; Byte.x7c; Byte.x3e; Byte.x26; Byte.x3b; Byte.x28; Byte.x29].
Definition c_bar : byte := Byte.x7c.
Definition c_open : byte := Byte.x28.
Definition c_close : byte := Byte.x29.
Definition c_semi : byte := Byte.x3b.
Definition c_amp : byte := Byte.x26.
Definition c_lt : byte := Byte.x3c.
Definition c_gt : byte := Byte.x3e.
Definition c_plus : byte := Byte.x2b.
Definition c_a : byte := Byte.x61.

Definition ceq (a b : byte) : bool := byte.unsigned a =? byte.unsigned b.
(** strchr(l, c) is not null. *)
Definition inset (l : list byte) (c : byte) : bool := existsb (ceq c) l.

Section parser.
Context (b : list byte).
Notation es := (length b).

(** [*s]; the NUL is at [es]. *)
Definition deref (s : nat) : byte := default Byte.x00 (b !! s).

(** [while(s < es && f( *s)) s++], with [k] characters to the end. *)
Fixpoint skip_while (f : byte → bool) (k s : nat) : nat :=
  match k with
  | O => s
  | S k => if f (deref s) then skip_while f k (S s) else s
  end.
Definition skip (f : byte → bool) (s : nat) : nat := skip_while f (es - s) s.
Definition skip_ws : nat → nat := skip (inset whitespace).
Definition word_char (c : byte) : bool := negb (inset whitespace c) && negb (inset symbols c).

(** The token, its span and the position after it. *)
Definition gettoken (s : nat) : byte * span * nat :=
  let q := skip_ws s in
  let c := deref q in
  let '(ret, eq) :=
    if ceq c Byte.x00 then (c, q)
    else if ceq c c_bar || ceq c c_open || ceq c c_close || ceq c c_semi || ceq c c_amp || ceq c c_lt then (c, S q)
    else if ceq c c_gt then
      if ceq (deref (S q)) c_gt then (c_plus, S (S q)) else (c, S q)
    else (c_a, skip word_char q) in
  (ret, (q, eq), skip_ws eq).

Definition peek (s : nat) (toks : list byte) : bool * nat :=
  let s := skip_ws s in
  (negb (ceq (deref s) Byte.x00) && inset toks (deref s), s).

(** The loop of parseredirs(): the redirections in the order of the text.
    Every turn consumes a character, so the rest of the line is enough fuel. *)
Fixpoint redirs_loop (k s : nat) : presult (list redir) :=
  let '(more, s) := peek s [c_lt; c_gt] in
  if more : bool then
    match k with
    | O => PFuel
    | S k =>
      let '(tok, _, s) := gettoken s in
      let '(t, f, s) := gettoken s in
      if negb (ceq t c_a) then PPanic "missing file for redirection" else
      let r := if ceq tok c_lt then Redir f O_RDONLY 0
               else if ceq tok c_gt then Redir f (Z.lor (Z.lor O_WRONLY O_CREATE) O_TRUNC) 1
               else Redir f (Z.lor O_WRONLY O_CREATE) 1 in
      pbind (redirs_loop k s) (λ l s, POk (r :: l) s)
    end
  else POk [] s.
Definition parseredirs (s : nat) : presult (list redir) := redirs_loop (es - s) s.
Definition wrap (c : cmd) (l : list redir) : cmd := foldl (λ c r, redircmd c (r_file r) (r_mode r) (r_fd r)) c l.

(** The loop of parseexec(): the remaining arguments, [argc] have been read,
    and the redirections. *)
Fixpoint args_loop (k argc s : nat) : presult (list span * list redir) :=
  let '(stop, s) := peek s [c_bar; c_close; c_amp; c_semi] in
  if stop : bool then POk ([], []) s else
  let '(tok, q, s) := gettoken s in
  if ceq tok Byte.x00 then POk ([], []) s else
  match k with
  | O => PFuel
  | S k =>
    if negb (ceq tok c_a) then PPanic "syntax" else
    if (MAXARGS <=? S argc)%nat then PPanic "too many args" else
    pbind (parseredirs s) (λ rs s,
    pbind (args_loop k (S argc) s) (λ l s, POk (q :: fst l, rs ++ snd l) s))
  end.

(** The loop of parseline(): how many "&" follow. *)
Fixpoint back_loop (k : nat) (c : cmd) (s : nat) : presult cmd :=
  let '(more, s) := peek s [c_amp] in
  if more : bool then
    match k with
    | O => PFuel
    | S k => let '(_, _, s) := gettoken s in back_loop k (backcmd c) s
    end
  else POk c s.

Fixpoint parseline (n s : nat) {struct n} : presult cmd :=
  match n with
  | O => PFuel
  | S n =>
    pbind (parsepipe n s) (λ c s,
    pbind (back_loop (es - s) c s) (λ c s,
    let '(more, s) := peek s [c_semi] in
    if more : bool then
      let '(_, _, s) := gettoken s in
      pbind (parseline n s) (λ r s, POk (listcmd c r) s)
    else POk c s))
  end
with parsepipe (n s : nat) {struct n} : presult cmd :=
  match n with
  | O => PFuel
  | S n =>
    pbind (parseexec n s) (λ c s,
    let '(more, s) := peek s [c_bar] in
    if more : bool then
      let '(_, _, s) := gettoken s in
      pbind (parsepipe n s) (λ r s, POk (pipecmd c r) s)
    else POk c s)
  end
with parseexec (n s : nat) {struct n} : presult cmd :=
  match n with
  | O => PFuel
  | S n =>
    let '(block, s) := peek s [c_open] in
    if block : bool then parseblock n s else
    pbind (parseredirs s) (λ rs s,
    pbind (args_loop (es - s) 0 s) (λ l s, POk (wrap (execcmd (fst l)) (rs ++ snd l)) s))
  end
with parseblock (n s : nat) {struct n} : presult cmd :=
  match n with
  | O => PFuel
  | S n =>
    let '(o, s) := peek s [c_open] in
    if negb o then PPanic "parseblock" else
    let '(_, _, s) := gettoken s in
    pbind (parseline n s) (λ c s,
    let '(cl, s) := peek s [c_close] in
    if negb cl then PPanic "syntax - missing )" else
    let '(_, _, s) := gettoken s in
    pbind (parseredirs s) (λ rs s, POk (wrap c rs) s))
  end.

(** Each character is inside at most four nested calls of the parser. *)
Definition parse_fuel : nat := 4 * es + 4.

(** nulterminate(): the line with a NUL at the end of every counted string. *)
Definition nul_at (buf : list byte) (sp : span) : list byte := <[snd sp := Byte.x00]> buf.
Fixpoint nulterminate (c : cmd) (buf : list byte) : list byte :=
  match c with
  | EXEC argv => foldl nul_at buf argv
  | REDIR c r => nul_at (nulterminate c buf) (r_file r)
  | PIPE l r | LIST l r => nulterminate r (nulterminate l buf)
  | BACK c => nulterminate c buf
  end.

(** parsecmd(): the command and the buffer, whose last byte is the NUL. *)
Definition parsecmd : presult (cmd * list byte) :=
  pbind (parseline parse_fuel 0) (λ c s,
  let '(_, s) := peek s [] in
  if (s =? es)%nat then POk (c, nulterminate c (b ++ [Byte.x00])) s else PPanic "syntax").
End parser.
