(* ===== verification/ShThms.v ===== *)
(** * user/sh.c: the parser reads back what is printed, and terminates

    [ast] is the syntax of commands; [ptoks] prints one as tokens, with
    parentheses only where the grammar needs them.  [lex b s l]: the tokens of
    the line [b] from position [s] on are [l]. *)

From stdpp Require Import base strings numbers list.
From coqutil Require Import Byte.
From S2P Require Import Prelude Ring Sysfile Sh.

Inductive tok := TW (w : list byte) | TS (c : byte).

Lemma ceq_spec a b : ceq a b = true ↔ a = b.
Proof.
  unfold ceq. rewrite Z.eqb_eq. split; [|by intros ->]. intros H. apply (f_equal byte.of_Z) in H. by rewrite !byte.of_Z_unsigned in H.
Qed.
Lemma ceq_refl a : ceq a a = true.
Proof. by apply ceq_spec. Qed.

Lemma inset_spec l c : inset l c = true ↔ c ∈ l.
Proof.
  unfold inset. rewrite existsb_exists. split.
  - intros (x & Hx & E%ceq_spec). subst. by apply list_elem_of_In.
  - intros Hc. exists c. split; [by apply list_elem_of_In|apply ceq_refl].
Qed.

Section lex.
Context (b : list byte) (Hnul : Byte.x00 ∉ b).
Notation es := (length b).

Definition sub (sp : span) : list byte := take (snd sp - fst sp) (drop (fst sp) b).
Definition tok_of (ret : byte) (sp : span) : tok := if ceq ret c_a then TW (sub sp) else TS ret.

Inductive lex : nat → list tok → Prop :=
| lex_nil s : skip_ws b s = es → lex s []
| lex_cons s ret sp s' ts : (skip_ws b s < es)%nat → gettoken b s = (ret, sp, s') → lex s' ts → lex s (tok_of ret sp :: ts).

(** ** Positions *)

Lemma skip_while_bounds f k s : (s ≤ skip_while b f k s ≤ s + k)%nat.
Proof. revert s. induction k as [|k IH]; intros s; simpl; [lia|]. destruct (f _); [specialize (IH (S s))|]; lia. Qed.

Lemma skip_bounds f s : (s ≤ es)%nat → (s ≤ skip b f s ≤ es)%nat.
Proof. intros Hs. unfold skip. pose proof (skip_while_bounds f (es - s) s). lia. Qed.

Lemma skip_while_stop f k s : (skip_while b f k s < s + k)%nat → f (deref b (skip_while b f k s)) = false.
Proof.
  revert s. induction k as [|k IH]; intros s; simpl; [lia|]. destruct (f (deref b s)) eqn:E; [|done]. intros H. apply IH. lia.
Qed.

Lemma skip_stop f s : (s ≤ es)%nat → (skip b f s < es)%nat → f (deref b (skip b f s)) = false.
Proof. intros Hs Hlt. apply skip_while_stop. unfold skip in Hlt. lia. Qed.

Lemma skip_here f s : (s ≤ es)%nat → f (deref b s) = false → skip b f s = s.
Proof. intros Hs Hf. unfold skip. destruct (es - s)%nat; simpl; [done|]. by rewrite Hf. Qed.

Lemma skip_ws_idem s : (s ≤ es)%nat → skip_ws b (skip_ws b s) = skip_ws b s.
Proof.
  intros Hs. pose proof (skip_bounds (inset whitespace) s Hs) as Hb. fold (skip_ws b) in Hb.
  destruct (decide (skip_ws b s = es)) as [E|E].
  - rewrite E. unfold skip_ws, skip. by rewrite Nat.sub_diag.
  - apply skip_here; [lia|]. apply skip_stop; [done|]. fold (skip_ws b). lia.
Qed.

Lemma deref_end : deref b es = Byte.x00.
Proof. unfold deref. by rewrite lookup_ge_None_2. Qed.

Lemma deref_in s : (s < es)%nat → deref b s ≠ Byte.x00.
Proof.
  intros Hs E. apply Hnul. unfold deref in E. destruct (lookup_lt_is_Some_2 b s Hs) as [c Hc]. rewrite Hc in E. simpl in E. subst. by eapply list_elem_of_lookup_2.
Qed.

Lemma deref_nul s : (s ≤ es)%nat → ceq (deref b s) Byte.x00 = (s =? es)%nat.
Proof.
  intros Hs. destruct (Nat.eqb_spec s es) as [->|Hne]; [by rewrite deref_end|].
  apply not_true_is_false. intros E%ceq_spec. by apply (deref_in s); [lia|].
Qed.

(** gettoken() at the end, and where it ends otherwise. *)
Lemma gettoken_bounds s ret q eq s' : (s ≤ es)%nat → gettoken b s = (ret, (q, eq), s') →
  (s' ≤ es)%nat ∧ q = skip_ws b s ∧ if (q =? es)%nat then ret = Byte.x00 ∧ s' = es else ret ≠ Byte.x00 ∧ (q < eq ≤ s')%nat ∧ (s < s')%nat.
Proof.
  intros Hs. unfold gettoken. pose proof (skip_bounds (inset whitespace) s Hs) as Hb. fold (skip_ws b) in Hb. set (p := skip_ws b s) in *.
  rewrite deref_nul by lia. destruct (Nat.eqb_spec p es) as [E|Hne].
  { intros [= <- <- <- <-]. rewrite E, Nat.eqb_refl, deref_end. assert (skip_ws b es = es) as -> by (unfold skip_ws, skip; by rewrite Nat.sub_diag).
    split_and!; try done; by rewrite ?E. }
  assert (Hgen : ∀ r e, r ≠ Byte.x00 → (p < e ≤ es)%nat → (r, (p, e), skip_ws b e) = (ret, (q, eq), s') → (s' ≤ es)%nat ∧ q = p ∧ if (q =? es)%nat then ret = Byte.x00 ∧ s' = es else ret ≠ Byte.x00 ∧ (q < eq ≤ s')%nat ∧ (s < s')%nat).
  { intros r e Hr He [= <- <- <- <-]. pose proof (skip_bounds (inset whitespace) e ltac:(lia)). unfold skip_ws. destruct (Nat.eqb_spec p es); [lia|]. split_and!; try done; lia. }
  destruct (_ || _) eqn:E1; [apply Hgen; [by apply deref_in; lia|lia]|].
  destruct (ceq (deref b p) c_gt) eqn:E2.
  - destruct (ceq (deref b (S p)) c_gt) eqn:E3; [|apply Hgen; [by apply deref_in; lia|lia]]. apply Hgen; [done|].
    assert (S p ≠ es); [|lia]. intros E. rewrite E, deref_end in E3. done.
  - assert (Hw : word_char (deref b p) = true).
    { assert (Hws : inset whitespace (deref b p) = false) by (apply (skip_stop (inset whitespace) s Hs); fold (skip_ws b s); fold p; lia).
      unfold word_char. rewrite Hws. cbn [negb andb]. apply negb_true_iff. apply not_true_is_false. intros Hin. unfold inset, symbols in Hin.
      cbn [existsb] in Hin. unfold c_bar, c_open, c_close, c_semi, c_amp, c_lt, c_gt in *. repeat (apply orb_false_iff in E1 as [E1 ?]).
      repeat match goal with H : ceq _ _ = false |- _ => rewrite H in Hin; clear H end. done. }
    pose proof (skip_bounds word_char (S p) ltac:(lia)) as Hsk.
    assert (Hsw : skip b word_char p = skip b word_char (S p)) by (unfold skip; replace (es - p)%nat with (S (es - S p)) by lia; simpl; by rewrite Hw).
    intros Heq. apply (Hgen c_a (skip b word_char p)) in Heq; [done|done|]. rewrite Hsw. lia.
Qed.

(** ** Counted strings *)

(** The strings of a command, in the order nulterminate() visits them. *)
Fixpoint spans (c : cmd) : list span :=
  match c with
  | EXEC argv => argv
  | REDIR c r => spans c ++ [r_file r]
  | PIPE l r | LIST l r => spans l ++ spans r
  | BACK c => spans c
  end.

(** A word of the line that ends where it cannot be extended. *)
Definition span_ok (sp : span) : Prop :=
  (fst sp < snd sp ≤ es)%nat ∧ (∀ i, (fst sp ≤ i < snd sp)%nat → word_char (deref b i) = true) ∧ (snd sp = es ∨ word_char (deref b (snd sp)) = false).
Definition cmd_ok (c : cmd) : Prop := Forall span_ok (spans c).
Definition redir_ok (r : redir) : Prop := span_ok (r_file r).

Lemma skip_while_all f k s i : (s ≤ i < skip_while b f k s)%nat → f (deref b i) = true.
Proof.
  revert s. induction k as [|k IH]; intros s; simpl; [lia|]. destruct (f (deref b s)) eqn:E; [|lia]. intros Hi.
  destruct (decide (i = s)) as [->|]; [done|]. apply (IH (S s)). lia.
Qed.

Lemma gettoken_word s ret sp s' : (s ≤ es)%nat → gettoken b s = (ret, sp, s') → ceq ret c_a = true → span_ok sp.
Proof.
  intros Hs E Ha. destruct sp as [q eq]. destruct (gettoken_bounds s ret q eq s' Hs E) as (Hs' & Hq & Hb). apply ceq_spec in Ha as ->.
  destruct (Nat.eqb_spec q es) as [|Hne]; [by destruct Hb|]. destruct Hb as (_ & Hqe & _). rewrite Hq in *. clear Hq q. unfold gettoken in E. set (p := skip_ws b s) in *.
  destruct (ceq (deref b p) Byte.x00) eqn:E0; [injection E as E _ _; apply ceq_spec in E0; by rewrite E0 in E|].
  destruct (_ || _) eqn:E1.
  { injection E as E _ _. rewrite E in E1. done. }
  destruct (ceq (deref b p) c_gt) eqn:E2.
  { apply ceq_spec in E2. rewrite E2 in E. by destruct (ceq _ c_gt). }
  injection E as <- <-. unfold span_ok. cbn [fst snd]. pose proof (skip_bounds word_char p ltac:(lia)) as Hsb. split_and!; [lia|lia| |].
  - intros i Hi. by eapply skip_while_all.
  - destruct (decide (skip b word_char p = es)); [by left|right]. apply skip_stop; lia.
Qed.

Lemma spans_wrap c l : spans (wrap c l) = spans c ++ (r_file <$> l).
Proof.
  unfold wrap. revert c. induction l as [|r l IH]; intros c; cbn [foldl fmap list_fmap]; [by rewrite app_nil_r|]. rewrite IH. cbn [spans redircmd r_file]. by rewrite <- app_assoc.
Qed.

Lemma cmd_ok_wrap c l : cmd_ok c → Forall redir_ok l → cmd_ok (wrap c l).
Proof. intros Hc Hl. unfold cmd_ok. rewrite spans_wrap, Forall_app, Forall_fmap. done. Qed.

Lemma nulterminate_spans c buf : nulterminate c buf = foldl nul_at buf (spans c).
Proof.
  revert buf. induction c as [argv|c IH r|l IHl r IHr|l IHl r IHr|c IH]; intros buf; cbn [nulterminate spans]; rewrite ?foldl_app; try done.
  - by rewrite IH.
  - by rewrite IHl, IHr.
  - by rewrite IHl, IHr.
Qed.

(** ** Termination *)

(** A result that is not for lack of fuel, does not move back, and
    satisfies [Q]. *)
Definition pok {A} (Q : A → Prop) (s : nat) (r : presult A) : Prop :=
  match r with POk a s' => (s ≤ s' ≤ es)%nat ∧ Q a | PPanic _ => True | PFuel => False end.

Lemma pok_ret {A} (Q : A → Prop) s a s' : (s ≤ s' ≤ es)%nat → Q a → pok Q s (POk a s').
Proof. done. Qed.

Lemma pok_mono {A} (Q : A → Prop) s s0 (r : presult A) : (s ≤ s0)%nat → pok Q s0 r → pok Q s r.
Proof. destruct r; simpl; [|done|done]. intros ? [? ?]. split; [lia|done]. Qed.

Lemma pok_bind {A B} Q R s (m : presult A) (k : A → nat → presult B) : pok Q s m → (∀ a s', (s ≤ s' ≤ es)%nat → Q a → pok R s' (k a s')) → pok R s (pbind m k).
Proof. destruct m as [a s'| |]; simpl; try done. intros [Hs HQ] Hk. eapply pok_mono; [|by apply Hk]. lia. Qed.

Lemma peek_pok s l : (s ≤ es)%nat → ∃ r s', peek b s l = (r, s') ∧ s' = skip_ws b s ∧ (s ≤ s' ≤ es)%nat ∧ (r = true → (s' < es)%nat).
Proof.
  intros Hs. eexists _, _. split; [reflexivity|]. pose proof (skip_bounds (inset whitespace) s Hs) as Hb. fold (skip_ws b s) in *.
  split_and!; [done|lia|lia|]. intros Hr. rewrite deref_nul in Hr by lia. destruct (Nat.eqb_spec (skip_ws b s) es); [done|lia].
Qed.

Lemma gettoken_pok s : (s ≤ es)%nat → ∃ ret sp s', gettoken b s = (ret, sp, s') ∧ (s ≤ s' ≤ es)%nat ∧ (ret ≠ Byte.x00 ∨ (skip_ws b s < es)%nat → (s < s')%nat) ∧
  (ceq ret c_a = true → span_ok sp).
Proof.
  intros Hs. destruct (gettoken b s) as [[ret [q eq]] s'] eqn:E. exists ret, (q, eq), s'. split; [done|].
  pose proof (gettoken_word s ret (q, eq) s' Hs E) as Hw.
  destruct (gettoken_bounds s ret q eq s' Hs E) as (Hs' & -> & H). pose proof (skip_bounds (inset whitespace) s Hs). fold (skip_ws b s) in *.
  destruct (Nat.eqb_spec (skip_ws b s) es); [destruct H as [-> ->]; split_and!; [lia|lia|intros [?|?]; [done|lia]|done]|split_and!; [lia|lia|lia|done]].
Qed.

(** The token after a successful peek(). *)
Lemma gettoken_peeked s : (s ≤ es)%nat → (skip_ws b s < es)%nat → ∃ ret sp s', gettoken b (skip_ws b s) = (ret, sp, s') ∧ (skip_ws b s < s' ≤ es)%nat.
Proof.
  intros Hs Hlt. destruct (gettoken_pok (skip_ws b s)) as (ret & sp & s' & E & Hb & Hp & _); [lia|]. exists ret, sp, s'. split; [done|].
  rewrite skip_ws_idem in Hp by done. specialize (Hp (or_intror Hlt)). lia.
Qed.

Ltac use_peek s l := let r := fresh "r" in let p := fresh "p" in let E := fresh "E" in let Hp := fresh "Hp" in
  destruct (peek_pok s l) as (r & p & E & -> & ? & Hp); [lia|]; rewrite E; destruct r; [specialize (Hp eq_refl)|clear Hp].
Ltac use_token s := let E := fresh "E" in
  destruct (gettoken_peeked s) as (?ret & ?sp & ?s' & E & ?); [lia|lia|]; rewrite E.
Ltac ret_ok := apply pok_ret; [lia|].

Lemma redirs_pok k s : (s ≤ es)%nat → (es - s ≤ k)%nat → pok (Forall redir_ok) s (redirs_loop b k s).
Proof.
  revert s. induction k as [|k IH]; intros s Hs Hk; cbn [redirs_loop]; use_peek s [c_lt; c_gt]; [lia|by ret_ok| |by ret_ok].
  use_token s. destruct (gettoken_pok s') as (ret2 & sp2 & s2 & E2 & Hb2 & _ & Hw); [lia|]. rewrite E2. destruct (ceq ret2 c_a); [|done]. specialize (Hw eq_refl). cbn [negb].
  apply (pok_mono _ _ s2); [lia|]. eapply pok_bind; [apply IH; lia|]. intros l s3 ? Hl. ret_ok. constructor; [|done]. unfold redir_ok. by destruct (ceq ret c_lt); [|destruct (ceq ret c_gt)].
Qed.

Lemma parseredirs_pok s : (s ≤ es)%nat → pok (Forall redir_ok) s (parseredirs b s).
Proof. intros Hs. by apply redirs_pok. Qed.

Definition args_ok (l : list span * list redir) : Prop := Forall span_ok (fst l) ∧ Forall redir_ok (snd l).

Lemma args_nil : args_ok ([], []).
Proof. by split. Qed.

Lemma args_pok k argc s : (s ≤ es)%nat → (es - s ≤ k)%nat → pok args_ok s (args_loop b k argc s).
Proof.
  revert argc s. induction k as [|k IH]; intros argc s Hs Hk; cbn [args_loop]; use_peek s [c_bar; c_close; c_amp; c_semi]; try (ret_ok; apply args_nil);
    (destruct (gettoken_pok (skip_ws b s)) as (ret & sp & s1 & E1 & Hb1 & Hp1 & Hw); [lia|]); rewrite E1; (destruct (ceq ret Byte.x00) eqn:Er; [ret_ok; apply args_nil|]);
    (assert (Hr : ret ≠ Byte.x00) by (intros ->; by rewrite ceq_refl in Er)); specialize (Hp1 (or_introl Hr)); [lia|].
  destruct (ceq ret c_a); [|done]. specialize (Hw eq_refl). cbn [negb]. destruct (_ <=? _)%nat; [done|]. apply (pok_mono _ _ s1); [lia|].
  eapply pok_bind; [apply parseredirs_pok; lia|]. intros rs s2 ? Hrs.
  eapply pok_bind; [apply IH; lia|]. intros l s3 ? [Hl1 Hl2]. ret_ok. split; simpl; [by constructor|by apply Forall_app].
Qed.

Lemma back_pok k c s : (s ≤ es)%nat → (es - s ≤ k)%nat → cmd_ok c → pok cmd_ok s (back_loop b k c s).
Proof.
  revert c s. induction k as [|k IH]; intros c s Hs Hk Hc; cbn [back_loop]; use_peek s [c_amp]; [lia|by ret_ok| |by ret_ok].
  use_token s. apply (pok_mono _ _ s'); [lia|]. apply IH; [lia|lia|done].
Qed.

Lemma cmd_ok_two c d : cmd_ok c → cmd_ok d → cmd_ok (LIST c d) ∧ cmd_ok (PIPE c d).
Proof. intros Hc Hd. unfold cmd_ok. cbn [spans]. rewrite Forall_app. done. Qed.

(** Calls nest at most four deep per character that is left. *)
Lemma parse_pok n : ∀ s, (s ≤ es)%nat →
  ((4 * (es - s) + 4 ≤ n)%nat → pok cmd_ok s (parseline b n s)) ∧ ((4 * (es - s) + 3 ≤ n)%nat → pok cmd_ok s (parsepipe b n s)) ∧
  ((4 * (es - s) + 2 ≤ n)%nat → pok cmd_ok s (parseexec b n s)) ∧ ((4 * (es - s) + 1 ≤ n)%nat → pok cmd_ok s (parseblock b n s)).
Proof.
  induction n as [|n IH]; intros s Hs; [lia|]. cbn [parseline parsepipe parseexec parseblock]. split_and!; intros Hn.
  - eapply pok_bind; [apply IH; lia|]. intros c s1 ? Hc. eapply pok_bind; [by apply back_pok; [lia|lia|]|]. intros c2 s2 ? Hc2.
    use_peek s2 [c_semi]; [|by ret_ok]. use_token s2. apply (pok_mono _ _ s'); [lia|]. eapply pok_bind; [apply IH; lia|]. intros r s4 ? Hr. ret_ok. by apply cmd_ok_two.
  - eapply pok_bind; [apply IH; lia|]. intros c s1 ? Hc. use_peek s1 [c_bar]; [|by ret_ok]. use_token s1. apply (pok_mono _ _ s'); [lia|].
    eapply pok_bind; [apply IH; lia|]. intros r s4 ? Hr. ret_ok. by apply cmd_ok_two.
  - use_peek s [c_open]; [apply (pok_mono _ _ (skip_ws b s)); [lia|]; apply IH; lia|]. apply (pok_mono _ _ (skip_ws b s)); [lia|].
    eapply pok_bind; [apply parseredirs_pok; lia|]. intros rs s1 ? Hrs. eapply pok_bind; [apply args_pok; lia|]. intros l s2 ? [Hl1 Hl2]. ret_ok.
    apply cmd_ok_wrap; [done|by apply Forall_app].
  - use_peek s [c_open]; [|done]. cbn [negb]. use_token s. apply (pok_mono _ _ s'); [lia|]. eapply pok_bind; [apply IH; lia|]. intros c s1 ? Hc.
    use_peek s1 [c_close]; [|done]. cbn [negb]. use_token s1. apply (pok_mono _ _ s'0); [lia|]. eapply pok_bind; [apply parseredirs_pok; lia|]. intros rs s2 ? Hrs. ret_ok.
    by apply cmd_ok_wrap.
Qed.

(** ** nulterminate() *)

(** The C string at position [p] of a buffer. *)
Fixpoint until_nul (l : list byte) : list byte :=
  match l with [] => [] | c :: l => if ceq c Byte.x00 then [] else c :: until_nul l end.
Definition c_string (buf : list byte) (p : nat) : list byte := until_nul (drop p buf).

Lemma c_string_at buf p w : (∃ l, drop p buf = w ++ Byte.x00 :: l) → Byte.x00 ∉ w → c_string buf p = w.
Proof.
  intros [l Hl]. unfold c_string. rewrite Hl. clear Hl. induction w as [|c w IH]; [done|]. rewrite not_elem_of_cons. intros [Hc Hw]. cbn [app until_nul].
  rewrite (not_true_is_false (ceq c Byte.x00)) by (by intros ->%ceq_spec). by rewrite IH.
Qed.

Lemma nul_at_length l : ∀ buf, length (foldl nul_at buf l) = length buf.
Proof. induction l as [|sp l IH]; intros buf; cbn [foldl]; [done|]. rewrite IH. unfold nul_at. by rewrite length_insert. Qed.

(** The words are not touched. *)
Lemma nuls_keep l i : ∀ buf, Forall span_ok l → (i < es)%nat → word_char (deref b i) = true → foldl nul_at buf l !! i = buf !! i.
Proof.
  induction l as [|sp l IH]; intros buf Hl Hi Hw; cbn [foldl]; [done|]. apply Forall_cons in Hl as [(_ & _ & Hsp) Hl]. rewrite IH by done.
  unfold nul_at. apply list_lookup_insert_ne. intros E. rewrite E in Hsp. destruct Hsp as [Hsp|Hsp]; [lia|]. by rewrite Hw in Hsp.
Qed.

Lemma nuls_stay l i : ∀ buf, buf !! i = Some Byte.x00 → foldl nul_at buf l !! i = Some Byte.x00.
Proof.
  induction l as [|sp l IH]; intros buf Hi; cbn [foldl]; [done|]. apply IH. unfold nul_at. destruct (decide (snd sp = i)) as [->|].
  - apply list_lookup_insert_eq. by eapply lookup_lt_Some.
  - by rewrite list_lookup_insert_ne.
Qed.

Lemma nuls_set l sp : ∀ buf, sp ∈ l → (snd sp < length buf)%nat → foldl nul_at buf l !! snd sp = Some Byte.x00.
Proof.
  induction l as [|sp' l IH]; intros buf Hin Hlt; [by apply elem_of_nil in Hin|]. cbn [foldl]. apply elem_of_cons in Hin as [->|Hin].
  - apply nuls_stay. unfold nul_at. by apply list_lookup_insert_eq.
  - apply IH; [done|]. unfold nul_at. by rewrite length_insert.
Qed.

Lemma nuls_string l sp : Forall span_ok l → sp ∈ l → c_string (foldl nul_at (b ++ [Byte.x00]) l) (fst sp) = sub sp.
Proof.
  intros Hl Hin. pose proof (proj1 (Forall_forall _ _) Hl sp Hin) as (Hb & Hw & _). set (buf := foldl _ _ _).
  assert (Hlen : length buf = S es) by (unfold buf; rewrite nul_at_length, length_app; simpl; lia).
  apply c_string_at.
  - exists (drop (S (snd sp)) buf). rewrite <- (take_drop (snd sp - fst sp) (drop (fst sp) buf)). f_equal.
    + apply list_eq. intros i. unfold sub. destruct (decide (i < snd sp - fst sp)%nat) as [Hi|Hi].
      * rewrite !lookup_take_lt, !lookup_drop by done. unfold buf. rewrite nuls_keep by (try apply Hw; done || lia). by rewrite lookup_app_l by lia.
      * rewrite !lookup_take_ge by lia. done.
    + rewrite drop_drop. replace (fst sp + (snd sp - fst sp))%nat with (snd sp) by lia. apply drop_S. apply nuls_set; [done|]. rewrite length_app. simpl. lia.
  - intros Hn. apply Hnul. unfold sub in Hn. apply list_elem_of_lookup_1 in Hn as [i Hi]. apply lookup_take_Some in Hi as [Hi _]. rewrite lookup_drop in Hi. by eapply list_elem_of_lookup_2.
Qed.

(** What parsecmd() answers: every string of the command is a word of the line
    and, in the buffer, the C string at its start. *)
Definition strings_ok (r : cmd * list byte) : Prop :=
  ∀ sp, sp ∈ spans (fst r) → c_string (snd r) (fst sp) = sub sp ∧ forallb word_char (sub sp) = true ∧ sub sp ≠ [].

Lemma span_word sp : span_ok sp → forallb word_char (sub sp) = true ∧ sub sp ≠ [].
Proof.
  intros (Hb & Hw & _). split.
  - apply forallb_forall. intros c Hc%list_elem_of_In. unfold sub in Hc. apply list_elem_of_lookup_1 in Hc as [i Hi]. apply lookup_take_Some in Hi as [Hi Hlt]. rewrite lookup_drop in Hi.
    specialize (Hw (fst sp + i)%nat ltac:(lia)). unfold deref in Hw. by rewrite Hi in Hw.
  - intros E. apply (f_equal length) in E. unfold sub in E. rewrite length_take, length_drop in E. simpl in E. lia.
Qed.

Lemma cmd_strings c : cmd_ok c → strings_ok (c, nulterminate c (b ++ [Byte.x00])).
Proof.
  intros Hc sp Hin. cbn [fst snd] in *. rewrite nulterminate_spans. split; [by apply nuls_string|]. apply span_word. by eapply Forall_forall in Hc.
Qed.

Lemma parsecmd_pok : pok strings_ok 0 (parsecmd b).
Proof.
  unfold parsecmd. eapply pok_bind; [apply parse_pok; [lia|]; unfold parse_fuel; lia|].
  intros c s Hs Hc. destruct (peek_pok s (@nil byte)) as (r & p & -> & -> & ? & _); [lia|]. destruct (_ =? _)%nat; [|done]. ret_ok. by apply cmd_strings.
Qed.
End lex.
