(* ===== verification/ShPrint.v ===== *)
(** * user/sh.c: the parser reads back printed commands

    [ptoks lv t] prints the command [t] at a level of the grammar (0: a simple
    command or a block, 1: a pipeline, 2: with "&", 3: a list), with
    parentheses only where the level needs them; [print] is its text. *)

From stdpp Require Import base sets strings numbers list.
From coqutil Require Import Byte.
From S2P Require Import Prelude Ring Sysfile Sh ShThms.

Inductive rkind := RIn | ROut | RApp.

Inductive ast :=
| AExec (args : list (list byte))
| ARedir (c : ast) (k : rkind) (file : list byte)
| APipe (left right : ast)
| AList (left right : ast)
| ABack (c : ast).

Definition rtok (k : rkind) : tok := TS match k with RIn => c_lt | ROut => c_gt | RApp => c_plus end.
Definition parens (l : list tok) : list tok := TS c_open :: l ++ [TS c_close].

Fixpoint ptoks (lv : nat) (t : ast) : list tok :=
  match t with
  | AExec args => TW <$> args
  | ARedir c k f => ptoks 0 c ++ [rtok k; TW f]
  | APipe l r => let x := ptoks 0 l ++ TS c_bar :: ptoks 1 r in if (1 <=? lv)%nat then x else parens x
  | ABack c => let x := ptoks 2 c ++ [TS c_amp] in if (2 <=? lv)%nat then x else parens x
  | AList l r => let x := ptoks 2 l ++ TS c_semi :: ptoks 3 r in if (3 <=? lv)%nat then x else parens x
  end.

Definition tok_text (t : tok) : list byte :=
  match t with TW w => w | TS c => if ceq c c_plus then [c_gt; c_gt] else [c] end.
(** A space between tokens, a newline after the last. *)
Definition sep (l : list tok) : byte := match l with [] => Byte.x0a | _ => Byte.x20 end.
Fixpoint text (l : list tok) : list byte := match l with [] => [] | t :: l => tok_text t ++ sep l :: text l end.
Definition print (t : ast) : list byte := text (ptoks 3 t).

(** A word: not empty, and without white space, symbols or NUL. *)
Definition word_ok (w : list byte) : bool := negb (bool_decide (w = [])) && forallb (λ c, word_char c && negb (ceq c Byte.x00)) w.

(** What the shell can express: words, and fewer than MAXARGS arguments. *)
Fixpoint ast_ok (t : ast) : bool :=
  match t with
  | AExec args => forallb word_ok args && (length args <? MAXARGS)%nat
  | ARedir c _ f => ast_ok c && word_ok f
  | APipe l r | AList l r => ast_ok l && ast_ok r
  | ABack c => ast_ok c
  end.

(** What a redirection of the parser stands for. *)
Definition kind_mode (k : rkind) : Z * Z :=
  match k with RIn => (O_RDONLY, 0) | ROut => (Z.lor (Z.lor O_WRONLY O_CREATE) O_TRUNC, 1) | RApp => (Z.lor O_WRONLY O_CREATE, 1) end.

(** The parsed command [c] over the line [b] is [t]. *)
Fixpoint shows (b : list byte) (c : cmd) (t : ast) : Prop :=
  match c, t with
  | EXEC argv, AExec args => sub b <$> argv = args
  | REDIR c r, ARedir t k f => shows b c t ∧ sub b (r_file r) = f ∧ (r_mode r, r_fd r) = kind_mode k
  | PIPE l r, APipe l' r' | LIST l r, AList l' r' => shows b l l' ∧ shows b r r'
  | BACK c, ABack t => shows b c t
  | _, _ => False
  end.

(** The command runcmd() sees: its strings read from the buffer. *)
Fixpoint names (buf : list byte) (c : cmd) (t : ast) : Prop :=
  match c, t with
  | EXEC argv, AExec args => (λ sp, c_string buf (fst sp)) <$> argv = args
  | REDIR c r, ARedir t k f => names buf c t ∧ c_string buf (fst (r_file r)) = f ∧ (r_mode r, r_fd r) = kind_mode k
  | PIPE l r, APipe l' r' | LIST l r, AList l' r' => names buf l l' ∧ names buf r r'
  | BACK c, ABack t => names buf c t
  | _, _ => False
  end.

(** ** Tokens *)

Definition tok_ok (t : tok) : bool :=
  match t with TW w => word_ok w | TS c => inset [c_bar; c_open; c_close; c_semi; c_amp; c_lt; c_gt; c_plus] c end.
(** The character peek() sees. *)
Definition first_char (t : tok) : byte := match t with TW w => default Byte.x00 (head w) | TS c => if ceq c c_plus then c_gt else c end.
Definition sees (l : list byte) (ts : list tok) : bool := match ts with [] => false | t :: _ => inset l (first_char t) end.

Section lexing.
Context (b : list byte) (Hnul : Byte.x00 ∉ b).
Notation es := (length b).

Lemma lex_le s l : (s ≤ es)%nat → lex b s l → (length l ≤ es - s)%nat.
Proof.
  intros Hs H. induction H as [|s ret [q eq] s' ts Hlt E H IH]; simpl; [lia|].
  destruct (gettoken_bounds b Hnul s ret q eq s' Hs E) as (Hs' & -> & Hb). destruct (Nat.eqb_spec (skip_ws b s) es); [lia|]. specialize (IH Hs'). lia.
Qed.

(** peek() looks at the next token and moves to it. *)
Lemma lex_skip s l : (s ≤ es)%nat → lex b s l → lex b (skip_ws b s) l.
Proof.
  intros Hs H. inversion H as [s0 E|s0 ret sp s' ts Hlt E Hl]; subst.
  - apply lex_nil. by rewrite skip_ws_idem.
  - econstructor; [by rewrite skip_ws_idem| |done]. unfold gettoken in *. by rewrite skip_ws_idem.
Qed.

Lemma word_not_symbol c l : word_char c = true → (∀ x, x ∈ l → x ∈ symbols) → inset l c = false.
Proof.
  intros Hw Hl. apply not_true_is_false. intros Hin%inset_spec. apply Hl, inset_spec in Hin. unfold word_char in Hw. rewrite Hin in Hw. by rewrite andb_false_r in Hw.
Qed.

Lemma peek_lex s t l cs : (s ≤ es)%nat → lex b s (t :: l) → tok_ok t = true → peek b s cs = (inset cs (deref b (skip_ws b s)), skip_ws b s).
Proof.
  intros Hs H Ht. unfold peek. pose proof (skip_bounds b (inset whitespace) s Hs) as Hb. fold (skip_ws b s) in Hb. inversion H as [|s0 ret sp s' ts Hlt E Hl]; subst.
  rewrite deref_nul by (done || lia). destruct (Nat.eqb_spec (skip_ws b s) es); [lia|done].
Qed.
End lexing.

(** ** Lexing printed tokens *)

Section scan.
Context (b pre rest : list byte).

Lemma deref_at w c post : b = pre ++ w ++ c :: post → deref b (length pre + length w) = c.
Proof. intros ->. unfold deref. rewrite app_assoc, <- length_app, lookup_app_r, Nat.sub_diag by done. done. Qed.

(** skip() over [w], which is followed by a character outside the set or the end. *)
Lemma skip_over f w : b = pre ++ w ++ rest → forallb f w = true → match rest with [] => True | c :: _ => f c = false end →
  skip b f (length pre) = (length pre + length w)%nat.
Proof.
  intros Hb Hw Hr. unfold skip.
  assert (Hk : (length b - length pre = length w + length rest)%nat) by (rewrite Hb, !length_app; lia). rewrite Hk. clear Hk.
  revert pre Hb. induction w as [|x w IH]; intros pre' Hb; cbn [length].
  - rewrite Nat.add_0_r. cbn [Nat.add]. destruct rest as [|c post]; [done|]. cbn [length skip_while].
    assert (Hd : deref b (length pre') = c) by (subst b; unfold deref; by rewrite lookup_app_r, Nat.sub_diag by done). by rewrite Hd, Hr.
  - cbn [forallb] in Hw. apply andb_true_iff in Hw as [Hx Hw]. cbn [Nat.add skip_while].
    assert (Hd : deref b (length pre') = x) by (subst b; unfold deref; by rewrite lookup_app_r, Nat.sub_diag by done). rewrite Hd, Hx.
    specialize (IH Hw (pre' ++ [x])). rewrite length_app in IH. cbn [length] in IH. rewrite Nat.add_1_r in IH. rewrite IH; [lia|]. by rewrite <- app_assoc.
Qed.
End scan.

Lemma word_ok_cons w : word_ok w = true → ∃ c w', w = c :: w' ∧ word_char c = true ∧ c ≠ Byte.x00 ∧ forallb word_char w = true.
Proof.
  unfold word_ok. intros [Hne Hall]%andb_true_iff. destruct w as [|c w]; [done|]. exists c, w. split; [done|]. cbn [forallb] in *.
  apply andb_true_iff in Hall as [Hc Hall]. apply andb_true_iff in Hc as [Hc Hn]. split; [done|]. split.
  - intros ->. by rewrite ceq_refl in Hn.
  - rewrite Hc. apply forallb_forall. intros x Hx. rewrite forallb_forall in Hall. specialize (Hall x Hx). by apply andb_true_iff in Hall as [? _].
Qed.

(** The symbols, one by one. *)
Lemma symbol_cases c : tok_ok (TS c) = true → c = c_bar ∨ c = c_open ∨ c = c_close ∨ c = c_semi ∨ c = c_amp ∨ c = c_lt ∨ c = c_gt ∨ c = c_plus.
Proof. intros H%inset_spec. rewrite !elem_of_cons, elem_of_nil in H. naive_solver. Qed.

Ltac symbol_case c H := destruct (symbol_cases c H) as [-> | [-> | [-> | [-> | [-> | [-> | [-> | ->]]]]]]].

Lemma tok_text_first t : tok_ok t = true → ∃ c w, tok_text t = c :: w ∧ c = first_char t ∧ inset whitespace c = false ∧ c ≠ Byte.x00.
Proof.
  destruct t as [w|c]; intros H.
  - destruct (word_ok_cons w H) as (c & w' & -> & Hc & Hn & _). exists c, w'. split_and!; try done. unfold word_char in Hc. apply andb_true_iff in Hc as [Hc _]. by apply negb_true_iff.
  - symbol_case c H; eexists _, _; split_and!; done.
Qed.

Lemma text_first l : forallb tok_ok l = true → match text l with [] => l = [] | c :: _ => inset whitespace c = false end.
Proof.
  destruct l as [|t l]; [done|]. cbn [forallb]. intros [Ht _]%andb_true_iff. destruct (tok_text_first t Ht) as (c & w & E & _ & Hc & _).
  cbn [text]. by rewrite E.
Qed.

Lemma text_cons t l : text (t :: l) = tok_text t ++ sep l :: text l.
Proof. done. Qed.

(** After a token: over its space. *)
Lemma skip_space b pre l : b = pre ++ sep l :: text l → forallb tok_ok l = true → skip_ws b (length pre) = S (length pre).
Proof.
  intros Hb Hl. unfold skip_ws. rewrite (skip_over b pre (text l) _ [sep l]); [simpl; lia|done|by destruct l|]. pose proof (text_first l Hl) as H. by destruct (text l).
Qed.

(** gettoken() on printed tokens. *)
Lemma gettoken_text b pre t l : b = pre ++ text (t :: l) → forallb tok_ok (t :: l) = true → ∃ ret sp,
  gettoken b (length pre) = (ret, sp, (length pre + length (tok_text t) + 1)%nat) ∧ tok_of b ret sp = t ∧ skip_ws b (length pre) = length pre.
Proof.
  rewrite text_cons. intros Hb Hok. cbn [forallb] in Hok. apply andb_true_iff in Hok as [Ht Hl]. destruct (tok_text_first t Ht) as (c & w & Et & Ec & Hws & Hn).
  assert (Hsk : skip_ws b (length pre) = length pre).
  { unfold skip_ws. rewrite (skip_over b pre (tok_text t ++ sep l :: text l) _ []); [simpl; lia|done|done|]. by rewrite Et. }
  assert (Hsp : skip_ws b (length pre + length (tok_text t)) = (length pre + length (tok_text t) + 1)%nat).
  { rewrite <- length_app, (skip_space b (pre ++ tok_text t) l); [lia| |done]. by rewrite <- app_assoc. }
  assert (Hd : deref b (length pre) = c) by (rewrite Hb, Et; unfold deref; by rewrite lookup_app_r, Nat.sub_diag by done).
  unfold gettoken. rewrite Hsk, Hd. destruct t as [w0|c0].
  - cbn [tok_text] in *. destruct (word_ok_cons w0 Ht) as (c1 & w1 & E & Hc1 & _ & Hall). rewrite E in Et. injection Et as -> ->.
    assert (Hsym : ∀ x, x ∈ symbols → ceq c x = false).
    { intros x Hx. apply not_true_is_false. intros ->%ceq_spec. apply inset_spec in Hx. unfold word_char in Hc1. by rewrite Hx, andb_false_r in Hc1. }
    rewrite (not_true_is_false (ceq c Byte.x00)) by (by intros ->%ceq_spec).
    rewrite !Hsym by (unfold symbols; set_solver). cbn [orb].
    rewrite (skip_over b pre (sep l :: text l) word_char w0 Hb Hall) by (by destruct l). rewrite Hsp. eexists _, _. split_and!; [done| |done].
    unfold tok_of. rewrite ceq_refl. unfold sub. cbn [fst snd]. rewrite Hb, drop_app_length. f_equal. rewrite Nat.add_comm, Nat.add_sub. by rewrite take_app_length.
  - assert (Hgt : ceq (sep l) c_gt = false) by (by destruct l). assert (Hd1 : deref b (S (length pre)) = default (sep l) (head w)).
    { rewrite Hb, Et. unfold deref. rewrite lookup_app_r by lia. replace (S (length pre) - length pre)%nat with 1%nat by lia. by destruct w. }
    cbn [tok_text] in *. symbol_case c0 Ht; injection Et as <- <-; cbn in Hsp |- *; rewrite ?Hd1; cbn in Hd1 |- *; rewrite ?Hgt;
      replace (S (length pre)) with (length pre + 1)%nat by lia; try (replace (S (length pre + 1)) with (length pre + 2)%nat by lia); rewrite Hsp; eexists _, _; split_and!; done.
Qed.

Lemma lex_text b pre l : b = pre ++ text l → forallb tok_ok l = true → lex b (length pre) l.
Proof.
  revert pre. induction l as [|t l IH]; intros pre Hb Hok.
  - apply lex_nil. rewrite Hb. cbn [text]. rewrite app_nil_r. unfold skip_ws, skip. by rewrite Nat.sub_diag.
  - destruct (gettoken_text b pre t l Hb Hok) as (ret & sp & E & Et & Hs). rewrite <- Et. econstructor; [|done|].
    + rewrite Hs, Hb, text_cons, !length_app. simpl. lia.
    + cbn [forallb] in Hok. apply andb_true_iff in Hok as [_ Hok]. specialize (IH (pre ++ tok_text t ++ [sep l])). rewrite !length_app in IH. cbn [length] in IH.
      rewrite Nat.add_assoc in IH. apply IH; [|done]. rewrite Hb, text_cons, <- !app_assoc. done.
Qed.

(** ** Parsing tokens *)

Definition rtoks (rs : list (rkind * list byte)) : list tok := mjoin ((λ r, [rtok r.1; TW r.2]) <$> rs).
Definition awrap (t : ast) (rs : list (rkind * list byte)) : ast := foldl (λ c r, ARedir c r.1 r.2) t rs.
Definition ends (cs : list byte) (rest : list tok) : bool := match rest with [] => true | TS c :: _ => inset cs c | TW _ :: _ => false end.

Definition stop0 : list byte := [c_bar; c_close; c_amp; c_semi].
Definition stop1 : list byte := [c_close; c_amp; c_semi].
Definition stop2 : list byte := [c_close; c_semi].
Definition stop3 : list byte := [c_close].

Section parsing.
Context (b : list byte) (Hnul : Byte.x00 ∉ b).
Notation es := (length b).

Lemma lex_first s t l : (s ≤ es)%nat → lex b s (t :: l) → deref b (skip_ws b s) = first_char t.
Proof.
  intros Hs H. inversion H as [|s0 ret [q eq] s' ts Hlt E Hl]; subst. destruct (gettoken_bounds b Hnul s ret q eq s' Hs E) as (_ & -> & Hb).
  destruct (Nat.eqb_spec (skip_ws b s) es); [lia|]. destruct Hb as (_ & Hq & _). unfold gettoken in E.
  rewrite deref_nul in E by (done || lia). destruct (Nat.eqb_spec (skip_ws b s) es); [lia|]. set (c := deref b (skip_ws b s)) in *.
  destruct (ceq c c_bar || ceq c c_open || ceq c c_close || ceq c c_semi || ceq c c_amp || ceq c c_lt) eqn:E1.
  { injection E as <- <- <-. repeat (apply orb_true_iff in E1 as [E1|E1]); apply ceq_spec in E1; by rewrite E1. }
  destruct (ceq c c_gt) eqn:E2.
  - apply ceq_spec in E2. destruct (ceq (deref b (S (skip_ws b s))) c_gt); injection E as <- <- <-; rewrite E2; done.
  - injection E as <- <- <-. unfold tok_of. rewrite ceq_refl. cbn [first_char]. unfold sub. cbn [fst snd].
    destruct (lookup_lt_is_Some_2 b (skip_ws b s) Hlt) as [x Hx]. unfold c, deref. rewrite Hx. rewrite (drop_S _ _ _ Hx).
    destruct (skip b word_char (skip_ws b s) - skip_ws b s)%nat eqn:En; [lia|]. done.
Qed.

Lemma peek_tok s t l cs : (s ≤ es)%nat → lex b s (t :: l) → peek b s cs = (inset cs (first_char t), skip_ws b s).
Proof.
  intros Hs H. rewrite <- (lex_first s t l Hs H). unfold peek. inversion H as [|s0 ret sp s' ts Hlt E Hl]; subst.
  rewrite deref_nul by (done || lia). destruct (Nat.eqb_spec (skip_ws b s) es); [lia|done].
Qed.

Lemma peek_end s cs : (s ≤ es)%nat → lex b s [] → peek b s cs = (false, skip_ws b s).
Proof. intros Hs H. inversion H as [s0 E|]; subst. unfold peek. rewrite E. by rewrite deref_end. Qed.

(** peek() on any rest of the line. *)
Lemma peek_sees s l cs : (s ≤ es)%nat → lex b s l → peek b s cs = (sees cs l, skip_ws b s).
Proof. intros Hs H. destruct l as [|t l]; [by apply peek_end|by apply (peek_tok s t l)]. Qed.

Lemma skip_ws_le s : (s ≤ es)%nat → (skip_ws b s ≤ es)%nat.
Proof. intros Hs. pose proof (skip_bounds b (inset whitespace) s Hs). unfold skip_ws. lia. Qed.

(** gettoken() takes the next token. *)
Lemma gettoken_lex s t l : (s ≤ es)%nat → lex b s (t :: l) → ∃ ret sp s', gettoken b s = (ret, sp, s') ∧ tok_of b ret sp = t ∧ lex b s' l ∧ (s' ≤ es)%nat ∧ ceq ret Byte.x00 = false.
Proof.
  intros Hs H. inversion H as [|s0 ret [q eq] s' ts Hlt E Hl]; subst. exists ret, (q, eq), s'.
  destruct (gettoken_bounds b Hnul s ret q eq s' Hs E) as (Hs' & -> & Hb). destruct (Nat.eqb_spec (skip_ws b s) es); [lia|]. split_and!; try done.
  apply not_true_is_false. intros ->%ceq_spec. by destruct Hb.
Qed.

Lemma tok_of_TS ret sp c : tok_of b ret sp = TS c → ret = c ∧ ceq ret c_a = false.
Proof. unfold tok_of. destruct (ceq ret c_a); [done|]. by intros [= ->]. Qed.
Lemma tok_of_TW ret sp w : tok_of b ret sp = TW w → ceq ret c_a = true ∧ sub b sp = w.
Proof. unfold tok_of. destruct (ceq ret c_a); [|done]. by intros [= ->]. Qed.

(** What the parser made of a list of redirections. *)
Definition shows_r (r : redir) (x : rkind * list byte) : Prop := sub b (r_file r) = x.2 ∧ (r_mode r, r_fd r) = kind_mode x.1.

Lemma shows_wrap c t l rs : shows b c t → Forall2 shows_r l rs → shows b (wrap c l) (awrap t rs).
Proof. intros Hc H. revert c t Hc. induction H as [|r x l rs [H1 H2] H IH]; intros c t Hc; [done|]. apply IH. simpl. by split_and!. Qed.

Definition noredir (rest : list tok) : Prop := sees [c_lt; c_gt] rest = false.

Lemma redirs_spec rs k s rest : (s ≤ es)%nat → lex b s (rtoks rs ++ rest) → noredir rest → (length rs ≤ k)%nat → ∃ l s',
  redirs_loop b k s = POk l s' ∧ Forall2 shows_r l rs ∧ lex b s' rest ∧ (s' ≤ es)%nat.
Proof.
  revert k s. induction rs as [|[kd f] rs IH]; intros k s Hs Hl Hno Hk.
  - exists [], (skip_ws b s). destruct k; cbn [redirs_loop]; rewrite (peek_sees s rest) by done; rewrite Hno; (split_and!; [done|constructor|by apply lex_skip|by apply skip_ws_le]).
  - destruct k as [|k]; [simpl in Hk; lia|]. cbn [redirs_loop]. change (rtoks ((kd, f) :: rs) ++ rest) with (rtok kd :: TW f :: rtoks rs ++ rest) in Hl.
    rewrite (peek_sees _ _ _ Hs Hl). replace (sees _ _) with true by (by destruct kd).
    apply lex_skip in Hl; [|done]. destruct (gettoken_lex _ _ _ (skip_ws_le s Hs) Hl) as (ret & sp & s1 & E1 & T1 & L1 & S1 & _). rewrite E1.
    destruct (gettoken_lex _ _ _ S1 L1) as (ret2 & sp2 & s2 & E2 & T2 & L2 & S2 & _). rewrite E2. apply tok_of_TW in T2 as [Ha Hsub]. rewrite Ha. cbn [negb].
    destruct (IH k s2 S2 L2 Hno ltac:(simpl in Hk; lia)) as (l & s' & E & Hf & L & S'). rewrite E. cbn [pbind]. eexists _, s'. split; [reflexivity|]. split; [|done].
    constructor; [|done]. apply tok_of_TS in T1 as [-> _]. by destruct kd.
Qed.

Lemma ends_noredir rest : ends stop0 rest = true → noredir rest.
Proof.
  unfold noredir. destruct rest as [|[w|c] rest]; [done|done|]. cbn [ends sees first_char]. intros H%inset_spec.
  unfold stop0 in H. rewrite !elem_of_cons, elem_of_nil in H. destruct H as [-> | [-> | [-> | [-> | []]]]]; done.
Qed.

Lemma ends_sees cs cs' rest : ends cs rest = true → (∀ c, c ∈ cs → inset cs' (if ceq c c_plus then c_gt else c) = false) → sees cs' rest = false.
Proof. destruct rest as [|[w|c] rest]; [done|done|]. cbn [ends sees first_char]. intros H%inset_spec Hcs. by apply Hcs. Qed.

Lemma ends_weaken cs cs' rest : ends cs rest = true → (∀ c, c ∈ cs → inset cs' c = true) → ends cs' rest = true.
Proof. destruct rest as [|[w|c] rest]; [done|done|]. cbn [ends]. intros H%inset_spec Hcs. by apply Hcs. Qed.

(** The words of the arguments are not symbols. *)
Lemma sees_word w cs l : word_ok w = true → (∀ x, x ∈ cs → x ∈ symbols) → sees cs (TW w :: l) = false.
Proof. intros Hw Hcs. destruct (word_ok_cons w Hw) as (c & w' & -> & Hc & _). cbn [sees first_char head default from_option]. by apply word_not_symbol. Qed.

Lemma rtoks_length rs : length (rtoks rs) = (2 * length rs)%nat.
Proof. induction rs as [|r rs IH]; [done|]. change (rtoks (r :: rs)) with (rtok r.1 :: TW r.2 :: rtoks rs). simpl. lia. Qed.

Lemma parseredirs_spec rs s rest : (s ≤ es)%nat → lex b s (rtoks rs ++ rest) → noredir rest → ∃ l s',
  parseredirs b s = POk l s' ∧ Forall2 shows_r l rs ∧ lex b s' rest ∧ (s' ≤ es)%nat.
Proof.
  intros Hs Hl Hno. apply redirs_spec; try done. apply lex_le in Hl; try done. rewrite length_app, rtoks_length in Hl. lia.
Qed.

Lemma args_spec args : ∀ rs k argc s rest, (s ≤ es)%nat → lex b s ((TW <$> args) ++ rtoks rs ++ rest) → ends stop0 rest = true → forallb word_ok args = true →
  (length args ≤ k)%nat → (argc + length args < MAXARGS)%nat → (args = [] → rs = []) → ∃ spans l s',
  args_loop b k argc s = POk (spans, l) s' ∧ sub b <$> spans = args ∧ Forall2 shows_r l rs ∧ lex b s' rest ∧ (s' ≤ es)%nat.
Proof.
  induction args as [|w args IH]; intros rs k argc s rest Hs Hl He Hw Hk Hargc Hrs.
  - rewrite (Hrs eq_refl) in *. cbn [fmap list_fmap app rtoks mjoin list_join] in Hl.
    assert (∃ s', args_loop b k argc s = POk ([], []) s' ∧ lex b s' rest ∧ (s' ≤ es)%nat) as (s' & E & L & S').
    { pose proof (lex_skip b s rest Hs Hl) as Hl1. pose proof (skip_ws_le s Hs) as Hs1. destruct k; cbn [args_loop]; fold stop0; rewrite (peek_sees s rest) by done.
      all: destruct rest as [|[w|c] rest]; [|done|].
      all: try (cbn [sees ends first_char] in *; assert (c ≠ c_plus) by (intros ->; done); destruct (ceq c c_plus) eqn:E; [by apply ceq_spec in E|]; rewrite He; by eexists).
      all: cbn [sees]; destruct (gettoken b (skip_ws b s)) as [[ret [q eq]] s1] eqn:E; destruct (gettoken_bounds b Hnul _ _ _ _ _ Hs1 E) as (_ & -> & Hb);
        inversion Hl1 as [s0 Ee|]; subst; rewrite Ee, Nat.eqb_refl in Hb; destruct Hb as [-> ->]; exists es; split; [done|split; [|done]]; apply lex_nil; unfold skip_ws, skip; by rewrite Nat.sub_diag. }
    exists [], [], s'. split_and!; try done.
  - destruct k as [|k]; [simpl in Hk; lia|]. cbn [fmap list_fmap app] in Hl. cbn [forallb] in Hw. apply andb_true_iff in Hw as [Hww Hw]. cbn [args_loop].
    fold stop0. rewrite (peek_sees _ _ _ Hs Hl), (sees_word w stop0) by (done || unfold stop0, symbols; set_solver).
    apply lex_skip in Hl; [|done]. destruct (gettoken_lex _ _ _ (skip_ws_le s Hs) Hl) as (ret & sp & s1 & E1 & T1 & L1 & S1 & Hr). rewrite E1, Hr.
    apply tok_of_TW in T1 as [Ha Hsub]. rewrite Ha. cbn [negb length] in *. destruct (Nat.leb_spec MAXARGS (S argc)); [lia|].
    destruct args as [|w2 args].
    + destruct (parseredirs_spec rs s1 rest S1 L1 (ends_noredir rest He)) as (l & s2 & E2 & F2 & L2 & S2). rewrite E2. cbn [pbind].
      destruct (IH [] k (S argc) s2 rest S2 L2 He eq_refl) as (spans & l2 & s3 & E3 & Hsp & F3 & L3 & S3); [simpl in *; lia|simpl in *; lia|done|].
      apply Forall2_nil_inv_r in F3 as ->. apply fmap_nil_inv in Hsp as ->. rewrite E3. cbn [pbind fst snd]. exists [sp], (l ++ []), s3. rewrite app_nil_r. split_and!; try done.
      cbn [fmap list_fmap]. by rewrite Hsub.
    + destruct (parseredirs_spec [] s1 ((TW <$> w2 :: args) ++ rtoks rs ++ rest) S1 L1) as (l & s2 & E2 & F2 & L2 & S2).
      { cbn [forallb] in Hw. apply andb_true_iff in Hw as [Hw2 _]. apply (sees_word w2); [done|]. unfold symbols; set_solver. }
      apply Forall2_nil_inv_r in F2 as ->. rewrite E2. cbn [pbind].
      destruct (IH rs k (S argc) s2 rest S2 L2 He Hw) as (spans & l2 & s3 & E3 & Hsp & F3 & L3 & S3); [simpl in *; lia|simpl in *; lia|done|].
      rewrite E3. cbn [pbind fst snd app]. exists (sp :: spans), l2, s3. split_and!; try done. rewrite fmap_cons, Hsub. by f_equal.
Qed.

(** A simple command. *)
Lemma exec_spec args rs n s rest : (s ≤ es)%nat → lex b s ((TW <$> args) ++ rtoks rs ++ rest) → ends stop0 rest = true → forallb word_ok args = true →
  (length args < MAXARGS)%nat → (0 < n)%nat → ∃ c s', parseexec b n s = POk c s' ∧ shows b c (awrap (AExec args) rs) ∧ lex b s' rest ∧ (s' ≤ es)%nat.
Proof.
  intros Hs Hl He Hw Hlen Hn. destruct n as [|n]; [lia|]. cbn [parseexec]. rewrite (peek_sees _ _ _ Hs Hl).
  assert (Hno : sees [c_open] ((TW <$> args) ++ rtoks rs ++ rest) = false).
  { destruct args as [|w args]; [|cbn [forallb] in Hw; apply andb_true_iff in Hw as [Hw _]; apply (sees_word w); [done|unfold symbols; set_solver]].
    destruct rs as [|[k f] rs]; [|by destruct k]. apply (ends_sees stop0); [done|]. intros c Hc. unfold stop0 in Hc. rewrite !elem_of_cons, elem_of_nil in Hc. by destruct Hc as [-> | [-> | [-> | [-> | []]]]]. }
  rewrite Hno. apply lex_skip in Hl; [|done]. pose proof (skip_ws_le s Hs) as Hs1. destruct args as [|w args].
  - destruct (parseredirs_spec rs _ rest Hs1 Hl (ends_noredir rest He)) as (l & s2 & E2 & F2 & L2 & S2). rewrite E2. cbn [pbind].
    destruct (args_spec [] [] (es - s2) 0 s2 rest S2 L2 He eq_refl) as (spans & l2 & s3 & E3 & Hsp & F3 & L3 & S3); [simpl; lia|simpl; unfold MAXARGS; lia|done|].
    apply Forall2_nil_inv_r in F3 as ->. rewrite E3. cbn [pbind fst snd]. eexists _, s3. split; [done|]. rewrite app_nil_r. split; [|done]. by apply shows_wrap.
  - destruct (parseredirs_spec [] (skip_ws b s) ((TW <$> w :: args) ++ rtoks rs ++ rest) Hs1 Hl) as (l & s2 & E2 & F2 & L2 & S2).
    { cbn [forallb] in Hw. apply andb_true_iff in Hw as [Hw2 _]. apply (sees_word w); [done|]. unfold symbols; set_solver. }
    apply Forall2_nil_inv_r in F2 as ->. rewrite E2. cbn [pbind].
    destruct (args_spec (w :: args) rs (es - s2) 0 s2 rest S2 L2 He Hw) as (spans & l2 & s3 & E3 & Hsp & F3 & L3 & S3); [|done|done|].
    { apply lex_le in L2; [|done|done]. rewrite length_app, length_fmap in L2. lia. }
    rewrite E3. cbn [pbind fst snd app]. eexists _, s3. split; [done|]. split; [|done]. by apply shows_wrap.
Qed.

(** ** The levels of the grammar *)

Definition P0 (t : ast) : Prop := ∀ rs n s rest, (s ≤ es)%nat → lex b s (ptoks 0 t ++ rtoks rs ++ rest) → ends stop0 rest = true →
  (4 * length (ptoks 0 t ++ rtoks rs) + 2 ≤ n)%nat →
  ∃ c s', parseexec b n s = POk c s' ∧ shows b c (awrap t rs) ∧ lex b s' rest ∧ (s' ≤ es)%nat.
Definition P1 (t : ast) : Prop := ∀ n s rest, (s ≤ es)%nat → lex b s (ptoks 1 t ++ rest) → ends stop1 rest = true →
  (4 * length (ptoks 1 t) + 3 ≤ n)%nat →
  ∃ c s', parsepipe b n s = POk c s' ∧ shows b c t ∧ lex b s' rest ∧ (s' ≤ es)%nat.
(** With the [m] "&" that follow. *)
Definition P2 (t : ast) : Prop := ∀ m n s rest, (s ≤ es)%nat → lex b s (ptoks 2 t ++ replicate m (TS c_amp) ++ rest) → ends stop2 rest = true →
  (4 * length (ptoks 2 t) + 3 ≤ n)%nat →
  ∃ c1 s1 c s', parsepipe b n s = POk c1 s1 ∧ back_loop b (es - s1) c1 s1 = POk c s' ∧ shows b c (Nat.iter m ABack t) ∧ lex b s' rest ∧ (s' ≤ es)%nat.
Definition P3 (t : ast) : Prop := ∀ n s rest, (s ≤ es)%nat → lex b s (ptoks 3 t ++ rest) → ends stop3 rest = true →
  (4 * length (ptoks 3 t) + 4 ≤ n)%nat →
  ∃ c s', parseline b n s = POk c s' ∧ shows b c t ∧ lex b s' rest ∧ (s' ≤ es)%nat.

Ltac stops := let c := fresh in let H := fresh in intros c H; unfold stop0, stop1, stop2, stop3 in *; rewrite !elem_of_cons, elem_of_nil in H;
  destruct_or! H; first [done | by subst c].

(** The peeked symbol is taken. *)
Lemma take_symbol s c l : (s ≤ es)%nat → lex b s (TS c :: l) → ∃ sp s', gettoken b (skip_ws b s) = (c, sp, s') ∧ lex b s' l ∧ (s' ≤ es)%nat.
Proof.
  intros Hs Hl. apply lex_skip in Hl; [|done]. destruct (gettoken_lex _ _ _ (skip_ws_le s Hs) Hl) as (ret & sp & s1 & E1 & T1 & L1 & S1 & _).
  apply tok_of_TS in T1 as [-> _]. eauto.
Qed.

Lemma back_spec m : ∀ k c t s rest, (s ≤ es)%nat → lex b s (replicate m (TS c_amp) ++ rest) → ends stop2 rest = true → (m ≤ k)%nat → shows b c t →
  ∃ c' s', back_loop b k c s = POk c' s' ∧ shows b c' (Nat.iter m ABack t) ∧ lex b s' rest ∧ (s' ≤ es)%nat.
Proof.
  induction m as [|m IH]; intros k c t s rest Hs Hl He Hk Hc.
  - exists c, (skip_ws b s). destruct k; cbn [back_loop]; rewrite (peek_sees s rest), (ends_sees stop2) by (done || stops);
      (split_and!; [done|done|by apply lex_skip|by apply skip_ws_le]).
  - destruct k as [|k]; [lia|]. cbn [back_loop]. cbn [replicate app] in Hl. rewrite (peek_sees _ _ _ Hs Hl). cbn [sees first_char].
    destruct (take_symbol _ _ _ Hs Hl) as (sp & s1 & E1 & L1 & S1). rewrite E1. rewrite Nat.iter_succ_r. by apply (IH k (BACK c) (ABack t)); [..|lia|].
Qed.

Lemma P0_P1 t : P0 t → ptoks 1 t = ptoks 0 t → P1 t.
Proof.
  intros H Et n s rest Hs Hl He Hn. rewrite Et in *. destruct n as [|n]; [lia|]. cbn [parsepipe].
  destruct (H [] n s rest Hs Hl) as (c & s1 & E & Hc & L & S1); [by apply (ends_weaken stop1); [|stops]|rewrite length_app; simpl; lia|].
  rewrite E. cbn [pbind]. rewrite (peek_sees s1 rest), (ends_sees stop1) by (done || stops). exists c, (skip_ws b s1). split_and!; [done|done|by apply lex_skip|by apply skip_ws_le].
Qed.

Lemma P1_P2 t : P1 t → ptoks 2 t = ptoks 1 t → P2 t.
Proof.
  intros H Et m n s rest Hs Hl He Hn. rewrite Et in *.
  destruct (H n s (replicate m (TS c_amp) ++ rest) Hs Hl) as (c & s1 & E & Hc & L & S1); [by destruct m; [apply (ends_weaken stop2); [|stops]|]|done|].
  destruct (back_spec m (es - s1) c t s1 rest) as (c' & s' & E' & Hc' & L' & S'); try done.
  - apply lex_le in L; [|done|done]. rewrite length_app, length_replicate in L. lia.
  - by exists c, s1, c', s'.
Qed.

Lemma P2_P3 t : P2 t → ptoks 3 t = ptoks 2 t → P3 t.
Proof.
  intros H Et n s rest Hs Hl He Hn. rewrite Et in *. destruct n as [|n]; [lia|]. cbn [parseline].
  destruct (H 0%nat n s rest Hs Hl) as (c1 & s1 & c & s2 & E1 & E2 & Hc & L & S2); [by apply (ends_weaken stop3); [|stops]|lia|].
  rewrite E1. cbn [pbind]. rewrite E2. cbn [pbind]. rewrite (peek_sees s2 rest), (ends_sees stop3) by (done || stops).
  exists c, (skip_ws b s2). split_and!; [done|done|by apply lex_skip|by apply skip_ws_le].
Qed.

(** A command in parentheses. *)
Lemma P3_P0 t : P3 t → ptoks 0 t = parens (ptoks 3 t) → P0 t.
Proof.
  intros H Et rs n s rest Hs Hl He Hn. rewrite Et in *. unfold parens in *. rewrite !length_app in Hn. cbn [length] in Hn. rewrite length_app in Hn. cbn [length] in Hn.
  destruct n as [|[|n]]; [lia|lia|]. cbn [parseexec parseblock]. cbn [app] in Hl. rewrite <- (app_assoc (ptoks 3 t)) in Hl. cbn [app] in Hl.
  rewrite (peek_sees _ _ _ Hs Hl). cbn [sees first_char]. change (inset [c_open] (if ceq c_open c_plus then c_gt else c_open)) with true. cbv iota.
  pose proof (skip_ws_le s Hs) as Hs1. apply lex_skip in Hl; [|done]. rewrite (peek_sees _ _ _ Hs1 Hl). cbn [sees first_char].
  change (inset [c_open] (if ceq c_open c_plus then c_gt else c_open)) with true. cbn [negb].
  destruct (take_symbol _ _ _ Hs1 Hl) as (sp & s2 & E2 & L2 & S2). rewrite E2.
  destruct (H n s2 (TS c_close :: rtoks rs ++ rest) S2 L2 eq_refl ltac:(lia)) as (c & s3 & E3 & Hc & L3 & S3). rewrite E3. cbn [pbind].
  rewrite (peek_sees _ _ _ S3 L3). cbn [sees first_char]. change (inset [c_close] (if ceq c_close c_plus then c_gt else c_close)) with true. cbn [negb].
  destruct (take_symbol _ _ _ S3 L3) as (sp4 & s4 & E4 & L4 & S4). rewrite E4.
  destruct (parseredirs_spec rs s4 rest S4 L4 (ends_noredir rest He)) as (l & s5 & E5 & F5 & L5 & S5). rewrite E5. cbn [pbind].
  eexists _, s5. split_and!; [done|by apply shows_wrap|done|done].
Qed.

Lemma P1_pipe l r : P0 l → P1 r → P1 (APipe l r).
Proof.
  intros Hl0 Hr n s rest Hs Hl He Hn. cbn [ptoks Nat.leb] in *. rewrite length_app in Hn. cbn [length] in Hn. destruct n as [|n]; [lia|]. cbn [parsepipe].
  rewrite <- app_assoc in Hl. cbn [app] in Hl.
  destruct (Hl0 [] n s (TS c_bar :: ptoks 1 r ++ rest) Hs Hl eq_refl) as (c & s1 & E1 & Hc & L1 & S1); [rewrite app_nil_r; lia|]. rewrite E1. cbn [pbind].
  rewrite (peek_sees _ _ _ S1 L1). cbn [sees first_char]. destruct (take_symbol _ _ _ S1 L1) as (sp & s2 & E2 & L2 & S2). rewrite E2.
  destruct (Hr n s2 rest S2 L2 He ltac:(lia)) as (c3 & s3 & E3 & Hc3 & L3 & S3). rewrite E3. exists (PIPE c c3), s3. by split_and!.
Qed.

Lemma P3_list l r : P2 l → P3 r → P3 (AList l r).
Proof.
  intros Hl2 Hr n s rest Hs Hl He Hn. cbn [ptoks Nat.leb] in *. rewrite length_app in Hn. cbn [length] in Hn. destruct n as [|n]; [lia|]. cbn [parseline].
  rewrite <- app_assoc in Hl. cbn [app] in Hl.
  destruct (Hl2 0%nat n s (TS c_semi :: ptoks 3 r ++ rest) Hs Hl eq_refl ltac:(lia)) as (c0 & s0 & c & s1 & E0 & E1 & Hc & L1 & S1). rewrite E0. cbn [pbind]. rewrite E1. cbn [pbind].
  rewrite (peek_sees _ _ _ S1 L1). cbn [sees first_char]. destruct (take_symbol _ _ _ S1 L1) as (sp & s2 & E2 & L2 & S2). rewrite E2.
  destruct (Hr n s2 rest S2 L2 He ltac:(lia)) as (c3 & s3 & E3 & Hc3 & L3 & S3). rewrite E3. exists (LIST c c3), s3. by split_and!.
Qed.

Lemma P2_back t : P2 t → P2 (ABack t).
Proof.
  intros H m n s rest Hs Hl He Hn. cbn [ptoks Nat.leb] in *. rewrite length_app in Hn. cbn [length] in Hn. rewrite <- Nat.iter_succ_r. apply (H (S m)); try done; [|lia].
  rewrite <- app_assoc in Hl. exact Hl.
Qed.

Lemma P0_exec args : forallb word_ok args && (length args <? MAXARGS)%nat = true → P0 (AExec args).
Proof.
  intros [Hw Hlen]%andb_true_iff rs n s rest Hs Hl He Hn. apply Nat.ltb_lt in Hlen. apply exec_spec; try done. lia.
Qed.

Lemma P0_redir t k f : P0 t → P0 (ARedir t k f).
Proof.
  intros H rs n s rest Hs Hl He Hn. cbn [ptoks] in *. apply (H ((k, f) :: rs)); try done.
  - rewrite <- app_assoc in Hl. exact Hl.
  - rewrite <- app_assoc in Hn. exact Hn.
Qed.

(** Every command is read back at every level. *)
Lemma levels t : ast_ok t = true → P0 t ∧ P1 t ∧ P2 t ∧ P3 t.
Proof.
  induction t as [args|t IH k f|l IHl r IHr|l IHl r IHr|t IH]; cbn [ast_ok]; intros Hok.
  - pose proof (P0_exec args Hok) as H0. pose proof (P0_P1 _ H0 eq_refl) as H1. pose proof (P1_P2 _ H1 eq_refl) as H2. by pose proof (P2_P3 _ H2 eq_refl).
  - apply andb_true_iff in Hok as [Hok _]. destruct (IH Hok) as (H0 & _). apply (P0_redir _ k f) in H0.
    pose proof (P0_P1 _ H0 eq_refl) as H1. pose proof (P1_P2 _ H1 eq_refl) as H2. by pose proof (P2_P3 _ H2 eq_refl).
  - apply andb_true_iff in Hok as [Hokl Hokr]. destruct (IHl Hokl) as (Hl & _), (IHr Hokr) as (_ & Hr & _).
    pose proof (P1_pipe _ _ Hl Hr) as H1. pose proof (P1_P2 _ H1 eq_refl) as H2. pose proof (P2_P3 _ H2 eq_refl) as H3. by pose proof (P3_P0 _ H3 eq_refl).
  - apply andb_true_iff in Hok as [Hokl Hokr]. destruct (IHl Hokl) as (_ & _ & Hl & _), (IHr Hokr) as (_ & _ & _ & Hr).
    pose proof (P3_list _ _ Hl Hr) as H3. pose proof (P3_P0 _ H3 eq_refl) as H0. pose proof (P0_P1 _ H0 eq_refl) as H1. by pose proof (P1_P2 _ H1 eq_refl).
  - destruct (IH Hok) as (_ & _ & H2 & _). apply P2_back in H2.
    pose proof (P2_P3 _ H2 eq_refl) as H3. pose proof (P3_P0 _ H3 eq_refl) as H0. by pose proof (P0_P1 _ H0 eq_refl).
Qed.
End parsing.

(** ** The round trip *)

Lemma shows_names b buf c t : (∀ sp, sp ∈ spans c → c_string buf (fst sp) = sub b sp) → shows b c t → names buf c t.
Proof.
  revert t. induction c as [argv|c IH r|l IHl r IHr|l IHl r IHr|c IH]; intros t H; destruct t as [args|t k f|tl tr|tl tr|t]; try done; cbn [shows names spans] in *.
  - intros <-. apply list_fmap_ext. intros i sp Hi. apply H. by eapply list_elem_of_lookup_2.
  - intros (Hc & Hf & Hm). split_and!; [apply IH; [|done]|rewrite H; [done|]|done]; set_solver.
  - intros [Hl Hr]. split; [apply IHl|apply IHr]; try done; set_solver.
  - intros [Hl Hr]. split; [apply IHl|apply IHr]; try done; set_solver.
  - by apply IH.
Qed.

Lemma words_tok_ok args : forallb word_ok args = true → forallb tok_ok (TW <$> args) = true.
Proof. induction args as [|w args IH]; [done|]. cbn [forallb fmap list_fmap tok_ok]. intros [-> H]%andb_true_iff. by apply IH. Qed.

Lemma parens_ok l : forallb tok_ok (parens l) = forallb tok_ok l.
Proof. unfold parens. cbn [forallb]. rewrite forallb_app. cbn. by rewrite andb_true_r. Qed.

Lemma ptoks_ok t lv : ast_ok t = true → forallb tok_ok (ptoks lv t) = true.
Proof.
  revert lv. induction t as [args|t IH k f|l IHl r IHr|l IHl r IHr|t IH]; intros lv; cbn [ast_ok ptoks]; intros Hok.
  - apply andb_true_iff in Hok as [Hok _]. by apply words_tok_ok.
  - apply andb_true_iff in Hok as [Hok Hf]. rewrite forallb_app, (IH _ Hok). cbn [forallb tok_ok]. rewrite Hf. by destruct k.
  - apply andb_true_iff in Hok as [Hl Hr]. destruct (1 <=? lv)%nat; rewrite ?parens_ok, forallb_app; cbn [forallb]; by rewrite (IHl _ Hl), (IHr _ Hr).
  - apply andb_true_iff in Hok as [Hl Hr]. destruct (3 <=? lv)%nat; rewrite ?parens_ok, forallb_app; cbn [forallb]; by rewrite (IHl _ Hl), (IHr _ Hr).
  - destruct (2 <=? lv)%nat; rewrite ?parens_ok, forallb_app; cbn [forallb]; by rewrite (IH _ Hok).
Qed.

Lemma tok_text_nul t : tok_ok t = true → Byte.x00 ∉ tok_text t.
Proof.
  destruct t as [w|c]; cbn [tok_ok tok_text].
  - unfold word_ok. intros [_ H]%andb_true_iff Hin. rewrite forallb_forall in H. apply list_elem_of_In in Hin. specialize (H _ Hin). by apply andb_true_iff in H as [_ H].
  - intros Hc Hin. destruct (ceq c c_plus); [set_solver|]. apply list_elem_of_singleton in Hin as <-. done.
Qed.

Lemma text_nul l : forallb tok_ok l = true → Byte.x00 ∉ text l.
Proof.
  induction l as [|t l IH]; [set_solver|]. cbn [forallb]. intros [Ht Hl]%andb_true_iff. rewrite text_cons. pose proof (tok_text_nul t Ht). specialize (IH Hl).
  rewrite elem_of_app, elem_of_cons. intros [?|[?|?]]; [done|by destruct l|done].
Qed.

(** The line of a command parses to the command. *)
Lemma parse_print t : ast_ok t = true →
  ∃ c buf, parsecmd (print t) = POk (c, buf) (length (print t)) ∧ length buf = S (length (print t)) ∧ names buf c t.
Proof.
  intros Hok. pose proof (ptoks_ok t 3 Hok) as Htok. pose proof (text_nul _ Htok) as Hnul. fold (print t) in Hnul. set (b := print t) in *.
  pose proof (lex_text b [] (ptoks 3 t) eq_refl Htok) as Hl. cbn [length] in Hl. pose proof (lex_le b Hnul 0 _ ltac:(lia) Hl) as Hlen.
  destruct (levels b Hnul t Hok) as (_ & _ & _ & H3). rewrite <- (app_nil_r (ptoks 3 t)) in Hl.
  destruct (H3 (parse_fuel b) 0%nat [] ltac:(lia) Hl eq_refl) as (c & s' & E & Hc & L & S'); [unfold parse_fuel; lia|].
  pose proof (parsecmd_pok b Hnul) as Hp. inversion L as [s0 Es|]; subst s0. unfold parsecmd in *. rewrite E in *. cbn [pbind peek] in *. rewrite Es, Nat.eqb_refl in *.
  destruct Hp as [_ Hstr]. exists c, (nulterminate c (b ++ [Byte.x00])). split_and!; [done|..].
  - rewrite nulterminate_spans, nul_at_length, length_app. simpl. lia.
  - apply (shows_names b); [|done]. intros sp Hsp. by apply (Hstr sp).
Qed.

(** C37: printing a command (any nesting of pipelines, lists, background
    commands and redirections of commands with fewer than MAXARGS words) and
    parsing the line with parsecmd() gives the command back: the tree has the
    same shape, and the argument and file names runcmd() reads from the
    NUL-terminated buffer, the open modes and the descriptors are the printed
    ones. *)
Theorem parse_print_roundtrip t : ast_ok t = true →
  ∃ c buf, parsecmd (print t) = POk (c, buf) (length (print t)) ∧ length buf = S (length (print t)) ∧ names buf c t.
Proof. apply parse_print. Qed.

(** (a < in | b > out &); c | (d; e) *)
Lemma parse_print_roundtrip_witness : ∃ t c buf, ast_ok t = true ∧ parsecmd (print t) = POk (c, buf) (length (print t)) ∧ names buf c t.
Proof.
  set (w := λ c : byte, [c; Byte.x31]).
  exists (AList (ABack (APipe (ARedir (AExec [w Byte.x61]) RIn (w Byte.x66)) (ARedir (AExec [w Byte.x62; w Byte.x78]) ROut (w Byte.x67))))
                (APipe (AExec [w Byte.x63]) (ARedir (AList (AExec [w Byte.x64]) (AExec [w Byte.x65])) RApp (w Byte.x68)))).
  destruct (parse_print_roundtrip (AList (ABack (APipe (ARedir (AExec [w Byte.x61]) RIn (w Byte.x66)) (ARedir (AExec [w Byte.x62; w Byte.x78]) ROut (w Byte.x67))))
                (APipe (AExec [w Byte.x63]) (ARedir (AList (AExec [w Byte.x64]) (AExec [w Byte.x65])) RApp (w Byte.x68))))) as (c & buf & E & _ & H); [reflexivity|].
  exists c, buf. split; [reflexivity|]. by split.
Defined.

(** C38: parsecmd() terminates on every line: it consumes the whole line and
    returns a command, or it panics.  In the buffer it leaves, every counted
    string of the command is a non-empty word of the line, and the C string at
    its start is exactly that word. *)
Theorem parsecmd_terminates b : Byte.x00 ∉ b →
  match parsecmd b with
  | POk (c, buf) s => s = length b ∧ ∀ sp, sp ∈ spans c →
      c_string buf (fst sp) = take (snd sp - fst sp) (drop (fst sp) b) ∧ forallb word_char (c_string buf (fst sp)) = true ∧ c_string buf (fst sp) ≠ []
  | PPanic _ => True
  | PFuel => False
  end.
Proof.
  intros Hnul. pose proof (parsecmd_pok b Hnul) as H. destruct (parsecmd b) as [[c buf] s|msg|] eqn:E; [|done|done]. destruct H as [Hs H]. split.
  - unfold parsecmd in E. destruct (parseline b _ 0) as [c1 s1| |]; try done. cbn [pbind peek] in E. destruct (Nat.eqb_spec (skip_ws b s1) (length b)); [|done]. by injection E as _ _ <-.
  - intros sp Hsp. destruct (H sp Hsp) as (E1 & E2 & E3). cbn [snd] in E1. by rewrite !E1.
Qed.

(** "ls -n>f;" and the error of "ls (" *)
Lemma parsecmd_terminates_witness : let b := [Byte.x6c; Byte.x73; Byte.x20; Byte.x2d; Byte.x6e; Byte.x3e; Byte.x66; Byte.x3b] in
  ∃ c buf, parsecmd b = POk (c, buf) 8 ∧ c_string buf 0 = [Byte.x6c; Byte.x73] ∧ c_string buf 6 = [Byte.x66] ∧ parsecmd [Byte.x6c; Byte.x20; Byte.x28] = PPanic "syntax".
Proof.
  intros b. assert (Hn : Byte.x00 ∉ b) by (intros Hin%inset_spec; discriminate Hin).
  assert (∃ c buf, parsecmd b = POk (c, buf) 8 ∧ spans c = [(0, 2); (3, 5); (6, 7)]%nat) as (c & buf & E & Es) by (eexists _, _; split; vm_compute; reflexivity).
  pose proof (parsecmd_terminates b Hn) as H. rewrite E in H. destruct H as [_ H]. rewrite Es in H. exists c, buf. split_and!; [exact E|..].
  - exact (proj1 (H (0%nat, 2%nat) ltac:(left))).
  - exact (proj1 (H (6%nat, 7%nat) ltac:(do 2 right; left))).
  - vm_compute. reflexivity.
Defined.
