(* ===== verification/ShRun.v ===== *)
(** * user/sh.c: running commands

    runcmd() and the loop of main(), on the descriptor table of the shell's
    process.  What a process does is a [job]: the children it forks, the
    waits, and the exec() or exit() it ends in.  Processes have the path from
    the first shell as their name, so that the files and pipes they make have
    distinct names whatever the order they run in (a point of the command tree;
    the second fork of a pipe is number 2).  Whether fork(), pipe()
    and open() succeed is a parameter; descriptors are allocated as the kernel
    does it (sysfile.c, fdalloc()). *)

From stdpp Require Import base sets strings numbers list.
From coqutil Require Import Byte.
From S2P Require Import Prelude Riscv Ring Sysfile Printf Sh ShThms ShPrint.

(** An open file: one the shell started with, a file opened by a process, or
    an end of the pipe a process made. *)
Inductive ofile :=
| OInit (n : nat)
| OFile (p : list nat) (name : list byte) (mode : Z)
| OPipeR (p : list nat)
| OPipeW (p : list nat).

Notation fdtable := (list (option ofile)).

Inductive job :=
| JExec (argv : list (list byte)) (fds : fdtable)   (* exec(); exit(0) with a message if it fails *)
| JExit (status : Z) (fds : fdtable)
| JPanic (msg : string)                             (* message, exit(1) *)
| JFork (child rest : job)
| JWait (rest : job).

(** ** System calls on descriptors *)

(** fdalloc() *)
Fixpoint lowest (l : fdtable) (fd : nat) : option nat :=
  match l with
  | [] => None
  | None :: _ => Some fd
  | Some _ :: l => lowest l (S fd)
  end.
Definition install (f : ofile) (l : fdtable) : option (nat * fdtable) :=
  match lowest l 0 with Some fd => Some (fd, <[fd := Some f]> l) | None => None end.

Definition close (fd : nat) (l : fdtable) : fdtable := <[fd := None]> l.
(** dup(), whose result the shell ignores. *)
Definition dup (fd : nat) (l : fdtable) : fdtable :=
  match l !!! fd with
  | Some f => match install f l with Some (_, l) => l | None => l end
  | None => l
  end.

Section runcmd.
Context (fork_ok pipe_ok open_ok : list nat → bool).

Definition open (p : list nat) (name : list byte) (mode : Z) (l : fdtable) : option (nat * fdtable) :=
  if open_ok p then install (OFile p name mode) l else None.
Definition pipe (p : list nat) (l : fdtable) : option (nat * nat * fdtable) :=
  if pipe_ok p then
    match install (OPipeR p) l with
    | Some (p0, l) => match install (OPipeW p) l with Some (p1, l) => Some (p0, p1, l) | None => None end
    | None => None
    end
  else None.
(** [if(fork1() == 0) child; rest]; the child is process [p]. *)
Definition fork1 (p : list nat) (child rest : job) : job := if fork_ok p then JFork child rest else JPanic "fork".

Section buffer.
Context (buf : list byte).
Definition str (sp : span) : list byte := c_string buf (fst sp).

Fixpoint runcmd (p : list nat) (fds : fdtable) (c : cmd) : job :=
  match c with
  | EXEC argv =>
    match argv with
    | [] => JExit 1 fds
    | _ => JExec (str <$> argv) fds
    end
  | REDIR c r =>
    let fds := close (Z.to_nat (r_fd r)) fds in
    match open p (str (r_file r)) (r_mode r) fds with
    | None => JExit 1 fds
    | Some (_, fds) => runcmd (0%nat :: p) fds c
    end
  | LIST l r =>
    fork1 p (runcmd (0%nat :: p) fds l) (JWait (runcmd (1%nat :: p) fds r))
  | PIPE l r =>
    match pipe p fds with
    | None => JPanic "pipe"
    | Some (p0, p1, fds) =>
      fork1 p
        (let fds := close 1 fds in let fds := dup p1 fds in
         let fds := close p0 fds in let fds := close p1 fds in
         runcmd (0%nat :: p) fds l)
        (fork1 (2%nat :: p)
          (let fds := close 0 fds in let fds := dup p0 fds in
           let fds := close p0 fds in let fds := close p1 fds in
           runcmd (1%nat :: p) fds r)
          (let fds := close p0 fds in let fds := close p1 fds in
           JWait (JWait (JExit 0 fds))))
    end
  | BACK c => fork1 p (runcmd (0%nat :: p) fds c) (JExit 0 fds)
  end.
End buffer.

(** ** What a command means *)

(** The command [t] run with the descriptors [fds]: a redirection and a pipe
    replace one standard descriptor and nothing else. *)
Fixpoint run (p : list nat) (fds : fdtable) (t : ast) : job :=
  match t with
  | AExec [] => JExit 1 fds
  | AExec args => JExec args fds
  | ARedir c k f =>
    let '(mode, fd) := kind_mode k in
    if open_ok p then run (0%nat :: p) (<[Z.to_nat fd := Some (OFile p f mode)]> fds) c
    else JExit 1 (<[Z.to_nat fd := None]> fds)
  | AList l r => fork1 p (run (0%nat :: p) fds l) (JWait (run (1%nat :: p) fds r))
  | APipe l r =>
    if pipe_ok p then
      fork1 p (run (0%nat :: p) (<[1%nat := Some (OPipeW p)]> fds) l)
        (fork1 (2%nat :: p) (run (1%nat :: p) (<[0%nat := Some (OPipeR p)]> fds) r)
          (JWait (JWait (JExit 0 fds))))
    else JPanic "pipe"
  | ABack c => fork1 p (run (0%nat :: p) fds c) (JExit 0 fds)
  end.

(** ** main() *)

(** [while((fd = open("console", O_RDWR)) >= 0) if(fd >= 3){ close(fd); break; }];
    every turn takes a descriptor, so [k] is at most the size of the table. *)
Definition console : list byte := [Byte.x63; Byte.x6f; Byte.x6e; Byte.x73; Byte.x6f; Byte.x6c; Byte.x65].
Fixpoint open_console (k : nat) (fds : fdtable) : fdtable :=
  match k with
  | O => fds
  | S k =>
    match open [k] console O_RDWR fds with
    | None => fds
    | Some (fd, fds) => if (3 <=? fd)%nat then close fd fds else open_console k fds
    end
  end.

(** getcmd(): the line in the zeroed buffer, and the rest of the input; no
    line at the end of the input. *)
Definition sizeof_cmdbuf : Z := 100.
Definition getcmd (input : list byte) : option (list byte * list byte) :=
  let '(l, rest) := gets_line sizeof_cmdbuf input in
  match until_nul l with [] => None | buf => Some (buf, rest) end.

Inductive action :=
| Chdir (dir : list byte)
| Run (j : job)      (* fork1(), runcmd(parsecmd(buf)) in the child, wait(0) *)
| Exit.

Definition is_cd (buf : list byte) : bool :=
  match buf with c :: d :: s :: _ => ceq c Byte.x63 && ceq d Byte.x64 && ceq s Byte.x20 | _ => false end.

(** The child of line [n]. *)
Definition child (n : nat) (fds : fdtable) (buf : list byte) : job :=
  match parsecmd buf with
  | POk (c, nbuf) _ => runcmd nbuf [n; 0%nat] fds c
  | PPanic msg => JPanic msg
  | PFuel => JPanic ""
  end.

(** [while(getcmd(buf, sizeof(buf)) >= 0)]; every turn takes a character. *)
Fixpoint main_loop (k n : nat) (fds : fdtable) (input : list byte) : list action :=
  match getcmd input, k with
  | Some (buf, rest), S k =>
    if is_cd buf then
      let buf := take (length buf - 1) buf in   (* chop \n *)
      Chdir (drop 3 buf) :: main_loop k (S n) fds rest
    else if fork_ok [n] then Run (child n fds buf) :: main_loop k (S n) fds rest
    else [Exit]
  | _, _ => [Exit]
  end.
Definition main (fds : fdtable) (input : list byte) : list action :=
  main_loop (length input) 0 (open_console NOFILE fds) input.
End runcmd.

(** The kernel's descriptor allocation. *)
Lemma lowest_fdalloc (f : ofile → nat) l fd : lowest l fd = fdalloc_loop (map (option_map f) l) fd.
Proof. revert fd. induction l as [|[x|] l IH]; intros fd; simpl; [done|apply IH|done]. Qed.

(** ** Descriptors *)

Definition opened (fds : fdtable) (i : nat) : Prop := ∃ f, fds !! i = Some (Some f).
(** The standard descriptors are open, and a pipe has room. *)
Definition std (fds : fdtable) : Prop := opened fds 0 ∧ opened fds 1 ∧ opened fds 2.
Definition room (fds : fdtable) : Prop := ∃ a b, (a < b)%nat ∧ fds !! a = Some None ∧ fds !! b = Some None.

Lemma lowest_at l i n : l !! i = Some None → (∀ j, (j < i)%nat → opened l j) → lowest l n = Some (n + i)%nat.
Proof.
  revert i n. induction l as [|x l IH]; intros i n Hi Hj; [done|]. destruct i as [|i].
  - simpl in Hi. injection Hi as ->. simpl. f_equal. lia.
  - destruct (Hj 0%nat ltac:(lia)) as [f Hf]. simpl in Hf. injection Hf as ->. cbn [lowest]. rewrite (IH i (S n)); [f_equal; lia|done|].
    intros j Hlt. apply (Hj (S j)). lia.
Qed.

Lemma lowest_some l n : (∃ a, l !! a = Some None) → ∃ i, lowest l n = Some (n + i)%nat ∧ l !! i = Some None ∧ ∀ j, (j < i)%nat → opened l j.
Proof.
  revert n. induction l as [|x l IH]; intros n [a Ha]; [done|]. destruct x as [f|].
  - destruct a as [|a]; [done|]. destruct (IH (S n)) as (i & E & Hi & Hj); [by exists a|]. exists (S i). cbn [lowest]. rewrite E. split_and!; [f_equal; lia|done|].
    intros [|j] Hlt; [by exists f|]. apply Hj. lia.
  - exists 0%nat. cbn [lowest]. split_and!; [f_equal; lia|done|lia].
Qed.

Lemma opened_insert l i f j : opened l j → opened (<[i := Some f]> l) j.
Proof. intros [g Hg]. unfold opened. rewrite list_lookup_insert. destruct (decide _); eauto. Qed.

Lemma std_insert l i f : std l → std (<[i := Some f]> l).
Proof. intros (H0 & H1 & H2). split_and!; by apply opened_insert. Qed.

Lemma room_insert l i f : opened l i → room l → room (<[i := Some f]> l).
Proof. intros [g Hg] (a & b & Hab & Ha & Hb). exists a, b. rewrite !list_lookup_insert_ne by (intros ->; congruence). done. Qed.

(** close() and an allocation replace a descriptor when the lower ones are open. *)
Lemma close_install l i f : opened l i → (∀ j, (j < i)%nat → opened l j) → install f (close i l) = Some (i, <[i := Some f]> l).
Proof.
  intros [g Hi] Hj. unfold install, close. rewrite (lowest_at _ i).
  - simpl. f_equal. f_equal. rewrite list_insert_insert. by rewrite decide_True.
  - apply list_lookup_insert_eq. by eapply lookup_lt_Some.
  - intros j Hlt. destruct (Hj j Hlt) as [h Hh]. exists h. by rewrite list_lookup_insert_ne by lia.
Qed.

Lemma dup_into l i fd f : l !! fd = Some (Some f) → i ≠ fd → opened l i → (∀ j, (j < i)%nat → opened l j) → dup fd (close i l) = <[i := Some f]> l.
Proof.
  intros Hfd Hne Hi Hj. unfold dup. rewrite list_lookup_total_alt. unfold close at 1. rewrite list_lookup_insert_ne, Hfd by done. cbn [default from_option id]. by rewrite close_install.
Qed.

Lemma pipe_room pipe_ok p l : std l → room l → pipe_ok p = true → ∃ p0 p1,
  pipe pipe_ok p l = Some (p0, p1, <[p1 := Some (OPipeW p)]> (<[p0 := Some (OPipeR p)]> l)) ∧ (3 ≤ p0)%nat ∧ (3 ≤ p1)%nat ∧ p0 ≠ p1 ∧ l !! p0 = Some None ∧ l !! p1 = Some None.
Proof.
  intros (H0 & H1 & H2) (a & b & Hab & Ha & Hb) Hok. unfold pipe. rewrite Hok. unfold install.
  assert (Hge : ∀ i, l !! i = Some None → (3 ≤ i)%nat).
  { intros i Hi. destruct H0, H1, H2. destruct i as [|[|[|i]]]; [congruence..|lia]. }
  destruct (lowest_some l 0 ltac:(by exists a)) as (p0 & -> & E0 & _). cbn [Nat.add]. set (l1 := <[p0 := _]> l).
  assert (Hex : ∃ c, l1 !! c = Some None).
  { destruct (decide (p0 = a)) as [->|Hne]; [exists b|exists a]; unfold l1; by rewrite list_lookup_insert_ne by lia. }
  destruct (lowest_some l1 0 Hex) as (p1 & -> & E1 & _). cbn [Nat.add]. unfold l1 in E1. apply list_lookup_insert_Some in E1 as [(_ & ? & _)|[Hne E1]]; [done|].
  exists p0, p1. split_and!; try done; by apply Hge.
Qed.

(** After the pipe is moved to descriptor [i] and closed, only [i] has changed. *)
Lemma pipe_moved l p0 p1 x y i z : l !! p0 = Some None → l !! p1 = Some None → i ≠ p0 → i ≠ p1 →
  close p1 (close p0 (<[i := z]> (<[p1 := x]> (<[p0 := y]> l)))) = <[i := z]> l.
Proof.
  intros H0 H1 Hn0 Hn1. apply list_eq. intros j. unfold close. rewrite !list_lookup_insert, !length_insert. pose proof (lookup_lt_Some _ _ _ H0). pose proof (lookup_lt_Some _ _ _ H1).
  repeat (destruct (decide _) as [[? ?]|?]; subst; simplify_eq/=); try done; try congruence; exfalso; naive_solver.
Qed.

Lemma pipe_closed l p0 p1 x y : l !! p0 = Some None → l !! p1 = Some None → close p1 (close p0 (<[p1 := x]> (<[p0 := y]> l))) = l.
Proof.
  intros H0 H1. apply list_eq. intros j. unfold close. rewrite !list_lookup_insert, !length_insert. pose proof (lookup_lt_Some _ _ _ H0). pose proof (lookup_lt_Some _ _ _ H1).
  repeat (destruct (decide _) as [[? ?]|?]; subst; simplify_eq/=); try done; try congruence; exfalso; naive_solver.
Qed.

(** runcmd() does what the command means. *)
Lemma runcmd_run fork_ok pipe_ok open_ok buf c : ∀ p fds t, names buf c t → std fds → room fds →
  runcmd fork_ok pipe_ok open_ok buf p fds c = run fork_ok pipe_ok open_ok p fds t.
Proof.
  induction c as [argv|c IH r|l IHl r IHr|l IHl r IHr|c IH]; intros p fds t Hn Hstd Hroom; destruct t as [args|t k f|tl tr|tl tr|t]; try done; cbn [names] in Hn.
  - subst args. by destruct argv.
  - destruct Hn as (Hn & Hf & Hm). pose proof Hstd as (H0 & H1 & H2). cbn [runcmd run].
    destruct (kind_mode k) as [mode fd] eqn:Ek. injection Hm as -> ->. unfold open, str. rewrite Hf.
    assert (Hop : opened fds (Z.to_nat fd) ∧ ∀ j, (j < Z.to_nat fd)%nat → opened fds j).
    { destruct k; injection Ek as <- <-; cbn [Z.to_nat]; (split; [done|intros j Hj]); [lia|by replace j with 0%nat by lia..]. }
    destruct Hop as [Hop Hlow]. destruct (open_ok p); [|done]. rewrite close_install by done. apply IH; [done|by apply std_insert|by apply room_insert].
  - destruct Hn as [Hl Hr]. pose proof Hstd as (H0 & H1 & H2). cbn [runcmd run]. destruct (pipe_ok p) eqn:Ep; [|unfold pipe; by rewrite Ep].
    destruct (pipe_room pipe_ok p fds Hstd Hroom Ep) as (p0 & p1 & -> & Hp0 & Hp1 & Hne & E0 & E1). cbv zeta. rewrite pipe_closed by done.
    rewrite (dup_into _ 1 p1 (OPipeW p)), (dup_into _ 0 p0 (OPipeR p)), !pipe_moved; try done; try lia.
    + rewrite (IHl _ _ tl), (IHr _ _ tr); [done|..]; (done || by apply std_insert || by apply room_insert).
    + rewrite list_lookup_insert_ne by done. apply list_lookup_insert_eq. by eapply lookup_lt_Some.
    + by do 2 apply opened_insert.
    + apply list_lookup_insert_eq. rewrite length_insert. by eapply lookup_lt_Some.
    + by do 2 apply opened_insert.
    + intros j Hj. replace j with 0%nat by lia. by do 2 apply opened_insert.
  - destruct Hn as [Hl Hr]. cbn [runcmd run]. by rewrite (IHl _ _ tl), (IHr _ _ tr).
  - cbn [runcmd run]. by rewrite (IH _ _ t).
Qed.

(** main() starts with the standard descriptors open, if the console opens. *)
Lemma open_console_std open_ok k : ∀ m fds, (∀ i, open_ok [i] = true) → (∀ j, (j < m)%nat → opened fds j) → (3 < m + k)%nat → (∃ a, (3 ≤ a)%nat ∧ fds !! a = Some None) →
  std (open_console open_ok k fds) ∧ ∀ i, (3 ≤ i)%nat → open_console open_ok k fds !! i = fds !! i.
Proof.
  induction k as [|k IH]; intros m fds Hok Hm Hk (a & Ha & E).
  - split; [|done]. split_and!; apply Hm; lia.
  - cbn [open_console]. unfold open, install. rewrite Hok. destruct (lowest_some fds 0) as (i & -> & Hi & Hj); [by exists a|]. cbn [Nat.add].
    destruct (Nat.leb_spec 3 i).
    + assert (Heq : close i (<[i := Some (OFile [k] console O_RDWR)]> fds) = fds).
      { unfold close. rewrite list_insert_insert, decide_True by done. by apply list_insert_id. }
      rewrite Heq. split; [|done]. split_and!; apply Hj; lia.
    + assert (m ≤ i)%nat by (destruct (decide (m ≤ i)%nat); [done|]; destruct (Hm i ltac:(lia)); congruence).
      destruct (IH (S i) (<[i := Some (OFile [k] console O_RDWR)]> fds) Hok) as [Hs Hr].
      * intros j Hlt. destruct (decide (j = i)) as [->|]; [|apply opened_insert, Hj; lia]. eexists. apply list_lookup_insert_eq. by eapply lookup_lt_Some.
      * lia.
      * exists a. rewrite list_lookup_insert_ne by lia. done.
      * split; [done|]. intros j Hlt. rewrite Hr by done. by rewrite list_lookup_insert_ne by lia.
Qed.

(** ** Lines *)

Definition no_nl (l : list byte) : bool := forallb (λ c, negb ((byte.unsigned c =? 10) || (byte.unsigned c =? 13))) l.

Lemma ugets_line l rest k : no_nl l = true → (length l < k)%nat → ugets k (l ++ Byte.x0a :: rest) = (l ++ [Byte.x0a], rest).
Proof.
  revert k. induction l as [|c l IH]; intros k Hl Hk; destruct k as [|k]; cbn [length] in Hk; try lia; [done|].
  cbn [no_nl forallb] in Hl. apply andb_true_iff in Hl as [Hc Hl]. apply negb_true_iff in Hc. cbn [app ugets]. rewrite Hc, IH by (done || lia). done.
Qed.

Lemma word_no_nl c : word_char c = true → negb ((byte.unsigned c =? 10) || (byte.unsigned c =? 13)) = true.
Proof.
  intros Hw. apply negb_true_iff. apply not_true_is_false. intros H. apply orb_true_iff in H. rewrite !Z.eqb_eq in H.
  assert (c = Byte.x0a ∨ c = Byte.x0d) as [-> | ->]; [|done|done].
  destruct H as [H|H]; [left|right]; apply (f_equal byte.of_Z) in H; by rewrite byte.of_Z_unsigned in H.
Qed.

Lemma tok_no_nl t : tok_ok t = true → no_nl (tok_text t) = true.
Proof.
  destruct t as [w|c]; intros H.
  - destruct (word_ok_cons w H) as (_ & _ & _ & _ & _ & Hall). apply forallb_forall. intros c Hc. apply word_no_nl. rewrite forallb_forall in Hall. by apply Hall.
  - destruct (symbol_cases c H) as [-> | [-> | [-> | [-> | [-> | [-> | [-> | ->]]]]]]]; done.
Qed.

(** A printed line is a line. *)
Lemma text_line l : l ≠ [] → forallb tok_ok l = true → ∃ x, text l = x ++ [Byte.x0a] ∧ no_nl x = true.
Proof.
  induction l as [|t l IH]; [done|]. intros _. cbn [forallb text]. intros [Ht Hl]%andb_true_iff. pose proof (tok_no_nl t Ht) as Hn. destruct l as [|t2 l].
  - by exists (tok_text t).
  - destruct (IH ltac:(done) Hl) as (x & -> & Hx). exists (tok_text t ++ Byte.x20 :: x). rewrite <- app_assoc. split; [done|].
    unfold no_nl in *. rewrite forallb_app, Hn. cbn [forallb]. by rewrite Hx.
Qed.

Lemma until_nul_id l : Byte.x00 ∉ l → until_nul l = l.
Proof.
  induction l as [|c l IH]; [done|]. rewrite not_elem_of_cons. intros [Hc Hl]. cbn [until_nul]. rewrite (not_true_is_false (ceq c Byte.x00)) by (by intros ->%ceq_spec). by rewrite IH.
Qed.

(** A command that fits the shell's buffer and is not its "cd". *)
Definition line_ok (t : ast) : bool :=
  ast_ok t && negb (is_cd (print t)) && (1 <=? length (print t))%nat && (Z.of_nat (length (print t)) <? sizeof_cmdbuf).

Lemma getcmd_print t rest : line_ok t = true → getcmd (print t ++ rest) = Some (print t, rest).
Proof.
  unfold line_ok. rewrite !andb_true_iff. intros (((Hok & _) & H1) & H2). apply Nat.leb_le in H1. apply Z.ltb_lt in H2. unfold sizeof_cmdbuf in H2.
  pose proof (ptoks_ok t 3 Hok) as Htok. assert (Hne : ptoks 3 t ≠ []) by (intros E; unfold print in H1; rewrite E in H1; simpl in H1; lia).
  destruct (text_line _ Hne Htok) as (x & Ex & Hx). pose proof (text_nul _ Htok) as Hnul. unfold getcmd, gets_line, print in *. rewrite Ex, length_app in *. cbn [length] in *.
  rewrite <- app_assoc. cbn [app]. rewrite ugets_line by (done || unfold sizeof_cmdbuf; lia). rewrite until_nul_id by done. by destruct x.
Qed.

Lemma child_print fork_ok pipe_ok open_ok n fds t : ast_ok t = true → std fds → room fds →
  child fork_ok pipe_ok open_ok n fds (print t) = run fork_ok pipe_ok open_ok [n; 0%nat] fds t.
Proof. intros Hok Hs Hr. unfold child. destruct (parse_print t Hok) as (c & buf & -> & _ & Hn). by apply runcmd_run. Qed.

(** C36: the shell runs its input: after main() has opened its standard
    descriptors, each line of printed commands is one job, the meaning of the
    command, in which a pipe gives its left side the write end as descriptor 1
    and its right side the read end as descriptor 0, a redirection replaces
    descriptor 0 or 1, and every process keeps all other descriptors of the
    shell and no other end of a pipe, whatever the later fork(), pipe() and
    open() answer. *)
Theorem shell_runs_input fork_ok pipe_ok open_ok fds ts : (∀ n, open_ok [n] = true) → (∀ n, fork_ok [n] = true) →
  (∃ a b, (3 ≤ a < b)%nat ∧ fds !! a = Some None ∧ fds !! b = Some None) → forallb line_ok ts = true →
  ∃ fds', std fds' ∧ (∀ i, (3 ≤ i)%nat → fds' !! i = fds !! i) ∧
    main fork_ok pipe_ok open_ok fds (mjoin (print <$> ts)) = imap (λ n t, Run (run fork_ok pipe_ok open_ok [n; 0%nat] fds' t)) ts ++ [Exit].
Proof.
  intros Hopen Hfork (a & b & Hab & Ha & Hb) Hts.
  destruct (open_console_std open_ok NOFILE 0 fds Hopen) as [Hstd Hrest]; [lia|unfold NOFILE; lia|by exists a; split; [lia|]|].
  exists (open_console open_ok NOFILE fds). split_and!; [done|done|]. unfold main. set (fds' := open_console _ _ _) in *.
  assert (Hroom : room fds') by (exists a, b; rewrite !Hrest by lia; split_and!; [lia|done|done]). clearbody fds'. clear Hrest Ha Hb Hab.
  assert (Hloop : ∀ n k, (length (mjoin (print <$> ts)) ≤ k)%nat → main_loop fork_ok pipe_ok open_ok k n fds' (mjoin (print <$> ts)) =
    imap (λ m t, Run (run fork_ok pipe_ok open_ok [(n + m)%nat; 0%nat] fds' t)) ts ++ [Exit]); [|by apply Hloop].
  induction ts as [|t ts IH]; intros n k Hk; [by destruct k|]. cbn [forallb] in Hts. apply andb_true_iff in Hts as [Ht Hts].
  change (mjoin (print <$> t :: ts)) with (print t ++ mjoin (print <$> ts)) in *. rewrite length_app in Hk. pose proof (getcmd_print t (mjoin (print <$> ts)) Ht) as Hg.
  unfold line_ok in Ht. rewrite !andb_true_iff in Ht. destruct Ht as (((Hok & Hcd) & H1) & _). apply Nat.leb_le in H1. apply negb_true_iff in Hcd.
  destruct k as [|k]; [lia|]. cbn [main_loop]. rewrite Hg, Hcd, Hfork, child_print by done. rewrite (IH Hts) by lia. cbn [imap app]. rewrite Nat.add_0_r. f_equal. f_equal.
  apply imap_ext. intros i x _. cbn [compose]. by rewrite Nat.add_succ_r.
Qed.

(** "a1 < f1 | b1 > g1" and "c1 &", with the standard descriptors closed. *)
Lemma shell_runs_input_witness : let w c := [c; Byte.x31] in
  let t1 := APipe (ARedir (AExec [w Byte.x61]) RIn (w Byte.x66)) (ARedir (AExec [w Byte.x62]) ROut (w Byte.x67)) in
  let t2 := ABack (AExec [w Byte.x63]) in
  ∃ fds', std fds' ∧ main (λ _, true) (λ _, true) (λ _, true) (replicate 16 None) (print t1 ++ print t2) =
    [Run (run (λ _, true) (λ _, true) (λ _, true) [0%nat; 0%nat] fds' t1); Run (run (λ _, true) (λ _, true) (λ _, true) [1%nat; 0%nat] fds' t2); Exit].
Proof.
  intros w t1 t2. destruct (shell_runs_input (λ _, true) (λ _, true) (λ _, true) (replicate 16 None) [t1; t2]) as (fds' & Hs & _ & E).
  - done.
  - done.
  - exists 3%nat, 4%nat. split; [lia|]. done.
  - vm_compute. reflexivity.
  - exists fds'. split; [done|]. exact E.
Defined.
