(* ===== verification/Umalloc.v ===== *)
(** * user/umalloc.c: malloc() and free() (the code)

    The memory of the process with the static [freep]; [base] is the address
    of the static header.  A header is 16 bytes: [s.ptr] at offset 0 and
    [s.size], in headers, at offset 8.  sbrk() is the system call: with [n]
    not negative it moves the break if the new one is at most [lim], the
    memory the kernel can give; with [n] negative it shrinks the process. *)

From stdpp Require Import base strings numbers list.
From coqutil Require Import Byte.
From S2P Require Import Prelude Mem.

Record heap := Heap { hm : mem; freep : Z; brk : Z }.
Definition set_hm (m : mem) (h : heap) : heap := Heap m (freep h) (brk h).
Definition set_freep (p : Z) (h : heap) : heap := Heap (hm h) p (brk h).
Definition set_brk (b : Z) (h : heap) : heap := Heap (hm h) (freep h) b.

Definition sizeof_Header : Z := 16.
Definition hptr (m : mem) (p : Z) : Z := load64 m p.
Definition hsize (m : mem) (p : Z) : Z := load32 m (p + 8).
Definition set_ptr (p v : Z) : M heap unit := modify (λ h, set_hm (store64 (hm h) p v) h).
Definition set_size (p v : Z) : M heap unit := modify (λ h, set_hm (store32 (hm h) (p + 8) v) h).
(** [p + n] on [Header *] *)
Definition hplus (p n : Z) : Z := p + n * sizeof_Header.

Section umalloc.
Context (base lim : Z).

Definition sbrk (n : Z) : M heap Z :=
  b ← gets brk;
  if n <? 0 then modify (set_brk (b + n));; mret b
  else if b + n <=? lim then modify (set_brk (b + n));; mret b else mret (-1).

(** The loop of free(): the predecessor of [bp] on the list. *)
Fixpoint free_search (k : nat) (bp p : Z) : M heap Z :=
  m ← gets hm;
  let q := hptr m p in
  if (p <? bp) && (bp <? q) then mret p
  else if (q <=? p) && ((p <? bp) || (bp <? q)) then mret p
  else match k with O => no_fuel | S k => free_search k bp q end.

(** A node of the list takes 16 bytes of the process, which ends at [brk]. *)
Definition list_fuel (h : heap) : nat := Z.to_nat (brk h / sizeof_Header) + 1.

(** Join [bp] to the upper neighbour, the successor of [p]. *)
Definition free_up (bp p : Z) : M heap unit :=
  m ← gets hm;
  if hplus bp (hsize m bp) =? hptr m p then
    set_size bp (u32 (hsize m bp + hsize m (hptr m p)));;
    m ← gets hm;
    set_ptr bp (hptr m (hptr m p))
  else set_ptr bp (hptr m p).
(** Join to the lower neighbour [p]. *)
Definition free_down (bp p : Z) : M heap unit :=
  m ← gets hm;
  if hplus p (hsize m p) =? bp then
    set_size p (u32 (hsize m p + hsize m bp));;
    m ← gets hm;
    set_ptr p (hptr m bp)
  else set_ptr p bp.

Definition free (ap : Z) : M heap unit :=
  let bp := ap - sizeof_Header in
  p ← gets freep;
  k ← gets list_fuel;
  p ← free_search k bp p;
  free_up bp p;;
  free_down bp p;;
  modify (set_freep p).

Definition morecore (nu : Z) : M heap Z :=
  let nu := if nu <? 4096 then 4096 else nu in
  p ← sbrk (i32 (nu * sizeof_Header));
  if p =? -1 then mret 0 else
  let hp := p in
  set_size hp nu;;
  free (hplus hp 1);;
  gets freep.

(** The block [p] after [prevp] is large enough. *)
Definition malloc_take (nunits prevp p : Z) : M heap Z :=
  m ← gets hm;
  p ← (if hsize m p =? nunits then set_ptr prevp (hptr m p);; mret p
       else
         set_size p (u32 (hsize m p - nunits));;
         m ← gets hm;
         let p := hplus p (hsize m p) in
         set_size p nunits;;
         mret p);
  modify (set_freep prevp);;
  mret (hplus p 1).

Fixpoint malloc_loop (k : nat) (nunits prevp p : Z) : M heap Z :=
  m ← gets hm;
  if nunits <=? hsize m p then malloc_take nunits prevp p else
  let next p :=
    match k with
    | O => no_fuel
    | S k => m ← gets hm; malloc_loop k nunits p (hptr m p)
    end in
  fp ← gets freep;
  if p =? fp then
    p ← morecore nunits;
    if p =? 0 then mret 0 else next p
  else next p.

Definition units (nbytes : Z) : Z := u32 ((nbytes + sizeof_Header - 1) / sizeof_Header + 1).

(** Once round the list, and once more after morecore(). *)
Definition malloc (nbytes : Z) : M heap Z :=
  let nunits := units nbytes in
  prevp ← gets freep;
  prevp ← (if prevp =? 0 then
             set_ptr base base;; modify (set_freep base);; set_size base 0;; mret base
           else mret prevp);
  h ← gets id;
  malloc_loop (2 * list_fuel h + 2) nunits prevp (hptr (hm h) prevp).
End umalloc.
