(* ===== verification/UmallocThms.v ===== *)
(** * user/umalloc.c: correctness of malloc() and free()

    The free list is a ring of headers, sorted by address and starting at
    [base]; the blocks handed out are a list [al].  [heap_ok] says that free
    and handed-out blocks are apart, that no two free blocks touch, and that
    together they are all the memory sbrk() gave. *)

From stdpp Require Import base sets strings numbers list.
From coqutil Require Import Byte.
From S2P Require Import Prelude Mem Umalloc.

(** A block: its header's address and its size in headers. *)
Notation block := (Z * Z)%type.
Definition bend (x : block) : Z := hplus (fst x) (snd x).
Definition disj (x y : block) : Prop := bend x ≤ fst y ∨ bend y ≤ fst x.
Definition total (l : list block) : Z := foldr (λ x n, snd x + n) 0 l.

(** Sorted, above [lo], without touching blocks, and within [hi]. *)
Fixpoint sorted (lo : Z) (l : list block) (hi : Z) : Prop :=
  match l with
  | [] => lo ≤ hi
  | x :: l => lo < fst x ∧ 1 ≤ snd x ∧ sorted (bend x) l hi
  end.

(** The headers of [l] are linked, the last one to [z]. *)
Definition start (l : list block) (z : Z) : Z := match l with [] => z | x :: _ => fst x end.
Fixpoint linked (m : mem) (l : list block) (z : Z) : Prop :=
  match l with
  | [] => True
  | x :: l => hptr m (fst x) = start l z ∧ hsize m (fst x) = snd x ∧ linked m l z
  end.

Fixpoint apart (l : list block) : Prop :=
  match l with [] => True | x :: l => Forall (disj x) l ∧ apart l end.

(** ** Headers in memory *)

Definition hdr_same (m m' : mem) (a : Z) : Prop := agree m m' a 16.

Lemma hdr_same_ptr m m' a : hdr_same m m' a → hptr m' a = hptr m a.
Proof. intros H. symmetry. apply load64_ext. intros x Hx. apply H. lia. Qed.
Lemma hdr_same_size m m' a : hdr_same m m' a → hsize m' a = hsize m a.
Proof. intros H. symmetry. apply load32_ext. intros x Hx. apply H. lia. Qed.

Lemma store32_out m a v x : x < a ∨ a + 4 ≤ x → store32 m a v x = m x.
Proof. intros H. unfold store32. apply store_bytes_out. by rewrite LittleEndianList.length_le_split. Qed.

Lemma ptr_same m a v b : b + 16 ≤ a ∨ a + 16 ≤ b → hdr_same m (store64 m a v) b.
Proof. intros H x Hx. rewrite store64_out by lia. done. Qed.
Lemma size_same m a v b : b + 16 ≤ a ∨ a + 16 ≤ b → hdr_same m (store32 m (a + 8) v) b.
Proof. intros H x Hx. rewrite store32_out by lia. done. Qed.
Lemma hsize_set_ptr m a v : hsize (store64 m a v) a = hsize m a.
Proof. symmetry. apply load32_ext. intros x Hx. rewrite store64_out by lia. done. Qed.
Lemma hptr_set_size m a v : hptr (store32 m (a + 8) v) a = hptr m a.
Proof. symmetry. apply load64_ext. intros x Hx. rewrite store32_out by lia. done. Qed.
Lemma hsize_set_size m a v : 0 ≤ v < 2 ^ 32 → hsize (store32 m (a + 8) v) a = v.
Proof. intros H. unfold hsize. rewrite load32_store32_eq. by apply u32_id. Qed.
Lemma hptr_set_ptr m a v : 0 ≤ v < 2 ^ 64 → hptr (store64 m a v) a = v.
Proof. intros H. unfold hptr. rewrite load64_store64_eq. by apply u64_id. Qed.

(** ** Lists of blocks *)

Lemma total_app l1 l2 : total (l1 ++ l2) = total l1 + total l2.
Proof. induction l1 as [|x l1 IH]; simpl; [done|]. unfold total in *. lia. Qed.

Lemma linked_app m l1 l2 z : linked m (l1 ++ l2) z ↔ linked m l1 (start l2 z) ∧ linked m l2 z.
Proof.
  induction l1 as [|x l1 IH]; simpl; [naive_solver|]. rewrite IH. assert (start (l1 ++ l2) z = start l1 (start l2 z)) as -> by (by destruct l1). naive_solver.
Qed.

Lemma linked_same m m' l z : Forall (λ x, hdr_same m m' (fst x)) l → linked m l z → linked m' l z.
Proof.
  induction l as [|x l IH]; simpl; [done|]. intros [Hx Hl]%Forall_cons (H1 & H2 & H3). rewrite (hdr_same_ptr _ _ _ Hx), (hdr_same_size _ _ _ Hx). split_and!; try done. by apply IH.
Qed.

Lemma sorted_mono lo lo' l hi : lo' ≤ lo → sorted lo l hi → sorted lo' l hi.
Proof. destruct l as [|x l]; simpl; [lia|]. intros ? (? & ? & ?). split_and!; [lia|done|done]. Qed.
Lemma sorted_hi lo l hi hi' : hi ≤ hi' → sorted lo l hi → sorted lo l hi'.
Proof. intros Hh. revert lo. induction l as [|x l IH]; intros lo; simpl; [lia|]. intros (? & ? & ?). split_and!; try done. by apply IH. Qed.
Lemma sorted_le lo l hi : sorted lo l hi → lo ≤ hi.
Proof. revert lo. induction l as [|x l IH]; intros lo; simpl; [done|]. intros (? & ? & H). apply IH in H. unfold bend, hplus, sizeof_Header in *. lia. Qed.

Lemma sorted_app lo l1 l2 hi : sorted lo (l1 ++ l2) hi ↔ ∃ mid, sorted lo l1 mid ∧ sorted mid l2 hi.
Proof.
  revert lo. induction l1 as [|x l1 IH]; intros lo; simpl.
  - split; [intros H; by exists lo|]. intros (mid & H1 & H2). by eapply sorted_mono.
  - rewrite (IH (bend x)). naive_solver.
Qed.

Lemma sorted_bounds lo l hi x : sorted lo l hi → x ∈ l → lo < fst x ∧ 1 ≤ snd x ∧ bend x ≤ hi.
Proof.
  revert lo. induction l as [|y l IH]; intros lo Hs Hx; [by apply elem_of_nil in Hx|]. simpl in Hs. destruct Hs as (H1 & H2 & H3). apply elem_of_cons in Hx as [->|Hx].
  - split_and!; try done. by apply sorted_le in H3.
  - destruct (IH _ H3 Hx) as (? & ? & ?). split_and!; try done. unfold bend, hplus, sizeof_Header in *. lia.
Qed.

Lemma sorted_total lo l hi : sorted lo l hi → Z.of_nat (length l) ≤ total l ∧ sizeof_Header * total l ≤ hi - lo.
Proof.
  revert lo. induction l as [|x l IH]; intros lo; simpl; [intros; unfold sizeof_Header; lia|]. intros (H1 & H2 & H3). destruct (IH _ H3) as [IH1 IH2]. unfold bend, hplus, sizeof_Header, total in *. lia.
Qed.

(** Addresses go up, from above [lo]. *)
Fixpoint asc (lo : Z) (l : list block) : Prop := match l with [] => True | x :: l => lo < fst x ∧ asc (fst x) l end.

Lemma asc_mono lo lo' l : lo' ≤ lo → asc lo l → asc lo' l.
Proof. destruct l; simpl; [done|]. intros ? [? ?]. split; [lia|done]. Qed.

Lemma sorted_asc lo l hi : sorted lo l hi → asc lo l.
Proof.
  revert lo. induction l as [|x l IH]; intros lo; simpl; [done|]. intros (? & ? & H). split; [done|]. apply IH in H. eapply asc_mono; [|done]. unfold bend, hplus, sizeof_Header. lia.
Qed.

Lemma asc_app lo l1 l2 : asc lo (l1 ++ l2) → asc lo l1 ∧ asc lo l2.
Proof.
  revert lo. induction l1 as [|x l1 IH]; intros lo; simpl; [done|]. intros [Hx H]. apply IH in H as [H1 H2]. split; [done|]. eapply asc_mono; [|done]. lia.
Qed.

Lemma last_cons {A} (l : list A) x y : List.last (y :: l) x = List.last l y.
Proof. revert x y. induction l as [|z l IH]; intros x y; [done|]. change (List.last (z :: l) x = List.last (z :: l) y). by rewrite !IH. Qed.
Lemma last_app_cons {A} (l1 l2 : list A) x d : List.last (l1 ++ x :: l2) d = List.last l2 x.
Proof. revert d. induction l1 as [|z l1 IH]; intros d; cbn [app]; [apply last_cons|]. rewrite last_cons. apply IH. Qed.

(** ** The search of free() *)

Section search.
Context (base bp : Z) (L R : list block).

Lemma search_up rest : ∀ x k h, linked (hm h) (x :: rest) (start R base) → asc (fst x) rest → Forall (λ y, fst y < bp) (x :: rest) → Forall (λ y, bp < fst y) R →
  base ≤ fst x → (length rest ≤ k)%nat → free_search k bp (fst x) h = Ret (fst (List.last rest x)) h.
Proof.
  induction rest as [|y rest IH]; intros x k h Hl Ha Hlt HR Hb Hk; destruct Hl as (Hp & Hs & Hl); apply Forall_cons in Hlt as [Hx Hlt].
  - assert (Hstop : free_search k bp (fst x) h = Ret (fst x) h); [|done]. destruct k as [|k]; cbn [free_search]; rewrite bind_gets, Hp; cbn [start].
    all: destruct R as [|r R']; cbn [start]; [|apply Forall_cons in HR as [HR _]; by rewrite (proj2 (Z.ltb_lt _ _) Hx), (proj2 (Z.ltb_lt _ _) HR)].
    all: rewrite (proj2 (Z.ltb_lt _ _) Hx), (proj2 (Z.ltb_ge bp base)) by lia; cbn [andb orb]; by rewrite (proj2 (Z.leb_le _ _) Hb).
  - destruct k as [|k]; [simpl in Hk; lia|]. cbn [free_search]. rewrite bind_gets, Hp. cbn [start]. destruct Ha as [Hxy Ha]. pose proof Hlt as [Hy _]%Forall_cons.
    rewrite (proj2 (Z.ltb_ge bp (fst y))), andb_false_r, (proj2 (Z.leb_gt (fst y) (fst x))) by lia. cbn [andb]. rewrite (IH y); [|done|done|done|done|lia|simpl in Hk; lia].
    by rewrite last_cons.
Qed.

Lemma search_high rest : ∀ x k h, linked (hm h) (x :: rest) base → asc (fst x) rest → bp < fst x → base < bp →
  free_search (S (length rest + k)) bp (fst x) h = free_search k bp base h.
Proof.
  induction rest as [|y rest IH]; intros x k h Hl Ha Hx Hb; destruct Hl as (Hp & Hs & Hl); cbn [length Nat.add].
  - cbn [free_search]. rewrite bind_gets, Hp. cbn [start]. rewrite (proj2 (Z.ltb_ge (fst x) bp)), (proj2 (Z.ltb_ge bp base)) by lia. cbn [andb orb]. by rewrite andb_false_r.
  - destruct Ha as [Hxy Ha]. rewrite <- (IH y k h) by (done || lia). cbn [free_search]. rewrite (bind_gets hm). rewrite Hp. cbn [start].
    rewrite (proj2 (Z.ltb_ge (fst x) bp)), (proj2 (Z.leb_gt (fst y) (fst x))) by lia. cbn [andb]. done.
Qed.
End search.

(** Splitting at an address. *)
Lemma asc_split lo l bp : asc lo l → Forall (λ y, fst y ≠ bp) l → ∃ L R, l = L ++ R ∧ Forall (λ y, fst y < bp) L ∧ Forall (λ y, bp < fst y) R.
Proof.
  revert lo. induction l as [|x l IH]; intros lo; simpl; [by exists [], []|]. intros [Hx Ha] [Hne Hl]%Forall_cons. destruct (decide (fst x < bp)) as [Hlt|Hge].
  - destruct (IH _ Ha Hl) as (L & R & -> & HL & HR). exists (x :: L), R. split_and!; [done|by constructor|done].
  - exists [], (x :: l). split_and!; [done|constructor|]. constructor; [lia|]. assert (Hb : bp < fst x) by lia. clear -Hb Ha. revert Ha Hb. generalize (fst x) as a. 
    induction l as [|y l IH]; intros a; [constructor|]. intros [Hy Ha] Hb. constructor; [lia|]. apply (IH _ Ha). lia.
Qed.

Lemma search_finds base bp L R fp k h : linked (hm h) ((base, 0) :: L ++ R) base → asc base (L ++ R) → base < bp → Forall (λ y, fst y < bp) L → Forall (λ y, bp < fst y) R →
  fp ∈ base :: (fst <$> L ++ R) → (length (L ++ R) < k)%nat → free_search k bp fp h = Ret (fst (List.last L (base, 0))) h.
Proof.
  intros Hl Ha Hb HL HR Hfp Hk. rewrite length_app in Hk. pose proof (asc_app _ _ _ Ha) as [HaL HaR].
  change ((base, 0) :: L ++ R) with (((base, 0) :: L) ++ R) in Hl. apply linked_app in Hl as [Hl1 Hl2].
  assert (Hbase : ∀ k', (length L ≤ k')%nat → free_search k' bp base h = Ret (fst (List.last L (base, 0))) h).
  { intros k' Hk'. apply (search_up base bp R L (base, 0)); try done. by constructor. }
  apply elem_of_cons in Hfp as [->|Hfp]; [apply Hbase; lia|]. rewrite fmap_app in Hfp. apply elem_of_app in Hfp as [Hfp|Hfp]; apply list_elem_of_fmap in Hfp as (x & -> & Hx);
    apply list_elem_of_split in Hx as (l1 & l2 & E).
  - subst L. change ((base, 0) :: l1 ++ x :: l2) with (((base, 0) :: l1) ++ x :: l2) in Hl1. apply linked_app in Hl1 as [_ Hl1].
    apply Forall_app in HL as [_ HL]. rewrite length_app in Hk. simpl in Hk. apply asc_app in HaL as [_ [Hbx HaL]].
    rewrite (search_up base bp R l2 x); [|done|done|done|done|lia|lia]. by rewrite last_app_cons.
  - subst R. apply linked_app in Hl2 as [_ Hl2]. apply Forall_app in HR as [_ HR]. apply Forall_cons in HR as [Hx HR]. apply asc_app in HaR as [_ [Hbx HaR]].
    rewrite length_app in Hk. simpl in Hk. replace k with (S (length l2 + (k - S (length l2))))%nat by lia. rewrite (search_high base bp) by done. apply Hbase. lia.
Qed.

(** ** free() *)

Lemma exists_last_dec {A} (l : list A) : l = [] ∨ ∃ l' x, l = l' ++ [x].
Proof. destruct l as [|x l]; [by left|right]. destruct (exists_last (l := x :: l)) as (l' & y & E); [done|]. by exists l', y. Qed.

Ltac hunf := unfold disj in *; unfold bend in *; unfold hplus, sizeof_Header in *; cbn [fst snd] in *.

(** Only the header at [a] has changed. *)
Definition only (a : Z) (m m' : mem) : Prop := ∀ x, x < a ∨ a + 16 ≤ x → m' x = m x.
Lemma only_same a m m' b : only a m m' → b + 16 ≤ a ∨ a + 16 ≤ b → hdr_same m m' b.
Proof. intros H Hb x Hx. rewrite H by lia. done. Qed.
Lemma only_ptr a m v : only a m (store64 m a v).
Proof. intros x Hx. apply store64_out. lia. Qed.
Lemma only_size a m v : only a m (store32 m (a + 8) v).
Proof. intros x Hx. apply store32_out. lia. Qed.
Lemma only_trans a m1 m2 m3 : only a m1 m2 → only a m2 m3 → only a m1 m3.
Proof. intros H1 H2 x Hx. rewrite H2, H1 by done. done. Qed.

Lemma linked_only a m m' lo l hi z : only a m m' → sorted lo l hi → a + 16 ≤ lo + 1 ∨ hi ≤ a → linked m l z → linked m' l z.
Proof.
  intros Ho Hs Ha. apply linked_same. apply Forall_forall. intros x Hx. destruct (sorted_bounds _ _ _ _ Hs Hx) as (? & ? & ?). apply (only_same a); [done|]. hunf. lia.
Qed.

(** [y] is apart from the free blocks of [l]. *)
Definition clear_of (y : block) (l : list block) : Prop := Forall (disj y) l.

Section ops.
Context (base lo lim : Z) (Hbase : 0 < base) (Hlo : base + 16 ≤ lo) (Hlim : lim < 2 ^ 35).

Lemma free_up_ok h b n p R hi : 1 ≤ n → lo ≤ b → hsize (hm h) b = n → sorted (b + 16 * n - 1) R hi → b + 16 * n ≤ hi → hi ≤ lim → linked (hm h) R base → hptr (hm h) p = start R base → p + 16 ≤ b →
  ∃ m1 B R1, free_up b p h = Ret tt (set_hm m1 h) ∧ linked m1 (B :: R1) base ∧ fst B = b ∧ n ≤ snd B ∧ sorted (b - 1) (B :: R1) hi ∧
    total (B :: R1) = n + total R ∧ only b (hm h) m1 ∧ (length R1 ≤ length R)%nat ∧ ∀ y, 1 ≤ snd y → disj y (b, n) → clear_of y R → clear_of y (B :: R1).
Proof.
  intros Hn Hb Hsz Hs Hbn Hhi Hl Hp Hpb. unfold free_up. rewrite bind_gets, Hsz, Hp. destruct R as [|[q qn] R]; cbn [start] in *.
  - pose proof Hs as Hle. cbn [sorted] in Hle. rewrite (proj2 (Z.eqb_neq _ _)) by (hunf; lia). exists (store64 (hm h) b base), (b, n), []. split; [done|].
    cbn [linked start fst snd sorted total foldr]. rewrite hptr_set_ptr, hsize_set_ptr by lia. split_and!; try done; try (hunf; lia); [apply only_ptr|].
    intros y _ Hy _. by constructor.
  - destruct Hs as (Hq & Hqn & Hs). destruct Hl as (Hlq & Hsq & Hl). cbn [fst snd] in *. pose proof (sorted_le _ _ _ Hs) as Hle. hunf.
    destruct (Z.eqb_spec (b + n * 16) q) as [E|Hne].
    + assert (Hu : u32 (n + qn) = n + qn) by (apply u32_id; lia). unfold set_size. rewrite Hsq, Hu, bind_modify, bind_gets. cbn [hm set_hm].
      set (m' := store32 (hm h) (b + 8) (n + qn)). assert (Ho : only b (hm h) m') by apply only_size.
      rewrite (hdr_same_ptr (hm h) m' p) by (apply (only_same b); [done|lia]). rewrite Hp. rewrite (hdr_same_ptr (hm h) m' q) by (apply (only_same b); [done|lia]). rewrite Hlq.
      assert (Hst : 0 ≤ start R base < 2 ^ 64) by (destruct R as [|r R]; cbn [start]; [lia|]; destruct Hs as (? & ? & ?%sorted_le); hunf; lia).
      assert (Ho2 : only b (hm h) (store64 m' b (start R base))) by (eapply only_trans; [done|apply only_ptr]).
      exists (store64 m' b (start R base)), (b, n + qn), R. split; [done|]. cbn [linked fst snd sorted total foldr]. rewrite hptr_set_ptr, hsize_set_ptr by done.
      unfold m' at 1. rewrite hsize_set_size by lia. split_and!; try done; try lia.
      * by apply (linked_only b (hm h) _ (q + qn * 16) R hi); [..|lia|].
      * eapply sorted_mono; [|done]. hunf. lia.
      * simpl. lia.
      * intros y Hy1 Hy [Hyq HyR]%Forall_cons. constructor; [|done]. hunf. lia.
    + exists (store64 (hm h) b q), (b, n), ((q, qn) :: R). split; [done|]. assert (Ho : only b (hm h) (store64 (hm h) b q)) by apply only_ptr.
      cbn [linked start fst snd sorted total foldr]. rewrite hptr_set_ptr, hsize_set_ptr by lia.
      rewrite (hdr_same_ptr (hm h) _ q), (hdr_same_size (hm h) _ q) by (apply (only_same b); [done|lia]).
      split_and!; try done; try (hunf; lia).
      * by apply (linked_only b (hm h) _ (q + qn * 16) R hi); [..|lia|].
      * intros y _ Hy HyR. by constructor.
Qed.
(** The lower neighbour [p], the last of [L] or [base]. *)
Lemma free_down_ok h b B L R1 z hi : fst B = b → lo ≤ b → 1 ≤ snd B → sorted (lo - 1) L b → sorted (b - 1) (B :: R1) hi → hi ≤ lim →
  linked (hm h) ((base, 0) :: L) z → linked (hm h) (B :: R1) base →
  let p := fst (List.last L (base, 0)) in
  ∃ m2 fl, free_down b p h = Ret tt (set_hm m2 h) ∧ linked m2 ((base, 0) :: fl) base ∧ sorted (lo - 1) fl hi ∧ total fl = total L + total (B :: R1) ∧
    only p (hm h) m2 ∧ (length fl ≤ S (length L + length R1))%nat ∧ (∃ x, x ∈ fl ∧ fst x ≤ b ∧ bend B ≤ bend x) ∧ p ∈ base :: (fst <$> fl) ∧ ∀ y, 1 ≤ snd y → clear_of y L → clear_of y (B :: R1) → clear_of y fl.
Proof.
  intros Eb Hb HB HsL HsR Hhi HlL HlR p. unfold free_down. rewrite bind_gets. pose proof (sorted_le _ _ _ HsR) as Hle. destruct HlR as (HpB & HzB & HlR). rewrite Eb in *.
  assert (HsB : sorted (bend B) R1 hi) by (by destruct HsR as (_ & _ & ?)). pose proof (sorted_le _ _ _ HsB) as HleB. destruct B as [b' n]. cbn [fst snd] in *. subst b'. hunf.
  assert (Hst : 0 ≤ start R1 base < 2 ^ 64) by (destruct R1 as [|r R]; cbn [start]; [lia|]; destruct HsB as (? & ? & ?%sorted_le); hunf; lia).
  destruct (exists_last_dec L) as [->|(L' & [a k] & ->)].
  - cbn [List.last fst] in p. subst p. destruct HlL as (Hp0 & Hz0 & _). cbn [fst snd] in *. rewrite Hz0, (proj2 (Z.eqb_neq _ _)) by (hunf; lia).
    exists (store64 (hm h) base b), ((b, n) :: R1). split; [done|]. assert (Ho : only base (hm h) (store64 (hm h) base b)) by apply only_ptr.
    cbn [linked start fst snd]. rewrite hptr_set_ptr, hsize_set_ptr by lia. rewrite (hdr_same_ptr (hm h) _ b), (hdr_same_size (hm h) _ b) by (apply (only_same base); [done|lia]).
    split_and!; try done.
    + by apply (linked_only base (hm h) _ (b + n * 16) R1 hi); [..|lia|].
    + eapply sorted_mono; [|done]. lia.
    + exists (b, n). split_and!; [left|done|done].
    + left.
  - unfold p. rewrite last_app_cons. cbn [List.last fst]. apply sorted_app in HsL as (mid & HsL & (Ha & Hk & HleL)). cbn [sorted] in HleL. pose proof (sorted_le _ _ _ HsL) as Hmid.
    change ((base, 0) :: L' ++ [(a, k)]) with (((base, 0) :: L') ++ [(a, k)]) in HlL. apply linked_app in HlL as [HlL (Hpa & Hza & _)]. cbn [fst snd start] in *. rewrite Hza. hunf.
    assert (HL' : ∀ m', only a (hm h) m' → linked m' ((base, 0) :: L') a).
    { intros m' Ho. revert HlL. apply linked_same. constructor; [apply (only_same a); [done|simpl; lia]|]. apply Forall_forall. intros x Hx.
      destruct (sorted_bounds _ _ _ _ HsL Hx) as (? & ? & ?). apply (only_same a); [done|]. hunf. lia. }
    destruct (Z.eqb_spec (a + k * 16) b) as [E|Hne].
    + rewrite HzB. assert (Hu : u32 (k + n) = k + n) by (apply u32_id; lia). unfold set_size. rewrite Hu, bind_modify, bind_gets. cbn [hm set_hm].
      set (m' := store32 (hm h) (a + 8) (k + n)). assert (Ho : only a (hm h) m') by apply only_size.
      rewrite (hdr_same_ptr (hm h) m' b) by (apply (only_same a); [done|lia]). rewrite HpB.
      assert (Ho2 : only a (hm h) (store64 m' a (start R1 base))) by (eapply only_trans; [done|apply only_ptr]).
      exists (store64 m' a (start R1 base)), (L' ++ (a, k + n) :: R1). split; [done|]. split_and!.
      * change ((base, 0) :: L' ++ (a, k + n) :: R1) with (((base, 0) :: L') ++ (a, k + n) :: R1). apply linked_app. split; [by apply HL'|]. cbn [linked fst snd].
        rewrite hptr_set_ptr, hsize_set_ptr by done. unfold m' at 1. rewrite hsize_set_size by lia. split_and!; [done|done|].
        by apply (linked_only a (hm h) _ (b + n * 16) R1 hi); [..|lia|].
      * apply sorted_app. exists mid. split; [done|]. cbn [sorted fst snd]. split_and!; [done|lia|]. replace (bend (a, k + n)) with (b + n * 16) by (hunf; lia). done.
      * rewrite !total_app. cbn [total foldr snd]. unfold total. lia.
      * done.
      * rewrite !length_app. simpl. lia.
      * exists (a, k + n). split_and!; [set_solver|simpl; lia|hunf; lia].
      * rewrite fmap_app, fmap_cons. set_solver.
      * intros y Hy [HyL [Hya _]%Forall_cons]%Forall_app [Hyb HyR]%Forall_cons. apply Forall_app. split; [done|]. constructor; [|done]. hunf. lia.
    + assert (Ho : only a (hm h) (store64 (hm h) a b)) by apply only_ptr. exists (store64 (hm h) a b), (L' ++ (a, k) :: (b, n) :: R1). split; [done|]. split_and!.
      * change ((base, 0) :: L' ++ (a, k) :: (b, n) :: R1) with (((base, 0) :: L') ++ (a, k) :: (b, n) :: R1). apply linked_app. split; [by apply HL'|]. cbn [linked start fst snd].
        rewrite hptr_set_ptr, hsize_set_ptr by lia. rewrite (hdr_same_ptr (hm h) _ b), (hdr_same_size (hm h) _ b) by (apply (only_same a); [done|lia]). split_and!; try done.
        by apply (linked_only a (hm h) _ (b + n * 16) R1 hi); [..|lia|].
      * apply sorted_app. exists mid. split; [done|]. cbn [sorted fst snd]. split_and!; [done|lia|hunf; lia|lia|done].
      * rewrite !total_app. cbn [total foldr snd]. unfold total. lia.
      * done.
      * rewrite !length_app. simpl. lia.
      * exists (b, n). split_and!; [set_solver|done|done].
      * rewrite fmap_app, fmap_cons. set_solver.
      * intros y Hy [HyL [Hya _]%Forall_cons]%Forall_app HyB. apply Forall_app. split; [done|]. by constructor.
Qed.

(** The heap: [al] is handed out, [fl] is the free list. *)
Record heap_ok (al fl : list block) (h : heap) : Prop := {
  ok_sorted : sorted (lo - 1) fl (brk h);
  ok_linked : linked (hm h) ((base, 0) :: fl) base;
  ok_freep : freep h ∈ base :: (fst <$> fl);
  ok_al : Forall (λ y, lo ≤ fst y ∧ 1 ≤ snd y ∧ bend y ≤ brk h ∧ hsize (hm h) (fst y) = snd y) al;
  ok_apart : apart al;
  ok_clear : Forall (λ y, clear_of y fl) al;
  ok_total : 16 * (total fl + total al) = brk h - lo;
  ok_brk : brk h ≤ lim;
}.

(** The bytes of the blocks of [al] are the same. *)
Definition kept (al : list block) (m m' : mem) : Prop := Forall (λ y, agree m m' (fst y) (16 * snd y)) al.

Lemma sorted_hi_at l lo1 hi hi' : sorted lo1 l hi → lo1 ≤ hi' → Forall (λ x, bend x ≤ hi') l → sorted lo1 l hi'.
Proof. revert lo1. induction l as [|x l IH]; intros lo1; simpl; [done|]. intros (? & ? & H) Hle [Hx Hl]%Forall_cons. split_and!; try done. by apply IH. Qed.
Lemma sorted_lo_at l lo1 lo2 hi : sorted lo1 l hi → lo2 ≤ hi → Forall (λ x, lo2 < fst x) l → sorted lo2 l hi.
Proof. destruct l as [|x l]; simpl; [done|]. intros (? & ? & H) Hle [Hx Hl]%Forall_cons. done. Qed.

Lemma fl_length fl h : sorted (lo - 1) fl (brk h) → (length fl < list_fuel h)%nat.
Proof.
  intros Hs. destruct (sorted_total _ _ _ Hs) as [H1 H2]. unfold list_fuel, sizeof_Header in *. assert (Z.of_nat (length fl) ≤ brk h / 16); [|lia]. apply Z.div_le_lower_bound; lia.
Qed.

(** Free blocks of a sorted list are on one side of a block that is apart. *)
Lemma split_around b n L R hi : 1 ≤ n → lo ≤ b → b + 16 * n ≤ hi → sorted (lo - 1) (L ++ R) hi → clear_of (b, n) (L ++ R) → Forall (λ y, fst y < b) L → Forall (λ y, b < fst y) R →
  sorted (lo - 1) L b ∧ sorted (b + 16 * n - 1) R hi.
Proof.
  intros Hn Hb Hhi Hs Hc HL HR. pose proof Hs as (mid & HsL & HsR)%sorted_app. apply Forall_app in Hc as [HcL HcR]. split.
  - apply (sorted_hi_at _ _ mid); [done|lia|]. apply Forall_forall. intros x Hx. rewrite Forall_forall in HL, HcL. specialize (HL x Hx). specialize (HcL x Hx). hunf. lia.
  - apply (sorted_lo_at _ mid); [done|lia|]. apply Forall_forall. intros x Hx. rewrite Forall_forall in HR, HcR. specialize (HR x Hx). specialize (HcR x Hx).
    destruct (sorted_bounds _ _ _ _ HsR Hx) as (_ & Hk & _). hunf. lia.
Qed.

(** free() with [k] turns for its search. *)
Definition free_with (k : nat) (ap : Z) : M heap unit :=
  let bp := ap - sizeof_Header in
  p ← gets freep;
  p ← free_search k bp p;
  free_up bp p;;
  free_down bp p;;
  modify (set_freep p).
Lemma free_is_with ap h : free ap h = free_with (list_fuel h) ap h.
Proof. unfold free, free_with. by rewrite !bind_gets. Qed.

Lemma free_with_ok al fl b n h k : heap_ok ((b, n) :: al) fl h → (length fl < k)%nat → ∃ h' fl', free_with k (b + 16) h = Ret tt h' ∧ heap_ok al fl' h' ∧ brk h' = brk h ∧
  (∃ x, x ∈ fl' ∧ fst x ≤ b ∧ b + 16 * n ≤ bend x) ∧ (length fl' ≤ S (length fl))%nat ∧ kept al (hm h) (hm h').
Proof.
  intros [Hs Hl Hfp Hal Hap Hcl Htot Hbrk] Hfuel. apply Forall_cons in Hal as [(Hb & Hn & Hbe & Hsz) Hal]. apply Forall_cons in Hcl as [Hcb Hcl]. destruct Hap as [Hdb Hap]. cbn [fst snd] in *.
  pose proof (sorted_asc _ _ _ Hs) as Ha. destruct (asc_split _ _ b Ha) as (L & R & -> & HL & HR).
  { apply Forall_forall. intros x Hx E. destruct (sorted_bounds _ _ _ _ Hs Hx) as (_ & Hk & _). unfold clear_of in Hcb. rewrite Forall_forall in Hcb. specialize (Hcb x Hx). hunf. lia. }
  destruct (split_around b n L R (brk h)) as [HsL HsR]; try done; [hunf; lia|].
  unfold free_with. rewrite !bind_gets. replace (b + 16 - sizeof_Header) with b by (unfold sizeof_Header; lia).
  rewrite (bind_Ret _ _ _ _ _ (search_finds base b L R (freep h) _ h Hl ltac:(eapply asc_mono; [|done]; lia) ltac:(lia) HL HR Hfp Hfuel)).
  set (p := fst (List.last L (base, 0))).
  assert (Hp : hptr (hm h) p = start R base ∧ p + 16 ≤ b ∧ (p = base ∨ ∃ x, x ∈ L ∧ fst x = p)).
  { unfold p. destruct (exists_last_dec L) as [->|(L' & x & ->)].
    - destruct Hl as (Hl & _). cbn [List.last fst]. split_and!; [done|lia|by left].
    - rewrite last_app_cons. cbn [List.last]. change ((base, 0) :: (L' ++ [x]) ++ R) with (((base, 0) :: L' ++ [x]) ++ R) in Hl. apply linked_app in Hl as [Hl _].
      change ((base, 0) :: L' ++ [x]) with (((base, 0) :: L') ++ [x]) in Hl. apply linked_app in Hl as [_ (Hx & _)].
      destruct (sorted_bounds _ _ _ x HsL ltac:(set_solver)) as (_ & ? & ?). split_and!; [done|hunf; lia|right; exists x; set_solver]. }
  destruct Hp as (Hpq & Hpb & Hpin).
  change ((base, 0) :: L ++ R) with (((base, 0) :: L) ++ R) in Hl. apply linked_app in Hl as [HlL HlR].
  destruct (free_up_ok h b n p R (brk h)) as (m1 & B & R1 & E1 & Hl1 & EB & HnB & Hs1 & Ht1 & Ho1 & Hln1 & Hc1); try done; [hunf; lia|].
  rewrite (bind_Ret _ _ _ _ _ E1).
  assert (HlL1 : linked m1 ((base, 0) :: L) (start R base)).
  { revert HlL. apply linked_same. constructor; [apply (only_same b); [done|simpl; lia]|]. apply Forall_forall. intros x Hx. destruct (sorted_bounds _ _ _ _ HsL Hx) as (? & ? & ?). apply (only_same b); [done|]. hunf. lia. }
  destruct (free_down_ok (set_hm m1 h) b B L R1 (start R base) (brk h)) as (m2 & fl & E2 & Hl2 & Hs2 & Ht2 & Ho2 & Hln2 & (x & Hx & Hxb & Hxe) & Hp2 & Hc2); try done; [lia|].
  fold p in E2, Ho2, Hp2. rewrite (bind_Ret _ _ _ _ _ E2). cbn [hm set_hm] in Ho2.
  assert (Hk : kept al (hm h) m2).
  { apply Forall_forall. intros y Hy z Hz. rewrite Forall_forall in Hdb, Hcl, Hal. specialize (Hdb y Hy). specialize (Hcl y Hy). specialize (Hal y Hy). rewrite Ho2, Ho1; [done|..].
    - hunf. lia.
    - destruct Hpin as [->|(w & Hw & <-)]; [hunf; lia|]. unfold clear_of in Hcl. rewrite Forall_forall in Hcl. specialize (Hcl w ltac:(set_solver)).
      destruct (sorted_bounds _ _ _ _ HsL Hw) as (_ & ? & _). hunf. lia. }
  eexists _, fl. split; [reflexivity|]. cbn [set_freep set_hm hm brk freep]. split_and!; [|done|exists x; split_and!; [done|done|hunf; lia]|rewrite length_app; lia|done].
  split; cbn [set_freep set_hm hm brk freep]; try done.
  - apply Forall_forall. intros y Hy. rewrite Forall_forall in Hal. destruct (Hal y Hy) as (? & ? & ? & Hsy). split_and!; [done|done|done|]. rewrite <- Hsy. unfold kept in Hk. rewrite Forall_forall in Hk.
    apply hdr_same_size. intros z Hz. apply (Hk y Hy). lia.
  - apply Forall_forall. intros y Hy. rewrite Forall_forall in Hdb, Hcl, Hal. specialize (Hcl y Hy) as HcL. unfold clear_of in HcL. apply Forall_app in HcL as [HcL HcR].
    destruct (Hal y Hy) as (_ & Hy1 & _). specialize (Hdb y Hy). apply Hc2; [done|done|]. apply Hc1; [done|hunf; lia|done].
  - rewrite Ht2, Ht1. rewrite total_app in Htot. cbn [total foldr snd] in Htot. unfold total in *. lia.
Qed.

Lemma free_ok al fl b n h : heap_ok ((b, n) :: al) fl h → ∃ h' fl', free (b + 16) h = Ret tt h' ∧ heap_ok al fl' h' ∧ brk h' = brk h ∧
  (∃ x, x ∈ fl' ∧ fst x ≤ b ∧ b + 16 * n ≤ bend x) ∧ (length fl' ≤ S (length fl))%nat ∧ kept al (hm h) (hm h').
Proof. intros Hok. rewrite free_is_with. apply free_with_ok; [done|]. exact (fl_length _ _ (ok_sorted _ _ _ Hok)). Qed.

(** ** malloc() *)

Lemma al_total al h : Forall (λ y, lo ≤ fst y ∧ 1 ≤ snd y ∧ bend y ≤ brk h ∧ hsize (hm h) (fst y) = snd y) al → 0 ≤ total al.
Proof. intros H. induction H as [|y al (_ & ? & _) H IH]; simpl; [done|]. unfold total in *. lia. Qed.

Lemma brk_lo al fl h : heap_ok al fl h → lo ≤ brk h.
Proof. intros [Hs _ _ Hal _ _ Ht _]. apply al_total in Hal. destruct (sorted_total _ _ _ Hs). lia. Qed.

(** The break moves up by [N] headers: the new memory is a block. *)
Lemma grow_ok al fl h N : heap_ok al fl h → 1 ≤ N < 2 ^ 32 → brk h + 16 * N ≤ lim →
  heap_ok ((brk h, N) :: al) fl (set_hm (store32 (hm h) (brk h + 8) N) (set_brk (brk h + 16 * N) h)).
Proof.
  intros Hok HN Hle. pose proof (brk_lo _ _ _ Hok) as Hbl. destruct Hok as [Hs Hl Hfp Hal Hap Hcl Htot Hbrk].
  set (m1 := store32 (hm h) (brk h + 8) N). assert (Ho : only (brk h) (hm h) m1) by apply only_size. split; cbn [hm set_hm set_brk brk freep].
  - eapply sorted_hi; [|done]. lia.
  - revert Hl. apply linked_same. constructor; [apply (only_same (brk h)); [done|simpl; lia]|]. apply Forall_forall. intros x Hx.
    destruct (sorted_bounds _ _ _ _ Hs Hx) as (? & ? & ?). apply (only_same (brk h)); [done|]. hunf. lia.
  - done.
  - constructor; cbn [fst snd]; [split_and!; [done|lia|hunf; lia|apply hsize_set_size; lia]|]. eapply Forall_impl; [exact Hal|]. intros y (? & ? & ? & Hsy).
    split_and!; [done|done|lia|]. rewrite <- Hsy. apply hdr_same_size, (only_same (brk h)); [done|]. hunf. lia.
  - split; [|done]. eapply Forall_impl; [exact Hal|]. intros y (? & ? & ? & _). hunf. lia.
  - constructor; [|done]. apply Forall_forall. intros x Hx. destruct (sorted_bounds _ _ _ _ Hs Hx) as (? & ? & ?). hunf. lia.
  - cbn [total foldr snd]. unfold total in *. lia.
  - done.
Qed.

Lemma morecore_ok al fl h nu : heap_ok al fl h → 1 ≤ nu → 16 * Z.max 4096 nu < 2 ^ 31 →
  if brk h + 16 * Z.max 4096 nu <=? lim then ∃ h' fl', morecore lim nu h = Ret (freep h') h' ∧ heap_ok al fl' h' ∧ (∃ x, x ∈ fl' ∧ nu ≤ snd x) ∧
    (length fl' ≤ S (length fl))%nat ∧ kept al (hm h) (hm h')
  else morecore lim nu h = Ret 0 h.
Proof.
  intros Hok Hnu Hsz. pose proof (brk_lo _ _ _ Hok) as Hbl. unfold morecore. assert (E4 : (if nu <? 4096 then 4096 else nu) = Z.max 4096 nu) by (destruct (Z.ltb_spec nu 4096); lia).
  rewrite E4. set (N := Z.max 4096 nu) in *. unfold sizeof_Header. rewrite i32_id, (Z.mul_comm N 16) by lia. unfold sbrk.
  destruct (Z.leb_spec (brk h + 16 * N) lim) as [Hle|Hgt].
  - assert (Esb : (b ← gets brk; if 16 * N <? 0 then modify (set_brk (b + 16 * N));; mret b
      else if b + 16 * N <=? lim then modify (set_brk (b + 16 * N));; mret b else mret (-1)) h = Ret (brk h) (set_brk (brk h + 16 * N) h)).
    { rewrite bind_gets, (proj2 (Z.ltb_ge _ _)), (proj2 (Z.leb_le _ _)) by lia. done. }
    rewrite (bind_Ret _ _ _ _ _ Esb), (proj2 (Z.eqb_neq _ _)) by lia. unfold set_size. rewrite bind_modify. cbn [hm set_hm set_brk brk freep].
    set (m1 := store32 (hm h) (brk h + 8) N). set (h1 := set_hm m1 (set_brk (brk h + 16 * N) h)). destruct Hok as [Hs Hl Hfp Hal Hap Hcl Htot Hbrk].
    assert (Ho : only (brk h) (hm h) m1) by apply only_size.
    assert (Hok1 : heap_ok ((brk h, N) :: al) fl h1) by (apply grow_ok; [by split|lia|done]).
    destruct (free_ok al fl (brk h) N h1 Hok1) as (h2 & fl2 & E2 & Hok2 & _ & (x & Hx & Hxb & Hxe) & Hlen & Hk).
    replace (hplus (brk h) 1) with (brk h + 16) by (hunf; lia). rewrite (bind_Ret _ _ _ _ _ E2). exists h2, fl2. split_and!; [done|done|exists x; split; [done|hunf; lia]|done|].
    unfold kept in *. rewrite Forall_forall in Hk, Hal |- *. intros y Hy. eapply agree_trans; [|by apply Hk]. destruct (Hal y Hy) as (? & ? & ? & _). intros z Hz. cbn [h1 hm set_hm].
    rewrite Ho; [done|]. hunf. lia.
  - assert (Esb : (b ← gets brk; if 16 * N <? 0 then modify (set_brk (b + 16 * N));; mret b
      else if b + 16 * N <=? lim then modify (set_brk (b + 16 * N));; mret b else mret (-1)) h = Ret (-1) h).
    { rewrite bind_gets, (proj2 (Z.ltb_ge _ _)), (proj2 (Z.leb_gt _ _)) by lia. done. }
    by rewrite (bind_Ret _ _ _ _ _ Esb).
Qed.

(** The predecessor of a block on the ring precedes it on the list. *)
Lemma ring_pred fl m prevp p : linked m ((base, 0) :: fl) base → prevp ∈ base :: (fst <$> fl) → hptr m prevp = p → p ≠ base →
  ∃ F sz N3 s0 N1, fl = F ++ (p, sz) :: N3 ∧ (base, 0) :: F = N1 ++ [(prevp, s0)].
Proof.
  intros Hl Hin Hp Hne. assert (Hx : ∃ s0, (prevp, s0) ∈ (base, 0) :: fl).
  { apply elem_of_cons in Hin as [->|Hin]; [exists 0; left|]. apply list_elem_of_fmap in Hin as ([a s0] & -> & Hx). exists s0. by right. }
  destruct Hx as (s0 & Hx). apply list_elem_of_split in Hx as (N1 & N2 & E). rewrite E in Hl. apply linked_app in Hl as [_ (Hn & _ & Hl)]. cbn [fst] in Hn. rewrite Hp in Hn.
  destruct N2 as [|[p' sz] N3]; cbn [start fst] in Hn; [by subst|]. subst p'. destruct N1 as [|x N1]; cbn [app] in E; injection E as E1 E2.
  - exists [], sz, N3, s0, []. split; [done|]. cbn [app]. by rewrite E1, E2.
  - exists (N1 ++ [(prevp, s0)]), sz, N3, s0, (x :: N1). split; [|by rewrite E1]. rewrite E2, <- app_assoc. done.
Qed.

(** Node [a] of the list is outside the block [p]. *)
Lemma node_apart F p sz N3 hi x : sorted (lo - 1) (F ++ (p, sz) :: N3) hi → x ∈ (base, 0) :: F → fst x + 16 ≤ p.
Proof.
  intros Hs Hx. apply sorted_app in Hs as (mid & HsF & (Hp & _)). pose proof (sorted_le _ _ _ HsF). cbn [fst] in Hp.
  apply elem_of_cons in Hx as [->|Hx]; [simpl; lia|]. destruct (sorted_bounds _ _ _ _ HsF Hx) as (_ & ? & ?). hunf. lia.
Qed.

Lemma last_apart F N1 prevp s0 mid x : sorted (lo - 1) F mid → (base, 0) :: F = N1 ++ [(prevp, s0)] → x ∈ N1 → fst x + 16 ≤ prevp.
Proof.
  intros Hs E Hx. destruct N1 as [|y N1]; [by apply elem_of_nil in Hx|]. cbn [app] in E. injection E as <- ->. exact (node_apart N1 prevp s0 [] mid x Hs Hx).
Qed.

Lemma mid_apart F p sz N3 hi x : sorted (lo - 1) (F ++ (p, sz) :: N3) hi → x ∈ F ++ N3 → bend x < p ∨ p + sz * 16 < fst x.
Proof.
  intros Hs Hx. apply sorted_app in Hs as (mid & HsF & (Hp & _ & HsN)). cbn [fst] in Hp. apply elem_of_app in Hx as [Hx|Hx].
  - destruct (sorted_bounds _ _ _ _ HsF Hx) as (_ & ? & ?). hunf. lia.
  - destruct (sorted_bounds _ _ _ _ HsN Hx) as (? & ? & ?). hunf. lia.
Qed.

Lemma take_ok al fl h nu prevp p : heap_ok al fl h → 1 ≤ nu → prevp ∈ base :: (fst <$> fl) → hptr (hm h) prevp = p → nu ≤ hsize (hm h) p →
  ∃ r h' fl', malloc_take nu prevp p h = Ret (r + 16) h' ∧ heap_ok ((r, nu) :: al) fl' h' ∧ kept al (hm h) (hm h') ∧ r + 16 * nu = p + 16 * hsize (hm h) p.
Proof.
  intros Hok Hnu Hin Hp Hsz. pose proof Hok as [Hs Hl Hfp Hal Hap Hcl Htot Hbrk].
  assert (Hne : p ≠ base) by (intros E; rewrite E in Hsz; destruct Hl as (_ & Hb & _); cbn [fst snd] in Hb; lia).
  destruct (ring_pred fl (hm h) prevp p Hl Hin Hp Hne) as (F & sz & N3 & s0 & N1 & -> & EN). pose proof Hs as Hs'. apply sorted_app in Hs' as (mid & HsF & (Hpm & Hk & HsN)). cbn [fst snd] in Hpm, Hk.
  pose proof (sorted_le _ _ _ HsF) as Hmid. pose proof (sorted_le _ _ _ HsN) as HNle. hunf.
  change ((base, 0) :: F ++ (p, sz) :: N3) with (((base, 0) :: F) ++ (p, sz) :: N3) in Hl. apply linked_app in Hl as [HlF (Hpp & Hpz & HlN)]. cbn [start fst snd] in *.
  rewrite Hpz in Hsz. assert (Hst : 0 ≤ start N3 base < 2 ^ 64) by (destruct N3 as [|r R]; cbn [start]; [lia|]; destruct HsN as (? & ? & ?%sorted_le); hunf; lia).
  assert (Hprev : prevp + 16 ≤ p) by (apply (node_apart F p sz N3 (brk h) (prevp, s0) Hs); rewrite EN; set_solver).
  assert (Hprevin : ∀ l, prevp ∈ base :: (fst <$> F ++ l)).
  { intros l. assert (Hpi : prevp ∈ fst <$> (base, 0) :: F) by (rewrite EN, fmap_app; set_solver). rewrite fmap_cons in Hpi. rewrite fmap_app. set_solver. }
  assert (Hclp : ∀ y, y ∈ al → disj y (p, sz)).
  { intros y Hy. rewrite Forall_forall in Hcl. specialize (Hcl y Hy). unfold clear_of in Hcl. rewrite Forall_forall in Hcl. apply Hcl. set_solver. }
  unfold malloc_take. rewrite bind_gets, Hpz. destruct (Z.eqb_spec sz nu) as [->|Hgt].
  - (* the whole block *)
    set (m' := store64 (hm h) prevp (start N3 base)). assert (Ho : only prevp (hm h) m') by apply only_ptr.
    assert (Hkept : kept al (hm h) m').
    { apply Forall_forall. intros y Hy z Hz. rewrite Ho; [done|]. rewrite Forall_forall in Hal, Hcl. destruct (Hal y Hy) as (Hyl & Hy1 & Hyb & _). specialize (Hcl y Hy).
      assert (Hpi : prevp = base ∨ ∃ w, w ∈ F ∧ fst w = prevp).
      { assert (Hpi : (prevp, s0) ∈ (base, 0) :: F) by (rewrite EN; set_solver). apply elem_of_cons in Hpi as [[= -> _]|Hpi]; [by left|right; by exists (prevp, s0)]. }
      destruct Hpi as [->|(w & Hw & <-)]; [lia|]. unfold clear_of in Hcl. rewrite Forall_forall in Hcl. specialize (Hcl w ltac:(set_solver)).
      destruct (sorted_bounds _ _ _ _ HsF Hw) as (_ & ? & _). hunf. lia. }
    exists p, (Heap m' prevp (brk h)), (F ++ N3). split; [|split; [|split; [done|lia]]].
    { unfold set_ptr. rewrite Hpp. rewrite bind_assoc, bind_modify. rewrite bind_ret_l, bind_modify. unfold m'. hunf. by f_equal. }
    split; cbn [hm freep brk].
    + apply sorted_app. exists mid. split; [done|]. eapply sorted_mono; [|done]. lia.
    + change ((base, 0) :: F ++ N3) with (((base, 0) :: F) ++ N3). rewrite EN in HlF |- *. rewrite <- app_assoc. apply linked_app in HlF as [HlN1 (Hpv & Hsv & _)]. cbn [start fst snd] in *. apply linked_app. split.
      * cbn [app start fst]. revert HlN1. apply linked_same. apply Forall_forall. intros x Hx. apply (only_same prevp); [done|]. left. by eapply last_apart.
      * cbn [app linked fst snd]. assert (hptr m' prevp = start N3 base) as -> by (by apply hptr_set_ptr). assert (hsize m' prevp = hsize (hm h) prevp) as -> by apply hsize_set_ptr. split_and!; [done|done|]. apply (linked_only prevp (hm h) _ (p + nu * 16) N3 (brk h)); [done|done|lia|done].
    + apply Hprevin.
    + constructor; cbn [fst snd]; [split_and!; [lia|done|hunf; lia|]|].
      * rewrite (hdr_same_size (hm h)); [done|]. apply (only_same prevp); [done|lia].
      * unfold kept in Hkept. rewrite Forall_forall in Hal, Hkept |- *. intros y Hy. destruct (Hal y Hy) as (? & ? & ? & Hsy). split_and!; try done. rewrite <- Hsy. apply hdr_same_size. intros z Hz. apply (Hkept y Hy). lia.
    + split; [|done]. apply Forall_forall. intros y Hy. specialize (Hclp y Hy). hunf. lia.
    + constructor.
      * apply Forall_forall. intros x Hx. apply (mid_apart F p nu N3 (brk h)) in Hx; [|done]. hunf. lia.
      * eapply Forall_impl; [exact Hcl|]. intros y Hy. unfold clear_of in *. apply Forall_app in Hy as [? [? ?]%Forall_cons]. by apply Forall_app.
    + rewrite total_app in *. cbn [total foldr snd] in *. unfold total in *. lia.
    + done.
  - (* its end *)
    set (r := p + (sz - nu) * 16). set (m1 := store32 (hm h) (p + 8) (sz - nu)). set (m' := store32 m1 (r + 8) nu).
    assert (Ho : ∀ z, z < p ∨ p + sz * 16 ≤ z → m' z = hm h z) by (intros z Hz; unfold m', m1; rewrite !store32_out by lia; done).
    assert (Hsame : ∀ x, x ∈ F ++ N3 → 1 ≤ snd x → hdr_same (hm h) m' (fst x)).
    { intros x Hx Hx1 z Hz. apply (mid_apart F p sz N3 (brk h)) in Hx; [|done]. rewrite Ho; [done|]. hunf. lia. }
    assert (Hkept : kept al (hm h) m').
    { apply Forall_forall. intros y Hy z Hz. specialize (Hclp y Hy). rewrite Ho; [done|]. hunf. lia. }
    assert (Hu : u32 (sz - nu) = sz - nu) by (apply u32_id; lia).
    assert (Hm1 : hsize m1 p = sz - nu) by (apply hsize_set_size; lia).
    assert (Hmp : hsize m' p = sz - nu) by (rewrite <- Hm1; apply hdr_same_size, size_same; lia).
    assert (Hmpp : hptr m' p = hptr (hm h) p) by (unfold m'; rewrite (hdr_same_ptr m1) by (apply size_same; lia); apply hptr_set_size).
    exists r, (Heap m' prevp (brk h)), (F ++ (p, sz - nu) :: N3). split; [|split; [|split; [done|unfold r; lia]]].
    { unfold set_size. rewrite Hu, bind_assoc, bind_modify. cbn [hm set_hm]. fold m1. rewrite bind_assoc, bind_gets. cbn [hm set_hm]. rewrite Hm1. cbv zeta.
      rewrite bind_assoc, bind_modify. rewrite bind_ret_l, bind_modify. unfold m', r. hunf. by f_equal. }
    split; cbn [hm freep brk].
    + apply sorted_app. exists mid. split; [done|]. cbn [sorted fst snd]. split_and!; [done|lia|]. eapply sorted_mono; [|done]. hunf. lia.
    + change ((base, 0) :: F ++ (p, sz - nu) :: N3) with (((base, 0) :: F) ++ (p, sz - nu) :: N3). apply linked_app. split; [|cbn [linked fst snd]; rewrite Hmp, Hmpp; split_and!; [done|done|]].
      * cbn [start fst]. revert HlF. apply linked_same. constructor; [intros z Hz; cbn [fst] in Hz; rewrite Ho by lia; done|]. apply Forall_forall. intros x Hx. apply Hsame; [set_solver|].
        by destruct (sorted_bounds _ _ _ _ HsF Hx) as (_ & ? & _).
      * revert HlN. apply linked_same. apply Forall_forall. intros x Hx. apply Hsame; [set_solver|]. by destruct (sorted_bounds _ _ _ _ HsN Hx) as (_ & ? & _).
    + apply Hprevin.
    + constructor; cbn [fst snd]; [split_and!; [lia|done|hunf; lia|]|].
      * apply hsize_set_size. lia.
      * unfold kept in Hkept. rewrite Forall_forall in Hal, Hkept |- *. intros y Hy. destruct (Hal y Hy) as (? & ? & ? & Hsy). split_and!; try done. rewrite <- Hsy. apply hdr_same_size. intros z Hz. apply (Hkept y Hy). lia.
    + split; [|done]. apply Forall_forall. intros y Hy. specialize (Hclp y Hy). hunf. lia.
    + constructor.
      * assert (Hd : ∀ x, x ∈ F ++ N3 → bend x < p ∨ p + sz * 16 < fst x) by (intros x Hx; by eapply mid_apart). apply Forall_forall. intros x Hx.
        apply elem_of_app in Hx as [Hx|Hx]; [specialize (Hd x ltac:(set_solver)); hunf; lia|]. apply elem_of_cons in Hx as [->|Hx]; [hunf; lia|]. specialize (Hd x ltac:(set_solver)). hunf. lia.
      * eapply Forall_impl; [exact Hcl|]. intros y Hy. unfold clear_of in *. apply Forall_app in Hy as [? [Hyp ?]%Forall_cons]. apply Forall_app. split; [done|]. constructor; [|done]. hunf. lia.
    + rewrite total_app in *. cbn [total foldr snd] in *. unfold total in *. lia.
    + done.
Qed.

(** The search of malloc() passes over blocks that are too small. *)
Lemma scan nu A : ∀ x k h y, linked (hm h) (x :: A) y → Forall (λ z, snd z < nu ∧ fst z ≠ freep h) A →
  malloc_loop lim (length A + k) nu (fst x) (start A y) h = malloc_loop lim k nu (fst (List.last A x)) y h.
Proof.
  induction A as [|z A IH]; intros x k h y Hl HA; [done|]. destruct Hl as (_ & _ & Hl). pose proof Hl as (Hp & Hs & _). apply Forall_cons in HA as [[Hz Hfp] HA]. rewrite last_cons.
  cbn [length Nat.add malloc_loop start]. rewrite bind_gets, Hs, (proj2 (Z.leb_gt _ _)) by lia. rewrite bind_gets, (proj2 (Z.eqb_neq _ _)), bind_gets, Hp by done. by apply IH.
Qed.

(** The ring from [freep] on. *)
Lemma rotate fl fp h : linked (hm h) ((base, 0) :: fl) base → fp ∈ base :: (fst <$> fl) → ∃ s0 W, linked (hm h) ((fp, s0) :: W) fp ∧ (fp, s0) :: W ≡ₚ (base, 0) :: fl.
Proof.
  intros Hl Hfp. assert (Hx : ∃ s0, (fp, s0) ∈ (base, 0) :: fl).
  { apply elem_of_cons in Hfp as [->|Hin]; [exists 0; left|]. apply list_elem_of_fmap in Hin as ([a s0] & -> & Hx). exists s0. by right. }
  destruct Hx as (s0 & Hx). apply list_elem_of_split in Hx as (l1 & l2 & E). exists s0, (l2 ++ l1). split.
  - rewrite E in Hl. apply linked_app in Hl as [H1 H2]. change ((fp, s0) :: l2 ++ l1) with (((fp, s0) :: l2) ++ l1). apply linked_app. split; [|done].
    destruct l1 as [|x l1]; cbn [app start] in *; [injection E as <- _ _; done|]. injection E as <- _. done.
  - rewrite E. change ((fp, s0) :: l2 ++ l1) with (((fp, s0) :: l2) ++ l1). apply Permutation_app_comm.
Qed.

Lemma ring_nodup fl hi : sorted (lo - 1) fl hi → NoDup (fst <$> (base, 0) :: fl).
Proof.
  intros Hs. rewrite fmap_cons. assert (Ha : asc base fl) by (eapply asc_mono; [|by eapply sorted_asc]; lia). cbn [fst]. clear Hs. revert Ha. generalize base at 1 2 as a.
  induction fl as [|x fl IH]; intros a Ha; [apply NoDup_singleton|]. destruct Ha as [Hx Ha]. rewrite fmap_cons. apply NoDup_cons. split; [|by apply IH].
  intros Hin. assert (Hall : ∀ l b, asc b l → ∀ c, c ∈ fst <$> l → b < c).
  { clear. induction l as [|y l IH]; intros b Hb c Hc; [by apply elem_of_nil in Hc|]. destruct Hb as [Hy Hb]. rewrite fmap_cons in Hc. apply elem_of_cons in Hc as [->|Hc]; [done|].
    specialize (IH _ Hb _ Hc). lia. }
  assert (a < a); [|lia]. apply (Hall (x :: fl) a); [by split|]. by rewrite fmap_cons.
Qed.

(** The first of a list with a property. *)
Lemma first_fit nu (l : list block) : Forall (λ z, snd z < nu) l ∨ ∃ A z B, l = A ++ z :: B ∧ Forall (λ z, snd z < nu) A ∧ nu ≤ snd z.
Proof.
  induction l as [|x l IH]; [by left|]. destruct (decide (snd x < nu)) as [Hx|Hx]; [|right; exists [], x, l; split_and!; [done|constructor|lia]].
  destruct IH as [H|(A & z & B & -> & HA & Hz)]; [left; by constructor|right]. exists (x :: A), z, B. split_and!; [done|by constructor|done].
Qed.

(** A large enough free block is found. *)
Lemma find_ok al fl h nu k : heap_ok al fl h → 1 ≤ nu → (∃ x, x ∈ fl ∧ nu ≤ snd x) → (length fl ≤ k)%nat →
  ∃ r h' fl', malloc_loop lim k nu (freep h) (hptr (hm h) (freep h)) h = Ret (r + 16) h' ∧ heap_ok ((r, nu) :: al) fl' h' ∧ kept al (hm h) (hm h') ∧
    ∃ z, z ∈ fl ∧ nu ≤ snd z ∧ r + 16 * nu = bend z.
Proof.
  intros Hok Hnu (x & Hx & Hxn) Hk. pose proof Hok as [Hs Hl Hfp _ _ _ _ _]. destruct (rotate fl (freep h) h Hl Hfp) as (s0 & W & HlW & Hperm).
  pose proof (ring_nodup _ _ Hs) as Hnd. rewrite <- Hperm, fmap_cons in Hnd. apply NoDup_cons in Hnd as [HnW _]. cbn [fst] in HnW.
  assert (HlenW : length W = length fl) by (apply Permutation_length in Hperm; simpl in Hperm; lia).
  assert (Hin : x ∈ W ++ [(freep h, s0)]) by (assert (Hin : x ∈ (freep h, s0) :: W) by (rewrite Hperm; by right); rewrite elem_of_app, list_elem_of_singleton; apply elem_of_cons in Hin as [?|?]; [by right|by left]).
  destruct (first_fit nu (W ++ [(freep h, s0)])) as [Hno|(A & z & B & E & HA & Hz)]; [rewrite Forall_forall in Hno; specialize (Hno x Hin); lia|].
  assert (HAW : (∃ B', W = A ++ B') ∧ linked (hm h) ((freep h, s0) :: A) (fst z) ∧ hsize (hm h) (fst z) = snd z).
  { destruct (exists_last_dec B) as [->|(B' & w & ->)].
    - apply app_inj_tail in E as [-> <-]. split_and!; [exists []; by rewrite app_nil_r|done|by destruct HlW as (_ & ? & _)].
    - rewrite app_comm_cons, app_assoc in E. apply app_inj_tail in E as [-> _]. split; [by exists (z :: B')|].
      change ((freep h, s0) :: A ++ z :: B') with (((freep h, s0) :: A) ++ z :: B') in HlW. apply linked_app in HlW as [H1 (_ & H2 & _)]. done. }
  destruct HAW as ((B' & EW) & HlA & Hsz). rewrite EW, fmap_app, not_elem_of_app in HnW. destruct HnW as [HnA _]. rewrite EW, length_app in HlenW.
  assert (Hst : hptr (hm h) (freep h) = start A (fst z)) by (by destruct HlA as (? & _)). rewrite Hst. replace k with (length A + (k - length A))%nat by lia.
  rewrite (scan nu A (freep h, s0)); [|done|]; cycle 1.
  { rewrite Forall_forall in HA |- *. intros y Hy. split; [by apply HA|]. intros Ey. apply HnA. rewrite <- Ey. by apply list_elem_of_fmap_2. }
  assert (Hlast : List.last A (freep h, s0) ∈ (freep h, s0) :: W ∧ hptr (hm h) (fst (List.last A (freep h, s0))) = fst z).
  { rewrite EW. destruct (exists_last_dec A) as [->|(A' & w & ->)].
    - split; [left|]. by destruct HlA as (? & _).
    - rewrite last_app_cons. cbn [List.last]. split; [set_solver|]. change ((freep h, s0) :: A' ++ [w]) with (((freep h, s0) :: A') ++ [w]) in HlA. by apply linked_app in HlA as [_ (? & _)]. }
  destruct Hlast as [Hlin Hlp]. rewrite Hperm in Hlin. destruct (take_ok al fl h nu (fst (List.last A (freep h, s0))) (fst z)) as (r & h' & fl' & Et & Hok' & Hkept & Hend); try done; [|lia|].
  - apply (list_elem_of_fmap_2 fst) in Hlin. by rewrite fmap_cons in Hlin.
  - exists r, h', fl'. split_and!; try done; cycle 1.
    { exists z. split_and!; [|done|rewrite Hend, Hsz; hunf; lia]. assert (Hzin : z ∈ (freep h, s0) :: W).
      { assert (Hz' : z ∈ W ++ [(freep h, s0)]) by (rewrite E; set_solver). rewrite elem_of_app, list_elem_of_singleton in Hz'. apply elem_of_cons. tauto. }
      rewrite Hperm in Hzin. apply elem_of_cons in Hzin as [->|?]; [simpl in Hz; lia|done]. }
    destruct (k - length A)%nat; cbn [malloc_loop]; rewrite bind_gets, Hsz, (proj2 (Z.leb_le _ _)) by done; exact Et.
Qed.

(** No block is large enough: malloc() goes round the list and calls morecore(). *)
Lemma none_fits al fl h nu k : heap_ok al fl h → 1 ≤ nu → Forall (λ x, snd x < nu) fl →
  malloc_loop lim (length fl + S k) nu (freep h) (hptr (hm h) (freep h)) h =
  (p ← morecore lim nu; if p =? 0 then mret 0 else m ← gets hm; malloc_loop lim k nu p (hptr m p)) h.
Proof.
  intros Hok Hnu Hno. pose proof Hok as [Hs Hl Hfp _ _ _ _ _]. destruct (rotate fl (freep h) h Hl Hfp) as (s0 & W & HlW & Hperm).
  pose proof (ring_nodup _ _ Hs) as Hnd. rewrite <- Hperm, fmap_cons in Hnd. apply NoDup_cons in Hnd as [HnW _]. cbn [fst] in HnW.
  assert (HlenW : length W = length fl) by (apply Permutation_length in Hperm; simpl in Hperm; lia).
  assert (Hall : Forall (λ x, snd x < nu) ((freep h, s0) :: W)) by (rewrite Hperm; constructor; [simpl; lia|done]). apply Forall_cons in Hall as [Hs0 HW]. cbn [snd] in Hs0.
  assert (Hst : hptr (hm h) (freep h) = start W (freep h)) by (by destruct HlW as (? & _)). rewrite Hst, <- HlenW.
  rewrite (scan nu W (freep h, s0)); [|done|]; cycle 1.
  { rewrite Forall_forall in HW |- *. intros y Hy. split; [by apply HW|]. intros Ey. apply HnW. rewrite <- Ey. by apply list_elem_of_fmap_2. }
  cbn [malloc_loop]. destruct HlW as (_ & Hsz0 & _). cbn [fst snd] in Hsz0. by rewrite bind_gets, Hsz0, (proj2 (Z.leb_gt _ _)), bind_gets, Z.eqb_refl by lia.
Qed.

Lemma freep_ne0 al fl h : heap_ok al fl h → freep h ≠ 0.
Proof.
  intros [Hs _ Hfp _ _ _ _ _]. apply elem_of_cons in Hfp as [->|Hf]; [lia|]. apply list_elem_of_fmap in Hf as (x & -> & Hx). destruct (sorted_bounds _ _ _ _ Hs Hx). lia.
Qed.

Lemma search_ok al fl h nu k : heap_ok al fl h → 1 ≤ nu → 16 * Z.max 4096 nu < 2 ^ 31 → (2 * length fl + 3 ≤ k)%nat →
  (∃ r h' fl', malloc_loop lim k nu (freep h) (hptr (hm h) (freep h)) h = Ret (r + 16) h' ∧ heap_ok ((r, nu) :: al) fl' h' ∧ kept al (hm h) (hm h')) ∨
  (malloc_loop lim k nu (freep h) (hptr (hm h) (freep h)) h = Ret 0 h ∧ lim < brk h + 16 * Z.max 4096 nu ∧ Forall (λ x, snd x < nu) fl).
Proof.
  intros Hok Hnu Hsz Hk. destruct (first_fit nu fl) as [Hno|(A & z & B & E & _ & Hz)].
  2: { left. destruct (find_ok al fl h nu k Hok Hnu) as (r & h' & fl' & ? & ? & ? & _); [exists z; split; [rewrite E; set_solver|done]|lia|]. by exists r, h', fl'. }
  replace k with (length fl + S (k - length fl - 1))%nat by lia. rewrite (none_fits al fl) by done.
  pose proof (morecore_ok al fl h nu Hok Hnu Hsz) as Hmc. destruct (Z.leb_spec (brk h + 16 * Z.max 4096 nu) lim) as [Hle|Hgt].
  - destruct Hmc as (h2 & fl2 & E2 & Hok2 & Hfit & Hlen & Hk2). rewrite (bind_Ret _ _ _ _ _ E2). left.
    rewrite (proj2 (Z.eqb_neq _ _)) by (by eapply freep_ne0). rewrite bind_gets. destruct (find_ok al fl2 h2 nu (k - length fl - 1) Hok2 Hnu Hfit) as (r & h' & fl' & E & Hok' & Hk' & _); [lia|].
    exists r, h', fl'. split_and!; [done|done|]. unfold kept in *. rewrite Forall_forall in Hk', Hk2 |- *. intros y Hy. eapply agree_trans; [by apply Hk2|by apply Hk'].
  - right. by rewrite (bind_Ret _ _ _ _ _ Hmc).
Qed.

(** Before the first malloc(), or a heap with some free list. *)
Definition heap_inv (al : list block) (h : heap) : Prop :=
  (freep h = 0 ∧ al = [] ∧ brk h = lo ∧ lo ≤ lim) ∨ ∃ fl, heap_ok al fl h.

Lemma heap_init h : brk h = lo → lo ≤ lim → heap_ok [] [] (Heap (store32 (store64 (hm h) base base) (base + 8) 0) base (brk h)).
Proof.
  intros Hb Hl. split; cbn [hm freep brk].
  - simpl. lia.
  - cbn [linked start fst snd]. rewrite hptr_set_size, hptr_set_ptr, hsize_set_size by lia. done.
  - left.
  - constructor.
  - done.
  - constructor.
  - simpl. lia.
  - lia.
Qed.

Lemma units_spec nbytes : 0 ≤ nbytes < 2 ^ 31 - 64 → let n := units nbytes in 1 ≤ n ∧ 16 * Z.max 4096 n < 2 ^ 31 ∧ nbytes ≤ 16 * (n - 1).
Proof.
  intros Hn. unfold units, sizeof_Header. cbv zeta. pose proof (Z_div_mod_eq_full (nbytes + 16 - 1) 16) as E. pose proof (Z.mod_pos_bound (nbytes + 16 - 1) 16 ltac:(lia)).
  rewrite u32_id by lia. lia.
Qed.

(** The first call makes the list of [base] alone. *)
Lemma malloc_start al h : heap_inv al h → ∃ h1 fl,
  (if freep h =? 0 then set_ptr base base;; modify (set_freep base);; set_size base 0;; mret base else mret (freep h)) h = Ret (freep h1) h1 ∧
  heap_ok al fl h1 ∧ kept al (hm h) (hm h1) ∧ brk h1 = brk h.
Proof.
  intros [(Hf & -> & Hb & Hl)|[fl Hok]].
  - rewrite Hf. cbn [Z.eqb]. exists (Heap (store32 (store64 (hm h) base base) (base + 8) 0) base (brk h)), []. split_and!; [done|by apply heap_init|constructor|done].
  - exists h, fl. split_and!; try done; [|apply Forall_true; by intros y z]. rewrite (proj2 (Z.eqb_neq _ _)); [done|]. by eapply freep_ne0.
Qed.

Lemma malloc_ok al h nbytes : heap_inv al h → 0 ≤ nbytes < 2 ^ 31 - 64 → ∃ p h', malloc base lim nbytes h = Ret p h' ∧ kept al (hm h) (hm h') ∧
  ((p = 0 ∧ heap_inv al h' ∧ lim < brk h + 16 * Z.max 4096 (units nbytes)) ∨
   (0 < p ∧ heap_inv ((p - 16, units nbytes) :: al) h' ∧ nbytes ≤ 16 * (units nbytes - 1))).
Proof.
  intros Hinv Hn. destruct (units_spec nbytes Hn) as (H1 & H2 & H3). unfold malloc. rewrite bind_gets.
  destruct (malloc_start al h Hinv) as (h1 & fl & E1 & Hok & Hk1 & Hb1).
  rewrite (bind_Ret _ _ _ _ _ E1), bind_gets. cbn [id]. pose proof (fl_length _ _ (ok_sorted _ _ _ Hok)) as Hlen.
  destruct (search_ok al fl h1 (units nbytes) (2 * list_fuel h1 + 2) Hok H1 H2 ltac:(lia)) as [(r & h' & fl' & E & Hok' & Hk')|(E & Hlim' & _)].
  - exists (r + 16), h'. split_and!; [done| |right].
    + unfold kept in *. rewrite Forall_forall in Hk', Hk1 |- *. intros y Hy. eapply agree_trans; [by apply Hk1|by apply Hk'].
    + pose proof Hok' as [_ _ _ [(? & _) _]%Forall_cons _ _ _ _]. cbn [fst] in *. replace (r + 16 - 16) with r by lia. split_and!; [lia|right; by exists fl'|done].
  - exists 0, h1. split_and!; [done|done|left]. split_and!; [done|right; by exists fl|by rewrite <- Hb1].
Qed.

(** ** Order of the blocks handed out *)

Lemma apart_perm l l' : l ≡ₚ l' → apart l → apart l'.
Proof.
  induction 1 as [|x l l' Hp IH|x y l|l1 l2 l3 _ IH1 _ IH2]; simpl; [done| | |naive_solver].
  - intros [Hx Hl]. split; [by rewrite <- Hp|by apply IH].
  - intros [[Hyx Hy]%Forall_cons [Hx Hl]]. split_and!; [|done|done]. constructor; [unfold disj in *; lia|done].
Qed.

Lemma heap_ok_perm al al' fl h : al ≡ₚ al' → heap_ok al fl h → heap_ok al' fl h.
Proof.
  intros Hp [Hs Hl Hfp Hal Hap Hcl Htot Hbrk]. split; try done; try (by rewrite <- Hp); [by eapply apart_perm|].
  assert (total al = total al') as <-; [|done]. clear -Hp. induction Hp; simpl in *; lia.
Qed.

Lemma free_inv al1 al2 p n h : heap_inv (al1 ++ (p - 16, n) :: al2) h → ∃ h', free p h = Ret tt h' ∧ heap_inv (al1 ++ al2) h' ∧ brk h' = brk h ∧ kept (al1 ++ al2) (hm h) (hm h').
Proof.
  intros [(_ & E & _)|[fl Hok]]; [by destruct al1|]. apply (heap_ok_perm _ ((p - 16, n) :: al1 ++ al2)) in Hok; [|by rewrite Permutation_middle].
  destruct (free_ok _ fl (p - 16) n h Hok) as (h' & fl' & E & Hok' & Hb & _ & _ & Hk). replace (p - 16 + 16) with p in E by lia. exists h'. split_and!; try done. right. by exists fl'.
Qed.
End ops.

(** ** Requests that overflow *)








Section overflow.
Context (base lo lim : Z) (Hbase : 0 < base) (Hlo : base + 16 ≤ lo) (Hlim : lim ≤ 2 ^ 32).
Context (al fl : list block) (h : heap) (Hok : heap_ok base lo lim al fl h).




End overflow.

(** ** Properties *)

(** C9: malloc() of fewer than 2^31 - 64 bytes returns, and leaves every block
    handed out before untouched.  Either it returns a block of at least
    [nbytes] bytes, apart from every other block handed out and from the free
    list (which stays sorted, linked and without touching blocks, with no
    memory lost), or it returns 0 and sbrk() has refused more memory. *)
Theorem malloc_correct base lo lim al h nbytes : 0 < base → base + 16 ≤ lo → lim < 2 ^ 35 → heap_inv base lo lim al h → 0 ≤ nbytes < 2 ^ 31 - 64 →
  ∃ p h', malloc base lim nbytes h = Ret p h' ∧ kept al (hm h) (hm h') ∧
    ((p = 0 ∧ heap_inv base lo lim al h' ∧ lim < brk h + 16 * Z.max 4096 (units nbytes)) ∨
     (0 < p ∧ nbytes ≤ 16 * (units nbytes - 1) ∧ Forall (disj (p - 16, units nbytes)) al ∧ heap_inv base lo lim ((p - 16, units nbytes) :: al) h')).
Proof.
  intros Hb Hlo Hlim Hinv Hn. destruct (malloc_ok base lo lim Hb Hlo Hlim al h nbytes Hinv Hn) as (p & h' & E & Hk & [H|(Hp & Hi & Hu)]); exists p, h'; split_and!; try done; [by left|right].
  split_and!; try done. destruct Hi as [(_ & ? & _)|[fl Hok]]; [done|]. by destruct (ok_apart _ _ _ _ _ _ Hok).
Qed.

Lemma malloc_correct_witness : ∃ p h', malloc 4096 (2 ^ 18) 100 (Heap (λ _, Byte.x00) 0 8192) = Ret p h' ∧ 0 < p ∧ heap_inv 4096 8192 (2 ^ 18) [(p - 16, 8)] h'.
Proof.
  destruct (malloc_correct 4096 8192 (2 ^ 18) [] (Heap (λ _, Byte.x00) 0 8192) 100) as (p & h' & E & _ & [(_ & _ & H)|(Hp & _ & _ & Hi)]);
    [lia|lia|lia|left; split_and!; [reflexivity|reflexivity|reflexivity|lia]|lia| |].
  - vm_compute in H. discriminate H.
  - exists p, h'. split_and!; [exact E|exact Hp|exact Hi].
Defined.

(** C22: free() of a block that malloc() handed out returns, gives exactly that
    block back to the free list, joined with the free blocks it touches, and
    leaves the other blocks handed out untouched. *)
Theorem free_correct base lo lim al1 al2 p n h : 0 < base → base + 16 ≤ lo → lim < 2 ^ 35 → heap_inv base lo lim (al1 ++ (p - 16, n) :: al2) h →
  ∃ h', free p h = Ret tt h' ∧ heap_inv base lo lim (al1 ++ al2) h' ∧ brk h' = brk h ∧ kept (al1 ++ al2) (hm h) (hm h').
Proof. intros Hb Hlo Hlim. by apply free_inv. Qed.

Lemma free_correct_witness : ∃ p h h', heap_inv 4096 8192 (2 ^ 18) [(p - 16, 8)] h ∧ free p h = Ret tt h' ∧ heap_inv 4096 8192 (2 ^ 18) [] h'.
Proof.
  destruct (malloc_ok 4096 8192 (2 ^ 18) ltac:(lia) ltac:(lia) ltac:(lia) [] (Heap (λ _, Byte.x00) 0 8192) 100) as (p & h & E & _ & [(_ & _ & H)|(Hp & Hi & _)]);
    [left; split_and!; [reflexivity|reflexivity|reflexivity|lia]|lia| |].
  - vm_compute in H. discriminate H.
  - destruct (free_correct 4096 8192 (2 ^ 18) [] [] p 8 h) as (h' & Ef & Hi' & _); [lia|lia|lia|exact Hi|]. exists p, h, h'. split_and!; [exact Hi|exact Ef|exact Hi'].
Defined.


