(* ===== verification/Syscall.v ===== *)
(** * kernel/syscall.c and kernel/sysproc.c: system calls (the code)

    [tstate] adds to the process table ([pkstate]) what a trap works on: the
    supervisor registers of the hart, the clock, the devices (through the
    interface [DeviceLayer]) and the interrupt controller.  The file system
    calls (sysfile.c) are the interface [FileCalls].

    A system call returns a value, ends the process ([SGone]), or gives up the
    CPU ([SBlock]) with what [resume] needs to go on when the process runs
    again. *)

From stdpp Require Import base gmap sets strings numbers list.
From coqutil Require Import Byte Word.LittleEndianList.
From S2P Require Import Prelude Mem Str Riscv Spinlock Kalloc Vm Proc.

(** ** syscall.h *)

Inductive sysno :=
| SYS_fork | SYS_exit | SYS_wait | SYS_pipe | SYS_read | SYS_kill | SYS_exec | SYS_fstat | SYS_chdir | SYS_dup | SYS_getpid
| SYS_sbrk | SYS_sleep | SYS_uptime | SYS_open | SYS_write | SYS_mknod | SYS_unlink | SYS_link | SYS_mkdir | SYS_close | SYS_cow.
Definition number (n : sysno) : Z :=
  match n with
  | SYS_fork => 1 | SYS_exit => 2 | SYS_wait => 3 | SYS_pipe => 4 | SYS_read => 5 | SYS_kill => 6 | SYS_exec => 7 | SYS_fstat => 8
  | SYS_chdir => 9 | SYS_dup => 10 | SYS_getpid => 11 | SYS_sbrk => 12 | SYS_sleep => 13 | SYS_uptime => 14 | SYS_open => 15
  | SYS_write => 16 | SYS_mknod => 17 | SYS_unlink => 18 | SYS_link => 19 | SYS_mkdir => 20 | SYS_close => 21 | SYS_cow => 22
  end.

(** The array [syscalls]; the designated initialisers leave entry 0 null. *)
Definition syscalls : list (option sysno) :=
  foldl (λ l n, <[Z.to_nat (number n) := Some n]> l) (replicate 23 None)
    [SYS_fork; SYS_exit; SYS_wait; SYS_pipe; SYS_read; SYS_kill; SYS_exec; SYS_fstat; SYS_chdir; SYS_dup; SYS_getpid; SYS_sbrk;
     SYS_sleep; SYS_uptime; SYS_open; SYS_write; SYS_mknod; SYS_unlink; SYS_link; SYS_mkdir; SYS_close; SYS_cow].

Definition tf_a7 : Z := 168.

(** The drivers whose interrupts trap.c serves. *)
Class DeviceLayer := {
  dv_state : Type;
  dv_uartintr : M dv_state unit;
  dv_virtio_disk_intr : M dv_state unit
}.

(** The supervisor registers; SIE is the hart's [sie]. *)
Record csrs := Csrs { csr_status : Z; csr_sepc : Z; csr_scause : Z; csr_stvec : Z; csr_sip : Z; csr_satp : Z; csr_tp : Z }.

Section syscall.
Context {I : image} {PA : PageAllocator} {FL : FileLayer} {DV : DeviceLayer}.

Record tstate := TS {
  t_pk : pkstate;
  t_csr : csrs;
  ticks : Z;
  tickslock : bool;
  t_dev : dv_state;
  t_plic : list (Z * Z)      (* the writes to the PLIC: register and value *)
}.
Definition set_t_pk (x : pkstate) (s : tstate) : tstate := TS x (t_csr s) (ticks s) (tickslock s) (t_dev s) (t_plic s).
Definition set_t_csr (x : csrs) (s : tstate) : tstate := TS (t_pk s) x (ticks s) (tickslock s) (t_dev s) (t_plic s).
Definition set_ticks (x : Z) (s : tstate) : tstate := TS (t_pk s) (t_csr s) x (tickslock s) (t_dev s) (t_plic s).
Definition set_tickslock (x : bool) (s : tstate) : tstate := TS (t_pk s) (t_csr s) (ticks s) x (t_dev s) (t_plic s).
Definition set_t_dev (x : dv_state) (s : tstate) : tstate := TS (t_pk s) (t_csr s) (ticks s) (tickslock s) x (t_plic s).
Definition set_t_plic (x : list (Z * Z)) (s : tstate) : tstate := TS (t_pk s) (t_csr s) (ticks s) (tickslock s) (t_dev s) x.

Definition pk {A} (m : M pkstate A) : M tstate A := zoom t_pk set_t_pk m.
Definition dv {A} (m : M dv_state A) : M tstate A := zoom t_dev set_t_dev m.
Definition lock_ticks : M tstate unit := pk hpush;; acquire_flag tickslock set_tickslock.
Definition unlock_ticks : M tstate unit := release_flag tickslock set_tickslock;; pk hpop.

(** ** syscall.c: arguments *)

Definition fetchaddr (me : nat) (addr : Z) : M pkstate (option Z) :=
  p ← gets (getp me);
  if (p_sz p <=? addr) || (p_sz p <? u64 (addr + 8)) then mret None else
  r ← mm (copyin (p_pagetable p) addr 8);
  if negb (fst r =? 0) then mret None else mret (Some (le_combine (snd r))).

(** The bytes before the NUL; strlen(buf) is their number. *)
Definition fetchstr (me : nat) (addr max : Z) : M pkstate (option (list byte)) :=
  p ← gets (getp me);
  r ← mm (copyinstr (p_pagetable p) addr max);
  if fst r <? 0 then mret None else mret (Some (take (length (snd r) - 1) (snd r))).

Definition argraw (me : nat) (n : nat) : M pkstate Z :=
  p ← gets (getp me);
  if (n <=? 5)%nat then mm (mload64 (p_trapframe p + tf_a0 + 8 * Z.of_nat n)) else panic "argraw".
Definition sysargint (me n : nat) : M pkstate Z := x ← argraw me n; mret (i32 x).
Definition sysargaddr (me n : nat) : M pkstate Z := argraw me n.
Definition sysargstr (me n : nat) (max : Z) : M pkstate (option (list byte)) := addr ← sysargaddr me n; fetchstr me addr max.

(** ** Results *)

(** The system calls of sysfile.c: the value, or a process that sleeps. *)
Class FileCalls := {
  fc_wait : Type;
  fc_call : sysno → nat → M pkstate (Z + fc_wait);
  fc_resume : nat → fc_wait → M pkstate (Z + fc_wait)
}.
Context {FC : FileCalls}.

Inductive wait_for :=
| WTicks (n ticks0 : Z) (ie : bool)      (* sys_sleep() *)
| WChild (addr : Z) (ie : bool)          (* wait() *)
| WFile (w : fc_wait).
Inductive sysres := SVal (v : Z) | SGone | SBlock (w : wait_for).

(** ** sysproc.c *)

Definition sys_exit (me : nat) : M tstate sysres :=
  n ← pk (sysargint me 0);
  pk (exit_before me n);;
  mret SGone.
Definition sys_getpid (me : nat) : M tstate sysres := s ← gets t_pk; mret (SVal (p_pid (getp me s))).
Definition sys_fork (forkret : Z) (me : nat) : M tstate sysres := v ← pk (fork forkret me); mret (SVal v).
Definition wait_res (addr : Z) (r : Z + bool) : sysres := match r with inl v => SVal v | inr ie => SBlock (WChild addr ie) end.
Definition sys_wait (me : nat) : M tstate sysres :=
  p ← pk (sysargaddr me 0);
  r ← pk (wait me p);
  mret (wait_res p r).
Definition sys_sbrk (me : nat) : M tstate sysres :=
  n ← pk (sysargint me 0);
  s ← gets t_pk;
  let addr := p_sz (getp me s) in
  r ← pk (growproc me n);
  if r <? 0 then mret (SVal (-1)) else mret (SVal addr).

(** sleep(&ticks, &tickslock), up to the swtch() and after it. *)
Definition sleep_ticks_before (me : nat) : M tstate bool :=
  pk (plock me);;
  unlock_ticks;;
  pk (updp me (p_set_chan (Some ChanTicks)));;
  pk (updp me (p_set_state SLEEPING));;
  pk (sched_before me).
Definition sleep_ticks_after (me : nat) (ie : bool) : M tstate unit :=
  pk (sched_after ie);;
  pk (updp me (p_set_chan None));;
  pk (punlock me);;
  lock_ticks.

(** A turn of sys_sleep()'s loop, tickslock held; [n] is compared as unsigned. *)
Definition sleep_round (me : nat) (n ticks0 : Z) : M tstate sysres :=
  t ← gets ticks;
  if u32 (t - ticks0) <? u32 n then
    k ← pk (killed me);
    if k : bool then unlock_ticks;; mret (SVal (-1)) else
    ie ← sleep_ticks_before me;
    mret (SBlock (WTicks n ticks0 ie))
  else unlock_ticks;; mret (SVal 0).
Definition sys_sleep (me : nat) : M tstate sysres :=
  n ← pk (sysargint me 0);
  lock_ticks;;
  ticks0 ← gets ticks;
  sleep_round me n ticks0.
Definition sys_sleep_again (me : nat) (n ticks0 : Z) (ie : bool) : M tstate sysres :=
  sleep_ticks_after me ie;;
  sleep_round me n ticks0.

Definition sys_cow : M tstate sysres := mret (SVal 12).
Definition sys_kill (me : nat) : M tstate sysres := pid ← pk (sysargint me 0); v ← pk (kill pid); mret (SVal v).
Definition sys_uptime : M tstate sysres :=
  lock_ticks;;
  xticks ← gets ticks;
  unlock_ticks;;
  mret (SVal xticks).

(** ** syscall() *)

Definition file_res (r : Z + fc_wait) : sysres := match r with inl v => SVal v | inr w => SBlock (WFile w) end.
Definition call (forkret : Z) (me : nat) (n : sysno) : M tstate sysres :=
  match n with
  | SYS_fork => sys_fork forkret me
  | SYS_exit => sys_exit me
  | SYS_wait => sys_wait me
  | SYS_kill => sys_kill me
  | SYS_getpid => sys_getpid me
  | SYS_sbrk => sys_sbrk me
  | SYS_sleep => sys_sleep me
  | SYS_uptime => sys_uptime
  | SYS_cow => sys_cow
  | _ => r ← pk (fc_call n me); mret (file_res r)
  end.

(** A process that slept in a system call goes on. *)
Definition resume (me : nat) (w : wait_for) : M tstate sysres :=
  match w with
  | WTicks n ticks0 ie => sys_sleep_again me n ticks0 ie
  | WChild addr ie => r ← pk (wait_again me addr ie); mret (wait_res addr r)
  | WFile w => r ← pk (fc_resume me w); mret (file_res r)
  end.

(** [p->trapframe->a0 = v]; the value is a uint64. *)
Definition set_a0 (me : nat) (v : Z) : M pkstate unit := p ← gets (getp me); mm (mstore64 (p_trapframe p + tf_a0) (u64 v)).
Definition syscall_end (me : nat) (r : sysres) : M tstate sysres :=
  match r with SVal v => pk (set_a0 me v);; mret (SVal v) | _ => mret r end.

Definition syscall (forkret : Z) (me : nat) : M tstate sysres :=
  s ← gets t_pk;
  let p := getp me s in
  a7 ← pk (mm (mload64 (p_trapframe p + tf_a7)));
  let num := i32 a7 in
  match (if (0 <? num) && (num <? Z.of_nat (length syscalls)) then syscalls !!! Z.to_nat num else None) with
  | Some n => r ← call forkret me n; syscall_end me r
  | None => pk (set_a0 me (-1));; mret (SVal (-1))
  end.
End syscall.
