(* ===== verification/Trap.v ===== *)
(** * kernel/trap.c and kernel/plic.c: traps (the code)

    usertrap() ends in the jump to userret in the trampoline ([ToUser], with
    its argument), in a process that has exited ([Gone]), or gives up the CPU
    in a system call or in yield(); the parts after that are
    [usertrap_resumed] and [usertrap_yielded].  The number the PLIC claims and
    the addresses of assembly code are parameters. *)

From stdpp Require Import base gmap sets strings numbers list.
From coqutil Require Import Byte Word.LittleEndianList.
From S2P Require Import Prelude Mem Str Riscv Spinlock Kalloc Vm Proc Syscall.

Definition SSTATUS_SPP : Z := Z.shiftl 1 8.
Definition SSTATUS_SPIE : Z := Z.shiftl 1 5.
Definition SSTATUS_SIE : Z := Z.shiftl 1 1.
Definition SATP_SV39 : Z := Z.shiftl 8 60.
Definition MAKE_SATP (pagetable : Z) : Z := Z.lor SATP_SV39 (Z.shiftr pagetable 12).
Definition UART0_IRQ : Z := 10.
Definition VIRTIO0_IRQ : Z := 1.
Definition PLIC_SENABLE (hart : Z) : Z := PLIC + 0x2080 + hart * 0x100.
Definition PLIC_SPRIORITY (hart : Z) : Z := PLIC + 0x201000 + hart * 0x2000.
Definition PLIC_SCLAIM (hart : Z) : Z := PLIC + 0x201004 + hart * 0x2000.

(** Offsets in [struct trapframe]. *)
Definition tf_kernel_satp : Z := 0.
Definition tf_kernel_sp : Z := 8.
Definition tf_kernel_trap : Z := 16.
Definition tf_kernel_hartid : Z := 32.

Section trap.
Context {I : image} {PA : PageAllocator} {FL : FileLayer} {DV : DeviceLayer} {FC : FileCalls}.
(** Addresses: kernelvec, usertrap, forkret and the offsets of uservec and
    userret in the trampoline page. *)
Context (kernelvec usertrap_addr forkret uservec_off userret_off : Z).

(** ** Registers (riscv.h) *)

Definition csr {A} (f : csrs → A) : M tstate A := gets (λ s, f (t_csr s)).
Definition r_sstatus : M tstate Z :=
  gets (λ s, Z.lor (csr_status (t_csr s)) (if sie (hart (t_pk s)) then SSTATUS_SIE else 0)).
(** SIE is kept in the hart, the other bits in [csr_status]. *)
Definition set_sie (b : bool) : M tstate unit := pk (modify (λ s, set_hart (Cpu (noff (hart s)) (intena (hart s)) b) s)).
Definition w_sstatus (x : Z) : M tstate unit :=
  modify (λ s, let c := t_csr s in set_t_csr (Csrs (Z.ldiff x SSTATUS_SIE) (csr_sepc c) (csr_scause c) (csr_stvec c) (csr_sip c) (csr_satp c) (csr_tp c)) s);;
  set_sie (negb (Z.land x SSTATUS_SIE =? 0)).
Definition w_sepc (x : Z) : M tstate unit :=
  modify (λ s, let c := t_csr s in set_t_csr (Csrs (csr_status c) x (csr_scause c) (csr_stvec c) (csr_sip c) (csr_satp c) (csr_tp c)) s).
Definition w_stvec (x : Z) : M tstate unit :=
  modify (λ s, let c := t_csr s in set_t_csr (Csrs (csr_status c) (csr_sepc c) (csr_scause c) x (csr_sip c) (csr_satp c) (csr_tp c)) s).
Definition w_sip (x : Z) : M tstate unit :=
  modify (λ s, let c := t_csr s in set_t_csr (Csrs (csr_status c) (csr_sepc c) (csr_scause c) (csr_stvec c) x (csr_satp c) (csr_tp c)) s).
(** intr_on() and intr_off() *)
Definition tintr_on : M tstate unit := x ← r_sstatus; w_sstatus (Z.lor x SSTATUS_SIE).
Definition tintr_off : M tstate unit := x ← r_sstatus; w_sstatus (Z.ldiff x SSTATUS_SIE).
Definition tintr_get : M tstate bool := x ← r_sstatus; mret (negb (Z.land x SSTATUS_SIE =? 0)).

(** ** plic.c *)

Definition plic_write (r v : Z) : M tstate unit := modify (λ s, set_t_plic (t_plic s ++ [(r, v)]) s).
Definition plicinit : M tstate unit :=
  plic_write (PLIC + UART0_IRQ * 4) 1;;
  plic_write (PLIC + VIRTIO0_IRQ * 4) 1.
Definition plicinithart : M tstate unit :=
  hart ← csr csr_tp;
  plic_write (PLIC_SENABLE hart) (Z.lor (Z.shiftl 1 UART0_IRQ) (Z.shiftl 1 VIRTIO0_IRQ));;
  plic_write (PLIC_SPRIORITY hart) 0.
Definition plic_complete (irq : Z) : M tstate unit := hart ← csr csr_tp; plic_write (PLIC_SCLAIM hart) irq.

(** ** Interrupts *)

Definition trapinit : M tstate unit := modify (set_tickslock false).
Definition trapinithart : M tstate unit := w_stvec kernelvec.

Definition clockintr (me : option nat) : M tstate unit :=
  lock_ticks;;
  t ← gets ticks;
  modify (set_ticks (u32 (t + 1)));;
  pk (wakeup me ChanTicks);;
  unlock_ticks.

(** [irq] is what plic_claim() returns. *)
Definition devintr (me : option nat) (irq : Z) : M tstate Z :=
  scause ← csr csr_scause;
  if negb (Z.land scause 0x8000000000000000 =? 0) && (Z.land scause 0xff =? 9) then
    (* this is a supervisor external interrupt, via PLIC. *)
    (if irq =? UART0_IRQ then dv dv_uartintr
     else if irq =? VIRTIO0_IRQ then dv dv_virtio_disk_intr
     else mret tt);;
    (if negb (irq =? 0) then plic_complete irq else mret tt);;
    mret 1
  else if scause =? 0x8000000000000001 then
    (* software interrupt from a machine-mode timer interrupt *)
    id ← csr csr_tp;
    (if id =? 0 then clockintr me else mret tt);;
    sip ← csr csr_sip;
    w_sip (Z.ldiff sip 2);;
    mret 2
  else mret 0.

(** ** usertrap() *)

Inductive user_next := ToUser (satp entry : Z) | Gone | InSyscall (w : wait_for) | Yielded (ie : bool).

Definition tf_store (me : nat) (off v : Z) : M tstate unit := pk (p ← gets (getp me); mm (mstore64 (p_trapframe p + off) v)).
Definition tf_load (me : nat) (off : Z) : M tstate Z := pk (p ← gets (getp me); mm (mload64 (p_trapframe p + off))).

Definition usertrapret (me : nat) : M tstate user_next :=
  tintr_off;;
  w_stvec (TRAMPOLINE + uservec_off);;
  satp ← csr csr_satp;
  tf_store me tf_kernel_satp satp;;
  s ← gets t_pk;
  tf_store me tf_kernel_sp (u64 (p_kstack (getp me s) + PGSIZE));;
  tf_store me tf_kernel_trap usertrap_addr;;
  tp ← csr csr_tp;
  tf_store me tf_kernel_hartid tp;;
  x ← r_sstatus;
  w_sstatus (Z.lor (Z.ldiff x SSTATUS_SPP) SSTATUS_SPIE);;
  epc ← tf_load me tf_epc;
  w_sepc epc;;
  s ← gets t_pk;
  mret (ToUser (MAKE_SATP (p_pagetable (getp me s))) (TRAMPOLINE + userret_off)).

(** From [if(killed(p))] to the end. *)
Definition usertrap_tail (me : nat) (which_dev : Z) : M tstate user_next :=
  k ← pk (killed me);
  if k : bool then pk (exit_before me (-1));; mret Gone else
  if which_dev =? 2 then ie ← pk (yield_before me); mret (Yielded ie)
  else usertrapret me.

Definition after_syscall (me : nat) (r : sysres) : M tstate user_next :=
  match r with
  | SVal _ => usertrap_tail me 0
  | SGone => mret Gone
  | SBlock w => mret (InSyscall w)
  end.

Definition usertrap (me : nat) (irq : Z) : M tstate user_next :=
  x ← r_sstatus;
  if negb (Z.land x SSTATUS_SPP =? 0) then panic "usertrap: not from user mode" else
  w_stvec kernelvec;;
  sepc ← csr csr_sepc;
  tf_store me tf_epc sepc;;
  scause ← csr csr_scause;
  if scause =? 8 then
    (* system call *)
    k ← pk (killed me);
    if k : bool then pk (exit_before me (-1));; mret Gone else
    epc ← tf_load me tf_epc;
    tf_store me tf_epc (u64 (epc + 4));;
    tintr_on;;
    r ← syscall forkret me;
    after_syscall me r
  else
  which_dev ← devintr (Some me) irq;
  (if negb (which_dev =? 0) then mret tt else pk (setkilled me));;
  usertrap_tail me which_dev.

(** The process runs again, in its system call or after yield(). *)
Definition usertrap_resumed (me : nat) (w : wait_for) : M tstate user_next :=
  r ← resume me w;
  r ← syscall_end me r;
  after_syscall me r.
Definition usertrap_yielded (me : nat) (ie : bool) : M tstate user_next :=
  pk (yield_after me ie);;
  usertrapret me.

(** ** kerneltrap() *)

(** [me] is myproc(); the result is the saved [intena] when it yields. *)
Definition kerneltrap_end (sepc sstatus : Z) : M tstate (option bool) :=
  w_sepc sepc;;
  w_sstatus sstatus;;
  mret None.
Definition kerneltrap (me : option nat) (irq : Z) : M tstate (option bool) :=
  sepc ← csr csr_sepc;
  sstatus ← r_sstatus;
  if Z.land sstatus SSTATUS_SPP =? 0 then panic "kerneltrap: not from supervisor mode" else
  ie ← tintr_get;
  if ie : bool then panic "kerneltrap: interrupts enabled" else
  which_dev ← devintr me irq;
  if which_dev =? 0 then panic "kerneltrap" else
  s ← gets t_pk;
  match me with
  | Some i =>
    if (which_dev =? 2) && bool_decide (p_state (getp i s) = RUNNING)
    then ie ← pk (yield_before i); mret (Some ie)
    else kerneltrap_end sepc sstatus
  | None => kerneltrap_end sepc sstatus
  end.
Definition kerneltrap_yielded (me : nat) (ie : bool) (sepc sstatus : Z) : M tstate (option bool) :=
  pk (yield_after me ie);;
  kerneltrap_end sepc sstatus.
End trap.
