(* ===== verification/TrapThms.v ===== *)
(** * kernel/trap.c, syscall.c and sysproc.c: properties *)

From stdpp Require Import base gmap sets strings numbers list.
From coqutil Require Import Byte Word.LittleEndianList.
From S2P Require Import Prelude Mem Str Riscv Spinlock Kalloc Vm Proc ProcSleep ProcThms Syscall Trap.

Section traps.
Context {I : image} {PA : PageAllocator} {FL : FileLayer} {DV : DeviceLayer} {FC : FileCalls}.

(** ** Running parts of the state *)

Lemma pk_Ret {A} (m : M pkstate A) s a x : m (t_pk s) = Ret a x → pk m s = Ret a (set_t_pk x s).
Proof. intros H. unfold pk, zoom. by rewrite H. Qed.

Lemma pk_bind {A C} (m : M pkstate A) (k : A → M tstate C) s a x : m (t_pk s) = Ret a x → (pk m ≫= k) s = k a (set_t_pk x s).
Proof. intros H. by rewrite (bind_Ret _ _ _ _ _ (pk_Ret m s a x H)). Qed.

(** ** Locks *)

(** After a lock is taken and released: [intena] is that of the outermost. *)
Definition settle (c : cpu) : cpu := Cpu (noff c) (if noff c =? 0 then sie c else intena c) (sie c).
Definition cpu_ok (c : cpu) : Prop := 0 ≤ noff c ∧ (0 < noff c → sie c = false).
Definition pushed (s : pkstate) : pkstate :=
  set_hart (Cpu (noff (hart s) + 1) (if noff (hart s) =? 0 then sie (hart s) else intena (hart s)) false) s.

Lemma set_plock_twice i s p : ptable s !! i = Some p → p_lock p = false → set_plock i false (set_plock i true s) = s.
Proof.
  intros Hi Hl. destruct s as [t np ini pl wl m f h hp]. unfold set_plock, set_ptable. cbn [ptable] in *. f_equal. rewrite list_alter_alter_eq. apply list_eq. intros j.
  destruct (decide (i = j)) as [<-|Hne]; [|by rewrite list_lookup_alter_ne]. rewrite list_lookup_alter_eq, Hi. simpl. f_equal. destruct p. simpl in *. by subst.
Qed.

Lemma killed_run me s p : cpu_ok (hart s) → ptable s !! me = Some p → p_lock p = false → killed me s = Ret (p_killed p) (set_hart (settle (hart s)) s).
Proof.
  intros [Hn Hs] Hi Hl. unfold killed, plock, punlock, lock, unlock, acquire_flag, release_flag, hpush, hpop.
  rewrite !bind_assoc, bind_modify, !bind_assoc, bind_gets. change (getp me (set_hart _ s)) with (getp me s). rewrite (getp_lookup s me p Hi), Hl. rewrite bind_modify, bind_gets.
  set (s1 := set_plock me true _). assert (Hp1 : getp me s1 = p_set_lock true p).
  { apply getp_lookup. unfold s1, set_plock. cbn [ptable set_ptable set_hart]. by rewrite list_lookup_alter_eq, Hi. }
  rewrite Hp1. rewrite !bind_assoc, bind_gets, Hp1. cbn [p_lock p_set_lock]. rewrite bind_modify, bind_assoc, bind_gets.
  cbn [s1 set_plock set_ptable set_hart hart sie noff]. destruct (Z.ltb_spec (noff (hart s) + 1) 1); [lia|]. rewrite bind_modify. unfold mret, M_ret. f_equal.
  replace (noff (hart s) + 1 - 1) with (noff (hart s)) by lia. cbn [intena].
  assert (Hh : Cpu (noff (hart s)) (if noff (hart s) =? 0 then sie (hart s) else intena (hart s)) ((noff (hart s) =? 0) && (if noff (hart s) =? 0 then sie (hart s) else intena (hart s))) = settle (hart s)).
  { unfold settle. destruct (Z.eqb_spec (noff (hart s)) 0); [done|]. cbn [andb]. by rewrite Hs by lia. }
  rewrite Hh. pose proof (set_plock_twice me s p Hi Hl) as E. destruct s as [t np ini pl wl m f h hp]. unfold s1, set_plock, set_ptable, set_hart in *. cbn in *. by injection E as ->.
Qed.

Lemma lock_ticks_run s : tickslock s = false → lock_ticks s = Ret tt (set_tickslock true (set_t_pk (pushed (t_pk s)) s)).
Proof. intros Hl. unfold lock_ticks, acquire_flag. rewrite (pk_bind hpush _ s tt (pushed (t_pk s))) by done. rewrite bind_gets. cbn [set_t_pk tickslock]. by rewrite Hl. Qed.

Definition popped (s : pkstate) : pkstate := set_hart (Cpu (noff (hart s) - 1) (intena (hart s)) ((noff (hart s) - 1 =? 0) && intena (hart s))) s.
Lemma unlock_ticks_run s : tickslock s = true → sie (hart (t_pk s)) = false → 1 ≤ noff (hart (t_pk s)) →
  unlock_ticks s = Ret tt (set_t_pk (popped (t_pk s)) (set_tickslock false s)).
Proof.
  intros Hl Hs Hn. unfold unlock_ticks, release_flag. rewrite bind_assoc, bind_gets, Hl, bind_modify. apply pk_Ret. cbn [set_tickslock t_pk]. unfold hpop. rewrite bind_gets, Hs.
  destruct (Z.ltb_spec (noff (hart (t_pk s))) 1); [lia|]. done.
Qed.

Lemma plock_run i p s : in_crit s → ptable s !! i = Some p → p_lock p = false →
  plock i s = Ret tt (set_hart (Cpu (noff (hart s) + 1) (intena (hart s)) false) (set_plock i true s)).
Proof.
  intros [Hn Hs] Hi Hl. unfold plock, lock, hpush, acquire_flag. rewrite bind_modify, bind_gets. change (getp i (set_hart _ s)) with (getp i s). rewrite (getp_lookup s i p Hi), Hl.
  unfold modify. cbv zeta. destruct (Z.eqb_spec (noff (hart s)) 0); [lia|done].
Qed.

(** ** sys_sleep() *)

(** The process is asleep on the clock, its lock held for the scheduler. *)
Definition asleep (p : proc) : proc := p_set_state SLEEPING (p_set_chan (Some ChanTicks) (p_set_lock true p)).

Lemma sleep_ticks_run me s p : ptable (t_pk s) !! me = Some p → p_lock p = false → noff (hart (t_pk s)) = 1 → sie (hart (t_pk s)) = false → tickslock s = true →
  ∃ s', sleep_ticks_before me s = Ret (intena (hart (t_pk s))) s' ∧ tickslock s' = false ∧ ticks s' = ticks s ∧
    hart (t_pk s') = Cpu 1 (intena (hart (t_pk s))) false ∧ ptable (t_pk s') = alter asleep me (ptable (t_pk s)) ∧ t_csr s' = t_csr s.
Proof.
  intros Hp Hl Hn Hs Ht. unfold sleep_ticks_before. erewrite pk_bind; [|apply (plock_run me p); [split; [lia|done]|done|done]].
  erewrite bind_Ret; [|apply unlock_ticks_run; [exact Ht|done|cbn; lia]]. cbn [t_pk set_t_pk set_tickslock]. unfold updp. erewrite pk_bind; [|reflexivity]. erewrite pk_bind; [|reflexivity].
  cbn [t_pk set_t_pk set_tickslock]. eexists. split.
  - apply pk_Ret. rewrite (sched_run me _ (asleep p)); [reflexivity|..].
    + cbn. by rewrite !list_lookup_alter_eq, Hp.
    + done.
    + cbn. lia.
    + done.
    + cbn. rewrite Hn. done.
  - cbn. rewrite Hn. split_and!; try done. rewrite !list_alter_alter_eq. done.
Qed.

(** What a turn of the loop leads to. *)
Definition sleep_outcome (me : nat) (n ticks0 : Z) (p : proc) (s : tstate) (r : sysres) (s' : tstate) : Prop :=
  let e := intena (hart (t_pk s)) in
  ticks s' = ticks s ∧ tickslock s' = false ∧ t_csr s' = t_csr s ∧
  if decide (u32 n ≤ u32 (ticks s - ticks0)) then r = SVal 0 ∧ t_pk s' = set_hart (Cpu 0 e e) (t_pk s)
  else if p_killed p then r = SVal (-1) ∧ t_pk s' = set_hart (Cpu 0 e e) (t_pk s)
  else r = SBlock (WTicks n ticks0 e) ∧ hart (t_pk s') = Cpu 1 e false ∧ ptable (t_pk s') = alter asleep me (ptable (t_pk s)).

Lemma sleep_round_run me n ticks0 s p : ptable (t_pk s) !! me = Some p → p_lock p = false → noff (hart (t_pk s)) = 1 → sie (hart (t_pk s)) = false → tickslock s = true →
  ∃ r s', sleep_round me n ticks0 s = Ret r s' ∧ sleep_outcome me n ticks0 p s r s'.
Proof.
  intros Hp Hl Hn Hs Ht. unfold sleep_round. rewrite bind_gets.
  assert (Hpop : popped (t_pk s) = set_hart (Cpu 0 (intena (hart (t_pk s))) (intena (hart (t_pk s)))) (t_pk s)) by (unfold popped; by rewrite Hn).
  assert (Hun : ∀ r : sysres, ∃ s', (unlock_ticks;; mret r) s = Ret r s' ∧ ticks s' = ticks s ∧ tickslock s' = false ∧ t_csr s' = t_csr s ∧ t_pk s' = set_hart (Cpu 0 (intena (hart (t_pk s))) (intena (hart (t_pk s)))) (t_pk s)).
  { intros r. erewrite bind_Ret; [|apply unlock_ticks_run; [done|done|lia]]. eexists. split; [reflexivity|]. by rewrite Hpop. }
  unfold sleep_outcome. destruct (Z.ltb_spec (u32 (ticks s - ticks0)) (u32 n)) as [Hlt|Hge]; destruct (decide (u32 n ≤ u32 (ticks s - ticks0))); try lia.
  - erewrite pk_bind; [|apply (killed_run me _ p); [split; [lia|done]|done|done]].
    assert (Hset : set_t_pk (set_hart (settle (hart (t_pk s))) (t_pk s)) s = s).
    { destruct s as [pk0 c t tl d pl]. unfold set_t_pk. cbn in *. f_equal. destruct pk0 as [tb np ini pl0 wl m f [nf ie si] hp]. unfold set_hart, settle. cbn in *. by subst nf si. }
    rewrite Hset. destruct (p_killed p).
    + destruct (Hun (SVal (-1))) as (s' & E & ? & ? & ? & ?). by exists (SVal (-1)), s'.
    + destruct (sleep_ticks_run me s p Hp Hl Hn Hs Ht) as (s' & E & ? & ? & ? & ? & ?). rewrite (bind_Ret _ _ _ _ _ E). by eexists _, s'.
  - destruct (Hun (SVal 0)) as (s' & E & ? & ? & ? & ?). by exists (SVal 0), s'.
Qed.

(** The states in which the loop is entered: by the call, and by a process
    the scheduler has switched back to. *)
Definition entered (s : tstate) : tstate := set_tickslock true (set_t_pk (pushed (t_pk s)) s).
Definition woke_up (q : proc) : proc := p_set_lock false (p_set_chan None q).
Definition reentered (me : nat) (ie : bool) (s : tstate) : tstate :=
  set_tickslock true (set_t_pk (set_hart (Cpu 1 ie false) (set_ptable (alter woke_up me (ptable (t_pk s))) (t_pk s))) s).

Lemma sleep_after_run me ie s q : ptable (t_pk s) !! me = Some q → p_lock q = true → noff (hart (t_pk s)) = 1 → sie (hart (t_pk s)) = false → tickslock s = false →
  sleep_ticks_after me ie s = Ret tt (reentered me ie s).
Proof.
  intros Hq Hl Hn Hs Ht. unfold sleep_ticks_after, sched_after, updp. erewrite pk_bind; [|reflexivity]. erewrite pk_bind; [|reflexivity]. cbn [t_pk set_t_pk].
  assert (Hrun : punlock me (set_ptable (alter (p_set_chan None) me (ptable (t_pk s))) (set_hart (Cpu 1 ie false) (t_pk s))) =
    Ret tt (set_hart (Cpu 0 ie ie) (set_ptable (alter woke_up me (ptable (t_pk s))) (t_pk s)))).
  { unfold punlock, unlock, release_flag, hpop. rewrite bind_assoc, bind_gets. rewrite (getp_lookup _ me (p_set_chan None q)) by (cbn; by rewrite list_lookup_alter_eq, Hq). cbn [p_set_chan p_lock]. rewrite Hl, bind_modify, bind_gets.
    cbn [set_plock set_ptable set_hart hart sie noff]. cbn [Z.ltb Z.compare Pos.compare Pos.compare_cont]. unfold modify, set_hart, set_ptable, set_plock. cbn. rewrite list_alter_alter_eq. done. }
  change (ptable (set_hart _ (t_pk s))) with (ptable (t_pk s)). rewrite Hn, Hs. erewrite pk_bind; [|exact Hrun]. cbn [t_pk set_t_pk]. by rewrite lock_ticks_run.
Qed.

Lemma sys_sleep_run me s p : ptable (t_pk s) !! me = Some p → p_lock p = false → noff (hart (t_pk s)) = 0 → tickslock s = false →
  let n := i32 (load64 (ms_mem (pk_mem (t_pk s))) (p_trapframe p + tf_a0)) in
  ∃ r s', sys_sleep me s = Ret r s' ∧ sleep_outcome me n (ticks s) p (entered s) r s'.
Proof.
  intros Hp Hl Hn Ht n. unfold sys_sleep, sysargint. assert (Ha : argraw me 0 (t_pk s) = Ret (load64 (ms_mem (pk_mem (t_pk s))) (p_trapframe p + tf_a0)) (t_pk s)).
  { unfold argraw. rewrite bind_gets, (getp_lookup _ me p Hp). cbn [Nat.leb]. rewrite Z.mul_0_r, Z.add_0_r. unfold mm, zoom, mload64, gets. destruct (t_pk s). done. }
  erewrite pk_bind; [|rewrite (bind_Ret _ _ _ _ _ Ha); reflexivity]. assert (Hid : set_t_pk (t_pk s) s = s) by (by destruct s). rewrite Hid.
  rewrite (bind_Ret _ _ _ _ _ (lock_ticks_run s Ht)), bind_gets. fold (entered s). apply (sleep_round_run me n (ticks s) (entered s) p); try done. cbn. lia.
Qed.

Lemma sleep_again_run me n ticks0 ie s q : ptable (t_pk s) !! me = Some q → p_lock q = true → noff (hart (t_pk s)) = 1 → sie (hart (t_pk s)) = false → tickslock s = false →
  ∃ r s', resume me (WTicks n ticks0 ie) s = Ret r s' ∧ sleep_outcome me n ticks0 (woke_up q) (reentered me ie s) r s'.
Proof.
  intros Hq Hl Hn Hs Ht. cbn [resume]. unfold sys_sleep_again. rewrite (bind_Ret _ _ _ _ _ (sleep_after_run me ie s q Hq Hl Hn Hs Ht)).
  apply (sleep_round_run me n ticks0 (reentered me ie s) (woke_up q)); try done. cbn. by rewrite list_lookup_alter_eq, Hq.
Qed.

(** clockintr(): the clock advances and everyone sleeping on it is woken. *)
Lemma clockintr_run me s : tickslock s = false → cpu_ok (hart (t_pk s)) → unlocked (t_pk s) → length (ptable (t_pk s)) = NPROC →
  ∃ s', clockintr me s = Ret tt s' ∧ ticks s' = u32 (ticks s + 1) ∧ tickslock s' = false ∧ hart (t_pk s') = settle (hart (t_pk s)) ∧ t_csr s' = t_csr s ∧
    ∀ j, ptable (t_pk s') !! j = woken me ChanTicks j <$> ptable (t_pk s) !! j.
Proof.
  intros Ht [Hn Hs] Hu Hl. unfold clockintr. rewrite (bind_Ret _ _ _ _ _ (lock_ticks_run s Ht)), bind_gets, bind_modify. cbn [ticks set_tickslock set_t_pk].
  destruct (wakeup_loop_run NPROC 0 me ChanTicks (pushed (t_pk s))) as (t & E & Hj); [split; [cbn; lia|done]|done|cbn; lia|].
  erewrite pk_bind; [|exact E]. eexists. split.
  - apply unlock_ticks_run; [done|done|cbn; lia].
  - cbn. split_and!; try done.
    + unfold settle. replace (noff (hart (t_pk s)) + 1 - 1) with (noff (hart (t_pk s))) by lia. f_equal. destruct (Z.eqb_spec (noff (hart (t_pk s))) 0); [done|]. cbn [andb]. by rewrite Hs by lia.
    + intros j. rewrite Hj. case_decide; [done|]. cbn. rewrite (lookup_ge_None_2 (ptable (t_pk s))) by lia. done.
Qed.

(** ** Traps from user space *)

Definition tmem (s : tstate) : mem := ms_mem (pk_mem (t_pk s)).
Definition set_tmem (m : mem) (s : tstate) : tstate := set_t_pk (set_pk_mem (set_mem m (pk_mem (t_pk s))) (t_pk s)) s.

Lemma tf_store_run me off v s p : ptable (t_pk s) !! me = Some p → tf_store me off v s = Ret tt (set_tmem (store64 (tmem s) (p_trapframe p + off) v) s).
Proof. intros Hp. unfold tf_store. apply pk_Ret. rewrite bind_gets, (getp_lookup _ me p Hp). done. Qed.

Lemma tf_load_run me off s p : ptable (t_pk s) !! me = Some p → tf_load me off s = Ret (load64 (tmem s) (p_trapframe p + off)) s.
Proof.
  intros Hp. unfold tf_load. rewrite (pk_Ret _ s (load64 (tmem s) (p_trapframe p + off)) (t_pk s)); [by destruct s|].
  rewrite bind_gets, (getp_lookup _ me p Hp). unfold mm, zoom, mload64, gets, tmem. by destruct (t_pk s).
Qed.

(** The parts of a state: table, memory, hart and registers. *)
Record parts := Parts { pt_table : list proc; pt_mem : mem; pt_hart : cpu; pt_csr : csrs }.
Definition parts_of (s : tstate) : parts := Parts (ptable (t_pk s)) (tmem s) (hart (t_pk s)) (t_csr s).

(** [m] returns [a], and acts on the parts as [f]. *)
Definition acts {A} (m : M tstate A) (s : tstate) (a : A) (f : parts) : Prop := ∃ s', m s = Ret a s' ∧ parts_of s' = f.

Lemma acts_bind {A C} (m : M tstate A) (k : A → M tstate C) s a c f g : acts m s a f → (∀ s', parts_of s' = f → acts (k a) s' c g) → acts (m ≫= k) s c g.
Proof. intros (s1 & E & Hf) Hk. destruct (Hk s1 Hf) as (s2 & E2 & Hg). exists s2. by rewrite (bind_Ret _ _ _ _ _ E). Qed.
Lemma acts_ret {A} (a : A) s f : parts_of s = f → acts (mret a) s a f.
Proof. intros H. by exists s. Qed.

Definition put_status (x : Z) (c : csrs) : csrs := Csrs x (csr_sepc c) (csr_scause c) (csr_stvec c) (csr_sip c) (csr_satp c) (csr_tp c).
Definition put_sepc (x : Z) (c : csrs) : csrs := Csrs (csr_status c) x (csr_scause c) (csr_stvec c) (csr_sip c) (csr_satp c) (csr_tp c).
Definition put_stvec (x : Z) (c : csrs) : csrs := Csrs (csr_status c) (csr_sepc c) (csr_scause c) x (csr_sip c) (csr_satp c) (csr_tp c).
Definition put_sie (b : bool) (h : cpu) : cpu := Cpu (noff h) (intena h) b.
Definition status_of (h : cpu) (c : csrs) : Z := Z.lor (csr_status c) (if sie h then SSTATUS_SIE else 0).

Lemma status_off h c : status_of (put_sie false h) c = csr_status c.
Proof. unfold status_of. apply Z.lor_0_r. Qed.

Section steps.
Context (s : tstate) (t : list proc) (m : mem) (h : cpu) (c : csrs) (H : parts_of s = Parts t m h c).

Ltac open_parts := injection H as Ht Hm Hh Hc; subst t m h c.

Lemma acts_store me off v p : t !! me = Some p → acts (tf_store me off v) s tt (Parts t (store64 m (p_trapframe p + off) v) h c).
Proof. open_parts. intros Hp. eexists. split; [by apply tf_store_run|]. done. Qed.
Lemma acts_load me off p : t !! me = Some p → acts (tf_load me off) s (load64 m (p_trapframe p + off)) (Parts t m h c).
Proof. open_parts. intros Hp. eexists. split; [by apply tf_load_run|]. done. Qed.
Lemma acts_csr {A} (g : csrs → A) : acts (csr g) s (g c) (Parts t m h c).
Proof. open_parts. by exists s. Qed.
Lemma acts_stvec x : acts (w_stvec x) s tt (Parts t m h (put_stvec x c)).
Proof. open_parts. eexists. by split. Qed.
Lemma acts_sepc x : acts (w_sepc x) s tt (Parts t m h (put_sepc x c)).
Proof. open_parts. eexists. by split. Qed.
Lemma acts_rstatus : acts r_sstatus s (status_of h c) (Parts t m h c).
Proof. open_parts. by exists s. Qed.
Lemma acts_wstatus x : acts (w_sstatus x) s tt (Parts t m (put_sie (negb (Z.land x SSTATUS_SIE =? 0)) h) (put_status (Z.ldiff x SSTATUS_SIE) c)).
Proof. open_parts. eexists. by split. Qed.
Lemma acts_killed me p : cpu_ok h → t !! me = Some p → p_lock p = false → acts (pk (killed me)) s (p_killed p) (Parts t m (settle h) c).
Proof. open_parts. intros Hc Hp Hl. eexists. split; [apply pk_Ret, killed_run; done|]. done. Qed.
Lemma acts_gets me p : t !! me = Some p → ∃ x, acts (gets t_pk) s x (Parts t m h c) ∧ getp me x = p.
Proof. intros Hp. exists (t_pk s). split; [by exists s|]. apply getp_lookup. by injection H as ->. Qed.
(** intr_off() and intr_on() *)
Lemma acts_intr_off : acts tintr_off s tt (Parts t m (put_sie false h) (put_status (Z.ldiff (Z.ldiff (status_of h c) SSTATUS_SIE) SSTATUS_SIE) c)).
Proof.
  unfold tintr_off. destruct acts_rstatus as (s1 & E1 & H1). destruct (acts_wstatus (Z.ldiff (status_of h c) SSTATUS_SIE)) as (s2 & E2 & H2). exists s2.
  assert (s1 = s) as -> by (by injection E1). rewrite (bind_Ret _ _ _ _ _ E1). split; [done|]. rewrite H2, Z.land_ldiff. done.
Qed.
Lemma acts_intr_on : acts tintr_on s tt (Parts t m (put_sie true h) (put_status (Z.ldiff (Z.lor (status_of h c) SSTATUS_SIE) SSTATUS_SIE) c)).
Proof.
  unfold tintr_on. destruct acts_rstatus as (s1 & E1 & H1). destruct (acts_wstatus (Z.lor (status_of h c) SSTATUS_SIE)) as (s2 & E2 & H2). exists s2.
  assert (s1 = s) as -> by (by injection E1). rewrite (bind_Ret _ _ _ _ _ E1). split; [done|]. rewrite H2. f_equal. f_equal. apply negb_true_iff, Z.eqb_neq. intros E.
  apply (f_equal (λ x, Z.testbit x 1)) in E. rewrite Z.land_spec, Z.lor_spec in E. change (Z.testbit SSTATUS_SIE 1) with true in E. by rewrite orb_true_r in E.
Qed.
End steps.

Section user.
Context (kernelvec usertrap_addr forkret uservec_off userret_off : Z).

(** What usertrapret() leaves for the return to user space. *)
Record user_ready (p : proc) (f g : parts) : Prop := {
  ur_table : pt_table g = pt_table f;
  ur_sie : sie (pt_hart g) = false;
  ur_noff : noff (pt_hart g) = noff (pt_hart f);
  ur_stvec : csr_stvec (pt_csr g) = TRAMPOLINE + uservec_off;
  ur_user : Z.testbit (csr_status (pt_csr g)) 8 = false;                 (* SPP: to user mode *)
  ur_spie : Z.testbit (csr_status (pt_csr g)) 5 = true;                  (* interrupts on there *)
  ur_sepc : csr_sepc (pt_csr g) = load64 (pt_mem f) (p_trapframe p + tf_epc);
  ur_regs : ∀ off, 24 ≤ off < 32 ∨ 40 ≤ off → pt_mem g (p_trapframe p + off) = pt_mem f (p_trapframe p + off);
  ur_ksp : load64 (pt_mem g) (p_trapframe p + tf_kernel_sp) = u64 (p_kstack p + PGSIZE);
  ur_ktrap : load64 (pt_mem g) (p_trapframe p + tf_kernel_trap) = u64 usertrap_addr;
  ur_ksatp : load64 (pt_mem g) (p_trapframe p + tf_kernel_satp) = u64 (csr_satp (pt_csr f));
  ur_khart : load64 (pt_mem g) (p_trapframe p + tf_kernel_hartid) = u64 (csr_tp (pt_csr f))
}.

Lemma status_bits x : let y := Z.lor (Z.ldiff (Z.ldiff (Z.ldiff x SSTATUS_SIE) SSTATUS_SIE) SSTATUS_SPP) SSTATUS_SPIE in
  Z.testbit y 8 = false ∧ Z.testbit y 5 = true ∧ Z.land y SSTATUS_SIE = 0.
Proof.
  cbv zeta. split_and!.
  - rewrite Z.lor_spec, !Z.ldiff_spec. change (Z.testbit SSTATUS_SPP 8) with true. change (Z.testbit SSTATUS_SPIE 8) with false. by rewrite andb_false_r.
  - rewrite Z.lor_spec. change (Z.testbit SSTATUS_SPIE 5) with true. by rewrite orb_true_r.
  - apply Z.bits_inj'. intros n Hn. rewrite Z.land_spec, Z.lor_spec, !Z.ldiff_spec, Z.bits_0. change SSTATUS_SIE with (2 ^ 1). change SSTATUS_SPP with (2 ^ 8). change SSTATUS_SPIE with (2 ^ 5).
    rewrite !Z.pow2_bits_eqb by lia. destruct (Z.eqb_spec 1 n) as [<-|]; [|by rewrite andb_false_r]. cbn. by rewrite !andb_false_r.
Qed.

Ltac act := eapply acts_bind; [first [by eapply acts_store | by eapply acts_load | by eapply acts_stvec | by eapply acts_sepc | by eapply acts_csr | by eapply acts_intr_off | by eapply acts_intr_on | by eapply acts_rstatus | by eapply acts_wstatus]|];
  let s := fresh "s" in let H := fresh "H" in intros s H.
Ltac act_gets me p Hp := match goal with H : parts_of ?s = _ |- acts (gets t_pk ≫= _) ?s _ _ =>
  let x := fresh "x" in let Hx := fresh "Hx" in destruct (acts_gets s _ _ _ _ H me p Hp) as (x & ? & Hx); eapply acts_bind; [eassumption|]; let s' := fresh "s" in let H' := fresh "H" in intros s' H'; rewrite Hx end.

Lemma usertrapret_run me s p t m h c : parts_of s = Parts t m h c → t !! me = Some p →
  ∃ g, acts (usertrapret usertrap_addr uservec_off userret_off me) s (ToUser (MAKE_SATP (p_pagetable p)) (TRAMPOLINE + userret_off)) g ∧ user_ready p (Parts t m h c) g.
Proof.
  intros Hf Hp. eexists. split.
  - unfold usertrapret. act. act. act. act. act_gets me p Hp. act. act. act. act. act. act. act. act. act_gets me p Hp. by apply acts_ret.
  - destruct (status_bits (status_of h c)) as (B1 & B2 & B3). split; cbn [pt_table pt_mem pt_hart pt_csr sie noff put_sie put_status put_sepc put_stvec csr_status csr_sepc csr_stvec csr_satp csr_tp]; try done.
    all: rewrite ?status_off; cbn [put_stvec put_status csr_status].
    + by rewrite B3.
    + by rewrite Z.ldiff_spec, B1.
    + by rewrite Z.ldiff_spec, B2.
    + unfold tf_epc, tf_kernel_satp, tf_kernel_sp, tf_kernel_trap, tf_kernel_hartid. rewrite !load64_store64_ne by lia. done.
    + intros off Hoffs. unfold tf_kernel_satp, tf_kernel_sp, tf_kernel_trap, tf_kernel_hartid. rewrite !store64_out by lia. done.
    + unfold tf_kernel_satp, tf_kernel_sp, tf_kernel_trap, tf_kernel_hartid. rewrite !load64_store64_ne, load64_store64_eq by lia. unfold u64. by rewrite Z.mod_mod by lia.
    + unfold tf_kernel_satp, tf_kernel_sp, tf_kernel_trap, tf_kernel_hartid. rewrite load64_store64_ne, load64_store64_eq by lia. done.
    + unfold tf_kernel_satp, tf_kernel_sp, tf_kernel_trap, tf_kernel_hartid. rewrite !load64_store64_ne, load64_store64_eq by lia. done.
    + unfold tf_kernel_satp, tf_kernel_sp, tf_kernel_trap, tf_kernel_hartid. rewrite load64_store64_eq. done.
Qed.

Lemma acts_run {A C} (m : M tstate A) (k : A → M tstate C) s a f : acts m s a f → ∃ s', (m ≫= k) s = k a s' ∧ parts_of s' = f.
Proof. intros (s' & E & Hf). exists s'. by rewrite (bind_Ret _ _ _ _ _ E). Qed.

Ltac run_step := match goal with |- context [(?m ≫= ?k) ?s] => let s' := fresh "s" in let E := fresh "E" in let H := fresh "H" in
  edestruct (acts_run m k s) as (s' & E & H); [first [by eapply acts_store | by eapply acts_load | by eapply acts_stvec | by eapply acts_csr | by eapply acts_intr_on | by eapply acts_rstatus | by eapply acts_killed]|]; rewrite E; clear E end.

(** The state in which the system call runs. *)
Definition in_syscall (p : proc) (t : list proc) (m : mem) (c : csrs) (s1 : tstate) : Prop :=
  ptable (t_pk s1) = t ∧ csr_stvec (t_csr s1) = kernelvec ∧ sie (hart (t_pk s1)) = true ∧ noff (hart (t_pk s1)) = 0 ∧
  load64 (tmem s1) (p_trapframe p + tf_epc) = u64 (csr_sepc c + 4) ∧
  ∀ x, x < p_trapframe p + tf_epc ∨ p_trapframe p + tf_epc + 8 ≤ x → tmem s1 x = m x.

Lemma usertrap_enter me irq s p t m h c : parts_of s = Parts t m h c → t !! me = Some p → p_lock p = false → p_killed p = false → noff h = 0 →
  Z.land (status_of h c) SSTATUS_SPP = 0 → csr_scause c = 8 → ∃ s1,
  usertrap kernelvec usertrap_addr forkret uservec_off userret_off me irq s = (syscall forkret me ≫= after_syscall usertrap_addr uservec_off userret_off me) s1 ∧ in_syscall p t m c s1.
Proof.
  intros Hf Hp Hl Hk Hn Hspp Hcause. unfold usertrap. run_step. rewrite Hspp. cbn [Z.eqb negb]. do 4 run_step. cbn [put_stvec csr_scause]. rewrite Hcause. cbn [Z.eqb Pos.eqb].
  assert (Hok : cpu_ok h) by (split; lia). run_step. rewrite Hk. do 3 run_step. eexists. split; [reflexivity|].
  match goal with H : parts_of ?s9 = Parts _ ?m9 _ _ |- in_syscall _ _ _ _ ?s9 => injection H as Q1 Q2 Q3 Q4 end. unfold in_syscall. rewrite Q1, Q2, Q3, Q4.
  cbn [put_stvec put_status csr_stvec csr_sepc put_sie settle noff sie]. split_and!; try done.
  - rewrite !load64_store64_eq. unfold u64. rewrite Z.mod_mod by lia. by rewrite Zplus_mod_idemp_l.
  - intros x Hx. rewrite !store64_out by lia. done.
Qed.

(** ** System call numbers *)

Lemma syscalls_spec num : (if (0 <? num) && (num <? Z.of_nat (length syscalls)) then syscalls !!! Z.to_nat num else None) =
  (if decide (1 ≤ num ≤ 22) then nth (Z.to_nat num) syscalls None else None).
Proof.
  change (length syscalls) with 23%nat. case_decide as H.
  - rewrite (proj2 (Z.ltb_lt _ _)), (proj2 (Z.ltb_lt _ _)) by lia. cbn [andb]. by rewrite nth_lookup, list_lookup_total_alt.
  - destruct (Z.ltb_spec 0 num), (Z.ltb_spec num (Z.of_nat 23)); try done. lia.
Qed.

Lemma number_inv n num : num = number n ↔ 1 ≤ num ≤ 22 ∧ nth (Z.to_nat num) syscalls None = Some n.
Proof.
  split; [intros ->; by destruct n|]. intros [Hr Hn]. assert (Hin : ∃ k : nat, (k < 22)%nat ∧ num = Z.of_nat (S k)) by (exists (Z.to_nat num - 1)%nat; lia).
  destruct Hin as (k & Hk & ->). do 22 (destruct k as [|k]; [by injection Hn as <-|]). lia.
Qed.

Lemma syscall_known me s p n : ptable (t_pk s) !! me = Some p → i32 (load64 (tmem s) (p_trapframe p + tf_a7)) = number n →
  syscall forkret me s = (call forkret me n ≫= syscall_end me) s.
Proof.
  intros Hp Hn. unfold syscall. rewrite bind_gets, (getp_lookup _ me p Hp). erewrite pk_bind; [|unfold mm, zoom, mload64, gets; reflexivity].
  assert (Hid : set_t_pk (set_pk_mem (pk_mem (t_pk s)) (t_pk s)) s = s) by (destruct s as [k0 ? ? ? ? ?]; by destruct k0). rewrite Hid. fold (tmem s). cbv zeta. rewrite syscalls_spec, Hn.
  destruct (proj1 (number_inv n (number n)) eq_refl) as [Hr En]. rewrite decide_True, En by done. done.
Qed.

Lemma syscall_unknown me s p : ptable (t_pk s) !! me = Some p → (∀ n, i32 (load64 (tmem s) (p_trapframe p + tf_a7)) ≠ number n) →
  syscall forkret me s = Ret (SVal (-1)) (set_tmem (store64 (tmem s) (p_trapframe p + tf_a0) (2 ^ 64 - 1)) s).
Proof.
  intros Hp Hn. unfold syscall. rewrite bind_gets, (getp_lookup _ me p Hp). erewrite pk_bind; [|unfold mm, zoom, mload64, gets; reflexivity].
  assert (Hid : set_t_pk (set_pk_mem (pk_mem (t_pk s)) (t_pk s)) s = s) by (destruct s as [k0 ? ? ? ? ?]; by destruct k0). rewrite Hid. fold (tmem s). cbv zeta. rewrite syscalls_spec.
  set (num := i32 _) in *. assert (E : (if decide (1 ≤ num ≤ 22) then nth (Z.to_nat num) syscalls None else None) = None).
  { case_decide as Hr; [|done]. destruct (nth (Z.to_nat num) syscalls None) as [n|] eqn:E; [|done]. exfalso. apply (Hn n). by apply number_inv. }
  rewrite E. erewrite pk_bind; [reflexivity|]. unfold set_a0. rewrite bind_gets, (getp_lookup _ me p Hp). done.
Qed.

Lemma usertrap_returns me q n v s1 s2 : call forkret me n s1 = Ret (SVal v) s2 → ptable (t_pk s2) !! me = Some q → p_lock q = false → p_killed q = false → noff (hart (t_pk s2)) = 0 →
  ∃ s3, ((call forkret me n ≫= syscall_end me) ≫= after_syscall usertrap_addr uservec_off userret_off me) s1 = Ret (ToUser (MAKE_SATP (p_pagetable q)) (TRAMPOLINE + userret_off)) s3 ∧
    user_ready q (Parts (ptable (t_pk s2)) (store64 (tmem s2) (p_trapframe q + tf_a0) (u64 v)) (settle (hart (t_pk s2))) (t_csr s2)) (parts_of s3).
Proof.
  intros Ec Hq Hl Hk Hn. rewrite bind_assoc, (bind_Ret _ _ _ _ _ Ec). cbn [syscall_end].
  assert (Ea : pk (set_a0 me v) s2 = Ret tt (set_tmem (store64 (tmem s2) (p_trapframe q + tf_a0) (u64 v)) s2)).
  { apply pk_Ret. unfold set_a0. rewrite bind_gets, (getp_lookup _ me q Hq). done. }
  rewrite bind_assoc, (bind_Ret _ _ _ _ _ Ea), bind_ret_l. cbn [after_syscall]. unfold usertrap_tail. set (s4 := set_tmem _ s2).
  assert (H4 : parts_of s4 = Parts (ptable (t_pk s2)) (store64 (tmem s2) (p_trapframe q + tf_a0) (u64 v)) (hart (t_pk s2)) (t_csr s2)) by done.
  assert (Hok : cpu_ok (hart (t_pk s2))) by (split; lia). run_step. rewrite Hk. cbn [Z.eqb].
  destruct (usertrapret_run me _ q _ _ _ _ H Hq) as (g & (s3 & E3 & Hg) & Hur). exists s3. split; [done|]. by rewrite Hg.
Qed.

(** ** Properties *)

(** C10: a system call from user space returns to user space.  The call runs
    with interrupts on, traps going to kernelvec and the saved program counter
    after the ecall.  When it returns [v], usertrap() jumps to userret with the
    page table of the process; [a0] holds [v], the other saved registers are
    those the call left, sret will go to the saved program counter in user mode
    with interrupts on, and the next trap will go to uservec and find the
    kernel's stack, page table and hart in the trapframe. *)
Theorem usertrap_syscall me irq s p n : ptable (t_pk s) !! me = Some p → p_lock p = false → p_killed p = false → noff (hart (t_pk s)) = 0 →
  Z.land (status_of (hart (t_pk s)) (t_csr s)) SSTATUS_SPP = 0 → csr_scause (t_csr s) = 8 → i32 (load64 (tmem s) (p_trapframe p + tf_a7)) = number n →
  ∃ s1, in_syscall p (ptable (t_pk s)) (tmem s) (t_csr s) s1 ∧
    ∀ v s2 q, call forkret me n s1 = Ret (SVal v) s2 → ptable (t_pk s2) !! me = Some q → p_lock q = false → p_killed q = false → noff (hart (t_pk s2)) = 0 →
    ∃ s3, usertrap kernelvec usertrap_addr forkret uservec_off userret_off me irq s = Ret (ToUser (MAKE_SATP (p_pagetable q)) (TRAMPOLINE + userret_off)) s3 ∧
      user_ready q (Parts (ptable (t_pk s2)) (store64 (tmem s2) (p_trapframe q + tf_a0) (u64 v)) (settle (hart (t_pk s2))) (t_csr s2)) (parts_of s3) ∧
      load64 (tmem s3) (p_trapframe q + tf_a0) = u64 v ∧ csr_sepc (t_csr s3) = load64 (tmem s2) (p_trapframe q + tf_epc).
Proof.
  intros Hp Hl Hk Hn Hspp Hcause Ha7. destruct (usertrap_enter me irq s p _ _ _ _ eq_refl Hp Hl Hk Hn Hspp Hcause) as (s1 & E1 & Hin). exists s1. split; [done|].
  intros v s2 q Ec Hq Hlq Hkq Hnq. destruct (usertrap_returns me q n v s1 s2 Ec Hq Hlq Hkq Hnq) as (s3 & E3 & Hur). exists s3. destruct Hin as (Ht & _ & _ & _ & _ & Hm).
  assert (Esys : syscall forkret me s1 = (call forkret me n ≫= syscall_end me) s1).
  { apply (syscall_known me s1 p); [by rewrite Ht|]. rewrite <- Ha7. f_equal. apply load64_ext. intros x Hx. apply Hm. unfold tf_a7, tf_epc in *. lia. }
  split_and!; [|done|..].
  - rewrite E1, <- E3. unfold mbind, M_bind at 1 2. by rewrite Esys.
  - destruct Hur as [_ _ _ _ _ _ _ Hregs _ _ _ _]. change (tmem s3) with (pt_mem (parts_of s3)). transitivity (load64 (store64 (tmem s2) (p_trapframe q + tf_a0) (u64 v)) (p_trapframe q + tf_a0)).
    + apply load64_ext. intros x Hx. replace x with (p_trapframe q + (x - p_trapframe q)) by lia. apply Hregs. unfold tf_a0 in *. lia.
    + rewrite load64_store64_eq. unfold u64. by rewrite Z.mod_mod by lia.
  - destruct Hur as [_ _ _ _ _ _ Hs _ _ _ _ _]. cbn [pt_mem] in Hs. rewrite load64_store64_ne in Hs by (unfold tf_a0, tf_epc; lia). exact Hs.
Qed.

(** syscall() calls the function of the number in a7 and stores its result
    in a0; for every number that syscall.h does not define it stores -1 and
    changes nothing else. *)
Theorem syscall_dispatch me s p : ptable (t_pk s) !! me = Some p → let num := i32 (load64 (tmem s) (p_trapframe p + tf_a7)) in
  (∀ n, num = number n → syscall forkret me s = (call forkret me n ≫= syscall_end me) s) ∧
  ((∀ n, num ≠ number n) → syscall forkret me s = Ret (SVal (-1)) (set_tmem (store64 (tmem s) (p_trapframe p + tf_a0) (2 ^ 64 - 1)) s)).
Proof. intros Hp num. split; [intros n; by apply syscall_known|by apply syscall_unknown]. Qed.
End user.

(** C23: sys_sleep(n) returns 0 exactly when at least n ticks (as an unsigned
    number) have passed since the call, -1 when the process has been killed
    before, and otherwise leaves the process asleep on the clock with
    tickslock free, both when it is called and each time it is woken; and
    clockintr() advances the clock by one and wakes every process that sleeps
    on it. *)
Theorem sys_sleep_duration me s p : ptable (t_pk s) !! me = Some p → tickslock s = false →
  (p_lock p = false → noff (hart (t_pk s)) = 0 →
     ∃ r s', sys_sleep me s = Ret r s' ∧ sleep_outcome me (i32 (load64 (tmem s) (p_trapframe p + tf_a0))) (ticks s) p (entered s) r s') ∧
  (∀ n ticks0 ie, p_lock p = true → noff (hart (t_pk s)) = 1 → sie (hart (t_pk s)) = false →
     ∃ r s', resume me (WTicks n ticks0 ie) s = Ret r s' ∧ sleep_outcome me n ticks0 (woke_up p) (reentered me ie s) r s') ∧
  (∀ i, cpu_ok (hart (t_pk s)) → unlocked (t_pk s) → length (ptable (t_pk s)) = NPROC → ∃ s', clockintr i s = Ret tt s' ∧ ticks s' = u32 (ticks s + 1) ∧
     ∀ j q, ptable (t_pk s) !! j = Some q → ptable (t_pk s') !! j = Some (woken i ChanTicks j q)).
Proof.
  intros Hp Ht. split_and!.
  - intros Hl Hn. by apply sys_sleep_run.
  - intros n ticks0 ie Hl Hn Hs. by apply sleep_again_run.
  - intros i Hc Hu Hlen. destruct (clockintr_run i s Ht Hc Hu Hlen) as (s' & E & Et & _ & _ & _ & Hj). exists s'. split_and!; try done. intros j q Hq. by rewrite Hj, Hq.
Qed.
End traps.

(** ** Witnesses: init asleep, its child making a system call *)

#[local] Existing Instance image_sym.
#[local] Existing Instance no_files.
#[local] Instance no_devices : DeviceLayer := {| dv_state := unit; dv_uartintr := mret tt; dv_virtio_disk_intr := mret tt |}.
#[local] Instance no_file_calls : FileCalls := {| fc_wait := Empty_set; fc_call _ _ := mret (inl (-1)); fc_resume _ w := match w with end |}.

(** The child's trapframe is at address 4096; a7 is [num], a0 is [a0]. *)
Definition demo_caller : proc := p_set_trapframe 4096 demo_child.
Definition demo_trap (num a0 : Z) : tstate :=
  TS (PK (demo_init :: demo_caller :: replicate 62 proc0) 3 (Some 0%nat) false false
        (MState (store64 (store64 (λ _, Byte.x00) (4096 + tf_a7) num) (4096 + tf_a0) a0) false 0) tt (Cpu 0 true false) (Some 1%nat))
     (Csrs 0 0x1000 8 0 0 0 0) 100 false tt [].

Lemma usertrap_syscall_witness : ∃ s3, usertrap 1 2 3 4 5 1 0 (demo_trap 11 0) = Ret (ToUser (MAKE_SATP 0) (TRAMPOLINE + 5)) s3 ∧
  load64 (tmem s3) (4096 + tf_a0) = 2 ∧ csr_sepc (t_csr s3) = 0x1004.
Proof.
  destruct (usertrap_syscall 1 2 3 4 5 1 0 (demo_trap 11 0) demo_caller SYS_getpid) as (s1 & (Ht & _ & _ & Hn & Hepc & _) & H); [reflexivity..|].
  assert (Hg : getp 1 (t_pk s1) = demo_caller) by (apply getp_lookup; rewrite Ht; reflexivity).
  destruct (H 2 s1 demo_caller) as (s3 & E & _ & Ha & Hs).
  - unfold call, sys_getpid. rewrite bind_gets, Hg. reflexivity.
  - rewrite Ht. reflexivity.
  - reflexivity.
  - reflexivity.
  - exact Hn.
  - exists s3. split_and!; [exact E|exact Ha|]. rewrite Hs. exact Hepc.
Defined.

Lemma syscall_dispatch_witness : ∃ s', syscall 3 1 (demo_trap 23 0) = Ret (SVal (-1)) s' ∧ load64 (tmem s') (4096 + tf_a0) = 2 ^ 64 - 1.
Proof.
  destruct (syscall_dispatch 3 1 (demo_trap 23 0) demo_caller eq_refl) as [_ H]. eexists. split; [apply H|].
  - intros n. destruct n; vm_compute; discriminate.
  - vm_compute. reflexivity.
Defined.

Lemma sys_sleep_duration_witness : ∃ s', sys_sleep 1 (demo_trap 13 5) = Ret (SBlock (WTicks 5 100 false)) s' ∧ tickslock s' = false.
Proof.
  destruct (sys_sleep_duration 1 (demo_trap 13 5) demo_caller eq_refl eq_refl) as [H _]. destruct (H eq_refl eq_refl) as (r & s' & E & _ & Ht & _ & Ho).
  vm_compute in Ho. destruct Ho as [Hr _]. subst r. exists s'. split; [exact E|exact Ht].
Defined.
