(* ===== verification/Exec.v ===== *)
(** * kernel/exec.c, and sys_exec() of kernel/sysfile.c (the code)

    The state is that of proc.c; the file operations exec() uses beyond
    [FileLayer] are the interface [ExecFiles].  The arguments are the bytes of
    the strings: sys_exec() keeps each in a page of its own while exec() runs.
    [goto bad] is [exec_bad]. *)

From stdpp Require Import base gmap sets strings numbers list.
From coqutil Require Import Byte Word.LittleEndianList.
From S2P Require Import Prelude Mem Str Riscv Spinlock Kalloc Vm Proc Syscall.

Class ExecFiles {FL : FileLayer} := {
  ex_ilock : nat → M fl_state unit;
  ex_readi : nat → Z → Z → M fl_state (Z * list byte);      (* the count and the bytes read *)
  ex_iunlockput : nat → M fl_state unit
}.

(** ** elf.h *)

Definition ELF_MAGIC : Z := 0x464C457F.
Definition ELF_PROG_LOAD : Z := 1.
Definition sizeof_elfhdr : Z := 64.
Definition sizeof_proghdr : Z := 56.
(** The little-endian field of [n] bytes at [off]. *)
Definition field (l : list byte) (off n : nat) : Z := le_combine (take n (drop off l)).
Record elfhdr := Elfhdr { eh_magic : Z; eh_entry : Z; eh_phoff : Z; eh_phnum : Z }.
Definition get_elfhdr (l : list byte) : elfhdr := Elfhdr (field l 0 4) (field l 24 8) (field l 32 8) (field l 56 2).
Record proghdr := Proghdr { ph_type : Z; ph_flags : Z; ph_off : Z; ph_vaddr : Z; ph_filesz : Z; ph_memsz : Z }.
Definition get_proghdr (l : list byte) : proghdr := Proghdr (field l 0 4) (field l 4 4) (field l 8 8) (field l 16 8) (field l 32 8) (field l 40 8).

Definition tf_a1 : Z := 120.

Definition flags2perm (flags : Z) : Z :=
  let perm := if Z.land flags 0x1 =? 0 then 0 else PTE_X in
  if Z.land flags 0x2 =? 0 then perm else Z.lor perm PTE_W.

(** [for(last=s=path; *s; s++) if( *s == '/') last = s+1;] *)
Fixpoint last_elem (last s : list byte) : list byte :=
  match s with
  | [] => last
  | c :: s => last_elem (if byte.unsigned c =? 47 then s else last) s
  end.

Section stack.
Context {I : image} {PA : PageAllocator}.

(** The loop over the arguments; [ustack] is what it has filled in.  The test
    lets MAXARG arguments through, with which the null pointer would be stored
    one past the end of the array ustack[MAXARG].  The only caller, sys_exec(),
    passes fewer than MAXARG; the model is exec() on such lists. *)
Fixpoint push_args (args : list (list byte)) (pagetable sp stackbase : Z) (ustack : list Z) : M mstate (option (Z * list Z)) :=
  match args with
  | [] => mret (Some (sp, ustack))
  | a :: args =>
    if (MAXARG <=? length ustack)%nat then mret None else
    let sp := u64 (sp - (Z.of_nat (length a) + 1)) in
    let sp := sp - sp mod 16 in                     (* riscv sp must be 16-byte aligned *)
    if sp <? stackbase then mret None else
    r ← copyout pagetable sp (a ++ [Byte.x00]);
    if r <? 0 then mret None else
    push_args args pagetable sp stackbase (ustack ++ [sp])
  end.

(** [ustack] as bytes, with the null pointer at its end. *)
Definition ustack_bytes (ustack : list Z) : list byte := mjoin (le_split 8 <$> (ustack ++ [0])).

(** The argument strings, and the array of pointers to them. *)
Definition exec_stack (args : list (list byte)) (pagetable sz : Z) : M mstate (option Z) :=
  let stackbase := sz - PGSIZE in
  r ← push_args args pagetable sz stackbase [];
  match r with
  | None => mret None
  | Some (sp, ustack) =>
    let sp := u64 (sp - (Z.of_nat (length args) + 1) * 8) in
    let sp := sp - sp mod 16 in
    if sp <? stackbase then mret None else
    r ← copyout pagetable sp (ustack_bytes ustack);
    if r <? 0 then mret None else mret (Some sp)
  end.
End stack.

Section exec.
Context {I : image} {PA : PageAllocator} {FL : FileLayer} {EF : ExecFiles}.

(** [for(i = 0; i < sz; i += PGSIZE)], [k] pages to go. *)
Fixpoint loadseg_loop (k : nat) (pagetable va : Z) (ip : nat) (offset sz i : Z) : M pkstate Z :=
  if i <? sz then
    match k with
    | O => no_fuel
    | S k =>
      pa ← mm (walkaddr pagetable (u64 (va + i)));
      if pa =? 0 then panic "loadseg: address should exist" else
      let n := if sz - i <? PGSIZE then sz - i else PGSIZE in
      r ← files (ex_readi ip (u32 (offset + i)) n);
      mm (modify (λ m, set_mem (store_bytes (ms_mem m) pa (snd r)) m));;
      if negb (fst r =? n) then mret (-1) else
      loadseg_loop k pagetable va ip offset sz (i + PGSIZE)
    end
  else mret 0.
Definition loadseg (pagetable va : Z) (ip : nat) (offset sz : Z) : M pkstate Z :=
  loadseg_loop (Z.to_nat (sz / PGSIZE) + 1) pagetable va ip offset sz 0.

(** [for(i=0, off=elf.phoff; i<elf.phnum; i++, off+=sizeof(ph))], [k] headers to
    go: whether it got through, and [sz]. *)
Fixpoint exec_load (k : nat) (pagetable : Z) (ip : nat) (off sz : Z) : M pkstate (bool * Z) :=
  match k with
  | O => mret (true, sz)
  | S k =>
    r ← files (ex_readi ip (u32 off) sizeof_proghdr);
    if negb (fst r =? sizeof_proghdr) then mret (false, sz) else
    let ph := get_proghdr (snd r) in
    let next := exec_load k pagetable ip (i32 (off + sizeof_proghdr)) in
    if negb (ph_type ph =? ELF_PROG_LOAD) then next sz else
    if ph_memsz ph <? ph_filesz ph then mret (false, sz) else
    if u64 (ph_vaddr ph + ph_memsz ph) <? ph_vaddr ph then mret (false, sz) else
    if negb (ph_vaddr ph mod PGSIZE =? 0) then mret (false, sz) else
    sz1 ← mm (uvmalloc pagetable sz (u64 (ph_vaddr ph + ph_memsz ph)) (flags2perm (ph_flags ph)));
    if sz1 =? 0 then mret (false, sz) else
    r ← loadseg pagetable (ph_vaddr ph) ip (u32 (ph_off ph)) (u32 (ph_filesz ph));
    if r <? 0 then mret (false, sz1) else next sz1
  end.

Definition exec_bad (ip : option nat) (pagetable sz : Z) : M pkstate Z :=
  (if pagetable =? 0 then mret tt else mm (proc_freepagetable pagetable sz));;
  (match ip with Some ip => files (ex_iunlockput ip);; files fl_end_op | None => mret tt end);;
  mret (-1).

(** From [Commit to the user image] on, with the stores to the trapframe and
    the name before it. *)
Definition exec_commit (me : nat) (path : list byte) (pagetable sz sp entry : Z) (argc : nat) : M pkstate Z :=
  p ← gets (getp me);
  let oldsz := p_sz p in
  mm (mstore64 (p_trapframe p + tf_a1) sp);;
  updp me (λ p, p_set_name (safestrcpy_bytes (p_name p) (last_elem path path) 16) p);;
  let oldpagetable := p_pagetable p in
  updp me (p_set_pagetable pagetable);;
  updp me (p_set_sz sz);;
  mm (mstore64 (p_trapframe p + tf_epc) entry);;
  mm (mstore64 (p_trapframe p + tf_sp) sp);;
  mm (proc_freepagetable oldpagetable oldsz);;
  mret (Z.of_nat argc).

(** The stack: two pages, the lower one not accessible. *)
Definition exec_user (me : nat) (path : list byte) (argv : list (list byte)) (pagetable sz entry : Z) : M pkstate Z :=
  let sz := PGROUNDUP sz in
  sz1 ← mm (uvmalloc pagetable sz (u64 (sz + 2 * PGSIZE)) PTE_W);
  if sz1 =? 0 then exec_bad None pagetable sz else
  let sz := sz1 in
  mm (uvmclear pagetable (sz - 2 * PGSIZE));;
  r ← mm (exec_stack argv pagetable sz);
  match r with
  | None => exec_bad None pagetable sz
  | Some sp => exec_commit me path pagetable sz sp entry (length argv)
  end.

Definition exec (me : nat) (path : list byte) (argv : list (list byte)) : M pkstate Z :=
  files fl_begin_op;;
  ip ← files (fl_namei path);
  match ip with
  | None => files fl_end_op;; mret (-1)
  | Some ip =>
    files (ex_ilock ip);;
    r ← files (ex_readi ip 0 sizeof_elfhdr);
    if negb (fst r =? sizeof_elfhdr) then exec_bad (Some ip) 0 0 else
    let elf := get_elfhdr (snd r) in
    if negb (eh_magic elf =? ELF_MAGIC) then exec_bad (Some ip) 0 0 else
    p ← gets (getp me);
    pagetable ← mm (proc_pagetable (p_trapframe p));
    if pagetable =? 0 then exec_bad (Some ip) 0 0 else
    l ← exec_load (Z.to_nat (eh_phnum elf)) pagetable ip (i32 (eh_phoff elf)) 0;
    let '(ok, sz) := l in
    if negb ok then exec_bad (Some ip) pagetable sz else
    files (ex_iunlockput ip);;
    files fl_end_op;;
    exec_user me path argv pagetable sz (eh_entry elf)
  end.

(** ** sys_exec() *)

(** [for(i = 0; i < NELEM(argv) && argv[i] != 0; i++) kfree(argv[i])] *)
Fixpoint free_args (pages : list Z) : M pkstate unit :=
  match pages with
  | [] => mret tt
  | pa :: pages => mm (pa_kfree pa);; free_args pages
  end.

(** The loop that fetches the arguments, [k] entries of [argv] to go: the pages
    taken, and the strings unless it fails. *)
Fixpoint fetch_args (k : nat) (me : nat) (uargv : Z) (i : nat) : M pkstate (list Z * option (list (list byte))) :=
  match k with
  | O => mret ([], None)
  | S k =>
    uarg ← fetchaddr me (u64 (uargv + 8 * Z.of_nat i));
    match uarg with
    | None => mret ([], None)
    | Some uarg =>
      if uarg =? 0 then mret ([], Some []) else
      pa ← mm pa_kalloc;
      if pa =? 0 then mret ([], None) else
      str ← fetchstr me uarg PGSIZE;
      match str with
      | None => mret ([pa], None)
      | Some str =>
        mm (modify (λ m, set_mem (store_bytes (ms_mem m) pa (str ++ [Byte.x00])) m));;
        r ← fetch_args k me uargv (S i);
        mret (pa :: fst r, match snd r with Some l => Some (str :: l) | None => None end)
      end
    end
  end.

Definition sys_exec (me : nat) : M pkstate Z :=
  uargv ← sysargaddr me 1;
  path ← sysargstr me 0 MAXPATH;
  match path with
  | None => mret (-1)
  | Some path =>
    r ← fetch_args MAXARG me uargv 0;
    match snd r with
    | None => free_args (fst r);; mret (-1)
    | Some argv =>
      ret ← exec me path argv;
      free_args (fst r);;
      mret ret
    end
  end.
End exec.
