(* ===== verification/ExecThms.v ===== *)
(** * kernel/exec.c: the memory of the new program

    exec() builds the stack of the new program through copyout(); [layout] is
    where it puts the strings and the array.  It loads the segments of the
    file with loadseg(), into pages that uvmalloc() adds; [ReadFile] is what
    that relies on of the file layer. *)

From stdpp Require Import base gmap sets strings numbers list.
From coqutil Require Import Byte Word.LittleEndianList.
From S2P Require Import Prelude Mem Str Riscv Spinlock Kalloc Vm VmPt VmWalk VmMap VmUser VmCopy VmThms VmKernel Block VmUserMem Proc Syscall Exec.

(** The user sees the bytes [l] at [va]. *)
Definition holds (m : mem) (root va : Z) (l : list byte) : Prop := ∀ j b, l !! j = Some b → uview m root (va + Z.of_nat j) = Some b.

Lemma written_holds m m' root va l : 0 ≤ va → written m m' root va l → holds m' root va l.
Proof.
  intros Hva Hw j b Hj. pose proof (lookup_lt_Some _ _ _ Hj). rewrite Hw by lia. rewrite (proj2 (Z.leb_le _ _)), (proj2 (Z.ltb_lt _ _)) by lia. cbn [andb].
  by replace (Z.to_nat (va + Z.of_nat j - va)) with j by lia.
Qed.

(** Elsewhere the user's memory is the same. *)
Definition same_outside (m m' : mem) (root lo hi : Z) : Prop := ∀ x, 0 ≤ x → x < lo ∨ hi ≤ x → uview m' root x = uview m root x.

Lemma written_outside m m' root va l : written m m' root va l → same_outside m m' root va (va + Z.of_nat (length l)).
Proof. intros Hw x Hx Ho. rewrite Hw by done. destruct (Z.leb_spec va x), (Z.ltb_spec x (va + Z.of_nat (length l))); try done. lia. Qed.

Lemma outside_trans m1 m2 m3 root lo hi lo' hi' : same_outside m1 m2 root lo hi → same_outside m2 m3 root lo' hi' → same_outside m1 m3 root (Z.min lo lo') (Z.max hi hi').
Proof. intros H1 H2 x Hx Ho. rewrite H2, H1 by lia. done. Qed.

Lemma outside_wider m1 m2 root lo hi lo' hi' : same_outside m1 m2 root lo hi → lo' ≤ lo → hi ≤ hi' → same_outside m1 m2 root lo' hi'.
Proof. intros H ? ? x Hx Ho. apply H; lia. Qed.

Lemma holds_outside m m' root va l lo hi : 0 ≤ va → same_outside m m' root lo hi → hi ≤ va ∨ va + Z.of_nat (length l) ≤ lo → holds m root va l → holds m' root va l.
Proof. intros Hva Ho Hd Hh j b Hj. pose proof (lookup_lt_Some _ _ _ Hj). rewrite Ho by lia. by apply Hh. Qed.

(** ** Where things go *)

Definition align16 (x : Z) : Z := x - x mod 16.
Fixpoint layout (args : list (list byte)) (sp base : Z) (us : list Z) : option (Z * list Z) :=
  match args with
  | [] => Some (sp, us)
  | a :: args =>
    let sp := align16 (sp - (Z.of_nat (length a) + 1)) in
    if (MAXARG <=? length us)%nat || (sp <? base) then None else layout args sp base (us ++ [sp])
  end.
Definition stack_layout (args : list (list byte)) (sz : Z) : option (Z * list Z) :=
  match layout args sz (sz - PGSIZE) [] with
  | None => None
  | Some (sp, us) =>
    let sp := align16 (sp - (Z.of_nat (length args) + 1) * 8) in
    if sp <? sz - PGSIZE then None else Some (sp, us)
  end.

Section stack.
Context {I : image} {PA : PageAllocator} {IO : image_ok I} (F : gset Z) (T : gmap Z (nat * Z)) (root : Z).

(** The page below [sz] is mapped for the user. *)
Definition stack_mapped (m : mem) (base sz : Z) : Prop := ∀ x, base ≤ x < sz → is_Some (uview m root x).

Lemma copyout_mapped s va l base sz : vm_ok s F T root → uspace_ok (ms_mem s) F T root → 0 ≤ base → base ≤ va → va + Z.of_nat (length l) ≤ sz → stack_mapped (ms_mem s) base sz →
  ∃ s', copyout root va l s = Ret 0 s' ∧ vm_ok s' F T root ∧ same_get (ms_mem s) (ms_mem s') root ∧ holds (ms_mem s') root va l ∧
    same_outside (ms_mem s) (ms_mem s') root va (va + Z.of_nat (length l)) ∧ uspace_ok (ms_mem s') F T root ∧ stack_mapped (ms_mem s') base sz.
Proof.
  intros Hok Hu Hb Hva Hsz Hm. destruct (copyout_loop_spec (S (length l)) s F T root va l) as (r & s' & n & E & Hok' & Hsg & Hw & Hr); [done|done|lia|lia|].
  assert (r = 0 ∧ n = length l) as [-> ->].
  { destruct Hr as [H|(_ & Hn & Hnone)]; [done|]. destruct (Hm (va + Z.of_nat n)) as [b Eb]; [lia|]. by rewrite Eb in Hnone. }
  rewrite firstn_all in Hw. exists s'. split_and!; try done.
  - apply (written_holds (ms_mem s)); [lia|done].
  - by apply written_outside.
  - by eapply uspace_same_get.
  - intros x Hx. rewrite Hw by lia. destruct (_ && _) eqn:Ein; [|by apply Hm]. apply andb_true_iff in Ein as [H1%Z.leb_le H2%Z.ltb_lt]. apply lookup_lt_is_Some_2. lia.
Qed.

Lemma MAXVA_pow : MAXVA = 2 ^ 38.
Proof. done. Qed.

(** Where copyout() is given an address past the address space, it fails. *)
Lemma copyout_high s va l : vm_ok s F T root → uspace_ok (ms_mem s) F T root → MAXVA ≤ va → l ≠ [] → ∃ s', copyout root va l s = Ret (-1) s' ∧ vm_ok s' F T root ∧ same_get (ms_mem s) (ms_mem s') root ∧
  same_outside (ms_mem s) (ms_mem s') root va va ∧ uspace_ok (ms_mem s') F T root.
Proof.
  intros Hok Hu Hva Hl. assert (0 ≤ va) by (rewrite MAXVA_pow in Hva; lia). destruct (copyout_loop_spec (S (length l)) s F T root va l) as (r & s' & n & E & Hok' & Hsg & Hw & Hr); [done|done|lia|lia|].
  assert (Hn : take n l = []).
  { destruct (take n l) as [|b w] eqn:Et; [done|]. pose proof (Hw va ltac:(lia)) as Hv. rewrite (proj2 (Z.leb_le _ _)), (proj2 (Z.ltb_lt _ _)) in Hv by (simpl; lia). cbn [andb] in Hv. rewrite Z.sub_diag in Hv. cbn in Hv.
    apply uview_below in Hv; [|lia]. lia. }
  rewrite Hn in Hw. destruct Hr as [[_ ->]|(-> & _ & _)]; [by rewrite firstn_all in Hn|]. exists s'. split_and!; try done.
  - apply written_outside in Hw. simpl in Hw. by rewrite Z.add_0_r in Hw.
  - by eapply uspace_same_get.
Qed.

Lemma align16_bounds x : x - 15 ≤ align16 x ≤ x ∧ align16 x mod 16 = 0.
Proof.
  unfold align16. pose proof (Z.mod_pos_bound x 16 ltac:(lia)). split; [lia|]. rewrite Zminus_mod_idemp_r, Z.sub_diag. done.
Qed.

(** The stack pointer after making room for [n] bytes: as in the layout, or far
    outside when it wraps. *)
Lemma room_for sp n : 0 ≤ sp ≤ MAXVA → 0 < n < 2 ^ 62 → let x := u64 (sp - n) in
  x - x mod 16 = align16 (sp - n) ∨ (align16 (sp - n) < 0 ∧ MAXVA ≤ x - x mod 16).
Proof.
  intros Hsp Hn. cbv zeta. rewrite MAXVA_pow in Hsp |- *. destruct (Z.leb_spec 0 (sp - n)) as [H0|H0].
  - left. rewrite u64_id; [done|]. lia.
  - right. pose proof (align16_bounds (sp - n)). split; [lia|]. assert (E : u64 (sp - n) = sp - n + 2 ^ 64).
    { unfold u64. rewrite <- (Z.mod_add _ 1) by lia. rewrite Z.mod_small; lia. }
    rewrite E. pose proof (Z.mod_pos_bound (sp - n + 2 ^ 64) 16 ltac:(lia)). lia.
Qed.

(** What is on the stack of [s']: nothing outside [lo, hi) has changed. *)
Definition stepped (s s' : mstate) (base lo hi sz : Z) : Prop :=
  vm_ok s' F T root ∧ uspace_ok (ms_mem s') F T root ∧ same_get (ms_mem s) (ms_mem s') root ∧ stack_mapped (ms_mem s') base sz ∧ same_outside (ms_mem s) (ms_mem s') root lo hi.

Lemma push_args_run args : ∀ s sp base sz us, vm_ok s F T root → uspace_ok (ms_mem s) F T root → stack_mapped (ms_mem s) base sz → 0 ≤ base ≤ sp → sp ≤ sz ≤ MAXVA →
  Forall (λ a, Z.of_nat (length a) < 2 ^ 61) args →
  ∃ s', match layout args sp base us with
    | None => push_args args root sp base us s = Ret None s' ∧ vm_ok s' F T root ∧ uspace_ok (ms_mem s') F T root ∧ same_get (ms_mem s) (ms_mem s') root
    | Some (sp', us') => push_args args root sp base us s = Ret (Some (sp', us')) s' ∧ stepped s s' base sp' sp sz ∧ base ≤ sp' ≤ sp ∧
        ∃ vs, us' = us ++ vs ∧ Forall2 (λ a v, sp' ≤ v ∧ v mod 16 = 0 ∧ v + Z.of_nat (length a) < sp ∧ holds (ms_mem s') root v (a ++ [Byte.x00])) args vs
    end.
Proof.
  induction args as [|a args IH]; intros s sp base sz us Hok Hu Hm Hb Hsz Ha.
  { exists s. cbn [layout push_args]. split_and!; try done; try lia. exists []. rewrite app_nil_r. split; [done|constructor]. }
  apply Forall_cons in Ha as [Ha1 Ha]. cbn [layout push_args]. destruct (MAXARG <=? length us)%nat; cbn [orb]; [by exists s|].
  pose proof (align16_bounds (sp - (Z.of_nat (length a) + 1))) as Hal. set (x := u64 _). set (v := align16 _) in *.
  destruct (room_for sp (Z.of_nat (length a) + 1)) as [Ex|[Hneg Hhigh]]; [lia|lia|fold x v in Ex|fold x v in Hneg, Hhigh].
  - rewrite Ex. destruct (Z.ltb_spec v base); [by exists s|].
    destruct (copyout_mapped s v (a ++ [Byte.x00]) base sz) as (s1 & E1 & Hok1 & Hsg1 & Hh1 & Ho1 & Hu1 & Hm1); try done; try lia; [rewrite length_app; simpl; lia|].
    rewrite (bind_Ret _ _ _ _ _ E1). cbn [Z.ltb Z.compare]. destruct (IH s1 v base sz (us ++ [v])) as (s' & H'); try done; try lia. exists s'.
    destruct (layout args v base (us ++ [v])) as [[sp' us']|].
    + destruct H' as (E' & (Hok' & Hu' & Hsg' & Hm' & Ho') & Hsp' & vs & -> & Hvs). rewrite length_app in Ho1. cbn [length] in Ho1. split_and!; [done| |lia|lia|].
      * split_and!; try done; [intros y Hy; by rewrite Hsg', Hsg1|].
        eapply outside_wider; [eapply outside_trans; [exact Ho1|exact Ho']|lia|lia].
      * exists (v :: vs). rewrite <- app_assoc. split; [done|]. constructor.
        -- split_and!; [lia|lia|lia|]. eapply holds_outside; [|exact Ho'|left; lia|done]. lia.
        -- eapply Forall2_impl; [exact Hvs|]. intros b w (? & ? & ? & ?). split_and!; try done. lia.
    + destruct H' as (E' & Hok' & Hu' & Hsg'). split_and!; try done. intros y Hy. by rewrite Hsg', Hsg1.
  - rewrite (proj2 (Z.ltb_lt v base)) by lia. rewrite (proj2 (Z.ltb_ge _ base)) by lia.
    destruct (copyout_high s (x - x mod 16) (a ++ [Byte.x00])) as (s' & E & Hok' & Hsg' & _ & Hu'); try done; [by destruct a|]. rewrite (bind_Ret _ _ _ _ _ E). cbn [Z.ltb Z.compare]. by exists s'.
Qed.

Lemma ustack_bytes_length us : Z.of_nat (length (ustack_bytes us)) = (Z.of_nat (length us) + 1) * 8.
Proof.
  unfold ustack_bytes. assert (H : ∀ l : list Z, length (mjoin (le_split 8 <$> l)) = (8 * length l)%nat).
  { induction l as [|x l IH]; [done|]. change (mjoin (le_split 8 <$> x :: l)) with (le_split 8 x ++ mjoin (le_split 8 <$> l)). rewrite length_app, length_le_split, IH. simpl. lia. }
  rewrite H, length_app. simpl. lia.
Qed.

(** C20: exec() delivers the arguments.  With the stack page below [sz] mapped,
    the stack pointer it computes is 16-byte aligned and inside that page; each
    argument is in user memory as a NUL-terminated string at a 16-byte aligned
    address, and at the stack pointer is the array of these addresses ended by
    a null pointer; no other user memory and no translation changes.  When the
    strings and the array do not fit the page, or there are too many, it
    fails.  (sys_exec() passes fewer than MAXARG arguments, as
    [fetch_args_short] shows; with exactly MAXARG the array of the code is
    overrun.) *)
Theorem exec_args_delivered s sz args : vm_ok s F T root → uspace_ok (ms_mem s) F T root → PGSIZE ≤ sz ≤ MAXVA → stack_mapped (ms_mem s) (sz - PGSIZE) sz →
  Forall (λ a, Z.of_nat (length a) < 2 ^ 61) args → Z.of_nat (length args) < 2 ^ 58 →
  ∃ s', vm_ok s' F T root ∧ same_get (ms_mem s) (ms_mem s') root ∧
    match stack_layout args sz with
    | None => exec_stack args root sz s = Ret None s'
    | Some (sp, us) => exec_stack args root sz s = Ret (Some sp) s' ∧ sz - PGSIZE ≤ sp < sz ∧ sp mod 16 = 0 ∧ length us = length args ∧
        (∀ i a, args !! i = Some a → ∃ u, us !! i = Some u ∧ u mod 16 = 0 ∧ holds (ms_mem s') root u (a ++ [Byte.x00])) ∧
        holds (ms_mem s') root sp (ustack_bytes us) ∧ same_outside (ms_mem s) (ms_mem s') root (sz - PGSIZE) sz
    end.
Proof.
  intros Hok Hu Hsz Hm Ha Hn. unfold exec_stack, stack_layout. assert (HP : PGSIZE = 4096) by done.
  destruct (push_args_run args s sz (sz - PGSIZE) sz []) as (s1 & H1); [done|done|done|lia|lia|done|]. destruct (layout args sz (sz - PGSIZE) []) as [[sp us]|]; cycle 1.
  { destruct H1 as (E1 & Hok1 & _ & Hsg1). exists s1. rewrite (bind_Ret _ _ _ _ _ E1). done. }
  destruct H1 as (E1 & (Hok1 & Hu1 & Hsg1 & Hm1 & Ho1) & Hsp & vs & Hvs & Hf). cbn [app] in Hvs. subst vs. pose proof (Forall2_length _ _ _ Hf) as Hlen.
  rewrite (bind_Ret _ _ _ _ _ E1). pose proof (align16_bounds (sp - (Z.of_nat (length args) + 1) * 8)) as Hal. set (x := u64 _). set (v := align16 _) in *.
  destruct (room_for sp ((Z.of_nat (length args) + 1) * 8)) as [Ex|[Hneg Hhigh]]; [lia|lia|fold x v in Ex|fold x v in Hneg, Hhigh].
  - rewrite Ex. cbv zeta. destruct (Z.ltb_spec v (sz - PGSIZE)); [by exists s1|].
    destruct (copyout_mapped s1 v (ustack_bytes us) (sz - PGSIZE) sz) as (s2 & E2 & Hok2 & Hsg2 & Hh2 & Ho2 & _ & _); try done; try lia; [rewrite ustack_bytes_length; lia|].
    rewrite ustack_bytes_length in Ho2. rewrite (bind_Ret _ _ _ _ _ E2). cbn [Z.ltb Z.compare]. exists s2. split_and!; try done; try lia.
    + intros y Hy. by rewrite Hsg2, Hsg1.
    + intros i a Hi. destruct (Forall2_lookup_l _ _ _ _ _ Hf Hi) as (u & Hui & Hu1' & Hu2 & Hu3 & Hu4). exists u. split_and!; try done. eapply holds_outside; [|exact Ho2|left; lia|done]. lia.
    + eapply outside_wider; [eapply outside_trans; [exact Ho1|exact Ho2]|lia|lia].
  - cbv zeta. rewrite (proj2 (Z.ltb_lt v _)) by lia. rewrite (proj2 (Z.ltb_ge _ (sz - PGSIZE))) by lia.
    destruct (copyout_high s1 (x - x mod 16) (ustack_bytes us)) as (s' & E & Hok' & Hsg' & _ & Hu'); try done.
    { intros E. apply (f_equal (λ l, Z.of_nat (length l))) in E. rewrite ustack_bytes_length in E. simpl in E. lia. }
    rewrite (bind_Ret _ _ _ _ _ E). cbn [Z.ltb Z.compare]. exists s'. split_and!; try done. intros y Hy. by rewrite Hsg', Hsg1.
Qed.
End stack.

(** ** exec() commits at its end *)

Section commit.
Context {I : image} {PA : PageAllocator} {FL : FileLayer} {EF : ExecFiles}.

(** [m] leaves the process table alone when its result satisfies [Q]. *)
Definition keeps {A} (Q : A → Prop) (m : M pkstate A) : Prop := ∀ s a s', m s = Ret a s' → Q a → ptable s' = ptable s.
Definition any {A} (a : A) : Prop := True.

Lemma keeps_mm {A} Q (m : M mstate A) : keeps Q (mm m).
Proof. intros s a s' H _. unfold mm, zoom in H. by destruct (m (pk_mem s)); simplify_eq. Qed.
Lemma keeps_files {A} Q (m : M fl_state A) : keeps Q (files m).
Proof. intros s a s' H _. unfold files, zoom in H. by destruct (m (pk_files s)); simplify_eq. Qed.
Lemma keeps_ret {A} Q (a : A) : keeps Q (mret a).
Proof. intros s b s' H _. by injection H as <- <-. Qed.
Lemma keeps_gets {A} Q (f : pkstate → A) : keeps Q (gets f).
Proof. intros s b s' H _. by injection H as <- <-. Qed.
Lemma keeps_panic {A} (Q : A → Prop) msg : keeps Q (panic msg).
Proof. by intros s b s' H. Qed.
Lemma keeps_fuel {A} (Q : A → Prop) : keeps Q no_fuel.
Proof. by intros s b s' H. Qed.
Lemma keeps_bind {A C} (Q : C → Prop) (m : M pkstate A) (k : A → M pkstate C) : keeps any m → (∀ a, keeps Q (k a)) → keeps Q (m ≫= k).
Proof. intros Hm Hk s c s' H HQ. apply bind_Ret_inv in H as (a & s1 & E1 & E2). rewrite (Hk a s1 c s' E2 HQ). by apply (Hm s a s1 E1). Qed.

Ltac keep := repeat first [apply keeps_mm | apply keeps_files | apply keeps_ret | apply keeps_gets | apply keeps_panic | apply keeps_fuel
  | apply keeps_bind; [|intros ?] | match goal with |- keeps _ (match ?x with _ => _ end) => destruct x end].

Lemma keeps_loadseg k pagetable va ip offset sz i : keeps any (loadseg_loop k pagetable va ip offset sz i).
Proof. revert i. induction k as [|k IH]; intros i; cbn [loadseg_loop]; cbv zeta; keep; apply IH. Qed.
Lemma keeps_load k pagetable ip off sz : keeps any (exec_load k pagetable ip off sz).
Proof. revert off sz. induction k as [|k IH]; intros off sz; cbn [exec_load]; cbv zeta; keep; first [apply IH | apply keeps_loadseg]. Qed.
Lemma keeps_bad Q ip pagetable sz : keeps Q (exec_bad ip pagetable sz).
Proof. unfold exec_bad. keep. Qed.
Lemma bad_result ip pagetable sz s r s' : exec_bad ip pagetable sz s = Ret r s' → r = -1.
Proof. unfold exec_bad. intros H. apply bind_Ret_inv in H as (? & ? & _ & H). apply bind_Ret_inv in H as (? & ? & _ & H). by injection H. Qed.

Lemma mm_table {A} (m : M mstate A) s a s' : mm m s = Ret a s' → ptable s' = ptable s.
Proof. intros H. by apply (keeps_mm any m s a s' H). Qed.
Lemma files_table {A} (m : M fl_state A) s a s' : files m s = Ret a s' → ptable s' = ptable s.
Proof. intros H. by apply (keeps_files any m s a s' H). Qed.
Lemma load_table k pagetable ip off sz s a s' : exec_load k pagetable ip off sz s = Ret a s' → ptable s' = ptable s.
Proof. intros H. by apply (keeps_load k pagetable ip off sz s a s' H). Qed.
Lemma bad_table ip pagetable sz s r s' : exec_bad ip pagetable sz s = Ret r s' → ptable s' = ptable s.
Proof. intros H. by apply (keeps_bad any ip pagetable sz s r s' H). Qed.

(** The new image of the process. *)
Definition new_image (path : list byte) (pagetable sz : Z) (p : proc) : proc :=
  p_set_sz sz (p_set_pagetable pagetable (p_set_name (safestrcpy_bytes (p_name p) (last_elem path path) 16) p)).

Lemma commit_result me path pagetable sz sp entry argc s r s' : exec_commit me path pagetable sz sp entry argc s = Ret r s' →
  r = Z.of_nat argc ∧ ptable s' = alter (new_image path pagetable sz) me (ptable s).
Proof.
  unfold exec_commit. rewrite bind_gets. cbv zeta. intros H. apply bind_Ret_inv in H as (? & s1 & E1 & H). apply mm_table in E1.
  unfold updp in H. rewrite !bind_modify in H. apply bind_Ret_inv in H as (? & s2 & E2 & H). apply mm_table in E2.
  apply bind_Ret_inv in H as (? & s3 & E3 & H). apply mm_table in E3. apply bind_Ret_inv in H as (? & s4 & E4 & H). apply mm_table in E4.
  injection H as <- <-. split; [done|]. rewrite E4, E3, E2. cbn [ptable set_ptable]. rewrite E1, !list_alter_alter_eq. done.
Qed.

(** exec() either fails with -1 and leaves the process table as it was
    (page table, size, name and descriptors of the process included), or
    returns the number of arguments and has given the process, and no other,
    its new page table, size and name. *)
Theorem exec_commits_last me path argv s r s' : exec me path argv s = Ret r s' →
  (r = -1 ∧ ptable s' = ptable s) ∨ (r = Z.of_nat (length argv) ∧ ∃ pagetable sz, ptable s' = alter (new_image path pagetable sz) me (ptable s)).
Proof.
  unfold exec. intros H. apply bind_Ret_inv in H as (? & s1 & E1 & H). apply files_table in E1. apply bind_Ret_inv in H as (ip & s2 & E2 & H). apply files_table in E2.
  rewrite <- E1, <- E2. clear E1 E2 s s1. destruct ip as [ip|].
  2: { left. apply bind_Ret_inv in H as (? & s3 & E3 & H). apply files_table in E3. by injection H as <- <-. }
  apply bind_Ret_inv in H as (? & s3 & E3 & H). apply files_table in E3. apply bind_Ret_inv in H as (q & s4 & E4 & H). apply files_table in E4. rewrite <- E3, <- E4. clear E3 E4 s2 s3.
  assert (Hbad : ∀ ip pt sz, exec_bad ip pt sz s4 = Ret r s' → r = -1 ∧ ptable s' = ptable s4) by (intros ???  Hb; split; [by eapply bad_result|by eapply bad_table]).
  destruct (negb (fst q =? _)); [left; by eapply Hbad|]. destruct (negb _); [left; by eapply Hbad|]. rewrite bind_gets in H.
  apply bind_Ret_inv in H as (pt & s5 & E5 & H). apply mm_table in E5. rewrite <- E5. clear Hbad E5 s4.
  assert (Hbad : ∀ ip pt sz s6, exec_bad ip pt sz s6 = Ret r s' → r = -1 ∧ ptable s' = ptable s6) by (intros ????  Hb; split; [by eapply bad_result|by eapply bad_table]).
  destruct (pt =? 0); [left; by eapply Hbad|]. apply bind_Ret_inv in H as ([ok sz] & s6 & E6 & H). apply load_table in E6. rewrite <- E6. clear E6 s5. destruct ok; cbn [negb] in H; [|left; by eapply Hbad].
  apply bind_Ret_inv in H as (? & s7 & E7 & H). apply files_table in E7. apply bind_Ret_inv in H as (? & s8 & E8 & H). apply files_table in E8. rewrite <- E7, <- E8. clear E7 E8 s6 s7.
  unfold exec_user in H. cbv zeta in H. apply bind_Ret_inv in H as (sz1 & s9 & E9 & H). apply mm_table in E9. rewrite <- E9. destruct (sz1 =? 0); [left; by eapply Hbad|].
  apply bind_Ret_inv in H as (? & s10 & E10 & H). apply mm_table in E10. apply bind_Ret_inv in H as (o & s11 & E11 & H). apply mm_table in E11. rewrite <- E10, <- E11.
  destruct o as [sp|]; [|left; by eapply Hbad]. right. apply commit_result in H as [-> Ht]. split; [done|]. by eexists _, _.
Qed.
End commit.

(** ** User memory that uvmalloc() adds *)

Section grow.
Context {I : image} {PA : PageAllocator} {IO : image_ok I}.
Context (s0 : mstate) (F0 : gset Z) (T0 : gmap Z (nat * Z)) (root a0 : Z) (perm : nat → Z) (C : nat → Z → byte).
Context (s : mstate) (F : gset Z) (T : gmap Z (nat * Z)) (ps : list Z).
Context (Hal : alloced s0 F0 T0 root a0 perm C s F T ps) (Hok0 : vm_ok s0 F0 T0 root) (Hu0 : uspace_ok (ms_mem s0) F0 T0 root).
Context (Ha : a0 mod PGSIZE = 0) (Ha0 : 0 ≤ a0) (Hmax : a0 + Z.of_nat (length ps) * PGSIZE ≤ MAXVA).
Context (Hperm : ∀ i, 0 ≤ perm i < 1024 ∧ Z.land (perm i) PTE_U ≠ 0).

(** [va] is in the page number [i] of those added. *)
Definition in_new (va : Z) (i : nat) : Prop := a0 + Z.of_nat i * PGSIZE ≤ va < a0 + Z.of_nat (S i) * PGSIZE.

Lemma new_or_old va : (∃ i p, ps !! i = Some p ∧ in_new va i) ∨ va < a0 ∨ a0 + Z.of_nat (length ps) * PGSIZE ≤ va.
Proof using Type.
  clear. destruct (decide (va < a0 ∨ a0 + Z.of_nat (length ps) * PGSIZE ≤ va)) as [|Hn]; [by right|left].
  unfold in_new, PGSIZE in *. pose proof (Z.div_mod (va - a0) 4096 ltac:(done)). pose proof (Z.mod_pos_bound (va - a0) 4096 ltac:(done)).
  pose proof (Z.div_pos (va - a0) 4096). destruct (lookup_lt_is_Some_2 ps (Z.to_nat ((va - a0) / 4096))) as [p Hp]; [lia|].
  exists (Z.to_nat ((va - a0) / 4096)), p. split; [done|lia].
Qed.

Lemma upa_new va i p : ps !! i = Some p → in_new va i → upa (ms_mem s) root va = p.
Proof using All.
  intros Hp Hin. pose proof (lookup_lt_Some _ _ _ Hp). destruct Hal as (_ & _ & _ & [_ Hps] & _ & Hget & _). rewrite Forall_lookup in Hps. destruct (Hps i p Hp) as [Hpok _].
  destruct (page_ok_pos p Hpok) as [Hp0 Hpa]. unfold upa, user_page. destruct (Z.leb_spec MAXVA va); [unfold in_new, PGSIZE in *; lia|].
  rewrite (Hget i p va Hp Hin). destruct (Hperm i) as [Hr HU]. destruct (pte_entry_facts p (perm i)) as (_ & -> & -> & Hfl); [lia|done|done|].
  rewrite flags_land, Hfl by done. rewrite Z.land_lor_distr_l. destruct (Z.eqb_spec (Z.lor (Z.land (perm i) PTE_U) (Z.land PTE_V PTE_U)) 0) as [Hz|]; [|done].
  apply Z.lor_eq_0_iff in Hz as [? _]. done.
Qed.
Lemma upa_old va : 0 ≤ va → va < a0 ∨ a0 + Z.of_nat (length ps) * PGSIZE ≤ va → upa (ms_mem s) root va = upa (ms_mem s0) root va.
Proof using Hal.
  intros Hva Hout. unfold upa. destruct (Z.leb_spec MAXVA va); [done|]. unfold user_page. destruct Hal as (_ & _ & _ & _ & _ & _ & Hg & _). by rewrite Hg by lia.
Qed.

Lemma new_page i p : ps !! i = Some p → page_ok p ∧ (p ∉ F) ∧ T !! p = None ∧ p ∈ F0 ∪ dom T0.
Proof using Hal.
  intros Hp. destruct Hal as (_ & _ & HX & [_ Hps] & _). rewrite Forall_lookup in Hps. destruct (Hps i p Hp) as (H1 & H2 & H3). split_and!; try done.
  rewrite <- HX. apply elem_of_union_r, elem_of_list_to_set. by eapply list_elem_of_lookup_2.
Qed.
Lemma old_apart va : 0 ≤ va → upa (ms_mem s0) root va ≠ 0 → upa (ms_mem s0) root va ∉ F0 ∪ dom T0.
Proof using Hu0. intros Hva Hne. destruct (Hu0 va Hva Hne) as (_ & H1 & H2 & _). intros [H|H]%elem_of_union; [done|]. apply elem_of_dom in H as [? H]. by rewrite H2 in H. Qed.
Lemma all_pages_ok q : q ∈ F0 ∪ dom T0 → page_ok q.
Proof using Hok0.
  destruct Hok0 as (Hpa & Hwf & _). intros [Hq|[[lv pre] Hq]%elem_of_dom]%elem_of_union; [by eapply pa_pages|]. destruct Hwf as (_ & Hok & _). by eapply Hok.
Qed.

Lemma grow_uspace : uspace_ok (ms_mem s) F T root.
Proof using All.
  intros va Hva Hne. destruct (new_or_old va) as [(i & p & Hp & Hin)|Hout].
  - rewrite (upa_new va i p Hp Hin). destruct (new_page i p Hp) as (H1 & H2 & H3 & H4). split_and!; try done. intros va' Hva' Heq.
    destruct (new_or_old va') as [(j & q & Hq & Hjn)|Hout']; cycle 1.
    { rewrite upa_old in Heq by done. destruct (old_apart va' Hva'); rewrite Heq; [apply page_ok_pos in H1; lia|done]. }
    rewrite (upa_new va' j q Hq Hjn) in Heq. subst q. destruct Hal as (_ & _ & _ & [Hnd _] & _). pose proof (NoDup_lookup _ _ _ _ Hnd Hp Hq) as <-.
    unfold in_new, PGSIZE in *. pose proof (Z.div_mod a0 4096 ltac:(done)). rewrite <- (Z.div_unique va 4096 (a0 / 4096 + Z.of_nat i) (va - (a0 + Z.of_nat i * 4096))) by lia.
    symmetry. apply (Z.div_unique va' 4096 (a0 / 4096 + Z.of_nat i) (va' - (a0 + Z.of_nat i * 4096))); lia.
  - rewrite upa_old in * by done. pose proof (old_apart va Hva Hne) as Hap. destruct (Hu0 va Hva Hne) as (H1 & H2 & H3 & H4). destruct Hal as (_ & _ & HX & _). split_and!; [done| | |].
    + intros HF. apply Hap. rewrite <- HX. by apply elem_of_union_l, elem_of_union_l.
    + apply eq_None_not_Some. intros HT. apply Hap. rewrite <- HX. by apply elem_of_union_l, elem_of_union_r, elem_of_dom.
    + intros va' Hva' Heq. destruct (new_or_old va') as [(j & q & Hq & Hjn)|Hout']; [|apply H4; [done|by rewrite <- (upa_old va')]].
      rewrite (upa_new va' j q Hq Hjn) in Heq. subst q. destruct Hap. by apply (new_page j).
Qed.

Lemma page_side x : (PGROUNDDOWN x < a0 ↔ x < a0) ∧ (a0 + Z.of_nat (length ps) * PGSIZE ≤ PGROUNDDOWN x ↔ a0 + Z.of_nat (length ps) * PGSIZE ≤ x).
Proof using Ha.
  pose proof (PGROUNDDOWN_bounds x). pose proof (PGROUNDDOWN_aligned x) as Hd. unfold PGSIZE in *. pose proof (Z.div_mod a0 4096 ltac:(done)). pose proof (Z.div_mod (PGROUNDDOWN x) 4096 ltac:(done)). lia.
Qed.

(** The memory the process had is as it was ... *)
Lemma grow_old x : 0 ≤ x → x < a0 ∨ a0 + Z.of_nat (length ps) * PGSIZE ≤ x → uview (ms_mem s) root x = uview (ms_mem s0) root x.
Proof using All.
  intros Hx Hout. pose proof (PGROUNDDOWN_nonneg x Hx) as H0. pose proof (page_side x). unfold uview. rewrite upa_old by (lia || done). destruct (Z.eqb_spec (upa (ms_mem s0) root (PGROUNDDOWN x)) 0) as [|Hne]; [done|].
  f_equal. destruct Hal as (_ & _ & _ & _ & Hfr & _). apply Hfr. intros q Hq Hin. apply (old_apart _ H0 Hne). destruct (Hu0 _ H0 Hne) as (Hpok & _).
  replace (upa (ms_mem s0) root (PGROUNDDOWN x)) with q; [done|]. apply (in_page_unique q (upa (ms_mem s0) root (PGROUNDDOWN x)) (upa (ms_mem s0) root (PGROUNDDOWN x) + (x - PGROUNDDOWN x))); [by apply page_ok_pos, all_pages_ok|by apply page_ok_pos|done|].
  pose proof (PGROUNDDOWN_bounds x). unfold in_page. lia.
Qed.
(** ... and the new pages have their contents. *)
Lemma grow_new x i : (i < length ps)%nat → in_new x i → uview (ms_mem s) root x = Some (C i (x - PGROUNDDOWN x)).
Proof using All.
  intros Hi Hin. destruct (lookup_lt_is_Some_2 _ _ Hi) as [p Hp]. assert (Hd : PGROUNDDOWN x = a0 + Z.of_nat i * PGSIZE).
  { unfold in_new in Hin. apply PGROUNDDOWN_in; [unfold PGSIZE in *; rewrite Z.mod_add by done; done|lia]. }
  unfold uview. rewrite (upa_new (PGROUNDDOWN x) i p Hp); [|unfold in_new, PGSIZE; rewrite Hd; unfold PGSIZE; lia]. destruct (new_page i p Hp) as (Hpok & _).
  destruct (Z.eqb_spec p 0); [apply page_ok_pos in Hpok; lia|]. f_equal. destruct Hal as (_ & _ & _ & _ & _ & _ & _ & HC). apply HC; [done|]. unfold in_new in Hin. unfold PGSIZE in *. lia.
Qed.
End grow.

(** ** The arguments sys_exec() passes *)

Lemma fetch_args_short {I : image} {PA : PageAllocator} {FL : FileLayer} k me uargv i s pages argv s' :
  fetch_args k me uargv i s = Ret (pages, Some argv) s' → (length argv < k)%nat.
Proof.
  revert i s pages argv s'. induction k as [|k IH]; intros i s pages argv s' E; cbn [fetch_args] in E; [done|].
  apply bind_Ret_inv in E as ([uarg|] & s1 & _ & E); [|done]. destruct (uarg =? 0); [injection E as _ <- _; simpl; lia|].
  apply bind_Ret_inv in E as (pa & s2 & _ & E). destruct (pa =? 0); [done|]. apply bind_Ret_inv in E as ([str|] & s3 & _ & E); [|done].
  apply bind_Ret_inv in E as (u & s4 & _ & E). apply bind_Ret_inv in E as ([pgs [l|]] & s5 & E5 & E); [|done].
  injection E as _ <- _. apply IH in E5. simpl. lia.
Qed.

(** ** exec() and the open files *)

(** exec() keeps what all the functions of the file layer it calls keep, and
    every process's descriptors. *)
Section open_files.
Context {I : image} {PA : PageAllocator} {FL : FileLayer} {EF : ExecFiles} (P : fl_state → Prop).
Definition fkeep {A} (m : M fl_state A) : Prop := tri P m (λ _, P).
Context (Hbegin : fkeep fl_begin_op) (Hend : fkeep fl_end_op) (Hnamei : ∀ path, fkeep (fl_namei path)).
Context (Hilock : ∀ ip, fkeep (ex_ilock ip)) (Hreadi : ∀ ip off n, fkeep (ex_readi ip off n)) (Hput : ∀ ip, fkeep (ex_iunlockput ip)).

Definition files_as (l : list (list (option nat))) (s : pkstate) : Prop := P (pk_files s) ∧ p_ofile <$> ptable s = l.
Definition exec_keeps {A} (m : M pkstate A) : Prop := ∀ l, tri (files_as l) m (λ _, files_as l).

Lemma xk_bind {A C} (m : M pkstate A) (k : A → M pkstate C) : exec_keeps m → (∀ a, exec_keeps (k a)) → exec_keeps (m ≫= k).
Proof. intros Hm Hk l. eapply tri_bind; [apply Hm|intros a; apply Hk]. Qed.
Lemma xk_ret {A} (a : A) : exec_keeps (mret a).
Proof. intros l. by apply tri_ret. Qed.
Lemma xk_panic {A} msg : exec_keeps (panic msg : M pkstate A).
Proof. intros l. apply tri_panic. Qed.
Lemma xk_no_fuel {A} : exec_keeps (no_fuel : M pkstate A).
Proof. by intros l s a s'. Qed.
Lemma xk_gets {A} (f : pkstate → A) : exec_keeps (gets f).
Proof. intros l s a s' H [= <- <-]. done. Qed.
Lemma xk_mm {A} (m : M mstate A) : exec_keeps (mm m).
Proof. intros l. by apply tri_zoom. Qed.
Lemma xk_call {A} (m : M fl_state A) : fkeep m → exec_keeps (files m).
Proof. intros Hm l s a s' [HP Hl] (t & E & ->)%zoom_Ret_inv. split; [|done]. exact (Hm _ _ _ HP E). Qed.
Lemma xk_updp i f : (∀ p, p_ofile (f p) = p_ofile p) → exec_keeps (updp i f).
Proof.
  intros Hf l. apply tri_modify. intros s [HP Hl]. split; [done|]. cbn [set_ptable ptable]. rewrite <- Hl. apply list_eq. intros j.
  rewrite !list_lookup_fmap. destruct (decide (i = j)) as [->|]; [|by rewrite list_lookup_alter_ne]. rewrite list_lookup_alter_eq.
  destruct (ptable s !! j) as [p|]; [|done]. cbn. by rewrite Hf.
Qed.

Ltac keeps :=
  repeat match goal with
  | |- exec_keeps (_ ≫= _) => apply xk_bind; [|intros ?]
  | |- exec_keeps (if ?x then _ else _) => destruct x
  | |- exec_keeps (match ?x with _ => _ end) => destruct x
  | |- exec_keeps (mret _) => apply xk_ret
  | |- exec_keeps (panic _) => apply xk_panic
  | |- exec_keeps no_fuel => apply xk_no_fuel
  | |- exec_keeps (gets _) => apply xk_gets
  | |- exec_keeps (mm _) => apply xk_mm
  | |- exec_keeps (updp _ _) => by apply xk_updp
  | |- exec_keeps (files _) => apply xk_call; by eauto
  end.

Lemma loadseg_keeps k pt va ip off sz i : exec_keeps (loadseg_loop k pt va ip off sz i).
Proof. revert i. induction k as [|k IH]; intros i; cbn [loadseg_loop]; keeps. apply IH. Qed.
Lemma exec_load_keeps k pt ip off sz : exec_keeps (exec_load k pt ip off sz).
Proof. revert off sz. induction k as [|k IH]; intros off sz; cbn [exec_load]; keeps; try apply IH. apply loadseg_keeps. Qed.
Lemma exec_bad_keeps ip pt sz : exec_keeps (exec_bad ip pt sz).
Proof. unfold exec_bad. keeps. Qed.
Lemma exec_user_keeps me path argv pt sz entry : exec_keeps (exec_user me path argv pt sz entry).
Proof. unfold exec_user, exec_commit. keeps; apply exec_bad_keeps. Qed.
Lemma exec_all_keeps me path argv : exec_keeps (exec me path argv).
Proof. unfold exec. keeps; try apply exec_bad_keeps; [apply exec_load_keeps|apply exec_user_keeps]. Qed.
Lemma free_args_keeps pages : exec_keeps (free_args pages).
Proof. induction pages; cbn [free_args]; keeps. done. Qed.
Lemma fetch_args_keeps k me uargv i : exec_keeps (fetch_args k me uargv i).
Proof. revert i. induction k as [|k IH]; intros i; cbn [fetch_args]; unfold fetchaddr, fetchstr; keeps. apply IH. Qed.
Lemma sys_exec_keeps me : exec_keeps (sys_exec me).
Proof.
  unfold sys_exec, sysargstr, sysargaddr, argraw, fetchstr. keeps; try apply free_args_keeps; [apply fetch_args_keeps|apply exec_all_keeps].
Qed.
End open_files.

(** ** loadseg() *)

(** What the file layer promises exec() of a file: [rf_file ip D] says that the
    inode [ip] is locked and has the contents [D]; reads return its bytes, cut
    at its end, and leave it so. *)
Class ReadFile {FL : FileLayer} {EF : ExecFiles} := {
  rf_file : nat → list byte → fl_state → Prop;
  rf_readi ip D fl off n : rf_file ip D fl → 0 ≤ off → 0 ≤ n → off + n < 2 ^ 32 → ∃ fl',
    let l := take (Z.to_nat n) (drop (Z.to_nat off) D) in
    ex_readi ip off n fl = Ret (Z.of_nat (length l), l) fl' ∧ rf_file ip D fl'
}.

Section load.
Context {I : image} {PA : PageAllocator} {IO : image_ok I} {FL : FileLayer} {EF : ExecFiles} {RF : ReadFile}.
Context (F : gset Z) (T : gmap Z (nat * Z)) (root : Z).

(** The state between two pages. *)
Record loading (s : pkstate) (ip : nat) (D : list byte) (lo hi : Z) : Prop := {
  ld_vm : vm_ok (pk_mem s) F T root;
  ld_user : uspace_ok (ms_mem (pk_mem s)) F T root;
  ld_mapped : stack_mapped root (ms_mem (pk_mem s)) lo hi;
  ld_file : rf_file ip D (pk_files s)
}.

Lemma written_mapped m m' va l lo hi : 0 ≤ lo → written m m' root va l → stack_mapped root m lo hi → stack_mapped root m' lo hi.
Proof.
  intros Hlo Hw Hm x Hx. rewrite Hw by lia. destruct (_ && _) eqn:Ein; [|by apply Hm].
  apply andb_true_iff in Ein as [H1%Z.leb_le H2%Z.ltb_lt]. apply lookup_lt_is_Some_2. lia.
Qed.

(** One page: the bytes [l], at most a page of them, at the page-aligned [x]. *)
Lemma store_page s ip D lo hi x l : loading s ip D lo hi → 0 ≤ lo → lo ≤ x < hi → hi ≤ MAXVA → x mod PGSIZE = 0 → Z.of_nat (length l) ≤ PGSIZE → ∃ pa,
  pa ≠ 0 ∧ mm (walkaddr root (u64 x)) s = Ret pa s ∧
  ∀ fl, rf_file ip D fl → let m' := store_bytes (ms_mem (pk_mem s)) pa l in
    let s' := set_pk_mem (set_mem m' (pk_mem s)) (set_pk_files fl s) in
    loading s' ip D lo hi ∧ same_get (ms_mem (pk_mem s)) m' root ∧ written (ms_mem (pk_mem s)) m' root x l.
Proof.
  intros [Hok Hu Hm Hf] Hlo Hx Hhi Hal Hl. assert (Hpd : PGROUNDDOWN x = x).
  { rewrite PGROUNDDOWN_div. unfold PGSIZE in Hal. pose proof (Z.div_mod x 4096 ltac:(done)). lia. }
  assert (Hu64 : u64 x = x) by (apply u64_id; rewrite MAXVA_pow in Hhi; lia).
  exists (upa (ms_mem (pk_mem s)) root x). assert (Hne : upa (ms_mem (pk_mem s)) root x ≠ 0).
  { intros Hz. destruct (Hm x Hx) as [b Eb]. unfold uview in Eb. by rewrite Hpd, Hz in Eb. }
  split; [exact Hne|]. split.
  { rewrite Hu64. unfold mm. rewrite (zoom_Ret pk_mem set_pk_mem _ s _ _ (walkaddr_upa (pk_mem s) T root x (proj1 (proj2 Hok)) ltac:(lia))). by destruct s. }
  intros fl Hfl m' s'. destruct (uview_store (pk_mem s) F T root x l) as (Hok1 & Hsg1 & Hw1 & _); [done|done|lia|by rewrite Hpd|rewrite Hpd; lia|].
  rewrite Hpd, Z.sub_diag, Z.add_0_r in Hok1, Hsg1, Hw1. fold m' in Hok1, Hsg1, Hw1. split; [|done]. split; cbn [s' pk_mem set_pk_mem set_pk_files pk_files set_mem ms_mem].
  - exact Hok1.
  - by eapply uspace_same_get.
  - exact (written_mapped _ _ _ _ _ _ Hlo Hw1 Hm).
  - exact Hfl.
Qed.

Lemma take_drop_next {A} (D : list A) off n m : take (n + m) (drop off D) = take n (drop off D) ++ take m (drop (off + n) D).
Proof. by rewrite <- drop_drop, take_take_drop. Qed.

(** From page [i] on: the bytes of the segment that the file has are in
    place, all of them when the result is 0. *)
Lemma loadseg_loop_run k va ip off sz D i s : loading s ip D va (va + sz) → 0 ≤ va → va + sz ≤ MAXVA → va mod PGSIZE = 0 →
  0 ≤ off → off + sz < 2 ^ 32 → 0 ≤ i → i mod PGSIZE = 0 → sz - i ≤ Z.of_nat k * PGSIZE → ∃ r s' w,
  loadseg_loop k root va ip off sz i s = Ret r s' ∧ loading s' ip D va (va + sz) ∧ ptable s' = ptable s ∧
  same_get (ms_mem (pk_mem s)) (ms_mem (pk_mem s')) root ∧ written (ms_mem (pk_mem s)) (ms_mem (pk_mem s')) root (va + i) w ∧
  Z.of_nat (length w) ≤ Z.max 0 (sz - i) ∧
  (r = 0 ∧ w = take (Z.to_nat (sz - i)) (drop (Z.to_nat (off + i)) D) ∧ Z.of_nat (length w) = Z.max 0 (sz - i) ∨
   r = -1 ∧ i < sz ∧ Z.of_nat (length D) < off + sz).
Proof.
  revert i s. induction k as [|k IH]; intros i s Hld Hva Hhi Hal Hoff Hsz Hi Hia Hk; cbn [loadseg_loop]; destruct (Z.ltb_spec i sz) as [Hlt|Hge].
  1: lia.
  1,3: exists 0, s, []; split_and!; [done|done|done|by intros ?|apply written_nil|simpl; lia|left; split; [done|]; replace (Z.to_nat (sz - i)) with 0%nat by lia; simpl; split; [done|lia]].
  set (n := if sz - i <? PGSIZE then sz - i else PGSIZE).
  assert (Hn : 0 < n ≤ PGSIZE ∧ n ≤ sz - i ∧ (n = sz - i ∨ n = PGSIZE)) by (unfold n, PGSIZE; destruct (Z.ltb_spec (sz - i) 4096); lia).
  destruct (rf_readi ip D (pk_files s) (off + i) n (ld_file _ _ _ _ _ Hld)) as (fl & Er & Hfl); [lia|lia|lia|]. cbv zeta in Er.
  set (l := take (Z.to_nat n) (drop (Z.to_nat (off + i)) D)) in *. assert (Hll : Z.of_nat (length l) ≤ n) by (unfold l; rewrite length_take; lia).
  assert (Hxa : (va + i) mod PGSIZE = 0) by (rewrite Z.add_mod, Hal, Hia by done; done).
  destruct (store_page s ip D va (va + sz) (va + i) l Hld Hva) as (pa & Hpa & Ew & Hst); [lia|done|done|lia|]. destruct (Hst fl Hfl) as (Hld1 & Hsg1 & Hw1). clear Hst.
  rewrite (bind_Ret _ _ _ _ _ Ew), (proj2 (Z.eqb_neq _ _) Hpa). cbv zeta. fold n.
  rewrite (u32_id (off + i)) by lia. rewrite (bind_Ret _ _ _ _ _ (zoom_Ret pk_files set_pk_files _ s _ _ Er)). cbn [fst snd].
  erewrite bind_Ret by (apply zoom_Ret; reflexivity). set (s1 := set_pk_mem _ _) in *.
  destruct (Z.eqb_spec (Z.of_nat (length l)) n) as [Hfull|Hshort]; cbn [negb].
  - destruct (IH (i + PGSIZE) s1 Hld1) as (r & s' & w & E & Hld' & Ht & Hsg & Hw & Hlw & Hr); try done; try lia.
    { unfold PGSIZE in *. by rewrite <- Z.add_mod_idemp_r, Z.add_0_r by done. }
    exists r, s', (l ++ w). split; [exact E|]. split; [exact Hld'|]. split; [exact Ht|]. split; [intros y Hy; rewrite Hsg by done; by apply Hsg1|].
    assert (Hnw : n = PGSIZE ∨ w = []) by (destruct Hn as (Hn1 & Hn2 & [Hn|Hn]); [right; apply length_zero_iff_nil; lia|by left]).
    split; [|split].
    + destruct Hnw as [Hnp| ->]; [eapply written_app; [exact Hw1|]; rewrite Hfull, Hnp, <- Z.add_assoc; exact Hw|]. rewrite app_nil_r. intros y Hy. rewrite <- (Hw1 y Hy).
      rewrite (Hw y Hy). destruct (Z.leb_spec (va + (i + PGSIZE)) y), (Z.ltb_spec y (va + (i + PGSIZE) + Z.of_nat (length (A := byte) []))) as [Hy'|]; cbn [andb]; try done. simpl in Hy'. lia.
    + rewrite length_app. destruct Hnw as [Hnp| ->]; [|simpl; lia]. lia.
    + destruct Hr as [(-> & Ewd & Hlen)|(-> & Hlt' & HD)]; [left|right; split_and!; [done|lia|done]]. split; [done|]. rewrite length_app.
      destruct Hnw as [Hnp|Hw0].
      * split; [|lia]. replace (Z.to_nat (sz - i)) with (Z.to_nat n + Z.to_nat (sz - (i + PGSIZE)))%nat by lia. rewrite take_drop_next. fold l. f_equal. rewrite Ewd. f_equal. f_equal. lia.
      * rewrite Hw0 in Hlen |- *. rewrite app_nil_r. simpl in Hlen. simpl. replace (sz - i) with n by lia. split; [done|lia].
  - exists (-1), s1, l. split; [reflexivity|]. split; [exact Hld1|]. split; [done|]. split; [exact Hsg1|]. split; [exact Hw1|]. split; [lia|]. right. split_and!; [done|done|].
    unfold l in Hshort. rewrite length_take, length_drop in Hshort. lia.
Qed.

(** loadseg() with its pages mapped never panics.  It returns 0 when the
    file has the whole segment, which the program then finds at its
    addresses, the rest of its memory being as before, and -1 when the file
    is too short, having touched no memory outside the segment. *)
Theorem loadseg_loads s va ip off sz D : loading s ip D va (va + sz) → 0 ≤ va → va + sz ≤ MAXVA → va mod PGSIZE = 0 → 0 ≤ off → 0 < sz → off + sz < 2 ^ 32 → ∃ s',
  loadseg root va ip off sz s = Ret (if off + sz <=? Z.of_nat (length D) then 0 else -1) s' ∧ loading s' ip D va (va + sz) ∧ ptable s' = ptable s ∧
  same_get (ms_mem (pk_mem s)) (ms_mem (pk_mem s')) root ∧ same_outside (ms_mem (pk_mem s)) (ms_mem (pk_mem s')) root va (va + sz) ∧
  (off + sz ≤ Z.of_nat (length D) → holds (ms_mem (pk_mem s')) root va (take (Z.to_nat sz) (drop (Z.to_nat off) D))).
Proof.
  intros Hld Hva Hhi Hal Hoff Hsz Hb.
  destruct (loadseg_loop_run (Z.to_nat (sz / PGSIZE) + 1) va ip off sz D 0 s) as (r & s' & w & E & Hld' & Ht & Hsg & Hw & Hlw & Hr); try done.
  { unfold PGSIZE. pose proof (Z.div_mod sz 4096 ltac:(done)). pose proof (Z.mod_pos_bound sz 4096 ltac:(done)). pose proof (Z.div_pos sz 4096). lia. }
  rewrite Z.add_0_r in Hw. rewrite Z.sub_0_r, Z.add_0_r in Hr. rewrite Z.sub_0_r in Hlw. exists s'.
  assert (Er : r = if off + sz <=? Z.of_nat (length D) then 0 else -1).
  { destruct Hr as [(-> & Ew & Hlen)|(-> & _ & HD)]; destruct (Z.leb_spec (off + sz) (Z.of_nat (length D))); try done; [|lia].
    rewrite Ew, length_take, length_drop in Hlen. lia. }
  rewrite <- Er. split_and!; try done.
  - apply written_outside in Hw. eapply outside_wider; [exact Hw|lia|lia].
  - intros HD. destruct Hr as [(_ & <- & _)|(_ & _ & ?)]; [|lia]. by apply (written_holds (ms_mem (pk_mem s))).
Qed.
End load.

(** ** The program headers *)

Section headers.
Context {I : image} {PA : PageAllocator} {IO : image_ok I} {FL : FileLayer} {EF : ExecFiles} {RF : ReadFile}.
Context (root : Z) (ip : nat) (D : list byte) (top : Z) (Htop : top ≤ MAXVA).

(** The process has memory up to [sz], and there is room for it up to [top]. *)
Record umem (s : pkstate) (F : gset Z) (T : gmap Z (nat * Z)) (sz : Z) : Prop := {
  um_load : loading F T root s ip D 0 (PGROUNDUP sz);
  um_room : uvm_room (ms_mem (pk_mem s)) root sz top;
  um_sz : 0 ≤ sz ≤ top
}.

Lemma undone_alloced s0 F0 T0 s F T a0 perm C : undone s0 F0 T0 root s F T → alloced s0 F0 T0 root a0 perm C s F T [].
Proof.
  clear. intros (H1 & H2 & H3 & H4 & H5). split_and!; try done.
  - rewrite <- H3. simpl. clear. set_solver.
  - apply NoDup_nil_2.
  - intros va Hva _. by apply H5.
Qed.

Lemma flags_user xperm i : 0 ≤ xperm < 1024 → 0 ≤ uvm_perm xperm i < 1024 ∧ Z.land (uvm_perm xperm i) PTE_U ≠ 0.
Proof.
  clear. intros Hx. split; [by apply uvm_perm_ok|]. unfold uvm_perm. rewrite !Z.land_lor_distr_l. intros [Hz _]%Z.lor_eq_0_iff. apply Z.lor_eq_0_iff in Hz as [_ Hz]. done.
Qed.

(** What [umem] keeps when pages are added, or when that is undone. *)
Lemma umem_alloced s F T sz m' F' T' ps perm : umem s F T sz → alloced (pk_mem s) F T root (PGROUNDUP sz) perm zero_page m' F' T' ps →
  (∀ i, 0 ≤ perm i < 1024 ∧ Z.land (perm i) PTE_U ≠ 0) → ∀ new, sz ≤ new ≤ top → PGROUNDUP sz + Z.of_nat (length ps) * PGSIZE = PGROUNDUP new →
  umem (set_pk_mem m' s) F' T' new ∧ (∀ x, 0 ≤ x < PGROUNDUP sz → uview (ms_mem m') root x = uview (ms_mem (pk_mem s)) root x) ∧
  (∀ x, PGROUNDUP sz ≤ x < PGROUNDUP new → uview (ms_mem m') root x = Some Byte.x00).
Proof using Htop IO.
  intros [[Hok Hu Hm Hf] Hroom Hsz] Hal Hperm new Hnew Hend. destruct (PGROUNDUP_range sz) as (Hr1 & Hr2 & _); [lia|]. destruct (PGROUNDUP_range new) as (_ & _ & Hr3); [lia|].
  assert (Hb : PGROUNDUP sz + Z.of_nat (length ps) * PGSIZE ≤ MAXVA) by lia. assert (H0 : 0 ≤ PGROUNDUP sz) by lia.
  assert (Hle : PGROUNDUP sz ≤ PGROUNDUP new) by (rewrite <- Hend; unfold PGSIZE; lia).
  pose proof (grow_uspace _ _ _ _ _ _ _ _ _ _ _ Hal Hok Hu Hr2 H0 Hb Hperm) as Hu'.
  assert (Hold : ∀ x, 0 ≤ x < PGROUNDUP sz → uview (ms_mem m') root x = uview (ms_mem (pk_mem s)) root x).
  { intros x Hx. eapply grow_old; try done; lia. }
  assert (Hnewv : ∀ x, PGROUNDUP sz ≤ x < PGROUNDUP new → uview (ms_mem m') root x = Some Byte.x00).
  { intros x Hx. destruct (new_or_old (PGROUNDUP sz) ps x) as [(i & p & Hp & Hin)|?]; [|lia]. eapply (grow_new _ _ _ _ _ _ _ _ _ _ _ Hal) in Hin; try done. by eapply lookup_lt_Some. }
  split; [|done]. split; [split|..]; cbn [pk_mem set_pk_mem pk_files].
  - apply Hal.
  - exact Hu'.
  - intros x Hx. destruct (Z.lt_ge_cases x (PGROUNDUP sz)); [rewrite Hold by lia; apply Hm; lia|rewrite Hnewv by lia; by eexists].
  - exact Hf.
  - intros va Hva. destruct Hal as (_ & _ & _ & _ & _ & _ & Hg & _). destruct (PGROUNDUP_range top) as (_ & _ & Ht3); [lia|]. rewrite Hg; [apply Hroom; lia|lia|lia].
  - lia.
Qed.

Lemma grow_run s F T sz new xperm : umem s F T sz → sz ≤ new ≤ top → 0 ≤ xperm < 1024 → ∃ r m' F' T',
  mm (uvmalloc root sz new xperm) s = Ret r (set_pk_mem m' s) ∧
  (r = new ∧ (size F ≤ size F' + 3 * uvm_pages sz new)%nat ∧ umem (set_pk_mem m' s) F' T' new ∧ (∀ x, 0 ≤ x < PGROUNDUP sz → uview (ms_mem m') root x = uview (ms_mem (pk_mem s)) root x) ∧
     (∀ x, PGROUNDUP sz ≤ x < PGROUNDUP new → uview (ms_mem m') root x = Some Byte.x00) ∨
   r = 0 ∧ (size F ≤ 3 * uvm_pages sz new)%nat ∧ umem (set_pk_mem m' s) F' T' sz).
Proof using Htop IO.
  intros Hum Hnew Hx. pose proof Hum as [[Hok Hu Hm Hf] Hroom Hsz].
  destruct (uvmalloc_spec (pk_mem s) F T root sz new xperm) as (r & m' & F' & T' & E & Hr); [done|lia|lia|done|intros va Hva; apply Hroom|].
  { destruct (PGROUNDUP_range new) as (H1 & H2 & _); [lia|]. destruct (PGROUNDUP_range top) as (H3 & H4 & _); [lia|]. unfold PGSIZE in *.
    pose proof (Z.div_mod (PGROUNDUP new) 4096 ltac:(done)). pose proof (Z.div_mod (PGROUNDUP top) 4096 ltac:(done)). lia. }
  exists r, m', F', T'. split; [by apply zoom_Ret|]. destruct Hr as [(-> & Hfew & ps & Hl & Hal)|(-> & Hun & Hfew)]; [left|right]; (split; [done|]); (split; [done|]).
  - eapply umem_alloced; [done|done|intros i; by apply flags_user|done|]. rewrite Hl. apply uvm_pages_end; lia.
  - eapply (umem_alloced s F T sz m' F' T' [] (λ _, uvm_perm xperm 0)); [done|by apply undone_alloced|intros _; by apply flags_user|lia|simpl; lia].
Qed.

(** The bytes of a segment: what the file has of it, and zeros. *)
Definition seg_bytes (h : proghdr) : list byte :=
  take (Z.to_nat (ph_filesz h)) (drop (Z.to_nat (ph_off h)) D) ++ replicate (Z.to_nat (ph_memsz h - ph_filesz h)) Byte.x00.
(** A segment that exec() accepts above [sz], with all its bytes in the file. *)
Definition seg_ok (sz : Z) (h : proghdr) : Prop :=
  sz ≤ ph_vaddr h ∧ ph_vaddr h mod PGSIZE = 0 ∧ 0 ≤ ph_filesz h ≤ ph_memsz h ∧ 0 < ph_memsz h ∧ ph_vaddr h + ph_memsz h ≤ top ∧
  0 ≤ ph_off h ∧ ph_off h + ph_filesz h ≤ Z.of_nat (length D) ∧ ph_off h + ph_filesz h < 2 ^ 32.

Lemma umem_narrow s F T sz lo hi : umem s F T sz → 0 ≤ lo → hi ≤ PGROUNDUP sz → loading F T root s ip D lo hi.
Proof using Type. intros [[H1 H2 H3 H4] _ _] Hlo Hhi. split; try done. intros x Hx. apply H3. lia. Qed.

(** The bytes the file has of a segment below [sz]. *)
Lemma load_run s F T sz va off n : umem s F T sz → 0 ≤ va → va mod PGSIZE = 0 → 0 ≤ n → va + n ≤ sz → 0 ≤ off → off + n ≤ Z.of_nat (length D) → off + n < 2 ^ 32 → ∃ s',
  loadseg root va ip off n s = Ret 0 s' ∧ umem s' F T sz ∧ ptable s' = ptable s ∧
  written (ms_mem (pk_mem s)) (ms_mem (pk_mem s')) root va (take (Z.to_nat n) (drop (Z.to_nat off) D)).
Proof using Htop IO.
  intros Hum Hva Hal Hn Hsz Hoff HD H32. pose proof Hum as [Hl Hroom Hb]. destruct (PGROUNDUP_range sz) as (Hr & _ & _); [lia|].
  destruct (loadseg_loop_run F T root (Z.to_nat (n / PGSIZE) + 1) va ip off n D 0 s) as (r & s' & w & E & Hld' & Ht & Hsg & Hw & Hlw & Hres); try done; try lia.
  { apply (umem_narrow s F T sz); [done|done|lia]. }
  { unfold PGSIZE. pose proof (Z.div_mod n 4096 ltac:(done)). pose proof (Z.mod_pos_bound n 4096 ltac:(done)). pose proof (Z.div_pos n 4096). lia. }
  rewrite Z.add_0_r, Z.sub_0_r in *. destruct Hres as [(-> & -> & _)|(_ & _ & ?)]; [|lia]. exists s'. split; [exact E|]. split; [|done].
  destruct Hld' as [H1 H2 _ H4]. split; [split; [done|done| |done]|..].
  - exact (written_mapped root _ _ _ _ 0 (PGROUNDUP sz) ltac:(done) Hw (ld_mapped _ _ _ _ _ _ _ _ Hl)).
  - intros x Hx. destruct (PGROUNDUP_range top) as (_ & _ & ?); [lia|]. rewrite Hsg by lia. by apply Hroom.
  - done.
Qed.

Lemma flags2perm_small f : 0 ≤ flags2perm f < 1024.
Proof. unfold flags2perm. by destruct (_ =? 0), (_ =? 0). Qed.

Lemma replicate_lookup_byte n j b : replicate n Byte.x00 !! j = Some b → b = Byte.x00.
Proof. by intros [-> _]%lookup_replicate. Qed.

(** A segment in place, over zeros. *)
Lemma seg_placed m m' h : 0 ≤ ph_vaddr h → 0 ≤ ph_filesz h ≤ ph_memsz h → 0 ≤ ph_off h → ph_off h + ph_filesz h ≤ Z.of_nat (length D) →
  (∀ x, ph_vaddr h ≤ x < ph_vaddr h + ph_memsz h → uview m root x = Some Byte.x00) →
  written m m' root (ph_vaddr h) (take (Z.to_nat (ph_filesz h)) (drop (Z.to_nat (ph_off h)) D)) → holds m' root (ph_vaddr h) (seg_bytes h).
Proof.
  intros Hva Hsz Hoff HD Hz Hw j b Hj. set (l := take _ _) in *. assert (Hl : Z.of_nat (length l) = ph_filesz h) by (unfold l; rewrite length_take, length_drop; lia).
  unfold seg_bytes in Hj. fold l in Hj. rewrite Hw by lia. rewrite Hl. apply lookup_app_Some in Hj as [Hj|[Hge Hj]].
  - pose proof (lookup_lt_Some _ _ _ Hj). rewrite (proj2 (Z.leb_le _ _)), (proj2 (Z.ltb_lt _ _)) by lia. cbn [andb]. by replace (Z.to_nat (ph_vaddr h + Z.of_nat j - ph_vaddr h)) with j by lia.
  - pose proof (lookup_lt_Some _ _ _ Hj) as Hlt. rewrite length_replicate in Hlt. apply replicate_lookup_byte in Hj as ->.
    rewrite (proj2 (Z.ltb_ge _ (_ + ph_filesz h))) by lia. rewrite andb_false_r. apply Hz. lia.
Qed.

(** The program headers of the file: [k] of them from offset [off] on. *)
Fixpoint headers_at (k : nat) (off : Z) : list proghdr :=
  match k with
  | O => []
  | S k => get_proghdr (take 56 (drop (Z.to_nat off) D)) :: headers_at k (off + sizeof_proghdr)
  end.
Definition is_load (h : proghdr) : bool := ph_type h =? ELF_PROG_LOAD.
Fixpoint segs_ok (sz : Z) (hs : list proghdr) : Prop :=
  match hs with
  | [] => True
  | h :: hs => if is_load h then seg_ok sz h ∧ segs_ok (ph_vaddr h + ph_memsz h) hs else segs_ok sz hs
  end.
Fixpoint image_end (sz : Z) (hs : list proghdr) : Z :=
  match hs with
  | [] => sz
  | h :: hs => image_end (if is_load h then ph_vaddr h + ph_memsz h else sz) hs
  end.

Lemma image_end_ge hs : ∀ sz, sz ≤ top → segs_ok sz hs → sz ≤ image_end sz hs ≤ top.
Proof using Type.
  induction hs as [|h hs IH]; intros sz Hsz Hok; cbn [image_end segs_ok] in *; [lia|]. destruct (is_load h); [|by apply IH].
  destruct Hok as [(H1 & _ & H2 & H3 & H4 & _) Hok]. destruct (IH _ H4 Hok). lia.
Qed.
Lemma uvm_pages_add a b c : 0 ≤ a ≤ b → b ≤ c → c ≤ MAXVA → uvm_pages a c = (uvm_pages a b + uvm_pages b c)%nat.
Proof using Type.
  clear. intros Hab Hbc Hc. pose proof (uvm_pages_end a b) as H1. pose proof (uvm_pages_end b c) as H2. pose proof (uvm_pages_end a c) as H3. unfold PGSIZE in *. lia.
Qed.
Lemma umem_files s F T sz fl : umem s F T sz → rf_file ip D fl → umem (set_pk_files fl s) F T sz.
Proof using Type. intros [[H1 H2 H3 H4] H5 H6] Hfl. by split. Qed.

(** One segment: memory for it, and its bytes. *)
Lemma segment_run s F T sz h : umem s F T sz → seg_ok sz h → let new := ph_vaddr h + ph_memsz h in ∃ r m1 F' T',
  mm (uvmalloc root sz new (flags2perm (ph_flags h))) s = Ret r (set_pk_mem m1 s) ∧
  (r = 0 ∧ (size F ≤ 3 * uvm_pages sz new)%nat ∧ umem (set_pk_mem m1 s) F' T' sz ∨
   r = new ∧ (size F ≤ size F' + 3 * uvm_pages sz new)%nat ∧ ∃ s', loadseg root (ph_vaddr h) ip (ph_off h) (ph_filesz h) (set_pk_mem m1 s) = Ret 0 s' ∧
     umem s' F' T' new ∧ ptable s' = ptable s ∧ holds (ms_mem (pk_mem s')) root (ph_vaddr h) (seg_bytes h) ∧
     (∀ x, 0 ≤ x < sz → uview (ms_mem (pk_mem s')) root x = uview (ms_mem (pk_mem s)) root x)).
Proof using Htop IO.
  intros Hum (Hlo & Hal & Hfm & Hpos & Hhi & Hoff & HD & H32) new. pose proof (um_sz _ _ _ _ Hum) as Hsz. destruct (PGROUNDUP_range sz) as (Hr & Hra & _); [lia|].
  destruct (PGROUNDUP_range new) as (Hr' & _ & _); [unfold new; lia|].
  assert (Hup : PGROUNDUP sz ≤ ph_vaddr h).
  { unfold PGSIZE in *. pose proof (Z.div_mod (PGROUNDUP sz) 4096 ltac:(done)). pose proof (Z.div_mod (ph_vaddr h) 4096 ltac:(done)). lia. }
  destruct (grow_run s F T sz new (flags2perm (ph_flags h)) Hum) as (r & m1 & F' & T' & E & Hres); [unfold new; lia|apply flags2perm_small|].
  exists r, m1, F', T'. split; [exact E|]. destruct Hres as [(-> & Hfew & Hum1 & Hold & Hnew)|(-> & Hfew & Hum1)]; [right|by left]. split; [done|]. split; [done|].
  destruct (load_run (set_pk_mem m1 s) F' T' new (ph_vaddr h) (ph_off h) (ph_filesz h) Hum1) as (s' & El & Hum' & Ht & Hw); try done; try lia.
  exists s'. split; [exact El|]. split; [exact Hum'|]. split; [exact Ht|]. cbn [pk_mem set_pk_mem] in Hw. split.
  - apply (seg_placed (ms_mem m1)); try done; try lia. intros x Hx. apply Hnew. unfold new in *. lia.
  - intros x Hx. pose proof (written_outside _ _ _ _ _ Hw x ltac:(lia) ltac:(lia)) as Ho. rewrite Ho. apply Hold. lia.
Qed.

(** C21: exec() loads a well-formed program.  When the segments of the file lie
    above each other, page aligned, below the trap frame, the loop over the
    program headers gives every segment its memory, with the bytes of the
    file followed by zeros, and returns the end of the last; it fails only
    when there are not more than three free pages for each page of the image,
    and then the memory it reports is there to be freed. *)
Theorem exec_load_loads k : ∀ off s F T sz, umem s F T sz → 0 ≤ off → off + 56 * Z.of_nat k ≤ Z.of_nat (length D) → off + 56 * Z.of_nat k < 2 ^ 31 →
  segs_ok sz (headers_at k off) → ∃ (ok : bool) sz' s' F' T',
  exec_load k root ip off sz s = Ret (ok, sz') s' ∧ ptable s' = ptable s ∧ umem s' F' T' sz' ∧
  if ok then sz' = image_end sz (headers_at k off) ∧
    (∀ x, 0 ≤ x < sz → uview (ms_mem (pk_mem s')) root x = uview (ms_mem (pk_mem s)) root x) ∧
    (∀ h, h ∈ headers_at k off → is_load h = true → holds (ms_mem (pk_mem s')) root (ph_vaddr h) (seg_bytes h))
  else (size F ≤ 3 * uvm_pages sz (image_end sz (headers_at k off)))%nat.
Proof using Htop IO.
  induction k as [|k IH]; intros off s F T sz Hum Hoff HD H31 Hok; cbn [exec_load headers_at] in *.
  { exists true, sz, s, F, T. split_and!; try done. by intros h ?%not_elem_of_nil. }
  set (h := get_proghdr (take 56 (drop (Z.to_nat off) D))) in *. set (hs := headers_at k (off + sizeof_proghdr)) in *. cbn [segs_ok image_end] in Hok |- *.
  destruct (rf_readi ip D (pk_files s) off sizeof_proghdr (ld_file _ _ _ _ _ _ _ _ (um_load _ _ _ _ Hum))) as (fl & Er & Hfl); [done|done|unfold sizeof_proghdr; lia|].
  cbv zeta in Er. change (Z.to_nat sizeof_proghdr) with 56%nat in Er.
  assert (Hl : Z.of_nat (length (take 56 (drop (Z.to_nat off) D))) = sizeof_proghdr) by (rewrite length_take, length_drop; unfold sizeof_proghdr; lia). rewrite Hl in Er.
  rewrite (u32_id off) by lia. rewrite (bind_Ret _ _ _ _ _ (zoom_Ret pk_files set_pk_files _ s _ _ Er)). cbn [fst snd]. rewrite Z.eqb_refl. cbn [negb]. cbv zeta. fold h. fold (is_load h).
  pose proof (umem_files s F T sz fl Hum Hfl) as Hum1. set (s1 := set_pk_files fl s) in *. rewrite (i32_id (off + sizeof_proghdr)) by (unfold sizeof_proghdr; lia).
  assert (HIH : ∀ s F T sz, umem s F T sz → segs_ok sz hs → _) by (intros s2 F2 T2 sz2 Hum2; apply (IH (off + sizeof_proghdr) s2 F2 T2 sz2 Hum2); unfold sizeof_proghdr; lia). clear IH.
  destruct (is_load h) eqn:Hld; cbn [negb] in *; cbv iota in Hok |- *.
  2: { destruct (HIH s1 F T sz Hum1 Hok) as (ok & sz' & s' & F' & T' & E & Ht & Hum' & Hres). exists ok, sz', s', F', T'. split; [exact E|]. split; [exact Ht|]. split; [exact Hum'|].
       destruct ok; [|exact Hres]. destruct Hres as (H1 & H2 & H3). split_and!; [exact H1|exact H2|]. intros h' [->|Hh']%elem_of_cons Hl'; [congruence|by apply H3]. }
  destruct Hok as [Hseg Hok]. pose proof Hseg as (Hlo & Hal & Hfm & Hpos & Hhi & Ho & HoD & Ho32). pose proof (um_sz _ _ _ _ Hum) as Hsz.
  destruct (image_end_ge hs _ Hhi Hok) as [Hend Hend']. pose proof (uvm_pages_add sz (ph_vaddr h + ph_memsz h) (image_end (ph_vaddr h + ph_memsz h) hs) ltac:(lia) Hend ltac:(lia)) as Hadd.
  destruct (Z.ltb_spec (ph_memsz h) (ph_filesz h)); [lia|]. rewrite (u64_id (ph_vaddr h + ph_memsz h)) by (rewrite MAXVA_pow in Htop; lia).
  destruct (Z.ltb_spec (ph_vaddr h + ph_memsz h) (ph_vaddr h)); [lia|]. rewrite Hal. cbn [Z.eqb negb].
  destruct (segment_run s1 F T sz h Hum1 Hseg) as (r & m1 & F1 & T1 & E1 & Hres1). rewrite (bind_Ret _ _ _ _ _ E1).
  destruct Hres1 as [(-> & Hfew & Hum2)|(-> & Hfew & s2 & E2 & Hum2 & Ht2 & Hh2 & Hold2)].
  { rewrite Z.eqb_refl. exists false, sz, (set_pk_mem m1 s1), F1, T1. split_and!; try done. lia. }
  destruct (Z.eqb_spec (ph_vaddr h + ph_memsz h) 0); [lia|]. rewrite (u32_id (ph_off h)), (u32_id (ph_filesz h)) by lia. rewrite (bind_Ret _ _ _ _ _ E2). cbn [Z.ltb Z.compare].
  destruct (HIH s2 F1 T1 _ Hum2 Hok) as (ok & sz' & s' & F' & T' & E & Ht & Hum' & Hres). exists ok, sz', s', F', T'. split; [exact E|]. split; [by rewrite Ht, Ht2|]. split; [exact Hum'|].
  fold hs in Hres. destruct ok; [|lia]. destruct Hres as (H1 & H2 & H3). split_and!; [exact H1| |].
  - intros x Hx. rewrite H2 by lia. by apply Hold2.
  - intros h' [->|Hh']%elem_of_cons Hl'; [|by apply H3]. intros j b Hj. pose proof (lookup_lt_Some _ _ _ Hj) as Hlt. unfold seg_bytes in Hlt.
    rewrite length_app, length_take, length_replicate in Hlt. rewrite H2 by lia. by apply Hh2.
Qed.
End headers.

(** ** Witness: one page at address 0 as the stack of "ls -n" *)

Section witness.
Import VmDemo.

Lemma demo_stack : stack_mapped root (ms_mem mapped1) 0 4096.
Proof.
  intros x Hx. unfold uview. assert (E : PGROUNDDOWN x = 0) by (rewrite PGROUNDDOWN_div; unfold PGSIZE in *; rewrite Z.div_small by lia; lia). rewrite E.
  assert (Hp : (upa (ms_mem mapped1) root 0 =? 0) = false) by (vm_compute; reflexivity). rewrite Hp. by eexists.
Qed.

Lemma exec_args_delivered_witness : let args := [[Byte.x6c; Byte.x73]; [Byte.x2d; Byte.x6e]] in ∃ sp s',
  exec_stack args root 4096 mapped1 = Ret (Some sp) s' ∧ sp mod 16 = 0 ∧ holds (ms_mem s') root 4080 [Byte.x6c; Byte.x73; Byte.x00] ∧ holds (ms_mem s') root sp (ustack_bytes [4080; 4064]).
Proof.
  intros args. destruct (exec_args_delivered {[w4]} mapped_table root mapped1 4096 args) as (s' & _ & _ & H).
  - exact mapped_ok.
  - exact mapped_uspace.
  - split; vm_compute; discriminate.
  - exact demo_stack.
  - repeat constructor; vm_compute; reflexivity.
  - vm_compute. reflexivity.
  - assert (El : stack_layout args 4096 = Some (4032, [4080; 4064])) by (vm_compute; reflexivity). rewrite El in H. destruct H as (E & _ & Hm & _ & Ha & Hu & _). exists 4032, s'. split_and!; [exact E|exact Hm| |exact Hu].
    destruct (Ha 0%nat _ eq_refl) as (u & Eu & _ & Hh). injection Eu as <-. exact Hh.
Defined.

(** A program of one segment in a file system of one file, whose contents are
    the state. *)
#[local] Instance one_file : FileLayer := {|
  fl_state := list byte;
  fl_filedup f := mret f; fl_fileclose _ := mret tt; fl_idup i := mret i; fl_iput _ := mret tt;
  fl_begin_op := mret tt; fl_end_op := mret tt; fl_namei _ := mret (Some 0%nat); fl_fsinit _ := mret tt
|}.
#[local] Instance one_exec : ExecFiles := {|
  ex_ilock _ := mret tt;
  ex_readi _ off n := gets (λ D, let l := take (Z.to_nat n) (drop (Z.to_nat off) D) in (Z.of_nat (length l), l));
  ex_iunlockput _ := mret tt
|}.
#[local] Instance one_read : ReadFile.
Proof.
  refine {| rf_file := λ _ D fl, fl = D |}. intros ip D fl off n -> _ _ _. exists D. done.
Defined.

Definition demo_elf : list byte :=
  le_split 4 1 ++ le_split 4 5 ++ le_split 8 56 ++ le_split 8 0 ++ le_split 8 0 ++ le_split 8 4 ++ le_split 8 16 ++ le_split 8 4096 ++ [Byte.x13; Byte.x05; Byte.x00; Byte.x01].
Definition demo_exec : pkstate := PK (FL := one_file) [] 1 None false false free4 demo_elf (Cpu 0 false false) None.

Lemma demo_umem : umem (RF := one_read) root 0 demo_elf 8192 demo_exec free4_pages {[root := (2%nat, 0)]} 0.
Proof.
  destruct free4_ok as [Hok Hg]. split; [split|..]; [exact Hok| | |reflexivity| |lia].
  - intros va Hva. unfold upa, user_page. cbn [demo_exec pk_mem]. rewrite Hg. by destruct (MAXVA <=? va).
  - intros x Hx. change (PGROUNDUP 0) with 0 in Hx. lia.
  - intros va _. cbn [demo_exec pk_mem]. apply Hg.
Qed.

Lemma exec_load_loads_witness : ∃ s', exec_load 1 root 0 0 0 demo_exec = Ret (true, 16) s' ∧
  holds (ms_mem (pk_mem s')) root 0 ([Byte.x13; Byte.x05; Byte.x00; Byte.x01] ++ replicate 12 Byte.x00).
Proof.
  assert (Htop : 8192 ≤ MAXVA) by (vm_compute; discriminate).
  destruct (exec_load_loads (RF := one_read) root 0 demo_elf 8192 Htop 1 0 demo_exec free4_pages {[root := (2%nat, 0)]} 0) as (ok & sz & s' & F' & T' & E & _ & _ & H).
  - exact demo_umem.
  - lia.
  - vm_compute. discriminate.
  - vm_compute. reflexivity.
  - split; [|exact I]. vm_compute. repeat split; discriminate.
  - destruct ok; [|vm_compute in H; lia]. destruct H as (Hsz & _ & Hh).
    exists s'. split; [rewrite E, Hsz; reflexivity|]. exact (Hh _ ltac:(left) eq_refl).
Defined.
End witness.
