(* ===== verification/Mkfs.v ===== *)
(** * mkfs/mkfs.c: the maker of the disk image (the code)

    mkfs runs on the host that builds xv6.  [mk_img] is the image file as its
    sectors: every access is one sector at a multiple of BSIZE, so the file is
    always a whole number of them; a hole reads as zeros, and a read past the
    end is short.  The byte order of the host is the parameter [big]: a field
    of a struct in memory is the host's number, and xshort() and xint() are
    the numbers whose bytes are in RISC-V order.  exit(1), in die(), in a
    failed assert() or for lack of arguments, is the outcome [Panic]; write()
    and lseek() on the image are taken to succeed. *)

From stdpp Require Import base gmap sets strings numbers list.
From coqutil Require Import Byte Word.LittleEndianList.
From S2P Require Import Prelude Riscv Spinlock Block Sleeplock Fs.

Definition NINODES : Z := 200.

Definition nbitmap : Z := FSSIZE / (BSIZE * 8) + 1.
Definition ninodeblocks : Z := NINODES / IPB + 1.
Definition nlog : Z := LOGSIZE.

Record mkfs := Mkfs {
  mk_img : list block;     (* the file fsfd *)
  mk_sb : superblock;
  mk_freeinode : Z;
  mk_freeblock : Z
}.
Definition set_img (x : list block) (s : mkfs) : mkfs := Mkfs x (mk_sb s) (mk_freeinode s) (mk_freeblock s).
Definition set_mksb (x : superblock) (s : mkfs) : mkfs := Mkfs (mk_img s) x (mk_freeinode s) (mk_freeblock s).
Definition set_freeinode (x : Z) (s : mkfs) : mkfs := Mkfs (mk_img s) (mk_sb s) x (mk_freeblock s).
Definition set_freeblock (x : Z) (s : mkfs) : mkfs := Mkfs (mk_img s) (mk_sb s) (mk_freeinode s) x.

(** The globals when main() starts, the image file just created or truncated. *)
Definition mkfs0 : mkfs := Mkfs [] (Superblock 0 0 0 0 0 0 0 0) 1 0.

Definition m_assert (b : bool) : M mkfs unit := if b then mret tt else panic "assert".

(** ** Sectors *)

(** lseek() to the byte offset [sec * BSIZE], a [uint]. *)
Definition sect_index (sec : Z) : nat := Z.to_nat (u32 (sec * BSIZE) / BSIZE).

(** write() at sector [k] of the file. *)
Definition write_at (k : nat) (buf : block) (img : list block) : list block :=
  if decide (k < length img)%nat then <[k := buf]> img
  else img ++ replicate (k - length img) zero_block ++ [buf].

Definition wsect (sec : Z) (buf : block) : M mkfs unit :=
  modify (λ s, set_img (write_at (sect_index sec) buf (mk_img s)) s).

Definition rsect (sec : Z) : M mkfs block :=
  img ← gets mk_img;
  match img !! sect_index sec with
  | Some b => mret b
  | None => panic "read"
  end.

Section host.
Context (big : bool).

(** The bytes of an integer in the host's memory, and the integer of bytes. *)
Definition host_split (n : nat) (v : Z) : list byte := if big then rev (le_split n v) else le_split n v.
Definition host_combine (l : list byte) : Z := le_combine (if big then rev l else l).

Definition xshort (x : Z) : Z := host_combine (le_split 2 x).
Definition xint (x : Z) : Z := host_combine (le_split 4 x).

(** [struct superblock], [struct dinode] and [struct dirent] in memory. *)
Definition superblock_bytes (sb : superblock) : list byte :=
  mjoin (host_split 4 <$> [sb_magic sb; sb_size sb; sb_nblocks sb; sb_ninodes sb; sb_nlog sb; sb_logstart sb; sb_inodestart sb; sb_bmapstart sb]).
Definition host_dinode_bytes (d : dinode) : list byte :=
  host_split 2 (d_type d) ++ host_split 2 (d_major d) ++ host_split 2 (d_minor d) ++ host_split 2 (d_nlink d) ++
  host_split 4 (d_size d) ++ mjoin (host_split 4 <$> d_addrs d).
Definition host_get16 (b : block) (off : Z) : Z := host_combine (blk_get b off 2).
Definition host_get32 (b : block) (off : Z) : Z := host_combine (blk_get b off 4).
Definition host_get_dinode (b : block) (k : Z) : dinode :=
  let o := k * sizeof_dinode in
  Dinode (i16 (host_get16 b o)) (i16 (host_get16 b (o + 2))) (i16 (host_get16 b (o + 4))) (i16 (host_get16 b (o + 6))) (host_get32 b (o + 8))
    ((λ j, host_get32 b (o + 12 + 4 * Z.of_nat j)) <$> seq 0 13).
Definition host_dirent_bytes (inum : Z) (name : list byte) : list byte := host_split 2 inum ++ name.

(** ** Inodes *)

Definition winode (inum : Z) (ip : dinode) : M mkfs unit :=
  sb ← gets mk_sb;
  let bn := u32 (IBLOCK inum sb) in
  buf ← rsect bn;
  wsect bn (blk_put buf (inum mod IPB * sizeof_dinode) (host_dinode_bytes ip)).

Definition rinode (inum : Z) : M mkfs dinode :=
  sb ← gets mk_sb;
  let bn := u32 (IBLOCK inum sb) in
  buf ← rsect bn;
  mret (host_get_dinode buf (inum mod IPB)).

Definition mkfs_ialloc (type : Z) : M mkfs Z :=
  inum ← gets mk_freeinode;
  modify (set_freeinode (u32 (inum + 1)));;
  winode inum (Dinode (i16 (xshort type)) 0 0 (i16 (xshort 1)) (xint 0) (replicate 13 0));;
  mret inum.

(** ** The free map *)

(** [for(i = 0; i < used; i++)], [k] blocks to go. *)
Fixpoint mkfs_balloc_loop (k : nat) (i : Z) (buf : block) : block :=
  match k with
  | O => buf
  | S k => mkfs_balloc_loop k (i + 1) (put8 buf (i / 8) (Z.lor (get8 buf (i / 8)) (Z.shiftl 1 (i mod 8))))
  end.

Definition mkfs_balloc (used : Z) : M mkfs unit :=
  m_assert (used <? BSIZE * 8);;
  let buf := mkfs_balloc_loop (Z.to_nat used) 0 zero_block in
  sb ← gets mk_sb;
  wsect (sb_bmapstart sb) buf.

(** ** File contents *)

(** [freeblock++] *)
Definition next_block : M mkfs Z :=
  b ← gets mk_freeblock;
  modify (set_freeblock (u32 (b + 1)));;
  mret b.

(** The address of block [fbn] of the file with addresses [al], allocated if
    it has none: the first half of the loop body of iappend(). *)
Definition iappend_block (fbn : Z) (al : list Z) : M mkfs (Z * list Z) :=
  if fbn <? NDIRECT then
    al ← (if xint (al !!! Z.to_nat fbn) =? 0
          then b ← next_block; mret (<[Z.to_nat fbn := xint b]> al)
          else mret al);
    mret (xint (al !!! Z.to_nat fbn), al)
  else
    al ← (if xint (al !!! Z.to_nat NDIRECT) =? 0
          then b ← next_block; mret (<[Z.to_nat NDIRECT := xint b]> al)
          else mret al);
    indirect ← rsect (xint (al !!! Z.to_nat NDIRECT));
    indirect ← (if host_get32 indirect (4 * (fbn - NDIRECT)) =? 0
                then b ← next_block;
                  let indirect := blk_put indirect (4 * (fbn - NDIRECT)) (host_split 4 (xint b)) in
                  wsect (xint (al !!! Z.to_nat NDIRECT)) indirect;;
                  mret indirect
                else mret indirect);
    mret (xint (host_get32 indirect (4 * (fbn - NDIRECT))), al).

(** The loop of iappend() with [p] left to append at [off]; the result is the
    file's size and addresses. *)
Fixpoint iappend_loop (fuel : nat) (off : Z) (al : list Z) (p : list byte) : M mkfs (Z * list Z) :=
  match fuel with
  | O => no_fuel
  | S fuel =>
    if (0 <? length p)%nat then
      let fbn := off / BSIZE in
      m_assert (fbn <? MAXFILE);;
      '(x, al) ← iappend_block fbn al;
      let n1 := Z.min (Z.of_nat (length p)) (u32 ((fbn + 1) * BSIZE - off)) in
      buf ← rsect x;
      wsect x (blk_put buf (off - fbn * BSIZE) (take (Z.to_nat n1) p));;
      iappend_loop fuel (u32 (off + n1)) al (drop (Z.to_nat n1) p)
    else mret (off, al)
  end.

Definition iappend (inum : Z) (xp : list byte) : M mkfs unit :=
  din ← rinode inum;
  '(off, al) ← iappend_loop (S (length xp)) (xint (d_size din)) (d_addrs din) xp;
  winode inum (Dinode (d_type din) (d_major din) (d_minor din) (d_nlink din) (xint off) al).

(** ** main() *)

(** [for(i = 0; i < FSSIZE; i++) wsect(i, zeroes);], [k] sectors to go. *)
Fixpoint zero_loop (k : nat) (i : Z) : M mkfs unit :=
  match k with
  | O => mret tt
  | S k => wsect i zero_block;; zero_loop k (i + 1)
  end.

Definition make_sb : superblock :=
  let nmeta := 2 + nlog + ninodeblocks + nbitmap in
  let nblocks := FSSIZE - nmeta in
  Superblock FSMAGIC (xint FSSIZE) (xint nblocks) (xint NINODES) (xint nlog) (xint 2) (xint (2 + nlog)) (xint (2 + nlog + ninodeblocks)).

(** [bzero(&de); de.inum = xshort(inum); strncpy(de.name, name, DIRSIZ);
    iappend(dir, &de, sizeof(de))] *)
Definition add_dirent (dir inum : Z) (name : list byte) : M mkfs unit :=
  iappend dir (host_dirent_bytes (xshort inum) (strncpy_bytes name DIRSIZ)).

(** [while((cc = read(fd, buf, sizeof(buf))) > 0) iappend(inum, buf, cc);]
    on the results of the reads. *)
Fixpoint copy_file (inum : Z) (reads : list (list byte)) : M mkfs unit :=
  match reads with
  | [] => mret tt
  | buf :: reads => if (0 <? length buf)%nat then iappend inum buf;; copy_file inum reads else mret tt
  end.

Definition user_slash : list byte := [Byte.x75; Byte.x73; Byte.x65; Byte.x72; Byte.x2f].
(** The path without "user/"; then without a leading underscore. *)
Definition strip_user (path : list byte) : list byte :=
  if strncmp_bytes path user_slash 5 =? 0 then drop 5 path else path.
Definition strip_underscore (shortname : list byte) : list byte :=
  if byte.unsigned (hd Byte.x00 shortname) =? 0x5f then tl shortname else shortname.

(** [reads path] is what the reads of the file return; [None] when it cannot
    be opened. *)
Context (reads : list byte → option (list (list byte))).

(** The loop over argv[2..]. *)
Fixpoint add_files (rootino : Z) (argv : list (list byte)) : M mkfs unit :=
  match argv with
  | [] => mret tt
  | path :: argv =>
    let shortname := strip_user path in
    m_assert (forallb (λ c, negb (byte.unsigned c =? 0x2f)) shortname);;
    match reads path with
    | None => panic "open"
    | Some l =>
      let shortname := strip_underscore shortname in
      inum ← mkfs_ialloc T_FILE;
      add_dirent rootino inum shortname;;
      copy_file inum l;;
      add_files rootino argv
    end
  end.

Definition dot : list byte := [Byte.x2e].
Definition dotdot : list byte := [Byte.x2e; Byte.x2e].

(** fix size of root inode dir *)
Definition fix_root (rootino : Z) : M mkfs unit :=
  din ← rinode rootino;
  let off := xint (d_size din) in
  let off := u32 ((off / BSIZE + 1) * BSIZE) in
  winode rootino (Dinode (d_type din) (d_major din) (d_minor din) (d_nlink din) (xint off) (d_addrs din)).

(** [img_opens]: whether open() of argv[1] succeeds. *)
Definition mkfs_main (img_opens : bool) (argv : list (list byte)) : M mkfs unit :=
  if (length argv <? 2)%nat then panic "Usage: mkfs fs.img files..." else
  m_assert (BSIZE mod sizeof_dinode =? 0);;
  m_assert (BSIZE mod sizeof_dirent =? 0);;
  if negb img_opens then panic "open" else
  modify (set_mksb make_sb);;
  modify (set_freeblock (2 + nlog + ninodeblocks + nbitmap));;
  zero_loop (Z.to_nat FSSIZE) 0;;
  sb ← gets mk_sb;
  wsect 1 (blk_put zero_block 0 (superblock_bytes sb));;
  rootino ← mkfs_ialloc T_DIR;
  m_assert (rootino =? ROOTINO);;
  add_dirent rootino rootino dot;;
  add_dirent rootino rootino dotdot;;
  add_files rootino (drop 2 argv);;
  fix_root rootino;;
  used ← gets mk_freeblock;
  mkfs_balloc (i32 used).

End host.
