(* ===== verification/MkfsFile.v ===== *)
(** * mkfs/mkfs.c: a file in the image

    [file_at v fb own i al c nb ib] says that in the sectors [v] the file of
    inode [i] with addresses [al] has [nb] data blocks, an indirect block when
    [ib], and the bytes [c], followed by zeros to the end of its last block.
    [own] is the ghost owner of each block below [fb], the first block not
    allocated: an inode and a position in its file.  The kernel's own [iaddr]
    and [fbyte] read the file. *)

From stdpp Require Import base gmap sets strings numbers list.
From coqutil Require Import Byte Word.LittleEndianList.
From S2P Require Import Prelude Riscv Spinlock Block Sleeplock Fs FsBlocks FsAlloc FsBmap FsFile Mkfs.

Definition nmeta : Z := 46.

(** A function changed at one point. *)
Definition upd {A} (f : Z → A) (k : Z) (a : A) : Z → A := λ x, if x =? k then a else f x.
Lemma upd_eq {A} (f : Z → A) k a : upd f k a k = a.
Proof. unfold upd. by rewrite Z.eqb_refl. Qed.
Lemma upd_ne {A} (f : Z → A) k a x : x ≠ k → upd f k a x = f x.
Proof. unfold upd. intros. by destruct (Z.eqb_spec x k). Qed.

Record file_at (v : Z → block) (fb : Z) (own : Z → Z * Z) (i : Z) (al : list Z) (c : list byte) (nb : Z) (ib : bool) : Prop := {
  fa_len : length al = 13%nat;
  fa_nb : 0 ≤ nb ≤ MAXFILE;
  fa_ib : NDIRECT < nb → ib = true;
  fa_fit : Z.of_nat (length c) ≤ nb * BSIZE;
  fa_blk n : 0 ≤ n < nb → nmeta ≤ iaddr v al n < fb ∧ own (iaddr v al n) = (i, n);
  fa_none n : nb ≤ n < MAXFILE → iaddr v al n = 0;
  fa_ind : if ib then nmeta ≤ al !!! 12%nat < fb ∧ own (al !!! 12%nat) = (i, MAXFILE) else al !!! 12%nat = 0;
  fa_byte o : 0 ≤ o < nb * BSIZE → fbyte v al o = default Byte.x00 (c !! Z.to_nat o)
}.

Lemma fbyte_same v v' al o : iaddr v' al (o / BSIZE) = iaddr v al (o / BSIZE) →
  v' (iaddr v al (o / BSIZE)) = v (iaddr v al (o / BSIZE)) → fbyte v' al o = fbyte v al o.
Proof. unfold fbyte. intros -> ->. done. Qed.

Lemma block_of o nb : 0 ≤ o < nb * BSIZE → 0 ≤ o / BSIZE < nb.
Proof. fsnorm. intros. split; [apply Z.div_pos; lia|apply Z.div_lt_upper_bound; lia]. Qed.

(** A file stays what it is when nothing changes in its blocks. *)
Lemma file_frame v v' fb fb' own own' i al c nb ib : file_at v fb own i al c nb ib → fb ≤ fb' →
  (∀ x, nmeta ≤ x < fb → own' x = own x) → (∀ x, nmeta ≤ x < fb → (own x).1 = i → v' x = v x) →
  file_at v' fb' own' i al c nb ib.
Proof.
  intros [] Hfb Ho Hv.
  assert (Hia : ∀ n, iaddr v' al n = iaddr v al n).
  { intros n. unfold iaddr. destruct (n <? NDIRECT); [done|]. destruct (Z.eqb_spec (al !!! 12%nat) 0); [done|].
    destruct ib; [|done]. destruct fa_ind0 as [? Ow]. rewrite Hv; [done|done|by rewrite Ow]. }
  split; try done.
  - intros n Hn. rewrite Hia. destruct (fa_blk0 n Hn) as [? <-]. split; [lia|by apply Ho].
  - intros n Hn. rewrite Hia. by apply fa_none0.
  - destruct ib; [|done]. destruct fa_ind0 as [? <-]. split; [lia|by apply Ho].
  - intros o Hob. rewrite <- fa_byte0 by done. apply fbyte_same; [apply Hia|]. 
    destruct (fa_blk0 (o / BSIZE)) as [? Ow]; [by apply block_of|]. apply Hv; [done|by rewrite Ow].
Qed.

Lemma file_ind_ne v fb own i al c nb n : file_at v fb own i al c nb true → 0 ≤ n < nb → iaddr v al n ≠ al !!! 12%nat.
Proof.
  intros [] Hn He. destruct (fa_blk0 n Hn) as [_ Ow]. destruct fa_ind0 as [_ Oi]. rewrite He, Oi in Ow.
  injection Ow as <-. lia.
Qed.

Lemma zero_byte (v : Z → block) a k : v a = zero_block → default Byte.x00 (v a !! k) = Byte.x00.
Proof.
  intros ->. unfold zero_block. destruct (_ !! k) eqn:E; [|done]. by apply lookup_replicate in E as [-> _].
Qed.

(** The bytes of the file after block [nb] is added as the zeroed block [a]. *)
Lemma bytes_grow v v' al al' c nb a : 0 ≤ nb → Z.of_nat (length c) ≤ nb * BSIZE → v' a = zero_block → iaddr v' al' nb = a →
  (∀ n, 0 ≤ n < nb → iaddr v' al' n = iaddr v al n ∧ v' (iaddr v al n) = v (iaddr v al n)) →
  (∀ o, 0 ≤ o < nb * BSIZE → fbyte v al o = default Byte.x00 (c !! Z.to_nat o)) →
  ∀ o, 0 ≤ o < (nb + 1) * BSIZE → fbyte v' al' o = default Byte.x00 (c !! Z.to_nat o).
Proof.
  intros Hnb Hc Hz Ha Hold Hb o Ho. pose proof (block_of _ _ Ho) as Hk. destruct (decide (o / BSIZE = nb)) as [E|E].
  - unfold fbyte. rewrite E, Ha. rewrite zero_byte by done. rewrite lookup_ge_None_2; [done|].
    pose proof (Z.mul_div_le o BSIZE ltac:(done)). fsnorm. lia.
  - destruct (Hold (o / BSIZE)) as [Hi Hv]; [lia|]. rewrite <- Hb.
    + unfold fbyte. by rewrite Hi, Hv.
    + pose proof (Z.mul_succ_div_gt o BSIZE ltac:(done)). fsnorm. lia.
Qed.

Section alloc.
Context (v : Z → block) (fb : Z) (own : Z → Z * Z) (i : Z) (al : list Z) (c : list byte) (nb : Z) (ib : bool).
Context (Hf : file_at v fb own i al c nb ib) (Hfb : nmeta ≤ fb) (Hz : v fb = zero_block).

Lemma owned_upd p x : nmeta ≤ x < fb → upd own fb p x = own x.
Proof using Type. intros. apply upd_ne. lia. Qed.

(** A direct block. *)
Lemma file_add_direct : nb < NDIRECT →
  file_at v (fb + 1) (upd own fb (i, nb)) i (<[Z.to_nat nb := fb]> al) c (nb + 1) ib.
Proof using Hf Hfb Hz.
  intros Hd. pose proof Hf as [].
  assert (Hia : ∀ n, 0 ≤ n → iaddr v (<[Z.to_nat nb := fb]> al) n = if n =? nb then fb else iaddr v al n).
  { intros n Hn. apply iaddr_set_direct; try done; lia. }
  split; try done.
  - by rewrite length_insert.
  - fsnorm. lia.
  - fsnorm. lia.
  - fsnorm. lia.
  - intros n Hn. rewrite Hia by lia. destruct (Z.eqb_spec n nb) as [->|].
    + rewrite upd_eq. split; [lia|done].
    + destruct (fa_blk0 n) as [? <-]; [lia|]. rewrite owned_upd by done. split; [lia|done].
  - intros n Hn. rewrite Hia by lia. destruct (Z.eqb_spec n nb); [lia|]. apply fa_none0. lia.
  - rewrite lookup_total_insert_ne' by (fsnorm; lia). destruct ib; [|done]. destruct fa_ind0 as [? <-].
    rewrite owned_upd by done. split; [lia|done].
  - apply (bytes_grow v _ al _ _ _ fb); try done; [lia|by rewrite Hia, Z.eqb_refl by lia|].
    intros n Hn. rewrite Hia by lia. destruct (Z.eqb_spec n nb); [lia|done].
Qed.

(** The indirect block. *)
Lemma file_add_ind : ib = false →
  file_at v (fb + 1) (upd own fb (i, MAXFILE)) i (<[12%nat := fb]> al) c nb true.
Proof using Hf Hfb Hz.
  intros ->. pose proof Hf as [].
  assert (Hia : ∀ n, iaddr v (<[12%nat := fb]> al) n = iaddr v al n).
  { intros n. apply iaddr_set_ind; try done. unfold nmeta in Hfb. lia. }
  split; try done.
  - by rewrite length_insert.
  - intros n Hn. rewrite Hia. destruct (fa_blk0 n) as [? <-]; [lia|]. rewrite owned_upd by done. split; [lia|done].
  - intros n Hn. rewrite Hia. by apply fa_none0.
  - rewrite list_lookup_total_insert_eq by lia. rewrite upd_eq. split; [lia|done].
  - intros o Ho. rewrite <- fa_byte0 by done. unfold fbyte. by rewrite Hia.
Qed.

(** A block of the indirect block. *)
Lemma file_add_entry v' : ib = true → NDIRECT ≤ nb < MAXFILE → fb < 2 ^ 32 → block_ok (v (al !!! 12%nat)) →
  (∀ x, v' x = upd v (al !!! 12%nat) (ind_put (nb - NDIRECT) fb (v (al !!! 12%nat))) x) →
  file_at v' (fb + 1) (upd own fb (i, nb)) i al c (nb + 1) ib.
Proof using Hf Hfb Hz.
  intros -> Hd Hw Hok Hv. pose proof Hf as []. destruct fa_ind0 as [Hi Hoi].
  assert (Hia : ∀ n, 0 ≤ n → iaddr v' al n = if n =? nb then fb else iaddr v al n).
  { intros n Hn. rewrite (iaddr_set_entry v v' al (nb - NDIRECT) fb n); try done.
    - by replace (NDIRECT + (nb - NDIRECT)) with nb by lia.
    - unfold nmeta in *. lia. - fsnorm. lia. - unfold nmeta in *. lia. - by rewrite Hv, upd_eq. }
  split; try done.
  - fsnorm. lia.
  - fsnorm. lia.
  - intros n Hn. rewrite Hia by lia. destruct (Z.eqb_spec n nb) as [->|].
    + rewrite upd_eq. split; [lia|done].
    + destruct (fa_blk0 n) as [? <-]; [lia|]. rewrite owned_upd by done. split; [lia|done].
  - intros n Hn. rewrite Hia by lia. destruct (Z.eqb_spec n nb); [lia|]. apply fa_none0. lia.
  - rewrite owned_upd by done. split; [lia|done].
  - apply (bytes_grow v _ al _ _ _ fb); try done; [lia| |by rewrite Hia, Z.eqb_refl by lia|].
    + rewrite Hv, upd_ne by lia. done.
    + intros n Hn. rewrite Hia by lia. destruct (Z.eqb_spec n nb); [lia|]. split; [done|].
      rewrite Hv. apply upd_ne. by eapply file_ind_ne.
Qed.

(** Bytes added in the block that holds the end of the file. *)
Lemma file_append v' w : Z.of_nat (length c) < nb * BSIZE → Z.of_nat (length c) mod BSIZE + Z.of_nat (length w) ≤ BSIZE →
  let a := iaddr v al (Z.of_nat (length c) / BSIZE) in
  block_ok (v a) → (∀ x, v' x = upd v a (blk_put (v a) (Z.of_nat (length c) mod BSIZE) w) x) →
  file_at v' fb own i al (c ++ w) nb ib.
Proof using Hf.
  set (o := Z.of_nat (length c)). intros Ho Hw a Hok Hv. pose proof Hf as [].
  assert (Hob : 0 ≤ o / BSIZE < nb) by (apply block_of; lia). destruct (fa_blk0 _ Hob) as [Ha Oa]. fold a in Ha, Oa.
  assert (Hi12 : ib = true → a ≠ al !!! 12%nat).
  { intros ->. subst a. by eapply file_ind_ne. }
  assert (Hia : ∀ n, iaddr v' al n = iaddr v al n).
  { intros n. unfold iaddr. destruct (n <? NDIRECT); [done|]. destruct (Z.eqb_spec (al !!! 12%nat) 0); [done|].
    destruct ib; [|done]. rewrite Hv, upd_ne; [done|]. intros He. by apply Hi12. }
  pose proof (Z.mod_pos_bound o BSIZE ltac:(done)) as Hm. pose proof (Z.div_mod o BSIZE ltac:(done)) as Hdm.
  split; try done.
  - rewrite length_app. assert ((o / BSIZE + 1) * BSIZE ≤ nb * BSIZE) by (fsnorm; lia). fsnorm. lia.
  - intros n Hn. rewrite Hia. by apply fa_blk0.
  - intros n Hn. rewrite Hia. by apply fa_none0.
  - intros x Hx. pose proof (block_of _ _ Hx) as Hxb. pose proof (Z.div_mod x BSIZE ltac:(done)) as Hxm.
    pose proof (Z.mod_pos_bound x BSIZE ltac:(done)) as Hxr. pose proof (fa_byte0 x Hx) as Hold. unfold fbyte in *. rewrite Hia.
    destruct (decide (x / BSIZE = o / BSIZE)) as [E|E].
    + rewrite E in Hold |- *. fold a in Hold |- *. rewrite Hv, upd_eq. unfold block_ok in Hok.
      rewrite blk_put_lookup by lia. case_decide as Hd.
      * rewrite lookup_app_r by lia. do 2 f_equal. lia.
      * rewrite Hold. destruct (decide (x < o)).
        -- by rewrite lookup_app_l by lia.
        -- rewrite !lookup_ge_None_2; [done|rewrite length_app; lia|lia].
    + rewrite Hv, upd_ne.
      2:{ intros He. destruct (fa_blk0 _ Hxb) as [_ Ox]. rewrite He, Oa in Ox. injection Ox. lia. }
      rewrite Hold. destruct (decide (x < o)).
      * by rewrite lookup_app_l by lia.
      * rewrite !lookup_ge_None_2; [done|rewrite length_app; fsnorm; nia|lia].
Qed.
End alloc.
