(* ===== verification/MkfsRun.v ===== *)
(** * mkfs/mkfs.c: iappend(), ialloc() and the inodes of the image

    On a host with RISC-V's byte order.  [good s] is the invariant of the
    image file, [ext i] relates states between which only blocks of inode [i]
    changed, [built s own D] says that the image holds the inodes [D], each a
    type and contents, and the number of blocks they take. *)

From stdpp Require Import base gmap sets strings numbers list.
From coqutil Require Import Byte Word.LittleEndianList.
From S2P Require Import Prelude Riscv Spinlock Block Sleeplock Fs FsBlocks FsAlloc FsBmap FsFile FsInode Mkfs MkfsFile.

(** The sectors of the image. *)
Definition view (s : mkfs) (x : Z) : block := if x <? 0 then zero_block else mk_img s !!! Z.to_nat x.

(** The super block mkfs makes. *)
Definition mk_super : superblock := Superblock FSMAGIC FSSIZE 1954 NINODES 30 2 32 45.

Record good (s : mkfs) : Prop := {
  gd_size : length (mk_img s) = Z.to_nat FSSIZE;
  gd_blocks x : 0 ≤ x < FSSIZE → block_ok (view s x);
  gd_sb : mk_sb s = mk_super;
  gd_free : nmeta ≤ mk_freeblock s ≤ FSSIZE;
  gd_zero x : mk_freeblock s ≤ x < FSSIZE → view s x = zero_block
}.

(** ** Byte order *)

Lemma xint_le x : xint false x = u32 x.
Proof. unfold xint, host_combine. by rewrite le_combine_split. Qed.
Lemma xint_id x : 0 ≤ x < 2 ^ 32 → xint false x = x.
Proof. rewrite xint_le. apply u32_id. Qed.
Lemma make_sb_le : make_sb false = mk_super.
Proof. reflexivity. Qed.

(** ** Sectors *)

Definition wr (x : Z) (b : block) (s : mkfs) : mkfs := set_img (<[Z.to_nat x := b]> (mk_img s)) s.

Lemma sect_index_id x : 0 ≤ x < FSSIZE → sect_index x = Z.to_nat x.
Proof.
  unfold FSSIZE, sect_index. intros Hx. fsnorm. rewrite u32_id by lia. by rewrite Z.div_mul.
Qed.

Section sectors.
Context (s : mkfs) (Hg : good s) (x : Z) (Hx : 0 ≤ x < FSSIZE).

Lemma rsect_run : rsect x s = Ret (view s x) s.
Proof using Hg Hx.
  destruct Hg. unfold rsect. rewrite bind_gets, sect_index_id by done. unfold view. unfold FSSIZE in *. destruct (Z.ltb_spec x 0); [lia|].
  destruct (lookup_lt_is_Some_2 (mk_img s) (Z.to_nat x)) as [b Hb]; [lia|]. rewrite Hb. by erewrite list_lookup_total_correct.
Qed.

Lemma wsect_run b : wsect x b s = Ret tt (wr x b s).
Proof using Hg Hx.
  destruct Hg. unfold wsect, modify, wr, write_at. rewrite sect_index_id by done. rewrite decide_True by (unfold FSSIZE in *; lia). done.
Qed.

Lemma view_wr b y : view (wr x b s) y = upd (view s) x b y.
Proof using Hg Hx.
  destruct Hg. unfold view, upd, wr. cbn [mk_img set_img]. unfold FSSIZE in *. destruct (Z.eqb_spec y x) as [->|].
  - destruct (Z.ltb_spec x 0); [lia|]. apply list_lookup_total_insert_eq. lia.
  - destruct (Z.ltb_spec y 0); [done|]. apply list_lookup_total_insert_ne. lia.
Qed.

Lemma good_wr b : x < mk_freeblock s → block_ok b → good (wr x b s).
Proof using Hg Hx.
  intros Hf Hb. pose proof Hg as []. split; try done.
  - unfold wr. cbn [mk_img set_img]. by rewrite length_insert.
  - intros y Hy. rewrite view_wr. unfold upd. destruct (y =? x); [done|by apply gd_blocks0].
  - intros y Hy. change (mk_freeblock (wr x b s)) with (mk_freeblock s) in Hy. rewrite view_wr, upd_ne by lia. by apply gd_zero0.
Qed.
End sectors.

(** Taking the next block. *)
Definition bump (s : mkfs) : mkfs := set_freeblock (mk_freeblock s + 1) s.
Lemma next_block_run s : good s → next_block s = Ret (mk_freeblock s) (bump s).
Proof.
  intros []. unfold next_block. rewrite bind_gets, bind_modify. rewrite u32_id by (unfold nmeta, FSSIZE in *; lia). done.
Qed.
Lemma good_bump s : good s → mk_freeblock s < FSSIZE → good (bump s).
Proof.
  intros [] Hf. split; try done; cbn [mk_freeblock bump set_freeblock]; [lia|].
  intros x Hx. change (view (bump s) x) with (view s x). apply gd_zero0. lia.
Qed.

(** ** Steps on one file *)

Record ext (i : Z) (s : mkfs) (own : Z → Z * Z) (s' : mkfs) (own' : Z → Z * Z) : Prop := {
  ex_ino : mk_freeinode s' = mk_freeinode s;
  ex_fb : mk_freeblock s ≤ mk_freeblock s';
  ex_own x : x < mk_freeblock s → own' x = own x;
  ex_view x : x < mk_freeblock s → x < nmeta ∨ (own x).1 ≠ i → view s' x = view s x
}.

Lemma ext_refl i s own : ext i s own s own.
Proof. by split. Qed.
Lemma ext_trans i s1 o1 s2 o2 s3 o3 : ext i s1 o1 s2 o2 → ext i s2 o2 s3 o3 → ext i s1 o1 s3 o3.
Proof.
  intros [] []. split; [congruence|lia| |].
  - intros x Hx. rewrite ex_own1 by lia. by apply ex_own0.
  - intros x Hx Hd. rewrite ex_view1; [by apply ex_view0|lia|]. rewrite ex_own0 by done. done.
Qed.
Lemma ext_bump i s own p : ext i s own (bump s) (upd own (mk_freeblock s) p).
Proof. split; [done|cbn; lia| |done]. intros x Hx. apply upd_ne. lia. Qed.
Lemma ext_wr i s own x b : good s → nmeta ≤ x < FSSIZE → (own x).1 = i → ext i s own (wr x b s) own.
Proof.
  intros Hg Hx Ho. split; try done. intros y Hy Hd. rewrite view_wr by (done || unfold nmeta in *; lia). apply upd_ne.
  intros ->. destruct Hd; [lia|congruence].
Qed.

(** A file of another inode is not touched. *)
Lemma ext_file i s own s' own' j al c nb ib : ext i s own s' own' → i ≠ j → file_at (view s) (mk_freeblock s) own j al c nb ib →
  file_at (view s') (mk_freeblock s') own' j al c nb ib.
Proof.
  intros [] Hne Hf. eapply file_frame; [done|done|intros; apply ex_own0; lia|].
  intros x Hx Ho. apply ex_view0; [lia|right; congruence].
Qed.

Section block.
Context (s : mkfs) (own : Z → Z * Z) (i : Z) (al : list Z) (c : list byte) (nb : Z).
Context (Hg : good s).

Abbreviation fileat s own al nb ib := (file_at (view s) (mk_freeblock s) own i al c nb ib).

Lemma iaddr_range ib n : fileat s own al nb ib → 0 ≤ n < MAXFILE → 0 ≤ iaddr (view s) al n < FSSIZE.
Proof using Hg.
  intros [] Hn. destruct Hg. unfold nmeta in *. destruct (decide (n < nb)).
  - destruct (fa_blk n) as [? _]; lia.
  - rewrite fa_none by lia. unfold FSSIZE. lia.
Qed.

(** The block holds the end of the file. *)
Lemma iappend_block_old ib n : fileat s own al nb ib → 0 ≤ n < nb →
  iappend_block false n al s = Ret (iaddr (view s) al n, al) s.
Proof using Hg.
  intros Hf Hn. pose proof Hf as []. pose proof (iaddr_range _ n Hf ltac:(lia)) as Hr. destruct (fa_blk n Hn) as [Hb _].
  destruct Hg. unfold iappend_block. unfold iaddr in *. unfold nmeta, FSSIZE in *. destruct (Z.ltb_spec n NDIRECT).
  - rewrite xint_id by lia. destruct (Z.eqb_spec (al !!! Z.to_nat n) 0); [lia|]. rewrite bind_ret_l. by rewrite xint_id by lia.
  - rewrite (fa_ib ltac:(lia)) in fa_ind. destruct fa_ind as [Hi _]. change (Z.to_nat NDIRECT) with 12%nat in *.
    rewrite xint_id by lia. destruct (Z.eqb_spec (al !!! 12%nat) 0); [lia|]. rewrite bind_ret_l, xint_id by lia.
    erewrite bind_Ret; [|apply rsect_run; [done|unfold FSSIZE; lia]]. unfold ind_get in *.
    change (host_get32 false) with get32. destruct (Z.eqb_spec (get32 (view s (al !!! 12%nat)) (4 * (n - NDIRECT))) 0); [lia|].
    rewrite bind_ret_l. by rewrite xint_id by lia.
Qed.

(** A direct block. *)
Lemma iappend_block_direct ib : fileat s own al nb ib → nb < NDIRECT → mk_freeblock s < FSSIZE →
  let al' := <[Z.to_nat nb := mk_freeblock s]> al in let s' := bump s in
  iappend_block false nb al s = Ret (iaddr (view s') al' nb, al') s' ∧ good s' ∧
  ∃ own', ext i s own s' own' ∧ fileat s' own' al' (nb + 1) ib.
Proof using Hg.
  intros Hf Hd Hfb al' s'. pose proof Hf as []. pose proof Hg as [].
  assert (H0 : al !!! Z.to_nat nb = 0).
  { pose proof (fa_none nb) as E. unfold iaddr in E. destruct (Z.ltb_spec nb NDIRECT); [|lia]. apply E. fsnorm. lia. }
  assert (E : al' !!! Z.to_nat nb = mk_freeblock s) by (apply list_lookup_total_insert_eq; fsnorm; lia).
  split; [|split; [by apply good_bump|]].
  - unfold iappend_block, iaddr. destruct (Z.ltb_spec nb NDIRECT); [|lia]. rewrite H0. change (xint false 0 =? 0) with true. cbn iota.
    rewrite bind_assoc. erewrite bind_Ret; [|by apply next_block_run]. rewrite bind_ret_l.
    rewrite (xint_id (mk_freeblock s)) by (unfold nmeta, FSSIZE in *; lia). fold al' s'. rewrite E.
    by rewrite xint_id by (unfold nmeta, FSSIZE in *; lia).
  - exists (upd own (mk_freeblock s) (i, nb)). split; [apply ext_bump|].
    apply file_add_direct; [done|lia|apply gd_zero0; lia|done].
Qed.

(** A block of the indirect block, once that is there. *)
Lemma indirect_step : fileat s own al nb true → NDIRECT ≤ nb < MAXFILE → mk_freeblock s < FSSIZE →
  let a := al !!! 12%nat in
  let s' := wr a (ind_put (nb - NDIRECT) (mk_freeblock s) (view s a)) (bump s) in
  get32 (view s a) (4 * (nb - NDIRECT)) = 0 ∧ good s' ∧ iaddr (view s') al nb = mk_freeblock s ∧
  view s' a = ind_put (nb - NDIRECT) (mk_freeblock s) (view s a) ∧
  ∃ own', ext i s own s' own' ∧ fileat s' own' al (nb + 1) true.
Proof using Hg.
  intros Hf Hd Hfb a s'. pose proof Hf as []. pose proof Hg as []. destruct fa_ind as [Hi Hoi]. fold a in Hi, Hoi.
  pose proof (good_bump s Hg Hfb) as Hgb. unfold nmeta, FSSIZE in *.
  assert (Ha : 0 ≤ a < 2000) by lia.
  assert (Hv : ∀ x, view s' x = upd (view s) a (ind_put (nb - NDIRECT) (mk_freeblock s) (view s a)) x).
  { intros x. unfold s'. rewrite view_wr by (done || lia). done. }
  assert (Hok : block_ok (view s a)) by (apply gd_blocks0; lia).
  assert (Hoki : block_ok (ind_put (nb - NDIRECT) (mk_freeblock s) (view s a))) by (apply ind_put_ok; [done|fsnorm; lia]).
  assert (Hnew : file_at (view s') (mk_freeblock s + 1) (upd own (mk_freeblock s) (i, nb)) i al c (nb + 1) true).
  { apply (file_add_entry (view s)); try done; unfold nmeta; [lia|apply gd_zero0; lia|lia]. }
  split; [|split; [|split; [|split]]].
  - pose proof (fa_none nb ltac:(lia)) as E. unfold iaddr in E. destruct (Z.ltb_spec nb NDIRECT); [lia|].
    fold a in E. destruct (Z.eqb_spec a 0); [lia|]. done.
  - unfold s'. apply good_wr; [done|unfold FSSIZE; lia|cbn; lia|done].
  - unfold iaddr. destruct (Z.ltb_spec nb NDIRECT); [lia|]. fold a. destruct (Z.eqb_spec a 0); [lia|].
    rewrite Hv, upd_eq. apply ind_get_put_eq; [done|fsnorm; lia|lia].
  - by rewrite Hv, upd_eq.
  - exists (upd own (mk_freeblock s) (i, nb)). split; [|done].
    eapply ext_trans; [apply ext_bump|]. apply ext_wr; [done|unfold nmeta, FSSIZE; lia|]. rewrite upd_ne by lia. by rewrite Hoi.
Qed.
End block.

(** The number of data blocks of a file of [len] bytes, and with its indirect
    block. *)
Definition blocks (len : Z) : Z := (len + 1023) / 1024.
Definition nblk_of (nb : Z) : Z := nb + if NDIRECT <? nb then 1 else 0.
Definition nblk (len : Z) : Z := nblk_of (blocks len).

Lemma indirect_run s own i al c nb : good s → file_at (view s) (mk_freeblock s) own i al c nb true →
  NDIRECT ≤ nb < MAXFILE → mk_freeblock s < FSSIZE → ∃ s' own',
  iappend_block false nb al s = Ret (iaddr (view s') al nb, al) s' ∧ good s' ∧ ext i s own s' own' ∧
  mk_freeblock s' = mk_freeblock s + 1 ∧ file_at (view s') (mk_freeblock s') own' i al c (nb + 1) true.
Proof.
  intros Hg Hf Hn Hfb. destruct (indirect_step s own i al c nb Hg Hf Hn Hfb) as (H0 & Hg' & Hia & Hv & own' & Hx & Hf').
  eexists _, own'. split; [|split; [exact Hg'|split; [exact Hx|split; [done|exact Hf']]]].
  pose proof Hf as []. destruct fa_ind as [Hi _]. pose proof Hg as []. unfold nmeta, FSSIZE in *.
  unfold iappend_block. destruct (Z.ltb_spec nb NDIRECT); [lia|]. change (Z.to_nat NDIRECT) with 12%nat.
  rewrite xint_id by lia. destruct (Z.eqb_spec (al !!! 12%nat) 0); [lia|]. rewrite bind_ret_l, xint_id by lia.
  erewrite bind_Ret; [|apply rsect_run; [done|unfold FSSIZE; lia]]. change (host_get32 false) with get32. rewrite H0. cbn [Z.eqb].
  rewrite bind_assoc. erewrite bind_Ret; [|by apply next_block_run]. rewrite xint_id by lia.
  change (blk_put (view s (al !!! 12%nat)) (4 * (nb - NDIRECT)) (host_split false 4 (mk_freeblock s)))
    with (ind_put (nb - NDIRECT) (mk_freeblock s) (view s (al !!! 12%nat))).
  rewrite bind_assoc. erewrite bind_Ret; [|apply wsect_run; [by apply good_bump|unfold FSSIZE; lia]]. rewrite bind_ret_l.
  rewrite Hia. unfold mret, M_ret. do 2 f_equal. change (get32 ?b (4 * ?k)) with (ind_get b k).
  rewrite ind_get_put_eq; [apply xint_id; lia|apply gd_blocks0; unfold FSSIZE; lia|fsnorm; lia|lia].
Qed.

(** The indirect block itself. *)
Lemma indirect_new s own i al c nb : good s → file_at (view s) (mk_freeblock s) own i al c nb false →
  NDIRECT ≤ nb < MAXFILE → mk_freeblock s < FSSIZE → let al' := <[12%nat := mk_freeblock s]> al in ∃ own',
  iappend_block false nb al s = iappend_block false nb al' (bump s) ∧ ext i s own (bump s) own' ∧
  file_at (view (bump s)) (mk_freeblock (bump s)) own' i al' c nb true.
Proof.
  intros Hg Hf Hn Hfb al'. exists (upd own (mk_freeblock s) (i, MAXFILE)). pose proof Hg as []. pose proof Hf as [].
  unfold nmeta, FSSIZE in *. assert (E : al' !!! 12%nat = mk_freeblock s) by (apply list_lookup_total_insert_eq; lia).
  split; [|split; [apply ext_bump|apply (file_add_ind _ _ _ _ _ _ _ false); unfold nmeta; [done|lia|apply gd_zero0; lia|done]]].
  unfold iappend_block. destruct (Z.ltb_spec nb NDIRECT); [lia|]. change (Z.to_nat NDIRECT) with 12%nat.
  rewrite fa_ind, E. rewrite !(xint_id (mk_freeblock s)) by lia. change (xint false 0 =? 0) with true.
  destruct (Z.eqb_spec (mk_freeblock s) 0); [lia|]. cbn iota. rewrite bind_assoc.
  erewrite bind_Ret; [|by apply next_block_run]. rewrite !bind_ret_l. rewrite (xint_id (mk_freeblock s)) by lia. fold al'. by rewrite E.
Qed.

(** A new block at the end of the file. *)
Lemma iappend_block_new s own i al c nb : good s → file_at (view s) (mk_freeblock s) own i al c nb (NDIRECT <? nb) →
  nb < MAXFILE → mk_freeblock s + (nblk_of (nb + 1) - nblk_of nb) ≤ FSSIZE → ∃ s' own' al',
  iappend_block false nb al s = Ret (iaddr (view s') al' nb, al') s' ∧ good s' ∧ ext i s own s' own' ∧
  mk_freeblock s' = mk_freeblock s + (nblk_of (nb + 1) - nblk_of nb) ∧
  file_at (view s') (mk_freeblock s') own' i al' c (nb + 1) (NDIRECT <? nb + 1).
Proof.
  intros Hg Hf Hn Hfb. unfold nblk_of in *. fsnorm. destruct (Z.ltb_spec 12 nb) as [H12|H12]; (destruct (Z.ltb_spec 12 (nb + 1)); try lia).
  - destruct (indirect_run s own i al c nb Hg Hf) as (s' & own' & Hr & Hg' & Hx & Hfb' & Hf'); [fsnorm; lia|lia|].
    exists s', own', al. split_and!; try done; lia.
  - destruct (indirect_new s own i al c nb Hg Hf) as (own1 & Hr1 & Hx1 & Hf1); [fsnorm; lia|lia|].
    destruct (indirect_run (bump s) own1 i _ c nb (good_bump s Hg ltac:(lia)) Hf1) as (s' & own' & Hr & Hg' & Hx & Hfb' & Hf'); [fsnorm; lia|cbn; lia|].
    exists s', own'. eexists. rewrite Hr1. split_and!; try done; [by eapply ext_trans|]. cbn in Hfb'. lia.
  - destruct (iappend_block_direct s own i al c nb Hg false Hf) as (Hr & Hg' & own' & Hx & Hf'); [fsnorm; lia|lia|].
    eexists _, own', _. split_and!; [exact Hr|done|done|cbn; lia|done].
Qed.

(** ** The loop of iappend() *)

Lemma blocks_spec len : 0 ≤ len → (blocks len - 1) * 1024 < len ≤ blocks len * 1024 ∧ 0 ≤ blocks len.
Proof. intros. unfold blocks. pose proof (Z.div_mod (len + 1023) 1024). pose proof (Z.mod_pos_bound (len + 1023) 1024). nia. Qed.
Lemma blocks_unique len nb : 0 ≤ len → (nb - 1) * 1024 < len ≤ nb * 1024 → blocks len = nb.
Proof. intros. pose proof (blocks_spec len). nia. Qed.
Lemma nblk_mono a b : 0 ≤ a ≤ b → 0 ≤ nblk a ≤ nblk b.
Proof.
  intros. unfold nblk, nblk_of. assert (blocks a ≤ blocks b) by (apply Z.div_le_mono; lia).
  pose proof (blocks_spec a). fsnorm. destruct (Z.ltb_spec 12 (blocks a)), (Z.ltb_spec 12 (blocks b)); lia.
Qed.

(** The file of inode [i] is the bytes [c]. *)
Definition has_file (s : mkfs) (own : Z → Z * Z) (i : Z) (al : list Z) (c : list byte) : Prop :=
  file_at (view s) (mk_freeblock s) own i al c (blocks (Z.of_nat (length c))) (NDIRECT <? blocks (Z.of_nat (length c))).

(** The block with the end of the file is found or made. *)
Lemma end_block s own i al c m : good s → has_file s own i al c → let len := Z.of_nat (length c) in
  0 < m → len mod BSIZE + m ≤ BSIZE → len < MAXFILE * BSIZE → mk_freeblock s + (nblk (len + m) - nblk len) ≤ FSSIZE → ∃ s' own' al',
  iappend_block false (len / BSIZE) al s = Ret (iaddr (view s') al' (len / BSIZE), al') s' ∧ good s' ∧ ext i s own s' own' ∧
  mk_freeblock s' = mk_freeblock s + (nblk (len + m) - nblk len) ∧
  file_at (view s') (mk_freeblock s') own' i al' c (len / BSIZE + 1) (NDIRECT <? len / BSIZE + 1) ∧ blocks (len + m) = len / BSIZE + 1.
Proof.
  intros Hg Hf len Hm Hr Hmax Hcap. fsnorm. assert (H0 : 0 ≤ len) by lia. pose proof (blocks_spec len H0) as [Hb Hb0].
  pose proof (Z.div_mod len 1024 ltac:(done)) as Hd. pose proof (Z.mod_pos_bound len 1024 ltac:(done)).
  assert (Hnew : blocks (len + m) = len / 1024 + 1) by (apply blocks_unique; lia).
  unfold has_file in Hf. fold len in Hf. destruct (decide (len mod 1024 = 0)) as [E|E].
  - assert (Hold : blocks len = len / 1024) by (apply blocks_unique; lia). unfold nblk in *. rewrite Hold, Hnew in *.
    destruct (iappend_block_new s own i al c (len / 1024) Hg) as (s' & own' & al' & H1 & H2 & H3 & H4 & H5); fsnorm; try done; [lia|].
    exists s', own', al'. split_and!; try done.
  - assert (Hold : blocks len = len / 1024 + 1) by (apply blocks_unique; lia). unfold nblk in *. rewrite Hold, Hnew in *.
    exists s, own, al. split_and!; try done; [|lia].
    eapply iappend_block_old; [done|done|lia].
Qed.

Lemma iappend_loop_run fuel s own i al c p : good s → has_file s own i al c → (length p < fuel)%nat →
  Z.of_nat (length (c ++ p)) ≤ MAXFILE * BSIZE →
  mk_freeblock s + (nblk (Z.of_nat (length (c ++ p))) - nblk (Z.of_nat (length c))) ≤ FSSIZE → ∃ s' own' al',
  iappend_loop false fuel (Z.of_nat (length c)) al p s = Ret (Z.of_nat (length (c ++ p)), al') s' ∧ good s' ∧ ext i s own s' own' ∧
  mk_freeblock s' = mk_freeblock s + (nblk (Z.of_nat (length (c ++ p))) - nblk (Z.of_nat (length c))) ∧
  has_file s' own' i al' (c ++ p).
Proof.
  revert s own al c p. induction fuel as [|fuel IH]; intros s own al c p Hg Hf Hl Hmax Hcap; [lia|]. cbn [iappend_loop].
  destruct (decide (length p = 0)%nat) as [H0|H0].
  { apply length_zero_iff_nil in H0 as ->. rewrite app_nil_r in *. exists s, own, al. split_and!; try done; lia. }
  destruct (Nat.ltb_spec 0 (length p)); [|lia]. set (len := Z.of_nat (length c)) in *.
  pose proof (Z.div_mod len BSIZE ltac:(done)) as Hd. pose proof (Z.mod_pos_bound len BSIZE ltac:(done)) as Hm.
  rewrite length_app in Hmax, Hcap. assert (Hfbn : 0 ≤ len / BSIZE < MAXFILE) by (apply block_of; lia).
  unfold m_assert at 1. destruct (Z.ltb_spec (len / BSIZE) MAXFILE); [|lia]. rewrite bind_ret_l.
  rewrite (u32_id ((len / BSIZE + 1) * BSIZE - len)) by (fsnorm; lia).
  set (m := Z.min (Z.of_nat (length p)) ((len / BSIZE + 1) * BSIZE - len)).
  assert (Hmr : 0 < m ∧ m ≤ Z.of_nat (length p) ∧ len mod BSIZE + m ≤ BSIZE) by (subst m; fsnorm; lia). clearbody m.
  destruct Hmr as (Hm0 & Hmp & Hmb).
  pose proof (nblk_mono (len + m) (Z.of_nat (length c + length p)) ltac:(lia)) as Hmono.
  destruct (end_block s own i al c m Hg Hf Hm0 Hmb) as (s1 & own1 & al1 & Hr1 & Hg1 & Hx1 & Hfb1 & Hf1 & Hbl); [fold len; lia|fold len; lia|].
  fold len in Hr1, Hfb1, Hf1, Hbl. erewrite bind_Ret by exact Hr1. cbn beta iota.
  set (a := iaddr (view s1) al1 (len / BSIZE)) in *. pose proof Hf1 as []. destruct (fa_blk (len / BSIZE)) as [Ha Oa]; [lia|].
  fold a in Ha, Oa. pose proof Hg1 as []. assert (Har : 0 ≤ a < FSSIZE) by (unfold nmeta in *; lia).
  erewrite bind_Ret; [|apply rsect_run; [done|done]].
  erewrite bind_Ret; [|apply wsect_run; [done|done]].
  set (w := take (Z.to_nat m) p). assert (Hw : Z.of_nat (length w) = m) by (subst w; rewrite length_take; lia).
  replace (len - len / BSIZE * BSIZE) with (len mod BSIZE) by lia.
  set (s2 := wr a (blk_put (view s1 a) (len mod BSIZE) w) s1).
  assert (Hoka : block_ok (view s1 a)) by by apply gd_blocks0.
  assert (Hf2 : has_file s2 own1 i al1 (c ++ w)).
  { unfold has_file. rewrite length_app, Nat2Z.inj_add, Hw. fold len. rewrite Hbl.
    change (mk_freeblock s2) with (mk_freeblock s1). apply (file_append (view s1)); fold len a; try done; [lia|lia|].
    intros x. unfold s2. by apply view_wr. }
  assert (Hg2 : good s2). { apply good_wr; [done|done|lia|]. unfold block_ok in *. rewrite blk_put_length; lia. }
  assert (Hx2 : ext i s1 own1 s2 own1) by (apply ext_wr; [done|lia|by rewrite Oa]).
  assert (Hlw : Z.of_nat (length (c ++ w)) = len + m) by (rewrite length_app; lia).
  assert (Hcp : (c ++ w) ++ drop (Z.to_nat m) p = c ++ p) by (rewrite <- app_assoc; f_equal; apply take_drop).
  rewrite (u32_id (len + m)) by (fsnorm; lia). rewrite <- Hlw.
  destruct (IH s2 own1 al1 (c ++ w) (drop (Z.to_nat m) p)) as (s' & own' & al' & Hr & Hg' & Hx' & Hfb' & Hf'); try done.
  { rewrite length_drop. lia. }
  { rewrite Hcp, length_app. lia. }
  { rewrite Hcp, length_app, Hlw. change (mk_freeblock s2) with (mk_freeblock s1). lia. }
  rewrite Hcp, Hlw in *. exists s', own', al'. split_and!; try done.
  - eapply ext_trans; [exact Hx1|]. by eapply ext_trans.
  - rewrite Hfb'. change (mk_freeblock s2) with (mk_freeblock s1). lia.
Qed.

(** ** mkfs/mkfs.c: the inodes of the image *)

(** ** Inodes in the image *)

(** The inode blocks have room for 208 inodes. *)
Definition ISLOTS : Z := 208.
Definition dinode_at (v : Z → block) (i : Z) : dinode := get_dinode (v (IBLOCK i mk_super)) (i mod IPB).

Lemma iblock_super i : 0 ≤ i < ISLOTS → 32 ≤ IBLOCK i mk_super < 45.
Proof.
  unfold ISLOTS, IBLOCK. change IPB with 16. cbn [sb_inodestart mk_super]. intros Hi.
  pose proof (Z.div_pos i 16). assert (i / 16 < 13) by (apply Z.div_lt_upper_bound; lia). lia.
Qed.
Lemma slot_range i : 0 ≤ i mod IPB < IPB.
Proof. by apply Z.mod_pos_bound. Qed.

Lemma rinode_run s i : good s → 0 ≤ i < ISLOTS → rinode false i s = Ret (dinode_at (view s) i) s.
Proof.
  intros Hg Hi. pose proof (iblock_super i Hi). pose proof Hg as []. unfold rinode. rewrite bind_gets, gd_sb0.
  rewrite u32_id by lia. erewrite bind_Ret; [|apply rsect_run; [done|unfold FSSIZE; lia]]. done.
Qed.

(** What winode() changes. *)
Definition set_dinode (i : Z) (d : dinode) (s s' : mkfs) : Prop :=
  good s' ∧ mk_freeblock s' = mk_freeblock s ∧ mk_freeinode s' = mk_freeinode s ∧ dinode_at (view s') i = d ∧
  (∀ j, 0 ≤ j < ISLOTS → j ≠ i → dinode_at (view s') j = dinode_at (view s) j) ∧
  ∀ x, ¬ (32 ≤ x < 45) → view s' x = view s x.

Lemma winode_run s i d : good s → 0 ≤ i < ISLOTS → dinode_ok d → ∃ s', winode false i d s = Ret tt s' ∧ set_dinode i d s s'.
Proof.
  intros Hg Hi Hd. pose proof (iblock_super i Hi) as Hb. pose proof Hg as []. pose proof (slot_range i) as Hs.
  set (b := IBLOCK i mk_super) in *. assert (Hbf : 0 ≤ b < FSSIZE) by (unfold FSSIZE; lia).
  assert (Hok : block_ok (view s b)) by by apply gd_blocks0. pose proof Hd as [].
  exists (wr b (put_dinode (view s b) (i mod IPB) d) s). split.
  - unfold winode. rewrite bind_gets, gd_sb0. fold b. rewrite u32_id by lia. erewrite bind_Ret; [|by apply rsect_run].
    by apply wsect_run.
  - split; [apply good_wr; [done|done|unfold nmeta in *; lia|by apply put_dinode_ok]|].
    split; [done|]. split; [done|]. unfold dinode_at. fold b. split.
    { rewrite view_wr, upd_eq by done. by apply get_put_dinode. }
    split.
    + intros j Hj Hne. rewrite view_wr by done. unfold upd. destruct (Z.eqb_spec (IBLOCK j mk_super) b) as [E|]; [|done].
      rewrite E. apply get_put_dinode_ne; try done; [apply slot_range|]. unfold IBLOCK in E. intros Em. apply Hne.
      rewrite (Z.div_mod j IPB), (Z.div_mod i IPB) by done. unfold b, IBLOCK in E. rewrite Em. f_equal. f_equal. lia.
    + intros x Hx. rewrite view_wr by done. apply upd_ne. lia.
Qed.

(** A file is read through its data blocks alone. *)
Lemma set_dinode_file i d s s' own j al c : set_dinode i d s s' → has_file s own j al c → has_file s' own j al c.
Proof.
  intros (_ & Hfb & _ & _ & _ & Hv) Hf. unfold has_file in *. rewrite Hfb. eapply file_frame; [done|lia|done|].
  intros x Hx _. apply Hv. unfold nmeta in Hx. lia.
Qed.

(** ** The inodes made so far *)

Abbreviation node := (Z * list byte)%type.
Definition size_of (n : node) : Z := Z.of_nat (length n.2).
Definition used_blocks (D : list node) : Z := foldr (λ n a, nblk (size_of n) + a) 0 D.

Lemma used_blocks_app D E : used_blocks (D ++ E) = used_blocks D + used_blocks E.
Proof. induction D as [|n D IH]; [done|]. unfold used_blocks in *. cbn [app foldr]. rewrite IH. lia. Qed.
Lemma used_blocks_nonneg D : 0 ≤ used_blocks D.
Proof.
  induction D as [|n D IH]; [done|]. unfold used_blocks in *. cbn [foldr]. pose proof (nblk_mono (size_of n) (size_of n)).
  unfold size_of in *. lia.
Qed.
Lemma used_blocks_insert D k n m : D !! k = Some n → used_blocks (<[k := m]> D) = used_blocks D - nblk (size_of n) + nblk (size_of m).
Proof.
  intros Hk. rewrite insert_take_drop by by eapply lookup_lt_Some.
  replace (used_blocks D) with (used_blocks (take k D ++ n :: drop (S k) D)) by (by rewrite take_drop_middle).
  rewrite !used_blocks_app. unfold used_blocks. cbn [foldr]. lia.
Qed.

Definition dinode_zero : dinode := Dinode 0 0 0 0 0 (replicate 13 0).
Definition super_block : block := blk_put zero_block 0 (superblock_bytes false mk_super).

Record built (s : mkfs) (own : Z → Z * Z) (D : list node) : Prop := {
  bt_good : good s;
  bt_super : view s 1 = super_block;
  bt_ino : mk_freeinode s = 1 + Z.of_nat (length D);
  bt_max : Z.of_nat (length D) < NINODES;
  bt_free : mk_freeblock s = nmeta + used_blocks D;
  bt_file k n : D !! k = Some n → ∃ al, dinode_at (view s) (1 + Z.of_nat k) = Dinode n.1 0 0 1 (size_of n) al ∧
    has_file s own (1 + Z.of_nat k) al n.2;
  bt_rest i : Z.of_nat (length D) < i < ISLOTS → dinode_at (view s) i = dinode_zero
}.

Definition type_ok (t : Z) : Prop := t = T_DIR ∨ t = T_FILE.

Lemma file_addrs_ok s own i al c : good s → has_file s own i al c → length al = 13%nat ∧ Forall (λ a, 0 ≤ a < 2 ^ 32) al.
Proof.
  intros Hg Hf. pose proof Hg as []. pose proof Hf as []. split; [done|]. apply Forall_lookup. intros k a Hk. unfold nmeta, FSSIZE in *.
  pose proof (lookup_lt_Some _ _ _ Hk) as Hl. apply list_lookup_total_correct in Hk. destruct (decide (k = 12)%nat) as [->|Hne].
  - rewrite Hk in fa_ind. destruct (NDIRECT <? _); [|subst; lia]. destruct fa_ind. lia.
  - assert (E : iaddr (view s) al (Z.of_nat k) = a).
    { unfold iaddr. destruct (Z.ltb_spec (Z.of_nat k) NDIRECT); [|fsnorm; lia]. by rewrite Nat2Z.id. }
    rewrite <- E. pose proof (iaddr_range s own i al c _ Hg _ (Z.of_nat k) Hf) as Hr. unfold FSSIZE in Hr. fsnorm. lia.
Qed.

(** The inode blocks are below the data blocks. *)
Lemma ext_dinode i s own s' own' j : ext i s own s' own' → good s → 0 ≤ j < ISLOTS → dinode_at (view s') j = dinode_at (view s) j.
Proof.
  intros [] [] Hj. pose proof (iblock_super j Hj). unfold dinode_at. rewrite ex_view0; [done|..]; unfold nmeta in *; [lia|left; lia].
Qed.

Lemma bt_slot s own D k n : built s own D → D !! k = Some n → 0 ≤ 1 + Z.of_nat k < ISLOTS.
Proof. intros [] Hk. apply lookup_lt_Some in Hk. unfold NINODES, ISLOTS in *. lia. Qed.

(** iappend() appends. *)
Lemma iappend_run s own D k t c p : built s own D → D !! k = Some (t, c) → short t →
  Z.of_nat (length (c ++ p)) ≤ MAXFILE * BSIZE → nmeta + used_blocks (<[k := (t, c ++ p)]> D) ≤ FSSIZE → ∃ s' own',
  iappend false (1 + Z.of_nat k) p s = Ret tt s' ∧ built s' own' (<[k := (t, c ++ p)]> D).
Proof.
  intros Hb Hk Ht Hmax Hcap. pose proof Hb as []. pose proof (bt_slot _ _ _ _ _ Hb Hk) as Hi. set (i := 1 + Z.of_nat k) in *.
  destruct (bt_file0 k _ Hk) as (al & Hd & Hf). fold i in Hd, Hf. cbn [fst snd] in *.
  rewrite (used_blocks_insert D k _ _ Hk) in Hcap. unfold size_of in Hcap. cbn [snd] in Hcap.
  unfold iappend. erewrite bind_Ret by by apply rinode_run. rewrite Hd. cbn [d_size d_addrs d_type d_major d_minor d_nlink].
  unfold size_of at 1. cbn [snd]. rewrite length_app in Hmax. rewrite xint_id by (fsnorm; lia).
  destruct (iappend_loop_run (S (length p)) s own i al c p) as (s1 & own1 & al1 & Hr1 & Hg1 & Hx1 & Hfb1 & Hf1); try done; [lia|by rewrite length_app|lia|].
  erewrite bind_Ret by exact Hr1. cbn beta iota. rewrite length_app in *. rewrite xint_id by (fsnorm; lia).
  destruct (file_addrs_ok _ _ _ _ _ Hg1 Hf1) as [Hl1 Ha1].
  destruct (winode_run s1 i (Dinode t 0 0 1 (Z.of_nat (length c + length p)) al1)) as (s2 & Hr2 & Hs2); try done.
  { split; try done; cbn [d_size]. fsnorm. lia. }
  exists s2, own1. split; [exact Hr2|]. pose proof Hs2 as (Hg2 & Hfb2 & Hi2 & Hd2 & Hd2' & Hv2). pose proof Hx1 as [].
  assert (Hlen : length (<[k:=(t, c ++ p)]> D) = length D) by apply length_insert.
  split; rewrite ?Hlen; try done.
  - rewrite Hv2 by lia. pose proof bt_good0 as []. rewrite ex_view0; [done|..]; unfold nmeta in *; [lia|left; lia].
  - congruence.
  - rewrite Hfb2, Hfb1, bt_free0, (used_blocks_insert D k _ _ Hk). unfold size_of. cbn [snd]. rewrite length_app. lia.
  - intros j n Hj. destruct (decide (j = k)) as [->|Hne].
    + rewrite list_lookup_insert_eq in Hj by by eapply lookup_lt_Some. injection Hj as <-. exists al1. fold i. cbn [fst snd]. split.
      * rewrite Hd2. unfold size_of. cbn [snd]. by rewrite length_app.
      * by eapply set_dinode_file.
    + rewrite list_lookup_insert_ne in Hj by done. destruct (bt_file0 j n Hj) as (alj & Hdj & Hfj). exists alj.
      pose proof (bt_slot _ _ _ _ _ Hb Hj). split.
      * rewrite Hd2' by (done || lia). erewrite ext_dinode by done. done.
      * eapply set_dinode_file; [done|]. eapply ext_file; [done|lia|done].
  - intros j Hj. pose proof (lookup_lt_Some _ _ _ Hk). rewrite Hd2' by (unfold i; lia). erewrite ext_dinode by (done || lia). by apply bt_rest0.
Qed.

Lemma nblk_0 : nblk 0 = 0.
Proof. reflexivity. Qed.

(** An empty file takes no block. *)
Lemma empty_file s own i : good s → has_file s own i (replicate 13 0) [].
Proof.
  intros []. assert (Hz : ∀ n, 0 ≤ n → iaddr (view s) (replicate 13 0) n = 0).
  { intros n Hn. unfold iaddr. destruct (Z.ltb_spec n NDIRECT); [|reflexivity]. rewrite list_lookup_total_alt.
    rewrite lookup_replicate_2 by (fsnorm; lia). done. }
  split; try done; intros; change (blocks _) with 0 in *; fsnorm; try lia. apply Hz. lia.
Qed.

(** ialloc() makes the next inode. *)
Lemma mkfs_ialloc_run s own D t : built s own D → type_ok t → Z.of_nat (length D) + 1 < NINODES → ∃ s',
  mkfs_ialloc false t s = Ret (1 + Z.of_nat (length D)) s' ∧ built s' own (D ++ [(t, [])]).
Proof.
  intros Hb Ht Hn. pose proof Hb as []. unfold NINODES in *. set (i := 1 + Z.of_nat (length D)) in *.
  unfold mkfs_ialloc. rewrite bind_gets, bind_modify, bt_ino0. rewrite u32_id by lia. fold i.
  set (s1 := set_freeinode (i + 1) s). assert (Hg1 : good s1) by (destruct bt_good0; by split).
  assert (Et : i16 (xshort false t) = t) by (destruct Ht as [-> | ->]; reflexivity). rewrite Et.
  change (i16 (xshort false 1)) with 1. change (xint false 0) with 0.
  destruct (winode_run s1 i (Dinode t 0 0 1 0 (replicate 13 0))) as (s2 & Hr2 & Hs2); [done|unfold ISLOTS; lia| |].
  { split; try done; [|apply Forall_replicate; lia]. destruct Ht as [-> | ->]; split; done. }
  erewrite bind_Ret by exact Hr2. exists s2. split; [done|]. pose proof Hs2 as (Hg2 & Hfb2 & Hi2 & Hd2 & Hd2' & Hv2).
  split; rewrite ?length_app; cbn [length]; try done.
  - rewrite Hv2 by lia. done.
  - rewrite Hi2. unfold s1. cbn [mk_freeinode set_freeinode]. lia.
  - unfold NINODES. lia.
  - rewrite Hfb2, used_blocks_app. unfold used_blocks at 2. cbn [foldr]. change (size_of (t, [])) with 0. rewrite nblk_0.
    change (mk_freeblock s1) with (mk_freeblock s). lia.
  - intros j n Hj. apply lookup_snoc_Some in Hj as [[Hl Hj]|[-> <-]].
    + destruct (bt_file0 j n Hj) as (alj & Hdj & Hfj). exists alj. split; [|by eapply set_dinode_file].
      rewrite Hd2' by (unfold ISLOTS; lia). done.
    + exists (replicate 13 0). fold i. split; [done|]. by apply empty_file.
  - intros j Hj. unfold ISLOTS in *. rewrite Hd2' by (unfold ISLOTS; lia). apply bt_rest0. unfold ISLOTS. lia.
Qed.
