(* ===== verification/MkfsThms.v ===== *)
(** * mkfs/mkfs.c: the image is a file system of the kernel

    Each file of the command line becomes an inode with its contents and an
    entry in the root directory, as long as everything fits.

    main() on a host with RISC-V's byte order, for any list of files that fits
    the disk: the kernel's own reading of the image ([get_superblock],
    [get_dinode], [iaddr], [fslice], [dents], [bused]) gives the files back,
    and the invariants [file_ok] and [dense] of fs.c hold.  Three theorems
    about its limits: the root directory that fills its last block, more
    inodes than fit, and a host with the other byte order. *)

From stdpp Require Import base gmap sets strings numbers list.
From coqutil Require Import Byte Word.LittleEndianList.
From S2P Require Import Prelude Riscv Spinlock Block Sleeplock Fs FsBlocks FsAlloc FsBmap FsFile FsInode FsDir Mkfs MkfsFile MkfsRun.

(** The bytes that the reads of a file return up to its end. *)
Fixpoint file_bytes (reads : list (list byte)) : list byte :=
  match reads with
  | [] => []
  | buf :: reads => if (0 <? length buf)%nat then buf ++ file_bytes reads else []
  end.

Lemma built_eq s own D D' : built s own D → D = D' → built s own D'.
Proof. by intros ? <-. Qed.

Lemma copy_file_run l s own D k t c : built s own D → D !! k = Some (t, c) → short t →
  Z.of_nat (length (c ++ file_bytes l)) ≤ MAXFILE * BSIZE → nmeta + used_blocks (<[k := (t, c ++ file_bytes l)]> D) ≤ FSSIZE → ∃ s' own',
  copy_file false (1 + Z.of_nat k) l s = Ret tt s' ∧ built s' own' (<[k := (t, c ++ file_bytes l)]> D).
Proof.
  revert s own D c. induction l as [|b l IH]; intros s own D c Hb Hk Ht Hmax Hcap; cbn [copy_file file_bytes] in *.
  { exists s, own. split; [done|]. eapply built_eq; [done|]. by rewrite app_nil_r, list_insert_id. }
  destruct (0 <? length b)%nat.
  2:{ exists s, own. split; [done|]. eapply built_eq; [done|]. by rewrite app_nil_r, list_insert_id. }
  rewrite app_assoc in *. pose proof (lookup_lt_Some _ _ _ Hk) as Hl.
  assert (Hk' : <[k := (t, c ++ b)]> D !! k = Some (t, c ++ b)) by by apply list_lookup_insert_eq.
  rewrite (used_blocks_insert D k _ _ Hk) in Hcap.
  destruct (iappend_run s own D k t c b Hb Hk Ht) as (s1 & own1 & Hr1 & Hb1).
  { rewrite length_app in Hmax. lia. }
  { rewrite (used_blocks_insert D k _ _ Hk). pose proof (nblk_mono (size_of (t, c ++ b)) (size_of (t, (c ++ b) ++ file_bytes l))) as Hm.
    unfold size_of in *. cbn [snd] in *. rewrite (length_app (c ++ b)) in *. lia. }
  erewrite bind_Ret by exact Hr1.
  destruct (IH s1 own1 _ (c ++ b) Hb1 Hk' Ht Hmax) as (s2 & own2 & Hr2 & Hb2); rewrite list_insert_insert_eq in *.
  { by rewrite (used_blocks_insert D k _ _ Hk). }
  by exists s2, own2.
Qed.

(** ** Directory entries *)

Definition dirent_of (inum : Z) (name : list byte) : dirent := Dirent inum (strncpy_bytes name DIRSIZ).

Lemma host_dirent inum name : 0 ≤ inum < 2 ^ 16 →
  host_dirent_bytes false (xshort false inum) (strncpy_bytes name DIRSIZ) = dirent_bytes (dirent_of inum name).
Proof.
  intros Hi. unfold host_dirent_bytes, xshort, host_combine, host_split. rewrite le_combine_split.
  rewrite Z.mod_small by (change (2 ^ (Z.of_nat 2 * 8)) with (2 ^ 16); lia). done.
Qed.

Lemma dirent_length inum name : length (dirent_bytes (dirent_of inum name)) = 16%nat.
Proof. unfold dirent_bytes, dirent_of. cbn [de_inum de_name]. by rewrite length_app, length_le_split, strncpy_length. Qed.

Lemma add_dirent_run s own D k t c inum name : built s own D → D !! k = Some (t, c) → short t → 0 ≤ inum < 2 ^ 16 →
  let c' := c ++ dirent_bytes (dirent_of inum name) in
  Z.of_nat (length c') ≤ MAXFILE * BSIZE → nmeta + used_blocks (<[k := (t, c')]> D) ≤ FSSIZE → ∃ s' own',
  add_dirent false (1 + Z.of_nat k) inum name s = Ret tt s' ∧ built s' own' (<[k := (t, c')]> D).
Proof. intros Hb Hk Ht Hi c' Hm Hc. unfold add_dirent. rewrite host_dirent by done. by eapply iappend_run. Qed.

(** ** The loop over the files *)

Section files.
Context (reads : list byte → option (list (list byte))).

Definition short_name (path : list byte) : list byte := strip_underscore (strip_user path).
Definition contents (path : list byte) : list byte := file_bytes (default [] (reads path)).
(** The file is there and its name has no slash. *)
Definition path_ok (path : list byte) : Prop :=
  (∃ l, reads path = Some l) ∧ forallb (λ c, negb (byte.unsigned c =? 0x2f)) (strip_user path) = true.

(** The entries of the files, numbered from [inum] on. *)
Fixpoint file_entries (inum : Z) (paths : list (list byte)) : list dirent :=
  match paths with
  | [] => []
  | p :: paths => dirent_of inum (short_name p) :: file_entries (inum + 1) paths
  end.
Definition dir_bytes (l : list dirent) : list byte := mjoin (dirent_bytes <$> l).
Definition file_nodes (paths : list (list byte)) : list node := (λ p, (T_FILE, contents p)) <$> paths.

Lemma used_blocks_cons n D : used_blocks (n :: D) = nblk (size_of n) + used_blocks D.
Proof. done. Qed.

Definition fits (D : list node) : Prop := nmeta + used_blocks D ≤ FSSIZE ∧ Forall (λ n, size_of n ≤ MAXFILE * BSIZE) D.

Lemma insert_node R F (n n' : node) : <[S (length F) := n']> (R :: F ++ [n]) = R :: F ++ [n'].
Proof. transitivity (R :: <[length F := n']> (F ++ [n])); [done|]. by rewrite insert_app_r_alt, Nat.sub_diag by lia. Qed.

Lemma lookup_node R F (n : node) : (R :: F ++ [n]) !! S (length F) = Some n.
Proof. transitivity ((F ++ [n]) !! length F); [done|]. by rewrite lookup_app_r, Nat.sub_diag by lia. Qed.

(** Fewer or shorter files fit too. *)
Lemma fits_prefix R e F n G : fits ((T_DIR, R ++ e) :: F ++ n :: G) → fits ((T_DIR, R) :: F ++ [n]).
Proof.
  unfold fits. rewrite !used_blocks_cons, !used_blocks_app, !used_blocks_cons. change (used_blocks []) with 0. intros [Hcap Hmax].
  inversion_clear Hmax as [|? ? HR HF]. apply Forall_app in HF as [HF HG]. inversion_clear HG.
  pose proof (used_blocks_nonneg G). unfold size_of in *. cbn [snd] in *. rewrite length_app in *.
  pose proof (nblk_mono (Z.of_nat (length R)) (Z.of_nat (length R + length e)) ltac:(lia)). split; [lia|].
  constructor; [cbn [snd]; lia|]. apply Forall_app. by split; [|constructor].
Qed.

(** One file. *)
Lemma add_file_run s own R F name l : built s own ((T_DIR, R) :: F) → Z.of_nat (length F) + 2 < NINODES →
  let inum := 2 + Z.of_nat (length F) in
  let D' := (T_DIR, R ++ dirent_bytes (dirent_of inum name)) :: F ++ [(T_FILE, file_bytes l)] in
  fits D' → ∃ s1 s2 s' own', mkfs_ialloc false T_FILE s = Ret inum s1 ∧ add_dirent false 1 inum name s1 = Ret tt s2 ∧
  copy_file false inum l s2 = Ret tt s' ∧ built s' own' D'.
Proof.
  intros Hb Hn inum D' [Hcap Hmax]. unfold D' in Hcap, Hmax. inversion_clear Hmax as [|? ? HmR HmF]. apply Forall_app in HmF as [HmF HmP].
  inversion_clear HmP as [|? ? Hmp _]. rewrite used_blocks_cons, used_blocks_app, used_blocks_cons in Hcap.
  change (used_blocks []) with 0 in Hcap. unfold size_of in *. cbn [snd] in *.
  pose proof (nblk_mono 0 (Z.of_nat (length (file_bytes l))) ltac:(lia)) as Hnp. rewrite nblk_0 in Hnp.
  destruct (mkfs_ialloc_run s own _ T_FILE Hb) as (s1 & Hr1 & Hb1); [by right|cbn [length]; lia|].
  cbn [length app] in *. replace (1 + Z.of_nat (S (length F))) with inum in Hr1 by lia.
  destruct (add_dirent_run s1 own _ 0 T_DIR R inum name Hb1 eq_refl) as (s2 & own2 & Hr2 & Hb2).
  { done. } { unfold NINODES in Hn. lia. } { done. }
  { cbn [insert list_insert]. rewrite used_blocks_cons, used_blocks_app, used_blocks_cons. unfold size_of. cbn [snd length].
    change (used_blocks []) with 0. change (Z.of_nat 0) with 0; rewrite nblk_0. lia. }
  cbn [insert list_insert] in Hb2.
  destruct (copy_file_run l s2 own2 _ (S (length F)) T_FILE [] Hb2) as (s3 & own3 & Hr3 & Hb3).
  { apply lookup_node. } { done. } { done. }
  { rewrite insert_node. rewrite used_blocks_cons, used_blocks_app, used_blocks_cons. unfold size_of. cbn [snd app]. change (used_blocks []) with 0. lia. }
  rewrite insert_node in Hb3. replace (1 + Z.of_nat (S (length F))) with inum in Hr3 by lia.
  by exists s1, s2, s3, own3.
Qed.

Lemma add_files_run paths s own R F : built s own ((T_DIR, R) :: F) → Forall path_ok paths →
  1 + Z.of_nat (length F) + Z.of_nat (length paths) < NINODES →
  let D' := (T_DIR, R ++ dir_bytes (file_entries (2 + Z.of_nat (length F)) paths)) :: F ++ file_nodes paths in
  fits D' → ∃ s' own', add_files false reads 1 paths s = Ret tt s' ∧ built s' own' D'.
Proof.
  revert s own R F. induction paths as [|p paths IH]; intros s own R F Hb Hok Hn D' Hfit.
  { exists s, own. split; [done|]. eapply built_eq; [done|]. unfold D', file_nodes. cbn. by rewrite !app_nil_r. }
  inversion_clear Hok as [|? ? [[l Hl] Hslash] Hok']. cbn [add_files length] in *. rewrite Hslash. unfold m_assert at 1. rewrite bind_ret_l, Hl.
  fold (short_name p). set (e := dirent_bytes (dirent_of (2 + Z.of_nat (length F)) (short_name p))) in *.
  set (es := dir_bytes (file_entries (2 + Z.of_nat (length F) + 1) paths)) in *.
  assert (Hc : contents p = file_bytes l) by (unfold contents; by rewrite Hl).
  assert (HD : D' = (T_DIR, (R ++ e) ++ es) :: F ++ (T_FILE, file_bytes l) :: file_nodes paths).
  { rewrite <- Hc, <- app_assoc. done. }
  clearbody D'. rewrite HD in Hfit. pose proof (fits_prefix _ _ _ _ _ Hfit) as Hfit1.
  destruct (add_file_run s own R F (short_name p) l Hb ltac:(lia) Hfit1) as (s1 & s2 & s3 & own3 & Hr1 & Hr2 & Hr3 & Hb3).
  erewrite bind_Ret by exact Hr1. erewrite bind_Ret by exact Hr2. erewrite bind_Ret by exact Hr3. fold e in Hb3.
  assert (Hlen : 2 + Z.of_nat (length (F ++ [(T_FILE, file_bytes l)])) = 2 + Z.of_nat (length F) + 1) by (rewrite length_app; cbn; lia).
  destruct (IH s3 own3 (R ++ e) (F ++ [(T_FILE, file_bytes l)]) Hb3 Hok') as (s4 & own4 & Hr4 & Hb4).
  { lia. }
  { rewrite Hlen. fold es. by rewrite <- (app_assoc F). }
  rewrite Hlen in Hb4. fold es in Hb4.
  exists s4, own4. split; [done|]. eapply built_eq; [exact Hb4|]. rewrite HD. by rewrite <- (app_assoc F).
Qed.
End files.

(** ** The empty image *)

Lemma wsect_append s b k : length (mk_img s) = k → (k < Z.to_nat FSSIZE)%nat → wsect (Z.of_nat k) b s = Ret tt (set_img (mk_img s ++ [b]) s).
Proof.
  intros Hl Hk. unfold FSSIZE in Hk. unfold wsect, modify, write_at. rewrite sect_index_id by (unfold FSSIZE; lia). rewrite Nat2Z.id.
  rewrite decide_False by lia. rewrite Hl, Nat.sub_diag. done.
Qed.

Lemma zero_loop_run n k s : length (mk_img s) = k → (k + n ≤ Z.to_nat FSSIZE)%nat →
  zero_loop n (Z.of_nat k) s = Ret tt (set_img (mk_img s ++ replicate n zero_block) s).
Proof.
  revert k s. induction n as [|n IH]; intros k s Hl Hk; cbn [zero_loop].
  - rewrite app_nil_r. by destruct s.
  - erewrite bind_Ret by (apply wsect_append; [done|lia]). replace (Z.of_nat k + 1) with (Z.of_nat (S k)) by lia.
    rewrite IH; cbn [mk_img set_img]; [by rewrite <- app_assoc|rewrite length_app; cbn; lia|lia].
Qed.

Lemma le_combine_zeros k : le_combine (replicate k Byte.x00) = 0.
Proof.
  induction k as [|k IH]; [done|].
  change (le_combine (replicate (S k) Byte.x00)) with (Z.lor 0 (Z.shiftl (le_combine (replicate k Byte.x00)) 8)). by rewrite IH.
Qed.
Lemma zero_block_get o n : le_combine (blk_get zero_block o n) = 0.
Proof. unfold blk_get, zero_block. rewrite drop_replicate, take_replicate. apply le_combine_zeros. Qed.

Lemma zero_dinode k : get_dinode zero_block k = dinode_zero.
Proof.
  unfold get_dinode, get16, get32. rewrite !zero_block_get. unfold dinode_zero. f_equal.
  change (replicate 13 0) with ((λ _ : nat, 0) <$> seq 0 13). apply list_fmap_ext. intros. apply zero_block_get.
Qed.

Definition start : mkfs := Mkfs (<[1%nat := super_block]> (replicate (Z.to_nat FSSIZE) zero_block)) mk_super 1 nmeta.

Lemma view_start x : 0 ≤ x < FSSIZE → view start x = if x =? 1 then super_block else zero_block.
Proof.
  intros Hx. unfold view, start. cbn [mk_img]. unfold FSSIZE in *. destruct (Z.ltb_spec x 0); [lia|]. destruct (Z.eqb_spec x 1) as [->|].
  - apply list_lookup_total_insert_eq. rewrite length_replicate. lia.
  - rewrite list_lookup_total_insert_ne by lia. rewrite list_lookup_total_alt, lookup_replicate_2 by lia. done.
Qed.

Lemma super_block_ok : block_ok super_block.
Proof. reflexivity. Qed.

Lemma start_built : built start (λ _, (0, 0)) [].
Proof.
  assert (Hg : good start).
  { split; try done.
    - intros x Hx. rewrite view_start by done. destruct (x =? 1); [apply super_block_ok|apply zero_block_ok].
    - intros x Hx. cbn [mk_freeblock start] in Hx. unfold nmeta in Hx. rewrite view_start by lia. destruct (Z.eqb_spec x 1); [lia|done]. }
  split; try done.
  intros i Hi. cbn [length] in Hi. pose proof (iblock_super i ltac:(lia)). unfold dinode_at.
  rewrite view_start by (unfold FSSIZE; lia). destruct (Z.eqb_spec (IBLOCK i mk_super) 1); [lia|]. apply zero_dinode.
Qed.

(** ** The free map *)

Lemma balloc_loop_set k i d : block_ok d → 0 ≤ i → i + Z.of_nat k ≤ BPB → let d' := mkfs_balloc_loop k i d in
  block_ok d' ∧ ∀ c, 0 ≤ c → bit_used d' c = bit_used d c || (i <=? c) && (c <? i + Z.of_nat k).
Proof.
  revert i d. induction k as [|k IH]; intros i d Hd Hi Hk; cbn [mkfs_balloc_loop].
  - split; [done|]. intros c Hc. destruct (Z.leb_spec i c), (Z.ltb_spec c (i + Z.of_nat 0)); try lia; by destruct (bit_used d c).
  - change (put8 d (i / 8) _) with (set_bit i d). destruct (IH (i + 1) (set_bit i d)) as [Hok Hb]; [apply set_bit_ok; [done|lia]|lia|lia|].
    split; [done|]. intros c Hc. rewrite Hb by done. rewrite (bit_used_set d i Hd) by lia.
    destruct (Z.eqb_spec c i), (bit_used d c), (Z.leb_spec i c), (Z.leb_spec (i + 1) c), (Z.ltb_spec c (i + Z.of_nat (S k))), (Z.ltb_spec c (i + 1 + Z.of_nat k)); done || lia.
Qed.

Lemma bit_used_zero c : bit_used zero_block c = false.
Proof. rewrite bit_used_testbit. unfold get8. rewrite zero_block_get. apply Z.bits_0. Qed.

Lemma bmap_block b : 0 ≤ b < FSSIZE → BBLOCK b mk_super = 45 ∧ b mod BPB = b.
Proof.
  unfold FSSIZE, BBLOCK. rewrite BPB_val. intros Hb. rewrite Z.div_small, Z.mod_small by lia. done.
Qed.

Lemma mkfs_balloc_run s used : good s → 0 ≤ used ≤ FSSIZE → ∃ s', mkfs_balloc used s = Ret tt s' ∧ good s' ∧
  mk_freeblock s' = mk_freeblock s ∧ (∀ x, x ≠ 45 → view s' x = view s x) ∧
  ∀ b, 0 ≤ b < FSSIZE → bused (view s') mk_super b = (b <? used).
Proof.
  intros Hg Hu. pose proof Hg as []. unfold FSSIZE in Hu. unfold mkfs_balloc, m_assert.
  destruct (Z.ltb_spec used (BSIZE * 8)); [|fsnorm; lia]. rewrite bind_ret_l, bind_gets, gd_sb. cbn [sb_bmapstart mk_super].
  destruct (balloc_loop_set (Z.to_nat used) 0 zero_block) as [Hok Hb]; [apply zero_block_ok|done|rewrite BPB_val; lia|].
  eexists. split; [by apply wsect_run|]. split; [|split; [done|split]].
  - apply good_wr; try done. unfold nmeta in *. lia.
  - intros x Hx. rewrite view_wr by done. by apply upd_ne.
  - intros b Hbr. destruct (bmap_block b Hbr) as [E1 E2]. unfold bused. rewrite E1, E2, view_wr, upd_eq by done. rewrite Hb by lia.
    rewrite bit_used_zero. destruct (Z.leb_spec 0 b); [|lia]. cbn. by rewrite Z2Nat.id by lia.
Qed.

(** ** The kernel's reading of a file *)

Section kernel.
Context (s : mkfs) (own : Z → Z * Z) (Hg : good s).
Context (Hmap : ∀ b, 0 ≤ b < FSSIZE → bused (view s) mk_super b = (b <? mk_freeblock s)).

Lemma below_in_use a : nmeta ≤ a < mk_freeblock s → in_use (view s) mk_super a.
Proof using Hg Hmap.
  intros Ha. destruct Hg. unfold nmeta, FSSIZE in *. split; [change (dstart mk_super) with 46; cbn; unfold FSSIZE; lia|].
  rewrite Hmap by (unfold FSSIZE; lia). apply Z.ltb_lt. lia.
Qed.

Lemma kernel_file i al c : has_file s own i al c →
  file_ok (view s) mk_super al ∧ dense (view s) al (Z.of_nat (length c)) ∧ fslice (view s) al 0 (length c) = c.
Proof using Hg Hmap.
  intros Hf. pose proof Hf as []. set (nb := blocks (Z.of_nat (length c))) in *. pose proof (blocks_spec (Z.of_nat (length c)) ltac:(lia)) as [Hb _].
  fold nb in Hb.
  assert (Hnz : ∀ n, 0 ≤ n < MAXFILE → iaddr (view s) al n ≠ 0 → n < nb).
  { intros n Hn Hne. destruct (decide (n < nb)); [done|]. by rewrite fa_none in Hne by lia. }
  split; [split|split].
  - done.
  - intros n Hn Hne. apply below_in_use. apply fa_blk. split; [lia|]. by apply Hnz.
  - destruct (NDIRECT <? nb); [|done]. intros _. apply below_in_use, fa_ind.
  - intros n m Hn Hm Hne He. pose proof (Hnz n Hn Hne). rewrite He in Hne. pose proof (Hnz m Hm Hne).
    destruct (fa_blk n) as [_ On]; [lia|]. destruct (fa_blk m) as [_ Om]; [lia|]. congruence.
  - intros n Hn Hne. pose proof (Hnz n Hn Hne). destruct (NDIRECT <? nb); [|by rewrite fa_ind].
    destruct (fa_blk n) as [_ On]; [lia|]. destruct fa_ind as [_ Oi]. intros He. rewrite He, Oi in On. injection On. lia.
  - split; [fsnorm; lia|]. intros n Hn Hlt. destruct (fa_blk n) as [? _]; [fsnorm; lia|]. unfold nmeta in *. lia.
  - apply list_eq. intros j. destruct (decide (j < length c)%nat) as [Hj|Hj].
    + rewrite fslice_lookup by done. rewrite fa_byte by (fsnorm; lia). replace (Z.to_nat (0 + Z.of_nat j)) with j by lia.
      by destruct (lookup_lt_is_Some_2 c j Hj) as [x ->].
    + rewrite !lookup_ge_None_2; rewrite ?fslice_length; (done || lia).
Qed.

(** Entries are read back, and those after the last are unused. *)
Lemma dents_back v al es k : Forall (λ e, ∃ i name, 0 ≤ i < 2 ^ 16 ∧ e = dirent_of i name) es →
  fslice v al (16 * k) (16 * length es) = dir_bytes es → dents v al k (length es) = es.
Proof using Type.
  revert k. induction es as [|e es IH]; intros k Hes Hs; [done|]. apply Forall_cons in Hes as [(i & name & Hi & ->) Hes'].
  cbn [length] in *. replace (16 * S (length es))%nat with (16 + 16 * length es)%nat in Hs by lia. rewrite fslice_app in Hs.
  change (dir_bytes (dirent_of i name :: es)) with (dirent_bytes (dirent_of i name) ++ dir_bytes es) in Hs.
  apply app_inj_1 in Hs as [H1 H2]; [|by rewrite fslice_length, dirent_length].
  rewrite dents_S. f_equal.
  - unfold dentry. rewrite H1. apply get_dirent_bytes; [done|]. apply strncpy_length.
  - apply IH; [done|]. rewrite <- H2. f_equal. lia.
Qed.

Lemma unused_entry i al c k : has_file s own i al c → Z.of_nat (length c) ≤ 16 * k → 16 * k + 16 ≤ blocks (Z.of_nat (length c)) * BSIZE →
  de_inum (dentry (view s) al k) = 0.
Proof using Type.
  intros [] H1 H2. unfold dentry, get_dirent. cbn [de_inum].
  assert (E : fslice (view s) al (16 * k) 16 = replicate 16 Byte.x00); [|by rewrite E].
  apply list_eq. intros j. destruct (decide (j < 16)%nat).
  - rewrite fslice_lookup, lookup_replicate_2 by done. rewrite fa_byte by lia. by rewrite lookup_ge_None_2 by lia.
  - rewrite !lookup_ge_None_2; rewrite ?fslice_length, ?length_replicate; (done || lia).
Qed.
End kernel.

Lemma fix_root_run s own R F : built s own ((T_DIR, R) :: F) → ∃ s' al, fix_root false 1 s = Ret tt s' ∧
  set_dinode 1 (Dinode T_DIR 0 0 1 ((Z.of_nat (length R) / BSIZE + 1) * BSIZE) al) s s' ∧ has_file s own 1 al R.
Proof.
  intros Hb. pose proof Hb as []. destruct (bt_file 0%nat _ eq_refl) as (al & Hd & Hf). cbn [fst snd] in *. change (1 + Z.of_nat 0) with 1 in *.
  unfold fix_root. erewrite bind_Ret by (apply rinode_run; done). rewrite Hd. cbn [d_size d_addrs d_type d_major d_minor d_nlink].
  unfold size_of. cbn [snd]. destruct (file_addrs_ok _ _ _ _ _ bt_good Hf) as [Hl Ha].
  assert (Hr : 0 ≤ Z.of_nat (length R) ≤ 268 * 1024). { destruct Hf. fsnorm. lia. }
  assert (0 ≤ Z.of_nat (length R) / 1024 ≤ 268). { split; [apply Z.div_pos; lia|apply Z.div_le_upper_bound; lia]. }
  rewrite (xint_id (Z.of_nat _)) by lia. rewrite u32_id by (fsnorm; lia). rewrite xint_id by (fsnorm; lia).
  destruct (winode_run s 1 (Dinode T_DIR 0 0 1 ((Z.of_nat (length R) / BSIZE + 1) * BSIZE) al)) as (s' & Hr' & Hs'); try done.
  { split; try done. cbn [d_size]. fsnorm. lia. }
  by exists s', al.
Qed.

(** ** The image *)

Definition root_entries (paths : list (list byte)) : list dirent :=
  dirent_of ROOTINO dot :: dirent_of ROOTINO dotdot :: file_entries 2 paths.

Section image.
Context (reads : list byte → option (list (list byte))) (paths : list (list byte)).

(** The inodes of the image, the root directory first. *)
Definition image_nodes : list node := (T_DIR, dir_bytes (root_entries paths)) :: file_nodes reads paths.

(** Inode [i] is in use and [a] is one of its blocks. *)
Definition owns (v : Z → block) (i a : Z) : Prop :=
  let al := d_addrs (dinode_at v i) in
  1 ≤ i ≤ 1 + Z.of_nat (length paths) ∧ a ≠ 0 ∧ (a = al !!! 12%nat ∨ ∃ n, 0 ≤ n < MAXFILE ∧ a = iaddr v al n).

(** The files as the kernel reads them. *)
Record image (v : Z → block) : Prop := {
  im_super : get_superblock (v 1) = mk_super;
  im_map b : 0 ≤ b < FSSIZE → bused v mk_super b = (b <? nmeta + used_blocks image_nodes);
  im_file j p : paths !! j = Some p → let i := 2 + Z.of_nat j in let len := Z.of_nat (length (contents reads p)) in ∃ al,
    dinode_at v i = Dinode T_FILE 0 0 1 len al ∧ file_ok v mk_super al ∧ dense v al len ∧
    fslice v al 0 (length (contents reads p)) = contents reads p;
  im_root : let n := Z.of_nat (length (root_entries paths)) in let size := (16 * n / BSIZE + 1) * BSIZE in ∃ al,
    dinode_at v ROOTINO = Dinode T_DIR 0 0 1 size al ∧ file_ok v mk_super al ∧
    dents v al 0 (length (root_entries paths)) = root_entries paths ∧
    (n mod 64 ≠ 0 → dense v al size ∧ ∀ k, n ≤ k → 16 * k < size → de_inum (dentry v al k) = 0) ∧
    (n mod 64 = 0 → ¬ dense v al size);
  im_apart i j a : owns v i a → owns v j a → i = j;
  im_rest i : 1 + Z.of_nat (length paths) < i < NINODES → d_type (dinode_at v i) = 0
}.

Lemma file_entries_ok inum l : 0 ≤ inum → inum + Z.of_nat (length l) ≤ 2 ^ 16 →
  Forall (λ e, ∃ i name, 0 ≤ i < 2 ^ 16 ∧ e = dirent_of i name) (file_entries inum l).
Proof using Type.
  revert inum. induction l as [|p l IH]; intros inum H0 Hl; cbn [file_entries length] in *; [done|].
  apply Forall_cons. split; [exists inum; eexists; split; [lia|done]|]. apply IH; lia.
Qed.
Lemma file_entries_length inum l : length (file_entries inum l) = length l.
Proof using Type. revert inum. induction l as [|p l IH]; intros inum; cbn; [done|]. by rewrite IH. Qed.
Lemma dir_bytes_length l : Forall (λ e, ∃ i name, 0 ≤ i < 2 ^ 16 ∧ e = dirent_of i name) l → length (dir_bytes l) = (16 * length l)%nat.
Proof using Type.
  induction 1 as [|e l (i & name & _ & ->) _ IH]; [done|]. 
  change (dir_bytes (dirent_of i name :: l)) with (dirent_bytes (dirent_of i name) ++ dir_bytes l).
  rewrite length_app, dirent_length, IH. cbn [length]. lia.
Qed.

Lemma root_entries_ok : Z.of_nat (length paths) + 1 < NINODES →
  Forall (λ e, ∃ i name, 0 ≤ i < 2 ^ 16 ∧ e = dirent_of i name) (root_entries paths).
Proof using Type.
  unfold NINODES. intros Hn. unfold root_entries. apply Forall_cons. split; [exists ROOTINO; by eexists|].
  apply Forall_cons. split; [exists ROOTINO; by eexists|]. apply file_entries_ok; lia.
Qed.

(** The blocks of a directory of [n] entries. *)
Lemma root_blocks n : 0 ≤ n → blocks (16 * n) = if n mod 64 =? 0 then 16 * n / BSIZE else 16 * n / BSIZE + 1.
Proof using Type.
  intros Hn. fsnorm. pose proof (Z.div_mod n 64 ltac:(done)). pose proof (Z.mod_pos_bound n 64 ltac:(done)).
  assert (E : 16 * n / 1024 = n / 64). { replace (16 * n) with (n * 16) by lia. by apply (Z.div_mul_cancel_r n 64 16). }
  rewrite E. destruct (Z.eqb_spec (n mod 64) 0); apply blocks_unique; lia.
Qed.

(** The image when the inodes are made, the root's size rounded up and the
    free map written. *)
Section finish.
Context (s s1 s2 : mkfs) (own : Z → Z * Z) (al0 : list Z).
Context (Hb : built s own image_nodes) (Hn : Z.of_nat (length paths) + 1 < NINODES).
Abbreviation R := (dir_bytes (root_entries paths)).
Context (H1 : set_dinode 1 (Dinode T_DIR 0 0 1 ((Z.of_nat (length R) / BSIZE + 1) * BSIZE) al0) s s1) (Hf0 : has_file s own 1 al0 R).
Context (Hg2 : good s2) (Hfb2 : mk_freeblock s2 = mk_freeblock s1) (Hv2 : ∀ x, x ≠ 45 → view s2 x = view s1 x).
Context (Hmap : ∀ b, 0 ≤ b < FSSIZE → bused (view s2) mk_super b = (b <? mk_freeblock s1)).

Lemma finish_file i al c : has_file s own i al c → has_file s2 own i al c.
Proof using H1 Hfb2 Hv2.
  intros Hf. eapply set_dinode_file in Hf; [|exact H1]. unfold has_file in *. rewrite Hfb2. eapply file_frame; [done|lia|done|].
  intros x Hx _. apply Hv2. unfold nmeta in Hx. lia.
Qed.

Lemma finish_dinode i : 0 ≤ i < ISLOTS → dinode_at (view s2) i = if i =? 1 then Dinode T_DIR 0 0 1 ((Z.of_nat (length R) / BSIZE + 1) * BSIZE) al0 else dinode_at (view s) i.
Proof using H1 Hv2.
  intros Hi. destruct H1 as (_ & _ & _ & Hd & Hd' & _). pose proof (iblock_super i Hi).
  transitivity (dinode_at (view s1) i); [unfold dinode_at; rewrite Hv2 by lia; done|].
  destruct (Z.eqb_spec i 1) as [->|]; [done|by apply Hd'].
Qed.

(** The addresses and contents of an inode in use. *)
Lemma finish_node i : 1 ≤ i ≤ 1 + Z.of_nat (length paths) → ∃ c, has_file s2 own i (d_addrs (dinode_at (view s2) i)) c.
Proof using Hb Hn H1 Hfb2 Hv2 Hf0.
  intros Hi. rewrite finish_dinode by (unfold NINODES, ISLOTS in *; lia). destruct (Z.eqb_spec i 1) as [->|].
  - exists R. by apply finish_file.
  - destruct Hb. destruct (lookup_lt_is_Some_2 image_nodes (Z.to_nat (i - 1))) as [nd Hnd].
    { cbn. unfold file_nodes. rewrite length_fmap. lia. }
    destruct (bt_file _ _ Hnd) as (al & Hd & Hf). replace (1 + Z.of_nat (Z.to_nat (i - 1))) with i in Hd, Hf by lia.
    rewrite Hd. exists nd.2. by apply finish_file.
Qed.

Lemma owns_owner i a : owns (view s2) i a → (own a).1 = i.
Proof using Hb Hn H1 Hfb2 Hv2 Hf0.
  intros (Hi & Hne & Ha). destruct (finish_node i Hi) as [c []]. destruct Ha as [->|(n & Hnr & ->)].
  - destruct (NDIRECT <? _); [|done]. by destruct fa_ind as [_ ->].
  - destruct (decide (n < blocks (Z.of_nat (length c)))).
    + destruct (fa_blk n) as [_ ->]; [lia|done].
    + by rewrite fa_none in Hne by lia.
Qed.

Lemma used_map b : 0 ≤ b < FSSIZE → bused (view s2) mk_super b = (b <? mk_freeblock s2).
Proof using Hfb2 Hmap. rewrite Hfb2. apply Hmap. Qed.

Lemma finish_root : let n := Z.of_nat (length (root_entries paths)) in let size := (16 * n / BSIZE + 1) * BSIZE in
  dinode_at (view s2) ROOTINO = Dinode T_DIR 0 0 1 size al0 ∧ file_ok (view s2) mk_super al0 ∧
  dents (view s2) al0 0 (length (root_entries paths)) = root_entries paths ∧
  (n mod 64 ≠ 0 → dense (view s2) al0 size ∧ ∀ k, n ≤ k → 16 * k < size → de_inum (dentry (view s2) al0 k) = 0) ∧
  (n mod 64 = 0 → ¬ dense (view s2) al0 size).
Proof using All.
  intros n size. pose proof (root_entries_ok Hn) as Hok. pose proof (dir_bytes_length _ Hok) as Hlen.
  pose proof (finish_file _ _ _ Hf0) as Hf. destruct (kernel_file s2 own Hg2 used_map _ _ _ Hf) as (Hfo & Hde & Hsl).
  assert (HnR : Z.of_nat (length R) = 16 * n) by lia. rewrite Hlen in Hsl.
  split; [rewrite finish_dinode by done; cbn [Z.eqb]; by rewrite HnR|]. split; [done|].
  split; [by apply dents_back|]. pose proof (root_blocks n ltac:(lia)) as Hbl. unfold size. destruct Hf. rewrite HnR in fa_nb, fa_blk, fa_none, fa_byte.
  split; intros Hm.
  - destruct (Z.eqb_spec (n mod 64) 0); [lia|]. rewrite Hbl in *. split.
    + split; [fsnorm; lia|]. intros k Hk Hlt. destruct (fa_blk k) as [? _]; [fsnorm; lia|]. unfold nmeta in *. lia.
    + intros k Hk Hlt. apply (unused_entry s2 own 1 al0 R); rewrite ?HnR, ?Hbl; [by apply finish_file|lia|fsnorm; lia].
  - intros [Hmax Hd]. destruct (Z.eqb_spec (n mod 64) 0); [|lia]. apply (Hd (16 * n / BSIZE)); [apply Z.div_pos; fsnorm; lia|fsnorm; lia|].
    apply fa_none. fsnorm. lia.
Qed.

Lemma finish_image : image (view s2).
Proof using All.
  pose proof Hb as []. pose proof H1 as (_ & Hfb1 & _ & _ & _ & Hv1).
  assert (Hlen : length image_nodes = S (length paths)) by (cbn; unfold file_nodes; by rewrite length_fmap). rewrite Hlen in *.
  split.
  - rewrite Hv2, Hv1, bt_super by lia. vm_compute. reflexivity.
  - intros b Hbr. rewrite Hmap by done. by rewrite Hfb1, bt_free.
  - intros j p Hj i len. destruct (bt_file (S j) (T_FILE, contents reads p)) as (al & Hd & Hf).
    { change (image_nodes !! S j) with (file_nodes reads paths !! j). unfold file_nodes. by rewrite list_lookup_fmap, Hj. }
    cbn [fst snd] in *. replace (1 + Z.of_nat (S j)) with i in Hd, Hf by lia. apply lookup_lt_Some in Hj.
    exists al. destruct (kernel_file s2 own Hg2 used_map _ _ _ (finish_file _ _ _ Hf)) as (Hfo & Hde & Hsl).
    split; [|done]. rewrite finish_dinode by (unfold NINODES, ISLOTS in *; lia). destruct (Z.eqb_spec i 1); [lia|done].
  - exists al0. apply finish_root.
  - intros i j a Hi Hj. by rewrite <- (owns_owner i a Hi), <- (owns_owner j a Hj).
  - intros i Hi. unfold NINODES, ISLOTS in *. rewrite finish_dinode by (unfold ISLOTS; lia). destruct (Z.eqb_spec i 1); [lia|].
    rewrite bt_rest by lia. done.
Qed.
End finish.
End image.

(** ** main() *)

Lemma assert_true {A} (k : unit → M mkfs A) s : (m_assert true ≫= k) s = k tt s.
Proof. done. Qed.

Lemma write_super : wsect 1 super_block (set_img (replicate (Z.to_nat FSSIZE) zero_block) (Mkfs [] mk_super 1 nmeta)) = Ret tt start.
Proof.
  unfold wsect, modify, write_at. rewrite (sect_index_id 1) by (unfold FSSIZE; lia). cbn [mk_img set_img].
  rewrite decide_True by (rewrite length_replicate; unfold FSSIZE; lia). reflexivity.
Qed.

Lemma main_start reads prog img paths : mkfs_main false reads true (prog :: img :: paths) mkfs0 =
  (rootino ← mkfs_ialloc false T_DIR;
   m_assert (rootino =? ROOTINO);;
   add_dirent false rootino rootino dot;;
   add_dirent false rootino rootino dotdot;;
   add_files false reads rootino paths;;
   fix_root false rootino;;
   used ← gets mk_freeblock;
   mkfs_balloc (i32 used)) start.
Proof.
  unfold mkfs_main. cbn [length Nat.ltb Nat.leb]. change (BSIZE mod sizeof_dinode =? 0) with true. change (BSIZE mod sizeof_dirent =? 0) with true.
  rewrite !assert_true. cbn [negb]. rewrite !bind_modify, make_sb_le.
  set (s0 := set_freeblock _ _). pose proof (zero_loop_run (Z.to_nat FSSIZE) 0 s0 eq_refl (Nat.le_refl _)) as Hz.
  change (Z.of_nat 0) with 0 in Hz. erewrite bind_Ret by exact Hz. rewrite bind_gets. unfold s0. cbn [mk_sb set_img set_freeblock set_mksb mkfs0 mk_img].
  fold super_block. rewrite (bind_Ret _ _ _ _ _ write_super). reflexivity.
Qed.

(** C26: mkfs of any files that fit, whatever the sizes of its reads, makes an
    image that the kernel reads as those files: the super block, the free map
    marking exactly the blocks used, each file's inode with its bytes, and the
    root directory with one entry per file; no block is in two files and the
    remaining inodes are free.  Every file satisfies the kernel's invariants,
    except a root directory whose entries fill its blocks: its size is then a
    block longer than what is allocated. *)
Theorem mkfs_makes_image reads prog img paths : Forall (path_ok reads) paths → Z.of_nat (length paths) + 1 < NINODES →
  fits (image_nodes reads paths) → ∃ s,
  mkfs_main false reads true (prog :: img :: paths) mkfs0 = Ret tt s ∧
  length (mk_img s) = Z.to_nat FSSIZE ∧ image reads paths (view s).
Proof.
  intros Hok Hn Hfit. rewrite main_start. 
  destruct (mkfs_ialloc_run start _ [] T_DIR start_built) as (s1 & Hr1 & Hb1); [by left|done|].
  erewrite bind_Ret by exact Hr1. change (1 + Z.of_nat (length [])) with 1. change (1 =? ROOTINO) with true. rewrite assert_true.
  destruct (add_dirent_run s1 _ _ 0 T_DIR [] 1 dot Hb1 eq_refl) as (s2 & own2 & Hr2 & Hb2); [done..|].
  change (1 + Z.of_nat 0) with 1 in Hr2. erewrite bind_Ret by exact Hr2.
  destruct (add_dirent_run s2 _ _ 0 T_DIR _ 1 dotdot Hb2 eq_refl) as (s3 & own3 & Hr3 & Hb3); [done..|].
  change (1 + Z.of_nat 0) with 1 in Hr3. erewrite bind_Ret by exact Hr3.
  cbn [insert list_insert app] in Hb3.
  destruct (add_files_run reads paths s3 own3 _ [] Hb3 Hok) as (s4 & own4 & Hr4 & Hb4).
  { cbn [length]. lia. } { rewrite <- app_assoc. exact Hfit. }
  erewrite bind_Ret by exact Hr4. rewrite <- app_assoc in Hb4. change (built s4 own4 (image_nodes reads paths)) in Hb4.
  destruct (fix_root_run s4 own4 _ _ Hb4) as (s5 & al & Hr5 & Hs5 & Hf5). erewrite bind_Ret by exact Hr5. rewrite bind_gets.
  pose proof Hs5 as (Hg5 & Hfb5 & _). pose proof Hg5 as []. unfold nmeta, FSSIZE in gd_free. rewrite i32_id by lia.
  destruct (mkfs_balloc_run s5 (mk_freeblock s5) Hg5) as (s6 & Hr6 & Hg6 & Hfb6 & Hv6 & Hm6); [unfold FSSIZE; lia|].
  exists s6. split; [exact Hr6|]. split; [apply Hg6|]. by eapply finish_image.
Qed.

Definition demo_reads (path : list byte) : option (list (list byte)) :=
  match length path with
  | 1%nat => Some [replicate 1000 Byte.x61; replicate 300 Byte.x62; []]
  | 7%nat => Some (replicate 13 (replicate 1024 Byte.x7f))
  | _ => None
  end.

Lemma mkfs_makes_image_witness : ∃ s,
  mkfs_main false demo_reads true ([] :: [] :: [[Byte.x52]; user_slash ++ [Byte.x5f; Byte.x63]]) mkfs0 = Ret tt s ∧
  length (mk_img s) = Z.to_nat FSSIZE ∧ image demo_reads [[Byte.x52]; user_slash ++ [Byte.x5f; Byte.x63]] (view s).
Proof.
  apply (mkfs_makes_image demo_reads [] [] [[Byte.x52]; user_slash ++ [Byte.x5f; Byte.x63]]).
  - repeat constructor; eexists; reflexivity.
  - reflexivity.
  - split; [vm_compute; discriminate|]. repeat constructor; vm_compute; discriminate.
Defined.

(** The super block is one the kernel's theorems about allocation and files
    take, over any block layer that stores the blocks after the log. *)
Lemma mk_super_layout {B : BlockLayer} : (∀ x, 32 ≤ x < FSSIZE → bl_home x) → layout mk_super.
Proof.
  intros Hh. split; try done.
  - intros i Hi. pose proof (iblock_super i) as Hr. unfold ISLOTS in Hr. cbn [sb_ninodes sb_bmapstart mk_super] in *. unfold NINODES in Hi. lia.
Qed.

(** ** Limits *)

Definition sector_after (r : res mkfs unit) (x : Z) : option block :=
  match r with Ret _ s => Some (view s x) | _ => None end.

(** ialloc() does not stop at NINODES: of 207 files the last has its inode in
    the block of the free map, which balloc() overwrites. *)
Example mkfs_inodes_unchecked :
  (λ b, get_dinode b 0) <$> sector_after (mkfs_main false (λ _, Some []) true ([] :: [] :: replicate 207 [Byte.x61]) mkfs0) (IBLOCK 208 mk_super)
  = Some (Dinode (-1) (-1) (-1) 3 0 (replicate 13 0)).
Proof. vm_compute. reflexivity. Qed.

(** On a big-endian host the magic number is in the wrong order, since it
    alone is not converted. *)
Example mkfs_magic_unconverted :
  (λ b, sb_magic (get_superblock b)) <$> sector_after (mkfs_main true (λ _, Some []) true [[]; []] mkfs0) 1 = Some 0x40302010.
Proof. vm_compute. reflexivity. Qed.
