(* ===== verification/Progs.v ===== *)
(** * user/cat.c, wc.c, ls.c, echo.c, ln.c, rm.c, mkdir.c, kill.c, init.c,
    zombie.c, cow.c, forktest.c and stressfs.c

    A program is a computation that makes the calls [act] in order and returns
    or calls exit().  What a call answers is a parameter: the results of the
    reads of a descriptor in order (a missing one is the end of the file,
    [None] is -1), whether a path can be opened, what stat() finds.  The bytes
    of one printf() are one [AWrite], though they are written one by one.  The
    first argument of main() is argv, with the program's name. *)

From stdpp Require Import base strings numbers list.
From coqutil Require Import Byte.
From S2P Require Import Prelude Mem Str Fs Printf Grep.

Inductive act :=
| AWrite (fd : Z) (l : list byte)
| AOpen (path : list byte)
| AClose
| ALink (old new : list byte)
| AUnlink (path : list byte)
| AMkdir (path : list byte)
| AKill (pid : Z)
| AMknod (path : list byte) (major minor : Z)
| ADup (fd : Z)
| AFork
| AExec (path : list byte) (argv : list (list byte))
| AWait
| ASleep (n : Z)
| ACow
| AOpenMode (path : list byte) (omode : Z)
| ARead (fd n : Z).

(** The calls made, and the value or the status of exit(). *)
Definition W (A : Type) : Type := list act * (A + Z).
#[export] Instance W_ret : MRet W := λ A a, ([], inl a).
#[export] Instance W_bind : MBind W := λ A B f m,
  match m with
  | (t, inl a) => let '(t', r) := f a in (t ++ t', r)
  | (t, inr c) => (t, inr c)
  end.
Definition emit (a : act) : W unit := ([a], inl tt).
Definition exit {A} (status : Z) : W A := ([], inr status).

(** String literals, [nl] after them for the newline. *)
Definition lit (s : string) : list byte := String.list_byte_of_string s.
Definition nl : byte := Byte.x0a.
Definition print (fd : Z) (fmt : list byte) (ap : list varg) : W unit := emit (AWrite fd (fprintf fmt ap)).

(** What one read() returns. *)
Definition rd : Type := option (list byte).

(** ** cat.c *)

(** A read() and what the write() of its bytes returns. *)
Fixpoint cat (io : list (rd * Z)) : W unit :=
  match io with
  | [] => mret tt
  | (None, _) :: _ => print 2 (lit "cat: read error" ++ [nl]) [];; exit 1
  | (Some buf, r) :: io =>
    if (0 <? length buf)%nat then
      emit (AWrite 1 buf);;
      if negb (r =? Z.of_nat (length buf)) then print 2 (lit "cat: write error" ++ [nl]) [];; exit 1
      else cat io
    else mret tt
  end.

(** [for (int i=0;i<n;i++)] over the rest of the buffer; the result is [cont]. *)
Fixpoint numcat_buf (cont : Z) (buf : list byte) : W Z :=
  match buf with
  | [] => mret cont
  | c :: buf =>
    print 1 (lit "%c") [VNum (byte.unsigned c)];;
    if beq c nl then
      let cont := i32 (cont + 1) in
      (if (0 <? length buf)%nat then print 1 (lit "%d") [VNum cont] else mret tt);;
      numcat_buf cont buf
    else numcat_buf cont buf
  end.
Fixpoint numcat_loop (cont : Z) (reads : list rd) : W unit :=
  match reads with
  | Some (c :: buf) :: reads =>
    print 1 (lit "%d") [VNum cont];;
    cont ← numcat_buf cont (c :: buf);
    numcat_loop cont reads
  | _ => mret tt
  end.
Definition numcat (reads : list rd) : W unit := numcat_loop 1 reads.

(** [stdin] and [files path] are the reads, with the results of the writes. *)
Definition cat_file (numbered : bool) (files : list byte → option (list (rd * Z))) (path : list byte) : W unit :=
  match files path with
  | None => print 2 (lit "cat: cannot open %s" ++ [nl]) [VStr (Some path)];; exit 1
  | Some io =>
    emit (AOpen path);;
    (if numbered then numcat (fst <$> io) else cat io);;
    emit AClose
  end.
Fixpoint cat_files (numbered : bool) (files : list byte → option (list (rd * Z))) (paths : list (list byte)) : W unit :=
  match paths with
  | [] => mret tt
  | path :: paths => cat_file numbered files path;; cat_files numbered files paths
  end.
Definition cat_main (stdin : list (rd * Z)) (files : list byte → option (list (rd * Z))) (argv : list (list byte)) : W unit :=
  match argv with
  | _ :: arg1 :: rest =>
    let numbered := ustrcmp arg1 (lit "-n") =? 0 in
    cat_files numbered files (if numbered then rest else arg1 :: rest);;
    exit 0
  | _ => cat stdin;; exit 0
  end.

(** ** wc.c *)

Record counts := Counts { wc_l : Z; wc_w : Z; wc_c : Z; wc_inword : bool }.
Definition wc_blank : list byte := [Byte.x20; Byte.x0d; Byte.x09; Byte.x0a; Byte.x0b].

(** One byte of the buffer. *)
Definition wc_byte (k : counts) (b : byte) : counts :=
  let c := i32 (wc_c k + 1) in
  let l := if beq b nl then i32 (wc_l k + 1) else wc_l k in
  match ustrchr wc_blank b with
  | Some _ => Counts l (wc_w k) c false
  | None => if wc_inword k then Counts l (wc_w k) c true else Counts l (i32 (wc_w k + 1)) c true
  end.
(** The counts at the end of the file, or [None] after a read error. *)
Fixpoint wc_loop (k : counts) (reads : list rd) : option counts :=
  match reads with
  | [] => Some k
  | None :: _ => None
  | Some buf :: reads => if (0 <? length buf)%nat then wc_loop (foldl wc_byte k buf) reads else Some k
  end.
Definition wc (reads : list rd) (name : list byte) : W unit :=
  match wc_loop (Counts 0 0 0 false) reads with
  | None => print 1 (lit "wc: read error" ++ [nl]) [];; exit 1
  | Some k => print 1 (lit "%d %d %d %s" ++ [nl]) [VNum (wc_l k); VNum (wc_w k); VNum (wc_c k); VStr (Some name)]
  end.
Fixpoint wc_files (files : list byte → option (list rd)) (paths : list (list byte)) : W unit :=
  match paths with
  | [] => mret tt
  | path :: paths =>
    match files path with
    | None => print 1 (lit "wc: cannot open %s" ++ [nl]) [VStr (Some path)];; exit 1
    | Some reads => emit (AOpen path);; wc reads path;; emit AClose;; wc_files files paths
    end
  end.
Definition wc_main (stdin : list rd) (files : list byte → option (list rd)) (argv : list (list byte)) : W unit :=
  if (length argv <=? 1)%nat then wc stdin [];; exit 0
  else wc_files files (tl argv);; exit 0.

(** ** ls.c *)

Record ustat := Ustat { us_type : Z; us_ino : Z; us_size : Z }.
Definition ch_slash : byte := Byte.x2f.

(** The part after the last slash: [p] walks back from the end. *)
Definition last_slash (path : list byte) : list byte :=
  foldl (λ p c, if beq c ch_slash then [] else p ++ [c]) [] path.
Definition fmtname (path : list byte) : list byte :=
  let p := last_slash path in
  if (DIRSIZ <=? length p)%nat then p else p ++ replicate (DIRSIZ - length p) Byte.x20.

Definition sizeof_lsbuf : nat := 512.
(** The C string in a field of bytes. *)
Fixpoint c_str (l : list byte) : list byte :=
  match l with
  | [] => []
  | c :: l => if byte.unsigned c =? 0 then [] else c :: c_str l
  end.

Section ls.
(** What open() and fstat() find at a path with the entries of a directory
    (each a read() of a whole entry), and stat() of a path. *)
Context (opens : list byte → option (option ustat * list dirent)) (stats : list byte → option ustat).

(** The loop over the entries; [cont] counts the lines under -n. *)
Fixpoint ls_dir (path : list byte) (flag cont : Z) (des : list dirent) : W Z :=
  match des with
  | [] => mret cont
  | de :: des =>
    if de_inum de =? 0 then ls_dir path flag cont des else
    let buf := path ++ ch_slash :: c_str (de_name de) in
    match stats buf with
    | None => print 1 (lit "ls: cannot stat %s" ++ [nl]) [VStr (Some buf)];; ls_dir path flag cont des
    | Some st =>
      cont ← (if 1 <=? flag then print 1 (lit "%d" ++ [Byte.x09]) [VNum cont];; mret (i32 (cont + 1)) else mret cont);
      print 1 (lit "%s %d %d %d" ++ [nl]) [VStr (Some (fmtname buf)); VNum (us_type st); VNum (us_ino st); VNum (us_size st)];;
      ls_dir path flag cont des
    end
  end.

Definition ls (path : list byte) (flag cont : Z) : W Z :=
  match opens path with
  | None => print 2 (lit "ls: cannot open %s" ++ [nl]) [VStr (Some path)];; mret cont
  | Some (None, _) =>
    emit (AOpen path);; print 2 (lit "ls: cannot stat %s" ++ [nl]) [VStr (Some path)];; emit AClose;; mret cont
  | Some (Some st, des) =>
    emit (AOpen path);;
    cont ← (if (us_type st =? T_DEVICE) || (us_type st =? T_FILE) then
              print 1 (lit "%s %d %d %l" ++ [nl]) [VStr (Some (fmtname path)); VNum (us_type st); VNum (us_ino st); VNum (us_size st)];; mret cont
            else if us_type st =? T_DIR then
              if (sizeof_lsbuf <? length path + 1 + DIRSIZ + 1)%nat then print 1 (lit "ls: path too long" ++ [nl]) [];; mret cont
              else ls_dir path flag cont des
            else mret cont);
    emit AClose;;
    mret cont
  end.

Fixpoint ls_paths (flag cont : Z) (paths : list (list byte)) : W unit :=
  match paths with
  | [] => mret tt
  | path :: paths => cont ← ls path flag cont; ls_paths flag cont paths
  end.

(** strcmp() is called on argv[1] even when that is the null pointer after
    the arguments; [at0] is the string at address 0. *)
Definition ls_main (at0 : list byte) (argv : list (list byte)) : W unit :=
  let flag := if ustrcmp (default at0 (argv !! 1%nat)) (lit "-n") =? 0 then 1 else 0 in
  if Z.of_nat (length argv) <? 2 + flag then ls (lit ".") flag 1;; exit 0
  else ls_paths flag 1 (drop (Z.to_nat (flag + 1)) argv);; exit 0.
End ls.

(** ** echo.c *)

Fixpoint echo_args (args : list (list byte)) : W unit :=
  match args with
  | [] => mret tt
  | a :: args =>
    emit (AWrite 1 a);;
    emit (AWrite 1 (if (0 <? length args)%nat then [Byte.x20] else [nl]));;
    echo_args args
  end.
Definition echo_main (argv : list (list byte)) : W unit := echo_args (tl argv);; exit 0.

(** ** ln.c, rm.c, mkdir.c, kill.c *)

Definition ln_main (link : list byte → list byte → Z) (argv : list (list byte)) : W unit :=
  match argv with
  | [_; old; new] =>
    emit (ALink old new);;
    (if link old new <? 0 then print 2 (lit "link %s %s: failed" ++ [nl]) [VStr (Some old); VStr (Some new)] else mret tt);;
    exit 0
  | _ => print 2 (lit "Usage: ln old new" ++ [nl]) [];; exit 1
  end.

(** rm and mkdir stop at the first path that fails. *)
Fixpoint each_path (call : list byte → act) (answer : list byte → Z) (message : list byte) (paths : list (list byte)) : W unit :=
  match paths with
  | [] => mret tt
  | p :: paths =>
    emit (call p);;
    if answer p <? 0 then print 2 message [VStr (Some p)] else each_path call answer message paths
  end.
Definition rm_main (unlink : list byte → Z) (argv : list (list byte)) : W unit :=
  if (length argv <? 2)%nat then print 2 (lit "Usage: rm files..." ++ [nl]) [];; exit 1
  else each_path AUnlink unlink (lit "rm: %s failed to delete" ++ [nl]) (tl argv);; exit 0.
Definition mkdir_main (mkdir : list byte → Z) (argv : list (list byte)) : W unit :=
  if (length argv <? 2)%nat then print 2 (lit "Usage: mkdir files..." ++ [nl]) [];; exit 1
  else each_path AMkdir mkdir (lit "mkdir: %s failed to create" ++ [nl]) (tl argv);; exit 0.

Fixpoint kill_args (args : list (list byte)) : W unit :=
  match args with
  | [] => mret tt
  | a :: args => emit (AKill (atoi a));; kill_args args
  end.
Definition kill_main (argv : list (list byte)) : W unit :=
  if (length argv <? 2)%nat then print 2 (lit "usage: kill pid..." ++ [nl]) [];; exit 1
  else kill_args (tl argv);; exit 0.

(** ** init.c *)

(** The inner loop on the results of wait(); the result is what is left of
    them when the shell has exited, and [None] while it still waits. *)
Fixpoint init_wait (pid : Z) (waits : list Z) : W (option (list Z)) :=
  match waits with
  | [] => emit AWait;; mret None
  | wpid :: waits =>
    emit AWait;;
    if wpid =? pid then mret (Some waits)
    else if wpid <? 0 then print 1 (lit "init: wait returned an error" ++ [nl]) [];; exit 1
    else init_wait pid waits
  end.
(** The outer loop on the results of fork(); it never returns: the run stops
    where the answers do, and in the child at a successful exec(). *)
Fixpoint init_loop (exec_ok : bool) (forks waits : list Z) : W unit :=
  match forks with
  | [] => mret tt
  | pid :: forks =>
    print 1 (lit "init: starting sh" ++ [nl]) [];;
    emit AFork;;
    if pid <? 0 then print 1 (lit "init: fork failed" ++ [nl]) [];; exit 1 else
    if pid =? 0 then
      emit (AExec (lit "sh") [lit "sh"]);;
      (if exec_ok then mret tt else print 1 (lit "init: exec sh failed" ++ [nl]) [];; exit 1)
    else
    w ← init_wait pid waits;
    match w with
    | None => mret tt
    | Some waits => init_loop exec_ok forks waits
    end
  end.
Definition init_main (console exec_ok : bool) (forks waits : list Z) : W unit :=
  emit (AOpen (lit "console"));;
  (if console then mret tt else emit (AMknod (lit "console") 1 0);; emit (AOpen (lit "console")));;
  emit (ADup 0);;
  emit (ADup 0);;
  init_loop exec_ok forks waits.

(** ** zombie.c and cow.c *)

Definition zombie_main (pid : Z) : W unit :=
  emit AFork;;
  (if 0 <? pid then emit (ASleep 5) else mret tt);;   (* Let child exit before parent. *)
  exit 0.

(** _main() of ulib.c calls exit(0) when main() returns. *)
Definition cow_main (r : Z) : W unit :=
  emit ACow;;
  print 1 (lit "%d" ++ [nl]) [VNum r];;
  exit 0.

(** ** forktest.c *)

Section forktest.
(** What the fork() and the wait() number [j] return. *)
Context (forks waits : nat → Z).

Definition forktest_N : nat := 1000.
Definition forktest_print (s : list byte) : W unit := emit (AWrite 1 s).

(** [for(n=0; n<N; n++)], with [k] turns to go; the result is [n]. *)
Fixpoint fork_all (k n : nat) : W nat :=
  match k with
  | O => mret n
  | S k =>
    emit AFork;;
    if forks n <? 0 then mret n else
    if forks n =? 0 then exit 0 else fork_all k (S n)
  end.
(** [for(; n > 0; n--)], after [j] calls of wait(). *)
Fixpoint wait_all (n j : nat) : W unit :=
  match n with
  | O => mret tt
  | S n =>
    emit AWait;;
    if waits j <? 0 then forktest_print (lit "wait stopped early" ++ [nl]);; exit 1 else wait_all n (S j)
  end.
Definition forktest : W unit :=
  forktest_print (lit "fork test" ++ [nl]);;
  n ← fork_all forktest_N 0;
  (if (n =? forktest_N)%nat then forktest_print (lit "fork claimed to work N times!" ++ [nl]);; exit 1 else mret tt);;
  wait_all n 0;;
  emit AWait;;
  (if negb (waits n =? -1) then forktest_print (lit "wait got too many" ++ [nl]);; exit 1 else mret tt);;
  forktest_print (lit "fork test OK" ++ [nl]).
Definition forktest_main : W unit :=
  forktest;;
  exit 0.
End forktest.

(** ** stressfs.c *)

(** [for(i = 0; i < 4; i++) if(fork() > 0) break;], with [k] turns to go. *)
Fixpoint stress_fork (forks : nat → Z) (k i : nat) : W nat :=
  match k with
  | O => mret i
  | S k => emit AFork;; if 0 <? forks i then mret i else stress_fork forks k (S i)
  end.
Fixpoint repeat_act (k : nat) (a : act) : W unit :=
  match k with O => mret tt | S k => emit a;; repeat_act k a end.
Definition stress_path (i : nat) : list byte := lit "stressfs" ++ [byte.of_Z (48 + Z.of_nat i)].

(** [fd1] and [fd2] are what the two calls of open() return. *)
Definition stressfs_main (forks : nat → Z) (fd1 fd2 : Z) : W unit :=
  print 1 (lit "stressfs starting" ++ [nl]) [];;
  i ← stress_fork forks 4 0;
  print 1 (lit "write %d" ++ [nl]) [VNum (Z.of_nat i)];;
  emit (AOpenMode (stress_path i) 0x202);;      (* O_CREATE | O_RDWR *)
  repeat_act 20 (AWrite fd1 (replicate 512 Byte.x61));;
  emit AClose;;
  print 1 (lit "read" ++ [nl]) [];;
  emit (AOpenMode (stress_path i) 0);;          (* O_RDONLY *)
  repeat_act 20 (ARead fd2 512);;
  emit AClose;;
  emit AWait;;
  exit 0.
