(* ===== verification/ProgsThms.v ===== *)
(** * The small user programs: what they print

    cat -n numbers lines, one read at a time; wc counts lines, words and bytes
    whatever the sizes of the reads; echo, fmtname() of ls and the loop of
    init; what forktest accepts, the files of stressfs, and the random numbers
    of grind. *)

From stdpp Require Import base strings numbers list.
From coqutil Require Import Byte.
From S2P Require Import Prelude Mem Str Fs Printf Grep Progs.

(** The bytes written to descriptor 1. *)
Definition out1 (a : act) : list byte := match a with AWrite 1 l => l | _ => [] end.
Definition stdout (t : list act) : list byte := mjoin (out1 <$> t).

Lemma stdout_app t u : stdout (t ++ u) = stdout t ++ stdout u.
Proof. unfold stdout. by rewrite fmap_app, join_app. Qed.

(** Sequencing of computations that return. *)
Lemma W_bind_inl {A B} (m : W A) (f : A → W B) t a : m = (t, inl a) → m ≫= f = (t ++ (f a).1, (f a).2).
Proof. intros ->. unfold mbind, W_bind. by destruct (f a). Qed.
Lemma print_bind {B} fd fmt ap (f : unit → W B) : print fd fmt ap ≫= f = (AWrite fd (fprintf fmt ap) :: (f tt).1, (f tt).2).
Proof. by rewrite (W_bind_inl _ _ [AWrite fd (fprintf fmt ap)] tt). Qed.

(** ** cat -n *)

(** [num k] is what printf("%d", k) writes. *)
Definition num (k : Z) : list byte := printint udigits (i32 k) 10 true.
Lemma print_d k : fprintf (lit "%d") [VNum k] = num k.
Proof. unfold num. cbn -[printint i32]. by rewrite app_nil_r. Qed.
Lemma print_c c : fprintf (lit "%c") [VNum (byte.unsigned c)] = [c].
Proof. cbn -[byte.unsigned byte.of_Z]. by rewrite byte.of_Z_unsigned. Qed.

(** Lines with their numbers from [k] on. *)
Fixpoint num_lines (k : Z) (ls : list (list byte)) : list byte :=
  match ls with
  | [] => []
  | l :: ls => num k ++ l ++ nl :: num_lines (k + 1) ls
  end.
(** A text with its lines numbered from [k] on, the incomplete last one too. *)
Definition numbered (k : Z) (p : list byte) : list byte :=
  num_lines k (lines p) ++ match last_part p with [] => [] | l => num (k + Z.of_nat (length (lines p))) ++ l end.
(** Each buffer numbered as a text of its own. *)
Fixpoint numbered_reads (k : Z) (bufs : list (list byte)) : list byte :=
  match bufs with
  | [] => []
  | b :: bufs => numbered k b ++ numbered_reads (k + Z.of_nat (length (lines b))) bufs
  end.

Lemma lines_line l p : no_nl l → lines (l ++ nl :: p) = l :: lines p ∧ last_part (l ++ nl :: p) = last_part p.
Proof.
  intros Hl. destruct (lines_app [l] p) as [H1 H2]; [by constructor|]. change (text_of [l]) with ((l ++ [nl]) ++ []) in *.
  rewrite app_nil_r, <- app_assoc in *. done.
Qed.
Lemma lines_last l : no_nl l → lines l = [] ∧ last_part l = l.
Proof. intros Hl. unfold lines, last_part. cbn [lines_of]. apply cut_nl_None in Hl as ->. done. Qed.

Lemma numbered_line k l p : no_nl l → numbered k (l ++ nl :: p) = num k ++ l ++ nl :: numbered (k + 1) p.
Proof.
  intros Hl. unfold numbered. destruct (lines_line l p Hl) as [-> ->]. cbn [num_lines length]. rewrite <- !app_assoc. cbn [app].
  do 4 f_equal. destruct (last_part p); [done|]. do 2 f_equal. lia.
Qed.

(** After the start [l] of a line. *)
Lemma numcat_buf_spec buf cont l : no_nl l → l ++ buf ≠ [] → 0 ≤ cont → cont + Z.of_nat (length buf) < 2 ^ 31 → ∃ t,
  numcat_buf cont buf = (t, inl (cont + Z.of_nat (length (lines (l ++ buf))))) ∧ num cont ++ l ++ stdout t = numbered cont (l ++ buf).
Proof.
  revert cont l. induction buf as [|c buf IH]; intros cont l Hl Hne Hc Hm; cbn [numcat_buf].
  { exists []. rewrite !app_nil_r in *. destruct (lines_last l Hl) as [E1 E2]. unfold numbered. rewrite E1, E2. cbn [length num_lines app].
    rewrite Z.add_0_r. by destruct l. }
  cbn [length] in Hm. rewrite print_bind, print_c. destruct (beq_spec c nl) as [->|Hcn].
  - rewrite (i32_id (cont + 1)) by lia. destruct (lines_line l buf Hl) as [E1 E2]. destruct buf as [|d buf].
    + exists [AWrite 1 [nl]]. cbn [length Nat.ltb Nat.leb]. rewrite E1. split; [done|].
      rewrite numbered_line by done. done.
    + cbn [length Nat.ltb Nat.leb]. rewrite print_bind, print_d.
      destruct (IH (cont + 1) []) as (t & Et & Hs); [unfold no_nl; apply not_elem_of_nil|done|lia|cbn [length] in *; lia|].
      cbn [app] in Et, Hs. rewrite Et. eexists. split.
      { rewrite E1. cbn [fst snd length]. replace (cont + Z.of_nat (S _)) with (cont + 1 + Z.of_nat (length (lines (d :: buf)))) by lia. reflexivity. }
      rewrite numbered_line by done. rewrite <- Hs. done.
  - destruct (IH cont (l ++ [c])) as (t & Et & Hs).
    { unfold no_nl in *. rewrite elem_of_app, list_elem_of_singleton. naive_solver. }
    { by destruct l. } { done. } { lia. }
    rewrite Et. rewrite <- !app_assoc in Hs. rewrite <- app_assoc. cbn [app] in Hs. eexists. split; [reflexivity|]. cbn [fst]. rewrite <- Hs. done.
Qed.

Lemma lines_le p : (length (lines p) ≤ length p)%nat.
Proof.
  unfold lines. destruct (lines_of_spec (S (length p)) p) as (E & _); [lia|]. pose proof (text_of_length (lines_of (S (length p)) p).1) as Hl.
  apply (f_equal length) in E. rewrite length_app in E. lia.
Qed.

Lemma numcat_loop_spec bufs cont : Forall (λ b, b ≠ []) bufs → 0 ≤ cont → cont + Z.of_nat (length (mjoin bufs)) < 2 ^ 31 → ∃ t,
  numcat_loop cont (Some <$> bufs) = (t, inl tt) ∧ stdout t = numbered_reads cont bufs.
Proof.
  revert cont. induction bufs as [|b bufs IH]; intros cont Hb Hc Hm; [by exists []|].
  apply Forall_cons in Hb as [Hne Hb]. destruct b as [|c b]; [done|]. change (mjoin ((c :: b) :: bufs)) with ((c :: b) ++ mjoin bufs) in Hm. cbn [fmap list_fmap numcat_loop]. rewrite print_bind, print_d.
  set (buf := c :: b) in *. rewrite length_app in Hm. pose proof (lines_le buf).
  destruct (numcat_buf_spec buf cont []) as (t & Et & Hs); [apply not_elem_of_nil|done|done|lia|]. cbn [app] in Et, Hs.
  destruct (IH (cont + Z.of_nat (length (lines buf)))) as (u & Eu & Hu); [done|lia|lia|].
  rewrite (W_bind_inl _ _ _ _ Et), Eu. eexists. split; [reflexivity|]. cbn [fst numbered_reads]. rewrite <- Hs, <- Hu.
  change (stdout (AWrite 1 (num cont) :: t ++ u)) with (num cont ++ stdout (t ++ u)). by rewrite stdout_app, app_assoc.
Qed.

Lemma numbered_text k ls p : Forall no_nl ls → numbered k (text_of ls ++ p) = num_lines k ls ++ numbered (k + Z.of_nat (length ls)) p.
Proof.
  revert k. induction ls as [|l ls IH]; intros k Hls; [by rewrite Z.add_0_r|]. apply Forall_cons in Hls as [Hl Hls].
  change (text_of (l :: ls)) with ((l ++ [nl]) ++ text_of ls). rewrite <- !app_assoc. cbn [app]. rewrite numbered_line, IH by done.
  cbn [num_lines length]. rewrite <- !app_assoc. cbn [app]. do 5 f_equal. lia.
Qed.

(** Reads that end where lines end. *)
Fixpoint aligned (bufs : list (list byte)) : Prop :=
  match bufs with
  | [] | [_] => True
  | b :: bufs => last_part b = [] ∧ aligned bufs
  end.

Lemma aligned_numbered bufs k : aligned bufs → numbered_reads k bufs = numbered k (mjoin bufs).
Proof.
  revert k. induction bufs as [|b bufs IH]; intros k Ha; [done|]. change (mjoin (b :: bufs)) with (b ++ mjoin bufs). cbn [numbered_reads].
  destruct bufs as [|b' bufs]; [by rewrite !app_nil_r|]. destruct Ha as [Hb Ha]. rewrite IH by done.
  destruct (lines_of_spec (S (length b)) b) as (E & Hn & _); [lia|]. fold (lines b) (last_part b) in E, Hn. rewrite Hb, app_nil_r in E.
  rewrite E at 3. rewrite numbered_text by done. f_equal. unfold numbered. by rewrite Hb, app_nil_r.
Qed.

(** numcat(), for cat -n, numbers the lines of each read as a text of its
    own, continuing the count; so it numbers the lines of the file when no
    line is split between two reads. *)
Theorem numcat_numbers bufs : Forall (λ b, b ≠ []) bufs → Z.of_nat (length (mjoin bufs)) < 2 ^ 31 - 1 → ∃ t,
  numcat (Some <$> bufs) = (t, inl tt) ∧ stdout t = numbered_reads 1 bufs ∧ (aligned bufs → stdout t = numbered 1 (mjoin bufs)).
Proof.
  intros Hb Hm. destruct (numcat_loop_spec bufs 1 Hb) as (t & Et & Hs); [lia|lia|]. exists t. split; [done|]. split; [done|].
  intros Ha. rewrite Hs. by apply aligned_numbered.
Qed.

(** A line split between two reads gets a second number in its middle. *)
Lemma numcat_numbers_witness : ∃ t, numcat (Some <$> [lit "ab"; lit "c"]) = (t, inl tt) ∧ stdout t = lit "1ab1c" ∧
  numbered 1 (mjoin [lit "ab"; lit "c"]) = lit "1abc".
Proof.
  destruct (numcat_numbers [lit "ab"; lit "c"]) as (t & Et & Hs & _).
  - repeat constructor; discriminate.
  - reflexivity.
  - exists t. split; [exact Et|]. split; [rewrite Hs; vm_compute; reflexivity|]. vm_compute. reflexivity.
Defined.

(** ** wc *)

Definition blank (b : byte) : bool := match ustrchr wc_blank b with Some _ => true | None => false end.

(** The pieces of a text between blanks. *)
Fixpoint pieces (p : list byte) : list byte * list (list byte) :=
  match p with
  | [] => ([], [])
  | c :: p => let '(w, ws) := pieces p in if blank c then ([], w :: ws) else (c :: w, ws)
  end.
Definition nonempty (w : list byte) : Z := if (0 <? length w)%nat then 1 else 0.
(** The number of words. *)
Definition words (p : list byte) : Z := nonempty (pieces p).1 + foldr (λ w n, nonempty w + n) 0 (pieces p).2.
Definition newlines (p : list byte) : Z := foldr (λ c n, (if beq c nl then 1 else 0) + n) 0 p.

Lemma nonempty_range w : 0 ≤ nonempty w ≤ 1.
Proof. unfold nonempty. destruct (_ <? _)%nat; lia. Qed.

Lemma words_cons c p : words (c :: p) = if blank c then words p else 1 + words p - nonempty (pieces p).1.
Proof. unfold words. cbn [pieces]. destruct (pieces p) as [w ws]. destruct (blank c); cbn [fst snd foldr]; [change (nonempty []) with 0|change (nonempty (c :: w)) with 1]; lia. Qed.

Lemma words_range p : 0 ≤ nonempty (pieces p).1 ≤ words p ∧ words p ≤ Z.of_nat (length p).
Proof.
  induction p as [|c p IH]; [done|]. rewrite words_cons. cbn [pieces length]. destruct (pieces p) as [w ws]. cbn [fst] in *.
  destruct (blank c); cbn [fst]; [change (nonempty []) with 0|change (nonempty (c :: w)) with 1]; lia.
Qed.
Lemma newlines_range p : 0 ≤ newlines p ≤ Z.of_nat (length p).
Proof. unfold newlines. induction p as [|c p IH]; [done|]. cbn [foldr length]. destruct (beq c nl); lia. Qed.

(** The loop over a buffer: a word that has begun is not counted again. *)
Lemma wc_buf_spec p k : 0 ≤ wc_l k ≤ wc_c k → 0 ≤ wc_w k ≤ wc_c k → wc_c k + Z.of_nat (length p) < 2 ^ 31 →
  let k' := foldl wc_byte k p in
  wc_l k' = wc_l k + newlines p ∧ wc_c k' = wc_c k + Z.of_nat (length p) ∧
  wc_w k' = wc_w k + words p - (if wc_inword k then nonempty (pieces p).1 else 0).
Proof.
  revert k. induction p as [|c p IH]; intros k Hl Hw Hm; cbn [foldl].
  { cbn. destruct (wc_inword k); change (words []) with 0; change (newlines []) with 0; lia. }
  cbn [length] in Hm. assert (Hk : wc_l (wc_byte k c) = wc_l k + (if beq c nl then 1 else 0) ∧ wc_c (wc_byte k c) = wc_c k + 1 ∧
    wc_w (wc_byte k c) = wc_w k + (if blank c || wc_inword k then 0 else 1) ∧ wc_inword (wc_byte k c) = negb (blank c)).
  { unfold wc_byte, blank. rewrite !i32_id by lia. destruct (ustrchr _ _), (wc_inword k), (beq c nl); cbn; lia. }
  destruct Hk as (H1 & H2 & H3 & H4). destruct (IH (wc_byte k c)) as (I1 & I2 & I3).
  { rewrite H1, H2. destruct (beq c nl); lia. } { rewrite H3, H2. destruct (blank c || wc_inword k); lia. } { lia. }
  rewrite I1, I2, I3, H1, H2, H3, H4, words_cons. cbn [pieces length]. destruct (pieces p) as [w ws]. cbn [fst].
  change (newlines (c :: p)) with ((if beq c nl then 1 else 0) + newlines p).
  destruct (blank c), (wc_inword k); cbn [orb negb fst]; try change (nonempty []) with 0; try change (nonempty (c :: w)) with 1; lia.
Qed.

Lemma wc_loop_spec bufs k : Forall (λ b, b ≠ []) bufs → wc_loop k (Some <$> bufs) = Some (foldl wc_byte k (mjoin bufs)).
Proof.
  revert k. induction bufs as [|b bufs IH]; intros k Hb; [done|]. apply Forall_cons in Hb as [Hne Hb]. cbn [fmap list_fmap wc_loop].
  change (mjoin (b :: bufs)) with (b ++ mjoin bufs). rewrite foldl_app. destruct b as [|c b]; [done|]. apply IH, Hb.
Qed.

(** wc() prints the number of lines, words and bytes, however the reads cut
    the text. *)
Theorem wc_counts bufs name : Forall (λ b, b ≠ []) bufs → Z.of_nat (length (mjoin bufs)) < 2 ^ 31 → let p := mjoin bufs in
  wc (Some <$> bufs) name = print 1 (lit "%d %d %d %s" ++ [nl]) [VNum (newlines p); VNum (words p); VNum (Z.of_nat (length p)); VStr (Some name)].
Proof.
  intros Hb Hm p. unfold wc. rewrite wc_loop_spec by done. fold p. destruct (wc_buf_spec p (Counts 0 0 0 false)) as (H1 & H2 & H3); [done|done|done|].
  cbn [wc_l wc_w wc_c wc_inword] in H1, H2, H3. rewrite H1, H2, H3. by rewrite Z.sub_0_r.
Qed.

Lemma wc_counts_witness : stdout (wc [Some (lit "ab c"); Some (lit "d" ++ [nl])] (lit "f")).1 = lit "1 2 6 f" ++ [nl].
Proof.
  change [Some (lit "ab c"); Some (lit "d" ++ [nl])] with (Some <$> [lit "ab c"; lit "d" ++ [nl]]).
  rewrite (wc_counts [lit "ab c"; lit "d" ++ [nl]]); [vm_compute; reflexivity|repeat constructor; discriminate|reflexivity].
Defined.

(** ** echo, fmtname() and init *)

Fixpoint join_space (args : list (list byte)) : list byte :=
  match args with
  | [] => []
  | [a] => a
  | a :: args => a ++ Byte.x20 :: join_space args
  end.
Lemma echo_output prog args : args ≠ [] → stdout (echo_main (prog :: args)).1 = join_space args ++ [nl] ∧ (echo_main (prog :: args)).2 = inr 0.
Proof.
  intros Hne. unfold echo_main. cbn [tl].
  assert (H : ∃ t, echo_args args = (t, inl tt) ∧ stdout t = join_space args ++ [nl]).
  { induction args as [|a args IH]; [done|]. cbn [echo_args]. rewrite !(W_bind_inl (emit _) _ _ _ eq_refl). destruct args as [|b args].
    - eexists. split; [reflexivity|]. done.
    - destruct IH as (t & Et & Hs); [done|]. rewrite Et. eexists. split; [reflexivity|]. cbn [fst app length Nat.ltb Nat.leb].
      change (stdout (AWrite 1 a :: AWrite 1 [Byte.x20] :: t)) with (a ++ Byte.x20 :: stdout t). rewrite Hs.
      change (join_space (a :: b :: args)) with (a ++ Byte.x20 :: join_space (b :: args)). by rewrite <- app_assoc. }
  destruct H as (t & Et & Hs). rewrite (W_bind_inl _ _ _ _ Et). cbn [exit fst snd]. by rewrite app_nil_r.
Qed.

(** fmtname() shows the last element of the path, padded. *)
Lemma last_slash_spec path : ∃ pre, path = pre ++ last_slash path ∧ ch_slash ∉ last_slash path ∧ (pre = [] ∨ ∃ q, pre = q ++ [ch_slash]).
Proof.
  unfold last_slash. induction path as [|c path IH] using rev_ind; [exists []; split; [done|]; split; [apply not_elem_of_nil|by left]|].
  rewrite foldl_app. cbn [foldl]. destruct IH as (pre & E & Hn & Hp). destruct (beq_spec c ch_slash) as [->|Hc].
  - exists (path ++ [ch_slash]). rewrite app_nil_r. split; [done|]. split; [apply not_elem_of_nil|]. right. by exists path.
  - exists pre. split; [rewrite app_assoc; by rewrite <- E|]. split; [|done].
    rewrite elem_of_app, list_elem_of_singleton. intros [?|E']; [done|congruence].
Qed.
Lemma fmtname_padded path : fmtname path = last_slash path ++ replicate (DIRSIZ - length (last_slash path)) Byte.x20.
Proof. unfold fmtname. destruct (Nat.leb_spec DIRSIZ (length (last_slash path))) as [H|H]; [|done]. replace (DIRSIZ - _)%nat with 0%nat by lia. by rewrite app_nil_r. Qed.

(** init waits for the orphans it is given and starts the shell again when,
    and only when, the shell itself has exited. *)
Lemma init_restarts exec_ok pid orphans forks waits : 0 < pid → Forall (λ w, 0 ≤ w ∧ w ≠ pid) orphans →
  init_loop exec_ok (pid :: forks) (orphans ++ pid :: waits) =
  (AWrite 1 (lit "init: starting sh" ++ [nl]) :: AFork :: replicate (S (length orphans)) AWait ++ (init_loop exec_ok forks waits).1,
   (init_loop exec_ok forks waits).2).
Proof.
  intros Hp Ho. assert (Hw : init_wait pid (orphans ++ pid :: waits) = (replicate (S (length orphans)) AWait, inl (Some waits))).
  { induction orphans as [|w orphans IH]; cbn [app init_wait].
    - by rewrite (W_bind_inl (emit _) _ _ _ eq_refl), Z.eqb_refl.
    - apply Forall_cons in Ho as [[H0 Hne] Ho]. rewrite (W_bind_inl (emit _) _ _ _ eq_refl). destruct (Z.eqb_spec w pid); [done|].
      destruct (Z.ltb_spec w 0); [lia|]. by rewrite IH. }
  cbn [init_loop]. rewrite print_bind, (W_bind_inl (emit _) _ _ _ eq_refl). destruct (Z.ltb_spec pid 0); [lia|]. destruct (Z.eqb_spec pid 0); [lia|].
  rewrite (W_bind_inl _ _ _ _ Hw). reflexivity.
Qed.

(** ** forktest and stressfs *)

Lemma emit_bind {A} a (f : unit → W A) : emit a ≫= f = (a :: (f tt).1, (f tt).2).
Proof. unfold emit, mbind, W_bind. by destruct (f tt). Qed.

Lemma fork_all_spec forks k n m : (n ≤ m < n + k)%nat → (∀ j, (n ≤ j < m)%nat → 0 < forks j) → forks m < 0 →
  fork_all forks k n = (replicate (S (m - n)) AFork, inl m).
Proof.
  revert n. induction k as [|k IH]; intros n Hm Hpos Hneg; [lia|]. cbn [fork_all]. rewrite emit_bind. destruct (decide (n = m)) as [->|Hne].
  - destruct (Z.ltb_spec (forks m) 0); [|lia]. by rewrite Nat.sub_diag.
  - specialize (Hpos n ltac:(lia)) as Hn. destruct (Z.ltb_spec (forks n) 0); [lia|]. destruct (Z.eqb_spec (forks n) 0); [lia|].
    rewrite (IH (S n)); [|lia|intros j Hj; apply Hpos; lia|done]. cbn [fst snd]. by replace (m - n)%nat with (S (m - S n)) by lia.
Qed.
Lemma fork_all_full forks k n : (∀ j, (n ≤ j < n + k)%nat → 0 < forks j) → fork_all forks k n = (replicate k AFork, inl (n + k)%nat).
Proof.
  revert n. induction k as [|k IH]; intros n Hpos; [by rewrite Nat.add_0_r|]. cbn [fork_all]. rewrite emit_bind.
  specialize (Hpos n ltac:(lia)) as Hn. destruct (Z.ltb_spec (forks n) 0); [lia|]. destruct (Z.eqb_spec (forks n) 0); [lia|].
  rewrite (IH (S n)) by (intros j Hj; apply Hpos; lia). cbn [fst snd]. by rewrite Nat.add_succ_comm.
Qed.
Lemma wait_all_spec waits n j : (∀ i, (j ≤ i < j + n)%nat → 0 ≤ waits i) → wait_all waits n j = (replicate n AWait, inl tt).
Proof.
  revert j. induction n as [|n IH]; intros j Hw; [done|]. cbn [wait_all]. rewrite emit_bind. specialize (Hw j ltac:(lia)) as Hj.
  destruct (Z.ltb_spec (waits j) 0); [lia|]. by rewrite (IH (S j)) by (intros i Hi; apply Hw; lia).
Qed.

(** In the parent forktest reports success on a system that refuses a fork
    before the thousandth and on which each child is reaped once: [n]
    children, [n] results of wait() and then -1 ... *)
Lemma forktest_passes forks waits n : (n < 1000)%nat → (∀ j, (j < n)%nat → 0 < forks j) → forks n < 0 → (∀ j, (j < n)%nat → 0 ≤ waits j) → waits n = -1 →
  forktest_main forks waits = (AWrite 1 (lit "fork test" ++ [nl]) :: replicate (S n) AFork ++ replicate (S n) AWait ++ [AWrite 1 (lit "fork test OK" ++ [nl])], inr 0).
Proof.
  intros Hn Hpos Hneg Hw Hlast.
  assert (E : forktest forks waits = (AWrite 1 (lit "fork test" ++ [nl]) :: replicate (S n) AFork ++ replicate n AWait ++ AWait :: [AWrite 1 (lit "fork test OK" ++ [nl])], inl tt)).
  { unfold forktest, forktest_print. rewrite emit_bind.
    rewrite (W_bind_inl _ _ _ _ (fork_all_spec forks forktest_N 0 n ltac:(unfold forktest_N; lia) ltac:(intros j Hj; apply Hpos; lia) Hneg)).
    rewrite Nat.sub_0_r. destruct (Nat.eqb_spec n forktest_N) as [->|_]; [unfold forktest_N in Hn; lia|].
    rewrite (W_bind_inl _ _ [] tt eq_refl), (W_bind_inl _ _ _ _ (wait_all_spec waits n 0 ltac:(intros j Hj; apply Hw; lia))), emit_bind, Hlast. reflexivity. }
  unfold forktest_main. rewrite (W_bind_inl _ _ _ _ E). cbn [exit fst snd]. rewrite app_nil_r. rewrite (replicate_S_end n AWait), <- app_assoc. reflexivity.
Qed.
(** ... and failure when a thousand forks succeed. *)
Lemma forktest_fails forks waits : (∀ j, 0 < forks j) → (forktest_main forks waits).2 = inr 1.
Proof.
  intros Hpos. unfold forktest_main, forktest, forktest_print. rewrite emit_bind. rewrite (W_bind_inl _ _ _ _ (fork_all_full forks forktest_N 0 ltac:(intros j _; apply Hpos))).
  rewrite Nat.add_0_l, Nat.eqb_refl. reflexivity.
Qed.

Lemma stress_fork_spec forks k n m : (n ≤ m ≤ n + k)%nat → (∀ j, (n ≤ j < m)%nat → forks j ≤ 0) → (m = n + k)%nat ∨ 0 < forks m →
  ∃ t, stress_fork forks k n = (t, inl m) ∧ Forall (eq AFork) t.
Proof.
  revert n. induction k as [|k IH]; intros n Hm Hneg Hend; cbn [stress_fork].
  - exists []. split; [by replace m with n by lia|constructor].
  - rewrite emit_bind. destruct (decide (n = m)) as [->|Hne].
    + destruct Hend as [?|Hp]; [lia|]. destruct (Z.ltb_spec 0 (forks m)); [|lia]. exists [AFork]. split; [done|by repeat constructor].
    + specialize (Hneg n ltac:(lia)) as Hn. destruct (Z.ltb_spec 0 (forks n)); [lia|].
      destruct (IH (S n)) as (t & -> & Ht); [lia|intros j Hj; apply Hneg; lia|by destruct Hend; [left; lia|right]|]. exists (AFork :: t). split; [done|by constructor].
Qed.

(** The descriptors of stressfs are opened on its own file. *)
Definition paths_opened (t : list act) : list (list byte) := omap (λ a, match a with AOpenMode p _ => Some p | _ => None end) t.
Lemma repeat_act_spec k a : repeat_act k a = (replicate k a, inl tt).
Proof. induction k as [|k IH]; [done|]. cbn [repeat_act]. by rewrite emit_bind, IH. Qed.

Lemma stress_path_inj i j : (i < 5)%nat → (j < 5)%nat → stress_path i = stress_path j → i = j.
Proof. intros Hi Hj. do 5 (destruct i as [|i]; [do 5 (destruct j as [|j]; [done|]); lia|]). lia. Qed.

(** The process of stressfs after [m] forks it was the child of works on file
    number [m] only, so that the five processes share no file. *)
Lemma stressfs_own_file forks fd1 fd2 m : (m ≤ 4)%nat → (∀ j, (j < m)%nat → forks j ≤ 0) → m = 4%nat ∨ 0 < forks m →
  paths_opened (stressfs_main forks fd1 fd2).1 = [stress_path m; stress_path m] ∧ (stressfs_main forks fd1 fd2).2 = inr 0.
Proof.
  intros Hm Hneg Hend. destruct (stress_fork_spec forks 4 0 m) as (t & E & Ht); [lia|intros j Hj; apply Hneg; lia|exact Hend|].
  unfold stressfs_main. rewrite print_bind, (W_bind_inl _ _ _ _ E), print_bind, emit_bind, repeat_act_spec. rewrite (W_bind_inl _ _ _ _ eq_refl), emit_bind, print_bind, emit_bind, repeat_act_spec.
  rewrite (W_bind_inl _ _ _ _ eq_refl), !emit_bind. cbn [fst snd exit]. split; [|done]. unfold paths_opened. cbn [app omap list_omap].
  assert (Hnone : omap (λ a : act, match a with AOpenMode p _ => Some p | _ => None end) t = []) by (clear E; induction Ht as [|a t <- _ IH]; [done|exact IH]).
  rewrite omap_app, Hnone. reflexivity.
Qed.

(** ** user/grind.c: the random numbers of the stress test *)

(** The value returned, and the new [*ctx]. *)
Definition do_rand (ctx : Z) : Z * Z :=
  (* Transform to [1, 0x7ffffffe] range. *)
  let x := ctx mod 0x7ffffffe + 1 in
  let hi := Z.quot x 127773 in
  let lo := Z.rem x 127773 in
  let x := 16807 * lo - 2836 * hi in
  let x := if x <? 0 then x + 0x7fffffff else x in
  (* Transform to [0, 0x7ffffffd] range. *)
  let x := x - 1 in
  (i32 x, u64 x).

Definition rand_next0 : Z := 1.
Definition rand : M Z Z := λ rand_next, let '(r, ctx) := do_rand rand_next in Ret r ctx.

Definition modulus : Z := 2 ^ 31 - 1.

(** 1407677000 is the inverse of 16807. *)
Lemma inverse x : 0 < x < modulus → (1407677000 * ((16807 * x) mod modulus)) mod modulus = x.
Proof.
  intros Hx. rewrite Z.mul_mod_idemp_r, Z.mul_assoc, <- Z.mul_mod_idemp_l by done. change ((1407677000 * 16807) mod modulus) with 1.
  rewrite Z.mul_1_l. apply Z.mod_small. lia.
Qed.
Lemma park_miller_nonzero x : 0 < x < modulus → 0 < (16807 * x) mod modulus.
Proof.
  intros Hx. pose proof (Z.mod_pos_bound (16807 * x) modulus ltac:(done)) as [H0 _]. pose proof (inverse x Hx) as Hi.
  destruct (decide ((16807 * x) mod modulus = 0)) as [Hz|]; [|lia]. rewrite Hz, Z.mul_0_r, Z.mod_0_l in Hi by done. lia.
Qed.

(** The two products and their difference, for x = 127773 * hi + lo. *)
Lemma schrage x : 0 < x < modulus → let y := 16807 * (x mod 127773) - 2836 * (x / 127773) in
  - modulus < y < modulus ∧ (16807 * x) mod modulus = if y <? 0 then y + modulus else y.
Proof.
  intros Hx y. pose proof (Z.div_mod x 127773 ltac:(done)) as Hd. pose proof (Z.mod_pos_bound x 127773 ltac:(done)) as Hm.
  assert (0 ≤ x / 127773) by (by apply Z.div_pos; lia). unfold modulus in *. change (2 ^ 31 - 1) with 2147483647 in *.
  assert (Hy : - 2147483647 < y < 2147483647) by (unfold y; lia). split; [done|].
  destruct (Z.ltb_spec y 0); symmetry.
  - apply (Z.mod_unique_pos _ _ (x / 127773 - 1)); unfold y in *; lia.
  - apply (Z.mod_unique_pos _ _ (x / 127773)); unfold y in *; lia.
Qed.

Lemma do_rand_value ctx : let x := ctx mod 0x7ffffffe + 1 in
  do_rand ctx = ((16807 * x) mod modulus - 1, (16807 * x) mod modulus - 1) ∧ 0 ≤ (16807 * x) mod modulus - 1 ≤ 0x7ffffffd.
Proof.
  intros x. pose proof (Z.mod_pos_bound ctx 0x7ffffffe ltac:(done)) as Hc.
  assert (Hx : 0 < x < modulus) by (unfold x, modulus; lia).
  destruct (schrage x Hx) as [_ Hs]. pose proof (park_miller_nonzero x Hx). pose proof (Z.mod_pos_bound (16807 * x) modulus ltac:(done)) as [_ Hb].
  assert (modulus = 2147483647) by done. split; [|lia]. unfold do_rand. fold x. rewrite Z.quot_div_nonneg, Z.rem_mod_nonneg by lia.
  change 0x7fffffff with modulus. rewrite <- Hs. f_equal; [apply i32_id|apply u64_id]; lia.
Qed.

(** do_rand() is the Park-Miller generator: with x the state brought into
    [1, 2^31 - 2], both products of Schrage's method and their difference fit
    a 32-bit signed integer, the value returned, which is also the new state,
    is 16807 * x mod (2^31 - 1) - 1 and lies in [0, 2^31 - 3], and on that
    range do_rand() is injective, so that no two states run together. *)
Theorem do_rand_park_miller ctx :
  let x := ctx mod 0x7ffffffe + 1 in
  (0 ≤ 16807 * Z.rem x 127773 < 2 ^ 31 ∧ 0 ≤ 2836 * Z.quot x 127773 < 2 ^ 31 ∧
   - 2 ^ 31 ≤ 16807 * Z.rem x 127773 - 2836 * Z.quot x 127773 < 2 ^ 31) ∧
  do_rand ctx = ((16807 * x) mod (2 ^ 31 - 1) - 1, (16807 * x) mod (2 ^ 31 - 1) - 1) ∧
  0 ≤ (do_rand ctx).1 ≤ 0x7ffffffd ∧ rand ctx = Ret (do_rand ctx).1 (do_rand ctx).2 ∧
  ∀ ctx', 0 ≤ ctx ≤ 0x7ffffffd → 0 ≤ ctx' ≤ 0x7ffffffd → (do_rand ctx).2 = (do_rand ctx').2 → ctx = ctx'.
Proof.
  intros x. destruct (do_rand_value ctx) as [Hv Hr]. fold x in Hv, Hr. pose proof (Z.mod_pos_bound ctx 0x7ffffffe ltac:(done)) as Hc.
  assert (Hx : 0 < x < modulus) by (unfold x, modulus; lia). split.
  { rewrite Z.quot_div_nonneg, Z.rem_mod_nonneg by lia. pose proof (Z.mod_pos_bound x 127773 ltac:(done)).
    assert (0 ≤ x / 127773 ≤ 16807).
    { split; [apply Z.div_pos; lia|]. enough (x / 127773 < 16808) by lia. apply Z.div_lt_upper_bound; [lia|]. unfold modulus in Hx. lia. }
    lia. }
  split; [exact Hv|]. rewrite Hv. split; [exact Hr|]. split; [unfold rand; by rewrite Hv|]. intros ctx' H1 H2 He. destruct (do_rand_value ctx') as [Hv' _]. rewrite Hv' in He. cbn [snd] in He.
  rewrite (Z.mod_small ctx') in He by lia. assert (Hc' : x = ctx + 1) by (unfold x; rewrite Z.mod_small; lia).
  assert (Hx' : 0 < ctx' + 1 < modulus) by (unfold modulus; lia). pose proof (inverse _ Hx) as A. pose proof (inverse _ Hx') as B.
  assert (E : (16807 * x) mod modulus = (16807 * (ctx' + 1)) mod modulus) by lia. rewrite E in A. lia.
Qed.
