(* ===== verification/Boot.v ===== *)
(** * kernel/start.c and kernel/main.c: from reset to the scheduler

    start() runs in machine mode on every hart and ends in the mret
    instruction, which drops to supervisor mode at main(); [mhart] has the
    registers of the hart it works on.

    main() calls the *init() functions of all other files on hart 0, on the
    state [kernel] of the whole kernel: the state of trap.c with the file
    layer of file.c, fs.c, log.c and bio.c ([kernel_files] implements
    [FileLayer] with them) and the devices of console.c, uart.c and
    virtio_disk.c ([kernel_devices] implements [DeviceLayer]).  The other
    harts wait for [started]. *)

From stdpp Require Import base functions gmap sets strings numbers list.
From coqutil Require Import Byte Word.LittleEndianList.
From S2P Require Import Exec ExecThms FsBlocks FsAlloc FsBmap FsFile.
From S2P Require Import Prelude Mem Str Riscv Spinlock Kalloc Vm VmPt VmWalk VmMap VmFree VmCopy VmKernel Block Sleeplock Bio BioLru BioFacts BioThms Log BlockLog.
From S2P Require Import Fs FsPath File Printf Uart Console ConsoleThms Virtio VirtioThms Proc ProcThms ProcInit Syscall Trap VmUserMem.

(** ** Machine-mode registers (riscv.h) *)

Inductive mcsr := mhartid | mstatus | mepc | satp | medeleg | mideleg | csr_sie | pmpaddr0 | pmpcfg0 | mscratch | mtvec | mie.
#[export] Instance mcsr_eq_dec : EqDecision mcsr.
Proof. solve_decision. Defined.

Inductive privilege := PrivU | PrivS | PrivM.

(** The registers of a hart, and the memory all harts share, with the
    registers of the CLINT in it. *)
Record mhart := MHart { m_csr : mcsr → Z; m_tp : Z; m_pc : Z; m_mode : privilege; m_mem : mem }.

Definition csrr (c : mcsr) : M mhart Z := gets (λ s, m_csr s c).
Definition set_csr (c : mcsr) (x : Z) (s : mhart) : mhart :=
  MHart (λ c', if decide (c' = c) then x else m_csr s c') (m_tp s) (m_pc s) (m_mode s) (m_mem s).
Definition set_mmem (m : mem) (s : mhart) : mhart := MHart (m_csr s) (m_tp s) (m_pc s) (m_mode s) m.
Definition csrw (c : mcsr) (x : Z) : M mhart unit := modify (set_csr c x).

Definition r_mhartid : M mhart Z := csrr mhartid.
Definition r_mstatus : M mhart Z := csrr mstatus.
Definition w_mstatus (x : Z) : M mhart unit := csrw mstatus x.
Definition w_mepc (x : Z) : M mhart unit := csrw mepc x.
Definition r_sie : M mhart Z := csrr csr_sie.
Definition w_sie (x : Z) : M mhart unit := csrw csr_sie x.
Definition r_mie : M mhart Z := csrr mie.
Definition w_mie (x : Z) : M mhart unit := csrw mie x.
Definition w_medeleg (x : Z) : M mhart unit := csrw medeleg x.
Definition w_mideleg (x : Z) : M mhart unit := csrw mideleg x.
Definition w_mtvec (x : Z) : M mhart unit := csrw mtvec x.
Definition w_pmpcfg0 (x : Z) : M mhart unit := csrw pmpcfg0 x.
Definition w_pmpaddr0 (x : Z) : M mhart unit := csrw pmpaddr0 x.
Definition w_satp (x : Z) : M mhart unit := csrw satp x.
Definition w_mscratch (x : Z) : M mhart unit := csrw mscratch x.
Definition w_tp (x : Z) : M mhart unit := modify (λ s, MHart (m_csr s) x (m_pc s) (m_mode s) (m_mem s)).

Definition MSTATUS_MPP_MASK : Z := Z.shiftl 3 11.
Definition MSTATUS_MPP_S : Z := Z.shiftl 1 11.
Definition MSTATUS_MIE : Z := Z.shiftl 1 3.
Definition SIE_SEIE : Z := Z.shiftl 1 9.
Definition SIE_STIE : Z := Z.shiftl 1 5.
Definition SIE_SSIE : Z := Z.shiftl 1 1.
Definition MIE_MTIE : Z := Z.shiftl 1 7.
Definition CLINT : Z := 0x2000000.
Definition CLINT_MTIMECMP (hartid : Z) : Z := CLINT + 0x4000 + 8 * hartid.
Definition CLINT_MTIME : Z := CLINT + 0xBFF8.
Definition NCPU : Z := 8.

(** The instruction mret: to the mode in MPP at mepc, MIE from MPIE (bit 7). *)
Definition mode_of (mpp : Z) : privilege := if mpp =? 0 then PrivU else if mpp =? 1 then PrivS else PrivM.
Definition mret_insn : M mhart unit :=
  modify (λ s,
    let x := m_csr s mstatus in
    let mie' := if Z.testbit x 7 then MSTATUS_MIE else 0 in
    let x' := Z.lor (Z.lor (Z.ldiff (Z.ldiff x MSTATUS_MPP_MASK) MSTATUS_MIE) mie') (Z.shiftl 1 7) in
    MHart (λ c, if decide (c = mstatus) then x' else m_csr s c) (m_tp s) (m_csr s mepc)
      (mode_of (Z.land (Z.shiftr x 11) 3)) (m_mem s)).

(** ** start.c *)

Definition mread64 (a : Z) : M mhart Z := gets (λ s, load64 (m_mem s) a).
Definition mwrite64 (a v : Z) : M mhart unit := modify (λ s, set_mmem (store64 (m_mem s) a v) s).

Section start.
(** Addresses: main(), timervec and the array timer_scratch. *)
Context (main_addr timervec timer_scratch : Z).

(** [&timer_scratch[id][0]] *)
Definition scratch_row (id : Z) : Z := timer_scratch + 40 * id.
Definition interval : Z := 1000000.

Definition timerinit : M mhart unit :=
  (* each CPU has a separate source of timer interrupts. *)
  id ← r_mhartid;
  let id := i32 id in
  (* ask the CLINT for a timer interrupt. *)
  now ← mread64 CLINT_MTIME;
  mwrite64 (CLINT_MTIMECMP id) (now + interval);;
  (* prepare information in scratch[] for timervec. *)
  mwrite64 (scratch_row id + 8 * 3) (CLINT_MTIMECMP id);;
  mwrite64 (scratch_row id + 8 * 4) interval;;
  w_mscratch (scratch_row id);;
  (* set the machine-mode trap handler. *)
  w_mtvec timervec;;
  (* enable machine-mode interrupts. *)
  x ← r_mstatus;
  w_mstatus (Z.lor x MSTATUS_MIE);;
  (* enable machine-mode timer interrupts. *)
  x ← r_mie;
  w_mie (Z.lor x MIE_MTIE).

Definition start : M mhart unit :=
  (* set M Previous Privilege mode to Supervisor, for mret. *)
  x ← r_mstatus;
  let x := Z.ldiff x MSTATUS_MPP_MASK in
  let x := Z.lor x MSTATUS_MPP_S in
  w_mstatus x;;
  (* set M Exception Program Counter to main, for mret. *)
  w_mepc main_addr;;
  (* disable paging for now. *)
  w_satp 0;;
  (* delegate all interrupts and exceptions to supervisor mode. *)
  w_medeleg 0xffff;;
  w_mideleg 0xffff;;
  x ← r_sie;
  w_sie (Z.lor (Z.lor (Z.lor x SIE_SEIE) SIE_STIE) SIE_SSIE);;
  (* configure Physical Memory Protection *)
  w_pmpaddr0 0x3fffffffffffff;;
  w_pmpcfg0 0xf;;
  (* ask for clock interrupts. *)
  timerinit;;
  (* keep each CPU's hartid in its tp register, for cpuid(). *)
  id ← r_mhartid;
  w_tp (u64 (i32 id));;
  (* switch to supervisor mode and jump to main(). *)
  mret_insn.

(** MPP is Supervisor in what start() leaves in mstatus. *)
Lemma mpp_supervisor x : mode_of (Z.land (Z.shiftr (Z.lor (Z.lor (Z.ldiff x MSTATUS_MPP_MASK) MSTATUS_MPP_S) MSTATUS_MIE) 11) 3) = PrivS.
Proof.
  rewrite !Z.shiftr_lor, Z.shiftr_ldiff, !Z.land_lor_distr_l. change (Z.shiftr MSTATUS_MPP_MASK 11) with 3.
  change (Z.land (Z.shiftr MSTATUS_MPP_S 11) 3) with 1. change (Z.land (Z.shiftr MSTATUS_MIE 11) 3) with 0.
  assert (Z.land (Z.ldiff (Z.shiftr x 11) 3) 3 = 0) as ->; [|done].
  rewrite Z.ldiff_land, <- Z.land_assoc. rewrite (Z.land_comm (Z.lnot 3) 3). by rewrite Z.land_lnot_diag, Z.land_0_r.
Qed.

Lemma csrw_run {A} c x (k : unit → M mhart A) s : (csrw c x ≫= k) s = k tt (set_csr c x s).
Proof. reflexivity. Qed.
Lemma csrr_run {A} c (k : Z → M mhart A) s : (csrr c ≫= k) s = k (m_csr s c) s.
Proof. reflexivity. Qed.
Lemma mread_run {A} a (k : Z → M mhart A) s : (mread64 a ≫= k) s = k (load64 (m_mem s) a) s.
Proof. reflexivity. Qed.
Lemma mwrite_run {A} a v (k : unit → M mhart A) s : (mwrite64 a v ≫= k) s = k tt (set_mmem (store64 (m_mem s) a v) s).
Proof. reflexivity. Qed.
Lemma csr_set_eq c x s : m_csr (set_csr c x s) c = x.
Proof. cbn. by rewrite decide_True. Qed.
Lemma csr_set_ne c c' x s : c' ≠ c → m_csr (set_csr c x s) c' = m_csr s c'.
Proof. intros H. cbn. by rewrite decide_False. Qed.
Lemma mem_set c x s : m_mem (set_csr c x s) = m_mem s.
Proof. reflexivity. Qed.
Lemma csr_mem m c s : m_csr (set_mmem m s) c = m_csr s c.
Proof. reflexivity. Qed.
Lemma mem_mem m s : m_mem (set_mmem m s) = m.
Proof. reflexivity. Qed.

Lemma enter_main id s : ∃ s', (w_tp id;; mret_insn) s = Ret tt s' ∧ m_mode s' = mode_of (Z.land (Z.shiftr (m_csr s mstatus) 11) 3) ∧ m_pc s' = m_csr s mepc ∧
  m_tp s' = id ∧ m_mem s' = m_mem s ∧ ∀ c, c ≠ mstatus → m_csr s' c = m_csr s c.
Proof. eexists. split; [reflexivity|]. do 4 (split; [reflexivity|]). intros c Hc. cbn. by rewrite decide_False. Qed.

Ltac csr_simp := repeat first [rewrite csr_set_eq | rewrite csr_set_ne by discriminate | rewrite csr_mem | rewrite mem_set | rewrite mem_mem].

(** start() on any hart ends in supervisor mode at main(), with paging off,
    all traps delegated, the three supervisor interrupts and the machine
    timer enabled, the hart's number in tp and mscratch at its own row of
    timer_scratch, which holds the address of the hart's timer register and
    the interval; the timer is set one interval ahead.  It writes no other
    memory, so the harts do not disturb each other. *)
Theorem start_enters_main s : let id := m_csr s mhartid in
  0 ≤ id < NCPU → CLINT + 0xC000 ≤ timer_scratch → timer_scratch + 40 * NCPU < 2 ^ 64 → 0 ≤ load64 (m_mem s) CLINT_MTIME + interval < 2 ^ 64 →
  ∃ s', start s = Ret tt s' ∧ m_mode s' = PrivS ∧ m_pc s' = main_addr ∧ m_tp s' = id ∧
    m_csr s' satp = 0 ∧ m_csr s' medeleg = 0xffff ∧ m_csr s' mideleg = 0xffff ∧ m_csr s' mtvec = timervec ∧ m_csr s' mscratch = scratch_row id ∧
    m_csr s' pmpaddr0 = 0x3fffffffffffff ∧ m_csr s' pmpcfg0 = 0xf ∧
    m_csr s' csr_sie = Z.lor (m_csr s csr_sie) 0x222 ∧ m_csr s' mie = Z.lor (m_csr s mie) MIE_MTIE ∧
    load64 (m_mem s') (CLINT_MTIMECMP id) = load64 (m_mem s) CLINT_MTIME + interval ∧
    load64 (m_mem s') (scratch_row id + 24) = CLINT_MTIMECMP id ∧ load64 (m_mem s') (scratch_row id + 32) = interval ∧
    ∀ a, ¬ (CLINT_MTIMECMP id ≤ a < CLINT_MTIMECMP id + 8) → ¬ (scratch_row id + 24 ≤ a < scratch_row id + 40) → m_mem s' a = m_mem s a.
Proof.
  intros id Hid Hsc Hsb Hnow. unfold start, timerinit. fold r_mhartid.
  unfold r_mstatus, w_mstatus, w_mepc, w_satp, w_medeleg, w_mideleg, r_sie, w_sie, w_pmpaddr0, w_pmpcfg0, r_mhartid, w_mscratch, w_mtvec, r_mie, w_mie.
  assert (Hi : i32 id = id) by (apply i32_id; unfold NCPU in Hid; lia). assert (Hu : u64 id = id) by (apply u64_id; unfold NCPU in Hid; lia).
  cbv zeta. rewrite csrr_run, !csrw_run, csrr_run. csr_simp. rewrite !csrw_run, bind_assoc, csrr_run. csr_simp. fold id.
  rewrite Hi, bind_assoc, mread_run. csr_simp. rewrite bind_assoc, mwrite_run, bind_assoc, mwrite_run, bind_assoc, mwrite_run. csr_simp.
  rewrite !bind_assoc, csrw_run, !bind_assoc, csrw_run, !bind_assoc, csrr_run. csr_simp. rewrite !bind_assoc, csrw_run, !bind_assoc, csrr_run. csr_simp.
  rewrite csrw_run, csrr_run. csr_simp. fold id. rewrite Hi, Hu.
  match goal with |- context [(w_tp id ≫= _) ?s1] => destruct (enter_main id s1) as (s' & E & Hmode & Hpc & Htp & Hmem & Hcsr) end.
  exists s'. split; [exact E|]. clear E. rewrite Hmode, Hpc, Htp, Hmem. rewrite !Hcsr by discriminate. clear Hmode Hpc Htp Hmem Hcsr. csr_simp.
  clearbody id. unfold CLINT_MTIMECMP, CLINT_MTIME, scratch_row, NCPU, CLINT, interval in *. change (8 * 3) with 24. change (8 * 4) with 32.
  split; [apply mpp_supervisor|]. do 9 (split; [reflexivity|]). split; [by rewrite <- !Z.lor_assoc|]. split; [reflexivity|]. split_and!.
  - rewrite !load64_store64_ne, load64_store64_eq by lia. apply u64_id. lia.
  - rewrite load64_store64_ne, load64_store64_eq by lia. apply u64_id. lia.
  - rewrite load64_store64_eq. apply u64_id. lia.
  - intros a H1 H2. rewrite !store64_out by lia. reflexivity.
Qed.
End start.

(** ** The kernel put together *)

Section kernel.
Context {I : image} {IO : image_ok I} {D : DiskDriver} {U : UserMem}.
(** The process on whose behalf the file layer runs, and where the log is. *)
Context (pid log_start nlog : Z).
(** What the device registers read as, and the fuel of the interrupt handler
    of the UART. *)
Context (lsr rhr : nat → Z) (mmio : nat → Z → Z) (istat : Z) (spin intr_fuel : nat) (dump : list byte).
(** Addresses and data the linker provides. *)
Context (kernelvec forkret : Z) (initcode name_initcode uninit_name : list byte).

#[local] Existing Instance kalloc_allocator.
#[local] Instance kernel_blocks : BlockLayer := log_blocks pid log_start nlog.

(** userinit() looks up an absolute path: no current directory is used. *)
#[local] Instance kernel_files : FileLayer := {|
  fl_state := fkstate;
  fl_filedup := filedup;
  fl_fileclose := fileclose pid begin_op (end_op pid);
  fl_idup ip := fsm (idup ip);
  fl_iput ip := fsm (iput pid ip);
  fl_begin_op := fbegin begin_op;
  fl_end_op := fend (end_op pid);
  fl_namei path := fsm (namei pid 0 uninit_name path);
  fl_fsinit dev := fsm (fsinit (λ dev sb, initlog pid dev (sb_logstart sb) (sb_nlog sb)) dev)
|}.

Record devices := Devices { d_cons : cstate; d_disk : vstate; d_reads : nat }.
Definition set_d_cons (x : cstate) (s : devices) : devices := Devices x (d_disk s) (d_reads s).
Definition set_d_disk (x : vstate) (s : devices) : devices := Devices (d_cons s) x (d_reads s).

#[local] Instance kernel_devices : DeviceLayer := {|
  dv_state := devices;
  dv_uartintr := zoom d_cons set_d_cons (uartintr lsr rhr spin intr_fuel dump);
  dv_virtio_disk_intr := zoom d_disk set_d_disk (virtio_disk_intr istat)
|}.

Record kernel := Kernel {
  k_t : tstate;
  kernel_pagetable : Z;
  pr_lock : bool;       (* printf.c: pr *)
  pr_locking : bool;
  started : bool
}.
Definition set_k_t (x : tstate) (s : kernel) : kernel := Kernel x (kernel_pagetable s) (pr_lock s) (pr_locking s) (started s).

Definition on_t {A} (m : M tstate A) : M kernel A := zoom k_t set_k_t m.
Definition on_pk {A} (m : M pkstate A) : M kernel A := on_t (zoom t_pk set_t_pk m).
Definition on_memory {A} (m : M mstate A) : M kernel A := on_pk (mm m).
Definition on_files {A} (m : M fkstate A) : M kernel A := on_pk (zoom pk_files set_pk_files m).
Definition on_dev {A} (m : M devices A) : M kernel A := on_t (zoom t_dev set_t_dev m).
(** virtio_disk_init() works on memory and on the driver. *)
Definition on_virtio {A} (m : M istate A) : M kernel A :=
  on_t (zoom (λ s, IState (pk_mem (t_pk s)) (d_disk (t_dev s)) (d_reads (t_dev s)))
    (λ i s, set_t_dev (Devices (d_cons (t_dev s)) (i_vs i) (i_reads i)) (set_t_pk (set_pk_mem (i_ms i) (t_pk s)) s)) m).
Definition on_bcache (m : M bstate unit) : M kernel unit :=
  on_files (fsm (zoom fs_bl set_fs_bl (zoom lg_bc set_lg_bc m : M bl_state unit))).

(** printf.c: the bytes are those of [kprintf], in order; no format is null. *)
Definition set_pr_lock (b : bool) (s : kernel) : kernel := Kernel (k_t s) (kernel_pagetable s) b (pr_locking s) (started s).
Definition set_pr_locking (b : bool) (s : kernel) : kernel := Kernel (k_t s) (kernel_pagetable s) (pr_lock s) b (started s).
Definition on_cons {A} (m : M cstate A) : M kernel A := on_dev (zoom d_cons set_d_cons m).

Definition printfinit : M kernel unit :=
  modify (set_pr_lock false);;
  modify (set_pr_locking true).
Definition printf (fmt : list byte) (ap : list varg) : M kernel unit :=
  locking ← gets pr_locking;
  (if locking : bool then acquire_flag pr_lock set_pr_lock else mret tt);;
  on_cons (print_text lsr spin (kprintf fmt ap));;
  if locking : bool then release_flag pr_lock set_pr_lock else mret tt.

Definition text (s : string) : list byte := String.list_byte_of_string s.
Definition newline : list byte := [Byte.x0a].
Definition set_panicked (u : uart) : uart :=
  Uart (uart_tx_lock u) (uart_tx_buf u) (uart_tx_w u) (uart_tx_r u) true (reg_writes u) (lsr_reads u) (rhr_reads u) (uart_woke u).

(** panic(): up to its loop, and with it. *)
Definition panic_message (s : list byte) : M kernel unit :=
  modify (set_pr_locking false);;
  printf (text "panic: ") [];;
  printf s [];;
  printf newline [];;
  on_cons (on_uart (modify set_panicked)).   (* freeze uart output from other CPUs *)
Definition kernel_panic {A} (s : list byte) : M kernel A :=
  panic_message s;;
  forever.

(** vm.c; the sfence.vma instructions have no counterpart. *)
Definition set_satp (x : Z) : M tstate unit :=
  modify (λ s, let c := t_csr s in set_t_csr (Csrs (csr_status c) (csr_sepc c) (csr_scause c) (csr_stvec c) (csr_sip c) x (csr_tp c)) s).
Definition kvminithart : M kernel unit :=
  pt ← gets kernel_pagetable;
  on_t (set_satp (MAKE_SATP pt)).

Definition path_root : list byte := [Byte.x2f; Byte.x00].

(** main() on hart 0, up to scheduler(). *)
Definition main_hart0 : M kernel unit :=
  on_cons consoleinit;;
  printfinit;;
  printf newline [];;
  printf (text "xv6 kernel is booting" ++ newline) [];;
  printf newline [];;
  on_memory kinit;;         (* physical page allocator *)
  (pt ← on_memory kvminit; modify (λ s, Kernel (k_t s) pt (pr_lock s) (pr_locking s) (started s)));;   (* create kernel page table *)
  kvminithart;;             (* turn on paging *)
  on_pk procinit;;          (* process table *)
  on_t trapinit;;           (* trap vectors *)
  on_t (trapinithart kernelvec);;   (* install kernel trap vector *)
  on_t plicinit;;           (* set up interrupt controller *)
  on_t plicinithart;;       (* ask PLIC for device interrupts *)
  on_bcache binit;;         (* buffer cache *)
  on_files (fsm iinit);;    (* inode table *)
  on_files fileinit;;       (* file table *)
  on_virtio (virtio_disk_init mmio);;   (* emulated hard disk *)
  on_pk (userinit forkret initcode name_initcode path_root);;   (* first user process *)
  modify (λ s, Kernel (k_t s) (kernel_pagetable s) (pr_lock s) (pr_locking s) true).

(** ... and on the others, once they see [started]. *)
Definition main_other : M kernel unit :=
  id ← gets (λ s, csr_tp (t_csr (k_t s)));
  printf (text "hart %d starting" ++ newline) [VNum (i32 id)];;
  kvminithart;;
  on_t (trapinithart kernelvec);;
  on_t plicinithart.

(** ** The *init() functions on zeroed data *)

Definition boot_proc (i : nat) : proc := p_set_kstack (KSTACK (Z.of_nat i)) proc0.

Fixpoint procs_init (k i : nat) (t : list proc) : list proc :=
  match k with
  | O => t
  | S k => procs_init k (S i) (alter (λ p, p_set_kstack (KSTACK (Z.of_nat i)) (p_set_state UNUSED (p_set_lock false p))) i t)
  end.
Lemma procinit_loop_run k i s : procinit_loop k i s = Ret tt (set_ptable (procs_init k i (ptable s)) s).
Proof. revert i s. induction k as [|k IH]; intros i s; [by destruct s|]. cbn [procinit_loop procs_init]. unfold updp. rewrite bind_modify. by rewrite IH. Qed.

Lemma procs_init_zero : procs_init NPROC 0 (replicate NPROC proc0) = boot_proc <$> seq 0 NPROC.
Proof. vm_compute. reflexivity. Qed.

Lemma procinit_run s : ptable s = replicate NPROC proc0 →
  procinit s = Ret tt (set_ptable (boot_proc <$> seq 0 NPROC) (set_wait_lock false (set_pid_lock false s))).
Proof. intros Ht. unfold procinit. rewrite !bind_modify, procinit_loop_run. cbn [ptable set_wait_lock set_pid_lock]. by rewrite Ht, procs_init_zero. Qed.

(** The inode table after iinit() and after iget() of the root directory. *)
Definition boot_inode : inode := i_set_lock (Sleeplock false false "inode" 0) inode0.

Fixpoint inodes_init (k i : nat) (t : list inode) : list inode :=
  match k with O => t | S k => inodes_init k (S i) (alter (i_set_lock (Sleeplock false false "inode" 0)) i t) end.

Lemma iinit_loop_run k i s : iinit_loop k i s = Ret tt (set_itab (inodes_init k i (itab s)) s).
Proof.
  revert i s. induction k as [|k IH]; intros i s; [by destruct s|]. cbn [iinit_loop inodes_init]. unfold initsleeplock, upd_sl. rewrite bind_modify. by rewrite IH.
Qed.
Lemma inodes_init_zero : inodes_init NINODE 0 (replicate NINODE inode0) = replicate NINODE boot_inode.
Proof. vm_compute. reflexivity. Qed.
Lemma iinit_run s : itab s = replicate NINODE inode0 → iinit s = Ret tt (set_itab (replicate NINODE boot_inode) (set_it_lock false s)).
Proof. intros Ht. unfold iinit. rewrite bind_modify, iinit_loop_run. cbn [itab set_it_lock]. by rewrite Ht, inodes_init_zero. Qed.

(** namei("/") takes the first entry for the root directory. *)
Lemma namei_root s : itab s = replicate NINODE boot_inode → it_lock s = false →
  namei pid 0 uninit_name path_root s = Ret (Some 0%nat) (set_itab (<[0%nat := i_recycle ROOTDEV ROOTINO boot_inode]> (replicate NINODE boot_inode)) s).
Proof. intros Ht Hl. destruct s as [sb il it bl um wk]. cbn in Ht, Hl. subst. reflexivity. Qed.

(** The registers uartinit() writes. *)
Definition uart_setup : list (Z * Z) := [(IER, 0); (LCR, 0x80); (0, 3); (1, 0); (LCR, 3); (FCR, 7); (IER, 3)].
Lemma consoleinit_run c : ∃ c', consoleinit c = Ret tt c' ∧ panicked (cs_uart c') = panicked (cs_uart c) ∧ reg_writes (cs_uart c') = reg_writes (cs_uart c) ++ uart_setup.
Proof. eexists. split; [reflexivity|]. split; [reflexivity|]. unfold uart_setup. cbn [WriteReg set_tx_lock reg_writes cs_uart set_uart]. rewrite <- !app_assoc. reflexivity. Qed.

(** ** printf() and panic() *)

Lemma on_t_Ret {A} (m : M tstate A) s a t : m (k_t s) = Ret a t → on_t m s = Ret a (set_k_t t s).
Proof. apply zoom_Ret. Qed.
Lemma on_pk_Ret {A} (m : M pkstate A) s a t : m (t_pk (k_t s)) = Ret a t → on_pk m s = Ret a (set_k_t (set_t_pk t (k_t s)) s).
Proof. intros H. apply on_t_Ret. by apply zoom_Ret. Qed.
Lemma on_memory_Ret {A} (m : M mstate A) s a t : m (pk_mem (t_pk (k_t s))) = Ret a t →
  on_memory m s = Ret a (set_k_t (set_t_pk (set_pk_mem t (t_pk (k_t s))) (k_t s)) s).
Proof. intros H. apply on_pk_Ret. by apply zoom_Ret. Qed.
Lemma on_files_Ret {A} (m : M fkstate A) s a t : m (pk_files (t_pk (k_t s))) = Ret a t →
  on_files m s = Ret a (set_k_t (set_t_pk (set_pk_files t (t_pk (k_t s))) (k_t s)) s).
Proof. intros H. apply on_pk_Ret. by apply zoom_Ret. Qed.

Definition console_of (s : kernel) : cstate := d_cons (t_dev (k_t s)).
Definition set_console (c : cstate) (s : kernel) : kernel := set_k_t (set_t_dev (set_d_cons c (t_dev (k_t s))) (k_t s)) s.

Lemma on_cons_Ret {A} (m : M cstate A) s a c : m (console_of s) = Ret a c → on_cons m s = Ret a (set_console c s).
Proof. intros H. by apply on_t_Ret, zoom_Ret, zoom_Ret. Qed.

Lemma printf_run fmt ap s : tx_live lsr spin → panicked (cs_uart (console_of s)) = false → (pr_locking s = true → pr_lock s = false) →
  ∃ c, printf fmt ap s = Ret tt (set_console c s) ∧ echoed (console_of s) c (byte.unsigned <$> kprintf fmt ap).
Proof.
  intros Hlive Hp Hl. destruct (print_text_run lsr spin (kprintf fmt ap) (console_of s) Hlive Hp) as (c & E & Hc). exists c. split; [|exact Hc].
  unfold printf. rewrite bind_gets. destruct s as [t kp pl lk st]. cbn [pr_locking pr_lock] in *. destruct lk.
  - rewrite Hl by done. unfold acquire_flag at 1. rewrite bind_assoc, bind_gets. cbn [pr_lock]. rewrite bind_modify.
    erewrite bind_Ret by (apply on_cons_Ret; exact E). reflexivity.
  - erewrite bind_Ret by reflexivity. erewrite bind_Ret by (apply on_cons_Ret; exact E). reflexivity.
Qed.

Lemma printf_inv fmt ap s s' : printf fmt ap s = Ret tt s' → ∃ c b, s' = set_pr_lock b (set_console c s).
Proof.
  unfold printf. rewrite bind_gets. intros H. apply bind_Ret_inv in H as ([] & s1 & H1 & H). apply bind_Ret_inv in H as ([] & s2 & H2 & H).
  assert (∃ b, s1 = set_pr_lock b s) as [b ->].
  { destruct (pr_locking s); [|injection H1 as <-; exists (pr_lock s); by destruct s]. unfold acquire_flag in H1. rewrite bind_gets in H1.
    destruct (pr_lock s); [done|]. injection H1 as <-. by exists true. }
  apply zoom_Ret_inv in H2 as (t & H2 & ->). apply zoom_Ret_inv in H2 as (d & H2 & ->). apply zoom_Ret_inv in H2 as (c & _ & ->). exists c.
  destruct (pr_locking s); [|injection H as <-; by exists b]. unfold release_flag in H. rewrite bind_gets in H. cbn [pr_lock set_pr_lock set_k_t] in H.
  destruct b; [|done]. injection H as <-. by exists false.
Qed.

Lemma echoed_panicked c c' l : echoed c c' l → panicked (cs_uart c') = panicked (cs_uart c).
Proof. by intros (u & -> & Hp & _). Qed.
Lemma console_set c s : console_of (set_console c s) = c.
Proof. reflexivity. Qed.

(** panic() is heard and is the last word.  Whoever holds the lock of
    printf(), panic() prints its message and sets [panicked]; from then on
    neither uartputc_sync() nor uartputc() returns, so that nothing more is
    printed; and panic() itself does not return. *)
Theorem panic_heard msg s : tx_live lsr spin → panicked (cs_uart (console_of s)) = false →
  ∃ s', panic_message msg s = Ret tt s' ∧
    reg_writes (cs_uart (console_of s')) = reg_writes (cs_uart (console_of s)) ++ ((λ b, (THR, byte.unsigned b)) <$> (text "panic: " ++ kprintf msg [] ++ newline)) ∧
    pr_lock s' = pr_lock s ∧ t_pk (k_t s') = t_pk (k_t s) ∧
    (∀ c, uartputc_sync lsr spin c (cs_uart (console_of s')) = NoFuel) ∧
    (∀ c, uart_tx_lock (cs_uart (console_of s')) = false → uartputc lsr c (cs_uart (console_of s')) = NoFuel) ∧
    kernel_panic (A := unit) msg s = NoFuel.
Proof.
  intros Hlive Hp. set (s1 := set_pr_locking false s).
  destruct (printf_run (text "panic: ") [] s1 Hlive Hp ltac:(done)) as (c1 & E1 & H1).
  destruct (printf_run msg [] (set_console c1 s1) Hlive) as (c2 & E2 & H2); [by rewrite console_set, (echoed_panicked _ _ _ H1)|done|].
  destruct (printf_run newline [] (set_console c2 (set_console c1 s1)) Hlive) as (c3 & E3 & H3); [by rewrite console_set, (echoed_panicked _ _ _ H2), console_set, (echoed_panicked _ _ _ H1)|done|].
  rewrite console_set in H2, H3. pose proof (echoed_app _ _ _ _ _ H1 (echoed_app _ _ _ _ _ H2 H3)) as (u & Hc & _ & Hw).
  assert (E : panic_message msg s = Ret tt (set_console (set_uart (set_panicked (cs_uart c3)) c3) (set_console c3 (set_console c2 (set_console c1 s1))))).
  { unfold panic_message. rewrite bind_modify. fold s1. rewrite (bind_Ret _ _ _ _ _ E1), (bind_Ret _ _ _ _ _ E2), (bind_Ret _ _ _ _ _ E3).
    apply on_cons_Ret, zoom_Ret. reflexivity. }
  eexists. split; [exact E|]. rewrite console_set. cbn [cs_uart set_uart set_panicked reg_writes]. split; [|split; [reflexivity|split; [reflexivity|]]].
  - rewrite Hc. cbn [set_uart cs_uart]. rewrite Hw. change (console_of s1) with (console_of s). f_equal. rewrite <- !fmap_app, <- list_fmap_compose. reflexivity.
  - split; [done|]. split; [|unfold kernel_panic; by rewrite (bind_Ret _ _ _ _ _ E)]. intros c Hl. unfold uartputc, acquire_tx, acquire_flag.
    rewrite bind_assoc, bind_gets, Hl, bind_modify. reflexivity.
Qed.

(** Memory outside the free pages holds the kernel's table. *)
Lemma regions_kept s F T root rs m' : vm_ok s F T root → maps_regions (ms_mem s) root rs → frame F (ms_mem s) m' → maps_regions m' root rs ∧ pt_wf m' T root.
Proof.
  intros (Hpa & Hwf & Hd) [Hin Hout] Hf.
  destruct (pt_frame (ms_mem s) m' T root Hwf) as [Hwf' Hg].
  { intros q x Hq Hx. apply Hf. intros p Hp. eapply (apart_pages {[q]} p q x); [|by eapply pa_pages| |set_solver|done].
    - intros q' ->%elem_of_singleton. destruct Hq as [[lv pre] Hq]. destruct Hwf as (_ & Hok & _). by eapply Hok.
    - intros ->%elem_of_singleton. by apply (Hd q). }
  split; [split|done].
  - intros r va Hr Hva Hrv. rewrite (proj2 (Hg va Hva)). by apply Hin.
  - intros va Hva Hno. rewrite (proj2 (Hg va Hva)). by apply Hout.
Qed.

(** The kernel as the loader leaves it: the bss section is zero. *)
Record fresh_kernel (s : kernel) : Prop := {
  fr_free : freelist (pk_mem (t_pk (k_t s))) = 0;
  fr_table : ptable (t_pk (k_t s)) = replicate NPROC proc0;
  fr_pid : nextpid (t_pk (k_t s)) = 1;
  fr_noff : noff (hart (t_pk (k_t s))) = 0;
  fr_inodes : itab (k_fs (pk_files (t_pk (k_t s)))) = replicate NINODE inode0;
  fr_bufs : all_fresh (lg_bc (fs_bl (k_fs (pk_files (t_pk (k_t s))))));
  fr_blocks x : block_ok (dsk (lg_bc (fs_bl (k_fs (pk_files (t_pk (k_t s)))))) x);
  fr_disk : vd (d_disk (t_dev (k_t s))) = disk_bss;
  fr_console : panicked (cs_uart (d_cons (t_dev (k_t s)))) = false
}.

Ltac boot_simpl :=
  cbv beta iota delta [k_t set_k_t kernel_pagetable pr_lock pr_locking started t_pk set_t_pk t_csr set_t_csr ticks tickslock set_tickslock t_dev set_t_dev t_plic set_t_plic
       ptable nextpid initproc pid_lock wait_lock pk_mem set_pk_mem pk_files set_pk_files hart hart_proc set_ptable set_wait_lock set_pid_lock
       d_cons d_disk d_reads set_d_cons set_console i_ms i_vs i_reads k_fs set_k_fs ft_lock set_ft_lock ftab k_pipes k_mem
       fs_sb it_lock itab fs_bl fs_um fs_woke set_fs_bl set_itab set_it_lock
       csr_status csr_sepc csr_scause csr_stvec csr_sip csr_satp csr_tp].

(** What the PLIC is told on hart [h]. *)
Definition plic_setup (h : Z) : list (Z * Z) :=
  [(PLIC + UART0_IRQ * 4, 1); (PLIC + VIRTIO0_IRQ * 4, 1);
   (PLIC_SENABLE h, Z.lor (Z.shiftl 1 UART0_IRQ) (Z.shiftl 1 VIRTIO0_IRQ)); (PLIC_SPRIORITY h, 0)].

(** The calls that only set up data of their own, after kvminithart(). *)
Lemma boot_tables np ip pl wl m h hp sb il l um wk fl ft pp km cs tk tl dv plic pt prk st (k : unit → M kernel unit) bc' :
  binit (lg_bc l) = Ret tt bc' →
  (on_pk procinit;; on_t trapinit;; on_t (trapinithart kernelvec);; on_t plicinit;; on_t plicinithart;; on_bcache binit;; on_files (fsm iinit);;
   (on_files fileinit ≫= k))
    (Kernel (TS (PK (replicate NPROC proc0) np ip pl wl m (FK (FState sb il (replicate NINODE inode0) l um wk) fl ft pp km) h hp) cs tk tl dv plic) pt false prk st) =
  k tt (Kernel (TS (PK (boot_proc <$> seq 0 NPROC) np ip false false m (FK (FState sb false (replicate NINODE boot_inode) (set_lg_bc bc' l) um wk) false ft pp km) h hp)
    (Csrs (csr_status cs) (csr_sepc cs) (csr_scause cs) kernelvec (csr_sip cs) (csr_satp cs) (csr_tp cs)) tk false dv (plic ++ plic_setup (csr_tp cs))) pt false prk st).
Proof.
  intros Hb. erewrite bind_Ret by (apply on_pk_Ret, procinit_run; reflexivity). boot_simpl.
  erewrite bind_Ret by (apply on_t_Ret; reflexivity). boot_simpl.
  erewrite bind_Ret by (apply on_t_Ret; reflexivity). boot_simpl.
  erewrite bind_Ret by (apply on_t_Ret; reflexivity). boot_simpl.
  erewrite bind_Ret by (apply on_t_Ret; reflexivity). boot_simpl.
  erewrite bind_Ret by (apply on_files_Ret; unfold fsm; apply zoom_Ret, zoom_Ret, zoom_Ret; exact Hb). boot_simpl.
  erewrite bind_Ret by (apply on_files_Ret; unfold fsm; apply zoom_Ret, iinit_run; reflexivity). boot_simpl.
  erewrite bind_Ret by (apply on_files_Ret; reflexivity). boot_simpl. unfold plic_setup. rewrite <- !app_assoc. reflexivity.
Qed.

(** The messages, on a console [c] that has not panicked. *)
Definition greeting : list byte := newline ++ (text "xv6 kernel is booting" ++ newline) ++ newline.
Lemma greet_run s : tx_live lsr spin → panicked (cs_uart (console_of s)) = false → pr_lock s = false → ∃ c,
  (∀ k : unit → M kernel unit, (printf newline [];; printf (text "xv6 kernel is booting" ++ newline) [];; (printf newline [] ≫= k)) s = k tt (set_console c s)) ∧
  echoed (console_of s) c (byte.unsigned <$> greeting).
Proof.
  intros Hlive Hp Hl. destruct (printf_run newline [] s Hlive Hp (λ _, Hl)) as (c1 & E1 & H1).
  destruct (printf_run (text "xv6 kernel is booting" ++ newline) [] (set_console c1 s) Hlive) as (c2 & E2 & H2); [by rewrite console_set, (echoed_panicked _ _ _ H1)|done|].
  destruct (printf_run newline [] (set_console c2 (set_console c1 s)) Hlive) as (c3 & E3 & H3); [by rewrite console_set, (echoed_panicked _ _ _ H2), console_set, (echoed_panicked _ _ _ H1)|done|].
  rewrite console_set in H2, H3. exists c3. split; [|exact (echoed_app _ _ _ _ _ H1 (echoed_app _ _ _ _ _ H2 H3))].
  intros k. rewrite (bind_Ret _ _ _ _ _ E1), (bind_Ret _ _ _ _ _ E2), (bind_Ret _ _ _ _ _ E3). reflexivity.
Qed.

Lemma boot_unlocked np ip wl m fk h hp : unlocked (PK (boot_proc <$> seq 0 NPROC) np ip false wl m fk h hp).
Proof. apply Forall_forall. intros p (i & -> & _)%list_elem_of_fmap. reflexivity. Qed.
Lemma boot_first : list_find unused (boot_proc <$> seq 0 NPROC) = Some (0%nat, boot_proc 0).
Proof. reflexivity. Qed.

(** kinit() and kvminit(). *)
Lemma boot_memory m : freelist m = 0 → (147 ≤ size (list_to_set all_pages : gset Z))%nat → ∃ m1 root m2 F T stacks,
  kinit m = Ret tt m1 ∧ kvminit m1 = Ret root m2 ∧ vm_ok m2 F T root ∧ maps_regions (ms_mem m2) root (imap stack_region stacks ++ kernel_regions) ∧
  length stacks = NPROC ∧ NoDup stacks ∧ (∀ p, p ∈ stacks → p ∉ F ∪ dom T) ∧ (11 ≤ size F)%nat.
Proof.
  intros Hf Hsz. destruct (kinit_inv m Hf) as (m1 & E1 & HF1).
  destruct (kvmmake_run (PA := kalloc_allocator) m1 (list_to_set all_pages) HF1) as (root & m2 & F & T & ss & E2 & Hk & (Hnd & Hss & HX) & Hl); [lia|].
  pose proof (rtable_pages _ _ kernel_prefix_root kernel_va_prefix _ _ _ _ _ Hk : (_ ≤ 72)%nat) as HT. destruct Hk as (Hok & _ & Hm).
  exists m1, root, m2, F, T, ss. split_and!; try done.
  assert (Hdis : (list_to_set ss : gset Z) ## F ∪ dom T) by (intros p Hp%elem_of_list_to_set; by apply Hss).
  rewrite HX, size_union, size_list_to_set, Hl, (vm_size _ _ _ _ Hok) in Hsz by done. unfold NPROC in Hsz. lia.
Qed.

(** The kernel that main() makes of [s]: the console has shown the greeting;
    the kernel's page table, whose address
    is in satp, maps the kernel's regions and the stacks; the trap vector is
    kernelvec and the PLIC is set up; the disk driver has all descriptors free
    and the buffer cache is empty and well formed; the inode table holds the
    root directory once; and the one process is init, runnable, with initcode
    as its memory and the root directory as its own, the allocator having
    pages that are not in use only. *)
Definition booted (s s' : kernel) : Prop :=
  let t := k_t s' in let pk := t_pk t in let m := ms_mem (pk_mem pk) in let fs := k_fs (pk_files pk) in
  ∃ F T root stacks tf pt pg T',
    started s' = true ∧ pr_lock s' = false ∧ panicked (cs_uart (console_of s')) = false ∧
    reg_writes (cs_uart (console_of s')) = reg_writes (cs_uart (console_of s)) ++ uart_setup ++ ((λ b, (THR, byte.unsigned b)) <$> greeting) ∧
    kernel_pagetable s' = root ∧ csr_satp (t_csr t) = MAKE_SATP root ∧ csr_stvec (t_csr t) = kernelvec ∧
    maps_regions m root (imap stack_region stacks ++ kernel_regions) ∧ length stacks = NPROC ∧ NoDup stacks ∧
    t_plic t = t_plic (k_t s) ++ plic_setup (csr_tp (t_csr t)) ∧
    vd (d_disk (t_dev t)) = disk_booted ∧ (∃ l, bc_ok (lg_bc (fs_bl fs)) l) ∧
    itab fs = i_recycle ROOTDEV ROOTINO boot_inode :: replicate (NINODE - 1) boot_inode ∧
    initproc pk = Some 0%nat ∧ ptable pk = alter (first_proc forkret 1 tf pt name_initcode (Some 0%nat)) 0%nat (boot_proc <$> seq 0 NPROC) ∧
    maps_regions m pt [first_region pg; trapframe_region tf; trampoline_region] ∧
    load64 m (tf + tf_epc) = 0 ∧ load64 m (tf + tf_sp) = PGSIZE ∧ (∀ k, (k < 4096)%nat → uview m pt (Z.of_nat k) = Some (initial initcode k)) ∧
    kmem_inv (pk_mem pk) F ∧ (∀ p, p ∈ tf :: pg :: stacks → p ∉ F) ∧ (∀ p, is_Some (T !! p) ∨ is_Some (T' !! p) → p ∉ F) ∧
    pt_wf m T root ∧ pt_wf m T' pt.

Lemma hart0_boots s : fresh_kernel s → tx_live lsr spin → good_device mmio → (147 ≤ size (list_to_set all_pages : gset Z))%nat → Z.of_nat (length initcode) < PGSIZE →
  ∃ s', main_hart0 s = Ret tt s' ∧ booted s s'.
Proof.
  intros [] Hlive Hdev Hpages Hinit. destruct s as [[pk cs tk tl dv plic] kp prl prk st]. destruct pk as [tb np ip pl wl m fk h hp].
  destruct fk as [[sb il it l um wk] fl ft pp km]. destruct dv as [c vs rd].
  cbn [k_t t_pk pk_mem ptable nextpid hart pk_files k_fs itab fs_bl t_dev d_disk t_plic] in *. subst tb np it.
  destruct (consoleinit_run c) as (c' & Ec & Hcp & Hcw). cbn [d_cons] in fr_console0. rewrite fr_console0 in Hcp.
  set (s0 := Kernel (TS (DV := kernel_devices) (PK (FL := kernel_files) (replicate NPROC proc0) 1 ip pl wl m (FK (FState sb il (replicate NINODE inode0) l um wk) fl ft pp km) h hp) cs tk tl (Devices c' vs rd) plic) kp false true st).
  destruct (greet_run s0 Hlive Hcp eq_refl) as (cg & Eg & ug & Hug & Hgp & Hgw). change (console_of s0) with c' in Hug, Hgp, Hgw. rewrite Hcp in Hgp.
  destruct (boot_memory m fr_free0 Hpages) as (m1 & root & m2 & F & T & ss & E1 & E2 & Hok & Hm & Hl & Hnd & Hss & HF).
  destruct (binit_ok (lg_bc l) fr_bufs0 fr_blocks0) as (bc' & lru & Eb & Hbc & _).
  destruct (virtio_init_boots (PA := kalloc_allocator) mmio m2 F vs rd (proj1 Hok) ltac:(lia) Hdev fr_disk0) as (v & Ev & Hvd & _ & F2 & Hpa2 & Hsub2 & Hsz2 & Hout2).
  set (fs1 := FState (B := kernel_blocks) sb false (replicate NINODE boot_inode) (set_lg_bc bc' l) um wk).
  set (pk1 := PK (FL := kernel_files) (boot_proc <$> seq 0 NPROC) 1 ip false false (i_ms v) (FK fs1 false ft pp km) h hp).
  set (fk2 := FK (set_itab (<[0%nat := i_recycle ROOTDEV ROOTINO boot_inode]> (replicate NINODE boot_inode)) fs1) false ft pp km).
  destruct (userinit_makes_init (PA := kalloc_allocator) (FL := kernel_files) forkret initcode name_initcode path_root pk1 F2 0 (boot_proc 0) (Some 0%nat) fk2)
    as (pk2 & tf & pt & pg & F3 & T3 & Eu & Ht & Hip & Hfk & _ & Hvm3 & Hm3 & Hne & HF3 & Htf & Hpg & Hepc & Hsp & Hview & Hfr3).
  { apply boot_unlocked. }
  { exact fr_noff0. }
  { reflexivity. }
  { reflexivity. }
  { exact boot_first. }
  { exact Hpa2. }
  { lia. }
  { exact Hinit. }
  { cbn [kernel_files fl_namei pk_files pk1]. unfold fsm. exact (zoom_Ret k_fs set_k_fs _ (FK fs1 false ft pp km) _ _ (namei_root fs1 eq_refl eq_refl)). }
  eexists. split.
  { unfold main_hart0. erewrite bind_Ret by (apply on_t_Ret, zoom_Ret, zoom_Ret; exact Ec). boot_simpl.
    unfold printfinit. rewrite bind_assoc, !bind_modify. cbv beta iota delta [set_pr_lock set_pr_locking]. boot_simpl. fold s0. rewrite Eg. unfold s0, set_console. boot_simpl.
    erewrite bind_Ret by (apply on_memory_Ret; exact E1). boot_simpl.
    rewrite bind_assoc. erewrite bind_Ret by (apply on_memory_Ret; exact E2). boot_simpl. rewrite bind_modify. boot_simpl.
    unfold kvminithart at 1. rewrite bind_assoc, bind_gets. boot_simpl. erewrite bind_Ret by (apply on_t_Ret; reflexivity). boot_simpl.
    rewrite (boot_tables _ _ _ _ _ _ _ _ _ _ _ _ _ _ _ _ _ _ _ _ _ _ _ _ _ bc' Eb). boot_simpl.
    erewrite bind_Ret by (apply on_t_Ret, zoom_Ret; exact Ev). boot_simpl.
    erewrite bind_Ret by (apply on_pk_Ret; exact Eu). boot_simpl. reflexivity. }
  unfold booted. cbv zeta. cbn [k_t t_pk started kernel_pagetable t_csr csr_satp csr_stvec t_plic t_dev d_disk csr_tp]. exists F3, T, root, ss, tf, pt, pg, T3.
  assert (Hsub3 : F3 ⊆ F2) by (clear - HF3; set_solver).
  assert (HT : ∀ p, is_Some (T !! p) → p ∉ F) by apply Hok.
  assert (Hmem : maps_regions (ms_mem (pk_mem pk2)) root (imap stack_region ss ++ kernel_regions) ∧ pt_wf (ms_mem (pk_mem pk2)) T root).
  { assert (Hfr : frame F (ms_mem m2) (ms_mem (pk_mem pk2))) by (eapply frame_trans; [exact Hout2|exact (frame_mono _ _ _ _ Hsub2 Hfr3)]).
    exact (regions_kept m2 F T root _ _ Hok Hm Hfr). }
  rewrite Hfk. destruct Hmem as [Hmem Hwf]. split; [reflexivity|]. split; [reflexivity|].
  unfold console_of. cbn [k_t t_dev d_cons]. rewrite Hug. cbn [cs_uart set_uart]. split; [exact Hgp|]. split.
  { rewrite Hgw. cbn [console_of s0 k_t t_dev d_cons]. rewrite Hcw, <- app_assoc, <- list_fmap_compose. reflexivity. } split; [reflexivity|]. split; [reflexivity|]. split; [reflexivity|]. split; [exact Hmem|]. split; [exact Hl|]. split; [exact Hnd|].
  split; [reflexivity|]. split; [exact Hvd|]. split; [exists lru; exact Hbc|]. split; [reflexivity|]. split; [exact Hip|]. split; [exact Ht|].
  split; [exact Hm3|]. split; [exact Hepc|]. split; [exact Hsp|]. split; [exact Hview|]. split; [exact (proj1 Hvm3)|].
  split; [|split; [|split; [exact Hwf|apply Hvm3]]].
  - intros p Hp HpF. apply elem_of_cons in Hp as [->|Hp]; [by apply Htf, elem_of_union_l|]. apply elem_of_cons in Hp as [->|Hp]; [by apply Hpg, elem_of_union_l|].
    apply (Hss p Hp), elem_of_union_l, Hsub2, Hsub3, HpF.
  - intros p [Hp|Hp] HpF; [apply (HT p Hp), Hsub2, Hsub3, HpF|]. destruct Hvm3 as (_ & _ & Hd). by apply (Hd p).
Qed.

(** ** All harts *)

(** The statements of main() on hart 0. *)
Definition calls : list (M kernel unit) :=
  [on_cons consoleinit; printfinit; printf newline []; printf (text "xv6 kernel is booting" ++ newline) []; printf newline []; on_memory kinit;
   (pt ← on_memory kvminit; modify (λ s, Kernel (k_t s) pt (pr_lock s) (pr_locking s) (started s)));
   kvminithart; on_pk procinit; on_t trapinit; on_t (trapinithart kernelvec); on_t plicinit; on_t plicinithart; on_bcache binit;
   on_files (fsm iinit); on_files fileinit; on_virtio (virtio_disk_init mmio); on_pk (userinit forkret initcode name_initcode path_root);
   modify (λ s, Kernel (k_t s) (kernel_pagetable s) (pr_lock s) (pr_locking s) true)].

Fixpoint run_calls (l : list (M kernel unit)) : M kernel unit :=
  match l with [] => mret tt | [m] => m | m :: l => m;; run_calls l end.
Lemma main_hart0_calls : main_hart0 = run_calls calls.
Proof. unfold main_hart0, calls. cbn [run_calls]. reflexivity. Qed.

(** A hart with the registers [c] works on the shared state. *)
Definition with_csrs (c : csrs) (s : kernel) : kernel := set_k_t (set_t_csr c (k_t s)) s.

(** Hart 0 is before its call number [b_pc]; [b_others h] are the registers of
    hart [h] once it has left the loop and called its functions. *)
Record bsys := BSys { b_pc : nat; b_k : kernel; b_others : nat → option csrs }.

Inductive main_step : bsys → bsys → Prop :=
  | b_call k (m : M kernel unit) s s' o : calls !! k = Some m → m s = Ret tt s' → main_step (BSys k s o) (BSys (S k) s' o)
  | b_spin h k s o : o h = None → started s = false → main_step (BSys k s o) (BSys k s o)
  | b_pass h c k s s' o : o h = None → started s = true → main_other (with_csrs c s) = Ret tt s' →
      main_step (BSys k s o) (BSys k (with_csrs (t_csr (k_t s)) s') (<[h := Some (t_csr (k_t s'))]> o)).

(** [m] leaves [started] alone. *)
Definition waits {A} (m : M kernel A) : Prop := ∀ s a s', m s = Ret a s' → started s' = started s.
Lemma waits_t {A} (m : M tstate A) : waits (on_t m).
Proof. intros s a s' H. by apply zoom_Ret_inv in H as (t & _ & ->). Qed.
Lemma waits_pk {A} (m : M pkstate A) : waits (on_pk m).
Proof. apply waits_t. Qed.
Lemma waits_files {A} (m : M fkstate A) : waits (on_files m).
Proof. apply waits_pk. Qed.
Lemma waits_memory {A} (m : M mstate A) : waits (on_memory m).
Proof. apply waits_pk. Qed.
Lemma waits_dev {A} (m : M devices A) : waits (on_dev m).
Proof. apply waits_t. Qed.
Lemma waits_cons {A} (m : M cstate A) : waits (on_cons m).
Proof. apply waits_dev. Qed.
Lemma waits_virtio {A} (m : M istate A) : waits (on_virtio m).
Proof. apply waits_t. Qed.
Lemma waits_bcache m : waits (on_bcache m).
Proof. apply waits_files. Qed.
Lemma kvminithart_run s : kvminithart s = Ret tt (with_csrs (let c := t_csr (k_t s) in
  Csrs (csr_status c) (csr_sepc c) (csr_scause c) (csr_stvec c) (csr_sip c) (MAKE_SATP (kernel_pagetable s)) (csr_tp c)) s).
Proof. reflexivity. Qed.

(** No call before the last sets [started]. *)
Lemma waits_printf fmt ap : waits (printf fmt ap).
Proof. intros s [] s' H. by apply printf_inv in H as (c & b & ->). Qed.
Lemma calls_wait : Forall waits (take 18 calls).
Proof.
  unfold calls. cbn [take].
  repeat first [apply Forall_nil_2 | apply Forall_cons; split;
    [first [simple apply waits_printf|simple apply waits_cons|simple apply waits_memory|simple apply waits_bcache|simple apply waits_files|simple apply waits_virtio|simple apply waits_pk|simple apply waits_t|idtac]|]].
  - intros s a s' H. by injection H as <- <-.
  - intros s a s' H. apply bind_Ret_inv in H as (pt & s1 & H1 & [= <- <-]). exact (waits_memory _ _ _ _ H1).
  - intros s a s' H. rewrite kvminithart_run in H. by injection H as <- <-.
Qed.
Lemma calls_started k (m : M kernel unit) s s' : calls !! k = Some m → m s = Ret tt s' → S k ≠ length calls → started s' = started s.
Proof.
  intros Hk Hm Hne. pose proof (lookup_lt_Some _ _ _ Hk) as Hlt. change (length calls) with 19%nat in *.
  pose proof calls_wait as Hw. rewrite Forall_lookup in Hw. apply (Hw k m) in Hm; [done|]. by rewrite lookup_take_lt by lia.
Qed.

Lemma run_calls_snoc l (m : M kernel unit) s s1 s2 : run_calls l s = Ret tt s1 → m s1 = Ret tt s2 → run_calls (l ++ [m]) s = Ret tt s2.
Proof.
  revert s. induction l as [|m' l IH]; intros s H1 H2; [by injection H1 as ->|]. destruct l as [|m'' l].
  - cbn in *. by rewrite (bind_Ret _ _ _ _ _ H1).
  - cbn [app run_calls] in *. apply bind_Ret_inv in H1 as ([] & s3 & H1 & H3). rewrite (bind_Ret _ _ _ _ _ H1). by apply IH.
Qed.

(** What the other harts do not change. *)
Definition same_boot (s s' : kernel) : Prop :=
  t_pk (k_t s') = t_pk (k_t s) ∧ d_disk (t_dev (k_t s')) = d_disk (t_dev (k_t s)) ∧ kernel_pagetable s' = kernel_pagetable s ∧ started s' = started s.

Lemma main_other_inv s s' : main_other s = Ret tt s' →
  same_boot s s' ∧ csr_satp (t_csr (k_t s')) = MAKE_SATP (kernel_pagetable s) ∧ csr_stvec (t_csr (k_t s')) = kernelvec.
Proof.
  unfold main_other. rewrite bind_gets. intros H. apply bind_Ret_inv in H as ([] & s1 & H1 & H). apply printf_inv in H1 as (c & b & ->).
  injection H as <-. split; [|split; reflexivity]. split_and!; reflexivity.
Qed.

Lemma main_other_run s : tx_live lsr spin → panicked (cs_uart (console_of s)) = false → (pr_locking s = true → pr_lock s = false) → ∃ s',
  main_other s = Ret tt s' ∧ reg_writes (cs_uart (console_of s')) = reg_writes (cs_uart (console_of s)) ++
    ((λ b, (THR, byte.unsigned b)) <$> kprintf (text "hart %d starting" ++ newline) [VNum (i32 (csr_tp (t_csr (k_t s))))]).
Proof.
  intros Hlive Hp Hl. destruct (printf_run (text "hart %d starting" ++ newline) [VNum (i32 (csr_tp (t_csr (k_t s))))] s Hlive Hp Hl) as (c & E & u & Hc & _ & Hw).
  eexists. split; [unfold main_other; rewrite bind_gets, (bind_Ret _ _ _ _ _ E); reflexivity|].
  change (reg_writes (cs_uart c) = reg_writes (cs_uart (console_of s)) ++ ((λ b, (THR, byte.unsigned b)) <$> kprintf (text "hart %d starting" ++ newline) [VNum (i32 (csr_tp (t_csr (k_t s))))])).
  rewrite Hc. cbn [cs_uart set_uart]. rewrite Hw, <- list_fmap_compose. reflexivity.
Qed.

(** C13: the kernel boots.  From a kernel as the loader leaves it, with a console
    that becomes idle, a disk the driver accepts and 147 pages of memory,
    main() reaches the scheduler on hart 0, with page tables, tables of
    processes, inodes and buffers, devices and the first process set up and
    the greeting printed ([booted]); and every other hart, whatever its
    registers, then prints its message and gets to its scheduler too, with
    the same page table and trap vector, and changes none of that. *)
Theorem kernel_boots s : fresh_kernel s → tx_live lsr spin → good_device mmio → (147 ≤ size (list_to_set all_pages : gset Z))%nat → Z.of_nat (length initcode) < PGSIZE →
  ∃ s', main_hart0 s = Ret tt s' ∧ booted s s' ∧
    ∀ c, ∃ s'', main_other (with_csrs c s') = Ret tt s'' ∧ same_boot s' s'' ∧ csr_satp (t_csr (k_t s'')) = csr_satp (t_csr (k_t s')) ∧
      csr_stvec (t_csr (k_t s'')) = csr_stvec (t_csr (k_t s')) ∧
      reg_writes (cs_uart (console_of s'')) = reg_writes (cs_uart (console_of s')) ++
        ((λ b, (THR, byte.unsigned b)) <$> kprintf (text "hart %d starting" ++ newline) [VNum (i32 (csr_tp c))]).
Proof.
  intros H1 H2 H3 H4 H5. destruct (hart0_boots s H1 H2 H3 H4 H5) as (s' & E & Hb). exists s'. split; [exact E|]. split; [exact Hb|]. intros c.
  destruct Hb as (F & T & root & ss & tf & pt & pg & T' & _ & Hpl & Hp & _ & Hr & -> & -> & _).
  destruct (main_other_run (with_csrs c s') H2 Hp (λ _, Hpl)) as (s'' & E' & Hw). destruct (main_other_inv _ _ E') as (Hsame & Hsatp & Hvec).
  exists s''. split; [exact E'|]. split; [exact Hsame|]. split; [by rewrite Hsatp, <- Hr|]. split; [exact Hvec|exact Hw].
Qed.

Section reach.
Context (s0 : kernel) (Hs0 : started s0 = false).

Inductive main_reach : bsys → Prop :=
  | main_reach_0 : main_reach (BSys 0 s0 (λ _, None))
  | main_reach_step b b' : main_reach b → main_step b b' → main_reach b'.

Lemma main_reach_inv b : main_reach b → (b_pc b ≤ length calls)%nat ∧
  ∃ s1, run_calls (take (b_pc b) calls) s0 = Ret tt s1 ∧ same_boot s1 (b_k b) ∧
    (if decide (b_pc b = length calls) then started s1 = true else b_k b = s1 ∧ started s1 = false ∧ ∀ h, b_others b h = None) ∧
    ∀ h c, b_others b h = Some c → csr_satp c = MAKE_SATP (kernel_pagetable s1) ∧ csr_stvec c = kernelvec.
Proof using Hs0.
  induction 1 as [|b b' Hb IH Hst].
  { cbn [b_pc b_k b_others]. split; [lia|]. exists s0. split; [reflexivity|]. split; [done|]. split; [|done]. done. }
  destruct Hst as [k m s s' o Hk Hm|h k s o Ho Hs|h c k s s' o Ho Hs Hm]; cbn [b_pc b_k b_others] in *; [|exact IH|].
  - destruct IH as (Hle & s1 & Hr & Hsame & Hpc & Hoth). pose proof (lookup_lt_Some _ _ _ Hk) as Hlt. rewrite decide_False in Hpc by lia.
    destruct Hpc as (-> & Hns & Hno). split; [lia|]. exists s'. split; [|split; [done|split]].
    + rewrite (take_S_r _ _ _ Hk). by eapply run_calls_snoc.
    + case_decide as Hd; [|by rewrite (calls_started _ _ _ _ Hk Hm Hd)].
      replace k with 18%nat in Hk by (cbn in Hd; lia). injection Hk as <-. by injection Hm as <-.
    + intros h c Hc. by rewrite Hno in Hc.
  - destruct IH as (Hle & s1 & Hr & Hsame & Hpc & Hoth). case_decide as Hd; [|destruct Hpc as (-> & Hns & _); congruence].
    split; [done|]. exists s1. destruct (main_other_inv _ _ Hm) as (Hsb & Hsatp & Hvec).
    destruct Hsame as (A1 & A2 & A3 & A4), Hsb as (B1 & B2 & B3 & B4). cbn in B1, B2, B3, B4, Hsatp. split; [done|]. split; [|split].
    + split_and!; cbn; congruence.
    + exact Hpc.
    + intros h' c'. destruct (decide (h' = h)) as [->|Hne].
      * rewrite fn_lookup_insert. intros [= <-]. split; [|exact Hvec]. by rewrite Hsatp, A3.
      * rewrite fn_lookup_insert_ne by done. apply Hoth.
Qed.

(** A run of main() on hart 0 alone is one of the interleavings. *)
Lemma calls_reach s1 (l : list (M kernel unit)) k s o : drop k calls = l → main_reach (BSys k s o) → run_calls l s = Ret tt s1 → main_reach (BSys (k + length l) s1 o).
Proof.
  revert k s. induction l as [|m l IH]; intros k s Hd Hr H.
  { injection H as <-. by rewrite Nat.add_0_r. }
  assert (Hk : calls !! k = Some m) by (rewrite <- (Nat.add_0_r k), <- lookup_drop, Hd; done).
  assert (Hd' : drop (S k) calls = l) by (rewrite <- Nat.add_1_r, <- drop_drop, Hd; done).
  assert (∃ s2, m s = Ret tt s2 ∧ run_calls l s2 = Ret tt s1) as (s2 & Hm & Hl).
  { destruct l; [by exists s1|]. apply bind_Ret_inv in H as ([] & s2 & H1 & H2). by exists s2. }
  cbn [length]. rewrite Nat.add_succ_r. apply (IH (S k) s2); [done| |done]. eapply main_reach_step; [exact Hr|by apply (b_call k m)].
Qed.

(** C14: no hart starts early.  In every interleaving of main() on all harts,
    from a kernel in which [started] is 0, a hart other than 0 that has left
    its loop has done so after hart 0 had made all its calls: what hart 0's
    run of main() made is in place, the hart's satp is the page table of that
    run and its trap vector is kernelvec. *)
Theorem harts_wait_for_boot b h c : main_reach b → b_others b h = Some c →
  b_pc b = length calls ∧ ∃ s1, main_hart0 s0 = Ret tt s1 ∧ same_boot s1 (b_k b) ∧
  csr_satp c = MAKE_SATP (kernel_pagetable s1) ∧ csr_stvec c = kernelvec.
Proof using Hs0.
  intros Hb Hc. destruct (main_reach_inv b Hb) as (Hle & s1 & Hr & Hsame & Hpc & Hoth). case_decide as Hd; [|destruct Hpc as (_ & _ & Hno); congruence].
  split; [done|]. exists s1. rewrite main_hart0_calls. rewrite Hd, take_ge in Hr by done. split; [done|]. split; [done|]. by apply (Hoth h).
Qed.
End reach.

(** ** exec() on this kernel's files *)

#[local] Instance kernel_exec : ExecFiles := {|
  ex_ilock ip := fsm (ilock pid ip);
  ex_readi ip off n := fsm (readi ip KernDst off n);
  ex_iunlockput ip := fsm (iunlockput pid ip)
|}.

(** The inode [ip] has the contents [l] inside a transaction. *)
Definition contents (ip : nat) (l : list byte) (fl : fkstate) : Prop :=
  let s := k_fs fl in let al := i_addrs (geti ip s) in let v := bl_view (fs_bl s) in let sz := i_size (geti ip s) in
  FsAlloc.layout (fs_sb s) ∧ bl_txn (fs_bl s) [] ∧ (size (bl_logged (fs_bl s)) + 3 ≤ NBUF)%nat ∧ i_dev (geti ip s) = ROOTDEV ∧
  file_ok v (fs_sb s) al ∧ dense v al sz ∧ l = fslice v al 0 (Z.to_nat sz).

Lemma iaddr_same v v' al n : (∀ x, v' x = v x) → iaddr v' al n = iaddr v al n.
Proof. intros H. unfold iaddr. by rewrite H. Qed.
Lemma fslice_same v v' al off n : (∀ x, v' x = v x) → fslice v' al off n = fslice v al off n.
Proof. intros H. apply list_fmap_ext. intros _ j _. unfold fbyte. by rewrite (iaddr_same v), H. Qed.
Lemma fslice_cut v al off n m : (off + n ≤ m)%nat → take n (drop off (fslice v al 0 m)) = fslice v al (Z.of_nat off) n.
Proof.
  intros Hle. replace m with (off + (n + (m - off - n)))%nat by lia. rewrite fslice_app, drop_app_length' by (by rewrite fslice_length).
  rewrite fslice_app, take_app_length' by (by rewrite fslice_length). by rewrite Z.add_0_l.
Qed.

(** fs.c keeps the promise of [ReadFile]. *)
Lemma kernel_readi ip l fl off n : contents ip l fl → 0 ≤ off → 0 ≤ n → off + n < 2 ^ 32 → ∃ fl',
  let l' := take (Z.to_nat n) (drop (Z.to_nat off) l) in
  ex_readi ip off n fl = Ret (Z.of_nat (length l'), l') fl' ∧ contents ip l fl'.
Proof.
  intros (Hly & Ht & Hnb & Hdev & Hfo & Hde & Hl) Hoff Hn H32.
  destruct (readi_spec (fs_sb (k_fs fl)) Hly (k_fs fl) ip off n Ht Hnb Hdev Hfo Hde) as (b' & E & Ht' & Hv & Hlg & _); [lia|lia|].
  set (sz := i_size (geti ip (k_fs fl))) in *. set (k := if _ : bool then _ else _) in E. destruct Hde as [Hsz Hde].
  assert (Hk : fslice (bl_view (fs_bl (k_fs fl))) (i_addrs (geti ip (k_fs fl))) off (Z.to_nat k) = take (Z.to_nat n) (drop (Z.to_nat off) l) ∧ Z.of_nat (length (take (Z.to_nat n) (drop (Z.to_nat off) l))) = k).
  { rewrite length_take, length_drop, Hl, fslice_length. unfold k. rewrite (proj2 (Z.ltb_lt (off + n) _)) by lia. rewrite andb_true_r. destruct (Z.leb_spec off sz).
    - split; [|lia]. rewrite <- (Z2Nat.id off) at 1 by lia. rewrite <- (fslice_cut _ _ _ _ (Z.to_nat sz)) by lia. destruct (Z.min_spec n (sz - off)) as [[_ ->]|[Hge ->]]; [done|].
      rewrite !take_ge by (rewrite length_drop, fslice_length; lia). done.
    - split; [|lia]. rewrite drop_ge by (rewrite fslice_length; lia). by rewrite take_nil. }
  destruct Hk as [Hk1 Hk2]. eexists. cbv zeta. split; [apply zoom_Ret; rewrite E, Hk1, <- Hk2; reflexivity|].
  unfold contents. cbn [k_fs set_k_fs fs_bl set_fs_bl fs_sb]. change (geti ip (set_fs_bl b' (k_fs fl))) with (geti ip (k_fs fl)). fold sz.
  split; [done|]. split; [done|]. split; [by rewrite Hlg|]. split; [done|]. split; [by eapply file_ok_ext|]. split; [split; [done|]|].
  - intros m Hm Hms. rewrite (iaddr_same (bl_view (fs_bl (k_fs fl)))) by done. by apply Hde.
  - by rewrite (fslice_same (bl_view (fs_bl (k_fs fl)))).
Qed.
#[local] Instance kernel_reads : ReadFile := {| rf_file := contents; rf_readi := kernel_readi |}.

(** exec() neither takes nor drops a reference to an open file: whether it
    succeeds or fails, the file table and the descriptors of every process
    stay as they are. *)
Theorem sys_exec_keeps_refs me (s s' : pkstate) r : sys_exec me s = Ret r s' →
  ftab (pk_files s') = ftab (pk_files s) ∧ p_ofile <$> ptable s' = p_ofile <$> ptable s.
Proof.
  intros E. assert (Hf : ∀ {A} (m : M fstate A), tri (λ fl, ftab fl = ftab (pk_files s)) (fsm m) (λ _ fl, ftab fl = ftab (pk_files s))) by (intros; by apply tri_zoom).
  refine (sys_exec_keeps (λ fl, ftab fl = ftab (pk_files s)) _ _ _ _ _ _ me (p_ofile <$> ptable s) s r s' (conj eq_refl eq_refl) E); intros; apply Hf.
Qed.
End kernel.

(** ** User buffers of read() and write()

    What readi() and writei() ask of user memory holds of a process's pages:
    bytes the user sees can be written to a file, and a range that is mapped
    for the user can receive those of a file. *)

Section buffers.
Context {I : image} {PA : PageAllocator} {IO : image_ok I} (root : Z).
#[local] Existing Instance vm_user.

Lemma gives_vm (u : mstate) T va l : pt_wf (ms_mem u) T root → 0 ≤ va → reads (ms_mem u) root va l → gives (U := vm_user root) u (UserSrc va) l.
Proof.
  intros Hwf Hva Hrd tot m Ht Hm Hle. change (@um_copyin (vm_user root)) with (vm_copyin root). unfold vm_copyin, copyin. rewrite Z2Nat.id by done.
  destruct (Z.eq_dec m 0) as [->|Hm0]; [done|]. destruct (lookup_lt_is_Some_2 l (Z.to_nat tot)) as [b Hb]; [lia|].
  pose proof (Hrd _ _ Hb) as Hv. rewrite Z2Nat.id in Hv by done. pose proof (uview_below root _ _ _ Hv ltac:(lia)) as Hmax. rewrite u64_id by (pgunfold; lia).
  destruct (copyin_loop_spec (S (Z.to_nat m)) u T root [] (va + tot) m) as (r & bs & E & Hbs & Hr); [done|lia|done|lia|]. rewrite E. cbn [app].
  assert (Z.of_nat (length bs) = m ∧ r = 0) as [Hlen ->].
  { destruct Hr as [[-> ?]|(_ & Hlt & Hno)]; [done|]. destruct (lookup_lt_is_Some_2 l (Z.to_nat tot + length bs)) as [c Hc]; [lia|].
    pose proof (Hrd _ _ Hc) as Hc'. replace (va + Z.of_nat (Z.to_nat tot + length bs)) with (va + tot + Z.of_nat (length bs)) in Hc' by lia. congruence. }
  f_equal. apply list_eq_same_length with (Z.to_nat m); [unfold blk_get; rewrite length_take, length_drop; lia|lia|]. intros i x y Hi Hx Hy.
  unfold blk_get in Hy. rewrite lookup_take_lt, lookup_drop in Hy by done. pose proof (Hbs _ _ Hx) as H1. pose proof (Hrd _ _ Hy) as H2.
  replace (va + Z.of_nat (Z.to_nat tot + i)) with (va + tot + Z.of_nat i) in H2 by lia. congruence.
Qed.

Lemma takes_vm (u : mstate) F T va l : vm_ok u F T root → uspace_ok (ms_mem u) F T root → 0 ≤ va → user_range root (ms_mem u) va (length l) →
  takes (U := vm_user root) (λ j u', vm_ok u' F T root ∧ same_get (ms_mem u) (ms_mem u') root ∧ written (ms_mem u) (ms_mem u') root va (take (Z.to_nat j) l)) (UserDst va) l.
Proof.
  intros Hok Hu Hva Hr u1 j m (Hok1 & Hsg1 & Hw1) Hj Hm Hle. change (@um_copyout (vm_user root)) with (vm_copyout root). unfold vm_copyout, copyout.
  assert (Hin : ∀ i, (Z.to_nat j ≤ i < length l)%nat → is_Some (uview (ms_mem u1) root (va + Z.of_nat i))).
  { intros i Hi. rewrite Hw1, length_take by lia. destruct (Z.ltb_spec (va + Z.of_nat i) (va + Z.of_nat (Z.to_nat j `min` length l))); [lia|].
    rewrite andb_false_r. apply Hr. lia. }
  destruct (Hin (Z.to_nat j)) as [b Hb]; [lia|]. rewrite Z2Nat.id in Hb by done. pose proof (uview_below root _ _ _ Hb ltac:(lia)) as Hmax. rewrite u64_id by (pgunfold; lia).
  set (w := blk_get l j (Z.to_nat m)). assert (Hwl : length w = Z.to_nat m) by (unfold w, blk_get; rewrite length_take, length_drop; lia).
  destruct (copyout_loop_spec (S (length w)) u1 F T root (va + j) w) as (r & u2 & n & E & Hok2 & Hsg2 & Hw2 & Hr2); [done|by eapply uspace_same_get|lia|lia|].
  rewrite E. assert (n = length w ∧ r = 0) as [-> ->].
  { destruct Hr2 as [[-> ->]|(_ & Hlt & Hno)]; [done|]. destruct (Hin (Z.to_nat j + n)%nat) as [c Hc]; [lia|].
    replace (va + Z.of_nat (Z.to_nat j + n)) with (va + j + Z.of_nat n) in Hc by lia. congruence. }
  exists u2. split; [done|]. split; [done|]. split; [intros x Hx; rewrite Hsg2, Hsg1 by done; done|]. rewrite take_ge in Hw2 by lia.
  assert (Htl : Z.of_nat (length (take (Z.to_nat j) l)) = j) by (rewrite length_take; lia).
  replace (take (Z.to_nat (j + m)) l) with (take (Z.to_nat j) l ++ w); [by eapply written_app; [exact Hw1|rewrite Htl]|].
  unfold w, blk_get. by rewrite take_take_drop, <- Z2Nat.inj_add by lia.
Qed.
End buffers.

(** ** Witnesses: the kernel of kernel.sym with a blank disk *)

Lemma start_enters_main_witness : ∃ s', start 0x80000e5c 0x80005e90 0x80008d30 (MHart (λ c, if decide (c = mhartid) then 1 else 0) 0 0x80000000 PrivM (λ _, Byte.x00)) = Ret tt s' ∧ m_tp s' = 1.
Proof.
  destruct (start_enters_main 0x80000e5c 0x80005e90 0x80008d30 (MHart (λ c, if decide (c = mhartid) then 1 else 0) 0 0x80000000 PrivM (λ _, Byte.x00)))
    as (s' & E & _ & _ & Htp & _).
  - vm_compute. split; [discriminate|reflexivity].
  - unfold CLINT. lia.
  - unfold NCPU. lia.
  - vm_compute. split; [discriminate|reflexivity].
  - exists s'. split; [exact E|exact Htp].
Defined.

Module BootDemo.
#[export] Existing Instance image_sym.
#[export] Instance demo_disk_driver : DiskDriver := direct_disk.
#[export] Instance blank_user : UserMem := vm_user 0.

(** The registers of QEMU's disk. *)
Definition qemu_mmio (k : nat) (r : Z) : Z :=
  if r =? VIRTIO_MMIO_MAGIC_VALUE then 0x74726976 else if r =? VIRTIO_MMIO_VERSION then 2 else if r =? VIRTIO_MMIO_DEVICE_ID then 2 else
  if r =? VIRTIO_MMIO_VENDOR_ID then 0x554d4551 else if r =? VIRTIO_MMIO_STATUS then 11 else if r =? VIRTIO_MMIO_QUEUE_NUM_MAX then 1024 else 0.

(** A console that is always idle and has no input. *)
Definition idle_reads (k : nat) : Z := LSR_TX_IDLE.
Definition no_reads (k : nat) : Z := 0.
Lemma idle_live : tx_live idle_reads 1.
Proof. intros k. exists 0%nat. split; [lia|reflexivity]. Qed.
Definition blank : mstate := MState (λ _, Byte.x00) false 0.
Definition blank_fs : fstate (B := kernel_blocks 1 2 30) :=
  FState (B := kernel_blocks 1 2 30) (Superblock 0 0 0 0 0 0 0 0) false (replicate 50 inode0)
    (LState false 0 0 0 false 0 0 (replicate 30 0) (bstate0 (λ _, zero_block))) blank [].
Definition blank_kernel : kernel 1 2 30 idle_reads no_reads 0 1 0 [] [] :=
  Kernel 1 2 30 idle_reads no_reads 0 1 0 [] []
    (TS (FL := kernel_files 1 2 30 []) (DV := kernel_devices idle_reads no_reads 0 1 0 [])
      (PK (FL := kernel_files 1 2 30 []) (replicate 64 proc0) 1 None false false blank (FK (B := kernel_blocks 1 2 30) blank_fs false [] ∅ blank) (Cpu 0 false false) None)
      (Csrs 0 0 0 0 0 0 0) 0 false
      (Devices (CState (Cons false (replicate 128 Byte.x00) 0 0 0) (Uart false [] 0 0 false [] 0 0 []) blank [])
        (VState disk_bss (λ _, false) (λ _, []) (λ _, 0) [] []) 0) []) 0 false false false.

Lemma blank_fresh : fresh_kernel 1 2 30 idle_reads no_reads 0 1 0 [] [] blank_kernel.
Proof. constructor; [reflexivity..|apply demo_fresh|reflexivity|reflexivity|reflexivity]. Qed.
Lemma qemu_good : good_device qemu_mmio.
Proof. done. Qed.
Lemma image_pages : (147 ≤ size (list_to_set (all_pages (I := image_sym)) : gset Z))%nat.
Proof. apply boot_pages. lia. Qed.
Lemma initcode_short : Z.of_nat (length [Byte.x13; Byte.x00]) < PGSIZE.
Proof. reflexivity. Qed.
End BootDemo.

Lemma kernel_boots_witness : ∃ s', main_hart0 1 2 30 BootDemo.idle_reads BootDemo.no_reads BootDemo.qemu_mmio 0 1 0 [] 0x80005d00 0x80001a00 [Byte.x13; Byte.x00] [] []
  BootDemo.blank_kernel = Ret tt s'.
Proof.
  destruct (kernel_boots 1 2 30 BootDemo.idle_reads BootDemo.no_reads BootDemo.qemu_mmio 0 1 0 [] 0x80005d00 0x80001a00 [Byte.x13; Byte.x00] [] []
    BootDemo.blank_kernel BootDemo.blank_fresh BootDemo.idle_live BootDemo.qemu_good BootDemo.image_pages BootDemo.initcode_short) as (s' & E & _).
  exists s'. exact E.
Defined.

Lemma harts_wait_for_boot_witness : ∃ s1 c, main_hart0 1 2 30 BootDemo.idle_reads BootDemo.no_reads BootDemo.qemu_mmio 0 1 0 [] 0x80005d00 0x80001a00 [Byte.x13; Byte.x00] [] []
  BootDemo.blank_kernel = Ret tt s1 ∧ csr_satp c = MAKE_SATP (kernel_pagetable _ _ _ _ _ _ _ _ _ _ s1).
Proof.
  destruct (hart0_boots 1 2 30 BootDemo.idle_reads BootDemo.no_reads BootDemo.qemu_mmio 0 1 0 [] 0x80005d00 0x80001a00 [Byte.x13; Byte.x00] [] []
    BootDemo.blank_kernel BootDemo.blank_fresh BootDemo.idle_live BootDemo.qemu_good BootDemo.image_pages BootDemo.initcode_short)
    as (s1 & E & (F & T & root & ss & tf & pt & pg & T' & Hst & Hpl & Hpn & _)). rewrite main_hart0_calls in E.
  pose proof (calls_reach 1 2 30 BootDemo.idle_reads BootDemo.no_reads BootDemo.qemu_mmio 0 1 0 [] 0x80005d00 0x80001a00 [Byte.x13; Byte.x00] [] []
    BootDemo.blank_kernel s1 _ 0%nat BootDemo.blank_kernel (λ _, None) eq_refl (main_reach_0 _ _ _ _ _ _ _ _ _ _ _ _ _ _ _ _) E) as Hr.
  destruct (main_other_run 1 2 30 BootDemo.idle_reads BootDemo.no_reads 0 1 0 [] 0x80005d00 []
    (with_csrs 1 2 30 BootDemo.idle_reads BootDemo.no_reads 0 1 0 [] [] (Csrs 0 0 0 0 0 0 1) s1) BootDemo.idle_live Hpn (λ _, Hpl)) as (s2 & E2 & _).
  eapply main_reach_step in Hr; [|exact (b_pass _ _ _ _ _ _ _ _ _ _ _ _ _ _ _ 1%nat _ _ s1 s2 (λ _, None) eq_refl Hst E2)].
  destruct (harts_wait_for_boot 1 2 30 BootDemo.idle_reads BootDemo.no_reads BootDemo.qemu_mmio 0 1 0 [] 0x80005d00 0x80001a00 [Byte.x13; Byte.x00] [] []
    BootDemo.blank_kernel eq_refl _ 1%nat _ Hr (fn_lookup_insert _ _ _)) as (_ & s3 & E3 & _ & Hs & _).
  eexists s3, _. split; [exact E3|exact Hs].
Defined.
